(* ===== verification/_CoqProject ===== *)
-Q . S2P
Prelude.v
Bitmap.v
Spinlock.v
Pmm.v
Frames.v
Vmm.v
VmmTree.v
Heap.v
HeapSpec.v
HeapUse.v
Task.v
Sched.v
SchedSpec.v
SchedThm.v
SchedLive.v
KString.v
Klog.v
Printf.v
PrintfThm.v
Process.v
ProcessThm.v
Spawn.v
Exit.v
PageFault.v
ProcessDemo.v
Input.v
KHeap.v
Vfs.v
Ramfs.v
Partition.v
Fat32.v
Ext4.v
Ext4Thm.v
Ntfs.v
NtfsThm.v
Devfs.v
Elf.v
Syscall.v
SyscallThm.v
Init.v
Framebuffer.v
Terminal.v
TerminalThm.v
Pci.v
PciThm.v
ShellPath.v
ShellLine.v
ShellLex.v
Shell.v
ShellThm.v
LibcHeap.v
LibcHeapThm.v
LibcString.v
LibcStdio.v
LibcKernel.v
UserInit.v
Dirent.v
UserShell.v
UserShellThm.v
Hal.v
HalThm.v
Asm.v
AsmThm.v
Ata.v
AtaThm.v
Dbg.v
DbgThm.v
DbgConsole.v
UsbHid.v
Dma.v
Xhci.v
XhciThm.v
UsbDevice.v
UsbDeviceThm.v
Ahci.v
AhciThm.v
Ps2.v
