(* ===== verification/Prelude.v ===== *)
(** * NexusOS: a verification of the kernel's core

    NexusOS (src/) is an x86_64 hobby kernel in C with a small user space.  This
    library models the parts of the kernel that carry its logic, as executable
    functions on explicit states, and proves what makes each of them correct.
    This file is the root: the header below, and then the shared prelude
    (machine integers, arrays, linked lists, tactics, hint databases).

    ** The program and its model

    Memory management (kernel/src/lib/bitmap.h, kernel/src/mm/):
    - Bitmap: the three inline bit operations on byte arrays.
    - Pmm: pmm.c, the physical frame allocator: bitmap, 16-bit reference
      counts, statistics, initialisation from the boot memory map.
    - Frames: the frame store, an interface (a class with laws) through which the
      page-table code allocates, frees and addresses frames; Pmm is an instance.
    - Vmm, VmmTree: vmm.c, four-level page tables in the frame store; the
      abstraction is the address translation of the hardware walk.
    - Heap, HeapSpec, HeapUse: heap.c at pointer level, its refinement to lists
      of blocks, and its clients' view (growth, aligned allocation).
    - KHeap: the interface of the heap (allocate, free, laws), with the proof
      that Heap satisfies it; the file systems are proved against it.

    Concurrency and scheduling (kernel/src/lib/spinlock.*, kernel/src/sched/):
    - Spinlock: the lock on one CPU, and as an interleaving of instructions of
      any number of CPUs.
    - Task: thread.h, process.h, scheduler.h: the records and the CPU registers.
    - Sched, SchedSpec, SchedThm, SchedLive: scheduler.c; the run queues refine
      eight FIFO lists, the operations are the steps of a transition system.
    - Process, ProcessThm, Spawn, Exit, PageFault, ProcessDemo: process.c,
      thread.c, vma.c, the first switch of context.asm and the page fault
      handler of vmm.c, over the joint state of heap, page tables and scheduler.

    Libraries (kernel/src/lib/):
    - KString: string.c over a byte-addressed memory.
    - Klog, Printf, PrintfThm: klog.c and printf.c.

    Input (kernel/src/drivers/input/):
    - Input: the event queue, the PS/2 keyboard and mouse decoders.
    - Ps2: ps2_controller.c, the set-up of keyboard and mouse and their interrupt
      handlers, over ports behind which a controller follows its protocol.

    Display (kernel/src/drivers/video/, kernel/src/display/):
    - Framebuffer: framebuffer.c with its font; each operation paints a region.
    - Terminal, TerminalThm: terminal.c, the VT100 parser as a state machine over
      the back buffers and the framebuffer; display_manager.c and the timer tick.

    File systems (kernel/src/fs/):
    - Vfs: vfs.c, over a class of file systems (the operation tables).
    - Ramfs: ramfs.c, an instance of the class over KHeap.
    - Partition: partition.c, MBR and GPT, and the sector-read dispatcher.
    - Fat32: fat32.c, an instance of the class over sectors and KHeap.
    - Ext4, Ext4Thm: ext4.c, likewise; the abstraction of an extent tree is the
      list of its extents.
    - Ntfs, NtfsThm: ntfs.c, likewise, read only; data runs in their encoding.
    - Devfs: devfs.c, an instance on the console, the event queue and
      the sector readers; what arrives while a terminal reader waits is explicit.

    User processes (kernel/src/syscall/):
    - Elf: elf_loader.c, over Process and any instance of the class.
    - Syscall, SyscallThm: syscall_table.c and syscall_handlers.c, every handler,
      over processes, any file system and the memory that user pointers reach.
    - Init: init_process.c, from the empty process to its first thread.

    The hardware layer (kernel/src/hal/, kernel/src/arch/x86_64/, drivers/timer/):
    - Hal, HalThm: gdt.c, idt.c, pic.c and pit.c; the tables as the processor reads
      them, the dispatcher, the two interrupt controllers as state machines.
    - Asm, AsmThm: the assembly files as lists of instructions of a small machine
      with registers and a stack: system call entry, interrupt stubs, the switch of
      contexts, the first run of a thread, the wrappers of the user library.

    Devices (kernel/src/drivers/):
    - Pci, PciThm: pci.c and driver_manager.c over a machine (a class of port
      accesses) whose configuration space obeys the documented laws.
    - Ata, AtaThm: ata.c over ports behind which a disk follows the ATA protocol,
      with any delays and errors.
    - Dma: the machine as drivers with registers in memory see it.
    - Xhci, XhciThm: xhci.c up to its rings; UsbDevice, UsbDeviceThm: the set-up
      of the controller, enumeration and descriptors (usb_device.c); UsbHid: the
      reports of keyboards and mice (usb_hid.c).
    - Ahci, AhciThm: ahci.c, with a port that works from the memory it shares.

    The debugger (debugger/src/):
    - Dbg, DbgThm: breakpoints, registers, memory, symbols and the log of the
      debugger, over page tables of Vmm; DbgConsole: the polled console.

    The kernel shell (kernel/src/shell/):
    - ShellPath: path normalisation; ShellLine: the key loop of shell_core.c, which
      refines an editor on a text; ShellLex: the tokenizer of shell_execute.
    - Shell, ShellThm: the dispatcher and all registered commands (cmds/), over any
      file system and the console; the theorem composes it with Vfs and Ramfs.

    The user space (userspace/libc/src/, userspace/init/):
    - LibcHeap, LibcHeapThm: malloc and its relatives of stdlib.c over the system call
      brk, whose behaviour is a class with Syscall as an instance.
    - LibcString: string.c, agreement with KString, and strtok.
    - LibcStdio: stdio.c and its part of unistd.c, over the class of
      the system calls that move bytes; LibcKernel: the kernel as its instance.
    - UserInit: init.c over the process calls; Dirent: dirent.c, the streams over
      directories.
    - UserShell, UserShellThm: the user shell (userspace/shell/), its lexer, pipes,
      redirections and builtins over the calls of Dirent and UserInit.

    ** How the code is read

    An unsigned integer of w bits is a [Z] reduced modulo [2^w] where the code
    stores it ([u8] to [u64]); signed ones are the two's complement
    representative ([s32], [s64]).  A C object allocated on the heap is an entry
    at its address in a map of its type; 0 is NULL.  Static variables are record
    fields.  A function that changes state takes and returns it; [None] is what
    the C language or the machine leaves undefined (an access through NULL or a
    stray pointer, an overrun buffer, a division by zero) or a loop that never
    ends.  Loops over linked structures carry fuel: the number of objects in the
    map, of accessible bytes, or of characters, which bounds them whenever they
    end; the theorems show that the fuel suffices.  The only loops with fuel as a
    free parameter follow chains on a disk, which may be cyclic, or poll a device.

    ** What the theorems show

    - The frame allocator keeps its invariant under every sequence of calls,
      double frees included; allocation is lowest-first and exact.
    - Mapping and unmapping change the translation of exactly one page; lookups
      agree with the hardware walk; copy-on-write gives a private copy; a page
      fault in a region of the process maps a zeroed frame, one outside kills it.
    - The heap refines block lists: allocation is disjoint from everything live,
      freeing restores and coalesces, allocate-then-free is the identity.
    - The lock is exclusive; the scheduler refines priority FIFO queues, keeps
      its invariant in every reachable state, and is round-robin fair within a
      priority.
    - Process creation, exit, destruction and waiting do exactly what they
      should to threads, queues, page tables and heap.
    - Strings: overlap-safe copies, order and search; printing: bounds and the
      exact rendering; the log keeps the last 64 KiB.
    - The input queue is a bounded FIFO; the decoders invert the device encoding.
    - The terminal keeps screen and back buffer in step under every sequence of
      operations; printing is typing on paper seen through a window.
    - Resolving a path ends and is the lookup of its components through the
      mounts; files created are found again; what is written is read back.  The
      reads of FAT32, ext4 and NTFS are stated against the bytes of a disk image:
      slices of the clusters that the file table links, of the blocks of the
      extent tree with zeros in the holes, of the clusters of the decoded data
      runs.  When an allocation of the call fails, what happens instead is
      stated.  A terminal read is a line editor on the events.
    - Loading a program puts its memory image into the frames byte for byte; no
      system call breaks a descriptor table, open and close are inverse, errors
      change nothing; the first user stack is what the ABI asks for.
    - Every vector reaches its handler with the registers as they were, a device
      interrupt is serviced and acknowledged and the line can fire again; a system
      call returns to the instruction after it with the registers it promises;
      a thread that is switched away goes on where it stopped.
    - ATA and AHCI reads give the sectors asked for, or report an error; the PS/2
      set-up sends its commands in order, gives up on a failed self-test and
      reports the working ports; commands reach a USB controller once and in
      order; the events of HID reports press a key when it goes down, release it
      when it goes up, and leave the keys held that are held.
    - Breakpoints are kept in the debug registers as slots are, dumps read only
      what is mapped, and the console is a line editor.
    - Sizing a PCI register is exact and leaves the device as it was, and the
      enumeration ends on cyclic bridges too.
    - The shell's editor, tokenizer and paths stay inside their buffers and do
      what their reference does; what one command line writes another prints.

    Behaviour that contradicts a comment or the evident intention is stated as
    an [Example] or a theorem next to the component it concerns.

    ** Not modelled

    - The boot protocol (kernel/src/boot/): data for a boot loader that is not part
      of the repository; the memory map and the modules it delivers are arguments.
    - The kernel's main function (kernel/src/kernel.c): it calls the initialisations
      in order and prints; each of them is modelled over the state of its component,
      and these have no joint state in which the order could be stated without
      replacing the calls by stand-ins.
    - The embedded test program (init_dummy.h) is generated data.
    - Real devices: what is behind a port or a register is described by laws, each
      with an instance that computes.  Memory is sequentially consistent, so fences
      have no effect.  The messages that drivers send to the debug log, powering off
      and the link order of the shell's commands are left out or parameters. *)
From stdpp Require Import prelude gmap list strings.
From Stdlib Require Import ZArith Lia.

Open Scope Z_scope.

(** ** Machine integers

    A C object of an unsigned type of [w] bits holds a value of [0, 2^w); a
    value is reduced modulo [2^w] when it is stored.  Signed objects hold the
    two's complement representative. *)

Definition wrap (w x : Z) : Z := x mod 2 ^ w.

Definition swrap (w x : Z) : Z := (x + 2 ^ (w - 1)) mod 2 ^ w - 2 ^ (w - 1).

Declare Scope word_scope.
Delimit Scope word_scope with word.

Notation u8 := (wrap 8).
Notation u16 := (wrap 16).
Notation u32 := (wrap 32).
Notation u64 := (wrap 64).
Notation s8 := (swrap 8).
Notation s16 := (swrap 16).
Notation s32 := (swrap 32).
Notation s64 := (swrap 64).

Notation "x '+u64' y" := (wrap 64 (x + y)) (at level 50, left associativity) : word_scope.
Notation "x '-u64' y" := (wrap 64 (x - y)) (at level 50, left associativity) : word_scope.
Notation "x '*u64' y" := (wrap 64 (x * y)) (at level 40, left associativity) : word_scope.

(** [fits w x] : [x] is a value of the unsigned type of [w] bits. *)
Definition fits (w x : Z) : Prop := 0 <= x < 2 ^ w.

(** C truth of an integer expression. *)
Definition nonzero (x : Z) : bool := negb (x =? 0).

(** [x & m], as a C condition. *)
Definition has_flag (x m : Z) : bool := nonzero (Z.land x m).

(** The reference prelude's tactics.  [zmod] gives [lia] the defining equations
    of [/] and [mod]; [inv H] inverts and substitutes. *)
Ltac zmod := Z.div_mod_to_equations; lia.

Ltac inv H := inversion H; clear H; subst.

Ltac case_bool :=
  match goal with
  | |- context [?a =? ?b] => destruct (Z.eqb_spec a b)
  | |- context [?a <? ?b] => destruct (Z.ltb_spec a b)
  | |- context [?a <=? ?b] => destruct (Z.leb_spec a b)
  | H : context [?a =? ?b] |- _ => destruct (Z.eqb_spec a b)
  | H : context [?a <? ?b] |- _ => destruct (Z.ltb_spec a b)
  | H : context [?a <=? ?b] |- _ => destruct (Z.leb_spec a b)
  end.

Ltac case_bools := repeat (case_bool; simpl in *).

Create HintDb nexus.

Lemma wrap_small w x : fits w x -> wrap w x = x.
Proof. intros H. apply Z.mod_small, H. Qed.

Lemma wrap_fits w x : 0 <= w -> fits w (wrap w x).
Proof. intros H. apply Z.mod_pos_bound, Z.pow_pos_nonneg; lia. Qed.

Lemma wrap_wrap w x : wrap w (wrap w x) = wrap w x.
Proof. unfold wrap. destruct (Z.eq_dec (2 ^ w) 0) as [E|E]; [rewrite E, !Zmod_0_r; done | by rewrite Z.mod_mod]. Qed.

Lemma wrap_range64 x : 0 <= wrap 64 x < 18446744073709551616.
Proof. apply (wrap_fits 64 x). lia. Qed.

Lemma nonzero_true x : nonzero x = true <-> x <> 0.
Proof. unfold nonzero. destruct (Z.eqb_spec x 0); naive_solver. Qed.

Lemma nonzero_false x : nonzero x = false <-> x = 0.
Proof. unfold nonzero. destruct (Z.eqb_spec x 0); naive_solver. Qed.

Lemma lor_high a b n : 0 <= n -> 0 <= a < 2 ^ n -> Z.lor a (Z.shiftl b n) = a + Z.shiftl b n.
Proof.
  intros Hn Ha. assert (Hl : Z.land a (Z.shiftl b n) = 0).
  { apply Z.bits_inj'. intros i Hi. rewrite Z.land_spec, Z.shiftl_spec, Z.bits_0 by lia.
    destruct (Z.lt_ge_cases i n) as [Hlt|Hge].
    - by rewrite (Z.testbit_neg_r _ (i - n)), andb_false_r by lia.
    - destruct (decide (a = 0)) as [->|Ha0]; [by rewrite Z.testbit_0_l|]. rewrite Z.bits_above_log2; [done|lia|].
      assert (Z.log2 a < n); [|lia]. apply Z.log2_lt_pow2; lia. }
  rewrite <- Z.lxor_lor by done. symmetry. by apply Z.add_nocarry_lxor.
Qed.

#[export] Hint Resolve wrap_fits : nexus.
#[export] Hint Rewrite wrap_wrap : nexus.

(** ** Arrays

    A C array is a list; [aget] reads it at a [Z] index with a default for the
    indices that the invariants rule out, [aset] writes it in place. *)

Section arrays.
Context {A : Type}.
Implicit Types (l : list A) (i j : Z) (d x : A).

Definition aget d l i : A := default d (l !! Z.to_nat i).

Definition aset l i x : list A := <[Z.to_nat i := x]> l.

Definition alen l : Z := Z.of_nat (length l).

Lemma aget_aset_eq d l i x : 0 <= i < alen l -> aget d (aset l i x) i = x.
Proof. intros H. unfold aget, aset, alen in *. by rewrite list_lookup_insert_eq by lia. Qed.

Lemma aget_aset_ne d l i j x : 0 <= i -> 0 <= j -> i <> j -> aget d (aset l i x) j = aget d l j.
Proof. intros. unfold aget, aset. by rewrite list_lookup_insert_ne by lia. Qed.

Lemma alen_aset l i x : alen (aset l i x) = alen l.
Proof. unfold alen, aset. by rewrite length_insert. Qed.

Lemma alen_nonneg l : 0 <= alen l.
Proof. unfold alen. lia. Qed.

Lemma aget_lookup d l i : 0 <= i < alen l -> l !! Z.to_nat i = Some (aget d l i).
Proof.
  intros H. unfold aget, alen in *.
  destruct (lookup_lt_is_Some_2 l (Z.to_nat i)) as [y Hy]; [lia|]. by rewrite Hy.
Qed.

Lemma aget_ge d l i : alen l <= i -> aget d l i = d.
Proof. intros H. unfold aget, alen in *. by rewrite lookup_ge_None_2 by lia. Qed.

Lemma aget_replicate d n x i : 0 <= i < Z.of_nat n -> aget d (replicate n x) i = x.
Proof. intros H. unfold aget. by rewrite lookup_replicate_2 by lia. Qed.

Lemma Forall_aset (P : A -> Prop) l i x : Forall P l -> P x -> Forall P (aset l i x).
Proof. intros. by apply Forall_insert. Qed.

Lemma Forall_aget (P : A -> Prop) d l i : Forall P l -> P d -> P (aget d l i).
Proof.
  intros Hl Hd. unfold aget. destruct (l !! Z.to_nat i) as [y|] eqn:E; [|done].
  by apply (Forall_lookup_1 _ _ _ _ Hl E).
Qed.

End arrays.

#[export] Hint Rewrite @alen_aset : nexus.

Lemma filter_ext_in {A} (P Q : A -> Prop) `{!forall x, Decision (P x)} `{!forall x, Decision (Q x)} (l : list A) :
  (forall x, x ∈ l -> P x <-> Q x) -> filter P l = filter Q l.
Proof.
  induction l as [|x l IH]; intros Hx; [done|]. rewrite !filter_cons.
  specialize (Hx x) as Hxx. rewrite IH by (intros y Hy; apply Hx; by right).
  destruct (decide (P x)), (decide (Q x)); try done; exfalso; set_solver.
Qed.

Lemma filter_all {A} (P : A -> Prop) `{!forall x, Decision (P x)} (l : list A) :
  (forall x, x ∈ l -> P x) -> filter P l = l.
Proof.
  induction l as [|x l IH]; intros Hx; [done|]. rewrite filter_cons_True by (apply Hx; by left).
  rewrite IH; [done|]. intros y Hy. apply Hx. by right.
Qed.

(** ** Text

    A string literal is the list of its bytes; the string in a buffer ends
    before the first NUL. *)

Definition txt (s : string) : list Z := map (fun a => Z.of_nat (Ascii.nat_of_ascii a)) (String.list_ascii_of_string s).

Fixpoint c_str (l : list Z) : list Z := match l with [] => [] | c :: l => if c =? 0 then [] else c :: c_str l end.

Lemma c_str_app s l : Forall (fun c => c <> 0) s -> c_str (s ++ 0 :: l) = s.
Proof. induction 1 as [|c s Hc _ IH]; [done|]. cbn [app c_str]. by rewrite (proj2 (Z.eqb_neq c 0) Hc), IH. Qed.

Lemma c_str_nonzero l : Forall (fun c => c <> 0) (c_str l).
Proof. induction l as [|c l IH]; [done|]. cbn [c_str]. case_bool; [done|]. by constructor. Qed.

Lemma c_str_all s : Forall (fun c => c <> 0) s -> c_str s = s.
Proof. induction 1 as [|c s Hc _ IH]; [done|]. cbn [c_str]. by rewrite (proj2 (Z.eqb_neq c 0) Hc), IH. Qed.

(** ** Lists of blocks of one size *)

Lemma drop_block (bs : Z) (ds : list (list Z)) : forall k, 0 <= bs -> Forall (fun d => alen d = bs) ds -> (k <= length ds)%nat ->
  drop (Z.to_nat (bs * Z.of_nat k)) (concat ds) = concat (drop k ds).
Proof.
  induction ds as [|d ds IH]; intros [|k] Hb F Hk; cbn [length] in Hk; try lia; cbn [drop concat].
  - by rewrite Z.mul_0_r.
  - by rewrite Z.mul_0_r.
  - apply Forall_cons in F as [Hd F]. unfold alen in Hd.
    replace (Z.to_nat (bs * Z.of_nat (S k))) with (length d + Z.to_nat (bs * Z.of_nat k))%nat by lia.
    rewrite <- drop_drop, drop_app_length. apply IH; [done|done|lia].
Qed.

Lemma concat_size (bs : Z) (ds : list (list Z)) : Forall (fun d => alen d = bs) ds -> alen (concat ds) = bs * alen ds.
Proof.
  unfold alen. induction 1 as [|d ds Hd _ IH]; cbn [concat length]; [lia|]. rewrite length_app. lia.
Qed.

(** A piece inside block [l]. *)
Lemma block_piece (bs : Z) (ds : list (list Z)) l d bo n : 0 <= bs -> Forall (fun d => alen d = bs) ds ->
  ds !! Z.to_nat l = Some d -> 0 <= l -> 0 <= bo -> 0 <= n -> bo + n <= bs ->
  take (Z.to_nat n) (drop (Z.to_nat (l * bs + bo)) (concat ds)) = take (Z.to_nat n) (drop (Z.to_nat bo) d).
Proof.
  intros Hb F Ed Hl Hbo Hn Hle. pose proof (lookup_lt_Some _ _ _ Ed) as Hlt.
  replace (Z.to_nat (l * bs + bo)) with (Z.to_nat (bs * Z.of_nat (Z.to_nat l)) + Z.to_nat bo)%nat by nia.
  rewrite <- drop_drop, drop_block by (done || lia). rewrite (drop_S ds d (Z.to_nat l) Ed). cbn [concat].
  assert (Hd : alen d = bs) by (by apply (Forall_lookup_1 _ _ _ _ F Ed)). unfold alen in Hd.
  rewrite drop_app_le by lia. rewrite take_app_le by (rewrite length_drop; lia). done.
Qed.

(** ** Linked lists

    The objects of one C type are a map from addresses; [linked m h l] says that
    the list starting at the pointer [h] and following the field [nxt] visits
    the addresses [l] and ends with NULL. *)

Section linked.
Context {A : Type} (nxt : A -> Z).
Implicit Types (m : gmap Z A) (h x : Z) (l : list Z).

Fixpoint linked m h l : Prop :=
  match l with
  | [] => h = 0
  | x :: l => h = x /\ x <> 0 /\ exists a, m !! x = Some a /\ linked m (nxt a) l
  end.

Lemma linked_det m l : forall h l', linked m h l -> linked m h l' -> l = l'.
Proof.
  induction l as [|x l IH]; intros h [|y l']; simpl; [done|naive_solver..|].
  intros (-> & ? & a & E & L) (-> & _ & a' & E' & L'). rewrite E in E'. injection E' as <-. f_equal. by apply (IH (nxt a)).
Qed.

Lemma linked_app m l1 l2 : forall h, linked m h (l1 ++ l2) ->
  exists x, linked m x l2 /\ (forall l3, linked m x l3 -> linked m h (l1 ++ l3)).
Proof.
  induction l1 as [|y l1 IH]; intros h; simpl; [intros L; by exists h|].
  intros (-> & ? & a & E & L). destruct (IH _ L) as (x & Lx & Hx). exists x. split; [done|].
  intros l3 L3. split_and!; [done..|]. exists a. auto.
Qed.

Lemma linked_head m h x l : linked m h (x :: l) -> h = x.
Proof. by intros [-> _]. Qed.

(** A list that ends cannot meet an address twice. *)
Lemma linked_NoDup m l : forall h, linked m h l -> NoDup l.
Proof.
  induction l as [|x l IH]; intros h L; [constructor|]. pose proof L as (-> & _ & a & E & L').
  constructor; [|by eapply IH]. intros (l1 & l2 & ->)%list_elem_of_split.
  destruct (linked_app _ _ _ _ L') as (y & Ly & _). pose proof (linked_head _ _ _ _ Ly) as ->.
  pose proof (linked_det _ _ _ _ L Ly) as Heq. apply (f_equal length) in Heq.
  simpl in Heq. rewrite length_app in Heq. simpl in Heq. lia.
Qed.

Lemma linked_dom m l : forall h, linked m h l -> forall x, x ∈ l -> x <> 0 /\ is_Some (m !! x).
Proof.
  induction l as [|y l IH]; intros h L x Hx; [by apply elem_of_nil in Hx|].
  destruct L as (-> & ? & a & E & L). apply elem_of_cons in Hx as [->|Hx]; [by eauto|by eapply IH].
Qed.

Lemma linked_agree m m' l : forall h,
  (forall x, x ∈ l -> nxt <$> m' !! x = nxt <$> m !! x) -> linked m h l -> linked m' h l.
Proof.
  induction l as [|y l IH]; intros h Ha; simpl; [done|]. intros (-> & ? & a & E & L).
  pose proof (Ha y ltac:(by left)) as Hy. rewrite E in Hy.
  destruct (m' !! y) as [a'|] eqn:E'; simplify_eq/=. split_and!; [done..|]. exists a'. split; [done|].
  rewrite Hy. apply IH; [|done]. intros u Hu. apply Ha. by right.
Qed.

Lemma linked_delete m l h x : x ∉ l -> linked m h l -> linked (delete x m) h l.
Proof. intros Hx. apply linked_agree. intros u Hu. rewrite lookup_delete_ne; [done|]. by intros ->. Qed.

Lemma linked_insert m l h x a : x ∉ l -> linked m h l -> linked (<[x := a]> m) h l.
Proof. intros Hx. apply linked_agree. intros u Hu. rewrite lookup_insert_ne; [done|]. by intros ->. Qed.

Lemma linked_length m h l : linked m h l -> (length l <= map_size m)%nat.
Proof.
  intros L. pose proof (linked_NoDup _ _ _ L) as Nd.
  rewrite <- (size_list_to_set (C := gset Z) l) by done.
  replace (map_size m) with (size (dom m)) by apply size_dom.
  apply subseteq_size. intros x Hx%elem_of_list_to_set. apply elem_of_dom.
  apply (linked_dom _ _ _ L x Hx).
Qed.

(** Redirecting the link before an element to the one after it removes it. *)
Lemma linked_unlink m l1 q x l2 ax a' : forall h,
  linked m h (l1 ++ q :: x :: l2) -> m !! x = Some ax -> nxt a' = nxt ax ->
  linked (<[q := a']> m) h (l1 ++ q :: l2).
Proof.
  induction l1 as [|y l1 IH]; intros h L Ex Ea; simpl in L |- *.
  - pose proof (linked_NoDup m (q :: x :: l2) h L) as [Hq _]%NoDup_cons.
    destruct L as (-> & ? & aq & Eq & Hn & ? & ax' & Ex' & L). rewrite Ex in Ex'. injection Ex' as <-. split_and!; [done..|].
    exists a'. rewrite lookup_insert_eq, Ea. split; [done|]. apply linked_insert; [|done].
    intros Hin. apply Hq. by right.
  - pose proof (linked_NoDup m (y :: l1 ++ q :: x :: l2) h L) as [Hy _]%NoDup_cons. destruct L as (-> & ? & ay & Ey & L).
    split_and!; [done..|]. exists ay. rewrite lookup_insert_ne; [by split; [|apply IH]|]. intros ->. apply Hy. set_solver.
Qed.

End linked.
