(* ===== verification/Bitmap.v ===== *)
(** The bitmap operations of kernel/src/lib/bitmap.h: a bitmap is a byte
    array, bit [n] is bit [n mod 8] of byte [n / 8].  [bit_at] is the abstract
    view (a predicate on bit numbers); the operations are proved to update it
    at exactly one point, and [clear_count] counts the clear bits below a bound. *)
From stdpp Require Import prelude list.
From Stdlib Require Import ZArith Lia.
From S2P Require Import Prelude.

Open Scope Z_scope.

(** [bitmap[bit / 8] |= (1 << (bit % 8))], stored back in a [uint8_t]. *)
Definition bitmap_set (bitmap : list Z) (bit : Z) : list Z :=
  aset bitmap (bit / 8)
    (u8 (Z.lor (aget 0 bitmap (bit / 8)) (Z.shiftl 1 (bit mod 8)))).

(** [bitmap[bit / 8] &= ~(1 << (bit % 8))]. *)
Definition bitmap_clear (bitmap : list Z) (bit : Z) : list Z :=
  aset bitmap (bit / 8)
    (u8 (Z.land (aget 0 bitmap (bit / 8)) (Z.lnot (Z.shiftl 1 (bit mod 8))))).

(** [bitmap[bit / 8] & (1 << (bit % 8))]: non-zero when the bit is set. *)
Definition bitmap_test (bitmap : list Z) (bit : Z) : Z :=
  Z.land (aget 0 bitmap (bit / 8)) (Z.shiftl 1 (bit mod 8)).

(** The abstract view of a bitmap. *)
Definition bit_at (bitmap : list Z) (bit : Z) : bool :=
  Z.testbit (aget 0 bitmap (bit / 8)) (bit mod 8).

(** Number of clear bits among [i .. i + n - 1]. *)
Fixpoint clear_from (bitmap : list Z) (i : Z) (n : nat) : Z :=
  match n with
  | O => 0
  | S n => (if bit_at bitmap i then 0 else 1) + clear_from bitmap (i + 1) n
  end.

Definition clear_count (bitmap : list Z) (n : Z) : Z := clear_from bitmap 0 (Z.to_nat n).

Lemma testbit_one_shift k j : 0 <= k -> 0 <= j -> Z.testbit (Z.shiftl 1 k) j = (k =? j).
Proof.
  intros Hk Hj. rewrite Z.shiftl_spec by done.
  destruct (Z.eqb_spec k j) as [->|Hne]; [by rewrite Z.sub_diag|].
  destruct (Z.ltb_spec j k); [by rewrite Z.testbit_neg_r by lia|].
  replace (j - k) with (Z.succ (j - k - 1)) by lia.
  by rewrite (Z.testbit_succ_r 0 true), Z.bits_0 by lia.
Qed.

Lemma land_one_shift a k : 0 <= k ->
  Z.land a (Z.shiftl 1 k) = if Z.testbit a k then Z.shiftl 1 k else 0.
Proof.
  intros Hk. apply Z.bits_inj'. intros j Hj.
  rewrite Z.land_spec, testbit_one_shift by done.
  destruct (Z.eqb_spec k j) as [->|Hne].
  - destruct (Z.testbit a j); [by rewrite testbit_one_shift, Z.eqb_refl|by rewrite Z.bits_0].
  - rewrite andb_false_r. destruct (Z.testbit a k); [|by rewrite Z.bits_0].
    rewrite testbit_one_shift by done. by destruct (Z.eqb_spec k j).
Qed.

Lemma testbit_u8 a j : 0 <= j < 8 -> Z.testbit (u8 a) j = Z.testbit a j.
Proof. intros. unfold wrap. by rewrite Z.mod_pow2_bits_low by lia. Qed.

Lemma mod8 b : 0 <= b mod 8 < 8.
Proof. apply Z.mod_pos_bound. lia. Qed.

#[export] Hint Resolve mod8 : nexus.

Lemma bitmap_test_spec bm i : nonzero (bitmap_test bm i) = bit_at bm i.
Proof.
  unfold bitmap_test, bit_at. pose proof (mod8 i).
  rewrite land_one_shift by lia. destruct (Z.testbit _ _); [|done].
  apply nonzero_true. rewrite Z.shiftl_1_l. apply Z.pow_nonzero; lia.
Qed.

Section update.
Context (bm : list Z) (i j : Z) (Hi : 0 <= i < 8 * alen bm) (Hj : 0 <= j).

Let byte_in_range : 0 <= i / 8 < alen bm.
Proof. split; [apply Z.div_pos; lia|apply Z.div_lt_upper_bound; lia]. Qed.

Lemma same_byte : i / 8 = j / 8 -> i mod 8 = j mod 8 -> i = j.
Proof. intros. rewrite (Z.div_mod i 8), (Z.div_mod j 8) by lia. congruence. Qed.

Lemma bit_at_aset v :
  bit_at (aset bm (i / 8) v) j = if i / 8 =? j / 8 then Z.testbit v (j mod 8) else bit_at bm j.
Proof.
  unfold bit_at. destruct (Z.eqb_spec (i / 8) (j / 8)) as [E|E].
  - by rewrite <- E, aget_aset_eq.
  - rewrite aget_aset_ne; [done|lia|apply Z.div_pos; lia|done].
Qed.

Lemma bit_at_set : bit_at (bitmap_set bm i) j = (i =? j) || bit_at bm j.
Proof.
  unfold bitmap_set. rewrite bit_at_aset. pose proof (mod8 i). pose proof (mod8 j).
  destruct (Z.eqb_spec (i / 8) (j / 8)) as [E|E].
  - rewrite testbit_u8, Z.lor_spec, testbit_one_shift, E by lia. fold (bit_at bm j).
    destruct (Z.eqb_spec i j) as [->|Hne]; [by rewrite Z.eqb_refl, orb_true_r|].
    destruct (Z.eqb_spec (i mod 8) (j mod 8)); [by destruct Hne; apply same_byte|apply orb_false_r].
  - by destruct (Z.eqb_spec i j) as [->|].
Qed.

Lemma bit_at_clear : bit_at (bitmap_clear bm i) j = negb (i =? j) && bit_at bm j.
Proof.
  unfold bitmap_clear. rewrite bit_at_aset. pose proof (mod8 i). pose proof (mod8 j).
  destruct (Z.eqb_spec (i / 8) (j / 8)) as [E|E].
  - rewrite testbit_u8, Z.land_spec, Z.lnot_spec, testbit_one_shift, E by lia. fold (bit_at bm j).
    destruct (Z.eqb_spec i j) as [->|Hne]; [by rewrite Z.eqb_refl, andb_false_r|].
    destruct (Z.eqb_spec (i mod 8) (j mod 8)); [by destruct Hne; apply same_byte|apply andb_true_r].
  - by destruct (Z.eqb_spec i j) as [->|].
Qed.

End update.

Lemma alen_bitmap_set bm i : alen (bitmap_set bm i) = alen bm.
Proof. apply alen_aset. Qed.

Lemma alen_bitmap_clear bm i : alen (bitmap_clear bm i) = alen bm.
Proof. apply alen_aset. Qed.

Definition byte_array (bm : list Z) : Prop := Forall (fits 8) bm.

Lemma byte_array_set bm i : byte_array bm -> byte_array (bitmap_set bm i).
Proof. intros. apply Forall_aset; [done|]. by apply wrap_fits. Qed.

Lemma byte_array_clear bm i : byte_array bm -> byte_array (bitmap_clear bm i).
Proof. intros. apply Forall_aset; [done|]. by apply wrap_fits. Qed.

#[export] Hint Rewrite alen_bitmap_set alen_bitmap_clear bitmap_test_spec : nexus.
#[export] Hint Resolve byte_array_set byte_array_clear : nexus.

(** Counting. *)

Lemma clear_from_ext bm bm' i n :
  (forall j, i <= j < i + Z.of_nat n -> bit_at bm' j = bit_at bm j) ->
  clear_from bm' i n = clear_from bm i n.
Proof.
  revert i. induction n as [|n IH]; intros i H; [done|]. cbn [clear_from].
  rewrite (H i) by lia. rewrite IH; [done|]. intros j Hj. apply H. lia.
Qed.

Lemma clear_from_bounds bm i n : 0 <= clear_from bm i n <= Z.of_nat n.
Proof.
  revert i. induction n as [|n IH]; intros i; cbn [clear_from]; [lia|].
  specialize (IH (i + 1)). destruct (bit_at bm i); lia.
Qed.

(** One bit changes: the count changes by the difference at that bit. *)
Lemma clear_from_update bm bm' k i n :
  i <= k < i + Z.of_nat n ->
  (forall j, i <= j -> j <> k -> bit_at bm' j = bit_at bm j) ->
  clear_from bm' i n =
    clear_from bm i n + Z.b2z (bit_at bm k) - Z.b2z (bit_at bm' k).
Proof.
  revert i. induction n as [|n IH]; intros i Hk H; [lia|]. cbn [clear_from].
  destruct (decide (i = k)) as [->|Hne].
  - rewrite (clear_from_ext bm bm'); [|intros; apply H; lia].
    destruct (bit_at bm k), (bit_at bm' k); simpl; lia.
  - rewrite IH by first [lia|intros; apply H; lia]. rewrite (H i) by lia. lia.
Qed.

Lemma clear_count_set bm k n :
  0 <= k < n -> n <= 8 * alen bm ->
  clear_count (bitmap_set bm k) n = clear_count bm n - Z.b2z (negb (bit_at bm k)).
Proof.
  intros Hk Hn. unfold clear_count. rewrite (clear_from_update bm _ k) by
    first [lia|intros; rewrite bit_at_set by lia; by destruct (Z.eqb_spec k j)].
  rewrite bit_at_set, Z.eqb_refl by lia. destruct (bit_at bm k); simpl; lia.
Qed.

Lemma clear_count_clear bm k n :
  0 <= k < n -> n <= 8 * alen bm ->
  clear_count (bitmap_clear bm k) n = clear_count bm n + Z.b2z (bit_at bm k).
Proof.
  intros Hk Hn. unfold clear_count. rewrite (clear_from_update bm _ k) by
    first [lia|intros; rewrite bit_at_clear by lia; by destruct (Z.eqb_spec k j)].
  rewrite bit_at_clear, Z.eqb_refl by lia. destruct (bit_at bm k); simpl; lia.
Qed.

Lemma bit_at_replicate_FF n i :
  0 <= i < 8 * Z.of_nat n -> bit_at (replicate n 255) i = true.
Proof.
  intros H. unfold bit_at. rewrite aget_replicate.
  - pose proof (mod8 i). replace 255 with (Z.ones 8) by done. apply Z.ones_spec_low. lia.
  - split; [apply Z.div_pos; lia|apply Z.div_lt_upper_bound; lia].
Qed.

Lemma clear_from_all_set bm i n :
  (forall j, i <= j < i + Z.of_nat n -> bit_at bm j = true) -> clear_from bm i n = 0.
Proof.
  revert i. induction n as [|n IH]; intros i H; [done|]. cbn [clear_from].
  rewrite H by lia. rewrite IH; [lia|]. intros; apply H; lia.
Qed.
