(* ===== verification/Spinlock.v ===== *)
(** The spinlock of kernel/src/lib/spinlock.c.

    Two views of the same code.  [spinlock_acquire]/[spinlock_release] run on
    one CPU (the kernel is uniprocessor): a test-and-set loop with fuel, the
    CPU's RFLAGS threaded through.  [step] is the instruction-level interleaving
    of any number of CPUs executing the two routines, each transition one
    atomic access to the shared [spinlock_t] or to the CPU's own RFLAGS; the
    theorems there do not rely on interrupts being off. *)
From stdpp Require Import prelude functions relations.
From Stdlib Require Import ZArith Lia.
From S2P Require Import Prelude.

Open Scope Z_scope.

(** [lock]: 0 = unlocked, 1 = locked; [flags]: the holder's saved RFLAGS. *)
Record spinlock_t := Spinlock { lock : Z; flags : Z }.

Definition SPINLOCK_INIT : spinlock_t := Spinlock 0 0.

(** Bit 9 of RFLAGS. *)
Definition RFLAGS_IF : Z := Z.shiftl 1 9.

Definition cli (rflags : Z) : Z := Z.ldiff rflags RFLAGS_IF.

Definition sti (rflags : Z) : Z := Z.lor rflags RFLAGS_IF.

Definition interrupts_on (rflags : Z) : bool := has_flag rflags RFLAGS_IF.

(** ** One CPU *)

(** [while (__sync_lock_test_and_set(&lock->lock, 1)) pause;]: the old value
    is tested, 1 is stored whatever it was. *)
Fixpoint spin (l : spinlock_t) (fuel : nat) : option spinlock_t :=
  match fuel with
  | O => None
  | S fuel =>
      let l' := Spinlock 1 (flags l) in
      if nonzero (lock l) then spin l' fuel else Some l'
  end.

Definition spinlock_acquire (fuel : nat) (rflags : Z) (l : spinlock_t)
  : option (Z * spinlock_t) :=
  let saved := rflags in
  let rflags := cli rflags in
  match spin l fuel with
  | Some l' => Some (rflags, Spinlock (lock l') saved)
  | None => None
  end.

Definition spinlock_release (rflags : Z) (l : spinlock_t) : Z * spinlock_t :=
  let saved := flags l in
  let l' := Spinlock 0 (flags l) in
  ((if nonzero (Z.land saved RFLAGS_IF) then sti rflags else rflags), l').

(** ** Any number of CPUs *)

(** Where a CPU is in the two routines: not in them ([Outside]), spinning with
    its RFLAGS saved in a local, past the test-and-set but before
    [lock->flags = flags], in the critical section, after [flags = lock->flags]
    in the release, after the lock has been cleared. *)
Inductive pc :=
| Outside
| Spinning (saved : Z)
| Taken (saved : Z)
| Critical
| Releasing (saved : Z)
| Restoring (saved : Z).

(** [entry] is a ghost: RFLAGS at the last call of [spinlock_acquire]. *)
Record cpu := Cpu { at_pc : pc; rflags : Z; entry : Z }.

Record machine := Machine { the_lock : spinlock_t; cpus : nat -> cpu }.

Definition set_cpu (i : nat) (c : cpu) (l : spinlock_t) (m : machine) : machine :=
  Machine l (<[i := c]> (cpus m)).

Inductive step : machine -> machine -> Prop :=
| step_acquire m i f e :
    cpus m i = Cpu Outside f e ->
    step m (set_cpu i (Cpu (Spinning f) (cli f) f) (the_lock m) m)
| step_spin m i s f e :
    cpus m i = Cpu (Spinning s) f e -> lock (the_lock m) <> 0 ->
    step m (set_cpu i (Cpu (Spinning s) f e) (Spinlock 1 (flags (the_lock m))) m)
| step_take m i s f e :
    cpus m i = Cpu (Spinning s) f e -> lock (the_lock m) = 0 ->
    step m (set_cpu i (Cpu (Taken s) f e) (Spinlock 1 (flags (the_lock m))) m)
| step_save m i s f e :
    cpus m i = Cpu (Taken s) f e ->
    step m (set_cpu i (Cpu Critical f e) (Spinlock (lock (the_lock m)) s) m)
| step_release m i f e :
    cpus m i = Cpu Critical f e ->
    step m (set_cpu i (Cpu (Releasing (flags (the_lock m))) f e) (the_lock m) m)
| step_unlock m i s f e :
    cpus m i = Cpu (Releasing s) f e ->
    step m (set_cpu i (Cpu (Restoring s) f e) (Spinlock 0 (flags (the_lock m))) m)
| step_restore m i s f e :
    cpus m i = Cpu (Restoring s) f e ->
    step m (set_cpu i (Cpu Outside (if has_flag s RFLAGS_IF then sti f else f) e)
                    (the_lock m) m).

(** The CPU owns the lock between the successful test-and-set and the clear. *)
Definition owns (p : pc) : bool :=
  match p with Taken _ | Critical | Releasing _ => true | _ => false end.

(** RFLAGS saved by the CPU, wherever they are: in its local or in the lock. *)
Definition saved_flags (l : spinlock_t) (p : pc) : option Z :=
  match p with
  | Outside => None
  | Critical => Some (flags l)
  | Spinning s | Taken s | Releasing s | Restoring s => Some s
  end.

Definition initial (m : machine) : Prop :=
  the_lock m = SPINLOCK_INIT /\ forall i, at_pc (cpus m i) = Outside /\ rflags (cpus m i) = entry (cpus m i).

Record lock_inv (m : machine) : Prop := {
  inv_owner : forall i j, owns (at_pc (cpus m i)) = true -> owns (at_pc (cpus m j)) = true -> i = j;
  inv_held : forall i, owns (at_pc (cpus m i)) = true -> lock (the_lock m) = 1;
  inv_saved : forall i s, saved_flags (the_lock m) (at_pc (cpus m i)) = Some s ->
    s = entry (cpus m i) /\ rflags (cpus m i) = cli s;
  inv_outside : forall i, at_pc (cpus m i) = Outside ->
    interrupts_on (rflags (cpus m i)) = interrupts_on (entry (cpus m i))
}.

Lemma interrupts_on_testbit f : interrupts_on f = Z.testbit f 9.
Proof.
  unfold interrupts_on, has_flag, nonzero, RFLAGS_IF.
  destruct (Z.testbit f 9) eqn:E.
  - apply negb_true_iff, Z.eqb_neq. intros H. apply (f_equal (fun z => Z.testbit z 9)) in H.
    rewrite Z.land_spec, E in H. done.
  - apply negb_false_iff, Z.eqb_eq. apply Z.bits_inj'. intros n Hn.
    rewrite Z.land_spec, Z.bits_0, Z.shiftl_spec by done.
    destruct (decide (n = 9)) as [->|Hne]; [by rewrite E|].
    replace (Z.testbit 1 (n - 9)) with false; [apply andb_false_r|].
    symmetry. destruct (decide (n < 9)); [by apply Z.testbit_neg_r; lia|].
    change 1 with (2 ^ 0). apply Z.pow2_bits_false. lia.
Qed.

Lemma cli_off f : interrupts_on (cli f) = false.
Proof. rewrite interrupts_on_testbit. unfold cli. rewrite Z.ldiff_spec. apply andb_false_r. Qed.

Lemma sti_on f : interrupts_on (sti f) = true.
Proof. rewrite interrupts_on_testbit. unfold sti. rewrite Z.lor_spec. apply orb_true_r. Qed.

(** Restoring from the saved flags gives back the interrupt state at entry. *)
Lemma restore_interrupts s :
  interrupts_on (if has_flag s RFLAGS_IF then sti (cli s) else cli s) = interrupts_on s.
Proof.
  change (has_flag s RFLAGS_IF) with (interrupts_on s).
  destruct (interrupts_on s); [apply sti_on|apply cli_off].
Qed.

Lemma inv_initial m : initial m -> lock_inv m.
Proof.
  intros [Hl Hc]. split.
  - intros i j Hi. by rewrite (proj1 (Hc i)) in Hi.
  - intros i Hi. by rewrite (proj1 (Hc i)) in Hi.
  - intros i s Hs. by rewrite (proj1 (Hc i)) in Hs.
  - intros i _. by rewrite (proj2 (Hc i)).
Qed.

(** Replacing the CPU [i]: the obligations of the invariant at [i], and that
    the others still hold. *)
Lemma inv_set_cpu m i c l :
  lock_inv m ->
  (owns (at_pc c) = true ->
     lock l = 1 /\ forall j, owns (at_pc (cpus m j)) = true -> j = i) ->
  (forall j, j <> i -> owns (at_pc (cpus m j)) = true ->
     lock l = 1 /\ flags l = flags (the_lock m)) ->
  (forall s, saved_flags l (at_pc c) = Some s -> s = entry c /\ rflags c = cli s) ->
  (at_pc c = Outside -> interrupts_on (rflags c) = interrupts_on (entry c)) ->
  lock_inv (set_cpu i c l m).
Proof.
  intros [I1 I2 I3 I4] H1 H2 H3 H4.
  assert (E : forall j, cpus (set_cpu i c l m) j = if decide (i = j) then c else cpus m j).
  { intros j. unfold set_cpu; simpl. destruct (decide (i = j)) as [->|Hne].
    - by rewrite fn_lookup_insert.
    - by rewrite fn_lookup_insert_ne. }
  split.
  - intros j k. rewrite !E. destruct (decide (i = j)), (decide (i = k)); naive_solver.
  - intros j. rewrite E. simpl. destruct (decide (i = j)); naive_solver.
  - intros j s. rewrite E. simpl. destruct (decide (i = j)); [naive_solver|]. intros Hs. apply I3.
    destruct (at_pc (cpus m j)) eqn:Ej; simpl in *; try done.
    destruct (H2 j) as [_ Hf]; [done|by rewrite Ej|]. by rewrite <- Hf.
  - intros j. rewrite E. destruct (decide (i = j)); naive_solver.
Qed.

Lemma lock_inv_step m m' : step m m' -> lock_inv m -> lock_inv m'.
Proof.
  intros Hs I.
  destruct Hs as [m i f e E|m i s f e E Hl|m i s f e E Hl|m i s f e E|m i f e E|m i s f e E|m i s f e E];
    pose proof (inv_owner m I i) as J1; pose proof (inv_held m I i) as J2;
    pose proof (inv_held m I) as J2'; pose proof (inv_saved m I i) as J3;
    rewrite E in J1, J2, J3; simpl in J1, J2, J3;
    (apply inv_set_cpu; simpl; [done| | | |]); try discriminate.
  all: try (intros j Hj Ho; destruct Hj; by rewrite (J1 j)).
  all: try (intros j Hj Ho; split; [by eauto|done]).
  all: try (intros s0 [= <-]; by (apply J3 || split)).
  - intros _. split; [done|]. intros j Ho. by rewrite (J2' j Ho) in Hl.
  - intros _. split; [by apply J2|]. intros j Ho. symmetry. by apply J1.
  - intros _. split; [by apply J2|]. intros j Ho. symmetry. by apply J1.
  - intros _. destruct (J3 s eq_refl) as [-> ->]. apply restore_interrupts.
Qed.

Lemma lock_inv_reachable m m' : initial m -> rtc step m m' -> lock_inv m'.
Proof. intros H R. apply inv_initial in H. induction R; eauto using lock_inv_step. Qed.

(** The lock is exclusive on any number of CPUs: in every reachable state at
    most one CPU is between its successful test-and-set and its release, and
    while one is, the lock word is 1. *)
Theorem spinlock_mutual_exclusion (m m' : machine) :
  initial m -> rtc step m m' ->
  forall i j, owns (at_pc (cpus m' i)) = true -> owns (at_pc (cpus m' j)) = true ->
    i = j /\ lock (the_lock m') = 1.
Proof.
  intros H R i j Hi Hj. pose proof (lock_inv_reachable m m' H R) as I.
  split; [by apply (inv_owner m' I)|by apply (inv_held m' I i)].
Qed.

(** The saved RFLAGS are never lost, although they are kept in the shared
    lock: a CPU that holds the lock has interrupts off, and whenever it is
    back outside its interrupt flag is what it was when it last called
    [spinlock_acquire]. *)
Theorem spinlock_restores_interrupts (m m' : machine) :
  initial m -> rtc step m m' ->
  forall i, match at_pc (cpus m' i) with
            | Outside => interrupts_on (rflags (cpus m' i)) = interrupts_on (entry (cpus m' i))
            | _ => interrupts_on (rflags (cpus m' i)) = false
            end.
Proof.
  intros H R i. pose proof (lock_inv_reachable m m' H R) as I.
  pose proof (inv_saved m' I i) as Hs. pose proof (inv_outside m' I i) as Ho.
  destruct (at_pc (cpus m' i)); simpl in Hs; auto;
    destruct (Hs _ eq_refl) as [_ ->]; apply cli_off.
Qed.

(** Two CPUs, both with interrupts on. *)
Definition two_cpus : machine := Machine SPINLOCK_INIT (fun _ => Cpu Outside RFLAGS_IF RFLAGS_IF).

Definition two_cpus_contended : machine :=
  set_cpu 1 (Cpu (Spinning RFLAGS_IF) 0 RFLAGS_IF) (Spinlock 1 0)
    (set_cpu 0 (Cpu (Taken RFLAGS_IF) 0 RFLAGS_IF) (Spinlock 1 0)
       (set_cpu 0 (Cpu (Spinning RFLAGS_IF) 0 RFLAGS_IF) SPINLOCK_INIT two_cpus)).

Lemma two_cpus_initial : initial two_cpus.
Proof. done. Qed.

Lemma two_cpus_run : rtc step two_cpus two_cpus_contended.
Proof.
  eapply rtc_l; [by eapply (step_acquire _ 0%nat)|].
  eapply rtc_l; [by eapply (step_take _ 0%nat)|].
  eapply rtc_l; [by eapply (step_acquire _ 1%nat)|]. apply rtc_refl.
Qed.

Lemma spinlock_mutual_exclusion_witness :
  owns (at_pc (cpus two_cpus_contended 0%nat)) = true /\ lock (the_lock two_cpus_contended) = 1.
Proof.
  split; [reflexivity|].
  apply (spinlock_mutual_exclusion two_cpus two_cpus_contended two_cpus_initial two_cpus_run 0%nat 0%nat);
    reflexivity.
Defined.

Lemma spinlock_restores_interrupts_witness :
  interrupts_on (rflags (cpus two_cpus_contended 1%nat)) = false /\
  interrupts_on (entry (cpus two_cpus_contended 1%nat)) = true.
Proof.
  split; [|reflexivity].
  exact (spinlock_restores_interrupts two_cpus two_cpus_contended two_cpus_initial two_cpus_run 1%nat).
Defined.

(** ** The single-CPU bracket *)

Lemma spin_held l n : lock l <> 0 -> spin l n = None.
Proof.
  revert l. induction n as [|n IH]; intros l H; [done|]. simpl.
  rewrite (proj2 (nonzero_true (lock l)) H). by apply IH.
Qed.

Lemma acquire_free n f l :
  lock l = 0 -> spinlock_acquire (S n) f l = Some (cli f, Spinlock 1 f).
Proof. intros H. unfold spinlock_acquire. simpl. by rewrite H. Qed.

(** On one CPU, [spinlock_acquire(&l); body; spinlock_release(&l)] with a body
    that leaves the lock and RFLAGS alone takes the lock in one round, runs the
    body with interrupts off, and leaves the lock free and the interrupt flag
    as before; but acquiring a lock that is already held never returns,
    whatever the number of rounds.  So a critical section acts on the protected
    state as its body alone, provided it does not call itself. *)
Theorem spinlock_bracket (f : Z) (l : spinlock_t) :
  (lock l = 0 -> forall n, exists f1 l1,
     spinlock_acquire (S n) f l = Some (f1, l1) /\ interrupts_on f1 = false /\ lock l1 = 1 /\
     (forall fuel f', spinlock_acquire fuel f' l1 = None) /\
     let '(f2, l2) := spinlock_release f1 l1 in
     lock l2 = 0 /\ interrupts_on f2 = interrupts_on f) /\
  (lock l <> 0 -> forall n, spinlock_acquire n f l = None).
Proof.
  split.
  - intros H n. exists (cli f), (Spinlock 1 f). rewrite acquire_free by done. split_and!; [done|apply cli_off|done| |].
    + intros fuel f'. unfold spinlock_acquire. by rewrite spin_held.
    + split; [done|]. apply restore_interrupts.
  - intros H n. unfold spinlock_acquire. by rewrite spin_held.
Qed.
