(* ===== verification/Pmm.v ===== *)
(** The physical memory manager, kernel/src/mm/pmm.c: a bitmap allocator of
    4 KiB page frames with a reference count per frame (for copy-on-write).

    The record [pmm] holds the file's static variables and the physical memory
    it writes through the HHDM window.  [bitmap] is the byte array behind the
    pointer of the same name ([bitmap_ptr] is the pointer, [None] for NULL);
    [page_refcount] is the zero-initialised [uint16_t] array, kept as the finite
    map of its non-default cells; [mem] maps the physical address of an aligned
    64-bit word to its value (absent = 0).  The [pmm_lock] brackets are
    transparent on this single-CPU kernel (see file Spinlock). *)
From stdpp Require Import prelude gmap list.
From Stdlib Require Import ZArith Lia.
From S2P Require Import Prelude Bitmap.

Open Scope Z_scope.

Definition PMM_PAGE_SIZE : Z := 4096.

Definition MAX_PAGES : Z := 262144.

Definition LIMINE_MEMMAP_USABLE : Z := 0.

(** An entry of the boot loader's memory map. *)
Record memmap_entry := MemmapEntry { base : Z; length_ : Z; type_ : Z }.

Record pmm := Pmm {
  bitmap_ptr : option Z;
  bitmap : list Z;
  max_page_index : Z;
  usable_pages : Z;
  used_pages : Z;
  highest_address : Z;
  hhdm_offset : Z;
  page_refcount : gmap Z Z;
  mem : gmap Z Z
}.

Definition set_bitmap (s : pmm) (b : list Z) : pmm :=
  Pmm (bitmap_ptr s) b (max_page_index s) (usable_pages s) (used_pages s)
      (highest_address s) (hhdm_offset s) (page_refcount s) (mem s).

Definition set_used_pages (s : pmm) (n : Z) : pmm :=
  Pmm (bitmap_ptr s) (bitmap s) (max_page_index s) (usable_pages s) n
      (highest_address s) (hhdm_offset s) (page_refcount s) (mem s).

Definition set_page_refcount (s : pmm) (r : gmap Z Z) : pmm :=
  Pmm (bitmap_ptr s) (bitmap s) (max_page_index s) (usable_pages s) (used_pages s)
      (highest_address s) (hhdm_offset s) r (mem s).

Definition set_mem (s : pmm) (m : gmap Z Z) : pmm :=
  Pmm (bitmap_ptr s) (bitmap s) (max_page_index s) (usable_pages s) (used_pages s)
      (highest_address s) (hhdm_offset s) (page_refcount s) m.

(** The values of the static variables at boot. *)
Definition pmm_boot (m : gmap Z Z) : pmm := Pmm None [] 0 0 0 0 0 ∅ m.

(** [phys_to_virt]: the HHDM address of a physical address. *)
Definition phys_to_virt (s : pmm) (phys : Z) : Z := u64 (phys + hhdm_offset s).

(** A physical word read, and [memset(phys_to_virt(a), 0, n)] on whole words. *)
Definition mem_read (m : gmap Z Z) (a : Z) : Z := default 0 (m !! a).

Definition mem_write (m : gmap Z Z) (a v : Z) : gmap Z Z := <[a := v]> m.

Definition mem_zero (m : gmap Z Z) (a n : Z) : gmap Z Z :=
  filter (fun kv => ~ (a <= kv.1 < a + n)) m.

(** ** pmm_init *)

(** Pass 1: the highest physical address of the map. *)
Definition init_highest (entries : list memmap_entry) (hi : Z) : Z :=
  fold_left (fun hi e => let top := u64 (base e + length_ e) in
                         if hi <? top then top else hi) entries hi.

Definition bitmap_pages_of (bitmap_size : Z) : Z :=
  (bitmap_size + PMM_PAGE_SIZE - 1) / PMM_PAGE_SIZE.

(** Pass 2: the first usable entry that can hold the bitmap loses its first
    [bitmap_pages] pages; the pass stops there. *)
Fixpoint init_place_bitmap (entries : list memmap_entry) (bitmap_size : Z)
  : option (Z * list memmap_entry) :=
  match entries with
  | [] => None
  | e :: es =>
      if (type_ e =? LIMINE_MEMMAP_USABLE) && (bitmap_size <=? length_ e) then
        let n := bitmap_pages_of bitmap_size * PMM_PAGE_SIZE in
        Some (base e, MemmapEntry (u64 (base e + n)) (u64 (length_ e - n)) (type_ e) :: es)
      else
        match init_place_bitmap es bitmap_size with
        | Some (b, es') => Some (b, e :: es')
        | None => None
        end
  end.

(** [for (p = 0; p < page_count; p++) bitmap_clear(bitmap, start_page + p)]. *)
Fixpoint clear_range (bm : list Z) (start : Z) (n : nat) : list Z :=
  match n with
  | O => bm
  | S n => clear_range (bitmap_clear bm start) (start + 1) n
  end.

(** Pass 3: mark the pages of the usable entries free and count them. *)
Fixpoint init_free_usable (entries : list memmap_entry) (bm : list Z) (usable : Z)
  : list Z * Z :=
  match entries with
  | [] => (bm, usable)
  | e :: es =>
      if type_ e =? LIMINE_MEMMAP_USABLE then
        let start_page := base e / PMM_PAGE_SIZE in
        let page_count := length_ e / PMM_PAGE_SIZE in
        init_free_usable es (clear_range bm start_page (Z.to_nat page_count))
                         (u64 (usable + page_count))
      else init_free_usable es bm usable
  end.

Definition pmm_init (memmap : option (list memmap_entry)) (hhdm : option Z) (s : pmm) : pmm :=
  match memmap, hhdm with
  | Some entries, Some offset =>
      let hi := init_highest entries (highest_address s) in
      let max := hi / PMM_PAGE_SIZE in
      let bitmap_size := (max + 7) / 8 in
      let '(ptr, bm0, entries') :=
        match init_place_bitmap entries bitmap_size with
        | Some (b, es) => (Some (u64 (b + offset)), replicate (Z.to_nat bitmap_size) 255, es)
        | None => (bitmap_ptr s, bitmap s, entries)
        end in
      match ptr with
      | None =>
          Pmm ptr bm0 max (usable_pages s) (used_pages s) hi offset (page_refcount s) (mem s)
      | Some _ =>
          let '(bm, usable) := init_free_usable entries' bm0 (usable_pages s) in
          let '(bm', used) :=
            if nonzero (bitmap_test bm 0) then (bm, 0) else (bitmap_set bm 0, 1) in
          Pmm ptr bm' max usable used hi offset ∅ (mem s)
      end
  | _, _ => s
  end.

(** ** Allocation *)

(** The scan [for (i = ...; i < max; i++) if (!bitmap_test(bitmap, i))]: the
    first clear bit among [i .. i + n - 1]. *)
Fixpoint first_clear (bm : list Z) (i : Z) (n : nat) : option Z :=
  match n with
  | O => None
  | S n => if nonzero (bitmap_test bm i) then first_clear bm (i + 1) n else Some i
  end.

(** [if (page < MAX_PAGES) page_refcount[page] = v]. *)
Definition refcount_store (s : pmm) (page v : Z) : pmm :=
  if page <? MAX_PAGES then set_page_refcount s (<[page := u16 v]> (page_refcount s)) else s.

(** The bookkeeping of one allocated page: bit set, [used_pages++], count 1. *)
Definition take_page (s : pmm) (i : Z) : pmm :=
  refcount_store
    (set_used_pages (set_bitmap s (bitmap_set (bitmap s) i)) (u64 (used_pages s + 1))) i 1.

Definition pmm_alloc_page (s : pmm) : pmm * Z :=
  match first_clear (bitmap s) 1 (Z.to_nat (max_page_index s - 1)) with
  | Some i =>
      let s1 := take_page s i in
      let addr := u64 (i * PMM_PAGE_SIZE) in
      (set_mem s1 (mem_zero (mem s1) addr PMM_PAGE_SIZE), addr)
  | None => (s, 0)
  end.

Definition drop_page (s : pmm) (page : Z) : pmm :=
  set_used_pages (set_bitmap s (bitmap_clear (bitmap s) page)) (u64 (used_pages s - 1)).

Definition pmm_free_page (s : pmm) (phys_addr : Z) : pmm :=
  let page := phys_addr / PMM_PAGE_SIZE in
  if (page =? 0) || (max_page_index s <=? page) then s
  else if nonzero (bitmap_test (bitmap s) page)
       then refcount_store (drop_page s page) page 0
       else s.

(** The inner scan of [pmm_alloc_pages]: [Some j] when page [i + j] is the
    first used one among the next [n] pages below [max]. *)
Fixpoint first_used (bm : list Z) (max i j : Z) (n : nat) : option Z :=
  match n with
  | O => None
  | S n =>
      if i + j <? max then
        if nonzero (bitmap_test bm (i + j)) then Some j else first_used bm max i (j + 1) n
      else None
  end.

(** The outer loop, from index [i]: [i += j] skips past a used page, [i++]
    closes each iteration.  Each round increases [i], so [fuel] rounds cover
    [i + fuel >= max]. *)
Fixpoint find_run (bm : list Z) (max count i : Z) (fuel : nat) : option Z :=
  match fuel with
  | O => None
  | S fuel =>
      if i <? max then
        match first_used bm max i 0 (Z.to_nat count) with
        | Some j => find_run bm max count (i + j + 1) fuel
        | None =>
            if u64 (i + count) <=? max then Some i else find_run bm max count (i + 1) fuel
        end
      else None
  end.

Fixpoint take_pages (s : pmm) (i : Z) (n : nat) : pmm :=
  match n with
  | O => s
  | S n => take_pages (take_page s i) (i + 1) n
  end.

Definition pmm_alloc_pages (s : pmm) (count : Z) : pmm * Z :=
  if count =? 0 then (s, 0)
  else if count =? 1 then pmm_alloc_page s
  else
    match find_run (bitmap s) (max_page_index s) count 1 (Z.to_nat (max_page_index s)) with
    | Some i =>
        let s1 := take_pages s i (Z.to_nat count) in
        let addr := u64 (i * PMM_PAGE_SIZE) in
        (set_mem s1 (mem_zero (mem s1) addr (u64 (count * PMM_PAGE_SIZE))), addr)
    | None => (s, 0)
    end.

Fixpoint free_pages_loop (s : pmm) (phys_addr i : Z) (n : nat) : pmm :=
  match n with
  | O => s
  | S n => free_pages_loop (pmm_free_page s (u64 (phys_addr + i * PMM_PAGE_SIZE)))
                           phys_addr (i + 1) n
  end.

Definition pmm_free_pages (s : pmm) (phys_addr count : Z) : pmm :=
  free_pages_loop s phys_addr 0 (Z.to_nat count).

(** ** Statistics *)

Definition pmm_get_total_memory (s : pmm) : Z := u64 (usable_pages s * PMM_PAGE_SIZE).

Definition pmm_get_free_memory (s : pmm) : Z :=
  u64 (u64 (usable_pages s - used_pages s) * PMM_PAGE_SIZE).

Definition pmm_get_total_page_count (s : pmm) : Z := usable_pages s.

Definition pmm_get_free_page_count (s : pmm) : Z := u64 (usable_pages s - used_pages s).

(** ** Reference counts *)

Definition refcount (s : pmm) (page : Z) : Z := default 0 (page_refcount s !! page).

Definition pmm_page_ref (s : pmm) (phys : Z) : pmm :=
  let page := phys / PMM_PAGE_SIZE in
  if MAX_PAGES <=? page then s
  else set_page_refcount s (<[page := u16 (refcount s page + 1)]> (page_refcount s)).

Definition pmm_page_unref (s : pmm) (phys : Z) : pmm :=
  let page := phys / PMM_PAGE_SIZE in
  if (MAX_PAGES <=? page) || (page =? 0) then s
  else if 0 <? refcount s page then
    let s1 := set_page_refcount s (<[page := refcount s page - 1]> (page_refcount s)) in
    if refcount s1 page =? 0 then
      if nonzero (bitmap_test (bitmap s1) page) then drop_page s1 page else s1
    else s1
  else s.

Definition pmm_page_refcount (s : pmm) (phys : Z) : Z :=
  let page := phys / PMM_PAGE_SIZE in
  if MAX_PAGES <=? page then 0 else refcount s page.

(** ** Invariant *)

Record pmm_inv (s : pmm) : Prop := {
  inv_bytes : byte_array (bitmap s);
  inv_max : 0 <= max_page_index s <= 2 ^ 40;
  inv_len : alen (bitmap s) = (max_page_index s + 7) / 8;
  inv_used : fits 64 (used_pages s);
  inv_usable : fits 64 (usable_pages s);
  inv_count : u64 (used_pages s + clear_count (bitmap s) (max_page_index s)) = usable_pages s;
  inv_page0 : 0 < max_page_index s -> bit_at (bitmap s) 0 = true;
  inv_refs : map_Forall (fun _ c => fits 16 c) (page_refcount s);
  inv_refs_ram : forall p, max_page_index s <= p -> refcount s p = 0
}.

(** The abstract state of the allocator: which frames are free. *)
Definition page_free (s : pmm) (i : Z) : Prop :=
  0 < i < max_page_index s /\ bit_at (bitmap s) i = false.

#[export] Instance page_free_dec s i : Decision (page_free s i).
Proof. unfold page_free. apply _. Defined.

Lemma mem_read_zero m a n k :
  mem_read (mem_zero m a n) k = if bool_decide (a <= k < a + n) then 0 else mem_read m k.
Proof.
  unfold mem_read, mem_zero. case_bool_decide as H.
  - rewrite (proj2 (map_lookup_filter_None _ m k)); [done|]. right. naive_solver.
  - destruct (m !! k) as [v|] eqn:E.
    + by rewrite (proj2 (map_lookup_filter_Some _ m k v)).
    + rewrite (proj2 (map_lookup_filter_None _ m k)); [done|by left].
Qed.

Lemma mem_read_write m a v k :
  mem_read (mem_write m a v) k = if decide (a = k) then v else mem_read m k.
Proof. unfold mem_read, mem_write. rewrite lookup_insert. by case_decide. Qed.

Lemma inv_range s i : pmm_inv s -> 0 <= i < max_page_index s -> 0 <= i < 8 * alen (bitmap s).
Proof. intros I H. rewrite (inv_len s I). zmod. Qed.

Lemma inv_max_le s : pmm_inv s -> max_page_index s <= 8 * alen (bitmap s).
Proof. intros I. rewrite (inv_len s I). zmod. Qed.

#[export] Hint Resolve inv_range inv_max_le : nexus.

Lemma u64_sub_add a b c : u64 (u64 (a - b) + c) = u64 (a + c - b).
Proof. unfold wrap. rewrite Zplus_mod_idemp_l. f_equal. lia. Qed.

Lemma u64_add_add a b c : u64 (u64 (a + b) + c) = u64 (a + c + b).
Proof. unfold wrap. rewrite Zplus_mod_idemp_l. f_equal. lia. Qed.

Lemma inv_set_mem s m : pmm_inv s -> pmm_inv (set_mem s m).
Proof. by intros []. Qed.

Lemma inv_set_refcount s p v :
  pmm_inv s -> p < max_page_index s -> fits 16 v ->
  pmm_inv (set_page_refcount s (<[p := v]> (page_refcount s))).
Proof.
  intros [] Hp Hv. constructor; try done.
  - by apply map_Forall_insert_2.
  - intros q Hq. unfold refcount. simpl in *. rewrite lookup_insert_ne by lia. by apply inv_refs_ram0.
Qed.

Lemma inv_refcount_store s p v :
  pmm_inv s -> p < max_page_index s -> pmm_inv (refcount_store s p v).
Proof.
  intros I Hp. unfold refcount_store. case_bool; [|done].
  apply inv_set_refcount; [done..|]. by apply wrap_fits.
Qed.

Lemma inv_take_bits s i :
  pmm_inv s -> page_free s i ->
  pmm_inv (set_used_pages (set_bitmap s (bitmap_set (bitmap s) i)) (u64 (used_pages s + 1))).
Proof.
  intros I [Hi Hb]. pose proof (inv_range s i I ltac:(lia)) as Hr. pose proof (inv_max_le s I).
  destruct I. constructor; simpl; auto with nexus.
  - by rewrite alen_bitmap_set.
  - by apply wrap_fits.
  - rewrite clear_count_set, Hb, u64_add_add, <- inv_count0 by lia. f_equal. simpl; lia.
  - intros. rewrite bit_at_set, inv_page1 by lia. apply orb_true_r.
Qed.

Lemma inv_take s i : pmm_inv s -> page_free s i -> pmm_inv (take_page s i).
Proof. intros I H. apply inv_refcount_store; [by apply inv_take_bits|simpl; destruct H; lia]. Qed.

Lemma inv_drop s i :
  pmm_inv s -> 0 < i < max_page_index s -> bit_at (bitmap s) i = true -> pmm_inv (drop_page s i).
Proof.
  intros I Hi Hb. pose proof (inv_range s i I ltac:(lia)) as Hr. pose proof (inv_max_le s I).
  destruct I. constructor; simpl; auto with nexus.
  - by rewrite alen_bitmap_clear.
  - by apply wrap_fits.
  - rewrite clear_count_clear, Hb, u64_sub_add, <- inv_count0 by lia. f_equal. simpl; lia.
  - intros. rewrite bit_at_clear, inv_page1 by lia. by destruct (Z.eqb_spec i 0); [lia|].
Qed.

(** ** Scans *)

Lemma first_clear_Some bm i n k :
  first_clear bm i n = Some k ->
  i <= k < i + Z.of_nat n /\ bit_at bm k = false /\ forall j, i <= j < k -> bit_at bm j = true.
Proof.
  revert i. induction n as [|n IH]; intros i H; [done|]. cbn [first_clear] in H.
  rewrite bitmap_test_spec in H. destruct (bit_at bm i) eqn:E.
  - destruct (IH _ H) as (? & ? & Hall). split_and!; [lia|lia|done|].
    intros j Hj. destruct (decide (j = i)) as [->|]; [done|apply Hall; lia].
  - simplify_eq. split_and!; [lia|lia|done|intros; lia].
Qed.

Lemma first_clear_None bm i n j :
  first_clear bm i n = None -> i <= j < i + Z.of_nat n -> bit_at bm j = true.
Proof.
  revert i. induction n as [|n IH]; intros i H Hj; [lia|]. cbn [first_clear] in H.
  rewrite bitmap_test_spec in H. destruct (bit_at bm i) eqn:E; [|done].
  destruct (decide (j = i)) as [->|]; [done|]. apply (IH (i + 1)); [done|lia].
Qed.

Lemma first_used_Some bm max i j n k :
  first_used bm max i j n = Some k ->
  j <= k < j + Z.of_nat n /\ i + k < max /\ bit_at bm (i + k) = true.
Proof.
  revert j. induction n as [|n IH]; intros j H; [done|]. cbn [first_used] in H.
  destruct (Z.ltb_spec (i + j) max); [|done]. rewrite bitmap_test_spec in H.
  destruct (bit_at bm (i + j)) eqn:E; [simplify_eq; split_and!; [lia..|done]|].
  destruct (IH _ H) as (? & ? & ?). split_and!; [lia..|done].
Qed.

Lemma first_used_None bm max i j n k :
  first_used bm max i j n = None -> j <= k < j + Z.of_nat n -> i + k < max ->
  bit_at bm (i + k) = false.
Proof.
  revert j. induction n as [|n IH]; intros j H Hk Hm; [lia|]. cbn [first_used] in H.
  destruct (Z.ltb_spec (i + j) max); [|lia]. rewrite bitmap_test_spec in H.
  destruct (bit_at bm (i + j)) eqn:E; [done|].
  destruct (decide (k = j)) as [->|]; [done|]. apply (IH (j + 1)); [done|lia|done].
Qed.

(** A run of [count] free pages at [i], inside the managed range. *)
Definition free_run (bm : list Z) (max i count : Z) : Prop :=
  0 < i /\ i + count <= max /\ forall j, i <= j < i + count -> bit_at bm j = false.

Lemma find_run_Some bm max count i fuel k :
  0 < i -> 0 < count -> count + max < 2 ^ 64 ->
  find_run bm max count i fuel = Some k -> i <= k /\ free_run bm max k count.
Proof.
  intros Hi Hc Hb. revert i Hi. induction fuel as [|fuel IH]; intros i Hi H; [done|].
  cbn [find_run] in H. destruct (Z.ltb_spec i max); [|done].
  destruct (first_used bm max i 0 (Z.to_nat count)) as [j|] eqn:E.
  - apply first_used_Some in E. apply IH in H; [|lia]. destruct H. split; [lia|done].
  - rewrite wrap_small in H by (split; lia).
    destruct (Z.leb_spec (i + count) max).
    + simplify_eq. split; [lia|]. split_and!; [lia|lia|]. intros j Hj.
      replace j with (k + (j - k)) by lia.
      apply (first_used_None bm max k 0 (Z.to_nat count)); [done|lia|lia].
    + apply IH in H; [|lia]. destruct H. split; [lia|done].
Qed.

(** The skip [i += j] never jumps over a run that fits: no run lies below the
    result, and none exists at all when there is no result. *)
Lemma find_run_first bm max count i fuel k :
  0 < i -> 0 < count -> count + max < 2 ^ 64 -> max <= i + Z.of_nat fuel -> i <= k ->
  (forall r, find_run bm max count i fuel = Some r -> k < r) -> ~ free_run bm max k count.
Proof.
  intros Hi Hc Hb. revert i Hi. induction fuel as [|fuel IH]; intros i Hi Hf Hk H (Hk0 & Hkm & Hrun).
  { lia. }
  cbn [find_run] in H. destruct (Z.ltb_spec i max); [|lia].
  destruct (first_used bm max i 0 (Z.to_nat count)) as [j|] eqn:E.
  - apply first_used_Some in E as (Hj & Hjm & Hused).
    destruct (decide (k <= i + j)).
    + rewrite Hrun in Hused; [done|lia].
    + apply (IH (i + j + 1)); [lia|lia|lia|done|done].
  - rewrite wrap_small in H by (split; lia).
    destruct (Z.leb_spec (i + count) max); [specialize (H i eq_refl); lia|].
    destruct (decide (k = i)) as [->|]; [lia|].
    apply (IH (i + 1)); [lia|lia|lia|done|done].
Qed.

(** ** Operations *)

Lemma free_page_count s :
  pmm_inv s -> pmm_get_free_page_count s = clear_count (bitmap s) (max_page_index s).
Proof.
  intros I. pose proof (clear_from_bounds (bitmap s) 0 (Z.to_nat (max_page_index s))) as Hb.
  unfold pmm_get_free_page_count. rewrite <- (inv_count s I).
  pose proof (inv_max s I). unfold wrap. rewrite Zminus_mod_idemp_l.
  replace (_ + _ - _) with (clear_count (bitmap s) (max_page_index s)) by lia.
  apply Z.mod_small. unfold clear_count in *. lia.
Qed.

Lemma refcount_store_frame s p v :
  bitmap (refcount_store s p v) = bitmap s /\
  max_page_index (refcount_store s p v) = max_page_index s /\ mem (refcount_store s p v) = mem s.
Proof. unfold refcount_store. by destruct (p <? MAX_PAGES). Qed.

Lemma take_page_bitmap s i : bitmap (take_page s i) = bitmap_set (bitmap s) i.
Proof. apply refcount_store_frame. Qed.

Lemma take_page_bits s i j :
  0 <= i < 8 * alen (bitmap s) -> 0 <= j ->
  bit_at (bitmap (take_page s i)) j = (i =? j) || bit_at (bitmap s) j.
Proof. intros. by rewrite take_page_bitmap, bit_at_set. Qed.

Lemma take_page_max s i : max_page_index (take_page s i) = max_page_index s.
Proof. unfold take_page. edestruct refcount_store_frame as (_ & Hx & Hm); by rewrite Hx. Qed.

Lemma take_page_mem s i : mem (take_page s i) = mem s.
Proof. unfold take_page. edestruct refcount_store_frame as (_ & Hx & Hm); by rewrite Hm. Qed.

Lemma take_page_refcount s i j :
  refcount (take_page s i) j = if decide (i = j /\ i < MAX_PAGES) then 1 else refcount s j.
Proof.
  unfold take_page, refcount_store, refcount. case_bool; simpl.
  - rewrite lookup_insert. by repeat case_decide; naive_solver.
  - case_decide; [lia|done].
Qed.

#[export] Hint Rewrite take_page_max take_page_mem : nexus.

Lemma page_free_take s i j :
  pmm_inv s -> page_free s i -> page_free (take_page s i) j <-> page_free s j /\ j <> i.
Proof.
  intros I [Hi Hb]. pose proof (inv_range s i I ltac:(lia)).
  unfold page_free. rewrite take_page_max. split.
  - intros [Hj Hbj]. rewrite take_page_bits in Hbj by lia.
    apply orb_false_iff in Hbj as [Hne ?]. split; [done|]. by apply Z.eqb_neq in Hne.
  - intros [[Hj Hbj] Hne]. split; [done|]. rewrite take_page_bits, Hbj by lia.
    by rewrite (proj2 (Z.eqb_neq i j)).
Qed.

Lemma free_count_take s i :
  pmm_inv s -> page_free s i ->
  pmm_get_free_page_count (take_page s i) = pmm_get_free_page_count s - 1.
Proof.
  intros I F. pose proof (inv_take s i I F). rewrite !free_page_count, take_page_max by done.
  destruct F as [Hi Hb]. pose proof (inv_max_le s I).
  by rewrite take_page_bitmap, clear_count_set, Hb by lia.
Qed.

(** The frames [i .. i + n - 1] are taken one after the other. *)
Lemma take_pages_spec n : forall s i,
  pmm_inv s -> (forall j, i <= j < i + Z.of_nat n -> page_free s j) ->
  let s' := take_pages s i n in
  pmm_inv s' /\ mem s' = mem s /\ max_page_index s' = max_page_index s /\
  pmm_get_free_page_count s' = pmm_get_free_page_count s - Z.of_nat n /\
  (forall j, page_free s' j <-> page_free s j /\ ~ (i <= j < i + Z.of_nat n)) /\
  (forall j, refcount s' j =
     if decide (i <= j < i + Z.of_nat n /\ j < MAX_PAGES) then 1 else refcount s j).
Proof.
  induction n as [|n IH]; intros s i I F; cbn [take_pages].
  { split_and!; [done..|lia| |]; intros j; [|by rewrite decide_False by lia].
    split; [intros; split; [done|lia]|naive_solver]. }
  assert (Fi : page_free s i) by (apply F; lia).
  destruct (IH (take_page s i) (i + 1)) as (I' & Hm & Hx & Hc & Hf & Hr).
  { by apply inv_take. }
  { intros j Hj. apply page_free_take; [done..|]. split; [apply F; lia|lia]. }
  autorewrite with nexus in *. rewrite free_count_take in Hc by done.
  split_and!; [done..|lia| |]; intros j.
  - rewrite Hf, page_free_take by done. intuition lia.
  - rewrite Hr, take_page_refcount. repeat case_decide; try lia; done.
Qed.

(** What an allocation of the [n] frames at page [i] does, in terms of the
    abstract state: the frames leave the free set with count 1 and their memory
    is zero; nothing else changes. *)
Definition allocated_run (s s' : pmm) (i n : Z) : Prop :=
  max_page_index s' = max_page_index s /\
  (forall j, i <= j < i + n -> page_free s j) /\
  (forall j, page_free s' j <-> page_free s j /\ ~ (i <= j < i + n)) /\
  pmm_get_free_page_count s' = pmm_get_free_page_count s - n /\
  (forall j, refcount s' j = if decide (i <= j < i + n /\ j < MAX_PAGES) then 1 else refcount s j) /\
  (forall k, mem_read (mem s') k =
     if bool_decide (i * PMM_PAGE_SIZE <= k < (i + n) * PMM_PAGE_SIZE) then 0 else mem_read (mem s) k).

Lemma page_addr s i : pmm_inv s -> 0 <= i <= max_page_index s -> u64 (i * PMM_PAGE_SIZE) = i * PMM_PAGE_SIZE.
Proof. intros I H. pose proof (inv_max s I). apply wrap_small. unfold fits, PMM_PAGE_SIZE. lia. Qed.

Lemma take_run s i n :
  pmm_inv s -> 0 < n -> (forall j, i <= j < i + n -> page_free s j) ->
  let s1 := take_pages s i (Z.to_nat n) in
  let s' := set_mem s1 (mem_zero (mem s1) (i * PMM_PAGE_SIZE) (n * PMM_PAGE_SIZE)) in
  pmm_inv s' /\ allocated_run s s' i n.
Proof.
  intros I Hn F. destruct (take_pages_spec (Z.to_nat n) s i I) as (I' & Hm & Hx & Hc & Hf & Hr).
  { intros j Hj. apply F. lia. }
  cbv zeta. split; [by apply inv_set_mem|]. rewrite Z2Nat.id in * by lia.
  split_and!; try done. intros k. simpl. rewrite mem_read_zero, Hm.
  by repeat case_bool_decide; try lia.
Qed.

Lemma alloc_page_cases s :
  pmm_inv s ->
  (pmm_alloc_page s = (s, 0) /\ forall i, ~ page_free s i) \/
  (exists s' i, pmm_alloc_page s = (s', i * PMM_PAGE_SIZE) /\ page_free s i /\
     (forall j, page_free s j -> i <= j) /\ pmm_inv s' /\ allocated_run s s' i 1).
Proof.
  intros I. unfold pmm_alloc_page.
  destruct (first_clear (bitmap s) 1 (Z.to_nat (max_page_index s - 1))) as [i|] eqn:E.
  - right. apply first_clear_Some in E as (Hi & Hb & Hlow).
    assert (F : page_free s i) by (split; [lia|done]).
    destruct (take_run s i 1) as [I' R]; [done|lia|by intros j Hj; replace j with i by lia|].
    eexists _, i. split_and!; [|done| |exact I'|exact R].
    + rewrite (page_addr s) by (done || (destruct F; lia)). done.
    + intros j [Hj Hbj]. destruct (decide (i <= j)); [done|].
      rewrite Hlow in Hbj; [done|lia].
  - left. split; [done|]. intros i [Hi Hb].
    rewrite (first_clear_None _ _ _ i E) in Hb; [done|lia].
Qed.

Lemma alloc_pages_cases s count :
  pmm_inv s -> 1 < count -> count + max_page_index s < 2 ^ 64 ->
  (pmm_alloc_pages s count = (s, 0) /\
     forall i, ~ free_run (bitmap s) (max_page_index s) i count) \/
  (exists s' i, pmm_alloc_pages s count = (s', i * PMM_PAGE_SIZE) /\
     free_run (bitmap s) (max_page_index s) i count /\
     (forall j, free_run (bitmap s) (max_page_index s) j count -> i <= j) /\
     pmm_inv s' /\ allocated_run s s' i count).
Proof.
  intros I Hc Hb. unfold pmm_alloc_pages.
  rewrite (proj2 (Z.eqb_neq count 0)), (proj2 (Z.eqb_neq count 1)) by lia.
  set (bm := bitmap s). set (mx := max_page_index s) in *.
  destruct (find_run bm mx count 1 (Z.to_nat mx)) as [i|] eqn:E.
  - right. pose proof E as Efirst. apply find_run_Some in E as (_ & Hrun); [|lia..].
    destruct Hrun as (Hi & Him & Hbits).
    destruct (take_run s i count) as [I' R]; [done|lia| |].
    { intros j Hj. split; [fold mx; lia|apply Hbits; lia]. }
    eexists _, i. split_and!; [|by split_and!; [lia|lia|]| |exact I'|exact R].
    + rewrite (page_addr s) by (done || (fold mx; lia)).
      rewrite (wrap_small 64 (count * _)); [done|].
      pose proof (inv_max s I). fold mx in H. unfold fits, PMM_PAGE_SIZE. lia.
    + intros j Hj. destruct (decide (i <= j)); [done|]. exfalso. pose proof Hj as (? & _).
      refine (find_run_first bm mx count 1 (Z.to_nat mx) j _ _ _ _ _ _ Hj); [lia..|].
      intros r Hr. simplify_eq. lia.
  - left. split; [done|]. intros i Hrun. pose proof Hrun as (? & _).
    refine (find_run_first bm mx count 1 (Z.to_nat mx) i _ _ _ _ _ _ Hrun); [lia..|].
    intros r Hr. congruence.
Qed.

Lemma drop_page_bits s i j :
  0 <= i < 8 * alen (bitmap s) -> 0 <= j ->
  bit_at (bitmap (drop_page s i)) j = negb (i =? j) && bit_at (bitmap s) j.
Proof. intros. unfold drop_page. simpl. by rewrite bit_at_clear. Qed.

(** Whether [pmm_free_page] acts on page [p]. *)
Definition freeable (s : pmm) (p : Z) : Prop :=
  0 < p < max_page_index s /\ bit_at (bitmap s) p = true.

#[export] Instance freeable_dec s p : Decision (freeable s p).
Proof. unfold freeable. apply _. Defined.

Lemma pmm_free_page_noop s a :
  0 <= a -> ~ freeable s (a / PMM_PAGE_SIZE) -> pmm_free_page s a = s.
Proof.
  intros Ha H. unfold pmm_free_page. destruct (Z.eqb_spec (a / PMM_PAGE_SIZE) 0); [done|].
  destruct (Z.leb_spec (max_page_index s) (a / PMM_PAGE_SIZE)); [done|]. simpl.
  rewrite bitmap_test_spec. destruct (bit_at _ _) eqn:E; [|done]. destruct H.
  pose proof (Z.div_pos a PMM_PAGE_SIZE). unfold PMM_PAGE_SIZE in *. split; [lia|done].
Qed.

Lemma pmm_free_page_acts s a :
  freeable s (a / PMM_PAGE_SIZE) ->
  pmm_free_page s a = refcount_store (drop_page s (a / PMM_PAGE_SIZE)) (a / PMM_PAGE_SIZE) 0.
Proof.
  intros [Hr Hb]. unfold pmm_free_page. rewrite (proj2 (Z.eqb_neq _ 0)) by lia.
  rewrite (proj2 (Z.leb_gt _ _)) by lia. by rewrite bitmap_test_spec, Hb.
Qed.

Lemma inv_free_page s a : 0 <= a -> pmm_inv s -> pmm_inv (pmm_free_page s a).
Proof.
  intros Ha I. destruct (decide (freeable s (a / PMM_PAGE_SIZE))) as [F|F].
  - rewrite pmm_free_page_acts by done. destruct F.
    apply inv_refcount_store; [by apply inv_drop|simpl; lia].
  - by rewrite pmm_free_page_noop.
Qed.

Lemma inv_free_pages_loop n : forall s a i,
  pmm_inv s -> pmm_inv (free_pages_loop s a i n).
Proof.
  induction n as [|n IH]; intros s a i I; [done|]. apply IH, inv_free_page; [|done].
  apply wrap_range64.
Qed.

Lemma refcount_bound s p : pmm_inv s -> 0 <= refcount s p < 65536.
Proof.
  intros I. unfold refcount. destruct (page_refcount s !! p) as [c|] eqn:E; [|simpl; lia].
  apply (inv_refs s I p c E).
Qed.

Lemma inv_page_ref s a :
  pmm_inv s -> a / PMM_PAGE_SIZE < max_page_index s -> pmm_inv (pmm_page_ref s a).
Proof.
  intros I Hp. unfold pmm_page_ref. case_bool; [done|].
  apply inv_set_refcount; [done..|]. by apply wrap_fits.
Qed.

Lemma inv_page_unref s a : 0 <= a -> pmm_inv s -> pmm_inv (pmm_page_unref s a).
Proof.
  intros Ha I. unfold pmm_page_unref. set (p := a / PMM_PAGE_SIZE).
  destruct (_ || _) eqn:Eg; [done|]. apply orb_false_iff in Eg as [_ Hp0]. apply Z.eqb_neq in Hp0.
  destruct (Z.ltb_spec 0 (refcount s p)); [|done].
  assert (0 < p) by (pose proof (Z.div_pos a PMM_PAGE_SIZE); unfold PMM_PAGE_SIZE in *; lia).
  assert (p < max_page_index s) by (destruct (Z.lt_ge_cases p (max_page_index s)); [done|];
    pose proof (inv_refs_ram s I p); lia).
  pose proof (refcount_bound s p I) as Hr.
  assert (I1 : pmm_inv (set_page_refcount s (<[p:=refcount s p - 1]> (page_refcount s)))).
  { apply inv_set_refcount; [done..|unfold fits; lia]. }
  destruct (_ =? 0); [|done]. rewrite bitmap_test_spec. destruct (bit_at _ _) eqn:E; [|done].
  by apply inv_drop.
Qed.

(** ** Boot: the memory map *)

(** The page numbers of the usable entries, in map order. *)
Definition entry_pages (e : memmap_entry) : list Z :=
  if type_ e =? LIMINE_MEMMAP_USABLE
  then seqZ (base e / PMM_PAGE_SIZE) (length_ e / PMM_PAGE_SIZE) else [].

Definition usable_page_list (es : list memmap_entry) : list Z := es ≫= entry_pages.

(** What the Limine protocol documents of a memory map: entries lie in
    the 52-bit physical address space, usable entries are page aligned and do not
    overlap each other. *)
Definition entry_wf (e : memmap_entry) : Prop :=
  0 <= base e /\ 0 <= length_ e /\ base e + length_ e <= 2 ^ 52 /\
  (type_ e = LIMINE_MEMMAP_USABLE ->
     base e mod PMM_PAGE_SIZE = 0 /\ length_ e mod PMM_PAGE_SIZE = 0).

Definition memmap_wf (es : list memmap_entry) : Prop :=
  Forall entry_wf es /\ NoDup (usable_page_list es).

Lemma init_highest_bounds es : forall hi, Forall entry_wf es -> 0 <= hi <= 2 ^ 52 ->
  hi <= init_highest es hi <= 2 ^ 52 /\
  Forall (fun e => base e + length_ e <= init_highest es hi) es.
Proof.
  unfold init_highest. induction es as [|e es IH]; intros hi Hwf Hhi; [split; [simpl; lia|constructor]|].
  inv Hwf. destruct H1 as (? & ? & ? & _). cbn [fold_left].
  rewrite wrap_small by (unfold fits; lia).
  edestruct (IH (if hi <? base e + length_ e then base e + length_ e else hi)) as [IH1 IH2];
    [done|case_bool; lia|].
  split; [case_bools; lia|]. constructor; [case_bools; lia|done].
Qed.

Lemma entry_pages_in e i :
  i ∈ entry_pages e <->
  type_ e = LIMINE_MEMMAP_USABLE /\
  base e / PMM_PAGE_SIZE <= i < base e / PMM_PAGE_SIZE + length_ e / PMM_PAGE_SIZE.
Proof.
  unfold entry_pages. destruct (Z.eqb_spec (type_ e) LIMINE_MEMMAP_USABLE).
  - rewrite elem_of_seqZ. naive_solver.
  - split; [by intros ?%elem_of_nil|naive_solver].
Qed.

Lemma usable_in_range es i :
  Forall entry_wf es -> i ∈ usable_page_list es ->
  0 <= i < init_highest es 0 / PMM_PAGE_SIZE.
Proof.
  intros Hwf Hi. apply list_elem_of_bind in Hi as (e & Hi & He).
  destruct (init_highest_bounds es 0 Hwf) as [_ Hhi]; [lia|].
  rewrite Forall_forall in Hwf, Hhi. specialize (Hwf e He) as (? & ? & ? & Hal).
  specialize (Hhi e He). apply entry_pages_in in Hi as [Ht Hi]. destruct (Hal Ht).
  unfold PMM_PAGE_SIZE in *. zmod.
Qed.

(** Placing the bitmap takes exactly its pages out of the usable ones. *)
Lemma place_bitmap_pages size : forall es b es',
  0 <= size -> Forall entry_wf es -> init_place_bitmap es size = Some (b, es') ->
  Forall entry_wf es' /\
  usable_page_list es ≡ₚ seqZ (b / PMM_PAGE_SIZE) (bitmap_pages_of size) ++ usable_page_list es'.
Proof.
  unfold usable_page_list, bitmap_pages_of.
  induction es as [|e es IH]; intros b es' Hs Hwf H; [done|].
  inv Hwf. cbn [init_place_bitmap] in H.
  destruct (Z.eqb_spec (type_ e) LIMINE_MEMMAP_USABLE) as [Ht|Ht];
    [destruct (Z.leb_spec size (length_ e)) as [Hl|Hl]|]; simpl in H.
  1: {
    injection H as <- <-. destruct H2 as (Hb & Hn & Hw & Hal). destruct (Hal Ht) as [Hba Hla].
    unfold bitmap_pages_of. set (k := (size + PMM_PAGE_SIZE - 1) / PMM_PAGE_SIZE).
    assert (Hk : 0 <= k /\ k * PMM_PAGE_SIZE <= length_ e).
    { unfold k, PMM_PAGE_SIZE in *. zmod. }
    rewrite !wrap_small by (unfold fits, PMM_PAGE_SIZE in *; lia). split.
    + constructor; [|done]. unfold entry_wf; simpl.
      unfold PMM_PAGE_SIZE in *. split_and!; [lia..|]. intros _. split; zmod.
    + simpl. rewrite app_assoc. apply Permutation_app_tail.
      unfold entry_pages. simpl. rewrite Ht. simpl.
      rewrite Z.div_add by done.
      replace ((length_ e - k * PMM_PAGE_SIZE) / PMM_PAGE_SIZE) with (length_ e / PMM_PAGE_SIZE - k)
        by (unfold PMM_PAGE_SIZE in *; zmod).
      rewrite <- seqZ_app by (unfold PMM_PAGE_SIZE in *; zmod).
      by rewrite Zplus_minus. }
  all: destruct (init_place_bitmap es size) as [[b0 es0]|] eqn:E; [|done]; simplify_eq.
  all: destruct (IH _ _ Hs H3 eq_refl) as [? Hp]; split; [by constructor|].
  all: simpl; rewrite Hp, !app_assoc; apply Permutation_app_tail, Permutation_app_comm.
Qed.

Lemma clear_range_spec n : forall bm start,
  byte_array bm -> 0 <= start -> (0 < Z.of_nat n -> start + Z.of_nat n <= 8 * alen bm) ->
  let bm' := clear_range bm start n in
  byte_array bm' /\ alen bm' = alen bm /\
  forall j, 0 <= j ->
    bit_at bm' j = bit_at bm j && negb (bool_decide (start <= j < start + Z.of_nat n)).
Proof.
  induction n as [|n IH]; intros bm start Hb Hs Hr; cbn [clear_range].
  { split_and!; [done..|]. intros. by rewrite bool_decide_eq_false_2, andb_true_r by lia. }
  destruct (IH (bitmap_clear bm start) (start + 1)) as (? & Hl & Hbits);
    [auto with nexus|lia|rewrite alen_bitmap_clear; lia|].
  rewrite alen_bitmap_clear in Hl. split_and!; [done..|]. intros j Hj.
  rewrite Hbits, bit_at_clear by lia.
  destruct (Z.eqb_spec start j); repeat case_bool_decide; try lia; by destruct (bit_at bm j).
Qed.

Lemma free_usable_spec es : forall bm u,
  byte_array bm -> Forall entry_wf es -> fits 64 u ->
  (forall i, i ∈ usable_page_list es -> 0 <= i < 8 * alen bm) ->
  let '(bm', u') := init_free_usable es bm u in
  byte_array bm' /\ alen bm' = alen bm /\
  u' = u64 (u + alen (usable_page_list es)) /\
  forall j, 0 <= j -> bit_at bm' j = bit_at bm j && negb (bool_decide (j ∈ usable_page_list es)).
Proof.
  unfold usable_page_list.
  induction es as [|e es IH]; intros bm u Hb Hwf Hu Hr; cbn [init_free_usable].
  { split_and!; [done..|by rewrite Z.add_0_r, wrap_small|]. intros. by rewrite andb_true_r. }
  inv Hwf. destruct (Z.eqb_spec (type_ e) LIMINE_MEMMAP_USABLE) as [Ht|Ht].
  - set (st := base e / PMM_PAGE_SIZE). set (n := length_ e / PMM_PAGE_SIZE).
    assert (0 <= st /\ 0 <= n) by (destruct H1; unfold st, n, PMM_PAGE_SIZE; zmod).
    assert (Hp : entry_pages e = seqZ st n) by (unfold entry_pages; by rewrite Ht).
    destruct (clear_range_spec (Z.to_nat n) bm st) as (Hb1 & Hl1 & Hbits1); [done|lia| |].
    { intros Hn.
      enough (st + n - 1 < 8 * alen bm) by lia. apply Hr. rewrite bind_cons, Hp.
      apply elem_of_app. left. apply elem_of_seqZ. lia. }
    specialize (IH (clear_range bm st (Z.to_nat n)) (u64 (u + n))).
    destruct (init_free_usable es _ _) as [bm' u'].
    destruct IH as (Hb2 & Hl2 & Hu2 & Hbits2); [done|done|by apply wrap_fits| |].
    { intros i Hi. rewrite Hl1. apply Hr. rewrite bind_cons. apply elem_of_app. by right. }
    split_and!; [done|congruence| |].
    + rewrite Hu2, bind_cons, Hp. unfold alen. rewrite length_app, length_seqZ.
      unfold wrap. rewrite Zplus_mod_idemp_l. f_equal. lia.
    + intros j Hj. rewrite Hbits2, Hbits1 by done.
      rewrite bind_cons, Hp, <- andb_assoc, <- negb_orb. f_equal. f_equal.
      apply eq_true_iff_eq. rewrite orb_true_iff, !bool_decide_eq_true, elem_of_app, elem_of_seqZ.
      rewrite Z2Nat.id by lia. done.
  - assert (Hp : entry_pages e = []) by (unfold entry_pages; by rewrite (proj2 (Z.eqb_neq _ _))).
    rewrite bind_cons, Hp in *. by apply IH.
Qed.

Lemma clear_from_filter bm n : forall i,
  clear_from bm i n = alen (filter (fun j => bit_at bm j = false) (seqZ i (Z.of_nat n))).
Proof.
  induction n as [|n IH]; intros i; [done|]. cbn [clear_from].
  rewrite seqZ_cons by lia. rewrite filter_cons, IH. unfold alen.
  replace (Z.pred (Z.of_nat (S n))) with (Z.of_nat n) by lia.
  replace (Z.succ i) with (i + 1) by lia.
  destruct (bit_at bm i) eqn:E; [rewrite decide_False by congruence; lia|].
  rewrite decide_True by done. simpl. lia.
Qed.

(** The clear bits are exactly the pages of a duplicate-free list. *)
Lemma clear_count_list bm n l :
  0 <= n -> NoDup l -> (forall j, j ∈ l -> 0 <= j < n) ->
  (forall j, 0 <= j < n -> bit_at bm j = negb (bool_decide (j ∈ l))) ->
  clear_count bm n = alen l.
Proof.
  intros Hn Hd Hin Hbits. unfold clear_count. rewrite clear_from_filter. unfold alen. f_equal.
  apply Permutation_length, NoDup_Permutation; [by apply NoDup_filter, NoDup_seqZ|done|].
  intros j. rewrite list_elem_of_filter, elem_of_seqZ. split.
  - intros [Hb Hj]. rewrite Hbits in Hb by lia. by case_bool_decide.
  - intros Hj. split; [|specialize (Hin j Hj); lia].
    rewrite Hbits by auto. by rewrite bool_decide_eq_true_2.
Qed.

(** Pass 3 on a bitmap of ones: the clear bits are the usable pages, counted. *)
Lemma init_pass3 es mx bs :
  Forall entry_wf es -> NoDup (usable_page_list es) ->
  (forall i, i ∈ usable_page_list es -> 0 <= i < mx) -> 0 < mx <= 2 ^ 40 -> mx <= 8 * bs ->
  let '(bm, u) := init_free_usable es (replicate (Z.to_nat bs) 255) 0 in
  byte_array bm /\ alen bm = bs /\ clear_count bm mx = u /\ 0 <= u <= mx /\
  forall j, 0 <= j < mx -> bit_at bm j = negb (bool_decide (j ∈ usable_page_list es)).
Proof.
  intros Hwf Hnd Hin Hmx Hbs.
  pose proof (free_usable_spec es (replicate (Z.to_nat bs) 255) 0) as F.
  assert (Hlen : alen (replicate (Z.to_nat bs) 255) = bs) by (unfold alen; rewrite length_replicate; lia).
  rewrite Hlen in F. destruct (init_free_usable es _ 0) as [bm u].
  destruct F as (Hby & Hl & Hu & Hbits); [by apply Forall_replicate|done..| |].
  { intros i Hi. specialize (Hin i Hi). lia. }
  assert (Hbits' : forall j, 0 <= j < mx -> bit_at bm j = negb (bool_decide (j ∈ usable_page_list es))).
  { intros j Hj. rewrite Hbits, bit_at_replicate_FF by lia. done. }
  assert (Hcnt : clear_count bm mx = alen (usable_page_list es)) by (apply clear_count_list; auto; lia).
  pose proof (clear_from_bounds bm 0 (Z.to_nat mx)) as Hcb. fold (clear_count bm mx) in Hcb.
  rewrite Hu, Z.add_0_l, wrap_small by (unfold fits; lia). split_and!; [done..|lia|lia|done].
Qed.

(** Frame 0 is taken out whether or not the map called it usable. *)
Lemma guard_page0 bm mx :
  byte_array bm -> 0 < mx -> mx <= 8 * alen bm ->
  let '(bm', used) := if nonzero (bitmap_test bm 0) then (bm, 0) else (bitmap_set bm 0, 1) in
  byte_array bm' /\ alen bm' = alen bm /\ bit_at bm' 0 = true /\
  (forall j, 0 < j -> bit_at bm' j = bit_at bm j) /\
  0 <= used <= 1 /\ used + clear_count bm' mx = clear_count bm mx.
Proof.
  intros Hby Hmx Hle. rewrite bitmap_test_spec.
  destruct (bit_at bm 0) eqn:E0; [split_and!; try done; lia|].
  split_and!; [auto with nexus|by rewrite alen_bitmap_set| | |lia..|].
  - rewrite bit_at_set by lia. done.
  - intros j Hj. rewrite bit_at_set by lia. by destruct (Z.eqb_spec 0 j); [lia|].
  - rewrite clear_count_set, E0 by lia. simpl. lia.
Qed.

Lemma init_state_inv bm b off mx u used hi m :
  byte_array bm -> alen bm = (mx + 7) / 8 -> bit_at bm 0 = true -> 0 < mx <= 2 ^ 40 ->
  0 <= used <= 1 -> 0 <= u <= mx -> used + clear_count bm mx = u ->
  pmm_inv (Pmm b bm mx u used hi off ∅ m).
Proof.
  intros Hby Hl H0 Hmx Hused Hu Hsum.
  constructor; simpl; try done; [lia|unfold fits; lia|unfold fits; lia|].
  rewrite Hsum. apply wrap_small. unfold fits. lia.
Qed.

Lemma init_establishes (es : list memmap_entry) (off : Z) (m : gmap Z Z) (b : Z) (es' : list memmap_entry) :
  memmap_wf es ->
  PMM_PAGE_SIZE <= init_highest es 0 ->
  let bitmap_size := (init_highest es 0 / PMM_PAGE_SIZE + 7) / 8 in
  init_place_bitmap es bitmap_size = Some (b, es') ->
  let s := pmm_init (Some es) (Some off) (pmm_boot m) in
  pmm_inv s /\
  (forall i, page_free s i <->
     0 < i /\ i ∈ usable_page_list es /\
     ~ (b / PMM_PAGE_SIZE <= i < b / PMM_PAGE_SIZE + bitmap_pages_of bitmap_size)) /\
  pmm_get_free_page_count s = clear_count (bitmap s) (max_page_index s).
Proof.
  intros [Hwf Hnd] Hram bs Hplace. cbv zeta. unfold pmm_init.
  change (highest_address (pmm_boot m)) with 0. change (usable_pages (pmm_boot m)) with 0.
  fold bs. rewrite Hplace. cbv iota beta zeta.
  destruct (init_highest_bounds es 0 Hwf) as [Hhi _]; [lia|].
  assert (Hin : forall i, i ∈ usable_page_list es -> 0 <= i < init_highest es 0 / PMM_PAGE_SIZE)
    by (intros; by apply usable_in_range).
  set (mx := init_highest es 0 / PMM_PAGE_SIZE) in *.
  assert (Hmx : 0 < mx <= 2 ^ 40) by (unfold mx, PMM_PAGE_SIZE in *; zmod).
  assert (Hbs : 0 <= bs /\ mx <= 8 * bs) by (unfold bs; zmod).
  destruct (place_bitmap_pages bs es b es') as [Hwf' Hperm]; [lia|done..|].
  rewrite Hperm in Hnd. apply NoDup_app in Hnd as (_ & Hsep & Hnd).
  assert (Hin' : forall i, i ∈ usable_page_list es' -> 0 <= i < mx).
  { intros i Hi. apply Hin. rewrite Hperm. apply elem_of_app. by right. }
  pose proof (init_pass3 es' mx bs Hwf' Hnd Hin' Hmx (proj2 Hbs)) as P3.
  destruct (init_free_usable es' _ 0) as [bm u]. destruct P3 as (Hby & Hl & Hcnt & Hu & Hbits).
  pose proof (guard_page0 bm mx Hby ltac:(lia) ltac:(lia)) as G.
  destruct (if nonzero _ then _ else _) as [bm' used]. destruct G as (Hby' & Hl' & H0 & Hbits0 & Hused & Hsum).
  assert (I : pmm_inv (Pmm (Some (u64 (b + off))) bm' mx u used (init_highest es 0) off ∅ (mem (pmm_boot m))))
    by (apply init_state_inv; [done|by rewrite Hl', Hl|done|done|done|done|congruence]).
  split_and!; [exact I| |by apply free_page_count].
  intros i. unfold page_free. simpl. rewrite Hperm, elem_of_app, elem_of_seqZ. split.
  - intros [Hi Hb]. rewrite Hbits0, Hbits in Hb by lia. case_bool_decide as He; [|done].
    split_and!; [lia|by right|]. intros Hr. apply (Hsep i); [by apply elem_of_seqZ|done].
  - intros (Hi & [Hr|He] & Hn); [done|]. specialize (Hin' i He). split; [lia|].
    rewrite Hbits0, Hbits by lia. by rewrite bool_decide_eq_true_2.
Qed.

(** Booting from a memory map that satisfies the boot protocol, with a
    usable region that can hold the bitmap, puts the allocator into a state
    that satisfies its invariant, in which the free frames are exactly the
    usable frames of the map other than frame 0 and the bitmap's own, and the
    free-page counter is their number. *)
Theorem pmm_init_ok (es : list memmap_entry) (off : Z) (m : gmap Z Z) (b : Z) (es' : list memmap_entry) :
  memmap_wf es ->
  PMM_PAGE_SIZE <= init_highest es 0 ->
  let bitmap_size := (init_highest es 0 / PMM_PAGE_SIZE + 7) / 8 in
  init_place_bitmap es bitmap_size = Some (b, es') ->
  let s := pmm_init (Some es) (Some off) (pmm_boot m) in
  pmm_inv s /\
  (forall i, page_free s i <->
     0 < i /\ i ∈ usable_page_list es /\
     ~ (b / PMM_PAGE_SIZE <= i < b / PMM_PAGE_SIZE + bitmap_pages_of bitmap_size)) /\
  pmm_get_free_page_count s = clear_count (bitmap s) (max_page_index s).
Proof. apply init_establishes. Qed.

(** A 64 KiB machine: one usable region above the first page, one reserved. *)
Definition demo_memmap : list memmap_entry :=
  [MemmapEntry 4096 40960 0; MemmapEntry 45056 8192 1; MemmapEntry 53248 12288 0].

Definition demo_pmm : pmm := pmm_init (Some demo_memmap) (Some 0) (pmm_boot ∅).

Lemma demo_memmap_wf : memmap_wf demo_memmap.
Proof.
  split; [|vm_compute; repeat (apply NoDup_cons; split; [set_solver by lia|]); apply NoDup_nil_2].
  unfold demo_memmap. repeat apply Forall_cons_2; [..|apply Forall_nil_2]; unfold entry_wf; simpl;
    split_and!; try lia; done.
Qed.

Lemma demo_pmm_inv : pmm_inv demo_pmm.
Proof.
  apply (init_establishes demo_memmap 0 ∅ 4096 [MemmapEntry 8192 36864 0; MemmapEntry 45056 8192 1; MemmapEntry 53248 12288 0]);
    [exact demo_memmap_wf|vm_compute; discriminate|vm_compute; reflexivity].
Qed.

Lemma pmm_init_ok_witness : pmm_inv demo_pmm /\ pmm_get_free_page_count demo_pmm = 12.
Proof.
  destruct (pmm_init_ok demo_memmap 0 ∅ 4096 [MemmapEntry 8192 36864 0; MemmapEntry 45056 8192 1; MemmapEntry 53248 12288 0])
    as (I & _ & Hc).
  - exact demo_memmap_wf.
  - vm_compute; discriminate.
  - vm_compute; reflexivity.
  - split; [exact I|]. unfold demo_pmm. rewrite Hc. vm_compute. reflexivity.
Defined.

(** C1.  [pmm_alloc_page] returns 0 and changes nothing exactly when no frame
    is free; otherwise it returns the address of the lowest free frame, which
    leaves the free set with reference count 1 and is zero-filled, and nothing
    else changes: no other frame's status, count or memory. *)
Theorem pmm_alloc_page_spec (s : pmm) :
  pmm_inv s ->
  (pmm_alloc_page s = (s, 0) /\ forall i, ~ page_free s i) \/
  (exists s' i, pmm_alloc_page s = (s', i * PMM_PAGE_SIZE) /\ page_free s i /\
     (forall j, page_free s j -> i <= j) /\ pmm_inv s' /\ allocated_run s s' i 1).
Proof. apply alloc_page_cases. Qed.


Lemma pmm_alloc_page_spec_witness :
  pmm_inv demo_pmm /\ (pmm_alloc_page demo_pmm).2 = 8192 /\
  ((pmm_alloc_page demo_pmm = (demo_pmm, 0) /\ forall i, ~ page_free demo_pmm i) \/
   exists s' i, pmm_alloc_page demo_pmm = (s', i * PMM_PAGE_SIZE) /\ page_free demo_pmm i /\
     (forall j, page_free demo_pmm j -> i <= j) /\ pmm_inv s' /\ allocated_run demo_pmm s' i 1).
Proof.
  split; [exact demo_pmm_inv|]. split; [vm_compute; reflexivity|].
  apply (pmm_alloc_page_spec demo_pmm). exact demo_pmm_inv.
Defined.

(** [pmm_alloc_pages count] (count > 1) returns 0 exactly when no run of
    [count] contiguous free frames exists; otherwise it returns the lowest such
    run, so the skip-ahead of the search loses nothing, and takes exactly its
    frames.  The loop returns within [max_page_index] rounds. *)
Theorem pmm_alloc_pages_spec (s : pmm) (count : Z) :
  pmm_inv s -> 1 < count -> count + max_page_index s < 2 ^ 64 ->
  (pmm_alloc_pages s count = (s, 0) /\
     forall i, ~ free_run (bitmap s) (max_page_index s) i count) \/
  (exists s' i, pmm_alloc_pages s count = (s', i * PMM_PAGE_SIZE) /\
     free_run (bitmap s) (max_page_index s) i count /\
     (forall j, free_run (bitmap s) (max_page_index s) j count -> i <= j) /\
     pmm_inv s' /\ allocated_run s s' i count).
Proof. apply alloc_pages_cases. Qed.

Lemma pmm_alloc_pages_spec_witness :
  (pmm_alloc_pages demo_pmm 10).2 = 0 /\ (pmm_alloc_pages demo_pmm 9).2 = 8192 /\
  ((pmm_alloc_pages demo_pmm 9 = (demo_pmm, 0) /\
     forall i, ~ free_run (bitmap demo_pmm) (max_page_index demo_pmm) i 9) \/
  (exists s' i, pmm_alloc_pages demo_pmm 9 = (s', i * PMM_PAGE_SIZE) /\
     free_run (bitmap demo_pmm) (max_page_index demo_pmm) i 9 /\
     (forall j, free_run (bitmap demo_pmm) (max_page_index demo_pmm) j 9 -> i <= j) /\
     pmm_inv s' /\ allocated_run demo_pmm s' i 9)).
Proof.
  split; [vm_compute; reflexivity|]. split; [vm_compute; reflexivity|].
  apply (pmm_alloc_pages_spec demo_pmm 9).
  - exact demo_pmm_inv.
  - lia.
  - vm_compute; reflexivity.
Defined.

(** ** The abstract view of freeing and of the reference counts *)

Lemma page_free_drop s p j :
  pmm_inv s -> freeable s p -> page_free (drop_page s p) j <-> page_free s j \/ j = p.
Proof.
  intros I [Hp Hb]. pose proof (inv_range s p I ltac:(lia)). unfold page_free, drop_page.
  simpl. split.
  - intros [Hj Hbj]. rewrite bit_at_clear in Hbj by lia.
    destruct (Z.eqb_spec p j) as [->|]; [by right|by left].
  - intros [[Hj Hbj]| ->].
    + split; [done|]. rewrite bit_at_clear, Hbj by lia. apply andb_false_r.
    + split; [done|]. rewrite bit_at_clear, Z.eqb_refl by lia. done.
Qed.

Lemma page_free_refcount_store s p v j : page_free (refcount_store s p v) j <-> page_free s j.
Proof.
  unfold page_free. destruct (refcount_store_frame s p v) as (-> & -> & _). done.
Qed.

Lemma free_count_drop s p :
  pmm_inv s -> freeable s p ->
  pmm_get_free_page_count (drop_page s p) = pmm_get_free_page_count s + 1.
Proof.
  intros I [Hp Hb]. pose proof (inv_drop s p I Hp Hb). rewrite !free_page_count by done.
  pose proof (inv_max_le s I). unfold drop_page. simpl.
  by rewrite clear_count_clear, Hb by lia.
Qed.

Lemma free_count_refcount_store s p v :
  pmm_get_free_page_count (refcount_store s p v) = pmm_get_free_page_count s.
Proof. unfold refcount_store. by destruct (p <? MAX_PAGES). Qed.

Lemma free_page_free s p j :
  pmm_inv s -> freeable s p ->
  page_free (pmm_free_page s (p * PMM_PAGE_SIZE)) j <-> page_free s j \/ j = p.
Proof.
  intros I F. rewrite pmm_free_page_acts; rewrite Z.div_mul by done; [|done].
  by rewrite page_free_refcount_store, page_free_drop.
Qed.

Lemma allocated_freeable s s' i n :
  pmm_inv s -> allocated_run s s' i n -> 0 < n -> freeable s' i.
Proof.
  intros I (Hm & Hin & Hout & _) Hn. destruct (Hin i ltac:(lia)) as [Hi Hb].
  split; [lia|]. destruct (bit_at (bitmap s') i) eqn:E; [done|].
  assert (page_free s' i) as Hf by (split; [lia|done]). apply Hout in Hf. lia.
Qed.

Lemma refcount_after_free s a :
  pmm_inv s -> freeable s (a / PMM_PAGE_SIZE) -> pmm_page_refcount (pmm_free_page s a) a = 0.
Proof.
  intros I F. rewrite pmm_free_page_acts by done. unfold pmm_page_refcount, refcount_store.
  destruct (Z.leb_spec MAX_PAGES (a / PMM_PAGE_SIZE)); [done|].
  rewrite (proj2 (Z.ltb_lt _ _)) by lia. unfold refcount. simpl. by rewrite lookup_insert_eq.
Qed.

(** Freeing what [pmm_alloc_page] returned gives back exactly the free
    set and the free count from before the allocation, and drops the frame's
    reference count; a second free of the same frame is ignored. *)
Theorem pmm_alloc_free_roundtrip (s s' : pmm) (a : Z) :
  pmm_inv s -> pmm_alloc_page s = (s', a) -> a <> 0 ->
  let s'' := pmm_free_page s' a in
  (forall j, page_free s'' j <-> page_free s j) /\
  pmm_get_free_page_count s'' = pmm_get_free_page_count s /\
  pmm_page_refcount s'' a = 0 /\
  pmm_free_page s'' a = s''.
Proof.
  intros I H Ha. cbv zeta.
  destruct (alloc_page_cases s I) as [[E _]|(s1 & i & E & F & _ & I' & R)];
    rewrite E in H; simplify_eq.
  assert (Fr : freeable s' i) by (apply allocated_freeable with s 1; [done|done|lia]).
  destruct R as (Hm & Hin & Hout & Hcnt & _).
  split_and!.
  - intros j. rewrite free_page_free, Hout by done. split; [|destruct (decide (j = i)); intuition lia].
    intros [[? _]| ->]; [done|apply F].
  - rewrite pmm_free_page_acts; rewrite Z.div_mul by done; [|done].
    rewrite free_count_refcount_store, free_count_drop by done. lia.
  - apply refcount_after_free; [done|by rewrite Z.div_mul].
  - apply pmm_free_page_noop; [destruct F; unfold PMM_PAGE_SIZE in *; lia|]. rewrite Z.div_mul by done.
    intros [_ Hb]. assert (page_free (pmm_free_page s' (i * PMM_PAGE_SIZE)) i) as [_ ?]
      by (apply free_page_free; auto). congruence.
Qed.

Lemma pmm_alloc_free_roundtrip_witness :
  let s' := (pmm_alloc_page demo_pmm).1 in
  let s'' := pmm_free_page s' 8192 in
  (forall j, page_free s'' j <-> page_free demo_pmm j) /\
  pmm_get_free_page_count s'' = pmm_get_free_page_count demo_pmm /\
  pmm_page_refcount s'' 8192 = 0 /\ pmm_free_page s'' 8192 = s''.
Proof.
  apply (pmm_alloc_free_roundtrip demo_pmm).
  - exact demo_pmm_inv.
  - vm_compute; reflexivity.
  - discriminate.
Defined.

Lemma refcount_set_eq s p v :
  refcount (set_page_refcount s (<[p := v]> (page_refcount s))) p = v.
Proof. unfold refcount. simpl. by rewrite lookup_insert_eq. Qed.

(** [page_of a] is a frame with a counted reference. *)
Definition counted (s : pmm) (p : Z) : Prop := 0 < p < MAX_PAGES /\ p < max_page_index s.

Lemma unref_counted s a :
  let p := a / PMM_PAGE_SIZE in
  counted s p ->
  pmm_page_unref s a =
    if 0 <? refcount s p then
      let s1 := set_page_refcount s (<[p := refcount s p - 1]> (page_refcount s)) in
      if (refcount s p =? 1) && bit_at (bitmap s) p then drop_page s1 p else s1
    else s.
Proof.
  intros p [Hp Hm]. unfold pmm_page_unref. fold p.
  rewrite (proj2 (Z.leb_gt _ _)), (proj2 (Z.eqb_neq p 0)) by lia. simpl.
  destruct (Z.ltb_spec 0 (refcount s p)); [|done].
  rewrite bitmap_test_spec, refcount_set_eq.
  by destruct (Z.eqb_spec (refcount s p) 1), (Z.eqb_spec (refcount s p - 1) 0); try lia.
Qed.

Lemma ref_counted s a :
  let p := a / PMM_PAGE_SIZE in
  counted s p ->
  pmm_page_ref s a = set_page_refcount s (<[p := u16 (refcount s p + 1)]> (page_refcount s)).
Proof.
  intros p [Hp Hm]. unfold pmm_page_ref. fold p. by rewrite (proj2 (Z.leb_gt _ _)) by lia.
Qed.

(** Sharing and unsharing a frame: a reference taken and dropped leaves
    the allocator state unchanged as long as the 16-bit count does not
    overflow; dropping one of several references frees nothing; dropping the
    last one frees the frame, and only it. *)
Theorem pmm_page_unref_spec (s : pmm) (a : Z) :
  let p := a / PMM_PAGE_SIZE in
  pmm_inv s -> counted s p -> 0 < refcount s p -> bit_at (bitmap s) p = true ->
  (refcount s p < 65535 -> pmm_page_unref (pmm_page_ref s a) a = s) /\
  pmm_page_refcount (pmm_page_unref s a) a = refcount s p - 1 /\
  (forall j, page_free (pmm_page_unref s a) j <->
     page_free s j \/ (j = p /\ refcount s p = 1)) /\
  (forall q, q <> p -> refcount (pmm_page_unref s a) q = refcount s q).
Proof.
  intros p I C Hr Hb. pose proof C as [Hp Hm]. pose proof (refcount_bound s p I).
  assert (Hl : page_refcount s !! p = Some (refcount s p)).
  { unfold refcount in *. by destruct (page_refcount s !! p); simpl in *; [|lia]. }
  split_and!.
  - intros Hlt. rewrite ref_counted by done. fold p. rewrite wrap_small by (unfold fits; lia).
    rewrite unref_counted by done. fold p. rewrite refcount_set_eq. simpl.
    rewrite (proj2 (Z.ltb_lt 0 _)) by lia. rewrite (proj2 (Z.eqb_neq _ 1)) by lia. simpl.
    rewrite insert_insert_eq, Z.add_simpl_r, (insert_id (page_refcount s) p (refcount s p)) by done.
    by destruct s.
  - unfold pmm_page_refcount. fold p. rewrite (proj2 (Z.leb_gt _ _)) by lia.
    rewrite unref_counted by done. fold p. rewrite (proj2 (Z.ltb_lt 0 _)) by lia.
    unfold refcount at 1. destruct (_ && _); simpl; by rewrite lookup_insert_eq.
  - intros j. rewrite unref_counted by done. fold p. rewrite (proj2 (Z.ltb_lt 0 _)), Hb by lia.
    rewrite andb_true_r. destruct (Z.eqb_spec (refcount s p) 1) as [E|E]; cbv zeta.
    + rewrite page_free_drop; [|apply inv_set_refcount; [done..|unfold fits; lia]|split; [simpl; lia|done]].
      unfold page_free. simpl. naive_solver.
    + unfold page_free. simpl. naive_solver lia.
  - intros q Hq. rewrite unref_counted by done. fold p. rewrite (proj2 (Z.ltb_lt 0 _)) by lia.
    unfold refcount at 1. destruct (_ && _); simpl; by rewrite lookup_insert_ne.
Qed.

Lemma pmm_page_unref_spec_witness :
  let s := (pmm_alloc_page demo_pmm).1 in
  pmm_page_unref (pmm_page_ref s 8192) 8192 = s /\
  (forall j, page_free (pmm_page_unref s 8192) j <-> page_free s j \/ (j = 2 /\ refcount s 2 = 1)).
Proof.
  cbv zeta. destruct (pmm_page_unref_spec (pmm_alloc_page demo_pmm).1 8192) as (H1 & _ & H3 & _).
  - destruct (alloc_page_cases demo_pmm demo_pmm_inv) as [[E _]|(s' & i & E & _ & _ & I & _)];
      rewrite E; [exact demo_pmm_inv|exact I].
  - vm_compute. repeat split; discriminate.
  - vm_compute; reflexivity.
  - vm_compute; reflexivity.
  - split; [apply H1; vm_compute; reflexivity|exact H3].
Defined.

(** The reference counts only cover the first gibibyte: a frame above it
    that [pmm_alloc_page] hands out reads as count 0, and no number of
    [pmm_page_unref] calls ever frees it. *)
Theorem pmm_unref_above_limit (s s' : pmm) (a : Z) :
  pmm_inv s -> pmm_alloc_page s = (s', a) -> MAX_PAGES * PMM_PAGE_SIZE <= a ->
  pmm_page_refcount s' a = 0 /\ pmm_page_ref s' a = s' /\
  forall n, Nat.iter n (fun t => pmm_page_unref t a) s' = s'.
Proof.
  intros I H Ha. assert (Hp : MAX_PAGES <= a / PMM_PAGE_SIZE) by (apply Z.div_le_lower_bound; [done|lia]).
  assert (Hleb : (MAX_PAGES <=? a / PMM_PAGE_SIZE) = true) by by apply Z.leb_le.
  unfold pmm_page_refcount, pmm_page_ref. rewrite Hleb. split_and!; [done..|].
  induction n as [|n IH]; [done|]. simpl. rewrite IH. unfold pmm_page_unref. by rewrite Hleb.
Qed.

(** A machine state whose first free frame lies just above the first gibibyte:
    the bitmap is all ones but for that frame. *)
Definition high_pmm : pmm :=
  Pmm (Some 0) (replicate (Z.to_nat 32768) 255 ++ [254]) 262145 1 0 (262145 * 4096) 0 ∅ ∅.

Lemma high_pmm_bits j :
  0 <= j < 262145 -> bit_at (bitmap high_pmm) j = negb (bool_decide (j ∈ [262144])).
Proof.
  intros Hj. unfold high_pmm, bit_at, aget. cbn [bitmap]. destruct (decide (j = 262144)) as [->|Hne].
  - change (262144 / 8) with 32768.
    rewrite lookup_app_r by (rewrite length_replicate; lia). rewrite length_replicate.
    replace (Z.to_nat 32768 - Z.to_nat 32768)%nat with 0%nat by lia. reflexivity.
  - rewrite bool_decide_eq_false_2 by (by rewrite list_elem_of_singleton).
    assert (0 <= j / 8 < 32768) by zmod.
    rewrite lookup_app_l by (rewrite length_replicate; lia).
    rewrite lookup_replicate_2 by lia. pose proof (mod8 j).
    change (default 0 (Some 255)) with (Z.ones 8). apply Z.ones_spec_low. lia.
Qed.

Lemma high_bytes n : byte_array (replicate n 255 ++ [254]).
Proof.
  apply Forall_app. split; [|by repeat constructor].
  apply Forall_replicate. by split.
Qed.

Lemma high_pmm_inv : pmm_inv high_pmm.
Proof.
  assert (Hc : clear_count (bitmap high_pmm) 262145 = 1).
  { rewrite (clear_count_list _ _ [262144]); [done|lia|apply NoDup_singleton| |].
    - intros j Hj%list_elem_of_singleton. lia.
    - exact high_pmm_bits. }
  constructor.
  - exact (high_bytes (Z.to_nat 32768)).
  - unfold high_pmm; cbn [max_page_index]. lia.
  - unfold high_pmm, alen; cbn [bitmap max_page_index]. rewrite length_app, length_replicate.
    change ((262145 + 7) / 8) with 32769. cbn [length]. lia.
  - split; [intros H; discriminate H|reflexivity].
  - split; [intros H; discriminate H|reflexivity].
  - change (max_page_index high_pmm) with 262145. rewrite Hc. reflexivity.
  - intros _. rewrite high_pmm_bits by lia. reflexivity.
  - apply map_Forall_empty.
  - intros p _. unfold refcount, high_pmm. cbn [page_refcount]. by rewrite lookup_empty.
Qed.

Lemma high_pmm_alloc :
  exists s', pmm_alloc_page high_pmm = (s', MAX_PAGES * PMM_PAGE_SIZE).
Proof.
  assert (F : page_free high_pmm 262144).
  { split; [unfold high_pmm; cbn [max_page_index]; lia|].
    rewrite high_pmm_bits by lia. reflexivity. }
  destruct (alloc_page_cases high_pmm high_pmm_inv) as [[_ N]|(s' & i & E & [Hi Hb] & _)].
  - destruct (N 262144 F).
  - exists s'. rewrite E. change (max_page_index high_pmm) with 262145 in Hi.
    rewrite high_pmm_bits in Hb by lia. apply negb_false_iff, bool_decide_eq_true in Hb.
    apply list_elem_of_singleton in Hb as ->. reflexivity.
Qed.

Lemma pmm_unref_above_limit_witness :
  exists s', pmm_alloc_page high_pmm = (s', MAX_PAGES * PMM_PAGE_SIZE) /\
  pmm_page_refcount s' (MAX_PAGES * PMM_PAGE_SIZE) = 0 /\
  (forall n, Nat.iter n (fun t => pmm_page_unref t (MAX_PAGES * PMM_PAGE_SIZE)) s' = s').
Proof.
  destruct high_pmm_alloc as [s' E]. exists s'. split; [exact E|].
  destruct (pmm_unref_above_limit high_pmm s' (MAX_PAGES * PMM_PAGE_SIZE)) as (H1 & _ & H3).
  - exact high_pmm_inv.
  - exact E.
  - lia.
  - split; [exact H1|exact H3].
Defined.

(** ** Sequences of operations *)

Inductive pmm_op :=
| OpAllocPage
| OpFreePage (phys : Z)
| OpAllocPages (count : Z)
| OpFreePages (phys count : Z)
| OpPageRef (phys : Z)
| OpPageUnref (phys : Z).

Definition pmm_exec (o : pmm_op) (s : pmm) : pmm :=
  match o with
  | OpAllocPage => (pmm_alloc_page s).1
  | OpFreePage a => pmm_free_page s a
  | OpAllocPages n => (pmm_alloc_pages s n).1
  | OpFreePages a n => pmm_free_pages s a n
  | OpPageRef a => pmm_page_ref s a
  | OpPageUnref a => pmm_page_unref s a
  end.

(** Arguments are 64-bit values; [pmm_page_ref] is only called on RAM frames
    (it has no bound check against [max_page_index]), and an allocation is
    smaller than the address space. *)
Definition op_ok (s : pmm) (o : pmm_op) : Prop :=
  match o with
  | OpAllocPage => True
  | OpFreePage a | OpPageUnref a => 0 <= a
  | OpAllocPages n => 0 <= n /\ n + max_page_index s < 2 ^ 64
  | OpFreePages a n => 0 <= a /\ 0 <= n
  | OpPageRef a => 0 <= a /\ a / PMM_PAGE_SIZE < max_page_index s
  end.

Inductive pmm_step : pmm -> pmm -> Prop :=
| pmm_step_exec s o : op_ok s o -> pmm_step s (pmm_exec o s).

Lemma pmm_step_inv s s' : pmm_step s s' -> pmm_inv s -> pmm_inv s'.
Proof.
  intros [s0 o Hok] I. destruct o; simpl in *.
  - by destruct (alloc_page_cases s0 I) as [[-> _]|(s1 & i & -> & _ & _ & ? & _)].
  - by apply inv_free_page.
  - destruct Hok. destruct (decide (count = 0)) as [->|]; [done|].
    destruct (decide (count = 1)) as [->|].
    { unfold pmm_alloc_pages. simpl.
      by destruct (alloc_page_cases s0 I) as [[-> _]|(s1 & i & -> & _ & _ & ? & _)]. }
    by destruct (alloc_pages_cases s0 count I) as [[-> _]|(s1 & i & -> & _ & _ & ? & _)]; [lia..| |].
  - by apply inv_free_pages_loop.
  - destruct Hok. by apply inv_page_ref.
  - by apply inv_page_unref.
Qed.

(** C2.  Whatever sequence of allocator operations runs after boot, including
    double frees and frees of frames that were never allocated, the state
    satisfies the invariant, so [pmm_get_free_page_count] is always the exact
    number of clear bits of the bitmap. *)
Theorem pmm_reachable_inv (s s' : pmm) :
  pmm_inv s -> rtc pmm_step s s' ->
  pmm_inv s' /\ pmm_get_free_page_count s' = clear_count (bitmap s') (max_page_index s').
Proof.
  intros I R. assert (I' : pmm_inv s') by (induction R; eauto using pmm_step_inv).
  split; [done|by apply free_page_count].
Qed.

Lemma pmm_reachable_inv_witness :
  let s' := pmm_exec (OpFreePage 8192) (pmm_exec (OpFreePage 8192) demo_pmm) in
  pmm_inv s' /\ pmm_get_free_page_count s' = clear_count (bitmap s') (max_page_index s').
Proof.
  apply (pmm_reachable_inv demo_pmm); [exact demo_pmm_inv|].
  apply (rtc_l _ _ (pmm_exec (OpFreePage 8192) demo_pmm)); [constructor; simpl; lia|].
  apply rtc_once. constructor. simpl; lia.
Defined.
