(* ===== verification/Frames.v ===== *)
(** The interface between the physical and the virtual memory manager.

    [FrameStore] is what kernel/src/mm/vmm.c calls of pmm.c, together with the
    64-bit accesses to physical memory through the HHDM window; [FrameLaws]
    states what the caller relies on, in terms of the set of free frames, the
    words of memory and the reference counts.  The page-table theorems (file
    Vmm) are proved against the two classes; the instances at the end show that
    pmm.c implements them. *)
From stdpp Require Import prelude gmap list.
From Stdlib Require Import ZArith Lia.
From S2P Require Import Prelude Bitmap Pmm.

Open Scope Z_scope.

Class FrameStore (S : Type) := {
  alloc_page : S -> S * Z;
  free_page : S -> Z -> S;
  page_ref : S -> Z -> S;
  page_unref : S -> Z -> S;
  page_count : S -> Z -> Z;
  read64 : S -> Z -> Z;
  write64 : S -> Z -> Z -> S;
  zero_page : S -> Z -> S
}.

(** The word at [k] is inside the frame at [a]. *)
Definition in_frame (a k : Z) : Prop := a <= k < a + 4096.

#[export] Instance in_frame_dec a k : Decision (in_frame a k).
Proof. unfold in_frame. apply _. Defined.

Definition is_frame (a : Z) : Prop := a mod 4096 = 0 /\ 0 < a < 2 ^ 52.

Lemma in_frame_inj a b k : a mod 4096 = 0 -> b mod 4096 = 0 -> in_frame a k -> in_frame b k -> a = b.
Proof. unfold in_frame. intros. zmod. Qed.

Class FrameLaws (S : Type) `{FrameStore S} := {
  store_ok : S -> Prop;
  frame_free : S -> Z -> Prop;
  in_ram : S -> Z -> Prop;
  free_is_frame s a : store_ok s -> frame_free s a -> is_frame a;
  alloc_page_none s s' : store_ok s -> alloc_page s = (s', 0) -> s' = s /\ forall b, ~ frame_free s b;
  alloc_page_some s s' a : store_ok s -> alloc_page s = (s', a) -> a <> 0 ->
    store_ok s' /\ frame_free s a /\
    (forall b, frame_free s' b <-> frame_free s b /\ b <> a) /\
    (forall k, read64 s' k = if decide (in_frame a k) then 0 else read64 s k) /\
    (forall b, in_ram s' b <-> in_ram s b) /\
    (forall b, 0 <= b -> ~ in_frame a b -> page_count s' b = page_count s b);
  write64_ok s k v : store_ok s -> store_ok (write64 s k v);
  write64_free s k v b : frame_free (write64 s k v) b <-> frame_free s b;
  write64_ram s k v b : in_ram (write64 s k v) b <-> in_ram s b;
  write64_read s k v k' : read64 (write64 s k v) k' = if decide (k = k') then v else read64 s k';
  write64_count s k v b : page_count (write64 s k v) b = page_count s b;
  zero_page_ok s a : store_ok s -> store_ok (zero_page s a);
  zero_page_free s a b : frame_free (zero_page s a) b <-> frame_free s b;
  zero_page_ram s a b : in_ram (zero_page s a) b <-> in_ram s b;
  zero_page_read s a k :
    read64 (zero_page s a) k = if decide (in_frame a k) then 0 else read64 s k;
  zero_page_count s a b : page_count (zero_page s a) b = page_count s b;
  page_ref_ok s a : store_ok s -> in_ram s a -> store_ok (page_ref s a);
  page_ref_free s a b : frame_free (page_ref s a) b <-> frame_free s b;
  page_ref_ram s a b : in_ram (page_ref s a) b <-> in_ram s b;
  page_ref_read s a k : read64 (page_ref s a) k = read64 s k;
  page_ref_count s a b : store_ok s -> 0 <= a -> 0 <= b ->
    page_count (page_ref s a) b =
      if decide (a / 4096 = b / 4096 /\ b / 4096 < MAX_PAGES)
      then u16 (page_count s b + 1) else page_count s b;
  page_unref_ok s a : store_ok s -> 0 <= a -> store_ok (page_unref s a);
  page_unref_free s a b : store_ok s -> 0 <= a ->
    frame_free (page_unref s a) b -> frame_free s b \/ (b = a - a mod 4096 /\ page_count s a = 1);
  page_unref_read s a k : read64 (page_unref s a) k = read64 s k;
  page_unref_count s a : store_ok s -> 0 < a / 4096 -> 0 < page_count s a ->
    page_count (page_unref s a) a = page_count s a - 1
}.

(** ** pmm.c implements the interface *)

#[export] Instance pmm_frame_store : FrameStore pmm := {
  alloc_page := pmm_alloc_page;
  free_page := pmm_free_page;
  page_ref := pmm_page_ref;
  page_unref := pmm_page_unref;
  page_count := pmm_page_refcount;
  read64 s a := mem_read (mem s) a;
  write64 s a v := set_mem s (mem_write (mem s) a v);
  zero_page s a := set_mem s (mem_zero (mem s) a PMM_PAGE_SIZE)
}.

Definition pmm_frame_free (s : pmm) (a : Z) : Prop :=
  a mod PMM_PAGE_SIZE = 0 /\ page_free s (a / PMM_PAGE_SIZE).

Definition pmm_in_ram (s : pmm) (a : Z) : Prop :=
  0 <= a /\ a / PMM_PAGE_SIZE < max_page_index s.

Lemma page_base p : p * PMM_PAGE_SIZE / PMM_PAGE_SIZE = p /\ (p * PMM_PAGE_SIZE) mod PMM_PAGE_SIZE = 0.
Proof. unfold PMM_PAGE_SIZE. split; zmod. Qed.

Lemma pmm_free_is_frame s a : pmm_inv s -> pmm_frame_free s a -> is_frame a.
Proof.
  intros I (Hm & Hi & _). pose proof (inv_max s I). unfold is_frame, PMM_PAGE_SIZE in *. zmod.
Qed.

Lemma pmm_alloc_none_law s s' :
  pmm_inv s -> pmm_alloc_page s = (s', 0) -> s' = s /\ forall b, ~ pmm_frame_free s b.
Proof.
  intros I E. destruct (alloc_page_cases s I) as [[E' N]|(s1 & i & E' & [F _] & _)].
  - rewrite E' in E. simplify_eq. split; [done|]. intros b [_ Hb]. by apply (N _ Hb).
  - rewrite E' in E. unfold PMM_PAGE_SIZE in *. simplify_eq. lia.
Qed.

Lemma pmm_alloc_some_law s s' a :
  pmm_inv s -> pmm_alloc_page s = (s', a) -> a <> 0 ->
  pmm_inv s' /\ pmm_frame_free s a /\
  (forall b, pmm_frame_free s' b <-> pmm_frame_free s b /\ b <> a) /\
  (forall k, mem_read (mem s') k = if decide (in_frame a k) then 0 else mem_read (mem s) k) /\
  (forall b, pmm_in_ram s' b <-> pmm_in_ram s b) /\
  (forall b, 0 <= b -> ~ in_frame a b -> pmm_page_refcount s' b = pmm_page_refcount s b).
Proof.
  intros I E Ha. destruct (alloc_page_cases s I) as [[E' _]|(s1 & i & E' & F & _ & I' & R)];
    rewrite E' in E; simplify_eq.
  destruct R as (Hmx & _ & Hfree & _ & Hrc & Hmem). destruct (page_base i) as [Hd Hm].
  split_and!; [done| | | | |].
  - split; [done|]. by rewrite Hd.
  - intros b. unfold pmm_frame_free. rewrite Hfree. unfold PMM_PAGE_SIZE in *. split.
    + intros (? & ? & ?). split_and!; [done..|]. intros ->. lia.
    + intros ((? & ?) & ?). split_and!; [done..|]. zmod.
  - intros k. rewrite Hmem. unfold in_frame, PMM_PAGE_SIZE.
    case_bool_decide; destruct (decide _); try done; lia.
  - intros b. unfold pmm_in_ram. by rewrite Hmx.
  - intros b Hb Hn. unfold pmm_page_refcount. rewrite Hrc.
    destruct (_ <=? _); [done|]. destruct (decide _) as [[? _]|]; [|done].
    exfalso. apply Hn. unfold in_frame, PMM_PAGE_SIZE in *. zmod.
Qed.

Lemma pmm_ref_fields s a :
  bitmap (pmm_page_ref s a) = bitmap s /\ max_page_index (pmm_page_ref s a) = max_page_index s /\
  mem (pmm_page_ref s a) = mem s.
Proof. unfold pmm_page_ref. by destruct (_ <=? _). Qed.

Lemma pmm_unref_fields s a :
  max_page_index (pmm_page_unref s a) = max_page_index s /\ mem (pmm_page_unref s a) = mem s.
Proof.
  unfold pmm_page_unref. destruct (_ || _); [done|]. destruct (0 <? _); [|done].
  destruct (_ =? 0); [|done]. by destruct (nonzero _).
Qed.

Lemma pmm_ref_count_law s a b :
  pmm_inv s -> 0 <= a -> 0 <= b ->
  pmm_page_refcount (pmm_page_ref s a) b =
    if decide (a / 4096 = b / 4096 /\ b / 4096 < MAX_PAGES)
    then u16 (pmm_page_refcount s b + 1) else pmm_page_refcount s b.
Proof.
  intros I Ha Hb. unfold pmm_page_refcount, pmm_page_ref, PMM_PAGE_SIZE.
  destruct (Z.leb_spec MAX_PAGES (b / 4096)).
  - rewrite decide_False by lia. done.
  - destruct (decide (a / 4096 = b / 4096)) as [->|Hne].
    + rewrite decide_True by done. rewrite (proj2 (Z.leb_gt _ _)) by done.
      unfold refcount at 1. simpl. by rewrite lookup_insert_eq.
    + rewrite decide_False by naive_solver. destruct (_ <=? a / _); [done|].
      unfold refcount. simpl. by rewrite lookup_insert_ne.
Qed.

Lemma pmm_unref_cases s a :
  pmm_inv s -> 0 <= a ->
  pmm_page_unref s a = s \/ (counted s (a / PMM_PAGE_SIZE) /\ 0 < refcount s (a / PMM_PAGE_SIZE)).
Proof.
  intros I Ha. unfold pmm_page_unref. set (p := a / PMM_PAGE_SIZE).
  destruct (Z.leb_spec MAX_PAGES p); [by left|]. destruct (Z.eqb_spec p 0); [by left|]. simpl.
  destruct (Z.ltb_spec 0 (refcount s p)); [|by left]. right.
  assert (0 <= p) by (apply Z.div_pos; [done|reflexivity]).
  split; [|done]. split; [lia|]. destruct (Z.lt_ge_cases p (max_page_index s)); [done|].
  pose proof (inv_refs_ram s I p). lia.
Qed.

Lemma pmm_unref_free_law s a b :
  pmm_inv s -> 0 <= a -> pmm_frame_free (pmm_page_unref s a) b ->
  pmm_frame_free s b \/ (b = a - a mod 4096 /\ pmm_page_refcount s a = 1).
Proof.
  intros I Ha [Hm Hf]. destruct (pmm_unref_cases s a I Ha) as [E|[C Hr]].
  { rewrite E in Hf. left. by split. }
  rewrite unref_counted in Hf by done. rewrite (proj2 (Z.ltb_lt _ _)) in Hf by done.
  cbv zeta in Hf. destruct (_ && _) eqn:E.
  - apply andb_true_iff in E as [E1%Z.eqb_eq E2]. destruct C as [C1 C2].
    rewrite page_free_drop in Hf; [|apply inv_set_refcount; [done..|by rewrite E1]|split; [simpl; lia|done]].
    destruct Hf as [Hf|Hf]; [left; by split|].
    right. split; [unfold PMM_PAGE_SIZE in *; zmod|].
    unfold pmm_page_refcount. by rewrite (proj2 (Z.leb_gt _ _)) by lia.
  - left. by split.
Qed.

Lemma pmm_unref_count_law s a :
  pmm_inv s -> 0 < a / 4096 -> 0 < pmm_page_refcount s a ->
  pmm_page_refcount (pmm_page_unref s a) a = pmm_page_refcount s a - 1.
Proof.
  intros I Ha Hc. unfold pmm_page_refcount in *. change 4096 with PMM_PAGE_SIZE in *.
  destruct (Z.leb_spec MAX_PAGES (a / PMM_PAGE_SIZE)); [lia|].
  assert (C : counted s (a / PMM_PAGE_SIZE)).
  { split; [lia|]. destruct (Z.lt_ge_cases (a / PMM_PAGE_SIZE) (max_page_index s)); [done|].
    pose proof (inv_refs_ram s I (a / PMM_PAGE_SIZE)). lia. }
  rewrite unref_counted by done. rewrite (proj2 (Z.ltb_lt _ _)) by done. cbv zeta.
  unfold refcount at 1. destruct (_ && _); simpl; by rewrite lookup_insert_eq.
Qed.

#[export] Instance pmm_frame_laws : FrameLaws pmm.
Proof.
  refine {| store_ok := pmm_inv; frame_free := pmm_frame_free; in_ram := pmm_in_ram |};
    simpl; try done.
  - exact pmm_free_is_frame.
  - exact pmm_alloc_none_law.
  - exact pmm_alloc_some_law.
  - intros s k v I. by apply inv_set_mem.
  - intros s k v k'. apply mem_read_write.
  - intros s a I. by apply inv_set_mem.
  - intros s a k. rewrite mem_read_zero. unfold in_frame.
    case_bool_decide; destruct (decide _); try done; unfold PMM_PAGE_SIZE in *; lia.
  - intros s a I [_ H]. by apply inv_page_ref.
  - intros s a b. unfold pmm_frame_free, page_free. by destruct (pmm_ref_fields s a) as (-> & -> & _).
  - intros s a b. unfold pmm_in_ram. by destruct (pmm_ref_fields s a) as (_ & -> & _).
  - intros s a k. by destruct (pmm_ref_fields s a) as (_ & _ & ->).
  - exact pmm_ref_count_law.
  - intros s a I Ha. by apply inv_page_unref.
  - exact pmm_unref_free_law.
  - intros s a k. by destruct (pmm_unref_fields s a) as (_ & ->).
  - exact pmm_unref_count_law.
Defined.
