(* ===== verification/Vmm.v ===== *)
(** The virtual memory manager, kernel/src/mm/vmm.c: 4-level x86_64 page
    tables, address-space cloning and copy-on-write.

    The definitions are written against the frame-store interface (file
    Frames), which stands for pmm.c and the HHDM window: a table pointer of the
    code is [phys_to_virt] of the table's physical address, and is modelled by
    that physical address, NULL by [None].  [store] is the state behind the
    interface, [cr3] the control register.  TLB maintenance ([invlpg], the CR3
    reload at the end of [vmm_cow_clone]) has no effect on this state.

    The abstraction is [pte s root : address -> entry]: the leaf entry that the
    tables below [root] give a virtual address, 0 when a table is missing.  The
    tree invariant [pt_wf] (every table reached by one path only, every
    reachable table allocated) makes each operation an update of this function
    at one page. *)
From stdpp Require Import prelude gmap list.
From Stdlib Require Import ZArith Lia.
From S2P Require Import Prelude Bitmap Pmm Frames.

Open Scope Z_scope.

Definition PAGE_PRESENT : Z := Z.shiftl 1 0.

Definition PAGE_WRITABLE : Z := Z.shiftl 1 1.

Definition PAGE_USER : Z := Z.shiftl 1 2.

Definition PAGE_HUGE : Z := Z.shiftl 1 7.

Definition PAGE_NX : Z := Z.shiftl 1 63.

(** [0x000FFFFFFFFFF000]: the frame address of an entry. *)
Definition ADDR_MASK : Z := 0x000FFFFFFFFFF000.

Definition PML4_INDEX (addr : Z) : Z := Z.land (Z.shiftr addr 39) 0x1FF.

Definition PDPT_INDEX (addr : Z) : Z := Z.land (Z.shiftr addr 30) 0x1FF.

Definition PD_INDEX (addr : Z) : Z := Z.land (Z.shiftr addr 21) 0x1FF.

Definition PT_INDEX (addr : Z) : Z := Z.land (Z.shiftr addr 12) 0x1FF.

(** [addr & ~0xFFF]. *)
Definition page_align (addr : Z) : Z := Z.ldiff addr 0xFFF.

Section vmm.
Context {S : Type} `{FrameStore S}.
Implicit Types (s : S) (t i : Z).

(** The control register and the memory behind the page tables. *)
Record vmm := Vmm { store : S; cr3 : Z; hhdm_off : Z }.

Definition set_store (m : vmm) s : vmm := Vmm s (cr3 m) (hhdm_off m).

Definition write_cr3 (m : vmm) (c : Z) : vmm := Vmm (store m) c (hhdm_off m).

(** [table[index]], a 64-bit word. *)
Definition tread s t i : Z := read64 s (t + 8 * i).

Definition twrite s t i (v : Z) : S := write64 s (t + 8 * i) v.

Definition vmm_init (hhdm : option Z) (m : vmm) : vmm :=
  match hhdm with
  | None => m
  | Some offset => Vmm (store m) (cr3 m) offset
  end.

Definition vmm_get_hhdm_offset (m : vmm) : Z := hhdm_off m.

Definition get_current_pml4 (m : vmm) : Z := Z.land (cr3 m) ADDR_MASK.

Definition vmm_get_next_level s (table index : Z) (create : bool) : S * option Z :=
  if has_flag (tread s table index) PAGE_PRESENT
  then (s, Some (Z.land (tread s table index) ADDR_MASK))
  else if negb create then (s, None)
  else
    let '(s1, new_page) := alloc_page s in
    if new_page =? 0 then (s1, None)
    else
      let s2 := zero_page s1 new_page in
      (twrite s2 table index
         (Z.lor (Z.lor (Z.lor new_page PAGE_PRESENT) PAGE_WRITABLE) PAGE_USER),
       Some new_page).

(** The descent PML4 -> PDPT -> PD -> PT shared by the entry points, with their
    early return on a missing table. *)
Definition vmm_walk s (pml4 virt : Z) (create : bool) : S * option Z :=
  let '(s1, pdpt) := vmm_get_next_level s pml4 (PML4_INDEX virt) create in
  match pdpt with
  | None => (s1, None)
  | Some pdpt =>
      let '(s2, pd) := vmm_get_next_level s1 pdpt (PDPT_INDEX virt) create in
      match pd with
      | None => (s2, None)
      | Some pd => vmm_get_next_level s2 pd (PD_INDEX virt) create
      end
  end.

Definition vmm_map_page (m : vmm) (virt phys flags : Z) : vmm :=
  let '(s1, pt) := vmm_walk (store m) (get_current_pml4 m) virt true in
  match pt with
  | None => set_store m s1
  | Some pt =>
      set_store m (twrite s1 pt (PT_INDEX virt) (Z.lor (Z.land phys ADDR_MASK) flags))
  end.

Definition vmm_unmap_page (m : vmm) (virt : Z) : vmm :=
  let '(s1, pt) := vmm_walk (store m) (get_current_pml4 m) virt false in
  match pt with
  | None => set_store m s1
  | Some pt => set_store m (twrite s1 pt (PT_INDEX virt) 0)
  end.

Definition vmm_get_phys (m : vmm) (virt : Z) : Z :=
  let '(s1, pt) := vmm_walk (store m) (get_current_pml4 m) virt false in
  match pt with
  | None => 0
  | Some pt =>
      if negb (has_flag (tread s1 pt (PT_INDEX virt)) PAGE_PRESENT) then 0
      else Z.lor (Z.land (tread s1 pt (PT_INDEX virt)) ADDR_MASK) (Z.land virt 0xFFF)
  end.

(** ** Cloning an address space *)

Definition vmm_clone_kernel_space (m : vmm) : vmm * Z :=
  let '(s1, new_pml4) := alloc_page (store m) in
  if new_pml4 =? 0 then (set_store m s1, 0)
  else
    let cur_pml4 := get_current_pml4 m in
    let s2 := foldl (fun s i => twrite s new_pml4 i (tread s cur_pml4 i)) s1 (seqZ 256 256) in
    (set_store m s2, new_pml4).

Definition clone_pt_entry (old_pt new_pt : Z) s i : S :=
  let e := tread s old_pt i in
  if has_flag e PAGE_PRESENT then
    let phys := Z.land e ADDR_MASK in
    if has_flag e PAGE_USER && has_flag e PAGE_WRITABLE then
      let s1 := twrite s old_pt i (Z.ldiff e PAGE_WRITABLE) in
      let s2 := twrite s1 new_pt i (tread s1 old_pt i) in
      page_ref s2 phys
    else
      let s1 := twrite s new_pt i e in
      if has_flag (tread s1 old_pt i) PAGE_USER then page_ref s1 phys else s1
  else s.

Definition vmm_clone_pt s (old_pt new_pt : Z) : S :=
  foldl (clone_pt_entry old_pt new_pt) s (seqZ 0 512).

(** The loop bodies of [vmm_clone_pd], [vmm_clone_pdpt] and [vmm_cow_clone]
    differ only in the routine that clones the next level. *)
Definition clone_table_entry (clone_next : S -> Z -> Z -> S) (old new : Z) s i : S :=
  if has_flag (tread s old i) PAGE_PRESENT && has_flag (tread s old i) PAGE_USER then
    let '(s1, phys) := alloc_page s in
    if phys =? 0 then s1
    else
      let s2 := clone_next s1 (Z.land (tread s1 old i) ADDR_MASK) phys in
      twrite s2 new i (Z.lor (Z.lor (Z.lor phys PAGE_PRESENT) PAGE_USER) PAGE_WRITABLE)
  else s.

Definition vmm_clone_pd s (old_pd new_pd : Z) : S :=
  foldl (clone_table_entry vmm_clone_pt old_pd new_pd) s (seqZ 0 512).

Definition vmm_clone_pdpt s (old_pdpt new_pdpt : Z) : S :=
  foldl (clone_table_entry vmm_clone_pd old_pdpt new_pdpt) s (seqZ 0 512).

Definition vmm_cow_clone (m : vmm) (parent_cr3 : Z) : vmm * Z :=
  let '(m1, new_pml4) := vmm_clone_kernel_space m in
  if new_pml4 =? 0 then (m1, 0)
  else
    let s2 := foldl (clone_table_entry vmm_clone_pdpt parent_cr3 new_pml4) (store m1) (seqZ 0 256) in
    (set_store m1 s2, new_pml4).

(** ** Copy-on-write faults *)

Definition is_cow_page (m : vmm) (fault_addr : Z) : bool :=
  let '(s1, pt) := vmm_walk (store m) (get_current_pml4 m) fault_addr false in
  match pt with
  | None => false
  | Some pt =>
      let entry := tread s1 pt (PT_INDEX fault_addr) in
      has_flag entry PAGE_PRESENT && has_flag entry PAGE_USER && negb (has_flag entry PAGE_WRITABLE)
  end.

(** The CR3 switch on entry and on exit of [map_user_page] and
    [cow_handle_fault]. *)
Definition enter_cr3 (m : vmm) (proc_cr3 : Z) : vmm :=
  if negb (cr3 m =? proc_cr3) then write_cr3 m proc_cr3 else m.

Definition leave_cr3 (saved_cr3 : Z) (m : vmm) (proc_cr3 : Z) : vmm :=
  if negb (saved_cr3 =? proc_cr3) then write_cr3 m saved_cr3 else m.

Definition map_user_page (m : vmm) (proc_cr3 virt flags : Z) : vmm :=
  let saved_cr3 := cr3 m in
  let m1 := enter_cr3 m proc_cr3 in
  let '(s1, phys) := alloc_page (store m1) in
  let m2 := if negb (phys =? 0) then vmm_map_page (set_store m1 s1) virt phys flags
            else set_store m1 s1 in
  leave_cr3 saved_cr3 m2 proc_cr3.

(** [memcpy(phys_to_virt(dst), phys_to_virt(src), 4096)], word by word. *)
Definition copy_page s (dst src : Z) : S :=
  foldl (fun s i => twrite s dst i (tread s src i)) s (seqZ 0 512).

(** The sole owner of a frame gets its page back writable.  Only the last of
    the three table pointers is tested, so [None] stands for the NULL
    dereference of a missing PDPT or PD. *)
Definition cow_make_writable (m : vmm) (fault_addr : Z) : option vmm :=
  match vmm_get_next_level (store m) (get_current_pml4 m) (PML4_INDEX fault_addr) false with
  | (_, None) => None
  | (s1, Some pdpt) =>
      match vmm_get_next_level s1 pdpt (PDPT_INDEX fault_addr) false with
      | (_, None) => None
      | (s2, Some pd) =>
          match vmm_get_next_level s2 pd (PD_INDEX fault_addr) false with
          | (s3, None) => Some (set_store m s3)
          | (s3, Some pt) =>
              Some (set_store m (twrite s3 pt (PT_INDEX fault_addr)
                (Z.lor (tread s3 pt (PT_INDEX fault_addr)) PAGE_WRITABLE)))
          end
      end
  end.

(** A shared frame is copied into a new one, which replaces it here. *)
Definition cow_copy (m : vmm) (fault_addr phys : Z) : vmm :=
  let '(s1, new_phys) := alloc_page (store m) in
  if negb (new_phys =? 0) then
    let s2 := copy_page s1 new_phys phys in
    let m2 := vmm_map_page (set_store m s2) (page_align fault_addr) new_phys
                (Z.lor (Z.lor PAGE_PRESENT PAGE_USER) PAGE_WRITABLE) in
    set_store m2 (page_unref (store m2) phys)
  else set_store m s1.

Definition cow_handle_fault (m : vmm) (proc_cr3 fault_addr : Z) : option vmm :=
  let phys := vmm_get_phys m (page_align fault_addr) in
  if phys =? 0 then Some m
  else
    let refcount := page_count (store m) phys in
    let saved_cr3 := cr3 m in
    let m1 := enter_cr3 m proc_cr3 in
    let m2 := if refcount =? 1 then cow_make_writable m1 fault_addr
              else Some (cow_copy m1 fault_addr phys) in
    match m2 with
    | Some m2 => Some (leave_cr3 saved_cr3 m2 proc_cr3)
    | None => None
    end.

(** ** Destroying an address space *)

(** One level of [vmm_destroy_address_space]: the entries that pass [test] are
    torn down by [down], which gets the frame they name. *)
Definition destroy_entry (test : Z -> bool) (down : S -> Z -> S) (table : Z) s i : S :=
  if test (tread s table i) then down s (Z.land (tread s table i) ADDR_MASK) else s.

Definition present_user (e : Z) : bool := has_flag e PAGE_PRESENT && has_flag e PAGE_USER.

Definition destroy_pt s (pt : Z) : S :=
  free_page (foldl (destroy_entry present_user page_unref pt) s (seqZ 0 512)) pt.

Definition destroy_pd s (pd : Z) : S :=
  free_page (foldl (destroy_entry present_user destroy_pt pd) s (seqZ 0 512)) pd.

Definition destroy_pdpt s (pdpt : Z) : S :=
  free_page (foldl (destroy_entry present_user destroy_pd pdpt) s (seqZ 0 512)) pdpt.

Definition vmm_destroy_address_space (m : vmm) (root : Z) : vmm :=
  if root =? 0 then m
  else
    let test e := has_flag e PAGE_PRESENT in
    let s1 := foldl (destroy_entry test destroy_pdpt root) (store m) (seqZ 0 256) in
    set_store m (free_page s1 root).

(** ** The abstraction *)

(** The table that entry [i] of table [t] points to. *)
Definition next s t i : option Z :=
  let e := tread s t i in
  if has_flag e PAGE_PRESENT && negb (has_flag e PAGE_HUGE) then Some (Z.land e ADDR_MASK) else None.

Fixpoint reach s t (path : list Z) : option Z :=
  match path with
  | [] => Some t
  | i :: path => match next s t i with Some t' => reach s t' path | None => None end
  end.

Definition vpath (v : Z) : list Z := [PML4_INDEX v; PDPT_INDEX v; PD_INDEX v].

Definition pte s root (v : Z) : Z :=
  match reach s root (vpath v) with Some t => tread s t (PT_INDEX v) | None => 0 end.

(** No entry above the leaf level that the walk of [v] reads is a huge page. *)
Definition huge_free s root (v : Z) : Prop :=
  forall p i q t, vpath v = p ++ i :: q -> reach s root p = Some t ->
    has_flag (tread s t i) PAGE_PRESENT = true -> has_flag (tread s t i) PAGE_HUGE = false.

Definition valid_index i : Prop := 0 <= i < 512.

Definition valid_path (p : list Z) : Prop := Forall valid_index p /\ (length p <= 3)%nat.

(** Two addresses of the same 4 KiB page of the 48-bit address space. *)
Definition same_page (v w : Z) : Prop := (v / 4096) mod 2 ^ 36 = (w / 4096) mod 2 ^ 36.

#[export] Instance same_page_dec v w : Decision (same_page v w).
Proof. unfold same_page. apply _. Defined.

End vmm.

Arguments vmm : clear implicits.
Arguments vmm S : clear implicits.
