(* ===== verification/VmmTree.v ===== *)
(** The page-table tree of vmm.c: the invariant, the effect of the operations
    on the abstraction [pte], and the correctness theorems of mapping,
    unmapping, address lookup and copy-on-write faults.  Everything is proved
    against the frame-store laws and so holds of pmm.c. *)
From stdpp Require Import prelude gmap list.
From Stdlib Require Import ZArith Lia.
From S2P Require Import Prelude Bitmap Pmm Frames Vmm.

Open Scope Z_scope.

(** ** Bits of entries and addresses *)

Lemma land_mask_eq e : Z.land e ADDR_MASK = (e / 4096) mod 2 ^ 40 * 4096.
Proof.
  change ADDR_MASK with (Z.shiftl (Z.ones 40) 12).
  change 4096 with (2 ^ 12). rewrite <- Z.shiftl_mul_pow2, <- Z.shiftr_div_pow2 by lia.
  rewrite <- Z.land_ones by lia. apply Z.bits_inj'. intros n Hn.
  rewrite Z.land_spec, !Z.shiftl_spec by done. destruct (Z.lt_ge_cases n 12).
  - rewrite !(Z.testbit_neg_r _ (n - 12)) by lia. apply andb_false_r.
  - rewrite Z.land_spec, Z.shiftr_spec by lia. by replace (n - 12 + 12) with n by lia.
Qed.

Lemma mask_aligned e : Z.land e ADDR_MASK mod 4096 = 0 /\ 0 <= Z.land e ADDR_MASK < 2 ^ 52.
Proof. rewrite land_mask_eq. pose proof (Z.mod_pos_bound (e / 4096) (2 ^ 40)). zmod. Qed.

Lemma mask_frame a : a mod 4096 = 0 -> 0 <= a < 2 ^ 52 -> Z.land a ADDR_MASK = a.
Proof. intros. rewrite land_mask_eq. rewrite Z.mod_small by zmod. zmod. Qed.

Lemma land_low a f : a mod 4096 = 0 -> 0 <= f < 4096 -> Z.land a f = 0.
Proof.
  intros Ha Hf. apply Z.bits_inj'. intros n Hn. rewrite Z.land_spec, Z.bits_0.
  destruct (Z.lt_ge_cases n 12).
  - replace (Z.testbit a n) with false; [done|]. symmetry.
    assert (a = a / 4096 * 2 ^ 12) as -> by zmod. by apply Z.mul_pow2_bits_low.
  - assert (Z.testbit f n = false) as ->; [|apply andb_false_r].
    destruct (decide (f = 0)) as [->|]; [apply Z.bits_0|]. apply Z.bits_above_log2; [lia|].
    apply Z.log2_lt_pow2; [lia|]. apply (Z.lt_le_trans _ (2 ^ 12)); [lia|].
    apply Z.pow_le_mono_r; lia.
Qed.

Lemma entry_flag a fl f : a mod 4096 = 0 -> 0 <= f < 4096 -> has_flag (Z.lor a fl) f = has_flag fl f.
Proof. intros. unfold has_flag. by rewrite Z.land_lor_distr_l, land_low. Qed.

Lemma entry_addr a fl :
  a mod 4096 = 0 -> 0 <= a < 2 ^ 52 -> Z.land fl ADDR_MASK = 0 -> Z.land (Z.lor a fl) ADDR_MASK = a.
Proof. intros ?? Hfl. by rewrite Z.land_lor_distr_l, mask_frame, Hfl, Z.lor_0_r. Qed.

Lemma index_valid v k : valid_index (Z.land (Z.shiftr v k) 0x1FF).
Proof.
  unfold valid_index. change 0x1FF with (Z.ones 9). rewrite Z.land_ones by done.
  apply Z.mod_pos_bound. done.
Qed.

Lemma vpath_valid v : valid_path (vpath v).
Proof. split; [|simpl; lia]. repeat constructor; apply index_valid. Qed.

Lemma index_eq v k : 0 <= k -> Z.land (Z.shiftr v k) 0x1FF = (v / 2 ^ k) mod 512.
Proof. intros. change 0x1FF with (Z.ones 9). by rewrite Z.land_ones, Z.shiftr_div_pow2. Qed.

(** The four indices of an address are the digits of its page number. *)
Lemma same_page_indices v w : same_page v w <-> vpath v = vpath w /\ PT_INDEX v = PT_INDEX w.
Proof.
  unfold same_page, vpath, PML4_INDEX, PDPT_INDEX, PD_INDEX, PT_INDEX.
  rewrite !index_eq by done.
  assert (E : forall x, x / 2 ^ 12 = x / 4096 /\ x / 2 ^ 21 = x / 4096 / 512 /\
    x / 2 ^ 30 = x / 4096 / 512 / 512 /\ x / 2 ^ 39 = x / 4096 / 512 / 512 / 512).
  { intros x. split; [done|]. rewrite !Z.div_div by done. done. }
  destruct (E v) as (-> & -> & -> & ->), (E w) as (-> & -> & -> & ->).
  set (a := v / 4096). set (b := w / 4096).
  assert (D : forall x, x mod 2 ^ 36 =
    x mod 512 + 512 * ((x / 512) mod 512 + 512 * ((x / 512 / 512) mod 512
      + 512 * ((x / 512 / 512 / 512) mod 512)))).
  { intros x. change (2 ^ 36) with (512 * (512 * (512 * 512))). by rewrite !Z.rem_mul_r by done. }
  rewrite (D a), (D b). pose proof (fun x => Z.mod_pos_bound x 512 eq_refl) as B.
  pose proof (B a). pose proof (B b). pose proof (B (a / 512)). pose proof (B (b / 512)).
  pose proof (B (a / 512 / 512)). pose proof (B (b / 512 / 512)).
  split.
  - intros Hs. assert ((a / 512 / 512 / 512) mod 512 = (b / 512 / 512 / 512) mod 512 /\
      (a / 512 / 512) mod 512 = (b / 512 / 512) mod 512 /\
      (a / 512) mod 512 = (b / 512) mod 512 /\ a mod 512 = b mod 512) as (-> & -> & -> & ->) by lia.
    done.
  - by intros [[= -> -> ->] ->].
Qed.

#[export] Instance same_page_equiv : Equivalence same_page.
Proof. unfold same_page. split; congruence. Qed.

Lemma word_inj t i t' j :
  t mod 4096 = 0 -> t' mod 4096 = 0 -> valid_index i -> valid_index j ->
  t + 8 * i = t' + 8 * j -> t = t' /\ i = j.
Proof. unfold valid_index. intros. zmod. Qed.

Lemma word_in_frame t i : valid_index i -> in_frame t (t + 8 * i).
Proof. unfold valid_index, in_frame. lia. Qed.

(** ** The tree *)

Section tree.
Context {S : Type} `{FL : FrameLaws S}.
Implicit Types (s : S) (t i root : Z) (p q : list Z).

(** Every table is reached by one path, is page aligned and is not free. *)
Record pt_wf s root : Prop := {
  wf_inj : forall p q t, valid_path p -> valid_path q ->
    reach s root p = Some t -> reach s root q = Some t -> p = q;
  wf_table : forall p t, valid_path p -> reach s root p = Some t -> is_frame t /\ ~ frame_free s t
}.

Lemma reach_app s p q : forall t,
  reach s t (p ++ q) = match reach s t p with Some t' => reach s t' q | None => None end.
Proof. induction p as [|i p IH]; intros t; simpl; [done|]. destruct (next s t i); [apply IH|done]. Qed.

Lemma reach_ext s s' p : forall t,
  (forall p1 i p2 t', p = p1 ++ i :: p2 -> reach s t p1 = Some t' -> next s' t' i = next s t' i) ->
  reach s' t p = reach s t p.
Proof.
  induction p as [|i p IH]; intros t Hn; [done|]. simpl. rewrite (Hn [] i p t) by done.
  destruct (next s t i) as [t1|] eqn:E; [|done]. apply IH. intros p1 j p2 t' -> Hr.
  apply (Hn (i :: p1) j p2); [done|]. simpl. by rewrite E.
Qed.

Lemma reach_prefix s t p q t' : reach s t (p ++ q) = Some t' -> exists u, reach s t p = Some u.
Proof. rewrite reach_app. destruct (reach s t p); eauto. Qed.

Lemma valid_path_prefix p q : valid_path (p ++ q) -> valid_path p.
Proof. intros [H1 H2]. apply Forall_app in H1 as [? _]. rewrite length_app in H2. split; [done|lia]. Qed.

Lemma valid_path_split p i q : valid_path (p ++ i :: q) -> valid_path p /\ valid_index i /\ (length p <= 2)%nat.
Proof.
  intros Hv. pose proof (valid_path_prefix _ _ Hv). destruct Hv as [Hf Hl].
  apply Forall_app in Hf as [_ Hf]. inv Hf. rewrite length_app in Hl. simpl in Hl.
  split_and!; [done..|lia].
Qed.

Lemma tread_twrite s t i v t' j :
  tread (twrite s t i v) t' j = if decide (t + 8 * i = t' + 8 * j) then v else tread s t' j.
Proof. apply write64_read. Qed.

Lemma tread_twrite_ne s t i v t' j :
  t mod 4096 = 0 -> t' mod 4096 = 0 -> valid_index i -> valid_index j -> (t, i) <> (t', j) ->
  tread (twrite s t i v) t' j = tread s t' j.
Proof.
  intros ???? Hne. rewrite tread_twrite. case_decide as E; [|done].
  apply word_inj in E as [-> ->]; done.
Qed.

Lemma tread_twrite_eq s t i v : tread (twrite s t i v) t i = v.
Proof. rewrite tread_twrite. by rewrite decide_True. Qed.

Lemma next_tread s s' t i : tread s' t i = tread s t i -> next s' t i = next s t i.
Proof. unfold next. by intros ->. Qed.

Lemma reach_aligned s root p t : reach s root p = Some t -> valid_path p -> pt_wf s root -> t mod 4096 = 0.
Proof. intros R V W. apply (wf_table _ _ W p t V R). Qed.

(** Frames that are neither free nor tables: what the operations leave alone. *)
Definition data_frame s root (f : Z) : Prop :=
  f mod 4096 = 0 /\ ~ frame_free s f /\ forall p, valid_path p -> reach s root p <> Some f.

(** What creating tables on the way may change: nothing that the abstraction
    can see. *)
Record extends root s s' : Prop := {
  ext_ok : store_ok s';
  ext_wf : pt_wf s' root;
  ext_pte : forall v, pte s' root v = pte s root v;
  ext_reach : forall p t, valid_path p -> reach s root p = Some t -> reach s' root p = Some t;
  ext_new : forall p t, valid_path p -> reach s' root p = Some t -> reach s root p = Some t \/ frame_free s t;
  ext_huge : forall v, huge_free s root v -> huge_free s' root v;
  ext_free : forall b, frame_free s' b -> frame_free s b;
  ext_data : forall f k, data_frame s root f -> in_frame f k -> read64 s' k = read64 s k;
  ext_count : forall b, 0 <= b -> ~ frame_free s (b - b mod 4096) -> page_count s' b = page_count s b
}.

Lemma extends_refl root s : store_ok s -> pt_wf s root -> extends root s s.
Proof. intros. by split; auto. Qed.

Lemma extends_data root s s' f : extends root s s' -> data_frame s root f -> data_frame s' root f.
Proof.
  intros E (Ha & Hf & Hr). split_and!; [done|by intros ?%(ext_free _ _ _ E)|].
  intros p V R. destruct (ext_new _ _ _ E p f V R); [by apply (Hr p)|done].
Qed.

Lemma extends_trans root s1 s2 s3 : extends root s1 s2 -> extends root s2 s3 -> extends root s1 s3.
Proof.
  intros E1 E2. pose proof (extends_data root s1 s2) as Hd. destruct E1 as [A1 A2 A3 A4 A5 A6 A7 A8 A9] eqn:HE1.
  destruct E2 as [B1 B2 B3 B4 B5 B6 B7 B8 B9]. split; eauto.
  - intros v. by rewrite B3, A3.
  - intros p t V R. destruct (B5 p t V R) as [?|?]; eauto.
  - intros f k Hf Hk. rewrite B8 with (f := f); eauto.
  - intros b Hb Hn. rewrite B9; eauto.
Qed.

(** ** Writing a leaf entry *)

Lemma leaf_next s root p t i v q j t' :
  pt_wf s root -> valid_path p -> length p = 3%nat -> reach s root p = Some t -> valid_index i ->
  valid_path q -> (length q <= 2)%nat -> valid_index j -> reach s root q = Some t' ->
  tread (twrite s t i v) t' j = tread s t' j.
Proof.
  intros W V L R Vi Vq Lq Vj Rq. apply tread_twrite_ne; [by eapply reach_aligned..|done|done|].
  intros [= -> ->]. assert (p = q) as -> by by apply (wf_inj s root W p q t'). lia.
Qed.

Lemma leaf_reach s root p t i v q :
  pt_wf s root -> valid_path p -> length p = 3%nat -> reach s root p = Some t -> valid_index i ->
  valid_path q -> reach (twrite s t i v) root q = reach s root q.
Proof.
  intros W V L R Vi Vq. apply reach_ext. intros q1 j q2 t' -> Rq.
  apply valid_path_split in Vq as (? & ? & ?). apply next_tread. by apply (leaf_next s root p t i v q1 j t').
Qed.

Lemma leaf_wf s root p t i v :
  pt_wf s root -> valid_path p -> length p = 3%nat -> reach s root p = Some t -> valid_index i ->
  pt_wf (twrite s t i v) root.
Proof.
  intros W V L R Vi. split.
  - intros q1 q2 t' V1 V2. rewrite !(leaf_reach s root p t i v) by done. by apply (wf_inj s root W).
  - intros q t' Vq. rewrite (leaf_reach s root p t i v) by done. intros Rq.
    destruct (wf_table s root W q t' Vq Rq). split; [done|]. unfold twrite. by rewrite write64_free.
Qed.

Lemma leaf_pte s root v t x w :
  pt_wf s root -> reach s root (vpath v) = Some t ->
  pte (twrite s t (PT_INDEX v) x) root w = if decide (same_page v w) then x else pte s root w.
Proof.
  intros W R. pose proof (vpath_valid v) as V. pose proof (vpath_valid w) as Vw. unfold pte.
  rewrite (leaf_reach s root (vpath v)) by (done || apply index_valid).
  case_decide as E.
  - apply same_page_indices in E as [E1 E2]. rewrite <- E1, <- E2, R. apply tread_twrite_eq.
  - destruct (reach s root (vpath w)) as [t'|] eqn:Rw; [|done].
    apply tread_twrite_ne; [by eapply reach_aligned..|apply index_valid|apply index_valid|].
    intros [= -> Ei]. apply E, same_page_indices. split; [|done]. by apply (wf_inj s root W _ _ t').
Qed.

Lemma leaf_huge s root p t i x v :
  pt_wf s root -> valid_path p -> length p = 3%nat -> reach s root p = Some t -> valid_index i ->
  huge_free s root v -> huge_free (twrite s t i x) root v.
Proof.
  intros W V L R Vi Hh q j q2 t' E Rq. pose proof (vpath_valid v) as Vv. rewrite E in Vv.
  apply valid_path_split in Vv as (? & ? & ?).
  rewrite (leaf_reach s root p) in Rq by done. rewrite (leaf_next s root p t i x q j) by done.
  by apply (Hh q j q2).
Qed.

(** ** Installing a new table *)

(** [s1] is [s] with the free frame [a] allocated and zeroed. *)
Record fresh_frame s a s1 : Prop := {
  fr_ok : store_ok s1;
  fr_was_free : frame_free s a;
  fr_frame : is_frame a;
  fr_free : forall b, frame_free s1 b <-> frame_free s b /\ b <> a;
  fr_read : forall k, read64 s1 k = if decide (in_frame a k) then 0 else read64 s k;
  fr_count : forall b, 0 <= b -> ~ in_frame a b -> page_count s1 b = page_count s b
}.

Lemma alloc_fresh s s1 a : store_ok s -> alloc_page s = (s1, a) -> a <> 0 -> fresh_frame s a s1.
Proof.
  intros Hs E Ha. destruct (alloc_page_some s s1 a Hs E Ha) as (? & ? & ? & ? & _ & ?).
  split; auto. by apply (free_is_frame s).
Qed.

Lemma fresh_zero s s1 a : fresh_frame s a s1 -> fresh_frame s a (zero_page s1 a).
Proof.
  intros [? ? ? F R C]. split; [by apply zero_page_ok|done|done| | |].
  - intros b. by rewrite zero_page_free.
  - intros k. rewrite zero_page_read, R. by destruct (decide _).
  - intros b ??. rewrite zero_page_count. by apply C.
Qed.

Lemma fresh_tread s a s1 t i :
  fresh_frame s a s1 -> t mod 4096 = 0 -> t <> a -> valid_index i -> tread s1 t i = tread s t i.
Proof.
  intros F Ht Hne Vi. unfold tread. rewrite (fr_read _ _ _ F). rewrite decide_False; [done|].
  intros Hin. apply Hne. apply (in_frame_inj t a (t + 8 * i)); try done.
  - apply (fr_frame _ _ _ F).
  - by apply word_in_frame.
Qed.

Lemma fresh_zero_tread s a s1 i : fresh_frame s a s1 -> valid_index i -> tread s1 a i = 0.
Proof. intros F Vi. unfold tread. rewrite (fr_read _ _ _ F). by rewrite decide_True by by apply word_in_frame. Qed.

Lemma table_ne_fresh s a s1 root p t :
  fresh_frame s a s1 -> reach s root p = Some t -> pt_wf s root -> valid_path p -> t <> a.
Proof. intros F R W V ->. destruct (wf_table s root W p a V R) as [_ []]. apply (fr_was_free _ _ _ F). Qed.

Lemma fresh_reach s a s1 root p :
  fresh_frame s a s1 -> pt_wf s root -> valid_path p -> reach s1 root p = reach s root p.
Proof.
  intros F W V. apply reach_ext. intros p1 i p2 t' -> R. apply valid_path_split in V as (? & ? & ?).
  apply next_tread. apply (fresh_tread s a); [done|by eapply reach_aligned| |done].
  by eapply table_ne_fresh.
Qed.

(** The entry of a new table, and the table it names. *)
Definition table_entry (a : Z) : Z := Z.lor (Z.lor (Z.lor a PAGE_PRESENT) PAGE_WRITABLE) PAGE_USER.

Lemma next_table_entry s t i a : is_frame a -> tread s t i = table_entry a -> next s t i = Some a.
Proof.
  intros [Ha Hr] E. unfold next. rewrite E. unfold table_entry. rewrite <- !Z.lor_assoc.
  rewrite (entry_flag a _ PAGE_PRESENT), (entry_flag a _ PAGE_HUGE) by done. simpl. f_equal.
  by apply entry_addr; [|lia|].
Qed.

Section install.
Context s a s1 root p t i (F : fresh_frame s a s1) (W : pt_wf s root) (R : reach s root p = Some t).
Context (V : valid_path (p ++ [i])) (E0 : has_flag (tread s t i) PAGE_PRESENT = false).

Let s2 := twrite s1 t i (table_entry a).

Lemma install_p : valid_path p /\ valid_index i /\ (length p <= 2)%nat.
Proof using V. by apply valid_path_split with (q := []). Qed.

Lemma install_aligned : t mod 4096 = 0 /\ a mod 4096 = 0 /\ t <> a.
Proof using All.
  destruct install_p as (? & _). split_and!; [by eapply reach_aligned|apply (fr_frame _ _ _ F)|].
  by eapply table_ne_fresh.
Qed.

Lemma install_tread q t' j :
  valid_path q -> reach s root q = Some t' -> valid_index j -> (t', j) <> (t, i) ->
  tread s2 t' j = tread s t' j.
Proof using All.
  intros Vq Rq Vj Hne. destruct install_p as (? & ? & _), install_aligned as (? & ? & ?).
  unfold s2. rewrite tread_twrite_ne by (done || by eapply reach_aligned).
  apply (fresh_tread s a); [done|by eapply reach_aligned| |done]. by eapply table_ne_fresh.
Qed.

Lemma install_reach_other q :
  valid_path q -> ~ (p ++ [i]) `prefix_of` q -> reach s2 root q = reach s root q.
Proof using All.
  intros Vq Hn. apply reach_ext. intros q1 j q2 t' -> Rq.
  apply valid_path_split in Vq as (? & ? & _). apply next_tread. apply (install_tread q1); [done..|].
  intros [= -> ->]. apply Hn. destruct install_p as (? & _).
  rewrite (wf_inj s root W p q1 t) by done. exists q2. by rewrite <- app_assoc.
Qed.

Lemma install_reach_p : reach s2 root p = Some t.
Proof using All.
  rewrite install_reach_other; [done|by apply install_p|]. intros [k Hk].
  apply (f_equal length) in Hk. rewrite !length_app in Hk. simpl in Hk. lia.
Qed.

Lemma install_reach_ext k :
  valid_path (p ++ i :: k) ->
  reach s2 root (p ++ i :: k) = match k with [] => Some a | _ => None end.
Proof using All.
  intros Vk. rewrite reach_app, install_reach_p. simpl.
  rewrite (next_table_entry s2 t i a); [|apply (fr_frame _ _ _ F)|apply tread_twrite_eq].
  destruct k as [|j k]; [done|]. simpl. unfold next.
  assert (valid_index j). { destruct Vk as [Vk _]. rewrite Forall_app in Vk. destruct Vk as [_ Vk]. by inv Vk; inv H3. }
  destruct install_p as (? & ? & _), install_aligned as (? & ? & ?).
  unfold s2. rewrite tread_twrite_ne, (fresh_zero_tread s a s1) by (done || congruence). done.
Qed.

Lemma install_cases q t' :
  valid_path q -> reach s2 root q = Some t' ->
  (q = p ++ [i] /\ t' = a) \/ (~ (p ++ [i]) `prefix_of` q /\ reach s root q = Some t').
Proof using All.
  intros Vq Rq. destruct (decide ((p ++ [i]) `prefix_of` q)) as [[k ->]|Hn].
  - left. rewrite <- app_assoc in Rq, Vq |- *. simpl in *. rewrite install_reach_ext in Rq by done.
    by destruct k; simplify_eq.
  - right. by rewrite install_reach_other in Rq.
Qed.

Lemma install_wf : pt_wf s2 root.
Proof using All.
  split.
  - intros q1 q2 t' V1 V2 R1 R2.
    destruct (install_cases q1 t' V1 R1) as [[-> E1]|[_ R1']], (install_cases q2 t' V2 R2) as [[-> E2]|[_ R2']]; [done|..].
    + subst t'. by destruct (table_ne_fresh s a s1 root q2 a F R2' W V2).
    + subst t'. by destruct (table_ne_fresh s a s1 root q1 a F R1' W V1).
    + by apply (wf_inj s root W q1 q2 t').
  - intros q t' Vq Rq. unfold s2, twrite. rewrite write64_free, (fr_free _ _ _ F).
    destruct (install_cases q t' Vq Rq) as [[-> ->]|[_ R']].
    + split; [apply (fr_frame _ _ _ F)|naive_solver].
    + destruct (wf_table s root W q t' Vq R'). naive_solver.
Qed.

Lemma install_pte v : pte s2 root v = pte s root v.
Proof using All.
  unfold pte. pose proof (vpath_valid v) as Vv.
  destruct (decide ((p ++ [i]) `prefix_of` vpath v)) as [[k Hk]|Hn].
  - rewrite <- app_assoc in Hk. simpl in Hk. rewrite Hk in Vv |- *. rewrite install_reach_ext by done.
    rewrite reach_app, R. simpl. unfold next. rewrite E0. simpl. destruct k as [|j k]; [|done].
    destruct install_p as (? & ? & _), install_aligned as (? & ? & ?). unfold s2.
    rewrite tread_twrite_ne by (done || apply index_valid || congruence).
    apply (fresh_zero_tread s); [done|apply index_valid].
  - rewrite install_reach_other by done. destruct (reach s root (vpath v)) as [t'|] eqn:Rv; [|done].
    apply (install_tread (vpath v)); [done..|apply index_valid|]. intros [= -> Ei].
    destruct install_p as (? & ? & L). rewrite (wf_inj s root W p (vpath v) t) in L by done.
    simpl in L. lia.
Qed.

Lemma install_huge v : huge_free s root v -> huge_free s2 root v.
Proof using All.
  intros Hh q j q2 t' Ev Rq. pose proof (vpath_valid v) as Vv. rewrite Ev in Vv.
  apply valid_path_split in Vv as (Vq & Vj & _). destruct install_p as (? & ? & _), install_aligned as (? & ? & ?).
  destruct (install_cases q t' Vq Rq) as [[-> ->]|[_ Rq']].
  - unfold s2. rewrite tread_twrite_ne, (fresh_zero_tread s a s1) by (done || congruence). done.
  - destruct (decide ((t', j) = (t, i))) as [[= -> ->]|Hne].
    + unfold s2. rewrite tread_twrite_eq. intros _. unfold table_entry. rewrite <- !Z.lor_assoc.
      by rewrite entry_flag.
    + rewrite (install_tread q) by done. by apply (Hh q j q2).
Qed.

Lemma install_extends : extends root s s2.
Proof using All.
  destruct install_p as (? & ? & _), install_aligned as (? & ? & ?). split.
  - apply write64_ok, (fr_ok _ _ _ F).
  - apply install_wf.
  - apply install_pte.
  - intros q t' Vq Rq. destruct (decide ((p ++ [i]) `prefix_of` q)) as [[k ->]|Hn].
    + rewrite <- app_assoc, reach_app, R in Rq. simpl in Rq. unfold next in Rq. by rewrite E0 in Rq.
    + by rewrite install_reach_other.
  - intros q t' Vq Rq. destruct (install_cases q t' Vq Rq) as [[-> ->]|[_ ?]]; [right; apply (fr_was_free _ _ _ F)|by left].
  - apply install_huge.
  - intros b. unfold s2, twrite. rewrite write64_free, (fr_free _ _ _ F). naive_solver.
  - intros f k (Ha & Hf & Hr) Hk. unfold s2, twrite. rewrite write64_read. rewrite decide_False.
    + rewrite (fr_read _ _ _ F), decide_False; [done|]. intros Hk'.
      rewrite (in_frame_inj f a k) in Hf by done. apply Hf, (fr_was_free _ _ _ F).
    + intros <-. apply (Hr p); [done|]. rewrite R. f_equal.
      apply (in_frame_inj t f (t + 8 * i)); [done..|by apply word_in_frame|done].
  - intros b Hb Hn. unfold s2, twrite. rewrite write64_count. apply (fr_count _ _ _ F); [done|].
    intros Hin. apply Hn. replace (b - b mod 4096) with a; [apply (fr_was_free _ _ _ F)|].
    unfold in_frame in Hin. zmod.
Qed.

End install.

(** ** One level, and the whole walk *)

Lemma next_level_create s root p t i s' r :
  store_ok s -> pt_wf s root -> reach s root p = Some t -> valid_path (p ++ [i]) ->
  (has_flag (tread s t i) PAGE_PRESENT = true -> has_flag (tread s t i) PAGE_HUGE = false) ->
  vmm_get_next_level s t i true = (s', r) ->
  extends root s s' /\
  match r with
  | Some t' => reach s' root (p ++ [i]) = Some t'
  | None => s' = s /\ forall b, ~ frame_free s b
  end.
Proof.
  intros Ok W R V Hh. unfold vmm_get_next_level. destruct (has_flag _ PAGE_PRESENT) eqn:Ep.
  - intros [= <- <-]. split; [by apply extends_refl|].
    rewrite reach_app, R. simpl. unfold next. by rewrite Ep, Hh.
  - simpl. destruct (alloc_page s) as [s1 a] eqn:Ea. destruct (Z.eqb_spec a 0) as [->|Hne].
    + intros [= <- <-]. destruct (alloc_page_none s s1 Ok Ea) as [-> N].
      split; [by apply extends_refl|done].
    + intros [= <- <-]. pose proof (fresh_zero _ _ _ (alloc_fresh s s1 a Ok Ea Hne)) as F.
      split; [by apply install_extends with (a := a) (p := p)|].
      by apply (install_reach_ext s a _ root p t i F W R V Ep []).
Qed.

Lemma next_level_lookup s t i :
  (has_flag (tread s t i) PAGE_PRESENT = true -> has_flag (tread s t i) PAGE_HUGE = false) ->
  vmm_get_next_level s t i false = (s, next s t i).
Proof.
  intros Hh. unfold vmm_get_next_level, next. destruct (has_flag _ PAGE_PRESENT); [|done].
  by rewrite Hh.
Qed.

Lemma huge_free_at s root v p i q t :
  huge_free s root v -> vpath v = p ++ i :: q -> reach s root p = Some t ->
  has_flag (tread s t i) PAGE_PRESENT = true -> has_flag (tread s t i) PAGE_HUGE = false.
Proof. intros Hv E. by apply (Hv p i q t). Qed.

Lemma walk_lookup s root v :
  huge_free s root v -> vmm_walk s root v false = (s, reach s root (vpath v)).
Proof.
  intros Hh. unfold vmm_walk, vpath. rewrite next_level_lookup.
  2: { by apply (huge_free_at s root v [] _ [PDPT_INDEX v; PD_INDEX v]). }
  simpl. destruct (next s root (PML4_INDEX v)) as [t1|] eqn:E1; [|done].
  rewrite next_level_lookup.
  2: { apply (huge_free_at s root v [PML4_INDEX v] _ [PD_INDEX v]); [done..|]. simpl. by rewrite E1. }
  destruct (next s t1 (PDPT_INDEX v)) as [t2|] eqn:E2; [|done].
  rewrite next_level_lookup.
  2: { apply (huge_free_at s root v [PML4_INDEX v; PDPT_INDEX v] _ []); [done..|]. simpl. by rewrite E1, E2. }
  by destruct (next s t2 (PD_INDEX v)).
Qed.

Lemma vpath_prefixes v :
  valid_path ([] ++ [PML4_INDEX v]) /\ valid_path ([PML4_INDEX v] ++ [PDPT_INDEX v]) /\
  valid_path ([PML4_INDEX v; PDPT_INDEX v] ++ [PD_INDEX v]).
Proof.
  pose proof (vpath_valid v) as V. split_and!; [..|exact V].
  - by apply (valid_path_prefix _ [PDPT_INDEX v; PD_INDEX v]).
  - by apply (valid_path_prefix _ [PD_INDEX v]).
Qed.

Lemma walk_create s root v s' r :
  store_ok s -> pt_wf s root -> huge_free s root v -> vmm_walk s root v true = (s', r) ->
  extends root s s' /\
  match r with
  | Some t => reach s' root (vpath v) = Some t
  | None => forall b, ~ frame_free s' b
  end.
Proof.
  intros Ok W Hh. unfold vmm_walk. destruct (vpath_prefixes v) as (V1 & V2 & V3).
  destruct (vmm_get_next_level s root _ true) as [s1 r1] eqn:E1.
  apply (next_level_create s root []) in E1 as [X1 R1]; [|done..|].
  2: { by apply (huge_free_at s root v [] _ [PDPT_INDEX v; PD_INDEX v]). }
  destruct r1 as [t1|]; [|intros [= <- <-]; destruct R1 as [-> ?]; by split].
  pose proof (ext_huge _ _ _ X1 v Hh) as Hh1.
  destruct (vmm_get_next_level s1 t1 _ true) as [s2 r2] eqn:E2.
  apply (next_level_create s1 root [PML4_INDEX v]) in E2 as [X2 R2]; [|apply X1|apply X1|done..|].
  2: { by apply (huge_free_at s1 root v [PML4_INDEX v] _ [PD_INDEX v]). }
  pose proof (extends_trans root s s1 s2 X1 X2) as X12.
  destruct r2 as [t2|]; [|intros [= <- <-]; destruct R2 as [-> ?]; by split].
  pose proof (ext_huge _ _ _ X12 v Hh) as Hh2. intros E3.
  apply (next_level_create s2 root [PML4_INDEX v; PDPT_INDEX v]) in E3 as [X3 R3]; [|apply X2|apply X2|done..|].
  2: { by apply (huge_free_at s2 root v [PML4_INDEX v; PDPT_INDEX v] _ []). }
  split; [by eapply extends_trans|]. destruct r; [done|]. by destruct R3 as [-> ?].
Qed.

(** ** The operations *)

(** The state of an address space the theorems speak of. *)
Definition space_ok (m : vmm S) : Prop := store_ok (store m) /\ pt_wf (store m) (get_current_pml4 m).

Definition entry_of (m : vmm S) (v : Z) : Z := pte (store m) (get_current_pml4 m) v.

Definition no_huge (m : vmm S) (v : Z) : Prop := huge_free (store m) (get_current_pml4 m) v.

(** The effect of a successful mapping on everything the caller can observe. *)
Definition mapped (m m' : vmm S) (v e : Z) : Prop :=
  (forall w, entry_of m' w = if decide (same_page v w) then e else entry_of m w) /\
  (forall w, no_huge m w -> no_huge m' w) /\
  (forall f k, data_frame (store m) (get_current_pml4 m) f -> in_frame f k ->
     read64 (store m') k = read64 (store m) k) /\
  (forall b, frame_free (store m') b -> frame_free (store m) b) /\
  (forall f, data_frame (store m) (get_current_pml4 m) f ->
     data_frame (store m') (get_current_pml4 m) f).

Lemma leaf_data s root p t i x f :
  pt_wf s root -> valid_path p -> length p = 3%nat -> reach s root p = Some t -> valid_index i ->
  data_frame s root f -> data_frame (twrite s t i x) root f.
Proof.
  intros W V L R Vi (Ha & Hf & Hr). split_and!; [done|unfold twrite; by rewrite write64_free|].
  intros q Vq. rewrite (leaf_reach s root p) by done. by apply Hr.
Qed.

Lemma map_page_cases (m : vmm S) (v phys flags : Z) :
  space_ok m -> no_huge m v ->
  let m' := vmm_map_page m v phys flags in
  space_ok m' /\ cr3 m' = cr3 m /\
  (forall b, 0 <= b -> ~ frame_free (store m) (b - b mod 4096) ->
     page_count (store m') b = page_count (store m) b) /\
  (mapped m m' v (Z.lor (Z.land phys ADDR_MASK) flags) \/
   (forall b, ~ frame_free (store m') b) /\ extends (get_current_pml4 m) (store m) (store m')).
Proof.
  intros [Ok W] Hh. unfold vmm_map_page.
  destruct (vmm_walk _ _ v true) as [s1 r] eqn:Ew.
  destruct (walk_create _ _ _ _ _ Ok W Hh Ew) as [X Hr].
  destruct r as [t|]; [|split_and!; [split; apply X|done|apply X|by right]].
  pose proof (vpath_valid v) as V. pose proof (index_valid v 12) as Vi. fold (PT_INDEX v) in Vi.
  split_and!.
  - split; [apply write64_ok, X|]. apply (leaf_wf s1 _ (vpath v)); [apply X|done..].
  - done.
  - intros b Hb Hn. simpl. unfold twrite. rewrite write64_count. by apply X.
  - left. split_and!.
    + intros w. unfold entry_of, get_current_pml4. simpl. rewrite leaf_pte; [|apply X|done].
      case_decide; [done|]. apply X.
    + intros w Hw. apply (leaf_huge s1 _ (vpath v)); [apply X|done..|]. by apply X.
    + intros f k Hf Hk. simpl. unfold twrite. rewrite write64_read, decide_False.
      * by apply (ext_data _ _ _ X f).
      * intros Ek. destruct (extends_data _ _ _ _ X Hf) as (Ha & _ & Hn). apply (Hn (vpath v) V). rewrite Hr.
        f_equal. apply (in_frame_inj t f k); [|done| |done].
        -- apply (reach_aligned s1 (get_current_pml4 m) (vpath v)); [done..|apply X].
        -- rewrite <- Ek. by apply word_in_frame.
    + intros b. simpl. unfold twrite. rewrite write64_free. apply X.
    + intros f Hf. apply (leaf_data s1 _ (vpath v)); [apply X|done..|]. by eapply extends_data.
Qed.

Lemma no_huge_same_page m v w : same_page v w -> no_huge m v -> no_huge m w.
Proof. intros [E _]%same_page_indices Hv p i q t. rewrite <- E. apply Hv. Qed.

Lemma get_phys_entry m v :
  no_huge m v ->
  vmm_get_phys m v =
    if has_flag (entry_of m v) PAGE_PRESENT
    then Z.lor (Z.land (entry_of m v) ADDR_MASK) (Z.land v 0xFFF) else 0.
Proof.
  intros Hh. unfold vmm_get_phys, entry_of, pte. rewrite walk_lookup by done.
  destruct (reach _ _ _); [|done]. by destruct (has_flag _ _).
Qed.

Lemma is_cow_entry m v :
  no_huge m v ->
  is_cow_page m v = has_flag (entry_of m v) PAGE_PRESENT && has_flag (entry_of m v) PAGE_USER
                    && negb (has_flag (entry_of m v) PAGE_WRITABLE).
Proof.
  intros Hh. unfold is_cow_page, entry_of, pte. rewrite walk_lookup by done.
  by destruct (reach _ _ _).
Qed.

(** C3.  Mapping a page.  Unless the physical allocator is exhausted,
    [vmm_map_page] makes exactly the page of [virt] translate to [phys], keeps
    every other translation of the address space and the tree invariant, and
    leaves the contents of all data frames alone. *)
Theorem vmm_map_page_correct (m : vmm S) (virt phys flags : Z) :
  space_ok m -> no_huge m virt ->
  has_flag flags PAGE_PRESENT = true -> Z.land flags ADDR_MASK = 0 ->
  let m' := vmm_map_page m virt phys flags in
  space_ok m' /\
  ((forall b, ~ frame_free (store m') b) \/
   forall w, no_huge m w ->
     vmm_get_phys m' w = if decide (same_page virt w)
                         then Z.lor (Z.land phys ADDR_MASK) (Z.land w 0xFFF)
                         else vmm_get_phys m w).
Proof.
  intros Hs Hh Hp Hm. destruct (map_page_cases m virt phys flags Hs Hh) as (Hs' & _ & _ & [M|[N _]]);
    (split; [done|]); [right|by left].
  destruct M as (He & Hh' & _). intros w Hw. rewrite !get_phys_entry by auto. rewrite He.
  case_decide; [|done]. destruct (mask_aligned phys) as [Ha Hr].
  by rewrite entry_flag, Hp, entry_addr by done.
Qed.

(** Unmapping a page clears exactly one translation and neither allocates nor
    frees a frame. *)
Theorem vmm_unmap_page_correct (m : vmm S) (virt : Z) :
  space_ok m -> no_huge m virt ->
  let m' := vmm_unmap_page m virt in
  space_ok m' /\
  (forall w, no_huge m w ->
     vmm_get_phys m' w = if decide (same_page virt w) then 0 else vmm_get_phys m w) /\
  (forall b, frame_free (store m') b <-> frame_free (store m) b).
Proof.
  intros [Ok W] Hh. unfold vmm_unmap_page. rewrite walk_lookup by done.
  pose proof (vpath_valid virt) as V. pose proof (index_valid virt 12) as Vi. fold (PT_INDEX virt) in Vi.
  destruct (reach _ _ _) as [t|] eqn:R.
  - split_and!.
    + split; [by apply write64_ok|by apply (leaf_wf _ _ (vpath virt))].
    + intros w Hw. rewrite !get_phys_entry by (done || by apply (leaf_huge _ _ (vpath virt))).
      unfold entry_of. unfold get_current_pml4 at 1 2. simpl. rewrite leaf_pte by done.
      by case_decide.
    + intros b. apply write64_free.
  - split_and!; [done| |done]. intros w Hw. case_decide as E; [|by destruct m].
    rewrite get_phys_entry by by destruct m. apply same_page_indices in E as [E _].
    unfold entry_of, pte. change (store (set_store m (store m))) with (store m).
    rewrite <- E. unfold get_current_pml4 in *. cbn [cr3 set_store]. by rewrite R.
Qed.

(** ** Hardware translation *)

(** The page walk of the processor (Intel SDM vol. 3, 4.5): a present entry
    with bit 7 set at PDPT or PD level maps a 1 GiB or 2 MiB page. *)
Definition mmu_translate s (cr3 v : Z) : option Z :=
  let e4 := tread s (Z.land cr3 ADDR_MASK) (PML4_INDEX v) in
  if negb (has_flag e4 PAGE_PRESENT) || has_flag e4 PAGE_HUGE then None else
  let e3 := tread s (Z.land e4 ADDR_MASK) (PDPT_INDEX v) in
  if negb (has_flag e3 PAGE_PRESENT) then None else
  if has_flag e3 PAGE_HUGE then Some (Z.lor (Z.land e3 0x000FFFFFC0000000) (Z.land v 0x3FFFFFFF)) else
  let e2 := tread s (Z.land e3 ADDR_MASK) (PD_INDEX v) in
  if negb (has_flag e2 PAGE_PRESENT) then None else
  if has_flag e2 PAGE_HUGE then Some (Z.lor (Z.land e2 0x000FFFFFFFE00000) (Z.land v 0x1FFFFF)) else
  let e1 := tread s (Z.land e2 ADDR_MASK) (PT_INDEX v) in
  if negb (has_flag e1 PAGE_PRESENT) then None
  else Some (Z.lor (Z.land e1 ADDR_MASK) (Z.land v 0xFFF)).

Lemma next_no_huge s t i :
  (has_flag (tread s t i) PAGE_PRESENT = true -> has_flag (tread s t i) PAGE_HUGE = false) ->
  next s t i = if has_flag (tread s t i) PAGE_PRESENT then Some (Z.land (tread s t i) ADDR_MASK) else None.
Proof. intros Hh. unfold next. destruct (has_flag _ PAGE_PRESENT); [|done]. by rewrite Hh. Qed.

Lemma mmu_reach s c v :
  let root := Z.land c ADDR_MASK in
  huge_free s root v ->
  mmu_translate s c v =
    match reach s root (vpath v) with
    | Some t => if has_flag (tread s t (PT_INDEX v)) PAGE_PRESENT
                then Some (Z.lor (Z.land (tread s t (PT_INDEX v)) ADDR_MASK) (Z.land v 0xFFF)) else None
    | None => None
    end.
Proof.
  intros root Hh. unfold mmu_translate, vpath. fold root.
  pose proof (Hh [] (PML4_INDEX v) [PDPT_INDEX v; PD_INDEX v] root eq_refl eq_refl) as H4.
  pose proof (fun t => Hh [PML4_INDEX v] (PDPT_INDEX v) [PD_INDEX v] t eq_refl) as H3.
  pose proof (fun t => Hh [PML4_INDEX v; PDPT_INDEX v] (PD_INDEX v) [] t eq_refl) as H2.
  cbn [reach] in *. rewrite (next_no_huge _ _ _ H4) in *.
  destruct (has_flag (tread s root _) PAGE_PRESENT); [|done]. rewrite H4 by done. cbn [negb orb].
  set (t3 := Z.land (tread s root (PML4_INDEX v)) ADDR_MASK) in *. specialize (H3 t3 eq_refl).
  rewrite (next_no_huge _ _ _ H3) in *.
  destruct (has_flag (tread s t3 _) PAGE_PRESENT); [|done]. rewrite H3 by done. cbn [negb].
  set (t2 := Z.land (tread s t3 (PDPT_INDEX v)) ADDR_MASK) in *. specialize (H2 t2 eq_refl).
  rewrite (next_no_huge _ _ _ H2) in *.
  destruct (has_flag (tread s t2 _) PAGE_PRESENT); [|done]. rewrite H2 by done. cbn [negb].
  by destruct (has_flag _ PAGE_PRESENT).
Qed.

(** Address lookup agrees with the processor: where no huge page is met,
    [vmm_get_phys] returns what the MMU translates the address to, and 0 exactly
    when the MMU would fault (up to a mapping of physical address 0). *)
Theorem vmm_get_phys_refines_mmu (m : vmm S) (virt : Z) :
  no_huge m virt ->
  vmm_get_phys m virt = default 0 (mmu_translate (store m) (cr3 m) virt).
Proof.
  intros Hh. rewrite get_phys_entry, mmu_reach by done. unfold entry_of, pte, get_current_pml4.
  destruct (reach _ _ _); [|done]. by destruct (has_flag _ _).
Qed.

(** ** Copy-on-write *)

(** Allocating a data frame and filling it leaves the tree alone. *)
Lemma fresh_data_extends s a s1 s2 root :
  pt_wf s root -> fresh_frame s a s1 -> store_ok s2 ->
  (forall b, frame_free s2 b <-> frame_free s1 b) ->
  (forall k, ~ in_frame a k -> read64 s2 k = read64 s1 k) ->
  (forall b, page_count s2 b = page_count s1 b) ->
  extends root s s2 /\ data_frame s2 root a.
Proof.
  intros W F Ok2 Hf Hrd Hc. pose proof (fr_frame _ _ _ F) as [Ha _].
  assert (Rd : forall k, ~ in_frame a k -> read64 s2 k = read64 s k).
  { intros k Hk. by rewrite Hrd, (fr_read _ _ _ F), decide_False by done. }
  assert (Off : forall f k, f mod 4096 = 0 -> f <> a -> in_frame f k -> ~ in_frame a k).
  { intros f k Hf0 Hne Hk Hk'. apply Hne. by apply (in_frame_inj f a k). }
  assert (Td : forall p t i, valid_path p -> reach s root p = Some t -> valid_index i -> tread s2 t i = tread s t i).
  { intros p t i V R Vi. apply Rd. apply (Off t); [by eapply reach_aligned|by eapply table_ne_fresh|by apply word_in_frame]. }
  assert (Rc : forall p, valid_path p -> reach s2 root p = reach s root p).
  { intros p V. apply reach_ext. intros p1 i p2 t -> R. apply valid_path_split in V as (? & ? & _).
    by apply next_tread, (Td p1). }
  split; [split|split_and!].
  - done.
  - split; [intros p q t V1 V2; rewrite !Rc by done; by apply (wf_inj s root W)|].
    intros p t V. rewrite Rc by done. intros R. destruct (wf_table s root W p t V R).
    rewrite Hf, (fr_free _ _ _ F). naive_solver.
  - intros v. unfold pte. pose proof (vpath_valid v). rewrite Rc by done.
    destruct (reach _ _ _) as [t|] eqn:R; [|done]. by apply (Td (vpath v)), index_valid.
  - intros p t V. by rewrite Rc.
  - intros p t V. rewrite Rc by done. by left.
  - intros v Hh p i q t E. pose proof (vpath_valid v) as V. rewrite E in V. apply valid_path_split in V as (V & Vi & _).
    rewrite Rc by done. intros R. rewrite (Td p) by done. by apply (Hh p i q t).
  - intros b. rewrite Hf, (fr_free _ _ _ F). naive_solver.
  - intros f k (Hf1 & Hf2 & _) Hk. apply Rd, (Off f); [done| |done]. intros ->. apply Hf2, (fr_was_free _ _ _ F).
  - intros b Hb Hn. rewrite Hc. apply (fr_count _ _ _ F); [done|]. intros Hin. apply Hn.
    replace (b - b mod 4096) with a; [apply (fr_was_free _ _ _ F)|]. unfold in_frame in Hin. zmod.
  - done.
  - rewrite Hf, (fr_free _ _ _ F). naive_solver.
  - intros p V. rewrite Rc by done. intros R. by destruct (table_ne_fresh s a s1 root p a F R W V).
Qed.

(** A run of word copies from one table or page to another. *)
Lemma copy_words dst src l : forall s,
  dst mod 4096 = 0 -> src mod 4096 = 0 -> dst <> src -> Forall valid_index l -> store_ok s ->
  let s' := foldl (fun s i => twrite s dst i (tread s src i)) s l in
  store_ok s' /\ (forall b, frame_free s' b <-> frame_free s b) /\
  (forall b, page_count s' b = page_count s b) /\
  (forall k, ~ in_frame dst k -> read64 s' k = read64 s k) /\
  (forall j, valid_index j -> tread s' dst j = if decide (j ∈ l) then tread s src j else tread s dst j).
Proof.
  induction l as [|i l IH]; intros s Hd Hs Hne Hl Ok s'; simpl in s'.
  { split_and!; [done..|]. intros j _. by rewrite decide_False by apply not_elem_of_nil. }
  inv Hl. destruct (IH (twrite s dst i (tread s src i))) as (O & Fr & C & Rd & T); [done..|by apply write64_ok|].
  assert (Src : forall j, valid_index j -> tread (twrite s dst i (tread s src i)) src j = tread s src j).
  { intros j Vj. apply tread_twrite_ne; try done. congruence. }
  subst s'. split_and!; [done| | | |].
  - intros b. rewrite Fr. apply write64_free.
  - intros b. rewrite C. apply write64_count.
  - intros k Hk. rewrite Rd by done. unfold twrite. rewrite write64_read, decide_False; [done|].
    intros <-. by apply Hk, word_in_frame.
  - intros j Vj. rewrite T, Src by done. destruct (decide (j ∈ l)) as [|Hn].
    + by rewrite decide_True by by right.
    + destruct (decide (j = i)) as [->|Hji].
      * rewrite tread_twrite_eq. by rewrite decide_True by by left.
      * rewrite tread_twrite_ne by (done || congruence). rewrite decide_False; [done|].
        rewrite elem_of_cons. naive_solver.
Qed.

Lemma indices_valid : Forall valid_index (seqZ 0 512).
Proof. apply Forall_forall. intros i Hi%elem_of_seqZ. unfold valid_index. lia. Qed.

Lemma copy_page_spec s dst src :
  dst mod 4096 = 0 -> src mod 4096 = 0 -> dst <> src -> store_ok s ->
  store_ok (copy_page s dst src) /\ (forall b, frame_free (copy_page s dst src) b <-> frame_free s b) /\
  (forall b, page_count (copy_page s dst src) b = page_count s b) /\
  (forall k, ~ in_frame dst k -> read64 (copy_page s dst src) k = read64 s k) /\
  (forall j, valid_index j -> tread (copy_page s dst src) dst j = tread s src j).
Proof.
  intros Hd Hs Hne Ok. destruct (copy_words dst src (seqZ 0 512) s Hd Hs Hne indices_valid Ok) as (? & ? & ? & ? & T).
  split_and!; [assumption..|]. intros j Vj. unfold copy_page. rewrite T by assumption.
  rewrite decide_True; [reflexivity|]. apply elem_of_seqZ. unfold valid_index in Vj. lia.
Qed.

(** Two stores with the same memory have the same tables. *)
Lemma reads_reach s s' root : (forall k, read64 s' k = read64 s k) -> forall p, reach s' root p = reach s root p.
Proof. intros Hr p. apply reach_ext. intros. apply next_tread, Hr. Qed.

Lemma reads_wf s s' root :
  (forall k, read64 s' k = read64 s k) -> (forall b, frame_free s' b -> frame_free s b) ->
  pt_wf s root -> pt_wf s' root.
Proof.
  intros Hr Hf W. split.
  - intros p q t. rewrite !(reads_reach s s') by done. apply (wf_inj s root W).
  - intros p t V. rewrite !(reads_reach s s') by done. intros R. destruct (wf_table s root W p t V R). auto.
Qed.

Lemma reads_pte s s' root v : (forall k, read64 s' k = read64 s k) -> pte s' root v = pte s root v.
Proof. intros Hr. unfold pte. rewrite (reads_reach s s') by done. destruct (reach _ _ _); [apply Hr|done]. Qed.

Lemma page_align_page v : same_page (page_align v) v /\ Z.land (page_align v) 0xFFF = 0.
Proof.
  unfold page_align, same_page. change 0xFFF with (Z.ones 12). rewrite Z.ldiff_ones_r by done.
  rewrite Z.land_ones, Z.shiftl_mul_pow2, Z.shiftr_div_pow2 by done. change (2 ^ 12) with 4096.
  by rewrite Z.div_mul, Z.mod_mul.
Qed.

Lemma get_phys_aligned m v :
  no_huge m v -> has_flag (entry_of m v) PAGE_PRESENT = true ->
  vmm_get_phys m (page_align v) = Z.land (entry_of m v) ADDR_MASK.
Proof.
  intros Hh Hp. destruct (page_align_page v) as [Hs H0].
  rewrite get_phys_entry by (by apply (no_huge_same_page m v)).
  assert (entry_of m (page_align v) = entry_of m v) as ->.
  { apply same_page_indices in Hs as [E1 E2]. unfold entry_of, pte. by rewrite E1, E2. }
  by rewrite Hp, H0, Z.lor_0_r.
Qed.

Lemma cr3_same (m : vmm S) c : cr3 m = c -> enter_cr3 m c = m /\ forall m' : vmm S, leave_cr3 (cr3 m) m' c = m'.
Proof. intros <-. unfold enter_cr3, leave_cr3. by rewrite Z.eqb_refl. Qed.

Lemma next_level_lookup_inv s t i t' : next s t i = Some t' -> vmm_get_next_level s t i false = (s, Some t').
Proof.
  unfold next, vmm_get_next_level. destruct (has_flag _ PAGE_PRESENT); [|done].
  destruct (has_flag _ PAGE_HUGE); [done|]. by intros [= <-].
Qed.

Lemma make_writable_eq m v t :
  reach (store m) (get_current_pml4 m) (vpath v) = Some t ->
  cow_make_writable m v = Some (set_store m (twrite (store m) t (PT_INDEX v)
    (Z.lor (tread (store m) t (PT_INDEX v)) PAGE_WRITABLE))).
Proof.
  unfold cow_make_writable, vpath. cbn [reach]. intros R.
  destruct (next _ (get_current_pml4 m) _) as [t1|] eqn:E1; [|done]. rewrite (next_level_lookup_inv _ _ _ _ E1).
  destruct (next _ t1 _) as [t2|] eqn:E2; [|done]. rewrite (next_level_lookup_inv _ _ _ _ E2).
  destruct (next _ t2 _) as [t3|] eqn:E3; [|done]. rewrite (next_level_lookup_inv _ _ _ _ E3).
  by simplify_eq.
Qed.

Lemma next_level_create_inv s t i t' : next s t i = Some t' -> vmm_get_next_level s t i true = (s, Some t').
Proof.
  unfold next, vmm_get_next_level. destruct (has_flag _ PAGE_PRESENT); [|done].
  destruct (has_flag _ PAGE_HUGE); [done|]. by intros [= <-].
Qed.

Lemma walk_present s root v t : reach s root (vpath v) = Some t -> vmm_walk s root v true = (s, Some t).
Proof.
  unfold vmm_walk, vpath. cbn [reach]. intros R.
  destruct (next s root _) as [t1|] eqn:E1; [|done]. rewrite (next_level_create_inv _ _ _ _ E1).
  destruct (next s t1 _) as [t2|] eqn:E2; [|done]. rewrite (next_level_create_inv _ _ _ _ E2).
  destruct (next s t2 _) as [t3|] eqn:E3; [|done]. rewrite (next_level_create_inv _ _ _ _ E3).
  by simplify_eq.
Qed.

(** A write fault on a page whose frame has one owner: the handler finds the
    entry, sets its writable bit, and changes no other translation, no frame's
    contents and no reference count. *)
Theorem cow_sole_owner (m : vmm S) (proc_cr3 v : Z) :
  space_ok m -> no_huge m v -> cr3 m = proc_cr3 -> is_cow_page m v = true ->
  Z.land (entry_of m v) ADDR_MASK <> 0 ->
  page_count (store m) (Z.land (entry_of m v) ADDR_MASK) = 1 ->
  exists m', cow_handle_fault m proc_cr3 v = Some m' /\ space_ok m' /\
    (forall w, entry_of m' w =
       if decide (same_page v w) then Z.lor (entry_of m v) PAGE_WRITABLE else entry_of m w) /\
    is_cow_page m' v = false /\
    (forall b, page_count (store m') b = page_count (store m) b).
Proof.
  intros [Ok W] Hh Hc Hcow Hnz H1. rewrite is_cow_entry in Hcow by done.
  apply andb_true_iff in Hcow as [Hcow _]. apply andb_true_iff in Hcow as [Hp Hu].
  unfold cow_handle_fault. rewrite get_phys_aligned by done. rewrite (proj2 (Z.eqb_neq _ 0)) by done.
  destruct (cr3_same m proc_cr3 Hc) as [-> Hl]. rewrite H1. simpl.
  pose proof Hp as Hp'. unfold entry_of, pte in Hp'.
  destruct (reach (store m) (get_current_pml4 m) (vpath v)) as [t|] eqn:R; [|done].
  rewrite (make_writable_eq m v t R), Hl. eexists. split; [done|].
  pose proof (vpath_valid v) as V. pose proof (index_valid v 12) as Vi. fold (PT_INDEX v) in Vi.
  set (m' := set_store m _).
  assert (He : forall w, entry_of m' w =
       if decide (same_page v w) then Z.lor (entry_of m v) PAGE_WRITABLE else entry_of m w).
  { intros w. unfold entry_of, m'. unfold get_current_pml4 at 1. simpl. fold (get_current_pml4 m).
    rewrite (leaf_pte _ _ v t) by done. case_decide; [|done]. unfold pte. by rewrite R. }
  split_and!; [split; [by apply write64_ok|by apply (leaf_wf _ _ (vpath v))]|done| |].
  - rewrite is_cow_entry by by apply (leaf_huge _ _ (vpath v)).
    rewrite He, decide_True by done. unfold has_flag at 3.
    rewrite Z.land_lor_distr_l. rewrite (Z.land_diag PAGE_WRITABLE).
    replace (nonzero _) with true; [apply andb_false_r|]. symmetry. apply nonzero_true.
    intros Hz. apply Z.lor_eq_0_iff in Hz as [_ ?]. done.
  - intros b. apply write64_count.
Qed.

(** A data frame allocated and filled with a copy of [f]. *)
Lemma fresh_copy s s1 root n f :
  store_ok s -> pt_wf s root -> alloc_page s = (s1, n) -> n <> 0 -> data_frame s root f ->
  let s2 := copy_page s1 n f in
  extends root s s2 /\ data_frame s2 root n /\ data_frame s2 root f /\ is_frame n /\ frame_free s n /\
  (forall i, valid_index i -> tread s2 n i = tread s f i /\ tread s2 f i = tread s f i).
Proof.
  intros Ok W Ea Hn Hdata. pose proof (alloc_fresh _ _ _ Ok Ea Hn) as F.
  pose proof (fr_frame _ _ _ F) as [Hna Hnr]. pose proof Hdata as (Hfa & Hff & _).
  assert (Hnf : n <> f) by (intros ->; apply Hff, (fr_was_free _ _ _ F)).
  destruct (copy_page_spec s1 n f Hna Hfa Hnf (fr_ok _ _ _ F)) as (O2 & Fr2 & C2 & Rd2 & T2).
  destruct (fresh_data_extends _ _ _ _ _ W F O2 Fr2 Rd2 C2) as [X Dn]. intros s2.
  split_and!; [done|done|by eapply extends_data|by apply (fr_frame _ _ _ F)| |].
  - apply (fr_was_free _ _ _ F).
  - intros i Vi. split.
    + unfold s2. rewrite T2 by done. apply (fresh_tread _ n); [done..|congruence|done].
    + apply (ext_data _ _ _ X f); [done|by apply word_in_frame].
Qed.

(** Replacing the leaf entry of [v] and dropping a reference of a frame that
    keeps at least one. *)
Lemma remap_unref s root v t e f :
  store_ok s -> pt_wf s root -> reach s root (vpath v) = Some t -> 0 < f -> f mod 4096 = 0 ->
  1 < page_count s f ->
  let s' := page_unref (twrite s t (PT_INDEX v) e) f in
  store_ok s' /\ pt_wf s' root /\
  (forall w, pte s' root w = if decide (same_page v w) then e else pte s root w) /\
  (forall b, frame_free s' b -> frame_free s b) /\
  (forall g i, data_frame s root g -> valid_index i -> tread s' g i = tread s g i) /\
  page_count s' f = page_count s f - 1.
Proof.
  intros Ok W R Hf Hfa Hc s'. pose proof (vpath_valid v) as V.
  pose proof (index_valid v 12) as Vi. fold (PT_INDEX v) in Vi.
  set (s3 := twrite s t (PT_INDEX v) e) in *. pose proof (page_unref_read s3 f) as Rd.
  assert (O3 : store_ok s3) by by apply write64_ok.
  assert (C3 : page_count s3 f = page_count s f) by apply write64_count.
  assert (Fr : forall b, frame_free s' b -> frame_free s3 b).
  { intros b Hb. destruct (page_unref_free s3 f b O3) as [?|[_ ?]]; [lia|done..|]. lia. }
  split_and!.
  - apply page_unref_ok; [done|lia].
  - apply (reads_wf s3); [done..|]. by apply (leaf_wf s _ (vpath v)).
  - intros w. rewrite (reads_pte s3) by done. by apply leaf_pte.
  - intros b Hb%Fr. unfold s3, twrite in Hb. by rewrite write64_free in Hb.
  - intros g i (Hg & _ & Hgr) Hi. unfold s', tread at 1. rewrite Rd. fold (tread s3 g i). unfold s3.
    apply tread_twrite_ne; [by eapply reach_aligned|done..|]. intros [= -> _]. by apply (Hgr (vpath v)).
  - unfold s'. rewrite page_unref_count; [lia|done| |lia]. zmod.
Qed.

(** C4.  A write fault on a shared page: unless no frame is free (then nothing
    changes), the handler maps a fresh writable frame that holds a copy of the
    old one at exactly this page, and the old frame, whose contents are
    untouched, loses one reference. *)
Theorem cow_shared_page (m : vmm S) (proc_cr3 v : Z) :
  let f := Z.land (entry_of m v) ADDR_MASK in
  space_ok m -> no_huge m v -> cr3 m = proc_cr3 -> is_cow_page m v = true ->
  0 < f -> data_frame (store m) (get_current_pml4 m) f -> 1 < page_count (store m) f ->
  exists m', cow_handle_fault m proc_cr3 v = Some m' /\ space_ok m' /\
  ((forall b, ~ frame_free (store m) b) /\ store m' = store m \/
   exists n, frame_free (store m) n /\ ~ frame_free (store m') n /\
     (forall w, entry_of m' w =
        if decide (same_page v w)
        then Z.lor n (Z.lor (Z.lor PAGE_PRESENT PAGE_USER) PAGE_WRITABLE) else entry_of m w) /\
     (forall i, valid_index i -> tread (store m') n i = tread (store m) f i /\
                                 tread (store m') f i = tread (store m) f i) /\
     page_count (store m') f = page_count (store m) f - 1).
Proof.
  intros f [Ok W] Hh Hc Hcow Hf0 Hdata Hcount. rewrite is_cow_entry in Hcow by done.
  apply andb_true_iff in Hcow as [Hcow _]. apply andb_true_iff in Hcow as [Hp Hu].
  unfold cow_handle_fault. rewrite get_phys_aligned by done. fold f. rewrite (proj2 (Z.eqb_neq f 0)) by lia.
  destruct (cr3_same m proc_cr3 Hc) as [-> Hl]. rewrite (proj2 (Z.eqb_neq (page_count _ f) 1)) by lia.
  rewrite Hl. eexists. split; [done|]. unfold cow_copy.
  destruct (alloc_page (store m)) as [s1 n] eqn:Ea. destruct (Z.eqb_spec n 0) as [->|Hn]; simpl.
  { destruct (alloc_page_none _ _ Ok Ea) as [-> N]. split; [by split|by left]. }
  destruct (fresh_copy _ _ _ n f Ok W Ea Hn Hdata) as (X & Dn & Df & [Hna Hnr] & Hnfree & T2).
  pose proof Hdata as (Hfa & Hff & _).
  assert (C2 : page_count (copy_page s1 n f) f = page_count (store m) f).
  { apply X; [lia|]. by rewrite Hfa, Z.sub_0_r. }
  pose proof Hp as Hp'. unfold entry_of, pte in Hp'.
  destruct (reach (store m) (get_current_pml4 m) (vpath v)) as [t|] eqn:R; [|done].
  apply (ext_reach _ _ _ X _ _ (vpath_valid v)) in R as R2.
  unfold vmm_map_page. change (get_current_pml4 (set_store m (copy_page s1 n f))) with (get_current_pml4 m).
  cbn [store set_store]. destruct (page_align_page v) as [[Ev Ei]%same_page_indices _].
  rewrite (walk_present (copy_page s1 n f) (get_current_pml4 m) _ t) by by rewrite Ev.
  cbn [store set_store]. rewrite Ei.
  destruct (remap_unref (copy_page s1 n f) _ v t
    (Z.lor (Z.land n ADDR_MASK) (Z.lor (Z.lor PAGE_PRESENT PAGE_USER) PAGE_WRITABLE)) f
    (ext_ok _ _ _ X) (ext_wf _ _ _ X) R2) as (O3 & W3 & P3 & F3 & T3 & C3); [lia|done|lia|].
  split; [by split|]. right. exists n. split_and!.
  - done.
  - intros Hb%F3. by apply Dn in Hb.
  - intros w. unfold entry_of. rewrite mask_frame in P3 |- * by lia.
    etransitivity; [apply P3|]. case_decide; [done|apply X].
  - intros i Hi. destruct (T2 i Hi) as [E1 E2].
    split; (etransitivity; [by apply T3|]); [exact E1|exact E2].
  - etransitivity; [apply C3|]. lia.
Qed.

(** ** A fresh address space *)

Lemma fresh_root s s1 a hh :
  store_ok s -> alloc_page s = (s1, a) -> a <> 0 ->
  space_ok (Vmm s1 a hh) /\ forall v, no_huge (Vmm s1 a hh) v.
Proof.
  intros Ok Ea Hne. pose proof (alloc_fresh _ _ _ Ok Ea Hne) as F. pose proof (fr_frame _ _ _ F) as Hfr.
  assert (Hroot : get_current_pml4 (Vmm s1 a hh) = a).
  { unfold get_current_pml4. destruct Hfr. apply mask_frame; [done|simpl; lia]. }
  assert (Hnil : forall p t, valid_path p -> reach s1 a p = Some t -> p = [] /\ t = a).
  { intros [|i p] t V R; [by simplify_eq/=|]. apply (valid_path_split []) in V as (_ & Vi & _).
    simpl in R. unfold next in R. by rewrite (fresh_zero_tread s a s1 i F Vi) in R. }
  unfold no_huge, space_ok. rewrite Hroot. simpl. split; [split; [apply F|split]|].
  - intros p q t Vp Vq Rp Rq. by destruct (Hnil p t Vp Rp) as [-> _], (Hnil q t Vq Rq) as [-> _].
  - intros p t Vp Rp. destruct (Hnil p t Vp Rp) as [-> ->]. split; [done|]. rewrite (fr_free _ _ _ F). naive_solver.
  - intros v p i q t E R Hp. pose proof (vpath_valid v) as V. rewrite E in V.
    apply valid_path_split in V as (Vp & Vi & _). destruct (Hnil p t Vp R) as [-> ->].
    by rewrite (fresh_zero_tread s a s1 i F Vi) in Hp.
Qed.

(** Taking a reference does not touch the tables. *)
Lemma page_ref_space m f :
  space_ok m -> in_ram (store m) f ->
  let m' := set_store m (page_ref (store m) f) in
  space_ok m' /\ (forall v, entry_of m' v = entry_of m v) /\ (forall v, no_huge m v -> no_huge m' v) /\
  (forall g, data_frame (store m) (get_current_pml4 m) g -> data_frame (store m') (get_current_pml4 m) g).
Proof.
  intros [Ok W] Hr m'. pose proof (page_ref_read (store m) f) as Rd.
  pose proof (reads_reach (store m) (page_ref (store m) f) (get_current_pml4 m) Rd) as Rc. split_and!.
  - split; [by apply page_ref_ok|]. apply (reads_wf (store m)); [done| |done]. intros b. apply page_ref_free.
  - intros v. by apply reads_pte.
  - intros v Hh p i q t E R. change (get_current_pml4 m') with (get_current_pml4 m) in *.
    simpl in *. rewrite Rc in R. unfold tread. rewrite Rd. by apply (Hh p i q t).
  - intros g (? & ? & Hg). split_and!; [done|simpl; by rewrite page_ref_free|].
    intros p V. simpl. rewrite Rc. by apply Hg.
Qed.

(** A fresh address space with one page mapped to a fresh data frame. *)
Lemma fresh_page s s1 s2 root f hh v flags :
  store_ok s -> alloc_page s = (s1, root) -> root <> 0 -> alloc_page s1 = (s2, f) -> f <> 0 ->
  let m := vmm_map_page (Vmm s2 root hh) v f flags in
  (exists b, frame_free (store m) b) ->
  space_ok m /\ no_huge m v /\ data_frame (store m) (get_current_pml4 m) f.
Proof.
  intros Ok Ea Hr Eb Hf m [b Hb]. destruct (fresh_root s s1 root hh Ok Ea Hr) as [[Ok1 W1] Hh1].
  pose proof (alloc_fresh _ _ _ Ok1 Eb Hf) as F.
  destruct (fresh_data_extends _ _ _ s2 _ W1 F (fr_ok _ _ _ F)) as [X D]; [done..|].
  assert (Hs2 : space_ok (Vmm s2 root hh)) by (split; apply X).
  assert (Hh2 : no_huge (Vmm s2 root hh) v) by (apply X, Hh1).
  destruct (map_page_cases (Vmm s2 root hh) v f flags Hs2 Hh2) as (Hs' & Hc & _ & [M|[N _]]).
  - destruct M as (_ & Hh' & _ & _ & Hd'). split_and!; [done|by apply Hh'|].
    specialize (Hd' f D). unfold m, get_current_pml4 in *. by rewrite Hc.
  - by destruct (N b).
Qed.
End tree.

(** ** Instances *)

(** An address space on the demonstration memory map, with one read-only user
    page at 4 MiB; then the same page with a second reference. *)
Definition demo_root_store : pmm := (pmm_alloc_page demo_pmm).1.

Definition demo_root : Z := (pmm_alloc_page demo_pmm).2.

Definition demo_page_store : pmm := (pmm_alloc_page demo_root_store).1.

Definition demo_frame : Z := (pmm_alloc_page demo_root_store).2.

Definition demo_va : Z := 0x400000.

Definition demo_ro : vmm pmm :=
  vmm_map_page (Vmm demo_page_store demo_root 0) demo_va demo_frame (Z.lor PAGE_PRESENT PAGE_USER).

Definition demo_shared : vmm pmm := set_store demo_ro (page_ref (store demo_ro) demo_frame).

Lemma alloc_eta (s : pmm) : alloc_page s = ((alloc_page s).1, (alloc_page s).2).
Proof. apply surjective_pairing. Qed.

Lemma demo_ro_free_left : frame_free (store demo_ro) (8 * 4096).
Proof. vm_compute. repeat split; discriminate. Qed.

Lemma demo_ro_ok :
  space_ok demo_ro /\ no_huge demo_ro demo_va /\
  data_frame (store demo_ro) (get_current_pml4 demo_ro) demo_frame.
Proof.
  refine (fresh_page demo_pmm demo_root_store demo_page_store demo_root demo_frame 0 demo_va
    (Z.lor PAGE_PRESENT PAGE_USER) demo_pmm_inv (alloc_eta demo_pmm) _ (alloc_eta demo_root_store) _
    (ex_intro _ _ demo_ro_free_left)); vm_compute; discriminate.
Qed.

Lemma demo_shared_ok :
  space_ok demo_shared /\ no_huge demo_shared demo_va /\
  data_frame (store demo_shared) (get_current_pml4 demo_ro) demo_frame.
Proof.
  destruct demo_ro_ok as (Hs & Hh & Hd).
  destruct (page_ref_space demo_ro demo_frame Hs) as (Hs' & _ & Hh' & Hd'); [vm_compute; by split|].
  split; [exact Hs'|]. split; [exact (Hh' _ Hh)|exact (Hd' _ Hd)].
Qed.

Lemma demo_root_ok :
  space_ok (Vmm demo_root_store demo_root 0) /\ forall v, no_huge (Vmm demo_root_store demo_root 0) v.
Proof.
  refine (fresh_root demo_pmm demo_root_store demo_root 0 demo_pmm_inv (alloc_eta demo_pmm) _).
  vm_compute; discriminate.
Qed.

Lemma vmm_map_page_correct_witness :
  let m := Vmm demo_root_store demo_root 0 in
  let m' := vmm_map_page m demo_va 0x5000 (Z.lor PAGE_PRESENT PAGE_USER) in
  vmm_get_phys m demo_va = 0 /\ vmm_get_phys m' demo_va = 0x5000 /\ space_ok m'.
Proof.
  intros m m'. split; [vm_compute; reflexivity|]. destruct demo_root_ok as [Hs Hh].
  destruct (vmm_map_page_correct m demo_va 0x5000 (Z.lor PAGE_PRESENT PAGE_USER) Hs (Hh demo_va) eq_refl eq_refl)
    as [Hs' [N|G]].
  - exfalso. apply (N (8 * 4096)). vm_compute. repeat split; discriminate.
  - split; [|exact Hs']. unfold m'. rewrite (G demo_va (Hh demo_va)). vm_compute. reflexivity.
Defined.

Lemma vmm_unmap_page_correct_witness :
  vmm_get_phys demo_ro demo_va = demo_frame /\ vmm_get_phys (vmm_unmap_page demo_ro demo_va) demo_va = 0.
Proof.
  split; [vm_compute; reflexivity|]. destruct demo_ro_ok as (Hs & Hh & _).
  destruct (vmm_unmap_page_correct demo_ro demo_va Hs Hh) as (_ & G & _).
  rewrite (G demo_va Hh). vm_compute. reflexivity.
Defined.

Lemma vmm_get_phys_refines_mmu_witness :
  mmu_translate (store demo_ro) (cr3 demo_ro) demo_va = Some demo_frame /\
  vmm_get_phys demo_ro demo_va = default 0 (mmu_translate (store demo_ro) (cr3 demo_ro) demo_va).
Proof.
  split; [vm_compute; reflexivity|]. destruct demo_ro_ok as (_ & Hh & _).
  exact (vmm_get_phys_refines_mmu demo_ro demo_va Hh).
Defined.

Lemma cow_sole_owner_witness :
  exists m', cow_handle_fault demo_ro demo_root demo_va = Some m' /\ is_cow_page m' demo_va = false.
Proof.
  destruct demo_ro_ok as (Hs & Hh & _).
  destruct (cow_sole_owner demo_ro demo_root demo_va Hs Hh) as (m' & E & _ & _ & Hc & _);
    [vm_compute; reflexivity..|vm_compute; discriminate|vm_compute; reflexivity|].
  exists m'. split; [exact E|exact Hc].
Defined.

Lemma cow_shared_page_witness :
  exists m', cow_handle_fault demo_shared demo_root demo_va = Some m' /\
    pmm_page_refcount (store m') demo_frame = 1.
Proof.
  destruct demo_shared_ok as (Hs & Hh & Hd).
  assert (Ef : Z.land (entry_of demo_shared demo_va) ADDR_MASK = demo_frame) by (vm_compute; reflexivity).
  destruct (cow_shared_page demo_shared demo_root demo_va Hs Hh) as (m' & E & _ & [[N _]|(n & _ & _ & _ & _ & C)]);
    [vm_compute; reflexivity..|rewrite Ef; exact Hd|vm_compute; reflexivity| |].
  - exfalso. apply (N (8 * 4096)). vm_compute. repeat split; discriminate.
  - exists m'. split; [exact E|]. rewrite Ef in C. etransitivity; [exact C|]. vm_compute. reflexivity.
Defined.
