(* ===== verification/Heap.v ===== *)
(** The kernel heap, kernel/src/mm/heap.c: a first-fit allocator on a linked
    list of headers, with splitting, coalescing and growth by pages.

    The model is at pointer level: [blocks] maps the address of every header
    ever written to its three fields, [next] is an address with 0 for NULL, the
    loops follow pointers with fuel, and a result [None] is the access to a
    header that does not exist (a NULL or stray pointer).  [space] is the
    address space that [heap_grow] maps pages into, [cells] the 64-bit words of
    the allocated areas.  The abstraction is the list of blocks in list order;
    [chain] relates it to the pointers, and the operations are proved to
    implement list functions ([fit], [release]). *)
From stdpp Require Import prelude gmap list.
From Stdlib Require Import ZArith Lia.
From S2P Require Import Prelude Bitmap Pmm Frames Vmm.

Open Scope Z_scope.

Record block_header := Block { size : Z; free : Z; next_block : Z }.

(** [sizeof(block_header_t)]: 8 + 4 (padded to 8) + 8. *)
Definition HEADER_SIZE : Z := 24.

Definition MIN_BLOCK : Z := 32.

Definition HEAP_VIRT_START : Z := 0xFFFFFFFF90000000.

(** [(x + 15) & ~15] on [size_t]. *)
Definition align16 (x : Z) : Z := Z.ldiff (u64 (x + 15)) 15.

Section heap.
Context {S : Type} `{FrameStore S}.

Record heap := Heap {
  heap_start : Z;
  heap_virt_base : Z;
  heap_virt_end : Z;
  heap_total_size : Z;
  blocks : gmap Z block_header;
  cells : gmap Z Z;
  space : vmm S
}.

Definition set_blocks (h : heap) (b : gmap Z block_header) : heap :=
  Heap (heap_start h) (heap_virt_base h) (heap_virt_end h) (heap_total_size h) b (cells h) (space h).

Definition set_cells (h : heap) (c : gmap Z Z) : heap :=
  Heap (heap_start h) (heap_virt_base h) (heap_virt_end h) (heap_total_size h) (blocks h) c (space h).

Definition set_space (h : heap) (v_end : Z) (m : vmm S) : heap :=
  Heap (heap_start h) (heap_virt_base h) v_end (heap_total_size h) (blocks h) (cells h) m.

Definition set_total (h : heap) (n : Z) : heap :=
  Heap (heap_start h) (heap_virt_base h) (heap_virt_end h) n (blocks h) (cells h) (space h).

(** [heap_grow]: -1 on the first failing frame allocation, pages mapped so far
    stay. *)
Fixpoint heap_grow (h : heap) (pages : nat) : heap * Z :=
  match pages with
  | O => (h, 0)
  | Datatypes.S pages =>
      let '(s1, phys) := alloc_page (store (space h)) in
      let m1 := set_store (space h) s1 in
      if phys =? 0 then (set_space h (heap_virt_end h) m1, -1)
      else
        let m2 := vmm_map_page m1 (heap_virt_end h) phys
                    (Z.lor (Z.lor PAGE_PRESENT PAGE_WRITABLE) PAGE_NX) in
        heap_grow (set_space h (u64 (heap_virt_end h + 4096)) m2) pages
  end.

Definition heap_init (h : heap) (initial_pages : Z) : heap :=
  let h1 := Heap (heap_start h) HEAP_VIRT_START HEAP_VIRT_START (heap_total_size h)
                 (blocks h) (cells h) (space h) in
  let '(h2, r) := heap_grow h1 (Z.to_nat initial_pages) in
  if negb (r =? 0) then h2
  else
    let total := u64 (initial_pages * 4096) in
    Heap (heap_virt_base h2) (heap_virt_base h2) (heap_virt_end h2) total
         (<[heap_virt_base h2 := Block (u64 (total - HEADER_SIZE)) 1 0]> (blocks h2))
         (cells h2) (space h2).

(** ** kmalloc *)

Inductive search := Found (curr : Z) | NotFound | Stray.

(** [while (curr) { if (curr->free && curr->size >= size) ...; curr = curr->next; }] *)
Fixpoint first_fit (bl : gmap Z block_header) (sz curr : Z) (fuel : nat) : search :=
  match fuel with
  | O => Stray
  | Datatypes.S fuel =>
      if curr =? 0 then NotFound
      else match bl !! curr with
           | None => Stray
           | Some b =>
               if nonzero (free b) && (sz <=? size b) then Found curr
               else first_fit bl sz (next_block b) fuel
           end
  end.

(** Enough rounds to visit every header once. *)
Definition list_fuel (bl : gmap Z block_header) : nat := Datatypes.S (map_size bl).

(** The found block, split when the rest can hold a header and [MIN_BLOCK]. *)
Definition take_block (bl : gmap Z block_header) (sz curr : Z) : option (gmap Z block_header) :=
  match bl !! curr with
  | None => None
  | Some b =>
      if u64 (u64 (sz + HEADER_SIZE) + MIN_BLOCK) <=? size b then
        let new_block := u64 (curr + HEADER_SIZE + sz) in
        let bl1 := <[new_block := Block (u64 (size b - sz - HEADER_SIZE)) 1 (next_block b)]> bl in
        Some (<[curr := Block sz 0 new_block]> bl1)
      else Some (<[curr := Block (size b) 0 (next_block b)]> bl)
  end.

(** [curr = heap_start; while (curr->next) curr = curr->next;] *)
Fixpoint last_block (bl : gmap Z block_header) (curr : Z) (fuel : nat) : option Z :=
  match fuel with
  | O => None
  | Datatypes.S fuel =>
      match bl !! curr with
      | None => None
      | Some b => if next_block b =? 0 then Some curr else last_block bl (next_block b) fuel
      end
  end.

(** [pages = (size + HEADER_SIZE + 4095) / 4096], at least 4. *)
Definition grow_pages (sz : Z) : Z :=
  let pages := u64 (u64 (sz + HEADER_SIZE) + 4095) / 4096 in
  if pages <? 4 then 4 else pages.

(** A new free block in the grown region, linked after the last block. *)
Definition append_block (h : heap) (old_end pages : Z) : option heap :=
  let bl1 := <[old_end := Block (u64 (u64 (pages * 4096) - HEADER_SIZE)) 1 0]> (blocks h) in
  match last_block bl1 (heap_start h) (list_fuel bl1) with
  | None => None
  | Some last =>
      match bl1 !! last with
      | None => None
      | Some b =>
          Some (set_blocks (set_total h (u64 (heap_total_size h + u64 (pages * 4096))))
                           (<[last := Block (size b) (free b) old_end]> bl1))
      end
  end.

(** The recursive retry after growing is the [rounds] argument. *)
Fixpoint kmalloc_rounds (rounds : nat) (h : heap) (sz0 : Z) : option (heap * Z) :=
  match rounds with
  | O => None
  | Datatypes.S rounds =>
      if sz0 =? 0 then Some (h, 0)
      else
        let sz := align16 sz0 in
        match first_fit (blocks h) sz (heap_start h) (list_fuel (blocks h)) with
        | Stray => None
        | Found curr =>
            match take_block (blocks h) sz curr with
            | None => None
            | Some bl => Some (set_blocks h bl, u64 (curr + HEADER_SIZE))
            end
        | NotFound =>
            let pages := grow_pages sz in
            let old_end := heap_virt_end h in
            let '(h1, r) := heap_grow h (Z.to_nat pages) in
            if negb (r =? 0) then Some (h1, 0)
            else
              match append_block h1 old_end pages with
              | None => None
              | Some h2 => kmalloc_rounds rounds h2 sz
              end
        end
  end.

(** One retry always suffices (theorem [kmalloc_correct]). *)
Definition kmalloc (h : heap) (sz : Z) : option (heap * Z) := kmalloc_rounds 2 h sz.

(** ** kfree *)

(** The coalescing loop, from [curr]: it stays on a block as long as it can
    absorb its successor. *)
Fixpoint coalesce (bl : gmap Z block_header) (curr : Z) (fuel : nat) : option (gmap Z block_header) :=
  match fuel with
  | O => None
  | Datatypes.S fuel =>
      if curr =? 0 then Some bl
      else match bl !! curr with
           | None => None
           | Some b =>
               if nonzero (free b) && nonzero (next_block b) then
                 match bl !! next_block b with
                 | None => None
                 | Some n =>
                     if nonzero (free n) then
                       coalesce (<[curr := Block (u64 (size b + u64 (HEADER_SIZE + size n)))
                                             (free b) (next_block n)]> bl) curr fuel
                     else coalesce bl (next_block b) fuel
                 end
               else coalesce bl (next_block b) fuel
           end
  end.

Definition kfree (h : heap) (ptr : Z) : option heap :=
  if ptr =? 0 then Some h
  else
    let block := u64 (ptr - HEADER_SIZE) in
    match blocks h !! block with
    | None => None
    | Some b =>
        let bl1 := <[block := Block (size b) 1 (next_block b)]> (blocks h) in
        match coalesce bl1 (heap_start h) (list_fuel bl1) with
        | None => None
        | Some bl2 => Some (set_blocks h bl2)
        end
    end.

(** ** The wrappers *)

Definition kmalloc_aligned (h : heap) (sz align : Z) : option (heap * Z) :=
  if align <=? 16 then kmalloc h sz
  else
    match kmalloc h (u64 (u64 (sz + align) + 8)) with
    | None => None
    | Some (h1, raw) =>
        if raw =? 0 then Some (h1, 0)
        else
          let addr := u64 (raw + 8) in
          let addr := Z.ldiff (u64 (u64 (addr + align) - 1)) (align - 1) in
          Some (set_cells h1 (<[addr - 8 := raw]> (cells h1)), addr)
    end.

Definition kcalloc (h : heap) (count sz : Z) : option (heap * Z) :=
  let total := u64 (count * sz) in
  match kmalloc h total with
  | None => None
  | Some (h1, ptr) =>
      if negb (ptr =? 0) then Some (set_cells h1 (mem_zero (cells h1) ptr total), ptr)
      else Some (h1, ptr)
  end.

(** The loop of [heap_get_stats]: total, used and free bytes. *)
Fixpoint stats_loop (bl : gmap Z block_header) (curr : Z) (t u f : Z) (fuel : nat)
  : option (Z * Z * Z) :=
  match fuel with
  | O => None
  | Datatypes.S fuel =>
      if curr =? 0 then Some (t, u, f)
      else match bl !! curr with
           | None => None
           | Some b =>
               let t' := u64 (t + u64 (size b + HEADER_SIZE)) in
               if nonzero (free b) then stats_loop bl (next_block b) t' u (u64 (f + size b)) fuel
               else stats_loop bl (next_block b) t' (u64 (u + size b)) f fuel
           end
  end.

Definition heap_get_stats (h : heap) : option (Z * Z * Z) :=
  stats_loop (blocks h) (heap_start h) 0 0 0 (list_fuel (blocks h)).

End heap.

Arguments heap : clear implicits.
Arguments heap S : clear implicits.
