(* ===== verification/HeapSpec.v ===== *)
(** Correctness of the kernel heap (file Heap): the pointer structure
    represents a list of blocks laid out in address order, and [kmalloc],
    [kfree] and the statistics implement functions on that list. *)
From stdpp Require Import prelude gmap list sets.
From Stdlib Require Import ZArith Lia.
From S2P Require Import Prelude Bitmap Pmm Frames Vmm Heap.

Open Scope Z_scope.

(** ** The abstract heap *)

Record ablock := ABlock { a_addr : Z; a_size : Z; a_free : bool }.

(** The address after the block's data. *)
Definition a_end (b : ablock) : Z := a_addr b + HEADER_SIZE + a_size b.

Definition split_block (sz : Z) (b : ablock) : list ablock :=
  if sz + HEADER_SIZE + MIN_BLOCK <=? a_size b
  then [ABlock (a_addr b) sz false; ABlock (a_addr b + HEADER_SIZE + sz) (a_size b - sz - HEADER_SIZE) true]
  else [ABlock (a_addr b) (a_size b) false].

(** First fit: the new list and the address of the block taken. *)
Fixpoint fit (sz : Z) (l : list ablock) : option (list ablock * Z) :=
  match l with
  | [] => None
  | b :: l =>
      if a_free b && (sz <=? a_size b) then Some (split_block sz b ++ l, a_addr b)
      else match fit sz l with Some (l', a) => Some (b :: l', a) | None => None end
  end.

(** Marking a block free, and merging runs of free blocks from the left. *)
Definition mark_free (a : Z) (l : list ablock) : list ablock :=
  map (fun b => if a_addr b =? a then ABlock (a_addr b) (a_size b) true else b) l.

Fixpoint merge_from (b : ablock) (l : list ablock) : list ablock :=
  match l with
  | [] => [b]
  | n :: l =>
      if a_free b && a_free n
      then merge_from (ABlock (a_addr b) (a_size b + HEADER_SIZE + a_size n) true) l
      else b :: merge_from n l
  end.

Definition merge_all (l : list ablock) : list ablock :=
  match l with [] => [] | b :: l => merge_from b l end.

Definition release (a : Z) (l : list ablock) : list ablock := merge_all (mark_free a l).

(** The live allocations: header address and usable size. *)
Definition live (l : list ablock) : list (Z * Z) :=
  (fun b => (a_addr b, a_size b)) <$> filter (fun b => a_free b = false) l.

(** No two neighbours are both free. *)
Fixpoint coalesced (l : list ablock) : Prop :=
  match l with
  | b :: (n :: _) as tl => (a_free b && a_free n = false) /\ coalesced tl
  | _ => True
  end.

(** Blocks in address order between [lo] and [hi], without overlap. *)
Fixpoint layout (lo : Z) (l : list ablock) (hi : Z) : Prop :=
  match l with
  | [] => lo <= hi
  | b :: l => lo <= a_addr b /\ 0 <= a_size b /\ layout (a_end b) l hi
  end.

Definition addrs (l : list ablock) : list Z := a_addr <$> l.

Lemma layout_le l : forall lo hi, layout lo l hi -> lo <= hi.
Proof.
  induction l as [|b l IH]; intros lo hi; simpl; [done|]. intros (? & ? & L). apply IH in L.
  unfold a_end, HEADER_SIZE in L. lia.
Qed.

Lemma layout_lower l lo lo' hi : lo' <= lo -> layout lo l hi -> layout lo' l hi.
Proof. destruct l; simpl; [lia|]. intros ? (? & ? & ?). split_and!; [lia|done..]. Qed.

Lemma layout_upper l : forall lo hi hi', hi <= hi' -> layout lo l hi -> layout lo l hi'.
Proof. induction l as [|b l IH]; intros lo hi hi' Hle; simpl; [lia|]. intros (? & ? & ?). eauto. Qed.

Lemma layout_addr l : forall lo hi b, layout lo l hi -> b ∈ l ->
  lo <= a_addr b /\ 0 <= a_size b /\ a_end b <= hi.
Proof.
  induction l as [|c l IH]; intros lo hi b; simpl; [by intros ? ?%elem_of_nil|].
  intros (? & ? & L) [->|Hb]%elem_of_cons.
  - apply layout_le in L. done.
  - apply (IH _ _ _ L) in Hb. unfold a_end, HEADER_SIZE in *. lia.
Qed.

Lemma layout_addrs lo l hi x : layout lo l hi -> x ∈ addrs l -> lo <= x < hi.
Proof.
  intros L (b & -> & Hb)%list_elem_of_fmap. apply (layout_addr l lo hi) in Hb; [|done].
  unfold a_end, HEADER_SIZE in Hb. lia.
Qed.

Lemma layout_app l1 : forall l2 lo hi mid, layout lo l1 mid -> layout mid l2 hi -> layout lo (l1 ++ l2) hi.
Proof.
  induction l1 as [|b l1 IH]; intros l2 lo hi mid; simpl.
  - intros ? ?. by eapply layout_lower.
  - intros (? & ? & ?) ?. eauto.
Qed.

Lemma addrs_NoDup lo l hi : layout lo l hi -> NoDup (addrs l).
Proof.
  revert lo. induction l as [|b l IH]; intros lo; simpl; [constructor|].
  intros (? & ? & L). apply NoDup_cons. split; [|by eapply IH].
  intros Hx. apply (layout_addrs _ _ _ _ L) in Hx. unfold a_end, HEADER_SIZE in Hx. lia.
Qed.

(** ** Representation *)

Fixpoint chain (bl : gmap Z block_header) (curr : Z) (l : list ablock) : Prop :=
  match l with
  | [] => curr = 0
  | b :: l => curr = a_addr b /\ exists h, bl !! curr = Some h /\ size h = a_size b /\
                nonzero (free h) = a_free b /\ chain bl (next_block h) l
  end.

Lemma chain_agree bl bl' l : forall curr,
  (forall x, x ∈ addrs l -> bl' !! x = bl !! x) -> chain bl curr l -> chain bl' curr l.
Proof.
  induction l as [|b l IH]; intros curr Hx; simpl; [done|].
  intros (-> & h & E & ? & ? & C). split; [done|]. exists h. split_and!; [|done..|].
  - rewrite Hx; [done|]. by left.
  - apply IH; [|done]. intros x Hl. apply Hx. by right.
Qed.

Lemma chain_insert bl curr l x b : x ∉ addrs l -> chain bl curr l -> chain (<[x := b]> bl) curr l.
Proof. intros Hx. apply chain_agree. intros y Hy. rewrite lookup_insert_ne; [done|]. by intros ->. Qed.

Lemma chain_dom bl l : forall curr, chain bl curr l -> forall x, x ∈ addrs l -> is_Some (bl !! x).
Proof.
  induction l as [|b l IH]; intros curr; simpl; [by intros ? x ?%elem_of_nil|].
  intros (-> & h & E & ? & ? & C) x [->|Hx]%elem_of_cons; [by eexists|]. by eapply IH.
Qed.

Lemma NoDup_length_map (bl : gmap Z block_header) (l : list Z) :
  NoDup l -> (forall x, x ∈ l -> is_Some (bl !! x)) -> (length l <= map_size bl)%nat.
Proof.
  intros Hnd Hd. change (map_size bl) with (base.size bl). rewrite <- size_dom.
  rewrite <- (size_list_to_set (C := gset Z) l Hnd). apply subseteq_size.
  intros x Hx%elem_of_list_to_set. by apply elem_of_dom, Hd.
Qed.

Lemma chain_fuel bl curr l lo hi : chain bl curr l -> layout lo l hi -> (length l < list_fuel bl)%nat.
Proof.
  intros C L. unfold list_fuel. apply Nat.lt_succ_r. rewrite <- (length_fmap a_addr).
  apply NoDup_length_map; [by eapply addrs_NoDup|by eapply chain_dom].
Qed.

(** ** The loops *)

Lemma first_fit_chain bl sz l : forall curr lo hi fuel,
  chain bl curr l -> layout lo l hi -> 0 < lo -> (length l < fuel)%nat ->
  first_fit bl sz curr fuel = match fit sz l with Some (_, a) => Found a | None => NotFound end.
Proof.
  induction l as [|b l IH]; intros curr lo hi [|fuel] C L Hlo Hf; simpl in *; try lia.
  { by rewrite C. }
  destruct C as (-> & h & E & Hs & Hfr & C). destruct L as (? & ? & L).
  rewrite (proj2 (Z.eqb_neq _ 0)) by lia. rewrite E, Hfr, Hs. destruct (a_free b && _); [done|].
  rewrite (IH _ (a_end b) hi) by (done || unfold a_end, HEADER_SIZE; lia). by destruct (fit sz l) as [[]|].
Qed.

Lemma fit_addr sz l l' a : fit sz l = Some (l', a) -> a ∈ addrs l.
Proof.
  revert l'. induction l as [|b l IH]; intros l'; simpl; [done|]. destruct (a_free b && _).
  - intros [= _ <-]. by left.
  - destruct (fit sz l) as [[l1 a1]|] eqn:E; [|done]. intros [= <- <-]. right. by eapply IH.
Qed.

Lemma split_layout sz b l hi lo :
  0 <= sz -> layout lo (b :: l) hi -> sz <= a_size b -> layout lo (split_block sz b ++ l) hi.
Proof.
  unfold split_block, a_end, HEADER_SIZE, MIN_BLOCK. intros ? (? & ? & L) ?.
  destruct (Z.leb_spec (sz + 24 + 32) (a_size b)); simpl; unfold a_end, HEADER_SIZE in *; simpl.
  - split_and!; [lia..|]. eapply layout_lower; [|exact L]. lia.
  - split_and!; [lia..|]. eapply layout_lower; [|exact L]. lia.
Qed.

Lemma fit_layout sz l : forall lo hi l' a, 0 <= sz -> layout lo l hi -> fit sz l = Some (l', a) -> layout lo l' hi.
Proof.
  induction l as [|b l IH]; intros lo hi l' a Hsz L; simpl; [done|].
  destruct (a_free b && (sz <=? a_size b)) eqn:E.
  - intros [= <- _]. apply andb_true_iff in E as [_ E%Z.leb_le]. by apply split_layout.
  - destruct (fit sz l) as [[l1 a1]|] eqn:E1; [|done]. intros [= <- _].
    destruct L as (? & ? & L). simpl. split_and!; [done..|]. by eapply IH.
Qed.

(** Splitting the head of the chain, in the map of headers. *)
Lemma take_head bl sz b l h lo hi :
  chain bl (a_addr b) (b :: l) -> layout lo (b :: l) hi -> 32 <= lo -> hi < 2 ^ 64 -> 0 <= sz -> sz <= a_size b ->
  bl !! a_addr b = Some h ->
  exists bl', take_block bl sz (a_addr b) = Some bl' /\ chain bl' (a_addr b) (split_block sz b ++ l) /\
    forall x, x < a_addr b -> bl' !! x = bl !! x.
Proof.
  intros (_ & h' & E & Hs & Hfr & C) L Hlo Hhi Hsz Hle E'. rewrite E in E'. simplify_eq.
  pose proof (layout_addr _ _ _ b L (list_elem_of_here b l)) as (? & ? & Hend).
  destruct L as (_ & _ & L). unfold a_end, HEADER_SIZE in *.
  assert (Hn : forall x, x < a_addr b + 24 + a_size b -> x ∉ addrs l).
  { intros x Hx Hin. pose proof (layout_addrs _ _ _ _ L Hin). lia. }
  unfold take_block, split_block, HEADER_SIZE, MIN_BLOCK. rewrite E, Hs.
  rewrite (wrap_small 64 (sz + 24)) by (unfold fits; lia).
  rewrite (wrap_small 64 (sz + 24 + 32)) by (unfold fits; lia).
  destruct (Z.leb_spec (sz + 24 + 32) (a_size b)) as [Hd|Hd].
  - rewrite (wrap_small 64 (a_addr b + _ + _)), (wrap_small 64 (a_size b - _ - _)) by (unfold fits; lia).
    eexists. split; [done|]. split.
    + simpl. split; [done|]. eexists. split; [by rewrite lookup_insert_eq|]. simpl. split_and!; [done..|].
      eexists. split; [rewrite lookup_insert_ne by lia; by rewrite lookup_insert_eq|]. split_and!; [done..|].
      apply chain_insert; [apply Hn; lia|]. apply chain_insert; [apply Hn; lia|done].
    + intros x Hx. by rewrite !lookup_insert_ne by lia.
  - eexists. split; [done|]. split.
    + simpl. split; [done|]. eexists. split; [by rewrite lookup_insert_eq|]. simpl. split_and!; [done..|].
      apply chain_insert; [apply Hn; lia|done].
    + intros x Hx. by rewrite !lookup_insert_ne by lia.
Qed.

Lemma take_block_chain sz l : forall bl curr lo hi l' a,
  chain bl curr l -> layout lo l hi -> 32 <= lo -> hi < 2 ^ 64 -> 0 <= sz -> fit sz l = Some (l', a) ->
  exists bl', take_block bl sz a = Some bl' /\ chain bl' curr l' /\ forall x, x < a -> bl' !! x = bl !! x.
Proof.
  induction l as [|b l IH]; intros bl curr lo hi l' a C L Hlo Hhi Hsz; simpl; [done|].
  pose proof C as (-> & h & E & Hs & Hfr & C'). destruct (a_free b && (sz <=? a_size b)) eqn:Eb.
  - intros [= <- <-]. apply andb_true_iff in Eb as [_ Eb%Z.leb_le]. by eapply take_head.
  - destruct (fit sz l) as [[l1 a1]|] eqn:E1; [|done]. intros [= <- <-]. destruct L as (? & ? & L).
    assert (a_end b <= a1 < hi) by (eapply layout_addrs; [done|by eapply fit_addr]).
    unfold a_end, HEADER_SIZE in *.
    destruct (IH bl (next_block h) (a_addr b + 24 + a_size b) hi l1 a1) as (bl' & T & C1 & Hx); [done|done|lia|done..|].
    exists bl'. split; [done|]. split; [|done]. split; [done|]. exists h. rewrite Hx by lia. done.
Qed.

Lemma last_block_chain bl l : forall curr lo hi fuel,
  chain bl curr l -> l <> [] -> layout lo l hi -> 0 < lo -> (length l <= fuel)%nat ->
  exists b h, last l = Some b /\ last_block bl curr fuel = Some (a_addr b) /\
    bl !! a_addr b = Some h /\ next_block h = 0.
Proof.
  induction l as [|b l IH]; intros curr lo hi [|fuel] C Hne L Hlo Hf; simpl in *; try (done || lia).
  destruct C as (-> & h & E & Hs & Hfr & C). destruct L as (? & ? & L). rewrite E.
  destruct l as [|c l]; simpl in C.
  - rewrite C. simpl. exists b, h. done.
  - assert (Hnz : next_block h <> 0).
    { destruct C as [-> _], L as [? _]. unfold a_end, HEADER_SIZE in *. lia. }
    rewrite (proj2 (Z.eqb_neq _ 0)) by done.
    destruct (IH (next_block h) (a_end b) hi fuel) as (b' & h' & Hb & ? & ? & ?);
      [done..|unfold a_end, HEADER_SIZE; lia|simpl in *; lia|].
    by exists b', h'.
Qed.

(** Linking a block after the last one. *)
Lemma append_chain bl b h x nb l : forall curr,
  chain bl curr (l ++ [b]) -> NoDup (addrs (l ++ [b])) -> bl !! a_addr b = Some h ->
  x ∉ addrs (l ++ [b]) -> bl !! x = Some nb -> next_block nb = 0 ->
  chain (<[a_addr b := Block (size h) (free h) x]> bl) curr
        ((l ++ [b]) ++ [ABlock x (size nb) (nonzero (free nb))]).
Proof.
  induction l as [|c l IH]; intros curr C Hnd Hb Hx Ex Hn; simpl in *.
  - destruct C as (-> & hc & E & Hs & Hfr & C). simplify_eq. apply not_elem_of_cons in Hx as [Hx _].
    split; [done|]. eexists. rewrite lookup_insert_eq. split; [done|]. simpl. split_and!; [done..|].
    exists nb. by rewrite lookup_insert_ne.
  - destruct C as (-> & hc & E & Hs & Hfr & C). apply NoDup_cons in Hnd as [Hc Hnd].
    apply not_elem_of_cons in Hx as [_ Hx]. split; [done|]. exists hc.
    rewrite lookup_insert_ne. 2: { intros Heq. apply Hc. rewrite <- Heq. unfold addrs. rewrite fmap_app. set_solver. }
    split_and!; [done..|]. by apply IH.
Qed.

(** Coalescing. *)
Lemma coalesce_chain l : forall bl curr b lo hi fuel,
  chain bl curr (b :: l) -> layout lo (b :: l) hi -> 0 < lo -> hi < 2 ^ 64 -> (length l + 1 < fuel)%nat ->
  exists bl', coalesce bl curr fuel = Some bl' /\ chain bl' curr (merge_from b l) /\
    forall x, x < curr -> bl' !! x = bl !! x.
Proof.
  induction l as [|n l IH]; intros bl curr b lo hi [|fuel] C L Hlo Hhi Hf; simpl in Hf; try lia.
  - destruct C as (-> & h & E & Hs & Hfr & C). simpl in C. destruct L as (? & ? & _).
    destruct fuel as [|fuel]; [lia|]. exists bl. simpl.
    rewrite (proj2 (Z.eqb_neq _ 0)) by lia. rewrite E, C, andb_false_r. simpl.
    split_and!; [done|done|exists h; by rewrite C|done].
  - destruct C as (-> & h & E & Hs & Hfr & C). pose proof C as (Hn & hn & En & Hsn & Hfn & Cn).
    destruct L as (? & ? & L). pose proof L as (Ln & ? & L'). apply layout_le in L' as Hle.
    unfold a_end, HEADER_SIZE in *. simpl. rewrite (proj2 (Z.eqb_neq _ 0)) by lia.
    rewrite E, Hfr. rewrite (proj2 (nonzero_true (next_block h))) by lia. rewrite andb_true_r.
    destruct (a_free b) eqn:Efb; simpl.
    + rewrite En, Hfn. destruct (a_free n) eqn:Efn; simpl.
      * rewrite Hs, Hsn. unfold HEADER_SIZE. rewrite (wrap_small 64 (24 + a_size n)) by (unfold fits; lia).
        rewrite wrap_small by (unfold fits; lia).
        edestruct (IH (<[a_addr b := Block (a_size b + (24 + a_size n)) (free h) (next_block hn)]> bl)
          (a_addr b) (ABlock (a_addr b) (a_size b + 24 + a_size n) true) lo hi fuel) as (bl' & Co & C' & Hx);
          [| |done|done|lia|].
        -- simpl. split; [done|]. eexists. rewrite lookup_insert_eq. split; [done|]. simpl. split_and!; [lia|done|].
           apply chain_insert; [|done]. intros Hin. apply (layout_addrs _ _ _ _ L') in Hin. lia.
        -- simpl. split_and!; [lia..|]. eapply layout_lower; [|exact L']. unfold a_end, HEADER_SIZE; simpl. lia.
        -- exists bl'. split_and!; [done..|]. intros x Hx'. rewrite Hx by done. by rewrite lookup_insert_ne by lia.
      * edestruct (IH bl (next_block h) n (a_addr b + 24 + a_size b) hi fuel) as (bl' & Co & C' & Hx);
          [done|done|lia|done|lia|].
        exists bl'. split; [done|]. split; [|intros x Hx'; apply Hx; lia]. split; [done|]. exists h.
        rewrite Hx by lia. by rewrite Hfr.
    + edestruct (IH bl (next_block h) n (a_addr b + 24 + a_size b) hi fuel) as (bl' & Co & C' & Hx);
        [done|done|lia|done|lia|].
      exists bl'. split; [done|]. split; [|intros x Hx'; apply Hx; lia]. split; [done|]. exists h.
      rewrite Hx by lia. by rewrite Hfr.
Qed.

(** ** Live allocations *)

Lemma live_app l1 l2 : live (l1 ++ l2) = live l1 ++ live l2.
Proof. unfold live. by rewrite filter_app, fmap_app. Qed.

Lemma live_cons b l : live (b :: l) = (if a_free b then [] else [(a_addr b, a_size b)]) ++ live l.
Proof. unfold live. rewrite filter_cons. by destruct (a_free b). Qed.

Lemma elem_of_live a n l : (a, n) ∈ live l <-> ABlock a n false ∈ l.
Proof.
  unfold live. rewrite list_elem_of_fmap. split.
  - intros ([a' n' f] & [= -> ->] & [Hf Hb]%list_elem_of_filter). simpl in Hf. by subst.
  - intros Hb. exists (ABlock a n false). split; [done|]. by apply list_elem_of_filter.
Qed.

Lemma live_NoDup lo l hi : layout lo l hi -> NoDup (live l).
Proof.
  revert lo. induction l as [|b l IH]; intros lo L; [constructor|]. destruct L as (? & ? & L).
  rewrite live_cons. destruct (a_free b); simpl; [by eapply IH|]. apply NoDup_cons. split; [|by eapply IH].
  rewrite elem_of_live. intros Hin. apply (layout_addr _ _ _ _ L) in Hin. unfold a_end, HEADER_SIZE in Hin. simpl in Hin. lia.
Qed.

(** First fit adds exactly one live block, large enough, in a block that was free. *)
Lemma fit_live sz l l' a :
  fit sz l = Some (l', a) -> exists n, sz <= n /\ live l' ≡ₚ (a, n) :: live l.
Proof.
  revert l'. induction l as [|b l IH]; intros l'; simpl; [done|].
  destruct (a_free b && (sz <=? a_size b)) eqn:E.
  - intros [= <- <-]. apply andb_true_iff in E as [Ef E%Z.leb_le].
    rewrite live_app, (live_cons b), Ef. unfold split_block. destruct (_ <=? _).
    + by exists sz.
    + by exists (a_size b).
  - destruct (fit sz l) as [[l1 a1]|] eqn:E1; [|done]. intros [= <- <-].
    destruct (IH l1 eq_refl) as (n & ? & P). exists n. split; [done|].
    rewrite !(live_cons b), P. by rewrite Permutation_middle.
Qed.

Lemma merge_live l : forall b, live (merge_from b l) = live (b :: l).
Proof.
  induction l as [|n l IH]; intros b; simpl; [done|]. destruct (a_free b && a_free n) eqn:E.
  - apply andb_true_iff in E as [E1 E2]. rewrite IH, !live_cons. simpl. by rewrite E1, E2.
  - by rewrite !(live_cons b), IH.
Qed.

Lemma merge_all_live l : live (merge_all l) = live l.
Proof. destruct l; [done|]. apply merge_live. Qed.

Lemma mark_free_cons a b l :
  mark_free a (b :: l) = (if a_addr b =? a then ABlock (a_addr b) (a_size b) true else b) :: mark_free a l.
Proof. done. Qed.

Lemma mark_free_app a l1 l2 : mark_free a (l1 ++ l2) = mark_free a l1 ++ mark_free a l2.
Proof. apply map_app. Qed.

Lemma mark_free_id a l : a ∉ addrs l -> mark_free a l = l.
Proof.
  induction l as [|b l IH]; [done|]. intros [Hne Hl]%not_elem_of_cons. rewrite mark_free_cons.
  rewrite (proj2 (Z.eqb_neq _ _)) by congruence. by rewrite IH.
Qed.

Lemma mark_free_live a n l : NoDup (addrs l) -> (a, n) ∈ live l -> live l ≡ₚ (a, n) :: live (mark_free a l).
Proof.
  induction l as [|b l IH]; [by intros _ ?%elem_of_nil|]. intros [Hb Hnd]%NoDup_cons.
  rewrite elem_of_live, mark_free_cons. intros [<-|Hl]%elem_of_cons.
  - cbn [a_addr a_size] in *. rewrite Z.eqb_refl, mark_free_id by done. by rewrite !live_cons.
  - assert (a_addr b <> a). { intros <-. apply Hb. apply list_elem_of_fmap. by exists (ABlock (a_addr b) n false). }
    rewrite (proj2 (Z.eqb_neq _ _)) by done. rewrite !(live_cons b), (IH Hnd (proj2 (elem_of_live a n l) Hl)).
    by rewrite Permutation_middle.
Qed.

Lemma mark_free_layout a l : forall lo hi, layout lo l hi -> layout lo (mark_free a l) hi.
Proof.
  induction l as [|b l IH]; intros lo hi; simpl; [done|]. intros (? & ? & ?).
  destruct (_ =? a); simpl; split_and!; auto; by apply IH.
Qed.

Lemma merge_layout l : forall b lo hi, layout lo (b :: l) hi -> layout lo (merge_from b l) hi.
Proof.
  induction l as [|n l IH]; intros b lo hi L; simpl; [done|]. destruct (a_free b && a_free n).
  - apply IH. destruct L as (? & ? & ? & ? & L). simpl. unfold a_end, HEADER_SIZE in *; simpl in *.
    split_and!; [lia..|]. eapply layout_lower; [|exact L]. lia.
  - destruct L as (? & ? & L). simpl. split_and!; [done..|]. by apply IH.
Qed.

Lemma merge_ne b l : exists c l', merge_from b l = c :: l' /\ a_addr c = a_addr b /\
  (a_free c = a_free b).
Proof.
  revert b. induction l as [|n l IH]; intros b; simpl; [by eauto|].
  destruct (a_free b && a_free n) eqn:E; [|by eauto].
  destruct (IH (ABlock (a_addr b) (a_size b + HEADER_SIZE + a_size n) true)) as (c & l' & E' & Ha & Hf).
  apply andb_true_iff in E as [-> _]. by exists c, l'.
Qed.

(** After coalescing no two neighbours are free. *)
Lemma merge_coalesced l : forall b, coalesced (merge_from b l).
Proof.
  induction l as [|n l IH]; intros b; simpl; [done|]. destruct (a_free b && a_free n) eqn:E; [apply IH|].
  destruct (merge_ne n l) as (c & l' & E' & _ & Hf). specialize (IH n). rewrite E' in *. simpl.
  split; [by rewrite Hf|done].
Qed.

Lemma merge_id l : forall b, coalesced (b :: l) -> merge_from b l = b :: l.
Proof.
  induction l as [|n l IH]; intros b; [done|]. intros [E Hc].
  cbn [merge_from]. rewrite E. by rewrite IH.
Qed.

Lemma layout_disjoint l : forall lo hi b c, layout lo l hi -> b ∈ l -> c ∈ l -> b <> c ->
  a_end b <= a_addr c \/ a_end c <= a_addr b.
Proof.
  induction l as [|d l IH]; intros lo hi b c; simpl; [by intros ? ?%elem_of_nil|].
  intros (? & ? & L) [->|Hb]%elem_of_cons [->|Hc]%elem_of_cons Hne; [done| | |by eapply IH].
  - left. by apply (layout_addr _ _ _ _ L).
  - right. by apply (layout_addr _ _ _ _ L).
Qed.

(** Where first fit acts. *)
Lemma fit_split sz l l' a :
  fit sz l = Some (l', a) ->
  exists l1 b l2, l = l1 ++ b :: l2 /\ l' = l1 ++ split_block sz b ++ l2 /\ a = a_addr b /\
    a_free b = true /\ sz <= a_size b.
Proof.
  revert l'. induction l as [|b l IH]; intros l'; simpl; [done|].
  destruct (a_free b && (sz <=? a_size b)) eqn:E.
  - intros [= <- <-]. apply andb_true_iff in E as [Ef E%Z.leb_le]. by exists [], b, l.
  - destruct (fit sz l) as [[l1' a1]|]; [|done]. intros [= <- <-].
    destruct (IH l1' eq_refl) as (l1 & c & l2 & -> & -> & ? & ? & ?). by exists (b :: l1), c, l2.
Qed.

Lemma merge_pair x y l2 l1 : forall c,
  a_free x = true -> a_free y = true ->
  merge_from c (l1 ++ x :: y :: l2) =
  merge_from c (l1 ++ ABlock (a_addr x) (a_size x + HEADER_SIZE + a_size y) true :: l2).
Proof.
  intros c Hx Hy. revert c. induction l1 as [|d l1 IH]; intros c; cbn [app merge_from].
  - rewrite Hx, Hy. destruct (a_free c); simpl; [|done]. do 2 f_equal. lia.
  - by destruct (a_free c && a_free d); rewrite IH.
Qed.

Lemma merge_all_pair x y l1 l2 :
  a_free x = true -> a_free y = true ->
  merge_all (l1 ++ x :: y :: l2) =
  merge_all (l1 ++ ABlock (a_addr x) (a_size x + HEADER_SIZE + a_size y) true :: l2).
Proof.
  intros Hx Hy. destruct l1 as [|c l1]; cbn [app merge_all merge_from]; [|by apply merge_pair].
  by rewrite Hx, Hy.
Qed.

Lemma merge_all_id l : coalesced l -> merge_all l = l.
Proof. destruct l; [done|]. apply merge_id. Qed.

(** Freeing what was just allocated gives the list back. *)
Lemma release_fit sz l lo hi l' a :
  0 <= sz -> layout lo l hi -> coalesced l -> fit sz l = Some (l', a) -> release a l' = l.
Proof.
  intros Hsz L Hc (l1 & b & l2 & -> & -> & -> & Hf & Hs)%fit_split. unfold release.
  apply addrs_NoDup in L. unfold addrs in L. rewrite fmap_app in L. cbn in L.
  apply NoDup_app in L as (_ & H1 & [H2 _]%NoDup_cons).
  rewrite !mark_free_app, (mark_free_id _ l1), (mark_free_id _ l2); [|done|by intros ?%H1; set_solver].
  unfold split_block. destruct (_ <=? _) eqn:E; rewrite !mark_free_cons; cbn [a_addr a_size a_free mark_free map];
    rewrite Z.eqb_refl; cbn [app].
  - rewrite (proj2 (Z.eqb_neq _ _)) by (unfold HEADER_SIZE; lia). rewrite merge_all_pair by done.
    cbn [a_addr a_size]. replace (ABlock _ _ true) with b; [by apply merge_all_id|].
    destruct b as [x y z]; simpl in *. subst. f_equal. lia.
  - replace (ABlock _ _ true) with b; [by apply merge_all_id|]. destruct b; simpl in *. by subst.
Qed.

(** ** Sizes *)

Lemma align16_eq x : align16 x = u64 (x + 15) / 16 * 16.
Proof.
  unfold align16. change 15 with (Z.ones 4) at 2. rewrite Z.ldiff_ones_r by lia.
  by rewrite Z.shiftl_mul_pow2, Z.shiftr_div_pow2.
Qed.

Lemma align16_spec x : 0 < x <= 2 ^ 63 ->
  x <= align16 x <= x + 15 /\ align16 x mod 16 = 0 /\ align16 (align16 x) = align16 x.
Proof.
  intros Hx. assert (E : forall y, 0 <= y <= 2 ^ 63 + 15 -> align16 y = (y + 15) / 16 * 16).
  { intros y Hy. rewrite align16_eq, wrap_small by (unfold fits; lia). done. }
  rewrite (E x) by lia. rewrite E by zmod. zmod.
Qed.

Lemma grow_pages_spec sz : 0 <= sz <= 2 ^ 63 + 15 ->
  4 <= grow_pages sz /\ sz + HEADER_SIZE <= grow_pages sz * 4096 /\ grow_pages sz * 4096 < 2 ^ 64.
Proof.
  intros Hs. unfold grow_pages, HEADER_SIZE. rewrite (wrap_small 64 (sz + 24)) by (unfold fits; lia).
  rewrite wrap_small by (unfold fits; lia). destruct (Z.ltb_spec ((sz + 24 + 4095) / 4096) 4); zmod.
Qed.

(** ** The heap *)

Section heap.
Context {S : Type} `{FrameStore S}.
Implicit Types (h : heap S) (l : list ablock).

(** [h] is an initialised heap whose block list is [l]. *)
Record heap_repr h l : Prop := {
  rp_chain : chain (blocks h) (heap_start h) l;
  rp_layout : layout (heap_virt_base h) l (heap_virt_end h);
  rp_base : 4096 <= heap_virt_base h;
  rp_end : heap_virt_end h < 2 ^ 64;
  rp_end8 : heap_virt_end h mod 8 = 0;
  rp_ne : l <> [];
  rp_align : Forall (fun b => a_addr b mod 8 = 0 /\ a_size b mod 8 = 0) l
}.

(** [h'] is [h] with [k] more pages below its end. *)
Definition grown h h' (k : Z) : Prop :=
  heap_start h' = heap_start h /\ heap_virt_base h' = heap_virt_base h /\ blocks h' = blocks h /\
  cells h' = cells h /\ heap_virt_end h' = heap_virt_end h + k * 4096.

Lemma heap_grow_spec n : forall h,
  0 <= heap_virt_end h -> heap_virt_end h + Z.of_nat n * 4096 < 2 ^ 64 ->
  let '(h', r) := heap_grow h n in
  (r = 0 /\ grown h h' (Z.of_nat n)) \/ (r = -1 /\ exists k, 0 <= k < Z.of_nat n /\ grown h h' k).
Proof.
  induction n as [|n IH]; intros h H0 Hb; simpl.
  { left. split; [done|]. unfold grown. split_and!; [done..|lia]. }
  destruct (alloc_page _) as [s1 phys]. destruct (Z.eqb_spec phys 0).
  { right. split; [done|]. exists 0. unfold grown. simpl. split_and!; [lia|lia|done..|lia]. }
  set (h1 := set_space h _ _). assert (E1 : heap_virt_end h1 = heap_virt_end h + 4096).
  { unfold h1. simpl. apply wrap_small. unfold fits. lia. }
  specialize (IH h1). destruct (heap_grow h1 n) as [h' r].
  destruct IH as [(-> & E & ? & ? & ? & He)|(-> & k & ? & E & ? & ? & ? & He)]; [lia..| |].
  - left. split; [done|]. unfold grown. split_and!; [done..|]. lia.
  - right. split; [done|]. exists (k + 1). unfold grown. split_and!; [lia|lia|done..|]. lia.
Qed.

Lemma repr_grown h h' l k : 0 <= k -> heap_virt_end h + k * 4096 < 2 ^ 64 ->
  heap_repr h l -> grown h h' k -> heap_repr h' l.
Proof.
  intros Hk Hb [C L B E E8 N A] (Es & Eb & Ebl & _ & Ee). split; rewrite ?Es, ?Eb, ?Ebl, ?Ee; try done.
  - by apply (layout_upper l _ (heap_virt_end h)); [lia|].
  - zmod.
Qed.

Lemma repr_bounds h l : heap_repr h l -> 4096 <= heap_virt_end h.
Proof. intros R. pose proof (layout_le _ _ _ (rp_layout h l R)). pose proof (rp_base h l R). lia. Qed.

(** A request that first fit can serve. *)
Lemma kmalloc_found rounds h l sz l' a :
  heap_repr h l -> sz <> 0 -> 0 <= align16 sz -> fit (align16 sz) l = Some (l', a) -> align16 sz mod 8 = 0 ->
  exists h', kmalloc_rounds (Datatypes.S rounds) h sz = Some (h', a + HEADER_SIZE) /\ heap_repr h' l' /\
    heap_virt_base h' = heap_virt_base h /\ heap_virt_end h' = heap_virt_end h.
Proof.
  intros R Hnz Hsz F A8. destruct R as [C L B E E8 N A] eqn:ER. clear ER. cbn [kmalloc_rounds].
  rewrite (proj2 (Z.eqb_neq sz 0)) by done.
  rewrite (first_fit_chain _ _ l _ _ _ _ C L) by (lia || by eapply chain_fuel). rewrite F.
  destruct (take_block_chain (align16 sz) l (blocks h) _ _ _ l' a C L) as (bl' & -> & C' & _); [lia|done..|].
  pose proof (layout_addrs _ _ _ a L (fit_addr _ _ _ _ F)) as Ha.
  exists (set_blocks h bl'). rewrite wrap_small.
  2: { apply fit_split in F as (l1 & b & l2 & -> & _ & -> & _ & Hs). unfold fits, HEADER_SIZE.
       destruct (layout_addr _ _ _ b L) as (_ & ? & He); [set_solver|]. unfold a_end, HEADER_SIZE in He. lia. }
  split_and!; [done| |done..]. split; try done.
  - by apply (fit_layout (align16 sz) l _ _ l' a).
  - intros ->. apply fit_split in F as (l1 & b & l2 & _ & F & _). unfold split_block in F. by destruct l1, (_ <=? _).
  - apply fit_split in F as (l1 & b & l2 & -> & -> & _). rewrite !Forall_app, Forall_cons in *.
    destruct A as (? & [? ?] & ?). split_and!; [done| |done].
    unfold split_block. destruct (_ <=? _); repeat constructor; simpl; try done; unfold HEADER_SIZE; zmod.
Qed.

Lemma append_block_spec h l old_end pages :
  heap_repr (set_space h old_end (space h)) l -> heap_virt_end h = old_end + pages * 4096 -> 1 <= pages ->
  heap_virt_end h < 2 ^ 64 ->
  exists h', append_block h old_end pages = Some h' /\
    heap_repr h' (l ++ [ABlock old_end (pages * 4096 - HEADER_SIZE) true]) /\
    heap_virt_base h' = heap_virt_base h /\ heap_virt_end h' = heap_virt_end h.
Proof.
  intros [C L B E E8 N A] Hend Hp Hb. simpl in *. unfold append_block.
  pose proof (layout_le _ _ _ L) as Hle. unfold HEADER_SIZE.
  rewrite (wrap_small 64 (pages * 4096)) by (unfold fits; lia). rewrite wrap_small by (unfold fits; lia).
  set (nb := Block (pages * 4096 - 24) 1 0). set (bl1 := <[old_end := nb]> (blocks h)).
  assert (Hx : old_end ∉ addrs l) by (intros Hx%(layout_addrs _ _ _ _ L); lia).
  assert (C1 : chain bl1 (heap_start h) l) by by apply chain_insert.
  pose proof (chain_fuel _ _ _ _ _ C1 L) as Hf.
  destruct (last_block_chain bl1 l _ _ _ (list_fuel bl1) C1 N L) as (b & hb & Hl & -> & Hb1 & Hn); [lia..|].
  rewrite Hb1. eexists. split; [done|]. split; [|done]. apply last_Some in Hl as [l1 ->].
  split; simpl; try done.
  - apply (append_chain bl1 b hb old_end nb l1); [done|by eapply addrs_NoDup|done..|by apply lookup_insert_eq|done].
  - apply (layout_app _ _ _ _ old_end); [done|]. simpl. unfold a_end, HEADER_SIZE. simpl. lia.
  - rewrite Hend. zmod.
  - by destruct l1.
  - apply Forall_app. split; [done|]. repeat constructor; simpl; [done|zmod].
Qed.

Lemma fit_app_none sz l b :
  fit sz l = None -> a_free b = true -> sz <= a_size b ->
  fit sz (l ++ [b]) = Some (l ++ split_block sz b, a_addr b).
Proof.
  induction l as [|c l IH]; simpl; intros E Hf Hs.
  - rewrite Hf, (proj2 (Z.leb_le _ _) Hs). by rewrite app_nil_r.
  - destruct (a_free c && _); [done|]. destruct (fit sz l) as [[]|]; [done|]. by rewrite IH.
Qed.

(** A request that it cannot serve: the heap grows and the request is retried. *)
Lemma kmalloc_miss k h l sz :
  heap_repr h l -> sz <> 0 -> fit (align16 sz) l = None ->
  kmalloc_rounds (Datatypes.S k) h sz =
    let '(h1, r) := heap_grow h (Z.to_nat (grow_pages (align16 sz))) in
    if negb (r =? 0) then Some (h1, 0)
    else match append_block h1 (heap_virt_end h) (grow_pages (align16 sz)) with
         | None => None
         | Some h2 => kmalloc_rounds k h2 (align16 sz)
         end.
Proof.
  intros R Hnz F. cbn [kmalloc_rounds]. rewrite (proj2 (Z.eqb_neq sz 0)) by done.
  rewrite (first_fit_chain _ _ l _ _ _ _ (rp_chain h l R) (rp_layout h l R)), F; [done| |].
  - pose proof (rp_base h l R). lia.
  - eapply chain_fuel; apply R.
Qed.

Lemma kmalloc_cases h l sz :
  heap_repr h l -> 0 < sz <= 2 ^ 63 ->
  heap_virt_end h + grow_pages (align16 sz) * 4096 < 2 ^ 64 ->
  exists h' p, kmalloc h sz = Some (h', p) /\
  (heap_virt_base h' = heap_virt_base h /\
   heap_virt_end h' <= heap_virt_end h + grow_pages (align16 sz) * 4096) /\
  ((p = 0 /\ heap_repr h' l /\ fit (align16 sz) l = None) \/
   exists l0 l', heap_repr h' l' /\ fit (align16 sz) l0 = Some (l', p - HEADER_SIZE) /\
     layout (heap_virt_base h) l0 (heap_virt_end h') /\ live l0 = live l).
Proof.
  intros R Hsz Hend. destruct (align16_spec sz Hsz) as (Ha & Ha16 & Hid). unfold kmalloc.
  destruct (fit (align16 sz) l) as [[l' a]|] eqn:F.
  { destruct (kmalloc_found 1 h l sz l' a R) as (h' & E & R' & Hb & He); [lia|lia|done|zmod|].
    destruct (grow_pages_spec (align16 sz)) as (Hg4 & _); [lia|].
    exists h', (a + HEADER_SIZE). split_and!; [done..|lia|]. right. exists l, l'. rewrite Z.add_simpl_r, He.
    split_and!; [done..|apply R|done]. }
  pose proof (repr_bounds h l R) as Hlow.
  destruct (grow_pages_spec (align16 sz)) as (Hg4 & Hg & Hg64); [lia|].
  pose proof (heap_grow_spec (Z.to_nat (grow_pages (align16 sz))) h) as G.
  rewrite Z2Nat.id in G by lia. specialize (G ltac:(lia) Hend).
  rewrite (kmalloc_miss 1 h l sz R ltac:(lia) F). destruct (heap_grow h _) as [h1 r].
  destruct G as [(-> & Gr)|(-> & k & Hk & Gr)]; simpl.
  2: { exists h1, 0. pose proof Gr as (_ & _ & _ & _ & Ee). split_and!; [done|apply Gr|lia|]. left. split_and!; [done| |done].
       by apply (repr_grown h h1 l k); [lia|lia|..]. }
  pose proof Gr as (Es & Eb & Ebl & _ & Ee).
  destruct (append_block_spec h1 l (heap_virt_end h) (grow_pages (align16 sz))) as (h2 & -> & R2 & Eb2 & Ee2);
    [|done|lia|lia|].
  { destruct R. split; simpl; rewrite ?Es, ?Eb, ?Ebl; done. }
  set (nb := ABlock _ _ true) in R2.
  pose proof (fit_app_none (align16 sz) l nb F eq_refl) as F2. unfold nb at 1 in F2; simpl in F2.
  specialize (F2 ltac:(lia)).
  destruct (kmalloc_found 0 h2 (l ++ [nb]) (align16 sz) (l ++ split_block (align16 sz) nb)
    (heap_virt_end h) R2) as (h' & E & R' & Hb & He);
    [lia|lia|by rewrite Hid|rewrite Hid; zmod|].
  exists h', (heap_virt_end h + HEADER_SIZE). split_and!; [done|congruence|lia|]. right.
  exists (l ++ [nb]), (l ++ split_block (align16 sz) nb). rewrite Z.add_simpl_r.
  split_and!; [done|done| |by rewrite live_app, app_nil_r].
  rewrite He, <- Eb, <- Eb2. apply R2.
Qed.

(** C12.  Allocation.  From any well-formed heap, [kmalloc] terminates (after at
    most one retry), and either returns NULL, with the block list unchanged and
    no block large enough, or returns an 8-byte aligned area of at least the
    requested size inside the heap, disjoint from the header and data of every
    live allocation; all live allocations stay live, and the heap stays well
    formed. *)
Theorem kmalloc_correct (h : heap S) (l : list ablock) (sz : Z) :
  heap_repr h l -> 0 < sz <= 2 ^ 63 ->
  heap_virt_end h + grow_pages (align16 sz) * 4096 < 2 ^ 64 ->
  exists h' p, kmalloc h sz = Some (h', p) /\
  ((p = 0 /\ heap_repr h' l /\ fit (align16 sz) l = None) \/
   exists l' n, heap_repr h' l' /\ live l' ≡ₚ (p - HEADER_SIZE, n) :: live l /\ sz <= n /\ p mod 8 = 0 /\
     heap_virt_base h + HEADER_SIZE <= p /\ p + n <= heap_virt_end h' /\
     forall a k, (a, k) ∈ live l -> a + HEADER_SIZE + k <= p - HEADER_SIZE \/ p + n <= a).
Proof.
  intros R Hsz Hend. destruct (align16_spec sz Hsz) as (Ha & _).
  destruct (kmalloc_cases h l sz R Hsz Hend) as (h' & p & E & (Eb & _) & [?|(l0 & l' & R' & F & L & Hl)]);
    exists h', p; (split; [done|]); [by left|right].
  destruct (fit_live _ _ _ _ F) as (n & Hn & P). rewrite Hl in P.
  assert (Hin : ABlock (p - HEADER_SIZE) n false ∈ l').
  { apply elem_of_live. rewrite P. by left. }
  pose proof (rp_align h' l' R') as A8. rewrite Forall_forall in A8. destruct (A8 _ Hin) as [A1 _]. simpl in A1.
  destruct (layout_addr _ _ _ _ (rp_layout h' l' R') Hin) as (B1 & _ & B2). unfold a_end, HEADER_SIZE in *. simpl in *.
  exists l', n. split_and!; [done|done|lia|zmod|lia|lia|].
  intros a k Hk. assert (Hk' : ABlock a k false ∈ l').
  { apply elem_of_live. rewrite P. by right. }
  assert (Hne : ABlock (p - 24) n false <> ABlock a k false).
  { intros [= <- <-]. pose proof (live_NoDup _ _ _ (rp_layout h' l' R')) as Nl.
    rewrite P in Nl. by apply NoDup_cons in Nl as [? _]. }
  destruct (layout_disjoint _ _ _ _ _ (rp_layout h' l' R') Hin Hk' Hne) as [D|D]; unfold a_end, HEADER_SIZE in D; simpl in D; lia.
Qed.

(** ** Freeing *)

Lemma chain_mark bl l a hb : forall curr,
  chain bl curr l -> NoDup (addrs l) -> bl !! a = Some hb ->
  chain (<[a := Block (size hb) 1 (next_block hb)]> bl) curr (mark_free a l).
Proof.
  induction l as [|b l IH]; intros curr C Nd Ha; [done|]. destruct C as (-> & h & E & Hs & Hf & C).
  apply NoDup_cons in Nd as [Hb Nd]. rewrite mark_free_cons. destruct (Z.eqb_spec (a_addr b) a) as [<-|Hne].
  - simplify_eq. split; [done|]. eexists. rewrite lookup_insert_eq. split; [done|]. simpl. split_and!; [done..|].
    rewrite mark_free_id by done. by apply chain_insert.
  - split; [done|]. exists h. rewrite lookup_insert_ne by congruence. split_and!; [done..|]. by apply IH.
Qed.

Lemma mark_free_addrs a l : addrs (mark_free a l) = addrs l.
Proof.
  unfold addrs, mark_free. rewrite <- list_fmap_compose. apply list_fmap_ext. intros i b _. simpl. by destruct (_ =? _).
Qed.

Definition aligned8 (b : ablock) : Prop := a_addr b mod 8 = 0 /\ a_size b mod 8 = 0.

Lemma mark_free_align a l : Forall aligned8 l -> Forall aligned8 (mark_free a l).
Proof. intros A. apply Forall_fmap. eapply Forall_impl; [exact A|]. intros b Hb. simpl. by destruct (_ =? a). Qed.

Lemma merge_align l : forall b, Forall aligned8 (b :: l) -> Forall aligned8 (merge_from b l).
Proof.
  induction l as [|n l IH]; intros b; simpl; [done|]. rewrite !Forall_cons. intros ([A1 A2] & [B1 B2] & A).
  destruct (_ && _).
  - apply IH. constructor; [|done]. split; simpl; [done|]. unfold HEADER_SIZE. zmod.
  - constructor; [done|]. apply IH. by constructor.
Qed.

Lemma kfree_release h l a :
  heap_repr h l -> a ∈ addrs l ->
  exists h', kfree h (a + HEADER_SIZE) = Some h' /\ heap_repr h' (release a l).
Proof.
  intros [C L B E E8 N A] Ha. pose proof (layout_addrs _ _ _ _ L Ha) as Hr.
  destruct (chain_dom _ _ _ C a Ha) as [hb Hb]. unfold kfree, HEADER_SIZE.
  destruct (list_elem_of_fmap_1 _ _ _ Ha) as (b0 & -> & Hb0).
  destruct (layout_addr _ _ _ _ L Hb0) as (? & ? & Hend). unfold a_end, HEADER_SIZE in Hend.
  rewrite (proj2 (Z.eqb_neq _ 0)) by lia. rewrite Z.add_simpl_r, wrap_small by (unfold fits; lia). rewrite Hb.
  pose proof (chain_mark _ _ _ _ _ C (addrs_NoDup _ _ _ L) Hb) as C1.
  pose proof (mark_free_layout (a_addr b0) _ _ _ L) as L1.
  pose proof (chain_fuel _ _ _ _ _ C1 L1) as Hf. unfold release.
  pose proof (mark_free_align (a_addr b0) l A) as A1.
  destruct (mark_free (a_addr b0) l) as [|c l1] eqn:Em; [by destruct l|]. simpl in Hf.
  destruct (coalesce_chain l1 _ _ _ _ _ (list_fuel (<[a_addr b0:=Block (size hb) 1 (next_block hb)]> (blocks h))) C1 L1)
    as (bl' & -> & C2 & _); [lia|done|lia|].
  eexists. split; [done|]. split; simpl; try done.
  - by apply merge_layout.
  - destruct (merge_ne c l1) as (? & ? & -> & _). done.
  - by apply merge_align.
Qed.

Lemma live_release h l a n :
  heap_repr h l -> (a, n) ∈ live l -> a ∈ addrs l /\ live l ≡ₚ (a, n) :: live (release a l).
Proof.
  intros R Hin. split.
  - apply elem_of_live in Hin. apply list_elem_of_fmap. by exists (ABlock a n false).
  - unfold release. rewrite merge_all_live. apply mark_free_live; [|done]. eapply addrs_NoDup, R.
Qed.

Lemma kfree_live h l p n :
  heap_repr h l -> (p - HEADER_SIZE, n) ∈ live l ->
  exists h', kfree h p = Some h' /\ heap_repr h' (release (p - HEADER_SIZE) l) /\
    live l ≡ₚ (p - HEADER_SIZE, n) :: live (release (p - HEADER_SIZE) l).
Proof.
  intros R Hin. destruct (live_release h l _ n R Hin) as [Ha P].
  destruct (kfree_release h l _ R Ha) as (h' & E & R'). rewrite Z.sub_simpl_r in E. by exists h'.
Qed.

(** C13.  Deallocation.  Freeing a live allocation succeeds, removes exactly that
    allocation, keeps every other one and the well-formedness of the heap, and
    leaves no two neighbouring free blocks. *)
Theorem kfree_correct (h : heap S) (l : list ablock) (p n : Z) :
  heap_repr h l -> (p - HEADER_SIZE, n) ∈ live l ->
  exists h' l', kfree h p = Some h' /\ heap_repr h' l' /\
    live l ≡ₚ (p - HEADER_SIZE, n) :: live l' /\ coalesced l'.
Proof.
  intros R Hin. destruct (kfree_live h l p n R Hin) as (h' & E & R' & P).
  exists h', (release (p - HEADER_SIZE) l). split_and!; [done..|].
  unfold release, merge_all. destruct (mark_free _ l); [done|]. apply merge_coalesced.
Qed.

(** ** Statistics *)

Definition total_of (l : list ablock) : Z := foldr (fun b n => a_size b + HEADER_SIZE + n) 0 l.

Definition used_of (l : list ablock) : Z := foldr (fun b n => (if a_free b then 0 else a_size b) + n) 0 l.

Definition free_of (l : list ablock) : Z := foldr (fun b n => (if a_free b then a_size b else 0) + n) 0 l.

Lemma totals_bound l : forall lo hi, layout lo l hi ->
  0 <= used_of l /\ 0 <= free_of l /\ used_of l + free_of l <= total_of l <= hi - lo.
Proof.
  induction l as [|b l IH]; intros lo hi L; simpl in *; [lia|]. destruct L as (? & ? & L).
  apply IH in L. unfold a_end, HEADER_SIZE in *. destruct (a_free b); lia.
Qed.

Lemma stats_chain bl l : forall curr t u f lo hi fuel,
  chain bl curr l -> layout lo l hi -> 0 < lo -> (length l < fuel)%nat ->
  0 <= t -> 0 <= u -> 0 <= f -> t + (hi - lo) < 2 ^ 64 -> u + f <= t ->
  stats_loop bl curr t u f fuel = Some (t + total_of l, u + used_of l, f + free_of l).
Proof.
  induction l as [|b l IH]; intros curr t u f lo hi [|fuel] C L Hlo Hf ????? ; simpl in *; try lia.
  { rewrite C. simpl. by rewrite !Z.add_0_r. }
  destruct C as (-> & h & E & Hs & Hfr & C). pose proof L as (? & ? & L').
  pose proof (layout_le _ _ _ L') as Hle. unfold a_end, HEADER_SIZE in *.
  rewrite (proj2 (Z.eqb_neq _ 0)) by lia. rewrite E, Hfr, Hs.
  rewrite (wrap_small 64 (a_size b + 24)) by (unfold fits; lia).
  rewrite (wrap_small 64 (t + _)) by (unfold fits; lia).
  destruct (a_free b); rewrite wrap_small by (unfold fits; lia);
    rewrite (IH _ _ _ _ (a_addr b + 24 + a_size b) hi) by (done || lia);
    f_equal; apply pair_eq; (split; [apply pair_eq; split|]); lia.
Qed.

Lemma stats_repr h l : heap_repr h l -> heap_get_stats h = Some (total_of l, used_of l, free_of l).
Proof.
  intros R. unfold heap_get_stats. pose proof (rp_base h l R). pose proof (rp_end h l R).
  rewrite (stats_chain _ l _ _ _ _ (heap_virt_base h) (heap_virt_end h)); [done|apply R|apply R|lia| |lia..].
  eapply chain_fuel; apply R.
Qed.

(** Freeing is the inverse of allocating: on a coalesced heap that can serve
    the request without growing, [kfree (kmalloc sz)] gives back the same block
    list, and with it the same statistics. *)
Theorem kmalloc_kfree_roundtrip (h : heap S) (l : list ablock) (sz : Z) :
  heap_repr h l -> coalesced l -> 0 < sz <= 2 ^ 63 -> is_Some (fit (align16 sz) l) ->
  exists h1 p h2, kmalloc h sz = Some (h1, p) /\ kfree h1 p = Some h2 /\ heap_repr h2 l /\
    heap_get_stats h2 = heap_get_stats h.
Proof.
  intros R Hc Hsz [[l' a] F]. destruct (align16_spec sz Hsz) as (Ha & Ha16 & _).
  destruct (kmalloc_found 1 h l sz l' a R) as (h1 & E & R1 & _ & _); [lia|lia|done|zmod|].
  assert (Ha' : a ∈ addrs l').
  { apply fit_split in F as (l1 & b & l2 & _ & -> & -> & _). unfold addrs. rewrite !fmap_app.
    unfold split_block. destruct (_ <=? _); set_solver. }
  destruct (kfree_release h1 l' a R1 Ha') as (h2 & E2 & R2).
  rewrite (release_fit (align16 sz) l _ _ l' a) in R2 by (done || lia || apply R).
  exists h1, (a + HEADER_SIZE), h2. split_and!; [done..|]. by rewrite !(stats_repr _ l).
Qed.
End heap.
