(* ===== verification/HeapUse.v ===== *)
(** The kernel heap in use: initialisation, the mapping of grown pages, the
    wrappers [kmalloc_aligned] and [kcalloc], requests near 2^64, and concrete
    heaps on the demonstration machine. *)
From stdpp Require Import prelude gmap list sets.
From Stdlib Require Import ZArith Lia.
From S2P Require Import Prelude Bitmap Pmm Frames Vmm VmmTree Heap HeapSpec.

Open Scope Z_scope.

Section use.
Context {S : Type} `{FL : FrameLaws S}.
Implicit Types (h : heap S) (l : list ablock).

Lemma initial_repr h n :
  heap_virt_base h = HEAP_VIRT_START -> heap_virt_end h = HEAP_VIRT_START + n * 4096 ->
  1 <= n -> HEAP_VIRT_START + n * 4096 < 2 ^ 64 -> heap_start h = HEAP_VIRT_START ->
  blocks h !! HEAP_VIRT_START = Some (Block (n * 4096 - HEADER_SIZE) 1 0) ->
  heap_repr h [ABlock HEAP_VIRT_START (n * 4096 - HEADER_SIZE) true].
Proof.
  unfold HEAP_VIRT_START. intros Eb Ee Hn Hb Es Ebl. split; rewrite ?Eb, ?Ee, ?Es; simpl.
  - split; [done|]. eexists. by rewrite Ebl.
  - unfold a_end, HEADER_SIZE. simpl. lia.
  - lia.
  - lia.
  - zmod.
  - done.
  - repeat constructor; simpl; unfold HEADER_SIZE; zmod.
Qed.

(** Initialisation.  [heap_init(n)] either runs out of frames and leaves the
    heap without blocks as before, or builds a well-formed heap that is one free
    block spanning the [n] mapped pages. *)
Theorem heap_init_correct (h : heap S) (n : Z) :
  1 <= n -> HEAP_VIRT_START + n * 4096 < 2 ^ 64 ->
  let h' := heap_init h n in
  heap_repr h' [ABlock HEAP_VIRT_START (n * 4096 - HEADER_SIZE) true] \/
  (blocks h' = blocks h /\ heap_start h' = heap_start h).
Proof.
  unfold HEAP_VIRT_START. intros Hn Hb. unfold heap_init, HEAP_VIRT_START. cbv zeta.
  match goal with |- context [heap_grow ?x _] => pose proof (heap_grow_spec (Z.to_nat n) x) as G end.
  simpl in G. rewrite Z2Nat.id in G by lia. specialize (G ltac:(lia) Hb).
  destruct (heap_grow _ _) as [h2 r].
  destruct G as [(-> & Es & Eb & Ebl & _ & Ee)|(-> & k & _ & Es & Eb & Ebl & _)]; simpl in *; [left|by right].
  rewrite Eb. rewrite (wrap_small 64 (n * 4096)) by (unfold fits; lia).
  rewrite wrap_small by (unfold fits, HEADER_SIZE; lia).
  apply initial_repr; simpl; [done|by rewrite Ee|done|exact Hb|done|]. by rewrite lookup_insert_eq.
Qed.

(** A request within 15 bytes of 2^64: [(size + 15) & ~15] wraps to 0, so any
    heap with a free block serves it with an area smaller than asked for. *)
Theorem kmalloc_wraps (h : heap S) (l : list ablock) (sz : Z) :
  heap_repr h l -> 2 ^ 64 - 15 <= sz < 2 ^ 64 -> Exists (fun b => a_free b = true) l ->
  exists h' p l' n, kmalloc h sz = Some (h', p) /\ p <> 0 /\ heap_repr h' l' /\
    live l' ≡ₚ (p - HEADER_SIZE, n) :: live l /\ n < sz.
Proof.
  intros R Hsz Hex. assert (E0 : align16 sz = 0).
  { rewrite align16_eq. unfold wrap. replace ((sz + 15) mod 2 ^ 64) with (sz + 15 - 2 ^ 64) by zmod. zmod. }
  assert (F : exists l' a, fit (align16 sz) l = Some (l', a)).
  { rewrite E0. pose proof (rp_layout h l R) as L. revert L. generalize (heap_virt_base h). clear R.
    induction l as [|b l IH]; intros lo L; [by apply Exists_nil in Hex|]. destruct L as (_ & Hs & L). simpl.
    destruct (a_free b) eqn:Ef; simpl.
    - rewrite (proj2 (Z.leb_le _ _) Hs). by eexists _, _.
    - apply Exists_cons in Hex as [?|Hex]; [congruence|]. destruct (IH Hex _ L) as (l' & a & ->). by eexists _, _. }
  destruct F as (l' & a & F).
  destruct (kmalloc_found 1 h l sz l' a R) as (h' & E & R' & Eb & Ee); [lia|by rewrite E0|done|by rewrite E0|].
  destruct (fit_live _ _ _ _ F) as (n & _ & P).
  exists h', (a + HEADER_SIZE), l', n. rewrite Z.add_simpl_r.
  assert (Hin : ABlock a n false ∈ l') by (apply elem_of_live; rewrite P; by left).
  destruct (layout_addr _ _ _ _ (rp_layout h' l' R') Hin) as (B1 & _ & B2).
  pose proof (rp_base h' l' R'). pose proof (rp_end h' l' R').
  unfold a_end, HEADER_SIZE in *. simpl in *. split_and!; [done|lia|done|done|lia].
Qed.

(** ** Aligned allocation *)

Lemma align_up_pow2 k x : 0 <= k -> 0 <= x -> x + 2 ^ k < 2 ^ 64 ->
  let y := Z.ldiff (u64 (u64 (x + 2 ^ k) - 1)) (2 ^ k - 1) in
  y mod 2 ^ k = 0 /\ x <= y < x + 2 ^ k.
Proof.
  intros Hk Hx Hb. pose proof (Z.pow_pos_nonneg 2 k ltac:(lia) Hk).
  rewrite (wrap_small 64 (x + _)) by (unfold fits; lia). rewrite wrap_small by (unfold fits; lia).
  replace (2 ^ k - 1) with (Z.ones k) by (rewrite Z.ones_equiv; lia).
  rewrite Z.ldiff_ones_r, Z.shiftl_mul_pow2, Z.shiftr_div_pow2 by lia. simpl. split; [by apply Z.mod_mul; lia|].
  pose proof (Z.div_mod (x + 2 ^ k - 1) (2 ^ k)). pose proof (Z.mod_pos_bound (x + 2 ^ k - 1) (2 ^ k)). lia.
Qed.

(** Aligned allocation.  For an alignment [2^k] above 16, the pointer returned
    is aligned, its [size] bytes and the word in front of it lie inside one new
    live allocation, and that word holds the pointer [kmalloc] returned. *)
Theorem kmalloc_aligned_correct (h : heap S) (l : list ablock) (sz k : Z) :
  heap_repr h l -> 5 <= k -> 0 < sz -> sz + 2 ^ k + 8 <= 2 ^ 63 ->
  heap_virt_end h + grow_pages (align16 (sz + 2 ^ k + 8)) * 4096 + 2 ^ k < 2 ^ 64 ->
  exists h' p, kmalloc_aligned h sz (2 ^ k) = Some (h', p) /\
  (p = 0 \/ exists l' raw n, heap_repr h' l' /\ live l' ≡ₚ (raw - HEADER_SIZE, n) :: live l /\
     p mod 2 ^ k = 0 /\ raw <= p - 8 /\ p + sz <= raw + n /\ cells h' !! (p - 8) = Some raw).
Proof.
  intros R Hk Hsz Hmax Hend. pose proof (Z.pow_le_mono_r 2 5 k ltac:(lia) Hk) as H32.
  change (2 ^ 5) with 32 in H32. unfold kmalloc_aligned. rewrite (proj2 (Z.leb_gt _ _)) by lia.
  rewrite (wrap_small 64 (sz + 2 ^ k)) by (unfold fits; lia). rewrite (wrap_small 64 (_ + 8)) by (unfold fits; lia).
  destruct (align16_spec (sz + 2 ^ k + 8)) as (Ha & _); [lia|].
  destruct (kmalloc_cases h l (sz + 2 ^ k + 8) R) as (h1 & raw & -> & Eb & [(-> & _ & _)|(l0 & l' & R' & F & L & Hl)]); [lia..| |].
  { exists h1, 0. split; [done|by left]. }
  destruct (fit_live _ _ _ _ F) as (n & Hn & P). rewrite Hl in P.
  assert (Hin : ABlock (raw - HEADER_SIZE) n false ∈ l') by (apply elem_of_live; rewrite P; by left).
  destruct (layout_addr _ _ _ _ (rp_layout h1 l' R') Hin) as (B1 & _ & B2).
  pose proof (rp_base h1 l' R'). pose proof (rp_end h1 l' R').
  unfold a_end, HEADER_SIZE in *. simpl in *. rewrite (proj2 (Z.eqb_neq raw 0)) by lia.
  rewrite (wrap_small 64 (raw + 8)) by (unfold fits; lia).
  destruct (align_up_pow2 k (raw + 8)) as [Hm Hr]; [lia..|]. simpl in Hm, Hr.
  set (p := Z.ldiff _ _) in *. eexists _, p. split; [done|]. right. exists l', raw, n.
  split_and!; [|done|done|lia|lia|by apply lookup_insert_eq]. by destruct R'.
Qed.

(** [kcalloc] returns memory whose words read as zero. *)
Theorem kcalloc_zero (h : heap S) (count sz : Z) (h' : heap S) (p : Z) :
  kcalloc h count sz = Some (h', p) -> p <> 0 ->
  forall a, p <= a < p + u64 (count * sz) -> mem_read (cells h') a = 0.
Proof.
  unfold kcalloc. destruct (kmalloc h _) as [[h1 ptr]|]; [|done]. destruct (Z.eqb_spec ptr 0); simpl.
  - by intros [= <- <-].
  - intros [= <- <-] _ a Ha. simpl. rewrite mem_read_zero. by rewrite bool_decide_eq_true_2.
Qed.

(** ** Grown pages are mapped *)

Definition pages_between (lo : Z) (i : nat) : Z := lo + Z.of_nat i * 4096.

(** The pages [lo .. lo + n*4096) meet no huge page. *)
Definition range_plain (m : vmm S) (lo : Z) (n : nat) : Prop :=
  forall i, (i < n)%nat -> no_huge m (pages_between lo i).

Lemma distinct_pages lo i j :
  0 <= lo -> 0 <= i < j -> lo + j * 4096 < 2 ^ 64 -> j - i < 2 ^ 36 ->
  ~ same_page (lo + i * 4096) (lo + j * 4096).
Proof.
  intros Hlo Hij Hb Hd. unfold same_page. rewrite !Z.div_add by lia. zmod.
Qed.


(** One page of [heap_grow]: a fresh frame mapped at [v]. *)
Lemma grow_step (m : vmm S) s1 phys v flags :
  space_ok m -> no_huge m v -> alloc_page (store m) = (s1, phys) -> phys <> 0 ->
  let m2 := vmm_map_page (set_store m s1) v phys flags in
  space_ok m2 /\ is_frame phys /\ (forall b, frame_free (store m2) b -> frame_free (store m) b) /\
  (forall w, no_huge m w -> no_huge m2 w) /\
  ((exists b, frame_free (store m2) b) ->
   forall w, entry_of m2 w = if decide (same_page v w) then Z.lor (Z.land phys ADDR_MASK) flags else entry_of m w).
Proof.
  intros [Ok W] Hh Ea Hne m2. pose proof (alloc_fresh _ _ _ Ok Ea Hne) as F.
  destruct (fresh_data_extends _ _ _ s1 _ W F (fr_ok _ _ _ F)) as [X _]; [done..|].
  assert (Hs1 : space_ok (set_store m s1)) by (split; apply X).
  assert (Hh1 : forall w, no_huge m w -> no_huge (set_store m s1) w) by (intros w; apply X).
  destruct (map_page_cases (set_store m s1) v phys flags Hs1 (Hh1 v Hh)) as (Hs2 & Hc & _ & C). fold m2 in Hs2, Hc, C.
  split_and!; [done|apply (fr_frame _ _ _ F)| | |].
  - intros b Hb. apply X. destruct C as [(_ & _ & _ & Hf & _)|[_ X2]]; [by apply Hf|by apply X2].
  - intros w Hw%Hh1. destruct C as [(_ & Hf & _)|[_ X2]]; [by apply Hf|].
    unfold no_huge, get_current_pml4. rewrite Hc. by apply X2.
  - intros [b Hb] w. destruct C as [(He & _)|[N _]]; [|by destruct (N b)].
    rewrite He. case_decide; [done|]. apply X.
Qed.

Lemma grow_free n : forall h, space_ok (space h) -> range_plain (space h) (heap_virt_end h) n ->
  0 <= heap_virt_end h -> heap_virt_end h + Z.of_nat n * 4096 < 2 ^ 64 ->
  forall b, frame_free (store (space (heap_grow h n).1)) b -> frame_free (store (space h)) b.
Proof.
  induction n as [|n IH]; intros h Hs Hp H0 Hb b; simpl; [done|].
  destruct (alloc_page _) as [s1 phys] eqn:Ea. destruct (Z.eqb_spec phys 0) as [->|Hne]; simpl.
  { destruct Hs as [Ok _]. by destruct (alloc_page_none _ _ Ok Ea) as [-> _]. }
  assert (Hv : no_huge (space h) (heap_virt_end h)).
  { specialize (Hp 0%nat ltac:(lia)). unfold pages_between in Hp. by rewrite Z.add_0_r in Hp. }
  destruct (grow_step _ _ _ (heap_virt_end h) (Z.lor (Z.lor PAGE_PRESENT PAGE_WRITABLE) PAGE_NX) Hs Hv Ea Hne)
    as (Hs2 & _ & Hf & Hh & _).
  intros Hb'. apply Hf. revert Hb'. rewrite wrap_small by (unfold fits; lia).
  match goal with |- context [heap_grow ?x n] => apply (IH x) end; simpl; [done| |lia..].
  intros i Hi. apply Hh. specialize (Hp (Datatypes.S i) ltac:(lia)). unfold pages_between in *.
  by replace (heap_virt_end h + 4096 + Z.of_nat i * 4096) with (heap_virt_end h + Z.of_nat (Datatypes.S i) * 4096) by lia.
Qed.

Lemma grow_entries n : forall h h',
  space_ok (space h) -> range_plain (space h) (heap_virt_end h) n ->
  0 <= heap_virt_end h -> heap_virt_end h + Z.of_nat n * 4096 < 2 ^ 64 -> Z.of_nat n <= 2 ^ 35 ->
  heap_grow h n = (h', 0) -> (exists b, frame_free (store (space h')) b) ->
  (forall w, no_huge (space h) w -> no_huge (space h') w) /\
  (forall w, (forall i, (i < n)%nat -> ~ same_page (pages_between (heap_virt_end h) i) w) ->
     entry_of (space h') w = entry_of (space h) w) /\
  (forall i, (i < n)%nat -> exists f, is_frame f /\
     entry_of (space h') (pages_between (heap_virt_end h) i) =
       Z.lor f (Z.lor (Z.lor PAGE_PRESENT PAGE_WRITABLE) PAGE_NX)).
Proof.
  induction n as [|n IH]; intros h h' Hs Hp H0 Hb Hn; simpl.
  { intros [= <-] _. split_and!; [done|done|]. intros i Hi. lia. }
  destruct (alloc_page _) as [s1 phys] eqn:Ea. destruct (Z.eqb_spec phys 0) as [->|Hne]; simpl; [done|].
  assert (E0 : pages_between (heap_virt_end h) 0 = heap_virt_end h) by (unfold pages_between; lia).
  assert (Hv : no_huge (space h) (heap_virt_end h)) by (rewrite <- E0; apply Hp; lia).
  destruct (grow_step _ _ _ (heap_virt_end h) (Z.lor (Z.lor PAGE_PRESENT PAGE_WRITABLE) PAGE_NX) Hs Hv Ea Hne)
    as (Hs2 & [Fa Fr] & _ & Hh & He).
  rewrite wrap_small by (unfold fits; lia). intros Eg [b Hfb].
  match type of Eg with heap_grow ?x _ = _ => set (h1 := x) in Eg end.
  assert (Esh : forall i, pages_between (heap_virt_end h1) i = pages_between (heap_virt_end h) (Datatypes.S i)).
  { intros i. unfold pages_between, h1. simpl. lia. }
  assert (Hp1 : range_plain (space h1) (heap_virt_end h1) n).
  { intros i Hi. rewrite Esh. apply Hh, Hp. lia. }
  assert (Hf1 : frame_free (store (space h1)) b).
  { apply (grow_free n h1); [done..|simpl; lia|simpl; lia|]. by rewrite Eg. }
  specialize (He (ex_intro _ b Hf1)). change (vmm_map_page _ _ _ _) with (space h1) in He.
  destruct (IH h1 h' Hs2 Hp1) as (I1 & I2 & I3); [simpl; lia..|done|by exists b|]. split_and!.
  - auto.
  - intros w Hw. rewrite I2 by (intros i Hi; rewrite Esh; apply Hw; lia).
    rewrite He, decide_False; [done|]. rewrite <- E0. apply Hw. lia.
  - intros [|i] Hi.
    + rewrite I2. 2: { intros i Hi' Hsp. rewrite Esh in Hsp.
        apply (distinct_pages (heap_virt_end h) 0 (Z.of_nat (Datatypes.S i))); [lia..|].
        symmetry. unfold pages_between in Hsp. exact Hsp. }
      rewrite He, E0, decide_True by done. exists phys. split; [done|]. by rewrite mask_frame by lia.
    + rewrite <- Esh. apply I3. lia.
Qed.

(** Growth maps what it promises: if [heap_grow] reports success and memory is
    not exhausted at that point, every page of the new range translates, to a
    frame of RAM, and no other page of the address space changed.  (When the
    allocator runs dry inside [vmm_map_page], [heap_grow] still reports
    success.) *)
Theorem heap_grow_maps (h h' : heap S) (n : nat) :
  space_ok (space h) -> range_plain (space h) (heap_virt_end h) n ->
  0 <= heap_virt_end h -> heap_virt_end h mod 4096 = 0 ->
  heap_virt_end h + Z.of_nat n * 4096 < 2 ^ 64 -> Z.of_nat n <= 2 ^ 35 ->
  heap_grow h n = (h', 0) -> (exists b, frame_free (store (space h')) b) ->
  (forall i, (i < n)%nat -> is_frame (vmm_get_phys (space h') (pages_between (heap_virt_end h) i))) /\
  (forall w, no_huge (space h) w -> (forall i, (i < n)%nat -> ~ same_page (pages_between (heap_virt_end h) i) w) ->
     vmm_get_phys (space h') w = vmm_get_phys (space h) w).
Proof.
  intros Hs Hp H0 Ha Hb Hn Eg Hf.
  destruct (grow_entries n h h' Hs Hp H0 Hb Hn Eg Hf) as (I1 & I2 & I3). split.
  - intros i Hi. rewrite get_phys_entry by (apply I1, Hp, Hi). destruct (I3 i Hi) as (f & [Fa Fr] & ->).
    rewrite entry_flag by done. simpl. rewrite entry_addr by (done || lia).
    replace (Z.land (pages_between (heap_virt_end h) i) 4095) with 0; [by rewrite Z.lor_0_r|].
    symmetry. apply land_low; [unfold pages_between; zmod|lia].
  - intros w Hw Hd. by rewrite !get_phys_entry, I2 by auto.
Qed.
End use.

(** ** Instances *)

Definition demo_heap0 : heap pmm := Heap 0 0 0 0 ∅ ∅ (Vmm demo_root_store demo_root 0).

Definition demo_heap : heap pmm := heap_init demo_heap0 4.

Definition demo_list : list ablock := [ABlock HEAP_VIRT_START (4 * 4096 - HEADER_SIZE) true].

(** The demonstration heap after one allocation of 100 bytes. *)
Definition demo_heap1 : heap pmm := (default (demo_heap, 0) (kmalloc demo_heap 100)).1.

Definition demo_list1 : list ablock :=
  [ABlock HEAP_VIRT_START 112 false; ABlock (HEAP_VIRT_START + 136) (4 * 4096 - 160) true].

Lemma demo_heap_repr : heap_repr demo_heap demo_list.
Proof. apply initial_repr; vm_compute; try reflexivity; discriminate. Qed.

Lemma demo_heap1_repr : heap_repr demo_heap1 demo_list1.
Proof.
  split; try (vm_compute; (reflexivity || discriminate)).
  - split; [vm_compute; reflexivity|]. eexists. split; [vm_compute; reflexivity|].
    split; [reflexivity|]. split; [reflexivity|]. split; [vm_compute; reflexivity|].
    eexists. split; [vm_compute; reflexivity|]. split; [reflexivity|]. split; [reflexivity|]. vm_compute; reflexivity.
  - vm_compute. repeat split; discriminate.
  - repeat constructor; vm_compute; reflexivity.
Qed.

Lemma heap_init_correct_witness :
  heap_repr demo_heap demo_list \/ (blocks demo_heap = ∅ /\ heap_start demo_heap = 0).
Proof. apply (heap_init_correct demo_heap0 4); vm_compute; (reflexivity || discriminate). Defined.

Lemma kmalloc_correct_witness :
  exists h' p, kmalloc demo_heap1 5000 = Some (h', p) /\ (p = 0 \/ p mod 8 = 0).
Proof.
  destruct (kmalloc_correct demo_heap1 demo_list1 5000 demo_heap1_repr) as (h' & p & E & C);
    [lia|vm_compute; reflexivity|].
  exists h', p. split; [exact E|]. destruct C as [[-> _]|(l' & n & _ & _ & _ & Hm & _)]; [left; reflexivity|right; exact Hm].
Defined.

Lemma kfree_correct_witness :
  exists h', kfree demo_heap1 (HEAP_VIRT_START + 24) = Some h' /\
    exists l', heap_repr h' l' /\ coalesced l'.
Proof.
  destruct (kfree_correct demo_heap1 demo_list1 (HEAP_VIRT_START + 24) 112 demo_heap1_repr)
    as (h' & l' & E & R & _ & C); [vm_compute; left|].
  exists h'. split; [exact E|]. exists l'. split; [exact R|exact C].
Defined.

Lemma kmalloc_kfree_roundtrip_witness :
  exists h1 p h2, kmalloc demo_heap1 200 = Some (h1, p) /\ kfree h1 p = Some h2 /\
    heap_get_stats h2 = heap_get_stats demo_heap1.
Proof.
  destruct (kmalloc_kfree_roundtrip demo_heap1 demo_list1 200 demo_heap1_repr) as (h1 & p & h2 & E1 & E2 & _ & E3);
    [split; [reflexivity|exact I]|lia|eexists; vm_compute; reflexivity|].
  exists h1, p, h2. split; [exact E1|split; [exact E2|exact E3]].
Defined.

Lemma kmalloc_wraps_witness :
  exists h' p, kmalloc demo_heap (2 ^ 64 - 1) = Some (h', p) /\ p <> 0.
Proof.
  destruct (kmalloc_wraps demo_heap demo_list (2 ^ 64 - 1) demo_heap_repr) as (h' & p & l' & n & E & Hp & _);
    [lia|constructor; reflexivity|].
  exists h', p. split; [exact E|exact Hp].
Defined.

Lemma kmalloc_aligned_correct_witness :
  exists h' p, kmalloc_aligned demo_heap 100 (2 ^ 6) = Some (h', p) /\ (p = 0 \/ p mod 2 ^ 6 = 0).
Proof.
  destruct (kmalloc_aligned_correct demo_heap demo_list 100 6 demo_heap_repr) as (h' & p & E & C);
    [lia|lia|lia|vm_compute; reflexivity|].
  exists h', p. split; [exact E|]. destruct C as [->|(l' & raw & n & _ & _ & Hm & _)]; [left; reflexivity|right; exact Hm].
Defined.

Lemma heap_grow_maps_witness :
  exists h', heap_grow (set_space demo_heap0 HEAP_VIRT_START (space demo_heap0)) 3 = (h', 0) /\
    is_frame (vmm_get_phys (space h') (HEAP_VIRT_START + 8192)).
Proof.
  set (h := set_space demo_heap0 HEAP_VIRT_START (space demo_heap0)).
  exists (heap_grow h 3).1. assert (E : heap_grow h 3 = ((heap_grow h 3).1, 0)) by (vm_compute; reflexivity).
  split; [exact E|]. destruct demo_root_ok as [Hs Hh].
  destruct (heap_grow_maps h (heap_grow h 3).1 3 Hs) as [M _];
    [intros i _; apply Hh|vm_compute; discriminate|vm_compute; reflexivity|vm_compute; reflexivity|vm_compute; discriminate
    |exact E|exists (13 * 4096); vm_compute; repeat split; discriminate|].
  apply (M 2%nat). lia.
Defined.

(** The bound on the alignment that skips the adjustment is 16, but headers are
    24 bytes: the first allocation of a heap is 8 modulo 16; and a pointer from
    the adjusting branch cannot be given to [kfree], which looks for a header
    24 bytes below it. *)
Theorem kmalloc_aligned_limits :
  (exists h' p, kmalloc_aligned demo_heap 64 16 = Some (h', p) /\ p mod 16 = 8) /\
  (exists h' p, kmalloc_aligned demo_heap 64 4096 = Some (h', p) /\ p <> 0 /\ kfree h' p = None).
Proof.
  split.
  - eexists _, _. split; vm_compute; reflexivity.
  - eexists _, _. split; [vm_compute; reflexivity|]. split; [vm_compute; discriminate|vm_compute; reflexivity].
Qed.
