(* ===== verification/Task.v ===== *)
(** Threads, processes and memory areas: the data of kernel/src/sched/thread.h
    and process.h, and the state of the scheduler.

    A pointer is an address, 0 for NULL; the objects behind the pointers of one
    type are a finite map from addresses.  The scheduler's statics, the globals
    [current_thread] and [current_process] and the CPU registers it writes are
    the record [sched].  The field [ustack_virt_top] of [thread_t], which no code
    reads or writes, is left out. *)
From stdpp Require Import prelude gmap list.
From Stdlib Require Import ZArith Lia.
From S2P Require Import Prelude.

Open Scope Z_scope.

Inductive thread_state :=
| THREAD_READY
| THREAD_RUNNING
| THREAD_BLOCKED
| THREAD_SLEEPING
| THREAD_DEAD.

#[export] Instance thread_state_eq_dec : EqDecision thread_state.
Proof. solve_decision. Defined.

Record thread := Thread {
  tid : Z;
  state : thread_state;
  priority : Z;
  kstack_phys : Z;
  kstack_virt : Z;
  kstack_rsp : Z;
  sleep_until_ms : Z;
  next_in_proc : Z;
  next_in_queue : Z;
  process_of : Z
}.

Inductive proc_state := PROC_ALIVE | PROC_ZOMBIE | PROC_DEAD.

#[export] Instance proc_state_eq_dec : EqDecision proc_state.
Proof. solve_decision. Defined.

Record process := Process {
  pid : Z;
  ppid : Z;
  pstate : proc_state;
  uid : Z;
  gid : Z;
  euid : Z;
  egid : Z;
  proc_cr3 : Z;
  proc_threads : Z;
  thread_count : Z;
  fd_table : Z;
  cwd : Z;
  exit_code : Z;
  heap_base : Z;
  heap_end : Z;
  stack_top_virt : Z;
  stack_limit_virt : Z;
  vmas : Z;
  next_proc : Z
}.

Record vma := Vma { virt_start : Z; virt_end : Z; vma_flags : Z; next_vma : Z }.

(** Scheduling constants of kernel/src/config/nexus_config.h. *)
Definition SCHED_QUANTUM_MS : Z := 10.

Definition SCHED_PRIORITY_IDLE : Z := 0.

Definition SCHED_PRIORITY_NORMAL : Z := 4.

Definition SCHED_NUM_PRIORITIES : Z := 8.

Definition THREAD_KERNEL_STACK_SIZE : Z := 4096.

Definition PROC_USER_STACK_MAX : Z := 8 * 1024 * 1024.

(** What the scheduler writes of the CPU, with the two globals that say what it
    runs. *)
Record cpu_state := Cpu {
  current_thread : Z;
  current_process : Z;
  cpu_cr3 : Z;
  cpu_rsp : Z;
  tss_rsp0 : Z;
  kernel_rsp_scratch : Z
}.

Record sched := Sched {
  threads : gmap Z thread;
  procs : gmap Z process;
  ready_head : list Z;
  ready_tail : list Z;
  cpu : cpu_state;
  tick_counter : Z;
  sched_active : Z;
  sched_lock : Z;
  idle_thread : Z;
  pit_ticks : Z
}.

(** ** Field updates *)

Definition set_state (t : thread) (st : thread_state) : thread :=
  Thread (tid t) st (priority t) (kstack_phys t) (kstack_virt t) (kstack_rsp t)
         (sleep_until_ms t) (next_in_proc t) (next_in_queue t) (process_of t).

Definition set_next_in_queue (t : thread) (n : Z) : thread :=
  Thread (tid t) (state t) (priority t) (kstack_phys t) (kstack_virt t) (kstack_rsp t)
         (sleep_until_ms t) (next_in_proc t) n (process_of t).

Definition set_kstack_rsp (t : thread) (r : Z) : thread :=
  Thread (tid t) (state t) (priority t) (kstack_phys t) (kstack_virt t) r
         (sleep_until_ms t) (next_in_proc t) (next_in_queue t) (process_of t).

Definition set_sleep_until (t : thread) (ms : Z) : thread :=
  Thread (tid t) (state t) (priority t) (kstack_phys t) (kstack_virt t) (kstack_rsp t)
         ms (next_in_proc t) (next_in_queue t) (process_of t).

Definition set_priority (t : thread) (p : Z) : thread :=
  Thread (tid t) (state t) p (kstack_phys t) (kstack_virt t) (kstack_rsp t)
         (sleep_until_ms t) (next_in_proc t) (next_in_queue t) (process_of t).

Definition set_threads (k : sched) (m : gmap Z thread) : sched :=
  Sched m (procs k) (ready_head k) (ready_tail k) (cpu k) (tick_counter k) (sched_active k)
        (sched_lock k) (idle_thread k) (pit_ticks k).

Definition set_procs (k : sched) (m : gmap Z process) : sched :=
  Sched (threads k) m (ready_head k) (ready_tail k) (cpu k) (tick_counter k) (sched_active k)
        (sched_lock k) (idle_thread k) (pit_ticks k).

Definition set_queues (k : sched) (h t : list Z) : sched :=
  Sched (threads k) (procs k) h t (cpu k) (tick_counter k) (sched_active k)
        (sched_lock k) (idle_thread k) (pit_ticks k).

Definition set_cpu (k : sched) (c : cpu_state) : sched :=
  Sched (threads k) (procs k) (ready_head k) (ready_tail k) c (tick_counter k) (sched_active k)
        (sched_lock k) (idle_thread k) (pit_ticks k).

Definition set_tick_counter (k : sched) (n : Z) : sched :=
  Sched (threads k) (procs k) (ready_head k) (ready_tail k) (cpu k) n (sched_active k)
        (sched_lock k) (idle_thread k) (pit_ticks k).

Definition set_sched_lock (k : sched) (n : Z) : sched :=
  Sched (threads k) (procs k) (ready_head k) (ready_tail k) (cpu k) (tick_counter k) (sched_active k)
        n (idle_thread k) (pit_ticks k).

Definition set_sched_active (k : sched) (n : Z) : sched :=
  Sched (threads k) (procs k) (ready_head k) (ready_tail k) (cpu k) (tick_counter k) n
        (sched_lock k) (idle_thread k) (pit_ticks k).

Definition set_idle_thread (k : sched) (n : Z) : sched :=
  Sched (threads k) (procs k) (ready_head k) (ready_tail k) (cpu k) (tick_counter k) (sched_active k)
        (sched_lock k) n (pit_ticks k).

Definition set_pit_ticks (k : sched) (n : Z) : sched :=
  Sched (threads k) (procs k) (ready_head k) (ready_tail k) (cpu k) (tick_counter k) (sched_active k)
        (sched_lock k) (idle_thread k) n.

(** Writing through a pointer to a thread: [None] is a write through a pointer
    to no thread. *)
Definition upd_thread (k : sched) (t : Z) (f : thread -> thread) : option sched :=
  match threads k !! t with
  | Some th => Some (set_threads k (<[t := f th]> (threads k)))
  | None => None
  end.
