(* ===== verification/Sched.v ===== *)
(** The scheduler, kernel/src/sched/scheduler.c: eight FIFO run queues linked
    through [next_in_queue], the choice of the next thread, the switch, and the
    blocking, waking and ticking around it.

    Every operation is a function [sched -> option sched]; [None] is an access
    through a pointer that points to no thread or process.  [schedule] covers
    the whole call as the CPU sees it: after the switch the resumed thread
    continues after [switch_context] (or in [thread_entry_stub]), and in both
    cases the first thing it does is [sched_lock = 0]. *)
From stdpp Require Import prelude gmap list.
From Stdlib Require Import ZArith Lia.
From S2P Require Import Prelude Task.

Open Scope Z_scope.

(** The queue index of a thread. *)
Definition queue_of (th : thread) : Z :=
  let pri := priority th in
  if SCHED_NUM_PRIORITIES <=? pri then SCHED_PRIORITY_NORMAL else pri.

Definition scheduler_enqueue (k : sched) (t : Z) : option sched :=
  if t =? 0 then Some k
  else
    th ← threads k !! t;
    let pri := queue_of th in
    k1 ← upd_thread k t (fun th => set_next_in_queue th 0);
    k2 ←
      (if aget 0 (ready_head k1) pri =? 0 then
         Some (set_queues k1 (aset (ready_head k1) pri t) (aset (ready_tail k1) pri t))
       else
         k1' ← upd_thread k1 (aget 0 (ready_tail k1) pri) (fun th => set_next_in_queue th t);
         Some (set_queues k1' (ready_head k1') (aset (ready_tail k1') pri t)));
    upd_thread k2 t (fun th => set_state th THREAD_READY).

(** The search of [scheduler_dequeue], with [prev] trailing [cur]. *)
Fixpoint dequeue_loop (k : sched) (t pri prev cur : Z) (fuel : nat) : option sched :=
  match fuel with
  | O => None
  | S fuel =>
      if cur =? 0 then Some k
      else
        c ← threads k !! cur;
        if cur =? t then
          k1 ← (if negb (prev =? 0)
                then upd_thread k prev (fun th => set_next_in_queue th (next_in_queue c))
                else Some (set_queues k (aset (ready_head k) pri (next_in_queue c)) (ready_tail k)));
          let k2 := if aget 0 (ready_tail k1) pri =? cur
                    then set_queues k1 (ready_head k1) (aset (ready_tail k1) pri prev) else k1 in
          upd_thread k2 cur (fun th => set_next_in_queue th 0)
        else dequeue_loop k t pri cur (next_in_queue c) fuel
  end.

(** Enough rounds for a queue that visits each thread at most once. *)
Definition queue_fuel (k : sched) : nat := S (map_size (threads k)).

Definition scheduler_dequeue (k : sched) (t : Z) : option sched :=
  if t =? 0 then Some k
  else
    th ← threads k !! t;
    let pri := queue_of th in
    dequeue_loop k t pri 0 (aget 0 (ready_head k) pri) (queue_fuel k).

(** The wake-up pass of [pick_next] over one queue. *)
Fixpoint wake_loop (k : sched) (t : Z) (fuel : nat) : option sched :=
  match fuel with
  | O => None
  | S fuel =>
      if t =? 0 then Some k
      else
        th ← threads k !! t;
        let next := next_in_queue th in
        k' ← (if bool_decide (state th = THREAD_SLEEPING) && (sleep_until_ms th <=? pit_ticks k) then
                k1 ← scheduler_dequeue k t;
                k2 ← upd_thread k1 t (fun th => set_state th THREAD_READY);
                scheduler_enqueue k2 t
              else Some k);
        wake_loop k' next fuel
  end.

(** The loop over the priorities, from [pri] down to 0 ([n = pri + 1]). *)
Fixpoint pick_loop (k : sched) (n : nat) : option (sched * Z) :=
  match n with
  | O => Some (k, 0)
  | S n =>
      let pri := Z.of_nat n in
      k1 ← wake_loop k (aget 0 (ready_head k) pri) (2 * queue_fuel k)%nat;
      let chosen := aget 0 (ready_head k1) pri in
      if negb (chosen =? 0) then
        k2 ← scheduler_dequeue k1 chosen;
        Some (k2, chosen)
      else pick_loop k1 n
  end.

Definition pick_next (k : sched) : option (sched * Z) :=
  pick_loop k (Z.to_nat SCHED_NUM_PRIORITIES).

(** context.asm: the return address is pushed by the call, then six registers;
    RSP is saved in the old thread and loaded from the new one, whose frame is
    popped. *)
Definition switch_context (k : sched) (old next : Z) : option sched :=
  nt ← threads k !! next;
  k1 ← upd_thread k old (fun th => set_kstack_rsp th (cpu_rsp (cpu k) - 56));
  let c := cpu k1 in
  Some (set_cpu k1 (Cpu (current_thread c) (current_process c) (cpu_cr3 c) (kstack_rsp nt + 56)
                        (tss_rsp0 c) (kernel_rsp_scratch c))).

(** The part of [schedule] after the choice: switch from [old] to [next]. *)
Definition switch_to (k : sched) (old next : Z) : option sched :=
  k1 ←
    (if negb (old =? 0) then
       ot ← threads k !! old;
       if bool_decide (state ot = THREAD_RUNNING) then
         k' ← upd_thread k old (fun th => set_state th THREAD_READY);
         scheduler_enqueue k' old
       else Some k
     else Some k);
  k2 ← upd_thread k1 next (fun th => set_state th THREAD_RUNNING);
  nt ← threads k2 !! next;
  let c := cpu k2 in
  let c1 := Cpu next (process_of nt) (cpu_cr3 c) (cpu_rsp c) (kstack_virt nt) (kstack_virt nt) in
  if negb (old =? 0) then
    ot ← threads k2 !! old;
    c2 ←
      (if negb (process_of ot =? 0) && negb (process_of nt =? process_of ot) then
         np ← procs k2 !! process_of nt;
         Some (Cpu next (process_of nt) (proc_cr3 np) (cpu_rsp c) (kstack_virt nt) (kstack_virt nt))
       else Some c1);
    switch_context (set_cpu k2 c2) old next
  else
    Some (set_cpu k2 (Cpu next (process_of nt) (cpu_cr3 c) (kstack_rsp nt + 56)
                          (kstack_virt nt) (kstack_virt nt))).

Definition schedule (k : sched) : option sched :=
  if nonzero (sched_lock k) then Some k
  else
    let k0 := set_sched_lock k 1 in
    let old := current_thread (cpu k0) in
    '(k1, picked) ← pick_next k0;
    if (picked =? 0) && (old =? idle_thread k1) then Some (set_sched_lock k1 0)
    else
      let next := if picked =? 0 then idle_thread k1 else picked in
      if next =? old then
        k2 ← scheduler_enqueue k1 next;
        Some (set_sched_lock k2 0)
      else
        k2 ← switch_to k1 old next;
        Some (set_sched_lock k2 0).

Definition scheduler_tick (k : sched) : option sched :=
  let k1 := set_tick_counter k (u64 (tick_counter k + 1)) in
  if SCHED_QUANTUM_MS <=? tick_counter k1 then schedule (set_tick_counter k1 0) else Some k1.

(** The IRQ0 handler; [pit_tick_increment] is the tick count here. *)
Definition scheduler_timer_handler (k : sched) : option sched :=
  let k1 := set_pit_ticks k (u64 (pit_ticks k + 1)) in
  if negb (nonzero (sched_active k1)) then Some k1 else scheduler_tick k1.

Definition scheduler_block (k : sched) (reason : thread_state) : option sched :=
  let t := current_thread (cpu k) in
  if t =? 0 then Some k
  else
    k1 ← upd_thread k t (fun th => set_state th reason);
    k2 ← scheduler_dequeue k1 t;
    schedule k2.

Definition scheduler_wake (k : sched) (t : Z) : option sched :=
  if t =? 0 then Some k
  else
    th ← threads k !! t;
    if bool_decide (state th = THREAD_BLOCKED) || bool_decide (state th = THREAD_SLEEPING) then
      k1 ← upd_thread k t (fun th => set_state th THREAD_READY);
      scheduler_enqueue k1 t
    else Some k.

(** kernel/src/sched/thread.c. *)
Definition thread_sleep_ms (k : sched) (ms : Z) : option sched :=
  let t := current_thread (cpu k) in
  if t =? 0 then Some k
  else
    k1 ← upd_thread k t (fun th => set_sleep_until th (u64 (pit_ticks k + ms)));
    scheduler_block k1 THREAD_SLEEPING.

(** The start of scheduling, up to the jump into the first thread. *)
Definition scheduler_start (k : sched) : option sched :=
  '(k1, picked) ← pick_next k;
  let first := if picked =? 0 then idle_thread k1 else picked in
  k2 ← upd_thread k1 first (fun th => set_state th THREAD_RUNNING);
  ft ← threads k2 !! first;
  fp ← procs k2 !! process_of ft;
  Some (set_sched_active
    (set_cpu k2 (Cpu first (process_of ft) (proc_cr3 fp) (kstack_rsp ft + 56) (kstack_virt ft) (kstack_virt ft))) 1).

Definition scheduler_current_thread (k : sched) : Z := current_thread (cpu k).

Definition scheduler_current_process (k : sched) : Z := current_process (cpu k).
