(* ===== verification/SchedSpec.v ===== *)
(** The run queues of the scheduler (file Sched) as lists.

    [Q p] is the list of threads of priority queue [p]; [wfq k Q] says that the
    pointers of [k] represent [Q].  Enqueueing, dequeueing and the choice of the
    next thread are proved to be list operations; everything else of the state
    is shown unchanged through [frame] (all fields but queues and threads) and
    [erased] (the threads without their queue links). *)
From stdpp Require Import prelude gmap list.
From Stdlib Require Import ZArith Lia.
From S2P Require Import Prelude Task Sched.

Open Scope Z_scope.

(** The linked segment from [h] through the threads of [l] to [e]. *)
Fixpoint lseg (m : gmap Z thread) (h : Z) (l : list Z) (e : Z) : Prop :=
  match l with
  | [] => h = e
  | t :: l => h = t /\ t <> 0 /\ exists th, m !! t = Some th /\ lseg m (next_in_queue th) l e
  end.

Lemma lseg_app m l1 l2 e : forall h,
  lseg m h (l1 ++ l2) e <-> exists mid, lseg m h l1 mid /\ lseg m mid l2 e.
Proof.
  induction l1 as [|t l1 IH]; intros h; simpl.
  - split; [intros ?; by exists h|by intros (? & -> & ?)].
  - setoid_rewrite IH. naive_solver.
Qed.

Lemma lseg_agree m m' l e : forall h,
  (forall t, t ∈ l -> next_in_queue <$> m' !! t = next_in_queue <$> m !! t) -> lseg m h l e -> lseg m' h l e.
Proof.
  induction l as [|t l IH]; intros h Ha; simpl; [done|]. intros (-> & ? & th & E & L).
  pose proof (Ha t ltac:(by left)) as Ht. rewrite E in Ht.
  destruct (m' !! t) as [th'|] eqn:E'; simplify_eq/=. split_and!; [done..|]. exists th'. split; [done|].
  rewrite Ht. apply IH; [|done]. intros u Hu. apply Ha. by right.
Qed.

Lemma lseg_insert m l e h t th : t ∉ l -> lseg m h l e -> lseg (<[t := th]> m) h l e.
Proof. intros Ht. apply lseg_agree. intros u Hu. rewrite lookup_insert_ne; [done|]. by intros ->. Qed.

(** Redirecting the last link of a segment. *)
Lemma lseg_redirect m h l p pth e n :
  lseg m h (l ++ [p]) e -> NoDup (l ++ [p]) -> m !! p = Some pth ->
  lseg (<[p := set_next_in_queue pth n]> m) h (l ++ [p]) n.
Proof.
  intros (mid & L1 & L2)%lseg_app Nd Ep. apply NoDup_app in Nd as (_ & Hd & _).
  apply lseg_app. exists mid. split.
  - apply lseg_insert; [|done]. intros Hp. apply (Hd p Hp). by left.
  - destruct L2 as (-> & ? & _). split_and!; [done..|]. eexists. by rewrite lookup_insert_eq.
Qed.

(** ** What the queue operations leave alone *)

Definition frame (k : sched) : sched := set_queues (set_threads k ∅) [] [].

Definition erase (th : thread) : thread := set_next_in_queue th 0.

Definition erased (k : sched) : gmap Z thread := erase <$> threads k.

Lemma erased_lookup k t th : threads k !! t = Some th -> erased k !! t = Some (erase th).
Proof. intros E. unfold erased. by rewrite lookup_fmap, E. Qed.

Lemma erased_inv k t e : erased k !! t = Some e -> exists th, threads k !! t = Some th /\ erase th = e.
Proof. unfold erased. rewrite lookup_fmap. destruct (threads k !! t) eqn:E; simpl; naive_solver. Qed.

Lemma upd_thread_spec k t th f : threads k !! t = Some th ->
  upd_thread k t f = Some (set_threads k (<[t := f th]> (threads k))).
Proof. intros E. unfold upd_thread. by rewrite E. Qed.

Lemma erase_link (m : gmap Z thread) t th n : m !! t = Some th ->
  erase <$> <[t := set_next_in_queue th n]> m = erase <$> m.
Proof. intros E. rewrite fmap_insert. apply insert_id. by rewrite lookup_fmap, E. Qed.

(** ** Representation *)

Definition valid_pri (p : Z) : Prop := 0 <= p < 8.

Record queue_at (k : sched) (p : Z) (l : list Z) : Prop := {
  qa_seg : lseg (threads k) (aget 0 (ready_head k) p) l 0;
  qa_tail : forall t, last l = Some t -> aget 0 (ready_tail k) p = t;
  qa_mem : forall t, t ∈ l -> exists th, threads k !! t = Some th /\ queue_of th = p /\ state th = THREAD_READY;
  qa_nodup : NoDup l
}.

Record wfq (k : sched) (Q : Z -> list Z) : Prop := {
  wq_len : alen (ready_head k) = 8 /\ alen (ready_tail k) = 8;
  wq_at : forall p, valid_pri p -> queue_at k p (Q p);
  wq_pri : forall t th, threads k !! t = Some th -> 0 <= priority th;
  wq_null : threads k !! 0 = None
}.

Definition queued (Q : Z -> list Z) (t : Z) : Prop := exists p, valid_pri p /\ t ∈ Q p.

Definition upd_queue (Q : Z -> list Z) (p : Z) (l : list Z) : Z -> list Z :=
  fun p' => if p' =? p then l else Q p'.

Lemma upd_queue_eq Q p l : upd_queue Q p l p = l.
Proof. unfold upd_queue. by rewrite Z.eqb_refl. Qed.

Lemma upd_queue_ne Q p l p' : p' <> p -> upd_queue Q p l p' = Q p'.
Proof. intros. unfold upd_queue. by rewrite (proj2 (Z.eqb_neq _ _)). Qed.

Lemma queue_of_valid k Q t th : wfq k Q -> threads k !! t = Some th -> valid_pri (queue_of th).
Proof.
  intros W E. pose proof (wq_pri k Q W t th E). unfold queue_of, valid_pri, SCHED_NUM_PRIORITIES, SCHED_PRIORITY_NORMAL.
  case_bool; lia.
Qed.

(** A thread is in the queue of its own priority only. *)
Lemma queued_at k Q t th p : wfq k Q -> threads k !! t = Some th -> valid_pri p -> t ∈ Q p -> p = queue_of th.
Proof.
  intros W E Hp Ht. destruct (qa_mem k p (Q p) (wq_at k Q W p Hp) t Ht) as (th' & E' & ? & _). congruence.
Qed.

Lemma lseg_head m h l e : lseg m h l e -> l <> [] -> exists t l', l = t :: l' /\ h = t /\ t <> 0.
Proof. destruct l as [|t l]; [done|]. intros (-> & ? & _) _. by exists t, l. Qed.

Lemma head_zero k p l : queue_at k p l -> aget 0 (ready_head k) p = 0 <-> l = [].
Proof.
  intros [L _ _ _]. destruct l as [|t l]; simpl in L; [done|]. destruct L as (-> & ? & _). done.
Qed.

(** A queue is unchanged when the links and states of its members, and its two
    pointers, are. *)
Lemma queue_at_frame k k' p l :
  queue_at k p l ->
  aget 0 (ready_head k') p = aget 0 (ready_head k) p -> aget 0 (ready_tail k') p = aget 0 (ready_tail k) p ->
  (forall t, t ∈ l -> threads k' !! t = threads k !! t) -> queue_at k' p l.
Proof.
  intros [L T M N] Eh Et Em. split; [|by rewrite Et| |done].
  - rewrite Eh. apply (lseg_agree (threads k)); [|done]. intros t Ht. by rewrite Em.
  - intros t Ht. rewrite Em by done. auto.
Qed.

Lemma queue_length k Q p : wfq k Q -> valid_pri p -> (length (Q p) <= map_size (threads k))%nat.
Proof.
  intros W Hp. destruct (wq_at k Q W p Hp) as [_ _ M N].
  change (map_size (threads k)) with (base.size (threads k)). rewrite <- size_dom.
  rewrite <- (size_list_to_set (C := gset Z) (Q p) N). apply subseteq_size.
  intros t Ht%elem_of_list_to_set. apply elem_of_dom. destruct (M t Ht) as (th & -> & _). by eexists.
Qed.

(** ** Enqueueing *)

(** The queues other than [p] are not affected by updates of [ready_head],
    [ready_tail] at [p] and of threads that are not in them. *)
Lemma other_queues k m h t Q p :
  wfq k Q -> valid_pri p ->
  (forall u p', valid_pri p' -> p' <> p -> u ∈ Q p' -> m !! u = threads k !! u) ->
  forall p', valid_pri p' -> p' <> p ->
  queue_at (set_queues (set_threads k m) (aset (ready_head k) p h) (aset (ready_tail k) p t)) p' (Q p').
Proof.
  intros W Hp Hm p' Hp' Hne. apply (queue_at_frame k); [by apply W| | |].
  - apply aget_aset_ne; unfold valid_pri in *; lia.
  - apply aget_aset_ne; unfold valid_pri in *; lia.
  - intros u Hu. by apply (Hm u p').
Qed.

Lemma aset_self (l : list Z) p : 0 <= p < alen l -> aset l p (aget 0 l p) = l.
Proof. intros H. unfold aset. apply list_insert_id. by apply aget_lookup. Qed.

(** Appending to the queue's list, given the new segment. *)
Lemma append_queue k Q t th m h :
  wfq k Q -> threads k !! t = Some th -> t <> 0 -> ~ queued Q t ->
  let p := queue_of th in
  lseg m h (Q p ++ [t]) 0 ->
  (forall u, u ∈ Q p -> exists tu n, threads k !! u = Some tu /\ m !! u = Some (set_next_in_queue tu n)) ->
  m !! t = Some (set_state (set_next_in_queue th 0) THREAD_READY) ->
  (forall u, u ∉ Q p -> u <> t -> m !! u = threads k !! u) ->
  wfq (set_queues (set_threads k m) (aset (ready_head k) p h) (aset (ready_tail k) p t))
      (upd_queue Q p (Q p ++ [t])).
Proof.
  intros W E Hnz Hq p L Hm Ht Ho. pose proof (queue_of_valid k Q t th W E) as Hp. fold p in Hp.
  destruct (wq_len k Q W) as [Lh Lt]. pose proof (wq_at k Q W p Hp) as A.
  assert (Hnp : t ∉ Q p) by (intros Hin; apply Hq; by exists p). split.
  - simpl. by rewrite !alen_aset.
  - intros p' Hp'. destruct (decide (p' = p)) as [->|Hne].
    + rewrite upd_queue_eq. split; simpl.
      * rewrite aget_aset_eq by (unfold valid_pri in Hp'; lia). done.
      * intros x. rewrite last_snoc. intros [= <-]. apply aget_aset_eq. unfold valid_pri in Hp'; lia.
      * intros u [Hu|Hu]%elem_of_app.
        -- destruct (qa_mem k p (Q p) A u Hu) as (tu & Eu & ? & ?). destruct (Hm u Hu) as (tu' & n & Eu' & ->).
           simplify_eq. eexists. split; [done|]. done.
        -- apply list_elem_of_singleton in Hu as ->. rewrite Ht. eexists. split; [done|]. done.
      * apply NoDup_app. split_and!; [apply A| |apply NoDup_singleton].
        intros u Hu Hu'%list_elem_of_singleton. congruence.
    + rewrite upd_queue_ne by done. apply other_queues; [done..| |done|done].
      intros u p2 Hp2 Hne2 Hin. apply Ho.
      * intros Hup. destruct (qa_mem k p _ A u Hup) as (tu & Eu & <- & _). apply Hne2. by apply (queued_at k Q u).
      * intros ->. apply Hq. by exists p2.
  - intros u tu Eu. simpl in Eu. destruct (decide (u = t)) as [->|Hut].
    + rewrite Ht in Eu. simplify_eq. simpl. by apply (wq_pri k Q W t).
    + destruct (decide (u ∈ Q p)) as [Hup|Hup].
      * destruct (Hm u Hup) as (tu' & n & Eu' & Em). rewrite Em in Eu. simplify_eq. simpl. by apply (wq_pri k Q W u).
      * rewrite Ho in Eu by done. by apply (wq_pri k Q W u).
  - simpl. rewrite Ho; [apply W| |done]. intros H0. destruct (qa_mem k p _ A 0 H0) as (tu & Eu & _).
    by rewrite (wq_null k Q W) in Eu.
Qed.

Lemma set_threads_queues k m0 h t m :
  set_threads (set_queues (set_threads k m0) h t) m = set_queues (set_threads k m) h t.
Proof. done. Qed.

Lemma set_threads_twice k m0 m : set_threads (set_threads k m0) m = set_threads k m.
Proof. done. Qed.

Lemma enqueue_spec k Q t th :
  wfq k Q -> threads k !! t = Some th -> ~ queued Q t ->
  exists k', scheduler_enqueue k t = Some k' /\
    wfq k' (upd_queue Q (queue_of th) (Q (queue_of th) ++ [t])) /\ frame k' = frame k /\
    erased k' = <[t := erase (set_state th THREAD_READY)]> (erased k).
Proof.
  intros W E Hq. assert (Hnz : t <> 0) by (intros ->; by rewrite (wq_null k Q W) in E).
  pose proof (queue_of_valid k Q t th W E) as Hp. set (p := queue_of th) in *.
  pose proof (wq_at k Q W p Hp) as A. destruct (wq_len k Q W) as [Lh Lt].
  assert (Hnp : t ∉ Q p) by (intros Hin; apply Hq; by exists p).
  unfold scheduler_enqueue. rewrite (proj2 (Z.eqb_neq t 0)) by done. rewrite E. simpl. fold p.
  rewrite (upd_thread_spec k t th) by done. simpl.
  destruct (Z.eqb_spec (aget 0 (ready_head k) p) 0) as [H0|H0]; simpl.
  - apply (head_zero k p _ A) in H0. rewrite (upd_thread_spec _ t (set_next_in_queue th 0)) by (simpl; by rewrite lookup_insert_eq).
    eexists. split; [done|]. simpl. rewrite insert_insert_eq. split; [|split; [done|]].
    + rewrite set_threads_queues. apply (append_queue k Q t th _ t); fold p; try done.
      * rewrite H0. simpl. split_and!; [done..|]. eexists. by rewrite lookup_insert_eq.
      * intros u Hu. rewrite H0 in Hu. by apply elem_of_nil in Hu.
      * by rewrite lookup_insert_eq.
      * intros u _ Hu. by rewrite lookup_insert_ne.
    + unfold erased. simpl. by rewrite fmap_insert.
  - assert (Hne : Q p <> []) by (intros Hn; apply H0, (head_zero k p _ A), Hn).
    destruct (last (Q p)) as [z|] eqn:El; [|by apply last_None in El].
    rewrite (qa_tail k p _ A z El). pose proof El as El'. apply last_Some in El' as [l' El'].
    destruct (qa_mem k p _ A z) as (tz & Ez & Hpz & _); [rewrite El'; set_solver|].
    assert (Hzt : z <> t) by (intros ->; apply Hnp; rewrite El'; set_solver).
    rewrite (upd_thread_spec _ z tz) by (simpl; by rewrite lookup_insert_ne). simpl.
    rewrite (upd_thread_spec _ t (set_next_in_queue th 0)) by (simpl; rewrite lookup_insert_ne by done; by rewrite lookup_insert_eq).
    eexists. split; [done|]. simpl. split; [|split; [done|]].
    + assert (EH : ready_head k = aset (ready_head k) p (aget 0 (ready_head k) p)).
      { symmetry. apply aset_self. unfold valid_pri in Hp. lia. }
      rewrite EH at 1. rewrite set_threads_queues, set_threads_twice. apply (append_queue k Q t th); fold p; try done.
      * apply lseg_app. exists t. split.
        -- apply lseg_insert; [done|]. rewrite El'. apply (lseg_redirect _ _ _ _ _ 0).
           ++ rewrite <- El'. apply lseg_insert; [done|]. apply A.
           ++ rewrite <- El'. apply A.
           ++ by rewrite lookup_insert_ne.
        -- simpl. split_and!; [done..|]. eexists. by rewrite lookup_insert_eq.
      * intros u Hu. destruct (qa_mem k p _ A u Hu) as (tu & Eu & _).
        assert (u <> t) by (by intros ->). rewrite lookup_insert_ne by done.
        destruct (decide (u = z)) as [->|Huz].
        -- rewrite lookup_insert_eq. simplify_eq. by eexists _, _.
        -- rewrite !lookup_insert_ne by done. exists tu, (next_in_queue tu). split; [done|]. rewrite Eu. by destruct tu.
      * by rewrite lookup_insert_eq.
      * intros u Hu Hut. assert (u <> z) by (intros ->; apply Hu; rewrite El'; set_solver).
        by rewrite !lookup_insert_ne by done.
    + unfold erased. simpl. rewrite fmap_insert. rewrite (erase_link _ z) by by rewrite lookup_insert_ne.
      rewrite (fmap_insert erase _ t). by rewrite insert_insert_eq.
Qed.

(** ** Dequeueing *)

(** The list without [t]. *)
Definition without (t : Z) (l : list Z) : list Z := filter (fun u => u <> t) l.

Lemma without_app t l1 l2 : without t (l1 ++ l2) = without t l1 ++ without t l2.
Proof. apply filter_app. Qed.

Lemma without_id t l : t ∉ l -> without t l = l.
Proof.
  induction l as [|u l IH]; [done|]. intros [Hne Hl]%not_elem_of_cons. unfold without in *.
  rewrite filter_cons, decide_True by congruence. by rewrite IH.
Qed.

Lemma without_cons t l : t ∉ l -> without t (t :: l) = l.
Proof. intros Ht. unfold without. rewrite filter_cons, decide_False by tauto. by apply without_id. Qed.

(** The result of unlinking [c] after the prefix [l1]. *)
Definition unlinked (k : sched) (p : Z) (l1 : list Z) (c : Z) (cth : thread) : sched :=
  let prev := default 0 (last l1) in
  let k1 := match last l1 with
            | Some pr => set_threads k (<[pr := set_next_in_queue (default cth (threads k !! pr)) (next_in_queue cth)]> (threads k))
            | None => set_queues k (aset (ready_head k) p (next_in_queue cth)) (ready_tail k)
            end in
  let k2 := if aget 0 (ready_tail k1) p =? c
            then set_queues k1 (ready_head k1) (aset (ready_tail k1) p prev) else k1 in
  set_threads k2 (<[c := set_next_in_queue cth 0]> (threads k2)).

Lemma dequeue_loop_spec k t p l2 : forall l1 cur fuel,
  queue_at k p (l1 ++ l2) -> lseg (threads k) cur l2 0 -> t ∉ l1 -> threads k !! 0 = None ->
  (length l2 < fuel)%nat ->
  exists k', dequeue_loop k t p (default 0 (last l1)) cur fuel = Some k' /\
  ((t ∉ l2 /\ k' = k) \/
   exists m l3 tth, l2 = m ++ t :: l3 /\ threads k !! t = Some tth /\ k' = unlinked k p (l1 ++ m) t tth).
Proof.
  induction l2 as [|c l2 IH]; intros l1 cur [|fuel] A L Ht H0 Hf; simpl in Hf; try lia.
  - simpl in L. subst. exists k. split; [done|]. left. split; [apply not_elem_of_nil|done].
  - destruct L as (-> & Hc & cth & Ec & L). simpl. rewrite (proj2 (Z.eqb_neq c 0)) by done. rewrite Ec. simpl.
    destruct (Z.eqb_spec c t) as [->|Hne].
    + exists (unlinked k p l1 t cth). split; [|right; exists [], l2, cth; by rewrite app_nil_r].
      unfold unlinked. destruct (last l1) as [pr|] eqn:El; simpl.
      * apply last_Some in El as [l1' ->]. pose proof A as [_ _ M Nd].
        destruct (M pr) as (pth & Epr & _); [set_solver|].
        rewrite (proj2 (Z.eqb_neq pr 0)) by (intros ->; congruence). simpl.
        rewrite (upd_thread_spec k pr pth) by done. simpl. rewrite Epr. simpl.
        destruct (_ =? t); rewrite (upd_thread_spec _ t cth); try done; simpl;
          (rewrite lookup_insert_ne; [done|]); intros ->; apply Ht; set_solver.
      * destruct (_ =? t); by rewrite (upd_thread_spec _ t cth).
    + destruct (IH (l1 ++ [c]) (next_in_queue cth) fuel) as (k' & E & C); [by rewrite <- app_assoc|done| |done|lia|].
      * rewrite elem_of_app, list_elem_of_singleton. naive_solver.
      * rewrite last_snoc in E. simpl in E. exists k'. split; [done|].
        destruct C as [[Hn ->]|(m & l3 & tth & -> & ? & ->)].
        -- left. split; [|done]. apply not_elem_of_cons. split; [congruence|done].
        -- right. exists (c :: m), l3, tth. split_and!; [done..|]. by rewrite <- app_assoc.
Qed.

Lemma unlinked_frame k p l1 c cth : frame (unlinked k p l1 c cth) = frame k.
Proof. unfold unlinked. destruct (last l1); simpl; by destruct (_ =? c). Qed.

Lemma unlinked_threads k p l1 c cth u :
  threads k !! c = Some cth -> c ∉ l1 ->
  threads (unlinked k p l1 c cth) !! u =
    if decide (u = c) then Some (set_next_in_queue cth 0)
    else match last l1 with
         | Some pr => if decide (u = pr)
                      then Some (set_next_in_queue (default cth (threads k !! pr)) (next_in_queue cth))
                      else threads k !! u
         | None => threads k !! u
         end.
Proof.
  intros E Hc. unfold unlinked. destruct (last l1) as [pr|] eqn:El; simpl.
  - destruct (_ =? c); simpl; repeat case_decide; simplify_map_eq; done.
  - destruct (_ =? c); simpl; case_decide; simplify_map_eq; done.
Qed.

Lemma unlinked_heads k p l1 c cth :
  ready_head (unlinked k p l1 c cth) =
    match last l1 with Some _ => ready_head k | None => aset (ready_head k) p (next_in_queue cth) end /\
  ready_tail (unlinked k p l1 c cth) =
    if aget 0 (ready_tail k) p =? c then aset (ready_tail k) p (default 0 (last l1)) else ready_tail k.
Proof. unfold unlinked. destruct (last l1); simpl; by destruct (_ =? c). Qed.

Lemma unlinked_queue k p l1 t tth l2 :
  queue_at k p (l1 ++ t :: l2) -> valid_pri p -> alen (ready_head k) = 8 -> alen (ready_tail k) = 8 ->
  threads k !! t = Some tth -> queue_at (unlinked k p l1 t tth) p (l1 ++ l2).
Proof.
  intros [L T M N] Hp Lh Lt E. pose proof N as N'. apply NoDup_app in N' as (N1 & N2 & [N3 N4]%NoDup_cons).
  assert (Ht1 : t ∉ l1) by (intros Hin; apply (N2 t Hin); by left).
  destruct (unlinked_heads k p l1 t tth) as [Eh Et].
  apply lseg_app in L as (mid & L1 & (-> & Hnz & tth' & E' & L2)). rewrite E in E'. simplify_eq.
  assert (Th : forall u, u ∈ l1 ++ l2 -> u <> t) by (intros u Hu ->; apply elem_of_app in Hu; tauto).
  split.
  - rewrite Eh. apply lseg_app. exists (next_in_queue tth'). split.
    + destruct (last l1) as [pr|] eqn:El.
      * apply last_Some in El as [l1' ->]. destruct (M pr) as (pth & Epr & _); [set_solver|].
        apply (lseg_agree (<[pr := set_next_in_queue pth (next_in_queue tth')]> (threads k))).
        -- intros u Hu. rewrite unlinked_threads by done. rewrite decide_False by (apply Th; set_solver).
           rewrite last_snoc. case_decide as Hd; [subst; by rewrite lookup_insert_eq, Epr|].
           by rewrite lookup_insert_ne.
        -- by apply (lseg_redirect _ _ _ _ _ t).
      * apply last_None in El as ->. simpl in *. by rewrite aget_aset_eq by (unfold valid_pri in Hp; lia).
    + apply (lseg_agree (threads k)); [|done]. intros u Hu. rewrite unlinked_threads by done.
      rewrite decide_False by (apply Th; set_solver). destruct (last l1) as [pr|] eqn:El; [|done].
      rewrite decide_False; [done|]. intros ->. apply last_Some_elem_of in El. apply (N2 pr El). by right.
  - intros x Hx. rewrite Et. destruct l2 as [|y l2].
    + rewrite app_nil_r in Hx. rewrite (T t) by by rewrite last_snoc. rewrite Z.eqb_refl, Hx. simpl.
      apply aget_aset_eq. unfold valid_pri in Hp. lia.
    + rewrite last_app in Hx. rewrite (T x).
      * rewrite (proj2 (Z.eqb_neq x t)); [by apply T; rewrite last_app|]. intros ->. apply N3.
        destruct (last (y :: l2)) eqn:El2; [|by apply last_None in El2]. simplify_eq. by apply last_Some_elem_of.
      * rewrite last_app. done.
  - intros u Hu. destruct (M u) as (uth & Eu & ? & ?); [set_solver|]. rewrite unlinked_threads by done.
    rewrite decide_False by by apply Th. destruct (last l1) as [pr|] eqn:El; [|by eexists].
    case_decide as Hd; [|by eexists]. subst. rewrite Eu. simpl. by eexists.
  - apply NoDup_app. split_and!; [done| |done]. intros u Hu Hu2. apply (N2 u Hu). by right.
Qed.

Section unlink.
Context (k : sched) (Q : Z -> list Z) (t : Z) (th : thread) (m l3 : list Z).
Context (W : wfq k Q) (E : threads k !! t = Some th) (El : Q (queue_of th) = m ++ t :: l3).

Let p := queue_of th.

Let k' := unlinked k p m t th.

Lemma unlink_facts : valid_pri p /\ queue_at k p (m ++ t :: l3) /\ t ∉ m /\ t ∉ l3.
Proof using All.
  pose proof (queue_of_valid k Q t th W E) as Hp. pose proof (wq_at k Q W _ Hp) as A. rewrite El in A.
  destruct (NoDup_app m (t :: l3)) as [Nd _]. destruct (Nd (qa_nodup _ _ _ A)) as (_ & N2 & [N3 _]%NoDup_cons).
  split_and!; [done|done| |done]. intros Hin. apply (N2 t Hin). by left.
Qed.

(** The threads with a changed link are [t] and the last of [m]. *)
Lemma unlink_lookup u :
  (u ∉ m ++ t :: l3 -> threads k' !! u = threads k !! u) /\
  (erase <$> threads k' !! u) = (erase <$> threads k !! u).
Proof using All.
  destruct unlink_facts as (Hp & A & Ht & _). unfold k'. rewrite unlinked_threads by done.
  case_decide as Hu; [subst; rewrite E; split; [set_solver|done]|].
  destruct (last m) as [pr|] eqn:Elm; [|done]. apply last_Some_elem_of in Elm.
  case_decide as Hpr; [|done]. subst. split; [set_solver|].
  destruct (qa_mem k p _ A pr) as (pth & Epr & _); [set_solver|]. by rewrite Epr.
Qed.

Lemma unlink_erased : erased k' = erased k.
Proof using All. apply map_eq. intros u. unfold erased. rewrite !lookup_fmap. apply unlink_lookup. Qed.

Lemma unlink_pri u uth : threads k' !! u = Some uth -> exists uth0, threads k !! u = Some uth0 /\ erase uth = erase uth0.
Proof using All.
  intros Eu. destruct (unlink_lookup u) as [_ Ee]. rewrite Eu in Ee.
  destruct (threads k !! u) as [uth0|]; simpl in Ee; [|done]. exists uth0. split; [done|congruence].
Qed.

Lemma unlink_wfq : wfq k' (upd_queue Q p (m ++ l3)).
Proof using All.
  destruct unlink_facts as (Hp & A & Ht & Ht3). destruct (unlinked_heads k p m t th) as [Eh Et].
  fold k' in Eh, Et. destruct (wq_len k Q W) as [Lh Lt]. split.
  - rewrite Eh, Et. destruct (last m), (_ =? t); by rewrite ?alen_aset.
  - intros p' Hp'. destruct (decide (p' = p)) as [->|Hne].
    { rewrite upd_queue_eq. by apply unlinked_queue. }
    rewrite upd_queue_ne by done. apply (queue_at_frame k); [by apply W| | |].
    + rewrite Eh. destruct (last m); [done|]. apply aget_aset_ne; unfold valid_pri in *; lia.
    + rewrite Et. destruct (_ =? t); [|done]. apply aget_aset_ne; unfold valid_pri in *; lia.
    + intros u Hu. apply unlink_lookup. intros Hin.
      destruct (qa_mem k p _ A u Hin) as (uth & Eu & Hpu & _). apply Hne. rewrite <- Hpu. by apply (queued_at k Q u).
  - intros u uth Eu. destruct (unlink_pri u uth Eu) as (uth0 & Eu0 & Ee).
    apply (f_equal priority) in Ee. simpl in Ee. rewrite Ee. by apply (wq_pri k Q W u).
  - destruct (threads k' !! 0) as [z|] eqn:E0; [|done]. destruct (unlink_pri 0 z E0) as (z0 & Ez & _).
    by rewrite (wq_null k Q W) in Ez.
Qed.

End unlink.

Lemma dequeue_spec k Q t th :
  wfq k Q -> threads k !! t = Some th ->
  exists k', scheduler_dequeue k t = Some k' /\
    wfq k' (upd_queue Q (queue_of th) (without t (Q (queue_of th)))) /\ frame k' = frame k /\ erased k' = erased k.
Proof.
  intros W E. assert (Hnz : t <> 0) by (intros ->; by rewrite (wq_null k Q W) in E).
  pose proof (queue_of_valid k Q t th W E) as Hp. pose proof (wq_at k Q W _ Hp) as A.
  unfold scheduler_dequeue. rewrite (proj2 (Z.eqb_neq t 0)) by done. rewrite E. cbn [mbind option_bind].
  destruct (dequeue_loop_spec k t _ _ [] (aget 0 (ready_head k) (queue_of th)) (queue_fuel k) A) as (k' & E' & C);
    [apply A|apply not_elem_of_nil|apply W|unfold queue_fuel; pose proof (queue_length k Q _ W Hp); lia|].
  exists k'. split; [exact E'|]. destruct C as [[Hn ->]|(m & l3 & tth & El & Et & ->)].
  - rewrite without_id by done. split_and!; [|done..]. destruct W as [W1 W2 W3 W4]. split; [done| |done..].
    intros p' Hp'. unfold upd_queue. destruct (Z.eqb_spec p' (queue_of th)) as [->|]; auto.
  - rewrite E in Et. simplify_eq. cbn [app]. destruct (unlink_facts k Q t tth m l3 W E El) as (_ & _ & Ht & Ht3).
    rewrite El, without_app, without_id, without_cons by done.
    split_and!; [by apply unlink_wfq|apply unlinked_frame|exact (unlink_erased k Q t tth m l3 W E El)].
Qed.

(** ** Choosing the next thread *)

(** The highest non-empty queue below [n]. *)
Fixpoint top_queue (Q : Z -> list Z) (n : nat) : option Z :=
  match n with
  | O => None
  | S n => match Q (Z.of_nat n) with [] => top_queue Q n | _ => Some (Z.of_nat n) end
  end.

Lemma top_queue_Some Q n p : top_queue Q n = Some p ->
  0 <= p < Z.of_nat n /\ Q p <> [] /\ forall p', p < p' < Z.of_nat n -> Q p' = [].
Proof.
  induction n as [|n IH]; simpl; [done|]. destruct (Q (Z.of_nat n)) eqn:E.
  - intros (? & ? & H)%IH. split_and!; [lia|lia|done|]. intros p' Hp'.
    destruct (decide (p' = Z.of_nat n)) as [->|]; [done|]. apply H. lia.
  - intros [= <-]. split_and!; [lia|lia|by rewrite E|]. intros. lia.
Qed.

Lemma top_queue_None Q n : top_queue Q n = None -> forall p, 0 <= p < Z.of_nat n -> Q p = [].
Proof.
  induction n as [|n IH]; simpl; [lia|]. destruct (Q (Z.of_nat n)) eqn:E; [|done]. intros H p Hp.
  destruct (decide (p = Z.of_nat n)) as [->|]; [done|]. apply IH; [done|lia].
Qed.

(** The wake-up pass finds no sleeping thread: queued threads are ready. *)
Lemma wake_loop_id k l : forall h fuel,
  lseg (threads k) h l 0 ->
  (forall t, t ∈ l -> exists th, threads k !! t = Some th /\ state th = THREAD_READY) ->
  (length l < fuel)%nat -> wake_loop k h fuel = Some k.
Proof.
  induction l as [|t l IH]; intros h [|fuel] L M Hf; simpl in *; try lia.
  - by rewrite L.
  - destruct L as (-> & Hnz & th & E & L). rewrite (proj2 (Z.eqb_neq t 0)) by done. rewrite E. simpl.
    destruct (M t) as (th' & E' & Es); [by left|]. simplify_eq. rewrite Es. rewrite bool_decide_eq_false_2 by done. simpl.
    apply IH; [done| |lia]. intros u Hu. apply M. by right.
Qed.

Lemma pick_loop_spec k Q n :
  wfq k Q -> (n <= 8)%nat ->
  match top_queue Q n with
  | None => pick_loop k n = Some (k, 0)
  | Some p => exists t l k', Q p = t :: l /\ pick_loop k n = Some (k', t) /\
      wfq k' (upd_queue Q p l) /\ frame k' = frame k /\ erased k' = erased k
  end.
Proof.
  intros W. induction n as [|n IH]; intros Hn; [done|]. cbn [top_queue pick_loop].
  assert (Hp : valid_pri (Z.of_nat n)) by (unfold valid_pri; lia).
  pose proof (wq_at k Q W _ Hp) as A.
  rewrite (wake_loop_id k (Q (Z.of_nat n))); [|apply A| |pose proof (queue_length k Q _ W Hp); unfold queue_fuel; lia].
  2: { intros t Ht. destruct (qa_mem k _ _ A t Ht) as (th & ? & _ & ?). by exists th. }
  cbn [mbind option_bind]. destruct (Q (Z.of_nat n)) as [|t l] eqn:EQ.
  - rewrite (proj2 (head_zero k _ _ A) eq_refl). simpl. apply IH. lia.
  - destruct (qa_seg k _ _ A) as (-> & Hnz & th & E & _). rewrite (proj2 (Z.eqb_neq t 0)) by done. cbn [negb].
    destruct (qa_mem k _ _ A t) as (th' & E' & Hpt & _); [by left|]. rewrite E in E'. simplify_eq.
    destruct (dequeue_spec k Q t th' W E) as (k' & -> & W' & Ef & Ee). simpl.
    exists t, l, k'. split_and!; [done|done| |done|done].
    rewrite Hpt in W'. rewrite EQ, without_cons in W'; [done|].
    pose proof (qa_nodup k _ _ A) as Nd. by apply NoDup_cons in Nd as [? _].
Qed.

Lemma pick_next_spec k Q :
  wfq k Q ->
  match top_queue Q 8 with
  | None => pick_next k = Some (k, 0)
  | Some p => exists t l k', Q p = t :: l /\ pick_next k = Some (k', t) /\
      wfq k' (upd_queue Q p l) /\ frame k' = frame k /\ erased k' = erased k
  end.
Proof. intros W. by apply (pick_loop_spec k Q 8). Qed.

(** ** Updating one thread *)

Lemma wfq_same k k' Q :
  threads k' = threads k -> ready_head k' = ready_head k -> ready_tail k' = ready_tail k -> wfq k Q -> wfq k' Q.
Proof.
  intros Et Eh El [W1 W2 W3 W4]. split; rewrite ?Et, ?Eh, ?El; try done.
  intros p Hp. destruct (W2 p Hp) as [A1 A2 A3 A4]. split; rewrite ?Et, ?Eh, ?El; done.
Qed.

Lemma wfq_upd k Q t th th' :
  wfq k Q -> threads k !! t = Some th -> priority th' = priority th ->
  (queued Q t -> next_in_queue th' = next_in_queue th /\ state th' = state th) ->
  wfq (set_threads k (<[t := th']> (threads k))) Q.
Proof.
  intros [W1 W2 W3 W4] E Hp Hq. split; simpl; [done| | |].
  - intros p Hv. destruct (W2 p Hv) as [A1 A2 A3 A4]. split; simpl; [|done| |done].
    + apply (lseg_agree (threads k)); [|done]. intros u Hu. destruct (decide (u = t)) as [->|Hne].
      * rewrite lookup_insert_eq, E. simpl. f_equal. apply Hq. by exists p.
      * by rewrite lookup_insert_ne.
    + intros u Hu. destruct (A3 u Hu) as (uth & Eu & Hpu & Hsu). destruct (decide (u = t)) as [->|Hne].
      * rewrite lookup_insert_eq. exists th'. split; [done|]. rewrite E in Eu. injection Eu as <-.
        unfold queue_of in *. rewrite Hp. split; [exact Hpu|]. rewrite <- Hsu. apply Hq. by exists p.
      * rewrite lookup_insert_ne by done. by exists uth.
  - intros u uth. destruct (decide (u = t)) as [->|Hne].
    + rewrite lookup_insert_eq. intros [= <-]. rewrite Hp. by apply (W3 t).
    + rewrite lookup_insert_ne by done. apply W3.
  - rewrite lookup_insert_ne; [done|]. intros ->. congruence.
Qed.

(** The observable state of a thread. *)
Definition state_at (k : sched) (t : Z) : option thread_state := state <$> threads k !! t.

Lemma state_erased k k' : erased k' = erased k -> forall t, state_at k' t = state_at k t.
Proof.
  intros E t. apply (f_equal (fun m => state <$> m !! t)) in E. unfold erased in E.
  rewrite !lookup_fmap, <- !option_fmap_compose in E. unfold state_at. exact E.
Qed.
