(* ===== verification/SchedThm.v ===== *)
(** The scheduling theorems: what one [schedule] does, the invariant of every
    reachable scheduler state, round-robin progress, and the fate of sleeping
    threads. *)
From stdpp Require Import prelude gmap list relations.
From Stdlib Require Import ZArith Lia.
From S2P Require Import Prelude Task Sched SchedSpec.

Open Scope Z_scope.

(** The part of a thread that scheduling never changes. *)
Definition core (th : thread) : thread := set_kstack_rsp (set_state (erase th) THREAD_READY) 0.

Definition cores (k : sched) : gmap Z thread := core <$> threads k.

(** The queues after the outgoing thread [t] is put back, if it was running. *)
Definition requeue (k : sched) (Q : Z -> list Z) (t : Z) : Z -> list Z :=
  match threads k !! t with
  | Some th => if bool_decide (state th = THREAD_RUNNING)
               then upd_queue Q (queue_of th) (Q (queue_of th) ++ [t]) else Q
  | None => Q
  end.

(** The states after switching from [old] to [next]. *)
Definition switched_state (k : sched) (old next u : Z) : option thread_state :=
  if u =? next then Some THREAD_RUNNING
  else if (u =? old) && bool_decide (state_at k old = Some THREAD_RUNNING) then Some THREAD_READY
  else state_at k u.

Lemma core_erase th : core (erase th) = core th.
Proof. done. Qed.

Lemma cores_erased k : cores k = core <$> erased k.
Proof. unfold cores, erased. rewrite <- map_fmap_compose. apply map_fmap_ext. done. Qed.

Lemma queue_of_core th th' : core th = core th' -> queue_of th = queue_of th'.
Proof. intros E. apply (f_equal priority) in E. simpl in E. unfold queue_of. by rewrite E. Qed.

Lemma frame_eq k k' : frame k' = frame k ->
  procs k' = procs k /\ cpu k' = cpu k /\ tick_counter k' = tick_counter k /\ sched_active k' = sched_active k /\
  sched_lock k' = sched_lock k /\ idle_thread k' = idle_thread k /\ pit_ticks k' = pit_ticks k.
Proof. unfold frame, set_queues, set_threads. destruct k, k'. simpl. by intros [= -> -> -> -> -> -> ->]. Qed.

Lemma upd_core_cores (m : gmap Z thread) t th th' : m !! t = Some th -> core th' = core th ->
  core <$> <[t := th']> m = core <$> m.
Proof. intros E Ec. rewrite fmap_insert, Ec. apply insert_id. by rewrite lookup_fmap, E. Qed.

(** The outgoing thread. *)
Lemma put_back k Q old :
  wfq k Q -> (old = 0 \/ is_Some (threads k !! old)) -> ~ queued Q old ->
  exists k1,
    (if negb (old =? 0) then
       ot ← threads k !! old;
       if bool_decide (state ot = THREAD_RUNNING) then
         k' ← upd_thread k old (fun th => set_state th THREAD_READY);
         scheduler_enqueue k' old
       else Some k
     else Some k) = Some k1 /\
    wfq k1 (requeue k Q old) /\ frame k1 = frame k /\ cores k1 = cores k /\
    (forall u, state_at k1 u = if (u =? old) && bool_decide (state_at k old = Some THREAD_RUNNING)
                               then Some THREAD_READY else state_at k u).
Proof.
  intros W Ho Hq. unfold requeue. destruct (Z.eqb_spec old 0) as [->|Hnz]; cbn [negb].
  - rewrite (wq_null k Q W). exists k. split_and!; try done. intros u.
    assert (Hst : state_at k 0 = None) by (unfold state_at; by rewrite (wq_null k Q W)).
    rewrite Hst, bool_decide_eq_false_2, andb_false_r by done. done.
  - destruct Ho as [?|[ot Eo]]; [done|]. rewrite Eo. cbn [mbind option_bind].
    assert (Hst : state_at k old = Some (state ot)) by (unfold state_at; by rewrite Eo).
    destruct (decide (state ot = THREAD_RUNNING)) as [Er|Er].
    + rewrite (bool_decide_eq_true_2 (state ot = _)) by done.
      rewrite (upd_thread_spec k old ot) by done. cbn [mbind option_bind].
      assert (W1 : wfq (set_threads k (<[old:=set_state ot THREAD_READY]> (threads k))) Q) by (by apply (wfq_upd k Q old ot)).
      destruct (enqueue_spec _ Q old (set_state ot THREAD_READY) W1) as (k1 & E1 & W2 & Ef & Ee);
        [simpl; by rewrite lookup_insert_eq|done|].
      exists k1. split_and!; [done|done|done| |].
      * rewrite !cores_erased, Ee. unfold erased. simpl. rewrite !fmap_insert, insert_insert_eq.
        apply (insert_id (core <$> (erase <$> threads k))). by rewrite !lookup_fmap, Eo.
      * intros u. rewrite Hst, Er, bool_decide_eq_true_2, andb_true_r by done.
        apply (f_equal (fun m => state <$> m !! u)) in Ee. unfold erased in Ee. simpl in Ee.
        rewrite !lookup_fmap, fmap_insert in Ee. unfold state_at. destruct (Z.eqb_spec u old) as [->|Hne].
        -- rewrite lookup_insert_eq in Ee. destruct (threads k1 !! old); exact Ee.
        -- rewrite !lookup_insert_ne, lookup_fmap in Ee by done. rewrite <- !option_fmap_compose in Ee. exact Ee.
    + rewrite (bool_decide_eq_false_2 (state ot = _)) by done. exists k. split_and!; try done.
      intros u. rewrite Hst, bool_decide_eq_false_2, andb_false_r by congruence. done.
Qed.

Lemma cores_lookup k k' t th : cores k' = cores k -> threads k !! t = Some th ->
  exists th', threads k' !! t = Some th' /\ core th' = core th.
Proof.
  intros E Et. apply (f_equal (fun m => m !! t)) in E. unfold cores in E. rewrite !lookup_fmap, Et in E.
  destruct (threads k' !! t) as [th'|]; [|done]. exists th'. split; [done|]. simpl in E. congruence.
Qed.

Lemma core_fields th th' : core th = core th' ->
  process_of th = process_of th' /\ kstack_virt th = kstack_virt th' /\ priority th = priority th' /\
  sleep_until_ms th = sleep_until_ms th'.
Proof. destruct th, th'. unfold core. simpl. by intros [= -> -> -> -> -> -> ->]. Qed.

(** Every thread belongs to a process. *)
Definition owned (k : sched) : Prop :=
  forall t th, threads k !! t = Some th -> process_of th <> 0 /\ is_Some (procs k !! process_of th).

Lemma requeue_queued k Q old t : queued (requeue k Q old) t -> queued Q t \/ (t = old /\ state_at k old = Some THREAD_RUNNING).
Proof.
  unfold requeue, state_at. intros (p & Hp & Ht). destruct (threads k !! old) as [ot|]; [|left; by exists p].
  case_bool_decide as Er; [|left; by exists p]. unfold upd_queue in Ht.
  destruct (Z.eqb_spec p (queue_of ot)) as [->|]; [|left; by exists p].
  apply elem_of_app in Ht as [Ht|Ht%list_elem_of_singleton]; [left; by exists (queue_of ot)|right].
  simpl. by rewrite Er.
Qed.

Definition rest (k : sched) : sched := set_cpu (frame k) (Cpu 0 0 0 0 0 0).

Lemma rest_eq k k' : rest k' = rest k ->
  procs k' = procs k /\ tick_counter k' = tick_counter k /\ sched_active k' = sched_active k /\
  sched_lock k' = sched_lock k /\ idle_thread k' = idle_thread k /\ pit_ticks k' = pit_ticks k.
Proof. unfold rest, frame, set_queues, set_threads, set_cpu. destruct k, k'. simpl. by intros [= -> -> -> -> -> ->]. Qed.

Lemma switch_context_spec k Q old next ot nt :
  wfq k Q -> threads k !! old = Some ot -> threads k !! next = Some nt ->
  exists k', switch_context k old next = Some k' /\ wfq k' Q /\ cores k' = cores k /\
    (forall u, state_at k' u = state_at k u) /\ rest k' = rest k /\
    cpu k' = Cpu (current_thread (cpu k)) (current_process (cpu k)) (cpu_cr3 (cpu k)) (kstack_rsp nt + 56)
                 (tss_rsp0 (cpu k)) (kernel_rsp_scratch (cpu k)).
Proof.
  intros W Eo En. unfold switch_context. rewrite En. cbn [mbind option_bind].
  rewrite (upd_thread_spec k old ot) by done. cbn [mbind option_bind]. eexists. split; [done|]. split_and!.
  - apply (wfq_same (set_threads k (<[old := set_kstack_rsp ot (cpu_rsp (cpu k) - 56)]> (threads k)))); [done..|].
    by apply (wfq_upd k Q old ot).
  - unfold cores. simpl. by apply (upd_core_cores _ old ot).
  - intros u. unfold state_at. simpl. destruct (decide (u = old)) as [->|Hne].
    + by rewrite lookup_insert_eq, Eo.
    + by rewrite lookup_insert_ne.
  - done.
  - done.
Qed.

(** The switch proper: the outgoing thread goes to the tail of its queue if it
    was running, the incoming one runs, on its own kernel stack and in its own
    process's address space. *)
Lemma switch_to_spec k Q old next ot nt :
  wfq k Q -> owned k -> threads k !! old = Some ot -> ~ queued Q old ->
  threads k !! next = Some nt -> ~ queued Q next -> next <> old ->
  exists k' np, switch_to k old next = Some k' /\ wfq k' (requeue k Q old) /\
    cores k' = cores k /\ (forall u, state_at k' u = switched_state k old next u) /\ rest k' = rest k /\
    current_thread (cpu k') = next /\ current_process (cpu k') = process_of nt /\
    tss_rsp0 (cpu k') = kstack_virt nt /\ kernel_rsp_scratch (cpu k') = kstack_virt nt /\
    procs k !! process_of nt = Some np /\
    cpu_cr3 (cpu k') = (if process_of nt =? process_of ot then cpu_cr3 (cpu k) else proc_cr3 np).
Proof.
  intros W Ow Eo Hqo En Hqn Hne.
  assert (Hnz : old <> 0) by (intros ->; by rewrite (wq_null k Q W) in Eo).
  destruct (put_back k Q old W) as (k1 & E1 & W1 & Ef & Ec & Es); [right; by eexists|done|].
  apply frame_eq in Ef as Ef'. destruct Ef' as (Fp & Fc & _).
  unfold switch_to. rewrite E1. cbn [mbind option_bind]. clear E1.
  destruct (cores_lookup k k1 next nt Ec En) as (nt1 & En1 & Cn).
  destruct (cores_lookup k k1 old ot Ec Eo) as (ot1 & Eo1 & Co).
  destruct (core_fields _ _ Cn) as (Np & Nv & Npri & _). destruct (core_fields _ _ Co) as (Op & _).
  rewrite (upd_thread_spec k1 next nt1) by done.
  set (k2 := set_threads k1 (<[next := set_state nt1 THREAD_RUNNING]> (threads k1))).
  assert (W2 : wfq k2 (requeue k Q old)).
  { apply (wfq_upd k1 _ next nt1); [done..|]. intros [?|[? _]]%requeue_queued; congruence. }
  assert (En2 : threads k2 !! next = Some (set_state nt1 THREAD_RUNNING)) by (simpl; by rewrite lookup_insert_eq).
  assert (Eo2 : threads k2 !! old = Some ot1) by (simpl; by rewrite lookup_insert_ne).
  assert (C2 : cores k2 = cores k) by (rewrite <- Ec; by apply (upd_core_cores _ next nt1)).
  assert (S2 : forall u, state_at k2 u = switched_state k old next u).
  { intros u. unfold switched_state. rewrite <- (Es u). unfold state_at. destruct (Z.eqb_spec u next) as [->|Hun].
    - by rewrite En2.
    - unfold k2. simpl. by rewrite lookup_insert_ne. }
  assert (R2 : rest k2 = rest k) by (unfold rest; by rewrite <- Ef).
  cbn [mbind option_bind]. rewrite En2. cbn [mbind option_bind]. rewrite (proj2 (Z.eqb_neq old 0)) by done. cbn [negb].
  rewrite Eo2. cbn [mbind option_bind process_of set_state kstack_virt]. change (procs k2) with (procs k1).
  change (cpu k2) with (cpu k1). rewrite Np, Nv, Op, Fp, Fc.
  destruct (Ow next nt En) as [_ [np Enp]]. destruct (Ow old ot Eo) as [Hop _].
  rewrite Enp, (proj2 (Z.eqb_neq _ 0) Hop). cbn [negb andb].
  assert (Hsw : forall c, exists k', switch_context (set_cpu k2 c) old next = Some k' /\ wfq k' (requeue k Q old) /\
    cores k' = cores k /\ (forall u, state_at k' u = switched_state k old next u) /\ rest k' = rest k /\
    cpu k' = Cpu (current_thread c) (current_process c) (cpu_cr3 c) (kstack_rsp nt1 + 56) (tss_rsp0 c) (kernel_rsp_scratch c)).
  { intros c. destruct (switch_context_spec (set_cpu k2 c) (requeue k Q old) old next _ _ (wfq_same k2 (set_cpu k2 c) _ eq_refl eq_refl eq_refl W2) Eo2 En2)
      as (k' & E & W' & C' & S' & R' & Cp). exists k'. split_and!; [done|done|by rewrite <- C2| |by rewrite <- R2|done].
    intros u. by rewrite <- S2. }
  destruct (process_of nt =? process_of ot) eqn:Epp; cbn [negb mbind option_bind];
    match goal with |- context [set_cpu _ ?c] => destruct (Hsw c) as (k' & -> & W' & C' & S' & R' & Ecpu) end;
    exists k', np; rewrite Ecpu; by split_and!.
Qed.

(** ** The scheduler invariant *)

(** Between two scheduler entries, after [scheduler_start]: the queues are well
    formed lists of ready threads, the current thread is in none of them, runs
    with its own process's address space and kernel stack, nobody else is
    running, and every ready thread other than idle is queued. *)
Record sched_inv (k : sched) (Q : Z -> list Z) : Prop := {
  si_wfq : wfq k Q;
  si_owned : owned k;
  si_cur : ~ queued Q (current_thread (cpu k)) /\
    exists ct p, threads k !! current_thread (cpu k) = Some ct /\
      current_process (cpu k) = process_of ct /\ procs k !! process_of ct = Some p /\
      cpu_cr3 (cpu k) = proc_cr3 p /\ tss_rsp0 (cpu k) = kstack_virt ct;
  si_idle : is_Some (threads k !! idle_thread k);
  si_running : forall t, state_at k t = Some THREAD_RUNNING -> t = current_thread (cpu k);
  si_ready : forall t, state_at k t = Some THREAD_READY -> queued Q t \/ t = idle_thread k;
  si_lock : sched_lock k = 0
}.

Lemma requeue_erased k k' Q t : erased k' = erased k -> requeue k' Q t = requeue k Q t.
Proof.
  intros E. apply (f_equal (fun m => m !! t)) in E. unfold erased in E. rewrite !lookup_fmap in E.
  unfold requeue. destruct (threads k' !! t) as [a|], (threads k !! t) as [b|]; try done; simpl in E.
  assert (Es : state (erase a) = state (erase b)) by congruence.
  assert (Ep : priority (erase a) = priority (erase b)) by congruence. simpl in Es, Ep.
  unfold queue_of. by rewrite Es, Ep.
Qed.

Lemma owned_cores k k' : cores k' = cores k -> procs k' = procs k -> owned k -> owned k'.
Proof.
  intros Ec Ep Ow t th Et. symmetry in Ec. destruct (cores_lookup k' k t th Ec Et) as (th0 & E0 & C0).
  apply core_fields in C0 as (<- & _). rewrite Ep. by apply (Ow t).
Qed.

Lemma cores_of_erased k k' : erased k' = erased k -> cores k' = cores k.
Proof. intros E. by rewrite !cores_erased, E. Qed.

Lemma requeue_has k Q t : state_at k t = Some THREAD_RUNNING -> wfq k Q -> queued (requeue k Q t) t.
Proof.
  unfold state_at, requeue. intros Hs W. destruct (threads k !! t) as [th|] eqn:E; [|done]. simpl in Hs.
  rewrite bool_decide_eq_true_2 by congruence. exists (queue_of th). split; [by eapply queue_of_valid|].
  rewrite upd_queue_eq. set_solver.
Qed.

Lemma requeue_mono k Q t u : queued Q u -> queued (requeue k Q t) u.
Proof.
  intros (p & Hp & Hu). exists p. split; [done|]. unfold requeue. destruct (threads k !! t) as [th|]; [|done].
  case_bool_decide; [|done]. unfold upd_queue. destruct (Z.eqb_spec p (queue_of th)) as [->|]; [|done]. set_solver.
Qed.

(** A switch from a state of the invariant (with [next] taken out of the queues
    [Q0], giving [Q1]) re-establishes it. *)
Lemma switch_inv k0 k1 Q0 Q1 next nt :
  sched_inv k0 Q0 -> wfq k1 Q1 -> erased k1 = erased k0 -> rest k1 = rest (set_sched_lock k0 1) -> cpu k1 = cpu k0 ->
  threads k1 !! next = Some nt -> ~ queued Q1 next -> next <> current_thread (cpu k0) ->
  (forall u, queued Q1 u -> queued Q0 u) -> (forall u, queued Q0 u -> u <> next -> queued Q1 u) ->
  exists k', switch_to k1 (current_thread (cpu k0)) next = Some k' /\
    let k2 := set_sched_lock k' 0 in
    sched_inv k2 (requeue k0 Q1 (current_thread (cpu k0))) /\ current_thread (cpu k2) = next /\
    cores k2 = cores k0 /\
    (forall u, state_at k2 u = switched_state k0 (current_thread (cpu k0)) next u) /\
    procs k2 = procs k0 /\ tick_counter k2 = tick_counter k0 /\ sched_active k2 = sched_active k0 /\
    idle_thread k2 = idle_thread k0 /\ pit_ticks k2 = pit_ticks k0.
Proof.
  intros I W1 Ee Er Ecpu En Hqn Hne Hsub Hsup. set (old := current_thread (cpu k0)) in *.
  destruct (si_cur _ _ I) as (Hqo & ct & p & Ect & Ecp & Epp & Ecr & Ets). fold old in Hqo, Ect.
  assert (Ec1 : cores k1 = cores k0) by by apply cores_of_erased.
  apply rest_eq in Er as (Rp & Rt & Ra & _ & Ri & Rk). simpl in Rp, Rt, Ra, Ri, Rk.
  destruct (cores_lookup k0 k1 old ct Ec1 Ect) as (ct1 & Ect1 & Cct).
  assert (Ow1 : owned k1) by (apply (owned_cores k0); [done..|apply I]).
  destruct (switch_to_spec k1 Q1 old next ct1 nt W1 Ow1 Ect1) as
    (k' & np & E' & W' & C' & S' & R' & Hc & Hcp & Hts & Hsc & Enp & Hcr); [by intros ?%Hsub|done..|].
  apply rest_eq in R' as (Rp' & Rt' & Ra' & Rl' & Ri' & Rk').
  assert (St : forall u, state_at k' u = switched_state k0 old next u).
  { intros u. rewrite S'. unfold switched_state. by rewrite !(state_erased k0 k1 Ee). }
  destruct (cores_lookup k1 k' next nt C' En) as (nt' & En' & Cn').
  destruct (core_fields _ _ Cn') as (Np & Nv & _). destruct (core_fields _ _ Cct) as (Op & _).
  exists k'. split; [done|]. rewrite (requeue_erased k0 k1) in W' by done. cbv zeta.
  split_and!; [|done|by rewrite <- Ec1|exact St|(cbn; congruence)..]. split.
  - by apply (wfq_same k').
  - apply (owned_cores k1); [done|done|done].
  - cbn [cpu set_sched_lock]. rewrite Hc. split; [intros [?|[? _]]%requeue_queued; congruence|].
    exists nt', np. cbn [threads procs set_sched_lock]. rewrite Np, Nv, Rp'. split_and!; try done.
    rewrite Hcr. destruct (Z.eqb_spec (process_of nt) (process_of ct1)) as [Heq|]; [|done].
    rewrite Ecpu, Ecr. rewrite Heq, Op, Rp in Enp. congruence.
  - cbn [threads idle_thread set_sched_lock]. rewrite Ri', Ri. destruct (si_idle _ _ I) as [ith Ei].
    destruct (cores_lookup k0 k1 _ _ Ec1 Ei) as (i1 & Ei1 & _). destruct (cores_lookup k1 k' _ _ C' Ei1) as (i2 & -> & _).
    by eexists.
  - intros t Ht. cbn [cpu set_sched_lock]. rewrite Hc. change (state_at (set_sched_lock k' 0) t) with (state_at k' t) in Ht.
    rewrite St in Ht. unfold switched_state in Ht. destruct (Z.eqb_spec t next); [done|].
    destruct (t =? old) eqn:Eto; simpl in Ht.
    + apply Z.eqb_eq in Eto as ->. case_bool_decide; congruence.
    + apply Z.eqb_neq in Eto. by destruct Eto; apply (si_running _ _ I).
  - intros t Ht. cbn [idle_thread set_sched_lock]. rewrite Ri', Ri.
    change (state_at (set_sched_lock k' 0) t) with (state_at k' t) in Ht. rewrite St in Ht. unfold switched_state in Ht.
    destruct (Z.eqb_spec t next); [done|]. destruct (Z.eqb_spec t old) as [Eto|Hto]; simpl in Ht.
    + rewrite Eto in Ht |- *. case_bool_decide as Hr; [left; rewrite <- (requeue_erased k0 k1) by done; apply requeue_has; [by rewrite (state_erased k0 k1)|done]|].
      destruct (si_ready _ _ I old Ht) as [?|?]; [done|by right].
    + destruct (si_ready _ _ I t Ht) as [Hq|?]; [left|by right]. apply requeue_mono. by apply Hsup.
  - done.
Qed.

(** ** schedule *)

(** What [schedule] does to the queues and to the choice of the thread. *)
Definition schedule_result (k : sched) (Q : Z -> list Z) (k' : sched) (Q' : Z -> list Z) : Prop :=
  let cur := current_thread (cpu k) in
  match top_queue Q 8 with
  | Some p => exists t l, Q p = t :: l /\ current_thread (cpu k') = t /\ Q' = requeue k (upd_queue Q p l) cur
  | None => current_thread (cpu k') = idle_thread k /\ (Q' = Q \/ Q' = requeue k Q cur)
  end.

(** What stays: the threads but for states, links and stack pointers, and the
    rest of the scheduler's state. *)
Definition same_rest (k k' : sched) : Prop :=
  cores k' = cores k /\ procs k' = procs k /\ tick_counter k' = tick_counter k /\
  sched_active k' = sched_active k /\ idle_thread k' = idle_thread k /\ pit_ticks k' = pit_ticks k.

Lemma set_lock_id k : sched_lock k = 0 -> set_sched_lock (set_sched_lock k 1) 0 = k.
Proof. destruct k. simpl. by intros ->. Qed.

Lemma schedule_cases k Q :
  sched_inv k Q ->
  exists k' Q', schedule k = Some k' /\ sched_inv k' Q' /\ schedule_result k Q k' Q' /\ same_rest k k' /\
    (k' = k \/ (current_thread (cpu k') <> current_thread (cpu k) /\
      forall u, state_at k' u = switched_state k (current_thread (cpu k)) (current_thread (cpu k')) u)).
Proof.
  intros I. unfold schedule. rewrite (si_lock _ _ I). cbn [nonzero negb Z.eqb].
  set (k0 := set_sched_lock k 1). assert (W0 : wfq k0 Q) by (apply (wfq_same k); [done..|apply I]).
  pose proof (pick_next_spec k0 Q W0) as P. unfold schedule_result.
  destruct (top_queue Q 8) as [p|] eqn:Et.
  - destruct P as (t & l & k1 & EQ & -> & W1 & Ef & Ee). cbn [mbind option_bind].
    apply top_queue_Some in Et as (Hp & _ & _). assert (Hvp : valid_pri p) by (unfold valid_pri; lia).
    pose proof (wq_at _ _ W0 p Hvp) as A. rewrite EQ in A. destruct (qa_mem _ _ _ A t) as (tth & Eth & Hpt & _); [by left|].
    pose proof (qa_nodup _ _ _ A) as [Nt _]%NoDup_cons.
    assert (Hnz : t <> 0) by (intros ->; by rewrite (wq_null _ _ W0) in Eth).
    rewrite (proj2 (Z.eqb_neq t 0)) by done. cbn [andb].
    assert (Hcur : t <> current_thread (cpu k)).
    { intros ->. apply (proj1 (si_cur _ _ I)). exists p. split; [done|]. rewrite EQ. by left. }
    change (current_thread (cpu k0)) with (current_thread (cpu k)). rewrite (proj2 (Z.eqb_neq t _)) by done.
    apply (erased_lookup k0) in Eth as Et1. rewrite <- Ee in Et1. apply erased_inv in Et1 as (t1 & Et1 & _).
    pose proof (frame_eq _ _ Ef) as (_ & Ecpu & _).
    destruct (switch_inv k k1 Q (upd_queue Q p l) t t1 I W1) as (k' & -> & I' & Hc & C' & S' & ?); [done| | |done| |done| | |].
    + unfold rest. rewrite Ef. done.
    + by rewrite Ecpu.
    + intros (p' & Hp' & Ht). unfold upd_queue in Ht. destruct (Z.eqb_spec p' p) as [->|Hne]; [done|].
      apply Hne. rewrite (queued_at k0 Q t tth p' W0) by done. done.
    + intros u (p' & Hp' & Hu). exists p'. split; [done|]. unfold upd_queue in Hu.
      destruct (Z.eqb_spec p' p) as [->|]; [|done]. rewrite EQ. by right.
    + intros u (p' & Hp' & Hu) Hne. exists p'. split; [done|]. unfold upd_queue.
      destruct (Z.eqb_spec p' p) as [->|]; [|done]. rewrite EQ in Hu. by apply elem_of_cons in Hu as [?|?].
    + cbn [mbind option_bind]. eexists _, _. split; [done|]. split; [done|]. split; [by exists t, l|].
      split; [by split|]. right. rewrite Hc. done.
  - rewrite P. cbn [mbind option_bind]. change (0 =? 0) with true. cbn [andb].
    change (current_thread (cpu k0)) with (current_thread (cpu k)). change (idle_thread k0) with (idle_thread k).
    destruct (Z.eqb_spec (current_thread (cpu k)) (idle_thread k)) as [Heq|Hne].
    + exists k, Q. split; [by unfold k0; rewrite set_lock_id by apply I|]. split_and!; [done|done|by left|done..|by left].
    + rewrite (proj2 (Z.eqb_neq (idle_thread k) _)) by congruence. destruct (si_idle _ _ I) as [ith Ei].
      destruct (switch_inv k k0 Q Q (idle_thread k) ith I W0) as (k' & -> & I' & Hc & C' & S' & ?); try done.
      * intros (p & Hp & Ht). rewrite (top_queue_None Q 8 Et) in Ht by (unfold valid_pri in Hp; lia).
        by apply elem_of_nil in Ht.
      * cbn [mbind option_bind]. eexists _, _. split; [done|]. split; [done|].
        split; [split; [done|by right]|]. split; [by split|]. right. rewrite Hc. split; [congruence|done].
Qed.

(** C14.  Scheduling.  In any state of the invariant [schedule] returns, and
    re-establishes the invariant: the thread at the head of the highest
    non-empty priority queue runs next (the idle thread when all queues are
    empty), the outgoing thread, if it was still running, goes to the tail of
    its own queue, and the order of all other queued threads is kept. *)
Theorem schedule_correct (k : sched) (Q : Z -> list Z) :
  sched_inv k Q ->
  exists k' Q', schedule k = Some k' /\ sched_inv k' Q' /\ schedule_result k Q k' Q' /\ same_rest k k'.
Proof.
  intros I. destruct (schedule_cases k Q I) as (k' & Q' & ? & ? & ? & ? & _). by exists k', Q'.
Qed.

(** ** The other operations *)

Lemma wfq_ext k Q Q' : (forall p, valid_pri p -> Q' p = Q p) -> wfq k Q -> wfq k Q'.
Proof. intros E [W1 W2 W3 W4]. split; [done| |done..]. intros p Hp. rewrite E by done. auto. Qed.

Lemma queued_ext Q Q' t : (forall p, valid_pri p -> Q' p = Q p) -> queued Q' t <-> queued Q t.
Proof. intros E. unfold queued. split; intros (p & Hp & Ht); exists p; (split; [done|]); first [by rewrite <- E|by rewrite E]. Qed.

(** Changing the state of the current thread to a blocked one. *)
Lemma block_current k Q ct r :
  sched_inv k Q -> threads k !! current_thread (cpu k) = Some ct -> r <> THREAD_RUNNING -> r <> THREAD_READY ->
  let k1 := set_threads k (<[current_thread (cpu k) := set_state ct r]> (threads k)) in
  sched_inv k1 Q /\ (forall u, state_at k1 u = if u =? current_thread (cpu k) then Some r else state_at k u).
Proof.
  intros I Ec Hr1 Hr2 k1. set (cur := current_thread (cpu k)) in *.
  destruct (si_cur _ _ I) as (Hq & ct' & p & Ect & H1 & H2 & H3 & H4). fold cur in Hq, Ect. rewrite Ec in Ect. simplify_eq.
  assert (Hs : forall u, state_at k1 u = if u =? cur then Some r else state_at k u).
  { intros u. unfold state_at, k1. simpl. destruct (Z.eqb_spec u cur) as [->|].
    - by rewrite lookup_insert_eq.
    - by rewrite lookup_insert_ne. }
  split; [|done]. split.
  - apply (wfq_upd k Q cur ct'); [apply I|done|done|by intros ?].
  - apply (owned_cores k); [|done|apply I]. unfold cores. simpl. by apply (upd_core_cores _ cur ct').
  - split; [done|]. exists (set_state ct' r), p. simpl. fold cur. by rewrite lookup_insert_eq.
  - simpl. destruct (si_idle _ _ I) as [ith Ei]. destruct (decide (idle_thread k = cur)) as [->|].
    + rewrite lookup_insert_eq. by eexists.
    + rewrite lookup_insert_ne by done. by eexists.
  - intros t Ht. rewrite Hs in Ht. simpl. fold cur. destruct (Z.eqb_spec t cur); [done|]. by apply (si_running _ _ I).
  - intros t Ht. rewrite Hs in Ht. simpl. destruct (Z.eqb_spec t cur); [congruence|]. by apply (si_ready _ _ I).
  - apply I.
Qed.

Lemma sched_inv_same k k' Q :
  sched_inv k Q -> wfq k' Q -> erased k' = erased k -> frame k' = frame k -> sched_inv k' Q.
Proof.
  intros I W Ee Ef. pose proof (cores_of_erased _ _ Ee) as Ec.
  apply frame_eq in Ef as (Fp & Fc & _ & _ & Fl & Fi & _).
  destruct (si_cur _ _ I) as (Hq & ct & p & Ect & H1 & H2 & H3 & H4).
  destruct (cores_lookup _ _ _ _ Ec Ect) as (ct' & Ect' & Cc). destruct (core_fields _ _ Cc) as (Np & Nv & _). split.
  - done.
  - apply (owned_cores k); [done|done|apply I].
  - rewrite Fc, Fp. split; [done|]. exists ct', p. by rewrite Np, Nv.
  - rewrite Fi. destruct (si_idle _ _ I) as [i Ei]. destruct (cores_lookup _ _ _ _ Ec Ei) as (i' & -> & _). by eexists.
  - intros t Ht. rewrite (state_erased k) in Ht by done. rewrite Fc. by apply (si_running _ _ I).
  - intros t Ht. rewrite (state_erased k) in Ht by done. rewrite Fi. by apply (si_ready _ _ I).
  - rewrite Fl. apply I.
Qed.

Lemma dequeue_absent k Q t th :
  wfq k Q -> threads k !! t = Some th -> ~ queued Q t ->
  exists k', scheduler_dequeue k t = Some k' /\ wfq k' Q /\ frame k' = frame k /\ erased k' = erased k.
Proof.
  intros W E Hq. destruct (dequeue_spec k Q t th W E) as (k' & E' & W' & Ef & Ee). exists k'.
  split_and!; try done. apply (wfq_ext k' (upd_queue Q (queue_of th) (without t (Q (queue_of th))))); [|done].
  intros p Hp. unfold upd_queue. destruct (Z.eqb_spec p (queue_of th)) as [->|]; [|done].
  rewrite without_id; [done|]. intros Ht. apply Hq. by exists (queue_of th).
Qed.

(** Blocking the current thread: [schedule] from a state of the invariant in
    which the current thread has the given state. *)
Lemma block_spec k Q r :
  sched_inv k Q -> r <> THREAD_RUNNING -> r <> THREAD_READY ->
  exists k1 k' Q', scheduler_block k r = Some k' /\ schedule k1 = Some k' /\ sched_inv k1 Q /\
    rest k1 = rest k /\ cpu k1 = cpu k /\ cores k1 = cores k /\
    (forall u, state_at k1 u = if u =? current_thread (cpu k) then Some r else state_at k u) /\
    sched_inv k' Q' /\ schedule_result k1 Q k' Q' /\ same_rest k1 k' /\
    (k' = k1 \/ (current_thread (cpu k') <> current_thread (cpu k1) /\
      forall u, state_at k' u = switched_state k1 (current_thread (cpu k1)) (current_thread (cpu k')) u)).
Proof.
  intros I Hr1 Hr2. destruct (si_cur _ _ I) as (Hq & ct & p & Ect & _). set (cur := current_thread (cpu k)) in *.
  assert (Hnz : cur <> 0) by (intros H0; rewrite H0, (wq_null _ _ (si_wfq _ _ I)) in Ect; done).
  destruct (block_current k Q ct r I Ect Hr1 Hr2) as [I1 S1]. fold cur in I1, S1.
  set (ka := set_threads k (<[cur := set_state ct r]> (threads k))) in *.
  assert (Eka : threads ka !! cur = Some (set_state ct r)) by (simpl; by rewrite lookup_insert_eq).
  destruct (dequeue_absent ka Q cur _ (si_wfq _ _ I1) Eka Hq) as (k1 & Ed & W1 & Ef & Ee).
  pose proof (sched_inv_same ka k1 Q I1 W1 Ee Ef) as I1'.
  destruct (schedule_cases k1 Q I1') as (k' & Q' & Es & I' & R & Sr & C).
  exists k1, k', Q'. split_and!; try done.
  - unfold scheduler_block. fold cur. rewrite (proj2 (Z.eqb_neq cur 0)) by done.
    rewrite (upd_thread_spec k cur ct) by done. cbn [mbind option_bind]. fold ka. rewrite Ed. done.
  - unfold rest. by rewrite Ef.
  - by apply frame_eq in Ef as (_ & -> & _).
  - rewrite (cores_of_erased _ _ Ee). unfold cores. simpl. by apply (upd_core_cores _ cur ct).
  - intros u. by rewrite (state_erased ka k1 Ee).
Qed.

(** Waking a blocked thread appends it to its queue. *)
Lemma wake_spec k Q t th :
  sched_inv k Q -> t <> current_thread (cpu k) -> threads k !! t = Some th ->
  state th = THREAD_BLOCKED \/ state th = THREAD_SLEEPING ->
  exists k', scheduler_wake k t = Some k' /\
    sched_inv k' (upd_queue Q (queue_of th) (Q (queue_of th) ++ [t])).
Proof.
  intros I Hc E Hs. assert (Hnz : t <> 0) by (intros ->; by rewrite (wq_null _ _ (si_wfq _ _ I)) in E).
  assert (Hq : ~ queued Q t).
  { intros (p & Hp & Ht). destruct (qa_mem _ _ _ (wq_at _ _ (si_wfq _ _ I) p Hp) t Ht) as (th' & E' & _ & Hr).
    rewrite E in E'. injection E' as <-. destruct Hs; congruence. }
  set (ka := set_threads k (<[t := set_state th THREAD_READY]> (threads k))).
  assert (Wa : wfq ka Q) by (apply (wfq_upd k Q t th); [apply I|done|done|by intros ?]).
  assert (Ea : threads ka !! t = Some (set_state th THREAD_READY)) by (simpl; by rewrite lookup_insert_eq).
  destruct (enqueue_spec ka Q t _ Wa Ea Hq) as (k' & E' & W' & Ef & Ee). exists k'. split.
  { unfold scheduler_wake. rewrite (proj2 (Z.eqb_neq t 0)) by done. rewrite E. cbn [mbind option_bind].
    replace (bool_decide (state th = THREAD_BLOCKED) || bool_decide (state th = THREAD_SLEEPING)) with true
      by (by destruct Hs as [-> | ->]).
    rewrite (upd_thread_spec k t th) by done. exact E'. }
  change (queue_of (set_state th THREAD_READY)) with (queue_of th) in W'.
  assert (Ec : cores k' = cores k).
  { rewrite !cores_erased, Ee. unfold erased. simpl. rewrite !fmap_insert, insert_insert_eq.
    apply (insert_id (core <$> (erase <$> threads k))). by rewrite !lookup_fmap, E. }
  assert (Es : forall u, state_at k' u = if u =? t then Some THREAD_READY else state_at k u).
  { intros u. apply (f_equal (fun m => state <$> m !! u)) in Ee. unfold erased in Ee. simpl in Ee.
    rewrite fmap_insert, insert_insert_eq in Ee. unfold state_at. destruct (Z.eqb_spec u t) as [->|Hne].
    - rewrite lookup_insert_eq, lookup_fmap in Ee. destruct (threads k' !! t); exact Ee.
    - rewrite lookup_insert_ne, !lookup_fmap, <- !option_fmap_compose in Ee by done. exact Ee. }
  apply frame_eq in Ef as (Fp & Fc & _ & _ & Fl & Fi & _). simpl in Fp, Fc, Fl, Fi.
  destruct (si_cur _ _ I) as (Hqc & ct & p & Ect & H1 & H2 & H3 & H4).
  destruct (cores_lookup _ _ _ _ Ec Ect) as (ct' & Ect' & Cc). destruct (core_fields _ _ Cc) as (Np & Nv & _).
  assert (Hqu : forall u, queued (upd_queue Q (queue_of th) (Q (queue_of th) ++ [t])) u <-> queued Q u \/ u = t).
  { intros u. pose proof (queue_of_valid _ _ _ _ (si_wfq _ _ I) E) as Hv. unfold queued, upd_queue. split.
    - intros (p' & Hp' & Hu). destruct (Z.eqb_spec p' (queue_of th)) as [->|]; [|left; by exists p'].
      apply elem_of_app in Hu as [Hu|Hu%list_elem_of_singleton]; [left; by exists (queue_of th)|by right].
    - intros [(p' & Hp' & Hu)| ->].
      + exists p'. split; [done|]. destruct (Z.eqb_spec p' (queue_of th)) as [->|]; [|done]. set_solver.
      + exists (queue_of th). rewrite Z.eqb_refl. split; [done|set_solver]. }
  split.
  - done.
  - apply (owned_cores k); [done|done|apply I].
  - rewrite Fc, Fp. rewrite Hqu. split; [naive_solver|]. exists ct', p. by rewrite Np, Nv.
  - rewrite Fi. destruct (si_idle _ _ I) as [i Ei]. destruct (cores_lookup _ _ _ _ Ec Ei) as (i' & -> & _). by eexists.
  - intros u Hu. rewrite Es in Hu. rewrite Fc. destruct (u =? t); [done|]. by apply (si_running _ _ I).
  - intros u Hu. rewrite Es in Hu. rewrite Fi, Hqu. destruct (Z.eqb_spec u t); [by left; right|].
    destruct (si_ready _ _ I u Hu); [by left; left|by right].
  - rewrite Fl. apply I.
Qed.
