(* ===== verification/SchedLive.v ===== *)
(** Runs of the scheduler: the invariant of all reachable states, progress of
    every operation, round-robin service, sleeping threads, start-up, and a
    concrete machine with an idle thread and two workers. *)
From stdpp Require Import prelude gmap list relations.
From Stdlib Require Import ZArith Lia.
From S2P Require Import Prelude Task Sched SchedSpec SchedThm.

Open Scope Z_scope.

(** The entries into the scheduler while it runs: the timer interrupt, a
    voluntary [schedule], blocking and sleeping of the current thread (never
    idle), and waking another thread. *)
Inductive sched_op :=
| OpTimer
| OpYield
| OpBlock
| OpSleep (ms : Z)
| OpWake (t : Z).

Definition sched_exec (o : sched_op) (k : sched) : option sched :=
  match o with
  | OpTimer => scheduler_timer_handler k
  | OpYield => schedule k
  | OpBlock => scheduler_block k THREAD_BLOCKED
  | OpSleep ms => thread_sleep_ms k ms
  | OpWake t => scheduler_wake k t
  end.

Definition op_allowed (k : sched) (o : sched_op) : Prop :=
  match o with
  | OpTimer | OpYield => True
  | OpBlock | OpSleep _ => current_thread (cpu k) <> idle_thread k
  | OpWake t => t <> current_thread (cpu k) /\ (t = 0 \/ is_Some (threads k !! t))
  end.

Inductive sched_step : sched -> sched -> Prop :=
| sched_step_exec k o k' : op_allowed k o -> sched_exec o k = Some k' -> sched_step k k'.

(** The same without wake-ups. *)
Inductive nowake_step : sched -> sched -> Prop :=
| nowake_step_exec k o k' :
    op_allowed k o -> (forall t, o <> OpWake t) -> sched_exec o k = Some k' -> nowake_step k k'.

Lemma inv_scalars k Q n a pt :
  sched_inv k Q -> sched_inv (set_pit_ticks (set_sched_active (set_tick_counter k n) a) pt) Q.
Proof. intros [W O C I R Y L]. split; try done. by apply (wfq_same k). Qed.

Lemma inv_ticks k Q n : sched_inv k Q -> sched_inv (set_tick_counter k n) Q.
Proof. intros [W O C I R Y L]. split; try done. by apply (wfq_same k). Qed.

Lemma inv_pit k Q n : sched_inv k Q -> sched_inv (set_pit_ticks k n) Q.
Proof. intros [W O C I R Y L]. split; try done. by apply (wfq_same k). Qed.

(** Setting the wake-up time of the current thread. *)
Lemma inv_sleep_until k Q ct ms :
  sched_inv k Q -> threads k !! current_thread (cpu k) = Some ct ->
  sched_inv (set_threads k (<[current_thread (cpu k) := set_sleep_until ct ms]> (threads k))) Q.
Proof.
  intros I Ec. set (cur := current_thread (cpu k)) in *.
  destruct (si_cur _ _ I) as (Hq & ct' & p & Ect & H1 & H2 & H3 & H4). fold cur in Hq, Ect. rewrite Ec in Ect.
  injection Ect as <-. set (k1 := set_threads k _).
  assert (Hs : forall u, state_at k1 u = state_at k u).
  { intros u. unfold state_at, k1. simpl. destruct (decide (u = cur)) as [->|].
    - by rewrite lookup_insert_eq, Ec.
    - by rewrite lookup_insert_ne. }
  assert (Ht : forall u th, threads k1 !! u = Some th -> exists th0, threads k !! u = Some th0 /\ process_of th = process_of th0).
  { intros u th. unfold k1. simpl. destruct (decide (u = cur)) as [->|].
    - rewrite lookup_insert_eq. intros [= <-]. by exists ct.
    - rewrite lookup_insert_ne by done. intros E. by exists th. }
  split.
  - apply (wfq_upd k Q cur ct); [apply I|done..].
  - intros t th Et. destruct (Ht t th Et) as (th0 & E0 & ->). by apply (si_owned _ _ I t).
  - split; [done|]. exists (set_sleep_until ct ms), p. simpl. fold cur. by rewrite lookup_insert_eq.
  - simpl. destruct (si_idle _ _ I) as [i Ei]. destruct (decide (idle_thread k = cur)) as [->|].
    + rewrite lookup_insert_eq. by eexists.
    + rewrite lookup_insert_ne by done. by eexists.
  - intros t. rewrite Hs. apply (si_running _ _ I).
  - intros t. rewrite Hs. apply (si_ready _ _ I).
  - apply I.
Qed.

Lemma sleep_unfold k Q ms :
  sched_inv k Q -> exists ct k1,
    threads k !! current_thread (cpu k) = Some ct /\
    k1 = set_threads k (<[current_thread (cpu k) := set_sleep_until ct (u64 (pit_ticks k + ms))]> (threads k)) /\
    thread_sleep_ms k ms = scheduler_block k1 THREAD_SLEEPING /\ sched_inv k1 Q /\
    (forall u, state_at k1 u = state_at k u).
Proof.
  intros I. destruct (si_cur _ _ I) as (Hq & ct & p & Ect & _). exists ct. eexists. split; [done|]. split; [done|].
  assert (Hnz : current_thread (cpu k) <> 0) by (intros H0; rewrite H0, (wq_null _ _ (si_wfq _ _ I)) in Ect; done).
  split_and!.
  - unfold thread_sleep_ms. rewrite (proj2 (Z.eqb_neq _ 0)) by done. by rewrite (upd_thread_spec k _ ct).
  - by apply inv_sleep_until.
  - intros u. unfold state_at. simpl. destruct (decide (u = current_thread (cpu k))) as [->|].
    + by rewrite lookup_insert_eq, Ect.
    + by rewrite lookup_insert_ne.
Qed.

(** Every entry returns and re-establishes the invariant. *)
Lemma exec_inv k Q o :
  sched_inv k Q -> op_allowed k o -> exists k' Q', sched_exec o k = Some k' /\ sched_inv k' Q'.
Proof.
  intros I Ha. destruct o; simpl in *.
  - unfold scheduler_timer_handler. destruct (nonzero _); simpl; [|by eexists _, Q; split; [done|apply inv_pit]].
    unfold scheduler_tick. simpl. case_bool.
    + match goal with |- context [schedule ?x] => destruct (schedule_cases x Q) as (k' & Q' & ? & ? & _) end;
        [by apply inv_ticks, inv_ticks, inv_pit|by exists k', Q'].
    + eexists _, Q. split; [done|]. by apply inv_ticks, inv_pit.
  - destruct (schedule_cases k Q I) as (k' & Q' & ? & ? & _). by exists k', Q'.
  - destruct (block_spec k Q THREAD_BLOCKED I) as (k1 & k' & Q' & ? & _ & _ & _ & _ & _ & _ & ? & _); [done..|]. by exists k', Q'.
  - destruct (sleep_unfold k Q ms I) as (ct & k1 & _ & _ & -> & I1 & _).
    destruct (block_spec k1 Q THREAD_SLEEPING I1) as (k2 & k' & Q' & ? & _ & _ & _ & _ & _ & _ & ? & _); [done..|]. by exists k', Q'.
  - destruct Ha as [Hc [->|[th Eth]]]; [by exists k, Q|].
    destruct (decide (state th = THREAD_BLOCKED \/ state th = THREAD_SLEEPING)) as [Hs|Hs].
    + destruct (wake_spec k Q t th I Hc Eth Hs) as (k' & ? & ?). by eexists _, _.
    + exists k, Q. split; [|done]. unfold scheduler_wake. destruct (t =? 0); [done|]. rewrite Eth. cbn [mbind option_bind].
      rewrite !bool_decide_eq_false_2 by tauto. done.
Qed.

(** C15.  In every state reachable by timer interrupts, yields, blocking, sleeping
    and wake-ups: at most the current thread is running, a ready thread is in
    exactly the queue of its priority, once, unless it is the idle thread that
    has not run yet, the page tables and kernel stack in use are the current
    thread's; and the next entry into the scheduler returns as well. *)
Theorem scheduler_reachable (k k' : sched) (Q : Z -> list Z) :
  sched_inv k Q -> rtc sched_step k k' ->
  exists Q', sched_inv k' Q' /\ forall o, op_allowed k' o -> is_Some (sched_exec o k').
Proof.
  intros I R. assert (exists Q', sched_inv k' Q') as [Q' I'].
  { revert Q I. induction R as [x|x y z [x' o y' Ha E] _ IH]; intros Q I; [by exists Q|].
    destruct (exec_inv x' Q o I Ha) as (y'' & Q1 & E1 & I1). rewrite E in E1. injection E1 as <-. by apply (IH Q1). }
  exists Q'. split; [done|]. intros o Ha. destruct (exec_inv k' Q' o I' Ha) as (? & ? & -> & _). by eexists.
Qed.

(** ** Sleeping threads *)

(** The thread chosen by [schedule] was ready or is idle. *)
Lemma chosen_ready k Q k' Q' :
  sched_inv k Q -> schedule_result k Q k' Q' ->
  state_at k (current_thread (cpu k')) = Some THREAD_READY \/ current_thread (cpu k') = idle_thread k.
Proof.
  unfold schedule_result. intros I. destruct (top_queue Q 8) as [p|] eqn:Et; [|intros [? _]; by right].
  intros (t & l & EQ & -> & _). left. apply top_queue_Some in Et as (Hp & _).
  destruct (qa_mem _ _ _ (wq_at _ _ (si_wfq _ _ I) p ltac:(unfold valid_pri; lia)) t) as (th & E & _ & Hs); [rewrite EQ; by left|].
  unfold state_at. rewrite E. simpl. by rewrite Hs.
Qed.

Definition asleep (k : sched) (t : Z) : Prop :=
  (exists Q, sched_inv k Q) /\ state_at k t = Some THREAD_SLEEPING /\ t <> current_thread (cpu k) /\ t <> idle_thread k.

Lemma schedule_asleep k Q k' Q' t :
  sched_inv k Q -> sched_inv k' Q' -> schedule_result k Q k' Q' -> same_rest k k' ->
  (k' = k \/ (current_thread (cpu k') <> current_thread (cpu k) /\
      forall u, state_at k' u = switched_state k (current_thread (cpu k)) (current_thread (cpu k')) u)) ->
  state_at k t = Some THREAD_SLEEPING -> t <> idle_thread k ->
  (k' = k -> t <> current_thread (cpu k)) -> asleep k' t.
Proof.
  intros I I' R Sr C Hs Hi Hc. pose proof Sr as (_ & _ & _ & _ & Ei & _).
  assert (Hn : t <> current_thread (cpu k')).
  { intros ->. destruct (chosen_ready k Q k' Q' I R); congruence. }
  split_and!; [by exists Q'| |done|congruence]. destruct C as [->|[_ C]]; [done|]. rewrite C. unfold switched_state.
  rewrite (proj2 (Z.eqb_neq t _)) by done. destruct (Z.eqb_spec t (current_thread (cpu k))) as [->|]; [|done].
  rewrite bool_decide_eq_false_2 by congruence. done.
Qed.

Lemma exec_asleep k o k' t :
  asleep k t -> op_allowed k o -> (forall u, o <> OpWake u) -> sched_exec o k = Some k' -> asleep k' t.
Proof.
  intros ([Q I] & Hs & Hc & Hi) Ha Hw E.
  assert (Sch : forall k0 k1, sched_inv k0 Q -> state_at k0 t = Some THREAD_SLEEPING ->
    t <> current_thread (cpu k0) -> t <> idle_thread k0 -> schedule k0 = Some k1 -> asleep k1 t).
  { intros k0 k1 I0 Hs0 Hc0 Hi0 E0. destruct (schedule_cases k0 Q I0) as (k1' & Q1 & E1 & I1 & R1 & Sr & C).
    rewrite E0 in E1. injection E1 as <-. by apply (schedule_asleep k0 Q k1 Q1). }
  assert (Blk : forall k0 k1 r, sched_inv k0 Q -> state_at k0 t = Some THREAD_SLEEPING ->
    t <> current_thread (cpu k0) -> t <> idle_thread k0 -> r <> THREAD_RUNNING -> r <> THREAD_READY ->
    scheduler_block k0 r = Some k1 -> asleep k1 t).
  { intros k0 k1 r I0 Hs0 Hc0 Hi0 Hr1 Hr2 E0.
    destruct (block_spec k0 Q r I0 Hr1 Hr2) as (kb & k1' & Q1 & E1 & Es & Ib & Rb & Cb & _ & Sb & _).
    rewrite E0 in E1. injection E1 as <-. apply rest_eq in Rb as (_ & _ & _ & _ & Ri & _).
    apply (Sch kb); [done| |by rewrite Cb|by rewrite Ri|done]. by rewrite Sb, (proj2 (Z.eqb_neq t _)). }
  destruct o; simpl in *.
  - unfold scheduler_timer_handler in E. destruct (nonzero _); simpl in E.
    + unfold scheduler_tick in E. simpl in E. destruct (_ <=? _).
      * by apply (Sch _ _ (inv_ticks _ _ _ (inv_ticks _ _ _ (inv_pit _ _ _ I))) Hs Hc Hi E).
      * injection E as <-. split_and!; [exists Q; by apply inv_ticks, inv_pit|done..].
    + injection E as <-. split_and!; [exists Q; by apply inv_pit|done..].
  - by apply (Sch k).
  - by apply (Blk k k' THREAD_BLOCKED).
  - destruct (sleep_unfold k Q ms I) as (ct & k1 & _ & Ek1 & Eq & I1 & S1). rewrite Eq in E.
    apply (Blk k1 k' THREAD_SLEEPING); try done; [by rewrite S1|by rewrite Ek1|by rewrite Ek1].
  - by destruct (Hw t0).
Qed.

(** [thread_sleep_ms] only returns through [scheduler_wake].  Once the current
    thread has called it, no number of timer ticks, however far beyond its
    wake-up time, and no other scheduler entry lets it run again, because the
    search for expired sleepers in [pick_next] goes through the ready queues,
    which [scheduler_block] has taken it out of. *)
Theorem sleeping_thread_never_runs (k k1 k2 : sched) (Q : Z -> list Z) (ms : Z) :
  sched_inv k Q -> current_thread (cpu k) <> idle_thread k ->
  thread_sleep_ms k ms = Some k1 -> rtc nowake_step k1 k2 ->
  state_at k2 (current_thread (cpu k)) = Some THREAD_SLEEPING /\
  current_thread (cpu k2) <> current_thread (cpu k).
Proof.
  intros I Hni E R. set (t := current_thread (cpu k)) in *.
  assert (A : asleep k1 t).
  { destruct (sleep_unfold k Q ms I) as (ct & ka & _ & Eka & Eq & Ia & Sa). rewrite Eq in E.
    destruct (block_spec ka Q THREAD_SLEEPING Ia) as (kb & k1' & Q1 & E1 & Es & Ib & Rb & Cb & _ & Sb & I1 & R1 & Sr & C); [done..|].
    rewrite E in E1. injection E1 as <-. apply rest_eq in Rb as (_ & _ & _ & _ & Ri & _).
    assert (Et : current_thread (cpu ka) = t) by by rewrite Eka. assert (Ei : idle_thread kb = idle_thread k) by by rewrite Ri, Eka.
    assert (Hst : state_at kb t = Some THREAD_SLEEPING) by by rewrite Sb, Et, Z.eqb_refl.
    apply (schedule_asleep kb Q k1 Q1); try done; [by rewrite Ei|]. intros ->. exfalso.
    destruct (chosen_ready kb Q kb Q1 Ib R1) as [Hr|Hr]; rewrite Cb, Et in Hr; congruence. }
  clear E I Hni. assert (A2 : asleep k2 t).
  { revert A. generalize t. clear t. induction R as [|x y z [x' o y' Ha Hw E] _ IH]; [done|].
    intros t A. apply IH. by apply (exec_asleep x' o y' t). }
  destruct A2 as (_ & ? & ? & _). split; [done|congruence].
Qed.

(** ** Round robin *)

Fixpoint schedules (n : nat) (k : sched) : option sched :=
  match n with
  | O => Some k
  | S n => k' ← schedule k; schedules n k'
  end.

(** The current thread is running, with a priority of at most [p]. *)
Definition running_below (k : sched) (p : Z) : Prop :=
  exists ct, threads k !! current_thread (cpu k) = Some ct /\ state ct = THREAD_RUNNING /\ queue_of ct <= p.

Lemma top_queue_intro Q p n :
  0 <= p < Z.of_nat n -> Q p <> [] -> (forall p', p < p' < Z.of_nat n -> Q p' = []) -> top_queue Q n = Some p.
Proof.
  induction n as [|n IH]; intros Hp Hne Hab; [lia|]. simpl. destruct (decide (p = Z.of_nat n)) as [->|].
  - by destruct (Q (Z.of_nat n)).
  - rewrite Hab by lia. apply IH; [lia|done|]. intros p' Hp'. apply Hab. lia.
Qed.

(** One round: the head of the top queue runs, the rest of the queue moves up. *)
Lemma schedule_round k Q p h l :
  sched_inv k Q -> top_queue Q 8 = Some p -> Q p = h :: l -> l <> [] -> running_below k p ->
  exists k' Q' tl, schedule k = Some k' /\ sched_inv k' Q' /\ top_queue Q' 8 = Some p /\ Q' p = l ++ tl /\
    current_thread (cpu k') = h /\ running_below k' p.
Proof.
  intros I Et EQ Hl (ct & Ect & Hr & Hle). pose proof (top_queue_Some Q 8 p Et) as (Hp & _ & Hab).
  destruct (schedule_cases k Q I) as (k' & Q' & E & I' & R & (Ec & _) & C). unfold schedule_result in R. rewrite Et in R.
  destruct R as (t & l' & EQ' & Hc & ->). rewrite EQ in EQ'. injection EQ' as <- <-.
  pose proof (wq_at _ _ (si_wfq _ _ I) p ltac:(unfold valid_pri; lia)) as A. rewrite EQ in A.
  destruct (qa_mem _ _ _ A h) as (hth & Eh & Hph & _); [by left|].
  assert (Hne : k' <> k).
  { intros ->. apply (proj1 (si_cur _ _ I)). rewrite Hc. exists p. split; [unfold valid_pri; lia|]. rewrite EQ. by left. }
  destruct C as [?|[_ C]]; [done|].
  assert (Hq : requeue k (upd_queue Q p l) (current_thread (cpu k)) =
    upd_queue (upd_queue Q p l) (queue_of ct) (upd_queue Q p l (queue_of ct) ++ [current_thread (cpu k)])).
  { unfold requeue. rewrite Ect, bool_decide_eq_true_2; done. }
  rewrite Hq in *.
  assert (Hp' : exists tl, upd_queue (upd_queue Q p l) (queue_of ct) (upd_queue Q p l (queue_of ct) ++ [current_thread (cpu k)]) p = l ++ tl).
  { unfold upd_queue at 1. destruct (Z.eqb_spec p (queue_of ct)) as [<-|].
    - rewrite upd_queue_eq. by eexists.
    - rewrite upd_queue_eq. exists []. by rewrite app_nil_r. }
  set (Q' := upd_queue (upd_queue Q p l) _ _) in *. destruct Hp' as [tl Hp']. exists k', Q', tl. split_and!; [done|exact I'| |done|done|].
  - apply top_queue_intro; [done|rewrite Hp'; by destruct l|]. intros p' Hp''. unfold Q', upd_queue.
    rewrite (proj2 (Z.eqb_neq p' (queue_of ct))), (proj2 (Z.eqb_neq p' p)) by lia. by apply Hab.
  - destruct (cores_lookup _ _ _ _ Ec Eh) as (hth' & Eh' & Ch). unfold running_below. rewrite Hc. exists hth'.
    split_and!; [done| |].
    + specialize (C h). unfold switched_state, state_at in C. rewrite Hc, Z.eqb_refl, Eh' in C. by injection C.
    + apply queue_of_core in Ch. lia.
Qed.

(** C16.  Round robin.  A thread that waits at position [i] of the highest non-empty
    queue, while the current thread is running at no higher priority, is the
    current thread after exactly [i + 1] reschedulings. *)
Theorem round_robin (k : sched) (Q : Z -> list Z) (p t : Z) (before after : list Z) :
  sched_inv k Q -> top_queue Q 8 = Some p -> Q p = before ++ t :: after -> running_below k p ->
  exists k', schedules (S (length before)) k = Some k' /\ current_thread (cpu k') = t.
Proof.
  revert k Q after. induction before as [|h before IH]; intros k Q after I Et EQ Hr.
  - destruct (schedule_cases k Q I) as (k' & Q' & E & _ & R & _). unfold schedule_result in R. rewrite Et in R.
    destruct R as (t' & l & EQ' & Hc & _). rewrite EQ in EQ'. injection EQ' as <- _. exists k'. simpl. by rewrite E.
  - destruct (schedule_round k Q p h (before ++ t :: after) I Et EQ) as (k' & Q' & tl & E & I' & Et' & EQ' & _ & Hr');
      [by destruct before|done|].
    rewrite <- app_assoc in EQ'. simpl in EQ'. destruct (IH k' Q' (after ++ tl) I' Et' EQ' Hr') as (k2 & E2 & Hc).
    exists k2. split; [|done]. change (length (h :: before)) with (S (length before)).
    change (schedules (S (S (length before))) k) with (k' ← schedule k; schedules (S (length before)) k').
    by rewrite E.
Qed.

(** ** Start-up *)

(** Before [scheduler_start]: no current thread, and nobody has run. *)
Record boot_ok (k : sched) (Q : Z -> list Z) : Prop := {
  bo_wfq : wfq k Q;
  bo_owned : owned k;
  bo_idle : is_Some (threads k !! idle_thread k) /\ ~ queued Q (idle_thread k);
  bo_none : current_thread (cpu k) = 0;
  bo_running : forall t, state_at k t <> Some THREAD_RUNNING;
  bo_ready : forall t, state_at k t = Some THREAD_READY -> queued Q t \/ t = idle_thread k;
  bo_lock : sched_lock k = 0
}.

Lemma start_with k k1 Q first :
  boot_ok k Q -> forall Q1, wfq k1 Q1 -> erased k1 = erased k -> frame k1 = frame k -> is_Some (threads k1 !! first) ->
  ~ queued Q1 first -> (forall u, queued Q u -> u <> first -> queued Q1 u) ->
  exists k',
    (k2 ← upd_thread k1 first (fun th => set_state th THREAD_RUNNING);
     ft ← threads k2 !! first;
     fp ← procs k2 !! process_of ft;
     Some (set_sched_active
       (set_cpu k2 (Cpu first (process_of ft) (proc_cr3 fp) (kstack_rsp ft + 56) (kstack_virt ft) (kstack_virt ft))) 1)) = Some k' /\
    sched_inv k' Q1 /\ current_thread (cpu k') = first /\ state_at k' first = Some THREAD_RUNNING /\ sched_active k' = 1.
Proof.
  intros B Q1 W1 Ee Ef [fth E] Hq Hsup. pose proof (cores_of_erased _ _ Ee) as Ec.
  apply frame_eq in Ef as (Fp & _ & _ & _ & Fl & Fi & _).
  rewrite (upd_thread_spec k1 first fth) by done. cbn [mbind option_bind threads set_threads procs]. rewrite lookup_insert_eq.
  cbn [mbind option_bind process_of set_state]. destruct (owned_cores k k1 Ec Fp (bo_owned _ _ B) first fth E) as [Hp [fp Efp]].
  rewrite Efp. cbn [mbind option_bind]. eexists. split; [done|].
  set (k2 := set_threads k1 (<[first := set_state fth THREAD_RUNNING]> (threads k1))).
  assert (S2 : forall u, state_at k2 u = if u =? first then Some THREAD_RUNNING else state_at k u).
  { intros u. rewrite <- (state_erased k k1 Ee u). unfold state_at, k2. simpl. destruct (Z.eqb_spec u first) as [->|].
    - by rewrite lookup_insert_eq.
    - by rewrite lookup_insert_ne. }
  split; [split|split_and!]; try done.
  - apply (wfq_same k2); [done..|]. apply (wfq_upd k1 Q1 first fth); [done|done|done|by intros ?].
  - apply (owned_cores k); [|done|apply B]. rewrite <- Ec. unfold cores. simpl. by apply (upd_core_cores _ first fth).
  - split; [done|]. exists (set_state fth THREAD_RUNNING), fp. simpl. by rewrite lookup_insert_eq.
  - simpl. rewrite Fi. destruct (bo_idle _ _ B) as [[ith Ei] _]. destruct (cores_lookup _ _ _ _ Ec Ei) as (i1 & Ei1 & _).
    destruct (decide (idle_thread k = first)) as [->|]; [rewrite lookup_insert_eq|rewrite lookup_insert_ne by done]; by eexists.
  - intros u Hu. change (state_at k2 u = Some THREAD_RUNNING) in Hu. rewrite S2 in Hu. simpl.
    destruct (Z.eqb_spec u first); [done|]. by apply (bo_running _ _ B) in Hu.
  - intros u Hu. change (state_at k2 u = Some THREAD_READY) in Hu. rewrite S2 in Hu. simpl. rewrite Fi.
    destruct (Z.eqb_spec u first); [done|]. destruct (bo_ready _ _ B u Hu); [left; by apply Hsup|by right].
  - simpl. rewrite Fl. apply B.
  - change (state_at k2 first = Some THREAD_RUNNING). by rewrite S2, Z.eqb_refl.
Qed.

(** Starting.  From the state that initialisation leaves, [scheduler_start]
    picks the head of the highest non-empty queue (idle when there is none),
    loads its address space and stack, enables preemption and establishes the
    scheduler invariant. *)
Theorem scheduler_start_correct (k : sched) (Q : Z -> list Z) :
  boot_ok k Q ->
  exists k' Q', scheduler_start k = Some k' /\ sched_inv k' Q' /\ sched_active k' = 1 /\
    state_at k' (current_thread (cpu k')) = Some THREAD_RUNNING /\
    match top_queue Q 8 with
    | Some p => exists l, Q p = current_thread (cpu k') :: l /\ Q' = upd_queue Q p l
    | None => current_thread (cpu k') = idle_thread k /\ Q' = Q
    end.
Proof.
  intros B. unfold scheduler_start. pose proof (bo_wfq _ _ B) as W. pose proof (pick_next_spec k Q W) as P.
  destruct (top_queue Q 8) as [p|] eqn:Et.
  - destruct P as (t & l & k1 & EQ & -> & W1 & Ef & Ee). cbn [mbind option_bind].
    apply top_queue_Some in Et as (Hp & _ & _). assert (Hvp : valid_pri p) by (unfold valid_pri; lia).
    pose proof (wq_at _ _ W p Hvp) as A. rewrite EQ in A. destruct (qa_mem _ _ _ A t) as (tth & Eth & Hpt & _); [by left|].
    pose proof (qa_nodup _ _ _ A) as [Nt _]%NoDup_cons.
    assert (Hnz : t <> 0) by (intros ->; by rewrite (wq_null _ _ W) in Eth). rewrite (proj2 (Z.eqb_neq t 0)) by done.
    destruct (start_with k k1 Q t B _ W1 Ee Ef) as (k' & -> & I & Hc & Hs & Ha).
    + apply (erased_lookup k) in Eth as Et1. rewrite <- Ee in Et1. apply erased_inv in Et1 as (t1 & -> & _). by eexists.
    + intros (p' & Hp' & Ht). unfold upd_queue in Ht. destruct (Z.eqb_spec p' p) as [->|Hne]; [done|].
      apply Hne. rewrite (queued_at k Q t tth p' W) by done. done.
    + intros u (p' & Hp' & Hu) Hne. exists p'. split; [done|]. unfold upd_queue.
      destruct (Z.eqb_spec p' p) as [->|]; [|done]. rewrite EQ in Hu. by apply elem_of_cons in Hu as [?|?].
    + exists k', (upd_queue Q p l). rewrite Hc. split_and!; try done. by exists l.
  - rewrite P. cbn [mbind option_bind]. change (0 =? 0) with true. destruct (bo_idle _ _ B) as [Hi Hq].
    destruct (start_with k k Q (idle_thread k) B Q W eq_refl eq_refl Hi Hq) as (k' & -> & I & Hc & Hs & Ha); [by intros u ? _|].
    exists k', Q. rewrite Hc. split_and!; done.
Qed.

(** ** A concrete machine: the idle thread at 100, two workers at 200 and 300 *)

Definition demo_thread (id pri next proc : Z) : thread :=
  Thread id THREAD_READY pri (id * 4096) (id * 4096 + 4096) (id * 4096 + 4016) 0 0 next proc.

Definition demo_process (id cr3 : Z) : process :=
  Process id 0 PROC_ALIVE 0 0 0 0 cr3 0 1 0 0 0 0 0 0 0 0 0.

Definition demo_boot : sched :=
  Sched (<[100 := demo_thread 0 0 0 1]> (<[200 := demo_thread 1 4 300 2]> (<[300 := demo_thread 2 4 0 2]> ∅)))
        (<[1 := demo_process 0 4096]> (<[2 := demo_process 1 8192]> ∅))
        [0; 0; 0; 0; 200; 0; 0; 0] [0; 0; 0; 0; 300; 0; 0; 0] (Cpu 0 0 0 0 0 0) 0 0 0 100 0.

Definition demo_queues (p : Z) : list Z := if p =? 4 then [200; 300] else [].

Lemma demo_threads t th : threads demo_boot !! t = Some th ->
  (t = 100 /\ th = demo_thread 0 0 0 1) \/ (t = 200 /\ th = demo_thread 1 4 300 2) \/ (t = 300 /\ th = demo_thread 2 4 0 2).
Proof. unfold demo_boot. simpl. rewrite !lookup_insert_Some, lookup_empty. naive_solver. Qed.

Lemma demo_wfq : wfq demo_boot demo_queues.
Proof.
  split; [done| | |done].
  - intros p Hp. unfold demo_queues. destruct (Z.eqb_spec p 4) as [->|Hne].
    + split.
      * simpl. split_and!; [done..|]. exists (demo_thread 1 4 300 2). split; [done|]. split_and!; [done..|].
        exists (demo_thread 2 4 0 2). done.
      * intros t [= <-]. done.
      * intros t [->|[->|?%elem_of_nil]%elem_of_cons]%elem_of_cons; [| |done].
        -- exists (demo_thread 1 4 300 2). done.
        -- exists (demo_thread 2 4 0 2). done.
      * apply NoDup_cons. split; [|apply NoDup_singleton]. by rewrite list_elem_of_singleton.
    + assert (p = 0 \/ p = 1 \/ p = 2 \/ p = 3 \/ p = 5 \/ p = 6 \/ p = 7) as Hc by (unfold valid_pri in Hp; lia).
      split; [|done|by intros t ?%elem_of_nil|constructor].
      by destruct Hc as [->|[->|[->|[->|[->|[->| ->]]]]]].
  - intros t th [[-> ->]|[[-> ->]|[-> ->]]]%demo_threads; simpl; lia.
Qed.

Lemma demo_boot_ok : boot_ok demo_boot demo_queues.
Proof.
  split.
  - exact demo_wfq.
  - intros t th [[-> ->]|[[-> ->]|[-> ->]]]%demo_threads; simpl; (split; [done|by eexists]).
  - split; [by eexists|]. intros (p & Hp & Ht). unfold demo_queues in Ht. destruct (p =? 4); [|by apply elem_of_nil in Ht].
    set_solver by lia.
  - done.
  - intros t Ht. unfold state_at in Ht. destruct (threads demo_boot !! t) as [th|] eqn:E; [|done].
    apply demo_threads in E as [[-> ->]|[[-> ->]|[-> ->]]]; done.
  - intros t Ht. unfold state_at in Ht. destruct (threads demo_boot !! t) as [th|] eqn:E; [|done].
    apply demo_threads in E as [[-> ->]|[[-> ->]|[-> ->]]]; [by right|left; exists 4; split; [done|left]|left; exists 4; split; [done|right; left]].
  - done.
Qed.

(** The started machine: 200 runs, 300 waits. *)
Definition demo_started : sched := default demo_boot (scheduler_start demo_boot).

Definition demo_queues1 : Z -> list Z := upd_queue demo_queues 4 [300].

Lemma demo_started_inv : sched_inv demo_started demo_queues1.
Proof.
  pose proof (pick_next_spec demo_boot demo_queues demo_wfq) as P.
  change (top_queue demo_queues 8) with (Some 4) in P. destruct P as (t & l & k1 & EQ & E & W1 & Ef & Ee).
  injection EQ as <- <-.
  destruct (start_with demo_boot k1 demo_queues 200 demo_boot_ok _ W1 Ee Ef) as (k' & E' & I & _).
  - assert (E1 : erased demo_boot !! 200 = Some (erase (demo_thread 1 4 300 2))) by done.
    rewrite <- Ee in E1. apply erased_inv in E1 as (t1 & -> & _). by eexists.
  - intros (p & Hp & Ht). unfold upd_queue, demo_queues in Ht. destruct (p =? 4) eqn:Ep; [set_solver by lia|by apply elem_of_nil in Ht].
  - intros u (p & Hp & Hu) Hne. exists p. split; [done|]. unfold upd_queue, demo_queues in *.
    destruct (p =? 4); [|done]. by apply elem_of_cons in Hu as [?|?].
  - unfold demo_started, scheduler_start. rewrite E. cbn [mbind option_bind]. change (200 =? 0) with false. cbv iota.
    rewrite E'. exact I.
Qed.

Lemma schedule_correct_witness :
  exists k', schedule demo_started = Some k' /\ current_thread (cpu demo_started) = 200 /\ current_thread (cpu k') = 300.
Proof.
  destruct (schedule_correct demo_started demo_queues1 demo_started_inv) as (k' & Q' & E & _ & R & _).
  exists k'. split; [exact E|]. split; [vm_compute; reflexivity|].
  unfold schedule_result in R. change (top_queue demo_queues1 8) with (Some 4) in R.
  destruct R as (t & l & EQ & Hc & _). injection EQ as <- _. exact Hc.
Defined.

Definition demo_later : sched := default demo_started (schedule demo_started).

Lemma demo_later_step : sched_step demo_started demo_later.
Proof. apply (sched_step_exec _ OpYield); [exact I|]. vm_compute. reflexivity. Qed.

Lemma scheduler_reachable_witness : exists Q', sched_inv demo_later Q' /\ current_thread (cpu demo_later) = 300.
Proof.
  destruct (scheduler_reachable demo_started demo_later demo_queues1 demo_started_inv
    (rtc_once _ _ demo_later_step)) as (Q' & I' & _).
  exists Q'. split; [exact I'|vm_compute; reflexivity].
Defined.

Lemma round_robin_witness :
  exists k', schedules 1 demo_started = Some k' /\ current_thread (cpu k') = 300.
Proof.
  apply (round_robin demo_started demo_queues1 4 300 [] [] demo_started_inv);
    [vm_compute; reflexivity|vm_compute; reflexivity|].
  eexists. split; [vm_compute; reflexivity|]. split; [reflexivity|vm_compute; discriminate].
Defined.

(** 200 sleeps for 5 ms; then 2,000 timer interrupts. *)
Definition demo_slept : sched := default demo_started (thread_sleep_ms demo_started 5).

Fixpoint timer_ticks (n : nat) (k : sched) : sched :=
  match n with
  | O => k
  | S n => timer_ticks n (default k (scheduler_timer_handler k))
  end.

Lemma timer_ticks_steps n : forall k Q, sched_inv k Q -> rtc nowake_step k (timer_ticks n k).
Proof.
  induction n as [|n IH]; intros k Q I; [apply rtc_refl|].
  destruct (exec_inv k Q OpTimer I Logic.I) as (k' & Q' & E & I'). simpl in E. simpl. rewrite E. simpl.
  apply (rtc_l _ _ k'); [by apply (nowake_step_exec k OpTimer)|by apply (IH k' Q')].
Qed.

Lemma demo_slept_inv : exists Q, sched_inv demo_slept Q.
Proof.
  destruct (exec_inv demo_started demo_queues1 (OpSleep 5) demo_started_inv) as (k' & Q' & E & I').
  - vm_compute. discriminate.
  - exists Q'. unfold demo_slept. simpl in E. rewrite E. exact I'.
Qed.

Lemma sleeping_thread_never_runs_witness :
  let k2 := timer_ticks 2000 demo_slept in
  pit_ticks k2 = 2000 /\ sleep_until_ms <$> threads k2 !! 200 = Some 5 /\ state_at k2 200 = Some THREAD_SLEEPING.
Proof.
  split; [vm_compute; reflexivity|]. split; [vm_compute; reflexivity|]. destruct demo_slept_inv as [Q I].
  refine (proj1 (sleeping_thread_never_runs demo_started demo_slept (timer_ticks 2000 demo_slept) demo_queues1 5
    demo_started_inv _ _ (timer_ticks_steps 2000 _ Q I))); [vm_compute; discriminate|vm_compute; reflexivity].
Defined.

Lemma scheduler_start_correct_witness :
  exists k' Q', scheduler_start demo_boot = Some k' /\ sched_inv k' Q' /\ cpu_cr3 (cpu k') = 8192.
Proof.
  destruct (scheduler_start_correct demo_boot demo_queues demo_boot_ok) as (k' & Q' & E & I & _).
  exists k', Q'. split; [exact E|]. split; [exact I|].
  assert (Hk : Some k' = Some demo_started) by (rewrite <- E; vm_compute; reflexivity).
  injection Hk as ->. vm_compute. reflexivity.
Defined.
