(* ===== verification/KString.v ===== *)
(** The kernel's string library, kernel/src/lib/string.c, over a byte-addressed
    memory.

    A memory maps the accessible addresses to bytes (0 to 255); reading or
    writing any other address is [None].  The loops that end at a NUL byte run
    at most once per accessible byte, which is their fuel. *)
From stdpp Require Import prelude gmap list.
From Stdlib Require Import ZArith Lia.
From S2P Require Import Prelude.

Open Scope Z_scope.

Notation bmem := (gmap Z Z).

(** [*a = v], for an accessible [a]. *)
Definition mset (m : bmem) (a v : Z) : option bmem :=
  match m !! a with Some _ => Some (<[a := u8 v]> m) | None => None end.

(** ** Memory operations *)

(** [for (i = 0; i < n; i++) d[i] = s[i];] from index [i], [n] rounds left. *)
Fixpoint copy_up (m : bmem) (d s i : Z) (n : nat) : option bmem :=
  match n with
  | O => Some m
  | S n => b ← m !! (s + i); m' ← mset m (d + i) b; copy_up m' d s (i + 1) n
  end.

(** [for (i = n; i > 0; i--) d[i - 1] = s[i - 1];]. *)
Fixpoint copy_down (m : bmem) (d s : Z) (n : nat) : option bmem :=
  match n with
  | O => Some m
  | S n => b ← m !! (s + Z.of_nat n); m' ← mset m (d + Z.of_nat n) b; copy_down m' d s n
  end.

Definition memcpy (m : bmem) (dest src n : Z) : option bmem := copy_up m dest src 0 (Z.to_nat n).

Fixpoint set_up (m : bmem) (d v i : Z) (n : nat) : option bmem :=
  match n with
  | O => Some m
  | S n => m' ← mset m (d + i) v; set_up m' d v (i + 1) n
  end.

Definition memset (m : bmem) (dest c n : Z) : option bmem := set_up m dest (u8 c) 0 (Z.to_nat n).

Fixpoint memcmp_loop (m : bmem) (s1 s2 i : Z) (n : nat) : option Z :=
  match n with
  | O => Some 0
  | S n =>
      a ← m !! (s1 + i); b ← m !! (s2 + i);
      if negb (a =? b) then Some (a - b) else memcmp_loop m s1 s2 (i + 1) n
  end.

Definition memcmp (m : bmem) (s1 s2 n : Z) : option Z := memcmp_loop m s1 s2 0 (Z.to_nat n).

Definition memmove (m : bmem) (dest src n : Z) : option bmem :=
  if dest <? src then copy_up m dest src 0 (Z.to_nat n)
  else if src <? dest then copy_down m dest src (Z.to_nat n)
  else Some m.

(** ** String operations *)

Definition str_fuel (m : bmem) : nat := S (map_size m).

Fixpoint strlen_loop (m : bmem) (s len : Z) (fuel : nat) : option Z :=
  match fuel with
  | O => None
  | S fuel => c ← m !! (s + len); if nonzero c then strlen_loop m s (len + 1) fuel else Some len
  end.

Definition strlen (m : bmem) (s : Z) : option Z := strlen_loop m s 0 (str_fuel m).

Fixpoint strcmp_loop (m : bmem) (s1 s2 : Z) (fuel : nat) : option Z :=
  match fuel with
  | O => None
  | S fuel =>
      a ← m !! s1;
      if nonzero a then
        b ← m !! s2;
        if a =? b then strcmp_loop m (s1 + 1) (s2 + 1) fuel else Some (a - b)
      else b ← m !! s2; Some (a - b)
  end.

Definition strcmp (m : bmem) (s1 s2 : Z) : option Z := strcmp_loop m s1 s2 (str_fuel m).

Fixpoint strncmp_loop (m : bmem) (s1 s2 i : Z) (n : nat) : option Z :=
  match n with
  | O => Some 0
  | S n =>
      a ← m !! (s1 + i); b ← m !! (s2 + i);
      if negb (a =? b) then Some (a - b)
      else if a =? 0 then Some 0
      else strncmp_loop m s1 s2 (i + 1) n
  end.

Definition strncmp (m : bmem) (s1 s2 n : Z) : option Z := strncmp_loop m s1 s2 0 (Z.to_nat n).

(** The loop that copies bytes up to and including the NUL. *)
Fixpoint strcpy_loop (m : bmem) (d src : Z) (fuel : nat) : option bmem :=
  match fuel with
  | O => None
  | S fuel =>
      c ← m !! src; m' ← mset m d c;
      if nonzero c then strcpy_loop m' (d + 1) (src + 1) fuel else Some m'
  end.

Definition strcpy (m : bmem) (dest src : Z) : option bmem := strcpy_loop m dest src (str_fuel m).

(** The first loop of [strncpy]: the memory and the index where it stops. *)
Fixpoint strncpy_loop (m : bmem) (dest src i : Z) (n : nat) : option (bmem * Z * nat) :=
  match n with
  | O => Some (m, i, O)
  | S n' =>
      c ← m !! (src + i);
      if nonzero c then m' ← mset m (dest + i) c; strncpy_loop m' dest src (i + 1) n'
      else Some (m, i, n)
  end.

Definition strncpy (m : bmem) (dest src n : Z) : option bmem :=
  '(m1, i, rest) ← strncpy_loop m dest src 0 (Z.to_nat n);
  set_up m1 dest 0 i rest.

Definition strcat (m : bmem) (dest src : Z) : option bmem :=
  len ← strlen m dest;
  strcpy_loop m (dest + len) src (str_fuel m).

Fixpoint strchr_loop (m : bmem) (s ch : Z) (fuel : nat) : option Z :=
  match fuel with
  | O => None
  | S fuel =>
      c ← m !! s;
      if nonzero c then (if c =? ch then Some s else strchr_loop m (s + 1) ch fuel)
      else Some (if ch =? 0 then s else 0)
  end.

Definition strchr (m : bmem) (s c : Z) : option Z := strchr_loop m s (u8 c) (str_fuel m).

Fixpoint strrchr_loop (m : bmem) (s ch last : Z) (fuel : nat) : option Z :=
  match fuel with
  | O => None
  | S fuel =>
      c ← m !! s;
      if nonzero c then strrchr_loop m (s + 1) ch (if c =? ch then s else last) fuel
      else Some (if ch =? 0 then s else last)
  end.

Definition strrchr (m : bmem) (s c : Z) : option Z := strrchr_loop m s (u8 c) 0 (str_fuel m).

Fixpoint strstr_loop (m : bmem) (haystack needle needle_len : Z) (fuel : nat) : option Z :=
  match fuel with
  | O => None
  | S fuel =>
      c ← m !! haystack;
      if nonzero c then
        r ← strncmp m haystack needle needle_len;
        if r =? 0 then Some haystack else strstr_loop m (haystack + 1) needle needle_len fuel
      else Some 0
  end.

Definition strstr (m : bmem) (haystack needle : Z) : option Z :=
  c ← m !! needle;
  if c =? 0 then Some haystack
  else
    needle_len ← strlen m needle;
    strstr_loop m haystack needle needle_len (str_fuel m).

(** ** Memory *)

(** All of [n] bytes from [a] are accessible. *)
Definition readable (m : bmem) (a n : Z) : Prop := forall i, 0 <= i < n -> is_Some (m !! (a + i)).

Definition bytes_ok (m : bmem) : Prop := forall a v, m !! a = Some v -> 0 <= v < 256.

Lemma mset_spec m a v : is_Some (m !! a) -> 0 <= v < 256 -> mset m a v = Some (<[a := v]> m).
Proof. intros [x Hx] Hv. unfold mset. rewrite Hx. rewrite wrap_small; [done|]. unfold fits. lia. Qed.

(** [m'] is [m] with the [n] bytes from [src] copied to [dest]. *)
Definition copied (m m' : bmem) (dest src n : Z) : Prop :=
  forall a, m' !! a = if decide (dest <= a < dest + n) then m !! (src + (a - dest)) else m !! a.

Lemma is_Some_insert (m : bmem) a b v : is_Some (m !! a) -> is_Some (<[b := v]> m !! a).
Proof. intros Ha. destruct (decide (a = b)) as [->|Hne]; [rewrite lookup_insert_eq; by eexists|by rewrite lookup_insert_ne]. Qed.

Lemma bytes_insert m a v : bytes_ok m -> 0 <= v < 256 -> bytes_ok (<[a := v]> m).
Proof.
  intros Hm Hv b w. destruct (decide (b = a)) as [->|Hne]; [rewrite lookup_insert_eq; by intros [= <-]|].
  rewrite lookup_insert_ne by done. apply Hm.
Qed.

(** The ascending loop from index [i], when no byte still to be read has been
    overwritten. *)
Lemma copy_up_spec n : forall m d s i, bytes_ok m -> 0 <= i ->
  (forall j, i <= j < i + Z.of_nat n -> is_Some (m !! (s + j)) /\ is_Some (m !! (d + j))) ->
  (d <= s \/ s + i + Z.of_nat n <= d + i) ->
  exists m', copy_up m d s i n = Some m' /\
    forall a, m' !! a = if decide (d + i <= a < d + i + Z.of_nat n) then m !! (s + (a - d)) else m !! a.
Proof.
  induction n as [|n IH]; intros m d s i Hb Hi Hr Ho; cbn [copy_up].
  - exists m. split; [done|]. intros a. rewrite decide_False by lia. done.
  - destruct (Hr i) as [[b Eb] Hd]; [lia|]. rewrite Eb. cbn [mbind option_bind].
    rewrite mset_spec by (done || by apply (Hb (s + i))). cbn [mbind option_bind].
    destruct (IH (<[d + i := b]> m) d s (i + 1)) as (m' & -> & Hm').
    + apply bytes_insert; [done|]. by apply (Hb (s + i)).
    + lia.
    + intros j Hj. destruct (Hr j) as [? ?]; [lia|]. split; by apply is_Some_insert.
    + destruct Ho as [Ho|Ho]; [by left|right; lia].
    + exists m'. split; [done|]. intros a. rewrite Hm'.
      destruct (decide (a = d + i)) as [->|Hne].
      * rewrite decide_False, lookup_insert_eq, decide_True by lia. rewrite <- Eb. f_equal. lia.
      * rewrite (lookup_insert_ne m (d + i) a) by done.
        destruct (decide (d + (i + 1) <= a < d + (i + 1) + Z.of_nat n)).
        -- rewrite decide_True by lia. apply lookup_insert_ne. lia.
        -- by rewrite decide_False by lia.
Qed.

Lemma copy_down_spec n : forall m d s, bytes_ok m ->
  (forall j, 0 <= j < Z.of_nat n -> is_Some (m !! (s + j)) /\ is_Some (m !! (d + j))) -> s <= d ->
  exists m', copy_down m d s n = Some m' /\
    forall a, m' !! a = if decide (d <= a < d + Z.of_nat n) then m !! (s + (a - d)) else m !! a.
Proof.
  induction n as [|n IH]; intros m d s Hb Hr Ho; cbn [copy_down].
  - exists m. split; [done|]. intros a. rewrite decide_False by lia. done.
  - destruct (Hr (Z.of_nat n)) as [[b Eb] Hd]; [lia|]. rewrite Eb. cbn [mbind option_bind].
    rewrite mset_spec by (done || by apply (Hb (s + Z.of_nat n))). cbn [mbind option_bind].
    destruct (IH (<[d + Z.of_nat n := b]> m) d s) as (m' & -> & Hm'); [|intros j Hj|done|].
    + apply bytes_insert; [done|]. by apply (Hb (s + Z.of_nat n)).
    + destruct (Hr j) as [? ?]; [lia|]. split; by apply is_Some_insert.
    + exists m'. split; [done|]. intros a. rewrite Hm'.
      destruct (decide (a = d + Z.of_nat n)) as [->|Hne].
      * rewrite decide_False, lookup_insert_eq, decide_True by lia. rewrite <- Eb. f_equal. lia.
      * rewrite (lookup_insert_ne m (d + Z.of_nat n) a) by done.
        destruct (decide (d <= a < d + Z.of_nat n)).
        -- rewrite decide_True by lia. apply lookup_insert_ne. lia.
        -- by rewrite decide_False by lia.
Qed.

(** [memmove] copies the source as it was before the call, wherever the two
    regions overlap, and touches nothing else. *)
Theorem memmove_correct (m : bmem) (dest src n : Z) :
  bytes_ok m -> 0 <= n -> readable m src n -> readable m dest n ->
  exists m', memmove m dest src n = Some m' /\ copied m m' dest src n.
Proof.
  intros Hb Hn Hs Hd. unfold memmove, copied. rewrite <- (Z2Nat.id n) in Hs, Hd |- * by done.
  assert (Hr : forall j, 0 <= j < Z.of_nat (Z.to_nat n) -> is_Some (m !! (src + j)) /\ is_Some (m !! (dest + j))).
  { intros j Hj. split; [by apply Hs|by apply Hd]. }
  rewrite Nat2Z.id. destruct (Z.ltb_spec dest src) as [Hlt|Hge].
  - destruct (copy_up_spec (Z.to_nat n) m dest src 0) as (m' & -> & Hm'); [done|lia|done|left; lia|].
    exists m'. split; [done|]. intros a. rewrite Hm', Z.add_0_r. done.
  - destruct (Z.ltb_spec src dest) as [Hlt'|Hge'].
    + destruct (copy_down_spec (Z.to_nat n) m dest src Hb Hr) as (m' & -> & Hm'); [lia|]. by exists m'.
    + assert (dest = src) as -> by lia. exists m. split; [done|]. intros a. case_decide; [|done]. f_equal. lia.
Qed.

(** The side conditions of a concrete memory, decided. *)
Lemma readable_check (m : bmem) a n :
  forallb (fun i => bool_decide (is_Some (m !! (a + i)))) (seqZ 0 n) = true -> readable m a n.
Proof.
  intros H i Hi. rewrite forallb_True, Forall_forall in H || apply forallb_forall with (x := i) in H.
  - by apply bool_decide_eq_true in H.
  - apply list_elem_of_In, elem_of_seqZ. lia.
Qed.

Lemma bytes_check (m : bmem) : bool_decide (map_Forall (fun _ v => 0 <= v < 256) m) = true -> bytes_ok m.
Proof. intros H a v E. apply bool_decide_eq_true in H. by apply (H a). Qed.

Definition demo_bytes : bmem := list_to_map (zip (seqZ 100 8) [1; 2; 3; 4; 5; 6; 7; 0]).

Lemma memmove_correct_witness :
  exists m', memmove demo_bytes 102 100 5 = Some m' /\ m' !! 106 = Some 5 /\ m' !! 100 = Some 1.
Proof.
  destruct (memmove_correct demo_bytes 102 100 5) as (m' & E & C);
    [by apply bytes_check|lia|by apply readable_check|by apply readable_check|].
  exists m'. split; [exact E|]. split; rewrite C; reflexivity.
Defined.

(** ** Strings *)

(** The NUL-terminated string [bs] is stored at [a]. *)
Fixpoint cstr (m : bmem) (a : Z) (bs : list Z) : Prop :=
  match bs with
  | [] => m !! a = Some 0
  | c :: bs => m !! a = Some c /\ c <> 0 /\ cstr m (a + 1) bs
  end.

Lemma cstr_dom m bs : forall a i, cstr m a bs -> 0 <= i <= alen bs -> is_Some (m !! (a + i)).
Proof.
  induction bs as [|c bs IH]; intros a i; unfold alen in *; simpl.
  - intros E Hi. replace (a + i) with a by lia. by rewrite E.
  - intros (E & _ & L) Hi. destruct (decide (i = 0)) as [->|Hne]; [rewrite Z.add_0_r; by rewrite E|].
    replace (a + i) with (a + 1 + (i - 1)) by lia. apply IH; [done|lia].
Qed.

(** The accessible bytes bound the length of every string. *)
Lemma cstr_fuel m a bs : cstr m a bs -> (length bs < str_fuel m)%nat.
Proof.
  intros L. unfold str_fuel. enough (length bs < map_size m)%nat by lia.
  assert (length (seqZ a (alen bs + 1)) <= map_size m)%nat as H.
  { rewrite <- (size_list_to_set (C := gset Z) (seqZ a (alen bs + 1))) by apply NoDup_seqZ.
    replace (map_size m) with (size (dom m)) by apply size_dom.
    apply subseteq_size. intros x Hx%elem_of_list_to_set%elem_of_seqZ. apply elem_of_dom.
    replace x with (a + (x - a)) by lia. apply (cstr_dom m bs); [done|lia]. }
  rewrite length_seqZ in H. unfold alen in H. lia.
Qed.

Lemma strlen_loop_spec m s bs : forall len fuel, cstr m (s + len) bs -> (length bs < fuel)%nat ->
  strlen_loop m s len fuel = Some (len + alen bs).
Proof.
  unfold alen. induction bs as [|c bs IH]; intros len [|fuel] L Hf; cbn [cstr length] in *; try lia; cbn [strlen_loop].
  - rewrite L. cbn. f_equal. lia.
  - destruct L as (-> & Hc & L). cbn [mbind option_bind]. rewrite (proj2 (nonzero_true c) Hc).
    rewrite IH; [f_equal; lia|by rewrite Z.add_assoc|lia].
Qed.

Lemma strlen_spec m s bs : cstr m s bs -> strlen m s = Some (alen bs).
Proof.
  intros L. unfold strlen. rewrite (strlen_loop_spec m s bs); [done|by rewrite Z.add_0_r|by eapply cstr_fuel].
Qed.

(** The reference order: bytes compared as unsigned, a prefix first. *)
Fixpoint byte_compare (x y : list Z) : Z :=
  match x, y with
  | [], [] => 0
  | [], b :: _ => - b
  | a :: _, [] => a
  | a :: x, b :: y => if a =? b then byte_compare x y else a - b
  end.

Lemma byte_compare_eq x : forall y, Forall (fun c => c <> 0) x -> Forall (fun c => c <> 0) y ->
  byte_compare x y = 0 <-> x = y.
Proof.
  induction x as [|a x IH]; intros [|b y] Hx Hy; simpl; [done|inversion Hy; subst; split; [lia|done]|inversion Hx; subst; split; [lia|done]|].
  apply Forall_cons in Hx as [? Hx], Hy as [? Hy]. destruct (Z.eqb_spec a b) as [->|Hne].
  - rewrite IH by done. naive_solver.
  - split; [lia|congruence].
Qed.

Lemma cstr_nonzero m bs : forall a, cstr m a bs -> Forall (fun c => c <> 0) bs.
Proof. induction bs as [|c bs IH]; intros a; simpl; [constructor|]. intros (_ & ? & L). constructor; [done|by eapply IH]. Qed.

Lemma strcmp_loop_spec m x : forall a b y fuel, cstr m a x -> cstr m b y -> (length x < fuel)%nat ->
  strcmp_loop m a b fuel = Some (byte_compare x y).
Proof.
  induction x as [|c x IH]; intros a b y [|fuel] Lx Ly Hf; cbn [length] in *; try lia; cbn [strcmp_loop].
  - simpl in Lx. rewrite Lx. cbn. destruct y as [|d y]; [by simpl in Ly; rewrite Ly|].
    destruct Ly as (-> & ? & _). done.
  - destruct Lx as (-> & Hc & Lx). cbn [mbind option_bind]. rewrite (proj2 (nonzero_true c) Hc).
    destruct y as [|d y].
    + simpl in Ly. rewrite Ly. cbn. destruct (Z.eqb_spec c 0); [done|]. f_equal. lia.
    + destruct Ly as (-> & Hd & Ly). cbn. case_bool; [|done]. apply IH; [done..|lia].
Qed.

(** [strcmp] always returns on two strings: the difference of the first bytes
    that differ, as unsigned bytes, and 0 exactly for equal strings. *)
Theorem strcmp_orders (m : bmem) (s1 s2 : Z) (x y : list Z) :
  cstr m s1 x -> cstr m s2 y ->
  strcmp m s1 s2 = Some (byte_compare x y) /\ (strcmp m s1 s2 = Some 0 <-> x = y).
Proof.
  intros Lx Ly. unfold strcmp. rewrite (strcmp_loop_spec m x s1 s2 y) by (done || by eapply cstr_fuel).
  split; [done|]. rewrite <- (byte_compare_eq x y) by (by eapply cstr_nonzero). split; [by intros [= ->]|by intros ->].
Qed.

Lemma strncmp_loop_spec m x : forall a b y i n, cstr m (a + i) x -> cstr m (b + i) y ->
  (n <= length y)%nat ->
  exists r, strncmp_loop m a b i n = Some r /\ (r = 0 <-> take n y `prefix_of` x).
Proof.
  induction x as [|c x IH]; intros a b y i [|n] Lx Ly Hn; cbn [strncmp_loop];
    try (exists 0; split; [done|]; split; [intros _; apply prefix_nil|done]);
    destruct y as [|d y]; cbn [length] in Hn; try lia; destruct Ly as (-> & Hd & Ly).
  - simpl in Lx. rewrite Lx. cbn [mbind option_bind]. exists (0 - d).
    destruct (Z.eqb_spec 0 d) as [|_]; [congruence|]. split; [done|]. split; [lia|].
    intros P. by apply prefix_nil_not in P.
  - destruct Lx as (-> & Hc & Lx). cbn [mbind option_bind]. destruct (Z.eqb_spec c d) as [->|Hne]; cbn.
    + destruct (Z.eqb_spec d 0); [done|]. destruct (IH a b y (i + 1) n) as (r & -> & Hr).
      { by rewrite Z.add_assoc. } { by rewrite Z.add_assoc. } { lia. }
      exists r. split; [done|]. rewrite Hr. split; [apply prefix_cons|apply prefix_cons_inv_2].
    + exists (c - d). split; [done|]. split; [lia|]. intros P. apply prefix_cons_inv_1 in P. congruence.
Qed.

(** The least position of [n] in [h]; a position is where [n] is a prefix. *)
Fixpoint find_sub (n h : list Z) : option Z :=
  match h with
  | [] => None
  | c :: h' => if decide (n `prefix_of` h) then Some 0 else Z.succ <$> find_sub n h'
  end.

Lemma strstr_loop_spec m needle n : forall h a fuel, cstr m needle n -> cstr m a h -> (length h < fuel)%nat ->
  strstr_loop m a needle (alen n) fuel = Some (match find_sub n h with Some i => a + i | None => 0 end).
Proof.
  induction h as [|c h IH]; intros a [|fuel] Ln Lh Hf; cbn [length] in *; try lia; cbn [strstr_loop].
  - simpl in Lh. by rewrite Lh.
  - pose proof Lh as (E & Hc & Lh'). rewrite E. cbn [mbind option_bind]. rewrite (proj2 (nonzero_true c) Hc).
    unfold strncmp, alen. rewrite Nat2Z.id.
    destruct (strncmp_loop_spec m (c :: h) a needle n 0 (length n)) as (r & -> & Hr); [by rewrite Z.add_0_r..|lia|].
    cbn [mbind option_bind find_sub]. rewrite take_ge in Hr by lia.
    destruct (Z.eqb_spec r 0) as [E0|E0]; [rewrite decide_True by tauto; f_equal; lia|].
    rewrite decide_False by tauto. fold (alen n). rewrite (IH (a + 1) fuel Ln Lh') by lia.
    destruct (find_sub n h); simpl; f_equal; lia.
Qed.

(** [strstr] always returns on two strings: the least occurrence of the needle,
    the haystack itself for an empty needle, and NULL when there is none. *)
Theorem strstr_first (m : bmem) (haystack needle : Z) (h n : list Z) :
  cstr m haystack h -> cstr m needle n ->
  strstr m haystack needle =
    Some (if decide (n = []) then haystack
          else match find_sub n h with Some i => haystack + i | None => 0 end).
Proof.
  intros Lh Ln. unfold strstr. destruct n as [|c n].
  - simpl in Ln. by rewrite Ln.
  - pose proof Ln as (-> & Hc & _). cbn [mbind option_bind]. destruct (Z.eqb_spec c 0); [done|].
    rewrite (strlen_spec m needle (c :: n)) by done. cbn [mbind option_bind].
    by rewrite (strstr_loop_spec m needle (c :: n) h) by (done || by eapply cstr_fuel).
Qed.

Definition demo_text : bmem := list_to_map (zip (seqZ 10 6 ++ seqZ 30 3) [97; 98; 97; 98; 99; 0; 98; 99; 0]).

Lemma strcmp_orders_witness :
  cstr demo_text 13 [98; 99] /\ strcmp demo_text 13 30 = Some 0.
Proof.
  split; [repeat split; done|].
  apply (strcmp_orders demo_text 13 30 [98; 99] [98; 99]); repeat split; done.
Defined.

Lemma strstr_first_witness : strstr demo_text 10 30 = Some 13.
Proof.
  rewrite (strstr_first demo_text 10 30 [97; 98; 97; 98; 99] [98; 99]); [vm_compute; reflexivity|..];
    repeat split; done.
Defined.
