(* ===== verification/Klog.v ===== *)
(** The kernel log, kernel/src/lib/klog.c, and the character output of
    kernel/src/lib/printf.c that feeds it.

    The display manager is a parameter: its state [D] and the operation
    [display_manager_write], which receives the bytes of one call.  The serial
    mirror of the debugger builds (DEBUG_LEVEL >= 1) is left out. *)
From stdpp Require Import prelude gmap list.
From Stdlib Require Import ZArith Lia.
From S2P Require Import Prelude KString.

Open Scope Z_scope.

Definition KLOG_BUFFER_SIZE : Z := 64 * 1024.

(** The static variables of klog.c; the buffer is a static array, so a cell not
    yet written holds 0. *)
Record klog := Klog {
  klog_buffer : gmap Z Z;
  klog_head : Z;
  klog_wrapped : bool;
  klog_active : bool }.

Definition klog_static : klog := Klog ∅ 0 false false.

Definition klog_cell (k : klog) (i : Z) : Z := default 0 (klog_buffer k !! i).

Definition klog_init (k : klog) : klog := Klog (klog_buffer k) 0 false true.

Definition klog_putc (k : klog) (c : Z) : klog :=
  if negb (klog_active k) then k
  else
    let b := <[klog_head k := c]> (klog_buffer k) in
    let h := u32 (klog_head k + 1) in
    if KLOG_BUFFER_SIZE <=? h then Klog b 0 true true
    else Klog b h (klog_wrapped k) true.

Definition klog_stop_recording (k : klog) : klog :=
  Klog (klog_buffer k) (klog_head k) (klog_wrapped k) false.

Section output.
Context {D : Type} (display_manager_write : D -> list Z -> D).

Definition kputchar (s : klog * D) (c : Z) : klog * D :=
  (klog_putc s.1 c, display_manager_write s.2 [c]).

(** [kputs] of the string with bytes [bs]. *)
Definition kputs (s : klog * D) (bs : list Z) : klog * D :=
  (foldl klog_putc s.1 bs, display_manager_write s.2 bs).

(** [for (i = from; i < to; i++) kputchar(klog_buffer[i]);]. *)
Fixpoint dump_range (s : klog * D) (i : Z) (n : nat) : klog * D :=
  match n with
  | O => s
  | S n => dump_range (kputchar s (klog_cell s.1 i)) (i + 1) n
  end.

Definition klog_dump (s : klog * D) : klog * D :=
  let s1 := (klog_stop_recording s.1, s.2) in
  let s2 := if klog_wrapped s1.1
            then dump_range s1 (klog_head s1.1) (Z.to_nat (KLOG_BUFFER_SIZE - klog_head s1.1))
            else s1 in
  let s3 := dump_range s2 0 (Z.to_nat (klog_head s2.1)) in
  (Klog (klog_buffer s3.1) (klog_head s3.1) (klog_wrapped s3.1) true, s3.2).

(** ** Refinement: the log holds the last 65536 characters *)

(** [recent h]: what a dump shows after the characters [h] were logged. *)
Definition recent (h : list Z) : list Z := drop (length h - Z.to_nat KLOG_BUFFER_SIZE) h.

(** The ring of a log that has recorded [h] since [klog_init]. *)
Record holds (k : klog) (h : list Z) : Prop := Holds {
  holds_active : klog_active k = true;
  holds_head : klog_head k = alen h mod KLOG_BUFFER_SIZE;
  holds_wrapped : klog_wrapped k = (KLOG_BUFFER_SIZE <=? alen h);
  holds_cells : forall j, 0 <= j < alen h -> alen h - KLOG_BUFFER_SIZE <= j ->
    klog_buffer k !! (j mod KLOG_BUFFER_SIZE) = h !! Z.to_nat j }.

Lemma holds_init k : holds (klog_init k) [].
Proof. split; [done..|]. unfold alen. simpl. lia. Qed.

Lemma ring_next n : 0 <= n ->
  (n + 1) mod KLOG_BUFFER_SIZE = if KLOG_BUFFER_SIZE <=? n mod KLOG_BUFFER_SIZE + 1 then 0 else n mod KLOG_BUFFER_SIZE + 1.
Proof. unfold KLOG_BUFFER_SIZE. intros Hn. case_bool; zmod. Qed.

Lemma holds_putc k h c : holds k h -> holds (klog_putc k c) (h ++ [c]).
Proof.
  intros [Ha Hh Hw Hc]. pose proof (alen_nonneg h) as H0.
  assert (Hlen : alen (h ++ [c]) = alen h + 1) by (unfold alen; rewrite length_app; simpl; lia).
  assert (Hm : 0 <= alen h mod KLOG_BUFFER_SIZE < KLOG_BUFFER_SIZE) by (apply Z.mod_pos_bound; done).
  unfold klog_putc. rewrite Ha, Hh. cbn [negb].
  assert (Hu : u32 (alen h mod KLOG_BUFFER_SIZE + 1) = alen h mod KLOG_BUFFER_SIZE + 1).
  { apply wrap_small. unfold fits, KLOG_BUFFER_SIZE in *. lia. }
  rewrite Hu. pose proof (ring_next (alen h) H0) as Hn.
  assert (Hcells : forall j, 0 <= j < alen (h ++ [c]) -> alen (h ++ [c]) - KLOG_BUFFER_SIZE <= j ->
    <[alen h mod KLOG_BUFFER_SIZE := c]> (klog_buffer k) !! (j mod KLOG_BUFFER_SIZE) = (h ++ [c]) !! Z.to_nat j).
  { intros j Hj Hj'. rewrite Hlen in *. destruct (decide (j = alen h)) as [->|Hne].
    - rewrite lookup_insert_eq. unfold alen. by rewrite Nat2Z.id, list_lookup_middle by done.
    - rewrite lookup_insert_ne.
      + rewrite Hc by lia. rewrite lookup_app_l; [done|]. unfold alen in *. lia.
      + unfold KLOG_BUFFER_SIZE in *. zmod. }
  case_bool; split; cbn [klog_active klog_head klog_wrapped klog_buffer]; try done; rewrite ?Hlen.
  - by rewrite Hn.
  - symmetry. apply Z.leb_le. unfold KLOG_BUFFER_SIZE in *. zmod.
  - by rewrite Hn.
  - rewrite Hw. destruct (Z.leb_spec KLOG_BUFFER_SIZE (alen h)), (Z.leb_spec KLOG_BUFFER_SIZE (alen h + 1)); try done; try lia.
    exfalso. unfold KLOG_BUFFER_SIZE in *. zmod.
Qed.

Lemma holds_puts h' : forall k h, holds k h -> holds (foldl klog_putc k h') (h ++ h').
Proof.
  induction h' as [|c h' IH]; intros k h Hk; simpl; [by rewrite app_nil_r|].
  rewrite cons_middle, app_assoc. apply IH. by apply holds_putc.
Qed.

(** A dump of cells writes them one call each and records nothing, because
    recording is off. *)
Lemma dump_range_spec n : forall k d i bs, klog_active k = false -> length bs = n ->
  (forall j, (j < n)%nat -> klog_buffer k !! (i + Z.of_nat j) = bs !! j) ->
  dump_range (k, d) i n = (k, foldl (fun d c => display_manager_write d [c]) d bs).
Proof.
  induction n as [|n IH]; intros k d i [|c bs] Ha Hl Hb; try done. cbn [dump_range foldl].
  assert (klog_cell k i = c) as Ec.
  { unfold klog_cell. specialize (Hb 0%nat ltac:(lia)). rewrite Z.add_0_r in Hb. by rewrite Hb. }
  unfold kputchar. cbn [fst snd]. rewrite Ec. unfold klog_putc. rewrite Ha. cbn [negb].
  apply IH; [done|by injection Hl|]. intros j Hj. specialize (Hb (S j) ltac:(lia)).
  change (bs !! j) with ((c :: bs) !! S j). rewrite <- Hb. f_equal. lia.
Qed.

(** After any sequence of logged characters since [klog_init], [klog_dump]
    writes exactly the last 65536 of them to the display, oldest first, and
    leaves the log as it was. *)
Theorem klog_dump_recent (k : klog) (d : D) (h : list Z) :
  klog_dump (foldl klog_putc (klog_init k) h, d) =
    (foldl klog_putc (klog_init k) h, foldl (fun d c => display_manager_write d [c]) d (recent h)).
Proof.
  pose proof (holds_puts h _ _ (holds_init k)) as Hk. cbn [app] in Hk.
  set (k1 := foldl klog_putc (klog_init k) h) in *. clearbody k1. destruct Hk as [Ha Hh Hw Hc].
  pose proof (alen_nonneg h) as H0. unfold klog_dump. cbn [fst snd].
  set (k2 := klog_stop_recording k1). change (klog_wrapped k2) with (klog_wrapped k1).
  change (klog_head k2) with (klog_head k1). rewrite Hw.
  assert (Hback : Klog (klog_buffer k2) (klog_head k2) (klog_wrapped k2) true = k1).
  { unfold k2, klog_stop_recording. destruct k1. simpl in *. by rewrite Ha. }
  assert (Hm : 0 <= klog_head k1 < KLOG_BUFFER_SIZE) by (rewrite Hh; apply Z.mod_pos_bound; done).
  assert (Hlen : alen h = Z.of_nat (length h)) by done.
  destruct (Z.leb_spec KLOG_BUFFER_SIZE (alen h)) as [Hle|Hlt].
  - set (n := Z.to_nat (alen h - KLOG_BUFFER_SIZE)).
    set (n1 := Z.to_nat (KLOG_BUFFER_SIZE - klog_head k1)).
    assert (Hd : recent h = take n1 (drop n h) ++ drop n1 (drop n h)).
    { rewrite take_drop. unfold recent. f_equal. unfold n. lia. }
    rewrite (dump_range_spec n1 k2 d (klog_head k1) (take n1 (drop n h))); [|done|..].
    + cbn [fst snd]. change (klog_head k2) with (klog_head k1).
      rewrite (dump_range_spec (Z.to_nat (klog_head k1)) k2 _ 0 (drop n1 (drop n h))); [|done|..].
      * cbn [fst snd]. by rewrite Hback, Hd, foldl_app.
      * rewrite !length_drop. unfold n, n1. lia.
      * intros j Hj. rewrite drop_drop, lookup_drop, Z.add_0_l.
        rewrite <- (Nat2Z.id (n + n1 + j)%nat). rewrite <- (Hc (Z.of_nat (n + n1 + j))) by (unfold n, n1; lia).
        change (klog_buffer k2) with (klog_buffer k1). f_equal. unfold n, n1. rewrite Hh in *. unfold KLOG_BUFFER_SIZE in *. zmod.
    + rewrite length_take, length_drop. unfold n, n1. lia.
    + intros j Hj. rewrite lookup_take_lt by done. rewrite lookup_drop.
      rewrite <- (Nat2Z.id (n + j)%nat). rewrite <- (Hc (Z.of_nat (n + j))) by (unfold n, n1 in *; lia).
      change (klog_buffer k2) with (klog_buffer k1). f_equal. unfold n, n1 in *. rewrite Hh in *. unfold KLOG_BUFFER_SIZE in *. zmod.
  - assert (Hhd : klog_head k1 = alen h) by (rewrite Hh; apply Z.mod_small; lia).
    cbn [fst snd]. change (klog_head k2) with (klog_head k1).
    rewrite (dump_range_spec (Z.to_nat (klog_head k1)) k2 d 0 h); [|done|..].
    + cbn [fst snd]. rewrite Hback. unfold recent. replace (length h - Z.to_nat KLOG_BUFFER_SIZE)%nat with 0%nat by lia. done.
    + rewrite Hhd. lia.
    + intros j Hj. rewrite Z.add_0_l. change (klog_buffer k2) with (klog_buffer k1).
      rewrite <- (Nat2Z.id j) at 2. rewrite <- (Hc (Z.of_nat j)) by lia. f_equal. symmetry. apply Z.mod_small. lia.
Qed.

End output.
