(* ===== verification/Printf.v ===== *)
(** Formatted output, kernel/src/lib/printf.c, over the byte memory of KString.

    A [va_list] is the list of the 64-bit argument slots not yet fetched.  The
    20-byte conversion buffers are explicit: a write past their end, a signed
    overflow or a fetch from an empty [va_list] is [None].  The theorems are in
    PrintfThm. *)
From stdpp Require Import prelude gmap list.
From Stdlib Require Import ZArith Lia.
From S2P Require Import Prelude KString Klog.

Open Scope Z_scope.

(** ** Integers *)

Definition INT_MAX : Z := 2 ^ 31 - 1.
Definition INT64_MIN : Z := - 2 ^ 63.

(** [digits[d]], of "0123456789abcdef" or its upper-case form. *)
Definition digit_char (upper : bool) (d : Z) : Z :=
  aget 0 (seqZ 48 10 ++ seqZ (if upper then 65 else 97) 6) d.

(** [_tb[_tp++] = c], with [char _tb[20]]. *)
Definition tb_put (tb : list Z) (c : Z) : option (list Z) :=
  if (length tb <? 20)%nat then Some (tb ++ [c]) else None.

(** The buffer fills up after 20 rounds, so 21 rounds of fuel decide. *)
Fixpoint render_digits (upper : bool) (base v : Z) (tb : list Z) (fuel : nat) : option (list Z) :=
  match fuel with
  | O => None
  | S fuel =>
      if 0 <? v then
        tb' ← tb_put tb (digit_char upper (v mod base));
        render_digits upper base (v / base) tb' fuel
      else Some tb
  end.

Fixpoint render_pad (width pad : Z) (tb : list Z) (fuel : nat) : option (list Z) :=
  match fuel with
  | O => None
  | S fuel =>
      if alen tb <? width then tb' ← tb_put tb pad; render_pad width pad tb' fuel
      else Some tb
  end.

(** The contents of the conversion buffer: the digits, least significant
    first, then the padding. *)
Definition render_buffer (upper : bool) (base v width pad : Z) : option (list Z) :=
  tb ← (if v =? 0 then tb_put [] 48 else render_digits upper base v [] 21);
  render_pad width pad tb 21.

Section console.
Context {D : Type} (display_manager_write : D -> list Z -> D).

Definition print_uint64 (s : klog * D) (value base : Z) (uppercase : bool) (width pad : Z) : option (klog * D) :=
  buf ← render_buffer uppercase base value width pad;
  Some (foldl (kputchar display_manager_write) s (rev buf)).

Definition print_int64 (s : klog * D) (value width pad : Z) : option (klog * D) :=
  if value <? 0 then
    if value =? INT64_MIN then None
    else
      let s1 := kputchar display_manager_write s 45 in
      print_uint64 s1 (- value) 10 false (if 0 <? width then width - 1 else width) pad
  else print_uint64 s value 10 false width pad.

End console.

(** ** vsnprintf *)

Section vsnprintf.
Context (buf size : Z).

(** The buffer and the write position: the memory and [pos]. *)
Definition VSNPRINTF_APPEND (s : bmem * Z) (c : Z) : option (bmem * Z) :=
  let '(m, pos) := s in
  if pos <? size - 1 then m' ← mset m (buf + pos) c; Some (m', pos + 1) else Some s.

Fixpoint append_all (s : bmem * Z) (cs : list Z) : option (bmem * Z) :=
  match cs with
  | [] => Some s
  | c :: cs => s' ← VSNPRINTF_APPEND s c; append_all s' cs
  end.

Definition RENDER_UINT (s : bmem * Z) (v base : Z) (upper : bool) (width pad : Z) : option (bmem * Z) :=
  tb ← render_buffer upper base v width pad;
  append_all s (rev tb).

(** [while ( *s ) VSNPRINTF_APPEND( *s++ );]. *)
Fixpoint append_string (st : bmem * Z) (s : Z) (fuel : nat) : option (bmem * Z) :=
  match fuel with
  | O => None
  | S fuel =>
      c ← st.1 !! s;
      if nonzero c then st' ← VSNPRINTF_APPEND st c; append_string st' (s + 1) fuel
      else Some st
  end.

Definition va_arg (args : list Z) : option (Z * list Z) :=
  match args with [] => None | a :: args => Some (a, args) end.

Definition signed_arg (len_mod a : Z) : Z := if (len_mod =? 2) || (len_mod =? 1) then s64 a else s32 a.

Definition unsigned_arg (len_mod a : Z) : Z := if (len_mod =? 2) || (len_mod =? 1) then u64 a else u32 a.

(** The field width: digits 1 to 9. *)
Fixpoint parse_width (m : bmem) (fmt width : Z) (fuel : nat) : option (Z * Z) :=
  match fuel with
  | O => None
  | S fuel =>
      c ← m !! fmt;
      if (49 <=? c) && (c <=? 57) then
        let w := width * 10 + (c - 48) in
        if INT_MAX <? w then None else parse_width m (fmt + 1) w fuel
      else Some (width, fmt)
  end.

Definition parse_len_mod (m : bmem) (fmt : Z) : option (Z * Z) :=
  c ← m !! fmt;
  if c =? 108 then
    c2 ← m !! (fmt + 1);
    Some (if c2 =? 108 then (2, fmt + 2) else (1, fmt + 1))
  else Some (0, fmt).

(** The switch on the conversion character, at address [fmt]. *)
Definition convert (s : bmem * Z) (fmt : Z) (pad width len_mod : Z) (args : list Z)
    : option (bmem * Z * list Z) :=
  c ← s.1 !! fmt;
  if (c =? 100) || (c =? 105) then                       (* 'd', 'i' *)
    '(a, args) ← va_arg args;
    let val := signed_arg len_mod a in
    if val =? INT64_MIN then None
    else
      s1 ← (if val <? 0 then VSNPRINTF_APPEND s 45 else Some s);
      s2 ← RENDER_UINT s1 (Z.abs val) 10 false width pad;
      Some (s2, args)
  else if c =? 117 then                                  (* 'u' *)
    '(a, args) ← va_arg args;
    s2 ← RENDER_UINT s (unsigned_arg len_mod a) 10 false width pad;
    Some (s2, args)
  else if c =? 120 then                                  (* 'x' *)
    '(a, args) ← va_arg args;
    s2 ← RENDER_UINT s (unsigned_arg len_mod a) 16 false width pad;
    Some (s2, args)
  else if c =? 88 then                                   (* 'X' *)
    '(a, args) ← va_arg args;
    s2 ← RENDER_UINT s (unsigned_arg len_mod a) 16 true width pad;
    Some (s2, args)
  else if c =? 112 then                                  (* 'p' *)
    '(a, args) ← va_arg args;
    s1 ← append_all s [48; 120];
    s2 ← RENDER_UINT s1 (u64 a) 16 false 16 48;
    Some (s2, args)
  else if c =? 115 then                                  (* 's' *)
    '(a, args) ← va_arg args;
    s2 ← (if a =? 0 then append_all s [40; 110; 117; 108; 108; 41]
          else append_string s a (str_fuel s.1));
    Some (s2, args)
  else if c =? 99 then                                   (* 'c' *)
    '(a, args) ← va_arg args;
    s2 ← VSNPRINTF_APPEND s (u8 a);
    Some (s2, args)
  else if c =? 37 then                                   (* '%' *)
    s2 ← VSNPRINTF_APPEND s 37; Some (s2, args)
  else
    s1 ← VSNPRINTF_APPEND s 37;
    c' ← s1.1 !! fmt;
    s2 ← VSNPRINTF_APPEND s1 c';
    Some (s2, args).

(** The flag, the width and the length modifier: the values of [pad_char],
    [width] and [len_mod], and where the scan stands after them. *)
Definition parse_flags (m : bmem) (fmt : Z) : option (Z * Z * Z * Z) :=
  c ← m !! fmt;
  let '(pad, fmt1) := if c =? 48 then (48, fmt + 1) else (32, fmt) in
  '(width, fmt2) ← parse_width m fmt1 0 (str_fuel m);
  '(len_mod, fmt3) ← parse_len_mod m fmt2;
  Some (pad, width, len_mod, fmt3).

(** A directive, from the character after its '%'. *)
Definition format_directive (s : bmem * Z) (fmt : Z) (args : list Z) : option (bmem * Z * Z * list Z) :=
  '(pad, width, len_mod, fmt1) ← parse_flags s.1 fmt;
  '(s', args') ← convert s fmt1 pad width len_mod args;
  Some (s', fmt1 + 1, args').

Fixpoint vsnprintf_loop (s : bmem * Z) (fmt : Z) (args : list Z) (fuel : nat) : option (bmem * Z) :=
  match fuel with
  | O => None
  | S fuel =>
      c ← s.1 !! fmt;
      if nonzero c && (s.2 <? size - 1) then
        if negb (c =? 37) then s' ← VSNPRINTF_APPEND s c; vsnprintf_loop s' (fmt + 1) args fuel
        else
          '(s', fmt', args') ← format_directive s (fmt + 1) args;
          vsnprintf_loop s' fmt' args' fuel
      else m' ← mset s.1 (buf + s.2) 0; Some (m', s32 s.2)
  end.

Definition vsnprintf (m : bmem) (fmt : Z) (args : list Z) : option (bmem * Z) :=
  if (buf =? 0) || (size =? 0) then Some (m, 0)
  else vsnprintf_loop (m, 0) fmt args (str_fuel m).

End vsnprintf.

(** [for (i = 0; i < len; i++) klog_putc(buf[i]);] after one display write of
    the whole buffer; [buf] is the 1024-byte array in the caller's frame. *)
Section kprintf.
Context {D : Type} (display_manager_write : D -> list Z -> D).

Definition kprintf_init (display_manager_init : D -> D) (s : klog * D) : klog * D :=
  (klog_init s.1, display_manager_init s.2).

Definition kprintf (buf : Z) (m : bmem) (s : klog * D) (fmt : Z) (args : list Z)
    : option (bmem * (klog * D) * Z) :=
  '(m', len) ← vsnprintf buf 1024 m fmt args;
  let out := map (fun i => default 0 (m' !! (buf + i))) (seqZ 0 len) in
  Some (m', (foldl klog_putc s.1 out, display_manager_write s.2 out), len).

End kprintf.

Definition demo_fmt (bs : list Z) : bmem :=
  list_to_map (zip (seqZ 500 (alen bs)) bs) ∪ list_to_map (zip (seqZ 100 40) (replicate 40 170)).

Definition demo_out (m : bmem) (n : Z) : list Z := map (fun i => default 0 (m !! (100 + i))) (seqZ 0 n).

(** ["%5d"] with -1 puts the sign before the padding. *)
Example sign_before_padding :
  (fun r => (demo_out r.1 r.2, r.2)) <$> vsnprintf 100 40 (demo_fmt [37; 53; 100; 0]) 500 [2 ^ 32 - 1] =
    Some ([45; 32; 32; 32; 32; 49], 6).
Proof. vm_compute. reflexivity. Qed.

(** ["%10d"] is width 1 followed by the literal text "0d". *)
Example width_ten_misread :
  (fun r => demo_out r.1 r.2) <$> vsnprintf 100 40 (demo_fmt [37; 49; 48; 100; 0]) 500 [7] =
    Some [37; 48; 100].
Proof. vm_compute. reflexivity. Qed.

(** A lone '%' at the end of the format makes the scan step over the NUL. *)
Example percent_at_end_overreads :
  vsnprintf 100 40 (demo_fmt [65; 37; 0]) 500 [] = None.
Proof. vm_compute. reflexivity. Qed.
