(* ===== verification/PrintfThm.v ===== *)
(** Formatted output: the conversion of numbers reads back to the number, and
    [vsnprintf] writes exactly the rendering of its format string, cut to the
    buffer. *)
From stdpp Require Import prelude gmap list.
From Stdlib Require Import ZArith Lia.
From S2P Require Import Prelude KString Klog Printf.

Open Scope Z_scope.

(** ** Numerals *)

(** The digits of [v], least significant first. *)
Fixpoint lsd (base : Z) (n : nat) (v : Z) : list Z :=
  match n with
  | O => []
  | S n => if v =? 0 then [] else v mod base :: lsd base n (v / base)
  end.

Definition numeral (upper : bool) (base v : Z) : list Z :=
  if v =? 0 then [48] else rev (map (digit_char upper) (lsd base 20 v)).

Definition padded (pad width : Z) (ds : list Z) : list Z :=
  replicate (Z.to_nat (width - alen ds)) pad ++ ds.

(** Reading a numeral. *)
Definition digit_value (c : Z) : Z := if c <=? 57 then c - 48 else if c <=? 70 then c - 55 else c - 87.

Definition read_numeral (base : Z) (cs : list Z) : Z := foldl (fun acc c => acc * base + digit_value c) 0 cs.

Lemma digit_char_value upper d : 0 <= d < 16 ->
  digit_value (digit_char upper d) = d /\ 48 <= digit_char upper d < 103.
Proof.
  intros H. assert (d = 0 \/ d = 1 \/ d = 2 \/ d = 3 \/ d = 4 \/ d = 5 \/ d = 6 \/ d = 7 \/ d = 8 \/ d = 9 \/
    d = 10 \/ d = 11 \/ d = 12 \/ d = 13 \/ d = 14 \/ d = 15) as C by lia.
  repeat (destruct C as [->|C]; [destruct upper; vm_compute; by intuition|]). subst. destruct upper; vm_compute; by intuition.
Qed.

Lemma lsd_length base n : forall v, (length (lsd base n v) <= n)%nat.
Proof. induction n as [|n IH]; intros v; simpl; [lia|]. case_bool; simpl; [lia|]. specialize (IH (v / base)). lia. Qed.

Lemma render_digits_spec upper base : 1 < base -> forall k v tb fuel,
  0 <= v < base ^ Z.of_nat k -> (k + length tb <= 20)%nat -> (k < fuel)%nat ->
  render_digits upper base v tb fuel = Some (tb ++ map (digit_char upper) (lsd base k v)).
Proof.
  intros Hb. induction k as [|k IH]; intros v tb [|fuel] Hv Hl Hf; try lia; cbn [render_digits lsd].
  - simpl in Hv. destruct (Z.ltb_spec 0 v); [lia|]. by rewrite app_nil_r.
  - destruct (Z.ltb_spec 0 v) as [Hp|Hp], (Z.eqb_spec v 0) as [E|E]; try lia; [|by rewrite app_nil_r].
    unfold tb_put. rewrite (proj2 (Nat.ltb_lt _ _)) by lia. cbn [mbind option_bind].
    rewrite IH; [by rewrite <- app_assoc|..|rewrite length_app; simpl; lia|lia].
    rewrite Nat2Z.inj_succ, Z.pow_succ_r in Hv by lia.
    split; [apply Z.div_pos; lia|]. apply Z.div_lt_upper_bound; lia.
Qed.

Lemma render_pad_spec width pad n : forall tb fuel, n = Z.to_nat (width - alen tb) -> width <= 20 ->
  (n < fuel)%nat -> render_pad width pad tb fuel = Some (tb ++ replicate n pad).
Proof.
  unfold alen. induction n as [|n IH]; intros tb [|fuel] Hn Hw Hf; try lia; cbn [render_pad]; unfold alen.
  - destruct (Z.ltb_spec (Z.of_nat (length tb)) width); [lia|]. by rewrite app_nil_r.
  - destruct (Z.ltb_spec (Z.of_nat (length tb)) width); [|lia].
    unfold tb_put. rewrite (proj2 (Nat.ltb_lt _ _)) by lia. cbn [mbind option_bind].
    rewrite IH; [by rewrite <- app_assoc|rewrite length_app; simpl; lia|done|lia].
Qed.

Lemma rev_replicate {A} n (x : A) : rev (replicate n x) = replicate n x.
Proof. induction n as [|n IH]; [done|]. cbn [replicate rev]. by rewrite IH, <- replicate_cons_app. Qed.

Lemma render_buffer_spec upper base v width pad :
  base = 10 \/ base = 16 -> 0 <= v < 2 ^ 64 -> width <= 20 ->
  render_buffer upper base v width pad = Some (rev (padded pad width (numeral upper base v))).
Proof.
  intros Hb Hv Hw.
  assert (Hd : (if v =? 0 then tb_put [] 48 else render_digits upper base v [] 21) = Some (rev (numeral upper base v))).
  { unfold numeral. case_bool; [done|]. rewrite (render_digits_spec upper base ltac:(lia) 20); [by rewrite rev_involutive| |simpl; lia|lia].
    change (2 ^ 64) with 18446744073709551616 in Hv. destruct Hb as [-> | ->];
      [change (10 ^ Z.of_nat 20) with 100000000000000000000; lia|
       change (16 ^ Z.of_nat 20) with 1208925819614629174706176; lia]. }
  unfold render_buffer. rewrite Hd. cbn [mbind option_bind].
  rewrite (render_pad_spec width pad _ _ _ eq_refl Hw).
  - unfold padded. rewrite rev_app_distr, rev_replicate. unfold alen. by rewrite length_rev.
  - unfold alen. lia.
Qed.

Lemma read_lsd base upper : base = 10 \/ base = 16 -> forall k v, 0 <= v < base ^ Z.of_nat k ->
  read_numeral base (rev (map (digit_char upper) (lsd base k v))) = v.
Proof.
  intros Hb. induction k as [|k IH]; intros v Hv; cbn [lsd].
  - simpl in *. unfold read_numeral. simpl. lia.
  - destruct (Z.eqb_spec v 0) as [->|Hv0]; [done|]. cbn [map rev]. unfold read_numeral. rewrite foldl_app. cbn [foldl].
    pose proof (Z.mod_pos_bound v base ltac:(lia)) as Hm.
    destruct (digit_char_value upper (v mod base)) as [-> _]; [lia|].
    change (foldl _ 0 (rev _)) with (read_numeral base (rev (map (digit_char upper) (lsd base k (v / base))))).
    rewrite IH; [pose proof (Z.div_mod v base ltac:(lia)); lia|].
    rewrite Nat2Z.inj_succ, Z.pow_succ_r in Hv by lia. split; [apply Z.div_pos; lia|]. apply Z.div_lt_upper_bound; lia.
Qed.

(** Round trip: the characters printed for a number, after its padding, are at
    most 20 and read back to the number. *)
Theorem render_buffer_roundtrip (upper : bool) (base v width pad : Z) :
  base = 10 \/ base = 16 -> 0 <= v < 2 ^ 64 -> width <= 20 ->
  exists k ds, render_buffer upper base v width pad = Some (rev (replicate k pad ++ ds)) /\
    read_numeral base ds = v /\ 1 <= alen ds <= 20 /\ alen (replicate k pad ++ ds) = Z.max width (alen ds).
Proof.
  intros Hb Hv Hw. rewrite render_buffer_spec by done. unfold padded. do 2 eexists. split; [done|].
  assert (Hn : read_numeral base (numeral upper base v) = v /\ 1 <= alen (numeral upper base v) <= 20).
  { unfold numeral, alen. case_bool; [subst; destruct Hb as [-> | ->]; done|]. split.
    - apply read_lsd; [done|]. change (2 ^ 64) with 18446744073709551616 in Hv. destruct Hb as [-> | ->];
      [change (10 ^ Z.of_nat 20) with 100000000000000000000; lia|
       change (16 ^ Z.of_nat 20) with 1208925819614629174706176; lia].
    - rewrite length_rev, length_map. pose proof (lsd_length base 20 v) as L.
      assert (1 <= length (lsd base 20 v))%nat; [|lia]. cbn [lsd].
      destruct (Z.eqb_spec v 0); [lia|]. cbn [length]. lia. }
  destruct Hn as [Hr Hl]. split_and!; [done|lia..|]. unfold alen in *. rewrite length_app, length_replicate. lia.
Qed.

Lemma render_buffer_roundtrip_witness :
  exists k ds, render_buffer false 16 48879 8 48 = Some (rev (replicate k 48 ++ ds)) /\ read_numeral 16 ds = 48879 /\
    1 <= alen ds <= 20 /\ alen (replicate k 48 ++ ds) = Z.max 8 (alen ds).
Proof. apply (render_buffer_roundtrip false 16 48879 8 48); [by right|lia|lia]. Defined.

Lemma numeral_bytes upper base v : base = 10 \/ base = 16 -> Forall (fun c => 0 <= c < 256) (numeral upper base v).
Proof.
  intros Hb. unfold numeral. case_bool; [by repeat constructor|]. apply Forall_rev, Forall_map.
  generalize 20%nat v. induction n0 as [|k IH]; intros w; cbn [lsd]; [constructor|]. case_bool; constructor; [|apply IH].
  pose proof (Z.mod_pos_bound w base ltac:(lia)). simpl. destruct (digit_char_value upper (w mod base)); lia.
Qed.

(** ** Format strings *)

Inductive conversion := ConvD | ConvU | ConvX (upper : bool).

(** A directive of a well-formed format: a literal character, or a conversion
    with its flag, the digits of its width and its number of [l] modifiers. *)
Inductive directive :=
| Lit (c : Z)
| Percent
| Num (zero : bool) (w : list Z) (lm : nat) (cv : conversion)
| Ptr
| Str
| Chr.

Definition conv_letter (cv : conversion) : Z :=
  match cv with ConvD => 100 | ConvU => 117 | ConvX false => 120 | ConvX true => 88 end.

Definition dir_text (d : directive) : list Z :=
  match d with
  | Lit c => [c]
  | Percent => [37; 37]
  | Num zero w lm cv =>
      37 :: (if zero then [48] else []) ++ map (Z.add 48) w ++ replicate lm 108 ++ [conv_letter cv]
  | Ptr => [37; 112]
  | Str => [37; 115]
  | Chr => [37; 99]
  end.

Definition width_of (w : list Z) : Z := foldl (fun acc d => acc * 10 + d) 0 w.

Definition dir_ok (d : directive) : Prop :=
  match d with
  | Lit c => 0 < c < 256 /\ c <> 37
  | Num _ w lm _ => Forall (fun d => 1 <= d <= 9) w /\ width_of w <= 20 /\ (lm <= 2)%nat
  | _ => True
  end.

Definition num_text (zero : bool) (w : list Z) (lm : nat) (cv : conversion) (a : Z) : list Z :=
  let pad := padded (if zero then 48 else 32) (width_of w) in
  match cv with
  | ConvD =>
      let v := signed_arg (Z.of_nat lm) a in
      (if v <? 0 then [45] else []) ++ pad (numeral false 10 (Z.abs v))
  | ConvU => pad (numeral false 10 (unsigned_arg (Z.of_nat lm) a))
  | ConvX upper => pad (numeral upper 16 (unsigned_arg (Z.of_nat lm) a))
  end.

Section rendering.
Context (buf size : Z) (m0 : bmem).

(** The [n] bytes from [a] are not in the output buffer. *)
Definition outside (a n : Z) : Prop := a + n <= buf \/ buf + size <= a.

(** [expands d args o args']: the directive fetches [args] down to [args'] and
    renders as [o], strings being those of the memory before the call. *)
Inductive expands : directive -> list Z -> list Z -> list Z -> Prop :=
| expands_lit c args : expands (Lit c) args [c] args
| expands_percent args : expands Percent args [37] args
| expands_num zero w lm cv a args :
    (cv = ConvD -> signed_arg (Z.of_nat lm) a <> INT64_MIN) ->
    expands (Num zero w lm cv) (a :: args) (num_text zero w lm cv a) args
| expands_ptr a args : expands Ptr (a :: args) (48 :: 120 :: padded 48 16 (numeral false 16 (u64 a))) args
| expands_null args : expands Str (0 :: args) [40; 110; 117; 108; 108; 41] args
| expands_str a bs args : a <> 0 -> cstr m0 a bs -> outside a (alen bs + 1) -> expands Str (a :: args) bs args
| expands_chr a args : expands Chr (a :: args) [u8 a] args.

Inductive renders : list directive -> list Z -> list Z -> Prop :=
| renders_nil args : renders [] args []
| renders_cons d ds args o args' out :
    dir_ok d -> expands d args o args' -> renders ds args' out -> renders (d :: ds) args (o ++ out).

(** What fits in the buffer. *)
Definition fitted (out : list Z) : list Z := take (Z.to_nat (size - 1)) out.

(** The state of the buffer after [out] was appended. *)
Record wrote (s : bmem * Z) (out : list Z) : Prop := Wrote {
  wrote_pos : s.2 = alen (fitted out);
  wrote_bytes : bytes_ok s.1;
  wrote_mem : forall a, s.1 !! a =
    if decide (buf <= a < buf + s.2) then fitted out !! Z.to_nat (a - buf) else m0 !! a }.

Context (Hsize : 1 <= size) (Hbuf : readable m0 buf size) (Hb0 : bytes_ok m0).

Lemma fitted_snoc_full out c : size - 1 <= alen (fitted out) -> fitted (out ++ [c]) = fitted out.
Proof.
  unfold fitted, alen. rewrite length_take. intros H. rewrite take_app_le by lia. done.
Qed.

Lemma fitted_snoc out c : alen (fitted out) < size - 1 -> fitted (out ++ [c]) = fitted out ++ [c].
Proof.
  unfold fitted, alen. rewrite length_take. intros H. rewrite !take_ge; [done|lia|rewrite length_app; simpl; lia].
Qed.

Lemma fitted_le out : alen (fitted out) <= size - 1.
Proof. unfold fitted, alen. rewrite length_take. lia. Qed.

Lemma wrote_readable s out : wrote s out -> readable s.1 buf size.
Proof.
  intros W i Hi. rewrite (wrote_mem _ _ W). case_decide as Hd; [|by apply Hbuf].
  apply lookup_lt_is_Some. rewrite (wrote_pos _ _ W) in Hd. unfold alen in Hd. lia.
Qed.

Lemma append_spec s out c : wrote s out -> 0 <= c < 256 ->
  exists s', VSNPRINTF_APPEND buf size s c = Some s' /\ wrote s' (out ++ [c]).
Proof.
  intros W Hc. pose proof W as [Hp Hby Hm]. destruct s as [m pos]; cbn [fst snd] in *. unfold VSNPRINTF_APPEND.
  pose proof (alen_nonneg (fitted out)) as H0. destruct (Z.ltb_spec pos (size - 1)) as [Hlt|Hge].
  - rewrite mset_spec; [|by apply (wrote_readable _ _ W); lia|done]. cbn [mbind option_bind]. eexists. split; [done|].
    split; cbn [fst snd]; rewrite ?fitted_snoc by lia.
    + unfold alen in *. rewrite length_app. simpl. lia.
    + by apply bytes_insert.
    + intros a. destruct (decide (a = buf + pos)) as [->|Hne].
      * rewrite lookup_insert_eq, decide_True by lia. subst pos. unfold alen.
        rewrite list_lookup_middle; [done|]. unfold alen. lia.
      * rewrite (lookup_insert_ne m (buf + pos) a) by done. rewrite Hm. unfold alen in *.
        destruct (decide (buf <= a < buf + pos)).
        -- rewrite decide_True by lia. rewrite lookup_app_l by lia. done.
        -- by rewrite decide_False by lia.
  - eexists. split; [done|]. split; cbn [fst snd]; rewrite ?fitted_snoc_full by lia; done.
Qed.

Lemma append_all_spec cs : forall s out, wrote s out -> Forall (fun c => 0 <= c < 256) cs ->
  exists s', append_all buf size s cs = Some s' /\ wrote s' (out ++ cs).
Proof.
  induction cs as [|c cs IH]; intros s out W Hf; cbn [append_all]; [exists s; by rewrite app_nil_r|].
  apply Forall_cons in Hf as [Hc Hf]. destruct (append_spec s out c W Hc) as (s1 & -> & W1). cbn [mbind option_bind].
  destruct (IH s1 _ W1 Hf) as (s2 & -> & W2). exists s2. by rewrite <- app_assoc in W2.
Qed.

(** Text outside the buffer reads as before the call. *)
Lemma wrote_cstr s out bs : wrote s out -> forall a, cstr m0 a bs -> outside a (alen bs + 1) -> cstr s.1 a bs.
Proof.
  intros W. pose proof (wrote_mem _ _ W) as Hm. pose proof (fitted_le out) as Hle. rewrite <- (wrote_pos _ _ W) in Hle.
  unfold outside, alen.
  induction bs as [|c bs IH]; intros a; cbn [cstr length]; intros L Ho.
  - rewrite Hm, decide_False by lia. done.
  - destruct L as (E & ? & L). rewrite Hm, decide_False by lia. split_and!; [done..|]. apply IH; [done|lia].
Qed.

Lemma append_string_spec bs : forall s out a fuel, wrote s out -> cstr m0 a bs -> outside a (alen bs + 1) ->
  (length bs < fuel)%nat ->
  exists s', append_string buf size s a fuel = Some s' /\ wrote s' (out ++ bs).
Proof.
  induction bs as [|c bs IH]; intros s out a [|fuel] W L Ho Hf; cbn [length] in *; try lia; cbn [append_string];
    pose proof (wrote_cstr s out _ W a L Ho) as L'.
  - simpl in L'. rewrite L'. exists s. by rewrite app_nil_r.
  - destruct L' as (E & Hc & _). rewrite E. cbn [mbind option_bind]. rewrite (proj2 (nonzero_true c) Hc).
    destruct (append_spec s out c W) as (s1 & -> & W1); [by apply (wrote_bytes _ _ W a)|]. cbn [mbind option_bind].
    destruct L as (_ & _ & L). destruct (IH s1 (out ++ [c]) (a + 1) fuel) as (s2 & -> & W2);
      [done|done|unfold outside, alen in *; cbn [length] in *; lia|lia|].
    exists s2. by rewrite <- app_assoc in W2.
Qed.

Lemma RENDER_UINT_spec s out v base upper width pad : wrote s out -> base = 10 \/ base = 16 -> 0 <= v < 2 ^ 64 ->
  width <= 20 -> 0 <= pad < 256 ->
  exists s', RENDER_UINT buf size s v base upper width pad = Some s' /\
    wrote s' (out ++ padded pad width (numeral upper base v)).
Proof.
  intros W Hb Hv Hw Hp. unfold RENDER_UINT. rewrite render_buffer_spec by done. cbn [mbind option_bind].
  rewrite rev_involutive. apply append_all_spec; [done|]. unfold padded. apply Forall_app.
  split; [by apply Forall_replicate|by apply numeral_bytes].
Qed.

Lemma unsigned_arg_range lm a : 0 <= unsigned_arg lm a < 2 ^ 64.
Proof. unfold unsigned_arg. case_match; [apply (wrap_fits 64); lia|]. pose proof (wrap_fits 32 a). unfold fits in *. lia. Qed.

Lemma signed_arg_range lm a : - 2 ^ 63 <= signed_arg lm a < 2 ^ 63.
Proof.
  unfold signed_arg, swrap. case_match.
  - change (2 ^ (64 - 1)) with (2 ^ 63). pose proof (Z.mod_pos_bound (a + 2 ^ 63) (2 ^ 64)). lia.
  - change (2 ^ (32 - 1)) with (2 ^ 31). pose proof (Z.mod_pos_bound (a + 2 ^ 31) (2 ^ 32)). lia.
Qed.

Lemma cstr_app m x : forall a y, cstr m a (x ++ y) -> cstr m (a + alen x) y.
Proof.
  unfold alen. induction x as [|c x IH]; intros a y; cbn [app cstr length]; [by rewrite Z.add_0_r|].
  intros (_ & _ & L). replace (a + Z.of_nat (Datatypes.S (length x))) with (a + 1 + Z.of_nat (length x)) by lia. by apply IH.
Qed.

Lemma width_ge w : forall acc, 0 <= acc -> Forall (fun d => 1 <= d <= 9) w ->
  acc <= foldl (fun acc d => acc * 10 + d) acc w.
Proof.
  induction w as [|d w IH]; intros acc Ha; simpl; [lia|]. intros [Hd Hw]%Forall_cons.
  specialize (IH (acc * 10 + d)). lia || (etransitivity; [|apply IH]; (lia || done)).
Qed.

Lemma parse_width_spec m c rest : (c < 49 \/ 57 < c) -> forall w a acc fuel, 0 <= acc ->
  cstr m a (map (Z.add 48) w ++ c :: rest) -> Forall (fun d => 1 <= d <= 9) w ->
  foldl (fun acc d => acc * 10 + d) acc w <= 20 -> (length w < fuel)%nat ->
  parse_width m a acc fuel = Some (foldl (fun acc d => acc * 10 + d) acc w, a + alen w).
Proof.
  intros Hc. unfold alen. induction w as [|d w IH]; intros a acc [|fuel] Ha L Hw H20 Hf; cbn [length] in *; try lia;
    cbn [parse_width].
  - destruct L as (-> & _). cbn [mbind option_bind foldl].
    destruct (Z.leb_spec 49 c), (Z.leb_spec c 57); cbn [andb]; try lia; by rewrite Z.add_0_r.
  - apply Forall_cons in Hw as [Hd Hw]. destruct L as (-> & _ & L). cbn [mbind option_bind foldl] in *.
    rewrite (proj2 (Z.leb_le 49 (48 + d))), (proj2 (Z.leb_le (48 + d) 57)) by lia. cbn [andb].
    replace (acc * 10 + (48 + d - 48)) with (acc * 10 + d) by lia.
    pose proof (width_ge w (acc * 10 + d) ltac:(lia) Hw). destruct (Z.ltb_spec INT_MAX (acc * 10 + d)) as [Hx|_];
      [unfold INT_MAX in Hx; lia|].
    rewrite IH by (done || lia). do 2 f_equal. lia.
Qed.

Lemma parse_len_mod_spec m a lm c rest : (lm <= 2)%nat -> c <> 108 -> cstr m a (replicate lm 108 ++ c :: rest) ->
  parse_len_mod m a = Some (Z.of_nat lm, a + Z.of_nat lm).
Proof.
  intros Hl Hc L. unfold parse_len_mod. destruct lm as [|[|[|lm]]]; [..|lia]; cbn [replicate app cstr] in L.
  - destruct L as (-> & _). cbn [mbind option_bind]. case_bool; [done|]. do 2 f_equal. lia.
  - destruct L as (-> & _ & -> & _). cbn [mbind option_bind Z.eqb Pos.eqb]. case_bool; [done|]. done.
  - destruct L as (-> & _ & -> & _). done.
Qed.

Ltac bytes_lit := repeat (apply Forall_cons; split; [lia|]); constructor.

(** The switch on a numeric conversion. *)
Lemma convert_num s out a zero w lm cv arg args : wrote s out -> s.1 !! a = Some (conv_letter cv) ->
  width_of w <= 20 -> (cv = ConvD -> signed_arg (Z.of_nat lm) arg <> INT64_MIN) ->
  exists s', convert buf size s a (if zero : bool then 48 else 32) (width_of w) (Z.of_nat lm) (arg :: args) = Some (s', args) /\
    wrote s' (out ++ num_text zero w lm cv arg).
Proof.
  intros W E Hw Hmin. unfold convert. rewrite E. pose proof (unsigned_arg_range (Z.of_nat lm) arg) as Hu.
  pose proof (signed_arg_range (Z.of_nat lm) arg) as Hs.
  assert (Hp : 0 <= (if zero then 48 else 32) < 256) by (destruct zero; lia).
  destruct cv as [| |[]]; cbn [mbind option_bind conv_letter Z.eqb Pos.eqb orb va_arg num_text].
  - rewrite (proj2 (Z.eqb_neq _ _) (Hmin eq_refl)). specialize (Hmin eq_refl). unfold INT64_MIN in Hmin.
    assert (exists s1, (if signed_arg (Z.of_nat lm) arg <? 0 then VSNPRINTF_APPEND buf size s 45 else Some s) = Some s1 /\
      wrote s1 (out ++ if signed_arg (Z.of_nat lm) arg <? 0 then [45] else [])) as (s1 & -> & W1).
    { destruct (signed_arg (Z.of_nat lm) arg <? 0); [by apply append_spec|exists s; by rewrite app_nil_r]. }
    cbn [mbind option_bind].
    destruct (RENDER_UINT_spec s1 _ (Z.abs (signed_arg (Z.of_nat lm) arg)) 10 false (width_of w) _ W1
      ltac:(by left) ltac:(change (2 ^ 64) with (2 * 2 ^ 63); lia) Hw Hp) as (s2 & -> & W2).
    exists s2. by rewrite <- app_assoc in W2.
  - destruct (RENDER_UINT_spec s _ _ 10 false _ _ W ltac:(by left) Hu Hw Hp) as (s2 & -> & W2). by exists s2.
  - destruct (RENDER_UINT_spec s _ _ 16 true _ _ W ltac:(by right) Hu Hw Hp) as (s2 & -> & W2). by exists s2.
  - destruct (RENDER_UINT_spec s _ _ 16 false _ _ W ltac:(by right) Hu Hw Hp) as (s2 & -> & W2). by exists s2.
Qed.

(** The switch on the conversions without flags. *)
Lemma convert_other s out a d c args o args' : wrote s out -> dir_text d = [37; c] -> s.1 !! a = Some c ->
  (forall zero w lm cv, d <> Num zero w lm cv) -> expands d args o args' ->
  exists s', convert buf size s a 32 0 0 args = Some (s', args') /\ wrote s' (out ++ o).
Proof.
  intros W Ht E Hn He. unfold convert. rewrite E. destruct He; try discriminate Ht; try (by exfalso; eapply Hn); injection Ht as <-;
    cbn [mbind option_bind Z.eqb Pos.eqb orb va_arg].
  - destruct (append_spec s out 37 W) as (s1 & -> & W1); [lia|]. by exists s1.
  - destruct (append_all_spec [48; 120] s out W) as (s1 & -> & W1); [bytes_lit|]. cbn [mbind option_bind].
    destruct (RENDER_UINT_spec s1 _ (u64 a0) 16 false 16 48 W1 ltac:(by right) ltac:(apply (wrap_fits 64); lia)
      ltac:(lia) ltac:(lia)) as (s2 & -> & W2).
    exists s2. by rewrite <- app_assoc in W2.
  - destruct (append_all_spec [40; 110; 117; 108; 108; 41] s out W) as (s1 & -> & W1); [bytes_lit|]. by exists s1.
  - rewrite (proj2 (Z.eqb_neq a0 0)) by done.
    destruct (append_string_spec bs s out a0 (str_fuel s.1)) as (s1 & -> & W1); [done..| |by exists s1].
    eapply cstr_fuel. by eapply wrote_cstr.
  - destruct (append_spec s out (u8 a0) W) as (s1 & -> & W1); [apply (wrap_fits 8); lia|]. by exists s1.
Qed.

Definition is_lit (d : directive) : bool := match d with Lit _ => true | _ => false end.

Lemma conv_letter_class cv : conv_letter cv <> 108 /\ conv_letter cv <> 48 /\ 57 < conv_letter cv.
Proof. by destruct cv as [| |[]]. Qed.

Definition flag_text (zero : bool) (w : list Z) (lm : nat) : list Z :=
  (if zero then [48] else []) ++ map (Z.add 48) w ++ replicate lm 108.

Lemma parse_flags_spec m a zero w lm c rest :
  cstr m a (flag_text zero w lm ++ c :: rest) -> c <> 108 -> c <> 48 -> (c < 49 \/ 57 < c) ->
  Forall (fun d => 1 <= d <= 9) w -> width_of w <= 20 -> (lm <= 2)%nat ->
  parse_flags m a = Some (if zero then 48 else 32, width_of w, Z.of_nat lm, a + alen (flag_text zero w lm)).
Proof.
  intros L C108 C48 Cc Hw H20 Hlm. unfold flag_text in L. rewrite <- !app_assoc in L.
  set (a1 := a + alen (if zero then [48] else [])).
  assert (L1 : cstr m a1 (map (Z.add 48) w ++ replicate lm 108 ++ c :: rest)) by (by apply cstr_app).
  assert (L2 : cstr m (a1 + alen w) (replicate lm 108 ++ c :: rest)).
  { apply cstr_app in L1. unfold alen in *. by rewrite length_map in L1. }
  assert (Hx : exists x y, replicate lm 108 ++ c :: rest = x :: y /\ (x < 49 \/ 57 < x) /\ x <> 48).
  { destruct lm; eexists _, _; (split; [done|]); [done|lia]. }
  destruct Hx as (x & y & Exy & Hx & Hx48).
  assert (Hc : exists c0, m !! a = Some c0 /\ (c0 =? 48) = zero).
  { destruct zero; [exists 48; by destruct L|]. cbn [app] in L. rewrite Exy in L. destruct w as [|d w]; destruct L as (-> & _).
    - eexists. split; [done|]. by apply Z.eqb_neq.
    - apply Forall_cons in Hw as [Hd _]. eexists. split; [done|]. apply Z.eqb_neq. lia. }
  destruct Hc as (c0 & E0 & Ez). unfold parse_flags. rewrite E0. cbn [mbind option_bind]. rewrite Ez.
  replace (if zero then (48, a + 1) else (32, a)) with (if zero then 48 else 32, a1)
    by (unfold a1, alen; destruct zero; simpl; f_equal; lia).
  rewrite Exy in L1. rewrite (parse_width_spec m x y Hx w a1 0); [|done..|].
  - cbn [mbind option_bind]. rewrite (parse_len_mod_spec m _ lm c rest) by done. cbn [mbind option_bind].
    do 2 f_equal. unfold a1, flag_text, alen. rewrite !length_app, length_map, length_replicate. lia.
  - pose proof (cstr_fuel m a1 _ L1) as Hf. rewrite length_app, length_map in Hf. lia.
Qed.

(** A directive other than a literal, from the character after its '%'. *)
Lemma format_directive_spec s out a d tl rest args o args' :
  wrote s out -> is_lit d = false -> dir_ok d -> dir_text d = 37 :: tl -> cstr s.1 a (tl ++ rest) -> expands d args o args' ->
  exists s', format_directive buf size s a args = Some (s', a + alen tl, args') /\ wrote s' (out ++ o).
Proof.
  intros W Hl Hok Ht L He. unfold format_directive.
  assert (Hoth : forall c, tl = [c] -> c <> 48 -> c <> 108 -> (c < 49 \/ 57 < c) ->
    (forall zero w lm cv, d <> Num zero w lm cv) ->
    exists s', format_directive buf size s a args = Some (s', a + alen tl, args') /\ wrote s' (out ++ o)).
  { intros c -> H48 H108 Hc Hn. pose proof L as (E & _).
    destruct (convert_other s out a d c args o args') as (s1 & E1 & W1); [done..|]. exists s1. split; [|done].
    unfold format_directive. rewrite (parse_flags_spec s.1 a false [] 0 c rest) by (done || constructor || simpl; lia).
    unfold flag_text, alen. cbn [mbind option_bind app map replicate length width_of foldl]. rewrite Z.add_0_r.
    change (Z.of_nat 0) with 0. by rewrite E1. }
  destruct d as [c| |zero w lm cv| | |]; try done; try (injection Ht as <-; eapply Hoth; (done || lia)).
  clear Hoth. destruct Hok as (Hw & H20 & Hlm). injection Ht as <-. inversion He; subst.
  destruct (conv_letter_class cv) as (C108 & C48 & C57). fold (flag_text zero w lm) in *.
  assert (Htl : (if zero then [48] else []) ++ map (Z.add 48) w ++ replicate lm 108 ++ [conv_letter cv] =
    flag_text zero w lm ++ [conv_letter cv]) by (unfold flag_text; by rewrite <- !app_assoc).
  rewrite Htl, <- app_assoc in L. rewrite (parse_flags_spec s.1 a zero w lm (conv_letter cv) rest) by (done || by right).
  cbn [mbind option_bind]. apply cstr_app in L as [E _].
  destruct (convert_num s out _ zero w lm cv a0 args' W E H20) as (s1 & -> & W1); [done|].
  exists s1. split; [|done]. cbn [mbind option_bind]. do 3 f_equal. rewrite Htl. unfold alen. rewrite length_app. simpl. lia.
Qed.

(** The memory after the call: the text that fits, a NUL, and nothing else
    changed. *)
Definition printed (m' : bmem) (out : list Z) : Prop :=
  forall a, m' !! a =
    if decide (buf <= a < buf + alen (fitted out)) then fitted out !! Z.to_nat (a - buf)
    else if decide (a = buf + alen (fitted out)) then Some 0
    else m0 !! a.

Lemma fitted_full out o : size - 1 <= alen (fitted out) -> fitted (out ++ o) = fitted out.
Proof. unfold fitted, alen. rewrite length_take. intros H. by rewrite take_app_le by lia. Qed.

(** Where the loop ends: a NUL in the format, or a full buffer. *)
Lemma vsnprintf_stop s out o a args c fuel : wrote s out -> s.1 !! a = Some c -> (fuel <> 0)%nat ->
  nonzero c && (s.2 <? size - 1) = false -> (nonzero c = false -> o = []) ->
  exists m', vsnprintf_loop buf size s a args fuel = Some (m', s32 (alen (fitted (out ++ o)))) /\ printed m' (out ++ o).
Proof.
  intros W E Hf Hc Ho. destruct fuel as [|fuel]; [lia|]. cbn [vsnprintf_loop]. rewrite E. cbn [mbind option_bind]. rewrite Hc.
  pose proof (fitted_le out) as Hle. pose proof (alen_nonneg (fitted out)). pose proof W as [Hp Hb Hm].
  assert (Eo : fitted (out ++ o) = fitted out).
  { destruct (nonzero c); cbn [andb] in Hc; [|by rewrite Ho, app_nil_r by done]. apply fitted_full.
    apply Z.ltb_ge in Hc. lia. }
  rewrite mset_spec; [|by apply (wrote_readable _ _ W); lia|lia]. cbn [mbind option_bind].
  eexists. rewrite Eo, <- Hp. split; [done|]. intros b. rewrite Eo, <- Hp.
  destruct (decide (b = buf + s.2)) as [->|Hne].
  - rewrite lookup_insert_eq, decide_False by lia. done.
  - rewrite (lookup_insert_ne s.1) by done. apply Hm.
Qed.

Lemma vsnprintf_loop_spec ds : forall s out o a args fuel, wrote s out ->
  cstr m0 a (concat (map dir_text ds)) -> outside a (alen (concat (map dir_text ds)) + 1) -> renders ds args o ->
  (length (concat (map dir_text ds)) < fuel)%nat ->
  exists m', vsnprintf_loop buf size s a args fuel = Some (m', s32 (alen (fitted (out ++ o)))) /\ printed m' (out ++ o).
Proof.
  induction ds as [|d ds IH]; intros s out o a args fuel W L Hout R Hf; inversion R as [|d' ds' args0 o1 args' o2 Hok He R']; subst;
    pose proof (wrote_cstr s out _ W a L Hout) as L'; cbn [map concat] in *.
  - cbn [cstr] in L'. apply (vsnprintf_stop s out [] a args 0); [done|done|lia|done|done].
  - rewrite length_app in Hf. destruct (is_lit d) eqn:Hd.
    + destruct d as [c| | | | |]; try done. inversion He; subst. cbn [dir_text app] in L, L'. pose proof L' as (E & Hc & _).
      destruct (Z.ltb_spec s.2 (size - 1)) as [Hlt|Hge].
      * destruct Hok as [Hc1 Hc2]. destruct fuel as [|fuel]; [lia|]. cbn [vsnprintf_loop]. rewrite E. cbn [mbind option_bind].
        rewrite (proj2 (nonzero_true c) Hc), (proj2 (Z.ltb_lt _ _) Hlt), (proj2 (Z.eqb_neq c 37) Hc2). cbn [andb negb].
        destruct (append_spec s out c W) as (s1 & -> & W1); [lia|]. cbn [mbind option_bind].
        destruct (IH s1 (out ++ [c]) o2 (a + 1) args' fuel) as (m' & -> & Hm'); [done|by destruct L as (_ & _ & L)| |done|simpl in Hf; lia|].
        { unfold outside, alen in *. cbn [dir_text app length] in Hout. lia. }
        exists m'. by rewrite <- app_assoc in *.
      * apply (vsnprintf_stop s out _ a _ c); [done|done|lia|by rewrite (proj2 (Z.ltb_ge _ _) Hge), andb_false_r|].
        by rewrite (proj2 (nonzero_true c) Hc).
    + assert (exists tl, dir_text d = 37 :: tl) as [tl Ht] by (destruct d; naive_solver).
      rewrite Ht in L, L', Hf, Hout. pose proof L' as (E & Hc & Lt).
      destruct (Z.ltb_spec s.2 (size - 1)) as [Hlt|Hge].
      * destruct fuel as [|fuel]; [lia|]. cbn [vsnprintf_loop]. rewrite E. cbn [mbind option_bind].
        rewrite (proj2 (Z.ltb_lt _ _) Hlt). cbn [andb negb nonzero Z.eqb Pos.eqb].
        destruct (format_directive_spec s out (a + 1) d tl _ args o1 args' W Hd Hok Ht Lt He) as (s1 & -> & W1).
        cbn [mbind option_bind].
        destruct (IH s1 (out ++ o1) o2 (a + 1 + alen tl) args' fuel) as (m' & -> & Hm'); [done| | |done|simpl in Hf; lia|].
        { destruct L as (_ & _ & L). by apply cstr_app. }
        { unfold outside, alen in *. cbn [app length] in Hout. rewrite length_app in Hout. lia. }
        exists m'. by rewrite <- app_assoc in *.
      * apply (vsnprintf_stop s out _ a args 37); [done|done|lia|by rewrite (proj2 (Z.ltb_ge _ _) Hge), andb_false_r|done].
Qed.

End rendering.

(** [vsnprintf] of a well-formed format whose text and string arguments lie
    outside the buffer always returns; it writes the rendering of the format
    cut to [size - 1] characters, a NUL after it and no other byte, and returns
    the number of characters written. *)
Theorem vsnprintf_renders (buf size : Z) (m : bmem) (fmt : Z) (ds : list directive) (args out : list Z) :
  buf <> 0 -> 1 <= size <= 2 ^ 31 -> readable m buf size -> bytes_ok m ->
  cstr m fmt (concat (map dir_text ds)) -> outside buf size fmt (alen (concat (map dir_text ds)) + 1) ->
  renders buf size m ds args out ->
  exists m', vsnprintf buf size m fmt args = Some (m', alen (fitted size out)) /\ printed buf size m m' out.
Proof.
  intros Hbuf0 Hs Hr Hb L Ho R. unfold vsnprintf. rewrite (proj2 (Z.eqb_neq buf 0)), (proj2 (Z.eqb_neq size 0)) by lia. cbn [orb].
  assert (W : wrote buf size m (m, 0) []).
  { split; cbn [fst snd]; [unfold alen, fitted; by rewrite take_nil|done|]. intros a. by rewrite decide_False by lia. }
  destruct (vsnprintf_loop_spec buf size m ltac:(lia) Hr ds _ _ out fmt args (str_fuel m) W L Ho R (cstr_fuel m fmt _ L))
    as (m' & -> & Hm').
  exists m'. split; [|done]. pose proof (fitted_le size ltac:(lia) out). pose proof (alen_nonneg (fitted size out)).
  cbn [app]. unfold swrap. rewrite Z.mod_small by lia. do 2 f_equal. lia.
Qed.

(** The format "%3d %s" with the arguments -7 and the string "ok", into 6 bytes. *)
Definition demo_mem : bmem :=
  list_to_map (zip (seqZ 100 6 ++ seqZ 500 7 ++ seqZ 600 3)
    (replicate 6 170 ++ [37; 51; 100; 32; 37; 115; 0] ++ [111; 107; 0])).

Lemma vsnprintf_renders_witness :
  exists m', vsnprintf 100 6 demo_mem 500 [2 ^ 32 - 7; 600] = Some (m', 5) /\
    m' !! 100 = Some 45 /\ m' !! 103 = Some 55 /\ m' !! 105 = Some 0.
Proof.
  destruct (vsnprintf_renders 100 6 demo_mem 500 [Num false [3] 0 ConvD; Lit 32; Str] [2 ^ 32 - 7; 600]
    [45; 32; 32; 55; 32; 111; 107]) as (m' & E & H).
  - lia.
  - lia.
  - by apply readable_check.
  - by apply bytes_check.
  - repeat split; done.
  - right. vm_compute. done.
  - change [45; 32; 32; 55; 32; 111; 107] with (num_text false [3] 0 ConvD (2 ^ 32 - 7) ++ [32] ++ [111; 107] ++ []).
    eapply renders_cons; [repeat constructor; vm_compute; done| |].
    { apply expands_num. intros _. vm_compute. done. }
    eapply renders_cons; [vm_compute; intuition congruence|apply expands_lit|].
    eapply renders_cons; [done| |apply renders_nil].
    apply expands_str; [done|repeat split; done|right; vm_compute; done].
  - exists m'. split_and!; [exact E|rewrite (H 100)|rewrite (H 103)|rewrite (H 105)]; vm_compute; reflexivity.
Defined.
