(* ===== verification/Process.v ===== *)
(** Processes and threads, kernel/src/sched/process.c, thread.c, vma.c and the
    set-up and exit entries of scheduler.c.

    [sys] joins the scheduler (file Sched), the kernel heap with the address
    space and the frames behind it (files Heap, Vmm, Frames) and the statics of
    process.c and thread.c.  An object allocated with [kmalloc] is an entry at
    its address in the map of its type, removed again when it is freed.  CR3 is
    one register: it is the [cr3] of the address space, and [run_sched] lends it
    to the scheduler's view of the CPU for the time of a call.  As in the files
    below, [None] is an access through a pointer to no object. *)
From stdpp Require Import prelude gmap list.
From Stdlib Require Import ZArith Lia.
From S2P Require Import Prelude Bitmap Pmm Frames Vmm Heap Task Sched.

Open Scope Z_scope.

(** Addresses that the linker chooses. *)
Record kernel_image := KernelImage {
  thread_entry_stub : Z;
  idle_thread_fn : Z;
  shell_run : Z;
  usermode_entry_stub : Z;
  cwd_root : Z
}.

(** Struct sizes on x86_64. *)
Definition sizeof_process : Z := 128.

Definition sizeof_thread : Z := 80.

Definition sizeof_vma : Z := 32.

Definition SCHED_PRIORITY_HIGH : Z := 6.

Record fd_table_t := FdTable { fds : list Z; open_count : Z }.

(** [memset(t, 0, sizeof(thread_t))]. *)
Definition zero_thread : thread := Thread 0 THREAD_READY 0 0 0 0 0 0 0 0.

Section process.
Context {S : Type} `{FrameStore S} (img : kernel_image).
Implicit Types (p t : Z).

Record sys := Sys {
  sk : sched;
  hp : heap S;
  proc_table_head : Z;
  next_pid : Z;
  next_tid : Z;
  vma_tab : gmap Z vma;
  fd_tabs : gmap Z fd_table_t
}.

Definition with_sk (s : sys) (k : sched) : sys :=
  Sys k (hp s) (proc_table_head s) (next_pid s) (next_tid s) (vma_tab s) (fd_tabs s).

Definition with_hp (s : sys) (h : heap S) : sys :=
  Sys (sk s) h (proc_table_head s) (next_pid s) (next_tid s) (vma_tab s) (fd_tabs s).

Definition with_head (s : sys) p : sys :=
  Sys (sk s) (hp s) p (next_pid s) (next_tid s) (vma_tab s) (fd_tabs s).

Definition with_pids (s : sys) (pid tid : Z) : sys :=
  Sys (sk s) (hp s) (proc_table_head s) pid tid (vma_tab s) (fd_tabs s).

Definition with_vmas (s : sys) (m : gmap Z vma) : sys :=
  Sys (sk s) (hp s) (proc_table_head s) (next_pid s) (next_tid s) m (fd_tabs s).

Definition with_fds (s : sys) (m : gmap Z fd_table_t) : sys :=
  Sys (sk s) (hp s) (proc_table_head s) (next_pid s) (next_tid s) (vma_tab s) m.

Definition vm (s : sys) : vmm S := space (hp s).

Definition with_vm (s : sys) (m : vmm S) : sys := with_hp s (set_space (hp s) (heap_virt_end (hp s)) m).

(** A call into the scheduler, with the CPU's CR3. *)
Definition run_sched (s : sys) (f : sched -> option sched) : option sys :=
  let c := cpu (sk s) in
  k ← f (set_cpu (sk s) (Cpu (current_thread c) (current_process c) (cr3 (vm s)) (cpu_rsp c)
                             (tss_rsp0 c) (kernel_rsp_scratch c)));
  Some (with_vm (with_sk s k) (write_cr3 (vm s) (cpu_cr3 (cpu k)))).

(** Writing through a pointer to a process. *)
Definition upd_proc (s : sys) p (f : process -> process) : option sys :=
  match procs (sk s) !! p with
  | Some pr => Some (with_sk s (set_procs (sk s) (<[p := f pr]> (procs (sk s)))))
  | None => None
  end.

Definition upd_thr (s : sys) t (f : thread -> thread) : option sys :=
  k ← upd_thread (sk s) t f; Some (with_sk s k).

(** [kmalloc] and [kfree] on the heap of the state. *)
Definition sys_alloc (s : sys) (n : Z) : option (sys * Z) :=
  '(h, a) ← kmalloc (hp s) n; Some (with_hp s h, a).

Definition sys_free (s : sys) (a : Z) : option sys := h ← kfree (hp s) a; Some (with_hp s h).

(** ** thread.c *)

(** [*--sp = v], with the stack page mapped at [hhdm_off]. *)
Definition push (m : vmm S) (sp v : Z) : vmm S * Z :=
  let sp' := u64 (sp - 8) in
  (set_store m (write64 (store m) (u64 (sp' - hhdm_off m)) (u64 v)), sp').

Definition push_all (m : vmm S) (sp : Z) (vs : list Z) : vmm S * Z :=
  foldl (fun '(m, sp) v => push m sp v) (m, sp) vs.

(** The initial frame, in the order of the pushes. *)
Definition initial_frame (entry_rip arg1 arg2 : Z) : list Z :=
  [arg2; arg1; entry_rip; thread_entry_stub img; 0; 0; 0; 0; 0; 0].

Definition thread_create (s : sys) (proc entry_rip arg1 arg2 : Z) : option (sys * Z) :=
  if proc =? 0 then Some (s, 0)
  else
    '(s1, t) ← sys_alloc s sizeof_thread;
    if t =? 0 then Some (s1, 0)
    else
      let tid := next_tid s1 in
      let s2 := with_pids s1 (next_pid s1) (u32 (tid + 1)) in
      let '(st, phys) := alloc_page (store (vm s2)) in
      let s3 := with_vm s2 (set_store (vm s2) st) in
      if phys =? 0 then
        s4 ← sys_free s3 t; Some (s4, 0)
      else
        let stack_page_virt := u64 (phys + hhdm_off (vm s3)) in
        let kstack_virt := u64 (stack_page_virt + THREAD_KERNEL_STACK_SIZE) in
        let m1 := set_store (vm s3) (zero_page (store (vm s3)) phys) in
        let '(m2, sp) := push_all m1 kstack_virt (initial_frame entry_rip arg1 arg2) in
        let s4 := with_vm s3 m2 in
        pr ← procs (sk s4) !! proc;
        let th := Thread tid THREAD_READY SCHED_PRIORITY_NORMAL phys kstack_virt sp 0 (proc_threads pr) 0 proc in
        let s5 := with_sk s4 (set_threads (sk s4) (<[t := th]> (threads (sk s4)))) in
        s6 ← upd_proc s5 proc (fun pr =>
               Process (pid pr) (ppid pr) (pstate pr) (uid pr) (gid pr) (euid pr) (egid pr) (proc_cr3 pr)
                 t (u32 (thread_count pr + 1)) (fd_table pr) (cwd pr) (exit_code pr) (heap_base pr)
                 (heap_end pr) (stack_top_virt pr) (stack_limit_virt pr) (vmas pr) (next_proc pr));
        Some (s6, t).

Definition thread_destroy (s : sys) t : option sys :=
  if t =? 0 then Some s
  else
    th ← threads (sk s) !! t;
    let s1 := if negb (kstack_phys th =? 0)
              then with_vm s (set_store (vm s) (free_page (store (vm s)) (kstack_phys th))) else s in
    let s2 := with_sk s1 (set_threads (sk s1) (delete t (threads (sk s1)))) in
    sys_free s2 t.

(** ** vma.c *)

Definition set_proc_vmas (pr : process) (v : Z) : process :=
  Process (pid pr) (ppid pr) (pstate pr) (uid pr) (gid pr) (euid pr) (egid pr) (proc_cr3 pr)
    (proc_threads pr) (thread_count pr) (fd_table pr) (cwd pr) (exit_code pr) (heap_base pr)
    (heap_end pr) (stack_top_virt pr) (stack_limit_virt pr) v (next_proc pr).

Definition process_add_vma (s : sys) (proc start endv flags : Z) : option sys :=
  if proc =? 0 then Some s
  else
    '(s1, v) ← sys_alloc s sizeof_vma;
    if v =? 0 then Some s1
    else
      pr ← procs (sk s1) !! proc;
      let s2 := with_vmas s1 (<[v := Vma start endv flags (vmas pr)]> (vma_tab s1)) in
      upd_proc s2 proc (fun pr => set_proc_vmas pr v).

Fixpoint find_vma_loop (tab : gmap Z vma) (curr addr : Z) (fuel : nat) : option Z :=
  match fuel with
  | O => None
  | Datatypes.S fuel =>
      if curr =? 0 then Some 0
      else
        v ← tab !! curr;
        if (virt_start v <=? addr) && (addr <? virt_end v) then Some curr
        else find_vma_loop tab (next_vma v) addr fuel
  end.

Definition process_find_vma (s : sys) (proc addr : Z) : option Z :=
  if proc =? 0 then Some 0
  else
    pr ← procs (sk s) !! proc;
    find_vma_loop (vma_tab s) (vmas pr) addr (Datatypes.S (map_size (vma_tab s))).

(** ** process.c *)

Definition process_alloc_address_space (m : vmm S) : vmm S * Z :=
  let '(s1, new_pml4) := alloc_page (store m) in
  if new_pml4 =? 0 then (set_store m s1, 0)
  else
    let s2 := zero_page s1 new_pml4 in
    let cur_pml4 := Z.land (cr3 m) ADDR_MASK in
    let s3 := foldl (fun s i => twrite s new_pml4 i (tread s cur_pml4 i)) s2 (seqZ 256 256) in
    (set_store m s3, new_pml4).

Definition set_currents (k : sched) p t : sched :=
  let c := cpu k in
  set_cpu k (Cpu t p (cpu_cr3 c) (cpu_rsp c) (tss_rsp0 c) (kernel_rsp_scratch c)).

Definition process_init (s : sys) : sys :=
  with_sk (with_pids (with_head s 0) 0 (next_tid s)) (set_currents (sk s) 0 0).

Definition process_get_next_pid (s : sys) : sys * Z :=
  (with_pids s (s32 (next_pid s + 1)) (next_tid s), next_pid s).

Definition process_create (s : sys) (ppid : Z) : option (sys * Z) :=
  '(s1, p) ← sys_alloc s sizeof_process;
  if p =? 0 then Some (s1, 0)
  else
    let '(s2, pid) := process_get_next_pid s1 in
    let '(m, root) := process_alloc_address_space (vm s2) in
    let s3 := with_vm s2 m in
    if root =? 0 then
      s4 ← sys_free s3 p; Some (s4, 0)
    else
      let pr := Process pid ppid PROC_ALIVE 0 0 0 0 root 0 0 0 (cwd_root img) 0 0 0 0 0 0 (proc_table_head s3) in
      Some (with_head (with_sk s3 (set_procs (sk s3) (<[p := pr]> (procs (sk s3))))) p, p).

(** Enough rounds for a list that visits each process at most once. *)
Definition proc_fuel (s : sys) : nat := Datatypes.S (map_size (procs (sk s))).

Fixpoint process_get_loop (m : gmap Z process) p (target : Z) (fuel : nat) : option Z :=
  match fuel with
  | O => None
  | Datatypes.S fuel =>
      if p =? 0 then Some 0
      else
        pr ← m !! p;
        if pid pr =? target then Some p else process_get_loop m (next_proc pr) target fuel
  end.

Definition process_get (s : sys) (target : Z) : option Z :=
  process_get_loop (procs (sk s)) (proc_table_head s) target (proc_fuel s).

Definition process_get_uid (s : sys) (target : Z) : option Z :=
  p ← process_get s target;
  if negb (p =? 0) then pr ← procs (sk s) !! p; Some (uid pr) else Some (u32 (-1)).

Definition process_get_gid (s : sys) (target : Z) : option Z :=
  p ← process_get s target;
  if negb (p =? 0) then pr ← procs (sk s) !! p; Some (gid pr) else Some (u32 (-1)).

(** The two freeing loops of [process_destroy]; the next pointer is read before
    the element is freed. *)
Fixpoint destroy_threads (s : sys) t (fuel : nat) : option sys :=
  match fuel with
  | O => None
  | Datatypes.S fuel =>
      if t =? 0 then Some s
      else
        th ← threads (sk s) !! t;
        s1 ← thread_destroy s t;
        destroy_threads s1 (next_in_proc th) fuel
  end.

Fixpoint free_vmas (s : sys) (v : Z) (fuel : nat) : option sys :=
  match fuel with
  | O => None
  | Datatypes.S fuel =>
      if v =? 0 then Some s
      else
        a ← vma_tab s !! v;
        s1 ← sys_free (with_vmas s (delete v (vma_tab s))) v;
        free_vmas s1 (next_vma a) fuel
  end.

Definition set_next_proc (pr : process) (n : Z) : process :=
  Process (pid pr) (ppid pr) (pstate pr) (uid pr) (gid pr) (euid pr) (egid pr) (proc_cr3 pr)
    (proc_threads pr) (thread_count pr) (fd_table pr) (cwd pr) (exit_code pr) (heap_base pr)
    (heap_end pr) (stack_top_virt pr) (stack_limit_virt pr) (vmas pr) n.

(** The search for the predecessor of [proc] in the process table. *)
Fixpoint unlink_loop (s : sys) (proc next p : Z) (fuel : nat) : option sys :=
  match fuel with
  | O => None
  | Datatypes.S fuel =>
      if p =? 0 then Some s
      else
        pr ← procs (sk s) !! p;
        if next_proc pr =? 0 then Some s
        else if next_proc pr =? proc then upd_proc s p (fun pr => set_next_proc pr next)
        else unlink_loop s proc next (next_proc pr) fuel
  end.

(** Every field that [process_destroy] clears before the PCB itself goes. *)
Definition cleared (pr : process) : process :=
  Process (pid pr) (ppid pr) (pstate pr) (uid pr) (gid pr) (euid pr) (egid pr) 0
    0 0 0 (cwd pr) (exit_code pr) (heap_base pr) (heap_end pr) (stack_top_virt pr)
    (stack_limit_virt pr) 0 (next_proc pr).

Definition process_destroy (s : sys) (proc : Z) : option sys :=
  if proc =? 0 then Some s
  else
    pr ← procs (sk s) !! proc;
    s1 ← destroy_threads s (proc_threads pr) (Datatypes.S (map_size (threads (sk s))));
    s2 ← free_vmas s1 (vmas pr) (Datatypes.S (map_size (vma_tab s1)));
    let s3 := with_vm s2 (vmm_destroy_address_space (vm s2) (proc_cr3 pr)) in
    s4 ← (if negb (fd_table pr =? 0)
          then sys_free (with_fds s3 (delete (fd_table pr) (fd_tabs s3))) (fd_table pr) else Some s3);
    s5 ← upd_proc s4 proc cleared;
    s6 ← (if proc_table_head s5 =? proc then Some (with_head s5 (next_proc pr))
          else unlink_loop s5 proc (next_proc pr) (proc_table_head s5) (proc_fuel s5));
    sys_free (with_sk s6 (set_procs (sk s6) (delete proc (procs (sk s6))))) proc.

(** [for (t = proc->threads; t; t = t->next_in_proc)] of [process_exit]. *)
Fixpoint kill_threads (k : sched) t (fuel : nat) : option sched :=
  match fuel with
  | O => None
  | Datatypes.S fuel =>
      if t =? 0 then Some k
      else
        th ← threads k !! t;
        k1 ← (if negb (bool_decide (state th = THREAD_DEAD)) then
                k' ← scheduler_dequeue k t;
                upd_thread k' t (fun th => set_state th THREAD_DEAD)
              else Some k);
        th1 ← threads k1 !! t;
        kill_threads k1 (next_in_proc th1) fuel
  end.

Definition set_exited (pr : process) (code : Z) : process :=
  Process (pid pr) (ppid pr) PROC_ZOMBIE (uid pr) (gid pr) (euid pr) (egid pr) (proc_cr3 pr)
    (proc_threads pr) (thread_count pr) (fd_table pr) (cwd pr) code (heap_base pr)
    (heap_end pr) (stack_top_virt pr) (stack_limit_virt pr) (vmas pr) (next_proc pr).

Definition process_exit (s : sys) (proc code : Z) : option (sys * Z) :=
  if proc =? 0 then Some (s, -1)
  else
    s1 ← upd_proc s proc (fun pr => set_exited pr code);
    pr ← procs (sk s1) !! proc;
    k ← kill_threads (sk s1) (proc_threads pr) (Datatypes.S (map_size (threads (sk s1))));
    let s2 := with_sk s1 k in
    if proc =? current_process (cpu k) then
      s3 ← run_sched s2 schedule; Some (s3, 0)
    else Some (s2, 0).

Definition process_exit_current (s : sys) (code : Z) : option sys :=
  '(s1, _) ← process_exit s (current_process (cpu (sk s))) code; Some s1.

(** [process_waitpid], with [*status] as written through a non-NULL pointer. *)
Fixpoint waitpid_loop (s : sys) p (parent_pid target_pid has_children : Z) (fuel : nat)
  : option (sys * Z * option Z) :=
  match fuel with
  | O => None
  | Datatypes.S fuel =>
      if p =? 0 then Some (s, if nonzero has_children then 0 else -1, None)
      else
        pr ← procs (sk s) !! p;
        if (ppid pr =? parent_pid) && ((target_pid =? -1) || (pid pr =? target_pid)) then
          if bool_decide (pstate pr = PROC_ZOMBIE) then
            s1 ← process_destroy s p;
            Some (s1, pid pr, Some (Z.shiftl (Z.land (exit_code pr) 0xFF) 8))
          else waitpid_loop s (next_proc pr) parent_pid target_pid 1 fuel
        else waitpid_loop s (next_proc pr) parent_pid target_pid has_children fuel
  end.

Definition process_waitpid (s : sys) (parent_pid target_pid : Z) : option (sys * Z * option Z) :=
  waitpid_loop s (proc_table_head s) parent_pid target_pid 0 (proc_fuel s).

(** ** scheduler.c: exit and initialisation *)

Definition scheduler_exit_current (s : sys) (code : Z) : option sys := process_exit_current s code.

(** [scheduler_init]; hooking IRQ0 is not part of this state. *)
Definition scheduler_init (s : sys) : option (sys * Z) :=
  let s0 := with_sk s (set_queues (sk s) (replicate 8 0) (replicate 8 0)) in
  let s1 := process_init s0 in
  '(s2, idle_process) ← process_create s1 (-1);
  if idle_process =? 0 then Some (s2, -1)
  else
    '(s3, idle) ← thread_create s2 idle_process (idle_thread_fn img) 0 0;
    let s3 := with_sk s3 (set_idle_thread (sk s3) idle) in
    if idle =? 0 then Some (s3, -1)
    else
      s4 ← upd_thr s3 idle (fun th => set_state (set_priority th SCHED_PRIORITY_IDLE) THREAD_READY);
      '(s5, shell_proc) ← process_create s4 0;
      if negb (shell_proc =? 0) then
        '(s6, shell_th) ← thread_create s5 shell_proc (shell_run img) 0 0;
        if negb (shell_th =? 0) then
          s7 ← upd_thr s6 shell_th (fun th => set_priority th SCHED_PRIORITY_NORMAL);
          s8 ← run_sched s7 (fun k => scheduler_enqueue k shell_th);
          Some (s8, 0)
        else Some (s6, 0)
      else Some (s5, 0).

End process.

Arguments sys : clear implicits.
Arguments sys S : clear implicits.
