(* ===== verification/ProcessThm.v ===== *)
(** Theorems of the process model (file Process): searching the process table
    and the memory areas, reaping children, the first stack frame of a thread,
    and the release of everything a process owns. *)
From stdpp Require Import prelude gmap list.
From Stdlib Require Import ZArith Lia.
From S2P Require Import Prelude Bitmap Pmm Frames Vmm VmmTree Heap HeapSpec HeapUse Task Sched SchedSpec SchedThm Process.

Open Scope Z_scope.

Section process_table.
Context {S : Type} `{FrameStore S}.
Implicit Types (s : sys S) (l : list Z).

(** The process table of [s] is the list of PCBs [l]. *)
Definition table_is s l : Prop := linked next_proc (procs (sk s)) (proc_table_head s) l.

(** A property of the PCB at an address. *)
Definition pcb_test s (f : process -> bool) (p : Z) : bool :=
  match procs (sk s) !! p with Some pr => f pr | None => false end.

Definition find_pcb s (f : process -> bool) l : option Z := List.find (pcb_test s f) l.

Lemma table_fuel s l : table_is s l -> (length l < proc_fuel s)%nat.
Proof. intros L. apply linked_length in L. unfold proc_fuel. lia. Qed.

Lemma get_loop_find s target l : forall p fuel,
  linked next_proc (procs (sk s)) p l -> (length l < fuel)%nat ->
  process_get_loop (procs (sk s)) p target fuel =
    Some (default 0 (find_pcb s (fun pr => pid pr =? target) l)).
Proof.
  induction l as [|x l IH]; intros p [|fuel] L Hf; simpl in Hf; try lia; cbn [process_get_loop].
  - simpl in L. by subst.
  - destruct L as (-> & Hx & pr & E & L). rewrite (proj2 (Z.eqb_neq x 0)) by done. rewrite E. cbn [mbind option_bind].
    unfold find_pcb in *. simpl. unfold pcb_test at 1. rewrite E. destruct (pid pr =? target); [done|].
    apply IH; [done|lia].
Qed.

Lemma process_get_find s l target : table_is s l ->
  process_get s target = Some (default 0 (find_pcb s (fun pr => pid pr =? target) l)).
Proof. intros L. apply get_loop_find; [done|by apply table_fuel]. Qed.

(** The children that [process_waitpid] considers, and the ones it can reap. *)
Definition is_child (parent_pid target_pid : Z) (pr : process) : bool :=
  (ppid pr =? parent_pid) && ((target_pid =? -1) || (pid pr =? target_pid)).

Definition is_reapable (parent_pid target_pid : Z) (pr : process) : bool :=
  is_child parent_pid target_pid pr && bool_decide (pstate pr = PROC_ZOMBIE).

Lemma waitpid_loop_spec s parent target l : forall p hc fuel,
  linked next_proc (procs (sk s)) p l -> (length l < fuel)%nat ->
  waitpid_loop s p parent target hc fuel =
    match find_pcb s (is_reapable parent target) l with
    | Some z =>
        pr ← procs (sk s) !! z;
        s1 ← process_destroy s z;
        Some (s1, pid pr, Some (Z.shiftl (Z.land (exit_code pr) 0xFF) 8))
    | None =>
        Some (s, if nonzero hc || existsb (pcb_test s (is_child parent target)) l then 0 else -1, None)
    end.
Proof.
  induction l as [|x l IH]; intros p hc [|fuel] L Hf; simpl in Hf; try lia; cbn [waitpid_loop].
  - simpl in L. subst. simpl. by rewrite orb_false_r.
  - destruct L as (-> & Hx & pr & E & L). rewrite (proj2 (Z.eqb_neq x 0)) by done. rewrite E. cbn [mbind option_bind].
    unfold find_pcb. simpl. unfold pcb_test at 1 3. rewrite E. unfold is_reapable at 1. fold (is_child parent target pr).
    destruct (is_child parent target pr) eqn:Ec; cbn [andb].
    + destruct (bool_decide (pstate pr = PROC_ZOMBIE)).
      * by rewrite E.
      * rewrite (IH (next_proc pr) 1 fuel L) by lia. fold (find_pcb s (is_reapable parent target) l).
        destruct (find_pcb _ _ _); [done|]. simpl. by rewrite orb_true_r.
    + rewrite (IH (next_proc pr) hc fuel L) by lia. done.
Qed.

(** ** Memory areas *)

Definition vma_covers s (addr v : Z) : bool :=
  match vma_tab s !! v with Some a => (virt_start a <=? addr) && (addr <? virt_end a) | None => false end.

Lemma find_vma_loop_spec s addr l : forall v fuel,
  linked next_vma (vma_tab s) v l -> (length l < fuel)%nat ->
  find_vma_loop (vma_tab s) v addr fuel = Some (default 0 (List.find (vma_covers s addr) l)).
Proof.
  induction l as [|x l IH]; intros v [|fuel] L Hf; simpl in Hf; try lia; cbn [find_vma_loop].
  - simpl in L. by subst.
  - destruct L as (-> & Hx & a & E & L). rewrite (proj2 (Z.eqb_neq x 0)) by done. rewrite E. cbn [mbind option_bind].
    simpl. unfold vma_covers at 1. rewrite E. destruct (_ && _); [done|]. apply IH; [done|lia].
Qed.

Lemma find_vma_spec s proc pr l addr :
  proc <> 0 -> procs (sk s) !! proc = Some pr -> linked next_vma (vma_tab s) (vmas pr) l ->
  process_find_vma s proc addr = Some (default 0 (List.find (vma_covers s addr) l)).
Proof.
  intros Hp E L. unfold process_find_vma. rewrite (proj2 (Z.eqb_neq proc 0)) by done. rewrite E. cbn [mbind option_bind].
  apply find_vma_loop_spec; [done|]. apply linked_length in L. lia.
Qed.

End process_table.

(** ** Releasing what a process owns *)

Section destroy.
Context {S : Type} `{FrameStore S}.
Implicit Types (s : sys S) (l ts vs os : list Z) (lh : list ablock).

Lemma kfree_space (h h' : heap S) p : kfree h p = Some h' -> space h' = space h.
Proof.
  unfold kfree. destruct (p =? 0); [by intros [= <-]|]. destruct (_ !! _); [|done].
  destruct (coalesce _ _ _); [|done]. by intros [= <-].
Qed.

(** The pointers [os] are live allocations of the heap of [s], all distinct. *)
Definition holds s lh os : Prop :=
  heap_repr (hp s) lh /\ NoDup os /\ forall o, o ∈ os -> o <> 0 /\ exists n, (o - HEADER_SIZE, n) ∈ live lh.

(** The allocations of [lh] other than [os] are the ones of [lh']. *)
Definition released lh lh' os : Prop :=
  exists rs, rs.*1 = (fun o => o - HEADER_SIZE) <$> os /\ live lh ≡ₚ rs ++ live lh'.

Lemma released_nil lh : released lh lh [].
Proof. by exists []. Qed.

Lemma released_app lh lh1 lh2 os1 os2 :
  released lh lh1 os1 -> released lh1 lh2 os2 -> released lh lh2 (os1 ++ os2).
Proof.
  intros (r1 & E1 & P1) (r2 & E2 & P2). exists (r1 ++ r2). split.
  - by rewrite !fmap_app, E1, E2.
  - by rewrite P1, P2, app_assoc.
Qed.

Lemma holds_frame s s' lh os : hp s' = hp s \/ (exists m, s' = with_vm s m) -> holds s lh os -> holds s' lh os.
Proof.
  intros Hs (R & Nd & Ho). split; [|done].
  destruct Hs as [->|(m & ->)]; [done|]. by destruct R as [C L B E E8 N A].
Qed.

(** [kfree] of the first of them. *)
Lemma sys_free_spec s lh o os :
  holds s lh (o :: os) ->
  exists h' lh', sys_free s o = Some (with_hp s h') /\ space h' = vm s /\
    holds (with_hp s h') lh' os /\ released lh lh' [o].
Proof.
  intros (R & Nd & Ho). apply NoDup_cons in Nd as [Hno Nd].
  destruct (Ho o) as (Hnz & n & Hin); [by left|].
  destruct (kfree_live _ _ o n R Hin) as (h' & E & R' & P). exists h', (release (o - HEADER_SIZE) lh).
  unfold sys_free. rewrite E. cbn [mbind option_bind]. split_and!; [done|by apply (kfree_space _ _ o)| |].
  - split_and!; [done|done|]. intros o' Ho'. destruct (Ho o') as (Hnz' & n' & Hin'); [by right|].
    split; [done|]. exists n'. rewrite P in Hin'. apply elem_of_cons in Hin' as [[= Heq _]|?]; [|done].
    assert (o' = o) as -> by lia. done.
  - by exists [(o - HEADER_SIZE, n)].
Qed.

Lemma free_vmas_spec vs : forall s lh os v fuel,
  linked next_vma (vma_tab s) v vs -> holds s lh (vs ++ os) -> (length vs < fuel)%nat ->
  exists s' lh', free_vmas s v fuel = Some s' /\ holds s' lh' os /\ released lh lh' vs /\
    vm s' = vm s /\ sk s' = sk s /\ proc_table_head s' = proc_table_head s /\ fd_tabs s' = fd_tabs s.
Proof.
  induction vs as [|x vs IH]; intros s lh os v [|fuel] L Ho Hf; simpl in Hf; try lia; cbn [free_vmas].
  - simpl in L. subst. exists s, lh. split_and!; [done|done|apply released_nil|done..].
  - pose proof (linked_NoDup _ _ _ _ L) as [Hx Nd]%NoDup_cons.
    destruct L as (-> & Hnz & a & E & L). rewrite (proj2 (Z.eqb_neq x 0)) by done. rewrite E. cbn [mbind option_bind].
    destruct (sys_free_spec (with_vmas s (delete x (vma_tab s))) lh x (vs ++ os)) as (h1 & lh1 & -> & Es & Ho1 & R1).
    { by apply (holds_frame s); [left|]. }
    cbn [mbind option_bind].
    pose proof (linked_delete _ _ _ _ x Hx L) as L1.
    match type of Ho1 with holds ?s1 _ _ => destruct (IH s1 lh1 os (next_vma a) fuel L1 Ho1)
      as (s' & lh' & E' & Ho' & R' & Ev & Ek & Eh & Ef); [lia|] end.
    exists s', lh'. split_and!; [done|done| |by rewrite Ev|by rewrite Ek|by rewrite Eh|by rewrite Ef].
    by apply (released_app _ lh1 _ [x] vs).
Qed.

Lemma thread_destroy_spec s lh t th os :
  threads (sk s) !! t = Some th -> holds s lh (t :: os) ->
  exists s' lh', thread_destroy s t = Some s' /\ holds s' lh' os /\ released lh lh' [t] /\
    sk s' = set_threads (sk s) (delete t (threads (sk s))) /\
    vm s' = set_store (vm s) (if negb (kstack_phys th =? 0) then free_page (store (vm s)) (kstack_phys th) else store (vm s)) /\
    vma_tab s' = vma_tab s /\ fd_tabs s' = fd_tabs s /\ proc_table_head s' = proc_table_head s.
Proof.
  intros E Ho. destruct (proj2 (proj2 Ho) t) as (Hnz & _); [by left|].
  unfold thread_destroy. rewrite (proj2 (Z.eqb_neq t 0)) by done. rewrite E. cbn [mbind option_bind].
  set (s1 := if negb (kstack_phys th =? 0) then _ else s).
  assert (Es1 : sk s1 = sk s /\ vma_tab s1 = vma_tab s /\ fd_tabs s1 = fd_tabs s /\ proc_table_head s1 = proc_table_head s /\
    vm s1 = set_store (vm s) (if negb (kstack_phys th =? 0) then free_page (store (vm s)) (kstack_phys th) else store (vm s))).
  { unfold s1. destruct (negb _); [done|]. by destruct (vm s). }
  assert (Ho1 : holds s1 lh (t :: os)).
  { apply (holds_frame s); [|done]. unfold s1. destruct (negb _); [right; by eexists|by left]. }
  destruct Es1 as (E1 & E2 & E3 & E4 & E5). clearbody s1.
  destruct (sys_free_spec (with_sk s1 (set_threads (sk s1) (delete t (threads (sk s1))))) lh t os) as (h' & lh' & -> & Es & Ho' & R).
  { by apply (holds_frame s1); [left|]. }
  eexists _, lh'. split; [done|]. split; [done|]. split; [done|].
  split; [simpl; by rewrite E1|]. split; [unfold vm in *; simpl; rewrite Es; exact E5|]. done.
Qed.

Lemma destroy_threads_spec ts : forall s lh os t fuel,
  linked next_in_proc (threads (sk s)) t ts -> holds s lh (ts ++ os) -> (length ts < fuel)%nat ->
  exists s' lh', destroy_threads s t fuel = Some s' /\ holds s' lh' os /\ released lh lh' ts /\
    sk s' = set_threads (sk s) (foldr delete (threads (sk s)) ts) /\
    vma_tab s' = vma_tab s /\ fd_tabs s' = fd_tabs s /\ proc_table_head s' = proc_table_head s.
Proof.
  induction ts as [|x ts IH]; intros s lh os t [|fuel] L Ho Hf; simpl in Hf; try lia; cbn [destroy_threads].
  - simpl in L. subst. exists s, lh. split_and!; [done|done|apply released_nil|by destruct (sk s)|done..].
  - pose proof (linked_NoDup _ _ _ _ L) as [Hx Nd]%NoDup_cons.
    destruct L as (-> & Hnz & th & E & L). rewrite (proj2 (Z.eqb_neq x 0)) by done. rewrite E. cbn [mbind option_bind].
    destruct (thread_destroy_spec s lh x th (ts ++ os) E Ho) as (s1 & lh1 & -> & Ho1 & R1 & K1 & _ & V1 & F1 & P1).
    cbn [mbind option_bind].
    destruct (IH s1 lh1 os (next_in_proc th) fuel) as (s' & lh' & E' & Ho' & R' & K' & V' & F' & P');
      [rewrite K1; by apply linked_delete|done|lia|].
    exists s', lh'. split_and!; [done|done| | |congruence..].
    + by apply (released_app _ lh1 _ [x] ts).
    + rewrite K', K1. simpl. unfold set_threads. simpl. f_equal.
      clear. revert x. generalize (threads (sk s)) as m. induction ts as [|y ts IH]; intros m x; simpl; [done|].
      rewrite IH. apply map_eq. intros i. rewrite !lookup_delete. repeat case_decide; done.
Qed.

(** ** Unlinking from the process table *)

Lemma unlink_loop_spec s proc nx q x : forall l1 p fuel l2,
  linked next_proc (procs (sk s)) p (l1 ++ q :: proc :: l2) -> procs (sk s) !! q = Some x ->
  (length l1 + 2 < fuel)%nat ->
  unlink_loop s proc nx p fuel = upd_proc s q (fun pr => set_next_proc pr nx).
Proof.
  induction l1 as [|y l1 IH]; intros p [|fuel] l2 L Eq Hf; simpl in Hf; try lia; cbn [unlink_loop].
  - destruct L as (-> & Hq & a & E & L). pose proof (linked_head _ _ _ _ _ L) as Hn. destruct L as (_ & Hp & _).
    rewrite (proj2 (Z.eqb_neq q 0)) by done. rewrite E. cbn [mbind option_bind].
    rewrite Hn, (proj2 (Z.eqb_neq proc 0)), Z.eqb_refl by done. done.
  - pose proof (linked_NoDup _ _ _ _ L) as Nd. destruct L as (-> & Hy & a & E & L).
    rewrite (proj2 (Z.eqb_neq y 0)) by done. rewrite E. cbn [mbind option_bind].
    assert (Hne : next_proc a <> 0 /\ next_proc a <> proc).
    { destruct l1 as [|z l1]; pose proof (linked_head _ _ _ _ _ L) as ->; destruct L as (_ & Hz & _); (split; [done|]).
      - intros ->. clear - Nd. simpl in Nd. rewrite !NoDup_cons in Nd. set_solver.
      - intros ->. clear - Nd. simpl in Nd. rewrite !NoDup_cons in Nd. set_solver. }
    rewrite (proj2 (Z.eqb_neq _ 0)), (proj2 (Z.eqb_neq _ proc)) by naive_solver.
    apply (IH _ _ l2); [done|done|lia].
Qed.

(** The table after the unlinking step, for both of its branches. *)
Lemma unlink_spec s proc pr l :
  table_is s l -> proc ∈ l -> procs (sk s) !! proc = Some pr ->
  exists s', (if proc_table_head s =? proc then Some (with_head s (next_proc pr))
              else unlink_loop s proc (next_proc pr) (proc_table_head s) (proc_fuel s)) = Some s' /\
    table_is s' (without proc l) /\ hp s' = hp s /\ vma_tab s' = vma_tab s /\ fd_tabs s' = fd_tabs s /\
    set_procs (sk s') ∅ = set_procs (sk s) ∅ /\
    forall q x, q <> proc -> procs (sk s) !! q = Some x -> exists nx, procs (sk s') !! q = Some (set_next_proc x nx).
Proof.
  unfold table_is. intros L Hin E. pose proof (linked_NoDup _ _ _ _ L) as Nd.
  apply list_elem_of_split in Hin as (l1 & l2 & ->). apply NoDup_app in Nd as (Nd1 & Nd2 & Nd3).
  apply NoDup_cons in Nd3 as [Np Nd3]. rewrite without_app, without_cons, without_id by set_solver.
  assert (Hid : forall x, x = set_next_proc x (next_proc x)) by by intros [].
  destruct (decide (l1 = [])) as [->|Hne].
  - destruct L as (Hh & Hp & a & E' & L). rewrite E in E'. injection E' as <-.
    rewrite Hh, Z.eqb_refl. eexists. split; [done|]. split_and!; [done..|].
    intros q x _ Eq. exists (next_proc x). rewrite <- Hid. exact Eq.
  - destruct (exists_last Hne) as (l1' & q & ->). rewrite <- app_assoc in L |- *. cbn [app] in L |- *.
    assert (Hh : proc_table_head s <> proc).
    { destruct l1' as [|y l1']; pose proof (linked_head _ _ _ _ _ L) as ->; intros ->; by apply (Nd2 proc); left. }
    rewrite (proj2 (Z.eqb_neq _ _)) by done.
    destruct (linked_dom _ _ _ _ L q) as (Hq & x & Eq); [set_solver|].
    rewrite (unlink_loop_spec s proc _ q x l1' _ _ l2 L Eq).
    2: { apply linked_length in L. rewrite length_app in L. simpl in L. unfold proc_fuel. lia. }
    unfold upd_proc. rewrite Eq. eexists. split; [done|]. simpl. split_and!; [|done..|].
    + by apply (linked_unlink next_proc (procs (sk s)) l1' q proc l2 pr).
    + intros q' x' Hq' Eq'. destruct (decide (q' = q)) as [->|].
      * rewrite lookup_insert_eq. simplify_eq. by eexists.
      * rewrite lookup_insert_ne by done. exists (next_proc x'). by rewrite <- Hid.
Qed.

(** ** Destroying a process *)

(** What the process at [p] owns: its threads [ts], its memory areas [vs], its
    descriptor table and its PCB, all live allocations of the heap. *)
Definition objects p pr ts vs : list Z :=
  ts ++ vs ++ (if fd_table pr =? 0 then [] else [fd_table pr]) ++ [p].

Record proc_owns s lh l p pr ts vs : Prop := {
  po_table : table_is s l;
  po_in : p ∈ l;
  po_pcb : procs (sk s) !! p = Some pr;
  po_threads : linked next_in_proc (threads (sk s)) (proc_threads pr) ts;
  po_vmas : linked next_vma (vma_tab s) (vmas pr) vs;
  po_holds : holds s lh (objects p pr ts vs)
}.

Lemma upd_proc_spec s p pr f : procs (sk s) !! p = Some pr ->
  upd_proc s p f = Some (with_sk s (set_procs (sk s) (<[p := f pr]> (procs (sk s))))).
Proof. intros E. unfold upd_proc. by rewrite E. Qed.

(** The part of [process_destroy] after the two loops. *)
Lemma destroy_tail s lh l p pr :
  table_is s l -> p ∈ l -> procs (sk s) !! p = Some pr ->
  holds s lh ((if fd_table pr =? 0 then [] else [fd_table pr]) ++ [p]) ->
  exists s' lh', (
    s4 ← (if negb (fd_table pr =? 0)
          then sys_free (with_fds s (delete (fd_table pr) (fd_tabs s))) (fd_table pr) else Some s);
    s5 ← upd_proc s4 p cleared;
    s6 ← (if proc_table_head s5 =? p then Some (with_head s5 (next_proc pr))
          else unlink_loop s5 p (next_proc pr) (proc_table_head s5) (proc_fuel s5));
    sys_free (with_sk s6 (set_procs (sk s6) (delete p (procs (sk s6))))) p) = Some s' /\
  heap_repr (hp s') lh' /\ released lh lh' ((if fd_table pr =? 0 then [] else [fd_table pr]) ++ [p]) /\
  table_is s' (without p l) /\ procs (sk s') !! p = None /\ set_procs (sk s') ∅ = set_procs (sk s) ∅ /\
  vma_tab s' = vma_tab s /\
  forall q x, q <> p -> procs (sk s) !! q = Some x -> exists nx, procs (sk s') !! q = Some (set_next_proc x nx).
Proof.
  intros T Hin E Ho.
  assert (A : exists s4 lh4, (if negb (fd_table pr =? 0)
      then sys_free (with_fds s (delete (fd_table pr) (fd_tabs s))) (fd_table pr) else Some s) = Some s4 /\
    holds s4 lh4 [p] /\ released lh lh4 (if fd_table pr =? 0 then [] else [fd_table pr]) /\
    sk s4 = sk s /\ proc_table_head s4 = proc_table_head s /\ vma_tab s4 = vma_tab s).
  { destruct (fd_table pr =? 0); cbn [negb].
    - exists s, lh. split_and!; [done|done|apply released_nil|done..].
    - destruct (sys_free_spec (with_fds s (delete (fd_table pr) (fd_tabs s))) lh (fd_table pr) [p])
        as (h' & lh' & -> & _ & Ho' & R); [by apply (holds_frame s); [left|]|].
      eexists _, lh'. by split_and!. }
  destruct A as (s4 & lh4 & -> & Ho4 & R4 & K4 & H4 & V4). cbn [mbind option_bind].
  rewrite (upd_proc_spec s4 p pr) by by rewrite K4. cbn [mbind option_bind].
  set (s5 := with_sk s4 _).
  assert (T5 : table_is s5 l).
  { unfold table_is, s5 in *. simpl. rewrite K4, H4. apply (linked_agree _ (procs (sk s))); [|done].
    intros x _. destruct (decide (x = p)) as [->|]; [by rewrite lookup_insert_eq, E|by rewrite lookup_insert_ne]. }
  assert (E5 : procs (sk s5) !! p = Some (cleared pr)) by (unfold s5; simpl; by rewrite lookup_insert_eq).
  destruct (unlink_spec s5 p (cleared pr) l T5 Hin E5) as (s6 & E6 & T6 & Hp6 & V6 & _ & S6 & Q6).
  change (next_proc (cleared pr)) with (next_proc pr) in E6. rewrite E6. cbn [mbind option_bind].
  destruct (sys_free_spec (with_sk s6 (set_procs (sk s6) (delete p (procs (sk s6))))) lh4 p [])
    as (h' & lh' & -> & _ & Ho' & R'); [by apply (holds_frame s4); [left; exact Hp6|]|].
  eexists _, lh'. split; [done|]. simpl. split_and!; [apply Ho'|by apply (released_app _ lh4)| |by rewrite lookup_delete_eq| |by rewrite V6, <- V4|].
  - unfold table_is in *. simpl. apply linked_delete; [|done]. unfold without. intros [? _]%list_elem_of_filter. done.
  - transitivity (set_procs (sk s6) ∅); [done|]. rewrite S6. unfold s5. simpl. by rewrite K4.
  - intros q x Hq Eq. rewrite lookup_delete_ne by done. apply Q6; [done|]. unfold s5. simpl.
    by rewrite lookup_insert_ne, K4 by done.
Qed.

Lemma destroy_spec s lh l p pr ts vs :
  proc_owns s lh l p pr ts vs ->
  exists s' lh', process_destroy s p = Some s' /\ heap_repr (hp s') lh' /\
    released lh lh' (objects p pr ts vs) /\ table_is s' (without p l) /\ procs (sk s') !! p = None /\
    threads (sk s') = foldr delete (threads (sk s)) ts /\ current_process (cpu (sk s')) = current_process (cpu (sk s)) /\
    forall q x, q <> p -> procs (sk s) !! q = Some x -> exists nx, procs (sk s') !! q = Some (set_next_proc x nx).
Proof.
  intros [T Hin E Lt Lv Ho]. destruct (linked_dom _ _ _ _ T p Hin) as [Hnz _].
  unfold process_destroy. rewrite (proj2 (Z.eqb_neq p 0)) by done. rewrite E. cbn [mbind option_bind].
  destruct (destroy_threads_spec ts s lh _ (proc_threads pr) (Datatypes.S (map_size (threads (sk s)))) Lt Ho)
    as (s1 & lh1 & -> & Ho1 & R1 & K1 & V1 & F1 & P1); [apply linked_length in Lt; lia|]. cbn [mbind option_bind].
  rewrite <- V1 in Lv.
  destruct (free_vmas_spec vs s1 lh1 _ (vmas pr) (Datatypes.S (map_size (vma_tab s1))) Lv Ho1)
    as (s2 & lh2 & -> & Ho2 & R2 & _ & K2 & P2 & F2); [apply linked_length in Lv; lia|]. cbn [mbind option_bind].
  set (s3 := with_vm s2 _).
  assert (K3 : sk s3 = set_threads (sk s) (foldr delete (threads (sk s)) ts)) by (unfold s3; simpl; by rewrite K2).
  destruct (destroy_tail s3 lh2 l p pr) as (s' & lh' & Es & Rp & R' & T' & N' & Sk & _ & Q').
  - unfold table_is, s3. simpl. rewrite P2, P1, K2, K1. exact T.
  - done.
  - by rewrite K3.
  - apply (holds_frame s2); [right; by eexists|done].
  - exists s', lh'. split; [exact Es|]. split_and!; [done| |done|done| | |].
    + unfold objects. apply (released_app _ lh1); [done|]. by apply (released_app _ lh2).
    + rewrite K3 in Sk. exact (f_equal threads Sk).
    + rewrite K3 in Sk. exact (f_equal (fun k => current_process (cpu k)) Sk).
    + intros q x Hq Eq. apply Q'; [done|]. by rewrite K3.
Qed.

(** Destroying a process never faults and leaks nothing of what the PCB owns on
    the kernel heap: its threads, its memory areas, its descriptor table and the
    PCB are freed, every other allocation stays live, and the process table is
    the old one without the process, the other entries changed in their links
    only. *)
Theorem process_destroy_correct (s : sys S) (lh : list ablock) (l : list Z) (p : Z) (pr : process) (ts vs : list Z) :
  proc_owns s lh l p pr ts vs ->
  exists s' lh', process_destroy s p = Some s' /\ heap_repr (hp s') lh' /\
    released lh lh' (objects p pr ts vs) /\ table_is s' (without p l) /\ procs (sk s') !! p = None /\
    threads (sk s') = foldr delete (threads (sk s)) ts /\
    forall q x, q <> p -> procs (sk s) !! q = Some x -> exists nx, procs (sk s') !! q = Some (set_next_proc x nx).
Proof.
  intros O. destruct (destroy_spec s lh l p pr ts vs O) as (s' & lh' & ? & ? & ? & ? & ? & ? & _ & ?).
  by exists s', lh'.
Qed.

(** C22.  Reaping.  [process_waitpid] returns and chooses the first zombie of the
    process table among the caller's children (of the given PID, unless it is
    -1): it reports the child's PID and the exit code in the WEXITSTATUS
    position and destroys the child.  Without a zombie it changes nothing and
    returns 0 when there is such a child, -1 when there is none. *)
Theorem process_waitpid_correct (s : sys S) (l : list Z) (parent target : Z) :
  table_is s l ->
  (forall z, find_pcb s (is_reapable parent target) l = Some z ->
     exists lh pr ts vs, proc_owns s lh l z pr ts vs) ->
  match find_pcb s (is_reapable parent target) l with
  | Some z =>
      exists s' pr, procs (sk s) !! z = Some pr /\ is_child parent target pr = true /\ pstate pr = PROC_ZOMBIE /\
        process_waitpid s parent target = Some (s', pid pr, Some ((exit_code pr mod 256) * 256)) /\
        process_destroy s z = Some s' /\ table_is s' (without z l)
  | None =>
      process_waitpid s parent target =
        Some (s, if existsb (pcb_test s (is_child parent target)) l then 0 else -1, None)
  end.
Proof.
  intros T Hown. unfold process_waitpid.
  rewrite (waitpid_loop_spec s parent target l _ 0 _ T (table_fuel s l T)).
  destruct (find_pcb s _ l) as [z|] eqn:Ef; [|done].
  destruct (Hown z eq_refl) as (lh & pr & ts & vs & O). destruct (destroy_spec _ _ _ _ _ _ _ O) as (s' & lh' & Ed & _ & _ & T' & _).
  pose proof (po_pcb _ _ _ _ _ _ _ O) as Ez. exists s', pr.
  apply find_some in Ef as [_ Ht]. unfold pcb_test in Ht. rewrite Ez in Ht. unfold is_reapable in Ht.
  apply andb_true_iff in Ht as [Hc Hz%bool_decide_eq_true].
  split_and!; [done|done|done| |done|done]. rewrite Ez. cbn [mbind option_bind]. rewrite Ed. cbn [mbind option_bind].
  do 3 f_equal. rewrite Z.shiftl_mul_pow2 by lia. change 0xFF with (Z.ones 8). by rewrite Z.land_ones by lia.
Qed.

End destroy.
