(* ===== verification/Spawn.v ===== *)
(** Creating threads and address spaces (file Process): the frame that
    [thread_create] builds is the one that context.asm unwinds, and a new
    address space shares exactly the kernel half of the current one. *)
From stdpp Require Import prelude gmap list.
From Stdlib Require Import ZArith Lia.
From S2P Require Import Prelude Bitmap Pmm Frames Vmm VmmTree Heap HeapSpec HeapUse Task Sched SchedSpec SchedThm Process ProcessThm.

Open Scope Z_scope.

(** ** Allocation from the heap of the system state *)

Section alloc.
Context {S : Type} `{FrameStore S}.
Implicit Types (s : sys S) (lh : list ablock).

Lemma repr_space (h : heap S) m lh : heap_repr h lh -> heap_repr (set_space h (heap_virt_end h) m) lh.
Proof. by intros [C L B E E8 N A]. Qed.

(** Room for one more heap growth of the minimal size. *)
Definition heap_room s : Prop := heap_virt_end (hp s) + 4 * 4096 < 2 ^ 64.

Lemma sys_alloc_spec s lh n :
  heap_repr (hp s) lh -> heap_room s -> 0 < n <= 4096 ->
  exists h a, sys_alloc s n = Some (with_hp s h, a) /\
    ((a = 0 /\ heap_repr h lh) \/
     (a <> 0 /\ exists lh' k, heap_repr h lh' /\ live lh' ≡ₚ (a - HEADER_SIZE, k) :: live lh)).
Proof.
  intros R Hr Hn. destruct (align16_spec n) as (Ha & Ha16 & _); [lia|].
  assert (G : grow_pages (align16 n) = 4).
  { unfold grow_pages, HEADER_SIZE. rewrite (wrap_small 64 (align16 n + 24)) by (unfold fits; lia). rewrite wrap_small by (unfold fits; lia).
    destruct (Z.ltb_spec ((align16 n + 24 + 4095) / 4096) 4); zmod. }
  destruct (kmalloc_cases (hp s) lh n R) as (h & a & E & Eb & C); [lia|by rewrite G|].
  exists h, a. unfold sys_alloc. rewrite E. split; [done|].
  destruct C as [(-> & R' & _)|(l0 & l' & R' & F & L & El)]; [by left|right].
  destruct (fit_live _ _ _ _ F) as (k & _ & P). rewrite El in P. split; [|by exists l', k].
  intros ->. assert (Hin : 0 - HEADER_SIZE ∈ addrs l').
  { apply (live_release h l' _ k R'). rewrite P. by left. }
  pose proof (layout_addrs _ _ _ _ (rp_layout _ _ R') Hin). pose proof (rp_base _ _ R'). unfold HEADER_SIZE in *. lia.
Qed.

End alloc.

(** ** The first stack frame *)

(** context.asm: what [switch_context] restores from the stack of the incoming
    thread (r15, r14, r13, r12, rbp, rbx), the address it returns to and the
    stack pointer it leaves; and the call that [thread_entry_stub] makes with
    the three words above (function, first and second argument). *)
Section context.
Context {S : Type} `{FrameStore S}.

Definition stack_word (m : vmm S) (rsp : Z) (i : nat) : Z :=
  read64 (store m) (u64 (rsp + 8 * Z.of_nat i - hhdm_off m)).

Definition restore_context (m : vmm S) (rsp : Z) : list Z * Z * Z :=
  (map (stack_word m rsp) (seq 0 6), stack_word m rsp 6, u64 (rsp + 56)).

Definition entry_stub_call (m : vmm S) (rsp : Z) : Z * Z * Z :=
  (stack_word m rsp 0, stack_word m rsp 1, stack_word m rsp 2).

End context.

Section push.
Context {S : Type} `{FL : FrameLaws S}.
Implicit Types (m : vmm S) (sp v a : Z) (vs : list Z).

(** The physical address of the [j]-th word pushed from [sp]. *)
Definition slot m sp (j : nat) : Z := u64 (sp - 8 * (Z.of_nat j + 1) - hhdm_off m).

Lemma wrap_sub x y : u64 (u64 x - y) = u64 (x - y).
Proof. unfold wrap. apply Zminus_mod_idemp_l. Qed.

Lemma wrap_add x y : u64 (u64 x + y) = u64 (x + y).
Proof. unfold wrap. apply Z.add_mod_idemp_l. done. Qed.

Lemma slot_ne m sp i j : Z.of_nat i < 2 ^ 32 -> Z.of_nat j < 2 ^ 32 -> i <> j -> slot m sp i <> slot m sp j.
Proof.
  unfold slot, wrap. intros Hi Hj Hne. set (x := sp - hhdm_off m). change (2 ^ 64) with 18446744073709551616.
  replace (sp - 8 * (Z.of_nat i + 1) - hhdm_off m) with (x - 8 * (Z.of_nat i + 1)) by lia.
  replace (sp - 8 * (Z.of_nat j + 1) - hhdm_off m) with (x - 8 * (Z.of_nat j + 1)) by lia. zmod.
Qed.

Lemma slot_push m sp v j : slot (push m sp v).1 (push m sp v).2 j = slot m sp (Datatypes.S j).
Proof.
  unfold slot, push. cbn [fst snd]. change (hhdm_off (set_store m _)) with (hhdm_off m).
  rewrite <- Z.sub_add_distr, wrap_sub. f_equal. lia.
Qed.

Lemma push_all_spec vs : forall m sp, Z.of_nat (length vs) < 2 ^ 16 ->
  let '(m', sp') := push_all m sp vs in
  hhdm_off m' = hhdm_off m /\ cr3 m' = cr3 m /\
  (sp' = sp /\ vs = [] \/ sp' = u64 (sp - 8 * Z.of_nat (length vs))) /\
  (forall j v, vs !! j = Some v -> read64 (store m') (slot m sp j) = u64 v) /\
  (forall a, (forall j, (j < length vs)%nat -> a <> slot m sp j) -> read64 (store m') a = read64 (store m) a).
Proof.
  induction vs as [|v vs IH]; intros m sp Hl.
  { cbn. split_and!; [done|done|by left|done|done]. }
  change (push_all m sp (v :: vs)) with (push_all (push m sp v).1 (push m sp v).2 vs). cbn [length] in Hl.
  specialize (IH (push m sp v).1 (push m sp v).2 ltac:(lia)). destruct (push_all _ _ vs) as [m' sp'].
  destruct IH as (I1 & I2 & I3 & I4 & I5).
  assert (Hw : forall a, read64 (store (push m sp v).1) a = if decide (slot m sp 0 = a) then u64 v else read64 (store m) a).
  { intros a. unfold push. simpl. rewrite write64_read. unfold slot. rewrite wrap_sub. done. }
  split_and!; [done|done| | |].
  - right. simpl. destruct I3 as [[-> ->]| ->]; simpl; [done|]. rewrite wrap_sub. f_equal. lia.
  - intros [|j] x Hx; simpl in Hx.
    + simplify_eq. rewrite I5, Hw, decide_True; [done|done|]. intros j Hj. rewrite slot_push. apply slot_ne; lia.
    + rewrite <- (slot_push m sp v j). by apply I4.
  - intros a Ha. rewrite I5, Hw, decide_False; [done| |].
    + intros Heq. apply (Ha 0%nat); [simpl; lia|done].
    + intros j Hj. rewrite slot_push. apply Ha. simpl. lia.
Qed.

(** The frame of ten words read back by context.asm. *)
Lemma frame_restored img m sp e a1 a2 m' sp' :
  push_all m sp (initial_frame img e a1 a2) = (m', sp') ->
  let '(regs, rip, rsp) := restore_context m' sp' in
  regs = replicate 6 0 /\ rip = u64 (thread_entry_stub img) /\ entry_stub_call m' rsp = (u64 e, u64 a1, u64 a2).
Proof.
  intros E. pose proof (push_all_spec (initial_frame img e a1 a2) m sp) as P. rewrite E in P.
  destruct P as (Ph & _ & Psp & Pw & _); [cbn; lia|]. destruct Psp as [[_ ?]|Psp]; [done|]. cbn [length initial_frame] in Psp.
  assert (W : forall i, (i < 10)%nat -> stack_word m' sp' i = read64 (store m') (slot m sp (9 - i))).
  { intros i Hi. unfold stack_word, slot. f_equal. rewrite Psp, Ph.
    replace (u64 (sp - 8 * Z.of_nat 10) + 8 * Z.of_nat i - hhdm_off m)
      with (u64 (sp - 8 * Z.of_nat 10) - (hhdm_off m - 8 * Z.of_nat i)) by lia. rewrite wrap_sub. f_equal. lia. }
  assert (W2 : forall i, (i < 3)%nat -> stack_word m' (u64 (sp' + 56)) i = stack_word m' sp' (7 + i)).
  { intros i Hi. unfold stack_word. f_equal.
    replace (u64 (sp' + 56) + 8 * Z.of_nat i - hhdm_off m') with (u64 (sp' + 56) + (8 * Z.of_nat i - hhdm_off m')) by lia.
    rewrite wrap_add. f_equal. lia. }
  unfold restore_context, entry_stub_call. split_and!.
  - simpl. rewrite !W by lia. simpl. by rewrite !(Pw _ 0).
  - rewrite W by lia. by apply Pw.
  - rewrite !W2, !W by lia. simpl. by rewrite (Pw 2%nat e), (Pw 1%nat a1), (Pw 0%nat a2).
Qed.

End push.

(** ** A new address space *)

Section clone.
Context {S : Type} `{FL : FrameLaws S}.
Implicit Types (s : S) (t i root cur : Z) (ix : list Z).

Lemma tread_write_other s root t i j x :
  root mod 4096 = 0 -> t mod 4096 = 0 -> t <> root -> valid_index i -> valid_index j ->
  tread (twrite s root j x) t i = tread s t i.
Proof. intros. apply tread_twrite_ne; try done. by intros [= ? ?]. Qed.

(** The loop that copies PML4 entries. *)
Lemma copy_entries cur root ix : forall s,
  cur mod 4096 = 0 -> root mod 4096 = 0 -> cur <> root -> Forall valid_index ix ->
  let s' := foldl (fun s i => twrite s root i (tread s cur i)) s ix in
  (forall j, valid_index j -> tread s' root j = if decide (j ∈ ix) then tread s cur j else tread s root j) /\
  (forall t j, t mod 4096 = 0 -> t <> root -> valid_index j -> tread s' t j = tread s t j).
Proof.
  induction ix as [|i ix IH]; intros s Hc Hr Hne Hv; simpl; [done|].
  apply Forall_cons in Hv as [Hi Hv]. destruct (IH (twrite s root i (tread s cur i)) Hc Hr Hne Hv) as [I1 I2]. split.
  - intros j Hj. rewrite I1 by done. rewrite (tread_write_other s root cur) by done.
    destruct (decide (j ∈ ix)); [by rewrite decide_True by by right|].
    destruct (decide (j = i)) as [->|Hji].
    + rewrite decide_True by by left. unfold tread, twrite. by rewrite write64_read, decide_True.
    + rewrite decide_False by (rewrite elem_of_cons; naive_solver). apply tread_twrite_ne; try done. by intros [= ->].
  - intros t j Ht Hn Hj. rewrite I2 by done. by apply tread_write_other.
Qed.

Lemma seq_valid : Forall valid_index (seqZ 256 256).
Proof. apply Forall_forall. intros j Hj%elem_of_seqZ. unfold valid_index. lia. Qed.

(** The tree below a table whose words did not change. *)
Lemma reach_kept s s' cur q : forall p t,
  pt_wf s cur -> valid_path (p ++ q) -> reach s cur p = Some t ->
  (forall r u j, valid_path r -> reach s cur r = Some u -> valid_index j -> tread s' u j = tread s u j) ->
  reach s' t q = reach s t q.
Proof.
  intros p t W V R Hk. apply reach_ext. intros q1 j q2 u -> Ru. apply next_tread.
  rewrite app_assoc in V. apply valid_path_split in V as (V & Vj & _).
  apply (Hk (p ++ q1)); [done| |done]. by rewrite reach_app, R.
Qed.

(** A new address space shares exactly the kernel half: in the new table every
    user address is unmapped, every kernel address has the entry it has in the
    running address space, and the running address space is unchanged. *)
Theorem address_space_shares_kernel (m m' : vmm S) (root : Z) :
  space_ok m -> process_alloc_address_space m = (m', root) -> root <> 0 ->
  is_frame root /\ frame_free (store m) root /\ cr3 m' = cr3 m /\
  (forall v, PML4_INDEX v < 256 -> pte (store m') root v = 0) /\
  (forall v, 256 <= PML4_INDEX v -> pte (store m') root v = entry_of m v) /\
  (forall v, entry_of m' v = entry_of m v).
Proof.
  intros [Ok W] E Hne. unfold process_alloc_address_space in E.
  pose proof seq_valid as Hix. assert (Hin : forall j, j ∈ seqZ 256 256 <-> 256 <= j < 512) by (intros j; rewrite elem_of_seqZ; lia).
  revert E Hix Hin. generalize (seqZ 256 256) as ix. intros ix E Hix Hin.
  destruct (alloc_page (store m)) as [s1 a] eqn:Ea.
  destruct (Z.eqb_spec a 0) as [->|Ha]; [by injection E as _ <-|]. injection E as <- <-.
  pose proof (fresh_zero _ _ _ (alloc_fresh _ _ _ Ok Ea Ha)) as F. fold (get_current_pml4 m).
  set (cur := get_current_pml4 m) in *. set (s2 := zero_page s1 a) in *.
  assert (Hcur : cur mod 4096 = 0 /\ cur <> a).
  { split; [by apply mask_aligned|]. apply (table_ne_fresh (store m) a s2 cur [] cur F); [done|done|]. split; [constructor|simpl; lia]. }
  destruct Hcur as [Hc Hca], (fr_frame _ _ _ F) as [Ha0 Har].
  destruct (copy_entries cur a ix s2 Hc Ha0 Hca Hix) as [C1 C2].
  set (s' := foldl _ _ _) in *. change (store (set_store m s')) with s'.
  assert (Hk : forall r u j, valid_path r -> reach (store m) cur r = Some u -> valid_index j -> tread s' u j = tread (store m) u j).
  { intros r u j Vr Rr Vj. assert (u mod 4096 = 0 /\ u <> a) as [? ?].
    { split; [by eapply reach_aligned|]. by eapply table_ne_fresh. }
    rewrite C2 by done. by apply (fresh_tread (store m) a). }
  split; [by split|]. split; [apply F|]. split; [done|]. split_and!.
  - intros v Hv. unfold pte, vpath. simpl. pose proof (index_valid v 39) as Hi. fold (PML4_INDEX v) in Hi.
    unfold next. rewrite C1 by done. rewrite decide_False by (rewrite Hin; lia).
    by rewrite (fresh_zero_tread (store m) a).
  - intros v Hv. pose proof (index_valid v 39) as Hi. fold (PML4_INDEX v) in Hi.
    pose proof (vpath_valid v) as Vv. unfold entry_of, pte, vpath in *.
    set (q := [PDPT_INDEX v; PD_INDEX v]) in *. fold cur. cbn [reach].
    replace (next s' a (PML4_INDEX v)) with (next (store m) cur (PML4_INDEX v)).
    2: { unfold next. rewrite C1 by done. rewrite decide_True by (rewrite Hin; unfold valid_index in Hi; lia).
         by rewrite !(fresh_tread (store m) a s2 cur) by done. }
    destruct (next (store m) cur (PML4_INDEX v)) as [t|] eqn:En; [|done].
    assert (R1 : reach (store m) cur [PML4_INDEX v] = Some t) by (simpl; by rewrite En).
    rewrite (reach_kept (store m) s' cur q [PML4_INDEX v] t W Vv R1 Hk).
    destruct (reach (store m) t q) as [u|] eqn:Ru; [|done].
    apply (Hk (PML4_INDEX v :: q)); [done| |apply index_valid]. cbn [reach]. by rewrite En.
  - intros v. unfold entry_of, pte. change (get_current_pml4 (set_store m s')) with cur. cbn [store set_store].
    rewrite (reach_kept (store m) s' cur (vpath v) [] cur W (vpath_valid v) eq_refl Hk).
    fold cur. destruct (reach (store m) cur (vpath v)) as [u|] eqn:Ru; [|done].
    apply (Hk (vpath v)); [apply vpath_valid|done|apply index_valid].
Qed.

End clone.

(** ** Creating a thread *)

Section create.
Context {S : Type} `{FL : FrameLaws S} (img : kernel_image).
Implicit Types (s : sys S) (lh : list ablock).

(** The PCB after a thread was added. *)
Definition add_thread (pr : process) (t : Z) : process :=
  Process (pid pr) (ppid pr) (pstate pr) (uid pr) (gid pr) (euid pr) (egid pr) (proc_cr3 pr)
    t (u32 (thread_count pr + 1)) (fd_table pr) (cwd pr) (exit_code pr) (heap_base pr)
    (heap_end pr) (stack_top_virt pr) (stack_limit_virt pr) (vmas pr) (next_proc pr).

(** A new thread is ready, belongs to its process and heads its thread list;
    the kernel stack it was given is such that the first switch to it
    (context.asm) restores zeroed registers and makes [thread_entry_stub] call
    [entry_rip(arg1, arg2)].  Without memory, NULL comes back and the allocated
    control block is returned to the heap. *)
Theorem thread_create_correct (s : sys S) lh (proc entry_rip arg1 arg2 : Z) (pr : process) :
  heap_repr (hp s) lh -> heap_room s -> proc <> 0 -> procs (sk s) !! proc = Some pr ->
  exists s' t lh', thread_create img s proc entry_rip arg1 arg2 = Some (s', t) /\ heap_repr (hp s') lh' /\
  ((t = 0 /\ sk s' = sk s /\ live lh' ≡ₚ live lh) \/
   (t <> 0 /\ exists n th, live lh' ≡ₚ (t - HEADER_SIZE, n) :: live lh /\
      threads (sk s') = <[t := th]> (threads (sk s)) /\ procs (sk s') = <[proc := add_thread pr t]> (procs (sk s)) /\
      state th = THREAD_READY /\ process_of th = proc /\ next_in_proc th = proc_threads pr /\
      priority th = SCHED_PRIORITY_NORMAL /\ tid th = next_tid s /\
      let '(regs, rip, rsp) := restore_context (vm s') (kstack_rsp th) in
      regs = replicate 6 0 /\ rip = u64 (thread_entry_stub img) /\
      entry_stub_call (vm s') rsp = (u64 entry_rip, u64 arg1, u64 arg2))).
Proof.
  intros R Hr Hp Epr. unfold thread_create. rewrite (proj2 (Z.eqb_neq proc 0)) by done.
  destruct (sys_alloc_spec s lh sizeof_thread R Hr) as (h & t & -> & C); [done|]. cbn [mbind option_bind].
  destruct C as [(-> & R')|(Hnz & lh' & n & R' & P)].
  { rewrite Z.eqb_refl. exists (with_hp s h), 0, lh. split_and!; [done|done|by left]. }
  rewrite (proj2 (Z.eqb_neq t 0)) by done. destruct (alloc_page _) as [st phys].
  destruct (Z.eqb_spec phys 0) as [Hz|Hz].
  { set (s3 := with_vm _ _).
    assert (R3 : heap_repr (hp s3) lh') by (apply repr_space; done).
    destruct (kfree_live (hp s3) lh' t n R3) as (h4 & E4 & R4 & P4); [rewrite P; by left|].
    unfold sys_free. rewrite E4. cbn [mbind option_bind]. eexists _, 0, _. split; [done|]. split; [exact R4|].
    left. split_and!; [done|done|]. rewrite P in P4. by apply Permutation_cons_inv in P4. }
  set (m1 := set_store _ (zero_page _ _)). set (sp := u64 (u64 _ + _)).
  destruct (push_all m1 sp _) as [m2 sp'] eqn:Epush. cbn [sk with_vm with_hp with_pids with_sk set_threads procs threads].
  rewrite Epr. cbn [mbind option_bind]. unfold upd_proc. cbn [sk with_vm with_hp with_pids with_sk set_threads procs threads].
  rewrite Epr. cbn [mbind option_bind]. eexists _, t, lh'. split; [done|].
  split; [apply repr_space; apply repr_space; done|]. right. split; [done|]. exists n. eexists. split; [done|].
  split; [simpl; done|]. split; [done|]. split; [done|]. split_and!; [done..|].
  apply (frame_restored img m1 sp entry_rip arg1 arg2 m2 sp' Epush).
Qed.

End create.
