(* ===== verification/Exit.v ===== *)
(** Exiting a process (file Process): [process_exit] takes every thread of the
    process out of the scheduler for good and keeps the scheduler invariant. *)
From stdpp Require Import prelude gmap list.
From Stdlib Require Import ZArith Lia.
From S2P Require Import Prelude Bitmap Pmm Frames Vmm Heap Task Sched SchedSpec SchedThm Process ProcessThm.

Open Scope Z_scope.

(** ** Killing threads *)

(** The queues without the threads of [ts]. *)
Definition purge (ts : list Z) (Q : Z -> list Z) : Z -> list Z := fun p => filter (fun u => u ∉ ts) (Q p).

Definition killed (k : sched) (ts : list Z) (u : Z) : option thread_state :=
  if decide (u ∈ ts) then Some THREAD_DEAD else state_at k u.

Lemma purge_cons t ts Q p : purge (t :: ts) Q p = purge ts (purge [t] Q) p.
Proof.
  unfold purge. rewrite list_filter_filter. apply list_filter_iff. intros u. rewrite !elem_of_cons, elem_of_nil. tauto.
Qed.

Lemma purge_queued ts Q t : queued (purge ts Q) t <-> queued Q t /\ t ∉ ts.
Proof.
  unfold queued, purge. setoid_rewrite list_elem_of_filter. naive_solver.
Qed.

Definition same_cpu (k k' : sched) : Prop := frame k' = frame k /\ cores k' = cores k.

(** One round of the loop of [process_exit]. *)
Lemma kill_one k Q t th :
  sched_inv k Q -> threads k !! t = Some th ->
  exists k1 k2, scheduler_dequeue k t = Some k1 /\ upd_thread k1 t (fun th => set_state th THREAD_DEAD) = Some k2 /\
    sched_inv k2 (purge [t] Q) /\ same_cpu k k2 /\ forall u, state_at k2 u = killed k [t] u.
Proof.
  intros I E. destruct (dequeue_spec k Q t th (si_wfq _ _ I) E) as (k1 & E1 & W1 & Ef & Ee).
  assert (Et : exists th1, threads k1 !! t = Some th1 /\ erase th1 = erase th).
  { apply erased_inv. rewrite Ee. by apply erased_lookup. }
  destruct Et as (th1 & Et & Eth). exists k1, (set_threads k1 (<[t := set_state th1 THREAD_DEAD]> (threads k1))).
  rewrite (upd_thread_spec k1 t th1) by done. set (k2 := set_threads k1 _).
  assert (Eq : queue_of th1 = queue_of th) by (apply queue_of_core; by rewrite <- core_erase, Eth, core_erase).
  assert (P1 : wfq k1 (purge [t] Q)).
  { eapply wfq_ext; [|exact W1]. intros p Hp. unfold purge, upd_queue.
    assert (A : filter (fun u => u ∉ [t]) (Q p) = without t (Q p)).
    { apply list_filter_iff. intros u. by rewrite list_elem_of_singleton. }
    rewrite A. destruct (Z.eqb_spec p (queue_of th)) as [->|Hne]; [done|]. apply without_id.
    intros Ht. apply Hne. apply (queued_at k Q t th p); [apply I|done..]. }
  assert (W2 : wfq k2 (purge [t] Q)).
  { apply (wfq_upd k1 _ t th1); [done..|]. intros Hq. apply purge_queued in Hq as [_ []]. by left. }
  assert (C2 : cores k2 = cores k).
  { rewrite <- (cores_of_erased _ _ Ee). unfold cores, k2. simpl. by apply (upd_core_cores _ t th1). }
  assert (S2 : forall u, state_at k2 u = killed k [t] u).
  { intros u. unfold killed. destruct (decide (u ∈ [t])) as [->%list_elem_of_singleton|Hu].
    - unfold state_at, k2. simpl. by rewrite lookup_insert_eq.
    - rewrite list_elem_of_singleton in Hu. rewrite <- (state_erased _ _ Ee). unfold state_at, k2. simpl. by rewrite lookup_insert_ne. }
  split; [done|]. split; [done|]. split; [|by split].
  pose proof (frame_eq _ _ Ef) as (Fp & Fc & _ & _ & Fl & Fi & _).
  change (threads k2) with (<[t := set_state th1 THREAD_DEAD]> (threads k1)) in *.
  destruct (si_cur _ _ I) as (Hq & ct & p & Ect & H1 & H2 & H3 & H4).
  destruct (cores_lookup k k2 _ ct C2 Ect) as (ct' & Ect' & Cc).
  destruct (core_fields _ _ Cc) as (Np & Nv & _). split.
  - done.
  - apply (owned_cores k); [done|exact Fp|apply I].
  - change (cpu k2) with (cpu k1). change (procs k2) with (procs k1). rewrite Fc, Fp. split.
    + intros [Hq' _]%purge_queued. done.
    + exists ct', p. by rewrite Np, Nv.
  - change (idle_thread k2) with (idle_thread k1). rewrite Fi. destruct (si_idle _ _ I) as [i Ei].
    destruct (cores_lookup k k2 _ i C2 Ei) as (i' & -> & _). by eexists.
  - intros u Hu. rewrite S2 in Hu. change (cpu k2) with (cpu k1). rewrite Fc. unfold killed in Hu.
    destruct (decide _); [done|]. by apply (si_running _ _ I).
  - intros u Hu. rewrite S2 in Hu. change (idle_thread k2) with (idle_thread k1). rewrite Fi. unfold killed in Hu.
    destruct (decide _); [done|]. destruct (si_ready _ _ I u Hu); [|by right]. left. by apply purge_queued.
  - change (sched_lock k2) with (sched_lock k1). rewrite Fl. apply I.
Qed.

Lemma cores_next k k' t : cores k' = cores k -> next_in_proc <$> threads k' !! t = next_in_proc <$> threads k !! t.
Proof.
  intros E. apply (f_equal (fun m => next_in_proc <$> m !! t)) in E. unfold cores in E.
  rewrite !lookup_fmap, <- !option_fmap_compose in E. exact E.
Qed.

Lemma killed_dead k t ts u : state_at k t = Some THREAD_DEAD -> killed k (t :: ts) u = killed k ts u.
Proof.
  intros Hd. unfold killed. destruct (decide (u ∈ ts)) as [Hu|Hu]; [by rewrite decide_True by by right|].
  destruct (decide (u = t)) as [->|Hne]; [by rewrite decide_True by by left|].
  rewrite decide_False; [done|]. rewrite elem_of_cons. naive_solver.
Qed.

Lemma killed_cons k k2 t ts u :
  (forall u, state_at k2 u = killed k [t] u) -> killed k2 ts u = killed k (t :: ts) u.
Proof.
  intros S2. unfold killed at 1. rewrite S2. unfold killed.
  destruct (decide (u ∈ ts)) as [Hu|Hu]; [by rewrite decide_True by by right|].
  destruct (decide (u ∈ [t])) as [Ht|Ht]; [by rewrite decide_True by set_solver|].
  rewrite decide_False; [done|]. set_solver.
Qed.

Lemma kill_threads_spec ts : forall k Q t fuel,
  sched_inv k Q -> linked next_in_proc (threads k) t ts -> (length ts < fuel)%nat ->
  exists k' Q', kill_threads k t fuel = Some k' /\ sched_inv k' Q' /\
    (forall p, valid_pri p -> Q' p = purge ts Q p) /\ same_cpu k k' /\ forall u, state_at k' u = killed k ts u.
Proof.
  induction ts as [|x ts IH]; intros k Q t [|fuel] I L Hf; simpl in Hf; try lia; cbn [kill_threads].
  { simpl in L. subst. exists k, Q. split; [done|]. split; [done|]. split; [|by split].
    intros p _. unfold purge. symmetry. apply filter_all. intros. apply not_elem_of_nil. }
  destruct L as (-> & Hx & th & E & L). rewrite (proj2 (Z.eqb_neq x 0)) by done. rewrite E. cbn [mbind option_bind].
  destruct (bool_decide (state th = THREAD_DEAD)) eqn:Ed; cbn [negb mbind option_bind].
  - rewrite E. cbn [mbind option_bind]. apply bool_decide_eq_true in Ed.
    destruct (IH k Q (next_in_proc th) fuel I L) as (k' & Q' & -> & I' & EQ & C & St); [lia|].
    assert (Hd : state_at k x = Some THREAD_DEAD) by (unfold state_at; rewrite E; simpl; by rewrite Ed).
    exists k', Q'. split; [done|]. split; [done|]. split; [|split; [done|]].
    + intros p Hp. rewrite EQ by done. unfold purge. apply filter_ext_in. intros u Hu. rewrite elem_of_cons.
      enough (u <> x) by naive_solver. intros ->.
      destruct (qa_mem _ _ _ (wq_at _ _ (si_wfq _ _ I) p Hp) x Hu) as (th' & E' & _ & Hr). congruence.
    + intros u. rewrite St. symmetry. by apply killed_dead.
  - destruct (kill_one k Q x th I E) as (k1 & k2 & -> & E2 & I2 & C2 & S2). cbn [mbind option_bind].
    rewrite E2. cbn [mbind option_bind].
    pose proof (cores_next k k2 x (proj2 C2)) as Hn. rewrite E in Hn.
    destruct (threads k2 !! x) as [th2|] eqn:Et; [|done]. cbn [mbind option_bind]. simpl in Hn. injection Hn as Hn.
    assert (L2 : linked next_in_proc (threads k2) (next_in_proc th2) ts).
    { rewrite Hn. apply (linked_agree _ (threads k)); [|done]. intros u _. apply cores_next, C2. }
    destruct (IH k2 _ _ fuel I2 L2) as (k' & Q' & -> & I' & EQ & C & St); [lia|].
    exists k', Q'. split; [done|]. split; [done|]. split; [|split].
    + intros p Hp. rewrite EQ by done. symmetry. apply purge_cons.
    + destruct C, C2. split; congruence.
    + intros u. rewrite St. by apply killed_cons.
Qed.

(** ** process_exit *)

Lemma sched_inv_procs k Q p pr pr' :
  sched_inv k Q -> procs k !! p = Some pr -> proc_cr3 pr' = proc_cr3 pr ->
  sched_inv (set_procs k (<[p := pr']> (procs k))) Q.
Proof.
  intros I E Hc. destruct (si_cur _ _ I) as (Hq & ct & cp & Ect & H1 & H2 & H3 & H4). split.
  - by apply (wfq_same k); [..|apply I].
  - intros t th Et. destruct (si_owned _ _ I t th Et) as [Hn Hs]. split; [done|]. simpl.
    destruct (decide (process_of th = p)) as [->|]; [rewrite lookup_insert_eq; by eexists|by rewrite lookup_insert_ne].
  - split; [done|]. simpl. destruct (decide (process_of ct = p)) as [Heq|Hne].
    + exists ct, pr'. rewrite Heq, lookup_insert_eq. rewrite Heq in H2. simplify_eq.
      split; [done|]. split; [congruence|]. split; [done|]. split; [congruence|done].
    + exists ct, cp. by rewrite lookup_insert_ne.
  - apply I.
  - apply (si_running _ _ I).
  - apply (si_ready _ _ I).
  - apply I.
Qed.

Section exit.
Context {S : Type} `{FrameStore S}.
Implicit Types (s : sys S) (ts : list Z).

(** CR3 is the one the scheduler recorded. *)
Definition in_sync s : Prop := cr3 (vm s) = cpu_cr3 (cpu (sk s)).

Lemma run_sched_sync s f : in_sync s ->
  run_sched s f = (k ← f (sk s); Some (with_vm (with_sk s k) (write_cr3 (vm s) (cpu_cr3 (cpu k))))).
Proof. intros E. unfold run_sched. rewrite E. destruct s as [[? ? ? ? [] ? ? ? ? ?] ? ? ? ? ? ?]. done. Qed.

(** A killed thread does not come back with the next [schedule]. *)
Lemma schedule_dead k Q k' Q' ts :
  schedule_result k Q k' Q' -> (forall t, t ∈ ts -> state_at k t = Some THREAD_DEAD /\ ~ queued Q t) ->
  idle_thread k ∉ ts ->
  (k' = k \/ (current_thread (cpu k') <> current_thread (cpu k) /\
      forall u, state_at k' u = switched_state k (current_thread (cpu k)) (current_thread (cpu k')) u)) ->
  forall t, t ∈ ts -> state_at k' t = Some THREAD_DEAD /\ ~ queued Q' t /\ t <> current_thread (cpu k').
Proof.
  intros R Hd Hi C t Ht. destruct (Hd t Ht) as [Sd Nq].
  assert (Nc : t <> current_thread (cpu k')).
  { unfold schedule_result in R. destruct (top_queue Q 8) as [p|] eqn:Et.
    - destruct R as (u & l & EQ & -> & _). intros ->. apply Nq. apply top_queue_Some in Et as (Hp & _ & _).
      exists p. split; [unfold valid_pri; lia|]. rewrite EQ. by left.
    - destruct R as [-> _]. intros ->. done. }
  assert (Nr : ~ queued (requeue k Q (current_thread (cpu k))) t).
  { intros [?|[-> Hr]]%requeue_queued; [done|congruence]. }
  split_and!; [|unfold schedule_result in R|done].
  - destruct C as [->|[_ C]]; [done|]. rewrite C. unfold switched_state.
    rewrite (proj2 (Z.eqb_neq _ _) Nc). destruct (Z.eqb_spec t (current_thread (cpu k))) as [<-|]; [|done].
    by rewrite bool_decide_eq_false_2 by congruence.
  - destruct (top_queue Q 8) as [p|] eqn:Et; [|by destruct R as (_ & [-> | ->])].
    destruct R as (u & l & EQ & _ & ->). intros [Hq|[-> Hr]]%requeue_queued; [|congruence].
    apply Nq. destruct Hq as (q & Hq & Hin). exists q. split; [done|]. unfold upd_queue in Hin.
    destruct (Z.eqb_spec q p) as [->|]; [|done]. rewrite EQ. by right.
Qed.

Lemma process_exit_spec s (Q : Z -> list Z) (proc code : Z) (pr : process) ts :
  sched_inv (sk s) Q -> in_sync s -> proc <> 0 -> procs (sk s) !! proc = Some pr ->
  linked next_in_proc (threads (sk s)) (proc_threads pr) ts ->
  (forall t th, t ∈ ts -> threads (sk s) !! t = Some th -> process_of th = proc) -> idle_thread (sk s) ∉ ts ->
  exists s' Q', process_exit s proc code = Some (s', 0) /\ sched_inv (sk s') Q' /\ in_sync s' /\
    procs (sk s') !! proc = Some (set_exited pr code) /\
    forall t, t ∈ ts -> state_at (sk s') t = Some THREAD_DEAD /\ ~ queued Q' t /\ t <> current_thread (cpu (sk s')).
Proof.
  intros I Hsync Hp E L Hown Hidle. unfold process_exit. rewrite (proj2 (Z.eqb_neq proc 0)) by done.
  rewrite (upd_proc_spec s proc pr) by done. cbn [mbind option_bind sk with_sk procs set_procs].
  rewrite lookup_insert_eq. cbn [mbind option_bind].
  pose proof (sched_inv_procs _ _ _ _ (set_exited pr code) I E eq_refl) as I1.
  set (k1 := set_procs _ _) in *. change (proc_threads (set_exited pr code)) with (proc_threads pr).
  destruct (kill_threads_spec ts k1 Q (proc_threads pr) (Datatypes.S (map_size (threads k1))) I1 L) as (k & Q1 & -> & I2 & EQ & [Cf Cc] & St).
  { apply linked_length in L. simpl. lia. }
  cbn [mbind option_bind]. pose proof (frame_eq _ _ Cf) as (Fp & Fc & _ & _ & _ & Fi & _).
  assert (Hz : procs k !! proc = Some (set_exited pr code)) by (rewrite Fp; simpl; by rewrite lookup_insert_eq).
  assert (Hd : forall t, t ∈ ts -> state_at k t = Some THREAD_DEAD /\ ~ queued Q1 t).
  { intros t Ht. split; [rewrite St; unfold killed; by rewrite decide_True|].
    intros Hq. apply (queued_ext (purge ts Q)) in Hq; [|done]. apply purge_queued in Hq as [_ ?]. done. }
  assert (Hs2 : in_sync (with_sk s k)) by (unfold in_sync; simpl; by rewrite Fc).
  rewrite Fc. change (cpu k1) with (cpu (sk s)). destruct (Z.eqb_spec proc (current_process (cpu (sk s)))) as [Heq|Hne].
  - rewrite run_sched_sync by done. cbn [sk with_sk].
    destruct (schedule_cases k Q1 I2) as (k' & Q' & -> & I' & R & (_ & Pr & _) & C). cbn [mbind option_bind].
    eexists _, Q'. split; [done|]. split; [done|]. split; [done|]. split; [simpl; by rewrite Pr|].
    apply (schedule_dead k Q1); [done|done|by rewrite Fi|done].
  - exists (with_sk s k), Q1. split; [done|]. split; [done|]. split; [done|]. split; [done|].
    intros t Ht. destruct (Hd t Ht) as [? ?]. split; [done|]. split; [done|].
    simpl. rewrite Fc. change (cpu k1) with (cpu (sk s)). intros ->.
    destruct (si_cur _ _ I) as (_ & ct & cp & Ect & Hcp & _). apply Hne. rewrite Hcp. symmetry. by apply (Hown _ _ Ht).
Qed.

(** C17.  Exit.  [process_exit] returns, marks the process a zombie with its exit code
    and keeps the scheduler invariant; afterwards no thread of the process is in
    a run queue, every one of them is dead, and the CPU runs none of them, with
    the address space of the process it does run. *)
Theorem process_exit_correct s (Q : Z -> list Z) (proc code : Z) (pr : process) ts :
  sched_inv (sk s) Q -> in_sync s -> proc <> 0 -> procs (sk s) !! proc = Some pr ->
  linked next_in_proc (threads (sk s)) (proc_threads pr) ts ->
  (forall t th, t ∈ ts -> threads (sk s) !! t = Some th -> process_of th = proc) -> idle_thread (sk s) ∉ ts ->
  exists s' Q', process_exit s proc code = Some (s', 0) /\ sched_inv (sk s') Q' /\ in_sync s' /\
    procs (sk s') !! proc = Some (set_exited pr code) /\
    forall t, t ∈ ts -> state_at (sk s') t = Some THREAD_DEAD /\ ~ queued Q' t /\ t <> current_thread (cpu (sk s')).
Proof. apply process_exit_spec. Qed.

End exit.
