(* ===== verification/PageFault.v ===== *)
(** The page fault handler, [page_fault_handler] of kernel/src/mm/vmm.c: the
    dispatch between copy-on-write, stack growth, memory areas, the heap, and
    the death of the process.

    The faulting address is the value of CR2, the error code the word that the
    CPU pushed.  [kpanic] does not return: the outcome [Panic].  When the
    process dies, [process_exit] has already switched to another thread, and
    what follows it in the handler runs only if no other thread was chosen. *)
From stdpp Require Import prelude gmap list.
From Stdlib Require Import ZArith Lia.
From S2P Require Import Prelude Bitmap Pmm Frames Vmm VmmTree Heap HeapSpec Task Sched SchedSpec SchedThm Process ProcessThm Exit.

Open Scope Z_scope.

Section handler.
Context {S : Type} `{FrameStore S}.
Implicit Types (s : sys S) (pr : process).

Inductive pf_outcome := Resumed (s : sys S) | Panic.

Definition set_stack_limit pr (a : Z) : process :=
  Process (pid pr) (ppid pr) (pstate pr) (uid pr) (gid pr) (euid pr) (egid pr) (proc_cr3 pr)
    (proc_threads pr) (thread_count pr) (fd_table pr) (cwd pr) (exit_code pr) (heap_base pr)
    (heap_end pr) (stack_top_virt pr) a (vmas pr) (next_proc pr).

(** The range in which the stack may grow. *)
Definition in_stack pr (a : Z) : bool :=
  (a <=? stack_top_virt pr) && (u64 (stack_top_virt pr - PROC_USER_STACK_MAX) <=? a).

Definition in_heap pr (a : Z) : bool := (heap_base pr <=? a) && (a <? heap_end pr).

Definition PAGE_PWU : Z := Z.lor (Z.lor PAGE_PRESENT PAGE_WRITABLE) PAGE_USER.

Definition vma_page_flags (v : vma) : Z :=
  if has_flag (vma_flags v) PAGE_WRITABLE then Z.lor (Z.lor PAGE_PRESENT PAGE_USER) PAGE_WRITABLE
  else Z.lor PAGE_PRESENT PAGE_USER.

Definition page_fault_handler s (error fault_addr : Z) : option pf_outcome :=
  let write := Z.testbit error 1 in
  let user := Z.testbit error 2 in
  let proc := current_process (cpu (sk s)) in
  if negb user then Some Panic
  else if proc =? 0 then Some Panic
  else
    pr ← procs (sk s) !! proc;
    let map flags := with_vm s (map_user_page (vm s) (proc_cr3 pr) (page_align fault_addr) flags) in
    if write && is_cow_page (vm s) fault_addr then
      m ← cow_handle_fault (vm s) (proc_cr3 pr) fault_addr;
      Some (Resumed (with_vm s m))
    else if in_stack pr fault_addr && (fault_addr <? stack_limit_virt pr) then
      s1 ← upd_proc (map PAGE_PWU) proc (fun pr => set_stack_limit pr (page_align fault_addr));
      Some (Resumed s1)
    else if in_stack pr fault_addr && (vmm_get_phys (vm s) (page_align fault_addr) =? 0) then
      Some (Resumed (map PAGE_PWU))
    else
      v ← process_find_vma s proc fault_addr;
      if negb (v =? 0) then
        va ← vma_tab s !! v;
        Some (Resumed (map (vma_page_flags va)))
      else if in_heap pr fault_addr then Some (Resumed (map PAGE_PWU))
      else
        '(s1, _) ← process_exit s proc 139;
        if current_thread (cpu (sk s1)) =? current_thread (cpu (sk s)) then
          s2 ← run_sched s1 schedule; Some (Resumed s2)
        else Some (Resumed s1).

(** What the regions of a process say about an address: the flags of the page
    to map there, or nothing. *)
Definition fault_region s pr (vs : list Z) (a : Z) : option Z :=
  if in_stack pr a && ((a <? stack_limit_virt pr) || (vmm_get_phys (vm s) (page_align a) =? 0)) then Some PAGE_PWU
  else
    match List.find (vma_covers s a) vs with
    | Some v => vma_page_flags <$> vma_tab s !! v
    | None => if in_heap pr a then Some PAGE_PWU else None
    end.

(** The handler, as a function of the region. *)
Lemma handler_cases s pr vs error a :
  Z.testbit error 2 = true -> current_process (cpu (sk s)) <> 0 ->
  procs (sk s) !! current_process (cpu (sk s)) = Some pr -> linked next_vma (vma_tab s) (vmas pr) vs ->
  Z.testbit error 1 && is_cow_page (vm s) a = false ->
  match fault_region s pr vs a with
  | Some flags =>
      exists s', page_fault_handler s error a = Some (Resumed s') /\
        vm s' = map_user_page (vm s) (proc_cr3 pr) (page_align a) flags /\
        threads (sk s') = threads (sk s) /\ cpu (sk s') = cpu (sk s) /\
        (procs (sk s') = procs (sk s) \/
         procs (sk s') = <[current_process (cpu (sk s)) := set_stack_limit pr (page_align a)]> (procs (sk s)))
  | None =>
      page_fault_handler s error a =
        ('(s1, _) ← process_exit s (current_process (cpu (sk s))) 139;
         if current_thread (cpu (sk s1)) =? current_thread (cpu (sk s))
         then s2 ← run_sched s1 schedule; Some (Resumed s2) else Some (Resumed s1))
  end.
Proof.
  intros Hu Hp E L Hcow. unfold page_fault_handler, fault_region. rewrite Hu. cbn [negb].
  rewrite (proj2 (Z.eqb_neq (current_process (cpu (sk s))) 0)) by done. rewrite E. cbn [mbind option_bind].
  rewrite Hcow, andb_orb_distrib_r.
  destruct (in_stack pr a && (a <? stack_limit_virt pr)); cbn [orb].
  { unfold upd_proc. cbn [sk with_vm with_hp]. rewrite E. cbn [mbind option_bind]. eexists. split; [done|].
    split_and!; [done..|by right]. }
  destruct (in_stack pr a && _); [eexists; split; [done|]; split_and!; [done..|by left]|].
  rewrite (find_vma_spec s _ pr vs) by done. cbn [mbind option_bind].
  destruct (List.find _ vs) as [v|] eqn:Ef; cbn [default from_option id].
  - apply find_some in Ef as [Hin _]. destruct (linked_dom _ _ _ _ L v) as [Hv [va Ev]]; [by apply list_elem_of_In|].
    rewrite (proj2 (Z.eqb_neq v 0)), Ev by done. cbn. eexists. split; [done|]. split_and!; [done..|by left].
  - destruct (in_heap pr a); [|done]. eexists. split; [done|]. split_and!; [done..|by left].
Qed.

End handler.

Arguments pf_outcome : clear implicits.

Section lazy.
Context {S : Type} `{FL : FrameLaws S}.
Implicit Types (s : sys S) (m : vmm S).

(** A fresh zeroed frame mapped with [flags] at the page of [v], nothing else
    changed; or memory exhausted. *)
Definition demand_mapped m m' (v flags : Z) : Prop :=
  exists f, is_frame f /\ frame_free (store m) f /\ ~ frame_free (store m') f /\
    (forall w, entry_of m' w = if decide (same_page v w) then Z.lor f flags else entry_of m w) /\
    (forall i, valid_index i -> tread (store m') f i = 0).

Lemma user_page_spec m proc_cr3 v flags :
  space_ok m -> no_huge m v -> cr3 m = proc_cr3 ->
  let m' := map_user_page m proc_cr3 (page_align v) flags in
  space_ok m' /\ cr3 m' = cr3 m /\
  (demand_mapped m m' v flags \/ forall b, ~ frame_free (store m') b).
Proof.
  intros [Ok W] Hh Hc. unfold map_user_page. destruct (cr3_same m proc_cr3 Hc) as [-> Hl].
  destruct (alloc_page (store m)) as [s1 f] eqn:Ea. rewrite Hl.
  destruct (Z.eqb_spec f 0) as [->|Hf]; cbn [negb].
  { destruct (alloc_page_none _ _ Ok Ea) as [-> N]. split; [by split|]. split; [done|by right]. }
  pose proof (alloc_fresh _ _ _ Ok Ea Hf) as F. pose proof (fr_frame _ _ _ F) as [Hfa Hfr].
  destruct (fresh_data_extends _ _ _ s1 _ W F (fr_ok _ _ _ F)) as [X D]; [done..|].
  assert (Hs1 : space_ok (set_store m s1)) by (split; apply X).
  destruct (page_align_page v) as [Hsp _].
  assert (Hh1 : no_huge (set_store m s1) (page_align v)).
  { apply (no_huge_same_page _ v); [by symmetry|]. apply X, Hh. }
  destruct (map_page_cases (set_store m s1) (page_align v) f flags Hs1 Hh1) as (Hs' & Hc' & _ & C).
  split; [done|]. split; [done|]. destruct C as [(He & _ & Hd & _ & Hdf)|[N _]]; [left|by right].
  exists f. split; [by split|]. split; [apply F|]. split; [apply (Hdf f D)|]. split.
  - intros w. rewrite He, mask_frame by (done || lia).
    destruct (decide (same_page (page_align v) w)) as [Hw|Hw], (decide (same_page v w)) as [Hw'|Hw']; try done.
    + destruct Hw'. by rewrite <- Hsp.
    + destruct Hw. by rewrite Hsp.
    + apply X.
  - intros i Hi. pose proof (word_in_frame f i Hi) as Hin. unfold tread.
    rewrite (Hd f _ D Hin). simpl. by rewrite (fr_read _ _ _ F), decide_True.
Qed.

(** C9.  Demand paging.  A user fault that is no copy-on-write fault, at an address
    that the process may use (the stack down to its 8 MiB limit, a memory area,
    the heap), is resolved: unless memory runs out, a zeroed frame that was free
    is mapped at exactly this page, with the access rights of the region, and
    the thread resumes with the scheduler's threads and CPU untouched. *)
Theorem page_fault_demand (s : sys S) (pr : process) (vs : list Z) (error a flags : Z) :
  Z.testbit error 2 = true -> current_process (cpu (sk s)) <> 0 ->
  procs (sk s) !! current_process (cpu (sk s)) = Some pr -> linked next_vma (vma_tab s) (vmas pr) vs ->
  Z.testbit error 1 && is_cow_page (vm s) a = false ->
  space_ok (vm s) -> no_huge (vm s) a -> cr3 (vm s) = proc_cr3 pr ->
  fault_region s pr vs a = Some flags ->
  exists s', page_fault_handler s error a = Some (Resumed s') /\ space_ok (vm s') /\ cr3 (vm s') = cr3 (vm s) /\
    (demand_mapped (vm s) (vm s') a flags \/ forall b, ~ frame_free (store (vm s')) b) /\
    threads (sk s') = threads (sk s) /\ cpu (sk s') = cpu (sk s).
Proof.
  intros Hu Hp E L Hcow Ok Hh Hc Hr. pose proof (handler_cases s pr vs error a Hu Hp E L Hcow) as C. rewrite Hr in C.
  destruct C as (s' & -> & Ev & Et & Ecpu & _). exists s'. rewrite Ev.
  destruct (user_page_spec (vm s) (proc_cr3 pr) a flags Ok Hh Hc) as (? & ? & ?). by split_and!.
Qed.

(** Segmentation fault.  A user fault outside every region of the process ends
    it: the handler returns with the process a zombie of exit code 139 whose
    threads are dead, out of the run queues and never the running thread. *)
Theorem page_fault_kill (s : sys S) (Q : Z -> list Z) (pr : process) (ts vs : list Z) (error a : Z) :
  let proc := current_process (cpu (sk s)) in
  Z.testbit error 2 = true -> proc <> 0 -> procs (sk s) !! proc = Some pr ->
  linked next_vma (vma_tab s) (vmas pr) vs -> Z.testbit error 1 && is_cow_page (vm s) a = false ->
  sched_inv (sk s) Q -> in_sync s -> linked next_in_proc (threads (sk s)) (proc_threads pr) ts ->
  current_thread (cpu (sk s)) ∈ ts ->
  (forall t th, t ∈ ts -> threads (sk s) !! t = Some th -> process_of th = proc) -> idle_thread (sk s) ∉ ts ->
  fault_region s pr vs a = None ->
  exists s' Q', page_fault_handler s error a = Some (Resumed s') /\ sched_inv (sk s') Q' /\ in_sync s' /\
    (exists pr', procs (sk s') !! proc = Some pr' /\ pstate pr' = PROC_ZOMBIE /\ exit_code pr' = 139) /\
    forall t, t ∈ ts -> state_at (sk s') t = Some THREAD_DEAD /\ ~ queued Q' t /\ t <> current_thread (cpu (sk s')).
Proof.
  intros proc Hu Hp E L Hcow I Hs Lt Hcur Hown Hi Hr.
  pose proof (handler_cases s pr vs error a Hu Hp E L Hcow) as C. rewrite Hr in C. rewrite C.
  destruct (process_exit_spec s Q proc 139 pr ts I Hs Hp E Lt Hown Hi) as (s' & Q' & Ee & I' & Hs' & Hz & Hd).
  fold proc. rewrite Ee. cbn [mbind option_bind].
  rewrite (proj2 (Z.eqb_neq _ _)).
  2: { intros Heq. destruct (Hd _ Hcur) as (_ & _ & Hne). congruence. }
  exists s', Q'. split; [done|]. split; [done|]. split; [done|]. split; [|done]. by eexists.
Qed.

End lazy.
