(* ===== verification/ProcessDemo.v ===== *)
(** Concrete systems on which the process, spawning, exit and page fault
    theorems apply: the system that [scheduler_init] builds on the demonstration
    memory, and a running machine with one page-faulting process. *)
From stdpp Require Import prelude gmap list.
From Stdlib Require Import ZArith Lia.
From S2P Require Import Prelude Bitmap Pmm Frames Vmm VmmTree Heap HeapSpec HeapUse Task Sched SchedSpec SchedThm SchedLive Process ProcessThm Spawn Exit PageFault.

Open Scope Z_scope.

(** ** After scheduler_init *)

Definition demo_image : kernel_image :=
  KernelImage 0xFFFFFFFF80001000 0xFFFFFFFF80002000 0xFFFFFFFF80003000 0xFFFFFFFF80004000 0xFFFFFFFF80005000.

Definition blank_sched : sched := Sched ∅ ∅ [] [] (Cpu 0 0 demo_root 0 0 0) 0 0 0 0 0.

Definition demo_sys0 : sys pmm := Sys blank_sched demo_heap 0 0 0 ∅ ∅.

Definition demo_booted : sys pmm :=
  match scheduler_init demo_image demo_sys0 with Some (s, _) => s | None => demo_sys0 end.

(** The shell's process, with a memory area added, exits with code 7. *)
Definition demo_shell : Z := HEAP_VIRT_START + 280.

Definition demo_zombie : sys pmm :=
  match process_add_vma demo_booted demo_shell 0x400000 0x401000 7 with
  | Some s => match process_exit s demo_shell 7 with Some (s, _) => s | None => s end
  | None => demo_booted
  end.

Definition demo_zombie_list : list ablock :=
  [ABlock HEAP_VIRT_START 128 false; ABlock (HEAP_VIRT_START + 152) 80 false;
   ABlock (HEAP_VIRT_START + 256) 128 false; ABlock (HEAP_VIRT_START + 408) 80 false;
   ABlock (HEAP_VIRT_START + 512) 32 false; ABlock (HEAP_VIRT_START + 568) (4 * 4096 - 592) true].

Ltac solve_chain :=
  repeat first
    [ split; [vm_compute; reflexivity|]
    | eexists; split; [vm_compute; reflexivity|] ];
  vm_compute; reflexivity.

Lemma demo_zombie_repr : heap_repr (hp demo_zombie) demo_zombie_list.
Proof.
  split; try (vm_compute; (reflexivity || discriminate)).
  - solve_chain.
  - vm_compute. repeat split; discriminate.
  - repeat constructor; vm_compute; reflexivity.
Qed.

(** The PCB of the shell. *)
Definition demo_shell_pcb : process :=
  Process 1 0 PROC_ZOMBIE 0 0 0 0 57344 (HEAP_VIRT_START + 432) 1 0 0xFFFFFFFF80005000 7 0 0 0 0 (HEAP_VIRT_START + 536) (HEAP_VIRT_START + 24).

Definition demo_table : list Z := [demo_shell; HEAP_VIRT_START + 24].

Ltac solve_linked :=
  repeat first
    [ split; [vm_compute; reflexivity|]
    | split; [vm_compute; discriminate|]
    | eexists; split; [vm_compute; reflexivity|] ];
  vm_compute; reflexivity.

Lemma demo_zombie_owns :
  proc_owns demo_zombie demo_zombie_list demo_table demo_shell demo_shell_pcb [HEAP_VIRT_START + 432] [HEAP_VIRT_START + 536].
Proof.
  split.
  - unfold table_is. solve_linked.
  - left.
  - vm_compute. reflexivity.
  - solve_linked.
  - solve_linked.
  - split; [exact demo_zombie_repr|]. split.
    + vm_compute. repeat (apply NoDup_cons; split; [rewrite ?elem_of_cons, ?elem_of_nil; intuition discriminate|]). apply NoDup_nil_2.
    + change (objects _ _ _ _) with [HEAP_VIRT_START + 432; HEAP_VIRT_START + 536; demo_shell].
      intros o Ho. rewrite !elem_of_cons, elem_of_nil in Ho.
      destruct Ho as [->|[->|[->|[]]]]; (split; [vm_compute; discriminate|]).
      * exists 80. vm_compute. do 3 right. left.
      * exists 32. vm_compute. do 4 right. left.
      * exists 128. vm_compute. do 2 right. left.
Qed.

Lemma process_destroy_correct_witness :
  exists s' lh', process_destroy demo_zombie demo_shell = Some s' /\ heap_repr (hp s') lh' /\
    table_is s' [HEAP_VIRT_START + 24].
Proof.
  destruct (process_destroy_correct demo_zombie demo_zombie_list demo_table demo_shell demo_shell_pcb _ _ demo_zombie_owns)
    as (s' & lh' & E & R & _ & T & _).
  exists s', lh'. split; [exact E|]. split; [exact R|exact T].
Defined.

Lemma process_waitpid_correct_witness :
  exists s', process_waitpid demo_zombie 0 (-1) = Some (s', 1, Some 1792) /\ table_is s' [HEAP_VIRT_START + 24].
Proof.
  pose proof (process_waitpid_correct demo_zombie demo_table 0 (-1)) as W.
  change (find_pcb demo_zombie (is_reapable 0 (-1)) demo_table) with (Some demo_shell) in W.
  destruct W as (s' & pr & Ez & _ & _ & E & _ & T).
  - exact (po_table _ _ _ _ _ _ _ demo_zombie_owns).
  - intros z [= <-]. eexists _, _, _, _. exact demo_zombie_owns.
  - exists s'. split; [|exact T].
    assert (Ez' : Some pr = Some demo_shell_pcb) by (rewrite <- Ez; vm_compute; reflexivity).
    injection Ez' as ->. exact E.
Defined.

Lemma thread_create_correct_witness :
  exists s' t lh', thread_create demo_image demo_zombie (HEAP_VIRT_START + 24) 0x1000 1 2 = Some (s', t) /\
    heap_repr (hp s') lh' /\ (t = 0 \/ exists th, threads (sk s') !! t = Some th /\ state th = THREAD_READY).
Proof.
  destruct (thread_create_correct demo_image demo_zombie demo_zombie_list (HEAP_VIRT_START + 24) 0x1000 1 2
    (default demo_shell_pcb (procs (sk demo_zombie) !! (HEAP_VIRT_START + 24))) demo_zombie_repr)
    as (s' & t & lh' & E & R & C).
  - vm_compute. reflexivity.
  - vm_compute. discriminate.
  - vm_compute. reflexivity.
  - exists s', t, lh'. split; [exact E|]. split; [exact R|].
    destruct C as [(Hz & _)|(_ & n & th & _ & Et & _ & Es & _)]; [left; exact Hz|right].
    exists th. split; [|exact Es]. rewrite Et. apply lookup_insert_eq.
Defined.

Lemma address_space_shares_kernel_witness :
  exists m' root, process_alloc_address_space (Vmm demo_root_store demo_root 0) = (m', root) /\ is_frame root /\
    pte (store m') root 0x400000 = 0.
Proof.
  set (m := Vmm demo_root_store demo_root 0).
  exists (process_alloc_address_space m).1, (process_alloc_address_space m).2.
  assert (E : process_alloc_address_space m = ((process_alloc_address_space m).1, (process_alloc_address_space m).2))
    by apply surjective_pairing.
  split; [exact E|].
  destruct (address_space_shares_kernel m _ _ (proj1 demo_root_ok) E) as (Hf & _ & _ & Hu & _); [vm_compute; discriminate|].
  split; [exact Hf|]. apply Hu. vm_compute. reflexivity.
Defined.

(** ** A running process *)

(** Process 2 of the demonstration machine, with a heap area and thread 200. *)
Definition demo_user_pcb : process :=
  Process 1 0 PROC_ALIVE 0 0 0 0 8192 200 1 0 0 0 0x400000 0x500000 0 0 0 0.

Definition demo_run : sys pmm :=
  Sys (set_procs demo_started (<[2 := demo_user_pcb]> (procs demo_started))) demo_heap0 0 0 0 ∅ ∅.

Lemma demo_run_inv : sched_inv (sk demo_run) demo_queues1.
Proof. apply (sched_inv_procs demo_started _ 2 (demo_process 1 8192)); [exact demo_started_inv|reflexivity|reflexivity]. Qed.

Lemma demo_run_threads : linked next_in_proc (threads (sk demo_run)) (proc_threads demo_user_pcb) [200].
Proof. solve_linked. Qed.

Lemma demo_run_owned t th : t ∈ [200] -> threads (sk demo_run) !! t = Some th -> process_of th = 2.
Proof.
  intros ->%list_elem_of_singleton E.
  assert (Ht : Some th = threads (sk demo_run) !! 200) by (symmetry; exact E). vm_compute in Ht. by injection Ht as ->.
Qed.

Lemma process_exit_correct_witness :
  exists s' Q', process_exit demo_run 2 7 = Some (s', 0) /\ sched_inv (sk s') Q' /\
    state_at (sk s') 200 = Some THREAD_DEAD /\ 200 <> current_thread (cpu (sk s')).
Proof.
  destruct (process_exit_correct demo_run demo_queues1 2 7 demo_user_pcb [200] demo_run_inv)
    as (s' & Q' & E & I & _ & _ & D).
  - vm_compute. reflexivity.
  - discriminate.
  - vm_compute. reflexivity.
  - exact demo_run_threads.
  - exact demo_run_owned.
  - vm_compute. intros H. inversion H; subst. inversion H2.
  - exists s', Q'. split; [exact E|]. split; [exact I|]. destruct (D 200) as (D1 & _ & D2); [left|]. split; [exact D1|exact D2].
Defined.

(** A user write to the fresh heap page at 4 MiB. *)
Lemma page_fault_demand_witness :
  exists s', page_fault_handler demo_run 6 0x400010 = Some (Resumed s') /\
    has_flag (entry_of (vm s') 0x400000) PAGE_WRITABLE = true.
Proof.
  destruct (page_fault_demand demo_run demo_user_pcb [] 6 0x400010 PAGE_PWU) as (s' & E & _ & _ & D & _).
  - vm_compute. reflexivity.
  - vm_compute. discriminate.
  - vm_compute. reflexivity.
  - reflexivity.
  - vm_compute. reflexivity.
  - exact (proj1 demo_root_ok).
  - apply demo_root_ok.
  - reflexivity.
  - vm_compute. reflexivity.
  - exists s'. split; [exact E|]. destruct D as [(f & [Fa _] & _ & _ & D & _)|N].
    + rewrite D. destruct (decide _) as [_|Hn]; [|exfalso; apply Hn; vm_compute; reflexivity].
      rewrite entry_flag; [reflexivity|exact Fa|split; [discriminate|reflexivity]].
    + exfalso. apply (N (14 * 4096)).
      assert (Es : Some (Resumed s') = page_fault_handler demo_run 6 0x400010) by (symmetry; exact E).
      vm_compute in Es. injection Es as ->. vm_compute. repeat split; discriminate.
Defined.

(** A user read of an address in no region. *)
Lemma page_fault_kill_witness :
  exists s', page_fault_handler demo_run 4 0x700000 = Some (Resumed s') /\ state_at (sk s') 200 = Some THREAD_DEAD.
Proof.
  destruct (page_fault_kill demo_run demo_queues1 demo_user_pcb [200] [] 4 0x700000) as (s' & Q' & E & _ & _ & _ & D).
  - vm_compute. reflexivity.
  - vm_compute. discriminate.
  - vm_compute. reflexivity.
  - reflexivity.
  - vm_compute. reflexivity.
  - exact demo_run_inv.
  - vm_compute. reflexivity.
  - exact demo_run_threads.
  - vm_compute. left.
  - exact demo_run_owned.
  - vm_compute. intros H. inversion H; subst. inversion H2.
  - vm_compute. reflexivity.
  - exists s'. split; [exact E|]. apply (D 200). left.
Defined.

(** A user write to a read-only page of a memory area without write access is
    taken for a copy-on-write fault: the sole owner of the frame gets the page
    writable. *)
Definition demo_ro_run : sys pmm :=
  Sys (set_procs demo_started (<[2 := set_proc_vmas demo_user_pcb 0x9000]> (procs demo_started)))
      (set_space demo_heap0 0 demo_ro) 0 0 0 (<[0x9000 := Vma demo_va (demo_va + 4096) (Z.lor PAGE_PRESENT PAGE_USER) 0]> ∅) ∅.

Theorem readonly_area_becomes_writable :
  process_find_vma demo_ro_run 2 demo_va = Some 0x9000 /\
  (vma_page_flags <$> vma_tab demo_ro_run !! 0x9000) = Some (Z.lor PAGE_PRESENT PAGE_USER) /\
  exists s', page_fault_handler demo_ro_run 7 demo_va = Some (Resumed s') /\
    has_flag (entry_of (vm demo_ro_run) demo_va) PAGE_WRITABLE = false /\
    has_flag (entry_of (vm s') demo_va) PAGE_WRITABLE = true.
Proof.
  split; [vm_compute; reflexivity|]. split; [vm_compute; reflexivity|].
  eexists. split; [vm_compute; reflexivity|]. split; vm_compute; reflexivity.
Qed.
