(* ===== verification/Input.v ===== *)
(** Input: the event queue (kernel/src/drivers/input/input_manager.c), the
    Scan Code Set 2 decoder (ps2_keyboard.c) and the mouse packet decoder
    (ps2_mouse.c).

    The interrupt handlers are functions of the byte read from the data port;
    they return the new driver state and the events they push, in order.  The
    queue is proved to be a FIFO that holds 255 events and drops the oldest. *)
From stdpp Require Import prelude gmap list.
From Stdlib Require Import ZArith Lia.
From S2P Require Import Prelude Spinlock.

Open Scope Z_scope.

Definition INPUT_EVENT_KEY_PRESS : Z := 1.

Definition INPUT_EVENT_KEY_RELEASE : Z := 2.

Definition INPUT_EVENT_MOUSE_MOVE : Z := 3.

Definition INPUT_EVENT_MOUSE_BUTTON : Z := 4.

Definition INPUT_EVENT_MOUSE_SCROLL : Z := 5.

Record input_event := Event {
  ev_type : Z;
  scancode : Z;
  ascii : Z;
  modifiers_of : Z;
  mouse_dx : Z;
  mouse_dy : Z;
  mouse_dz : Z;
  mouse_buttons : Z
}.

Definition zero_event : input_event := Event 0 0 0 0 0 0 0 0.

(** ** The event queue *)

Definition INPUT_QUEUE_SIZE : Z := 256.

Record input_queue := Queue {
  event_queue : list input_event;
  queue_head : Z;
  queue_tail : Z;
  input_lock : spinlock_t
}.

Definition input_push_event (q : input_queue) (event : input_event) : input_queue :=
  let next := u32 (queue_head q + 1) mod INPUT_QUEUE_SIZE in
  let tail := if next =? queue_tail q then u32 (queue_tail q + 1) mod INPUT_QUEUE_SIZE else queue_tail q in
  Queue (aset (event_queue q) (queue_head q) event) next tail (input_lock q).

(** The event polled, and RFLAGS; [None] when the lock is never released. *)
Definition input_poll_event (rflags : Z) (q : input_queue) : option (Z * input_queue * option input_event) :=
  if queue_head q =? queue_tail q then Some (rflags, q, None)
  else
    match spinlock_acquire 1 rflags (input_lock q) with
    | None => None
    | Some (rflags1, l1) =>
        if queue_head q =? queue_tail q then
          let '(rflags2, l2) := spinlock_release rflags1 l1 in
          Some (rflags2, Queue (event_queue q) (queue_head q) (queue_tail q) l2, None)
        else
          let out := aget zero_event (event_queue q) (queue_tail q) in
          let tail := u32 (queue_tail q + 1) mod INPUT_QUEUE_SIZE in
          let '(rflags2, l2) := spinlock_release rflags1 l1 in
          Some (rflags2, Queue (event_queue q) (queue_head q) tail l2, Some out)
    end.

Definition input_has_event (q : input_queue) : bool := negb (queue_head q =? queue_tail q).

Definition input_manager_init (q : input_queue) : input_queue :=
  Queue (replicate 256 zero_event) 0 0 (input_lock q).

(** ** The keyboard *)

Definition MOD_SHIFT : Z := Z.shiftl 1 0.

Definition MOD_CTRL : Z := Z.shiftl 1 1.

Definition MOD_ALT : Z := Z.shiftl 1 2.

Definition MOD_CAPSLOCK : Z := Z.shiftl 1 3.

(** Special keys, as the [char] they are stored in. *)
Definition KEY_UP : Z := s8 0x80.

Definition KEY_DOWN : Z := s8 0x81.

Definition KEY_LEFT : Z := s8 0x82.

Definition KEY_RIGHT : Z := s8 0x83.

Definition KEY_DELETE : Z := s8 0x7F.

Definition sc2_ascii : list Z :=
  [0;0;0;0;0;0;0;0;0;0;0;0;0;9;96;0;
   0;0;0;0;0;113;49;0;0;0;122;115;97;119;50;0;
   0;99;120;100;101;52;51;0;0;32;118;102;116;114;53;0;
   0;110;98;104;103;121;54;0;0;0;109;106;117;55;56;0;
   0;44;107;105;111;48;57;0;0;46;47;108;59;112;45;0;
   0;0;39;0;91;61;0;0;0;0;10;93;0;92;0;0;
   0;0;0;0;0;0;8;0;0;0;0;0;0;0;0;0;
   0;0;0;0;0;0;27;0;0;0;0;0;0;0;0;0] ++ replicate 128 0.

Definition sc2_ascii_shift : list Z :=
  [0;0;0;0;0;0;0;0;0;0;0;0;0;9;126;0;
   0;0;0;0;0;81;33;0;0;0;90;83;65;87;64;0;
   0;67;88;68;69;36;35;0;0;32;86;70;84;82;37;0;
   0;78;66;72;71;89;94;0;0;0;77;74;85;38;42;0;
   0;60;75;73;79;41;40;0;0;62;63;76;58;80;95;0;
   0;0;34;0;123;43;0;0;0;0;10;125;0;124;0;0;
   0;0;0;0;0;0;8;0;0;0;0;0;0;0;0;0;
   0;0;0;0;0;0;27;0;0;0;0;0;0;0;0;0] ++ replicate 128 0.

Definition sc2_get_modifier_flag (sc : Z) (is_extended : bool) : Z :=
  if negb is_extended then
    if sc =? 0x12 then MOD_SHIFT
    else if sc =? 0x59 then MOD_SHIFT
    else if sc =? 0x14 then MOD_CTRL
    else if sc =? 0x11 then MOD_ALT
    else if sc =? 0x58 then MOD_CAPSLOCK
    else 0
  else if sc =? 0x14 then MOD_CTRL
  else if sc =? 0x11 then MOD_ALT
  else 0.

Record keyboard := Keyboard { modifiers : Z; extended : bool; released : bool }.

(** The modifier byte after a modifier key went down or up. *)
Definition update_modifiers (mods mod_flag : Z) (is_rel : bool) : Z :=
  if mod_flag =? MOD_CAPSLOCK then (if negb is_rel then Z.lxor mods MOD_CAPSLOCK else mods)
  else if is_rel then Z.land mods (u8 (Z.lnot mod_flag)) else Z.lor mods mod_flag.

(** The character of a key. *)
Definition key_char (mods sc : Z) (is_ext : bool) : Z :=
  if negb is_ext then
    let caps := has_flag mods MOD_CAPSLOCK in
    let ch := if has_flag mods MOD_SHIFT then aget 0 sc2_ascii_shift sc else aget 0 sc2_ascii sc in
    if caps && (97 <=? ch) && (ch <=? 122) then ch - 32
    else if caps && (65 <=? ch) && (ch <=? 90) then ch + 32
    else ch
  else if sc =? 0x6B then KEY_LEFT
  else if sc =? 0x74 then KEY_RIGHT
  else if sc =? 0x75 then KEY_UP
  else if sc =? 0x72 then KEY_DOWN
  else if sc =? 0x71 then KEY_DELETE
  else 0.

Definition keyboard_irq_handler (k : keyboard) (sc : Z) : keyboard * list input_event :=
  if sc =? 0xE0 then (Keyboard (modifiers k) true (released k), [])
  else if sc =? 0xE1 then (Keyboard (modifiers k) false false, [])
  else if sc =? 0xF0 then (Keyboard (modifiers k) (extended k) true, [])
  else
    let is_ext := extended k in
    let is_rel := released k in
    let mod_flag := sc2_get_modifier_flag sc is_ext in
    if nonzero mod_flag then (Keyboard (update_modifiers (modifiers k) mod_flag is_rel) false false, [])
    else
      let ch := key_char (modifiers k) sc is_ext in
      let event :=
        if is_rel then Event INPUT_EVENT_KEY_RELEASE sc 0 (modifiers k) 0 0 0 0
        else Event INPUT_EVENT_KEY_PRESS sc ch (modifiers k) 0 0 0 0 in
      (Keyboard (modifiers k) false false, [event]).

Definition ps2_keyboard_get_modifiers (k : keyboard) : Z := modifiers k.

(** ** The mouse *)

Record mouse := Mouse {
  mouse_packet : list Z;
  packet_index : Z;
  has_scroll_wheel : bool;
  prev_buttons : Z
}.

(** The events of a complete packet, and the buttons it reports. *)
Definition decode_packet (packet : list Z) (wheel : bool) (prev : Z) : list input_event * Z :=
  let flags := aget 0 packet 0 in
  let dx := aget 0 packet 1 in
  let dy := aget 0 packet 2 in
  let dx := if has_flag flags (Z.shiftl 1 4) then s16 (Z.lor dx 0xFF00) else dx in
  let dy := if has_flag flags (Z.shiftl 1 5) then s16 (Z.lor dy 0xFF00) else dy in
  let dy := s16 (- dy) in
  let dz := if wheel then s8 (aget 0 packet 3) else 0 in
  if has_flag flags (Z.shiftl 1 6) || has_flag flags (Z.shiftl 1 7) then ([], prev)
  else
    let buttons := Z.land flags 0x07 in
    let moves := if nonzero dx || nonzero dy
                 then [Event INPUT_EVENT_MOUSE_MOVE 0 0 0 dx dy 0 buttons] else [] in
    let clicks := if negb (buttons =? prev)
                  then [Event INPUT_EVENT_MOUSE_BUTTON 0 0 0 0 0 0 buttons] else [] in
    let scrolls := if nonzero dz then [Event INPUT_EVENT_MOUSE_SCROLL 0 0 0 0 0 dz buttons] else [] in
    (moves ++ clicks ++ scrolls, buttons).

Definition mouse_irq_handler (m : mouse) (data : Z) : mouse * list input_event :=
  if (packet_index m =? 0) && negb (has_flag data 0x08) then (m, [])
  else
    let packet := aset (mouse_packet m) (packet_index m) data in
    let index := packet_index m + 1 in
    let packet_size := if has_scroll_wheel m then 4 else 3 in
    if packet_size <=? index then
      let '(events, buttons) := decode_packet packet (has_scroll_wheel m) (prev_buttons m) in
      (Mouse packet 0 (has_scroll_wheel m) buttons, events)
    else (Mouse packet index (has_scroll_wheel m) (prev_buttons m), []).

(** A handler fed a sequence of bytes. *)
Fixpoint feed {D : Type} (handler : D -> Z -> D * list input_event) (d : D) (bytes : list Z)
  : D * list input_event :=
  match bytes with
  | [] => (d, [])
  | b :: bytes =>
      let '(d1, evs) := handler d b in
      let '(d2, evs') := feed handler d1 bytes in
      (d2, evs ++ evs')
  end.

(** ** Theorems *)

(** ** The queue as a bounded FIFO *)

Record queue_inv (q : input_queue) : Prop := {
  qi_len : length (event_queue q) = 256%nat;
  qi_head : 0 <= queue_head q < 256;
  qi_tail : 0 <= queue_tail q < 256;
  qi_lock : lock (input_lock q) = 0
}.

Definition count (q : input_queue) : Z := (queue_head q - queue_tail q) mod 256.

Definition event_at (q : input_queue) (i : Z) : input_event := aget zero_event (event_queue q) ((queue_tail q + i) mod 256).

(** The queued events, oldest first. *)
Definition contents (q : input_queue) : list input_event := event_at q <$> seqZ 0 (count q).

(** The last [n] elements of a list. *)
Definition last_n {A} (n : nat) (l : list A) : list A := drop (length l - n) l.

Definition capacity : nat := 255.

Lemma contents_length q : length (contents q) = Z.to_nat (count q).
Proof. unfold contents. by rewrite length_fmap, length_seqZ. Qed.

Lemma contents_lookup q i : contents q !! i = if decide (Z.of_nat i < count q) then Some (event_at q (Z.of_nat i)) else None.
Proof.
  unfold contents. rewrite list_lookup_fmap. destruct (decide _).
  - rewrite lookup_seqZ_lt by lia. simpl. by rewrite Z.add_0_l.
  - by rewrite lookup_seqZ_ge by lia.
Qed.

Lemma queue_inv_push q e : queue_inv q -> queue_inv (input_push_event q e).
Proof.
  intros [Hl Hh Ht Hk]. unfold input_push_event, INPUT_QUEUE_SIZE. split; simpl; [by unfold aset; rewrite length_insert| | |done].
  - apply Z.mod_pos_bound. done.
  - destruct (_ =? _); [by apply Z.mod_pos_bound|done].
Qed.

Lemma next_index i : 0 <= i < 256 -> u32 (i + 1) mod 256 = (i + 1) mod 256.
Proof. intros. rewrite wrap_small by (unfold fits; lia). done. Qed.

(** The fields after a push. *)
Lemma push_fields q e : queue_inv q ->
  let q' := input_push_event q e in
  let full := count q =? 255 in
  queue_tail q' = (if full then (queue_tail q + 1) mod 256 else queue_tail q) /\
  count q' = (if full then 255 else count q + 1) /\
  forall j, 0 <= j < 256 -> aget zero_event (event_queue q') j =
    if decide (j = queue_head q) then e else aget zero_event (event_queue q) j.
Proof.
  intros [Hl Hh Ht Hk] q' full.
  assert (Et : queue_tail q' = if full then (queue_tail q + 1) mod 256 else queue_tail q).
  { unfold q', input_push_event, INPUT_QUEUE_SIZE. simpl. rewrite !next_index by done.
    replace full with ((queue_head q + 1) mod 256 =? queue_tail q); [done|]. unfold full, count.
    destruct (Z.eqb_spec ((queue_head q + 1) mod 256) (queue_tail q)), (Z.eqb_spec ((queue_head q - queue_tail q) mod 256) 255);
      try done; exfalso; zmod. }
  split; [done|]. split.
  - unfold count at 1. rewrite Et. replace (queue_head q') with ((queue_head q + 1) mod 256) by (symmetry; by apply next_index).
    unfold full, count. destruct (Z.eqb_spec ((queue_head q - queue_tail q) mod 256) 255); zmod.
  - intros j Hj. unfold q'. simpl. destruct (decide (j = queue_head q)) as [->|Hne].
    + apply aget_aset_eq. unfold alen. rewrite Hl. lia.
    + apply aget_aset_ne; lia.
Qed.

(** Slot [count q] is the one the head points to. *)
Lemma head_slot q i : queue_inv q -> 0 <= i < 256 -> (queue_tail q + i) mod 256 = queue_head q <-> i = count q.
Proof. intros [_ Hh Ht _] Hi. unfold count. split; intros; zmod. Qed.

(** A push keeps the newest [capacity] events. *)
Lemma push_contents q e : queue_inv q -> contents (input_push_event q e) = last_n capacity (contents q ++ [e]).
Proof.
  intros I. destruct (push_fields q e I) as (Et & Ec & Ev). pose proof (qi_tail q I) as Ht.
  assert (Hc : 0 <= count q < 256) by by apply Z.mod_pos_bound.
  assert (A : forall i, 0 <= i <= count q -> (contents q ++ [e]) !! Z.to_nat i =
     Some (if decide (i = count q) then e else event_at q i)).
  { intros i Hi. destruct (decide (i = count q)) as [->|Hne].
    - rewrite lookup_app_r; rewrite contents_length; [|done]. by rewrite Nat.sub_diag.
    - rewrite lookup_app_l by (rewrite contents_length; lia).
      rewrite contents_lookup, Z2Nat.id, decide_True by lia. done. }
  assert (B : forall i, 0 <= i <= count q -> aget zero_event (event_queue (input_push_event q e)) ((queue_tail q + i) mod 256) =
     if decide (i = count q) then e else event_at q i).
  { intros i Hi. rewrite Ev by by apply Z.mod_pos_bound. unfold event_at.
    destruct (decide (i = count q)) as [He|Hne].
    - rewrite decide_True; [done|]. apply head_slot; [done|lia|done].
    - rewrite decide_False; [done|]. intros Hx. apply Hne. apply (head_slot q); [done|lia|done]. }
  apply list_eq. intros i. rewrite contents_lookup, Ec. unfold last_n, capacity.
  rewrite lookup_drop, length_app, contents_length. simpl length. unfold event_at at 1. rewrite Et.
  destruct (Z.eqb_spec (count q) 255) as [H255|H255].
  - destruct (decide (Z.of_nat i < 255)) as [Hi|Hi].
    + replace (Z.to_nat (count q) + 1 - 255 + i)%nat with (Z.to_nat (Z.of_nat i + 1)) by lia.
      rewrite A, <- B by lia. do 2 f_equal. rewrite Z.add_mod_idemp_l by done. f_equal. lia.
    + rewrite lookup_ge_None_2; [done|]. rewrite length_app, contents_length. simpl. lia.
  - destruct (decide (Z.of_nat i < count q + 1)) as [Hi|Hi].
    + replace (Z.to_nat (count q) + 1 - 255 + i)%nat with (Z.to_nat (Z.of_nat i)) by lia.
      by rewrite A, <- B by lia.
    + rewrite lookup_ge_None_2; [done|]. rewrite length_app, contents_length. simpl. lia.
Qed.

(** A poll takes the oldest event and restores the interrupt flag. *)
Lemma poll_contents f q : queue_inv q ->
  exists q' f', input_poll_event f q = Some (f', q', head (contents q)) /\ queue_inv q' /\
    interrupts_on f' = interrupts_on f /\ contents q' = tail (contents q).
Proof.
  intros I. destruct I as [Hl Hh Ht Hk] eqn:EI. unfold input_poll_event.
  destruct (Z.eqb_spec (queue_head q) (queue_tail q)) as [He|Hne].
  - assert (Hn : contents q = []) by (unfold contents, count; by rewrite He, Z.sub_diag).
    rewrite Hn. by exists q, f.
  - rewrite acquire_free by done. unfold spinlock_release. simpl. eexists _, _.
    assert (Hc : 0 < count q < 256) by (unfold count; zmod).
    assert (Hd : forall i, contents q !! i = if decide (Z.of_nat i < count q) then Some (event_at q (Z.of_nat i)) else None)
      by apply contents_lookup.
    pose proof (Hd 0%nat) as H0. rewrite decide_True in H0 by (simpl; lia).
    assert (Hhd : head (contents q) = Some (aget zero_event (event_queue q) (queue_tail q))).
    { rewrite head_lookup, H0. unfold event_at. simpl. by rewrite Z.add_0_r, Z.mod_small by lia. }
    rewrite Hhd. split; [done|]. rewrite next_index by done. split; [|split].
    + split; [done|done|by apply Z.mod_pos_bound|done].
    + apply restore_interrupts.
    + apply list_eq. intros i. rewrite contents_lookup, lookup_tail, Hd.
      assert (Ec : count (Queue (event_queue q) (queue_head q) ((queue_tail q + 1) mod 256) (Spinlock 0 f)) = count q - 1).
      { unfold count in *. simpl. zmod. }
      rewrite Ec. destruct (decide (Z.of_nat i < count q - 1)).
      * rewrite decide_True by lia. unfold event_at. simpl. rewrite Z.add_mod_idemp_l by done. do 3 f_equal. lia.
      * by rewrite decide_False by lia.
Qed.

(** A driver of the queue: interrupt handlers push, threads poll. *)
Inductive queue_op := Push (e : input_event) | Poll.

Fixpoint run_queue (f : Z) (q : input_queue) (ops : list queue_op) : option (Z * input_queue * list (option input_event)) :=
  match ops with
  | [] => Some (f, q, [])
  | Push e :: ops => run_queue f (input_push_event q e) ops
  | Poll :: ops =>
      '(f1, q1, r) ← input_poll_event f q;
      '(f2, q2, rs) ← run_queue f1 q1 ops;
      Some (f2, q2, r :: rs)
  end.

(** The specification: a list that keeps its last 255 elements. *)
Fixpoint run_fifo (l : list input_event) (ops : list queue_op) : list input_event * list (option input_event) :=
  match ops with
  | [] => (l, [])
  | Push e :: ops => run_fifo (last_n capacity (l ++ [e])) ops
  | Poll :: ops => let '(l', rs) := run_fifo (tail l) ops in (l', head l :: rs)
  end.

(** The event queue is a FIFO that holds 255 events and drops the oldest when
    full: every sequence of pushes and polls returns the events of the
    specification, ends with its contents, never blocks on the lock and leaves
    the interrupt flag as it was. *)
Theorem input_queue_fifo (ops : list queue_op) (f : Z) (q : input_queue) :
  queue_inv q ->
  exists f' q', run_queue f q ops = Some (f', q', (run_fifo (contents q) ops).2) /\ queue_inv q' /\
    contents q' = (run_fifo (contents q) ops).1 /\ interrupts_on f' = interrupts_on f.
Proof.
  revert f q. induction ops as [|[e|] ops IH]; intros f q I; simpl.
  - by exists f, q.
  - rewrite <- push_contents by done. apply IH. by apply queue_inv_push.
  - destruct (poll_contents f q I) as (q1 & f1 & -> & I1 & Ef & Ec). cbn [mbind option_bind].
    destruct (IH f1 q1 I1) as (f' & q' & -> & I' & Ec' & Ef'). rewrite Ec in *. cbn [mbind option_bind].
    destruct (run_fifo (tail (contents q)) ops) as [l' rs]. exists f', q'. by rewrite Ef'.
Qed.

Lemma init_inv q : lock (input_lock q) = 0 -> queue_inv (input_manager_init q) /\ contents (input_manager_init q) = [].
Proof. intros H. by split. Qed.

Definition boot_queue : input_queue := input_manager_init (Queue [] 7 9 SPINLOCK_INIT).

Lemma input_queue_fifo_witness :
  queue_inv boot_queue /\
  exists f' q', run_queue RFLAGS_IF boot_queue [Push zero_event; Poll; Poll] = Some (f', q', [Some zero_event; None]).
Proof.
  assert (I : queue_inv boot_queue) by (apply init_inv; reflexivity). split; [exact I|].
  destruct (input_queue_fifo [Push zero_event; Poll; Poll] RFLAGS_IF boot_queue I) as (f' & q' & E & _).
  exists f', q'. exact E.
Defined.

(** ** Scan codes *)

(** A key event on the wire: extended or not, pressed or released, make code. *)
Record key_action := KeyAction { k_ext : bool; k_pressed : bool; k_code : Z }.

Definition key_bytes (a : key_action) : list Z :=
  (if k_ext a then [0xE0] else []) ++ (if k_pressed a then [] else [0xF0]) ++ [k_code a].

Definition plain_code (sc : Z) : Prop := sc <> 0xE0 /\ sc <> 0xE1 /\ sc <> 0xF0.

(** What the key means when the modifier byte is [mods]. *)
Definition key_meaning (mods : Z) (a : key_action) : Z * list input_event :=
  let flag := sc2_get_modifier_flag (k_code a) (k_ext a) in
  if nonzero flag then (update_modifiers mods flag (negb (k_pressed a)), [])
  else (mods, [if k_pressed a
               then Event INPUT_EVENT_KEY_PRESS (k_code a) (key_char mods (k_code a) (k_ext a)) mods 0 0 0 0
               else Event INPUT_EVENT_KEY_RELEASE (k_code a) 0 mods 0 0 0 0]).

Fixpoint meaning (mods : Z) (acts : list key_action) : Z * list input_event :=
  match acts with
  | [] => (mods, [])
  | a :: acts => let '(m1, e1) := key_meaning mods a in let '(m2, e2) := meaning m1 acts in (m2, e1 ++ e2)
  end.

Lemma feed_app {D} (h : D -> Z -> D * list input_event) bs1 bs2 d :
  feed h d (bs1 ++ bs2) = let '(d1, e1) := feed h d bs1 in let '(d2, e2) := feed h d1 bs2 in (d2, e1 ++ e2).
Proof.
  revert d. induction bs1 as [|b bs1 IH]; intros d; simpl; [by destruct (feed h d bs2)|].
  destruct (h d b) as [d0 e0]. rewrite IH. destruct (feed h d0 bs1) as [d1 e1]. destruct (feed h d1 bs2) as [d2 e2].
  by rewrite app_assoc.
Qed.

Lemma key_decoded mods a : plain_code (k_code a) ->
  feed keyboard_irq_handler (Keyboard mods false false) (key_bytes a) =
    let '(m, e) := key_meaning mods a in (Keyboard m false false, e).
Proof.
  destruct a as [ext pressed sc]. intros (H1 & H2 & H3). simpl in H1, H2, H3.
  assert (A : forall e r, keyboard_irq_handler (Keyboard mods e r) sc =
    let '(m, ev) := key_meaning mods (KeyAction e (negb r) sc) in (Keyboard m false false, ev)).
  { intros e r. unfold keyboard_irq_handler, key_meaning.
    rewrite (proj2 (Z.eqb_neq sc 0xE0)), (proj2 (Z.eqb_neq sc 0xE1)), (proj2 (Z.eqb_neq sc 0xF0)) by done.
    cbn [k_code k_ext k_pressed extended released Input.modifiers]. destruct (nonzero _); by destruct r. }
  unfold key_bytes. cbn [k_ext k_pressed k_code].
  destruct ext, pressed; cbn -[key_meaning keyboard_irq_handler]; rewrite ?A; cbn [negb];
    try (unfold keyboard_irq_handler at 1; cbn -[key_meaning keyboard_irq_handler]; rewrite ?A; cbn [negb]);
    try (unfold keyboard_irq_handler at 1; cbn -[key_meaning keyboard_irq_handler]; rewrite ?A; cbn [negb]);
    by destruct (key_meaning _ _) as [m e]; rewrite ?app_nil_r.
Qed.

(** The keyboard decoder inverts the wire encoding: fed the bytes of any
    sequence of key presses and releases, it pushes the event of each key in
    turn, with the modifiers in force at that moment, and is back in its
    initial state. *)
Theorem keyboard_decodes (acts : list key_action) (mods : Z) :
  Forall (fun a => plain_code (k_code a)) acts ->
  feed keyboard_irq_handler (Keyboard mods false false) (concat (key_bytes <$> acts)) =
    let '(m, evs) := meaning mods acts in (Keyboard m false false, evs).
Proof.
  intros Ha. revert mods. induction acts as [|a acts IH]; intros mods; [done|].
  apply Forall_cons in Ha as [H1 Ha]. simpl. rewrite feed_app, key_decoded by done.
  destruct (key_meaning mods a) as [m1 e1]. rewrite IH by done. by destruct (meaning m1 acts).
Qed.

Lemma keyboard_decodes_witness :
  feed keyboard_irq_handler (Keyboard 0 false false) [0x12; 0x1C; 0xF0; 0x12; 0xE0; 0xF0; 0x75] =
    (Keyboard 0 false false,
     [Event INPUT_EVENT_KEY_PRESS 0x1C 65 MOD_SHIFT 0 0 0 0; Event INPUT_EVENT_KEY_RELEASE 0x75 0 0 0 0 0 0]).
Proof.
  assert (Hp : Forall (fun a => plain_code (k_code a))
    [KeyAction false true 0x12; KeyAction false true 0x1C; KeyAction false false 0x12; KeyAction true false 0x75]).
  { repeat constructor; discriminate. }
  exact (keyboard_decodes _ 0 Hp).
Defined.

(** ** Letters *)

Definition is_lower (c : Z) : bool := (97 <=? c) && (c <=? 122).

(** The two tables agree on what a letter key is. *)
Lemma letter_tables :
  forallb (fun sc => if is_lower (aget 0 sc2_ascii sc) then aget 0 sc2_ascii_shift sc =? aget 0 sc2_ascii sc - 32
                     else negb (is_lower (aget 0 sc2_ascii_shift sc)) &&
                          negb ((65 <=? aget 0 sc2_ascii_shift sc) && (aget 0 sc2_ascii_shift sc <=? 90)))
    (seqZ 0 256) = true.
Proof. vm_compute. reflexivity. Qed.

Lemma letter_table sc :
  is_lower (aget 0 sc2_ascii sc) = true -> aget 0 sc2_ascii_shift sc = aget 0 sc2_ascii sc - 32.
Proof.
  intros Hl. destruct (decide (0 <= sc < 256)) as [Hr|Hr].
  - pose proof letter_tables as T. rewrite forallb_forall in T. specialize (T sc).
    rewrite Hl in T. apply Z.eqb_eq, T. apply list_elem_of_In, elem_of_seqZ. lia.
  - exfalso. destruct (decide (sc < 0)) as [Hn|Hn].
    + unfold aget in Hl. rewrite Z2Nat.inj_neg in Hl || idtac. destruct sc; try lia. done.
    + rewrite aget_ge in Hl; [done|]. unfold alen. change (length sc2_ascii) with 256%nat. lia.
Qed.

(** Letter keys: the case is upper exactly when Shift and Caps Lock disagree. *)
Theorem keyboard_letter_case (mods sc : Z) :
  let c := aget 0 sc2_ascii sc in
  is_lower c = true ->
  key_char mods sc false = if xorb (has_flag mods MOD_SHIFT) (has_flag mods MOD_CAPSLOCK) then c - 32 else c.
Proof.
  intros c Hl. pose proof (letter_table sc Hl) as Hs. fold c in Hs. unfold key_char. cbn [negb]. fold c. rewrite Hs.
  unfold is_lower in Hl. fold c in Hl. apply andb_true_iff in Hl as [H1%Z.leb_le H2%Z.leb_le].
  destruct (has_flag mods MOD_SHIFT), (has_flag mods MOD_CAPSLOCK); cbn [xorb andb]; try done.
  - rewrite (proj2 (Z.leb_gt 97 (c - 32))) by lia. cbn [andb].
    rewrite (proj2 (Z.leb_le 65 (c - 32))), (proj2 (Z.leb_le (c - 32) 90)) by lia. cbn [andb]. lia.
  - rewrite (proj2 (Z.leb_le 97 c)), (proj2 (Z.leb_le c 122)) by lia. done.
Qed.

Lemma keyboard_letter_case_witness : key_char (Z.lor MOD_SHIFT MOD_CAPSLOCK) 0x1C false = 97.
Proof. exact (keyboard_letter_case (Z.lor MOD_SHIFT MOD_CAPSLOCK) 0x1C eq_refl). Defined.

(** The Pause key is meant to be ignored; its eight bytes reach the queue as a
    press and a release of Num Lock, the press with Ctrl held. *)
Theorem pause_key_leaks (mods : Z) :
  exists mods' events,
    feed keyboard_irq_handler (Keyboard mods false false) [0xE1; 0x14; 0x77; 0xE1; 0xF0; 0x14; 0xF0; 0x77] =
      (Keyboard mods' false false, events) /\
    events = [Event INPUT_EVENT_KEY_PRESS 0x77 0 (Z.lor mods MOD_CTRL) 0 0 0 0;
              Event INPUT_EVENT_KEY_RELEASE 0x77 0 mods' 0 0 0 0].
Proof.
  set (m1 := Z.lor mods MOD_CTRL). set (m2 := Z.land m1 (u8 (Z.lnot MOD_CTRL))).
  exists m2, [Event INPUT_EVENT_KEY_PRESS 0x77 0 m1 0 0 0 0; Event INPUT_EVENT_KEY_RELEASE 0x77 0 m2 0 0 0 0].
  split; [|done]. assert (Hk : key_char m1 0x77 false = 0).
  { unfold key_char. cbn [negb]. replace (if has_flag m1 MOD_SHIFT then _ else _) with 0 by by destruct (has_flag m1 MOD_SHIFT).
    by destruct (has_flag m1 MOD_CAPSLOCK). }
  assert (E : feed keyboard_irq_handler (Keyboard mods false false) [0xE1; 0x14; 0x77; 0xE1; 0xF0; 0x14; 0xF0; 0x77] =
    (Keyboard m2 false false, [Event INPUT_EVENT_KEY_PRESS 0x77 (key_char m1 0x77 false) m1 0 0 0 0;
                               Event INPUT_EVENT_KEY_RELEASE 0x77 0 m2 0 0 0 0])) by reflexivity.
  by rewrite E, Hk.
Qed.

(** ** Mouse packets *)

(** The first byte of a packet: buttons, the always-one bit, the two sign bits. *)
Definition flags_byte (dx dy btn : Z) : Z :=
  btn + 8 + (if dx <? 0 then 16 else 0) + (if dy <? 0 then 32 else 0).

Definition packet_of (wheel : bool) (dx dy dz btn : Z) : list Z :=
  [flags_byte dx dy btn; dx mod 256; dy mod 256] ++ (if wheel then [dz mod 256] else []).

(** The events of a movement, by their meaning. *)
Definition mouse_meaning (dx dy dz btn prev : Z) : list input_event :=
  (if nonzero dx || nonzero dy then [Event INPUT_EVENT_MOUSE_MOVE 0 0 0 dx (- dy) 0 btn] else []) ++
  (if negb (btn =? prev) then [Event INPUT_EVENT_MOUSE_BUTTON 0 0 0 0 0 0 btn] else []) ++
  (if nonzero dz then [Event INPUT_EVENT_MOUSE_SCROLL 0 0 0 0 0 dz btn] else []).

Lemma sign_extend d : -256 <= d < 256 -> (if d <? 0 then s16 (Z.lor (d mod 256) 0xFF00) else d mod 256) = d.
Proof.
  intros Hd. destruct (Z.ltb_spec d 0); [|by rewrite Z.mod_small by lia].
  assert (T : forallb (fun x => s16 (Z.lor (x mod 256) 0xFF00) =? x) (seqZ (-256) 256) = true) by (vm_compute; reflexivity).
  rewrite forallb_forall in T. apply Z.eqb_eq, T. apply list_elem_of_In, elem_of_seqZ. lia.
Qed.

Lemma sign_byte d : -128 <= d < 128 -> s8 (d mod 256) = d.
Proof. intros Hd. unfold swrap. change (2 ^ (8 - 1)) with 128. change (2 ^ 8) with 256. zmod. Qed.

Lemma negate16 d : -256 <= d < 256 -> s16 (- d) = - d.
Proof. intros Hd. unfold swrap. change (2 ^ (16 - 1)) with 32768. change (2 ^ 16) with 65536. zmod. Qed.

Lemma flags_bits dx dy btn : 0 <= btn < 8 ->
  let f := flags_byte dx dy btn in
  has_flag f 0x08 = true /\ has_flag f (Z.shiftl 1 4) = (dx <? 0) /\ has_flag f (Z.shiftl 1 5) = (dy <? 0) /\
  has_flag f (Z.shiftl 1 6) = false /\ has_flag f (Z.shiftl 1 7) = false /\ Z.land f 0x07 = btn.
Proof.
  intros Hb f. unfold f, flags_byte.
  assert (btn = 0 \/ btn = 1 \/ btn = 2 \/ btn = 3 \/ btn = 4 \/ btn = 5 \/ btn = 6 \/ btn = 7) as C by lia.
  destruct (dx <? 0), (dy <? 0), C as [->|[->|[->|[->|[->|[->|[->| ->]]]]]]]; vm_compute; repeat split.
Qed.

Lemma nonzero_opp x : nonzero (- x) = nonzero x.
Proof. unfold nonzero. destruct (Z.eqb_spec (- x) 0), (Z.eqb_spec x 0); (done || lia). Qed.

Lemma packet_decoded (wheel : bool) dx dy dz btn prev p3 :
  -256 <= dx < 256 -> -256 <= dy < 256 -> (if wheel then -128 <= dz < 128 else dz = 0) -> 0 <= btn < 8 ->
  decode_packet [flags_byte dx dy btn; dx mod 256; dy mod 256; if wheel then dz mod 256 else p3] wheel prev =
    (mouse_meaning dx dy dz btn prev, btn).
Proof.
  intros Hx Hy Hz Hb. destruct (flags_bits dx dy btn Hb) as (_ & F4 & F5 & F6 & F7 & F0). unfold decode_packet.
  change (aget 0 [flags_byte dx dy btn; dx mod 256; dy mod 256; if wheel then dz mod 256 else p3] 0) with (flags_byte dx dy btn).
  change (aget 0 [flags_byte dx dy btn; dx mod 256; dy mod 256; if wheel then dz mod 256 else p3] 1) with (dx mod 256).
  change (aget 0 [flags_byte dx dy btn; dx mod 256; dy mod 256; if wheel then dz mod 256 else p3] 2) with (dy mod 256).
  change (aget 0 [flags_byte dx dy btn; dx mod 256; dy mod 256; if wheel then dz mod 256 else p3] 3)
    with (if wheel then dz mod 256 else p3).
  rewrite F4, F5, F6, F7, F0. cbn [orb]. rewrite !sign_extend, negate16 by done.
  replace (if wheel then s8 (if wheel then dz mod 256 else p3) else 0) with dz
    by (destruct wheel; [by rewrite sign_byte|done]).
  unfold mouse_meaning. by rewrite nonzero_opp.
Qed.

(** One byte of a packet. *)
Lemma mouse_first wheel prev b p0 p1 p2 p3 : has_flag b 0x08 = true ->
  mouse_irq_handler (Mouse [p0; p1; p2; p3] 0 wheel prev) b = (Mouse [b; p1; p2; p3] 1 wheel prev, []).
Proof. intros Hf. unfold mouse_irq_handler. cbn [packet_index mouse_packet has_scroll_wheel prev_buttons]. rewrite Hf. by destruct wheel. Qed.

Lemma mouse_next i (wheel : bool) prev b ps : 0 < i -> i + 1 < (if wheel then 4 else 3) ->
  mouse_irq_handler (Mouse ps i wheel prev) b = (Mouse (aset ps i b) (i + 1) wheel prev, []).
Proof.
  intros Hi Hl. unfold mouse_irq_handler. cbn [packet_index mouse_packet has_scroll_wheel prev_buttons].
  rewrite (proj2 (Z.eqb_neq i 0)) by lia. cbn [andb]. by rewrite (proj2 (Z.leb_gt _ _)).
Qed.

Lemma mouse_last i (wheel : bool) prev b ps : 0 < i -> i + 1 = (if wheel then 4 else 3) ->
  mouse_irq_handler (Mouse ps i wheel prev) b =
    let '(evs, btn) := decode_packet (aset ps i b) wheel prev in (Mouse (aset ps i b) 0 wheel btn, evs).
Proof.
  intros Hi Hl. unfold mouse_irq_handler. cbn [packet_index mouse_packet has_scroll_wheel prev_buttons].
  rewrite (proj2 (Z.eqb_neq i 0)) by lia. cbn [andb]. by rewrite (proj2 (Z.leb_le _ _)) by lia.
Qed.

(** The mouse decoder inverts the packet encoding: at a packet boundary, the
    three bytes (four with a wheel) of a movement push its movement, button and
    scroll events (Y inverted) and leave the decoder at a packet boundary; a
    first byte without the always-one bit changes nothing. *)
Theorem mouse_decodes (m : mouse) (dx dy dz btn : Z) :
  length (mouse_packet m) = 4%nat -> packet_index m = 0 ->
  -256 <= dx < 256 -> -256 <= dy < 256 ->
  (if has_scroll_wheel m then -128 <= dz < 128 else dz = 0) -> 0 <= btn < 8 ->
  (exists m', feed mouse_irq_handler m (packet_of (has_scroll_wheel m) dx dy dz btn) =
     (m', mouse_meaning dx dy dz btn (prev_buttons m)) /\
     packet_index m' = 0 /\ prev_buttons m' = btn /\ length (mouse_packet m') = 4%nat) /\
  forall b, has_flag b 0x08 = false -> mouse_irq_handler m b = (m, []).
Proof.
  destruct m as [[|p0 [|p1 [|p2 [|p3 [|]]]]] idx wheel prev]; intros Hl Hi Hx Hy Hz Hb; try done. simpl in Hi. subst idx.
  cbn [has_scroll_wheel prev_buttons] in *. destruct (flags_bits dx dy btn Hb) as (F8 & _). split.
  2: { intros b Hf. unfold mouse_irq_handler. cbn [packet_index]. by rewrite Hf. }
  pose proof (packet_decoded wheel dx dy dz btn prev p3 Hx Hy Hz Hb) as D.
  unfold packet_of. cbn [app feed]. rewrite mouse_first by done. destruct wheel; cbn [app feed].
  - do 2 (rewrite mouse_next by lia; cbn [app]). rewrite mouse_last by lia.
    change (aset (aset (aset [flags_byte dx dy btn; p1; p2; p3] 1 (dx mod 256)) (1 + 1) (dy mod 256)) (1 + 1 + 1) (dz mod 256))
      with [flags_byte dx dy btn; dx mod 256; dy mod 256; dz mod 256].
    rewrite D. eexists. split; [by rewrite app_nil_r|done].
  - rewrite mouse_next by lia. cbn [app]. rewrite mouse_last by lia.
    change (aset (aset [flags_byte dx dy btn; p1; p2; p3] 1 (dx mod 256)) (1 + 1) (dy mod 256))
      with [flags_byte dx dy btn; dx mod 256; dy mod 256; p3].
    rewrite D. eexists. split; [by rewrite app_nil_r|done].
Qed.

Lemma mouse_decodes_witness :
  exists m', feed mouse_irq_handler (Mouse [0; 0; 0; 0] 0 false 0) [0x19; 0xFF; 0x05] =
    (m', [Event INPUT_EVENT_MOUSE_MOVE 0 0 0 (-1) (-5) 0 1; Event INPUT_EVENT_MOUSE_BUTTON 0 0 0 0 0 0 1]).
Proof.
  destruct (mouse_decodes (Mouse [0; 0; 0; 0] 0 false 0) (-1) 5 0 1) as [(m' & E & _) _];
    [reflexivity|reflexivity|lia|lia|reflexivity|lia|].
  exists m'. exact E.
Defined.
