(* ===== verification/KHeap.v ===== *)
(** The heap as its clients see it: an interface of two operations with their
    laws, and the proof that the block-list allocator of Heap.v satisfies it.

    The file systems are proved against the interface only. *)
From stdpp Require Import prelude gmap list.
From Stdlib Require Import ZArith Lia.
From S2P Require Import Prelude Bitmap Pmm Frames Vmm Heap HeapSpec.

Open Scope Z_scope.

Class KernelHeap (H : Type) := {
  kh_alloc : H -> Z -> option (H * Z);
  kh_free : H -> Z -> option H }.

(** [kh_live h L]: the areas of [h] in use are the pointers of [L], with their
    usable sizes.  [kh_room h k]: the heap may still grow by [k] pages below the
    end of the address space; a request of [n] bytes costs at most [kh_cost n]. *)
Class KernelHeapLaws (H : Type) `{KernelHeap H} := {
  kh_live : H -> gmap Z Z -> Prop;
  kh_room : H -> Z -> Prop;
  kh_cost : Z -> Z;
  kh_room_mono h k k' : kh_room h k -> k' <= k -> kh_room h k';
  kh_cost_pos n : 0 < n <= 2 ^ 63 -> 0 <= kh_cost n;
  kh_alloc_law h L n k :
    kh_live h L -> 0 < n <= 2 ^ 63 -> 0 <= k -> kh_room h (kh_cost n + k) ->
    exists h' p, kh_alloc h n = Some (h', p) /\ kh_room h' k /\
      ((p = 0 /\ kh_live h' L) \/
       (0 < p /\ L !! p = None /\ exists m, n <= m /\ kh_live h' (<[p := m]> L)));
  kh_free_law h L p m k :
    kh_live h L -> L !! p = Some m -> kh_room h k ->
    exists h', kh_free h p = Some h' /\ kh_live h' (delete p L) /\ kh_room h' k;
  kh_free_null h : kh_free h 0 = Some h }.

Section instance.
Context {S : Type} `{FrameStore S}.
Implicit Types (h : heap S) (L : gmap Z Z).

#[export] Instance list_heap : KernelHeap (heap S) := {| kh_alloc := kmalloc; kh_free := kfree |}.

Definition list_live h L : Prop :=
  exists l, heap_repr h l /\ forall p m, L !! p = Some m <-> (p - HEADER_SIZE, m) ∈ live l.

Lemma kfree_end h p h' : kfree h p = Some h' -> heap_virt_end h' = heap_virt_end h.
Proof. unfold kfree. intros E. repeat case_match; simplify_eq; done. Qed.

Lemma live_det h l a m m' : heap_repr h l -> (a, m) ∈ live l -> (a, m') ∈ live l -> m = m'.
Proof.
  intros R H1%elem_of_live H2%elem_of_live. destruct (decide (m = m')) as [|Hne]; [done|].
  destruct (layout_disjoint _ _ _ _ _ (rp_layout _ _ R) H1 H2) as [D|D]; [congruence|..];
    destruct (layout_addr _ _ _ _ (rp_layout _ _ R) H1) as (_ & ? & _);
    destruct (layout_addr _ _ _ _ (rp_layout _ _ R) H2) as (_ & ? & _); unfold a_end, HEADER_SIZE in D; simpl in *; lia.
Qed.

Lemma list_alloc_law h L n k :
  list_live h L -> 0 < n <= 2 ^ 63 -> 0 <= k -> heap_virt_end h + (grow_pages (align16 n) + k) * 4096 < 2 ^ 64 ->
  exists h' p, kmalloc h n = Some (h', p) /\ heap_virt_end h' + k * 4096 < 2 ^ 64 /\
    ((p = 0 /\ list_live h' L) \/
     (0 < p /\ L !! p = None /\ exists m, n <= m /\ list_live h' (<[p := m]> L))).
Proof.
  intros (l & R & Hl) Hn Hk Hr. destruct (align16_spec n Hn) as (Ha & _).
  destruct (kmalloc_cases h l n R Hn) as (h' & p & E & (Eb & Ee) & C); [lia|]. exists h', p. split; [done|]. split; [lia|].
  destruct C as [(-> & R' & _)|(l0 & l' & R' & F & Hlay & El)]; [left; split; [done|]; by exists l|right].
  destruct (fit_live _ _ _ _ F) as (m & Hm & P). rewrite El in P.
  assert (Hin : ABlock (p - HEADER_SIZE) m false ∈ l') by (apply elem_of_live; rewrite P; by left).
  destruct (layout_addr _ _ _ _ (rp_layout h' l' R') Hin) as (B1 & _). pose proof (rp_base _ _ R') as Hb.
  unfold HEADER_SIZE in B1; simpl in B1. split; [lia|].
  assert (HN : forall m', (p - HEADER_SIZE, m') ∉ live l).
  { intros m' Hin'. pose proof (live_NoDup _ _ _ (rp_layout h' l' R')) as Nl. rewrite P in Nl.
    apply NoDup_cons in Nl as [Hni _]. apply Hni.
    rewrite (live_det h' l' (p - HEADER_SIZE) m m' R'); [done|rewrite P; by left|rewrite P; by right]. }
  split.
  - destruct (L !! p) as [m'|] eqn:Ep; [|done]. apply Hl in Ep. by apply HN in Ep.
  - exists m. split; [lia|]. exists l'. split; [done|]. intros q m'. rewrite P, elem_of_cons.
    destruct (decide (q = p)) as [->|Hne].
    + rewrite lookup_insert_eq. split; [intros [= ->]; by left|]. intros [[= ->]|Hin']; [done|]. by apply HN in Hin'.
    + rewrite lookup_insert_ne by done. rewrite Hl. split; [by right|]. intros [[= ? _]|?]; [lia|done].
Qed.

Lemma list_free_law h L p m k :
  list_live h L -> L !! p = Some m -> heap_virt_end h + k * 4096 < 2 ^ 64 ->
  exists h', kfree h p = Some h' /\ list_live h' (delete p L) /\ heap_virt_end h' + k * 4096 < 2 ^ 64.
Proof.
  intros (l & R & Hl) Hp Hr. pose proof (proj1 (Hl p m) Hp) as Hin.
  destruct (kfree_live h l p m R Hin) as (h' & E & R' & P). exists h'. split; [done|].
  split; [|by rewrite (kfree_end h p h' E)]. eexists. split; [exact R'|]. intros q m'.
  pose proof (live_NoDup _ _ _ (rp_layout h l R)) as Nl. rewrite P in Nl. apply NoDup_cons in Nl as [Hni _].
  destruct (decide (q = p)) as [->|Hne].
  - rewrite lookup_delete_eq. split; [done|]. intros Hin'. exfalso. apply Hni.
    rewrite (live_det h l (p - HEADER_SIZE) m m' R); [done|done|rewrite P; by right].
  - rewrite lookup_delete_ne by done. rewrite Hl, P, elem_of_cons. split; [|by right].
    intros [[= ? _]|?]; [lia|done].
Qed.

#[export] Program Instance list_heap_laws : KernelHeapLaws (heap S) := {|
  kh_live := list_live;
  kh_room h k := heap_virt_end h + k * 4096 < 2 ^ 64;
  kh_cost n := grow_pages (align16 n);
  kh_alloc_law := list_alloc_law;
  kh_free_law := list_free_law |}.
Next Obligation. intros h k k' Hk Hle. simpl in *. lia. Qed.
Next Obligation.
  intros n Hn. destruct (align16_spec n Hn) as (Ha & _). destruct (grow_pages_spec (align16 n)) as (? & _); lia.
Qed.
Next Obligation. done. Qed.

End instance.

(** A heap that never runs out, for the examples. *)
#[export] Instance bump_heap : KernelHeap Z := {| kh_alloc h n := Some (h + n, h); kh_free h p := Some h |}.

#[export] Program Instance bump_heap_laws : KernelHeapLaws Z := {|
  kh_live h L := 0 < h /\ forall p m, L !! p = Some m -> p < h;
  kh_room h k := True;
  kh_cost n := 0 |}.
Next Obligation. done. Qed.
Next Obligation. done. Qed.
Next Obligation.
  intros h L n k [H0 HL] Hn _ _. exists (h + n), h. split; [done|]. split; [done|]. right. split; [done|]. split.
  - destruct (L !! h) as [m|] eqn:E; [apply HL in E; lia|done].
  - exists n. split; [done|]. split; [simpl; lia|]. intros p m E. apply lookup_insert_Some in E as [[<- _]|[_ E]]; [lia|]. apply HL in E. lia.
Qed.
Next Obligation.
  intros h L p m k [H0 HL] Hp _. exists h. split; [done|]. split; [|done]. split; [done|]. intros q m' E.
  apply lookup_delete_Some in E as [_ E]. by apply (HL q m').
Qed.
Next Obligation. done. Qed.
