(* ===== verification/Vfs.v ===== *)
(** The virtual file system router, kernel/src/fs/vfs.c and vfs.h.

    A file system is an instance of [FileSystem]: its state, a map from node
    addresses to nodes, and the table of operations that a node's [ops] field
    names.  An operation missing from a table is [None], a NULL function pointer.
    Strings are the bytes before the NUL; a result [None] is undefined behaviour
    (a NULL or dangling node, a 128-byte buffer overrun, a mount cycle at the
    root that is followed for ever). *)
From stdpp Require Import prelude gmap list.
From Stdlib Require Import ZArith Lia.
From S2P Require Import Prelude.

Open Scope Z_scope.

Definition FS_FILE : Z := Z.shiftl 1 0.
Definition FS_DIRECTORY : Z := Z.shiftl 1 1.
Definition FS_CHARDEVICE : Z := Z.shiftl 1 2.
Definition FS_BLOCKDEVICE : Z := Z.shiftl 1 3.
Definition FS_MOUNTPOINT : Z := Z.shiftl 1 6.

Definition FS_PERM_R : Z := 0x100.
Definition FS_PERM_W : Z := 0x80.
Definition FS_PERM_X : Z := 0x40.

Definition SLASH : Z := 47.

Record dirent := Dirent { d_name : list Z; d_ino : Z; d_type : Z }.

Record vfs_node (Ops : Type) := VfsNode {
  n_name : list Z;
  n_mask : Z;
  n_uid : Z;
  n_gid : Z;
  n_flags : Z;
  n_inode : Z;
  n_length : Z;
  n_impl : Z;
  n_ops : option Ops;
  n_ptr : Z;
  n_device : Z }.

Arguments VfsNode {Ops}.
Arguments n_name {Ops}.
Arguments n_mask {Ops}.
Arguments n_uid {Ops}.
Arguments n_gid {Ops}.
Arguments n_flags {Ops}.
Arguments n_inode {Ops}.
Arguments n_length {Ops}.
Arguments n_impl {Ops}.
Arguments n_ops {Ops}.
Arguments n_ptr {Ops}.
Arguments n_device {Ops}.

(** The node states a set of operations works on, and the operation tables.  A
    read returns the number of bytes and the bytes stored in the caller's
    buffer; [finddir], [mkdir] and [create] return a node address, 0 for NULL. *)
Class FileSystem (St Ops : Type) := {
  fs_nodes : St -> gmap Z (vfs_node Ops);
  fs_set_nodes : St -> gmap Z (vfs_node Ops) -> St;
  op_read : Ops -> option (St -> Z -> Z -> Z -> option (St * Z * list Z));
  op_write : Ops -> option (St -> Z -> Z -> Z -> list Z -> option (St * Z));
  op_open : Ops -> option (St -> Z -> option St);
  op_close : Ops -> option (St -> Z -> option St);
  op_readdir : Ops -> option (St -> Z -> Z -> option (St * option dirent));
  op_finddir : Ops -> option (St -> Z -> list Z -> option (St * Z));
  op_mkdir : Ops -> option (St -> Z -> list Z -> option (St * Z));
  op_create : Ops -> option (St -> Z -> list Z -> option (St * Z)) }.

Section vfs.
Context {St Ops : Type} `{FS : FileSystem St Ops}.
Implicit Types (st : St) (node : Z).

(** [node->ops && node->ops->f]. *)
Definition node_op {F : Type} (sel : Ops -> option F) (n : vfs_node Ops) : option F :=
  match n_ops n with Some o => sel o | None => None end.

Definition vfs_read st node (offset size : Z) : option (St * Z * list Z) :=
  if node =? 0 then Some (st, 0, [])
  else
    n ← fs_nodes st !! node;
    match node_op op_read n with Some f => f st node offset size | None => Some (st, 0, []) end.

Definition vfs_write st node (offset size : Z) (buffer : list Z) : option (St * Z) :=
  if node =? 0 then Some (st, 0)
  else
    n ← fs_nodes st !! node;
    match node_op op_write n with Some f => f st node offset size buffer | None => Some (st, 0) end.

Definition vfs_open st node : option St :=
  if node =? 0 then Some st
  else
    n ← fs_nodes st !! node;
    match node_op op_open n with Some f => f st node | None => Some st end.

Definition vfs_close st node : option St :=
  if node =? 0 then Some st
  else
    n ← fs_nodes st !! node;
    match node_op op_close n with Some f => f st node | None => Some st end.

Definition vfs_readdir st node (index : Z) : option (St * option dirent) :=
  n ← fs_nodes st !! node;
  if Z.land (n_flags n) FS_DIRECTORY =? FS_DIRECTORY then
    match node_op op_readdir n with Some f => f st node index | None => Some (st, None) end
  else Some (st, None).

(** [(n->flags & FS_MOUNTPOINT) && n->ptr]. *)
Definition mounted (n : vfs_node Ops) : bool := has_flag (n_flags n) FS_MOUNTPOINT && nonzero (n_ptr n).

Definition vfs_finddir st node (name : list Z) : option (St * Z) :=
  if node =? 0 then Some (st, 0)
  else
    n0 ← fs_nodes st !! node;
    let node1 := if mounted n0 then n_ptr n0 else node in
    n ← fs_nodes st !! node1;
    if has_flag (n_flags n) FS_DIRECTORY then
      match node_op op_finddir n with
      | None => Some (st, 0)
      | Some f =>
          '(st', child) ← f st node1 name;
          if child =? 0 then Some (st', 0)
          else
            c ← fs_nodes st' !! child;
            Some (st', if mounted c then n_ptr c else child)
      end
    else Some (st, 0).

(** ** Path resolution *)

Fixpoint skip_slashes (path : list Z) : list Z :=
  match path with c :: p => if c =? SLASH then skip_slashes p else path | [] => [] end.

(** The component in [buffer[128]], at most 127 characters of it, and where the
    scan stops. *)
Fixpoint take_component (path buffer : list Z) : list Z * list Z :=
  match path with
  | [] => (buffer, [])
  | c :: p =>
      if c =? SLASH then (buffer, path)
      else take_component p (if (length buffer <? 127)%nat then buffer ++ [c] else buffer)
  end.

(** Each call consumes a component: the length of the path is enough fuel. *)
Fixpoint vfs_resolve_recursive st (current : Z) (path : list Z) (fuel : nat) : option (St * Z) :=
  match fuel with
  | O => None
  | Datatypes.S fuel =>
      match path with
      | [] => Some (st, current)
      | _ =>
          match skip_slashes path with
          | [] => Some (st, current)
          | p =>
              let '(buffer, next_path) := take_component p [] in
              '(st', next_node) ← vfs_finddir st current buffer;
              if next_node =? 0 then Some (st', 0)
              else vfs_resolve_recursive st' next_node next_path fuel
          end
      end
  end.

(** The mount points stacked on the root. *)
Fixpoint top_mount st node (fuel : nat) : option Z :=
  match fuel with
  | O => None
  | Datatypes.S fuel =>
      if node =? 0 then Some 0
      else
        n ← fs_nodes st !! node;
        if mounted n then top_mount st (n_ptr n) fuel else Some node
  end.

Definition root_fuel st : nat := Datatypes.S (map_size (fs_nodes st)).

Definition vfs_resolve_path (vfs_root : Z) st (path : option (list Z)) : option (St * Z) :=
  match path with
  | Some (c :: p) =>
      if c =? SLASH then
        node ← top_mount st vfs_root (root_fuel st);
        vfs_resolve_recursive st node p (Datatypes.S (length p))
      else Some (st, 0)
  | _ => Some (st, 0)
  end.

(** [strrchr(path, '/') - path]. *)
Fixpoint last_slash (path : list Z) (i last : Z) : Z :=
  match path with
  | [] => last
  | c :: p => last_slash p (i + 1) (if c =? SLASH then i else last)
  end.

(** The two 128-byte buffers of [vfs_mkdir] and [vfs_create]: the parent path
    and the last component. *)
Definition split_path (path : list Z) : option (list Z * list Z) :=
  let parent_len := last_slash path 0 0 in
  let name := drop (Z.to_nat (parent_len + 1)) path in
  if (127 <? parent_len) || (127 <? alen name) then None
  else Some (if parent_len =? 0 then [SLASH] else take (Z.to_nat parent_len) path, name).

Definition vfs_mkdir (vfs_root : Z) st (path : option (list Z)) : option (St * Z) :=
  match path with
  | Some ((c :: _) as p) =>
      if c =? SLASH then
        '(parent_path, dir_name) ← split_path p;
        '(st', parent) ← vfs_resolve_path vfs_root st (Some parent_path);
        if parent =? 0 then Some (st', -1)
        else
          n ← fs_nodes st' !! parent;
          match node_op op_mkdir n with
          | Some f => '(st'', new_node) ← f st' parent dir_name; Some (st'', if new_node =? 0 then -1 else 0)
          | None => Some (st', -1)
          end
      else Some (st, -1)
  | _ => Some (st, -1)
  end.

Definition vfs_create (vfs_root : Z) st (path : option (list Z)) : option (St * Z) :=
  match path with
  | Some ((c :: _) as p) =>
      if c =? SLASH then
        '(parent_path, file_name) ← split_path p;
        '(st', parent) ← vfs_resolve_path vfs_root st (Some parent_path);
        if parent =? 0 then Some (st', 0)
        else
          n ← fs_nodes st' !! parent;
          match node_op op_create n with
          | Some f => f st' parent file_name
          | None => Some (st', 0)
          end
      else Some (st, 0)
  | _ => Some (st, 0)
  end.

Definition set_mount (n : vfs_node Ops) (p : Z) : vfs_node Ops :=
  VfsNode (n_name n) (n_mask n) (n_uid n) (n_gid n) (Z.lor (n_flags n) FS_MOUNTPOINT) (n_inode n) (n_length n)
    (n_impl n) (n_ops n) p (n_device n).

Definition vfs_mount (vfs_root : Z) st (path : option (list Z)) (local_root : Z) : option (St * Z) :=
  '(st', node) ← vfs_resolve_path vfs_root st path;
  if node =? 0 then Some (st', -1)
  else
    n ← fs_nodes st' !! node;
    Some (fs_set_nodes st' (<[node := set_mount n local_root]> (fs_nodes st')), 0).

(** ** Reference: a path is the list of its components *)

Definition flush (cur : list Z) (r : list (list Z)) : list (list Z) := match cur with [] => r | _ => cur :: r end.

(** The non-empty pieces between slashes. *)
Fixpoint components (cur path : list Z) : list (list Z) :=
  match path with
  | [] => flush cur []
  | c :: p => if c =? SLASH then flush cur (components [] p) else components (cur ++ [c]) p
  end.

(** Looking the components up one after the other, names cut to 127 bytes. *)
Fixpoint walk st (current : Z) (cs : list (list Z)) : option (St * Z) :=
  match cs with
  | [] => Some (st, current)
  | c :: cs =>
      '(st', r) ← vfs_finddir st current (take 127 c);
      if r =? 0 then Some (st', 0) else walk st' r cs
  end.

Lemma skip_slashes_components p : components [] (skip_slashes p) = components [] p.
Proof. induction p as [|c p IH]; [done|]. cbn [skip_slashes components]. case_bool; [by rewrite IH|]. cbn [components]. by case_bool. Qed.

Lemma skip_slashes_head p c q : skip_slashes p = c :: q -> c <> SLASH /\ (length q < length p)%nat.
Proof.
  induction p as [|d p IH]; [done|]. cbn [skip_slashes]. case_bool; [intros E; destruct (IH E); simpl; split; [done|lia]|].
  intros [= -> ->]. simpl. split; [done|lia].
Qed.

(** The scan splits off the next component. *)
Lemma take_component_spec p : forall cur,
  exists next, take_component p (take 127 cur) = (take 127 (cur ++ take (length p - length next) p), next) /\
    components cur p = flush (cur ++ take (length p - length next) p) (components [] next) /\
    (length next <= length p)%nat.
Proof.
  induction p as [|c p IH]; intros cur; cbn [take_component components].
  - exists []. cbn [length take Nat.sub]. rewrite app_nil_r. done.
  - destruct (Z.eqb_spec c SLASH) as [->|Hne].
    + exists (SLASH :: p). rewrite Nat.sub_diag. simpl take. rewrite app_nil_r. split_and!; [done| |done].
      cbn [components]. rewrite Z.eqb_refl. done.
    + destruct (IH (cur ++ [c])) as (next & E1 & E2 & Hl). exists next.
      replace (length (c :: p) - length next)%nat with (Datatypes.S (length p - length next))%nat by (simpl; lia).
      rewrite firstn_cons. rewrite <- app_assoc in E1, E2. cbn [app] in E1, E2. split_and!; [|done|simpl; lia].
      replace (if (length (take 127 cur) <? 127)%nat then take 127 cur ++ [c] else take 127 cur) with (take 127 (cur ++ [c]));
        [done|]. rewrite length_take. destruct (Nat.ltb_spec (127 `min` length cur) 127).
      * rewrite !take_ge; [done|lia|rewrite length_app; simpl; lia].
      * by rewrite take_app_le by lia.
Qed.

Lemma resolve_walk fuel : forall st cur p, (length p < fuel)%nat ->
  vfs_resolve_recursive st cur p fuel = walk st cur (components [] p).
Proof.
  induction fuel as [|fuel IH]; intros st cur p Hf; [lia|]. cbn [vfs_resolve_recursive].
  destruct p as [|c0 p0] eqn:Ep; [done|]. rewrite <- Ep in *. rewrite <- skip_slashes_components.
  destruct (skip_slashes p) as [|c q] eqn:Es; [done|]. destruct (skip_slashes_head p c q Es) as [Hc Hq].
  destruct (take_component_spec (c :: q) []) as (next & E & E2 & _). cbn [app take] in E. rewrite E.
  set (w := take (length (c :: q) - length next) (c :: q)) in *. cbn [app] in *. rewrite E2.
  assert (Hnext : (length next <= length q)%nat).
  { clear -E Hc. cbn [take_component] in E. rewrite (proj2 (Z.eqb_neq c SLASH) Hc) in E. simpl length in E at 1. cbn [Nat.ltb Nat.leb app] in E.
    destruct (take_component_spec q [c]) as (n' & E' & _ & Hl). simpl take in E' at 1. rewrite E' in E. by simplify_eq. }
  assert (w <> []) as Hw.
  { unfold w. cbn [length]. replace (Datatypes.S (length q) - length next)%nat with (Datatypes.S (length q - length next)) by lia. done. }
  destruct w as [|x w]; [done|]. cbn [flush walk].
  destruct (vfs_finddir st cur (take 127 (x :: w))) as [[st' r]|]; [|done]. cbn [mbind option_bind].
  case_bool; [done|]. apply IH. lia.
Qed.

(** An absolute path, and whatever else is passed: NULL, the empty string, a
    relative path. *)
Lemma resolve_path_walk (vfs_root : Z) st (p : list Z) :
  vfs_resolve_path vfs_root st (Some (SLASH :: p)) =
    (node ← top_mount st vfs_root (root_fuel st); walk st node (components [] p)).
Proof.
  cbn [vfs_resolve_path]. rewrite Z.eqb_refl. destruct (top_mount _ _ _) as [node|]; [|done].
  cbn [mbind option_bind]. apply resolve_walk. lia.
Qed.

Definition absolute (path : option (list Z)) : option (list Z) :=
  match path with Some (c :: p) => if c =? SLASH then Some p else None | _ => None end.

(** The file system on top of the mounts stacked on a node. *)
Inductive top_of st : Z -> Z -> Prop :=
  | top_null : top_of st 0 0
  | top_here node n : node <> 0 -> fs_nodes st !! node = Some n -> mounted n = false -> top_of st node node
  | top_over node n top : node <> 0 -> fs_nodes st !! node = Some n -> mounted n = true ->
      top_of st (n_ptr n) top -> top_of st node top.

Lemma top_mount_mono st f : forall f' node top, top_mount st node f = Some top -> (f <= f')%nat -> top_mount st node f' = Some top.
Proof.
  induction f as [|f IH]; intros [|f'] node top E Hf; try lia; [done..|]. cbn [top_mount] in *.
  destruct (node =? 0); [done|]. destruct (fs_nodes st !! node) as [n|]; [|done]. cbn [mbind option_bind] in *.
  destruct (mounted n); [|done]. apply IH; [done|lia].
Qed.

(** No node of the stack comes twice, so it is no longer than the map of nodes. *)
Lemma top_of_chain st node top : top_of st node top ->
  exists l, NoDup l /\ list_to_set l ⊆ dom (fs_nodes st) /\
    top_mount st node (length l) = None /\ top_mount st node (Datatypes.S (length l)) = Some top /\
    forall x, x ∈ l -> exists t, top_mount st x (Datatypes.S (length l)) = Some t.
Proof.
  induction 1 as [|node n Hz En Em|node n top Hz En Em _ (l & Hnd & Hsub & Hno & Hyes & Hall)].
  - exists []. split_and!; [constructor|set_solver|done|done|]. intros x Hx. by apply elem_of_nil in Hx.
  - exists []. split_and!; [constructor|set_solver|done| |].
    + cbn [top_mount length]. rewrite (proj2 (Z.eqb_neq node 0) Hz), En. cbn [mbind option_bind]. by rewrite Em.
    + intros x Hx. by apply elem_of_nil in Hx.
  - assert (Hstep : forall f, top_mount st node (Datatypes.S f) = top_mount st (n_ptr n) f).
    { intros f. cbn [top_mount]. by rewrite (proj2 (Z.eqb_neq node 0) Hz), En; cbn [mbind option_bind]; rewrite Em. }
    assert (Hin : node ∉ l).
    { intros Hin. destruct (Hall node Hin) as (t & Et). rewrite Hstep, Hno in Et. done. }
    exists (node :: l). cbn [length]. split_and!.
    + by constructor.
    + cbn [list_to_set]. apply elem_of_dom_2 in En. set_solver.
    + by rewrite Hstep.
    + by rewrite Hstep.
    + intros x Hx. apply elem_of_cons in Hx as [->|Hx]; [exists top; by rewrite Hstep|].
      destruct (Hall x Hx) as (t & Et). exists t. by eapply top_mount_mono; [exact Et|lia].
Qed.

Lemma top_of_fuel st node top : top_of st node top -> top_mount st node (root_fuel st) = Some top.
Proof.
  intros Ht. destruct (top_of_chain st node top Ht) as (l & Hnd & Hsub & _ & E & _).
  eapply top_mount_mono; [exact E|]. unfold root_fuel. apply le_n_S. change (map_size (fs_nodes st)) with (size (fs_nodes st)). rewrite <- (size_dom (D := gset Z)).
  rewrite <- (size_list_to_set (C := gset Z) l Hnd). by apply subseteq_size.
Qed.

(** Every lookup in a valid node answers, with NULL or with a valid node. *)
Definition lookups_answer (valid : St -> Z -> Prop) : Prop :=
  forall st node name, valid st node ->
    exists st' r, vfs_finddir st node name = Some (st', r) /\ (r = 0 \/ valid st' r).

Lemma walk_answers (valid : St -> Z -> Prop) cs : lookups_answer valid -> forall st node, node = 0 \/ valid st node ->
  exists st' r, walk st node cs = Some (st', r) /\ (r = 0 \/ valid st' r).
Proof.
  intros HA. induction cs as [|c cs IH]; intros st node Hv; cbn [walk]; [by exists st, node|].
  destruct Hv as [->|Hv]; [exists st, 0; by split; [|left]|].
  destruct (HA st node (take 127 c) Hv) as (st' & r & -> & Hr). cbn [mbind option_bind].
  destruct (Z.eqb_spec r 0) as [->|Hne]; [exists st', 0; by split; [|left]|]. by apply IH.
Qed.

(** C27.  Resolving a path, when the mounts stacked on the root end in a file
    system [top] and every lookup in a valid directory answers.  Whatever the
    path, [vfs_resolve_path] returns: for an absolute path the node reached from
    [top] by looking up its non-empty components one after the other, NULL as
    soon as one is not found (repeated and trailing slashes do not count, a
    component is cut to its first 127 bytes); for NULL, the empty string and a
    relative path NULL, with nothing changed. *)
Theorem vfs_resolve_correct (valid : St -> Z -> Prop) (vfs_root top : Z) st (path : option (list Z)) :
  lookups_answer valid -> top_of st vfs_root top -> top = 0 \/ valid st top ->
  exists st' r, vfs_resolve_path vfs_root st path = Some (st', r) /\ (r = 0 \/ valid st' r) /\
    match absolute path with
    | Some p => walk st top (components [] p) = Some (st', r)
    | None => st' = st /\ r = 0
    end.
Proof.
  intros HA Ht Hv. assert (Hno : absolute path = None -> vfs_resolve_path vfs_root st path = Some (st, 0)).
  { destruct path as [[|c p]|]; [done| |done]. cbn [absolute vfs_resolve_path]. by destruct (c =? SLASH). }
  destruct (absolute path) as [p|] eqn:Ep; [|exists st, 0; split; [by apply Hno|by split; [left|]]].
  assert (path = Some (SLASH :: p)) as ->.
  { destruct path as [[|c q]|]; [done| |done]. cbn [absolute] in Ep. destruct (Z.eqb_spec c SLASH) as [->|]; [by injection Ep as ->|done]. }
  destruct (walk_answers valid (components [] p) HA st top Hv) as (st' & r & E & Hr).
  exists st', r. split; [|by split]. by rewrite resolve_path_walk, (top_of_fuel st vfs_root top Ht).
Qed.

Lemma walk_app cs1 : forall st cur cs2, cur <> 0 ->
  walk st cur (cs1 ++ cs2) = '(st', r) ← walk st cur cs1; if r =? 0 then Some (st', 0) else walk st' r cs2.
Proof.
  induction cs1 as [|c cs1 IH]; intros st cur cs2 Hc; cbn [app walk].
  - cbn [mbind option_bind]. by rewrite (proj2 (Z.eqb_neq cur 0) Hc).
  - destruct (vfs_finddir st cur (take 127 c)) as [[st' r]|]; [|done]. cbn [mbind option_bind].
    destruct (Z.eqb_spec r 0) as [->|Hne]; [done|]. by apply IH.
Qed.

Lemma components_app p q : forall cur, components cur (p ++ SLASH :: q) = components cur p ++ components [] q.
Proof.
  induction p as [|c p IH]; intros cur; cbn [app components].
  - rewrite Z.eqb_refl. by destruct cur.
  - case_bool; [|apply IH]. rewrite IH. by destruct cur.
Qed.

End vfs.
