(* ===== verification/Ramfs.v ===== *)
(** The RAM file system, kernel/src/fs/ramfs.c, over the heap interface of
    KHeap.v, as an instance of the [FileSystem] of Vfs.v.

    Nodes, their private records and the file buffers are three maps from the
    addresses that [kmalloc] returned; an access to an address that is not in
    its map, or past the end of a buffer, is [None].

    The RAM file system keeps its invariant, a file is a byte sequence that
    [ramfs_write] and [ramfs_read] update and slice, and a created entry is
    found again. *)
From stdpp Require Import prelude gmap list sets.
From Stdlib Require Import ZArith Lia.
From S2P Require Import Prelude KHeap Vfs.

Open Scope Z_scope.

Definition RAMFS_MAX_CHILDREN : Z := 64.

Record ramfs_internal := RamfsInternal {
  data : Z;
  capacity : Z;
  children : list Z;
  child_count : Z }.

(** [memset(priv, 0, sizeof(ramfs_internal_t))]. *)
Definition priv_zero : ramfs_internal := RamfsInternal 0 0 (replicate 64 0) 0.

Definition sizeof_vfs_node : Z := 192.
Definition sizeof_ramfs_internal : Z := 536.

(** The one table of operations. *)
Inductive ramfs_table := ramfs_ops.

Notation ramfs_node := (vfs_node ramfs_table).

(** [data[offset..] := bytes], in place. *)
Definition splice (d : list Z) (offset : Z) (bytes : list Z) : list Z :=
  take (Z.to_nat offset) d ++ bytes ++ drop (Z.to_nat offset + length bytes) d.

Section ramfs.
Context {H : Type} `{KernelHeap H}.

Record ramfs := Ramfs {
  rf_nodes : gmap Z ramfs_node;
  rf_priv : gmap Z ramfs_internal;
  rf_data : gmap Z (list Z);
  rf_heap : H }.

Definition set_rf_nodes (s : ramfs) (m : gmap Z ramfs_node) : ramfs := Ramfs m (rf_priv s) (rf_data s) (rf_heap s).
Definition set_rf_priv (s : ramfs) (m : gmap Z ramfs_internal) : ramfs := Ramfs (rf_nodes s) m (rf_data s) (rf_heap s).
Definition set_rf_data (s : ramfs) (m : gmap Z (list Z)) : ramfs := Ramfs (rf_nodes s) (rf_priv s) m (rf_heap s).
Definition set_rf_heap (s : ramfs) (h : H) : ramfs := Ramfs (rf_nodes s) (rf_priv s) (rf_data s) h.

(** [memcpy(buffer, priv->data + offset, size)]. *)
Definition load_bytes (s : ramfs) (d offset size : Z) : option (list Z) :=
  bs ← rf_data s !! d;
  if offset + size <=? alen bs then Some (take (Z.to_nat size) (drop (Z.to_nat offset) bs)) else None.

(** [memcpy(priv->data + offset, buffer, size)]. *)
Definition store_bytes (s : ramfs) (d offset : Z) (bytes : list Z) : option ramfs :=
  match bytes with
  | [] => Some s
  | _ =>
      bs ← rf_data s !! d;
      if offset + alen bytes <=? alen bs then Some (set_rf_data s (<[d := splice bs offset bytes]> (rf_data s)))
      else None
  end.

Definition ramfs_read (s : ramfs) (node offset size : Z) : option (ramfs * Z * list Z) :=
  n ← rf_nodes s !! node;
  if negb (Z.land (n_flags n) FS_FILE =? FS_FILE) then Some (s, 0, [])
  else if n_impl n =? 0 then Some (s, 0, [])
  else
    priv ← rf_priv s !! n_impl n;
    if data priv =? 0 then Some (s, 0, [])
    else if n_length n <=? offset then Some (s, 0, [])
    else
      let readable := n_length n - offset in
      let size := if readable <? size then readable else size in
      bytes ← load_bytes s (data priv) offset size;
      Some (s, size, bytes).

Definition set_length (n : ramfs_node) (l : Z) : ramfs_node :=
  VfsNode (n_name n) (n_mask n) (n_uid n) (n_gid n) (n_flags n) (n_inode n) l (n_impl n) (n_ops n) (n_ptr n) (n_device n).

(** The new buffer of [ramfs_write]: zeroed, with the old contents copied in and
    the old buffer freed; NULL when the allocation fails. *)
Definition ramfs_realloc (s : ramfs) (impl : Z) (priv : ramfs_internal) (length required : Z) : option (ramfs * bool) :=
  let new_cap := Z.land (u64 (required + 4096)) (2 ^ 64 - 4096) in
  '(h, new_data) ← kh_alloc (rf_heap s) new_cap;
  let s1 := set_rf_heap s h in
  if new_data =? 0 then Some (s1, false)
  else
    let s2 := set_rf_data s1 (<[new_data := replicate (Z.to_nat new_cap) 0]> (rf_data s1)) in
    s3 ← (if data priv =? 0 then Some s2
          else
            old ← load_bytes s2 (data priv) 0 length;
            s' ← store_bytes s2 new_data 0 old;
            h' ← kh_free (rf_heap s') (data priv);
            Some (set_rf_heap (set_rf_data s' (delete (data priv) (rf_data s'))) h'));
    Some (set_rf_priv s3 (<[impl := RamfsInternal new_data new_cap (children priv) (child_count priv)]> (rf_priv s3)), true).

Definition ramfs_write (s : ramfs) (node offset size : Z) (buffer : list Z) : option (ramfs * Z) :=
  if alen buffer <? size then None
  else
    n ← rf_nodes s !! node;
    if negb (Z.land (n_flags n) FS_FILE =? FS_FILE) then Some (s, 0)
    else if n_impl n =? 0 then Some (s, 0)
    else
      priv ← rf_priv s !! n_impl n;
      let required := u64 (offset + size) in
      '(s1, ok) ← (if capacity priv <? required then ramfs_realloc s (n_impl n) priv (n_length n) required
                   else Some (s, true));
      if negb ok then Some (s1, 0)
      else
        priv1 ← rf_priv s1 !! n_impl n;
        s2 ← store_bytes s1 (data priv1) offset (take (Z.to_nat size) buffer);
        Some (if n_length n <? required
              then set_rf_nodes s2 (<[node := set_length n required]> (rf_nodes s2)) else s2, size).

Definition ramfs_readdir (s : ramfs) (node index : Z) : option (ramfs * option dirent) :=
  n ← rf_nodes s !! node;
  if negb (Z.land (n_flags n) FS_DIRECTORY =? FS_DIRECTORY) then Some (s, None)
  else if n_impl n =? 0 then Some (s, None)
  else
    priv ← rf_priv s !! n_impl n;
    if u32 (child_count priv) <=? index then Some (s, None)
    else
      child ← children priv !! Z.to_nat index;
      if child =? 0 then Some (s, None)
      else
        c ← rf_nodes s !! child;
        Some (s, Some (Dirent (n_name c) (n_inode c) (n_flags c))).

(** The scan of the children for a name. *)
Fixpoint find_child (s : ramfs) (cs : list Z) (name : list Z) : option Z :=
  match cs with
  | [] => Some 0
  | c :: cs =>
      n ← rf_nodes s !! c;
      if decide (n_name n = name) then Some c else find_child s cs name
  end.

Definition ramfs_finddir (s : ramfs) (node : Z) (name : list Z) : option (ramfs * Z) :=
  n ← rf_nodes s !! node;
  if Z.land (n_flags n) FS_DIRECTORY =? 0 then Some (s, 0)
  else if n_impl n =? 0 then Some (s, 0)
  else
    priv ← rf_priv s !! n_impl n;
    r ← find_child s (take (Z.to_nat (child_count priv)) (children priv)) name;
    Some (s, r).

(** [kmalloc] of a node and of its private record, both cleared.  The results
    are not tested: clearing at NULL is a fault. *)
Definition new_node (s : ramfs) (name : list Z) (flags mask : Z) : option (ramfs * Z) :=
  '(h, node) ← kh_alloc (rf_heap s) sizeof_vfs_node;
  if node =? 0 then None
  else if 127 <? alen name then None
  else
    '(h', impl) ← kh_alloc h sizeof_ramfs_internal;
    if impl =? 0 then None
    else
      let n := VfsNode name mask 0 0 flags 0 0 impl (Some ramfs_ops) 0 0 in
      Some (Ramfs (<[node := n]> (rf_nodes s)) (<[impl := priv_zero]> (rf_priv s)) (rf_data s) h', node).

(** The body shared by [ramfs_create_dir] and [ramfs_create_file]. *)
Definition ramfs_add (s : ramfs) (parent : Z) (name : list Z) (flags : Z) : option (ramfs * Z) :=
  pn ← rf_nodes s !! parent;
  priv ← rf_priv s !! n_impl pn;
  if RAMFS_MAX_CHILDREN <=? child_count priv then Some (s, 0)
  else
    '(s1, node) ← new_node s name flags (n_mask pn);
    priv1 ← rf_priv s1 !! n_impl pn;
    Some (set_rf_priv s1 (<[n_impl pn := RamfsInternal (data priv1) (capacity priv1)
      (aset (children priv1) (child_count priv1) node) (child_count priv1 + 1)]> (rf_priv s1)), node).

Definition ramfs_create_dir (s : ramfs) (parent : Z) (name : list Z) : option (ramfs * Z) :=
  ramfs_add s parent name FS_DIRECTORY.

Definition ramfs_create_file (s : ramfs) (parent : Z) (name : list Z) : option (ramfs * Z) :=
  ramfs_add s parent name FS_FILE.

#[export] Instance ramfs_fs : FileSystem ramfs ramfs_table := {|
  fs_nodes := rf_nodes;
  fs_set_nodes := set_rf_nodes;
  op_read _ := Some ramfs_read;
  op_write _ := Some ramfs_write;
  op_open _ := None;
  op_close _ := None;
  op_readdir _ := Some ramfs_readdir;
  op_finddir _ := Some ramfs_finddir;
  op_mkdir _ := Some ramfs_create_dir;
  op_create _ := Some ramfs_create_file |}.

(** "dev", "tmp" and "mnt". *)
Definition root_dirs : list (list Z) := [[100; 101; 118]; [116; 109; 112]; [109; 110; 116]].

Definition ramfs_init (s : ramfs) : option (ramfs * Z) :=
  '(s1, root) ← new_node s [SLASH] FS_DIRECTORY (Z.lor (Z.lor FS_PERM_R FS_PERM_W) FS_PERM_X);
  s2 ← foldl (fun o d => s ← o; '(s', _) ← ramfs_create_dir s root d; Some s') (Some s1) root_dirs;
  Some (s2, root).

End ramfs.

Arguments ramfs : clear implicits.

(** ** Theorems *)

(** ** Byte sequences *)

(** The contents after a write: a gap past the old end reads as zeros. *)
Definition write_content (c : list Z) (offset : Z) (bytes : list Z) : list Z :=
  splice (c ++ replicate (Z.to_nat (offset - alen c)) 0) offset bytes.

Lemma alen_app {A} (l1 l2 : list A) : alen (l1 ++ l2) = alen l1 + alen l2.
Proof. unfold alen. rewrite length_app. lia. Qed.

Lemma alen_replicate {A} n (x : A) : alen (replicate n x) = Z.of_nat n.
Proof. unfold alen. by rewrite length_replicate. Qed.

Lemma alen_splice d o bs : 0 <= o -> o + alen bs <= alen d -> alen (splice d o bs) = alen d.
Proof. unfold splice, alen. intros. rewrite !length_app, length_take, length_drop. lia. Qed.

Lemma alen_write_content c o bs : 0 <= o -> alen (write_content c o bs) = Z.max (alen c) (o + alen bs).
Proof.
  unfold write_content, splice, alen. intros. rewrite !length_app, length_take, length_drop, !length_app, length_replicate. lia.
Qed.

(** Writing into the zero-padded buffer is writing into the contents. *)
Lemma splice_padded c z o bs : 0 <= o -> o + alen bs <= alen c + Z.of_nat z ->
  exists z', splice (c ++ replicate z 0) o bs = write_content c o bs ++ replicate z' 0.
Proof.
  unfold write_content, splice, alen. intros Ho Hl.
  set (g := Z.to_nat (o - Z.of_nat (length c))).
  exists (z - g - (Z.to_nat o + length bs - (length c + g)))%nat.
  rewrite <- !app_assoc.
  replace (replicate z 0) with (replicate g 0 ++ replicate (z - g) 0) by (rewrite <- replicate_add; f_equal; lia).
  rewrite !app_assoc. rewrite (take_app_le _ (replicate (z - g) 0)) by (rewrite length_app, length_replicate; lia).
  rewrite (drop_app _ (replicate (z - g) 0)), drop_replicate, length_app, length_replicate. rewrite <- !app_assoc. done.
Qed.

(** Reading back. *)
Lemma write_content_slice c o bs : 0 <= o ->
  take (length bs) (drop (Z.to_nat o) (write_content c o bs)) = bs.
Proof.
  intros Ho. unfold write_content, splice. set (p := take (Z.to_nat o) _).
  assert (length p = Z.to_nat o) as Hp.
  { unfold p. rewrite length_take, length_app, length_replicate. unfold alen. lia. }
  rewrite <- Hp, drop_app_length. by rewrite take_app_length.
Qed.

Section ramfs.
Context {H : Type} `{KL : KernelHeapLaws H}.
Implicit Types (s : ramfs H) (L : gmap Z Z).

(** ** The invariant *)

(** The buffer of a node: none, or its length in bytes followed by zeros. *)
Definition buffer_ok s (n : ramfs_node) (pr : ramfs_internal) (c : list Z) : Prop :=
  n_length n = alen c /\
  ((data pr = 0 /\ capacity pr = 0 /\ c = []) \/
   (data pr <> 0 /\ exists z, rf_data s !! data pr = Some (c ++ replicate z 0) /\ capacity pr = alen c + Z.of_nat z)).

Definition children_ok s (pr : ramfs_internal) : Prop :=
  alen (children pr) = 64 /\ 0 <= child_count pr <= 64 /\
  Forall (fun c => c <> 0 /\ is_Some (rf_nodes s !! c)) (take (Z.to_nat (child_count pr)) (children pr)).

Record ramfs_ok s : Prop := RamfsOk {
  rk_heap : exists L, kh_live (rf_heap s) L /\ dom (rf_nodes s) ⊆ dom L /\ dom (rf_priv s) ⊆ dom L /\ dom (rf_data s) ⊆ dom L;
  rk_apart : dom (rf_nodes s) ## dom (rf_data s) /\ dom (rf_priv s) ## dom (rf_data s) /\ dom (rf_nodes s) ## dom (rf_priv s);
  rk_null : rf_nodes s !! 0 = None;
  rk_node : forall p n, rf_nodes s !! p = Some n ->
    n_impl n <> 0 /\ exists pr c, rf_priv s !! n_impl n = Some pr /\ buffer_ok s n pr c /\ children_ok s pr;
  rk_bufs : forall i pr, rf_priv s !! i = Some pr -> data pr <> 0 -> is_Some (rf_data s !! data pr);
  rk_impl : forall p q n m, rf_nodes s !! p = Some n -> rf_nodes s !! q = Some m -> n_impl n = n_impl m -> p = q;
  rk_data : forall i j pr qr, rf_priv s !! i = Some pr -> rf_priv s !! j = Some qr -> data pr <> 0 -> data pr = data qr -> i = j }.

(** [file s p c]: the node [p] is a file with contents [c]. *)
Definition file s (p : Z) (c : list Z) : Prop :=
  exists n pr, rf_nodes s !! p = Some n /\ Z.land (n_flags n) FS_FILE = FS_FILE /\
    rf_priv s !! n_impl n = Some pr /\ buffer_ok s n pr c.

(** [directory s p cs]: the node [p] is a directory with the entries [cs], in
    the order of their creation. *)
Definition directory s (p : Z) (cs : list Z) : Prop :=
  exists n pr, rf_nodes s !! p = Some n /\ has_flag (n_flags n) FS_DIRECTORY = true /\
    rf_priv s !! n_impl n = Some pr /\ cs = take (Z.to_nat (child_count pr)) (children pr).

(** ** Reading *)

Lemma ramfs_read_spec s p c offset size : ramfs_ok s -> file s p c -> 0 <= offset -> 0 <= size ->
  let bytes := take (Z.to_nat size) (drop (Z.to_nat offset) c) in
  ramfs_read s p offset size = Some (s, alen bytes, bytes).
Proof.
  intros Ok (n & pr & En & Hf & Ep & Hl & Hb) Ho Hs bytes. unfold ramfs_read. rewrite En. cbn [mbind option_bind].
  rewrite Hf. cbn [negb Z.eqb Pos.eqb]. change (FS_FILE =? FS_FILE) with true. cbn [negb].
  destruct (rk_node s Ok p n En) as [Hi _]. rewrite (proj2 (Z.eqb_neq _ 0) Hi), Ep. cbn [mbind option_bind].
  destruct Hb as [(-> & _ & ->)|(Hd & z & Ed & Hc)].
  { subst bytes. by rewrite drop_nil, take_nil. }
  rewrite (proj2 (Z.eqb_neq _ 0) Hd), Hl. destruct (Z.leb_spec (alen c) offset) as [Hle|Hlt].
  { subst bytes. rewrite drop_ge by (unfold alen in *; lia). by rewrite take_nil. }
  set (sz := if alen c - offset <? size then alen c - offset else size).
  assert (Esz : sz = Z.min size (alen c - offset)) by (subst sz; case_bool; lia).
  unfold load_bytes. rewrite Ed. cbn [mbind option_bind]. rewrite alen_app, alen_replicate.
  rewrite (proj2 (Z.leb_le _ _)) by lia. cbn [mbind option_bind].
  assert (Eb : take (Z.to_nat sz) (drop (Z.to_nat offset) (c ++ replicate z 0)) = bytes).
  { subst bytes. rewrite drop_app_le by (unfold alen in *; lia).
    rewrite take_app_le by (rewrite length_drop; unfold alen in *; lia).
    destruct (decide (size <= alen c - offset)); [by replace sz with size by lia|].
    rewrite !take_ge; [done|rewrite length_drop; unfold alen in *; lia..]. }
  rewrite Eb. do 2 f_equal. f_equal. rewrite <- Eb. unfold alen. rewrite length_take, length_drop, length_app, length_replicate.
  unfold alen in *. lia.
Qed.

(** ** Writing *)

(** [s1] is [s] with the buffer of the record [impl] (now [pr1]) replaced or
    changed in place: the maps agree elsewhere and the areas are in use. *)
Record rebuffered s s1 (impl : Z) (pr pr1 : ramfs_internal) : Prop := Rebuffered {
  rb_nodes : rf_nodes s1 = rf_nodes s;
  rb_priv : rf_priv s1 = <[impl := pr1]> (rf_priv s);
  rb_kids : children pr1 = children pr /\ child_count pr1 = child_count pr;
  rb_live : exists L, kh_live (rf_heap s1) L /\ dom (rf_nodes s) ⊆ dom L /\ dom (rf_priv s) ⊆ dom L /\ dom (rf_data s1) ⊆ dom L;
  rb_apart : dom (rf_nodes s) ## dom (rf_data s1) /\ dom (rf_priv s) ## dom (rf_data s1);
  rb_frame : forall a, a <> data pr -> a <> data pr1 -> rf_data s1 !! a = rf_data s !! a;
  rb_fresh : data pr1 = data pr \/ rf_data s !! data pr1 = None }.

Lemma rebuffered_refl s impl pr : ramfs_ok s -> rf_priv s !! impl = Some pr -> rebuffered s s impl pr pr.
Proof.
  intros Ok E. split.
  - done.
  - by rewrite insert_id.
  - done.
  - apply (rk_heap s Ok).
  - split; apply (rk_apart s Ok).
  - done.
  - by left.
Qed.

(** The buffers of the other records are untouched. *)
Lemma rebuffered_other s s1 impl pr pr1 i qr : ramfs_ok s -> rebuffered s s1 impl pr pr1 ->
  rf_priv s !! impl = Some pr -> rf_priv s !! i = Some qr -> i <> impl -> data qr <> 0 ->
  data qr <> data pr1 /\ rf_data s1 !! data qr = rf_data s !! data qr.
Proof.
  intros Ok Rb Ep Eq Hne Hd. assert (data qr <> data pr) as H1.
  { intros E. apply Hne. by apply (rk_data s Ok i impl qr pr). }
  assert (data qr <> data pr1) as H2.
  { intros E. destruct (rb_fresh _ _ _ _ _ Rb) as [E'|E']; [congruence|].
    destruct (rk_bufs s Ok i qr Eq Hd) as [x Hx]. congruence. }
  split; [done|]. by apply (rb_frame _ _ _ _ _ Rb).
Qed.

Lemma children_ok_dom s s1 pr pr1 : dom (rf_nodes s) ⊆ dom (rf_nodes s1) ->
  children pr1 = children pr -> child_count pr1 = child_count pr -> children_ok s pr -> children_ok s1 pr1.
Proof.
  intros Hd E1 E2 (? & ? & F). unfold children_ok. rewrite E1, E2. split; [done|]. split; [done|].
  eapply Forall_impl; [exact F|]. intros c (? & Hc%elem_of_dom). split; [done|]. apply elem_of_dom. by apply Hd.
Qed.

Lemma dom_insert_in {V} (m : gmap Z V) i v w : m !! i = Some w -> dom (<[i := v]> m) = dom m.
Proof. intros E. rewrite dom_insert_L. apply elem_of_dom_2 in E. set_solver. Qed.

(** Changing the buffer of one file, and its length, keeps the invariant and
    every other file. *)
Lemma rebuffer_ok s s1 p n n' pr pr1 c : ramfs_ok s -> rebuffered s s1 (n_impl n) pr pr1 ->
  rf_nodes s !! p = Some n -> rf_priv s !! n_impl n = Some pr ->
  n_impl n' = n_impl n -> n_flags n' = n_flags n -> buffer_ok s1 n' pr1 c ->
  let s2 := set_rf_nodes s1 (<[p := n']> (rf_nodes s1)) in
  ramfs_ok s2 /\ forall q c', q <> p -> file s q c' -> file s2 q c'.
Proof.
  intros Ok Rb En Ep Ei Efl Hb s2. pose proof Rb as [Bn Bp (Bk1 & Bk2) Bl Ba Bf Bfr].
  assert (Hdn : dom (rf_nodes s2) = dom (rf_nodes s)) by (subst s2; cbn; rewrite Bn; by eapply dom_insert_in).
  assert (Hdp : dom (rf_priv s2) = dom (rf_priv s)) by (subst s2; cbn; rewrite Bp; by eapply dom_insert_in).
  assert (Hother : forall q m qr c', rf_nodes s !! q = Some m -> q <> p -> rf_priv s !! n_impl m = Some qr ->
    buffer_ok s m qr c' -> rf_priv s2 !! n_impl m = Some qr /\ buffer_ok s2 m qr c').
  { intros q m qr c' Em Hq Eq (Hl & Hb').
    assert (n_impl m <> n_impl n) as Hi by (intros E; apply Hq; by apply (rk_impl s Ok q p m n)).
    split; [subst s2; cbn; by rewrite Bp, lookup_insert_ne|]. split; [done|].
    destruct Hb' as [?|(Hd & z & Ed & Hc)]; [by left|right]. split; [done|]. exists z. split; [|done].
    destruct (rebuffered_other s s1 _ pr pr1 _ qr Ok Rb Ep Eq Hi Hd) as [_ Es1]. subst s2; cbn. by rewrite Es1. }
  split.
  - destruct (rk_apart s Ok) as (_ & _ & Anp). split; rewrite ?Hdn, ?Hdp.
    + exact Bl.
    + split_and!; [apply Ba|apply Ba|done].
    + subst s2; cbn. rewrite Bn, lookup_insert_ne; [apply (rk_null s Ok)|]. intros ->. by rewrite (rk_null s Ok) in En.
    + intros q m Em. subst s2; cbn in Em. rewrite Bn in Em. destruct (decide (q = p)) as [->|Hq].
      * rewrite lookup_insert_eq in Em. injection Em as <-. destruct (rk_node s Ok p n En) as (Hi & pr' & c0 & Ep' & _ & Hk).
        rewrite Ep in Ep'. injection Ep' as <-. rewrite Ei. split; [done|]. exists pr1, c. split_and!.
        -- cbn. by rewrite Bp, lookup_insert_eq.
        -- exact Hb.
        -- eapply children_ok_dom; [|done..|exact Hk]. rewrite <- Hdn. done.
      * rewrite lookup_insert_ne in Em by done. destruct (rk_node s Ok q m Em) as (Hi & qr & c0 & Eq & Hb0 & Hk).
        split; [done|]. exists qr, c0. destruct (Hother q m qr c0 Em Hq Eq Hb0). split_and!; [done..|].
        eapply children_ok_dom; [|done..|exact Hk]. rewrite <- Hdn. done.
    + intros i qr Eq Hd. subst s2; cbn in *. rewrite Bp in Eq. destruct (decide (i = n_impl n)) as [->|Hi].
      * rewrite lookup_insert_eq in Eq. injection Eq as <-. destruct Hb as (_ & [[? _]|(_ & z & Ed & _)]); [done|by rewrite Ed].
      * rewrite lookup_insert_ne in Eq by done. destruct (rebuffered_other s s1 _ pr pr1 _ qr Ok Rb Ep Eq Hi Hd) as [_ ->].
        by apply (rk_bufs s Ok i).
    + intros q r m m' Em Em'. subst s2; cbn in *. rewrite Bn in Em, Em'.
      apply lookup_insert_Some in Em as [[<- <-]|[Hq Em]], Em' as [[<- <-]|[Hr Em']]; intros E; [done|..].
      * rewrite Ei in E. by apply (rk_impl s Ok p r n m').
      * rewrite Ei in E. by apply (rk_impl s Ok q p m n).
      * by apply (rk_impl s Ok q r m m').
    + intros i j ir jr Eir Ejr Hd E. subst s2; cbn in *. rewrite Bp in Eir, Ejr.
      apply lookup_insert_Some in Eir as [[<- <-]|[Hi Eir]], Ejr as [[<- <-]|[Hj Ejr]]; [done|..].
      * rewrite E in Hd. destruct (rebuffered_other s s1 _ pr _ j jr Ok Rb Ep Ejr (not_eq_sym Hj) Hd). congruence.
      * destruct (rebuffered_other s s1 _ pr _ i ir Ok Rb Ep Eir (not_eq_sym Hi) Hd). congruence.
      * by apply (rk_data s Ok i j ir jr).
  - intros q c' Hq (m & qr & Em & Hf & Eq & Hbq). destruct (Hother q m qr c' Em Hq Eq Hbq). exists m, qr.
    split_and!; [subst s2; cbn; by rewrite Bn, lookup_insert_ne|done..].
Qed.

Lemma land_page x : 0 <= x < 2 ^ 64 -> Z.land x (2 ^ 64 - 4096) = x / 4096 * 4096.
Proof.
  intros Hx. change 4096 with (2 ^ 12) at 2 3. rewrite <- Z.shiftr_div_pow2, <- Z.shiftl_mul_pow2 by lia.
  apply Z.bits_inj'. intros k Hk. rewrite Z.land_spec.
  change (2 ^ 64 - 4096) with (Z.shiftl (Z.ones 52) 12). rewrite !Z.shiftl_spec by lia.
  destruct (Z.ltb_spec k 12) as [Hlt|Hge].
  - rewrite !(Z.testbit_neg_r _ (k - 12)) by lia. by rewrite andb_false_r.
  - rewrite Z.shiftr_spec by lia. replace (k - 12 + 12) with k by lia.
    destruct (Z.ltb_spec k 64).
    + by rewrite Z.ones_spec_low, andb_true_r by lia.
    + rewrite Z.bits_above_log2; [done|lia|]. destruct (decide (x = 0)) as [->|]; [simpl; lia|].
      apply Z.log2_lt_pow2; [lia|]. apply (Z.lt_le_trans _ (2 ^ 64)); [lia|]. apply Z.pow_le_mono_r; lia.
Qed.

Definition page_round (required : Z) : Z := Z.land (u64 (required + 4096)) (2 ^ 64 - 4096).

Lemma page_round_spec r : 0 < r -> r + 4096 <= 2 ^ 63 -> r < page_round r <= r + 4096.
Proof.
  intros H1 H2. unfold page_round. rewrite wrap_small by (unfold fits; lia). rewrite land_page by lia. zmod.
Qed.

(** The outcome of preparing the buffer: enough room behind the contents [c]. *)
Definition prepared s s1 (impl : Z) (pr pr1 : ramfs_internal) (c : list Z) (required : Z) : Prop :=
  rebuffered s s1 impl pr pr1 /\ required <= capacity pr1 /\
  ((data pr1 = 0 /\ capacity pr1 = 0 /\ c = []) \/
   (data pr1 <> 0 /\ exists z, rf_data s1 !! data pr1 = Some (c ++ replicate z 0) /\ capacity pr1 = alen c + Z.of_nat z)).

(** After an allocation that failed nothing but the heap has changed. *)
Lemma rebuffered_heap s h impl pr L : ramfs_ok s -> rf_priv s !! impl = Some pr -> kh_live h L ->
  dom (rf_nodes s) ⊆ dom L -> dom (rf_priv s) ⊆ dom L -> dom (rf_data s) ⊆ dom L ->
  rebuffered s (set_rf_heap s h) impl pr pr.
Proof.
  intros Ok E HL H1 H2 H3. destruct (rebuffered_refl s impl pr Ok E). split; try done. by exists L.
Qed.

Lemma ramfs_realloc_spec s p n pr c required k : ramfs_ok s -> rf_nodes s !! p = Some n ->
  rf_priv s !! n_impl n = Some pr -> buffer_ok s n pr c -> capacity pr < required -> required + 4096 <= 2 ^ 63 ->
  0 <= k -> kh_room (rf_heap s) (kh_cost (page_round required) + k) ->
  exists s1 ok, ramfs_realloc s (n_impl n) pr (n_length n) required = Some (s1, ok) /\ kh_room (rf_heap s1) k /\
    if ok : bool then exists pr1, prepared s s1 (n_impl n) pr pr1 c required
    else rebuffered s s1 (n_impl n) pr pr /\ rf_data s1 = rf_data s.
Proof.
  intros Ok En Ep [Hl Hb] Hc Hr Hk Hroom. destruct (rk_heap s Ok) as (L & HL & L1 & L2 & L3).
  assert (Hcap : 0 <= capacity pr).
  { destruct Hb as [(_ & -> & _)|(_ & z & _ & ->)]; [lia|]. pose proof (alen_nonneg c). lia. }
  destruct (page_round_spec required) as [R1 R2]; [lia|lia|]. unfold ramfs_realloc. fold (page_round required).
  destruct (kh_alloc_law (rf_heap s) L (page_round required) k HL) as (h & nd & -> & Hrm & C); [lia|done..|].
  cbn [mbind option_bind]. destruct C as [(-> & HL1)|(Hnd & HLn & m & _ & HL1)].
  { rewrite Z.eqb_refl. exists (set_rf_heap s h), false. split; [done|]. split; [done|]. split; [|done]. by eapply rebuffered_heap. }
  rewrite (proj2 (Z.eqb_neq nd 0)) by lia.
  assert (Nn : nd ∉ dom L) by (by apply not_elem_of_dom).
  assert (Nd : rf_data s !! nd = None) by (apply not_elem_of_dom; set_solver).
  destruct Hb as [(Hd0 & Hc0 & ->)|(Hd & z & Ed & Hcz)].
  - rewrite Hd0, Z.eqb_refl. cbn [mbind option_bind]. eexists _, true. split; [done|]. split; [done|]. eexists. split; [split; cbn|cbn].
    + done.
    + done.
    + done.
    + exists (<[nd := m]> L). split; [done|]. set_solver.
    + destruct (rk_apart s Ok) as (A1 & A2 & _). set_solver.
    + intros a _ Ha. by rewrite lookup_insert_ne.
    + by right.
    + cbn [capacity data rf_data set_rf_priv set_rf_data set_rf_heap]. split; [lia|]. right. split; [lia|]. exists (Z.to_nat (page_round required)). rewrite lookup_insert_eq. unfold alen. simpl. split; [done|lia].
  - rewrite (proj2 (Z.eqb_neq _ 0) Hd), Hl. pose proof (alen_nonneg c) as H0c. unfold load_bytes. cbn [rf_data set_rf_data set_rf_heap].
    assert (data pr <> nd) as Hne by congruence.
    rewrite lookup_insert_ne, Ed by congruence. cbn [mbind option_bind]. rewrite alen_app, alen_replicate.
    rewrite (proj2 (Z.leb_le _ _)) by lia. cbn [mbind option_bind].
    assert (Et : take (Z.to_nat (alen c)) (drop (Z.to_nat 0) (c ++ replicate z 0)) = c).
    { change (Z.to_nat 0) with 0%nat. rewrite drop_0. unfold alen. rewrite Nat2Z.id. apply take_app_length. }
    rewrite Et. clear Et.
    set (zeros := replicate (Z.to_nat (page_round required)) 0).
    set (d1 := <[nd := zeros]> (rf_data s)).
    assert (exists y, store_bytes (set_rf_data (set_rf_heap s h) d1) nd 0 c =
      Some (set_rf_data (set_rf_heap s h) (<[nd := c ++ replicate y 0]> (rf_data s))) /\
      alen c + Z.of_nat y = page_round required) as (y & -> & Hy).
    { exists (Z.to_nat (page_round required) - length c)%nat. split; [|unfold alen in *; lia].
      assert (zeros = replicate (length c) 0 ++ replicate (Z.to_nat (page_round required) - length c) 0) as Ez.
      { rewrite <- replicate_add. unfold zeros. f_equal. unfold alen in *. lia. }
      unfold store_bytes. destruct c as [|x c].
      - subst d1 zeros. cbn [app]. by rewrite Nat.sub_0_r.
      - cbn [rf_data set_rf_data]. subst d1. rewrite lookup_insert_eq. cbn [mbind option_bind].
        rewrite (proj2 (Z.leb_le _ _)) by (unfold zeros; rewrite alen_replicate; unfold alen in *; lia).
        unfold splice. change (Z.to_nat 0) with 0%nat. rewrite take_0, Nat.add_0_l, Ez. cbn [app].
        rewrite drop_app_length' by (by rewrite length_replicate). by rewrite insert_insert_eq. }
    cbn [mbind option_bind set_rf_data set_rf_heap rf_heap rf_data].
    assert (Hlive : L !! data pr <> None).
    { apply elem_of_dom_2 in Ed. apply not_eq_None_Some, elem_of_dom. by apply L3. }
    destruct (L !! data pr) as [mo|] eqn:Emo; [clear Hlive|done].
    destruct (kh_free_law h (<[nd := m]> L) (data pr) mo k HL1) as (h' & -> & HL2 & Hrm2); [by rewrite lookup_insert_ne|done|].
    cbn [mbind option_bind]. eexists _, true. split; [done|]. split; [done|]. eexists. destruct (rk_apart s Ok) as (A1 & A2 & _).
    assert (Hdn : data pr ∉ dom (rf_nodes s) /\ data pr ∉ dom (rf_priv s)) by (apply elem_of_dom_2 in Ed; set_solver).
    split; [split; cbn|cbn].
    + done.
    + done.
    + done.
    + eexists. split; [exact HL2|]. set_solver.
    + set_solver.
    + intros a Ha Ha'. rewrite lookup_delete_ne, lookup_insert_ne by done. done.
    + by right.
    + cbn [capacity data rf_data set_rf_priv set_rf_data set_rf_heap]. split; [lia|]. right. split; [lia|]. exists y. rewrite lookup_delete_ne, lookup_insert_eq by done. split; [done|lia].
Qed.

Lemma splice_nil d o : splice d o [] = d.
Proof. unfold splice. cbn [length app]. rewrite Nat.add_0_r. apply take_drop. Qed.

(** Storing the bytes into the prepared buffer. *)
Lemma store_prepared s s1 impl pr pr1 c offset bytes : prepared s s1 impl pr pr1 c (offset + alen bytes) -> 0 <= offset ->
  exists s2, store_bytes s1 (data pr1) offset bytes = Some s2 /\ rebuffered s s2 impl pr pr1 /\ rf_heap s2 = rf_heap s1 /\
    let c' := write_content c offset bytes in
    ((data pr1 = 0 /\ capacity pr1 = 0 /\ c' = []) \/
     (data pr1 <> 0 /\ exists z, rf_data s2 !! data pr1 = Some (c' ++ replicate z 0) /\ capacity pr1 = alen c' + Z.of_nat z)).
Proof.
  intros (Rb & Hr & C) Ho. pose proof (alen_nonneg bytes) as Hbl.
  destruct C as [(Hd & Hc & ->)|(Hd & z & Ed & Hc)].
  { assert (offset = 0) as -> by lia. destruct bytes as [|b bytes]; [|unfold alen in *; cbn [length] in *; lia].
    exists s1. split_and!; [done..|]. by left. }
  destruct (splice_padded c z offset bytes Ho) as [z' Ez]; [lia|].
  assert (El : alen (write_content c offset bytes) + Z.of_nat z' = capacity pr1).
  { rewrite <- (alen_replicate z' 0), <- alen_app, <- Ez, alen_splice by (try rewrite alen_app, alen_replicate; lia).
    rewrite alen_app, alen_replicate. lia. }
  destruct bytes as [|b bytes].
  { exists s1. split_and!; [done..|]. right. split; [done|]. exists z'. rewrite splice_nil in Ez. rewrite Ed, Ez. split; [done|lia]. }
  cbn [store_bytes]. rewrite Ed. cbn [mbind option_bind]. rewrite alen_app, alen_replicate, (proj2 (Z.leb_le _ _)) by lia.
  eexists. split; [done|]. split; [|split; [done|]].
  - destruct Rb as [B1 B2 B3 (L & HL & L1 & L2 & L3) [A1 A2] B6 B7].
    assert (Hdom : dom (<[data pr1 := splice (c ++ replicate z 0) offset (b :: bytes)]> (rf_data s1)) = dom (rf_data s1))
      by (by eapply dom_insert_in).
    split; cbn [rf_nodes rf_priv rf_data rf_heap set_rf_data]; rewrite ?Hdom; try done; [by exists L|].
    intros a Ha Ha'. rewrite lookup_insert_ne by done. by apply B6.
  - right. split; [done|]. exists z'. cbn [rf_data set_rf_data]. rewrite lookup_insert_eq, Ez. split; [done|lia].
Qed.

Lemma ramfs_write_spec s p c offset buffer k : ramfs_ok s -> file s p c -> 0 <= offset ->
  offset + alen buffer + 4096 <= 2 ^ 63 -> 0 <= k ->
  kh_room (rf_heap s) (kh_cost (page_round (offset + alen buffer)) + k) -> kh_room (rf_heap s) k ->
  exists s' r, ramfs_write s p offset (alen buffer) buffer = Some (s', r) /\ ramfs_ok s' /\ kh_room (rf_heap s') k /\
    (forall q c', q <> p -> file s q c' -> file s' q c') /\
    ((r = alen buffer /\ file s' p (write_content c offset buffer)) \/
     (r = 0 /\ file s' p c /\ alen c < offset + alen buffer)).
Proof.
  intros Ok (n & pr & En & Hf & Ep & Hbuf) Ho Hsz Hk Hroom Hroomk. pose proof (alen_nonneg buffer) as Hbl.
  destruct (rk_node s Ok p n En) as (Hi & pr' & c0 & Ep' & _ & Hkids). rewrite Ep in Ep'. injection Ep' as <-.
  unfold ramfs_write. rewrite (proj2 (Z.ltb_ge _ _)) by lia. rewrite En. cbn [mbind option_bind].
  rewrite Hf. change (FS_FILE =? FS_FILE) with true. cbn [negb]. rewrite (proj2 (Z.eqb_neq _ 0) Hi), Ep. cbn [mbind option_bind].
  rewrite wrap_small by (unfold fits; lia). set (required := offset + alen buffer) in *.
  replace (take (Z.to_nat (alen buffer)) buffer) with buffer by (unfold alen; by rewrite Nat2Z.id, firstn_all).
  assert (Hphase : exists s1 ok, (if capacity pr <? required then ramfs_realloc s (n_impl n) pr (n_length n) required else Some (s, true)) =
      Some (s1, ok) /\ kh_room (rf_heap s1) k /\
    if ok : bool then exists pr1, prepared s s1 (n_impl n) pr pr1 c required
    else rebuffered s s1 (n_impl n) pr pr /\ rf_data s1 = rf_data s /\ alen c < required).
  { destruct (Z.ltb_spec (capacity pr) required) as [Hlt|Hge].
    - destruct (ramfs_realloc_spec s p n pr c required k Ok En Ep Hbuf Hlt Hsz Hk Hroom) as (s1 & ok & E & Hr & Hs).
      exists s1, ok. split; [done|]. split; [done|]. destruct ok; [done|]. destruct Hs as [? ?]. split_and!; [done..|].
      destruct Hbuf as (_ & [(_ & ? & ->)|(_ & z & _ & ?)]); [unfold alen; simpl; lia|lia].
    - exists s, true. split_and!; [done..|]. exists pr. destruct Hbuf as [Hl C]. split; [by apply rebuffered_refl|]. by split. }
  destruct Hphase as (s1 & ok & -> & Hr1 & Hs). cbn [mbind option_bind]. destruct ok; cbn [negb].
  2: { destruct Hs as (Rb & Ed & Hlt). assert (Hb1 : buffer_ok s1 n pr c).
       { destruct Hbuf as [Hl C]. split; [done|]. by rewrite Ed. }
       destruct (rebuffer_ok s s1 p n n pr pr c Ok Rb En Ep eq_refl eq_refl Hb1) as [Ok1 Hoth].
       assert (E1 : set_rf_nodes s1 (<[p := n]> (rf_nodes s1)) = s1).
       { rewrite insert_id by (by rewrite (rb_nodes _ _ _ _ _ Rb)). by destruct s1. }
       rewrite E1 in Ok1, Hoth. exists s1, 0. split_and!; [done..|]. right. split_and!; [done| |done].
       exists n, pr. rewrite (rb_nodes _ _ _ _ _ Rb), (rb_priv _ _ _ _ _ Rb), lookup_insert_eq. done. }
  destruct Hs as (pr1 & Hp). pose proof Hp as (Rb & _).
  rewrite (rb_priv _ _ _ _ _ Rb), lookup_insert_eq. cbn [mbind option_bind].
  destruct (store_prepared s s1 _ pr pr1 c offset buffer Hp Ho) as (s2 & -> & Rb2 & Eh & C). cbn [mbind option_bind].
  set (c' := write_content c offset buffer) in *.
  set (n' := if n_length n <? required then set_length n required else n).
  assert (Hl' : n_length n' = alen c').
  { subst n' c' required. rewrite alen_write_content by done. pose proof (proj1 Hbuf) as Hl.
    rewrite Hl. destruct (Z.ltb_spec (alen c) (offset + alen buffer)); cbn [n_length set_length]; lia. }
  assert (Es : (if n_length n <? required then set_rf_nodes s2 (<[p := set_length n required]> (rf_nodes s2)) else s2) =
    set_rf_nodes s2 (<[p := n']> (rf_nodes s2))).
  { subst n'. destruct (n_length n <? required); [done|]. rewrite insert_id by (by rewrite (rb_nodes _ _ _ _ _ Rb2)). by destruct s2. }
  rewrite Es. assert (Hb2 : buffer_ok s2 n' pr1 c') by (by split).
  assert (n_impl n' = n_impl n /\ n_flags n' = n_flags n) as [Ei Ef] by (subst n'; by destruct (_ <? _)).
  destruct (rebuffer_ok s s2 p n n' pr pr1 c' Ok Rb2 En Ep Ei Ef Hb2) as [Ok2 Hoth].
  eexists _, (alen buffer). split; [done|]. split; [done|]. split; [cbn; by rewrite Eh|]. split; [done|]. left. split; [done|].
  exists n', pr1. cbn [rf_nodes rf_priv set_rf_nodes]. rewrite lookup_insert_eq, Ei, Ef, (rb_priv _ _ _ _ _ Rb2), lookup_insert_eq. done.
Qed.

(** ** Directories *)

(** The entries of a record. *)
Definition entries (pr : ramfs_internal) : list Z := take (Z.to_nat (child_count pr)) (children pr).

Lemma entries_add pr node : alen (children pr) = 64 -> 0 <= child_count pr < 64 ->
  entries (RamfsInternal (data pr) (capacity pr) (aset (children pr) (child_count pr) node) (child_count pr + 1)) =
    entries pr ++ [node].
Proof.
  unfold entries, aset, alen. cbn [children child_count]. intros Hl Hc.
  replace (Z.to_nat (child_count pr + 1)) with (Datatypes.S (Z.to_nat (child_count pr))) by lia.
  erewrite take_S_r by (apply list_lookup_insert_eq; lia). by rewrite take_insert_ge by lia.
Qed.

(** [s'] has every node of [s] unchanged, and its directories may have more
    entries behind the old ones. *)
Definition extends s s' : Prop :=
  (forall p n, rf_nodes s !! p = Some n -> rf_nodes s' !! p = Some n) /\
  (forall i pr, rf_priv s !! i = Some pr -> exists pr', rf_priv s' !! i = Some pr' /\ entries pr `prefix_of` entries pr').

Lemma find_child_extends s s' cs name r : extends s s' -> find_child s cs name = Some r -> r <> 0 -> forall more,
  find_child s' (cs ++ more) name = Some r.
Proof.
  intros [X _]. induction cs as [|c cs IH]; cbn [find_child app]; [by intros [= <-]|]. intros E Hr more.
  destruct (rf_nodes s !! c) as [n|] eqn:En; [|done]. rewrite (X c n En). cbn [mbind option_bind] in *.
  case_decide; [done|by apply IH].
Qed.

Lemma ramfs_finddir_extends s s' p name r : extends s s' -> ramfs_finddir s p name = Some (s, r) -> r <> 0 ->
  ramfs_finddir s' p name = Some (s', r).
Proof.
  intros X E Hr. unfold ramfs_finddir in *. destruct (rf_nodes s !! p) as [n|] eqn:En; [|done].
  rewrite (proj1 X p n En). cbn [mbind option_bind] in *. destruct (_ =? 0); [by simplify_eq|]. destruct (_ =? 0); [by simplify_eq|].
  destruct (rf_priv s !! n_impl n) as [pr|] eqn:Ep; [|done]. destruct (proj2 X _ pr Ep) as (pr' & -> & more & Ec).
  cbn [mbind option_bind] in *. unfold entries in Ec. rewrite Ec.
  destruct (find_child s _ name) as [r0|] eqn:Ef; [|done]. cbn [mbind option_bind] in E. simplify_eq.
  by rewrite (find_child_extends s s' _ name r X Ef Hr).
Qed.

Lemma find_child_state s p name x : ramfs_finddir s p name = Some x -> x.1 = s.
Proof. unfold ramfs_finddir. intros E. repeat (case_match || simplify_option_eq); done. Qed.

(** Looking a name up does not change the state, and a name that was found is
    found again after entries were added. *)
Ltac not_found := intros [= <- <-]; split; [done|intros Hx; by destruct Hx].

Lemma vfs_finddir_extends s s' p name s1 r : extends s s' -> vfs_finddir s p name = Some (s1, r) ->
  s1 = s /\ (r <> 0 -> vfs_finddir s' p name = Some (s', r)).
Proof.
  intros X. unfold vfs_finddir. cbn [fs_nodes ramfs_fs]. destruct (Z.eqb_spec p 0) as [|Hp0]; [not_found|].
  destruct (rf_nodes s !! p) as [n0|] eqn:E0; [|done]. rewrite (proj1 X p n0 E0). cbn [mbind option_bind].
  set (p1 := if mounted n0 then n_ptr n0 else p). destruct (rf_nodes s !! p1) as [n|] eqn:En; [|done].
  rewrite (proj1 X p1 n En). cbn [mbind option_bind]. destruct (has_flag _ _); [|not_found].
  unfold node_op. destruct (n_ops n) as [o|]; [|not_found]. cbn [op_finddir ramfs_fs].
  destruct (ramfs_finddir s p1 name) as [[s2 c]|] eqn:Ef; [|cbn; intros [=]]. pose proof (find_child_state _ _ _ _ Ef) as Es. cbn in Es. subst s2.
  cbn [mbind option_bind]. destruct (Z.eqb_spec c 0) as [->|Hc]; [not_found|].
  destruct (rf_nodes s !! c) as [cn|] eqn:Ec; [|cbn; intros [=]]. cbn [mbind option_bind]. intros [= <- <-]. split; [done|]. intros Hr.
  rewrite (ramfs_finddir_extends s s' p1 name c X Ef Hc). cbn [mbind option_bind]. rewrite (proj2 (Z.eqb_neq c 0) Hc).
  by rewrite (proj1 X c cn Ec).
Qed.

(** In a well-formed file system whose mounts lead to nodes, every lookup
    answers. *)
Definition ramfs_valid s (p : Z) : Prop :=
  ramfs_ok s /\ is_Some (rf_nodes s !! p) /\
  forall q m, rf_nodes s !! q = Some m -> mounted m = true -> is_Some (rf_nodes s !! n_ptr m).

Lemma find_child_answers s cs name : Forall (fun c => c <> 0 /\ is_Some (rf_nodes s !! c)) cs ->
  exists r, find_child s cs name = Some r /\ (r = 0 \/ is_Some (rf_nodes s !! r)).
Proof.
  induction 1 as [|c cs [_ (n & En)] _ IH]; cbn [find_child]; [exists 0; by split; [|left]|].
  rewrite En. cbn [mbind option_bind]. case_decide; [exists c; split; [done|right; by exists n]|done].
Qed.

Lemma ramfs_finddir_answers s p name : ramfs_ok s -> is_Some (rf_nodes s !! p) ->
  exists r, ramfs_finddir s p name = Some (s, r) /\ (r = 0 \/ is_Some (rf_nodes s !! r)).
Proof.
  intros Ok (n & En). destruct (rk_node s Ok p n En) as (_ & pr & c & Ep & _ & _ & _ & Hch).
  destruct (find_child_answers s _ name Hch) as (r & Er & Hr). unfold ramfs_finddir. rewrite En. cbn [mbind option_bind].
  destruct (_ =? 0); [exists 0; by split; [|left]|]. destruct (_ =? 0); [exists 0; by split; [|left]|].
  rewrite Ep. cbn [mbind option_bind]. rewrite Er. by exists r.
Qed.

Lemma ramfs_lookups : lookups_answer ramfs_valid.
Proof.
  intros s p name (Ok & Hp & Hm).
  assert (HN : exists s' r, Some (s, 0) = Some (s', r) /\ (r = 0 \/ ramfs_valid s' r)) by (exists s, 0; by split; [|left]).
  unfold vfs_finddir. cbn [fs_nodes ramfs_fs]. destruct (Z.eqb_spec p 0) as [|Hp0]; [done|]. destruct Hp as (n0 & E0). rewrite E0. cbn [mbind option_bind].
  set (p1 := if mounted n0 then n_ptr n0 else p).
  assert (Hp1 : is_Some (rf_nodes s !! p1)) by (subst p1; destruct (mounted n0) eqn:Em; [by apply (Hm p)|by exists n0]).
  destruct Hp1 as (n & En). rewrite En. cbn [mbind option_bind]. destruct (has_flag _ _); [|done].
  unfold node_op. destruct (n_ops n) as [o|]; [|done]. cbn [op_finddir ramfs_fs].
  destruct (ramfs_finddir_answers s p1 name Ok) as (r & -> & Hr); [by exists n|]. cbn [mbind option_bind].
  destruct (Z.eqb_spec r 0) as [->|Hne]; [done|]. destruct Hr as [->|(m & Er)]; [done|]. rewrite Er. cbn [mbind option_bind].
  exists s, (if mounted m then n_ptr m else r). split; [done|]. right. split; [done|]. split; [|done].
  destruct (mounted m) eqn:Em; [by apply (Hm r)|by exists m].
Qed.

Lemma walk_extends s s' cs : extends s s' -> forall p s1 r, walk s p cs = Some (s1, r) -> r <> 0 ->
  s1 = s /\ walk s' p cs = Some (s', r).
Proof.
  intros X. induction cs as [|c cs IH]; intros p s1 r; cbn [walk]; [by intros [= <- <-]|].
  destruct (vfs_finddir s p (take 127 c)) as [[s2 q]|] eqn:E; [|done]. cbn [mbind option_bind].
  destruct (vfs_finddir_extends s s' p _ s2 q X E) as [-> Hq]. destruct (Z.eqb_spec q 0) as [->|Hne]; [by intros [= <- <-]|].
  intros Hw Hr. rewrite (Hq Hne). cbn [mbind option_bind]. rewrite (proj2 (Z.eqb_neq q 0) Hne). by apply IH.
Qed.

(** The allocation of a node or of its private record fails. *)
Definition out_of_memory (h : H) : Prop :=
  (exists h', kh_alloc h sizeof_vfs_node = Some (h', 0)) \/
  (exists h1 p h2, kh_alloc h sizeof_vfs_node = Some (h1, p) /\ kh_alloc h1 sizeof_ramfs_internal = Some (h2, 0)).

Definition create_cost : Z := kh_cost sizeof_vfs_node + kh_cost sizeof_ramfs_internal.

Lemma new_node_spec s name flags mask k : ramfs_ok s -> alen name <= 127 -> 0 <= k -> kh_room (rf_heap s) (create_cost + k) ->
  (new_node s name flags mask = None /\ out_of_memory (rf_heap s)) \/
  exists h node impl, let n := VfsNode name mask 0 0 flags 0 0 impl (Some ramfs_ops) 0 0 in
    let s1 := Ramfs (<[node := n]> (rf_nodes s)) (<[impl := priv_zero]> (rf_priv s)) (rf_data s) h in
    new_node s name flags mask = Some (s1, node) /\ ramfs_ok s1 /\ kh_room h k /\ 0 < node /\
    rf_nodes s !! node = None /\ rf_priv s !! impl = None.
Proof.
  intros Ok Hn Hk Hr. destruct (rk_heap s Ok) as (L & HL & L1 & L2 & L3). unfold new_node.
  pose proof (kh_cost_pos sizeof_ramfs_internal ltac:(unfold sizeof_ramfs_internal; lia)) as Hc2.
  destruct (kh_alloc_law (rf_heap s) L sizeof_vfs_node (kh_cost sizeof_ramfs_internal + k) HL) as (h1 & node & E1 & Hr1 & C1);
    [unfold sizeof_vfs_node; lia|lia|by unfold create_cost in Hr; rewrite Z.add_assoc|].
  rewrite E1. cbn [mbind option_bind]. destruct C1 as [(-> & _)|(Hp & Nl & m1 & _ & HL1)].
  { rewrite Z.eqb_refl. left. split; [done|]. left. by exists h1. }
  rewrite (proj2 (Z.eqb_neq node 0)), (proj2 (Z.ltb_ge 127 (alen name))) by lia.
  destruct (kh_alloc_law h1 _ sizeof_ramfs_internal k HL1) as (h2 & impl & E2 & Hr2 & C2);
    [unfold sizeof_ramfs_internal; lia|lia|done|].
  rewrite E2. cbn [mbind option_bind]. destruct C2 as [(-> & _)|(Hp2 & Nl2 & m2 & _ & HL2)].
  { rewrite Z.eqb_refl. left. split; [done|]. right. by exists h1, node, h2. }
  rewrite (proj2 (Z.eqb_neq impl 0)) by lia. right. exists h2, node, impl.
  assert (Hni : node <> impl) by (intros ->; by rewrite lookup_insert_eq in Nl2).
  rewrite lookup_insert_ne in Nl2 by done. apply not_elem_of_dom in Nl, Nl2.
  assert (N1 : rf_nodes s !! node = None) by (apply not_elem_of_dom; set_solver).
  assert (N2 : rf_priv s !! impl = None) by (apply not_elem_of_dom; set_solver).
  set (n := VfsNode _ _ _ _ _ _ _ _ _ _ _). set (s1 := Ramfs _ _ _ _). split; [done|]. split; [|done].
  destruct (rk_apart s Ok) as (A1 & A2 & A3).
  assert (Hold : forall p m, rf_nodes s !! p = Some m -> n_impl m <> impl).
  { intros p m Em <-. destruct (rk_node s Ok p m Em) as (_ & pr & _ & Ep & _). congruence. }
  assert (Hdn : dom (rf_nodes s1) = {[node]} ∪ dom (rf_nodes s)) by apply dom_insert_L.
  assert (Hdp : dom (rf_priv s1) = {[impl]} ∪ dom (rf_priv s)) by apply dom_insert_L.
  split; rewrite ?Hdn, ?Hdp; subst s1; cbn [rf_nodes rf_priv rf_data rf_heap] in *.
  - eexists. split; [exact HL2|]. set_solver.
  - set_solver.
  - rewrite lookup_insert_ne by lia. apply (rk_null s Ok).
  - intros p m Em. apply lookup_insert_Some in Em as [[<- <-]|[Hne Em]].
    + split; [cbn; lia|]. exists priv_zero, []. cbn [n_impl n]. rewrite lookup_insert_eq. split; [done|]. split; [split; [done|by left]|].
      split; [done|]. split; [done|]. constructor.
    + destruct (rk_node s Ok p m Em) as (Hi & pr & c & Ep & Hb & Hk'). split; [done|]. exists pr, c.
      rewrite lookup_insert_ne by (intros E; symmetry in E; by apply (Hold p m)). split; [done|]. split; [done|].
      eapply children_ok_dom; [|done..|exact Hk']. cbn [rf_nodes]. rewrite dom_insert_L. set_solver.
  - intros i pr Ei. apply lookup_insert_Some in Ei as [[<- <-]|[_ Ei]]; [done|]. by apply (rk_bufs s Ok i).
  - intros p q m m' Em Em'. apply lookup_insert_Some in Em as [[<- <-]|[Hpn Em]], Em' as [[<- <-]|[Hqn Em']]; intros E; [done|..].
    + symmetry in E. by apply (Hold q m') in E.
    + by apply (Hold p m) in E.
    + by apply (rk_impl s Ok p q m m').
  - intros i j pr qr Ei Ej Hd E. apply lookup_insert_Some in Ei as [[<- <-]|[_ Ei]], Ej as [[<- <-]|[_ Ej]]; [done|done|by rewrite E in Hd|].
    by apply (rk_data s Ok i j pr qr).
Qed.

(** Adding an entry to a record that keeps its buffer. *)
Lemma add_entry_ok s i pr node : ramfs_ok s -> rf_priv s !! i = Some pr -> child_count pr < 64 ->
  node <> 0 -> is_Some (rf_nodes s !! node) -> (exists p n, rf_nodes s !! p = Some n /\ n_impl n = i) ->
  ramfs_ok (set_rf_priv s (<[i := RamfsInternal (data pr) (capacity pr) (aset (children pr) (child_count pr) node)
    (child_count pr + 1)]> (rf_priv s))).
Proof.
  intros Ok Ei Hc Hn Hin (p0 & n0 & En0 & Ei0). set (pr' := RamfsInternal _ _ _ _).
  assert (Hdp : dom (<[i := pr']> (rf_priv s)) = dom (rf_priv s)) by (by eapply dom_insert_in).
  split; cbn [rf_nodes rf_priv rf_data rf_heap set_rf_priv]; rewrite ?Hdp.
  - apply (rk_heap s Ok).
  - apply (rk_apart s Ok).
  - apply (rk_null s Ok).
  - intros p n En. destruct (rk_node s Ok p n En) as (Hi & pr0 & c & Ep & Hb & Hk). split; [done|].
    destruct (decide (i = n_impl n)) as [->|Hne].
    + rewrite Ei in Ep. injection Ep as <-. exists pr', c. rewrite lookup_insert_eq. split; [done|]. split; [done|].
      destruct Hk as (K1 & K2 & K3). split; [unfold pr'; cbn [children]; by rewrite alen_aset|].
      split; [unfold pr'; cbn [child_count]; lia|]. change (Forall (fun c => c <> 0 /\ is_Some (rf_nodes s !! c)) (entries pr')).
      unfold pr'. rewrite entries_add by (done || lia). apply Forall_app. split; [done|]. by constructor.
    + exists pr0, c. rewrite lookup_insert_ne by done. done.
  - intros j qr Ej. apply lookup_insert_Some in Ej as [[<- <-]|[_ Ej]]; [|by apply (rk_bufs s Ok j)].
    apply (rk_bufs s Ok i pr Ei).
  - apply (rk_impl s Ok).
  - intros j l jr lr Ej El Hd E. apply lookup_insert_Some in Ej as [[<- <-]|[Hj Ej]], El as [[<- <-]|[Hl El]]; [done|..].
    + by apply (rk_data s Ok i l pr lr).
    + by apply (rk_data s Ok j i jr pr).
    + by apply (rk_data s Ok j l jr lr).
Qed.

(** Adding a node to a directory: NULL when it is full; a fault when the heap
    is exhausted; otherwise a fresh empty node behind the old entries. *)
Lemma ramfs_add_spec s p pn pr name flags k : ramfs_ok s -> rf_nodes s !! p = Some pn -> rf_priv s !! n_impl pn = Some pr ->
  alen name <= 127 -> 0 <= k -> kh_room (rf_heap s) (create_cost + k) ->
  (child_count pr = 64 /\ ramfs_add s p name flags = Some (s, 0)) \/
  (child_count pr < 64 /\ ramfs_add s p name flags = None /\ out_of_memory (rf_heap s)) \/
  (child_count pr < 64 /\ exists s' node n pr', ramfs_add s p name flags = Some (s', node) /\ ramfs_ok s' /\ extends s s' /\
     kh_room (rf_heap s') k /\ 0 < node /\ rf_nodes s !! node = None /\
     rf_nodes s' !! node = Some n /\ n_name n = name /\ n_flags n = flags /\ n_ptr n = 0 /\ n_ops n = Some ramfs_ops /\
     rf_priv s' !! n_impl n = Some priv_zero /\ n_length n = 0 /\
     rf_priv s' !! n_impl pn = Some pr' /\ entries pr' = entries pr ++ [node]).
Proof.
  intros Ok En Ep Hn Hk Hr. destruct (rk_node s Ok p pn En) as (_ & pr0 & c & Ep0 & _ & Hkids). rewrite Ep in Ep0. injection Ep0 as <-.
  destruct Hkids as (K1 & K2 & K3). unfold ramfs_add. rewrite En. cbn [mbind option_bind]. rewrite Ep. cbn [mbind option_bind].
  unfold RAMFS_MAX_CHILDREN. destruct (Z.leb_spec 64 (child_count pr)) as [Hge|Hlt]; [left; split; [lia|done]|right].
  destruct (new_node_spec s name flags (n_mask pn) k Ok Hn Hk Hr) as [[-> Ho]|(h & node & impl & E & Ok1 & Hr1 & Hp & N1 & N2)];
    [by left|right]. rewrite E. cbn [mbind option_bind rf_priv].
  assert (Hi : n_impl pn <> impl) by congruence.
  rewrite lookup_insert_ne by done. rewrite Ep. cbn [mbind option_bind].
  set (n := VfsNode _ _ _ _ _ _ _ _ _ _ _) in *. set (s1 := Ramfs _ _ _ _) in *.
  set (pr' := RamfsInternal _ _ _ _). split; [done|]. exists (set_rf_priv s1 (<[n_impl pn := pr']> (rf_priv s1))), node, n, pr'.
  split; [done|]. split.
  { apply add_entry_ok; [done|by subst s1; cbn; rewrite lookup_insert_ne|done|lia|subst s1; cbn; by rewrite lookup_insert_eq|].
    exists p, pn. split; [|done]. subst s1; cbn. rewrite lookup_insert_ne; [done|]. intros ->. congruence. }
  assert (Hent : entries pr' = entries pr ++ [node]) by (apply entries_add; [done|lia]).
  split; [|split_and!; try done].
  - split; cbn.
    + intros q m Em. rewrite lookup_insert_ne; [done|]. intros ->. congruence.
    + intros i qr Ei. destruct (decide (i = n_impl pn)) as [->|Hne].
      * rewrite lookup_insert_eq. rewrite Ep in Ei. injection Ei as <-. exists pr'. split; [done|]. rewrite Hent. by exists [node].
      * rewrite lookup_insert_ne, lookup_insert_ne by congruence. by exists qr.
  - cbn. by rewrite lookup_insert_eq.
  - cbn. rewrite lookup_insert_ne by done. by rewrite lookup_insert_eq.
  - cbn. by rewrite lookup_insert_eq.
Qed.

Lemma find_child_last s cs node n name : Forall (fun c => exists m, rf_nodes s !! c = Some m /\ n_name m <> name) cs ->
  rf_nodes s !! node = Some n -> n_name n = name -> find_child s (cs ++ [node]) name = Some node.
Proof.
  intros F E En. induction cs as [|c cs IH]; cbn [app find_child].
  - rewrite E. cbn [mbind option_bind]. by rewrite decide_True.
  - apply Forall_cons in F as [(m & -> & Hm) F]. cbn [mbind option_bind]. rewrite decide_False by done. by apply IH.
Qed.

Lemma top_mount_extends s s' f : extends s s' -> forall p r f', top_mount s p f = Some r -> (f <= f')%nat -> top_mount s' p f' = Some r.
Proof.
  intros X. induction f as [|f IH]; intros p r [|f'] E Hf; try lia; [done..|]. cbn [top_mount fs_nodes ramfs_fs] in *.
  destruct (_ =? 0); [done|]. destruct (rf_nodes s !! p) as [n|] eqn:En; [|done]. rewrite (proj1 X p n En).
  cbn [mbind option_bind] in *. destruct (mounted n); [|done]. apply IH; [done|lia].
Qed.

Lemma root_fuel_extends s s' : extends s s' -> (root_fuel s <= root_fuel s')%nat.
Proof.
  intros [X _]. unfold root_fuel. apply le_n_S. apply map_subseteq_size. apply map_subseteq_spec. intros i x. apply X.
Qed.

(** A path that resolved still resolves to the same node. *)
Lemma resolve_extends s s' root path s1 r : extends s s' -> vfs_resolve_path root s (Some (SLASH :: path)) = Some (s1, r) -> r <> 0 ->
  vfs_resolve_path root s' (Some (SLASH :: path)) = Some (s', r).
Proof.
  intros X. rewrite !resolve_path_walk. intros E Hr. destruct (top_mount s root (root_fuel s)) as [t|] eqn:Et; [|done].
  rewrite (top_mount_extends s s' _ X root t (root_fuel s') Et (root_fuel_extends s s' X)). cbn [mbind option_bind] in *.
  by apply (walk_extends s s' _ X t s1 r).
Qed.

(** ** Creating a file by its path *)

Lemma last_slash_spec dirs name : SLASH ∉ name -> last_slash (dirs ++ SLASH :: name) 0 0 = alen dirs.
Proof.
  intros Hn. assert (G : forall l i last, SLASH ∉ l -> last_slash l i last = last).
  { induction l as [|c l IH]; intros i last Hl; [done|]. cbn [last_slash]. apply not_elem_of_cons in Hl as [Hc Hl].
    rewrite (proj2 (Z.eqb_neq c SLASH)) by done. by apply IH. }
  assert (forall i last, last_slash (dirs ++ SLASH :: name) i last = i + alen dirs) as ->; [|done].
  unfold alen. induction dirs as [|c dirs IH]; intros i last; cbn [app last_slash length].
  - rewrite Z.eqb_refl, G by done. lia.
  - rewrite IH. lia.
Qed.

Lemma components_name name : forall cur, SLASH ∉ name -> components cur name = flush (cur ++ name) [].
Proof.
  induction name as [|c name IH]; intros cur Hn; cbn [components]; [by rewrite app_nil_r|].
  apply not_elem_of_cons in Hn as [Hc Hn]. rewrite (proj2 (Z.eqb_neq c SLASH)) by done. rewrite IH by done. by rewrite <- app_assoc.
Qed.

(** The parent path that [split_path] hands out. *)
Definition parent_of (dirs : list Z) : list Z := match dirs with [] => [SLASH] | _ => dirs end.

Lemma split_path_spec dirs name : SLASH ∉ name -> alen dirs <= 127 -> alen name <= 127 ->
  split_path (dirs ++ SLASH :: name) = Some (parent_of dirs, name).
Proof.
  intros Hn Hd Hl. unfold split_path. rewrite last_slash_spec by done.
  assert (Ed : drop (Z.to_nat (alen dirs + 1)) (dirs ++ SLASH :: name) = name).
  { rewrite (cons_middle SLASH dirs name), (app_assoc dirs). apply drop_app_length'. rewrite length_app. unfold alen. simpl. lia. }
  rewrite Ed. rewrite !(proj2 (Z.ltb_ge _ _)) by done. cbn [orb].
  destruct dirs as [|c dirs]; [done|]. destruct (Z.eqb_spec (alen (c :: dirs)) 0); [unfold alen in *; simpl in *; lia|].
  unfold alen. by rewrite Nat2Z.id, take_app_length.
Qed.

(** Resolving [dirs/name] is resolving the parent and then the name. *)
Lemma resolve_parent s root dirs name s1 d : (dirs = [] \/ exists dd, dirs = SLASH :: dd) -> SLASH ∉ name -> name <> [] -> alen name <= 127 ->
  vfs_resolve_path root s (Some (parent_of dirs)) = Some (s1, d) -> d <> 0 ->
  vfs_resolve_path root s (Some (dirs ++ SLASH :: name)) = '(s', r) ← vfs_finddir s1 d name; Some (s', r).
Proof.
  intros Hdirs Hn Hne Hl. assert (Hc : components [] name = [name]) by (rewrite components_name by done; by destruct name).
  assert (Hstep : forall t, walk s1 t [name] = '(s', r) ← vfs_finddir s1 t name; Some (s', r)).
  { intros t. cbn [walk]. rewrite take_ge by (unfold alen in Hl; lia). destruct (vfs_finddir s1 t name) as [[s' r]|]; [|done].
    cbn [mbind option_bind]. by destruct (Z.eqb_spec r 0) as [->|]. }
  assert (Hz : forall cs st x, walk st 0 cs = Some x -> x.2 = 0) by (intros [|? ?] ? ?; cbn; intros [= <-]; done).
  destruct Hdirs as [->|(dd & ->)]; cbn [parent_of app]; rewrite !resolve_path_walk;
    (destruct (top_mount s root (root_fuel s)) as [t|]; [|done]); cbn [mbind option_bind]; intros E Hd.
  - cbn [components flush walk] in E. injection E as <- <-. rewrite Hc. apply Hstep.
  - destruct (decide (t = 0)) as [->|Ht]; [by apply Hz in E|].
    rewrite components_app, Hc, walk_app by done. rewrite E. cbn [mbind option_bind]. rewrite (proj2 (Z.eqb_neq d 0)) by done. apply Hstep.
Qed.

End ramfs.

(** Creating a file by its path.  When the parent directory exists, is not
    mounted over, has room and no entry of that name, [vfs_create] either faults
    because the heap is exhausted, or returns a new empty file that the same
    path resolves to afterwards; the file system stays well formed and every
    path that resolved before resolves to the same node. *)
Theorem vfs_create_resolves {H : Type} `{KernelHeapLaws H} (s : ramfs H) (root : Z) (dirs name : list Z) (s0 : ramfs H) (d : Z)
    (dn : ramfs_node) (pr : ramfs_internal) (k : Z) :
  ramfs_ok s -> (dirs = [] \/ exists dd, dirs = SLASH :: dd) -> SLASH ∉ name -> name <> [] ->
  alen dirs <= 127 -> alen name <= 127 ->
  vfs_resolve_path root s (Some (parent_of dirs)) = Some (s, d) -> d <> 0 ->
  rf_nodes s !! d = Some dn -> rf_priv s !! n_impl dn = Some pr ->
  n_flags dn = FS_DIRECTORY -> n_ops dn = Some ramfs_ops -> child_count pr < 64 ->
  Forall (fun c => exists m, rf_nodes s !! c = Some m /\ n_name m <> name) (entries pr) ->
  0 <= k -> kh_room (rf_heap s) (create_cost + k) ->
  (vfs_create root s (Some (dirs ++ SLASH :: name)) = None /\ out_of_memory (rf_heap s)) \/
  exists s' node, vfs_create root s (Some (dirs ++ SLASH :: name)) = Some (s', node) /\ ramfs_ok s' /\ file s' node [] /\
    rf_nodes s !! node = None /\
    vfs_resolve_path root s' (Some (dirs ++ SLASH :: name)) = Some (s', node) /\
    forall p s1 r, r <> 0 -> vfs_resolve_path root s (Some (SLASH :: p)) = Some (s1, r) ->
      vfs_resolve_path root s' (Some (SLASH :: p)) = Some (s', r).
Proof.
  intros Ok Hdirs Hn Hne Hdl Hnl E Hd Edn Ep Hfl Hops Hcc Hent Hk Hr.
  assert (Hcreate : vfs_create root s (Some (dirs ++ SLASH :: name)) = ramfs_create_file s d name).
  { unfold vfs_create. assert (exists c q, dirs ++ SLASH :: name = c :: q /\ c = SLASH) as (c & q & Eq & ->).
    { destruct Hdirs as [->|(dd & ->)]; by do 2 eexists. }
    rewrite Eq, Z.eqb_refl, <- Eq, split_path_spec by done. cbn [mbind option_bind]. rewrite E. cbn [mbind option_bind].
    rewrite (proj2 (Z.eqb_neq d 0)) by done. cbn [fs_nodes ramfs_fs]. rewrite Edn. cbn [mbind option_bind]. unfold node_op. by rewrite Hops. }
  rewrite Hcreate. unfold ramfs_create_file.
  destruct (ramfs_add_spec s d dn pr name FS_FILE k Ok Edn Ep Hnl Hk Hr) as
    [[? _]|[(_ & -> & Ho)|(_ & s' & node & n & pr' & -> & Ok' & X & _ & Hp & Nn & En & Hname & Hflag & Hptr & Hnops & Hpriv & Hlen & Epr' & Hent')]];
    [lia|by left|right].
  exists s', node. split; [done|]. split; [done|]. split.
  { exists n, priv_zero. rewrite Hflag. split; [done|]. split; [done|]. split; [done|]. split; [by rewrite Hlen|by left]. }
  split; [done|]. split.
  - assert (E' : vfs_resolve_path root s' (Some (parent_of dirs)) = Some (s', d)).
    { destruct Hdirs as [->|(dd & ->)]; by apply (resolve_extends s s' root _ s d). }
    rewrite (resolve_parent s' root dirs name s' d) by done.
    unfold vfs_finddir. rewrite (proj2 (Z.eqb_neq d 0)) by done. cbn [fs_nodes ramfs_fs].
    rewrite (proj1 X d dn Edn). cbn [mbind option_bind]. 
    assert (mounted dn = false) as -> by (unfold mounted; by rewrite Hfl).
    rewrite (proj1 X d dn Edn). cbn [mbind option_bind]. rewrite Hfl. change (has_flag FS_DIRECTORY FS_DIRECTORY) with true.
    unfold node_op. rewrite Hops. cbn [op_finddir ramfs_fs]. unfold ramfs_finddir. rewrite (proj1 X d dn Edn). cbn [mbind option_bind].
    rewrite Hfl. change (Z.land FS_DIRECTORY FS_DIRECTORY =? 0) with false.
    destruct (rk_node s' Ok' d dn (proj1 X d dn Edn)) as (Hi & _). rewrite (proj2 (Z.eqb_neq _ 0) Hi), Epr'. cbn [mbind option_bind].
    change (take (Z.to_nat (child_count pr')) (children pr')) with (entries pr'). rewrite Hent'.
    rewrite (find_child_last s' (entries pr) node n name); [|eapply Forall_impl; [exact Hent|]; intros c (m & Em & Hm); exists m; split; [by apply X|done]|done|done].
    cbn [mbind option_bind]. rewrite (proj2 (Z.eqb_neq node 0)) by lia. rewrite En. cbn [mbind option_bind].
    unfold mounted. by rewrite Hptr, andb_false_r.
  - intros p s1 r Hr' Ers. by apply (resolve_extends s s' root p s1 r).
Qed.

(** C26.  Writing and reading a file.  [ramfs_write] either fails for lack of memory,
    returning 0 and leaving the contents, or stores the bytes: every later read
    returns the slice of the updated contents, in particular the bytes written
    read back.  No other file changes and the file system stays well formed. *)
Theorem ramfs_write_read {H : Type} `{KernelHeapLaws H} (s : ramfs H) (p : Z) (c : list Z) (offset : Z) (buffer : list Z) (k : Z) :
  ramfs_ok s -> file s p c -> 0 <= offset -> offset + alen buffer + 4096 <= 2 ^ 63 -> 0 <= k ->
  kh_room (rf_heap s) (kh_cost (page_round (offset + alen buffer)) + k) -> kh_room (rf_heap s) k ->
  exists s' r, ramfs_write s p offset (alen buffer) buffer = Some (s', r) /\ ramfs_ok s' /\
    (forall q c', q <> p -> file s q c' -> file s' q c') /\
    ((r = 0 /\ file s' p c /\ alen c < offset + alen buffer) \/
     (r = alen buffer /\ ramfs_read s' p offset (alen buffer) = Some (s', alen buffer, buffer) /\
      forall o n, 0 <= o -> 0 <= n ->
        let bytes := take (Z.to_nat n) (drop (Z.to_nat o) (write_content c offset buffer)) in
        ramfs_read s' p o n = Some (s', alen bytes, bytes))).
Proof.
  intros Ok Hf Ho Hs Hk Hr Hrk. destruct (ramfs_write_spec s p c offset buffer k Ok Hf Ho Hs Hk Hr Hrk) as
    (s' & r & E & Ok' & _ & Hoth & C). exists s', r. split; [done|]. split; [done|]. split; [done|].
  destruct C as [(-> & Hf')|?]; [right|by left]. split; [done|]. split.
  - rewrite (ramfs_read_spec s' p _ offset (alen buffer) Ok' Hf' Ho (alen_nonneg buffer)).
    unfold alen. rewrite Nat2Z.id, write_content_slice by done. done.
  - intros o n Ho' Hn. by apply ramfs_read_spec.
Qed.

(** ** A file system just booted *)

Definition ramfs_empty {H : Type} (h : H) : ramfs H := Ramfs ∅ ∅ ∅ h.

Section boot.
Context {H : Type} `{KL : KernelHeapLaws H}.

Lemma ramfs_empty_ok h L : kh_live h L -> ramfs_ok (ramfs_empty h).
Proof.
  intros HL. split; cbn; try done.
  exists L. rewrite !dom_empty_L. split; [done|]. set_solver.
Qed.

Lemma ramfs_extends_trans (s1 s2 s3 : ramfs H) : extends s1 s2 -> extends s2 s3 -> extends s1 s3.
Proof.
  intros [X1 Y1] [X2 Y2]. split; [by auto|]. intros i pr E. destruct (Y1 i pr E) as (pr' & E' & P).
  destruct (Y2 i pr' E') as (pr'' & E'' & P'). exists pr''. split; [done|]. by transitivity (entries pr').
Qed.

Lemma add_dirs_ok root k ds : forall s s', ramfs_ok s -> Forall (fun d => alen d <= 127) ds ->
  (exists n, rf_nodes s !! root = Some n) -> 0 <= k -> kh_room (rf_heap s) (Z.of_nat (length ds) * create_cost + k) ->
  foldl (fun o d => s ← o; '(s', _) ← ramfs_create_dir s root d; Some s') (Some s) ds = Some s' ->
  ramfs_ok s' /\ extends s s'.
Proof.
  induction ds as [|d ds IH]; intros s s' Ok Hds (n & En) Hk Hr E; cbn [foldl length] in *.
  - injection E as <-. split; [done|]. split; [done|]. intros i pr Ei. by exists pr.
  - apply Forall_cons in Hds as [Hd Hds]. destruct (rk_node s Ok root n En) as (_ & pr & c & Ep & _).
    assert (HN : foldl (fun o d => s ← o; '(s', _) ← ramfs_create_dir s root d; Some s') None ds = None :> option (ramfs H)).
    { clear. by induction ds. }
    pose proof (kh_cost_pos sizeof_ramfs_internal ltac:(unfold sizeof_ramfs_internal; lia)).
    pose proof (kh_cost_pos sizeof_vfs_node ltac:(unfold sizeof_vfs_node; lia)).
    assert (0 <= Z.of_nat (length ds) * create_cost) by (unfold create_cost; nia).
    destruct (ramfs_add_spec s root n pr d FS_DIRECTORY (Z.of_nat (length ds) * create_cost + k) Ok En Ep Hd) as
      [[_ Ea]|[(_ & Ea & _)|(_ & s1 & node & m & pr' & Ea & Ok1 & X & Hr1 & _)]]; [lia|by replace (create_cost + _) with
        (Z.of_nat (Datatypes.S (length ds)) * create_cost + k) by lia|..]; cbn [mbind option_bind] in E; unfold ramfs_create_dir in E at 2; rewrite Ea in E;
      cbn [mbind option_bind] in E.
    + apply (IH s s'); [done|done|by exists n|done| |done]. eapply kh_room_mono; [exact Hr|]. unfold create_cost in *. nia.
    + by rewrite HN in E.
    + destruct (IH s1 s' Ok1 Hds) as [Ok' X']; [exists n; by apply X|done|done|done|]. split; [done|].
      by eapply ramfs_extends_trans.
Qed.
(** Whatever [ramfs_init] returns on a heap with room is well formed. *)
Lemma ramfs_init_ok h L s root : kh_live h L -> kh_room h (4 * create_cost) ->
  ramfs_init (ramfs_empty h) = Some (s, root) -> ramfs_ok s.
Proof.
  intros HL Hr. unfold ramfs_init.
  pose proof (kh_cost_pos sizeof_ramfs_internal ltac:(unfold sizeof_ramfs_internal; lia)).
  pose proof (kh_cost_pos sizeof_vfs_node ltac:(unfold sizeof_vfs_node; lia)).
  destruct (new_node_spec (ramfs_empty h) [SLASH] FS_DIRECTORY (Z.lor (Z.lor FS_PERM_R FS_PERM_W) FS_PERM_X) (3 * create_cost)
    (ramfs_empty_ok h L HL)) as [[-> _]|(h1 & node & impl & -> & Ok & Hr1 & _)]; [done|unfold create_cost in *; lia|
    eapply kh_room_mono; [exact Hr|]; unfold create_cost; lia|done|]. cbn [mbind option_bind].
  destruct (foldl _ _ root_dirs) as [s'|] eqn:E; [|done]. cbn [mbind option_bind]. intros [= <- <-].
  apply (add_dirs_ok node 0 root_dirs _ _ Ok) in E as [? _]; [done|by repeat constructor| |done|
    by eapply kh_room_mono; [exact Hr1|]; cbn; lia].
  eexists. cbn. by rewrite lookup_insert_eq.
Qed.

(** A file that was created is empty. *)
Lemma created_file s p pn name s' node : ramfs_ok s -> rf_nodes s !! p = Some pn -> alen name <= 127 ->
  kh_room (rf_heap s) (create_cost + 0) -> node <> 0 -> ramfs_create_file s p name = Some (s', node) -> ramfs_ok s' /\ file s' node [].
Proof.
  intros Ok En Hn Hr Hnode E. destruct (rk_node s Ok p pn En) as (_ & pr & c & Ep & _). unfold ramfs_create_file in E.
  destruct (ramfs_add_spec s p pn pr name FS_FILE 0 Ok En Ep Hn ltac:(lia) Hr) as
    [[_ Ea]|[(_ & Ea & _)|(_ & s1 & nd & n & pr' & Ea & Ok1 & _ & _ & _ & _ & En1 & _ & Ef & _ & _ & Ep1 & El & _)]];
    rewrite E in Ea; [congruence|done|]. injection Ea as -> ->. split; [done|]. exists n, priv_zero. rewrite Ef.
  split; [done|]. split; [done|]. split; [done|]. split; [by rewrite El|by left].
Qed.

End boot.

Definition demo0 : ramfs Z := default (ramfs_empty 4096) (fst <$> ramfs_init (ramfs_empty 4096)).

Lemma demo0_ok : ramfs_ok demo0.
Proof.
  apply (ramfs_init_ok 4096 ∅ demo0 4096); [split; [lia|by intros p m E]|done|]. vm_compute. reflexivity.
Qed.

(** "/tmp" and "a". *)
Definition demo_tmp : list Z := [SLASH; 116; 109; 112].

Definition demo1 : ramfs Z := default demo0 (fst <$> vfs_create 4096 demo0 (Some (demo_tmp ++ [SLASH; 97]))).

Lemma vfs_create_resolves_witness :
  exists s' node, vfs_create 4096 demo0 (Some (demo_tmp ++ [SLASH; 97])) = Some (s', node) /\
    vfs_resolve_path 4096 s' (Some (demo_tmp ++ [SLASH; 97])) = Some (s', node).
Proof.
  destruct (vfs_create_resolves demo0 4096 demo_tmp [97] demo0 5552 (default (VfsNode [] 0 0 0 0 0 0 0 None 0 0) (rf_nodes demo0 !! 5552))
    (default priv_zero (rf_priv demo0 !! 5744)) 0) as [[E _]|(s' & node & E & _ & _ & _ & R & _)].
  - exact demo0_ok.
  - right. eexists. reflexivity.
  - apply not_elem_of_cons. split; [done|apply not_elem_of_nil].
  - done.
  - vm_compute. done.
  - vm_compute. done.
  - vm_compute. reflexivity.
  - done.
  - vm_compute. reflexivity.
  - vm_compute. reflexivity.
  - vm_compute. reflexivity.
  - vm_compute. reflexivity.
  - vm_compute. reflexivity.
  - vm_compute. constructor.
  - lia.
  - done.
  - exfalso. revert E. vm_compute. discriminate.
  - exists s', node. split; [exact E|exact R].
Defined.

Lemma demo1_ok : ramfs_ok demo1 /\ file demo1 7008 [].
Proof.
  apply (created_file demo0 5552 (default (VfsNode [] 0 0 0 0 0 0 0 None 0 0) (rf_nodes demo0 !! 5552)) [97] demo1 7008 demo0_ok);
    [vm_compute; reflexivity|vm_compute; done|done|done|vm_compute; reflexivity].
Qed.

(** "//tmp//a/" is found, and nothing is mounted yet. *)
Lemma demo1_unmounted q m : rf_nodes demo1 !! q = Some m -> mounted m = true -> is_Some (rf_nodes demo1 !! n_ptr m).
Proof.
  intros E Em. exfalso. assert (F : map_Forall (fun _ n => mounted n = false) (rf_nodes demo1)) by (apply (bool_decide_unpack _); vm_compute; exact I).
  by rewrite (F q m E) in Em.
Qed.

Lemma vfs_resolve_correct_witness :
  exists st', vfs_resolve_path 4096 demo1 (Some [SLASH; SLASH; 116; 109; 112; SLASH; SLASH; 97; SLASH]) = Some (st', 7008).
Proof.
  destruct (vfs_resolve_correct ramfs_valid 4096 4096 demo1 (Some [SLASH; SLASH; 116; 109; 112; SLASH; SLASH; 97; SLASH]) ramfs_lookups)
    as (st' & r & E & _ & W).
  - eapply top_here; [done|vm_compute; reflexivity|vm_compute; reflexivity].
  - right. destruct demo1_ok as [Ok _]. split; [exact Ok|]. split; [by eexists; vm_compute; reflexivity|exact demo1_unmounted].
  - exists st'. rewrite E. f_equal. f_equal. cbn [absolute] in W.
    assert (E' : snd <$> walk demo1 4096 (components [] [SLASH; 116; 109; 112; SLASH; SLASH; 97; SLASH]) = Some 7008) by (vm_compute; reflexivity).
    change (SLASH =? SLASH) with true in W. cbv iota in W. rewrite W in E'. by injection E' as ->.
Defined.

Lemma ramfs_write_read_witness :
  exists s', ramfs_write demo1 7008 3 2 [65; 66] = Some (s', 2) /\ ramfs_read s' 7008 0 9 = Some (s', 5, [0; 0; 0; 65; 66]).
Proof.
  destruct demo1_ok as [Ok Hf].
  destruct (ramfs_write_read demo1 7008 [] 3 [65; 66] 0 Ok Hf) as (s' & r & E & _ & _ & C); [lia|vm_compute; done|lia|done|done|].
  assert (E' : snd <$> ramfs_write demo1 7008 3 (alen [65; 66]) [65; 66] = Some 2) by (vm_compute; reflexivity).
  rewrite E in E'. injection E' as ->. exists s'. split; [exact E|]. destruct C as [(C & _)|(_ & _ & R)]; [discriminate C|]. exact (R 0 9 ltac:(lia) ltac:(lia)).
Defined.

(** Neither [vfs_mkdir] nor the file system looks for an existing entry: the same
    directory can be made twice, and the second one is never found. *)
Example mkdir_duplicates :
  ('(s1, r1) ← vfs_mkdir 4096 demo0 (Some demo_tmp); '(s2, n) ← vfs_resolve_path 4096 s1 (Some demo_tmp); Some (r1, n)) = Some (0, 5552).
Proof. vm_compute. reflexivity. Qed.

(** A directory made below a regular file is reported as made but cannot be
    reached. *)
Example mkdir_below_a_file :
  let path := demo_tmp ++ [SLASH; 97; SLASH; 98] in
  ('(s1, r1) ← vfs_mkdir 4096 demo1 (Some path); '(s2, n) ← vfs_resolve_path 4096 s1 (Some path); Some (r1, n)) = Some (0, 0).
Proof. vm_compute. reflexivity. Qed.

(** A trailing slash makes an entry with the empty name. *)
Example mkdir_trailing_slash :
  ('(s1, r1) ← vfs_mkdir 4096 demo0 (Some (demo_tmp ++ [97; SLASH])); Some r1) = Some (-1) /\
  ('(s1, r1) ← vfs_mkdir 4096 demo0 (Some (demo_tmp ++ [SLASH])); Some r1) = Some 0.
Proof. vm_compute. split; reflexivity. Qed.
