(* ===== verification/Partition.v ===== *)
(** Partition tables, kernel/src/fs/partition.c and partition.h.

    The sector readers of the ATA and AHCI drivers are parameters: given a drive,
    a sector number and a count below 256, they return the bytes read, [count]
    sectors of 512 bytes, or [None] when the command fails.  The mounts of the
    three file systems, the router calls and the registration of block devices
    are the operations of the class [MountOps] on the state they work on.
    Console messages are left out. *)
From stdpp Require Import prelude gmap list.
From Stdlib Require Import ZArith Lia.
From S2P Require Import Prelude KHeap.

Open Scope Z_scope.

(** ** Little-endian fields of a byte buffer *)

Definition byte_at (b : list Z) (off : Z) : option Z := b !! Z.to_nat off.

Fixpoint le_bytes (b : list Z) (off : Z) (n : nat) : option Z :=
  match n with
  | O => Some 0
  | S n => x ← byte_at b off; r ← le_bytes b (off + 1) n; Some (x + 256 * r)
  end.

Definition le16 (b : list Z) (off : Z) : option Z := le_bytes b off 2.
Definition le32 (b : list Z) (off : Z) : option Z := le_bytes b off 4.
Definition le64 (b : list Z) (off : Z) : option Z := le_bytes b off 8.

Definition bytes_at (b : list Z) (off n : Z) : option (list Z) :=
  if off + n <=? alen b then Some (take (Z.to_nat n) (drop (Z.to_nat off) b)) else None.

(** ** The bytes of a disk *)

(** The [n] bytes from [a] of a disk whose byte [i] is [img i]. *)
Definition image_bytes (img : Z -> Z) (a n : Z) : list Z := map (fun i => img (a + i)) (seqZ 0 n).

Definition image_le32 (img : Z -> Z) (a : Z) : Z :=
  img a + 256 * img (a + 1) + 65536 * img (a + 2) + 16777216 * img (a + 3).

Lemma image_bytes_length img a n : 0 <= n -> alen (image_bytes img a n) = n.
Proof. intros Hn. unfold alen, image_bytes. rewrite length_map, length_seqZ. lia. Qed.

Lemma image_byte_at img a n i : 0 <= i < n -> byte_at (image_bytes img a n) i = Some (img (a + i)).
Proof.
  intros Hi. unfold byte_at, image_bytes. rewrite list_lookup_fmap, lookup_seqZ_lt by lia. cbn [fmap option_fmap option_map].
  do 2 f_equal. lia.
Qed.

Lemma image_le32_at img a n i : 0 <= i -> i + 4 <= n -> le32 (image_bytes img a n) i = Some (image_le32 img (a + i)).
Proof.
  intros Hi Hn. unfold le32, le_bytes. rewrite !image_byte_at by lia. cbn [mbind option_bind]. unfold image_le32. f_equal.
  replace (a + (i + 1)) with (a + i + 1) by lia. replace (a + (i + 1 + 1)) with (a + i + 2) by lia.
  replace (a + (i + 1 + 1 + 1)) with (a + i + 3) by lia. lia.
Qed.

(** ** Drives *)

Inductive disk_type := DISK_TYPE_ATA | DISK_TYPE_SATA | DISK_TYPE_NVME.

Record ata_drive := AtaDrive {
  drive_type : disk_type;
  drive_present : bool;
  drive_name : list Z }.

(** The drives are the entries of a table of addresses; [Drv] gives the sector
    readers. *)
Class DiskDrivers := {
  drives : gmap Z ata_drive;
  ata_read_sectors : Z -> Z -> Z -> option (list Z);
  ahci_read_sectors : Z -> Z -> Z -> option (list Z) }.

Section disk.
Context `{DD : DiskDrivers}.

(** The bytes read, [Some None] when the read fails; the count is a [uint8_t]. *)
Definition disk_read_sectors (drive lba count : Z) : option (option (list Z)) :=
  d ← drives !! drive;
  Some (match drive_type d with
        | DISK_TYPE_ATA => ata_read_sectors drive (u64 lba) (u8 count)
        | DISK_TYPE_SATA => ahci_read_sectors drive (u64 lba) (u8 count)
        | DISK_TYPE_NVME => None
        end).

(** The first [sectors] sectors of the drive hold the image. *)
Definition drive_holds (drive : Z) (img : Z -> Z) (sectors : Z) : Prop :=
  (forall a, 0 <= img a < 256) /\
  forall lba count, 0 <= lba -> 0 < count < 256 -> lba + count <= sectors ->
    disk_read_sectors drive lba count = Some (Some (image_bytes img (512 * lba) (512 * count))).

End disk.

Record disk_partition := DiskPartition {
  p_drive : Z;
  p_index : Z;
  p_os_type : Z;
  p_lba_start : Z;
  p_size_sectors : Z }.

Definition MAX_PARTITIONS : Z := 16.

(** ** Registering the partitions *)

(** What the probe calls; a mount returns the root node, 0 for NULL. *)
Class MountOps (St : Type) := {
  mo_fat32_mount : St -> disk_partition -> option (St * Z);
  mo_ntfs_mount : St -> disk_partition -> option (St * Z);
  mo_ext4_mount : St -> disk_partition -> option (St * Z);
  mo_vfs_mkdir : St -> list Z -> option (St * Z);
  mo_vfs_mount : St -> list Z -> Z -> option (St * Z);
  mo_register_block : St -> list Z -> Z -> Z -> Z -> option St }.

Section parse.
Context `{DD : DiskDrivers} {St : Type} `{KH : KernelHeap St} `{MO : MountOps St}.

(** "/mnt/". *)
Definition mnt_prefix : list Z := [47; 109; 110; 116; 47].

Definition vfs_probe_and_mount (s : St) (p : disk_partition) : option St :=
  d ← drives !! p_drive p;
  '(s1, fs_root) ←
    (if (p_os_type p =? 0x0B) || (p_os_type p =? 0x0C) || (p_os_type p =? 0x0E) || (p_os_type p =? 0xEF)
     then mo_fat32_mount s p
     else if p_os_type p =? 0x07 then mo_ntfs_mount s p
     else if p_os_type p =? 0x83 then mo_ext4_mount s p
     else Some (s, 0));
  let digit := u8 (49 + p_index p) in
  s2 ← (if fs_root =? 0 then Some s1
        else
          let mount_path := mnt_prefix ++ drive_name d ++ [digit] in
          '(sm, _) ← mo_vfs_mkdir s1 mount_path;
          '(sn, _) ← mo_vfs_mount sm mount_path fs_root;
          Some sn);
  mo_register_block s2 (take 3 (drive_name d) ++ [digit]) (p_drive p) (p_lba_start p) (p_size_sectors p).

(** [g_partitions] and the state below it. *)
Definition part_state : Type := list disk_partition * St.

(** [g_partitions[g_partition_count++] = p; vfs_probe_and_mount(p)]. *)
Definition register (s : part_state) (p : disk_partition) : option part_state :=
  st ← vfs_probe_and_mount s.2 p;
  Some (s.1 ++ [p], st).

(** The entry [i] of the MBR, [None] when its type is 0. *)
Definition mbr_entry (drive : Z) (sector : list Z) (i : Z) : option (option disk_partition) :=
  let o := 0x1BE + 16 * i in
  t ← byte_at sector (o + 4);
  lba ← le32 sector (o + 8);
  size ← le32 sector (o + 12);
  Some (if t =? 0 then None else Some (DiskPartition drive i t lba size)).

Fixpoint mbr_loop (drive : Z) (sector : list Z) (i : Z) (n : nat) (found : Z) (s : part_state) : option (part_state * Z) :=
  match n with
  | O => Some (s, found)
  | S n =>
      e ← mbr_entry drive sector i;
      match e with
      | None => mbr_loop drive sector (i + 1) n found s
      | Some p =>
          if MAX_PARTITIONS <=? alen s.1 then Some (s, found)
          else s' ← register s p; mbr_loop drive sector (i + 1) n (found + 1) s'
      end
  end.

(** [kmalloc] of a sector buffer; reading into NULL is a fault. *)
Definition sector_buffer (s : part_state) (n : Z) : option (part_state * Z) :=
  '(st, a) ← kh_alloc s.2 n; Some ((s.1, st), a).

Definition sector_free (s : part_state) (a : Z) : option part_state := st ← kh_free s.2 a; Some (s.1, st).

Definition partition_parse_mbr (s : part_state) (drive : Z) : option (part_state * Z) :=
  if drive =? 0 then Some (s, -1)
  else
    d ← drives !! drive;
    if negb (drive_present d) then Some (s, -1)
    else
      '(s1, buf) ← sector_buffer s 4096;
      if buf =? 0 then None
      else
        r ← disk_read_sectors drive 0 1;
        match r with
        | None => s2 ← sector_free s1 buf; Some (s2, -1)
        | Some sector =>
            b0 ← byte_at sector 510;
            b1 ← byte_at sector 511;
            if negb (b0 =? 0x55) || negb (b1 =? 0xAA) then s2 ← sector_free s1 buf; Some (s2, 0)
            else
              '(s2, found) ← mbr_loop drive sector 0 4 0 s1;
              s3 ← sector_free s2 buf;
              Some (s3, found)
        end.

(** "EFI PART". *)
Definition gpt_signature : list Z := [69; 70; 73; 32; 80; 65; 82; 84].

Definition sizeof_gpt_entry : Z := 128.

Definition gpt_entry (drive : Z) (entries : list Z) (i : Z) : option (option disk_partition) :=
  let o := sizeof_gpt_entry * i in
  guid ← bytes_at entries o 16;
  first ← le64 entries (o + 32);
  last ← le64 entries (o + 40);
  Some (if forallb (fun b => b =? 0) guid then None
        else Some (DiskPartition drive (u8 i) 0xEE first (u64 (last - first + 1)))).

Fixpoint gpt_loop (drive : Z) (entries : list Z) (i : Z) (n : nat) (found : Z) (s : part_state) : option (part_state * Z) :=
  match n with
  | O => Some (s, found)
  | S n =>
      e ← gpt_entry drive entries i;
      match e with
      | None => gpt_loop drive entries (i + 1) n found s
      | Some p =>
          if MAX_PARTITIONS <=? alen s.1 then Some (s, found)
          else s' ← register s p; gpt_loop drive entries (i + 1) n (found + 1) s'
      end
  end.

(** A division by an entry size of 0 is a fault. *)
Definition partition_parse_gpt (s : part_state) (drive : Z) : option (part_state * Z) :=
  if drive =? 0 then Some (s, -1)
  else
    d ← drives !! drive;
    if negb (drive_present d) then Some (s, -1)
    else
      '(s1, buf) ← sector_buffer s 512;
      if buf =? 0 then None
      else
        r ← disk_read_sectors drive 1 1;
        match r with
        | None => s2 ← sector_free s1 buf; Some (s2, -1)
        | Some header =>
            sig ← bytes_at header 0 8;
            if negb (bool_decide (sig = gpt_signature)) then s2 ← sector_free s1 buf; Some (s2, 0)
            else
              count ← le32 header 80;
              entry_size ← le32 header 84;
              entry_lba ← le64 header 72;
              s2 ← sector_free s1 buf;
              '(s3, ebuf) ← sector_buffer s2 512;
              if ebuf =? 0 then None
              else
                r2 ← disk_read_sectors drive entry_lba 1;
                match r2 with
                | None => s4 ← sector_free s3 ebuf; Some (s4, -1)
                | Some entries =>
                    if entry_size =? 0 then None
                    else
                      '(s4, found) ← gpt_loop drive entries 0 (Z.to_nat (Z.min (512 / entry_size) count)) 0 s3;
                      s5 ← sector_free s4 ebuf;
                      Some (s5, found)
                end
        end.

Definition partition_get_list (s : part_state) : list disk_partition * Z := (s.1, alen s.1).

(** ** The table of an MBR *)

(** The non-empty ones of the entries from [i]. *)
Fixpoint used_entries (drive : Z) (sector : list Z) (i : Z) (n : nat) : list disk_partition :=
  match n with
  | O => []
  | S n =>
      match mbr_entry drive sector i with
      | Some (Some p) => p :: used_entries drive sector (i + 1) n
      | _ => used_entries drive sector (i + 1) n
      end
  end.

Lemma le_bytes_some b n : forall off, 0 <= off -> off + Z.of_nat n <= alen b -> is_Some (le_bytes b off n).
Proof.
  induction n as [|n IH]; intros off Ho Hl; cbn [le_bytes]; [by eexists|].
  unfold byte_at. rewrite (aget_lookup 0) by lia. cbn [mbind option_bind].
  destruct (IH (off + 1)) as [r ->]; [lia|lia|]. by eexists.
Qed.

Lemma mbr_entry_some drive sector i : alen sector = 512 -> 0 <= i < 4 -> is_Some (mbr_entry drive sector i).
Proof.
  intros Hl Hi. unfold mbr_entry, byte_at, le32. rewrite (aget_lookup 0) by lia. cbn [mbind option_bind].
  destruct (le_bytes_some sector 4 (0x1BE + 16 * i + 8)) as [x ->]; [lia|lia|]. cbn [mbind option_bind].
  destruct (le_bytes_some sector 4 (0x1BE + 16 * i + 12)) as [y ->]; [lia|lia|]. by eexists.
Qed.

Definition room_left (s : part_state) : nat := Z.to_nat (MAX_PARTITIONS - alen s.1).

(** The loop registers the used entries in order while the table has room. *)
Lemma mbr_loop_spec drive sector n : alen sector = 512 -> (forall st p, p_drive p = drive -> is_Some (vfs_probe_and_mount st p)) ->
  forall i found s, 0 <= i -> i + Z.of_nat n <= 4 ->
  exists st, mbr_loop drive sector i n found s =
    Some ((s.1 ++ take (room_left s) (used_entries drive sector i n), st),
          found + alen (take (room_left s) (used_entries drive sector i n))).
Proof.
  intros Hl Hp. induction n as [|n IH]; intros i found s Hi Hn; cbn [mbr_loop used_entries].
  - exists s.2. rewrite take_nil, app_nil_r, Z.add_0_r. by destruct s.
  - destruct (mbr_entry_some drive sector i Hl) as [e Ee]; [lia|]. rewrite Ee. cbn [mbind option_bind].
    destruct e as [p|]; [|apply IH; lia]. destruct (Z.leb_spec MAX_PARTITIONS (alen s.1)) as [Hge|Hlt].
    + exists s.2. unfold room_left. replace (Z.to_nat (MAX_PARTITIONS - alen s.1)) with 0%nat by lia.
      rewrite take_0, app_nil_r, Z.add_0_r. by destruct s.
    + assert (p_drive p = drive) as Hpd.
      { revert Ee. unfold mbr_entry. intros E. simplify_option_eq. by case_match; simplify_eq. }
      unfold register. destruct (Hp s.2 p Hpd) as [st0 ->]. cbn [mbind option_bind].
      destruct (IH (i + 1) (found + 1) (s.1 ++ [p], st0)) as [st E]; [lia|lia|]. exists st. rewrite E. cbn [fst].
      assert (room_left s = Datatypes.S (room_left (s.1 ++ [p], st0))) as ->.
      { unfold room_left, alen in *. cbn [fst]. rewrite length_app. simpl. lia. }
      rewrite firstn_cons, <- app_assoc. unfold alen. cbn [length app]. do 2 f_equal. lia.
Qed.

End parse.

(** [partition_parse_mbr] on a drive with a valid MBR registers exactly the
    entries whose type is not 0, in table order, up to the 16 partitions the
    kernel keeps, and returns how many it registered. *)
Theorem partition_parse_mbr_correct `{DD : DiskDrivers} {St : Type} `{KH : KernelHeap St} `{MO : MountOps St}
    (s : part_state) (drive : Z) (d : ata_drive) (sector : list Z) :
  drive <> 0 -> drives !! drive = Some d -> drive_present d = true ->
  disk_read_sectors drive 0 1 = Some (Some sector) -> alen sector = 512 ->
  byte_at sector 510 = Some 0x55 -> byte_at sector 511 = Some 0xAA ->
  (forall (st : St) p, p_drive p = drive -> is_Some (vfs_probe_and_mount st p)) ->
  (forall st : St, exists st' a, kh_alloc st 4096 = Some (st', a) /\ a <> 0) -> (forall (st : St) a, is_Some (kh_free st a)) ->
  let new := take (room_left s) (used_entries drive sector 0 4) in
  exists st, partition_parse_mbr s drive = Some ((s.1 ++ new, st), alen new).
Proof.
  intros Hd Ed Hpr Er Hl H0 H1 Hp Ha Hf new. unfold partition_parse_mbr. rewrite (proj2 (Z.eqb_neq drive 0)), Ed by done.
  cbn [mbind option_bind]. rewrite Hpr. cbn [negb]. unfold sector_buffer. destruct (Ha s.2) as (st1 & a & -> & Hne).
  cbn [mbind option_bind]. rewrite (proj2 (Z.eqb_neq a 0)), Er by done. cbn [mbind option_bind]. rewrite H0, H1. cbn [mbind option_bind].
  change (negb (0x55 =? 0x55) || negb (0xAA =? 0xAA)) with false.
  destruct (mbr_loop_spec drive sector 4 Hl Hp 0 0 (s.1, st1)) as [st2 ->]; [lia|lia|]. cbn [mbind option_bind]. unfold sector_free. cbn [fst snd].
  destruct (Hf st2 a) as [st3 ->]. cbn [mbind option_bind]. exists st3. subst new. unfold room_left. cbn [fst]. do 2 f_equal.
Qed.

(** ** An example disk *)

(** An MBR with a FAT32 entry at sector 2048, two empty entries and a Linux
    entry. *)
Definition demo_mbr : list Z :=
  replicate 0x1BE 0 ++ ([0; 0; 0; 0; 0x0C; 0; 0; 0; 0; 8; 0; 0; 64; 0; 0; 0] ++ replicate 32 0 ++
  [0; 0; 0; 0; 0x83; 0; 0; 0; 0; 16; 0; 0; 32; 0; 0; 0]) ++ [0x55; 0xAA].

#[local] Instance demo_drivers : DiskDrivers := {|
  drives := {[ 1 := AtaDrive DISK_TYPE_ATA true [104; 100; 97] ]};
  ata_read_sectors _ lba _ := if lba =? 0 then Some demo_mbr else None;
  ahci_read_sectors _ _ _ := None |}.

#[local] Instance demo_part_heap : KernelHeap (list (list Z)) := {| kh_alloc st n := Some (st, 4096); kh_free st a := Some st |}.

(** The state records the names under which file systems were mounted. *)
#[local] Instance demo_mounts : MountOps (list (list Z)) := {|
  mo_fat32_mount st p := Some (st, 8192);
  mo_ntfs_mount st p := Some (st, 8192);
  mo_ext4_mount st p := Some (st, 8192);
  mo_vfs_mkdir st path := Some (st, 0);
  mo_vfs_mount st path root := Some (st ++ [path], 0);
  mo_register_block st name drv lba n := Some st |}.

Lemma partition_parse_mbr_correct_witness :
  exists st, partition_parse_mbr ([], []) 1 =
    Some (([DiskPartition 1 0 0x0C 2048 64; DiskPartition 1 3 0x83 4096 32], st), 2).
Proof.
  destruct (partition_parse_mbr_correct ([], []) 1 (AtaDrive DISK_TYPE_ATA true [104; 100; 97]) demo_mbr) as [st E];
    try (vm_compute; reflexivity).
  - done.
  - intros st p Hp. unfold vfs_probe_and_mount. rewrite Hp. cbn. repeat case_match; by eexists.
  - intros st. by exists st, 4096.
  - intros st a. by eexists.
  - exists st. rewrite E. vm_compute. reflexivity.
Defined.

(** A GPT entry is registered with the type 0xEE, for which no file system is
    probed: nothing is mounted from a GPT disk. *)
Example gpt_never_mounted :
  vfs_probe_and_mount [] (DiskPartition 1 0 0xEE 2048 64) = Some [] /\
  vfs_probe_and_mount [] (DiskPartition 1 0 0x0C 2048 64) = Some [[47; 109; 110; 116; 47; 104; 100; 97; 49]].
Proof. vm_compute. split; reflexivity. Qed.
