(* ===== verification/Fat32.v ===== *)
(** The FAT32 driver, kernel/src/fs/fat32.c and fat32.h, read only.

    The nodes, the instances [fat32_fs_t] and the private node records are maps
    from heap addresses; the sectors come from [disk_read_sectors] (Partition).
    Loops along a cluster chain carry fuel, because the chain on the disk may be
    cyclic; [None] is undefined behaviour or a chain longer than the fuel.

    FAT32: reading a file returns the slice of its cluster chain, and the two
    directory operations work on the same list of live entries. *)
From stdpp Require Import prelude gmap list.
From Stdlib Require Import ZArith Lia.
From S2P Require Import Prelude KHeap Vfs Partition.

Open Scope Z_scope.

Record fat32_fs := Fat32Fs {
  fs_part : disk_partition;
  fat_lba : Z;
  data_lba : Z;
  root_cluster : Z;
  sectors_per_cluster : Z;
  bytes_per_cluster : Z }.

Record fat32_node_data := Fat32NodeData {
  nd_fs : Z;
  first_cluster : Z;
  file_size : Z }.

Inductive fat32_table := fat32_ops.

Notation fat32_vnode := (vfs_node fat32_table).

(** The cluster numbers from here on end a chain. *)
Definition FAT_END : Z := 0x0FFFFFF8.

Definition sizeof_fat32_fs : Z := 32.
Definition sizeof_fat32_node_data : Z := 16.
Definition sizeof_fat32_dirent : Z := 32.

(** ** Names *)

Fixpoint take_until (stop : Z) (l : list Z) : list Z :=
  match l with [] => [] | c :: l => if c =? stop then [] else c :: take_until stop l end.

(** [trim_spaces] on an array, from its end. *)
Definition trim_spaces (str : list Z) : list Z :=
  rev ((fix go l := match l with c :: l' => if c =? 32 then 0 :: go l' else l | [] => [] end) (rev str)).

(** "NAME    EXT" to "NAME.EXT"; the result ends at the first NUL. *)
Definition parse_fat32_name (src : list Z) : list Z :=
  let base := take_until 32 (take 8 src) in
  let ext := take_until 32 (take 3 (drop 8 src)) in
  let dest := base ++ (if aget 0 src 8 =? 32 then [] else 46 :: ext) in
  take_until 0 dest.

(** ** Directory entries: 32-byte records *)

Definition ent_name (e : list Z) : list Z := take 11 e.
Definition ent_attr (e : list Z) : Z := aget 0 e 11.
Definition ent_cluster (e : list Z) : Z :=
  Z.lor (aget 0 e 26 + 256 * aget 0 e 27) (Z.shiftl (aget 0 e 20 + 256 * aget 0 e 21) 16).
Definition ent_size (e : list Z) : Z := default 0 (le32 e 28).
Definition ent_flags (e : list Z) : Z := if has_flag (ent_attr e) 0x10 then FS_DIRECTORY else FS_FILE.

(** Deleted entries, long names and volume labels are skipped. *)
Definition ent_skipped (e : list Z) : bool :=
  (aget 0 e 0 =? 0xE5) || (ent_attr e =? 0x0F) || has_flag (ent_attr e) 0x08.

(** The outcome of scanning a cluster: the entry where the scan stopped, the
    end of the directory, or the count of live entries passed. *)
Inductive scan := Found (e : list Z) | EndOfDir | Passed (count : Z).

(** The scan shared by [fat32_readdir] and [fat32_finddir]: [stop] tests a live
    entry and the number of live entries before it. *)
Fixpoint scan_entries (stop : list Z -> Z -> bool) (buf : list Z) (i : Z) (n : nat) (count : Z) : option scan :=
  match n with
  | O => Some (Passed count)
  | S n =>
      e ← bytes_at buf (i * sizeof_fat32_dirent) sizeof_fat32_dirent;
      if aget 0 e 0 =? 0 then Some EndOfDir
      else if ent_skipped e then scan_entries stop buf (i + 1) n count
      else if stop e count then Some (Found e)
      else scan_entries stop buf (i + 1) n (count + 1)
  end.

Section fat32.
Context `{DD : DiskDrivers} {H : Type} `{KH : KernelHeap H} (fuel : nat).

Record fat32 := Fat32 {
  ft_nodes : gmap Z fat32_vnode;
  ft_fs : gmap Z fat32_fs;
  ft_data : gmap Z fat32_node_data;
  ft_heap : H }.

Definition set_ft_nodes (s : fat32) (m : gmap Z fat32_vnode) : fat32 := Fat32 m (ft_fs s) (ft_data s) (ft_heap s).
Definition set_ft_heap (s : fat32) (h : H) : fat32 := Fat32 (ft_nodes s) (ft_fs s) (ft_data s) h.

Definition fat32_get_next_cluster (fs : fat32_fs) (cluster : Z) : option Z :=
  let fat_offset := u32 (cluster * 4) in
  let fat_sector := u32 (fat_lba fs + fat_offset / 512) in
  let ent_offset := fat_offset mod 512 in
  r ← disk_read_sectors (p_drive (fs_part fs)) fat_sector 1;
  match r with
  | None => Some 0x0FFFFFFF
  | Some sector => next ← le32 sector ent_offset; Some (Z.land next 0x0FFFFFFF)
  end.

(** The sectors of a cluster read into a buffer of [bytes_per_cluster] bytes at
    [buf]: a NULL or short buffer is overrun. *)
Definition read_cluster (fs : fat32_fs) (buf cluster : Z) : option (option (list Z)) :=
  let cluster_lba := u32 (data_lba fs + u32 (u32 (cluster - 2) * sectors_per_cluster fs)) in
  r ← disk_read_sectors (p_drive (fs_part fs)) cluster_lba (sectors_per_cluster fs);
  match r with
  | None => Some None
  | Some bytes => if (buf =? 0) || (bytes_per_cluster fs <? alen bytes) then None else Some (Some bytes)
  end.

(** The walk of a directory's clusters; [None] inside is NULL. *)
Fixpoint walk_dir (stop : list Z -> Z -> bool) (fs : fat32_fs) (buf current_cluster count : Z) (n : nat) : option (option (list Z)) :=
  match n with
  | O => None
  | S n =>
      if negb (current_cluster <? FAT_END) then Some None
      else
        r ← read_cluster fs buf current_cluster;
        match r with
        | None => Some None
        | Some bytes =>
            sc ← scan_entries stop bytes 0 (Z.to_nat (bytes_per_cluster fs / sizeof_fat32_dirent)) count;
            match sc with
            | Found e => Some (Some e)
            | EndOfDir => Some None
            | Passed count' =>
                next ← fat32_get_next_cluster fs current_cluster;
                walk_dir stop fs buf next count' n
            end
        end
  end.

(** The private record and the instance behind a node; NULL when there is
    none. *)
Definition node_data (s : fat32) (n : fat32_vnode) : option (fat32_node_data * fat32_fs) :=
  d ← ft_data s !! n_impl n; fs ← ft_fs s !! nd_fs d; Some (d, fs).

Definition fat32_readdir (s : fat32) (node index : Z) : option (fat32 * option dirent) :=
  n ← ft_nodes s !! node;
  if n_impl n =? 0 then Some (s, None)
  else
    '(d, fs) ← node_data s n;
    '(h, buf) ← kh_alloc (ft_heap s) (bytes_per_cluster fs);
    r ← walk_dir (fun _ count => count =? index) fs buf (first_cluster d) 0 fuel;
    h' ← kh_free h buf;
    Some (set_ft_heap s h', option_map (fun e => Dirent (parse_fat32_name (ent_name e)) (ent_cluster e) (ent_flags e)) r).

(** The node made for an entry; the allocations are not tested. *)
Definition new_child (s : fat32) (fs_addr : Z) (e : list Z) : option (fat32 * Z) :=
  '(h1, child) ← kh_alloc (ft_heap s) 192;
  if child =? 0 then None
  else
    '(h2, c_data) ← kh_alloc h1 sizeof_fat32_node_data;
    if c_data =? 0 then None
    else
      let n := VfsNode (parse_fat32_name (ent_name e)) 0 0 0 (ent_flags e) 0 (ent_size e) c_data (Some fat32_ops) 0 0 in
      Some (Fat32 (<[child := n]> (ft_nodes s)) (ft_fs s)
        (<[c_data := Fat32NodeData fs_addr (ent_cluster e) (ent_size e)]> (ft_data s)) h2, child).

Definition fat32_finddir (s : fat32) (node : Z) (name : list Z) : option (fat32 * Z) :=
  n ← ft_nodes s !! node;
  if n_impl n =? 0 then Some (s, 0)
  else
    '(d, fs) ← node_data s n;
    '(h, buf) ← kh_alloc (ft_heap s) (bytes_per_cluster fs);
    r ← walk_dir (fun e _ => bool_decide (parse_fat32_name (ent_name e) = name)) fs buf (first_cluster d) 0 fuel;
    match r with
    | None => h' ← kh_free h buf; Some (set_ft_heap s h', 0)
    | Some e =>
        '(s1, child) ← new_child (set_ft_heap s h) (nd_fs d) e;
        h' ← kh_free (ft_heap s1) buf;
        Some (set_ft_heap s1 h', child)
    end.

(** [for (i = 0; i < cluster_to_skip; i++)]: [None] inside when the chain ends
    early. *)
Fixpoint skip_clusters (fs : fat32_fs) (cluster : Z) (n : nat) : option (option Z) :=
  match n with
  | O => Some (Some cluster)
  | S n =>
      next ← fat32_get_next_cluster fs cluster;
      if FAT_END <=? next then Some None else skip_clusters fs next n
  end.

(** The copying loop: the bytes gathered so far in [acc]; every round copies at
    least one byte, so the size bounds the rounds. *)
Fixpoint read_loop (fs : fat32_fs) (buf cluster size cluster_offset : Z) (acc : list Z) (n : nat) : option (list Z) :=
  match n with
  | O => None
  | S n =>
      if alen acc <? size then
        r ← read_cluster fs buf cluster;
        match r with
        | None => Some acc
        | Some bytes =>
            let room := u32 (bytes_per_cluster fs - cluster_offset) in
            let to_copy := if size - alen acc <? room then u32 (size - alen acc) else room in
            piece ← bytes_at bytes cluster_offset to_copy;
            let acc' := acc ++ piece in
            if alen acc' <? size then
              next ← fat32_get_next_cluster fs cluster;
              if FAT_END <=? next then Some acc'
              else read_loop fs buf next size 0 acc' n
            else read_loop fs buf cluster size 0 acc' n
        end
      else Some acc
  end.

Definition fat32_read (s : fat32) (node offset size : Z) : option (fat32 * Z * list Z) :=
  n ← ft_nodes s !! node;
  if negb (Z.land (n_flags n) FS_FILE =? FS_FILE) then Some (s, 0, [])
  else
    '(d, fs) ← node_data s n;
    if file_size d <=? offset then Some (s, 0, [])
    else
      let size := if file_size d <? u64 (offset + size) then u64 (file_size d - offset) else size in
      if bytes_per_cluster fs =? 0 then None
      else
        sk ← skip_clusters fs (first_cluster d) (Z.to_nat (u32 (offset / bytes_per_cluster fs)));
        match sk with
        | None => Some (s, 0, [])
        | Some cluster =>
            '(h, buf) ← kh_alloc (ft_heap s) (bytes_per_cluster fs);
            bytes ← read_loop fs buf cluster size (offset mod bytes_per_cluster fs) [] (S (Z.to_nat size));
            h' ← kh_free h buf;
            Some (set_ft_heap s h', alen bytes, bytes)
        end.

#[export] Instance fat32_files : FileSystem fat32 fat32_table := {|
  fs_nodes := ft_nodes;
  fs_set_nodes := set_ft_nodes;
  op_read _ := Some fat32_read;
  op_write _ := None;
  op_open _ := None;
  op_close _ := None;
  op_readdir _ := Some fat32_readdir;
  op_finddir _ := Some fat32_finddir;
  op_mkdir _ := None;
  op_create _ := None |}.

(** ** Mounting *)

(** The fields of the boot record that are used. *)
Definition pbr_fs (part : disk_partition) (pbr : list Z) : option fat32_fs :=
  bytes_per_sector ← le16 pbr 11;
  spc ← byte_at pbr 13;
  reserved ← le16 pbr 14;
  fat_count ← byte_at pbr 16;
  per_fat ← le32 pbr 36;
  root ← le32 pbr 44;
  let fat := u32 (p_lba_start part + reserved) in
  Some (Fat32Fs part fat (u32 (fat + u32 (fat_count * per_fat))) root spc (spc * bytes_per_sector)).

Definition fat32_mount (s : fat32) (part : disk_partition) : option (fat32 * Z) :=
  '(h, sector) ← kh_alloc (ft_heap s) 512;
  r ← disk_read_sectors (p_drive part) (p_lba_start part) 1;
  match r with
  | None => h' ← kh_free h sector; Some (set_ft_heap s h', 0)
  | Some pbr =>
      if sector =? 0 then None
      else
        j ← byte_at pbr 0;
        if negb (j =? 0xEB) && negb (j =? 0xE9) then h' ← kh_free h sector; Some (set_ft_heap s h', 0)
        else
          '(h1, fs) ← kh_alloc h sizeof_fat32_fs;
          if fs =? 0 then None
          else
            f ← pbr_fs part pbr;
            label11 ← bytes_at pbr 71 11;
            let copied := take_until 0 label11 in
            let label := take_until 0 (trim_spaces (copied ++ replicate (11 - length copied) 0)) in
            '(h2, root) ← kh_alloc h1 192;
            if root =? 0 then None
            else
              '(h3, n_data) ← kh_alloc h2 sizeof_fat32_node_data;
              if n_data =? 0 then None
              else
                h4 ← kh_free h3 sector;
                Some (Fat32 (<[root := VfsNode label 0 0 0 FS_DIRECTORY 0 0 n_data (Some fat32_ops) 0 0]> (ft_nodes s))
                  (<[fs := f]> (ft_fs s)) (<[n_data := Fat32NodeData fs (root_cluster f) 0]> (ft_data s)) h4, root)
  end.

End fat32.

Arguments fat32 : clear implicits.

(** ** Theorems *)

Section fat32.
Context `{DD : DiskDrivers} {H : Type} `{KL : KernelHeapLaws H} (fuel : nat).
Implicit Types (s : fat32 H) (fs : fat32_fs) (cl : Z).

(** ** Files *)

(** The clusters from [cl] hold the data [ds]; only the links between them are
    constrained. *)
Fixpoint fat_chain fs cl (ds : list (list Z)) : Prop :=
  match ds with
  | [] => True
  | d :: ds =>
      read_cluster fs 1 cl = Some (Some d) /\ alen d = bytes_per_cluster fs /\
      (ds = [] \/ exists next, fat32_get_next_cluster fs cl = Some next /\ next < FAT_END /\ fat_chain fs next ds)
  end.

Lemma read_cluster_buf fs buf cl : buf <> 0 -> read_cluster fs buf cl = read_cluster fs 1 cl.
Proof. intros Hb. unfold read_cluster. by rewrite (proj2 (Z.eqb_neq buf 0) Hb). Qed.

Lemma skip_clusters_spec fs n : forall cl ds, fat_chain fs cl ds -> (n < length ds)%nat ->
  exists cl', skip_clusters fs cl n = Some (Some cl') /\ fat_chain fs cl' (drop n ds).
Proof.
  induction n as [|n IH]; intros cl ds C Hn; cbn [skip_clusters]; [by exists cl|].
  destruct ds as [|d ds]; cbn [length] in Hn; [lia|]. destruct C as (_ & _ & [->|(next & -> & Hlt & C)]); [simpl in Hn; lia|].
  cbn [mbind option_bind]. rewrite (proj2 (Z.leb_gt _ _) Hlt). cbn [drop]. apply IH; [done|lia].
Qed.

Lemma chain_length fs ds : forall cl, fat_chain fs cl ds -> alen (concat ds) = bytes_per_cluster fs * alen ds.
Proof.
  unfold alen. induction ds as [|d ds IH]; intros cl C; cbn [concat length]; [lia|].
  destruct C as (_ & Hd & C). rewrite length_app. unfold alen in Hd.
  assert (Z.of_nat (length (concat ds)) = bytes_per_cluster fs * Z.of_nat (length ds)); [|lia].
  destruct C as [->|(next & _ & _ & C)]; [simpl; lia|by apply (IH next)].
Qed.

Lemma slice_step (d rest : list Z) co sz : 0 <= co <= alen d -> alen d - co <= sz ->
  take (Z.to_nat sz) (drop (Z.to_nat co) (d ++ rest)) = drop (Z.to_nat co) d ++ take (Z.to_nat (sz - (alen d - co))) rest.
Proof.
  unfold alen. intros Hc Hs. rewrite drop_app_le by lia. rewrite take_app. f_equal; [apply take_ge; rewrite length_drop; lia|].
  f_equal. rewrite length_drop. lia.
Qed.

Lemma slice_within (d rest : list Z) co sz : 0 <= co <= alen d -> 0 <= sz <= alen d - co ->
  take (Z.to_nat sz) (drop (Z.to_nat co) (d ++ rest)) = take (Z.to_nat sz) (drop (Z.to_nat co) d).
Proof. unfold alen. intros Hc Hs. rewrite drop_app_le by lia. apply take_app_le. rewrite length_drop. lia. Qed.

Lemma read_loop_spec fs buf size n : buf <> 0 -> 0 < bytes_per_cluster fs < 2 ^ 32 -> size < 2 ^ 32 ->
  forall cl co acc ds, fat_chain fs cl ds -> 0 <= co < bytes_per_cluster fs -> alen acc <= size ->
  size <= alen acc + (alen (concat ds) - co) \/ alen acc = size -> size - alen acc < Z.of_nat n ->
  read_loop fs buf cl size co acc n = Some (acc ++ take (Z.to_nat (size - alen acc)) (drop (Z.to_nat co) (concat ds))).
Proof.
  intros Hbuf Hb Hsz. induction n as [|n IH]; intros cl co acc ds C Hco Hacc Hs Hn; [lia|]. cbn [read_loop].
  destruct (Z.ltb_spec (alen acc) size) as [Hlt|Hge].
  2: { replace (size - alen acc) with 0 by lia. by rewrite take_0, app_nil_r. }
  destruct Hs as [Hs|Hs]; [|lia]. destruct ds as [|d ds]; [change (alen (concat [])) with 0 in Hs; lia|].
  pose proof (chain_length fs (d :: ds) cl C) as Hlen. destruct C as (Ed & Hd & C). rewrite read_cluster_buf, Ed by done. cbn [mbind option_bind].
  cbn [concat] in *. assert (Happ : alen (d ++ concat ds) = alen d + alen (concat ds)) by (unfold alen; rewrite length_app; lia).
  pose proof (alen_nonneg acc) as Ha0. rewrite (wrap_small 32 (bytes_per_cluster fs - co)) by (unfold fits; lia).
  set (tc := if size - alen acc <? bytes_per_cluster fs - co then u32 (size - alen acc) else bytes_per_cluster fs - co).
  assert (Htc : tc = Z.min (size - alen acc) (bytes_per_cluster fs - co)).
  { subst tc. destruct (Z.ltb_spec (size - alen acc) (bytes_per_cluster fs - co)); [rewrite wrap_small by (unfold fits; lia)|]; lia. }
  unfold bytes_at. rewrite (proj2 (Z.leb_le (co + tc) (alen d))) by lia. cbn [mbind option_bind].
  set (piece := take (Z.to_nat tc) (drop (Z.to_nat co) d)).
  assert (Hp : alen (acc ++ piece) = alen acc + tc).
  { unfold piece, alen. rewrite length_app, length_take, length_drop. unfold alen in *. lia. }
  rewrite Hp. destruct (Z.ltb_spec (alen acc + tc) size) as [Hmore|Hdone].
  - assert (Etc : tc = bytes_per_cluster fs - co) by lia.
    destruct C as [->|(next & -> & Hnext & C)]; [change (alen (concat [])) with 0 in *; lia|]. cbn [mbind option_bind].
    rewrite (proj2 (Z.leb_gt FAT_END next) Hnext). rewrite (IH next 0 (acc ++ piece) ds) by (done || lia).
    rewrite Hp, <- app_assoc. f_equal. f_equal. change (Z.to_nat 0) with 0%nat. rewrite drop_0.
    rewrite slice_step by lia. unfold piece. rewrite take_ge by (rewrite length_drop; unfold alen in *; lia).
    do 2 f_equal. lia.
  - assert (Etc : tc = size - alen acc) by lia. destruct n as [|n]; [lia|]. cbn [read_loop].
    rewrite Hp, (proj2 (Z.ltb_ge _ _)) by lia. do 2 f_equal. rewrite slice_within by lia. unfold piece. by rewrite Etc.
Qed.

(** Without a buffer the first cluster is written at NULL. *)
Lemma read_loop_null fs size co cl ds n : 0 < size -> fat_chain fs cl ds -> ds <> [] -> read_loop fs 0 cl size co [] (Datatypes.S n) = None.
Proof.
  intros Hs C Hne. destruct ds as [|d ds]; [done|]. destruct C as (Ed & _). cbn [read_loop]. change (alen []) with 0.
  rewrite (proj2 (Z.ltb_lt 0 size) Hs). unfold read_cluster in *. destruct (disk_read_sectors _ _ _) as [[bs|]|]; done.
Qed.

Lemma drop_chain fs ds : forall cl k, fat_chain fs cl ds -> (k <= length ds)%nat ->
  concat (drop k ds) = drop (Z.to_nat (bytes_per_cluster fs * Z.of_nat k)) (concat ds).
Proof.
  induction ds as [|d ds IH]; intros cl [|k] C Hk; cbn [length] in Hk; try lia; cbn [drop concat].
  - by rewrite Z.mul_0_r.
  - by rewrite Z.mul_0_r.
  - destruct C as (_ & Hd & C). unfold alen in Hd.
    replace (Z.to_nat (bytes_per_cluster fs * Z.of_nat (Datatypes.S k))) with (length d + Z.to_nat (bytes_per_cluster fs * Z.of_nat k))%nat by lia.
    rewrite <- drop_drop, drop_app_length. destruct C as [->|(next & _ & _ & C)]; [|by apply (IH next); [|lia]].
    rewrite drop_nil. cbn [concat]. by rewrite drop_nil.
Qed.

(** *** The chain on the disk *)

(** Where the FAT has the link of a cluster, and where a cluster has its bytes.
    A link is a little-endian double word of which 28 bits count. *)
Definition fat_link (img : Z -> Z) fs (c : Z) : Z := image_le32 img (512 * fat_lba fs + 4 * c) mod 2 ^ 28.

Definition cluster_bytes (img : Z -> Z) fs (c : Z) : list Z :=
  image_bytes img (512 * (data_lba fs + (c - 2) * sectors_per_cluster fs)) (512 * sectors_per_cluster fs).

(** A cluster number whose link and whose bytes lie on the volume. *)
Definition in_volume fs (sectors c : Z) : Prop :=
  2 <= c < FAT_END /\ fat_lba fs + c / 128 < sectors /\ data_lba fs + (c - 1) * sectors_per_cluster fs <= sectors.

Definition geometry_ok fs (sectors : Z) : Prop :=
  0 <= fat_lba fs /\ 0 <= data_lba fs /\ 0 < sectors_per_cluster fs < 256 /\
  bytes_per_cluster fs = 512 * sectors_per_cluster fs /\ sectors <= 2 ^ 32.

(** The chain of a file: its clusters from the first, each linked to the next.
    The link of the last one is not read. *)
Definition cluster_chain (img : Z -> Z) fs (sectors first : Z) (cs : list Z) : Prop :=
  (cs = [] \/ head cs = Some first) /\ Forall (in_volume fs sectors) cs /\
  forall i a b, cs !! i = Some a -> cs !! Datatypes.S i = Some b -> fat_link img fs a = b.

Lemma read_cluster_image img fs sectors c : drive_holds (p_drive (fs_part fs)) img sectors -> geometry_ok fs sectors ->
  in_volume fs sectors c -> read_cluster fs 1 c = Some (Some (cluster_bytes img fs c)).
Proof.
  intros [_ HR] (H1 & H2 & H3 & H4 & H5) (Hc & _ & Hd). unfold read_cluster.
  assert (Hlo : 0 <= (c - 2) * sectors_per_cluster fs) by nia. unfold FAT_END in Hc.
  rewrite (wrap_small 32 (c - 2)) by (unfold fits; lia). rewrite (wrap_small 32 ((c - 2) * _)) by (unfold fits; nia).
  rewrite wrap_small by (unfold fits; nia). rewrite HR by nia. cbn [mbind option_bind]. rewrite image_bytes_length by lia.
  rewrite H4, Z.ltb_irrefl. done.
Qed.

Lemma next_cluster_image img fs sectors c : drive_holds (p_drive (fs_part fs)) img sectors -> geometry_ok fs sectors ->
  in_volume fs sectors c -> fat32_get_next_cluster fs c = Some (fat_link img fs c).
Proof.
  intros [_ HR] (H1 & H2 & H3 & H4 & H5) (Hc & Hf & _). unfold fat32_get_next_cluster. unfold FAT_END in Hc.
  rewrite (wrap_small 32 (c * 4)) by (unfold fits; lia).
  assert (Eq : c * 4 / 512 = c / 128) by zmod. rewrite Eq.
  assert (0 <= c / 128) by (apply Z.div_pos; lia).
  rewrite wrap_small by (unfold fits; lia). rewrite HR by lia. cbn [mbind option_bind].
  pose proof (Z.mod_pos_bound (c * 4) 512 ltac:(lia)). assert (c * 4 mod 512 = 4 * (c mod 128)) as Em by zmod.
  pose proof (Z.mod_pos_bound c 128 ltac:(lia)). rewrite Em, image_le32_at by lia. cbn [mbind option_bind]. unfold fat_link.
  change 0x0FFFFFFF with (Z.ones 28). rewrite Z.land_ones by lia. do 3 f_equal. pose proof (Z.div_mod c 128 ltac:(lia)). lia.
Qed.

Lemma chain_on_disk img fs sectors cs : drive_holds (p_drive (fs_part fs)) img sectors -> geometry_ok fs sectors ->
  forall first, cluster_chain img fs sectors first cs -> fat_chain fs first (map (cluster_bytes img fs) cs).
Proof.
  intros HD HG. induction cs as [|c cs IH]; intros first (Hh & Hv & Hl); [done|]. cbn [map fat_chain].
  destruct Hh as [|[= ->]]; [done|]. apply Forall_cons in Hv as [Hc Hv].
  split; [by eapply read_cluster_image|]. split; [destruct HG as (_ & _ & ? & -> & _); apply image_bytes_length; lia|].
  destruct cs as [|b cs]; [by left|right]. pose proof (Hl 0%nat first b eq_refl eq_refl) as El.
  exists b. split; [rewrite (next_cluster_image img fs sectors first HD HG Hc); by rewrite El|].
  split; [apply Forall_cons in Hv as [(Hb & _) _]; lia|]. apply IH. split; [by right|]. split; [done|].
  intros i x y Ex Ey. by apply (Hl (Datatypes.S i)).
Qed.

(** ** Directories *)

(** The live entries among the first [n] records from [i], and whether the
    directory ends there. *)
Fixpoint live_entries (buf : list Z) (i : Z) (n : nat) : list (list Z) * bool :=
  match n with
  | O => ([], false)
  | Datatypes.S n =>
      match bytes_at buf (i * sizeof_fat32_dirent) sizeof_fat32_dirent with
      | None => ([], false)
      | Some e =>
          if aget 0 e 0 =? 0 then ([], true)
          else let '(es, fin) := live_entries buf (i + 1) n in (if ent_skipped e then es else e :: es, fin)
      end
  end.

(** The first entry at which [stop] holds, entries numbered from [count]. *)
Fixpoint first_stop (stop : list Z -> Z -> bool) (count : Z) (es : list (list Z)) : option (list Z) :=
  match es with [] => None | e :: es => if stop e count then Some e else first_stop stop (count + 1) es end.

Lemma scan_live stop buf n : forall i count, 0 <= i -> (i + Z.of_nat n) * 32 <= alen buf ->
  scan_entries stop buf i n count =
    Some (let '(es, fin) := live_entries buf i n in
          match first_stop stop count es with
          | Some e => Found e
          | None => if fin then EndOfDir else Passed (count + alen es)
          end).
Proof.
  induction n as [|n IH]; intros i count Hi Hl; cbn [scan_entries live_entries].
  - unfold alen. cbn. by rewrite Z.add_0_r.
  - unfold bytes_at, sizeof_fat32_dirent. rewrite (proj2 (Z.leb_le _ _)) by lia. cbn [mbind option_bind].
    set (e := take _ _). destruct (aget 0 e 0 =? 0); [done|]. rewrite !IH by lia.
    destruct (live_entries buf (i + 1) n) as [es fin]. destruct (ent_skipped e); [done|]. cbn [first_stop].
    destruct (stop e count); [done|]. destruct (first_stop stop (count + 1) es); [done|]. destruct fin; [done|].
    unfold alen. cbn [length]. do 2 f_equal. lia.
Qed.

(** The directory whose clusters start at [cl] has the live entries [es] and at
    most [n] clusters. *)
Inductive fat_dir fs : Z -> list (list Z) -> nat -> Prop :=
| fat_dir_stop cl n : FAT_END <= cl -> fat_dir fs cl [] (Datatypes.S n)
| fat_dir_end cl d es n : cl < FAT_END -> read_cluster fs 1 cl = Some (Some d) -> alen d = bytes_per_cluster fs ->
    live_entries d 0 (Z.to_nat (bytes_per_cluster fs / sizeof_fat32_dirent)) = (es, true) ->
    fat_dir fs cl es (Datatypes.S n)
| fat_dir_next cl d es es' next n : cl < FAT_END -> read_cluster fs 1 cl = Some (Some d) -> alen d = bytes_per_cluster fs ->
    live_entries d 0 (Z.to_nat (bytes_per_cluster fs / sizeof_fat32_dirent)) = (es, false) ->
    fat32_get_next_cluster fs cl = Some next -> fat_dir fs next es' n ->
    fat_dir fs cl (es ++ es') (Datatypes.S n).

Lemma first_stop_app stop es : forall count es', first_stop stop count (es ++ es') =
  match first_stop stop count es with Some e => Some e | None => first_stop stop (count + alen es) es' end.
Proof.
  unfold alen. induction es as [|e es IH]; intros count es'; cbn [app first_stop length]; [by rewrite Z.add_0_r|].
  destruct (stop e count); [done|]. rewrite IH. destruct (first_stop stop (count + 1) es); [done|]. f_equal. lia.
Qed.

(** The walk finds the first entry of the directory that stops it. *)
Lemma walk_dir_spec stop fs buf cl es n : buf <> 0 -> fat_dir fs cl es n -> forall count m, (n <= m)%nat ->
  walk_dir stop fs buf cl count m = Some (first_stop stop count es).
Proof.
  intros Hbuf D. induction D as [cl n Hcl|cl d es n Hcl Ed Hd El|cl d es es' next n Hcl Ed Hd El En D IH];
    intros count [|m] Hm; try lia; cbn [walk_dir].
  - by rewrite (proj2 (Z.ltb_ge _ _)).
  - rewrite (proj2 (Z.ltb_lt _ _)) by done. cbn [negb]. rewrite read_cluster_buf, Ed by done. cbn [mbind option_bind].
    rewrite scan_live; [|done|]; [rewrite El; cbn [mbind option_bind]; by destruct (first_stop stop count es)|].
    pose proof (alen_nonneg d). rewrite Z2Nat.id by (apply Z.div_pos; unfold sizeof_fat32_dirent; lia). unfold sizeof_fat32_dirent. zmod.
  - rewrite (proj2 (Z.ltb_lt _ _)) by done. cbn [negb]. rewrite read_cluster_buf, Ed by done. cbn [mbind option_bind].
    rewrite scan_live; [|done|].
    + rewrite El. cbn [mbind option_bind]. rewrite first_stop_app. destruct (first_stop stop count es); [done|].
      rewrite En. cbn [mbind option_bind]. apply IH. lia.
    + pose proof (alen_nonneg d). rewrite Z2Nat.id by (apply Z.div_pos; unfold sizeof_fat32_dirent; lia). unfold sizeof_fat32_dirent. zmod.
Qed.

(** A directory whose chain comes back to a cluster without an end marker is
    walked for ever. *)
Lemma cyclic_directory_hangs stop fs buf cl d es n : buf <> 0 -> cl < FAT_END -> read_cluster fs 1 cl = Some (Some d) ->
  alen d = bytes_per_cluster fs ->
  live_entries d 0 (Z.to_nat (bytes_per_cluster fs / sizeof_fat32_dirent)) = (es, false) ->
  (forall count, first_stop stop count es = None) -> fat32_get_next_cluster fs cl = Some cl ->
  forall count, walk_dir stop fs buf cl count n = None.
Proof.
  intros Hbuf Hcl Ed Hd El Hst En. induction n as [|n IH]; intros count; [done|]. cbn [walk_dir].
  rewrite (proj2 (Z.ltb_lt _ _)) by done. cbn [negb]. rewrite read_cluster_buf, Ed by done. cbn [mbind option_bind].
  rewrite scan_live; [|done|].
  - rewrite El, Hst. cbn [mbind option_bind]. rewrite En. cbn [mbind option_bind]. apply IH.
  - pose proof (alen_nonneg d). rewrite Z2Nat.id by (apply Z.div_pos; unfold sizeof_fat32_dirent; lia). unfold sizeof_fat32_dirent. zmod.
Qed.

Lemma first_stop_index es i : 0 <= i -> first_stop (fun _ count => count =? i) 0 es = es !! Z.to_nat i.
Proof.
  intros Hi. assert (forall count, 0 <= count <= i -> first_stop (fun _ c => c =? i) count es = es !! Z.to_nat (i - count)) as G.
  { induction es as [|e es IH]; intros count Hc; cbn [first_stop]; [done|]. destruct (Z.eqb_spec count i) as [->|Hne].
    - by rewrite Z.sub_diag.
    - rewrite IH by lia. replace (Z.to_nat (i - count)) with (Datatypes.S (Z.to_nat (i - (count + 1)))) by lia. done. }
  rewrite G by lia. by rewrite Z.sub_0_r.
Qed.

End fat32.

(** The name of a live entry. *)
Definition entry_name (e : list Z) : list Z := parse_fat32_name (ent_name e).

(** The first entry with a name. *)
Definition find_entry (es : list (list Z)) (name : list Z) : option (list Z) :=
  snd <$> list_find (fun e => entry_name e = name) es.

Lemma first_stop_name es name count :
  first_stop (fun e _ => bool_decide (parse_fat32_name (ent_name e) = name)) count es = find_entry es name.
Proof.
  revert count. induction es as [|e es IH]; intros count; [done|]. cbn [first_stop]. unfold find_entry. cbn [list_find].
  unfold entry_name at 1. destruct (decide (parse_fat32_name (ent_name e) = name)); [by rewrite bool_decide_true|].
  rewrite bool_decide_false by done. rewrite IH. unfold find_entry. by destruct (list_find _ es) as [[]|].
Qed.

(** C28.  Reading a file.  The drive holds the image [img], and the clusters [cs] of
    the file are linked in the file allocation table of that image.  The read
    either faults because no cluster buffer is left, or returns exactly the
    requested slice of the file: the first [file_size] bytes of the clusters in
    the order of the chain. *)
Theorem fat32_read_correct `{DD : DiskDrivers} {H : Type} `{KernelHeapLaws H} (img : Z -> Z) (sectors : Z) (s : fat32 H)
    (node offset size : Z) (n : fat32_vnode) (d : fat32_node_data) (fs : fat32_fs) (cs : list Z) (L : gmap Z Z) :
  drive_holds (p_drive (fs_part fs)) img sectors -> geometry_ok fs sectors ->
  ft_nodes s !! node = Some n -> Z.land (n_flags n) FS_FILE = FS_FILE -> node_data s n = Some (d, fs) ->
  cluster_chain img fs sectors (first_cluster d) cs ->
  0 <= file_size d < 2 ^ 32 -> file_size d <= bytes_per_cluster fs * alen cs ->
  0 <= offset -> 0 < size -> offset + size < 2 ^ 64 ->
  kh_live (ft_heap s) L -> kh_room (ft_heap s) (kh_cost (bytes_per_cluster fs)) ->
  let bytes := take (Z.to_nat size) (drop (Z.to_nat offset)
    (take (Z.to_nat (file_size d)) (concat (map (cluster_bytes img fs) cs)))) in
  (fat32_read s node offset size = None /\ exists h, kh_alloc (ft_heap s) (bytes_per_cluster fs) = Some (h, 0)) \/
  exists h, fat32_read s node offset size = Some (set_ft_heap s h, alen bytes, bytes) /\ kh_live h L.
Proof.
  intros HD HG En Hf Ed HC Hfs Hlen' Ho Hs Hw HL Hr. pose proof (chain_on_disk img fs sectors cs HD HG _ HC) as C.
  assert (Hb : 0 < bytes_per_cluster fs < 2 ^ 32) by (destruct HG as (_ & _ & ? & -> & _); lia).
  set (ds := map (cluster_bytes img fs) cs) in *.
  assert (Hlen : file_size d <= bytes_per_cluster fs * alen ds) by (unfold ds, alen in *; by rewrite length_map).
  clearbody ds. clear HC Hlen'. intros bytes. unfold fat32_read. rewrite En. cbn [mbind option_bind]. rewrite Hf.
  change (negb (FS_FILE =? FS_FILE)) with false. rewrite Ed. cbn [mbind option_bind].
  assert (Hcat : alen (concat ds) = bytes_per_cluster fs * alen ds) by (by eapply chain_length).
  destruct (Z.leb_spec (file_size d) offset) as [Hle|Hlt].
  { right. exists (ft_heap s). subst bytes. rewrite drop_ge by (rewrite length_take; lia). rewrite take_nil.
    split; [by destruct s|done]. }
  rewrite wrap_small by (unfold fits; lia).
  set (sz := if file_size d <? offset + size then u64 (file_size d - offset) else size).
  assert (Hsz : sz = Z.min size (file_size d - offset)).
  { subst sz. destruct (Z.ltb_spec (file_size d) (offset + size)); [rewrite wrap_small by (unfold fits; lia)|]; lia. }
  assert (Hbytes : bytes = take (Z.to_nat sz) (drop (Z.to_nat offset) (concat ds))).
  { subst bytes. rewrite <- take_drop_commute || rewrite skipn_firstn_comm. rewrite take_take. f_equal. lia. }
  rewrite (proj2 (Z.eqb_neq (bytes_per_cluster fs) 0)) by lia.
  set (k := offset / bytes_per_cluster fs). assert (Hk : 0 <= k < alen ds).
  { subst k. split; [apply Z.div_pos; lia|]. apply Z.div_lt_upper_bound; lia. }
  assert (Hkw : k <= offset) by (subst k; apply Z.div_le_upper_bound; nia).
  rewrite wrap_small by (unfold fits; lia).
  destruct (skip_clusters_spec fs (Z.to_nat k) (first_cluster d) ds C) as (cl & -> & C'); [unfold alen in Hk; lia|]. cbn [mbind option_bind].
  destruct (kh_alloc_law (ft_heap s) L (bytes_per_cluster fs) 0 HL) as (h & buf & Ea & Hr' & Ca); [lia|done|by rewrite Z.add_0_r|].
  destruct Ca as [(-> & _)|(Hbuf & HLb & m & _ & HL')].
  { left. split; [|by exists h]. rewrite Ea. cbn [mbind option_bind]. rewrite read_loop_null with (ds := drop (Z.to_nat k) ds); [done|lia|done|].
    unfold alen in Hk. rewrite <- length_zero_iff_nil, length_drop. lia. }
  right. rewrite Ea. cbn [mbind option_bind].
  pose proof (Z.mod_pos_bound offset (bytes_per_cluster fs) ltac:(lia)) as Hm.
  pose proof (Z.div_mod offset (bytes_per_cluster fs) ltac:(lia)) as Hdm. fold k in Hdm.
  rewrite (read_loop_spec fs buf sz) with (ds := drop (Z.to_nat k) ds); [|lia|done|lia|done|done|unfold alen; simpl; lia| |unfold alen; simpl; lia].
  - cbn [mbind option_bind app]. change (alen []) with 0. rewrite Z.sub_0_r.
    rewrite (drop_chain fs ds (first_cluster d)) by (done || unfold alen in Hk; lia). rewrite drop_drop.
    replace (Z.to_nat (bytes_per_cluster fs * Z.of_nat (Z.to_nat k)) + Z.to_nat (offset mod bytes_per_cluster fs))%nat with (Z.to_nat offset) by lia.
    rewrite <- Hbytes. destruct (kh_free_law h _ buf m 0 HL') as (h' & -> & HL2 & _); [apply lookup_insert_eq|done|].
    cbn [mbind option_bind]. exists h'. split; [done|]. by rewrite delete_insert_id in HL2.
  - left. rewrite (chain_length fs _ cl C'). unfold alen. simpl length. rewrite length_drop. unfold alen in Hk, Hlen. nia.
Qed.

Definition entry_dirent (e : list Z) : dirent := Dirent (entry_name e) (ent_cluster e) (ent_flags e).

(** The node [c] describes the entry [e]. *)
Definition node_of_entry {H : Type} (s : fat32 H) (fs_addr : Z) (e : list Z) (c : fat32_vnode) : Prop :=
  n_name c = entry_name e /\ n_flags c = ent_flags e /\ n_length c = ent_size e /\ n_ops c = Some fat32_ops /\
  ft_data s !! n_impl c = Some (Fat32NodeData fs_addr (ent_cluster e) (ent_size e)).

(** After the cluster buffer, the allocation of the node or of its private
    record fails. *)
Definition node_alloc_fails {H : Type} `{KernelHeap H} (h0 : H) (bpc : Z) : Prop :=
  exists h buf, kh_alloc h0 bpc = Some (h, buf) /\
    ((exists h1, kh_alloc h 192 = Some (h1, 0)) \/
     (exists h1 child h2, kh_alloc h 192 = Some (h1, child) /\ kh_alloc h1 sizeof_fat32_node_data = Some (h2, 0))).

(** The two directory operations agree on the live entries [es] of a directory:
    [fat32_readdir] returns the entry with the given index, and [fat32_finddir]
    a node for the first entry with the given name, or NULL when there is none.
    They fault only when an allocation fails. *)
Theorem fat32_directory_correct `{DD : DiskDrivers} {H : Type} `{KernelHeapLaws H} (fuel : nat) (s : fat32 H) (node : Z)
    (n : fat32_vnode) (d : fat32_node_data) (fs : fat32_fs) (es : list (list Z)) (k : nat) (L : gmap Z Z) :
  ft_nodes s !! node = Some n -> n_impl n <> 0 -> node_data s n = Some (d, fs) -> 0 < bytes_per_cluster fs < 2 ^ 32 ->
  fat_dir fs (first_cluster d) es k -> (k <= fuel)%nat ->
  kh_live (ft_heap s) L -> kh_room (ft_heap s) (kh_cost (bytes_per_cluster fs) + (kh_cost 192 + kh_cost sizeof_fat32_node_data)) ->
  (exists h, kh_alloc (ft_heap s) (bytes_per_cluster fs) = Some (h, 0)) \/
  ((forall i, 0 <= i -> exists h, fat32_readdir fuel s node i = Some (set_ft_heap s h, option_map entry_dirent (es !! Z.to_nat i))) /\
   (forall name, match find_entry es name with
     | None => exists h, fat32_finddir fuel s node name = Some (set_ft_heap s h, 0)
     | Some e => node_alloc_fails (ft_heap s) (bytes_per_cluster fs) \/
         exists s' child c, fat32_finddir fuel s node name = Some (s', child) /\ child <> 0 /\
           ft_nodes s' !! child = Some c /\ n_name c = name /\ node_of_entry s' (nd_fs d) e c
     end)).
Proof.
  intros En Hi Ed Hb D Hfuel HL Hr.
  pose proof (kh_cost_pos 192 ltac:(lia)) as Hc1.
  pose proof (kh_cost_pos sizeof_fat32_node_data ltac:(unfold sizeof_fat32_node_data; lia)) as Hc2.
  destruct (kh_alloc_law (ft_heap s) L (bytes_per_cluster fs) (kh_cost 192 + kh_cost sizeof_fat32_node_data) HL) as
    (h & buf & Ea & Hr1 & C); [lia|lia|done|].
  destruct C as [(-> & _)|(Hbuf & HLb & m & _ & HL1)]; [left; by exists h|right].
  assert (Hw : forall stop, walk_dir stop fs buf (first_cluster d) 0 fuel = Some (first_stop stop 0 es))
    by (intros stop; eapply walk_dir_spec; [lia|exact D|done]).
  split.
  - intros i Hi0. destruct (kh_free_law h _ buf m _ HL1 (lookup_insert_eq _ _ _) Hr1) as (h' & Ef & _).
    exists h'. unfold fat32_readdir. rewrite En. cbn [mbind option_bind]. rewrite (proj2 (Z.eqb_neq _ 0) Hi), Ed. cbn [mbind option_bind].
    rewrite Ea. cbn [mbind option_bind]. rewrite Hw, first_stop_index by done. cbn [mbind option_bind]. rewrite Ef. done.
  - intros name. unfold fat32_finddir. rewrite En. cbn [mbind option_bind]. rewrite (proj2 (Z.eqb_neq _ 0) Hi), Ed. cbn [mbind option_bind].
    rewrite Ea. cbn [mbind option_bind]. rewrite Hw, first_stop_name. cbn [mbind option_bind].
    destruct (find_entry es name) as [e|] eqn:Efe.
    2: { destruct (kh_free_law h _ buf m _ HL1 (lookup_insert_eq _ _ _) Hr1) as (h' & Ef & _). exists h'. by rewrite Ef. }
    assert (Hname : entry_name e = name).
    { unfold find_entry in Efe. destruct (list_find _ es) as [[j e']|] eqn:El; [|done]. injection Efe as ->.
      by apply list_find_Some in El as (_ & ? & _). }
    unfold new_child. cbn [ft_heap set_ft_heap].
    destruct (kh_alloc_law h _ 192 (kh_cost sizeof_fat32_node_data) HL1) as (h1 & child & E1 & Hr2 & C1); [lia|lia|done|].
    rewrite E1. cbn [mbind option_bind]. destruct C1 as [(-> & _)|(Hch & HLc & m1 & _ & HL2)]; [left; exists h, buf; split; [done|]; left; by exists h1|].
    rewrite (proj2 (Z.eqb_neq child 0)) by lia.
    destruct (kh_alloc_law h1 _ sizeof_fat32_node_data 0 HL2) as (h2 & cd & E2 & Hr3 & C2);
      [unfold sizeof_fat32_node_data; lia|done|by rewrite Z.add_0_r|].
    rewrite E2. cbn [mbind option_bind]. destruct C2 as [(-> & _)|(Hcd & HLd & m2 & _ & HL3)]; [left; exists h, buf; split; [done|]; right; by exists h1, child, h2|].
    rewrite (proj2 (Z.eqb_neq cd 0)) by lia. cbn [mbind option_bind ft_heap].
    assert (Hne1 : child <> buf) by (intros ->; by rewrite lookup_insert_eq in HLc).
    assert (Hne2 : cd <> child) by (intros ->; by rewrite lookup_insert_eq in HLd).
    assert (Hne3 : cd <> buf).
    { intros ->. rewrite lookup_insert_ne in HLd by done. by rewrite lookup_insert_eq in HLd. }
    destruct (kh_free_law h2 _ buf m 0 HL3) as (h3 & E3 & _); [|done|].
    { rewrite lookup_insert_ne, lookup_insert_ne by done. apply lookup_insert_eq. }
    rewrite E3. cbn [mbind option_bind]. right. do 3 eexists. split; [done|]. split; [lia|]. cbn [ft_nodes ft_data set_ft_heap].
    rewrite lookup_insert_eq. split; [done|]. split; [done|]. unfold node_of_entry. cbn. by rewrite lookup_insert_eq.
Qed.

(** ** An example volume *)

(** One FAT sector at 1 and clusters of one sector from 2: the root directory in
    cluster 2 holds a deleted entry and A.TXT, 600 bytes in the clusters 3 and
    4. *)
Definition demo_fat : list Z :=
  [248; 255; 255; 15; 255; 255; 255; 15; 255; 255; 255; 15; 4; 0; 0; 0; 255; 255; 255; 15] ++ replicate 492 0.

Definition demo_entry : list Z :=
  [65; 32; 32; 32; 32; 32; 32; 32; 84; 88; 84; 32] ++ replicate 14 0 ++ [3; 0; 88; 2; 0; 0].

Definition demo_dir : list Z := (0xE5 :: replicate 31 1) ++ demo_entry ++ replicate 448 0.

(** The five sectors of the volume as an image. *)
Definition demo_img (a : Z) : Z :=
  aget 0 (replicate 512 0 ++ demo_fat ++ demo_dir ++ replicate 512 7 ++ replicate 512 9) a.

#[local] Instance fat_drivers : DiskDrivers := {|
  drives := {[ 1 := AtaDrive DISK_TYPE_ATA true [104; 100; 97] ]};
  ata_read_sectors _ lba count :=
    if lba + count <=? 5 then Some (image_bytes demo_img (512 * lba) (512 * count)) else None;
  ahci_read_sectors _ _ _ := None |}.

Definition demo_fs : fat32_fs := Fat32Fs (DiskPartition 1 0 0x0C 0 100) 1 2 2 1 512.

Definition demo_root : fat32_vnode := VfsNode [] 0 0 0 FS_DIRECTORY 0 0 300 (Some fat32_ops) 0 0.
Definition demo_file : fat32_vnode := VfsNode [65] 0 0 0 FS_FILE 0 600 400 (Some fat32_ops) 0 0.

Definition demo_state : fat32 Z :=
  Fat32 {[ 100 := demo_root; 200 := demo_file ]} {[ 500 := demo_fs ]}
    {[ 300 := Fat32NodeData 500 2 0; 400 := Fat32NodeData 500 3 600 ]} 4096.

Lemma demo_heap_live : kh_live (ft_heap demo_state) ∅.
Proof. split; [cbn; lia|]. intros p m E. by rewrite lookup_empty in E. Qed.

Lemma fat_demo_holds : drive_holds 1 demo_img 5.
Proof.
  split.
  - intros a. unfold demo_img. set (l := _ ++ _).
    assert (F : Forall (fun x => 0 <= x < 256) l) by (apply (bool_decide_unpack _); vm_compute; exact I). clearbody l.
    unfold aget. destruct (l !! Z.to_nat a) as [x|] eqn:E; [|cbn; lia]. by apply (Forall_lookup_1 _ _ _ _ F E).
  - intros lba count Hl Hc Hs. unfold disk_read_sectors. cbn [drives fat_drivers]. rewrite lookup_singleton_eq. cbn [mbind option_bind drive_type ata_read_sectors].
    rewrite !wrap_small by (unfold fits; lia). cbn [ata_read_sectors fat_drivers]. by rewrite (proj2 (Z.leb_le _ _) Hs).
Qed.

Lemma demo_chain : cluster_chain demo_img demo_fs 5 3 [3; 4].
Proof.
  split; [by right|]. split; [repeat constructor; vm_compute; intuition congruence|].
  intros [|[|i]] a b Ea Eb; [|done..]. injection Ea as <-. injection Eb as <-. vm_compute. reflexivity.
Qed.

Lemma fat32_read_correct_witness :
  exists h, fat32_read demo_state 200 500 50 = Some (set_ft_heap demo_state h, 50, replicate 12 7 ++ replicate 38 9).
Proof.
  destruct (fat32_read_correct demo_img 5 demo_state 200 500 50 demo_file (Fat32NodeData 500 3 600) demo_fs [3; 4] ∅)
    as [(_ & h & E)|(h & E & _)];
    [exact fat_demo_holds|vm_compute; intuition congruence|vm_compute; reflexivity|reflexivity|vm_compute; reflexivity|exact demo_chain|
     cbn; lia|vm_compute; discriminate|lia|lia|lia|exact demo_heap_live|done|discriminate E|].
  exists h. rewrite E. vm_compute. reflexivity.
Defined.

Lemma fat32_directory_correct_witness :
  (exists h, fat32_readdir 3 demo_state 100 0 = Some (set_ft_heap demo_state h, Some (Dirent [65; 46; 84; 88; 84] 3 FS_FILE))) /\
  exists s' child c, fat32_finddir 3 demo_state 100 [65; 46; 84; 88; 84] = Some (s', child) /\ ft_nodes s' !! child = Some c /\
    n_length c = 600.
Proof.
  destruct (fat32_directory_correct 3 demo_state 100 demo_root (Fat32NodeData 500 2 0) demo_fs [demo_entry] 1 ∅) as [(h & E)|[R F]].
  - reflexivity.
  - discriminate.
  - vm_compute. reflexivity.
  - cbn. lia.
  - eapply fat_dir_end; vm_compute; reflexivity.
  - lia.
  - exact demo_heap_live.
  - done.
  - discriminate E.
  - split.
    + destruct (R 0 ltac:(lia)) as [h E]. exists h. rewrite E. vm_compute. reflexivity.
    + specialize (F [65; 46; 84; 88; 84]).
      replace (find_entry [demo_entry] [65; 46; 84; 88; 84]) with (Some demo_entry) in F by (vm_compute; reflexivity).
      destruct F as [(h & buf & E & [(h1 & E1)|(h1 & child & h2 & E1 & E2)])|(s' & child & c & E & _ & Ec & _ & (_ & _ & El & _))].
      * cbn in E. injection E as <- <-. discriminate E1.
      * cbn in E. injection E as <- <-. cbn in E1. injection E1 as <- <-. discriminate E2.
      * exists s', child, c. split; [exact E|]. split; [exact Ec|]. rewrite El. vm_compute. reflexivity.
Defined.
