(* ===== verification/Ext4.v ===== *)
(** The ext4 driver, kernel/src/fs/ext4.c and ext4.h, read only.

    The on-disk structures stay the bytes they are, with the fields as functions;
    the nodes and the private records are maps from heap addresses; the sectors
    come from [disk_read_sectors] (Partition).  [None] is undefined behaviour (an
    access outside the block that was read, an allocation that is used without a
    test, a division by zero), or a corrupted extent tree that is deeper than the
    fuel. *)
From stdpp Require Import prelude gmap list.
From Stdlib Require Import ZArith Lia.
From S2P Require Import Prelude KHeap Vfs Ramfs Partition.

Open Scope Z_scope.

Definition EXT4_MAGIC : Z := 0xEF53.
Definition EXT4_EXT_MAGIC : Z := 0xF30A.

Definition sizeof_ext4_inode : Z := 116.
Definition sizeof_extent_header : Z := 12.
Definition sizeof_extent : Z := 12.
Definition sizeof_ext4_info : Z := 1056.
Definition sizeof_ext4_node_info : Z := 128.
Definition sizeof_vfs_ops : Z := 64.

(** ** On-disk structures *)

(** Superblock: the fields that are used. *)
Record ext4_superblock := Superblock {
  log_block_size : Z;
  sb_blocks_per_group : Z;
  sb_inodes_per_group : Z;
  sb_magic : Z;
  rev_level : Z;
  sb_inode_size : Z;
  feature_incompat : Z }.

Definition parse_sb (b : list Z) : option ext4_superblock :=
  lbs ← le32 b 24; bpg ← le32 b 32; ipg ← le32 b 40; mg ← le16 b 56; rev ← le32 b 76; isz ← le16 b 88; inc ← le32 b 96;
  Some (Superblock lbs bpg ipg mg rev isz inc).

(** Inode: 116 bytes. *)
Definition i_mode (i : list Z) : Z := default 0 (le16 i 0).
Definition i_size_lo (i : list Z) : Z := default 0 (le32 i 4).
Definition i_flags (i : list Z) : Z := default 0 (le32 i 32).
Definition i_block (i : list Z) : list Z := take 60 (drop 40 i).

(** Extent header. *)
Definition eh_magic (n : list Z) : option Z := le16 n 0.
Definition eh_entries (n : list Z) : option Z := le16 n 2.
Definition eh_depth (n : list Z) : option Z := le16 n 6.

(** Entry [i] of a node: the 12 bytes behind the header. *)
Definition eh_entry (n : list Z) (i : Z) : option (list Z) := bytes_at n (sizeof_extent_header + i * sizeof_extent) sizeof_extent.

Definition ei_block (e : list Z) : Z := default 0 (le32 e 0).
Definition ei_leaf (e : list Z) : Z := Z.lor (Z.shiftl (default 0 (le16 e 8)) 32) (default 0 (le32 e 4)).

Definition ee_block (e : list Z) : Z := default 0 (le32 e 0).
Definition ee_len (e : list Z) : Z := default 0 (le16 e 4).
Definition ee_start (e : list Z) : Z := Z.lor (Z.shiftl (default 0 (le16 e 6)) 32) (default 0 (le32 e 8)).

(** ** State *)

Record ext4_info := Ext4Info {
  part : disk_partition;
  sb : ext4_superblock;
  block_size : Z;
  inodes_per_group : Z;
  blocks_per_group : Z;
  inode_size : Z }.

Record ext4_node_info := Ext4NodeInfo { ni_fs : Z; inode_num : Z; inode : list Z }.

Inductive ext4_table := ext4_ops.

Notation ext4_vnode := (vfs_node ext4_table).

Section ext4.
Context `{DD : DiskDrivers} {H : Type} `{KH : KernelHeap H} (fuel : nat).

Record ext4 := Ext4 {
  ex_nodes : gmap Z ext4_vnode;
  ex_fs : gmap Z ext4_info;
  ex_data : gmap Z ext4_node_info;
  ex_heap : H }.

Definition set_ex_nodes (s : ext4) (m : gmap Z ext4_vnode) : ext4 := Ext4 m (ex_fs s) (ex_data s) (ex_heap s).
Definition set_ex_heap (s : ext4) (h : H) : ext4 := Ext4 (ex_nodes s) (ex_fs s) (ex_data s) h.

(** Into a buffer of [block_size] bytes at [buf]; [Some None] when the read
    fails. *)
Definition ext4_read_block (fs : ext4_info) (block_num buf : Z) : option (option (list Z)) :=
  let lba := u64 (p_lba_start (part fs) + u64 (block_num * (block_size fs / 512))) in
  r ← disk_read_sectors (p_drive (part fs)) lba (block_size fs / 512);
  match r with
  | None => Some None
  | Some bytes => if (buf =? 0) || (block_size fs <? alen bytes) then None else Some (Some bytes)
  end.

(** [rev_level > 0 && (feature_incompat & 0x80)]. *)
Definition desc_size (fs : ext4_info) : Z :=
  if (0 <? rev_level (sb fs)) && has_flag (feature_incompat (sb fs)) 0x80 then 64 else 32.

(** The result is the inode, when it was read; the block buffer is freed on
    every path. *)
Definition ext4_read_inode (h : H) (fs : ext4_info) (num : Z) : option (H * option (list Z)) :=
  if num =? 0 then Some (h, None)
  else if inodes_per_group fs =? 0 then None
  else
    let group := u32 (num - 1) / inodes_per_group fs in
    let index := u32 (num - 1) mod inodes_per_group fs in
    let per_block := block_size fs / desc_size fs in
    let bgd_block_offset := group / per_block in
    let bgd_index_in_block := group mod per_block in
    '(h1, block) ← kh_alloc h (block_size fs);
    if block =? 0 then Some (h1, None)
    else
      let bgd_start_block := if block_size fs =? 1024 then 2 else 1 in
      r ← ext4_read_block fs (bgd_start_block + bgd_block_offset) block;
      match r with
      | None => h2 ← kh_free h1 block; Some (h2, None)
      | Some bgdt =>
          inode_table_block ← le32 bgdt (bgd_index_in_block * desc_size fs + 8);
          let pos := u32 (index * inode_size fs) in
          r2 ← ext4_read_block fs (u32 (inode_table_block + pos / block_size fs)) block;
          match r2 with
          | None => h2 ← kh_free h1 block; Some (h2, None)
          | Some b =>
              i ← bytes_at b (pos mod block_size fs) sizeof_ext4_inode;
              h2 ← kh_free h1 block; Some (h2, Some i)
          end
      end.

(** ** The extent tree *)

(** The child chosen by an index node: the last entry that starts at or before
    the block; 0 when there is none. *)
Fixpoint index_scan (node : list Z) (l_block i : Z) (n : nat) (target : Z) : option Z :=
  match n with
  | O => Some target
  | S n =>
      e ← eh_entry node i;
      index_scan node l_block (i + 1) n (if ei_block e <=? l_block then ei_leaf e else target)
  end.

(** The physical block in a leaf: the first extent that covers the block. *)
Fixpoint leaf_scan (node : list Z) (l_block i : Z) (n : nat) : option Z :=
  match n with
  | O => Some 0
  | S n =>
      e ← eh_entry node i;
      if (ee_block e <=? l_block) && (l_block <? u32 (ee_block e + ee_len e))
      then Some (u64 (ee_start e + u32 (l_block - ee_block e)))
      else leaf_scan node l_block (i + 1) n
  end.

(** From a node to the leaf; 0 when the way ends early. *)
Fixpoint descend (fs : ext4_info) (extent_buffer : Z) (node : list Z) (l_block : Z) (n : nat) : option Z :=
  match n with
  | O => None
  | S n =>
      depth ← eh_depth node;
      entries ← eh_entries node;
      if 0 <? depth then
        target ← index_scan node l_block 0 (Z.to_nat entries) 0;
        if target =? 0 then Some 0
        else
          r ← ext4_read_block fs target extent_buffer;
          match r with
          | None => Some 0
          | Some child =>
              m ← eh_magic child;
              if negb (m =? EXT4_EXT_MAGIC) then Some 0 else descend fs extent_buffer child l_block n
          end
      else leaf_scan node l_block 0 (Z.to_nat entries)
  end.

Definition ext4_get_physical_block (h : H) (fs : ext4_info) (ino : list Z) (l_block : Z) : option (H * Z) :=
  if Z.land (i_flags ino) 0x80000 =? 0 then
    if l_block <? 12 then b ← le32 (i_block ino) (4 * l_block); Some (h, b) else Some (h, 0)
  else
    m ← eh_magic (i_block ino);
    if negb (m =? EXT4_EXT_MAGIC) then Some (h, 0)
    else
      '(h1, extent_buffer) ← kh_alloc h (block_size fs);
      r ← descend fs extent_buffer (i_block ino) l_block fuel;
      h2 ← kh_free h1 extent_buffer;
      Some (h2, r).

(** ** Files *)

(** The private record of a node and its instance. *)
Definition node_info (s : ext4) (n : ext4_vnode) : option (ext4_node_info * ext4_info) :=
  d ← ex_data s !! n_device n; fs ← ex_fs s !! ni_fs d; Some (d, fs).

(** The copying loop, with the bytes gathered so far; a failed read ends it. *)
Fixpoint read_loop (h : H) (fs : ext4_info) (ino : list Z) (buf offset size : Z) (acc : list Z) (n : nat) : option (H * list Z) :=
  match n with
  | O => None
  | S n =>
      if alen acc <? size then
        let pos := u64 (offset + alen acc) in
        let l_block := u32 (pos / block_size fs) in
        let block_offset := u32 (pos mod block_size fs) in
        '(h1, p_block) ← ext4_get_physical_block h fs ino l_block;
        r ← (if p_block =? 0 then Some (Some (replicate (Z.to_nat (block_size fs)) 0)) else ext4_read_block fs p_block buf);
        match r with
        | None => Some (h1, acc)
        | Some bytes =>
            let room := u32 (block_size fs - block_offset) in
            let to_copy := if size - alen acc <? room then u32 (size - alen acc) else room in
            piece ← bytes_at bytes block_offset to_copy;
            read_loop h1 fs ino buf offset size (acc ++ piece) n
        end
      else Some (h, acc)
  end.

Definition ext4_read (s : ext4) (node offset size : Z) : option (ext4 * Z * list Z) :=
  n ← ex_nodes s !! node;
  '(d, fs) ← node_info s n;
  let len := i_size_lo (inode d) in
  if len <=? offset then Some (s, 0, [])
  else
    let size := if len <? u64 (offset + size) then len - offset else size in
    '(h, block_buf) ← kh_alloc (ex_heap s) (block_size fs);
    if block_buf =? 0 then Some (set_ex_heap s h, 0, [])
    else if block_size fs =? 0 then None
    else
      '(h1, bytes) ← read_loop h fs (inode d) block_buf offset size [] (S (S (Z.to_nat (size / block_size fs + 1))));
      h2 ← kh_free h1 block_buf;
      Some (set_ex_heap s h2, alen bytes, bytes).

(** ** Directories *)

Definition is_dir (ino : list Z) : bool := Z.land (i_mode ino) 0xF000 =? 0x4000.

(** [strncmp(entry->name, name, name_len) == 0] for a name of that length. *)
Fixpoint name_eq (buf : list Z) (off : Z) (name : list Z) : option bool :=
  match name with
  | [] => Some true
  | c :: name => b ← byte_at buf off; if b =? c then name_eq buf (off + 1) name else Some false
  end.

(** The entries of one block, up to an unused one: the inode number of the first
    one with the name. *)
Fixpoint scan_block (fs : ext4_info) (buf : list Z) (name : list Z) (offset : Z) (n : nat) : option (option Z) :=
  match n with
  | O => None
  | S n =>
      if offset <? block_size fs then
        ino ← le32 buf offset;
        rec_len ← (if ino =? 0 then Some 0 else le16 buf (offset + 4));
        if (ino =? 0) || (rec_len =? 0) then Some None
        else
          name_len ← byte_at buf (offset + 6);
          eq ← (if alen name =? name_len then name_eq buf (offset + 8) name else Some false);
          if eq : bool then Some (Some ino) else scan_block fs buf name (u32 (offset + rec_len)) n
      else Some None
  end.

(** The node of an entry that was found; the allocations are not tested, nor is
    the inode read. *)
Definition new_child (s : ext4) (fs_addr : Z) (fs : ext4_info) (name : list Z) (ino_num : Z) : option (ext4 * Z) :=
  '(h1, child) ← kh_alloc (ex_heap s) sizeof_vfs_node;
  if child =? 0 then None
  else
    '(h2, cinfo) ← kh_alloc h1 sizeof_ext4_node_info;
    if cinfo =? 0 then None
    else
      '(h3, r) ← ext4_read_inode h2 fs ino_num;
      i ← r;
      '(h4, ops) ← kh_alloc h3 sizeof_vfs_ops;
      if ops =? 0 then None
      else
        let n := VfsNode (take 127 name) 0 0 0 (if is_dir i then FS_DIRECTORY else FS_FILE) 0 (i_size_lo i) 0 (Some ext4_ops) 0 cinfo in
        Some (Ext4 (<[child := n]> (ex_nodes s)) (ex_fs s) (<[cinfo := Ext4NodeInfo fs_addr ino_num i]> (ex_data s)) h4, child).

(** [for (i = 0; i < dir_blocks; i++)]: the inode number found. *)
Fixpoint scan_blocks (h : H) (fs : ext4_info) (ino : list Z) (dir_buf : Z) (name : list Z) (i : Z) (n : nat) : option (H * option Z) :=
  match n with
  | O => Some (h, None)
  | S n =>
      '(h1, p_block) ← ext4_get_physical_block h fs ino i;
      if p_block =? 0 then Some (h1, None)
      else
        r ← ext4_read_block fs p_block dir_buf;
        match r with
        | None => Some (h1, None)
        | Some bytes =>
            f ← scan_block fs bytes name 0 (S (Z.to_nat (block_size fs)));
            match f with
            | Some found => Some (h1, Some found)
            | None => scan_blocks h1 fs ino dir_buf name (i + 1) n
            end
        end
  end.

Definition ext4_finddir (s : ext4) (node : Z) (name : list Z) : option (ext4 * Z) :=
  n ← ex_nodes s !! node;
  '(d, fs) ← node_info s n;
  if negb (is_dir (inode d)) then Some (s, 0)
  else
    '(h, dir_buf) ← kh_alloc (ex_heap s) (block_size fs);
    if dir_buf =? 0 then Some (set_ex_heap s h, 0)
    else if block_size fs =? 0 then None
    else
      let len := i_size_lo (inode d) in
      let dir_blocks := if (len / block_size fs =? 0) && (0 <? len) then 1 else len / block_size fs in
      '(h1, found) ← scan_blocks h fs (inode d) dir_buf name 0 (Z.to_nat dir_blocks);
      match found with
      | None => h2 ← kh_free h1 dir_buf; Some (set_ex_heap s h2, 0)
      | Some ino_num =>
          '(s1, child) ← new_child (set_ex_heap s h1) (ni_fs d) fs name ino_num;
          h2 ← kh_free (ex_heap s1) dir_buf;
          Some (set_ex_heap s1 h2, child)
      end.

#[export] Instance ext4_files : FileSystem ext4 ext4_table := {|
  fs_nodes := ex_nodes;
  fs_set_nodes := set_ex_nodes;
  op_read _ := Some ext4_read;
  op_write _ := None;
  op_open _ := None;
  op_close _ := None;
  op_readdir _ := None;
  op_finddir _ := Some ext4_finddir;
  op_mkdir _ := None;
  op_create _ := None |}.

(** ** Mounting *)

(** "ext4_root". *)
Definition str_ext4_root : list Z := [101; 120; 116; 52; 95; 114; 111; 111; 116].

(** [1024 << log_block_size] is an int. *)
Definition sb_fs (p : disk_partition) (b : ext4_superblock) : option ext4_info :=
  if 21 <=? log_block_size b then None
  else Some (Ext4Info p b (Z.shiftl 1024 (log_block_size b)) (sb_inodes_per_group b) (sb_blocks_per_group b)
    (if rev_level b =? 0 then 128 else sb_inode_size b)).

Definition ext4_mount (s : ext4) (p : disk_partition) : option (ext4 * Z) :=
  r ← disk_read_sectors (p_drive p) (u64 (p_lba_start p + 2)) 2;
  match r with
  | None => Some (s, 0)
  | Some buffer =>
      b ← parse_sb buffer;
      if negb (sb_magic b =? EXT4_MAGIC) then Some (s, 0)
      else
        '(h1, fs) ← kh_alloc (ex_heap s) sizeof_ext4_info;
        if fs =? 0 then Some (set_ex_heap s h1, 0)
        else
          f ← sb_fs p b;
          '(h2, root) ← kh_alloc h1 sizeof_vfs_node;
          if root =? 0 then None
          else
            '(h3, ops) ← kh_alloc h2 sizeof_vfs_ops;
            if ops =? 0 then None
            else
              '(h4, ninfo) ← kh_alloc h3 sizeof_ext4_node_info;
              if ninfo =? 0 then None
              else
                '(h5, ri) ← ext4_read_inode h4 f 2;
                match ri with
                | None =>
                    h6 ← kh_free h5 fs; h7 ← kh_free h6 root; h8 ← kh_free h7 ninfo; Some (set_ex_heap s h8, 0)
                | Some i =>
                    let n := VfsNode str_ext4_root 0 0 0 FS_DIRECTORY 0 (i_size_lo i) 0 (Some ext4_ops) 0 ninfo in
                    Some (Ext4 (<[root := n]> (ex_nodes s)) (<[fs := f]> (ex_fs s))
                      (<[ninfo := Ext4NodeInfo fs 2 i]> (ex_data s)) h5, root)
                end
  end.

End ext4.

Arguments ext4 : clear implicits.
