(* ===== verification/Ext4Thm.v ===== *)
(** ext4: the walk of an extent tree is the lookup in its extents, and reading a
    file returns the slice of its blocks, with zeros in the holes. *)
From stdpp Require Import prelude gmap list.
From Stdlib Require Import ZArith Lia.
From S2P Require Import Prelude KHeap Vfs Partition Ext4.

Open Scope Z_scope.

(** ** Extents *)

Record extent := Extent { x_block : Z; x_len : Z; x_start : Z }.

Definition covers (l : Z) (x : extent) : Prop := x_block x <= l < x_block x + x_len x.

Global Instance covers_dec l x : Decision (covers l x).
Proof. unfold covers. apply _. Defined.

(** The specification: the first extent that covers the block, 0 for a hole. *)
Definition lookup_extent (xs : list extent) (l : Z) : Z :=
  match list_find (covers l) xs with Some (_, x) => x_start x + (l - x_block x) | None => 0 end.

(** An extent between the blocks [lo] and [hi]. *)
Definition within (lo hi : Z) (x : extent) : Prop :=
  lo <= x_block x /\ 0 <= x_len x < 2 ^ 16 /\ x_block x + x_len x <= hi /\ 0 <= x_start x < 2 ^ 48.

Lemma lookup_none xs l : Forall (fun x => ~ covers l x) xs -> lookup_extent xs l = 0.
Proof. intros F. unfold lookup_extent. by rewrite (proj2 (list_find_None _ _) F). Qed.

Lemma extent_app_l xs ys l : Forall (fun x => ~ covers l x) ys -> lookup_extent (xs ++ ys) l = lookup_extent xs l.
Proof.
  intros F. unfold lookup_extent. induction xs as [|x xs IH]; cbn [app list_find].
  - by rewrite (proj2 (list_find_None _ _) F).
  - destruct (decide (covers l x)); [done|]. destruct (list_find (covers l) (xs ++ ys)) as [[]|], (list_find (covers l) xs) as [[]|]; done.
Qed.

Lemma extent_app_r xs ys l : Forall (fun x => ~ covers l x) xs -> lookup_extent (xs ++ ys) l = lookup_extent ys l.
Proof.
  intros F. unfold lookup_extent. induction F as [|x xs Hx F IH]; cbn [app list_find]; [done|]. rewrite decide_False by done.
  destruct (list_find (covers l) (xs ++ ys)) as [[]|], (list_find (covers l) ys) as [[]|]; done.
Qed.

Lemma within_not_covers lo hi l xs : Forall (within lo hi) xs -> l < lo \/ hi <= l -> Forall (fun x => ~ covers l x) xs.
Proof. intros F Hl. eapply Forall_impl; [exact F|]. intros x (? & ? & ? & _) [? ?]. lia. Qed.

(** ** The disk *)

(** Block [b] of the file system on a disk image, and when it is on the disk. *)
Definition block_bytes (img : Z -> Z) (fs : ext4_info) (b : Z) : list Z :=
  image_bytes img (512 * p_lba_start (part fs) + block_size fs * b) (block_size fs).

Definition on_disk (fs : ext4_info) (sectors b : Z) : Prop :=
  0 < b /\ 512 * p_lba_start (part fs) + block_size fs * (b + 1) <= 512 * sectors.

Definition ext_geometry (fs : ext4_info) (sectors : Z) : Prop :=
  0 <= p_lba_start (part fs) /\ (exists k, 0 < k < 256 /\ block_size fs = 512 * k) /\ sectors <= 2 ^ 32.

(** A number as [n] bytes, least significant first. *)
Fixpoint le (n : nat) (x : Z) : list Z := match n with O => [] | S n => x mod 256 :: le n (x / 256) end.

(** An extent as the 12 bytes of a leaf, and a first block with its child as the
    12 bytes of an index node: 48-bit block numbers in two parts. *)
Definition extent_bytes (x : extent) : list Z :=
  le 4 (x_block x) ++ le 2 (x_len x) ++ le 2 (x_start x / 2 ^ 32) ++ le 4 (x_start x).

Definition index_bytes (k : Z * Z) (unused : Z) : list Z := le 4 k.1 ++ le 4 k.2 ++ le 2 (k.2 / 2 ^ 32) ++ le 2 unused.

(** The bytes of a node: the header with the magic number, the number of entries
    and the depth, then the entries. *)
Definition node_bytes (node : list Z) (depth : Z) (es : list (list Z)) : Prop :=
  alen es < 2 ^ 16 /\ exists max gen rest,
    node = le 2 0xF30A ++ le 2 (alen es) ++ le 2 max ++ le 2 depth ++ le 4 gen ++ concat es ++ rest.

(** ** Trees *)

(** The index entries [ks] (first block, physical block of the child) have the
    children described by [P], in order, with the extents [xs] in all; a block is
    [on] the disk and has the bytes [blk]. *)
Fixpoint kids_at (on : Z -> Prop) (blk : Z -> list Z) (P : list Z -> Z -> Z -> list extent -> Prop) (ks : list (Z * Z)) (hi : Z)
    (xs : list extent) : Prop :=
  match ks with
  | [] => xs = []
  | (key, leaf) :: ks' =>
      exists ys zs, let next := match ks' with (k, _) :: _ => k | [] => hi end in
        on leaf /\ 0 <= key < 2 ^ 32 /\ 0 < leaf < 2 ^ 48 /\
        key <= next /\ P (blk leaf) key next ys /\ kids_at on blk P ks' hi zs /\ xs = ys ++ zs
  end.

(** The node is the root of a tree of height [h] for the blocks from [lo] below
    [hi], with the extents [xs]. *)
Fixpoint tree_at (on : Z -> Prop) (blk : Z -> list Z) (h : nat) (node : list Z) (lo hi : Z) (xs : list extent) : Prop :=
  match h with
  | O => node_bytes node 0 (map extent_bytes xs) /\ Forall (within lo hi) xs /\ 0 <= lo /\ hi < 2 ^ 32
  | S h =>
      exists d ks es, 0 < d < 2 ^ 16 /\ node_bytes node d es /\ Forall2 (fun k e => exists u, e = index_bytes k u) ks es /\
        match ks with (k, _) :: _ => lo <= k | [] => True end /\
        kids_at on blk (tree_at on blk h) ks hi xs
  end.

(** ** Reading the bytes back *)

Lemma le_bytes_le n : forall x pre post, le_bytes (pre ++ le n x ++ post) (alen pre) n = Some (x mod 256 ^ Z.of_nat n).
Proof.
  induction n as [|n IH]; intros x pre post; [cbn; by rewrite Z.mod_1_r|]. cbn [le_bytes le]. unfold byte_at, alen.
  rewrite Nat2Z.id, lookup_app_r, Nat.sub_diag by lia. cbn [app lookup list_lookup mbind option_bind].
  specialize (IH (x / 256) (pre ++ [x mod 256]) post). rewrite <- app_assoc in IH. cbn [app] in IH.
  unfold alen in IH. rewrite length_app, Nat2Z.inj_add in IH. cbn [length] in IH. change (Z.of_nat 1) with 1 in IH. rewrite IH.
  cbn [mbind option_bind]. f_equal. rewrite Nat2Z.inj_succ, Z.pow_succ_r by lia.
  pose proof (Z.pow_pos_nonneg 256 (Z.of_nat n) ltac:(lia) ltac:(lia)). rewrite Z.rem_mul_r by lia. lia.
Qed.

Lemma extent_fields lo hi x : within lo hi x -> 0 <= lo -> hi < 2 ^ 32 ->
  ee_block (extent_bytes x) = x_block x /\ ee_len (extent_bytes x) = x_len x /\ ee_start (extent_bytes x) = x_start x.
Proof.
  intros (H1 & H2 & H3 & H4) Hlo Hhi. destruct x as [b l st]. cbn [x_block x_len x_start] in *.
  assert (E0 : le32 (extent_bytes (Extent b l st)) 0 = Some (b mod 256 ^ 4)) by exact (le_bytes_le 4 b [] _).
  assert (E4 : le16 (extent_bytes (Extent b l st)) 4 = Some (l mod 256 ^ 2)) by exact (le_bytes_le 2 l (le 4 b) _).
  assert (E6 : le16 (extent_bytes (Extent b l st)) 6 = Some ((st / 2 ^ 32) mod 256 ^ 2))
    by exact (le_bytes_le 2 (st / 2 ^ 32) (le 4 b ++ le 2 l) _).
  assert (E8 : le32 (extent_bytes (Extent b l st)) 8 = Some (st mod 256 ^ 4))
    by exact (le_bytes_le 4 st (le 4 b ++ le 2 l ++ le 2 (st / 2 ^ 32)) []).
  unfold ee_block, ee_len, ee_start. rewrite E0, E4, E6, E8. cbn [default from_option id].
  change (256 ^ 4) with (2 ^ 32). change (256 ^ 2) with (2 ^ 16).
  split; [apply Z.mod_small; lia|]. split; [apply Z.mod_small; lia|]. rewrite Z.lor_comm, lor_high by (try lia; apply Z.mod_pos_bound; lia).
  rewrite Z.shiftl_mul_pow2 by lia. rewrite (Z.mod_small (st / 2 ^ 32)) by (split; [apply Z.div_pos; lia|apply Z.div_lt_upper_bound; lia]).
  pose proof (Z.div_mod st (2 ^ 32) ltac:(lia)). lia.
Qed.

Lemma index_fields k u : 0 <= k.1 < 2 ^ 32 -> 0 <= k.2 < 2 ^ 48 -> ei_block (index_bytes k u) = k.1 /\ ei_leaf (index_bytes k u) = k.2.
Proof.
  intros H1 H2. destruct k as [b l]. cbn [fst snd] in *.
  assert (E0 : le32 (index_bytes (b, l) u) 0 = Some (b mod 256 ^ 4)) by exact (le_bytes_le 4 b [] _).
  assert (E4 : le32 (index_bytes (b, l) u) 4 = Some (l mod 256 ^ 4)) by exact (le_bytes_le 4 l (le 4 b) _).
  assert (E8 : le16 (index_bytes (b, l) u) 8 = Some ((l / 2 ^ 32) mod 256 ^ 2)) by exact (le_bytes_le 2 (l / 2 ^ 32) (le 4 b ++ le 4 l) _).
  unfold ei_block, ei_leaf. rewrite E0, E4, E8. cbn [default from_option id].
  change (256 ^ 4) with (2 ^ 32). change (256 ^ 2) with (2 ^ 16).
  split; [apply Z.mod_small; lia|]. rewrite Z.lor_comm, lor_high by (try lia; apply Z.mod_pos_bound; lia).
  rewrite Z.shiftl_mul_pow2 by lia. rewrite (Z.mod_small (l / 2 ^ 32)) by (split; [apply Z.div_pos; lia|apply Z.div_lt_upper_bound; lia]).
  pose proof (Z.div_mod l (2 ^ 32) ltac:(lia)). lia.
Qed.

Lemma node_header node d es : node_bytes node d es -> 0 <= d < 2 ^ 16 ->
  eh_magic node = Some EXT4_EXT_MAGIC /\ eh_entries node = Some (alen es) /\ eh_depth node = Some d.
Proof.
  intros (Hn & max & gen & rest & ->) Hd. pose proof (alen_nonneg es). unfold eh_magic, eh_entries, eh_depth, le16.
  split; [exact (le_bytes_le 2 0xF30A [] _)|]. split.
  - etransitivity; [exact (le_bytes_le 2 (alen es) (le 2 0xF30A) _)|]. change (256 ^ Z.of_nat 2) with (2 ^ 16). by rewrite Z.mod_small by lia.
  - etransitivity; [exact (le_bytes_le 2 d (le 2 0xF30A ++ le 2 (alen es) ++ le 2 max) _)|]. change (256 ^ Z.of_nat 2) with (2 ^ 16).
    by rewrite Z.mod_small by lia.
Qed.

Lemma concat_entry (es : list (list Z)) rest i e : Forall (fun e => length e = 12%nat) es -> es !! i = Some e ->
  take 12 (drop (12 * i) (concat es ++ rest)) = e /\ (12 * i + 12 <= length (concat es))%nat.
Proof.
  intros F. revert i. induction F as [|d es Hd F IH]; intros [|i] E; [done..| |].
  - injection E as ->. rewrite Nat.mul_0_r, drop_0. cbn [concat]. rewrite <- app_assoc, take_app_le, take_ge by lia. split; [done|]. rewrite length_app. lia.
  - cbn [concat]. rewrite <- app_assoc. replace (12 * S i)%nat with (length d + 12 * i)%nat by lia.
    rewrite <- drop_drop, drop_app_length. destruct (IH i E) as [-> ?]. split; [done|]. rewrite length_app. lia.
Qed.

Lemma node_entry node d es i e : node_bytes node d es -> Forall (fun e => length e = 12%nat) es -> es !! i = Some e ->
  eh_entry node (Z.of_nat i) = Some e.
Proof.
  intros (Hn & max & gen & rest & ->) F E. destruct (concat_entry es rest i e F E) as [Ee Hl].
  unfold eh_entry, bytes_at, sizeof_extent_header, sizeof_extent.
  set (hd := le 2 0xF30A ++ le 2 (alen es) ++ le 2 max ++ le 2 d ++ le 4 gen).
  replace (le 2 0xF30A ++ _) with (hd ++ (concat es ++ rest)) by (unfold hd; by rewrite <- !app_assoc).
  assert (Hhd : length hd = 12%nat) by done. clearbody hd. rewrite (proj2 (Z.leb_le _ _)) by (unfold alen; rewrite !length_app; lia).
  f_equal. replace (Z.to_nat (12 + Z.of_nat i * 12)) with (length hd + 12 * i)%nat by lia. rewrite <- drop_drop, drop_app_length. exact Ee.
Qed.

Section trees.
Context `{DD : DiskDrivers} (fs : ext4_info) (on : Z -> Prop) (blk : Z -> list Z).
Hypothesis read_on : forall b buf, on b -> buf <> 0 -> ext4_read_block fs b buf = Some (Some (blk b)).
Hypothesis read_null : forall b, on b -> ext4_read_block fs b 0 = None.
Implicit Types (xs : list extent).

Lemma within_mono lo lo' hi hi' xs : lo' <= lo -> hi <= hi' -> Forall (within lo hi) xs -> Forall (within lo' hi') xs.
Proof. intros ? ? F. eapply Forall_impl; [exact F|]. intros x (? & ? & ? & ?). split_and!; lia. Qed.

(** Extents stay between the bounds of their subtrees. *)
Lemma kids_within P ks : (forall c lo hi ys, P c lo hi ys -> Forall (within lo hi) ys) ->
  forall hi xs, kids_at on blk P ks hi xs -> match ks with (k, _) :: _ => k <= hi /\ Forall (within k hi) xs | [] => xs = [] end.
Proof.
  intros HP. induction ks as [|[k leaf] ks IH]; intros hi xs K; [done|].
  destruct K as (ys & zs & _ & _ & _ & Hk & HPc & K & ->). apply HP in HPc. specialize (IH hi zs K).
  destruct ks as [|[k' leaf'] ks]; [subst zs; rewrite app_nil_r; done|]. destruct IH as [Hk' F].
  split; [lia|]. apply Forall_app. split; [by eapply within_mono; [| |exact HPc]|by eapply within_mono; [| |exact F]].
Qed.

Lemma kids_bounds P ks : forall hi xs, kids_at on blk P ks hi xs -> Forall (fun k => 0 <= k.1 < 2 ^ 32 /\ 0 <= k.2 < 2 ^ 48) ks.
Proof.
  induction ks as [|[k leaf] ks IH]; intros hi xs K; [constructor|]. destruct K as (ys & zs & _ & ? & ? & _ & _ & K & _).
  constructor; [cbn; lia|]. by eapply IH.
Qed.

Lemma tree_within h : forall node lo hi xs, tree_at on blk h node lo hi xs -> Forall (within lo hi) xs.
Proof.
  induction h as [|h IH]; intros node lo hi xs T; [apply T|]. destruct T as (d & ks & es & _ & _ & _ & Hlo & K).
  apply kids_within in K; [|exact IH]. destruct ks as [|[k leaf] ks]; [by subst|]. destruct K as [_ F]. by eapply within_mono; [| |exact F].
Qed.

Lemma tree_magic h node lo hi xs : tree_at on blk h node lo hi xs -> eh_magic node = Some EXT4_EXT_MAGIC.
Proof. destruct h as [|h]; [intros (T & _)|intros (d & ks & es & ? & T & _)]; by destruct (node_header _ _ _ T ltac:(lia)) as [? _]. Qed.

(** The entries of the two kinds of nodes, through the accessors. *)
Lemma leaf_entries node xs lo hi : node_bytes node 0 (map extent_bytes xs) -> Forall (within lo hi) xs -> 0 <= lo -> hi < 2 ^ 32 ->
  forall i x, xs !! i = Some x -> exists e, eh_entry node (Z.of_nat i) = Some e /\
    ee_block e = x_block x /\ ee_len e = x_len x /\ ee_start e = x_start x.
Proof.
  intros T F Hlo Hhi i x E. exists (extent_bytes x). split; [|eapply extent_fields; [by eapply Forall_lookup_1|done..]].
  eapply node_entry; [exact T| |rewrite list_lookup_fmap; by rewrite E]. apply Forall_fmap, Forall_true. done.
Qed.

Lemma index_entries node d ks es : node_bytes node d es -> Forall2 (fun k e => exists u, e = index_bytes k u) ks es ->
  Forall (fun k => 0 <= k.1 < 2 ^ 32 /\ 0 <= k.2 < 2 ^ 48) ks ->
  forall i k, ks !! i = Some k -> exists e, eh_entry node (Z.of_nat i) = Some e /\ ei_block e = k.1 /\ ei_leaf e = k.2.
Proof.
  intros T F B i k E. destruct (Forall2_lookup_l _ _ _ _ _ F E) as (e & Ee & u & ->). exists (index_bytes k u).
  destruct (Forall_lookup_1 _ _ _ _ B E) as [? ?]. split; [|by apply index_fields].
  eapply node_entry; [exact T| |exact Ee]. apply Forall_lookup_2. intros j e Ej.
  destruct (Forall2_lookup_r _ _ _ _ _ F Ej) as (k' & _ & u' & ->). done.
Qed.

(** ** The scans *)

Definition pick (l : Z) (ks : list (Z * Z)) (t : Z) : Z := foldl (fun t k => if k.1 <=? l then k.2 else t) t ks.

Lemma index_scan_pick node l ks2 : forall ks1 t,
  (forall i k, (ks1 ++ ks2) !! i = Some k -> exists e, eh_entry node (Z.of_nat i) = Some e /\ ei_block e = k.1 /\ ei_leaf e = k.2) ->
  index_scan node l (alen ks1) (length ks2) t = Some (pick l ks2 t).
Proof.
  induction ks2 as [|k ks2 IH]; intros ks1 t He; [done|]. cbn [index_scan length pick foldl].
  destruct (He (length ks1) k) as (e & Ee & Eb & El); [by rewrite lookup_app_r, Nat.sub_diag by lia|].
  change (Z.of_nat (length ks1)) with (alen ks1) in Ee. rewrite Ee. cbn [mbind option_bind]. rewrite Eb, El.
  replace (alen ks1 + 1) with (alen (ks1 ++ [k])) by (unfold alen; rewrite length_app; simpl; lia).
  apply IH. by rewrite <- app_assoc.
Qed.

(** The first key is at or before the block. *)
Definition first_le (l : Z) (ks : list (Z * Z)) : Prop := match ks with (k, _) :: _ => k <= l | [] => False end.

Instance first_le_dec l ks : Decision (first_le l ks).
Proof. destruct ks as [|[k leaf] ks]; cbn [first_le]; apply _. Defined.

(** Below the first key nothing is found, and nothing is there. *)
Lemma pick_below P l ks : (forall c lo hi ys, P c lo hi ys -> Forall (within lo hi) ys) ->
  forall hi xs t, kids_at on blk P ks hi xs -> ~ first_le l ks ->
  pick l ks t = t /\ Forall (fun x => ~ covers l x) xs.
Proof.
  intros HP. induction ks as [|[k leaf] ks IH]; intros hi xs t K Hl; [by inversion K|].
  destruct K as (ys & zs & _ & _ & _ & Hk & HPc & K & ->). cbn [pick foldl fst snd]. cbn [first_le] in Hl. rewrite (proj2 (Z.leb_gt k l)) by lia.
  destruct (IH hi zs t K) as [E F]; [destruct ks as [|[]]; cbn [first_le]; [tauto|lia]|]. split; [done|].
  apply Forall_app. split; [|done]. eapply within_not_covers; [by eapply HP|left; lia].
Qed.

(** The child that is picked has the extents that matter. *)
Lemma pick_child P l ks : (forall c lo hi ys, P c lo hi ys -> Forall (within lo hi) ys) ->
  forall hi xs t, kids_at on blk P ks hi xs -> first_le l ks ->
  exists lo' hi' ys, pick l ks t <> 0 /\ on (pick l ks t) /\ P (blk (pick l ks t)) lo' hi' ys /\
    lookup_extent xs l = lookup_extent ys l.
Proof.
  intros HP. induction ks as [|[k leaf] ks IH]; intros hi xs t K Hl; [done|].
  destruct K as (ys & zs & Hon & _ & Hleaf & Hk & HPc & K & ->). cbn [pick foldl fst snd]. rewrite (proj2 (Z.leb_le k l)) by done.
  change (foldl _ leaf ks) with (pick l ks leaf).
  destruct (decide (first_le l ks)) as [Hn|Hn].
  - destruct (IH hi zs leaf K Hn) as (lo' & hi' & ys' & ? & ? & ? & E). exists lo', hi', ys'. split_and!; [done..|].
    rewrite extent_app_r; [done|]. eapply within_not_covers; [by eapply HP|]. right. by destruct ks as [|[]].
  - destruct (pick_below P l ks HP hi zs leaf K) as [E F]; [done|].
    rewrite E. eexists _, _, ys. split_and!; [lia|done..|]. by apply extent_app_l.
Qed.

Lemma leaf_scan_lookup node l ys : forall xs lo hi, 0 <= l < 2 ^ 32 -> Forall (within lo hi) ys -> 0 <= lo -> hi < 2 ^ 32 ->
  (forall i x, (xs ++ ys) !! i = Some x -> exists e, eh_entry node (Z.of_nat i) = Some e /\
     ee_block e = x_block x /\ ee_len e = x_len x /\ ee_start e = x_start x) ->
  leaf_scan node l (alen xs) (length ys) = Some (lookup_extent ys l).
Proof.
  induction ys as [|x ys IH]; intros xs lo hi Hl F Hlo Hhi He; [done|]. cbn [leaf_scan length].
  destruct (He (length xs) x) as (e & Ee & Eb & El & Es); [by rewrite lookup_app_r, Nat.sub_diag by lia|].
  change (Z.of_nat (length xs)) with (alen xs) in Ee. rewrite Ee. cbn [mbind option_bind]. rewrite Eb, El, Es.
  apply Forall_cons in F as [(W1 & W2 & W3 & W4) F]. rewrite wrap_small by (unfold fits; lia).
  unfold lookup_extent. cbn [list_find]. destruct (decide (covers l x)) as [[C1 C2]|C].
  - rewrite (proj2 (Z.leb_le _ _) C1), (proj2 (Z.ltb_lt _ _) C2). cbn [andb].
    rewrite (wrap_small 32) by (unfold fits; lia). by rewrite wrap_small by (unfold fits; lia).
  - replace ((x_block x <=? l) && (l <? x_block x + x_len x)) with false.
    2: { symmetry. apply andb_false_iff. rewrite Z.leb_gt, Z.ltb_ge. unfold covers in C. lia. }
    replace (alen xs + 1) with (alen (xs ++ [x])) by (unfold alen; rewrite length_app; simpl; lia).
    rewrite (IH (xs ++ [x]) lo hi) by (rewrite <- ?app_assoc; done). unfold lookup_extent.
    by destruct (list_find (covers l) ys) as [[]|].
Qed.

(** The walk of a tree, with more fuel than its height: without a buffer it
    faults at the first node that it has to read. *)
Lemma descend_lookup buf l h : forall node lo hi xs n, tree_at on blk h node lo hi xs -> 0 <= l < 2 ^ 32 -> (h < n)%nat ->
  descend fs buf node l n = Some (lookup_extent xs l) \/ (buf = 0 /\ (0 < h)%nat /\ descend fs buf node l n = None).
Proof.
  induction h as [|h IH]; intros node lo hi xs [|n] T Hl Hn; try lia; cbn [descend].
  - left. destruct T as (T & F & Hlo & Hhi). destruct (node_header _ _ _ T ltac:(lia)) as (_ & -> & ->). cbn [mbind option_bind].
    rewrite Z.ltb_irrefl. unfold alen. rewrite Nat2Z.id, length_map.
    apply (leaf_scan_lookup node l xs [] lo hi); [done..|]. by eapply leaf_entries.
  - destruct T as (d & ks & es & Hd & T & F & Hlo & K). destruct (node_header _ _ _ T ltac:(lia)) as (_ & -> & ->). cbn [mbind option_bind].
    rewrite (proj2 (Z.ltb_lt _ _)) by lia. unfold alen. rewrite Nat2Z.id, <- (Forall2_length _ _ _ F).
    pose proof (index_scan_pick node l ks [] 0 (index_entries node d ks es T F (kids_bounds _ _ _ _ K))) as Ei.
    change (alen []) with 0 in Ei. rewrite Ei. cbn [mbind option_bind]. pose proof (tree_within h) as HP.
    destruct (decide (first_le l ks)) as [Hk|Hk].
    + destruct (pick_child _ l ks HP hi xs 0 K Hk) as (lo' & hi' & ys & Hp & Hon & Tc & ->). rewrite (proj2 (Z.eqb_neq _ 0) Hp).
      destruct (decide (buf = 0)) as [->|Hb]; [right; rewrite read_null by done; split_and!; [done|lia|done]|].
      rewrite read_on by done. cbn [mbind option_bind]. rewrite (tree_magic _ _ _ _ _ Tc). cbn [mbind option_bind].
      rewrite Z.eqb_refl. cbn [negb]. destruct (IH _ lo' hi' ys n Tc Hl) as [E|(? & _)]; [lia|by left|done].
    + left. destruct (pick_below _ l ks HP hi xs 0 K) as [-> F']; [done|]. by rewrite lookup_none.
Qed.

End trees.

(** ** Files *)

Section files.
Context `{DD : DiskDrivers} {H : Type} `{KL : KernelHeapLaws H} (fuel : nat).
Implicit Types (s : ext4 H) (fs : ext4_info) (ino : list Z) (xs : list extent) (h : H) (L : gmap Z Z).

(** The inode holds the root of an extent tree for [xs]. *)
Definition inode_extents img fs sectors ino (ht : nat) xs : Prop :=
  Z.land (i_flags ino) 0x80000 <> 0 /\ exists lo hi, tree_at (on_disk fs sectors) (block_bytes img fs) ht (i_block ino) lo hi xs.

Lemma read_block_disk img fs sectors b : drive_holds (p_drive (part fs)) img sectors -> ext_geometry fs sectors -> on_disk fs sectors b ->
  ext4_read_block fs b 0 = None /\ forall buf, buf <> 0 -> ext4_read_block fs b buf = Some (Some (block_bytes img fs b)).
Proof.
  intros [_ HR] (Hp & (k & Hk & Eb) & Hs) (H0b & Hb). unfold ext4_read_block, block_bytes. rewrite Eb in *.
  replace (512 * k / 512) with k by (rewrite Z.mul_comm, Z.div_mul; lia). assert (b * k <= sectors) by nia.
  rewrite (wrap_small 64 (b * k)), wrap_small by (unfold fits; nia). rewrite HR by nia. cbn [mbind option_bind].
  split; [done|]. intros buf Hbuf. rewrite (proj2 (Z.eqb_neq buf 0) Hbuf), image_bytes_length, Z.ltb_irrefl by lia. cbn [orb].
  do 3 f_equal. lia.
Qed.

(** A round of the heap in [ext4_get_physical_block]: an allocation, given back
    at once; and a number of rounds. *)
Fixpoint borrow (h : H) (size : Z) (rounds : nat) : option H :=
  match rounds with
  | O => Some h
  | S rounds => '(h1, p) ← kh_alloc h size; h2 ← kh_free h1 p; borrow h2 size rounds
  end.

(** The physical block of a logical block: the lookup in all extents of the
    tree, with a heap that went through one round.  Without a buffer the walk
    faults at the first node that it has to read. *)
Lemma physical_block img sectors h L fs ino (ht : nat) xs l (k : Z) :
  drive_holds (p_drive (part fs)) img sectors -> ext_geometry fs sectors ->
  inode_extents img fs sectors ino ht xs -> (ht < fuel)%nat -> 0 <= l < 2 ^ 32 ->
  kh_live h L -> 0 <= k -> kh_room h (kh_cost (block_size fs) + k) ->
  exists h1 p h2, kh_alloc h (block_size fs) = Some (h1, p) /\ kh_free h1 p = Some h2 /\ kh_live h2 L /\ kh_room h2 k /\
    (ext4_get_physical_block fuel h fs ino l = Some (h2, lookup_extent xs l) \/
     (p = 0 /\ (0 < ht)%nat /\ ext4_get_physical_block fuel h fs ino l = None)).
Proof.
  intros HD HG (Hf & lo & hi & T) Hht Hl HL Hk Hr.
  assert (Hb : 0 < block_size fs < 2 ^ 17) by (destruct HG as (_ & (? & ? & ->) & _); lia).
  destruct (kh_alloc_law h L (block_size fs) k HL) as (h1 & buf & Ea & Hr1 & Ca); [lia|done|done|].
  assert (exists h2, kh_free h1 buf = Some h2 /\ kh_live h2 L /\ kh_room h2 k) as (h2 & Ef & HL2 & Hr2).
  { destruct Ca as [(-> & HL1)|(Hbuf & HLb & m & _ & HL1)]; [exists h1; by rewrite kh_free_null|].
    destruct (kh_free_law h1 _ buf m k HL1) as (h2 & Ef & HL2 & Hr2); [apply lookup_insert_eq|done|].
    rewrite delete_insert_id in HL2 by done. by exists h2. }
  exists h1, buf, h2. do 4 (split; [done|]). unfold ext4_get_physical_block. rewrite (proj2 (Z.eqb_neq _ 0) Hf), (tree_magic _ _ _ _ _ _ _ T).
  cbn [mbind option_bind]. rewrite Z.eqb_refl. cbn [negb]. rewrite Ea. cbn [mbind option_bind].
  destruct (descend_lookup fs _ _ (fun b buf Hb => proj2 (read_block_disk img fs sectors b HD HG Hb) buf)
    (fun b Hb => proj1 (read_block_disk img fs sectors b HD HG Hb)) buf l ht _ lo hi xs fuel T Hl Hht) as [-> |(-> & ? & ->)];
    [left|by right]. cbn [mbind option_bind]. by rewrite Ef.
Qed.

(** With an extent tree of any height below the fuel, whose subtrees keep to the
    ranges that their parents give them, the walk from the inode finds the first
    extent that covers the block among all extents of the tree, or 0 for a hole;
    the buffer is given back.  It faults only when there is no buffer and a node
    to be read. *)
Theorem ext4_get_physical_block_correct img sectors h L fs ino (ht : nat) xs l (k : Z) :
  drive_holds (p_drive (part fs)) img sectors -> ext_geometry fs sectors ->
  inode_extents img fs sectors ino ht xs -> (ht < fuel)%nat -> 0 <= l < 2 ^ 32 ->
  kh_live h L -> 0 <= k -> kh_room h (kh_cost (block_size fs) + k) ->
  (ext4_get_physical_block fuel h fs ino l = None /\ exists h1, kh_alloc h (block_size fs) = Some (h1, 0)) \/
  exists h', ext4_get_physical_block fuel h fs ino l = Some (h', lookup_extent xs l) /\ kh_live h' L /\ kh_room h' k.
Proof.
  intros HD HG X Hht Hl HL Hk Hr. destruct (physical_block img sectors h L fs ino ht xs l k HD HG X Hht Hl HL Hk Hr)
    as (h1 & p & h2 & Ea & _ & HL2 & Hr2 & [E|(-> & _ & E)]); [right; by exists h2|left; split; [done|by exists h1]].
Qed.

(** The blocks of a file of [nb] blocks: zeros in the holes, otherwise what the
    disk holds at the physical block. *)
Definition file_blocks img fs xs (nb : nat) : list (list Z) :=
  (fun l => if lookup_extent xs l =? 0 then replicate (Z.to_nat (block_size fs)) 0 else block_bytes img fs (lookup_extent xs l))
    <$> seqZ 0 (Z.of_nat nb).

(** The blocks in use lie on the disk. *)
Definition blocks_on_disk fs sectors xs (nb : nat) : Prop :=
  forall l, 0 <= l < Z.of_nat nb -> lookup_extent xs l <> 0 -> on_disk fs sectors (lookup_extent xs l).

Lemma file_blocks_size img fs xs nb : 0 <= block_size fs -> Forall (fun d => alen d = block_size fs) (file_blocks img fs xs nb).
Proof.
  intros Hb. apply Forall_fmap, Forall_forall. intros l Hl%elem_of_seqZ. simpl. case_bool.
  - unfold alen. rewrite length_replicate. lia.
  - by apply image_bytes_length.
Qed.

(** The copying loop gathers the rest of the slice, or faults at the first round
    that finds no buffer. *)
Lemma ext4_loop_spec img sectors fs ino (ht : nat) xs nb buf offset size L n : buf <> 0 ->
  drive_holds (p_drive (part fs)) img sectors -> ext_geometry fs sectors ->
  inode_extents img fs sectors ino ht xs -> (ht < fuel)%nat -> blocks_on_disk fs sectors xs nb ->
  0 <= offset -> offset + size <= block_size fs * Z.of_nat nb -> offset + size < 2 ^ 32 ->
  forall h acc, kh_live h L -> alen acc <= size ->
  (if size <=? alen acc then 0
   else ((offset + alen acc) mod block_size fs + (size - alen acc) + block_size fs - 1) / block_size fs) < Z.of_nat n ->
  kh_room h (kh_cost (block_size fs) * Z.of_nat n) ->
  (read_loop fuel h fs ino buf offset size acc n = None /\ (0 < ht)%nat /\
   exists j hj h', (j < n)%nat /\ borrow h (block_size fs) j = Some hj /\ kh_alloc hj (block_size fs) = Some (h', 0)) \/
  exists h', read_loop fuel h fs ino buf offset size acc n =
    Some (h', acc ++ take (Z.to_nat (size - alen acc)) (drop (Z.to_nat (offset + alen acc)) (concat (file_blocks img fs xs nb)))) /\
    kh_live h' L /\ kh_room h' 0.
Proof.
  intros Hbuf HD HG X Hht R Ho Hnb Hw.
  assert (Hb : 0 < block_size fs < 2 ^ 32) by (destruct HG as (_ & (? & ? & ->) & _); lia). set (bs := block_size fs) in *. set (file := concat _).
  induction n as [|n IH]; intros h acc HL Hacc Hn Hr; pose proof (alen_nonneg acc) as Ha0.
  { exfalso. pose proof (Z.mod_pos_bound (offset + alen acc) bs ltac:(lia)). case_bool; [lia|].
    pose proof (Z.div_pos ((offset + alen acc) mod bs + (size - alen acc) + bs - 1) bs). lia. }
  pose proof (kh_cost_pos (H := H) bs ltac:(lia)) as HC.
  cbn [read_loop]. destruct (Z.ltb_spec (alen acc) size) as [Hlt|Hge].
  2: { right. exists h. replace (size - alen acc) with 0 by lia. rewrite take_0, app_nil_r. split_and!; [done..|].
       eapply kh_room_mono; [exact Hr|]. nia. }
  fold bs. rewrite (wrap_small 64) by (unfold fits; lia). set (pos := offset + alen acc) in *.
  pose proof (Z.mod_pos_bound pos bs ltac:(lia)) as Hbo. pose proof (Z.div_mod pos bs ltac:(lia)) as Hdm.
  set (l := pos / bs) in *. set (bo := pos mod bs) in *.
  assert (Hl : 0 <= l < Z.of_nat nb) by (split; [apply Z.div_pos; lia|apply Z.div_lt_upper_bound; lia]).
  assert (Hl32 : l <= pos) by (subst l; apply Z.div_le_upper_bound; nia).
  rewrite (wrap_small 32 l) by (unfold fits; lia). rewrite (wrap_small 32 bo) by (unfold fits; lia).
  destruct (physical_block img sectors h L fs ino ht xs l (kh_cost bs * Z.of_nat n) HD HG X Hht) as
    (h0 & p & h1 & Ea & Ef & HL1 & Hr1 & [->|(-> & Hh & ->)]); [lia|done|nia| | |].
  { fold bs. eapply kh_room_mono; [exact Hr|]. nia. }
  2: { left. split; [done|]. split; [done|]. exists 0%nat, h, h0. split; [lia|]. by split. }
  cbn [mbind option_bind].
  set (d := if lookup_extent xs l =? 0 then replicate (Z.to_nat bs) 0 else block_bytes img fs (lookup_extent xs l)).
  assert (Ed : file_blocks img fs xs nb !! Z.to_nat l = Some d).
  { unfold file_blocks. rewrite list_lookup_fmap, lookup_seqZ_lt by lia. simpl. by rewrite Z2Nat.id by lia. }
  assert (Er : (if lookup_extent xs l =? 0 then Some (Some (replicate (Z.to_nat bs) 0)) else ext4_read_block fs (lookup_extent xs l) buf) = Some (Some d)).
  { unfold d. destruct (Z.eqb_spec (lookup_extent xs l) 0); [done|].
    apply (read_block_disk img fs sectors _ HD HG); [by apply R|done]. }
  rewrite Er. cbn [mbind option_bind]. pose proof (file_blocks_size img fs xs nb ltac:(lia)) as Fb.
  assert (Hd : alen d = bs) by (by apply (Forall_lookup_1 _ _ _ _ Fb Ed)).
  rewrite (wrap_small 32 (bs - bo)) by (unfold fits; lia).
  set (tc := if size - alen acc <? bs - bo then u32 (size - alen acc) else bs - bo).
  assert (Htc : tc = Z.min (size - alen acc) (bs - bo)).
  { subst tc. destruct (Z.ltb_spec (size - alen acc) (bs - bo)); [rewrite wrap_small by (unfold fits; lia)|]; lia. }
  clearbody tc. unfold bytes_at. rewrite (proj2 (Z.leb_le _ _)) by lia. cbn [mbind option_bind].
  rewrite <- (block_piece bs (file_blocks img fs xs nb) l d bo tc) by (done || lia).
  replace (l * bs + bo) with pos by lia. fold file. set (piece := take (Z.to_nat tc) _).
  assert (Hfile : alen file = bs * Z.of_nat nb).
  { unfold file. rewrite (concat_size bs) by done. unfold alen, file_blocks. rewrite length_fmap, length_seqZ. lia. }
  assert (Hp : alen (acc ++ piece) = alen acc + tc).
  { unfold piece, alen in *. rewrite length_app, length_take, length_drop. lia. }
  assert (Hsplit : take (Z.to_nat (size - alen acc)) (drop (Z.to_nat pos) file) =
    piece ++ take (Z.to_nat (size - alen (acc ++ piece))) (drop (Z.to_nat (offset + alen (acc ++ piece))) file)).
  { rewrite Hp. unfold piece. replace (Z.to_nat (offset + (alen acc + tc))) with (Z.to_nat pos + Z.to_nat tc)%nat by lia.
    rewrite <- drop_drop, take_take_drop. f_equal. lia. }
  destruct (IH h1 (acc ++ piece) HL1) as [(F & Hh & j & hj & h' & Hj & Ej & Eh)|(h' & -> & HL' & Hr')]; [lia| |done| |].
  - rewrite Hp. rewrite (proj2 (Z.leb_gt size (alen acc))) in Hn by done.
    pose proof (Z.mul_succ_div_gt (bo + (size - alen acc) + bs - 1) bs ltac:(lia)) as G.
    destruct (Z.leb_spec size (alen acc + tc)) as [Hend|Hmore].
    + destruct n; [|lia]. exfalso. assert (bs <= bo + (size - alen acc) + bs - 1) as G2 by lia.
      apply (Z.div_le_mono _ _ bs) in G2; [|lia]. rewrite Z.div_same in G2 by lia. lia.
    + assert (Etc : tc = bs - bo) by lia. replace ((offset + (alen acc + tc)) mod bs) with 0.
      2: { replace (offset + (alen acc + tc)) with ((l + 1) * bs) by lia. by rewrite Z.mod_mul by lia. }
      apply Z.div_lt_upper_bound; [lia|]. nia.
  - left. split; [done|]. split; [done|]. exists (S j), hj, h'. split; [lia|]. split; [|done]. cbn [borrow]. fold bs in Ea. rewrite Ea.
    cbn [mbind option_bind]. rewrite Ef. done.
  - right. exists h'. split; [|done]. by rewrite Hsplit, app_assoc.
Qed.

(** C29.  Reading a file whose inode has an extent tree on the disk image: the
    nodes of the tree are given by their bytes, the extents by the tree.  There
    are three outcomes.  The result is the requested slice of the file, blocks
    from the image and zeros in the holes, cut at the size in the inode, and
    every buffer is given back; or nothing is read because the first allocation
    of this call, the one of the block buffer, fails; or the call faults because
    the tree has inner nodes and, after the block buffer and some rounds of the
    walk, one for each block, the next allocation of this call fails. *)
Theorem ext4_read_correct img sectors s (node offset size : Z) (n : ext4_vnode) (d : ext4_node_info) fs (ht : nat) xs (nb : nat) L :
  drive_holds (p_drive (part fs)) img sectors -> ext_geometry fs sectors ->
  ex_nodes s !! node = Some n -> node_info s n = Some (d, fs) ->
  inode_extents img fs sectors (inode d) ht xs -> (ht < fuel)%nat -> blocks_on_disk fs sectors xs nb ->
  0 <= i_size_lo (inode d) < 2 ^ 32 -> i_size_lo (inode d) <= block_size fs * Z.of_nat nb ->
  0 <= offset -> 0 <= size -> offset + size < 2 ^ 64 ->
  kh_live (ex_heap s) L -> kh_room (ex_heap s) (kh_cost (block_size fs) * (size / block_size fs + 4)) ->
  let bytes := take (Z.to_nat size) (drop (Z.to_nat offset)
                 (take (Z.to_nat (i_size_lo (inode d))) (concat (file_blocks img fs xs nb)))) in
  (exists h, ext4_read fuel s node offset size = Some (set_ex_heap s h, alen bytes, bytes) /\ kh_live h L) \/
  (exists h, kh_alloc (ex_heap s) (block_size fs) = Some (h, 0) /\
     ext4_read fuel s node offset size = Some (set_ex_heap s h, 0, []) /\ kh_live h L) \/
  (ext4_read fuel s node offset size = None /\ (0 < ht)%nat /\
   exists h buf rounds h1 h2, kh_alloc (ex_heap s) (block_size fs) = Some (h, buf) /\ buf <> 0 /\
     Z.of_nat rounds <= size / block_size fs + 2 /\
     borrow h (block_size fs) rounds = Some h1 /\ kh_alloc h1 (block_size fs) = Some (h2, 0)).
Proof.
  intros HD HG En Ei X Hht R Hlen Hnb Ho Hs Hw HL Hr bytes. set (bs := block_size fs) in *. set (len := i_size_lo (inode d)) in *.
  assert (Hb : 0 < bs < 2 ^ 32) by (subst bs; destruct HG as (_ & (? & ? & ->) & _); lia).
  unfold ext4_read. rewrite En. cbn [mbind option_bind]. rewrite Ei. cbn [mbind option_bind]. fold len bs.
  destruct (Z.leb_spec len offset) as [Hle|Hlt].
  { left. exists (ex_heap s). subst bytes. rewrite drop_ge by (rewrite length_take; lia). rewrite take_nil. split; [by destruct s|done]. }
  rewrite wrap_small by (unfold fits; lia).
  set (sz := if len <? offset + size then len - offset else size).
  assert (Hsz : sz = Z.min size (len - offset)) by (subst sz; destruct (Z.ltb_spec len (offset + size)); lia).
  assert (Hbytes : bytes = take (Z.to_nat sz) (drop (Z.to_nat offset) (concat (file_blocks img fs xs nb)))).
  { subst bytes. rewrite skipn_firstn_comm, take_take. f_equal. lia. }
  clearbody sz bytes. assert (Hdiv : 0 <= sz / bs <= size / bs) by (split; [apply Z.div_pos; lia|apply Z.div_le_mono; lia]).
  pose proof (kh_cost_pos (H := H) bs ltac:(lia)) as HC.
  destruct (kh_alloc_law (ex_heap s) L bs (kh_cost bs * (sz / bs + 3)) HL) as (h & buf & Ea & Hr1 & Ca); [lia|nia|eapply kh_room_mono; [exact Hr|nia]|].
  destruct Ca as [(-> & HL0)|(Hbuf & HLb & m & _ & HL1)]; [right; left; exists h; by rewrite Ea|]. rewrite Ea. cbn [mbind option_bind].
  rewrite (proj2 (Z.eqb_neq buf 0)), (proj2 (Z.eqb_neq bs 0)) by lia.
  destruct (ext4_loop_spec img sectors fs (inode d) ht xs nb buf offset sz (<[buf := m]> L) (S (S (Z.to_nat (sz / bs + 1)))))
    with (h := h) (acc := [] : list Z) as [(El & Hh & j & hj & h' & Hj & Ej & Eh)|(h1 & El & HL2 & Hr2)]; try done; try (fold bs; lia).
  - unfold alen. simpl. lia.
  - fold bs. change (alen []) with 0. case_bool; [lia|]. rewrite Z.add_0_r, Z.sub_0_r.
    pose proof (Z.mod_pos_bound offset bs ltac:(lia)). apply Z.div_lt_upper_bound; [lia|].
    pose proof (Z.mul_succ_div_gt sz bs ltac:(lia)). nia.
  - fold bs. eapply kh_room_mono; [exact Hr1|]. lia.
  - right; right. fold bs in El. rewrite El. cbn [mbind option_bind]. split; [done|]. split; [done|].
    exists h, buf, j, hj, h'. split; [done|]. split; [lia|]. split; [lia|done].
  - left. fold bs in El. rewrite El. cbn [mbind option_bind].
    destruct (kh_free_law h1 _ buf m 0 HL2) as (h2 & -> & HL3 & _); [apply lookup_insert_eq|done|]. rewrite delete_insert_id in HL3 by done.
    cbn [mbind option_bind app]. exists h2. split; [|done]. change (alen []) with 0. rewrite Z.add_0_r, Z.sub_0_r, <- Hbytes. done.
Qed.

End files.

(** ** A file of three blocks, the last one a hole, behind an index node *)

Definition pad (n : Z) (l : list Z) : list Z := l ++ replicate (Z.to_nat n - length l) 0.

Definition header_bytes (entries depth : Z) : list Z := le 2 EXT4_EXT_MAGIC ++ le 2 entries ++ le 2 4 ++ le 2 depth ++ le 4 0.

Definition demo_leaf5 : list Z := pad 1024 (header_bytes 1 0 ++ extent_bytes (Extent 0 2 7)).
Definition demo_leaf6 : list Z := pad 1024 (header_bytes 1 0 ++ extent_bytes (Extent 10 1 9)).

Definition demo_inode : list Z :=
  pad 116 (le 2 0x8000 ++ le 2 0 ++ le 4 2500 ++ pad 24 [] ++ le 4 0x80000 ++ le 4 0 ++
    header_bytes 2 1 ++ index_bytes (0, 5) 0 ++ index_bytes (10, 6) 0).

Definition demo_block (b : Z) : list Z :=
  if b =? 5 then demo_leaf5 else if b =? 6 then demo_leaf6 else replicate 1024 (if (0 <=? b) && (b <? 16) then b else 0).

(** The file system starts at sector 100 of a disk of 200 sectors. *)
Definition demo_img (a : Z) : Z := aget 0 (demo_block ((a - 51200) / 1024)) ((a - 51200) mod 1024).

#[local] Instance ext_drivers : DiskDrivers := {|
  drives := {[ 8 := AtaDrive DISK_TYPE_ATA true [104; 100; 97] ]};
  ata_read_sectors _ lba count :=
    if lba + count <=? 200 then Some (image_bytes demo_img (512 * lba) (512 * count)) else None;
  ahci_read_sectors _ _ _ := None |}.

Lemma ext_demo_holds : drive_holds 8 demo_img 200.
Proof.
  split.
  - intros a. unfold demo_img. generalize ((a - 51200) / 1024) ((a - 51200) mod 1024). intros b o.
    assert (F : Forall (fun x => 0 <= x < 256) (demo_block b)).
    { unfold demo_block. case_bool; [apply (bool_decide_unpack _); vm_compute; exact I|].
      case_bool; [apply (bool_decide_unpack _); vm_compute; exact I|]. apply Forall_replicate.
      destruct (Z.leb_spec 0 b), (Z.ltb_spec b 16); cbn [andb]; lia. }
    unfold aget. destruct (demo_block b !! Z.to_nat o) as [x|] eqn:E; [|cbn; lia]. by apply (Forall_lookup_1 _ _ _ _ F E).
  - intros lba count Hl Hc Hs. unfold disk_read_sectors. cbn [drives ext_drivers]. rewrite lookup_singleton_eq.
    cbn [mbind option_bind drive_type]. rewrite !wrap_small by (unfold fits; lia). cbn [ata_read_sectors ext_drivers].
    by rewrite (proj2 (Z.leb_le _ _) Hs).
Qed.

Definition demo_ext : ext4_info := Ext4Info (DiskPartition 8 0 0x83 100 5000) (Superblock 0 8192 128 EXT4_MAGIC 1 128 0) 1024 128 8192 128.

Lemma ext_demo_geometry : ext_geometry demo_ext 200.
Proof. split; [cbn; lia|]. split; [by exists 2|lia]. Qed.

Definition demo_extents : list extent := [Extent 0 2 7; Extent 10 1 9].

Lemma demo_tree : inode_extents demo_img demo_ext 200 demo_inode 1 demo_extents.
Proof.
  split; [vm_compute; discriminate|]. exists 0, 11, 1, [(0, 5); (10, 6)], [index_bytes (0, 5) 0; index_bytes (10, 6) 0].
  split; [lia|]. split; [split; [done|]; exists 4, 0, (replicate 24 0); vm_compute; reflexivity|].
  split; [repeat constructor; by eexists|]. split; [lia|].
  assert (Leaf : forall b x lo hi, (exists rest, block_bytes demo_img demo_ext b = header_bytes 1 0 ++ extent_bytes x ++ rest) ->
    within lo hi x -> 0 <= lo -> hi < 2 ^ 32 -> tree_at (on_disk demo_ext 200) (block_bytes demo_img demo_ext) 0 (block_bytes demo_img demo_ext b) lo hi [x]).
  { intros b x lo hi (rest & Eb) Hw ? ?. split; [|by split; [apply Forall_singleton|]]. split; [done|]. exists 4, 0, rest.
    rewrite Eb. cbn [map concat]. by rewrite app_nil_r. }
  exists [Extent 0 2 7], [Extent 10 1 9]. cbn iota zeta beta. split; [unfold on_disk; cbn; lia|]. split; [lia|]. split; [lia|]. split; [lia|]. split.
  { apply Leaf; [exists (replicate 1000 0); vm_compute; reflexivity|unfold within; cbn; lia|lia|lia]. }
  split; [|done]. exists [Extent 10 1 9], []. cbn iota zeta beta. split; [unfold on_disk; cbn; lia|]. split; [lia|]. split; [lia|]. split; [lia|]. split; [|done].
  apply Leaf; [exists (replicate 1000 0); vm_compute; reflexivity|unfold within; cbn; lia|lia|lia].
Qed.

Lemma ext4_get_physical_block_correct_witness :
  exists h', ext4_get_physical_block 8 4096 demo_ext demo_inode 10 = Some (h', 9).
Proof.
  destruct (ext4_get_physical_block_correct 8 demo_img 200 4096 ∅ demo_ext demo_inode 1 demo_extents 10 0 ext_demo_holds ext_demo_geometry demo_tree)
    as [(_ & h1 & E)|(h' & E & _)]; [lia|lia|split; [lia|done]|lia|exact I|vm_compute in E; discriminate E|].
  exists h'. exact E.
Defined.

Definition demo_vnode : ext4_vnode := VfsNode [97] 0 0 0 FS_FILE 0 2500 0 (Some ext4_ops) 0 48.

Definition demo_ext4 : ext4 Z := Ext4 {[ 16 := demo_vnode ]} {[ 32 := demo_ext ]} {[ 48 := Ext4NodeInfo 32 12 demo_inode ]} 4096.

Lemma ext4_read_correct_witness :
  exists h, ext4_read 8 demo_ext4 16 2040 20 = Some (set_ex_heap demo_ext4 h, 20, replicate 8 8 ++ replicate 12 0).
Proof.
  destruct (ext4_read_correct 8 demo_img 200 demo_ext4 16 2040 20 demo_vnode (Ext4NodeInfo 32 12 demo_inode) demo_ext 1 demo_extents 3 ∅)
    as [(h & E & _)|[(h & Eh & _)|(E & _)]]; [exact ext_demo_holds|exact ext_demo_geometry|vm_compute; reflexivity|vm_compute; reflexivity|
      exact demo_tree|lia| | | |lia|lia|lia|split; [vm_compute; reflexivity|done]|exact I| | |].
  - intros l Hl Hn. assert (l = 0 \/ l = 1 \/ l = 2) as [->|[->| ->]] by lia; [vm_compute; intuition congruence..|].
    destruct Hn. vm_compute. reflexivity.
  - vm_compute. split; congruence.
  - vm_compute. discriminate.
  - exists h. rewrite E. vm_compute. reflexivity.
  - discriminate Eh.
  - exfalso. revert E. vm_compute. discriminate.
Defined.

(** ** What goes wrong *)

(** A directory entry without an inode ends the scan of its block: the entries
    behind it are not found. *)
Lemma unused_entry_hides :
  let buf := pad 1024 (le 4 0 ++ le 2 12 ++ [1; 1; 98; 0; 0; 0] ++ le 4 13 ++ le 2 1012 ++ [1; 1; 97]) in
  scan_block demo_ext buf [97] 0 1025 = Some None /\ scan_block demo_ext buf [97] 12 1025 = Some (Some 13).
Proof. vm_compute. split; reflexivity. Qed.

(** An index node that leads back to itself is walked for ever. *)
Lemma cyclic_tree_hangs `{DD : DiskDrivers} fs buf node l d k target n :
  eh_depth node = Some d -> 0 < d -> eh_entries node = Some k -> index_scan node l 0 (Z.to_nat k) 0 = Some target ->
  target <> 0 -> ext4_read_block fs target buf = Some (Some node) -> eh_magic node = Some EXT4_EXT_MAGIC ->
  descend fs buf node l n = None.
Proof.
  intros Ed Hd Ek Et Hn Er Em. induction n as [|n IH]; [done|]. cbn [descend]. rewrite Ed, Ek. cbn [mbind option_bind].
  rewrite (proj2 (Z.ltb_lt _ _) Hd), Et. cbn [mbind option_bind]. rewrite (proj2 (Z.eqb_neq _ _) Hn), Er. cbn [mbind option_bind].
  rewrite Em. cbn [mbind option_bind]. by rewrite Z.eqb_refl.
Qed.
