(* ===== verification/Ntfs.v ===== *)
(** The NTFS driver, kernel/src/fs/ntfs.c and ntfs.h, read only.

    MFT records stay the bytes that were read, with the fields read where the code
    reads them; positions in a record are offsets from its start.  [None] is
    undefined behaviour: an access outside the bytes of the record, a name that
    overruns its buffer, a shift by 64 bits or more, an allocation that is used
    without a test; or an attribute list that is walked for ever. *)
From stdpp Require Import prelude gmap list.
From Stdlib Require Import ZArith Lia.
From S2P Require Import Prelude KHeap Vfs Ramfs Partition.

Open Scope Z_scope.

Definition NTFS_OEM_ID : Z := 0x202020205346544E.
Definition NTFS_FILE_MAGIC : Z := 0x454C4946.
Definition NTFS_ROOT_MFT_RECORD : Z := 5.
Definition NTFS_SYSTEM_FILE_THRESHOLD : Z := 16.
Definition NTFS_ATTR_DATA : Z := 0x80.
Definition NTFS_ATTR_INDEX_ROOT : Z := 0x90.
Definition NTFS_RECORD_IS_DIR : Z := 2.
Definition NTFS_INDEX_ENTRY_LAST : Z := 2.
Definition INDEX_ROOT_HEADER_OFFSET : Z := 16.

Definition sizeof_ntfs_attr_header : Z := 16.
Definition sizeof_ntfs_fs : Z := 32.
Definition sizeof_ntfs_node : Z := 24.

Record ntfs_fs := NtfsFs {
  nt_part : disk_partition;
  mft_lba : Z;
  mft_record_size : Z;
  cluster_size : Z;
  bytes_per_sector : Z }.

Record ntfs_node := NtfsNode { nn_fs : Z; mft_record_number : Z; nn_file_size : Z }.

Inductive ntfs_table := ntfs_ops.

Notation ntfs_vnode := (vfs_node ntfs_table).

(** Storing a 16-bit word into a buffer. *)
Definition set_word (b : list Z) (off w : Z) : list Z := aset (aset b off (w mod 256)) (off + 1) (w / 256).

(** ** MFT records *)

(** The fixup loop: the last word of every 512-byte block is checked against the
    sequence number and replaced; [Some None] for a mismatch. *)
Fixpoint usa_fixup (b : list Z) (record_size usa seq_num i : Z) (n : nat) : option (option (list Z)) :=
  match n with
  | O => Some (Some b)
  | S n =>
      let sector_end := i * 512 - 2 in
      if record_size <=? sector_end + 1 then Some (Some b)
      else
        w ← le16 b sector_end;
        if negb (w =? seq_num) then Some None
        else
          orig ← le16 b (usa + 2 * i);
          usa_fixup (set_word b sector_end orig) record_size usa seq_num (i + 1) n
  end.

Section records.
Context `{DD : DiskDrivers}.

(** Into a buffer of [mft_record_size] bytes; [Some None] when it fails. *)
Definition ntfs_read_mft_record (fs : ntfs_fs) (rec_num : Z) : option (option (list Z)) :=
  if bytes_per_sector fs =? 0 then None
  else
    let lba := u64 (mft_lba fs + u64 (rec_num * mft_record_size fs) / bytes_per_sector fs) in
    let count := u8 (mft_record_size fs / bytes_per_sector fs) in
    let count := if count =? 0 then 1 else count in
    r ← disk_read_sectors (p_drive (nt_part fs)) lba count;
    match r with
    | None => Some None
    | Some b =>
        if mft_record_size fs <? alen b then None
        else
          magic ← le32 b 0;
          if negb (magic =? NTFS_FILE_MAGIC) then Some None
          else
            usa ← le16 b 4;
            usa_len ← le16 b 6;
            seq_num ← le16 b usa;
            usa_fixup b (mft_record_size fs) usa seq_num 1 (Z.to_nat (usa_len - 1))
    end.

End records.

(** The first attribute of a type: its offset, [Some None] when there is none. *)
Fixpoint find_attr_loop (b : list Z) (type record_size off : Z) (fuel : nat) : option (option Z) :=
  match fuel with
  | O => None
  | S fuel =>
      if off + sizeof_ntfs_attr_header <=? record_size then
        ty ← le32 b off;
        if ty =? 0xFFFFFFFF then Some None
        else
          len ← le32 b (off + 4);
          if len =? 0 then Some None
          else if ty =? type then Some (Some off)
          else find_attr_loop b type record_size (u32 (off + len)) fuel
      else Some None
  end.

Definition ntfs_find_attr (b : list Z) (type record_size : Z) : option (option Z) :=
  off ← le16 b 20; find_attr_loop b type record_size off (S (Z.to_nat record_size)).

(** [len] code units; the others become question marks. *)
Fixpoint utf16_to_ascii (b : list Z) (src : Z) (len : nat) : option (list Z) :=
  match len with
  | O => Some []
  | S len =>
      c ← le16 b src;
      l ← utf16_to_ascii b (src + 2) len;
      Some ((if c <? 0x80 then c else 63) :: l)
  end.

(** ** The index of a directory *)

(** A live index entry: record number, and the offset of its FILE_NAME key. *)
Record index_entry := IndexEntry { ie_rec : Z; ie_key : Z }.

Definition fn_real_size (b : list Z) (key : Z) : option Z := le64 b (key + 48).
Definition fn_flags (b : list Z) (key : Z) : option Z := le32 b (key + 56).
Definition fn_name (b : list Z) (key : Z) : option (list Z) :=
  n ← byte_at b (key + 64); utf16_to_ascii b (key + 66) (Z.to_nat n).

(** The walk shared by [ntfs_readdir] and [ntfs_finddir]: the first live entry at
    which [stop] holds, given the entry and the number of live ones before it.
    System files and entries without a key are passed over. *)
Fixpoint walk_index (b : list Z) (stop : index_entry -> Z -> option bool) (entry count : Z) (fuel : nat)
  : option (option index_entry) :=
  match fuel with
  | O => None
  | S fuel =>
      mft_ref ← le64 b entry;
      entry_length ← le16 b (entry + 8);
      key_length ← le16 b (entry + 10);
      flags ← le32 b (entry + 12);
      if has_flag flags NTFS_INDEX_ENTRY_LAST then Some None
      else if entry_length <? 16 then Some None
      else if key_length =? 0 then walk_index b stop (entry + entry_length) count fuel
      else
        let rec_num := Z.land mft_ref 0xFFFFFFFFFFFF in
        if rec_num <? NTFS_SYSTEM_FILE_THRESHOLD then walk_index b stop (entry + entry_length) count fuel
        else
          let e := IndexEntry rec_num (entry + 16) in
          s ← stop e count;
          if s : bool then Some (Some e) else walk_index b stop (entry + entry_length) (u32 (count + 1)) fuel
  end.

(** The first entry behind the header of an INDEX_ROOT attribute. *)
Definition index_start (b : list Z) (attr : Z) : option Z :=
  value_offset ← le16 b (attr + 20);
  let index_hdr := attr + value_offset + INDEX_ROOT_HEADER_OFFSET in
  entries_off ← le32 b index_hdr;
  Some (index_hdr + entries_off).

(** Entries are at least 16 bytes long. *)
Definition index_fuel (b : list Z) : nat := S (length b).

Definition fn_vfs_flags (flags : Z) : Z := if has_flag flags NTFS_RECORD_IS_DIR then FS_DIRECTORY else FS_FILE.

(** ** Data runs *)

(** A decoded run: its clusters, the delta of the cluster number, whether it is
    sparse. *)
Record data_run := DataRun { r_clusters : Z; r_delta : Z; r_sparse : bool }.

(** [lcn_delta] from [off_bytes] bytes that hold [v]: the upper bytes are filled
    when the highest bit is set. *)
Definition sign_fill (off_bytes v : Z) : Z :=
  if has_flag (u8 (Z.shiftr v ((off_bytes - 1) * 8))) 0x80
  then s64 (foldl (fun d i => Z.lor d (Z.shiftl 0xFF (i * 8))) v (seqZ off_bytes (8 - off_bytes)))
  else s64 v.

(** The run at [pos], and where the next one starts; [Some None] for a header
    without a length. *)
Definition decode_run (b : list Z) (pos : Z) : option (option (data_run * Z)) :=
  header ← byte_at b pos;
  let len_bytes := Z.land header 0x0F in
  let off_bytes := Z.land (Z.shiftr header 4) 0x0F in
  if len_bytes =? 0 then Some None
  else if (8 <? len_bytes) || (8 <? off_bytes) then None
  else
    run_clusters ← le_bytes b (pos + 1) (Z.to_nat len_bytes);
    v ← le_bytes b (pos + 1 + len_bytes) (Z.to_nat off_bytes);
    let delta := if 0 <? off_bytes then sign_fill off_bytes v else 0 in
    Some (Some (DataRun run_clusters delta (off_bytes =? 0), pos + 1 + len_bytes + off_bytes)).

Section ntfs.
Context `{DD : DiskDrivers} {H : Type} `{KH : KernelHeap H}.

Record ntfs := Ntfs {
  nt_nodes : gmap Z ntfs_vnode;
  nt_fs : gmap Z ntfs_fs;
  nt_data : gmap Z ntfs_node;
  nt_heap : H }.

Definition set_nt_nodes (s : ntfs) (m : gmap Z ntfs_vnode) : ntfs := Ntfs m (nt_fs s) (nt_data s) (nt_heap s).
Definition set_nt_heap (s : ntfs) (h : H) : ntfs := Ntfs (nt_nodes s) (nt_fs s) (nt_data s) h.

(** The clusters of one run: the bytes gathered, and whether a sector could not
    be read. *)
Fixpoint copy_run (fs : ntfs_fs) (sparse : bool) (current_lcn run_clusters run_read_end size cluster_idx intra_off : Z)
    (acc : list Z) (fuel : nat) : option (list Z * bool) :=
  match fuel with
  | O => None
  | S fuel =>
      if (cluster_idx <? run_clusters) && (u64 (cluster_idx * cluster_size fs) <? run_read_end) && (alen acc <? size) then
        let room := u64 (cluster_size fs - intra_off) in
        let remain := size - alen acc in
        let n := if remain <? room then remain else room in
        if sparse then
          copy_run fs sparse current_lcn run_clusters run_read_end size (u64 (cluster_idx + 1)) 0
            (acc ++ replicate (Z.to_nat n) 0) fuel
        else if bytes_per_sector fs =? 0 then None
        else
          let lcn_abs := u64 (current_lcn + cluster_idx) in
          let sector_lba := u64 (p_lba_start (nt_part fs) + u64 (lcn_abs * (cluster_size fs / bytes_per_sector fs))) in
          let secs := u8 (cluster_size fs / bytes_per_sector fs) in
          let secs := if secs =? 0 then 1 else secs in
          r ← disk_read_sectors (p_drive (nt_part fs)) sector_lba secs;
          match r with
          | None => Some (acc, true)
          | Some bytes =>
              if cluster_size fs <? alen bytes then None
              else
                piece ← bytes_at bytes intra_off n;
                copy_run fs sparse current_lcn run_clusters run_read_end size (u64 (cluster_idx + 1)) 0 (acc ++ piece) fuel
          end
      else Some (acc, false)
  end.

(** The runs from [pos] on. *)
Fixpoint read_runs (fs : ntfs_fs) (b : list Z) (pos current_lcn current_vcn offset size : Z) (acc : list Z) (fuel : nat)
  : option (list Z) :=
  match fuel with
  | O => None
  | S fuel =>
      c ← byte_at b pos;
      if negb (c =? 0) && (alen acc <? size) then
        d ← decode_run b pos;
        match d with
        | None => Some acc
        | Some (r, next) =>
            let current_lcn := s64 (current_lcn + r_delta r) in
            let run_bytes := u64 (r_clusters r * cluster_size fs) in
            let run_start_byte := u64 (current_vcn * cluster_size fs) in
            let run_end_byte := u64 (run_start_byte + run_bytes) in
            '(acc', failed) ←
              (if (offset <? run_end_byte) && (run_start_byte <? u64 (offset + size)) then
                 if cluster_size fs =? 0 then None
                 else
                   let run_read_start := if run_start_byte <? offset then offset - run_start_byte else 0 in
                   let run_read_end := if u64 (offset + size) <? run_end_byte then u64 (u64 (offset + size) - run_start_byte) else run_bytes in
                   copy_run fs (r_sparse r) current_lcn (r_clusters r) run_read_end size (run_read_start / cluster_size fs)
                     (run_read_start mod cluster_size fs) acc (S (S (S (Z.to_nat (size / cluster_size fs)))))
               else Some (acc, false));
            if failed : bool then Some acc'
            else read_runs fs b next current_lcn (u64 (current_vcn + r_clusters r)) offset size acc' fuel
        end
      else Some acc
  end.

(** The private record behind a node, and its instance. *)
Definition node_data (s : ntfs) (n : ntfs_vnode) : option (ntfs_node * ntfs_fs) :=
  d ← nt_data s !! n_impl n; fs ← nt_fs s !! nn_fs d; Some (d, fs).

(** [kmalloc] of the record buffer, the record read into it and the attribute of
    a type looked up; [Some (inl h)] when that ends the operation. *)
Definition with_attr (h0 : H) (fs : ntfs_fs) (rec_num type : Z) : option (H + H * Z * list Z * Z) :=
  '(h, rec_buf) ← kh_alloc h0 (mft_record_size fs);
  if rec_buf =? 0 then Some (inl h)
  else
    r ← ntfs_read_mft_record fs rec_num;
    match r with
    | None => h' ← kh_free h rec_buf; Some (inl h')
    | Some b =>
        a ← ntfs_find_attr b type (mft_record_size fs);
        match a with
        | None => h' ← kh_free h rec_buf; Some (inl h')
        | Some attr => Some (inr (h, rec_buf, b, attr))
        end
    end.

Definition ntfs_readdir (s : ntfs) (node index : Z) : option (ntfs * option dirent) :=
  n ← nt_nodes s !! node;
  if n_impl n =? 0 then Some (s, None)
  else
    '(d, fs) ← node_data s n;
    w ← with_attr (nt_heap s) fs (mft_record_number d) NTFS_ATTR_INDEX_ROOT;
    match w with
    | inl h => Some (set_nt_heap s h, None)
    | inr (h, rec_buf, b, attr) =>
        start ← index_start b attr;
        r ← walk_index b (fun _ count => Some (count =? index)) start 0 (index_fuel b);
        de ← match r with
             | None => Some None
             | Some e =>
                 name ← fn_name b (ie_key e);
                 fl ← fn_flags b (ie_key e);
                 Some (Some (Dirent (c_str name) (u32 (ie_rec e)) (fn_vfs_flags fl)))
             end;
        h' ← kh_free h rec_buf;
        Some (set_nt_heap s h', de)
    end.

(** The node of an entry that was found; the allocations are not tested. *)
Definition new_child (s : ntfs) (fs_addr : Z) (b : list Z) (e : index_entry) : option (ntfs * Z) :=
  name ← fn_name b (ie_key e);
  fl ← fn_flags b (ie_key e);
  size ← fn_real_size b (ie_key e);
  '(h1, child) ← kh_alloc (nt_heap s) sizeof_vfs_node;
  if child =? 0 then None
  else if 127 <? alen (c_str name) then None
  else
    '(h2, child_nd) ← kh_alloc h1 sizeof_ntfs_node;
    if child_nd =? 0 then None
    else
      let n := VfsNode (c_str name) 0 0 0 (fn_vfs_flags fl) 0 size child_nd (Some ntfs_ops) 0 0 in
      Some (Ntfs (<[child := n]> (nt_nodes s)) (nt_fs s) (<[child_nd := NtfsNode fs_addr (ie_rec e) size]> (nt_data s)) h2, child).

Definition ntfs_finddir (s : ntfs) (node : Z) (name : list Z) : option (ntfs * Z) :=
  n ← nt_nodes s !! node;
  if n_impl n =? 0 then Some (s, 0)
  else
    '(d, fs) ← node_data s n;
    w ← with_attr (nt_heap s) fs (mft_record_number d) NTFS_ATTR_INDEX_ROOT;
    match w with
    | inl h => Some (set_nt_heap s h, 0)
    | inr (h, rec_buf, b, attr) =>
        start ← index_start b attr;
        r ← walk_index b (fun e _ => nm ← fn_name b (ie_key e); Some (bool_decide (c_str nm = name))) start 0 (index_fuel b);
        match r with
        | None => h' ← kh_free h rec_buf; Some (set_nt_heap s h', 0)
        | Some e =>
            '(s1, child) ← new_child (set_nt_heap s h) (nn_fs d) b e;
            h' ← kh_free (nt_heap s1) rec_buf;
            Some (set_nt_heap s1 h', child)
        end
    end.

(** The two forms of $DATA; the result is the heap and the bytes. *)
Definition read_data (h : H) (fs : ntfs_fs) (b : list Z) (attr offset size : Z) : option (H * list Z) :=
  non_resident ← byte_at b (attr + 8);
  if non_resident =? 0 then
    data_len ← le32 b (attr + 16);
    value_offset ← le16 b (attr + 20);
    if data_len <=? offset then Some (h, [])
    else
      let to_copy := if size <? data_len - offset then size else data_len - offset in
      bytes ← bytes_at b (attr + value_offset + offset) to_copy;
      Some (h, bytes)
  else
    data_runs_offset ← le16 b (attr + 32);
    '(h1, cluster_buf) ← kh_alloc h (cluster_size fs);
    if cluster_buf =? 0 then Some (h1, [])
    else
      bytes ← read_runs fs b (attr + data_runs_offset) 0 0 offset size [] (S (length b));
      h2 ← kh_free h1 cluster_buf;
      Some (h2, bytes).

Definition ntfs_read (s : ntfs) (node offset size : Z) : option (ntfs * Z * list Z) :=
  n ← nt_nodes s !! node;
  if negb (Z.land (n_flags n) FS_FILE =? FS_FILE) then Some (s, 0, [])
  else if n_impl n =? 0 then Some (s, 0, [])
  else
    '(d, fs) ← node_data s n;
    if nn_file_size d <=? offset then Some (s, 0, [])
    else
      let size := if nn_file_size d <? u64 (offset + size) then nn_file_size d - offset else size in
      if size =? 0 then Some (s, 0, [])
      else
        w ← with_attr (nt_heap s) fs (mft_record_number d) NTFS_ATTR_DATA;
        match w with
        | inl h => Some (set_nt_heap s h, 0, [])
        | inr (h, rec_buf, b, attr) =>
            '(h1, bytes) ← read_data h fs b attr offset size;
            h2 ← kh_free h1 rec_buf;
            Some (set_nt_heap s h2, alen bytes, bytes)
        end.

#[export] Instance ntfs_files : FileSystem ntfs ntfs_table := {|
  fs_nodes := nt_nodes;
  fs_set_nodes := set_nt_nodes;
  op_read _ := Some ntfs_read;
  op_write _ := None;
  op_open _ := None;
  op_close _ := None;
  op_readdir _ := Some ntfs_readdir;
  op_finddir _ := Some ntfs_finddir;
  op_mkdir _ := None;
  op_create _ := None |}.

(** ** Mounting *)

(** "NTFS". *)
Definition str_ntfs : list Z := [78; 84; 70; 83].

(** [1u << (-c_mft)] for a negative byte, otherwise a number of clusters. *)
Definition record_size_of (c_mft cluster_size : Z) : option Z :=
  if c_mft <? 0 then (if 32 <=? - c_mft then None else Some (u32 (Z.shiftl 1 (- c_mft)))) else Some (u32 (c_mft * cluster_size)).

Definition ntfs_mount (s : ntfs) (p : disk_partition) : option (ntfs * Z) :=
  '(h, sector) ← kh_alloc (nt_heap s) 512;
  if sector =? 0 then Some (set_nt_heap s h, 0)
  else
    r ← disk_read_sectors (p_drive p) (p_lba_start p) 1;
    let reject h := h' ← kh_free h sector; Some (set_nt_heap s h', 0) in
    match r with
    | None => reject h
    | Some b =>
        oem ← le64 b 3;
        if negb (oem =? NTFS_OEM_ID) then reject h
        else
          bps ← le16 b 11;
          if (bps <? 512) || (4096 <? bps) || has_flag bps (bps - 1) then reject h
          else
            spc ← byte_at b 13;
            mft_cluster ← le64 b 43;
            c ← byte_at b 59;
            let cluster_size := bps * spc in
            record_size ← record_size_of (s8 c) cluster_size;
            let mft_lba := u64 (p_lba_start p + u64 (mft_cluster * spc)) in
            '(h1, fs) ← kh_alloc h sizeof_ntfs_fs;
            if fs =? 0 then reject h1
            else
              h2 ← kh_free h1 sector;
              '(h3, root) ← kh_alloc h2 sizeof_vfs_node;
              if root =? 0 then h4 ← kh_free h3 fs; Some (set_nt_heap s h4, 0)
              else
                '(h4, nd) ← kh_alloc h3 sizeof_ntfs_node;
                if nd =? 0 then h5 ← kh_free h4 root; h6 ← kh_free h5 fs; Some (set_nt_heap s h6, 0)
                else
                  let n := VfsNode str_ntfs 0 0 0 FS_DIRECTORY 0 0 nd (Some ntfs_ops) 0 0 in
                  Some (Ntfs (<[root := n]> (nt_nodes s)) (<[fs := NtfsFs p mft_lba record_size cluster_size bps]> (nt_fs s))
                    (<[nd := NtfsNode fs NTFS_ROOT_MFT_RECORD 0]> (nt_data s)) h4, root)
    end.

End ntfs.

Arguments ntfs : clear implicits.
