(* ===== verification/NtfsThm.v ===== *)
(** NTFS: data runs are decoded to what they encode, and reading a file returns the
    slice of its clusters, with zeros in the sparse runs. *)
From stdpp Require Import prelude gmap list.
From Stdlib Require Import ZArith Lia.
From S2P Require Import Prelude KHeap Vfs Partition Ntfs.

Open Scope Z_scope.

(** ** Sign extension *)

Lemma high_bit q : 0 <= q < 256 -> has_flag q 0x80 = (128 <=? q).
Proof.
  intros Hq. assert (F : forallb (fun q => Bool.eqb (has_flag q 0x80) (128 <=? q)) (seqZ 0 256) = true) by (vm_compute; reflexivity).
  rewrite forallb_forall in F. apply Bool.eqb_prop, F. rewrite <- list_elem_of_In. apply elem_of_seqZ. lia.
Qed.

Lemma s64_small x : - 2 ^ 63 <= x < 2 ^ 63 -> s64 x = x.
Proof. intros Hx. unfold swrap. rewrite Z.mod_small by lia. lia. Qed.

Lemma s64_wrap x : s64 (x + 2 ^ 64) = s64 x.
Proof. unfold swrap. replace (x + 2 ^ 64 + 2 ^ (64 - 1)) with (x + 2 ^ (64 - 1) + 1 * 2 ^ 64) by lia. by rewrite Z.mod_add by lia. Qed.

(** The bytes that are filled in. *)
Lemma fill_bytes v ob : 1 <= ob <= 8 -> 0 <= v < 2 ^ (8 * ob) ->
  foldl (fun d i => Z.lor d (Z.shiftl 0xFF (i * 8))) v (seqZ ob (8 - ob)) = v + (2 ^ 64 - 2 ^ (8 * ob)).
Proof.
  intros Ho Hv.
  assert (Hfold : forall l a, foldl (fun d i => Z.lor d (Z.shiftl 0xFF (i * 8))) a l =
    Z.lor a (foldl (fun d i => Z.lor d (Z.shiftl 0xFF (i * 8))) 0 l)).
  { induction l as [|i l IH]; intros a; cbn [foldl]; [by rewrite Z.lor_0_r|]. rewrite IH, (IH (Z.lor 0 _)), Z.lor_0_l.
    by rewrite Z.lor_assoc. }
  rewrite Hfold. set (c := foldl _ 0 _).
  assert (Hc : c = Z.shiftl (2 ^ (64 - 8 * ob) - 1) (8 * ob)).
  { subst c. clear Hfold Hv. assert (ob = 1 \/ ob = 2 \/ ob = 3 \/ ob = 4 \/ ob = 5 \/ ob = 6 \/ ob = 7 \/ ob = 8) as Hob by lia.
    destruct Hob as [->|[->|[->|[->|[->|[->|[->| ->]]]]]]]; vm_compute; reflexivity. }
  rewrite Hc, lor_high by lia. f_equal. rewrite Z.shiftl_mul_pow2 by lia. rewrite Z.mul_sub_distr_r, <- Z.pow_add_r by lia.
  replace (64 - 8 * ob + 8 * ob) with 64 by lia. lia.
Qed.

(** Filling the upper bytes of an [ob]-byte number. *)
Lemma sign_fill_spec ob d : 1 <= ob <= 8 -> - 2 ^ (8 * ob - 1) <= d < 2 ^ (8 * ob - 1) ->
  sign_fill ob (d mod 2 ^ (8 * ob)) = d.
Proof.
  intros Ho Hd. set (v := d mod 2 ^ (8 * ob)).
  assert (Hp : 2 ^ (8 * ob) = 2 * 2 ^ (8 * ob - 1)) by (rewrite <- Z.pow_succ_r by lia; f_equal; lia).
  assert (Hpos : 0 < 2 ^ (8 * ob - 1)) by (apply Z.pow_pos_nonneg; lia).
  assert (Hv : v = if d <? 0 then d + 2 ^ (8 * ob) else d).
  { subst v. destruct (Z.ltb_spec d 0).
    - rewrite <- (Z.mod_small (d + 2 ^ (8 * ob)) (2 ^ (8 * ob))) by lia. rewrite <- (Z.mod_add d 1) by lia. f_equal. lia.
    - apply Z.mod_small. lia. }
  assert (Hq : 2 ^ (8 * ob) = 256 * 2 ^ ((ob - 1) * 8)) by (change 256 with (2 ^ 8); rewrite <- Z.pow_add_r by lia; f_equal; lia).
  assert (Hq2 : 0 < 2 ^ ((ob - 1) * 8)) by (apply Z.pow_pos_nonneg; lia).
  assert (H64 : 2 ^ (8 * ob) <= 2 ^ 64) by (apply Z.pow_le_mono_r; lia).
  unfold sign_fill. rewrite Z.shiftr_div_pow2 by lia. set (q := v / 2 ^ ((ob - 1) * 8)).
  assert (Hvr : 0 <= v < 2 ^ (8 * ob)) by (rewrite Hv; destruct (Z.ltb_spec d 0); lia).
  pose proof (Z.div_mod v (2 ^ ((ob - 1) * 8)) ltac:(lia)) as Hdm. fold q in Hdm.
  pose proof (Z.mod_pos_bound v (2 ^ ((ob - 1) * 8)) ltac:(lia)) as Hm.
  assert (Hqr : 0 <= q < 256) by (split; [apply Z.div_pos; lia|apply Z.div_lt_upper_bound; lia]).
  rewrite wrap_small by (unfold fits; lia). rewrite high_bit by done. destruct (Z.ltb_spec d 0) as [Hneg|Hnn].
  - rewrite (proj2 (Z.leb_le 128 q)) by nia. rewrite fill_bytes by lia. rewrite Hv.
    replace (d + 2 ^ (8 * ob) + (2 ^ 64 - 2 ^ (8 * ob))) with (d + 2 ^ 64) by lia. rewrite s64_wrap. apply s64_small. lia.
  - rewrite (proj2 (Z.leb_gt 128 q)) by nia. rewrite Hv. apply s64_small. lia.
Qed.

(** ** Encoded runs *)

(** The run [r] is encoded at [pos] and ends before [next]: a header byte with the
    widths of its two fields, the clusters, and the delta in two's complement; no
    second field for a sparse run. *)
Definition run_at (b : list Z) (pos : Z) (r : data_run) (next : Z) : Prop :=
  exists lb ob, 1 <= lb <= 8 /\ 0 <= ob <= 8 /\ next = pos + 1 + lb + ob /\ byte_at b pos = Some (lb + 16 * ob) /\
    le_bytes b (pos + 1) (Z.to_nat lb) = Some (r_clusters r) /\
    le_bytes b (pos + 1 + lb) (Z.to_nat ob) = Some (r_delta r mod 2 ^ (8 * ob)) /\
    r_sparse r = (ob =? 0) /\
    if ob =? 0 then r_delta r = 0 else - 2 ^ (8 * ob - 1) <= r_delta r < 2 ^ (8 * ob - 1).

(** A list of runs, ended by a zero byte. *)
Fixpoint runs_at (b : list Z) (pos : Z) (rs : list data_run) : Prop :=
  match rs with
  | [] => byte_at b pos = Some 0
  | r :: rs => exists next, run_at b pos r next /\ runs_at b next rs
  end.

Lemma nibbles lb ob : 0 <= lb < 16 -> 0 <= ob < 16 ->
  Z.land (lb + 16 * ob) 0x0F = lb /\ Z.land (Z.shiftr (lb + 16 * ob) 4) 0x0F = ob.
Proof.
  intros Hl Ho. change 0x0F with (Z.ones 4). rewrite !Z.land_ones, Z.shiftr_div_pow2 by lia. change (2 ^ 4) with 16. split; zmod.
Qed.

(** Decoding an encoded run gives the run back. *)
Lemma decode_run_at b pos r next : run_at b pos r next -> decode_run b pos = Some (Some (r, next)).
Proof.
  intros (lb & ob & Hl & Ho & -> & Eb & El & Ed & Es & Hd). unfold decode_run. rewrite Eb. cbn [mbind option_bind].
  destruct (nibbles lb ob) as [-> ->]; [lia..|]. rewrite (proj2 (Z.eqb_neq lb 0)) by lia.
  rewrite (proj2 (Z.ltb_ge 8 lb)), (proj2 (Z.ltb_ge 8 ob)) by lia. cbn [orb]. rewrite El. cbn [mbind option_bind].
  rewrite Ed. cbn [mbind option_bind]. do 3 f_equal. destruct r as [n d s]. cbn [r_clusters r_delta r_sparse] in *. subst s. f_equal.
  destruct (Z.eqb_spec ob 0) as [->|Hne]; [done|]. rewrite (proj2 (Z.ltb_lt 0 ob)) by lia. apply sign_fill_spec; lia.
Qed.

(** ** Reading a file *)

Section files.
Context `{DD : DiskDrivers} {H : Type} `{KL : KernelHeapLaws H}.
Implicit Types (s : ntfs H) (fs : ntfs_fs) (b acc : list Z) (rs : list data_run) (ds : list (list Z)) (h : H) (L : gmap Z Z).

(** The sectors of cluster [l]. *)
Definition read_cluster fs (l : Z) : option (option (list Z)) :=
  disk_read_sectors (p_drive (nt_part fs)) (u64 (p_lba_start (nt_part fs) + u64 (l * (cluster_size fs / bytes_per_sector fs))))
    (let secs := u8 (cluster_size fs / bytes_per_sector fs) in if secs =? 0 then 1 else secs).

(** The geometry of a volume. *)
Definition volume_ok fs : Prop := 0 < cluster_size fs < 2 ^ 32 /\ 0 < bytes_per_sector fs.

(** The clusters of a run whose first cluster is [l], zeros when it is sparse. *)
Definition run_data fs (disk : Z -> list Z) (l : Z) (r : data_run) : list (list Z) :=
  if r_sparse r then replicate (Z.to_nat (r_clusters r)) (replicate (Z.to_nat (cluster_size fs)) 0)
  else disk <$> seqZ l (r_clusters r).

(** The clusters of a file: each delta counts from the run before. *)
Fixpoint runs_data fs (disk : Z -> list Z) (l : Z) rs : list (list Z) :=
  match rs with [] => [] | r :: rs => run_data fs disk (l + r_delta r) r ++ runs_data fs disk (l + r_delta r) rs end.

(** The clusters are in range, can be read, and hold [disk]. *)
Fixpoint runs_ok fs (disk : Z -> list Z) (l : Z) rs : Prop :=
  match rs with
  | [] => True
  | r :: rs =>
      let l' := l + r_delta r in
      0 <= r_clusters r /\ 0 <= l' /\ l' + r_clusters r < 2 ^ 63 /\
      (r_sparse r = false -> forall i, 0 <= i < r_clusters r ->
         read_cluster fs (l' + i) = Some (Some (disk (l' + i))) /\ alen (disk (l' + i)) = cluster_size fs) /\
      runs_ok fs disk l' rs
  end.

Lemma run_data_size fs disk l r : 0 <= cluster_size fs -> 0 <= r_clusters r ->
  (r_sparse r = false -> forall i, 0 <= i < r_clusters r -> alen (disk (l + i)) = cluster_size fs) ->
  alen (run_data fs disk l r) = r_clusters r /\ Forall (fun d => alen d = cluster_size fs) (run_data fs disk l r).
Proof.
  intros Hc Hn Hd. unfold run_data, alen in *. destruct (r_sparse r).
  - rewrite length_replicate. split; [lia|]. apply Forall_replicate. rewrite length_replicate. lia.
  - rewrite length_fmap, length_seqZ. split; [lia|]. apply Forall_fmap, Forall_forall. intros x Hx%elem_of_seqZ. simpl.
    replace x with (l + (x - l)) by lia. apply Hd; [done|lia].
Qed.

Lemma run_data_lookup fs disk l r i d : run_data fs disk l r !! Z.to_nat i = Some d -> 0 <= i ->
  if r_sparse r then d = replicate (Z.to_nat (cluster_size fs)) 0 else d = disk (l + i).
Proof.
  unfold run_data. intros E Hi. destruct (r_sparse r).
  - by apply lookup_replicate in E as [-> _].
  - rewrite list_lookup_fmap in E. pose proof (lookup_lt_is_Some_1 (disk <$> seqZ l (r_clusters r)) (Z.to_nat i)) as Hlt.
    rewrite list_lookup_fmap in Hlt. specialize (Hlt ltac:(by eexists)). rewrite length_fmap, length_seqZ in Hlt.
    rewrite lookup_seqZ_lt in E by lia. simpl in E. injection E as <-. f_equal. lia.
Qed.

(** The clusters of one run that the request covers are appended. *)
Lemma copy_run_spec fs disk l r rre size n : volume_ok fs ->
  0 <= l -> l + r_clusters r < 2 ^ 63 -> r_clusters r * cluster_size fs < 2 ^ 64 ->
  (r_sparse r = false -> forall i, 0 <= i < r_clusters r ->
     read_cluster fs (l + i) = Some (Some (disk (l + i))) /\ alen (disk (l + i)) = cluster_size fs) ->
  forall ci io acc, 0 <= ci -> 0 <= io < cluster_size fs -> alen acc <= size < 2 ^ 64 -> 0 <= r_clusters r ->
  rre = r_clusters r * cluster_size fs \/ alen acc = size \/ ci * cluster_size fs + io + (size - alen acc) <= rre ->
  (if size <=? alen acc then 0 else (io + (size - alen acc) + cluster_size fs - 1) / cluster_size fs) < Z.of_nat n ->
  copy_run fs (r_sparse r) l (r_clusters r) rre size ci io acc n =
    Some (acc ++ take (Z.to_nat (size - alen acc)) (drop (Z.to_nat (ci * cluster_size fs + io)) (concat (run_data fs disk l r))), false).
Proof.
  intros [Hcs Hbps] Hl Hl2 Hfit Hread. set (cs := cluster_size fs) in *. set (rc := r_clusters r) in *.
  set (ds := run_data fs disk l r).
  induction n as [|n IH]; intros ci io acc Hci Hio Hacc Hrc Hend Hn; pose proof (alen_nonneg acc) as Ha0.
  { exfalso. case_bool; [lia|]. pose proof (Z.div_pos (io + (size - alen acc) + cs - 1) cs). lia. }
  destruct (run_data_size fs disk l r) as [Hds Fds]; [fold cs; lia|done|intros Hs i Hi; by apply Hread|]. fold ds cs rc in Hds, Fds.
  assert (Hlen : alen (concat ds) = cs * rc) by (rewrite (concat_size cs) by done; by rewrite Hds).
  cbn [copy_run]. fold cs. destruct (Z.ltb_spec ci rc) as [Hcr|Hcr]; cbn [andb].
  2: { rewrite drop_ge by (unfold alen in *; nia). by rewrite take_nil, app_nil_r. }
  rewrite (wrap_small 64 (ci * cs)) by (unfold fits; nia).
  destruct (Z.ltb_spec (ci * cs) rre) as [Hcre|Hcre]; cbn [andb].
  2: { replace (Z.to_nat (size - alen acc)) with 0%nat by nia. by rewrite take_0, app_nil_r. }
  destruct (Z.ltb_spec (alen acc) size) as [Hlt|Hge].
  2: { replace (Z.to_nat (size - alen acc)) with 0%nat by lia. by rewrite take_0, app_nil_r. }
  rewrite (wrap_small 64 (cs - io)) by (unfold fits; lia).
  set (tc := if size - alen acc <? cs - io then size - alen acc else cs - io).
  assert (Htc : tc = Z.min (size - alen acc) (cs - io)) by (subst tc; case_bool; lia). clearbody tc.
  rewrite (wrap_small 64 (ci + 1)) by (unfold fits; nia).
  destruct (lookup_lt_is_Some_2 ds (Z.to_nat ci)) as [d Ed]; [unfold alen in Hds; lia|].
  pose proof (Forall_lookup_1 _ _ _ _ Fds Ed) as Hd. simpl in Hd.
  pose proof (run_data_lookup fs disk l r ci d Ed Hci) as Hdd. fold cs in Hdd.
  set (piece := take (Z.to_nat tc) (drop (Z.to_nat io) d)).
  assert (Hpiece : piece = take (Z.to_nat tc) (drop (Z.to_nat (ci * cs + io)) (concat ds))) by (symmetry; apply (block_piece cs); first [assumption|lia]).
  assert (Hp : alen (acc ++ piece) = alen acc + tc).
  { unfold piece, alen in *. rewrite length_app, length_take, length_drop. lia. }
  assert (Goal1 : copy_run fs (r_sparse r) l rc rre size (ci + 1) 0 (acc ++ piece) n =
    Some (acc ++ take (Z.to_nat (size - alen acc)) (drop (Z.to_nat (ci * cs + io)) (concat ds)), false)).
  { rewrite IH; [|lia|lia|lia|lia| |].
    - rewrite <- app_assoc. do 3 f_equal. rewrite Hp, Hpiece.
      destruct (Z.eq_dec tc (cs - io)) as [->|Hne].
      + replace (Z.to_nat ((ci + 1) * cs + 0)) with (Z.to_nat (ci * cs + io) + Z.to_nat (cs - io))%nat by nia.
        rewrite <- drop_drop, take_take_drop. f_equal. lia.
      + replace tc with (size - alen acc) by lia. replace (Z.to_nat (size - (alen acc + (size - alen acc)))) with 0%nat by lia.
        by rewrite take_0, app_nil_r.
    - destruct Hend as [?|[?|?]]; [by left|lia|right]. rewrite Hp. destruct (Z.eq_dec tc (cs - io)); [right; nia|left; lia].
    - rewrite Hp. rewrite (proj2 (Z.leb_gt size (alen acc))) in Hn by done.
      pose proof (Z.mul_succ_div_gt (io + (size - alen acc) + cs - 1) cs ltac:(lia)) as G.
      destruct (Z.leb_spec size (alen acc + tc)).
      + destruct n; [|lia]. exfalso. assert (cs <= io + (size - alen acc) + cs - 1) as G2 by lia.
        apply (Z.div_le_mono _ _ cs) in G2; [|lia]. rewrite Z.div_same in G2 by lia. lia.
      + apply Z.div_lt_upper_bound; [lia|]. nia. }
  destruct (r_sparse r) eqn:Es.
  - rewrite <- Goal1. f_equal. f_equal. unfold piece. rewrite Hdd. rewrite drop_replicate, take_replicate. f_equal. lia.
  - rewrite (proj2 (Z.eqb_neq (bytes_per_sector fs) 0)) by lia. rewrite (wrap_small 64 (l + ci)) by (unfold fits; lia).
    destruct (Hread eq_refl ci) as [Er Ed2]; [lia|]. unfold read_cluster in Er. fold cs in Er. cbv zeta in Er. rewrite Er. cbn [mbind option_bind].
    rewrite <- Hdd, Hd, Z.ltb_irrefl. unfold bytes_at. rewrite (proj2 (Z.leb_le _ _)) by lia. cbn [mbind option_bind]. exact Goal1.
Qed.

(** The slice of two pieces put together. *)
Lemma slice_app (x y : list Z) (offset size : Z) : 0 <= offset ->
  alen (take (Z.to_nat size) (drop (Z.to_nat offset) x)) < size ->
  take (Z.to_nat size) (drop (Z.to_nat offset) (x ++ y)) =
  take (Z.to_nat size) (drop (Z.to_nat offset) x) ++
  take (Z.to_nat (size - alen (take (Z.to_nat size) (drop (Z.to_nat offset) x)))) (drop (Z.to_nat (offset - alen x)) y).
Proof.
  intros Ho Hlt. unfold alen in *. rewrite length_take in *. rewrite skipn_app, firstn_app. f_equal.
  f_equal; [lia|]. f_equal. lia.
Qed.

Lemma slice_full (x y : list Z) (offset size : Z) : size <= alen (take (Z.to_nat size) (drop (Z.to_nat offset) x)) ->
  take (Z.to_nat size) (drop (Z.to_nat offset) (x ++ y)) = take (Z.to_nat size) (drop (Z.to_nat offset) x).
Proof.
  intros Hge. unfold alen in *. rewrite length_take in Hge. rewrite skipn_app, firstn_app.
  replace (Z.to_nat size - length (drop (Z.to_nat offset) x))%nat with 0%nat by lia. by rewrite take_0, app_nil_r.
Qed.

(** The runs of a file, from any run on: [pre] is what lies before it. *)
Lemma read_runs_spec fs b disk offset size : volume_ok fs -> 0 <= offset -> 0 <= size -> offset + size < 2 ^ 64 ->
  forall rs pos l pre n, runs_at b pos rs -> runs_ok fs disk l rs ->
  Forall (fun d => alen d = cluster_size fs) pre -> 0 <= l < 2 ^ 63 ->
  (alen pre + alen (runs_data fs disk l rs)) * cluster_size fs < 2 ^ 64 -> (length rs < n)%nat ->
  read_runs fs b pos l (alen pre) offset size (take (Z.to_nat size) (drop (Z.to_nat offset) (concat pre))) n =
    Some (take (Z.to_nat size) (drop (Z.to_nat offset) (concat (pre ++ runs_data fs disk l rs)))).
Proof.
  intros HV Ho Hs Hw. pose proof HV as [Hcs _]. set (cs := cluster_size fs) in *.
  induction rs as [|r rs IH]; intros pos l pre [|n] HA HO Fpre Hl Hfit Hn; cbn [length] in Hn; try lia; cbn [read_runs].
  { cbn [runs_at] in HA. rewrite HA. cbn [mbind option_bind runs_data]. by rewrite app_nil_r. }
  destruct HA as (next & HR & HA). destruct HO as (Hrc & Hl' & Hl2 & Hread & HO).
  pose proof (decode_run_at b pos r next HR) as HD. destruct HR as (lb & ob & Hlb & Hob & _ & Eb & _).
  rewrite Eb. cbn [mbind option_bind]. rewrite (proj2 (Z.eqb_neq _ 0)) by lia. cbn [negb andb].
  cbn [runs_data] in *. set (l' := l + r_delta r) in *. set (ds := run_data fs disk l' r) in *.
  destruct (run_data_size fs disk l' r) as [Hds Fds]; [fold cs; lia|done|intros Hsp i Hi; by apply Hread|]. fold ds cs in Hds, Fds.
  assert (Hpre : alen (concat pre) = cs * alen pre) by (by apply concat_size).
  pose proof (alen_nonneg pre) as Hp0. pose proof (alen_nonneg (runs_data fs disk l' rs)) as Ht0.
  assert (Hsum : alen (ds ++ runs_data fs disk l' rs) = r_clusters r + alen (runs_data fs disk l' rs)).
  { unfold alen in *. rewrite length_app. lia. }
  rewrite Hsum in Hfit. set (acc := take (Z.to_nat size) (drop (Z.to_nat offset) (concat pre))).
  assert (Hacc : alen acc = Z.max 0 (Z.min size (cs * alen pre - offset))).
  { subst acc. unfold alen in *. rewrite length_take, length_drop. lia. }
  destruct (Z.ltb_spec (alen acc) size) as [Hlt|Hge].
  2: { f_equal. rewrite concat_app. symmetry. by apply slice_full. }
  rewrite HD. cbn [mbind option_bind]. rewrite (s64_small (l + r_delta r)) by (fold l'; lia). fold l' cs.
  rewrite (wrap_small 64 (r_clusters r * cs)), (wrap_small 64 (alen pre * cs)) by (unfold fits; nia).
  rewrite (wrap_small 64 (alen pre * cs + _)), (wrap_small 64 (offset + size)) by (unfold fits; nia).
  rewrite (wrap_small 64 (alen pre + _)) by (unfold fits; nia).
  set (start := alen pre * cs) in *.
  assert (Hnext : read_runs fs b next l' (alen (pre ++ ds)) offset size
      (take (Z.to_nat size) (drop (Z.to_nat offset) (concat (pre ++ ds)))) n =
    Some (take (Z.to_nat size) (drop (Z.to_nat offset) (concat (pre ++ ds ++ runs_data fs disk l' rs))))).
  { rewrite (IH next l' (pre ++ ds) n HA HO); [by rewrite <- app_assoc|by apply Forall_app|lia| |lia].
    unfold alen in *. rewrite length_app. nia. }
  replace (alen (pre ++ ds)) with (alen pre + r_clusters r) in Hnext by (unfold alen in *; rewrite length_app; lia).
  rewrite (concat_app pre ds), (slice_app (concat pre) (concat ds)) in Hnext by done. fold acc in Hnext. rewrite Hpre in Hnext.
  assert (Hcd : alen (concat ds) = cs * r_clusters r) by (rewrite (concat_size cs) by done; by rewrite Hds).
  destruct (Z.ltb_spec offset (start + r_clusters r * cs)) as [H1|H1]; cbn [andb].
  2: { cbn [mbind option_bind]. rewrite drop_ge in Hnext by (unfold alen in *; nia). by rewrite take_nil, app_nil_r in Hnext. }
  destruct (Z.ltb_spec start (offset + size)) as [H2|H2]; [|lia].
  rewrite (proj2 (Z.eqb_neq cs 0)) by lia.
  set (rrs := if start <? offset then offset - start else 0).
  assert (Hrrs : rrs = Z.max 0 (offset - start)) by (subst rrs; case_bool; lia). clearbody rrs.
  set (rre := if offset + size <? _ then _ else _).
  assert (Hrre : rre = r_clusters r * cs \/ rrs + (size - alen acc) <= rre).
  { subst rre. case_bool; [right|by left]. rewrite (wrap_small 64) by (unfold fits; lia). lia. }
  clearbody rre. pose proof (Z.div_mod rrs cs ltac:(lia)) as Hdm. pose proof (Z.mod_pos_bound rrs cs ltac:(lia)) as Hm.
  pose proof (Z.div_pos rrs cs ltac:(lia) ltac:(lia)) as Hd0. pose proof (Z.div_pos size cs ltac:(lia) ltac:(lia)) as Hd1.
  rewrite (copy_run_spec fs disk l' r rre size _ HV) by
    (first [done|fold cs; nia|fold cs; destruct Hrre; [by left|right; right; nia]|fold cs; rewrite (proj2 (Z.leb_gt _ _)) by done;
       pose proof (Z.mul_succ_div_gt size cs ltac:(lia)); apply Z.div_lt_upper_bound; [lia|nia]]).
  cbn [mbind option_bind]. fold cs ds. replace (rrs / cs * cs + rrs mod cs) with rrs by lia.
  replace (Z.to_nat (offset - cs * alen pre)) with (Z.to_nat rrs) in Hnext by lia. exact Hnext.
Qed.

(** The attribute at [attr] holds [content]: in the record itself, or in data runs. *)
Definition data_at fs b (attr : Z) (disk : Z -> list Z) (content : list Z) : Prop :=
  (exists vo, byte_at b (attr + 8) = Some 0 /\ le32 b (attr + 16) = Some (alen content) /\ le16 b (attr + 20) = Some vo /\
     0 <= attr + vo /\ attr + vo + alen content <= alen b /\
     take (Z.to_nat (alen content)) (drop (Z.to_nat (attr + vo)) b) = content) \/
  (exists k ro rs, byte_at b (attr + 8) = Some k /\ k <> 0 /\ le16 b (attr + 32) = Some ro /\
     runs_at b (attr + ro) rs /\ runs_ok fs disk 0 rs /\ (length rs < S (length b))%nat /\
     alen (runs_data fs disk 0 rs) * cluster_size fs < 2 ^ 64 /\ content = concat (runs_data fs disk 0 rs)).

Lemma read_data_spec h L fs b attr disk content offset size k : volume_ok fs -> data_at fs b attr disk content ->
  0 <= offset -> 0 <= size -> offset + size < 2 ^ 64 ->
  kh_live h L -> 0 <= k -> kh_room h (kh_cost (cluster_size fs) + k) ->
  exists h' bytes, read_data h fs b attr offset size = Some (h', bytes) /\ kh_live h' L /\ kh_room h' k /\
    (bytes = take (Z.to_nat size) (drop (Z.to_nat offset) content) \/ (bytes = [] /\ exists h1, kh_alloc h (cluster_size fs) = Some (h1, 0))).
Proof.
  intros HV [(vo & Enr & El & Ev & Hvo & Hb & Ec)|(k0 & ro & rs & Enr & Hk0 & Ero & HA & HO & Hn & Hfit & ->)] Ho Hs Hw HL Hk Hr;
    unfold read_data; pose proof HV as [Hcs _]; pose proof (kh_cost_pos (H := H) (cluster_size fs) ltac:(lia)) as HC;
    rewrite Enr; cbn [mbind option_bind].
  - rewrite El, Ev. cbn [mbind option_bind Z.eqb]. pose proof (alen_nonneg content) as Hc0.
    assert (Hr' : kh_room h k) by (eapply kh_room_mono; [exact Hr|lia]).
    destruct (Z.leb_spec (alen content) offset) as [Hle|Hlt].
    { exists h, []. split_and!; try done. left. rewrite drop_ge by (unfold alen in Hle; lia). by rewrite take_nil. }
    set (tc := if size <? alen content - offset then size else alen content - offset).
    assert (Htc : tc = Z.min size (alen content - offset)) by (subst tc; case_bool; lia). clearbody tc.
    unfold bytes_at. rewrite (proj2 (Z.leb_le _ _)) by lia. cbn [mbind option_bind]. eexists h, _. split_and!; try done. left.
    replace (Z.to_nat (attr + vo + offset)) with (Z.to_nat (attr + vo) + Z.to_nat offset)%nat by lia.
    rewrite <- drop_drop. set (x := drop (Z.to_nat (attr + vo)) b) in *. rewrite <- Ec at 1. rewrite skipn_firstn_comm, take_take. f_equal. unfold alen in *. lia.
  - rewrite (proj2 (Z.eqb_neq k0 0) Hk0), Ero. cbn [mbind option_bind].
    destruct (kh_alloc_law h L (cluster_size fs) k HL) as (h1 & p & Ea & Hr1 & Ca); [lia|done|done|]. rewrite Ea. cbn [mbind option_bind].
    destruct Ca as [(-> & HL1)|(Hp & HLp & m & _ & HL1)].
    { exists h1, []. split_and!; try done. right. split; [done|]. by exists h1. }
    rewrite (proj2 (Z.eqb_neq p 0)) by lia.
    pose proof (read_runs_spec fs b disk offset size HV Ho Hs Hw rs (attr + ro) 0 [] (S (length b)) HA HO) as HR.
    cbn [app concat] in HR. change (alen []) with 0 in HR. rewrite drop_nil, take_nil in HR.
    rewrite HR; [|constructor|lia|lia|done]. cbn [mbind option_bind].
    destruct (kh_free_law h1 _ p m k HL1) as (h2 & Ef & HL2 & Hr2); [apply lookup_insert_eq|done|]. rewrite delete_insert_id in HL2 by done.
    rewrite Ef. cbn [mbind option_bind]. eexists h2, _. split_and!; try done. by left.
Qed.

(** The read, given the record, the attribute and its data. *)
Lemma ntfs_read_spec s (node offset size : Z) (n : ntfs_vnode) (d : ntfs_node) fs b attr disk content L :
  nt_nodes s !! node = Some n -> Z.land (n_flags n) FS_FILE = FS_FILE -> n_impl n <> 0 -> node_data s n = Some (d, fs) ->
  ntfs_read_mft_record fs (mft_record_number d) = Some (Some b) ->
  ntfs_find_attr b NTFS_ATTR_DATA (mft_record_size fs) = Some (Some attr) ->
  volume_ok fs -> data_at fs b attr disk content -> 0 < mft_record_size fs < 2 ^ 32 ->
  0 <= offset -> 0 <= size -> offset + size < 2 ^ 64 -> 0 <= nn_file_size d < 2 ^ 64 ->
  kh_live (nt_heap s) L -> kh_room (nt_heap s) (kh_cost (mft_record_size fs) + kh_cost (cluster_size fs)) ->
  let bytes := take (Z.to_nat size) (drop (Z.to_nat offset) (take (Z.to_nat (nn_file_size d)) content)) in
  (exists h, ntfs_read s node offset size = Some (set_nt_heap s h, alen bytes, bytes) /\ kh_live h L) \/
  (exists h, ntfs_read s node offset size = Some (set_nt_heap s h, 0, []) /\ kh_live h L /\
     ((exists h1, kh_alloc (nt_heap s) (mft_record_size fs) = Some (h1, 0)) \/
      (exists h1 p h2, kh_alloc (nt_heap s) (mft_record_size fs) = Some (h1, p) /\ p <> 0 /\
         kh_alloc h1 (cluster_size fs) = Some (h2, 0)))).
Proof.
  intros En Ef Ei Ed Er Ea HV HD Hrec Ho Hs Hw Hlen HL Hr bytes0. subst bytes0. unfold ntfs_read. set (len := nn_file_size d) in *.
  rewrite En. cbn [mbind option_bind]. rewrite Ef, Z.eqb_refl, (proj2 (Z.eqb_neq _ 0) Ei), Ed. cbn [negb mbind option_bind]. fold len.
  destruct (Z.leb_spec len offset) as [Hle|Hlt].
  { left. exists (nt_heap s). rewrite drop_ge by (rewrite length_take; lia). rewrite take_nil. split; [by destruct s|done]. }
  rewrite wrap_small by (unfold fits; lia). set (sz := if len <? offset + size then len - offset else size).
  assert (Hsz : sz = Z.min size (len - offset)) by (subst sz; case_bool; lia). clearbody sz.
  replace (take (Z.to_nat size) (drop (Z.to_nat offset) (take (Z.to_nat len) content)))
    with (take (Z.to_nat sz) (drop (Z.to_nat offset) content)) by (rewrite skipn_firstn_comm, take_take; f_equal; lia).
  destruct (Z.eqb_spec sz 0) as [Hz|Hz].
  { left. exists (nt_heap s). rewrite Hz, take_0. split; [by destruct s|done]. }
  pose proof (kh_cost_pos (H := H) (cluster_size fs) ltac:(unfold volume_ok in HV; lia)) as HC.
  unfold with_attr. destruct (kh_alloc_law (nt_heap s) L (mft_record_size fs) _ HL ltac:(lia) HC Hr) as (h1 & p & Eal & Hr1 & Ca).
  rewrite Eal. cbn [mbind option_bind]. destruct Ca as [(-> & HL1)|(Hp & HLp & m & _ & HL1)].
  { right. exists h1. split; [done|]. split; [done|]. left. by exists h1. }
  rewrite (proj2 (Z.eqb_neq p 0)), Er by lia. cbn [mbind option_bind]. rewrite Ea. cbn [mbind option_bind].
  destruct (read_data_spec h1 (<[p := m]> L) fs b attr disk content offset sz 0 HV HD Ho) as (h2 & bytes & Erd & HL2 & Hr2 & HB);
    [lia|lia|done|lia|by rewrite Z.add_0_r|].
  rewrite Erd. cbn [mbind option_bind].
  destruct (kh_free_law h2 _ p m 0 HL2) as (h3 & -> & HL3 & _); [apply lookup_insert_eq|done|]. rewrite delete_insert_id in HL3 by done.
  cbn [mbind option_bind]. destruct HB as [->|[-> (h4 & HB)]]; [left; by exists h3|right]. exists h3. split; [done|]. split; [done|]. right.
  exists h1, p, h4. split; [done|]. split; [lia|done].
Qed.

(** *** The volume on a disk image *)

(** The bytes of cluster [l], and of MFT record [num] as it is stored. *)
Definition cluster_bytes (img : Z -> Z) fs (l : Z) : list Z :=
  image_bytes img (512 * p_lba_start (nt_part fs) + cluster_size fs * l) (cluster_size fs).

Definition raw_record (img : Z -> Z) fs (num : Z) : list Z :=
  image_bytes img (512 * mft_lba fs + mft_record_size fs * num) (mft_record_size fs).

Definition geometry_ok fs (sectors : Z) : Prop :=
  bytes_per_sector fs = 512 /\ (exists k, 0 < k < 256 /\ cluster_size fs = 512 * k) /\
  (exists k, 0 < k < 256 /\ mft_record_size fs = 512 * k) /\
  0 <= p_lba_start (nt_part fs) /\ 0 <= mft_lba fs /\ sectors <= 2 ^ 32.

Definition word b (o : Z) : Z := aget 0 b o + 256 * aget 0 b (o + 1).
Definition dword b (o : Z) : Z := word b o + 65536 * word b (o + 2).

(** A record as it is meant: the last two bytes of its sectors stand in the
    update sequence array, whose offset and length are in the header. *)
Definition fixed_to raw (m : Z) : list Z :=
  map (fun o => let i := o / 512 + 1 in
    if (510 <=? o mod 512) && (i <? m) then aget 0 raw (word raw 4 + 2 * i + (o mod 512 - 510)) else aget 0 raw o)
    (seqZ 0 (alen raw)).

Definition fixed_up raw : list Z := fixed_to raw (word raw 6).

(** The record is on the disk, has the magic number and the sequence number at
    the end of each sector, and its array lies before the end of the first. *)
Definition record_ok (img : Z -> Z) fs (sectors num : Z) : Prop :=
  let raw := raw_record img fs num in
  0 <= num /\ 512 * mft_lba fs + mft_record_size fs * (num + 1) <= 512 * sectors /\
  dword raw 0 = 0x454C4946 /\ word raw 4 + 2 * word raw 6 <= 510 /\
  forall i, 1 <= i < word raw 6 -> 512 * i <= alen raw -> word raw (512 * i - 2) = word raw (word raw 4).

(** The first attribute of a type from an offset on: attributes are chained by
    their lengths. *)
Inductive attr_found b (type : Z) : Z -> Z -> Prop :=
  | attr_here off : 0 <= off -> off + 16 <= alen b -> dword b off = type -> dword b (off + 4) <> 0 -> attr_found b type off off
  | attr_next off attr : 0 <= off -> off + 16 <= alen b -> dword b off <> type -> dword b off <> 0xFFFFFFFF ->
      0 < dword b (off + 4) -> attr_found b type (off + dword b (off + 4)) attr -> attr_found b type off attr.

Lemma byte_at_aget b o : 0 <= o < alen b -> byte_at b o = Some (aget 0 b o).
Proof. intros Ho. unfold byte_at. by apply (aget_lookup 0). Qed.

Lemma le16_word b o : 0 <= o -> o + 2 <= alen b -> le16 b o = Some (word b o).
Proof. intros Ho Hl. unfold le16, le_bytes. rewrite !byte_at_aget by lia. cbn [mbind option_bind]. unfold word. f_equal. lia. Qed.

Lemma le32_dword b o : 0 <= o -> o + 4 <= alen b -> le32 b o = Some (dword b o).
Proof.
  intros Ho Hl. unfold le32, le_bytes. rewrite !byte_at_aget by lia. cbn [mbind option_bind]. unfold dword, word. f_equal.
  replace (o + 2 + 1) with (o + 1 + 1 + 1) by lia. replace (o + 2) with (o + 1 + 1) by lia. lia.
Qed.

Lemma fixed_to_length raw m : alen (fixed_to raw m) = alen raw.
Proof. unfold fixed_to, alen. rewrite length_map, length_seqZ. lia. Qed.

Lemma fixed_to_get raw m o : 0 <= o < alen raw -> aget 0 (fixed_to raw m) o =
  let i := o / 512 + 1 in
  if (510 <=? o mod 512) && (i <? m) then aget 0 raw (word raw 4 + 2 * i + (o mod 512 - 510)) else aget 0 raw o.
Proof.
  intros Ho. unfold fixed_to, aget at 1. rewrite list_lookup_fmap, lookup_seqZ_lt by lia. cbn [fmap option_fmap option_map default from_option].
  by rewrite Z2Nat.id, Z.add_0_l by lia.
Qed.

Lemma fixed_to_raw raw m o : 0 <= o < alen raw -> o mod 512 < 510 \/ m <= o / 512 + 1 -> aget 0 (fixed_to raw m) o = aget 0 raw o.
Proof.
  intros Ho Hm. rewrite fixed_to_get by done. cbv zeta. destruct (Z.leb_spec 510 (o mod 512)), (Z.ltb_spec (o / 512 + 1) m); cbn [andb]; done || lia.
Qed.

(** Storing the word of sector [i] is one more step. *)
Lemma fixed_to_step raw i : 1 <= i -> 512 * i <= alen raw -> 0 <= aget 0 raw (word raw 4 + 2 * i) < 256 ->
  set_word (fixed_to raw i) (i * 512 - 2) (word raw (word raw 4 + 2 * i)) = fixed_to raw (i + 1).
Proof.
  intros Hi Hl Hb. unfold word at 1, set_word. set (x := aget 0 raw _) in *. set (y := aget 0 raw (_ + 1)).
  replace ((x + 256 * y) mod 256) with x by zmod. replace ((x + 256 * y) / 256) with y by zmod.
  apply list_eq. intros j. pose proof (fixed_to_length raw i) as L1. pose proof (fixed_to_length raw (i + 1)) as L2. unfold aset.
  destruct (decide (Z.of_nat j < alen raw)) as [Hj|Hj].
  2: { rewrite !lookup_ge_None_2; [done|unfold alen in *; lia|rewrite !length_insert; unfold alen in *; lia]. }
  assert (G : forall m, fixed_to raw m !! j = Some (aget 0 (fixed_to raw m) (Z.of_nat j))).
  { intros m. pose proof (byte_at_aget (fixed_to raw m) (Z.of_nat j)) as E. rewrite fixed_to_length in E.
    unfold byte_at in E. rewrite Nat2Z.id in E. apply E. lia. }
  rewrite (G (i + 1)). destruct (decide (Z.of_nat j = i * 512 - 1)) as [E1|E1].
  { replace (Z.to_nat (i * 512 - 2 + 1)) with j by lia. rewrite list_lookup_insert_eq by (rewrite length_insert; unfold alen in *; lia).
    rewrite fixed_to_get by lia. cbv zeta. replace (Z.of_nat j / 512) with (i - 1) by zmod. replace (Z.of_nat j mod 512) with 511 by zmod.
    rewrite (proj2 (Z.ltb_lt _ _)) by lia. cbn [andb Z.leb]. cbn. unfold y. do 2 f_equal. lia. }
  rewrite list_lookup_insert_ne by lia. destruct (decide (Z.of_nat j = i * 512 - 2)) as [E2|E2].
  { replace (Z.to_nat (i * 512 - 2)) with j by lia. rewrite list_lookup_insert_eq by (unfold alen in *; lia).
    rewrite fixed_to_get by lia. cbv zeta. replace (Z.of_nat j / 512) with (i - 1) by zmod. replace (Z.of_nat j mod 512) with 510 by zmod.
    rewrite (proj2 (Z.ltb_lt _ _)) by lia. cbn. unfold x. do 2 f_equal. lia. }
  rewrite list_lookup_insert_ne, G by lia. f_equal. rewrite !fixed_to_get by lia. cbv zeta.
  destruct (Z.leb_spec 510 (Z.of_nat j mod 512)) as [Hm|]; [|done]. cbn [andb].
  assert (Z.of_nat j / 512 + 1 <> i) by zmod. destruct (Z.ltb_spec (Z.of_nat j / 512 + 1) i), (Z.ltb_spec (Z.of_nat j / 512 + 1) (i + 1)); done || lia.
Qed.

Lemma fixed_to_low raw m : m <= 1 -> fixed_to raw m = raw.
Proof.
  intros Hm. apply list_eq. intros j. pose proof (fixed_to_length raw m) as L1.
  destruct (decide (Z.of_nat j < alen raw)) as [Hj|Hj]; [|rewrite !lookup_ge_None_2; [done|unfold alen in *; lia..]].
  rewrite <- (Nat2Z.id j), !(aget_lookup 0) by lia. f_equal. rewrite ?Nat2Z.id. apply fixed_to_raw; [lia|right]. pose proof (Z.div_pos (Z.of_nat j) 512). lia.
Qed.

(** Past the last sector nothing changes any more. *)
Lemma fixed_to_end raw k m m' : alen raw = 512 * k -> k < m -> k < m' -> fixed_to raw m = fixed_to raw m'.
Proof.
  intros Hk H1 H2. unfold fixed_to. apply map_ext_in. intros o Ho%list_elem_of_In%elem_of_seqZ.
  assert (o / 512 < k) by (apply Z.div_lt_upper_bound; lia). rewrite !(proj2 (Z.ltb_lt _ _)) by lia. done.
Qed.

Lemma usa_fixup_spec raw k : alen raw = 512 * k -> (forall o, 0 <= aget 0 raw o < 256) -> word raw 4 + 2 * word raw 6 <= 510 ->
  (forall i, 1 <= i < word raw 6 -> 512 * i <= alen raw -> word raw (512 * i - 2) = word raw (word raw 4)) ->
  forall n i, 1 <= i -> Z.of_nat n = word raw 6 - i ->
  usa_fixup (fixed_to raw i) (alen raw) (word raw 4) (word raw (word raw 4)) i n = Some (Some (fixed_up raw)).
Proof.
  intros Hk Hb Ha Hseq. assert (Hw : 0 <= word raw 4) by (unfold word; pose proof (Hb 4); pose proof (Hb (4 + 1)); lia).
  induction n as [|n IH]; intros i Hi Hn; cbn [usa_fixup].
  - unfold fixed_up. do 3 f_equal. lia.
  - destruct (Z.leb_spec (alen raw) (i * 512 - 2 + 1)) as [Hend|Hmore].
    { do 2 f_equal. apply (fixed_to_end raw k); lia. }
    assert (Hin : 512 * i <= alen raw) by lia.
    assert (Hword : forall o, 0 <= o -> o + 2 <= alen raw -> o mod 512 < 509 \/ o = 512 * i - 2 -> le16 (fixed_to raw i) o = Some (word raw o)).
    { intros o Ho Ho2 Hd. rewrite le16_word by (rewrite ?fixed_to_length; lia). unfold word at 1.
      rewrite !fixed_to_raw by (first [lia|destruct Hd as [Hd| ->]; [left; zmod|right; zmod]]). done. }
    replace (i * 512 - 2) with (512 * i - 2) by lia. rewrite (Hword (512 * i - 2)); [|lia|lia|by right]. cbn [mbind option_bind].
    rewrite (Hseq i ltac:(lia) Hin), Z.eqb_refl. cbn [negb].
    rewrite Hword by (first [lia|left; rewrite Z.mod_small by lia; lia]). cbn [mbind option_bind].
    replace (512 * i - 2) with (i * 512 - 2) by lia. rewrite fixed_to_step by (apply Hb || lia). apply IH; lia.
Qed.

(** The record is read and put right. *)
Lemma read_record img fs sectors num : drive_holds (p_drive (nt_part fs)) img sectors -> geometry_ok fs sectors ->
  record_ok img fs sectors num -> ntfs_read_mft_record fs num = Some (Some (fixed_up (raw_record img fs num))).
Proof.
  intros [HB HR] (Hbps & _ & (k & Hk & Ek) & _ & Hm & Hs) (Hn & Hin & Hmagic & Harr & Hseq). unfold ntfs_read_mft_record.
  set (raw := raw_record img fs num) in *. assert (Hlen : alen raw = 512 * k) by (unfold raw, raw_record; rewrite Ek; apply image_bytes_length; lia).
  assert (Hby : forall o, 0 <= aget 0 raw o < 256).
  { intros o. apply (Forall_aget (fun x => 0 <= x < 256)); [|lia]. apply Forall_fmap, Forall_true. intros x. apply HB. }
  rewrite Hbps, Ek in *. cbn [Z.eqb]. replace (512 * k / 512) with k by (rewrite Z.mul_comm, Z.div_mul; lia).
  assert (num * k <= sectors) by nia. rewrite (wrap_small 64 (num * _)) by (unfold fits; nia).
  replace (num * (512 * k) / 512) with (num * k) by (replace (num * (512 * k)) with (num * k * 512) by lia; rewrite Z.div_mul; lia).
  rewrite (wrap_small 64) by (unfold fits; nia). rewrite (wrap_small 8) by (unfold fits; lia). rewrite (proj2 (Z.eqb_neq k 0)) by lia.
  rewrite HR by nia. cbn [mbind option_bind].
  replace (image_bytes img (512 * (mft_lba fs + num * k)) (512 * k)) with raw by (unfold raw, raw_record; rewrite Ek; f_equal; lia).
  rewrite Hlen, Z.ltb_irrefl. rewrite le32_dword, Hmagic by lia. cbn [mbind option_bind]. change (negb (0x454C4946 =? NTFS_FILE_MAGIC)) with false.
  cbv iota. rewrite !le16_word by lia. cbn [mbind option_bind].
  assert (0 <= word raw 4) by (unfold word; pose proof (Hby 4); pose proof (Hby (4 + 1)); lia).
  assert (0 <= word raw 6) by (unfold word; pose proof (Hby 6); pose proof (Hby (6 + 1)); lia).
  rewrite le16_word by lia. cbn [mbind option_bind]. rewrite <- Hlen.
  destruct (decide (word raw 6 <= 1)) as [Hle|Hgt].
  { replace (Z.to_nat (word raw 6 - 1)) with 0%nat by lia. cbn [usa_fixup]. unfold fixed_up. by rewrite fixed_to_low. }
  rewrite <- (fixed_to_low raw 1) at 1 by lia. apply (usa_fixup_spec raw k); try done; lia.
Qed.

Lemma find_attr_spec b type off attr : attr_found b type off attr -> type <> 0xFFFFFFFF -> alen b < 2 ^ 32 ->
  forall fuel, alen b - off < Z.of_nat fuel -> find_attr_loop b type (alen b) off fuel = Some (Some attr).
Proof.
  intros F Ht Hl. induction F as [off H1 H2 E Hz|off attr H1 H2 Hne Hend Hpos F IH]; intros [|fuel] Hf; try lia; cbn [find_attr_loop];
    unfold sizeof_ntfs_attr_header; rewrite (proj2 (Z.leb_le _ _)) by lia; rewrite !le32_dword by lia; cbn [mbind option_bind].
  - rewrite E, (proj2 (Z.eqb_neq _ _) Ht), (proj2 (Z.eqb_neq _ _) Hz), Z.eqb_refl. done.
  - rewrite (proj2 (Z.eqb_neq _ _) Hend), (proj2 (Z.eqb_neq _ 0)), (proj2 (Z.eqb_neq _ _) Hne) by lia.
    assert (off + dword b (off + 4) + 16 <= alen b) by (by inversion F). rewrite wrap_small by (unfold fits; lia). apply IH. lia.
Qed.

(** The clusters of the runs lie on the disk. *)
Fixpoint runs_on_disk fs (sectors l : Z) rs : Prop :=
  match rs with
  | [] => True
  | r :: rs =>
      let l' := l + r_delta r in
      0 <= r_clusters r /\ 0 <= l' /\ l' + r_clusters r < 2 ^ 63 /\
      (r_sparse r = false -> 512 * p_lba_start (nt_part fs) + cluster_size fs * (l' + r_clusters r) <= 512 * sectors) /\
      runs_on_disk fs sectors l' rs
  end.

Lemma read_cluster_disk img fs sectors l : drive_holds (p_drive (nt_part fs)) img sectors -> geometry_ok fs sectors ->
  0 <= l -> 512 * p_lba_start (nt_part fs) + cluster_size fs * (l + 1) <= 512 * sectors ->
  read_cluster fs l = Some (Some (cluster_bytes img fs l)).
Proof.
  intros [_ HR] (Hbps & (k & Hk & Ek) & _ & Hp & _ & Hs) Hl Hin. unfold read_cluster, cluster_bytes. rewrite Hbps, Ek in *.
  replace (512 * k / 512) with k by (rewrite Z.mul_comm, Z.div_mul; lia). assert (l * k <= sectors) by nia.
  rewrite (wrap_small 64 (l * k)), (wrap_small 64) by (unfold fits; nia). rewrite (wrap_small 8) by (unfold fits; lia).
  cbv zeta. rewrite (proj2 (Z.eqb_neq k 0)) by lia. rewrite HR by nia. do 3 f_equal. lia.
Qed.

Lemma runs_readable img fs sectors rs : drive_holds (p_drive (nt_part fs)) img sectors -> geometry_ok fs sectors ->
  forall l, runs_on_disk fs sectors l rs -> runs_ok fs (cluster_bytes img fs) l rs.
Proof.
  intros HD HG. induction rs as [|r rs IH]; intros l HO; [done|]. destruct HO as (H1 & H2 & H3 & H4 & HO). cbn [runs_ok].
  do 3 (split; [done|]). split; [|by apply IH]. intros Hsp i Hi. specialize (H4 Hsp). pose proof HG as (_ & (k & Hk & Ek) & _).
  split; [apply (read_cluster_disk img fs sectors); [done|done|lia|nia]|apply image_bytes_length; lia].
Qed.

(** The attribute at [attr] holds [content]: in the record itself, or in data
    runs whose clusters are on the disk. *)
Definition data_on_disk (img : Z -> Z) fs (sectors : Z) b (attr : Z) (content : list Z) : Prop :=
  (exists vo, aget 0 b (attr + 8) = 0 /\ dword b (attr + 16) = alen content /\ word b (attr + 20) = vo /\
     0 <= vo /\ attr + 22 <= alen b /\ attr + vo + alen content <= alen b /\
     take (Z.to_nat (alen content)) (drop (Z.to_nat (attr + vo)) b) = content) \/
  (exists rs, aget 0 b (attr + 8) <> 0 /\ attr + 34 <= alen b /\ runs_at b (attr + word b (attr + 32)) rs /\ runs_on_disk fs sectors 0 rs /\
     (length rs <= length b)%nat /\ alen (runs_data fs (cluster_bytes img fs) 0 rs) * cluster_size fs < 2 ^ 64 /\
     content = concat (runs_data fs (cluster_bytes img fs) 0 rs)).

Lemma data_on_disk_at img fs sectors b attr content : drive_holds (p_drive (nt_part fs)) img sectors -> geometry_ok fs sectors ->
  0 <= attr -> data_on_disk img fs sectors b attr content -> data_at fs b attr (cluster_bytes img fs) content.
Proof.
  intros HD HG Ha [(vo & E8 & El & Ev & Hvo & Hb & Hc & Ec)|(rs & E8 & Hb & HA & HO & Hn & Hfit & ->)].
  - left. exists vo. rewrite byte_at_aget, le32_dword, le16_word, E8, El, Ev by lia. split_and!; try done; lia.
  - right. exists (aget 0 b (attr + 8)), (word b (attr + 32)), rs. rewrite byte_at_aget, le16_word by lia.
    split_and!; try done; try (by eapply runs_readable); lia.
Qed.

(** C30.  Reading a file of a volume on a disk image.  Its MFT record is stored with
    the last word of each sector in the update sequence array, and the $DATA
    attribute is found along the chain of attributes; its contents are in the
    record or in data runs, encoded at variable width with signed deltas and
    sparse runs.  There are two outcomes.  The result is the requested slice of
    the file, clusters of the image and zeros in the sparse runs, cut at the
    file's size, and both buffers are given back; or nothing is read because one
    of the two allocations of this call fails, the one of the record buffer or
    the one of the cluster buffer that follows it. *)
Theorem ntfs_read_correct img sectors s (node offset size : Z) (n : ntfs_vnode) (d : ntfs_node) fs attr content L :
  drive_holds (p_drive (nt_part fs)) img sectors -> geometry_ok fs sectors ->
  nt_nodes s !! node = Some n -> Z.land (n_flags n) FS_FILE = FS_FILE -> n_impl n <> 0 -> node_data s n = Some (d, fs) ->
  let raw := raw_record img fs (mft_record_number d) in
  record_ok img fs sectors (mft_record_number d) -> attr_found (fixed_up raw) 0x80 (word (fixed_up raw) 20) attr ->
  data_on_disk img fs sectors (fixed_up raw) attr content ->
  0 <= offset -> 0 <= size -> offset + size < 2 ^ 64 -> 0 <= nn_file_size d < 2 ^ 64 ->
  kh_live (nt_heap s) L -> kh_room (nt_heap s) (kh_cost (mft_record_size fs) + kh_cost (cluster_size fs)) ->
  let bytes := take (Z.to_nat size) (drop (Z.to_nat offset) (take (Z.to_nat (nn_file_size d)) content)) in
  (exists h, ntfs_read s node offset size = Some (set_nt_heap s h, alen bytes, bytes) /\ kh_live h L) \/
  (exists h, ntfs_read s node offset size = Some (set_nt_heap s h, 0, []) /\ kh_live h L /\
     ((exists h1, kh_alloc (nt_heap s) (mft_record_size fs) = Some (h1, 0)) \/
      (exists h1 p h2, kh_alloc (nt_heap s) (mft_record_size fs) = Some (h1, p) /\ p <> 0 /\
         kh_alloc h1 (cluster_size fs) = Some (h2, 0)))).
Proof.
  intros HDr HG En Ef Ei Ed raw HRec HAt HDat Ho Hs Hw Hlen HL Hr. pose proof HG as (Hbps & (kc & Hkc & Ekc) & (kr & Hkr & Ekr) & _).
  assert (Hlen' : alen (fixed_up raw) = mft_record_size fs).
  { unfold fixed_up. rewrite fixed_to_length. apply image_bytes_length. lia. }
  assert (Hrange : 0 <= word (fixed_up raw) 20 /\ word (fixed_up raw) 20 + 16 <= alen (fixed_up raw) /\ 0 <= attr).
  { split; [by inversion HAt|]. split; [by inversion HAt|]. clear -HAt. by induction HAt. }
  apply (ntfs_read_spec s node offset size n d fs (fixed_up raw) attr (cluster_bytes img fs) content L En Ef Ei Ed); try done; try lia.
  - by eapply read_record.
  - unfold ntfs_find_attr. rewrite le16_word by lia. cbn [mbind option_bind]. rewrite <- Hlen' at 1.
    apply find_attr_spec; [exact HAt|done|lia|lia].
  - unfold volume_ok. lia.
  - apply (data_on_disk_at img fs sectors); [done|done|lia|done].
Qed.

End files.

(** ** A file of three runs, the last one sparse *)

Definition bytes_of (n : nat) (x : Z) : list Z := (fun i => Z.shiftr x (8 * i) mod 256) <$> seqZ 0 (Z.of_nat n).

Definition fill_to (n : nat) (l : list Z) : list Z := l ++ replicate (n - length l) 0.

(** Two clusters from 10 on, one 5 clusters before those, a sparse one. *)
Definition demo_runs : list Z := [0x11; 2; 10; 0x11; 1; 0xFB; 0x01; 1; 0].

(** On the disk the last word of each sector is replaced by the sequence number. *)
Definition demo_record (w : Z) : list Z :=
  fill_to 510 (fill_to 48 ([70; 73; 76; 69] ++ bytes_of 2 48 ++ bytes_of 2 3 ++ fill_to 12 [] ++ bytes_of 2 56) ++
    fill_to 8 (bytes_of 2 7) ++
    fill_to 64 (bytes_of 4 0x80 ++ bytes_of 4 80 ++ fill_to 24 [1] ++ bytes_of 2 64) ++ demo_runs) ++
  bytes_of 2 w ++ replicate 510 0 ++ bytes_of 2 w.

(** The record is in the sectors 140 and 141, the volume starts at sector 200;
    cluster [l] is filled with [l]. *)
Definition demo_img (a : Z) : Z :=
  if (71680 <=? a) && (a <? 72704) then aget 0 (demo_record 7) (a - 71680)
  else if (102400 <=? a) && (a <? 118784) then (a - 102400) / 1024 else 0.

#[local] Instance ntfs_drivers : DiskDrivers := {|
  drives := {[ 8 := AtaDrive DISK_TYPE_ATA true [104; 100; 97] ]};
  ata_read_sectors _ lba count :=
    if lba + count <=? 240 then Some (image_bytes demo_img (512 * lba) (512 * count)) else None;
  ahci_read_sectors _ _ _ := None |}.

Lemma ntfs_demo_holds : drive_holds 8 demo_img 240.
Proof.
  split.
  - intros a. unfold demo_img. destruct (Z.leb_spec 71680 a), (Z.ltb_spec a 72704); cbn [andb].
    1: { apply (Forall_aget (fun x => 0 <= x < 256)); [apply (bool_decide_unpack _); vm_compute; exact I|lia]. }
    all: destruct (Z.leb_spec 102400 a), (Z.ltb_spec a 118784); cbn [andb]; try lia.
    all: split; [apply Z.div_pos; lia|apply Z.div_lt_upper_bound; lia].
  - intros lba count Hl Hc Hs. unfold disk_read_sectors. cbn [drives ntfs_drivers]. rewrite lookup_singleton_eq.
    cbn [mbind option_bind drive_type]. rewrite !wrap_small by (unfold fits; lia). cbn [ata_read_sectors ntfs_drivers].
    by rewrite (proj2 (Z.leb_le _ _) Hs).
Qed.

Definition demo_volume : ntfs_fs := NtfsFs (DiskPartition 8 0 7 200 5000) 100 1024 1024 512.

Definition demo_file : ntfs_vnode := VfsNode [97] 0 0 0 FS_FILE 0 3500 48 (Some ntfs_ops) 0 0.

Definition demo_ntfs : ntfs Z := Ntfs {[ 16 := demo_file ]} {[ 32 := demo_volume ]} {[ 48 := NtfsNode 32 20 3500 ]} 4096.

Lemma ntfs_demo_geometry : geometry_ok demo_volume 240.
Proof. split; [done|]. split; [by exists 2|]. split; [by exists 2|]. cbn. lia. Qed.

Lemma demo_fixed : fixed_up (raw_record demo_img demo_volume 20) = demo_record 0.
Proof. vm_compute. reflexivity. Qed.

Lemma demo_record_ok : record_ok demo_img demo_volume 240 20.
Proof.
  split; [lia|]. split; [cbn; lia|]. split; [vm_compute; reflexivity|]. split; [vm_compute; discriminate|].
  intros i Hi _. assert (E : word (raw_record demo_img demo_volume 20) 6 = 3) by (vm_compute; reflexivity). rewrite E in Hi.
  assert (i = 1 \/ i = 2) as [->| ->] by lia; vm_compute; reflexivity.
Qed.

Definition demo_content : list Z := concat (map (fun l => replicate 1024 l) [10; 11; 5; 0]).

Lemma demo_data : data_on_disk demo_img demo_volume 240 (demo_record 0) 56 demo_content.
Proof.
  right. exists [DataRun 2 10 false; DataRun 1 (-5) false; DataRun 1 0 true].
  split; [vm_compute; discriminate|]. split; [vm_compute; discriminate|]. split.
  { exists 123. split; [exists 1, 1; split_and!; try lia; vm_compute; first [reflexivity|split; congruence]|].
    exists 126. split; [exists 1, 1; split_and!; try lia; vm_compute; first [reflexivity|split; congruence]|].
    exists 128. split; [exists 1, 0; split_and!; try lia; vm_compute; first [reflexivity|split; congruence]|]. vm_compute. reflexivity. }
  split; [cbn; intuition (discriminate || lia)|]. split; [vm_compute; lia|]. split; vm_compute; reflexivity.
Qed.

Lemma ntfs_read_correct_witness :
  exists h, ntfs_read demo_ntfs 16 2040 20 = Some (set_nt_heap demo_ntfs h, 20, replicate 8 11 ++ replicate 12 5).
Proof.
  destruct (ntfs_read_correct demo_img 240 demo_ntfs 16 2040 20 demo_file (NtfsNode 32 20 3500) demo_volume 56 demo_content ∅)
    as [(h & E & _)|(h & E & _)]; [exact ntfs_demo_holds|exact ntfs_demo_geometry|vm_compute; reflexivity|vm_compute; reflexivity|discriminate
    |vm_compute; reflexivity|exact demo_record_ok| | |lia|lia|lia|cbn; lia|split; [vm_compute; reflexivity|done]|exact I| |].
  - cbn [mft_record_number]. rewrite demo_fixed.
    replace (word (demo_record 0) 20) with 56 by (vm_compute; reflexivity).
    apply attr_here; [lia|vm_compute; discriminate|vm_compute; reflexivity|vm_compute; discriminate].
  - cbn [mft_record_number]. rewrite demo_fixed. exact demo_data.
  - exists h. rewrite E. vm_compute. reflexivity.
  - exfalso. assert (E' : (fun x => x.1.2) <$> ntfs_read demo_ntfs 16 2040 20 = Some 20) by (vm_compute; reflexivity).
    rewrite E in E'. discriminate E'.
Defined.

(** ** What goes wrong *)

(** Two attributes whose lengths lead back and forth, modulo 2^32, are walked for
    ever: the test for a zero length does not prevent it. *)
Lemma attribute_cycle_hangs b type record_size off1 off2 n :
  (forall off len other, (off, len, other) ∈ [(off1, u32 (off2 - off1), off2); (off2, u32 (off1 - off2), off1)] ->
     off + sizeof_ntfs_attr_header <= record_size /\ 0 <= other < 2 ^ 32 /\ len <> 0 /\
     exists ty, le32 b off = Some ty /\ ty <> 0xFFFFFFFF /\ ty <> type /\ le32 b (off + 4) = Some len) ->
  find_attr_loop b type record_size off1 n = None.
Proof.
  intros HA. assert (Step : forall o p n, (o = off1 /\ p = off2 \/ o = off2 /\ p = off1) ->
    find_attr_loop b type record_size p n = None -> find_attr_loop b type record_size o (S n) = None).
  { intros o p m Hop IH. destruct (HA o (u32 (p - o)) p) as (Hr & Ho & Hl & ty & E1 & H1 & H2 & E2).
    { destruct Hop as [[-> ->]|[-> ->]]; [by left|right; by left]. }
    cbn [find_attr_loop]. rewrite (proj2 (Z.leb_le _ _) Hr), E1. cbn [mbind option_bind]. rewrite (proj2 (Z.eqb_neq _ _) H1), E2.
    cbn [mbind option_bind]. rewrite (proj2 (Z.eqb_neq _ _) Hl), (proj2 (Z.eqb_neq _ _) H2). unfold wrap. rewrite Zplus_mod_idemp_r.
    replace (o + (p - o)) with p by lia. by rewrite Z.mod_small by lia. }
  assert (P : find_attr_loop b type record_size off1 n = None /\ find_attr_loop b type record_size off2 n = None); [|tauto].
  induction n as [|n [IH1 IH2]]; [done|]. split; [apply (Step off1 off2); tauto|apply (Step off2 off1); tauto].
Qed.

(** The fields of a boot sector are read where ntfs.h has them: a volume whose MFT
    starts at the cluster in bytes 48 to 55, five bytes further on, is mounted at
    another place, with a record size that is taken from byte 59. *)
Lemma mft_cluster_offset :
  let boot := fill_to 512 (fill_to 3 [] ++ bytes_of 8 NTFS_OEM_ID ++ bytes_of 2 512 ++ [2] ++ fill_to 34 [] ++ bytes_of 8 0x0600 ++ fill_to 8 [] ++ [0xF6]) in
  le64 boot 48 = Some 0x0600 /\ le64 boot 43 = Some 0x06000000000000 /\ byte_at boot 59 = Some 0.
Proof. vm_compute. split_and!; reflexivity. Qed.
