(* ===== verification/Devfs.v ===== *)
(** The device file system, kernel/src/fs/devfs.c, as an instance of the
    [FileSystem] of Vfs.v.

    The devices sit on the console (Klog), the event queue (Input) and the sector
    reader (Partition).  A read of the terminal that finds no event calls
    [schedule]; what the interrupt handlers push until the reader runs again is
    the next entry of [dv_arrivals], and a reader that waits when there is none
    left never returns: [None].  The registry and the mount work on any state that
    has this one as a part: the class [DevfsHost].

    The theorem: a read of the terminal is
    a line editor on the keys that arrive, whenever they arrive. *)
From stdpp Require Import prelude gmap list.
From Stdlib Require Import ZArith Lia.
From S2P Require Import Prelude Spinlock KString Klog KHeap Vfs Ramfs Partition Input.

Open Scope Z_scope.

Definition DEVFS_MAX_NODES : Z := 32.

Record devfs_entry := DevfsEntry { de_name : list Z; de_vnode : Z }.

(** A device of a part of a drive. *)
Record devfs_block_impl := BlockImpl { bi_drive : Z; bi_lba_start : Z; bi_size_sectors : Z }.

Definition sizeof_devfs_block_impl : Z := 24.

(** The five tables of operations. *)
Inductive devfs_table := null_ops | zero_ops | tty0_ops | block_ops | devfs_dir_ops.

Global Instance devfs_table_eq_dec : EqDecision devfs_table.
Proof. solve_decision. Defined.

Notation devfs_node := (vfs_node devfs_table).

Section devfs.
Context `{DD : DiskDrivers} {D : Type} (display_manager_write : D -> list Z -> D).

Record devfs := Devfs {
  dv_nodes : gmap Z devfs_node;
  dv_impl : gmap Z devfs_block_impl;
  g_devfs_nodes : list devfs_entry;
  g_devfs_ready : bool;
  g_devfs_root : Z;
  dv_rflags : Z;
  dv_queue : input_queue;
  dv_console : klog * D;
  dv_arrivals : list (list input_event) }.

Definition set_dv_nodes (s : devfs) (m : gmap Z devfs_node) : devfs :=
  Devfs m (dv_impl s) (g_devfs_nodes s) (g_devfs_ready s) (g_devfs_root s) (dv_rflags s) (dv_queue s) (dv_console s) (dv_arrivals s).

Definition set_dv_impl (s : devfs) (m : gmap Z devfs_block_impl) : devfs :=
  Devfs (dv_nodes s) m (g_devfs_nodes s) (g_devfs_ready s) (g_devfs_root s) (dv_rflags s) (dv_queue s) (dv_console s) (dv_arrivals s).

Definition set_registry (s : devfs) (l : list devfs_entry) : devfs :=
  Devfs (dv_nodes s) (dv_impl s) l (g_devfs_ready s) (g_devfs_root s) (dv_rflags s) (dv_queue s) (dv_console s) (dv_arrivals s).

Definition set_root (s : devfs) (ready : bool) (root : Z) : devfs :=
  Devfs (dv_nodes s) (dv_impl s) (g_devfs_nodes s) ready root (dv_rflags s) (dv_queue s) (dv_console s) (dv_arrivals s).

Definition set_input (s : devfs) (f : Z) (q : input_queue) (a : list (list input_event)) : devfs :=
  Devfs (dv_nodes s) (dv_impl s) (g_devfs_nodes s) (g_devfs_ready s) (g_devfs_root s) f q (dv_console s) a.

Definition set_console (s : devfs) (c : klog * D) : devfs :=
  Devfs (dv_nodes s) (dv_impl s) (g_devfs_nodes s) (g_devfs_ready s) (g_devfs_root s) (dv_rflags s) (dv_queue s) c (dv_arrivals s).

(** ** /dev/null and /dev/zero *)

Definition null_read (s : devfs) (n off sz : Z) : option (devfs * Z * list Z) := Some (s, 0, []).

Definition null_write (s : devfs) (n off sz : Z) (buf : list Z) : option (devfs * Z) := Some (s, sz).

Definition zero_read (s : devfs) (n off sz : Z) : option (devfs * Z * list Z) := Some (s, sz, replicate (Z.to_nat sz) 0).

Definition zero_write (s : devfs) (n off sz : Z) (buf : list Z) : option (devfs * Z) := Some (s, sz).

(** ** /dev/tty0 *)

Definition tty0_write (s : devfs) (n off sz : Z) (buf : list Z) : option (devfs * Z) :=
  if alen buf <? sz then None
  else Some (set_console s (foldl (fun c b => kputchar display_manager_write c (s8 b)) (dv_console s) (take (Z.to_nat sz) buf)), sz).

(** [kprintf] of a fixed text. *)
Definition echo (s : devfs) (bs : list Z) : devfs := set_console s (kputs display_manager_write (dv_console s) bs).

(** "\b \b". *)
Definition erase_seq : list Z := [8; 32; 8].

(** [buf[filled] = c]: the bytes written to the caller's buffer so far. *)
Definition put (buf : list Z) (filled c : Z) : list Z := if filled =? alen buf then buf ++ [c] else aset buf filled c.

(** Handling one event: the buffer, [filled], and whether the line is complete. *)
Definition tty0_event (s : devfs) (buf : list Z) (filled : Z) (ev : input_event) : devfs * list Z * Z * bool :=
  if (ev_type ev =? INPUT_EVENT_KEY_PRESS) && negb (ascii ev =? 0) then
    if (ascii ev =? 8) || (ascii ev =? KEY_DELETE) then
      if 0 <? filled then (echo s erase_seq, buf, filled - 1, false) else (s, buf, filled, false)
    else if ascii ev =? 10 then (echo s [10], put buf filled 10, filled + 1, true)
    else if (32 <=? ascii ev) && (ascii ev <=? 126) then (echo s [ascii ev], put buf filled (u8 (ascii ev)), filled + 1, false)
    else (s, buf, filled, false)
  else (s, buf, filled, false).

(** [schedule], as the reader sees it. *)
Definition tty0_wait (s : devfs) : option devfs :=
  match dv_arrivals s with
  | [] => None
  | evs :: a => Some (set_input s (dv_rflags s) (foldl input_push_event (dv_queue s) evs) a)
  end.

Fixpoint tty0_loop (s : devfs) (sz : Z) (buf : list Z) (filled : Z) (fuel : nat) : option (devfs * Z * list Z) :=
  match fuel with
  | O => None
  | S fuel =>
      if negb (filled <? sz) then Some (s, filled, buf)
      else
        '(f, q, ev) ← input_poll_event (dv_rflags s) (dv_queue s);
        let s1 := set_input s f q (dv_arrivals s) in
        match ev with
        | None => s2 ← tty0_wait s1; tty0_loop s2 sz buf filled fuel
        | Some ev =>
            let '(s2, buf', filled', line) := tty0_event s1 buf filled ev in
            if line : bool then Some (s2, filled', buf') else tty0_loop s2 sz buf' filled' fuel
        end
  end.

(** Every round takes an event from the queue, or a batch of arrivals. *)
Definition tty0_fuel (s : devfs) : nat :=
  S (256 + sum_list_with (fun evs => S (length evs)) (dv_arrivals s)).

Definition tty0_read (s : devfs) (n off sz : Z) : option (devfs * Z * list Z) :=
  tty0_loop s sz [] 0 (tty0_fuel s).

(** ** Block devices *)

Definition block_read (s : devfs) (node off sz : Z) : option (devfs * Z * list Z) :=
  n ← dv_nodes s !! node;
  if n_impl n =? 0 then Some (s, 0, [])
  else
    impl ← dv_impl s !! n_impl n;
    if bi_drive impl =? 0 then Some (s, 0, [])
    else
      d ← drives !! bi_drive impl;
      if negb (drive_present d) then Some (s, 0, [])
      else if sz =? 0 then Some (s, 0, [])
      else
        let lba := u64 (bi_lba_start impl + off / 512) in
        let count := u8 (u64 (sz + 511) / 512) in
        if bi_size_sectors impl <? u64 (u64 (lba - bi_lba_start impl) + count) then Some (s, 0, [])
        else
          r ← disk_read_sectors (bi_drive impl) lba count;
          Some (match r with Some bytes => (s, sz, bytes) | None => (s, 0, []) end).

Definition block_write (s : devfs) (n off sz : Z) (buf : list Z) : option (devfs * Z) := Some (s, 0).

(** ** The directory *)

Definition devfs_readdir (s : devfs) (node index : Z) : option (devfs * option dirent) :=
  if alen (g_devfs_nodes s) <=? s32 index then Some (s, None)
  else
    e ← g_devfs_nodes s !! Z.to_nat index;
    if de_vnode e =? 0 then Some (s, None)
    else c ← dv_nodes s !! de_vnode e; Some (s, Some (Dirent (n_name c) (n_inode c) (n_flags c))).

Fixpoint find_entry (l : list devfs_entry) (name : list Z) : Z :=
  match l with
  | [] => 0
  | e :: l => if decide (de_name e = name) then de_vnode e else find_entry l name
  end.

Definition devfs_finddir (s : devfs) (node : Z) (name : list Z) : option (devfs * Z) :=
  Some (s, find_entry (g_devfs_nodes s) name).

#[export] Instance devfs_fs : FileSystem devfs devfs_table := {|
  fs_nodes := dv_nodes;
  fs_set_nodes := set_dv_nodes;
  op_read o := match o with
    null_ops => Some null_read | zero_ops => Some zero_read | tty0_ops => Some tty0_read | block_ops => Some block_read
    | devfs_dir_ops => None end;
  op_write o := match o with
    null_ops => Some null_write | zero_ops => Some zero_write | tty0_ops => Some tty0_write | block_ops => Some block_write
    | devfs_dir_ops => None end;
  op_open _ := None;
  op_close _ := None;
  op_readdir o := match o with devfs_dir_ops => Some devfs_readdir | _ => None end;
  op_finddir o := match o with devfs_dir_ops => Some devfs_finddir | _ => None end;
  op_mkdir _ := None;
  op_create _ := None |}.

(** ** Registration *)

(** The first 31 bytes of the name; a full registry drops the node. *)
Definition devfs_append (s : devfs) (name : list Z) (vnode : Z) : devfs :=
  if DEVFS_MAX_NODES <=? alen (g_devfs_nodes s) then s
  else set_registry s (g_devfs_nodes s ++ [DevfsEntry (take 31 name) vnode]).

(** The system that has devfs as a part, its heap and its mounts. *)
Class DevfsHost (St : Type) := {
  dh_devfs : St -> devfs;
  dh_set : St -> devfs -> St;
  dh_mount : St -> list Z -> Z -> option (St * Z) }.

Context {St : Type} `{KH : KernelHeap St} `{DH : DevfsHost St}.

Definition with_devfs (s : St) (f : devfs -> devfs) : St := dh_set s (f (dh_devfs s)).

Definition devfs_make_node (s : St) (name : list Z) (flags : Z) (ops : devfs_table) (impl : Z) : option (St * Z) :=
  '(s1, n) ← kh_alloc s sizeof_vfs_node;
  if n =? 0 then Some (s1, 0)
  else
    let node := VfsNode (take 127 name) (Z.lor FS_PERM_R FS_PERM_W) 0 0 flags 0 0 impl (Some ops) 0 0 in
    Some (with_devfs s1 (fun d => set_dv_nodes d (<[n := node]> (dv_nodes d))), n).

(** [devfs_make_node] and [devfs_append] of a standard device. *)
Definition add_device (s : St) (name : list Z) (flags : Z) (ops : devfs_table) : option St :=
  '(s1, n) ← devfs_make_node s name flags ops 0;
  Some (if n =? 0 then s1 else with_devfs s1 (fun d => devfs_append d name n)).

(** "dev", "null", "zero", "tty0" and "/dev". *)
Definition str_dev : list Z := [100; 101; 118].
Definition str_null : list Z := [110; 117; 108; 108].
Definition str_zero : list Z := [122; 101; 114; 111].
Definition str_tty0 : list Z := [116; 116; 121; 48].

Definition devfs_init (s : St) : option St :=
  '(s1, root) ← kh_alloc s sizeof_vfs_node;
  let s1 := with_devfs s1 (fun d => set_root d (g_devfs_ready d) root) in
  if root =? 0 then Some s1
  else
    let node := VfsNode str_dev (Z.lor (Z.lor FS_PERM_R FS_PERM_W) FS_PERM_X) 0 0 FS_DIRECTORY 0 0 0 (Some devfs_dir_ops) 0 0 in
    let s2 := with_devfs s1 (fun d => set_dv_nodes d (<[root := node]> (dv_nodes d))) in
    s3 ← add_device s2 str_null FS_FILE null_ops;
    s4 ← add_device s3 str_zero FS_FILE zero_ops;
    s5 ← add_device s4 str_tty0 FS_CHARDEVICE tty0_ops;
    '(s6, r) ← dh_mount s5 (SLASH :: str_dev) root;
    if negb (r =? 0) then Some s6
    else Some (with_devfs s6 (fun d => set_root d true (g_devfs_root d))).

Definition set_node_length (n : devfs_node) (l : Z) : devfs_node :=
  VfsNode (n_name n) (n_mask n) (n_uid n) (n_gid n) (n_flags n) (n_inode n) l (n_impl n) (n_ops n) (n_ptr n) (n_device n).

Definition devfs_register_block (s : St) (name : list Z) (drive lba_start size_sectors : Z) : option St :=
  if negb (g_devfs_ready (dh_devfs s)) then Some s
  else if DEVFS_MAX_NODES <=? alen (g_devfs_nodes (dh_devfs s)) then Some s
  else
    '(s1, impl) ← kh_alloc s sizeof_devfs_block_impl;
    if impl =? 0 then Some s1
    else
      let s2 := with_devfs s1 (fun d => set_dv_impl d (<[impl := BlockImpl drive lba_start size_sectors]> (dv_impl d))) in
      '(s3, bnode) ← devfs_make_node s2 name FS_BLOCKDEVICE block_ops impl;
      if bnode =? 0 then
        s4 ← kh_free s3 impl; Some (with_devfs s4 (fun d => set_dv_impl d (delete impl (dv_impl d))))
      else
        Some (with_devfs s3 (fun d =>
          devfs_append (set_dv_nodes d (alter (fun n => set_node_length n (u64 (size_sectors * 512))) bnode (dv_nodes d))) name bnode)).

End devfs.

Arguments devfs : clear implicits.

(** ** Theorems *)

(** ** Batches of events *)

Lemma last_n_app_last {A} n (l1 l2 : list A) : last_n n (last_n n l1 ++ l2) = last_n n (l1 ++ l2).
Proof.
  unfold last_n. rewrite !length_app, length_drop.
  destruct (decide (length l1 <= n)%nat) as [Hl|Hl].
  - replace (length l1 - n)%nat with 0%nat by lia. rewrite drop_0. f_equal. lia.
  - rewrite !drop_app, drop_drop, length_drop. f_equal; f_equal; lia.
Qed.

Lemma contents_short q : queue_inv q -> (length (contents q) <= 255)%nat.
Proof. intros I. rewrite contents_length. unfold count. pose proof (Z.mod_pos_bound (queue_head q - queue_tail q) 256). lia. Qed.

(** What an interrupted reader finds: the last 255 of the events. *)
Lemma push_batch evs : forall q, queue_inv q ->
  queue_inv (foldl input_push_event q evs) /\ contents (foldl input_push_event q evs) = last_n capacity (contents q ++ evs).
Proof.
  induction evs as [|e evs IH]; intros q I.
  - split; [done|]. cbn [foldl]. rewrite app_nil_r. unfold last_n, capacity. pose proof (contents_short q I).
    replace (length (contents q) - 255)%nat with 0%nat by lia. by rewrite drop_0.
  - cbn [foldl]. destruct (IH _ (queue_inv_push q e I)) as [I' E]. split; [done|]. rewrite E, push_contents by done.
    by rewrite last_n_app_last, <- app_assoc.
Qed.

(** ** The line editor *)

Inductive keystroke := Erase | Enter | Typed (c : Z) | Ignored.

Global Instance keystroke_eq_dec : EqDecision keystroke.
Proof. solve_decision. Defined.

Definition keystroke_of (ev : input_event) : keystroke :=
  if (ev_type ev =? INPUT_EVENT_KEY_PRESS) && negb (ascii ev =? 0) then
    if (ascii ev =? 8) || (ascii ev =? KEY_DELETE) then Erase
    else if ascii ev =? 10 then Enter
    else if (32 <=? ascii ev) && (ascii ev <=? 126) then Typed (ascii ev)
    else Ignored
  else Ignored.

(** A line of at most [sz] characters, the events left over and the echoes;
    nothing when the events end first. *)
Fixpoint edit (sz : Z) (line : list Z) (evs : list input_event) : option (list Z * list input_event * list (list Z)) :=
  if sz <=? alen line then Some (line, evs, [])
  else
    match evs with
    | [] => None
    | ev :: evs =>
        match keystroke_of ev with
        | Enter => Some (line ++ [10], evs, [[10]])
        | Typed c => '(l, r, es) ← edit sz (line ++ [c]) evs; Some (l, r, [c] :: es)
        | Erase =>
            match line with
            | [] => edit sz [] evs
            | _ => '(l, r, es) ← edit sz (removelast line) evs; Some (l, r, erase_seq :: es)
            end
        | Ignored => edit sz line evs
        end
    end.

Section tty.
Context `{DD : DiskDrivers} {D : Type} (display_manager_write : D -> list Z -> D).
Notation devfs := (devfs D).
Implicit Types (s : devfs).

(** The events that the reader will see, in order. *)
Definition pending s : list input_event := contents (dv_queue s) ++ concat (last_n capacity <$> dv_arrivals s).

Definition rounds s : nat := (length (contents (dv_queue s)) + sum_list_with (fun evs => S (length evs)) (dv_arrivals s))%nat.

(** The loop has [line] in the first [filled] bytes of the buffer. *)
Record typed (sz : Z) (line buf : list Z) (filled : Z) : Prop := {
  ty_filled : filled = alen line;
  ty_room : alen line <= alen buf <= Z.max 0 sz;
  ty_line : take (length line) buf = line }.

Lemma put_typed sz line buf c : typed sz line buf (alen line) -> alen line < sz ->
  typed sz (line ++ [c]) (put buf (alen line) c) (alen line + 1).
Proof.
  intros [_ Hr Hl] Hs. unfold put. split; unfold alen in *.
  - rewrite length_app. simpl. lia.
  - case_bool; rewrite ?length_app; unfold aset; rewrite ?length_insert; simpl; lia.
  - rewrite length_app. simpl. case_bool.
    + rewrite take_ge by (rewrite length_app; simpl; lia). f_equal. rewrite <- Hl. symmetry. apply take_ge. lia.
    + unfold aset. replace (Z.to_nat (Z.of_nat (length line))) with (length line) by lia.
      rewrite Nat.add_1_r. erewrite take_S_r by (apply list_lookup_insert_eq; lia).
      rewrite take_insert_ge by lia. by rewrite Hl.
Qed.

Lemma erase_typed sz line buf : line <> [] -> typed sz line buf (alen line) -> typed sz (removelast line) buf (alen line - 1).
Proof.
  intros Hn [_ Hr Hl]. destruct (exists_last Hn) as (l & c & ->). rewrite removelast_last.
  unfold alen in *. rewrite length_app in *. simpl in *. split; unfold alen in *; [lia|lia|].
  apply (f_equal (take (length l))) in Hl. rewrite take_take, take_app_length in Hl. rewrite <- Hl at 2. f_equal. lia.
Qed.

(** One event of the loop is one step of the editor. *)
Lemma event_step s sz line buf ev evs : typed sz line buf (alen line) -> alen line < sz ->
  exists s2 buf' filled' es line',
    tty0_event display_manager_write s buf (alen line) ev = (s2, buf', filled', bool_decide (keystroke_of ev = Enter)) /\
    typed sz line' buf' filled' /\ dv_queue s2 = dv_queue s /\ dv_rflags s2 = dv_rflags s /\ dv_arrivals s2 = dv_arrivals s /\
    dv_console s2 = foldl (kputs display_manager_write) (dv_console s) es /\
    edit sz line (ev :: evs) =
      if bool_decide (keystroke_of ev = Enter) then Some (line', evs, es)
      else '(l, r, es') ← edit sz line' evs; Some (l, r, es ++ es').
Proof.
  intros T Hs. cbn [edit]. destruct (Z.leb_spec sz (alen line)) as [|_]; [lia|].
  assert (Hid : forall x : option (list Z * list input_event * list (list Z)), ('(l, r, es') ← x; Some (l, r, [] ++ es')) = x).
  { intros [[[l r] es]|]; done. }
  unfold keystroke_of, tty0_event.
  destruct ((ev_type ev =? INPUT_EVENT_KEY_PRESS) && negb (ascii ev =? 0)).
  2: { eexists _, buf, _, [], line. cbn. rewrite Hid. by split_and!. }
  destruct ((ascii ev =? 8) || (ascii ev =? KEY_DELETE)).
  { case_bool.
    - eexists _, buf, _, [erase_seq], (removelast line). cbn. destruct line as [|c line']; [done|].
      split_and!; try done. by apply erase_typed.
    - assert (line = []) as -> by (destruct line; [done|]; unfold alen in *; simpl in *; lia).
      eexists _, buf, _, [], []. cbn. rewrite Hid. by split_and!. }
  case_bool.
  { eexists _, _, _, [[10]], (line ++ [10]). cbn. split_and!; try done. by apply put_typed. }
  destruct (andb_true_iff (32 <=? ascii ev) (ascii ev <=? 126)) as [Hand _].
  destruct ((32 <=? ascii ev) && (ascii ev <=? 126)).
  - destruct Hand as [Ha Hb]; [done|]. apply Z.leb_le in Ha, Hb. rewrite (wrap_small 8) by (unfold fits; lia).
    eexists _, _, _, [[ascii ev]], (line ++ [ascii ev]). cbn. split_and!; try done. by apply put_typed.
  - eexists _, buf, _, [], line. cbn. rewrite Hid. by split_and!.
Qed.

(** The loop is the editor on the pending events, whatever the batches are. *)
Lemma loop_edit fuel : forall s sz line buf, queue_inv (dv_queue s) -> typed sz line buf (alen line) -> (rounds s < fuel)%nat ->
  match edit sz line (pending s) with
  | Some (l, rest, es) => exists s' buf', tty0_loop display_manager_write s sz buf (alen line) fuel = Some (s', alen l, buf') /\
      typed sz l buf' (alen l) /\ queue_inv (dv_queue s') /\ pending s' = rest /\
      dv_console s' = foldl (kputs display_manager_write) (dv_console s) es
  | None => tty0_loop display_manager_write s sz buf (alen line) fuel = None
  end.
Proof.
  induction fuel as [|fuel IH]; intros s sz line buf I T Hf; [lia|]. cbn [tty0_loop].
  destruct (Z.ltb_spec (alen line) sz) as [Hs|Hs]; cbn [negb].
  2: { assert (edit sz line (pending s) = Some (line, pending s, [])) as ->.
       { destruct (pending s); cbn [edit]; by rewrite (proj2 (Z.leb_le _ _) Hs). }
       exists s, buf. by split_and!. }
  destruct (poll_contents (dv_rflags s) (dv_queue s) I) as (q & f & -> & I1 & _ & Eq). cbn [mbind option_bind].
  unfold pending, rounds in *. destruct (contents (dv_queue s)) as [|ev evs] eqn:Ec; cbn [head tail] in *.
  - (* wait for the next batch *)
    destruct (dv_arrivals s) as [|b a] eqn:Ea; unfold tty0_wait; cbn [dv_arrivals set_input] in *.
    { cbn [fmap list_fmap concat app edit]. by rewrite (proj2 (Z.leb_gt _ _) Hs). }
    destruct (push_batch b q I1) as [I2 E2]. rewrite Eq in E2. cbn [app] in E2. cbn [mbind option_bind].
    set (s2 := set_input _ _ _ _). specialize (IH s2 sz line buf I2 T). cbn in IH. rewrite E2 in IH. apply IH.
    unfold last_n. rewrite length_drop. cbn in Hf. lia.
  - set (s1 := set_input s f q (dv_arrivals s)). cbn [app] in *.
    destruct (event_step s1 sz line buf ev (evs ++ concat (last_n capacity <$> dv_arrivals s)) T Hs)
      as (s2 & buf' & filled' & es & line' & -> & T2 & Qq & Qf & Qa & Qc & ->).
    destruct (bool_decide (keystroke_of ev = Enter)).
    + exists s2, buf'. pose proof (ty_filled _ _ _ _ T2) as Efl. subst filled'. rewrite Qq, Qa. cbn. by rewrite Eq.
    + pose proof (ty_filled _ _ _ _ T2) as Efl. subst filled'. specialize (IH s2 sz line' buf').
      rewrite Qq, Qa, Qc in IH. cbn in IH. rewrite Eq in IH. specialize (IH I1 T2). cbn [length] in Hf.
      destruct (edit sz line' _) as [[[l r] es']|]; cbn [mbind option_bind]; [|apply IH; lia].
      destruct IH as (s' & buf'' & E & T' & I' & P' & C'); [lia|]. exists s', buf''. by rewrite foldl_app.
Qed.

(** C25.  A read of the terminal is a line editor: whatever is in the queue and
    whatever batches arrive while the reader waits (of each batch the queue keeps
    the last 255 events), it returns the line that the editor makes of the events
    in order, echoes every edit on the console, leaves the later events in the
    queue, and writes no more than the [sz] bytes of the buffer; it waits for ever
    exactly when the events end before the line does. *)
Theorem tty0_read_line s (n off sz : Z) :
  queue_inv (dv_queue s) ->
  match edit sz [] (pending s) with
  | Some (line, rest, es) => exists s' buf, tty0_read display_manager_write s n off sz = Some (s', alen line, buf) /\
      take (length line) buf = line /\ alen buf <= Z.max 0 sz /\ pending s' = rest /\ queue_inv (dv_queue s') /\
      dv_console s' = foldl (kputs display_manager_write) (dv_console s) es
  | None => tty0_read display_manager_write s n off sz = None
  end.
Proof.
  intros I. pose proof (loop_edit (tty0_fuel s) s sz [] [] I) as L.
  assert (T : typed sz [] [] (alen (A := Z) [])) by (split; unfold alen; simpl; (done || lia)).
  specialize (L T). assert (Hf : (rounds s < tty0_fuel s)%nat).
  { pose proof (contents_short _ I). unfold rounds, tty0_fuel. lia. }
  specialize (L Hf). unfold tty0_read. destruct (edit _ _ _) as [[[l r] es]|]; [|done].
  destruct L as (s' & buf & E & [_ Hr Hl] & I' & P & C). exists s', buf. split_and!; (done || lia).
Qed.

End tty.

(** "l", "s", Backspace, "x", Enter, "y" in three batches. *)
Definition key_event (c : Z) : input_event := Event INPUT_EVENT_KEY_PRESS 0 c 0 0 0 0 0.

Definition demo_tty : devfs (list (list Z)) :=
  Devfs ∅ ∅ [] true 0 0 (input_manager_init (Queue [] 0 0 (Spinlock 0 0))) (klog_static, [])
    [[key_event 108; key_event 115]; []; [key_event 8; key_event 120; key_event 10; key_event 121]].

Lemma tty0_read_line_witness :
  exists s' buf, tty0_read (fun d bs => d ++ [bs]) demo_tty 0 0 16 = Some (s', 3, buf) /\ take 3 buf = [108; 120; 10] /\
    pending s' = [key_event 121] /\ (dv_console s').2 = [[108]; [115]; [8; 32; 8]; [120]; [10]].
Proof.
  pose proof (tty0_read_line (fun d bs => d ++ [bs]) demo_tty 0 0 16) as T.
  assert (E : edit 16 [] (pending demo_tty) = Some ([108; 120; 10], [key_event 121], [[108]; [115]; [8; 32; 8]; [120]; [10]]))
    by (vm_compute; reflexivity).
  rewrite E in T. destruct T as (s' & buf & R & Hl & _ & P & _ & C).
  - split; vm_compute; (done || split; done).
  - exists s', buf. split; [exact R|]. split; [exact Hl|]. split; [exact P|]. rewrite C. vm_compute. reflexivity.
Defined.

(** ** Block devices: the size and the offset are taken in whole sectors *)

#[local] Instance ones_drive : DiskDrivers := {|
  drives := {[ 8 := AtaDrive DISK_TYPE_ATA true [104; 100; 97] ]};
  ata_read_sectors _ _ count := Some (replicate (Z.to_nat (count * 512)) 1);
  ahci_read_sectors _ _ _ := None |}.

Definition demo_disk : devfs unit :=
  Devfs {[ 16 := VfsNode [] 0 0 0 FS_BLOCKDEVICE 0 0 24 (Some block_ops) 0 0 ]} {[ 24 := BlockImpl 8 0 1024 ]} [] true 0 0
    (Queue [] 0 0 (Spinlock 0 0)) (klog_static, ()) [].

(** A read of one byte stores a whole sector in the caller's buffer. *)
Lemma block_read_overruns : (fun r => (r.1.2, length r.2)) <$> block_read demo_disk 16 0 1 = Some (1, 512%nat).
Proof. vm_compute. reflexivity. Qed.

(** A read of 129 KiB reports success with the 1 KiB that its sector count leaves
    after truncation to a byte. *)
Lemma block_read_truncates : (fun r => (r.1.2, length r.2)) <$> block_read demo_disk 16 0 (129 * 1024) = Some (129 * 1024, 1024%nat).
Proof. vm_compute. reflexivity. Qed.
