(* ===== verification/Elf.v ===== *)
(** The ELF loader, kernel/src/syscall/elf_loader.c, over the processes of
    Process.v and any file system of the class of Vfs.v.

    The file is read through [vfs_read]; the bytes go into the frames that the
    loader maps, word by word of the frame store.  A program header that is read
    short leaves an indeterminate local variable: [None], as is the overflow of the
    int product that places a program header.

    Loading a page of a segment puts the memory image of
    the segment into the frame, byte for byte. *)
From stdpp Require Import prelude gmap list.
From Stdlib Require Import ZArith Lia.
From S2P Require Import Prelude Bitmap Pmm Frames Vmm Heap HeapUse Task Sched KHeap Vfs Ramfs Partition Process ProcessDemo.

Open Scope Z_scope.

Definition ELF_MAGIC : Z := 0x464C457F.
Definition PT_LOAD : Z := 1.
Definition PF_W : Z := 2.

Definition sizeof_elf64_hdr : Z := 64.
Definition sizeof_elf64_phdr : Z := 56.

(** The fields that are used. *)
Record elf64_hdr := Elf64Hdr {
  e_ident_magic : Z;
  e_ident_class : Z;
  e_machine : Z;
  e_entry : Z;
  e_phoff : Z;
  e_phentsize : Z;
  e_phnum : Z }.

Definition parse_hdr (b : list Z) : option elf64_hdr :=
  magic ← le32 b 0; class ← byte_at b 4; machine ← le16 b 18; entry ← le64 b 24; phoff ← le64 b 32;
  phentsize ← le16 b 54; phnum ← le16 b 56;
  Some (Elf64Hdr magic class machine entry phoff phentsize phnum).

Record elf64_phdr := Elf64Phdr {
  p_type : Z;
  p_flags : Z;
  p_offset : Z;
  p_vaddr : Z;
  p_filesz : Z;
  p_memsz : Z }.

Definition parse_phdr (b : list Z) : option elf64_phdr :=
  ty ← le32 b 0; flags ← le32 b 4; offset ← le64 b 8; vaddr ← le64 b 16; filesz ← le64 b 32; memsz ← le64 b 40;
  Some (Elf64Phdr ty flags offset vaddr filesz memsz).

(** [& ~0xFFF]. *)
Definition page_down (x : Z) : Z := Z.ldiff x 0xFFF.

Definition seg_start (ph : elf64_phdr) : Z := page_down (p_vaddr ph).
Definition seg_end (ph : elf64_phdr) : Z := page_down (u64 (u64 (p_vaddr ph + p_memsz ph) + 0xFFF)).

(** The pages filled from the file: at most those of the segment. *)
Definition seg_file_pages (ph : elf64_phdr) : Z :=
  let num_pages := u64 (seg_end ph - seg_start ph) / 4096 in
  let file_pages := u64 (u64 (p_filesz ph + Z.land (p_vaddr ph) 0xFFF) + 0xFFF) / 4096 in
  if num_pages <? file_pages then num_pages else file_pages.

Definition seg_page_flags (ph : elf64_phdr) : Z :=
  let f := Z.lor PAGE_PRESENT PAGE_USER in
  if has_flag (p_flags ph) PF_W then Z.lor f PAGE_WRITABLE else f.

(** What page [j] of a segment takes from the file: the place in the file, the
    place in the page and the number of bytes. *)
Definition page_extent (ph : elf64_phdr) (j : Z) : Z * Z * Z :=
  let virt := u64 (seg_start ph + j * 4096) in
  let page_offset_in_segment := if p_vaddr ph <? virt then virt - p_vaddr ph else 0 in
  let read_offset := u64 (p_offset ph + page_offset_in_segment) in
  let dest_offset_in_page := if j =? 0 then Z.land (p_vaddr ph) 0xFFF else 0 in
  let full := 4096 - dest_offset_in_page in
  let bytes_to_read :=
    if p_filesz ph <? u64 (page_offset_in_segment + full)
    then (if page_offset_in_segment <? p_filesz ph then p_filesz ph - page_offset_in_segment else 0)
    else full in
  (read_offset, dest_offset_in_page, bytes_to_read).

Section elf.
Context {S : Type} `{FrameStore S} {V Ops : Type} `{FileSystem V Ops}.

(** A byte of physical memory, within its aligned word. *)
Definition store_byte (st : S) (a b : Z) : S :=
  let word := a - a mod 8 in
  let sh := 8 * (a mod 8) in
  write64 st word (Z.lor (Z.ldiff (read64 st word) (Z.shiftl 255 sh)) (Z.shiftl b sh)).

Fixpoint store_bytes_at (st : S) (a : Z) (bs : list Z) : S :=
  match bs with [] => st | b :: bs => store_bytes_at (store_byte st a b) (a + 1) bs end.

Definition on_store (s : sys S) (f : S -> S) : sys S := with_vm s (set_store (vm s) (f (store (vm s)))).

(** One round of the page loop; [false] when no frame is left. *)
Definition load_page (s : sys S) (v : V) (file : Z) (ph : elf64_phdr) (j : Z) : option (sys S * V * bool) :=
  let '(st, phys) := alloc_page (store (vm s)) in
  let s1 := with_vm s (set_store (vm s) st) in
  if phys =? 0 then Some (s1, v, false)
  else
    let s2 := with_vm s1 (vmm_map_page (vm s1) (u64 (seg_start ph + j * 4096)) phys (seg_page_flags ph)) in
    let s3 := on_store s2 (fun st => zero_page st phys) in
    let '(read_offset, dest, n) := page_extent ph j in
    if 0 <? n then
      '(v', _, bytes) ← vfs_read v file read_offset n;
      Some (on_store s3 (fun st => store_bytes_at st (phys + dest) bytes), v', true)
    else Some (s3, v, true).

Fixpoint load_pages (s : sys S) (v : V) (file : Z) (ph : elf64_phdr) (j : Z) (n : nat) : option (sys S * V * bool) :=
  match n with
  | O => Some (s, v, true)
  | Datatypes.S n =>
      '(s1, v1, ok) ← load_page s v file ph j;
      if ok : bool then load_pages s1 v1 file ph (j + 1) n else Some (s1, v1, false)
  end.

Definition set_heap_bounds (pr : process) (base endv : Z) : process :=
  Process (pid pr) (ppid pr) (pstate pr) (uid pr) (gid pr) (euid pr) (egid pr) (proc_cr3 pr) (proc_threads pr)
    (thread_count pr) (fd_table pr) (cwd pr) (exit_code pr) base endv (stack_top_virt pr) (stack_limit_virt pr)
    (vmas pr) (next_proc pr).

(** A PT_LOAD segment: its area, the bounds of the heap behind it, its pages. *)
Definition load_segment (s : sys S) (v : V) (proc file : Z) (ph : elf64_phdr) : option (sys S * V * bool) :=
  s1 ← process_add_vma s proc (p_vaddr ph) (u64 (p_vaddr ph + p_memsz ph)) (seg_page_flags ph);
  s2 ← upd_proc s1 proc (fun pr =>
         set_heap_bounds pr (if heap_base pr <? seg_end ph then seg_end ph else heap_base pr)
                            (if heap_end pr <? seg_end ph then seg_end ph else heap_end pr));
  load_pages s2 v file ph 0 (Z.to_nat (seg_file_pages ph)).

Fixpoint load_segments (s : sys S) (v : V) (proc file : Z) (h : elf64_hdr) (i : Z) (n : nat) : option (sys S * V * bool) :=
  match n with
  | O => Some (s, v, true)
  | Datatypes.S n =>
      (* the product is an int *)
      if 2 ^ 31 <=? i * e_phentsize h then None else
      '(v1, _, b) ← vfs_read v file (u64 (e_phoff h + i * e_phentsize h)) sizeof_elf64_phdr;
      ph ← parse_phdr b;
      if negb (p_type ph =? PT_LOAD) || (p_memsz ph =? 0) then load_segments s v1 proc file h (i + 1) n
      else
        '(s2, v2, ok) ← load_segment s v1 proc file ph;
        if ok : bool then load_segments s2 v2 proc file h (i + 1) n else Some (s2, v2, false)
  end.

(** The header tests of [elf_load]. *)
Definition hdr_ok (h : elf64_hdr) : bool :=
  (e_ident_magic h =? ELF_MAGIC) && (e_ident_class h =? 2) && (e_machine h =? 0x3E).

(** The result is [entry_out], when it was written, and the return value. *)
Definition elf_load (s : sys S) (v : V) (proc file : Z) : option (sys S * V * option Z * Z) :=
  '(v1, n, b) ← vfs_read v file 0 sizeof_elf64_hdr;
  if n <? sizeof_elf64_hdr then Some (s, v1, None, -1)
  else
    h ← parse_hdr b;
    if negb (hdr_ok h) then Some (s, v1, None, -1)
    else
      let saved_cr3 := cr3 (vm s) in
      pr ← procs (sk s) !! proc;
      let s1 := with_vm s (enter_cr3 (vm s) (proc_cr3 pr)) in
      s2 ← upd_proc s1 proc (fun pr => set_heap_bounds pr 0 (heap_end pr));
      '(s3, v3, ok) ← load_segments s2 v1 proc file h 0 (Z.to_nat (e_phnum h));
      let s4 := with_vm s3 (leave_cr3 saved_cr3 (vm s3) (proc_cr3 pr)) in
      Some (s4, v3, Some (e_entry h), if ok : bool then 0 else -1).

End elf.

(** ** Theorems *)

(** ** Bytes of physical memory *)

Lemma byte_of_word w b i j : 0 <= b < 256 -> 0 <= i < 8 -> 0 <= j < 8 ->
  Z.land (Z.shiftr (Z.lor (Z.ldiff w (Z.shiftl 255 (8 * i))) (Z.shiftl b (8 * i))) (8 * j)) 255 =
  if i =? j then b else Z.land (Z.shiftr w (8 * j)) 255.
Proof.
  intros Hb Hi Hj. change 255 with (Z.ones 8).
  assert (Hbit : forall n, 8 <= n -> Z.testbit b n = false).
  { intros n Hn. destruct (decide (b = 0)) as [->|Hb0]; [apply Z.testbit_0_l|]. apply Z.bits_above_log2; [lia|].
    assert (Z.log2 b < 8); [|lia]. apply Z.log2_lt_pow2; lia. }
  apply Z.bits_inj'. intros n Hn. rewrite Z.land_spec, Z.shiftr_spec, Z.lor_spec, Z.ldiff_spec, !Z.shiftl_spec by lia.
  rewrite (Z.testbit_ones_nonneg 8 n) by lia. destruct (Z.ltb_spec n 8) as [Hn8|Hn8].
  - rewrite andb_true_r. destruct (Z.eqb_spec i j) as [->|Hne].
    + rewrite (Z.testbit_ones_nonneg 8) by lia. rewrite (proj2 (Z.ltb_lt _ _)) by lia. cbn [negb]. rewrite andb_false_r. simpl.
      f_equal. lia.
    + rewrite Z.land_spec, Z.shiftr_spec, (Z.testbit_ones_nonneg 8 n) by lia. rewrite (proj2 (Z.ltb_lt n 8)) by done. rewrite andb_true_r.
      destruct (decide (n + 8 * j - 8 * i < 0)).
      * rewrite !(Z.testbit_neg_r _ (n + 8 * j - 8 * i)) by done. by rewrite orb_false_r, andb_true_r.
      * rewrite (Z.testbit_ones_nonneg 8 (n + 8 * j - 8 * i)) by lia. rewrite (proj2 (Z.ltb_ge (n + 8 * j - 8 * i) 8)) by lia. rewrite Hbit by lia.
        by rewrite orb_false_r, andb_true_r.
  - rewrite andb_false_r. destruct (Z.eqb_spec i j); [by rewrite Hbit|].
    rewrite Z.land_spec, (Z.testbit_ones_nonneg 8 n) by lia. rewrite (proj2 (Z.ltb_ge n 8)) by done. by rewrite andb_false_r.
Qed.

Section bytes.
Context {S : Type} `{FrameLaws S}.
Implicit Types (st : S) (a b : Z).

Definition read_byte st a : Z := Z.land (Z.shiftr (read64 st (a - a mod 8)) (8 * (a mod 8))) 255.

Lemma store_byte_read st a b a' : 0 <= b < 256 ->
  read_byte (store_byte st a b) a' = if a =? a' then b else read_byte st a'.
Proof.
  intros Hb. unfold read_byte, store_byte. rewrite write64_read.
  pose proof (Z.mod_pos_bound a 8 ltac:(lia)). pose proof (Z.mod_pos_bound a' 8 ltac:(lia)).
  destruct (decide (a - a mod 8 = a' - a' mod 8)) as [E|E].
  - rewrite byte_of_word by lia. rewrite E. destruct (Z.eqb_spec (a mod 8) (a' mod 8)), (Z.eqb_spec a a'); subst; done || lia.
  - destruct (Z.eqb_spec a a'); [congruence|done].
Qed.

(** Storing bytes changes these bytes only. *)
Lemma store_bytes_read bs : forall st a a', Forall (fun b => 0 <= b < 256) bs ->
  read_byte (store_bytes_at st a bs) a' = if (a <=? a') && (a' <? a + alen bs) then aget 0 bs (a' - a) else read_byte st a'.
Proof.
  unfold alen. induction bs as [|b bs IH]; intros st a a' F; cbn [store_bytes_at length].
  - destruct (Z.leb_spec a a'), (Z.ltb_spec a' (a + Z.of_nat 0)); cbn [andb]; (done || lia).
  - apply Forall_cons in F as [Hb F]. rewrite IH, store_byte_read by done.
    destruct (Z.leb_spec (a + 1) a'), (Z.ltb_spec a' (a + 1 + Z.of_nat (length bs))), (Z.leb_spec a a'),
      (Z.ltb_spec a' (a + Z.of_nat (Datatypes.S (length bs)))), (Z.eqb_spec a a'); cbn [andb]; try lia; try done.
    + unfold aget. by replace (Z.to_nat (a' - a)) with (Datatypes.S (Z.to_nat (a' - (a + 1)))) by lia.
    + unfold aget. by replace (Z.to_nat (a' - a)) with 0%nat by lia.
Qed.

(** Words that hold none of the bytes stay. *)
Lemma store_bytes_word bs : forall st a k, k mod 8 = 0 -> k + 8 <= a \/ a + alen bs <= k ->
  read64 (store_bytes_at st a bs) k = read64 st k.
Proof.
  unfold alen. induction bs as [|b bs IH]; intros st a k Hk Hr; cbn [store_bytes_at length] in *; [done|].
  rewrite IH by (done || lia). unfold store_byte. rewrite write64_read, decide_False; [done|].
  pose proof (Z.mod_pos_bound a 8 ltac:(lia)). pose proof (Z.div_mod a 8 ltac:(lia)). pose proof (Z.div_mod k 8 ltac:(lia)). lia.
Qed.

End bytes.

(** ** What a segment takes from the file *)

Lemma page_down_eq x : page_down x = x / 4096 * 4096.
Proof.
  unfold page_down. change 0xFFF with (Z.ones 12). rewrite Z.ldiff_ones_r by lia.
  by rewrite Z.shiftr_div_pow2, Z.shiftl_mul_pow2 by lia.
Qed.

Lemma page_low_eq x : Z.land x 0xFFF = x mod 4096.
Proof. change 0xFFF with (Z.ones 12). rewrite Z.land_ones by lia. done. Qed.

(** A segment inside the 64-bit space, with no more bytes in the file than in
    memory. *)
Definition seg_ok (ph : elf64_phdr) : Prop :=
  0 <= p_vaddr ph /\ 0 <= p_filesz ph <= p_memsz ph /\ p_vaddr ph + p_memsz ph + 0xFFF < 2 ^ 64 /\
  0 <= p_offset ph /\ p_offset ph + p_filesz ph < 2 ^ 64.

Lemma seg_start_eq ph : seg_start ph = p_vaddr ph / 4096 * 4096.
Proof. apply page_down_eq. Qed.

Lemma seg_file_pages_eq ph : seg_ok ph -> 0 < p_filesz ph ->
  seg_file_pages ph = (p_filesz ph + p_vaddr ph mod 4096 + 0xFFF) / 4096.
Proof.
  intros (Hv & Hf & Hm & _) Hp. unfold seg_file_pages, seg_end. rewrite page_low_eq, page_down_eq, seg_start_eq.
  pose proof (Z.mod_pos_bound (p_vaddr ph) 4096 ltac:(lia)).
  rewrite (wrap_small 64 (p_vaddr ph + p_memsz ph)) by (unfold fits; lia).
  rewrite (wrap_small 64 (p_vaddr ph + p_memsz ph + 0xFFF)) by (unfold fits; lia).
  rewrite (wrap_small 64 (p_filesz ph + p_vaddr ph mod 4096)) by (unfold fits; zmod).
  rewrite (wrap_small 64 (p_filesz ph + p_vaddr ph mod 4096 + 0xFFF)) by (unfold fits; zmod).
  rewrite wrap_small by (unfold fits; zmod). case_bool; [|done]. zmod.
Qed.

(** The extent of page [j] in terms of the offset [o] of the page in the
    segment. *)
Lemma page_extent_eq ph j : seg_ok ph -> 0 <= j < (p_vaddr ph mod 4096 + p_filesz ph + 0xFFF) / 4096 ->
  let first := p_vaddr ph mod 4096 in
  page_extent ph j =
    if j =? 0 then (p_offset ph, first, Z.min (4096 - first) (p_filesz ph))
    else (p_offset ph + (j * 4096 - first), 0, Z.min 4096 (p_filesz ph - (j * 4096 - first))).
Proof.
  intros (Hv & Hf & Hm & Ho & Hof) Hj first. unfold page_extent. rewrite page_low_eq. fold first. rewrite seg_start_eq.
  assert (Hfirst : 0 <= first < 4096) by (apply Z.mod_pos_bound; lia).
  assert (Hd : p_vaddr ph = p_vaddr ph / 4096 * 4096 + first) by (unfold first; zmod).
  assert (Hj2 : j * 4096 < first + p_filesz ph + 0xFFF) by (unfold first in *; zmod).
  rewrite (wrap_small 64 (p_vaddr ph / 4096 * 4096 + j * 4096)) by (unfold fits; lia).
  destruct (Z.eqb_spec j 0) as [->|Hne].
  - destruct (Z.ltb_spec (p_vaddr ph) (p_vaddr ph / 4096 * 4096 + 0 * 4096)); [lia|].
    rewrite (wrap_small 64 (p_offset ph + 0)) by (unfold fits; lia). rewrite (wrap_small 64 (0 + (4096 - first))) by (unfold fits; lia).
    rewrite Z.add_0_r. f_equal. case_bool; [|lia]. case_bool; lia.
  - assert (first + p_filesz ph > j * 4096 - 0xFFF) by lia.
    destruct (Z.ltb_spec (p_vaddr ph) (p_vaddr ph / 4096 * 4096 + j * 4096)); [|lia].
    replace (p_vaddr ph / 4096 * 4096 + j * 4096 - p_vaddr ph) with (j * 4096 - first) by lia.
    assert (j * 4096 - first < p_filesz ph) by (unfold first in *; zmod).
    rewrite (wrap_small 64 (p_offset ph + (j * 4096 - first))) by (unfold fits; lia). rewrite Z.sub_0_r.
    rewrite (wrap_small 64 (j * 4096 - first + 4096)) by (unfold fits; lia).
    f_equal. case_bool; [|lia]. case_bool; lia.
Qed.

(** ** The memory image of a segment *)

(** The byte that a program finds at an address of the segment: from the file
    [data] up to the file size, then zero. *)
Definition image_byte (ph : elf64_phdr) (data : list Z) (addr : Z) : Z :=
  if (p_vaddr ph <=? addr) && (addr <? p_vaddr ph + p_filesz ph) then aget 0 data (p_offset ph + (addr - p_vaddr ph)) else 0.

(** Page [j] takes from the file the bytes of the image, and nothing else. *)
Lemma extent_image ph j data i : seg_ok ph -> 0 < p_filesz ph -> 0 <= j < seg_file_pages ph -> 0 <= i < 4096 ->
  p_offset ph + p_filesz ph <= alen data ->
  let '(from, dest, n) := page_extent ph j in
  0 <= from /\ 0 < n /\ from + n <= alen data /\ 0 <= dest /\ dest + n <= 4096 /\
  image_byte ph data (seg_start ph + j * 4096 + i) =
    (if (dest <=? i) && (i <? dest + n) then aget 0 (take (Z.to_nat n) (drop (Z.to_nat from) data)) (i - dest) else 0).
Proof.
  intros Hok Hp Hj Hi Hd. pose proof Hok as (Hv & Hf & Hm & Ho & Hof). set (first := p_vaddr ph mod 4096).
  rewrite seg_file_pages_eq in Hj by done. fold first in Hj. rewrite seg_start_eq. unfold image_byte.
  assert (Hfirst : 0 <= first < 4096) by (apply Z.mod_pos_bound; lia).
  assert (Hvd : p_vaddr ph = p_vaddr ph / 4096 * 4096 + first) by (unfold first; zmod).
  rewrite (page_extent_eq ph j Hok) by (fold first; rewrite (Z.add_comm first); lia). fold first.
  assert (j * 4096 < first + p_filesz ph) by zmod.
  assert (Hget : forall from n k, 0 <= from -> 0 <= k < n -> aget 0 (take (Z.to_nat n) (drop (Z.to_nat from) data)) k = aget 0 data (from + k)).
  { intros from n k Hfr Hk. unfold aget. rewrite lookup_take_lt by lia. rewrite lookup_drop. do 2 f_equal. lia. }
  destruct (Z.eqb_spec j 0) as [E|E].
  - split_and!; try lia.
    destruct (Z.leb_spec first i), (Z.ltb_spec i (first + Z.min (4096 - first) (p_filesz ph))),
      (Z.leb_spec (p_vaddr ph) (p_vaddr ph / 4096 * 4096 + j * 4096 + i)),
      (Z.ltb_spec (p_vaddr ph / 4096 * 4096 + j * 4096 + i) (p_vaddr ph + p_filesz ph)); cbn [andb]; try lia.
    rewrite Hget by lia. f_equal. lia.
  - split_and!; try lia.
    destruct (Z.leb_spec 0 i), (Z.ltb_spec i (0 + Z.min 4096 (p_filesz ph - (j * 4096 - first)))),
      (Z.leb_spec (p_vaddr ph) (p_vaddr ph / 4096 * 4096 + j * 4096 + i)),
      (Z.ltb_spec (p_vaddr ph / 4096 * 4096 + j * 4096 + i) (p_vaddr ph + p_filesz ph)); cbn [andb]; try lia.
    rewrite Hget by lia. f_equal. lia.
Qed.

(** Every byte of the file part lies in one of the pages. *)
Lemma segment_pages_cover ph k : seg_ok ph -> 0 < p_filesz ph -> 0 <= k < p_filesz ph ->
  0 <= (p_vaddr ph + k) / 4096 - p_vaddr ph / 4096 < seg_file_pages ph.
Proof.
  intros Hok Hp Hk. rewrite seg_file_pages_eq by done. destruct Hok as (Hv & _). set (first := p_vaddr ph mod 4096).
  assert (Hd : p_vaddr ph = p_vaddr ph / 4096 * 4096 + first) by (unfold first; zmod).
  assert (Hfirst : 0 <= first < 4096) by (apply Z.mod_pos_bound; lia).
  assert (Hx : (p_vaddr ph + k) / 4096 = p_vaddr ph / 4096 + (first + k) / 4096).
  { replace (p_vaddr ph + k) with (first + k + p_vaddr ph / 4096 * 4096) by lia. rewrite Z.div_add by lia. lia. }
  rewrite Hx. clear Hx Hd. zmod.
Qed.

Section image.
Context {S : Type} `{FrameLaws S} {V Ops : Type} `{FileSystem V Ops}.

(** The file has the contents [data]: every part of it can be read. *)
Definition file_is (v : V) (file : Z) (data : list Z) : Prop :=
  forall off n, 0 <= off -> 0 < n -> off + n <= alen data ->
    exists v', vfs_read v file off n = Some (v', n, take (Z.to_nat n) (drop (Z.to_nat off) data)).

(** C20.  The pages that hold bytes of the file are all loaded, and loading page [j]
    of them is right:
    without a free frame it fails; otherwise the frame that it maps holds the
    memory image of the segment at the addresses of the page, byte for byte: the
    bytes of the file in their places and zeros before and behind them. *)
Theorem elf_load_page_image (s : sys S) (v : V) (file : Z) (ph : elf64_phdr) (j : Z) (data : list Z) :
  store_ok (store (vm s)) -> seg_ok ph -> 0 < p_filesz ph -> 0 <= j < seg_file_pages ph ->
  file_is v file data -> p_offset ph + p_filesz ph <= alen data -> Forall (fun b => 0 <= b < 256) data ->
  let phys := (alloc_page (store (vm s))).2 in
  (forall k, 0 <= k < p_filesz ph -> 0 <= (p_vaddr ph + k) / 4096 - p_vaddr ph / 4096 < seg_file_pages ph) /\
  exists s' v' ok, load_page s v file ph j = Some (s', v', ok) /\ (ok = false <-> phys = 0) /\
    (ok = true -> forall i, 0 <= i < 4096 ->
       read_byte (store (vm s')) (phys + i) = image_byte ph data (seg_start ph + j * 4096 + i)).
Proof.
  intros Hst Hok Hp Hj Hfile Hd Hb phys. split; [intros k; by apply segment_pages_cover|]. subst phys.
  unfold load_page. destruct (alloc_page (store (vm s))) as [st phys] eqn:Ea. cbn [snd].
  destruct (Z.eqb_spec phys 0) as [->|Hph]; [by eexists _, v, false|].
  destruct (alloc_page_some (store (vm s)) st phys Hst Ea Hph) as (_ & Hfree & _). apply free_is_frame in Hfree as [Hal _]; [|done].
  assert (Himg := fun i => extent_image ph j data i Hok Hp Hj). destruct (page_extent ph j) as [[from dest] n].
  destruct (Himg 0 ltac:(lia) Hd) as (Hfrom & Hn & Hle & Hdest & Hpage & _). rewrite (proj2 (Z.ltb_lt 0 n) Hn).
  destruct (Hfile from n Hfrom Hn Hle) as [v' ->]. cbn [mbind option_bind]. eexists _, v', true.
  split; [reflexivity|]. split; [done|]. intros _ i Hi. destruct (Himg i Hi Hd) as (_ & _ & _ & _ & _ & ->).
  set (bytes := take _ _). assert (Hlen : alen bytes = n).
  { unfold bytes, alen in *. rewrite length_take, length_drop. lia. }
  unfold on_store. simpl. rewrite store_bytes_read by (apply Forall_take, Forall_drop, Hb). rewrite Hlen.
  replace (phys + i - (phys + dest)) with (i - dest) by lia.
  replace (phys + dest <=? phys + i) with (dest <=? i) by (destruct (Z.leb_spec dest i), (Z.leb_spec (phys + dest) (phys + i)); lia).
  replace (phys + i <? phys + dest + n) with (i <? dest + n) by (destruct (Z.ltb_spec i (dest + n)), (Z.ltb_spec (phys + i) (phys + dest + n)); lia).
  destruct (_ && _); [done|]. unfold read_byte. rewrite zero_page_read, decide_True; [by rewrite Z.shiftr_0_l, Z.land_0_l|].
  unfold in_frame. zmod.
Qed.

End image.

(** A segment of 100 bytes in the middle of a page, from a file of the RAM file
    system. *)
Definition demo_data : list Z := seqZ 0 200.

Definition demo_file : ramfs Z :=
  Ramfs {[ 16 := VfsNode [97] 0 0 0 FS_FILE 0 200 32 (Some ramfs_ops) 0 0 ]} {[ 32 := RamfsInternal 48 200 [] 0 ]} {[ 48 := demo_data ]} 4096.

Lemma demo_file_is : file_is demo_file 16 demo_data.
Proof.
  intros off n Ho Hn Hle. change (alen demo_data) with 200 in Hle. exists demo_file.
  assert (Hr : vfs_read demo_file 16 off n =
    if 200 <=? off then Some (demo_file, 0, [])
    else bytes ← load_bytes demo_file 48 off (if 200 - off <? n then 200 - off else n);
         Some (demo_file, if 200 - off <? n then 200 - off else n, bytes)) by reflexivity.
  rewrite Hr. destruct (Z.leb_spec 200 off); [lia|]. destruct (Z.ltb_spec (200 - off) n); [lia|].
  assert (Hl : load_bytes demo_file 48 off n =
    if off + n <=? 200 then Some (take (Z.to_nat n) (drop (Z.to_nat off) demo_data)) else None) by reflexivity.
  rewrite Hl. by rewrite (proj2 (Z.leb_le _ _) Hle).
Qed.

Definition demo_ph : elf64_phdr := Elf64Phdr 1 5 64 4198400 100 6000.

Definition demo_loader : sys pmm :=
  Sys blank_sched (Heap 0 0 0 0 ∅ ∅ (Vmm demo_pmm 4096 0)) 0 0 0 ∅ ∅.

Lemma elf_load_page_image_witness :
  exists s' v', load_page demo_loader demo_file 16 demo_ph 0 = Some (s', v', true) /\
    read_byte (store (vm s')) (8192 + 4198403 mod 4096) = 67 /\ read_byte (store (vm s')) (8192 + 100) = 0.
Proof.
  destruct (elf_load_page_image demo_loader demo_file 16 demo_ph 0 demo_data) as (_ & s' & v' & ok & E & Hok & Hi).
  - exact demo_pmm_inv.
  - unfold seg_ok, demo_ph. cbn. lia.
  - cbn. lia.
  - vm_compute. split; congruence.
  - exact demo_file_is.
  - vm_compute. congruence.
  - apply Forall_forall. intros x Hx%elem_of_seqZ. lia.
  - assert (Hp : (alloc_page (store (vm demo_loader))).2 = 8192) by (vm_compute; reflexivity). rewrite Hp in Hok, Hi.
    destruct ok; [|destruct Hok as [Hok _]; discriminate (Hok eq_refl)]. exists s', v'. split; [exact E|].
    rewrite (Hi eq_refl) by (vm_compute; split; congruence). rewrite (Hi eq_refl) by lia. vm_compute. split; reflexivity.
Defined.
