(* ===== verification/Syscall.v ===== *)
(** System calls, kernel/src/syscall/syscall_table.c and syscall_handlers.c.

    A handler takes the state and the six argument registers.  The state joins
    the kernel (Process), a file system of the class of Vfs.v, and the bytes of
    memory that the current address space lets the kernel access (KString): user
    pointers are used as they come.  The result of a handler is its return value,
    or nothing when the call has given up the CPU before returning: [sys_wait4],
    which is entered again when its thread runs, and [sys_exit]. *)
From stdpp Require Import prelude gmap list.
From Stdlib Require Import ZArith Lia.
From S2P Require Import Prelude Bitmap Pmm Frames Vmm Heap Task Sched KString Vfs Process Elf.

Open Scope Z_scope.

Definition ENOENT : Z := 2.
Definition ENOEXEC : Z := 8.
Definition EBADF : Z := 9.
Definition ECHILD : Z := 10.
Definition ENOMEM : Z := 12.
Definition EFAULT : Z := 14.
Definition EINVAL : Z := 22.
Definition EMFILE : Z := 24.
Definition ENOSYS : Z := 38.
Definition MAP_ANONYMOUS : Z := 0x20.

Definition sizeof_fd_table : Z := 520.

(** [calloc]ed. *)
Definition fd_table_zero : fd_table_t := FdTable (replicate 64 0) 0.

Section syscalls.
Context {S : Type} `{FrameStore S} {V Ops : Type} `{FileSystem V Ops} (img : kernel_image) (vfs_root : Z).

Record kst := Kst { k_sys : sys S; k_vfs : V; k_mem : bmem; k_fs_base : Z }.

Definition with_sys (s : kst) (x : sys S) : kst := Kst x (k_vfs s) (k_mem s) (k_fs_base s).
Definition with_vfs (s : kst) (v : V) : kst := Kst (k_sys s) v (k_mem s) (k_fs_base s).
Definition with_mem (s : kst) (m : bmem) : kst := Kst (k_sys s) (k_vfs s) m (k_fs_base s).

Definition handler : Type := kst -> Z -> Z -> Z -> Z -> Z -> Z -> option (kst * option Z).

Definition ret (s : kst) (v : Z) : option (kst * option Z) := Some (s, Some (s64 v)).

(** [current_process]. *)
Definition cur (s : kst) : Z := current_process (cpu (sk (k_sys s))).

Definition cur_proc (s : kst) : option process := procs (sk (k_sys s)) !! cur s.

(** The accessible bytes from [a], at most [n]. *)
Fixpoint user_bytes (m : bmem) (a : Z) (n : nat) : list Z :=
  match n with
  | O => []
  | Datatypes.S n => match m !! a with Some b => b :: user_bytes m (a + 1) n | None => [] end
  end.

(** The string at [a], up to its NUL. *)
Fixpoint user_string_loop (m : bmem) (a : Z) (fuel : nat) : option (list Z) :=
  match fuel with
  | O => None
  | Datatypes.S fuel => c ← m !! a; if c =? 0 then Some [] else l ← user_string_loop m (a + 1) fuel; Some (c :: l)
  end.

(** A path argument; NULL stays NULL. *)
Definition user_path (m : bmem) (a : Z) : option (option (list Z)) :=
  if a =? 0 then Some None else p ← user_string_loop m a (str_fuel m); Some (Some p).

Fixpoint store_user (m : bmem) (a : Z) (bs : list Z) : option bmem :=
  match bs with [] => Some m | b :: bs => m' ← mset m a b; store_user m' (a + 1) bs end.

(** The descriptor table of the current process: its address, 0 for none. *)
Definition fd_slot (t : fd_table_t) (fd : Z) : Z := aget 0 (fds t) fd.

(** [!fd_table || fd >= 64 || fds[fd] == NULL], as the node or 0. *)
Definition fd_node (s : kst) (fd : Z) : option Z :=
  pr ← cur_proc s;
  if fd_table pr =? 0 then Some 0
  else if 64 <=? fd then Some 0
  else t ← fd_tabs (k_sys s) !! fd_table pr; Some (fd_slot t fd).

(** ** Files *)

Definition sys_write : handler := fun s fd buf_user count _ _ _ =>
  if (buf_user =? 0) || (count =? 0) then ret s 0
  else
    let count := if 65536 <? count then 65536 else count in
    node ← fd_node s fd;
    if node =? 0 then ret s (- EBADF)
    else
      '(v, n) ← vfs_write (k_vfs s) node 0 count (user_bytes (k_mem s) buf_user (Z.to_nat count));
      ret (with_vfs s v) n.

Definition sys_read : handler := fun s fd buf_user count _ _ _ =>
  if (buf_user =? 0) || (count =? 0) then ret s 0
  else
    node ← fd_node s fd;
    if node =? 0 then ret s (- EBADF)
    else
      '(v, n, bytes) ← vfs_read (k_vfs s) node 0 count;
      m ← store_user (k_mem s) buf_user bytes;
      ret (with_mem (with_vfs s v) m) n.

Definition set_fd_table (pr : process) (t : Z) : process :=
  Process (pid pr) (ppid pr) (pstate pr) (uid pr) (gid pr) (euid pr) (egid pr) (proc_cr3 pr) (proc_threads pr)
    (thread_count pr) t (cwd pr) (exit_code pr) (heap_base pr) (heap_end pr) (stack_top_virt pr) (stack_limit_virt pr)
    (vmas pr) (next_proc pr).

(** [kcalloc(1, sizeof(fd_table_t))]. *)
Definition alloc_fd_table (x : sys S) (t0 : fd_table_t) : option (sys S * Z) :=
  '(h, t) ← kcalloc (hp x) 1 sizeof_fd_table;
  let x1 := with_hp x h in
  Some (if t =? 0 then x1 else with_fds x1 (<[t := t0]> (fd_tabs x1)), t).

(** [for (i = 3; i < 64; i++)]: the first closed slot from [i]. *)
Fixpoint free_fd (t : fd_table_t) (i : Z) (n : nat) : option Z :=
  match n with
  | O => None
  | Datatypes.S n => if fd_slot t i =? 0 then Some i else free_fd t (i + 1) n
  end.

(** The node of the path, created on demand; 0 when there is none. *)
Definition open_node (v : V) (path : option (list Z)) (flags : Z) : option (V * Z) :=
  '(v1, file) ← vfs_resolve_path vfs_root v path;
  if negb (file =? 0) then Some (v1, file)
  else if has_flag flags 0x40 then vfs_create vfs_root v1 path
  else Some (v1, 0).

Definition sys_open : handler := fun s path_user flags _ _ _ _ =>
  path ← user_path (k_mem s) path_user;
  '(v1, file) ← open_node (k_vfs s) path flags;
  if file =? 0 then ret (with_vfs s v1) (- ENOENT)
  else
    v2 ← vfs_open v1 file;
    pr ← cur_proc s;
    '(x, ft) ←
      (if fd_table pr =? 0 then
         '(x, t) ← alloc_fd_table (k_sys s) fd_table_zero;
         x' ← upd_proc x (cur s) (fun pr => set_fd_table pr t);
         Some (x', t)
       else Some (k_sys s, fd_table pr));
    t ← fd_tabs x !! ft;
    match free_fd t 3 61 with
    | Some i =>
        let t' := FdTable (aset (fds t) i file) (u32 (open_count t + 1)) in
        ret (with_sys (with_vfs s v2) (with_fds x (<[ft := t']> (fd_tabs x)))) i
    | None =>
        v3 ← vfs_close v2 file;
        ret (with_sys (with_vfs s v3) x) (- EMFILE)
    end.

Definition sys_close : handler := fun s fd _ _ _ _ _ =>
  node ← fd_node s fd;
  if node =? 0 then ret s (- EBADF)
  else
    v ← vfs_close (k_vfs s) node;
    pr ← cur_proc s;
    t ← fd_tabs (k_sys s) !! fd_table pr;
    let t' := FdTable (aset (fds t) fd 0) (u32 (open_count t - 1)) in
    ret (with_sys (with_vfs s v) (with_fds (k_sys s) (<[fd_table pr := t']> (fd_tabs (k_sys s))))) 0.

(** ** Memory *)

Definition set_heap_end (pr : process) (e : Z) : process := set_heap_bounds pr (heap_base pr) e.

Definition sys_mmap : handler := fun s addr length _ flags _ _ =>
  if negb (has_flag flags MAP_ANONYMOUS) then ret s (- ENOSYS)
  else
    pr ← cur_proc s;
    let num_pages := u64 (length + 0xFFF) / 4096 in
    let virt := if negb (addr =? 0) then addr else heap_end pr in
    x ← upd_proc (k_sys s) (cur s) (fun pr => set_heap_end pr (u64 (virt + u64 (num_pages * 4096))));
    ret (with_sys s x) virt.

Definition sys_brk : handler := fun s new_brk _ _ _ _ _ =>
  pr ← cur_proc s;
  if new_brk =? 0 then ret s (heap_end pr)
  else if new_brk <? heap_base pr then ret s (- EINVAL)
  else
    let e := page_down (u64 (new_brk + 0xFFF)) in
    x ← upd_proc (k_sys s) (cur s) (fun pr => set_heap_end pr e);
    ret (with_sys s x) e.

(** ** Processes *)

(** With a current process, [process_exit] gives up the CPU in [schedule] with its
    thread DEAD: the call does not come back. *)
Definition sys_exit : handler := fun s code _ _ _ _ _ =>
  x ← scheduler_exit_current (k_sys s) (s32 code);
  if cur s =? 0 then ret (with_sys s x) 0 else Some (with_sys s x, None).

Definition sys_exit_group : handler := sys_exit.

Definition set_proc_cr3 (pr : process) (root : Z) : process :=
  Process (pid pr) (ppid pr) (pstate pr) (uid pr) (gid pr) (euid pr) (egid pr) root (proc_threads pr) (thread_count pr)
    (fd_table pr) (cwd pr) (exit_code pr) (heap_base pr) (heap_end pr) (stack_top_virt pr) (stack_limit_virt pr)
    (vmas pr) (next_proc pr).

(** The heap and stack bounds of the parent. *)
Definition fork_child (parent : process) (pr : process) : process :=
  Process (pid pr) (ppid pr) (pstate pr) (uid pr) (gid pr) (euid pr) (egid pr) (proc_cr3 pr) (proc_threads pr)
    (thread_count pr) (fd_table pr) (cwd pr) (exit_code pr) (heap_base parent) (heap_end parent) (stack_top_virt parent)
    (stack_limit_virt parent) (vmas pr) (next_proc pr).

Definition sys_fork : handler := fun s _ _ _ _ _ _ =>
  parent ← cur_proc s;
  '(x1, child) ← process_create img (k_sys s) (pid parent);
  if child =? 0 then ret (with_sys s x1) (- ENOMEM)
  else
    x2 ← (if fd_table parent =? 0 then Some x1
          else
            pt ← fd_tabs x1 !! fd_table parent;
            '(x, t) ← alloc_fd_table x1 pt;
            upd_proc x child (fun pr => set_fd_table pr t));
    let '(m, root) := vmm_cow_clone (vm x2) (proc_cr3 parent) in
    let x3 := with_vm x2 m in
    x4 ← upd_proc x3 child (fun pr => set_proc_cr3 pr root);
    if root =? 0 then x5 ← process_destroy x4 child; ret (with_sys s x5) (- ENOMEM)
    else
      x5 ← upd_proc x4 child (fork_child parent);
      cp ← procs (sk x5) !! child;
      ret (with_sys s x5) (pid cp).

Definition USER_STACK_TOP : Z := 0x00007FFFFFFFF000.

Definition set_stack (pr : process) (top limit : Z) : process :=
  Process (pid pr) (ppid pr) (pstate pr) (uid pr) (gid pr) (euid pr) (egid pr) (proc_cr3 pr) (proc_threads pr)
    (thread_count pr) (fd_table pr) (cwd pr) (exit_code pr) (heap_base pr) (heap_end pr) top limit (vmas pr) (next_proc pr).

Definition sys_execve : handler := fun s path_user _ _ _ _ _ =>
  path ← user_path (k_mem s) path_user;
  '(v1, file) ← vfs_resolve_path vfs_root (k_vfs s) path;
  if file =? 0 then ret (with_vfs s v1) (- ENOENT)
  else
    '(x1, v2, _, r) ← elf_load (k_sys s) v1 (cur s) file;
    v3 ← vfs_close v2 file;
    if negb (r =? 0) then ret (with_sys (with_vfs s v3) x1) (- ENOEXEC)
    else
      x2 ← upd_proc x1 (cur s) (fun pr => set_stack pr USER_STACK_TOP USER_STACK_TOP);
      ret (with_sys (with_vfs s v3) x2) (- ENOSYS).

(** The four bytes of an [int]. *)
Definition int_bytes (x : Z) : list Z :=
  let w := u32 x in [w mod 256; w / 256 mod 256; w / 65536 mod 256; w / 16777216 mod 256].

(** One round of the loop of [sys_wait4]. *)
Definition sys_wait4 : handler := fun s pidarg status_user options _ _ _ =>
  pr ← cur_proc s;
  '(x1, r, status) ← process_waitpid (k_sys s) (pid pr) (s32 pidarg);
  let s1 := with_sys s x1 in
  if 0 <? r then
    if negb (status_user =? 0) then
      m ← store_user (k_mem s1) status_user (int_bytes (default 0 status));
      ret (with_mem s1 m) r
    else ret s1 r
  else if r =? -1 then ret s1 (- ECHILD)
  else if has_flag options 1 then ret s1 0
  else x2 ← run_sched x1 schedule; Some (with_sys s1 x2, None).

(** [current_process ? current_process->f : 0]. *)
Definition get_field (f : process -> Z) : handler := fun s _ _ _ _ _ _ =>
  if cur s =? 0 then ret s 0 else pr ← cur_proc s; ret s (f pr).

Definition sys_getpid : handler := get_field pid.
Definition sys_getppid : handler := get_field ppid.
Definition sys_getuid : handler := get_field uid.
Definition sys_getgid : handler := get_field gid.
Definition sys_geteuid : handler := get_field euid.
Definition sys_getegid : handler := get_field egid.

Definition sys_gettid : handler := fun s _ _ _ _ _ _ =>
  let t := current_thread (cpu (sk (k_sys s))) in
  if t =? 0 then ret s 0 else th ← threads (sk (k_sys s)) !! t; ret s (tid th).

Definition sys_set_tid_address : handler := sys_gettid.

Definition sys_getcwd : handler := fun s buf_user size _ _ _ _ =>
  pr ← cur_proc s;
  if cwd pr =? 0 then ret s (- ENOENT)
  else
    len ← strlen (k_mem s) (cwd pr);
    if size <? len + 1 then ret s (- EINVAL)
    else m ← strcpy (k_mem s) buf_user (cwd pr); ret (with_mem s m) buf_user.

(** ** Others *)

(** "NexusOS", "nexus", "0.1.0", "#1 SMP", "x86_64", "localdomain": the fields of
    [struct utsname], 65 bytes each. *)
Definition uname_fields : list (list Z) :=
  [[78; 101; 120; 117; 115; 79; 83; 0]; [110; 101; 120; 117; 115; 0]; [48; 46; 49; 46; 48; 0];
   [35; 49; 32; 83; 77; 80; 0]; [120; 56; 54; 95; 54; 52; 0]; [108; 111; 99; 97; 108; 100; 111; 109; 97; 105; 110; 0]].

Fixpoint store_fields (m : bmem) (a : Z) (fs : list (list Z)) : option bmem :=
  match fs with [] => Some m | f :: fs => m' ← store_user m a f; store_fields m' (a + 65) fs end.

Definition sys_uname : handler := fun s buf_user _ _ _ _ _ =>
  if buf_user =? 0 then ret s (- EFAULT)
  else m ← store_fields (k_mem s) buf_user uname_fields; ret (with_mem s m) 0.

(** ARCH_SET_FS writes the FS base register. *)
Definition sys_arch_prctl : handler := fun s code addr _ _ _ _ =>
  if code =? 0x1002 then ret (Kst (k_sys s) (k_vfs s) (k_mem s) addr) 0 else ret s (- ENOSYS).

(** The handlers that are not implemented, and those that only succeed. *)
Definition sys_nosys : handler := fun s _ _ _ _ _ _ => ret s (- ENOSYS).
Definition sys_zero : handler := fun s _ _ _ _ _ _ => ret s 0.

Definition sys_stat : handler := sys_nosys.
Definition sys_fstat : handler := sys_nosys.
Definition sys_lseek : handler := sys_nosys.
Definition sys_waitid : handler := sys_nosys.
Definition sys_chdir : handler := sys_nosys.
Definition sys_mkdir : handler := sys_nosys.
Definition sys_rmdir : handler := sys_nosys.
Definition sys_unlink : handler := sys_nosys.
Definition sys_dup : handler := sys_nosys.
Definition sys_dup2 : handler := sys_nosys.
Definition sys_pipe : handler := sys_nosys.
Definition sys_ioctl : handler := sys_nosys.
Definition sys_kill : handler := sys_nosys.
Definition sys_clock_gettime : handler := sys_nosys.
Definition sys_tgkill : handler := sys_nosys.
Definition sys_openat : handler := sys_nosys.
Definition sys_getdents64 : handler := sys_nosys.
Definition sys_mprotect : handler := sys_zero.
Definition sys_munmap : handler := sys_zero.
Definition sys_rt_sigaction : handler := sys_zero.
Definition sys_rt_sigprocmask : handler := sys_zero.

(** ** Dispatch *)

Definition syscall_table : gmap Z handler := list_to_map [
  (0, sys_read); (1, sys_write); (2, sys_open); (3, sys_close); (4, sys_stat); (5, sys_fstat); (8, sys_lseek);
  (9, sys_mmap); (10, sys_mprotect); (11, sys_munmap); (12, sys_brk); (60, sys_exit); (57, sys_fork);
  (58, sys_fork); (59, sys_execve); (61, sys_wait4); (247, sys_waitid); (39, sys_getpid); (110, sys_getppid);
  (102, sys_getuid); (104, sys_getgid); (107, sys_geteuid); (108, sys_getegid); (79, sys_getcwd);
  (80, sys_chdir); (83, sys_mkdir); (84, sys_rmdir); (87, sys_unlink); (32, sys_dup); (33, sys_dup2);
  (22, sys_pipe); (16, sys_ioctl); (63, sys_uname); (62, sys_kill); (186, sys_gettid);
  (218, sys_set_tid_address); (158, sys_arch_prctl); (228, sys_clock_gettime); (231, sys_exit_group);
  (234, sys_tgkill); (257, sys_openat); (217, sys_getdents64); (13, sys_rt_sigaction);
  (14, sys_rt_sigprocmask)].

Definition syscall_dispatch (s : kst) (num a1 a2 a3 a4 a5 a6 : Z) : option (kst * option Z) :=
  match (if 512 <=? num then None else syscall_table !! num) with
  | None => ret s (- ENOSYS)
  | Some f => f s a1 a2 a3 a4 a5 a6
  end.

End syscalls.
