(* ===== verification/SyscallThm.v ===== *)
(** The system calls (file Syscall) and the descriptor tables: every call keeps
    every table well formed, [sys_open] and [sys_close] are inverse, a call on a
    closed descriptor or with an unknown number fails and changes nothing. *)
From stdpp Require Import prelude gmap list.
From Stdlib Require Import ZArith Lia.
From S2P Require Import Prelude Bitmap Pmm Frames Vmm Heap HeapUse Task Sched KString KHeap Vfs Ramfs Process ProcessDemo Elf Syscall.

Open Scope Z_scope.

(** ** Descriptor tables *)

Definition open_slots (t : fd_table_t) : list Z := filter (fun n => n <> 0) (fds t).

(** 64 slots, and the counter counts the open ones. *)
Definition fd_table_ok (t : fd_table_t) : Prop :=
  length (fds t) = 64%nat /\ open_count t = Z.of_nat (length (open_slots t)).

Lemma filter_insert_length (l : list Z) i x y : l !! i = Some y ->
  (length (filter (fun n => n <> 0%Z) (<[i := x]> l)) + (if decide (y <> 0%Z) then 1 else 0) =
   length (filter (fun n => n <> 0%Z) l) + (if decide (x <> 0%Z) then 1 else 0))%nat.
Proof.
  revert i. induction l as [|a l IH]; intros [|i] E; [done..| |].
  - injection E as ->. cbn [list_insert insert]. rewrite !filter_cons. repeat destruct (decide _); simpl; lia.
  - specialize (IH i E). change (<[Datatypes.S i := x]> (a :: l)) with (a :: <[i := x]> l). rewrite !filter_cons.
    repeat destruct (decide _); simpl; lia.
Qed.

Lemma fd_slot_range t fd : fd_table_ok t -> fd_slot t fd <> 0 -> fd < 64.
Proof.
  intros [Hl _] Hs. destruct (Z.lt_ge_cases fd 64) as [|Hge]; [done|]. destruct Hs.
  apply aget_ge. unfold alen. rewrite Hl. lia.
Qed.

Lemma fd_table_lookup t fd : fd_table_ok t -> 0 <= fd < 64 -> fds t !! Z.to_nat fd = Some (fd_slot t fd).
Proof. intros [Hl _] Hr. apply aget_lookup. unfold alen. rewrite Hl. lia. Qed.

Lemma open_slots_bound t : fd_table_ok t -> (length (open_slots t) <= 64)%nat.
Proof. intros [Hl _]. rewrite <- Hl. apply length_filter. Qed.

Lemma fd_table_open t i node : fd_table_ok t -> 0 <= i < 64 -> fd_slot t i = 0 -> node <> 0 ->
  fd_table_ok (FdTable (aset (fds t) i node) (u32 (open_count t + 1))).
Proof.
  intros Hok Hi Hs Hn. pose proof (fd_table_lookup t i Hok Hi) as E. rewrite Hs in E.
  pose proof (open_slots_bound t Hok) as B. destruct Hok as [Hl Hc]. split; [simpl; unfold aset; by rewrite length_insert|].
  simpl. pose proof (filter_insert_length _ _ node _ E) as F. unfold open_slots, aset in *. simpl.
  rewrite decide_False in F by (intros []; done). rewrite decide_True in F by done.
  rewrite wrap_small by (unfold fits; lia). lia.
Qed.

Lemma fd_table_close t i : fd_table_ok t -> 0 <= i -> fd_slot t i <> 0 ->
  fd_table_ok (FdTable (aset (fds t) i 0) (u32 (open_count t - 1))).
Proof.
  intros Hok Hi Hs. pose proof (fd_slot_range t i Hok Hs) as Hr.
  pose proof (fd_table_lookup t i Hok (conj Hi Hr)) as E.
  pose proof (open_slots_bound t Hok) as B. destruct Hok as [Hl Hc]. split; [simpl; unfold aset; by rewrite length_insert|].
  simpl. pose proof (filter_insert_length _ _ 0 _ E) as F. unfold open_slots, aset in *. simpl.
  rewrite decide_True in F by done. rewrite decide_False in F by (intros []; done).
  rewrite wrap_small by (unfold fits; lia). lia.
Qed.

Lemma fd_table_zero_ok : fd_table_ok fd_table_zero.
Proof. by vm_compute. Qed.

(** [free_fd] finds the lowest closed slot. *)
Lemma free_fd_spec t n : forall i,
  match free_fd t i n with
  | Some k => i <= k < i + Z.of_nat n /\ fd_slot t k = 0 /\ (forall j, i <= j < k -> fd_slot t j <> 0)
  | None => forall j, i <= j < i + Z.of_nat n -> fd_slot t j <> 0
  end.
Proof.
  induction n as [|n IH]; intros i; cbn [free_fd]; [intros; lia|].
  destruct (Z.eqb_spec (fd_slot t i) 0) as [E|E]; [split_and!; (done || lia)|].
  specialize (IH (i + 1)). destruct (free_fd t (i + 1) n) as [k|].
  - destruct IH as (? & ? & Hj). split_and!; [lia..|done|]. intros j Hij. destruct (decide (j = i)) as [->|]; [done|]. apply Hj. lia.
  - intros j Hij. destruct (decide (j = i)) as [->|]; [done|]. apply IH. lia.
Qed.

(** ** Which calls touch the descriptor tables *)

(** Splits an equation [run = Some _] of the option monad into its steps. *)
Ltac run_step H :=
  cbv beta iota zeta in H;
  lazymatch type of H with
  | (_ ≫= _) = Some _ => apply bind_Some in H as (? & ? & H)
  | (let '(_, _) := ?p in _) = Some _ => first [ is_var p; destruct p | let E := fresh "E" in destruct p eqn:E ]
  | (if ?b then _ else _) = Some _ => let B := fresh "B" in destruct b eqn:B
  | (match ?b with _ => _ end) = Some _ => let E := fresh "E" in destruct b eqn:E
  | None = Some _ => discriminate H
  | Some _ = Some _ => inversion H; clear H; subst
  end.
Ltac run H := repeat run_step H; repeat match goal with H' : _ = Some _ |- _ => run_step H' end.

Section tables.
Context {S : Type} `{FrameStore S} {V Ops : Type} `{FileSystem V Ops} (img : kernel_image) (vfs_root : Z).
Implicit Types (x : sys S) (v : V).

(** The tables after a call are the old ones, or some of them. *)
Definition keeps x x' : Prop := fd_tabs x' ⊆ fd_tabs x.

Lemma keeps_refl x : keeps x x.
Proof. unfold keeps. reflexivity. Qed.
Hint Resolve keeps_refl : core.

Lemma keeps_trans x1 x2 x3 : keeps x1 x2 -> keeps x2 x3 -> keeps x1 x3.
Proof. unfold keeps. intros. by etrans. Qed.

Lemma keeps_eq x x' : fd_tabs x' = fd_tabs x -> keeps x x'.
Proof. unfold keeps. by intros ->. Qed.

Lemma run_sched_keeps x f x' : run_sched x f = Some x' -> keeps x x'.
Proof. unfold run_sched. intros E. run E. by apply keeps_eq. Qed.

Lemma upd_proc_keeps x p f x' : upd_proc x p f = Some x' -> keeps x x'.
Proof. unfold upd_proc. intros E. run E. by apply keeps_eq. Qed.

Lemma sys_alloc_keeps x n x' a : sys_alloc x n = Some (x', a) -> keeps x x'.
Proof. unfold sys_alloc. intros E. run E. by apply keeps_eq. Qed.

Lemma sys_free_keeps x a x' : sys_free x a = Some x' -> keeps x x'.
Proof. unfold sys_free. intros E. run E. by apply keeps_eq. Qed.

(** Chains the steps that are known to keep the tables. *)
Ltac keep_fact H :=
  first [ apply run_sched_keeps in H | apply upd_proc_keeps in H | apply sys_alloc_keeps in H | apply sys_free_keeps in H ].
Ltac keep_chain :=
  unfold keeps in *; simpl in *;
  repeat first [ reflexivity | (etransitivity; [eassumption|]) | (etransitivity; [apply delete_subseteq|]) | case_match ].
Ltac keep E := run E; repeat match goal with H : _ = Some _ |- _ => keep_fact H end; keep_chain.

Lemma process_add_vma_keeps x p a b f x' : process_add_vma x p a b f = Some x' -> keeps x x'.
Proof. unfold process_add_vma. intros E. keep E. Qed.

Lemma process_create_keeps x p x' c : process_create img x p = Some (x', c) -> keeps x x'.
Proof. unfold process_create. intros E. unfold process_get_next_pid in E. keep E. Qed.

Lemma thread_destroy_keeps x t x' : thread_destroy x t = Some x' -> keeps x x'.
Proof. unfold thread_destroy. intros E. keep E. Qed.

Lemma destroy_threads_keeps n : forall x t x', destroy_threads x t n = Some x' -> keeps x x'.
Proof.
  induction n as [|n IH]; intros x t x' E; cbn [destroy_threads] in E; run E; [done|].
  eapply keeps_trans; [by eapply thread_destroy_keeps|by eapply IH].
Qed.

Lemma free_vmas_keeps n : forall x t x', free_vmas x t n = Some x' -> keeps x x'.
Proof.
  induction n as [|n IH]; intros x t x' E; cbn [free_vmas] in E; run E; [done|].
  eapply keeps_trans; [|by eapply IH]. by eapply (sys_free_keeps (with_vmas _ _)).
Qed.

Lemma unlink_loop_keeps n : forall x a b p x', unlink_loop x a b p n = Some x' -> keeps x x'.
Proof.
  induction n as [|n IH]; intros x a b p x' E; cbn [unlink_loop] in E; run E; [done..|by apply upd_proc_keeps in E|by eapply IH].
Qed.

Ltac keep_fact2 H :=
  first [ keep_fact H | apply destroy_threads_keeps in H | apply free_vmas_keeps in H | apply unlink_loop_keeps in H ].

Lemma process_destroy_keeps x p x' : process_destroy x p = Some x' -> keeps x x'.
Proof.
  unfold process_destroy. intros E. run E.
  all: repeat match goal with H : _ = Some _ |- _ => keep_fact2 H end; keep_chain.
Qed.

Lemma waitpid_loop_keeps n : forall x p a b c x' r st, waitpid_loop x p a b c n = Some (x', r, st) -> keeps x x'.
Proof.
  induction n as [|n IH]; intros x p a b c x' r st E; cbn [waitpid_loop] in E; run E;
    first [done | by eapply process_destroy_keeps | by eapply IH].
Qed.

Lemma process_exit_keeps x p c x' r : process_exit x p c = Some (x', r) -> keeps x x'.
Proof. unfold process_exit. intros E. keep E. Qed.

Lemma load_page_keeps x v file ph j x' v' ok : load_page x v file ph j = Some (x', v', ok) -> keeps x x'.
Proof. unfold load_page. intros E. keep E. Qed.

Lemma load_pages_keeps n : forall x v file ph j x' v' ok, load_pages x v file ph j n = Some (x', v', ok) -> keeps x x'.
Proof.
  induction n as [|n IH]; intros x v file ph j x' v' ok E; cbn [load_pages] in E; run E; [done| |by eapply load_page_keeps].
  eapply keeps_trans; [by eapply load_page_keeps|by eapply IH].
Qed.

Lemma load_segment_keeps x v p file ph x' v' ok : load_segment x v p file ph = Some (x', v', ok) -> keeps x x'.
Proof.
  unfold load_segment. intros E. run E. eapply keeps_trans; [by eapply process_add_vma_keeps|].
  eapply keeps_trans; [by eapply upd_proc_keeps|by eapply load_pages_keeps].
Qed.

Lemma load_segments_keeps n : forall x v p file h i x' v' ok, load_segments x v p file h i n = Some (x', v', ok) -> keeps x x'.
Proof.
  induction n as [|n IH]; intros x v p file h i x' v' ok E; cbn [load_segments] in E; run E; [done|by eapply IH| |].
  - eapply keeps_trans; [by eapply load_segment_keeps|by eapply IH].
  - by eapply load_segment_keeps.
Qed.

Lemma elf_load_keeps x v p file x' v' e r : elf_load x v p file = Some (x', v', e, r) -> keeps x x'.
Proof.
  unfold elf_load. intros E. run E; [done..|].
  match goal with H1 : upd_proc _ _ _ = _, H2 : load_segments _ _ _ _ _ _ _ = _ |- _ =>
    apply upd_proc_keeps in H1; apply load_segments_keeps in H2; exact (keeps_trans _ _ _ H1 H2) end.
Qed.

(** ** Well-formed tables are kept by every call *)

Definition tables_ok x : Prop := map_Forall (fun _ => fd_table_ok) (fd_tabs x).

Lemma tables_keep x x' : keeps x x' -> tables_ok x -> tables_ok x'.
Proof. unfold keeps, tables_ok. intros Hs Hx k t E. apply (Hx k). by apply (lookup_weaken _ _ _ _ E). Qed.

Lemma alloc_fd_table_ok x t0 x' t : alloc_fd_table x t0 = Some (x', t) -> fd_table_ok t0 -> tables_ok x -> tables_ok x'.
Proof. unfold alloc_fd_table. intros E Ht Hx. run E. case_match; [done|]. by apply map_Forall_insert_2. Qed.

Notation kst := (kst (S := S) (V := V)).
Notation handler := (handler (S := S) (V := V)).

(** [f] keeps the tables well formed; descriptors are unsigned. *)
Definition sound (f : handler) : Prop := forall s a1 a2 a3 a4 a5 a6 s' r,
  0 <= a1 -> f s a1 a2 a3 a4 a5 a6 = Some (s', r) -> tables_ok (k_sys s) -> tables_ok (k_sys s').

Ltac handler_start := intros s a1 a2 a3 a4 a5 a6 s' r Ha E Hok; unfold ret in E; run E; simpl.

Lemma sys_write_sound : sound sys_write.
Proof. unfold sys_write. by handler_start. Qed.

Lemma sys_read_sound : sound sys_read.
Proof. unfold sys_read. by handler_start. Qed.

Lemma open_slot_ok x ft t i node : fd_tabs x !! ft = Some t -> free_fd t 3 61 = Some i -> node <> 0 -> tables_ok x ->
  tables_ok (with_fds x (<[ft := FdTable (aset (fds t) i node) (u32 (open_count t + 1))]> (fd_tabs x))).
Proof.
  intros Et Ei Hn Hx. pose proof (free_fd_spec t 61 3) as F. rewrite Ei in F.
  apply map_Forall_insert_2; [|done]. apply fd_table_open; [by apply (Hx ft)|lia|tauto|done].
Qed.

Lemma sys_open_sound : sound (sys_open vfs_root).
Proof.
  unfold sys_open. handler_start; [done|..].
  all: repeat match goal with B : (_ =? 0) = false |- _ => apply Z.eqb_neq in B end.
  all: try match goal with H1 : alloc_fd_table _ _ = _, H2 : upd_proc _ _ _ = _ |- _ =>
    apply alloc_fd_table_ok in H1; [|apply fd_table_zero_ok|done]; apply upd_proc_keeps in H2;
    pose proof (tables_keep _ _ H2 H1) end.
  all: first [done | by eapply open_slot_ok].
Qed.

Lemma sys_close_sound : sound sys_close.
Proof.
  unfold sys_close. handler_start; [done|]. unfold fd_node in *. run H1.
  all: repeat match goal with B : (_ =? 0) = false |- _ => apply Z.eqb_neq in B end.
  all: simplify_eq. apply map_Forall_insert_2; [|exact Hok]. apply fd_table_close; [by eapply Hok|done|done].
Qed.

Lemma sys_mmap_sound : sound sys_mmap.
Proof. unfold sys_mmap. handler_start; [done|]. by eapply tables_keep; [eapply upd_proc_keeps|]. Qed.

Lemma sys_brk_sound : sound sys_brk.
Proof. unfold sys_brk. handler_start; [done..|]. by eapply tables_keep; [eapply upd_proc_keeps|]. Qed.

Lemma sys_exit_sound : sound sys_exit.
Proof.
  unfold sys_exit. handler_start; unfold scheduler_exit_current, process_exit_current in *; run H1;
    by eapply tables_keep; [eapply process_exit_keeps|].
Qed.

Ltac fork_fact H :=
  first [ apply upd_proc_keeps in H | apply process_create_keeps in H | apply process_destroy_keeps in H
        | apply elf_load_keeps in H | apply waitpid_loop_keeps in H | apply run_sched_keeps in H ].

(** The table of the child is a copy of the parent's. *)
Lemma sys_fork_sound : sound (sys_fork img).
Proof.
  unfold sys_fork. handler_start.
  all: repeat match goal with H' : _ = Some _ |- _ => fork_fact H' end.
  all: try solve [eapply tables_keep; [|exact Hok]; keep_chain].
  all: match goal with E : alloc_fd_table ?y _ = _, H1 : keeps _ ?y |- _ =>
    apply (tables_keep _ _ H1) in Hok; eapply alloc_fd_table_ok in E; [|by eapply Hok|done];
    eapply tables_keep; [|exact E] end.
  all: keep_chain.
Qed.

Lemma sys_execve_sound : sound (sys_execve vfs_root).
Proof.
  unfold sys_execve. handler_start.
  all: repeat match goal with H' : _ = Some _ |- _ => fork_fact H' end.
  all: (eapply tables_keep; [|exact Hok]; keep_chain).
Qed.

Lemma sys_wait4_sound : sound sys_wait4.
Proof.
  unfold sys_wait4, process_waitpid. handler_start.
  all: repeat match goal with H' : _ = Some _ |- _ => fork_fact H' end.
  all: (eapply tables_keep; [|exact Hok]; keep_chain).
Qed.

Lemma sys_nosys_sound : sound sys_nosys.
Proof. unfold sys_nosys. by handler_start. Qed.

Lemma sys_zero_sound : sound sys_zero.
Proof. unfold sys_zero. by handler_start. Qed.

Lemma get_field_sound f : sound (get_field f).
Proof. unfold get_field. by handler_start. Qed.

Lemma sys_gettid_sound : sound sys_gettid.
Proof. unfold sys_gettid. by handler_start. Qed.

Lemma sys_getcwd_sound : sound sys_getcwd.
Proof. unfold sys_getcwd. by handler_start. Qed.

Lemma sys_uname_sound : sound sys_uname.
Proof. unfold sys_uname. by handler_start. Qed.

Lemma sys_arch_prctl_sound : sound sys_arch_prctl.
Proof. unfold sys_arch_prctl. by handler_start. Qed.

Hint Resolve sys_read_sound sys_write_sound sys_open_sound sys_close_sound sys_mmap_sound sys_brk_sound sys_exit_sound
  sys_fork_sound sys_execve_sound sys_wait4_sound sys_nosys_sound sys_zero_sound get_field_sound sys_gettid_sound
  sys_getcwd_sound sys_uname_sound sys_arch_prctl_sound : nexus.

Lemma syscall_table_sound num f : syscall_table img vfs_root !! num = Some f -> sound f.
Proof.
  intros E%elem_of_list_to_map_2.
  repeat (apply elem_of_cons in E as [E|E]; [injection E as _ ->; first [exact sys_nosys_sound | exact sys_zero_sound | solve [eauto with nexus]]|]). by apply elem_of_nil in E.
Qed.

(** C18.  No system call breaks a descriptor table: if every table of the system
    has 64 slots and counts its open ones, the same holds after any call, with any
    number and any arguments, in any process, whatever the call returns; this
    covers the tables that [sys_open] and [sys_fork] make and the one that
    [sys_wait4] frees. *)
Theorem syscall_tables_ok (s : kst) (num a1 a2 a3 a4 a5 a6 : Z) (s' : kst) (r : option Z) :
  0 <= a1 -> tables_ok (k_sys s) ->
  syscall_dispatch img vfs_root s num a1 a2 a3 a4 a5 a6 = Some (s', r) -> tables_ok (k_sys s').
Proof.
  unfold syscall_dispatch. intros Ha Hok E. case_match eqn:Et; [|by inversion E; subst].
  case_match; [done|]. by eapply syscall_table_sound.
Qed.

(** ** Opening and closing *)

(** The state after [sys_open] has put [node] into slot [i] of the table at [ft]. *)
Definition opened s (v : V) (ft : Z) (t : fd_table_t) (i node : Z) : kst :=
  with_sys (with_vfs s v) (with_fds (k_sys s)
    (<[ft := FdTable (aset (fds t) i node) (u32 (open_count t + 1))]> (fd_tabs (k_sys s)))).

Lemma aset_aset {A} (l : list A) i (u w : A) : aset (aset l i u) i w = aset l i w.
Proof. unfold aset. apply list_insert_insert_eq. Qed.

Lemma aset_id (l : list Z) i : 0 <= i < alen l -> aset l i (aget 0 l i) = l.
Proof. intros Hi. unfold aset. by apply list_insert_id, aget_lookup. Qed.

(** [sys_open] and [sys_close] on a process that has a descriptor table: a
    path that names (or, with O_CREAT, makes) a node is opened on the lowest free
    descriptor from 3 on, which is returned; closing it puts the tables back as
    they were.  With no free descriptor the node is closed again and the call
    returns -EMFILE. *)
Theorem sys_open_close s (pr : process) (t : fd_table_t) path_user flags mode (path : option (list Z)) (v1 v2 : V) node :
  cur_proc s = Some pr -> fd_table pr <> 0 -> fd_tabs (k_sys s) !! fd_table pr = Some t -> fd_table_ok t ->
  user_path (k_mem s) path_user = Some path ->
  open_node vfs_root (k_vfs s) path flags = Some (v1, node) -> node <> 0 -> vfs_open v1 node = Some v2 ->
  (exists i, 3 <= i < 64 /\ fd_slot t i = 0 /\ (forall j, 3 <= j < i -> fd_slot t j <> 0) /\
     sys_open vfs_root s path_user flags mode 0 0 0 = Some (opened s v2 (fd_table pr) t i node, Some i) /\
     forall v3, vfs_close v2 node = Some v3 ->
       sys_close (opened s v2 (fd_table pr) t i node) i 0 0 0 0 0 = Some (with_vfs s v3, Some 0)) \/
  ((forall j, 3 <= j < 64 -> fd_slot t j <> 0) /\
   forall v3, vfs_close v2 node = Some v3 ->
     sys_open vfs_root s path_user flags mode 0 0 0 = Some (with_vfs s v3, Some (-24))).
Proof.
  intros Ec Hft Et Hok Ep En Hn Ev. pose proof (free_fd_spec t 61 3) as F.
  assert (Eo : forall R, (sys_open vfs_root s path_user flags mode 0 0 0 = R) = (match free_fd t 3 61 with
    | Some i => ret (opened s v2 (fd_table pr) t i node) i
    | None => v3 ← vfs_close v2 node; ret (with_sys (with_vfs s v3) (k_sys s)) (- EMFILE) end = R)).
  { intros R. unfold sys_open. rewrite Ep. cbn [mbind option_bind]. rewrite En. cbn [mbind option_bind].
    rewrite (proj2 (Z.eqb_neq node 0) Hn), Ev. cbn [mbind option_bind]. rewrite Ec. cbn [mbind option_bind].
    rewrite (proj2 (Z.eqb_neq _ 0) Hft). cbn [mbind option_bind]. rewrite Et. done. }
  destruct (free_fd t 3 61) as [i|].
  - left. exists i. destruct F as (Hi & Hs & Hj). split; [lia|]. split; [done|]. split; [done|]. rewrite Eo. split.
    { unfold ret. do 2 f_equal. f_equal. unfold swrap. rewrite Z.mod_small by lia. lia. }
    intros v3 Ecl. set (o := opened _ _ _ _ _ _).
    assert (Etab : fd_tabs (k_sys o) !! fd_table pr = Some (FdTable (aset (fds t) i node) (u32 (open_count t + 1)))) by apply lookup_insert_eq.
    assert (Ecur : cur_proc o = Some pr) by done.
    destruct Hok as [Hl Hc]. pose proof (open_slots_bound t (conj Hl Hc)) as B.
    assert (Enode : fd_slot (FdTable (aset (fds t) i node) (u32 (open_count t + 1))) i = node).
    { unfold fd_slot. simpl. rewrite aget_aset_eq; [done|]. unfold alen. rewrite Hl. lia. }
    unfold sys_close, fd_node. rewrite Ecur. cbn [mbind option_bind]. rewrite (proj2 (Z.eqb_neq _ 0) Hft).
    destruct (Z.leb_spec 64 i) as [|_]; [lia|]. rewrite Etab. cbn [mbind option_bind]. rewrite Enode.
    rewrite (proj2 (Z.eqb_neq node 0) Hn). change (k_vfs o) with v2. rewrite Ecl. cbn [mbind option_bind].
    unfold ret. do 2 f_equal. destruct s as [[k h a b c d e] v m fb]. unfold with_sys, with_vfs, with_fds, o, opened in *. simpl in *.
    f_equal. f_equal. rewrite insert_insert_eq. apply insert_id. rewrite Et. f_equal. destruct t as [l n]. simpl in *.
    rewrite aset_aset. f_equal; [symmetry; rewrite <- Hs; unfold fd_slot; simpl; apply aset_id; unfold alen; rewrite Hl; lia|].
    rewrite (wrap_small 32 (n + 1)) by (unfold fits; lia). rewrite wrap_small by (unfold fits; lia). lia.
  - right. split; [intros j Hj; apply F; lia|]. intros v3 Ecl. rewrite Eo, Ecl. cbn [mbind option_bind]. unfold ret.
    by destruct s.
Qed.

(** C19.  A descriptor that is out of range or closed, in a process with or without a
    table, gives -EBADF in [sys_close], and in [sys_read] and [sys_write] unless the
    buffer is NULL or the count 0: these are answered with 0 before the descriptor is
    looked at.  A number with no handler gives -ENOSYS.  Nothing changes in any of
    these cases. *)
Theorem syscall_errors s (pr : process) fd buf count :
  cur_proc s = Some pr ->
  (fd_table pr = 0 \/ 64 <= fd \/ exists t, fd_tabs (k_sys s) !! fd_table pr = Some t /\ fd_slot t fd = 0) ->
  let transfer := if decide (buf = 0 \/ count = 0) then 0 else -9 in
  syscall_dispatch img vfs_root s 0 fd buf count 0 0 0 = Some (s, Some transfer) /\
  syscall_dispatch img vfs_root s 1 fd buf count 0 0 0 = Some (s, Some transfer) /\
  syscall_dispatch img vfs_root s 3 fd 0 0 0 0 0 = Some (s, Some (-9)) /\
  forall num a1 a2 a3 a4 a5 a6, syscall_table img vfs_root !! num = None ->
    syscall_dispatch img vfs_root s num a1 a2 a3 a4 a5 a6 = Some (s, Some (-38)).
Proof.
  intros Ec Hfd transfer.
  assert (En : fd_node s fd = Some 0).
  { unfold fd_node. rewrite Ec. cbn [mbind option_bind]. destruct (Z.eqb_spec (fd_table pr) 0); [done|].
    destruct (Z.leb_spec 64 fd); [done|]. destruct Hfd as [?|[?|(t & -> & <-)]]; [lia..|done]. }
  assert (Hbc : transfer = if (buf =? 0) || (count =? 0) then 0 else -9)
    by (unfold transfer; destruct (Z.eqb_spec buf 0), (Z.eqb_spec count 0); cbn [orb]; case_decide; tauto || done).
  clearbody transfer. subst transfer. split_and!.
  - change (sys_read s fd buf count 0 0 0 = Some (s, Some (if (buf =? 0) || (count =? 0) then 0 else -9))). unfold sys_read. rewrite En. by case_match.
  - change (sys_write s fd buf count 0 0 0 = Some (s, Some (if (buf =? 0) || (count =? 0) then 0 else -9))). unfold sys_write. rewrite En. by case_match.
  - change (sys_close s fd 0 0 0 0 0 = Some (s, Some (-9))). unfold sys_close. by rewrite En.
  - intros num a1 a2 a3 a4 a5 a6 Et. unfold syscall_dispatch. destruct (512 <=? num); [done|]. cbv zeta.
    set (q := _ !! num) in *. by rewrite Et.
Qed.

End tables.

(** ** A process with two open files, one of them /tmp/a *)

Definition demo_fds : fd_table_t := FdTable (aset (aset (replicate 64 0) 0 5552) 3 7008) 2.

Definition demo_pcb : process := Process 4 1 PROC_ALIVE 0 0 0 0 0 0 0 256 0 0 0x400000 0x402000 0 0 0 0.

Definition demo_caller : sys pmm :=
  Sys (Sched ∅ {[ 64 := demo_pcb ]} [] [] (Cpu 32 64 0 0 0 0) 0 0 0 0 0) demo_heap 64 5 1 ∅ {[ 256 := demo_fds ]}.

(** "/tmp/a" at address 8192. *)
Definition demo_mem : bmem := list_to_map (zip (seqZ 8192 7) (demo_tmp ++ [SLASH; 97; 0])).

Definition demo_call : kst (S := pmm) (V := ramfs Z) := Kst demo_caller demo1 demo_mem 0.

Lemma demo_fds_ok : fd_table_ok demo_fds.
Proof. by vm_compute. Qed.

Lemma demo_tables_ok : tables_ok (k_sys demo_call).
Proof. apply map_Forall_singleton, demo_fds_ok. Qed.

Lemma syscall_tables_ok_witness :
  exists s', syscall_dispatch demo_image 4096 demo_call 2 8192 0 0 0 0 0 = Some (s', Some 4) /\ tables_ok (k_sys s').
Proof.
  destruct (syscall_dispatch demo_image 4096 demo_call 2 8192 0 0 0 0 0) as [[s' r]|] eqn:E; [|vm_compute in E; discriminate E].
  assert (Er : snd <$> syscall_dispatch demo_image 4096 demo_call 2 8192 0 0 0 0 0 = Some (Some 4)) by (vm_compute; reflexivity).
  rewrite E in Er. injection Er as ->. exists s'. split; [reflexivity|].
  apply (syscall_tables_ok demo_image 4096 demo_call 2 8192 0 0 0 0 0 s' (Some 4)); [lia|exact demo_tables_ok|exact E].
Defined.

Lemma sys_open_close_witness :
  exists i, 3 <= i < 64 /\ fd_slot demo_fds i = 0 /\
    sys_open 4096 demo_call 8192 0 0 0 0 0 = Some (opened demo_call demo1 256 demo_fds i 7008, Some i).
Proof.
  destruct (sys_open_close 4096 demo_call demo_pcb demo_fds 8192 0 0 (Some (demo_tmp ++ [SLASH; 97])) demo1 demo1 7008)
    as [(i & Hi & Hs & _ & E & _)|[Hfull _]].
  - vm_compute. reflexivity.
  - vm_compute. discriminate.
  - vm_compute. reflexivity.
  - exact demo_fds_ok.
  - vm_compute. reflexivity.
  - vm_compute. reflexivity.
  - lia.
  - vm_compute. reflexivity.
  - exists i. split; [exact Hi|]. split; [exact Hs|]. exact E.
  - exfalso. apply (Hfull 4); [lia|]. vm_compute. reflexivity.
Defined.

Lemma syscall_errors_witness :
  syscall_dispatch demo_image 4096 demo_call 0 9 1 1 0 0 0 = Some (demo_call, Some (-9)) /\
  syscall_dispatch demo_image 4096 demo_call 3 9 0 0 0 0 0 = Some (demo_call, Some (-9)) /\
  syscall_dispatch demo_image 4096 demo_call 19 1 2 3 0 0 0 = Some (demo_call, Some (-38)).
Proof.
  destruct (syscall_errors demo_image 4096 demo_call demo_pcb 9 1 1) as (R & _ & E & U).
  - vm_compute. reflexivity.
  - right. right. exists demo_fds. split; vm_compute; reflexivity.
  - split; [exact R|]. split; [exact E|]. apply U. vm_compute. reflexivity.
Defined.
