(* ===== verification/Init.v ===== *)
(** The first user process, kernel/src/syscall/init_process.c, over the processes,
    the ELF loader and any file system of the class.

    The modules of the boot loader are a list of path pointer, size and address
    into the accessible memory.  Console messages are left out; the mode switch of
    [usermode_entry_stub] is the machine's. *)
From stdpp Require Import prelude gmap list.
From Stdlib Require Import ZArith Lia.
From S2P Require Import Prelude Bitmap Pmm Frames Vmm Heap Task Sched KString Vfs Process Elf Syscall.

Open Scope Z_scope.

(** "/init" and its NUL. *)
Definition argv0_str : list Z := [47; 105; 110; 105; 116; 0].

(** "/dev/tty0" and "/init", as paths. *)
Definition path_tty0 : list Z := [47; 100; 101; 118; 47; 116; 116; 121; 48].
Definition path_init : list Z := [47; 105; 110; 105; 116].

Record limine_file := LimineFile { lf_path : Z; lf_size : Z; lf_address : Z }.

Section init.
Context {S : Type} `{FrameStore S} {V Ops : Type} `{FileSystem V Ops} (img : kernel_image) (vfs_root : Z).

(** The contents of the initial stack page, written from its end down; the
    result is the user's stack pointer. *)
Definition write_init_stack (m : vmm S) (phys top_page : Z) : vmm S * Z :=
  let page_end := u64 (phys + hhdm_off m + 4096) in
  let p1 := u64 (page_end - 6) in
  let m1 := set_store m (store_bytes_at (store m) (u64 (p1 - hhdm_off m)) argv0_str) in
  let argv0_user_addr := u64 (top_page + (4096 - (page_end - p1))) in
  let sp_val := Z.ldiff p1 0xF in
  let '(m2, p2) := push_all m1 sp_val [0; 0; argv0_user_addr; 1] in
  (m2, u64 (top_page + (4096 - (page_end - p2)))).

Definition setup_init_stack (x : sys S) (proc stack_top : Z) : option (sys S * Z) :=
  pr ← procs (sk x) !! proc;
  let saved_cr3 := cr3 (vm x) in
  let m1 := write_cr3 (vm x) (proc_cr3 pr) in
  let top_page := page_down stack_top in
  let '(st, phys) := alloc_page (store m1) in
  let m2 := set_store m1 st in
  if phys =? 0 then Some (with_vm x (write_cr3 m2 saved_cr3), stack_top)
  else
    let m3 := vmm_map_page m2 top_page phys (Z.lor (Z.lor PAGE_PRESENT PAGE_WRITABLE) PAGE_USER) in
    let '(m4, user_sp) := write_init_stack m3 phys top_page in
    Some (with_vm x (write_cr3 m4 saved_cr3), user_sp).

(** The three standard descriptors on the terminal, which is opened three times. *)
Definition open_stdio (x : sys S) (v : V) (ft tty0 : Z) : option (sys S * V) :=
  if tty0 =? 0 then Some (x, v)
  else
    v1 ← vfs_open v tty0;
    v2 ← vfs_open v1 tty0;
    v3 ← vfs_open v2 tty0;
    t ← fd_tabs x !! ft;
    Some (with_fds x (<[ft := FdTable (aset (aset (aset (fds t) 0 tty0) 1 tty0) 2 tty0) 3]> (fd_tabs x)), v3).

(** The first module whose path contains "init" becomes the file /init; [lit] is
    the address of that string. *)
Fixpoint install_init (mem : bmem) (lit : Z) (v : V) (mods : list limine_file) : option V :=
  match mods with
  | [] => Some v
  | f :: mods =>
      r ← (if lf_path f =? 0 then Some 0 else strstr mem (lf_path f) lit);
      if r =? 0 then install_init mem lit v mods
      else
        '(v1, node) ← vfs_create vfs_root v (Some path_init);
        if node =? 0 then Some v1
        else
          v2 ← vfs_open v1 node;
          '(v3, _) ← vfs_write v2 node 0 (lf_size f) (user_bytes mem (lf_address f) (Z.to_nat (lf_size f)));
          vfs_close v3 node
  end.

(** The thread that enters user mode. *)
Definition start_init_thread (x : sys S) (init entry user_sp : Z) : option (sys S) :=
  '(x1, t) ← thread_create img x init (usermode_entry_stub img) entry user_sp;
  if t =? 0 then Some x1
  else
    x2 ← upd_thr x1 t (fun th => set_priority th SCHED_PRIORITY_HIGH);
    run_sched x2 (fun k => scheduler_enqueue k t).

Definition init_process_start (x : sys S) (v : V) (mem : bmem) (lit : Z) (mods : list limine_file) : option (sys S * V) :=
  '(x1, init) ← process_create img x 0;
  if init =? 0 then Some (x1, v)
  else
    let '(m, root) := vmm_clone_kernel_space (vm x1) in
    x2 ← upd_proc (with_vm x1 m) init (fun pr => set_proc_cr3 pr root);
    '(x3, ft) ← alloc_fd_table x2 fd_table_zero;
    x4 ← upd_proc x3 init (fun pr => set_fd_table pr ft);
    '(v1, tty0) ← vfs_resolve_path vfs_root v (Some path_tty0);
    '(x5, v2) ← open_stdio x4 v1 ft tty0;
    v3 ← install_init mem lit v2 mods;
    '(v4, init_bin) ← vfs_resolve_path vfs_root v3 (Some path_init);
    if init_bin =? 0 then Some (x5, v4)
    else
      '(x6, v5, entry, r) ← elf_load x5 v4 init init_bin;
      if negb (r =? 0) then Some (x6, v5)
      else
        v6 ← vfs_close v5 init_bin;
        '(x7, user_sp) ← setup_init_stack x6 init USER_STACK_TOP;
        x8 ← upd_proc x7 init (fun pr => set_stack pr USER_STACK_TOP USER_STACK_TOP);
        x9 ← start_init_thread x8 init (default 0 entry) user_sp;
        Some (x9, v6).

End init.

(** ** The initial stack *)

Section stack.
Context {S : Type} `{FrameLaws S}.

(** Decides the equations between word addresses. *)
Ltac decide_words :=
  repeat match goal with |- context [decide (?a = ?b)] =>
    first [rewrite (decide_True (P := a = b)) by lia | rewrite (decide_False (P := a = b)) by lia] end.

(** C21.  The stack page of the first process, for a frame at [phys] that is mapped at
    the page [top_page]: the stack pointer is 16-byte aligned, 48 bytes below the
    end of the page; from there on lie argc = 1, argv[0] = the address of the
    string, the NULLs that end argv and envp, and "/init" with its NUL in the last
    six bytes; nothing is written outside. *)
Theorem init_stack_layout (m : vmm S) (phys top_page : Z) :
  is_frame phys -> 0 <= hhdm_off m -> hhdm_off m mod 4096 = 0 -> phys + hhdm_off m + 4096 < 2 ^ 64 ->
  0 <= top_page -> top_page mod 4096 = 0 -> top_page + 4096 < 2 ^ 64 ->
  let '(m', sp) := write_init_stack m phys top_page in
  let word i := read64 (store m') (phys + (sp - top_page) + 8 * i) in
  sp = top_page + 4048 /\ sp mod 16 = 0 /\
  word 0 = 1 /\ word 1 = top_page + 4090 /\ word 2 = 0 /\ word 3 = 0 /\
  (forall i, 0 <= i < 6 -> read_byte (store m') (phys + 4090 + i) = aget 0 argv0_str i) /\
  (forall k, k mod 8 = 0 -> k < phys + 4048 \/ phys + 4080 <= k < phys + 4088 \/ phys + 4096 <= k -> read64 (store m') k = read64 (store m) k) /\
  cr3 m' = cr3 m /\ hhdm_off m' = hhdm_off m.
Proof.
  intros [Hp1 Hp2] Hh1 Hh2 Hw Ht1 Ht2 Ht3. unfold write_init_stack.
  rewrite (wrap_small 64 (phys + hhdm_off m + 4096)) by (unfold fits; lia).
  rewrite (wrap_small 64 (phys + hhdm_off m + 4096 - 6)) by (unfold fits; lia).
  rewrite (wrap_small 64 (phys + hhdm_off m + 4096 - 6 - hhdm_off m)) by (unfold fits; lia).
  replace (phys + hhdm_off m + 4096 - 6 - hhdm_off m) with (phys + 4090) by lia.
  rewrite (wrap_small 64 (top_page + _)) by (unfold fits; lia).
  replace (top_page + (4096 - (phys + hhdm_off m + 4096 - (phys + hhdm_off m + 4096 - 6)))) with (top_page + 4090) by lia.
  assert (Hal : Z.ldiff (phys + hhdm_off m + 4096 - 6) 0xF = phys + hhdm_off m + 4080).
  { change 0xF with (Z.ones 4). rewrite Z.ldiff_ones_r, Z.shiftr_div_pow2, Z.shiftl_mul_pow2 by lia. zmod. }
  rewrite Hal. unfold push_all. cbn [foldl]. unfold push. cbn [store set_store hhdm_off].
  repeat match goal with |- context [u64 ?x] => rewrite (wrap_small 64 x) by (unfold fits; lia) end.
  split; [lia|]. split; [zmod|].
  replace (phys + (top_page + (4096 - (phys + hhdm_off m + 4096 - (phys + hhdm_off m + 4080 - 8 - 8 - 8 - 8))) - top_page)) with (phys + 4048) by lia.
  rewrite !write64_read. cbn [store set_store cr3 hhdm_off].
  decide_words. split_and!; try done.
  - intros i Hi. unfold read_byte. rewrite !write64_read.
    assert (Hm : (phys + 4090 + i) mod 8 = 2 + i) by zmod. rewrite Hm.
    replace (phys + 4090 + i - (2 + i)) with (phys + 4088) by lia. decide_words.
    pose proof (store_bytes_read argv0_str (store m) (phys + 4090) (phys + 4090 + i)) as B. unfold read_byte in B. rewrite Hm in B.
    replace (phys + 4090 + i - (2 + i)) with (phys + 4088) in B by lia. rewrite B.
    + change (alen argv0_str) with 6. rewrite (proj2 (Z.leb_le _ _)), (proj2 (Z.ltb_lt _ _)) by lia. cbn [andb]. f_equal. lia.
    + unfold argv0_str. repeat (apply Forall_cons; split; [lia|]). by apply Forall_nil.
  - intros k Hk Hr. rewrite !write64_read. decide_words. apply store_bytes_word; [done|]. change (alen argv0_str) with 6. zmod.
Qed.

End stack.

Lemma init_stack_layout_witness :
  (write_init_stack (Vmm demo_pmm 4096 0xFFFF800000000000) 8192 0x7FFFFFFFF000).2 = 0x7FFFFFFFFFD0 /\
  read64 (store (write_init_stack (Vmm demo_pmm 4096 0xFFFF800000000000) 8192 0x7FFFFFFFF000).1) (8192 + 4048) = 1.
Proof.
  pose proof (init_stack_layout (Vmm demo_pmm 4096 0xFFFF800000000000) 8192 0x7FFFFFFFF000) as L.
  destruct (write_init_stack _ _ _) as [m' sp]. destruct L as (E & _ & W & _).
  - split; [vm_compute; reflexivity|lia].
  - cbn. lia.
  - vm_compute. reflexivity.
  - cbn. lia.
  - lia.
  - vm_compute. reflexivity.
  - lia.
  - split; [rewrite E; vm_compute; reflexivity|]. cbn [fst]. rewrite <- W. rewrite E. f_equal.
Defined.
