(* ===== verification/Framebuffer.v ===== *)
(** The framebuffer driver, kernel/src/drivers/video/framebuffer.c and framebuffer.h.

    The pixel memory is a map from 32-bit word indices to colours; a store
    outside its domain is [None].  Index arithmetic has the width of the code: 64
    bits where a scan line is [pitch / 4], 32 bits where it is first stored in
    [pixels_per_row]. *)
From stdpp Require Import prelude gmap list.
From Stdlib Require Import ZArith Lia.
From S2P Require Import Prelude.

Open Scope Z_scope.

Definition FB_DEFAULT_BG : Z := 0x00300347.
Definition FB_DEFAULT_FG : Z := 0x00AAAAAA.
Definition FONT_WIDTH : Z := 8.
Definition FONT_HEIGHT : Z := 16.

(** [fb_info] and [fb_initialized]. *)
Record framebuffer := Framebuffer {
  fb_mem : gmap Z Z;
  fb_width : Z;
  fb_height : Z;
  fb_pitch : Z;
  fb_initialized : bool }.

Definition set_fb_mem (f : framebuffer) (m : gmap Z Z) : framebuffer :=
  Framebuffer m (fb_width f) (fb_height f) (fb_pitch f) (fb_initialized f).

(** The glyphs of 0x20 to 0x7E, a byte per row; those before are blank. *)
Definition printable_glyphs : list (list Z) :=
  [[0; 0; 0; 0; 0; 0; 0; 0; 0; 0; 0; 0; 0; 0; 0; 0];
   [0; 0; 24; 60; 60; 60; 24; 24; 24; 0; 24; 24; 0; 0; 0; 0];
   [0; 99; 99; 99; 34; 0; 0; 0; 0; 0; 0; 0; 0; 0; 0; 0];
   [0; 0; 0; 54; 54; 127; 54; 54; 54; 127; 54; 54; 0; 0; 0; 0];
   [12; 12; 62; 99; 97; 96; 62; 3; 3; 67; 99; 62; 12; 12; 0; 0];
   [0; 0; 0; 0; 97; 99; 6; 12; 24; 48; 99; 67; 0; 0; 0; 0];
   [0; 0; 28; 54; 54; 28; 110; 59; 51; 51; 51; 110; 0; 0; 0; 0];
   [0; 12; 12; 12; 24; 0; 0; 0; 0; 0; 0; 0; 0; 0; 0; 0];
   [0; 0; 12; 24; 48; 48; 48; 48; 48; 48; 24; 12; 0; 0; 0; 0];
   [0; 0; 48; 24; 12; 12; 12; 12; 12; 12; 24; 48; 0; 0; 0; 0];
   [0; 0; 0; 0; 0; 102; 60; 255; 60; 102; 0; 0; 0; 0; 0; 0];
   [0; 0; 0; 0; 0; 24; 24; 126; 24; 24; 0; 0; 0; 0; 0; 0];
   [0; 0; 0; 0; 0; 0; 0; 0; 0; 0; 24; 24; 48; 0; 0; 0];
   [0; 0; 0; 0; 0; 0; 0; 254; 0; 0; 0; 0; 0; 0; 0; 0];
   [0; 0; 0; 0; 0; 0; 0; 0; 0; 0; 24; 24; 0; 0; 0; 0];
   [0; 0; 0; 0; 1; 3; 6; 12; 24; 48; 96; 64; 0; 0; 0; 0];
   [0; 0; 62; 99; 99; 103; 111; 123; 115; 99; 99; 62; 0; 0; 0; 0];
   [0; 0; 12; 28; 60; 12; 12; 12; 12; 12; 12; 63; 0; 0; 0; 0];
   [0; 0; 62; 99; 3; 3; 6; 12; 24; 48; 99; 127; 0; 0; 0; 0];
   [0; 0; 62; 99; 3; 3; 30; 3; 3; 3; 99; 62; 0; 0; 0; 0];
   [0; 0; 6; 14; 30; 54; 102; 127; 6; 6; 6; 15; 0; 0; 0; 0];
   [0; 0; 127; 96; 96; 96; 126; 3; 3; 3; 99; 62; 0; 0; 0; 0];
   [0; 0; 28; 48; 96; 96; 126; 99; 99; 99; 99; 62; 0; 0; 0; 0];
   [0; 0; 127; 99; 3; 3; 6; 12; 24; 24; 24; 24; 0; 0; 0; 0];
   [0; 0; 62; 99; 99; 99; 62; 99; 99; 99; 99; 62; 0; 0; 0; 0];
   [0; 0; 62; 99; 99; 99; 63; 3; 3; 3; 6; 60; 0; 0; 0; 0];
   [0; 0; 0; 0; 24; 24; 0; 0; 0; 24; 24; 0; 0; 0; 0; 0];
   [0; 0; 0; 0; 24; 24; 0; 0; 0; 24; 24; 48; 0; 0; 0; 0];
   [0; 0; 0; 6; 12; 24; 48; 96; 48; 24; 12; 6; 0; 0; 0; 0];
   [0; 0; 0; 0; 0; 126; 0; 0; 126; 0; 0; 0; 0; 0; 0; 0];
   [0; 0; 0; 96; 48; 24; 12; 6; 12; 24; 48; 96; 0; 0; 0; 0];
   [0; 0; 62; 99; 99; 6; 12; 12; 12; 0; 12; 12; 0; 0; 0; 0];
   [0; 0; 0; 62; 99; 99; 111; 111; 111; 110; 96; 62; 0; 0; 0; 0];
   [0; 0; 8; 28; 54; 99; 99; 127; 99; 99; 99; 99; 0; 0; 0; 0];
   [0; 0; 126; 51; 51; 51; 62; 51; 51; 51; 51; 126; 0; 0; 0; 0];
   [0; 0; 30; 51; 97; 96; 96; 96; 96; 97; 51; 30; 0; 0; 0; 0];
   [0; 0; 124; 54; 51; 51; 51; 51; 51; 51; 54; 124; 0; 0; 0; 0];
   [0; 0; 127; 51; 49; 52; 60; 52; 48; 49; 51; 127; 0; 0; 0; 0];
   [0; 0; 127; 51; 49; 52; 60; 52; 48; 48; 48; 120; 0; 0; 0; 0];
   [0; 0; 30; 51; 97; 96; 96; 111; 99; 99; 55; 29; 0; 0; 0; 0];
   [0; 0; 99; 99; 99; 99; 127; 99; 99; 99; 99; 99; 0; 0; 0; 0];
   [0; 0; 60; 24; 24; 24; 24; 24; 24; 24; 24; 60; 0; 0; 0; 0];
   [0; 0; 15; 6; 6; 6; 6; 6; 6; 102; 102; 60; 0; 0; 0; 0];
   [0; 0; 115; 51; 54; 54; 60; 54; 54; 51; 51; 115; 0; 0; 0; 0];
   [0; 0; 120; 48; 48; 48; 48; 48; 48; 49; 51; 127; 0; 0; 0; 0];
   [0; 0; 99; 119; 127; 127; 107; 99; 99; 99; 99; 99; 0; 0; 0; 0];
   [0; 0; 99; 115; 123; 127; 111; 103; 99; 99; 99; 99; 0; 0; 0; 0];
   [0; 0; 62; 99; 99; 99; 99; 99; 99; 99; 99; 62; 0; 0; 0; 0];
   [0; 0; 126; 51; 51; 51; 62; 48; 48; 48; 48; 120; 0; 0; 0; 0];
   [0; 0; 62; 99; 99; 99; 99; 99; 99; 107; 111; 62; 6; 3; 0; 0];
   [0; 0; 126; 51; 51; 51; 62; 54; 54; 51; 51; 115; 0; 0; 0; 0];
   [0; 0; 62; 99; 99; 48; 28; 6; 3; 99; 99; 62; 0; 0; 0; 0];
   [0; 0; 255; 219; 153; 24; 24; 24; 24; 24; 24; 60; 0; 0; 0; 0];
   [0; 0; 99; 99; 99; 99; 99; 99; 99; 99; 99; 62; 0; 0; 0; 0];
   [0; 0; 99; 99; 99; 99; 99; 99; 99; 54; 28; 8; 0; 0; 0; 0];
   [0; 0; 99; 99; 99; 99; 107; 107; 107; 127; 54; 54; 0; 0; 0; 0];
   [0; 0; 99; 99; 54; 54; 28; 28; 54; 54; 99; 99; 0; 0; 0; 0];
   [0; 0; 195; 195; 102; 102; 60; 24; 24; 24; 24; 60; 0; 0; 0; 0];
   [0; 0; 127; 99; 67; 6; 12; 24; 48; 97; 99; 127; 0; 0; 0; 0];
   [0; 0; 60; 48; 48; 48; 48; 48; 48; 48; 48; 60; 0; 0; 0; 0];
   [0; 0; 0; 64; 96; 48; 24; 12; 6; 3; 1; 0; 0; 0; 0; 0];
   [0; 0; 60; 12; 12; 12; 12; 12; 12; 12; 12; 60; 0; 0; 0; 0];
   [8; 28; 54; 99; 0; 0; 0; 0; 0; 0; 0; 0; 0; 0; 0; 0];
   [0; 0; 0; 0; 0; 0; 0; 0; 0; 0; 0; 0; 255; 0; 0; 0];
   [0; 24; 24; 12; 0; 0; 0; 0; 0; 0; 0; 0; 0; 0; 0; 0];
   [0; 0; 0; 0; 0; 60; 6; 62; 102; 102; 102; 59; 0; 0; 0; 0];
   [0; 0; 112; 48; 48; 60; 54; 51; 51; 51; 51; 110; 0; 0; 0; 0];
   [0; 0; 0; 0; 0; 62; 99; 96; 96; 96; 99; 62; 0; 0; 0; 0];
   [0; 0; 14; 6; 6; 30; 54; 102; 102; 102; 102; 59; 0; 0; 0; 0];
   [0; 0; 0; 0; 0; 62; 99; 127; 96; 96; 99; 62; 0; 0; 0; 0];
   [0; 0; 28; 54; 50; 48; 124; 48; 48; 48; 48; 120; 0; 0; 0; 0];
   [0; 0; 0; 0; 0; 59; 102; 102; 102; 102; 62; 6; 102; 60; 0; 0];
   [0; 0; 112; 48; 48; 54; 59; 51; 51; 51; 51; 115; 0; 0; 0; 0];
   [0; 0; 12; 12; 0; 28; 12; 12; 12; 12; 12; 30; 0; 0; 0; 0];
   [0; 0; 6; 6; 0; 14; 6; 6; 6; 6; 6; 102; 102; 60; 0; 0];
   [0; 0; 112; 48; 48; 51; 54; 60; 60; 54; 51; 115; 0; 0; 0; 0];
   [0; 0; 28; 12; 12; 12; 12; 12; 12; 12; 12; 30; 0; 0; 0; 0];
   [0; 0; 0; 0; 0; 110; 127; 107; 107; 107; 107; 107; 0; 0; 0; 0];
   [0; 0; 0; 0; 0; 110; 51; 51; 51; 51; 51; 51; 0; 0; 0; 0];
   [0; 0; 0; 0; 0; 62; 99; 99; 99; 99; 99; 62; 0; 0; 0; 0];
   [0; 0; 0; 0; 0; 110; 51; 51; 51; 51; 62; 48; 48; 120; 0; 0];
   [0; 0; 0; 0; 0; 59; 102; 102; 102; 102; 62; 6; 6; 15; 0; 0];
   [0; 0; 0; 0; 0; 110; 59; 51; 48; 48; 48; 120; 0; 0; 0; 0];
   [0; 0; 0; 0; 0; 62; 99; 48; 28; 6; 99; 62; 0; 0; 0; 0];
   [0; 0; 8; 24; 24; 126; 24; 24; 24; 24; 27; 14; 0; 0; 0; 0];
   [0; 0; 0; 0; 0; 102; 102; 102; 102; 102; 102; 59; 0; 0; 0; 0];
   [0; 0; 0; 0; 0; 99; 99; 99; 99; 54; 28; 8; 0; 0; 0; 0];
   [0; 0; 0; 0; 0; 99; 99; 107; 107; 107; 127; 54; 0; 0; 0; 0];
   [0; 0; 0; 0; 0; 99; 54; 28; 28; 54; 99; 99; 0; 0; 0; 0];
   [0; 0; 0; 0; 0; 99; 99; 99; 99; 99; 63; 3; 6; 60; 0; 0];
   [0; 0; 0; 0; 0; 127; 102; 12; 24; 48; 99; 127; 0; 0; 0; 0];
   [0; 0; 14; 24; 24; 24; 112; 24; 24; 24; 24; 14; 0; 0; 0; 0];
   [0; 0; 24; 24; 24; 24; 0; 24; 24; 24; 24; 24; 0; 0; 0; 0];
   [0; 0; 112; 24; 24; 24; 14; 24; 24; 24; 24; 112; 0; 0; 0; 0];
   [0; 0; 59; 110; 0; 0; 0; 0; 0; 0; 0; 0; 0; 0; 0; 0]].

Definition vga_font (c row : Z) : Z :=
  if c <? 0x20 then 0 else aget 0 (aget [] printable_glyphs (c - 0x20)) row.

(** A counting loop whose body may fail. *)
Fixpoint each {A} (f : Z -> A -> option A) (l : list Z) (a : A) : option A :=
  match l with [] => Some a | i :: l => a' ← f i a; each f l a' end.

Definition store_pixel (f : framebuffer) (i color : Z) : option framebuffer :=
  _ ← fb_mem f !! i; Some (set_fb_mem f (<[i := color]> (fb_mem f))).

(** The response of the boot loader: the width, the height, the pitch and the
    memory of each framebuffer; NULL is [None]. *)
Definition framebuffer_init (resp : option (list (Z * Z * Z * gmap Z Z))) (f : framebuffer) : framebuffer * Z :=
  match resp with
  | Some ((w, h, p, m) :: _) => (Framebuffer m w h p true, 0)
  | _ => (f, -1)
  end.

Definition framebuffer_get_info (f : framebuffer) : framebuffer := f.

Definition framebuffer_put_pixel (f : framebuffer) (x y color : Z) : option framebuffer :=
  if negb (fb_initialized f) then Some f
  else if (fb_width f <=? x) || (fb_height f <=? y) then Some f
  else store_pixel f (u64 (u64 (y * (fb_pitch f / 4)) + x)) color.

Definition framebuffer_clear (f : framebuffer) (color : Z) : option framebuffer :=
  if negb (fb_initialized f) then Some f
  else
    each (fun y => each (fun x f => store_pixel f (u64 (u64 (y * (fb_pitch f / 4)) + x)) color) (seqZ 0 (fb_width f)))
      (seqZ 0 (fb_height f)) f.

(** A row is copied pixel by pixel. *)
Definition copy_row (width ppr font_height y : Z) (f : framebuffer) : option framebuffer :=
  each (fun x f =>
    c ← fb_mem f !! (u32 (u32 (y + font_height) * ppr) + x);
    store_pixel f (u32 (y * ppr) + x) c) (seqZ 0 width) f.

(** The 32-bit counter [x] never reaches a width of 2^32 or more. *)
Definition framebuffer_scroll (f : framebuffer) (font_height : Z) : option framebuffer :=
  if negb (fb_initialized f) then Some f
  else if 2 ^ 32 <=? fb_width f then None
  else
    let pixels_per_row := u32 (fb_pitch f / 4) in
    let rows_to_copy := u32 (fb_height f - font_height) in
    f1 ← each (copy_row (fb_width f) pixels_per_row font_height) (seqZ 0 rows_to_copy) f;
    each (fun y => each (fun x f => store_pixel f (u32 (u32 (y * pixels_per_row) + x)) FB_DEFAULT_BG) (seqZ 0 (fb_width f)))
      (seqZ rows_to_copy (u32 (fb_height f) - rows_to_copy)) f1.

(** The colour of a pixel of a glyph; the most significant bit is leftmost. *)
Definition glyph_pixel (c fg bg col row : Z) : Z :=
  let uc := if 0x7E <? c then 63 else c in
  if has_flag (vga_font uc row) (Z.shiftr 0x80 col) then fg else bg.

Definition framebuffer_draw_char (f : framebuffer) (px py c fg bg : Z) : option framebuffer :=
  if negb (fb_initialized f) then Some f
  else
    let pixels_per_row := u32 (fb_pitch f / 4) in
    each (fun row => each (fun col f =>
      let x := u32 (px + col) in
      let y := u32 (py + row) in
      if (fb_width f <=? x) || (fb_height f <=? y) then Some f
      else store_pixel f (u32 (u32 (y * pixels_per_row) + x)) (glyph_pixel c fg bg col row)) (seqZ 0 FONT_WIDTH))
      (seqZ 0 FONT_HEIGHT) f.

Definition framebuffer_get_text_dimensions (f : framebuffer) : Z * Z :=
  (u32 (fb_width f / FONT_WIDTH), u32 (fb_height f / FONT_HEIGHT)).

(** ** Theorems *)

(** A geometry the driver can address, and memory for all of it. *)
Record fb_ok (f : framebuffer) : Prop := FbOk {
  ok_init : fb_initialized f = true;
  ok_width : 0 < fb_width f <= fb_pitch f / 4;
  ok_height : 0 < fb_height f;
  ok_size : fb_height f * (fb_pitch f / 4) < 2 ^ 32;
  ok_mem : forall i, 0 <= i < fb_height f * (fb_pitch f / 4) -> is_Some (fb_mem f !! i) }.

Definition on_screen (f : framebuffer) (x y : Z) : Prop := 0 <= x < fb_width f /\ 0 <= y < fb_height f.

(** What the screen shows at a point. *)
Definition pixel (f : framebuffer) (x y : Z) : Z := default 0 (fb_mem f !! (y * (fb_pitch f / 4) + x)).

(** Same screen, other contents. *)
Definition same_screen (f f' : framebuffer) : Prop :=
  fb_width f' = fb_width f /\ fb_height f' = fb_height f /\ fb_pitch f' = fb_pitch f /\ fb_initialized f' = fb_initialized f /\
  dom (fb_mem f') = dom (fb_mem f).

#[export] Instance same_screen_refl : Reflexive same_screen.
Proof. intros f. by repeat split. Qed.

#[export] Instance same_screen_trans : Transitive same_screen.
Proof. intros f g h (? & ? & ? & ? & ?) (? & ? & ? & ? & ?). repeat split; congruence. Qed.

Lemma fb_ok_same f f' : fb_ok f -> same_screen f f' -> fb_ok f'.
Proof.
  intros [] (Ew & Eh & Ep & Ei & Ed). split; rewrite ?Ew, ?Eh, ?Ep, ?Ei; try done.
  intros i Hi. apply elem_of_dom. rewrite Ed. apply elem_of_dom. auto.
Qed.

(** A loop keeps what its body keeps. *)
Lemma each_inv {A} (f : Z -> A -> option A) (I : Z -> A -> Prop) n : forall lo a, 0 <= n -> I lo a ->
  (forall k a, lo <= k < lo + n -> I k a -> exists a', f k a = Some a' /\ I (k + 1) a') ->
  exists a', each f (seqZ lo n) a = Some a' /\ I (lo + n) a'.
Proof.
  intros lo a Hn. revert lo a. pattern n. apply natlike_ind; [|clear n Hn; intros n Hn IH|done]; intros lo a HI Hf.
  - exists a. by rewrite Z.add_0_r.
  - rewrite seqZ_cons by lia. cbn [each]. destruct (Hf lo a) as (a1 & -> & H1); [lia|done|]. cbn [mbind option_bind].
    replace (Z.pred (Z.succ n)) with n by lia. destruct (IH (Z.succ lo) a1) as (a' & -> & H'); [by rewrite <- Z.add_1_r|..].
    { intros k b Hk. apply Hf. lia. }
    exists a'. split; [done|]. by replace (lo + Z.succ n) with (Z.succ lo + n) by lia.
Qed.

Lemma index_inj (p x y x' y' : Z) : 0 <= x < p -> 0 <= x' < p -> y * p + x = y' * p + x' -> x = x' /\ y = y'.
Proof. intros Hx Hx' E. assert (y = y') by nia. subst. lia. Qed.

Lemma index_range f x y : fb_ok f -> on_screen f x y -> 0 <= y * (fb_pitch f / 4) + x < fb_height f * (fb_pitch f / 4).
Proof. intros F [Hx Hy]. destruct F as [_ Hw _ _ _]. nia. Qed.

(** One pixel is stored, the others stay. *)
Lemma store_pixel_spec f x y c i : fb_ok f -> on_screen f x y -> i = y * (fb_pitch f / 4) + x ->
  exists f', store_pixel f i c = Some f' /\ same_screen f f' /\
    forall x' y', on_screen f x' y' -> pixel f' x' y' = if (x' =? x) && (y' =? y) then c else pixel f x' y'.
Proof.
  intros F S ->. pose proof (index_range f x y F S) as Hi. destruct (ok_mem f F _ Hi) as [d Ed].
  unfold store_pixel. rewrite Ed. cbn [mbind option_bind]. eexists. split; [done|]. split.
  { repeat split; try done. simpl. rewrite dom_insert_L. apply elem_of_dom_2 in Ed. set_solver. }
  intros x' y' S'. unfold pixel. cbn [set_fb_mem fb_mem fb_pitch].
  destruct (Z.eqb_spec x' x) as [->|Hx]; cbn [andb]; [destruct (Z.eqb_spec y' y) as [->|Hy]|].
  - by rewrite lookup_insert_eq.
  - rewrite lookup_insert_ne; [done|]. intros E. apply Hy. destruct F as [_ Hw _ _ _], S as [? _]. nia.
  - rewrite lookup_insert_ne; [done|]. intros E. apply Hx. destruct F as [_ Hw _ _ _], S as [? _], S' as [? _].
    apply index_inj in E; lia.
Qed.

(** [f'] is [f] with the points of [P] painted by [g]. *)
Definition painted (f f' : framebuffer) (P : Z -> Z -> bool) (g : Z -> Z -> Z) : Prop :=
  same_screen f f' /\ forall x y, on_screen f x y -> pixel f' x y = if P x y then g x y else pixel f x y.

Lemma painted_ext f f' P Q g : (forall x y, on_screen f x y -> P x y = Q x y) -> painted f f' P g -> painted f f' Q g.
Proof. intros E [S H]. split; [done|]. intros x y O. rewrite <- E by done. auto. Qed.

Lemma painted_refl f g : painted f f (fun _ _ => false) g.
Proof. split; [done|]. done. Qed.

Lemma on_screen_same f f' x y : same_screen f f' -> on_screen f' x y <-> on_screen f x y.
Proof. intros (Ew & Eh & _). unfold on_screen. by rewrite Ew, Eh. Qed.

(** Painting twice by the same function. *)
Lemma painted_union f1 f2 f3 P Q g : painted f1 f2 P g -> painted f2 f3 Q g -> painted f1 f3 (fun x y => P x y || Q x y) g.
Proof.
  intros [S1 H1] [S2 H2]. split; [by etrans|]. intros x y O. rewrite H2 by (by rewrite on_screen_same). rewrite H1 by done.
  by destruct (P x y), (Q x y).
Qed.

Definition rect (x0 m y0 n x y : Z) : bool := (x0 <=? x) && (x <? x0 + m) && (y0 <=? y) && (y <? y0 + n).

(** Cases on the order comparisons in a goal about regions. *)
Ltac regions := unfold rect; intros; repeat (case_bool; cbn [andb orb]; try lia); try done.

(** A row by row loop over a rectangle, whose body paints one point. *)
Lemma rect_loop f g (x0 y0 i0 m n : Z) (body : Z -> Z -> framebuffer -> option framebuffer) : 0 <= m -> 0 <= n ->
  (forall f' i j, painted f f' (fun x y => rect x0 m (y0 + i0) (i - i0) x y || rect x0 j (y0 + i) 1 x y) g ->
     i0 <= i < i0 + n -> 0 <= j < m ->
     exists f'', body i j f' = Some f'' /\ painted f' f'' (rect (x0 + j) 1 (y0 + i) 1) g) ->
  exists f', each (fun i => each (body i) (seqZ 0 m)) (seqZ i0 n) f = Some f' /\ painted f f' (rect x0 m (y0 + i0) n) g.
Proof.
  intros Hm Hn Hb.
  destruct (each_inv (fun i => each (body i) (seqZ 0 m)) (fun i f' => painted f f' (rect x0 m (y0 + i0) (i - i0)) g) n i0 f)
    as (f' & E & P); [done| | |].
  - eapply painted_ext; [|apply painted_refl]. regions.
  - intros i f1 Hi P1.
    destruct (each_inv (body i) (fun j f' => painted f f' (fun x y => rect x0 m (y0 + i0) (i - i0) x y || rect x0 j (y0 + i) 1 x y) g) m 0 f1)
      as (f2 & E & P); [done| | |].
    + eapply painted_ext; [|exact P1]. regions.
    + intros j f2 Hj P2. destruct (Hb f2 i j P2) as (f3 & E & P3); [lia|lia|]. exists f3. split; [done|].
      eapply painted_ext; [|eapply painted_union; [exact P2|exact P3]]. regions.
    + exists f2. split; [done|]. eapply painted_ext; [|exact P]. regions.
  - exists f'. split; [done|]. eapply painted_ext; [|exact P]. regions.
Qed.

Lemma store_painted f f' g x y i : fb_ok f -> same_screen f f' -> on_screen f x y -> i = y * (fb_pitch f / 4) + x ->
  exists f'', store_pixel f' i (g x y) = Some f'' /\ painted f' f'' (rect x 1 y 1) g.
Proof.
  intros F S O ->. destruct (store_pixel_spec f' x y (g x y) (y * (fb_pitch f / 4) + x)) as (f'' & E & S' & H).
  - by apply (fb_ok_same f).
  - by rewrite on_screen_same.
  - destruct S as (_ & _ & -> & _). done.
  - exists f''. split; [done|]. split; [done|]. intros x' y' O'. rewrite H by done.
    destruct (Z.eqb_spec x' x) as [->|], (Z.eqb_spec y' y) as [->|]; cbn [andb]; regions.
Qed.

(** Word arithmetic that does not wrap around, innermost first. *)
Ltac words := repeat match goal with |- context [wrap ?w ?x] =>
  lazymatch x with context [wrap _ _] => fail | _ => rewrite (wrap_small w x) by (unfold fits; lia) end end.

(** A pitch in words, and rows in 32 bits. *)
Lemma small_index f x y : fb_ok f -> on_screen f x y ->
  0 <= y * (fb_pitch f / 4) < 2 ^ 32 /\ 0 <= y * (fb_pitch f / 4) + x < 2 ^ 32 /\ 0 <= fb_pitch f / 4 < 2 ^ 32 /\
  0 <= x < 2 ^ 32 /\ 0 <= y < 2 ^ 32.
Proof.
  intros F O. pose proof (index_range f x y F O). destruct F as [_ Hw Hh Hs _], O as [Hx Hy]. split_and!; nia.
Qed.

Lemma put_pixel_painted f x y c : fb_ok f -> 0 <= x -> 0 <= y ->
  exists f', framebuffer_put_pixel f x y c = Some f' /\ painted f f' (rect x 1 y 1) (fun _ _ => c).
Proof.
  intros F Hx Hy. unfold framebuffer_put_pixel. rewrite (ok_init f F). cbn [negb].
  destruct ((fb_width f <=? x) || (fb_height f <=? y)) eqn:E.
  - exists f. split; [done|]. eapply painted_ext; [|apply painted_refl]. intros x' y' [? ?]. apply orb_true_iff in E as [E%Z.leb_le|E%Z.leb_le]; regions.
  - apply orb_false_iff in E as [E1%Z.leb_gt E2%Z.leb_gt]. assert (O : on_screen f x y) by (split; lia).
    destruct (small_index f x y F O) as (? & ? & ? & ? & ?). words.
    by apply (store_painted f f (fun _ _ => c)).
Qed.

Lemma clear_painted f c : fb_ok f ->
  exists f', framebuffer_clear f c = Some f' /\ painted f f' (fun _ _ => true) (fun _ _ => c).
Proof.
  intros F. unfold framebuffer_clear. rewrite (ok_init f F). cbn [negb]. pose proof (ok_width f F). pose proof (ok_height f F).
  edestruct (rect_loop f (fun _ _ => c) 0 0 0 (fb_width f) (fb_height f)
    (fun y x f' => store_pixel f' (u64 (u64 (y * (fb_pitch f' / 4)) + x)) c)) as (f' & E & P); [lia|lia| |].
  - intros f' i j [S _] Hi Hj. assert (O : on_screen f j i) by (split; lia).
    destruct (small_index f j i F O) as (? & ? & ? & ? & ?). destruct S as (Sw & Sh & Sp & Si & Sd). rewrite Sp.
    words. apply (store_painted f f' (fun _ _ => c)); [done|by repeat split|done|done].
  - exists f'. split; [exact E|]. eapply painted_ext; [|exact P]. intros x y [? ?]. regions.
Qed.

(** Drawing a character paints its cell, as far as it is on the screen. *)
Lemma draw_char_painted f px py c fg bg : fb_ok f -> 0 <= px -> px + 8 < 2 ^ 32 -> 0 <= py -> py + 16 < 2 ^ 32 ->
  exists f', framebuffer_draw_char f px py c fg bg = Some f' /\
    painted f f' (rect px 8 py 16) (fun x y => glyph_pixel c fg bg (x - px) (y - py)).
Proof.
  intros F Hx Hx2 Hy Hy2. unfold framebuffer_draw_char. rewrite (ok_init f F). cbn [negb]. set (g := fun x y => _).
  destruct (rect_loop f g px py 0 8 16 (fun row col f' =>
      if (fb_width f' <=? u32 (px + col)) || (fb_height f' <=? u32 (py + row)) then Some f'
      else store_pixel f' (u32 (u32 (u32 (py + row) * u32 (fb_pitch f / 4)) + u32 (px + col))) (glyph_pixel c fg bg col row)))
    as (f' & E & P); [lia|lia| |].
  - intros f' i j [S _] Hi Hj. rewrite !(wrap_small 32 (_ + _)) by (unfold fits; lia). pose proof S as (Sw & Sh & _). rewrite Sw, Sh.
    destruct ((fb_width f <=? px + j) || (fb_height f <=? py + i)) eqn:Eo.
    + exists f'. split; [done|]. eapply painted_ext; [|apply painted_refl]. intros x y O. apply (on_screen_same f f' x y S) in O as [? ?].
      apply orb_true_iff in Eo as [Eo%Z.leb_le|Eo%Z.leb_le]; regions.
    + apply orb_false_iff in Eo as [E1%Z.leb_gt E2%Z.leb_gt]. assert (O : on_screen f (px + j) (py + i)) by (split; lia).
      destruct (small_index f _ _ F O) as (? & ? & ? & ? & ?). words.
      replace (glyph_pixel c fg bg j i) with (g (px + j) (py + i)) by (unfold g; f_equal; lia). by apply (store_painted f f').
  - exists f'. rewrite Z.add_0_r in P. split; [exact E|exact P].
Qed.

(** Scrolling moves everything up and leaves the default background below. *)
Lemma scroll_painted f h : fb_ok f -> 0 < h <= fb_height f ->
  exists f', framebuffer_scroll f h = Some f' /\
    painted f f' (fun _ _ => true) (fun x y => if y <? fb_height f - h then pixel f x (y + h) else FB_DEFAULT_BG).
Proof.
  intros F Hh. unfold framebuffer_scroll. rewrite (ok_init f F). cbn [negb]. pose proof (ok_width f F) as Hw. pose proof (ok_size f F) as Hs.
  rewrite (proj2 (Z.leb_gt _ _)) by nia. destruct (small_index f 0 0 F) as (_ & _ & Hp & _ & _); [split; lia|].
  assert (Hh32 : fb_height f < 2 ^ 32) by nia. rewrite !(wrap_small 32 (fb_height f - h)), (wrap_small 32 (fb_height f)), (wrap_small 32 (_ / 4)) by (unfold fits; lia).
  set (n := fb_height f - h) in *. set (g := fun x y => if y <? n then pixel f x (y + h) else FB_DEFAULT_BG).
  destruct (rect_loop f g 0 0 0 (fb_width f) n (fun y x f' =>
      c ← fb_mem f' !! (u32 (u32 (y + h) * (fb_pitch f / 4)) + x); store_pixel f' (u32 (y * (fb_pitch f / 4)) + x) c)) as (f1 & E1 & P1); [lia|lia| |].
  - intros f' i j [S HP] Hi Hj. assert (O : on_screen f j i) by (split; lia). assert (O2 : on_screen f j (i + h)) by (split; lia).
    destruct (small_index f _ _ F O) as (? & ? & _ & ? & ?). destruct (small_index f _ _ F O2) as (? & ? & _ & ? & ?).
    rewrite (wrap_small 32 (i + h)), !(wrap_small 32 (_ * (fb_pitch f / 4))) by (unfold fits; lia).
    destruct (ok_mem f' (fb_ok_same f f' F S) ((i + h) * (fb_pitch f / 4) + j)) as [c Ec].
    { pose proof S as (_ & Sh & Sp & _). rewrite Sh, Sp. by apply index_range. }
    rewrite Ec. cbn [mbind option_bind].
    assert (Hc : c = g j i).
    { specialize (HP j (i + h) O2). replace (rect _ _ _ _ j (i + h) || rect _ _ _ _ j (i + h)) with false in HP by regions.
      unfold g. rewrite (proj2 (Z.ltb_lt i n)) by lia. rewrite <- HP. unfold pixel. destruct S as (_ & _ & -> & _). by rewrite Ec. }
    subst c. by apply (store_painted f f').
  - assert (S1 : same_screen f f1) by apply P1.
    destruct (rect_loop f1 g 0 0 n (fb_width f) (fb_height f - n) (fun y x f' => store_pixel f' (u32 (u32 (y * (fb_pitch f / 4)) + x)) FB_DEFAULT_BG))
      as (f2 & E2 & P2); [lia|lia| |].
    + intros f' i j [S _] Hi Hj. assert (O : on_screen f j i) by (split; lia).
      destruct (small_index f _ _ F O) as (? & ? & _ & ? & ?). words.
      replace FB_DEFAULT_BG with (g j i) by (unfold g; by rewrite (proj2 (Z.ltb_ge i n)) by lia).
      apply (store_painted f f' g); [done|by etrans|done|done].
    + exists f2. split.
      * change (each (copy_row (fb_width f) (fb_pitch f / 4) h) (seqZ 0 n) f = Some f1) in E1. rewrite E1. cbn [mbind option_bind]. exact E2.
      * eapply painted_ext; [|eapply painted_union; [exact P1|exact P2]]. intros x y [? ?]. regions.
Qed.
