(* ===== verification/Terminal.v ===== *)
(** The VT100 terminal, kernel/src/display/terminal.c and terminal.h, with what
    drives it: display_manager.c and the tick of drivers/timer/pit.c.

    Characters are bytes.  The back buffers are [None] until they are allocated;
    an access outside a buffer or outside the sixteen parameters of a control
    sequence is [None]. *)
From stdpp Require Import prelude gmap list.
From Stdlib Require Import ZArith Lia.
From S2P Require Import Prelude KHeap Framebuffer.

Open Scope Z_scope.

Definition TERM_DEFAULT_FG : Z := FB_DEFAULT_FG.
Definition TERM_DEFAULT_BG : Z := FB_DEFAULT_BG.
Definition TERM_COLOR_NEON_GREEN : Z := 0x0039FF14.
Definition VT_MAX_PARAMS : Z := 16.

Definition terminal_palette : list Z :=
  [0x00000000; 0x00AA0000; 0x0000AA00; 0x00AA5500; 0x000000AA; 0x00AA00AA; 0x0000AAAA; 0x00AAAAAA;
   0x00555555; 0x00FF5555; 0x0055FF55; 0x00FFFF55; 0x005555FF; 0x00FF55FF; 0x0055FFFF; 0x00FFFFFF].

Inductive terminal_vt_state := VT_STATE_NORMAL | VT_STATE_ESC | VT_STATE_CSI | VT_STATE_PARAM | VT_STATE_DEC_SPACE.

#[export] Instance vt_state_dec : EqDecision terminal_vt_state.
Proof. solve_decision. Defined.

Record terminal := Terminal {
  cursor_x : Z;
  cursor_y : Z;
  t_width : Z;
  t_height : Z;
  fg_color : Z;
  bg_color : Z;
  bold : bool;
  vt_state : terminal_vt_state;
  params : list Z;
  param_count : Z;
  private_mode : Z;
  buffer : option (list Z);
  attr_buffer : option (list Z);
  cursor_enabled : bool;
  cursor_blink_visible : bool;
  cursor_style : Z;
  cursor_suspended : Z;
  last_rendered_x : Z;
  last_rendered_y : Z;
  last_blink_ms : Z }.

(** Assignments to groups of fields. *)
Definition set_cursor (t : terminal) (x y : Z) : terminal :=
  Terminal x y (t_width t) (t_height t) (fg_color t) (bg_color t) (bold t) (vt_state t) (params t) (param_count t) (private_mode t)
    (buffer t) (attr_buffer t) (cursor_enabled t) (cursor_blink_visible t) (cursor_style t) (cursor_suspended t)
    (last_rendered_x t) (last_rendered_y t) (last_blink_ms t).

Definition set_graphics (t : terminal) (fg bg : Z) (b : bool) : terminal :=
  Terminal (cursor_x t) (cursor_y t) (t_width t) (t_height t) fg bg b (vt_state t) (params t) (param_count t) (private_mode t)
    (buffer t) (attr_buffer t) (cursor_enabled t) (cursor_blink_visible t) (cursor_style t) (cursor_suspended t)
    (last_rendered_x t) (last_rendered_y t) (last_blink_ms t).

Definition set_parser (t : terminal) (st : terminal_vt_state) (ps : list Z) (n pm : Z) : terminal :=
  Terminal (cursor_x t) (cursor_y t) (t_width t) (t_height t) (fg_color t) (bg_color t) (bold t) st ps n pm
    (buffer t) (attr_buffer t) (cursor_enabled t) (cursor_blink_visible t) (cursor_style t) (cursor_suspended t)
    (last_rendered_x t) (last_rendered_y t) (last_blink_ms t).

Definition set_buffers (t : terminal) (b a : option (list Z)) : terminal :=
  Terminal (cursor_x t) (cursor_y t) (t_width t) (t_height t) (fg_color t) (bg_color t) (bold t) (vt_state t) (params t) (param_count t)
    (private_mode t) b a (cursor_enabled t) (cursor_blink_visible t) (cursor_style t) (cursor_suspended t)
    (last_rendered_x t) (last_rendered_y t) (last_blink_ms t).

Definition set_cursor_look (t : terminal) (en vis : bool) (style : Z) : terminal :=
  Terminal (cursor_x t) (cursor_y t) (t_width t) (t_height t) (fg_color t) (bg_color t) (bold t) (vt_state t) (params t) (param_count t)
    (private_mode t) (buffer t) (attr_buffer t) en vis style (cursor_suspended t)
    (last_rendered_x t) (last_rendered_y t) (last_blink_ms t).

Definition set_suspended (t : terminal) (n : Z) : terminal :=
  Terminal (cursor_x t) (cursor_y t) (t_width t) (t_height t) (fg_color t) (bg_color t) (bold t) (vt_state t) (params t) (param_count t)
    (private_mode t) (buffer t) (attr_buffer t) (cursor_enabled t) (cursor_blink_visible t) (cursor_style t) n
    (last_rendered_x t) (last_rendered_y t) (last_blink_ms t).

Definition set_last (t : terminal) (x y : Z) : terminal :=
  Terminal (cursor_x t) (cursor_y t) (t_width t) (t_height t) (fg_color t) (bg_color t) (bold t) (vt_state t) (params t) (param_count t)
    (private_mode t) (buffer t) (attr_buffer t) (cursor_enabled t) (cursor_blink_visible t) (cursor_style t) (cursor_suspended t)
    x y (last_blink_ms t).

Definition set_blink_ms (t : terminal) (ms : Z) : terminal :=
  Terminal (cursor_x t) (cursor_y t) (t_width t) (t_height t) (fg_color t) (bg_color t) (bold t) (vt_state t) (params t) (param_count t)
    (private_mode t) (buffer t) (attr_buffer t) (cursor_enabled t) (cursor_blink_visible t) (cursor_style t) (cursor_suspended t)
    (last_rendered_x t) (last_rendered_y t) ms.

(** ** The back buffers *)

(** An element of a buffer that may be missing, with the value used then. *)
Definition get_cell (b : option (list Z)) (i dflt : Z) : option Z :=
  match b with None => Some dflt | Some l => l !! Z.to_nat i end.

Definition set_cell (b : option (list Z)) (i v : Z) : option (option (list Z)) :=
  match b with
  | None => Some None
  | Some l => if i <? alen l then Some (Some (aset l i v)) else None
  end.

(** [cursor_y * width + cursor_x]. *)
Definition cell_index (t : terminal) (x y : Z) : Z := u32 (u32 (y * t_width t) + x).

(** The lines move up by one, and the last one is filled with [v]. *)
Definition scroll_cells (width height v : Z) (b : option (list Z)) : option (option (list Z)) :=
  match b with
  | None => Some None
  | Some l =>
      let n := u32 (width * u32 (height - 1)) in
      if alen l <? n + width then None
      else Some (Some (take (Z.to_nat n) (drop (Z.to_nat width) l) ++ replicate (Z.to_nat width) v ++ drop (Z.to_nat (n + width)) l))
  end.

(** ** The cursor *)

Definition fill_rect (f : framebuffer) (px py x0 w y0 h color : Z) : option framebuffer :=
  each (fun y => each (fun x f => framebuffer_put_pixel f (u32 (px + x)) (u32 (py + y)) color) (seqZ x0 w)) (seqZ y0 h) f.

Definition draw_cursor (f : framebuffer) (style px py : Z) : option framebuffer :=
  if (style =? 1) || (style =? 0) then fill_rect f px py 0 FONT_WIDTH 0 FONT_HEIGHT TERM_COLOR_NEON_GREEN
  else if style =? 2 then Some f
  else if (style =? 3) || (style =? 4) then
    each (fun x f =>
      f1 ← framebuffer_put_pixel f (u32 (px + x)) (u32 (py + FONT_HEIGHT - 1)) TERM_COLOR_NEON_GREEN;
      framebuffer_put_pixel f1 (u32 (px + x)) (u32 (py + FONT_HEIGHT - 2)) TERM_COLOR_NEON_GREEN) (seqZ 0 FONT_WIDTH) f
  else if (style =? 5) || (style =? 6) then
    each (fun y f =>
      f1 ← framebuffer_put_pixel f px (u32 (py + y)) TERM_COLOR_NEON_GREEN;
      framebuffer_put_pixel f1 (u32 (px + 1)) (u32 (py + y)) TERM_COLOR_NEON_GREEN) (seqZ 0 FONT_HEIGHT) f
  else Some f.

Definition terminal_render_cursor (t : terminal) (f : framebuffer) (visible : bool) : option (terminal * framebuffer) :=
  if negb (cursor_enabled t) then Some (t, f)
  else if (0 <? cursor_suspended t) && visible then Some (t, f)
  else if (t_width t <=? cursor_x t) || (t_height t <=? cursor_y t) then Some (t, f)
  else if negb visible then
    let i := cell_index t (last_rendered_x t) (last_rendered_y t) in
    c ← get_cell (buffer t) i 32;
    fg ← get_cell (attr_buffer t) i (fg_color t);
    f' ← framebuffer_draw_char f (u32 (last_rendered_x t * FONT_WIDTH)) (u32 (last_rendered_y t * FONT_HEIGHT)) c fg (bg_color t);
    Some (t, f')
  else
    f' ← draw_cursor f (cursor_style t) (u32 (cursor_x t * FONT_WIDTH)) (u32 (cursor_y t * FONT_HEIGHT));
    Some (set_last t (cursor_x t) (cursor_y t), f').

Definition terminal_blink_tick (t : terminal) (f : framebuffer) (now : Z) : option (terminal * framebuffer) :=
  if 0 <? cursor_suspended t then Some (t, f)
  else if 500 <=? u64 (now - last_blink_ms t) then
    let t1 := set_cursor_look t (cursor_enabled t) (negb (cursor_blink_visible t)) (cursor_style t) in
    '(t2, f2) ← terminal_render_cursor t1 f (cursor_blink_visible t1);
    Some (set_blink_ms t2 now, f2)
  else Some (t, f).

(** ** The screen *)

Definition terminal_clear (t : terminal) (f : framebuffer) : option (terminal * framebuffer) :=
  '(t1, f1) ← terminal_render_cursor t f false;
  f2 ← framebuffer_clear f1 (bg_color t1);
  let t2 := set_cursor t1 0 0 in
  let n := u32 (t_width t2 * t_height t2) in
  b ← match buffer t2 with
      | None => Some None
      | Some l => if alen l <? n then None else Some (Some (replicate (Z.to_nat n) 32 ++ drop (Z.to_nat n) l))
      end;
  let t3 := set_last (set_buffers t2 b (attr_buffer t2)) 0 0 in
  terminal_render_cursor t3 f2 (cursor_blink_visible t3).

Definition terminal_init (t : terminal) (f : framebuffer) : option (terminal * framebuffer) :=
  let '(cols, rows) := framebuffer_get_text_dimensions f in
  let t1 := Terminal 0 0 cols rows TERM_DEFAULT_FG TERM_DEFAULT_BG false VT_STATE_NORMAL (params t) 0 0 None None true true 5
    (cursor_suspended t) 0 0 0 in
  terminal_clear t1 f.

Definition terminal_allocate_backbuffer {H : Type} `{KernelHeap H} (t : terminal) (h : H) : option (terminal * H) :=
  let n := u32 (t_width t * t_height t) in
  '(t1, h1) ← match buffer t with
              | Some _ => Some (t, h)
              | None =>
                  '(h1, p) ← kh_alloc h n;
                  Some (if p =? 0 then t else set_buffers t (Some (replicate (Z.to_nat n) 32)) (attr_buffer t), h1)
              end;
  match attr_buffer t1 with
  | Some _ => Some (t1, h1)
  | None =>
      '(h2, p) ← kh_alloc h1 (n * 4);
      Some (if p =? 0 then t1 else set_buffers t1 (buffer t1) (Some (replicate (Z.to_nat n) (fg_color t1))), h2)
  end.

Definition dec_if_pos (y : Z) : Z := if 0 <? y then y - 1 else y.

Definition terminal_scroll (t : terminal) (f : framebuffer) : option (terminal * framebuffer) :=
  f1 ← framebuffer_scroll f FONT_HEIGHT;
  let t1 := set_last (set_cursor t (cursor_x t) (dec_if_pos (cursor_y t))) (last_rendered_x t) (dec_if_pos (last_rendered_y t)) in
  b ← scroll_cells (t_width t) (t_height t) 32 (buffer t);
  a ← scroll_cells (t_width t) (t_height t) (fg_color t) (attr_buffer t);
  Some (set_buffers t1 b a, f1).

Definition terminal_set_colors (t : terminal) (fg bg : Z) : terminal := set_graphics t fg bg (bold t).

(** Scrolling when the cursor is below the last line. *)
Definition scroll_if_below (t : terminal) (f : framebuffer) : option (terminal * framebuffer) :=
  if t_height t <=? cursor_y t then
    '(t1, f1) ← terminal_scroll t f; Some (set_cursor t1 (cursor_x t1) (u32 (t_height t1 - 1)), f1)
  else Some (t, f).

Definition wrap_line (t : terminal) : terminal :=
  if t_width t <=? cursor_x t then set_cursor t 0 (u32 (cursor_y t + 1)) else t.

Definition draw_at (t : terminal) (f : framebuffer) (x y c : Z) : option framebuffer :=
  framebuffer_draw_char f (u32 (x * FONT_WIDTH)) (u32 (y * FONT_HEIGHT)) c (fg_color t) (bg_color t).

(** The branches of [terminal_putchar]. *)
Definition put_glyph (t : terminal) (f : framebuffer) (c : Z) : option (terminal * framebuffer) :=
  '(t1, f1) ← scroll_if_below (wrap_line t) f;
  f2 ← draw_at t1 f1 (cursor_x t1) (cursor_y t1) c;
  let i := cell_index t1 (cursor_x t1) (cursor_y t1) in
  b ← set_cell (buffer t1) i c;
  a ← set_cell (attr_buffer t1) i (fg_color t1);
  Some (set_cursor (set_buffers t1 b a) (u32 (cursor_x t1 + 1)) (cursor_y t1), f2).

Definition put_backspace (t : terminal) (f : framebuffer) : option (terminal * framebuffer) :=
  if 0 <? cursor_x t then
    let t1 := set_cursor t (cursor_x t - 1) (cursor_y t) in
    f1 ← draw_at t1 f (cursor_x t1) (cursor_y t1) 32;
    b ← set_cell (buffer t1) (cell_index t1 (cursor_x t1) (cursor_y t1)) 32;
    Some (set_buffers t1 b (attr_buffer t1), f1)
  else Some (t, f).

Definition terminal_putchar (t : terminal) (f : framebuffer) (c : Z) : option (terminal * framebuffer) :=
  '(t1, f1) ← (if cursor_suspended t =? 0 then terminal_render_cursor t f false else Some (t, f));
  '(t2, f2) ← (if c =? 10 then Some (set_cursor t1 0 (u32 (cursor_y t1 + 1)), f1)
               else if c =? 13 then Some (set_cursor t1 0 (cursor_y t1), f1)
               else if c =? 8 then put_backspace t1 f1
               else if c =? 9 then Some (set_cursor t1 (Z.ldiff (u32 (cursor_x t1 + 8)) 7) (cursor_y t1), f1)
               else put_glyph t1 f1 c);
  '(t3, f3) ← scroll_if_below (wrap_line t2) f2;
  if cursor_suspended t3 =? 0 then terminal_render_cursor t3 f3 (cursor_blink_visible t3) else Some (t3, f3).

(** ** Control sequences *)

(** One parameter of ESC [ ... m. *)
Definition sgr_param (t : terminal) (p : Z) : terminal :=
  let palette i := aget 0 terminal_palette i in
  if p =? 0 then set_graphics t TERM_DEFAULT_FG TERM_DEFAULT_BG false
  else if p =? 1 then set_graphics t (fg_color t) (bg_color t) true
  else if p =? 22 then set_graphics t (fg_color t) (bg_color t) false
  else if (30 <=? p) && (p <=? 37) then
    set_graphics t (palette (if bold t then p - 30 + 8 else p - 30)) (bg_color t) (bold t)
  else if (40 <=? p) && (p <=? 47) then set_graphics t (fg_color t) (palette (p - 40)) (bold t)
  else if (90 <=? p) && (p <=? 97) then set_graphics t (palette (p - 90 + 8)) (bg_color t) (bold t)
  else if (100 <=? p) && (p <=? 107) then set_graphics t (fg_color t) (palette (p - 100 + 8)) (bold t)
  else if p =? 39 then set_graphics t TERM_DEFAULT_FG (bg_color t) (bold t)
  else if p =? 49 then set_graphics t (fg_color t) TERM_DEFAULT_BG (bold t)
  else t.

Definition terminal_handle_sgr (t : terminal) : option terminal :=
  if param_count t =? 0 then Some (set_graphics t TERM_DEFAULT_FG TERM_DEFAULT_BG (bold t))
  else each (fun i t => p ← params t !! Z.to_nat i; Some (sgr_param t p)) (seqZ 0 (param_count t)) t.

Definition one_if_zero (n : Z) : Z := if n =? 0 then 1 else n.

(** ESC [ y ; x H. *)
Definition cursor_position (t : terminal) : option terminal :=
  p0 ← params t !! 0%nat;
  p1 ← params t !! 1%nat;
  let y := dec_if_pos p0 in
  let x := dec_if_pos p1 in
  Some (set_cursor t (if t_width t <=? x then u32 (t_width t - 1) else x) (if t_height t <=? y then u32 (t_height t - 1) else y)).

(** ESC [ K. *)
Definition erase_line (t : terminal) (f : framebuffer) : option (terminal * framebuffer) :=
  each (fun x '(t, f) =>
    b ← set_cell (buffer t) (cell_index t x (cursor_y t)) 32;
    f' ← draw_at t f x (cursor_y t) 32;
    Some (set_buffers t b (attr_buffer t), f')) (seqZ (cursor_x t) (t_width t - cursor_x t)) (t, f).

(** The final character of a control sequence. *)
Definition csi_final (t : terminal) (f : framebuffer) (c : Z) : option (terminal * framebuffer) :=
  p0 ← params t !! 0%nat;
  if c =? 109 then t' ← terminal_handle_sgr t; Some (t', f)
  else if (c =? 72) || (c =? 102) then t' ← cursor_position t; Some (t', f)
  else if c =? 74 then terminal_clear t f
  else if c =? 75 then erase_line t f
  else if c =? 67 then
    let x := u32 (cursor_x t + one_if_zero p0) in
    Some (set_cursor t (if t_width t <=? x then u32 (t_width t - 1) else x) (cursor_y t), f)
  else if c =? 68 then
    let n := one_if_zero p0 in
    Some (set_cursor t (if n <=? cursor_x t then cursor_x t - n else 0) (cursor_y t), f)
  else if (c =? 113) && bool_decide (vt_state t = VT_STATE_DEC_SPACE) then
    Some (set_parser (set_cursor_look t (cursor_enabled t) (cursor_blink_visible t) p0) VT_STATE_NORMAL (params t) (param_count t) (private_mode t), f)
  else if (c =? 104) && negb (private_mode t =? 0) && (p0 =? 25) then
    Some (set_cursor_look t true (cursor_blink_visible t) (cursor_style t), f)
  else if (c =? 108) && negb (private_mode t =? 0) && (p0 =? 25) then
    Some (set_cursor_look t false (cursor_blink_visible t) (cursor_style t), f)
  else Some (t, f).

Definition is_digit (c : Z) : bool := (48 <=? c) && (c <=? 57).

Definition set_state (t : terminal) (st : terminal_vt_state) : terminal :=
  set_parser t st (params t) (param_count t) (private_mode t).

(** [params[param_count] = v]. *)
Definition set_param (t : terminal) (st : terminal_vt_state) (v : Z) : option terminal :=
  if (0 <=? param_count t) && (param_count t <? alen (params t)) then Some (set_parser t st (aset (params t) (param_count t) v) (param_count t) (private_mode t))
  else None.

Definition vt_csi (t : terminal) (f : framebuffer) (c : Z) : option (terminal * framebuffer) :=
  if c =? 63 then Some (set_parser t (vt_state t) (params t) (param_count t) 1, f)
  else if is_digit c then t' ← set_param t VT_STATE_PARAM (c - 48); Some (t', f)
  else if c =? 59 then Some (set_parser t (vt_state t) (params t) (s32 (param_count t + 1)) (private_mode t), f)
  else if c =? 32 then Some (set_state t VT_STATE_DEC_SPACE, f)
  else
    '(t1, f1) ← csi_final t f c;
    Some (if bool_decide (vt_state t1 = VT_STATE_DEC_SPACE) then t1 else set_state t1 VT_STATE_NORMAL, f1).

(** The state machine of [terminal_write]; a character that ends the digits of a
    parameter is processed again. *)
Definition vt_char (t : terminal) (f : framebuffer) (c : Z) : option (terminal * framebuffer) :=
  match vt_state t with
  | VT_STATE_NORMAL => if c =? 27 then Some (set_state t VT_STATE_ESC, f) else terminal_putchar t f c
  | VT_STATE_ESC =>
      Some (if c =? 91 then set_parser t VT_STATE_CSI (replicate (Z.to_nat VT_MAX_PARAMS) 0) 0 0 else set_state t VT_STATE_NORMAL, f)
  | VT_STATE_CSI => vt_csi t f c
  | VT_STATE_DEC_SPACE =>
      if c =? 113 then
        p0 ← params t !! 0%nat;
        Some (set_state (set_cursor_look t (cursor_enabled t) (cursor_blink_visible t) p0) VT_STATE_NORMAL, f)
      else if negb (c =? 32) then Some (set_state t VT_STATE_NORMAL, f)
      else Some (t, f)
  | VT_STATE_PARAM =>
      if is_digit c then
        p ← params t !! Z.to_nat (param_count t);
        t' ← set_param t VT_STATE_PARAM (u32 (p * 10 + (c - 48)));
        Some (t', f)
      else if c =? 59 then Some (set_parser t VT_STATE_CSI (params t) (s32 (param_count t + 1)) (private_mode t), f)
      else vt_csi (set_parser t VT_STATE_CSI (params t) (s32 (param_count t + 1)) (private_mode t)) f c
  end.

Definition vt_chars (data : list Z) (s : terminal * framebuffer) : option (terminal * framebuffer) :=
  each (fun c '(t, f) => vt_char t f c) data s.

Definition terminal_write (t : terminal) (f : framebuffer) (now : Z) (data : list Z) : option (terminal * framebuffer) :=
  let t1 := set_blink_ms (set_cursor_look t (cursor_enabled t) true (cursor_style t)) now in
  '(t2, f2) ← terminal_render_cursor t1 f false;
  '(t3, f3) ← vt_chars data (set_suspended t2 (s32 (cursor_suspended t2 + 1)), f2);
  let t4 := set_suspended t3 (s32 (cursor_suspended t3 - 1)) in
  terminal_render_cursor t4 f3 (cursor_blink_visible t4).

(** ** Output routing and the timer *)

Inductive display_mode := DISPLAY_MODE_TERMINAL | DISPLAY_MODE_GUI.

Record display := Display {
  main_terminal : terminal;
  screen : framebuffer;
  current_mode : display_mode;
  tick_count : Z;
  boot_pixel_active : bool;
  toggle : bool }.

Definition set_screen (d : display) (t : terminal) (f : framebuffer) : display :=
  Display t f (current_mode d) (tick_count d) (boot_pixel_active d) (toggle d).

Definition display_manager_init (d : display) : option display :=
  '(t, f) ← terminal_init (main_terminal d) (screen d);
  Some (Display t f DISPLAY_MODE_TERMINAL (tick_count d) (boot_pixel_active d) (toggle d)).

Definition pit_get_ticks (d : display) : Z := tick_count d.

Definition display_manager_write (d : display) (data : list Z) : option display :=
  match current_mode d with
  | DISPLAY_MODE_TERMINAL => '(t, f) ← terminal_write (main_terminal d) (screen d) (pit_get_ticks d) data; Some (set_screen d t f)
  | DISPLAY_MODE_GUI => Some d
  end.

Definition display_manager_set_mode (d : display) (m : display_mode) : display :=
  Display (main_terminal d) (screen d) m (tick_count d) (boot_pixel_active d) (toggle d).

Definition display_manager_get_mode (d : display) : display_mode := current_mode d.

Definition pit_tick_increment (d : display) : option display :=
  let n := u64 (tick_count d + 1) in
  d1 ← (if boot_pixel_active d && (n mod 100 =? 0) then
          f ← framebuffer_put_pixel (screen d) 0 0 (if toggle d then 0xFFFFFFFF else 0);
          Some (Display (main_terminal d) f (current_mode d) n (boot_pixel_active d) (negb (toggle d)))
        else Some (Display (main_terminal d) (screen d) (current_mode d) n (boot_pixel_active d) (toggle d)));
  '(t, f) ← terminal_blink_tick (main_terminal d1) (screen d1) n;
  Some (set_screen d1 t f).

Definition pit_stop_boot_pixel (d : display) : option display :=
  f ← framebuffer_put_pixel (screen d) 0 0 0;
  Some (Display (main_terminal d) f (current_mode d) (tick_count d) false (toggle d)).
