(* ===== verification/TerminalThm.v ===== *)
(** The terminal: every output keeps its state well formed and the screen shows the
    back buffer, and plain text is printed as on an endless roll of paper. *)
From stdpp Require Import prelude gmap list.
From Stdlib Require Import ZArith Lia.
From S2P Require Import Prelude KHeap Framebuffer Terminal.

Open Scope Z_scope.

Implicit Types (t : terminal) (f : framebuffer).

(** ** Cells on the screen *)

(** The cell [x], [y] shows the character [c] in the colour [fg] on some background. *)
Definition cell_shows f (x y c fg : Z) : Prop :=
  exists bg, forall col row, 0 <= col < 8 -> 0 <= row < 16 -> pixel f (8 * x + col) (16 * y + row) = glyph_pixel c fg bg col row.

(** A blank has no foreground. *)
Lemma glyph_blank fg bg col row : 0 <= row < 16 -> glyph_pixel 32 fg bg col row = bg.
Proof.
  intros Hr. unfold glyph_pixel. cbn [Z.ltb Z.compare Pos.compare Pos.compare_cont].
  assert (E : forallb (fun r => vga_font 32 r =? 0) (seqZ 0 16) = true) by (vm_compute; reflexivity).
  rewrite forallb_forall in E. rewrite (proj1 (Z.eqb_eq _ _) (E row ltac:(apply list_elem_of_In, elem_of_seqZ; lia))).
  unfold has_flag. by rewrite Z.land_0_l.
Qed.

Lemma shows_blank f x y fg fg' : cell_shows f x y 32 fg -> cell_shows f x y 32 fg'.
Proof. intros [bg H]. exists bg. intros col row Hc Hr. rewrite H by done. by rewrite !glyph_blank. Qed.

(** A screen of [w] times [h] characters. *)
Record geometry (w h : Z) f : Prop := Geometry {
  geo_fb : fb_ok f;
  geo_w : 0 < w;
  geo_h : 0 < h;
  geo_width : w * 8 <= fb_width f;
  geo_height : fb_height f = h * 16 }.

Lemma geometry_same w h f f' : geometry w h f -> same_screen f f' -> geometry w h f'.
Proof.
  intros [] S. pose proof S as (Ew & Eh & _). split; rewrite ?Ew, ?Eh; try done. by eapply fb_ok_same.
Qed.

Lemma geometry_size w h f : geometry w h f -> w * h < 2 ^ 25 /\ w * 8 < 2 ^ 32 /\ h * 16 < 2 ^ 32 /\ fb_height f * fb_width f < 2 ^ 32.
Proof.
  intros [F Hw Hh Hfw Hfh]. destruct F as [_ Hp _ Hs _]. assert (fb_height f * fb_width f < 2 ^ 32) by nia.
  assert (h * 16 * (w * 8) <= fb_height f * fb_width f) by (rewrite Hfh; nia). split_and!; nia.
Qed.

Definition in_grid (w h x y : Z) : Prop := 0 <= x < w /\ 0 <= y < h.

Lemma grid_index w h x y : in_grid w h x y -> 0 <= y * w + x < w * h.
Proof. intros [Hx Hy]. nia. Qed.

Lemma on_screen_cell w h f x y col row : geometry w h f -> in_grid w h x y -> 0 <= col < 8 -> 0 <= row < 16 ->
  on_screen f (8 * x + col) (16 * y + row).
Proof. intros [] [Hx Hy] Hc Hr. split; nia. Qed.

(** Drawing the character of a cell. *)
Lemma draw_cell w h f x y c fg bg : geometry w h f -> in_grid w h x y ->
  exists f', framebuffer_draw_char f (u32 (x * FONT_WIDTH)) (u32 (y * FONT_HEIGHT)) c fg bg = Some f' /\ same_screen f f' /\
    cell_shows f' x y c fg /\
    forall x' y' c' fg', in_grid w h x' y' -> (x', y') <> (x, y) -> cell_shows f x' y' c' fg' -> cell_shows f' x' y' c' fg'.
Proof.
  intros G I. pose proof I as [Hx Hy]. destruct (geometry_size w h f G) as (_ & Hw & Hh & _). unfold FONT_WIDTH, FONT_HEIGHT.
  rewrite !wrap_small by (unfold fits; nia).
  destruct (draw_char_painted f (x * 8) (y * 16) c fg bg (geo_fb _ _ _ G)) as (f' & E & S & HP); [lia|nia|lia|nia|].
  assert (HP' : forall x' y' col row, in_grid w h x' y' -> 0 <= col < 8 -> 0 <= row < 16 -> pixel f' (8 * x' + col) (16 * y' + row) =
    if (x' =? x) && (y' =? y) then glyph_pixel c fg bg col row else pixel f (8 * x' + col) (16 * y' + row)).
  { intros x' y' col row I' Hc Hr. rewrite HP by (by eapply on_screen_cell).
    destruct (Z.eqb_spec x' x) as [->|Hnx]; cbn [andb]; [destruct (Z.eqb_spec y' y) as [->|Hny]|].
    - replace (rect _ _ _ _ _ _) with true by (symmetry; regions). f_equal; lia.
    - replace (rect _ _ _ _ _ _) with false by (symmetry; regions). done.
    - replace (rect _ _ _ _ _ _) with false by (symmetry; regions). done. }
  exists f'. split; [done|]. split; [done|]. split.
  - exists bg. intros col row Hc Hr. rewrite HP' by done. by rewrite !Z.eqb_refl.
  - intros x' y' c' fg' I' Hne [bg' Hs]. exists bg'. intros col row Hc Hr. rewrite HP' by done.
    destruct (Z.eqb_spec x' x) as [->|], (Z.eqb_spec y' y) as [->|]; cbn [andb]; try by apply Hs. done.
Qed.

(** ** The back buffers and the screen *)

(** Character and colour of a cell in the back buffers. *)
Definition chr t (x y : Z) : Z := aget 32 (default [] (buffer t)) (y * t_width t + x).
Definition att t (x y : Z) : Z := aget 0 (default [] (attr_buffer t)) (y * t_width t + x).

Definition grid t (x y : Z) : Prop := in_grid (t_width t) (t_height t) x y.

Definition has_size (n : Z) (b : option (list Z)) : Prop := exists l, b = Some l /\ alen l = n.

(** Sixteen 32-bit parameters. *)
Definition params_ok (ps : list Z) : Prop := alen ps = VT_MAX_PARAMS /\ Forall (fun p => 0 <= p) ps.

(** A terminal whose screen shows the back buffers, the cursor being erased. *)
Record good t f : Prop := Good {
  g_geo : geometry (t_width t) (t_height t) f;
  g_buf : has_size (t_width t * t_height t) (buffer t);
  g_att : has_size (t_width t * t_height t) (attr_buffer t);
  g_last : grid t (last_rendered_x t) (last_rendered_y t);
  g_params : params_ok (params t);
  g_clean : forall x y, grid t x y -> cell_shows f x y (chr t x y) (att t x y) }.

Definition cursor_ok t : Prop := grid t (cursor_x t) (cursor_y t).

(** What output leaves alone. *)
Definition keeps t t' : Prop :=
  (vt_state t' = vt_state t /\ params t' = params t) /\ param_count t' = param_count t /\ cursor_suspended t' = cursor_suspended t /\
  t_width t' = t_width t /\ t_height t' = t_height t.

#[export] Instance keeps_refl : Reflexive keeps.
Proof. by repeat split. Qed.

#[export] Instance keeps_trans : Transitive keeps.
Proof. intros t1 t2 t3 ([? ?] & ? & ? & ? & ?) ([? ?] & ? & ? & ? & ?). repeat split; congruence. Qed.

(** Fields that [good] does not mention. *)
Lemma good_cursor t f x y : good t f -> good (set_cursor t x y) f.
Proof. by intros []. Qed.
Lemma good_graphics t f fg bg b : good t f -> good (set_graphics t fg bg b) f.
Proof. by intros []. Qed.
Lemma good_parser t f st ps n pm : good t f -> params_ok ps -> good (set_parser t st ps n pm) f.
Proof. by intros []. Qed.
Lemma good_look t f en vis st : good t f -> good (set_cursor_look t en vis st) f.
Proof. by intros []. Qed.
Lemma good_suspended t f n : good t f -> good (set_suspended t n) f.
Proof. by intros []. Qed.
Lemma good_blink t f ms : good t f -> good (set_blink_ms t ms) f.
Proof. by intros []. Qed.
Lemma good_last t f x y : good t f -> grid t x y -> good (set_last t x y) f.
Proof. by intros []. Qed.
#[export] Hint Resolve good_cursor good_graphics good_parser good_look good_suspended good_blink good_last : nexus.

Lemma cell_index_grid t f x y : geometry (t_width t) (t_height t) f -> grid t x y ->
  cell_index t x y = y * t_width t + x /\ 0 <= y * t_width t + x < t_width t * t_height t.
Proof.
  intros G I. destruct (geometry_size _ _ f G) as (? & _). pose proof (grid_index _ _ _ _ I) as Hi. destruct I as [? ?].
  assert (0 <= y * t_width t) by nia. split; [|done]. unfold cell_index. by rewrite !wrap_small by (unfold fits; rewrite ?wrap_small by (unfold fits; lia); lia).
Qed.

Lemma get_cell_grid b n i d : has_size n b -> 0 <= i < n -> get_cell b i d = Some (aget d (default [] b) i).
Proof. intros (l & -> & Hl) Hi. simpl. rewrite <- Hl in Hi. by apply aget_lookup. Qed.

Lemma set_cell_grid b n i v : has_size n b -> 0 <= i < n ->
  set_cell b i v = Some (Some (aset (default [] b) i v)) /\ has_size n (Some (aset (default [] b) i v)).
Proof.
  intros (l & -> & Hl) Hi. simpl. rewrite (proj2 (Z.ltb_lt _ _)) by lia. split; [done|]. exists (aset l i v). by rewrite alen_aset.
Qed.

Lemma aget_default (d d' : Z) b n i : has_size n b -> 0 <= i < n -> aget d (default [] b) i = aget d' (default [] b) i.
Proof.
  intros (l & -> & Hl) Hi. simpl. destruct (lookup_lt_is_Some_2 l (Z.to_nat i)) as [x E]; [unfold alen in Hl; lia|].
  unfold aget. by rewrite E.
Qed.

(** Two cells of the grid with one index are one cell. *)
Lemma grid_inj t x y x' y' : grid t x y -> grid t x' y' -> (x', y') <> (x, y) -> y' * t_width t + x' <> y * t_width t + x.
Proof. intros [? _] [? _] Hne E. destruct (index_inj (t_width t) x' y' x y) as [-> ->]; done. Qed.

(** The cell of a changed buffer. *)
Lemma aget_cell_upd (d : Z) b n t x y x' y' v : has_size n b -> n = t_width t * t_height t -> grid t x y -> grid t x' y' ->
  aget d (default [] (Some (aset (default [] b) (y * t_width t + x) v))) (y' * t_width t + x') =
  if decide ((x', y') = (x, y)) then v else aget d (default [] b) (y' * t_width t + x').
Proof.
  intros (l & -> & Hl) -> I I'. simpl. pose proof (grid_index _ _ _ _ I) as Hi. pose proof (grid_index _ _ _ _ I') as Hi'. case_decide as E.
  - injection E as -> ->. apply aget_aset_eq. lia.
  - apply aget_aset_ne; [lia|lia|]. apply not_eq_sym. by apply (grid_inj t x y).
Qed.

(** Erasing a cell: blank in the buffer, whatever its colour. *)
Lemma blank_at t f x y : good t f -> grid t x y ->
  exists f' b, draw_at t f x y 32 = Some f' /\ set_cell (buffer t) (cell_index t x y) 32 = Some b /\
    same_screen f f' /\ good (set_buffers t b (attr_buffer t)) f'.
Proof.
  intros [G B A L P C] I. destruct (cell_index_grid t f x y G I) as [-> Hi].
  destruct (set_cell_grid (buffer t) _ _ 32 B Hi) as [-> B']. destruct (draw_cell _ _ f x y 32 (fg_color t) (bg_color t) G I) as (f' & E & S & Hs & Ho).
  exists f'. eexists. split; [exact E|]. split; [done|]. split; [done|]. split; try done; [by eapply geometry_same|].
  intros x' y' I'. unfold chr, att. cbn [set_buffers buffer attr_buffer t_width].
  rewrite (aget_cell_upd 32 (buffer t) _ t x y x' y' 32 B eq_refl I I'). case_decide as Hd.
  - injection Hd as -> ->. by eapply shows_blank.
  - apply Ho; [done|done|]. by apply C.
Qed.

(** Printing a character into a cell. *)
Lemma glyph_at t f x y c : good t f -> grid t x y ->
  exists f' b a, draw_at t f x y c = Some f' /\ set_cell (buffer t) (cell_index t x y) c = Some (Some b) /\
    set_cell (attr_buffer t) (cell_index t x y) (fg_color t) = Some a /\
    b = aset (default [] (buffer t)) (y * t_width t + x) c /\
    same_screen f f' /\ good (set_buffers t (Some b) a) f'.
Proof.
  intros [G B A L P C] I. destruct (cell_index_grid t f x y G I) as [-> Hi].
  destruct (set_cell_grid (buffer t) _ _ c B Hi) as [-> B']. destruct (set_cell_grid (attr_buffer t) _ _ (fg_color t) A Hi) as [-> A'].
  destruct (draw_cell _ _ f x y c (fg_color t) (bg_color t) G I) as (f' & E & S & Hs & Ho).
  exists f'. eexists _, _. split; [exact E|]. split; [done|]. split; [done|]. split; [done|]. split; [done|]. split; try done; [by eapply geometry_same|].
  intros x' y' I'. unfold chr, att. cbn [set_buffers buffer attr_buffer t_width].
  rewrite (aget_cell_upd 32 (buffer t) _ t x y x' y' c B eq_refl I I'), (aget_cell_upd 0 (attr_buffer t) _ t x y x' y' _ A eq_refl I I').
  case_decide as Hd.
  - by injection Hd as -> ->.
  - apply Ho; [done|done|]. by apply C.
Qed.

(** ** Scrolling *)

Lemma scroll_cells_spec t f b (v d x y : Z) : geometry (t_width t) (t_height t) f -> has_size (t_width t * t_height t) b -> grid t x y ->
  exists b', scroll_cells (t_width t) (t_height t) v b = Some b' /\ has_size (t_width t * t_height t) b' /\
    aget d (default [] b') (y * t_width t + x) =
      if y <? t_height t - 1 then aget d (default [] b) ((y + 1) * t_width t + x) else v.
Proof.
  intros G (l & -> & Hl) I. destruct (geometry_size _ _ f G) as (Hs & Hw32 & Hh32 & _). destruct G as [_ Hw Hh _ _]. pose proof (grid_index _ _ _ _ I) as Hi.
  unfold scroll_cells. set (w := t_width t) in *. set (h := t_height t) in *. pose proof (proj1 I) as Hx. pose proof (proj2 I) as Hy. fold w h in Hx, Hy.
  rewrite (wrap_small 32 (h - 1)), wrap_small by (unfold fits; nia). set (n := w * (h - 1)). assert (Hn : n + w = w * h) by (unfold n; nia).
  assert (Hn0 : 0 <= n) by (unfold n; nia). rewrite (proj2 (Z.ltb_ge _ _)) by lia. eexists. split; [done|].
  unfold alen in Hl. rewrite (drop_ge _ (Z.to_nat (n + w))), app_nil_r by lia. split.
  { eexists. split; [done|]. unfold alen. rewrite length_app, length_take, length_drop, length_replicate. lia. }
  unfold aget. simpl. f_equal. destruct (Z.ltb_spec y (h - 1)).
  - assert (y * w + x < n) by (unfold n; nia).
    rewrite lookup_app_l by (rewrite length_take, length_drop; lia). rewrite lookup_take_lt by lia. rewrite lookup_drop.
    replace ((y + 1) * w + x) with (w + (y * w + x)) by lia. do 2 f_equal. lia.
  - assert (n <= y * w + x) by (unfold n; nia).
    rewrite lookup_app_r by (rewrite length_take, length_drop; lia). rewrite length_take, length_drop.
    rewrite lookup_replicate_2 by lia. done.
Qed.

Lemma scroll_good t f : good t f ->
  exists t' f', terminal_scroll t f = Some (t', f') /\ good t' f' /\ same_screen f f' /\ keeps t t' /\
    cursor_x t' = cursor_x t /\ cursor_y t' = dec_if_pos (cursor_y t) /\
    forall x y, grid t x y -> chr t' x y = if y <? t_height t - 1 then chr t x (y + 1) else 32.
Proof.
  intros [G B A L P C]. pose proof (geo_w _ _ _ G) as Hw. pose proof (geo_h _ _ _ G) as Hh.
  destruct (scroll_painted f 16 (geo_fb _ _ _ G)) as (f' & E & S & HP); [rewrite (geo_height _ _ _ G); lia|].
  destruct (scroll_cells_spec t f (buffer t) 32 32 0 0 G B) as (b & Eb & Bb & _); [split; lia|].
  destruct (scroll_cells_spec t f (attr_buffer t) (fg_color t) 0 0 0 G A) as (a & Ea & Ba & _); [split; lia|].
  assert (Hb : forall x y, grid t x y -> aget 32 (default [] b) (y * t_width t + x) = if y <? t_height t - 1 then chr t x (y + 1) else 32).
  { intros x y I. destruct (scroll_cells_spec t f (buffer t) 32 32 x y G B I) as (b' & Eb' & _ & H). rewrite Eb in Eb'. by injection Eb' as <-. }
  assert (Ha : forall x y, grid t x y -> y < t_height t - 1 -> aget 0 (default [] a) (y * t_width t + x) = att t x (y + 1)).
  { intros x y I Hy. destruct (scroll_cells_spec t f (attr_buffer t) (fg_color t) 0 x y G A I) as (a' & Ea' & _ & H). rewrite Ea in Ea'. injection Ea' as <-.
    rewrite (proj2 (Z.ltb_lt _ _) Hy) in H. done. }
  unfold terminal_scroll, FONT_HEIGHT. rewrite E. cbn [mbind option_bind]. rewrite Eb. cbn [mbind option_bind]. rewrite Ea. cbn [mbind option_bind].
  eexists _, f'. split; [done|]. split.
  - split; try done.
    + by eapply geometry_same.
    + destruct L as [? ?]. split; [done|]. cbn. unfold dec_if_pos. case_bool; lia.
    + intros x y I. change (grid t x y) in I. unfold chr, att. cbn [set_buffers set_last set_cursor buffer attr_buffer t_width]. rewrite Hb by done.
      destruct (Z.ltb_spec y (t_height t - 1)) as [Hy|Hy].
      * rewrite Ha by done. destruct I as [Ix Iy]. destruct (C x (y + 1)) as [bg Hbg]; [split; lia|]. exists bg. intros col row Hc Hr.
        rewrite HP by (eapply on_screen_cell; [exact G|split; lia|lia|lia]). rewrite (geo_height _ _ _ G), (proj2 (Z.ltb_lt _ _)) by lia.
        rewrite <- Hbg by done. f_equal. lia.
      * eapply shows_blank with (fg := 0). exists FB_DEFAULT_BG. intros col row Hc Hr. pose proof (proj2 I).
        rewrite HP by (by eapply on_screen_cell). rewrite (geo_height _ _ _ G), (proj2 (Z.ltb_ge _ _)) by lia. by rewrite glyph_blank.
  - split; [done|]. split; [done|]. split; [done|]. split; [done|]. exact Hb.
Qed.

Lemma scroll_if_below_good t f : good t f -> 0 <= cursor_x t < t_width t -> 0 <= cursor_y t <= t_height t ->
  exists t' f', scroll_if_below t f = Some (t', f') /\ good t' f' /\ same_screen f f' /\ keeps t t' /\ cursor_ok t' /\
    cursor_x t' = cursor_x t /\ cursor_y t' = Z.min (cursor_y t) (t_height t - 1) /\
    forall x y, grid t x y -> chr t' x y =
      if cursor_y t <? t_height t then chr t x y else if y <? t_height t - 1 then chr t x (y + 1) else 32.
Proof.
  intros Gd Hx Hy. pose proof (g_geo t f Gd) as G. destruct (geometry_size _ _ f G) as (_ & _ & Hh & _). pose proof (geo_h _ _ _ G) as Hh0.
  unfold scroll_if_below. destruct (Z.leb_spec (t_height t) (cursor_y t)) as [Hb|Hb].
  - destruct (scroll_good t f Gd) as (t1 & f1 & -> & G1 & S & K & Ecx & Ecy & Hc). cbn [mbind option_bind].
    pose proof K as (_ & _ & _ & Ew & Eh). eexists _, f1. split; [done|]. split; [eauto with nexus|]. split; [done|].
    rewrite (proj2 (Z.ltb_ge _ _)) by lia. rewrite Eh, wrap_small by (unfold fits; lia). split; [done|]. split.
    + unfold cursor_ok, grid, in_grid. cbn. rewrite Ew, Eh. lia.
    + cbn. split; [done|]. split; [lia|exact Hc].
  - eexists t, f. split; [done|]. split; [done|]. split; [done|]. split; [done|]. split; [split; lia|]. split; [done|]. split; [lia|].
    intros x y _. by rewrite (proj2 (Z.ltb_lt _ _)) by lia.
Qed.

(** ** The cursor *)

(** [f'] is [f] with something drawn into one cell of the grid. *)
Definition overdrawn t f f' (x y : Z) : Prop :=
  same_screen f f' /\ forall x' y' c fg, grid t x' y' -> (x', y') <> (x, y) -> cell_shows f x' y' c fg -> cell_shows f' x' y' c fg.

(** Only points of the 8 by 16 rectangle at [px], [py] differ. *)
Definition touched f f' (px py : Z) : Prop :=
  same_screen f f' /\ forall x y, on_screen f x y -> rect px 8 py 16 x y = false -> pixel f' x y = pixel f x y.

Lemma touched_refl f px py : touched f f px py.
Proof. by split. Qed.

Lemma touched_trans f1 f2 f3 px py : touched f1 f2 px py -> touched f2 f3 px py -> touched f1 f3 px py.
Proof. intros [S1 H1] [S2 H2]. split; [by etrans|]. intros x y O R. rewrite H2 by (done || by rewrite on_screen_same). by apply H1. Qed.

Lemma put_pixel_touched f0 f px py x y c : fb_ok f0 -> touched f0 f px py -> 0 <= px -> 0 <= py -> px <= x < px + 8 -> py <= y < py + 16 ->
  exists f', framebuffer_put_pixel f x y c = Some f' /\ touched f0 f' px py.
Proof.
  intros F T Hpx Hpy Hx Hy. destruct (put_pixel_painted f x y c) as (f' & E & S & H); [by eapply fb_ok_same; [|apply T]|lia|lia|].
  exists f'. split; [done|]. eapply touched_trans; [exact T|]. split; [done|]. intros x' y' O R. rewrite H by done.
  replace (rect x 1 y 1 x' y') with false; [done|]. symmetry. revert R. regions.
Qed.

(** The cursor of every style stays in its cell. *)
Lemma draw_cursor_touched f style px py : fb_ok f -> 0 <= px -> px + 8 < 2 ^ 32 -> 0 <= py -> py + 16 < 2 ^ 32 ->
  exists f', draw_cursor f style px py = Some f' /\ touched f f' px py.
Proof.
  intros F Hx Hx2 Hy Hy2. assert (Put : forall f' x y, touched f f' px py -> px <= x < px + 8 -> py <= y < py + 16 ->
    exists f'', framebuffer_put_pixel f' x y TERM_COLOR_NEON_GREEN = Some f'' /\ touched f f'' px py).
  { intros f' x y T ? ?. by apply put_pixel_touched. }
  assert (Loop : forall n body, 0 <= n ->
    (forall i f', 0 <= i < n -> touched f f' px py -> exists f'', body i f' = Some f'' /\ touched f f'' px py) ->
    forall f1, touched f f1 px py -> exists f', each body (seqZ 0 n) f1 = Some f' /\ touched f f' px py).
  { intros n body Hn Hb f1 T1. apply (each_inv body (fun _ f' => touched f f' px py) n 0 f1 Hn T1). intros k f' Hk. apply Hb. lia. }
  unfold draw_cursor, FONT_WIDTH, FONT_HEIGHT, fill_rect.
  destruct ((style =? 1) || (style =? 0)); [|destruct (style =? 2); [|destruct ((style =? 3) || (style =? 4)); [|destruct ((style =? 5) || (style =? 6))]]].
  - apply Loop; [lia| |apply touched_refl]. intros y f1 Hyy T1. apply Loop; [lia| |done]. intros x f2 Hxx T2.
    rewrite !wrap_small by (unfold fits; lia). apply Put; [done|lia|lia].
  - exists f. split; [done|apply touched_refl].
  - apply Loop; [lia| |apply touched_refl]. intros x f1 Hxx T1. rewrite !wrap_small by (unfold fits; lia).
    destruct (Put f1 (px + x) (py + 16 - 1) T1) as (f2 & -> & T2); [lia|lia|]. cbn [mbind option_bind]. apply Put; [done|lia|lia].
  - apply Loop; [lia| |apply touched_refl]. intros y f1 Hyy T1. rewrite !wrap_small by (unfold fits; lia).
    destruct (Put f1 px (py + y) T1) as (f2 & -> & T2); [lia|lia|]. cbn [mbind option_bind]. apply Put; [done|lia|lia].
  - exists f. split; [done|apply touched_refl].
Qed.

Lemma touched_overdrawn t f f' x y : geometry (t_width t) (t_height t) f -> grid t x y -> touched f f' (x * 8) (y * 16) -> overdrawn t f f' x y.
Proof.
  intros G I [S H]. split; [done|]. intros x' y' c fg I' Hne [bg Hs]. exists bg. intros col row Hc Hr.
  rewrite H; [by apply Hs|by eapply on_screen_cell|].
  destruct (decide (x' = x)) as [->|]; [destruct (decide (y' = y)) as [->|]; [done|]|]; regions.
Qed.

(** Between two operations the cursor may be drawn; it is then where the cursor is. *)
Definition shown t f : Prop :=
  good t f \/ (cursor_enabled t = true /\ last_rendered_x t = cursor_x t /\ last_rendered_y t = cursor_y t /\
               exists f0, good t f0 /\ overdrawn t f0 f (cursor_x t) (cursor_y t)).

Lemma overdrawn_refl t f x y : overdrawn t f f x y.
Proof. by split. Qed.

(** Everything but what the screen shows. *)
Record framed t f : Prop := Framed {
  fr_geo : geometry (t_width t) (t_height t) f;
  fr_buf : has_size (t_width t * t_height t) (buffer t);
  fr_att : has_size (t_width t * t_height t) (attr_buffer t);
  fr_last : grid t (last_rendered_x t) (last_rendered_y t);
  fr_params : params_ok (params t) }.

Lemma good_framed t f : good t f -> framed t f.
Proof. by intros []. Qed.

Lemma shown_framed t f : shown t f -> framed t f.
Proof.
  intros [Gd|(_ & _ & _ & f0 & [] & [S _])]; [by apply good_framed|]. split; try done. by eapply geometry_same.
Qed.

(** Erasing the cursor draws the cell where it was last drawn, or does nothing when
    the cursor is disabled. *)
Lemma erase_draws t f : framed t f -> cursor_ok t -> let x := last_rendered_x t in let y := last_rendered_y t in
  exists f', terminal_render_cursor t f false = Some (t, f') /\ same_screen f f' /\
    (cursor_enabled t = false /\ f' = f \/
     cell_shows f' x y (chr t x y) (att t x y) /\ overdrawn t f f' x y).
Proof.
  intros [G B A L P] [Cx Cy] x y. unfold terminal_render_cursor. rewrite andb_false_r.
  destruct (cursor_enabled t); cbn [negb]; [|exists f; split; [done|]; split; [done|by left]].
  rewrite (proj2 (Z.leb_gt _ _)), (proj2 (Z.leb_gt _ _)) by lia. cbn [orb].
  destruct (cell_index_grid t f _ _ G L) as [-> Hi]. rewrite (get_cell_grid (buffer t) _ _ 32 B Hi). cbn [mbind option_bind].
  rewrite (get_cell_grid (attr_buffer t) _ _ (fg_color t) A Hi). cbn [mbind option_bind]. rewrite (aget_default (fg_color t) 0 _ _ _ A Hi).
  destruct (draw_cell _ _ f _ _ (chr t x y) (att t x y) (bg_color t) G L) as (f' & E & S & Hd & Ho).
  unfold chr, att, x, y in E. rewrite E. cbn [mbind option_bind]. exists f'. split; [done|]. split; [done|]. right. split; [done|by split].
Qed.

(** Erasing makes the screen good. *)
Lemma erase_good t f : shown t f -> cursor_ok t ->
  exists f', terminal_render_cursor t f false = Some (t, f') /\ good t f' /\ same_screen f f'.
Proof.
  intros Hs Cu. destruct (erase_draws t f (shown_framed t f Hs) Cu) as (f' & E & S & Hc). exists f'. split; [done|]. split; [|done].
  assert (HD : forall f0, good t f0 -> overdrawn t f0 f (last_rendered_x t) (last_rendered_y t) ->
    cell_shows f' (last_rendered_x t) (last_rendered_y t) (chr t (last_rendered_x t) (last_rendered_y t)) (att t (last_rendered_x t) (last_rendered_y t)) ->
    overdrawn t f f' (last_rendered_x t) (last_rendered_y t) -> good t f').
  { intros f0 [G B A L P C] [S0 Ho] Hl [_ Ho']. split; try done; [by do 2 (eapply geometry_same; [|done])|]. intros x y I.
    destruct (decide ((x, y) = (last_rendered_x t, last_rendered_y t))) as [[= -> ->]|Hne]; [done|].
    apply Ho'; [done|done|]. apply Ho; [done|done|]. by apply C. }
  destruct Hc as [[En ->]|[Hl Ho]].
  - destruct Hs as [Gd|(? & _)]; [done|congruence].
  - destruct Hs as [Gd|(_ & Ex & Ey & f0 & Gd & O)]; [by apply (HD f Gd (overdrawn_refl t f _ _))|]. rewrite <- Ex, <- Ey in O. by apply (HD f0).
Qed.

Lemma overdrawn_trans t f1 f2 f3 x y : overdrawn t f1 f2 x y -> overdrawn t f2 f3 x y -> overdrawn t f1 f3 x y.
Proof. intros [S1 H1] [S2 H2]. split; [by etrans|]. auto. Qed.

(** Drawing or erasing the cursor outside of a batch. *)
Lemma render_shown t f v : shown t f -> cursor_ok t -> cursor_suspended t = 0 ->
  exists t' f', terminal_render_cursor t f v = Some (t', f') /\ shown t' f' /\ same_screen f f' /\ keeps t t' /\
    cursor_x t' = cursor_x t /\ cursor_y t' = cursor_y t /\ buffer t' = buffer t.
Proof.
  intros Sh Cu Hs. destruct v.
  2: { destruct (erase_good t f Sh Cu) as (f' & -> & Gd' & S). exists t, f'. split; [done|]. split; [by left|done]. }
  unfold terminal_render_cursor. destruct (cursor_enabled t) eqn:Een; cbn [negb]; [|by exists t, f].
  rewrite Hs. cbn [Z.ltb Z.compare andb]. pose proof Cu as [Cx Cy]. rewrite (proj2 (Z.leb_gt _ _)), (proj2 (Z.leb_gt _ _)) by lia. cbn [orb].
  pose proof (fr_geo t f (shown_framed t f Sh)) as G. destruct (geometry_size _ _ f G) as (_ & Hw & Hh & _).
  pose proof (geo_w _ _ _ G). pose proof (geo_h _ _ _ G). unfold FONT_WIDTH, FONT_HEIGHT. rewrite !(wrap_small 32 (_ * _)) by (unfold fits; lia).
  destruct (draw_cursor_touched f (cursor_style t) (cursor_x t * 8) (cursor_y t * 16) (geo_fb _ _ _ G)) as (f' & -> & T); [lia..|].
  cbn [mbind option_bind]. eexists _, f'. split; [done|]. split; [right|by split; [apply T|]].
  split; [done|]. split; [done|]. split; [done|]. apply (touched_overdrawn t) in T; [|done|done].
  destruct Sh as [Gd|(_ & _ & _ & f0 & Gd & O)]; [exists f; split; [by apply good_last|done]|exists f0; split; [by apply good_last|]].
  by eapply overdrawn_trans.
Qed.

(** In a batch the cursor is not drawn. *)
Lemma render_batch t f v : good t f -> cursor_ok t -> 0 < cursor_suspended t ->
  exists f', terminal_render_cursor t f v = Some (t, f') /\ good t f' /\ same_screen f f'.
Proof.
  intros Gd Cu Hs. destruct v.
  - unfold terminal_render_cursor. rewrite (proj2 (Z.ltb_lt _ _) Hs). cbn [andb]. exists f. by destruct (cursor_enabled t).
  - apply erase_good; [by left|done].
Qed.

(** ** Printing on paper

    An endless roll of lines of [w] characters and a print head: what a terminal
    without a lower edge would do. *)

Record paper := Paper { line : Z -> Z -> Z; p_col : Z; p_row : Z }.

Definition write_cell (p : paper) (c : Z) : Z -> Z -> Z :=
  fun r x => if decide ((r, x) = (p_row p, p_col p)) then c else line p r x.

(** The next line, when the head is beyond the right margin. *)
Definition margin (w : Z) (p : paper) : paper := if w <=? p_col p then Paper (line p) 0 (p_row p + 1) else p.

(** Line feed, carriage return, backspace, tabulator, other characters. *)
Definition strike (c : Z) (p : paper) : paper :=
  if c =? 10 then Paper (line p) 0 (p_row p + 1)
  else if c =? 13 then Paper (line p) 0 (p_row p)
  else if c =? 8 then
    if 0 <? p_col p then let p' := Paper (line p) (p_col p - 1) (p_row p) in Paper (write_cell p' 32) (p_col p') (p_row p') else p
  else if c =? 9 then Paper (line p) ((p_col p / 8 + 1) * 8) (p_row p)
  else Paper (write_cell p c) (p_col p + 1) (p_row p).

Definition type_char (w : Z) (p : paper) (c : Z) : paper := margin w (strike c p).

(** The screen is the window on the paper that starts at the line [top]; there is
    nothing below it. *)
Record window (top : Z) (p : paper) t : Prop := Window {
  w_col : cursor_x t = p_col p;
  w_row : cursor_y t = p_row p - top;
  w_cells : forall x y, grid t x y -> chr t x y = line p (top + y) x;
  w_below : forall r x, top + t_height t <= r -> line p r x = 32 }.

(** The window follows the head. *)
Definition follow (h top : Z) (p : paper) : Z := Z.max top (p_row p - (h - 1)).

(** Wrapping at the margin and scrolling at the lower edge. *)
Lemma finish_char t f top p : good t f -> window top p t -> 0 <= cursor_x t -> 0 <= cursor_y t ->
  cursor_y t < t_height t \/ (cursor_y t = t_height t /\ cursor_x t < t_width t) ->
  exists t' f', scroll_if_below (wrap_line t) f = Some (t', f') /\ good t' f' /\ same_screen f f' /\ keeps t t' /\ cursor_ok t' /\
    let p' := margin (t_width t) p in window (follow (t_height t) top p') p' t'.
Proof.
  intros Gd Wn Hx Hy Hb. pose proof (g_geo t f Gd) as G. destruct (geometry_size _ _ f G) as (_ & Hw & Hh & _).
  pose proof (geo_w _ _ _ G). pose proof (geo_h _ _ _ G).
  set (t1 := wrap_line t). assert (H1 : good t1 f /\ keeps t t1 /\ 0 <= cursor_x t1 < t_width t /\ 0 <= cursor_y t1 <= t_height t /\
    window top (margin (t_width t) p) t1).
  { subst t1. unfold wrap_line, margin. rewrite <- (w_col _ _ _ Wn). destruct (Z.leb_spec (t_width t) (cursor_x t)).
    - rewrite wrap_small by (unfold fits; lia). split; [by apply good_cursor|]. split; [done|]. split; [cbn; lia|]. split; [cbn; lia|].
      destruct Wn. split; try done. cbn. lia.
    - split; [done|]. split; [done|]. split; [lia|]. split; [lia|done]. }
  destruct H1 as (G1 & K1 & Hx1 & Hy1 & W1). pose proof K1 as (_ & _ & _ & Ew & Eh).
  destruct (scroll_if_below_good t1 f G1) as (t2 & f2 & E & G2 & S & K2 & C2 & Ex2 & Ey2 & Hc); [lia|lia|].
  pose proof K2 as (_ & _ & _ & Ew2 & Eh2). exists t2, f2. split; [done|]. split; [done|]. split; [done|]. split; [by etrans|]. split; [done|].
  intros p'. fold p' in W1. destruct W1 as [Wx Wy Wc Wb]. unfold follow. rewrite Eh in *.
  assert (Hf : Z.max top (p_row p' - (t_height t - 1)) = if cursor_y t1 <? t_height t then top else top + 1).
  { case_bool; lia. }
  rewrite Hf. split; [lia|destruct (Z.ltb_spec (cursor_y t1) (t_height t)); lia| |].
  - intros x y I. unfold grid in I. rewrite Ew2, Eh2, Ew in I. rewrite Hc by (unfold grid; by rewrite Ew, Eh).
    destruct (Z.ltb_spec (cursor_y t1) (t_height t)); [apply Wc; unfold grid; by rewrite Ew, Eh|].
    destruct I as [? ?]. destruct (Z.ltb_spec y (t_height t - 1)).
    + rewrite Wc by (unfold grid; rewrite Ew, Eh; split; lia). f_equal. lia.
    + symmetry. apply Wb. lia.
  - intros r x Hr. rewrite Eh2 in Hr. apply Wb. destruct (Z.ltb_spec (cursor_y t1) (t_height t)); lia.
Qed.

Lemma write_cell_window top p t c : window top p t -> cursor_ok t ->
  (forall x y, grid t x y -> write_cell p c (top + y) x = if decide ((x, y) = (cursor_x t, cursor_y t)) then c else chr t x y) /\
  (forall r x, top + t_height t <= r -> write_cell p c r x = 32).
Proof.
  intros [Wx Wy Wc Wb] [Cx Cy]. unfold write_cell. split.
  - intros x y I. rewrite Wx, Wy. destruct (decide ((x, y) = _)) as [[= -> ->]|Hne].
    + rewrite decide_True; [done|]. f_equal. lia.
    + rewrite decide_False; [by rewrite Wc|]. intros [= ? ?]. apply Hne. f_equal; lia.
  - intros r x Hr. rewrite decide_False; [by apply Wb|]. intros [= ? ?]. lia.
Qed.

Lemma chr_set_cell t b c x y x' y' a : has_size (t_width t * t_height t) (buffer t) -> grid t x y -> grid t x' y' ->
  b = aset (default [] (buffer t)) (y * t_width t + x) c ->
  chr (set_buffers t (Some b) a) x' y' = if decide ((x', y') = (x, y)) then c else chr t x' y'.
Proof. intros B I I' ->. unfold chr. cbn [set_buffers buffer t_width]. by apply (aget_cell_upd 32 (buffer t) (t_width t * t_height t) t). Qed.

(** One character, in a batch: the screen stays good, and the window follows the
    paper. *)
Lemma putchar_good t f c top p : good t f -> cursor_ok t -> 0 < cursor_suspended t -> window top p t ->
  exists t' f', terminal_putchar t f c = Some (t', f') /\ good t' f' /\ same_screen f f' /\ keeps t t' /\ cursor_ok t' /\
    let p' := type_char (t_width t) p c in window (follow (t_height t) top p') p' t'.
Proof.
  intros Gd Cu Hs Wn. pose proof (g_geo t f Gd) as G. destruct (geometry_size _ _ f G) as (_ & Hw & Hh & _).
  pose proof (geo_w _ _ _ G). pose proof (geo_h _ _ _ G). pose proof Cu as [Cx Cy]. pose proof Wn as [Wx Wy Wc Wb].
  unfold terminal_putchar. rewrite (proj2 (Z.eqb_neq (cursor_suspended t) 0)) by lia. cbn [mbind option_bind].
  assert (Fin : forall t2 f2, good t2 f2 -> same_screen f f2 -> keeps t t2 -> window top (strike c p) t2 ->
    0 <= cursor_x t2 -> 0 <= cursor_y t2 -> cursor_y t2 < t_height t \/ (cursor_y t2 = t_height t /\ cursor_x t2 < t_width t) ->
    exists t' f', ('(t3, f3) ← scroll_if_below (wrap_line t2) f2;
      if cursor_suspended t3 =? 0 then terminal_render_cursor t3 f3 (cursor_blink_visible t3) else Some (t3, f3)) = Some (t', f') /\
      good t' f' /\ same_screen f f' /\ keeps t t' /\ cursor_ok t' /\
      let p' := type_char (t_width t) p c in window (follow (t_height t) top p') p' t').
  { intros t2 f2 G2 S2 K2 W2 Hx2 Hy2 Hb2. pose proof K2 as (_ & _ & _ & Ew2 & Eh2).
    destruct (finish_char t2 f2 top (strike c p)) as (t3 & f3 & -> & G3 & S3 & K3 & C3 & W3); [done..|lia|].
    cbn [mbind option_bind]. assert (K : keeps t t3) by (by etrans). pose proof K as (_ & _ & Es & _).
    rewrite (proj2 (Z.eqb_neq (cursor_suspended t3) 0)) by lia. exists t3, f3. rewrite Ew2, Eh2 in W3.
    split; [done|]. split; [done|]. split; [by etrans|]. split; [done|]. split; [done|exact W3]. }
  unfold strike in Fin. destruct (Z.eqb_spec c 10) as [->|N10].
  { cbn [mbind option_bind]. apply Fin; [by apply good_cursor|done|done| |done|cbn; rewrite wrap_small by (unfold fits; lia); lia|cbn; rewrite wrap_small by (unfold fits; lia); lia].
    split; try done. cbn. rewrite wrap_small by (unfold fits; lia). lia. }
  destruct (Z.eqb_spec c 13) as [->|N13].
  { cbn [mbind option_bind]. apply Fin; [by apply good_cursor|done|done| |done|cbn; lia|cbn; lia]. split; done. }
  destruct (Z.eqb_spec c 8) as [->|N8].
  { unfold put_backspace. rewrite Wx in *. destruct (Z.ltb_spec 0 (p_col p)) as [Hpos|Hz]; cbn [mbind option_bind].
    2: { apply Fin; [done|done|done|done|lia|lia|lia]. }
    set (t1 := set_cursor t (p_col p - 1) (cursor_y t)). assert (G1 : good t1 f) by (by apply good_cursor).
    assert (I1 : grid t1 (cursor_x t1) (cursor_y t1)) by (split; cbn; lia).
    destruct (blank_at t1 f _ _ G1 I1) as (f1 & b & -> & Eb & S1 & G1'). cbn [mbind option_bind]. rewrite Eb. cbn [mbind option_bind].
    destruct (cell_index_grid t1 f _ _ (g_geo _ _ G1) I1) as [Ei Hi]. rewrite Ei in Eb.
    destruct (set_cell_grid (buffer t1) _ _ 32 (g_buf _ _ G1) Hi) as [Eb' _]. rewrite Eb' in Eb. injection Eb as <-.
    apply Fin; [done|done|done| |cbn; lia|cbn; lia|cbn; lia].
    destruct (write_cell_window top (Paper (line p) (p_col p - 1) (p_row p)) t1 32) as [Hc Hb]; [split; try done; cbn; lia|done|].
    split; [done|done| |exact Hb]. intros x y I. cbn [line]. rewrite Hc by done. erewrite chr_set_cell; [|apply (g_buf _ _ G1)|exact I1|exact I|done].
    done. }
  destruct (Z.eqb_spec c 9) as [->|N9].
  { cbn [mbind option_bind]. assert (E : Z.ldiff (u32 (cursor_x t + 8)) 7 = (cursor_x t / 8 + 1) * 8).
    { rewrite wrap_small by (unfold fits; lia). change 7 with (Z.ones 3). rewrite Z.ldiff_ones_r, Z.shiftr_div_pow2, Z.shiftl_mul_pow2 by lia.
      change (2 ^ 3) with 8. f_equal. zmod. }
    rewrite E. pose proof (Z.div_pos (cursor_x t) 8). apply Fin; [by apply good_cursor|done|done| |cbn; lia|cbn; lia|cbn; lia].
    split; try done. cbn. by rewrite Wx. }
  assert (E1 : scroll_if_below (wrap_line t) f = Some (t, f)).
  { unfold wrap_line, scroll_if_below. rewrite (proj2 (Z.leb_gt (t_width t) _)) by lia. by rewrite (proj2 (Z.leb_gt (t_height t) _)) by lia. }
  unfold put_glyph. rewrite E1. cbn [mbind option_bind].
  destruct (glyph_at t f (cursor_x t) (cursor_y t) c Gd Cu) as (f2 & b & a & -> & Eb & Ea & Hb' & S2 & G2). cbn [mbind option_bind].
  rewrite Eb. cbn [mbind option_bind]. rewrite Ea. cbn [mbind option_bind]. rewrite (wrap_small 32 (cursor_x t + 1)) by (unfold fits; lia).
  apply Fin; [by apply good_cursor|done|done| |cbn; lia|cbn; lia|cbn; lia].
  destruct (write_cell_window top p t c Wn Cu) as [Hc Hb]. split; [cbn; lia|done| |exact Hb].
  intros x y I. cbn [line]. rewrite Hc by done. change (chr (set_cursor (set_buffers t (Some b) a) (cursor_x t + 1) (cursor_y t)) x y) with (chr (set_buffers t (Some b) a) x y).
  erewrite chr_set_cell; [|apply (g_buf _ _ Gd)|exact Cu|exact I|exact Hb']. done.
Qed.

(** ** Clearing *)

(** Clearing, whatever the screen shows. *)
Lemma clear_good t f : framed t f -> cursor_ok t -> 0 <= cursor_suspended t ->
  exists t' f', terminal_clear t f = Some (t', f') /\ same_screen f f' /\ keeps t t' /\ cursor_ok t' /\
    (0 < cursor_suspended t -> good t' f') /\ (cursor_suspended t = 0 -> shown t' f').
Proof.
  intros Hs Cu H0. destruct (erase_draws t f Hs Cu) as (f1 & E1 & S1 & _).
  destruct Hs as [G0 B A L P]. pose proof (geometry_same _ _ _ _ G0 S1) as G. unfold terminal_clear. rewrite E1. cbn [mbind option_bind].
  destruct (clear_painted f1 (bg_color t) (geo_fb _ _ _ G)) as (f2 & -> & S2 & H2). cbn [mbind option_bind].
  destruct (geometry_size _ _ f1 G) as (Hsz & _). pose proof (geo_w _ _ _ G) as Hw. pose proof (geo_h _ _ _ G) as Hh.
  cbn [set_cursor t_width t_height buffer attr_buffer]. rewrite wrap_small by (unfold fits; nia). destruct B as (l & Eb & Hl). rewrite Eb.
  rewrite (proj2 (Z.ltb_ge _ _)) by lia. cbn [mbind option_bind]. set (b := replicate _ _ ++ _). set (t3 := set_last _ 0 0).
  assert (Hb : b = replicate (Z.to_nat (t_width t * t_height t)) 32).
  { unfold b. rewrite drop_ge by (unfold alen in Hl; lia). apply app_nil_r. }
  assert (G3 : good t3 f2).
  { split; try done.
    - by eapply geometry_same.
    - exists b. split; [done|]. rewrite Hb. unfold alen. rewrite length_replicate. cbn. nia.
    - intros x y I. exists (bg_color t). intros col row Hc Hr. rewrite H2 by (eapply on_screen_cell; [exact G|exact I|done|done]).
      unfold chr. cbn [t3 set_last set_buffers set_cursor buffer t_width]. simpl default. rewrite Hb, aget_replicate by (pose proof (grid_index _ _ _ _ I) as Hi; cbn in Hi; lia).
      by rewrite glyph_blank. }
  assert (C3 : cursor_ok t3) by (split; cbn; lia). assert (K3 : keeps t t3) by done. assert (S : same_screen f f2) by (by do 2 etrans).
  destruct (Z.lt_ge_cases 0 (cursor_suspended t)) as [Hsus|Hsus].
  - destruct (render_batch t3 f2 (cursor_blink_visible t3) G3 C3 Hsus) as (f3 & -> & G4 & S4). exists t3, f3. split_and!; try done; [by etrans|lia].
  - assert (Hz : cursor_suspended t = 0) by lia.
    destruct (render_shown t3 f2 (cursor_blink_visible t3) (or_introl G3) C3 Hz) as (t4 & f3 & -> & Sh & S4 & K4 & Ex & Ey & _). exists t4, f3.
    split; [done|]. split; [by etrans|]. split; [by etrans|]. pose proof K4 as (_ & _ & _ & Ew & Eh).
    split; [unfold cursor_ok, grid; rewrite Ew, Eh, Ex, Ey; exact C3|]. split; [lia|done].
Qed.

(** ** Control sequences *)

Lemma erase_line_good t f : good t f -> cursor_ok t ->
  exists t' f', erase_line t f = Some (t', f') /\ good t' f' /\ same_screen f f' /\ keeps t t' /\ cursor_ok t'.
Proof.
  intros Gd Cu. pose proof Cu as [Cx Cy]. unfold erase_line. set (body := fun x '(t, f) => _).
  destruct (each_inv body (fun _ '(t', f') => good t' f' /\ same_screen f f' /\ keeps t t' /\ cursor_x t' = cursor_x t /\ cursor_y t' = cursor_y t)
    (t_width t - cursor_x t) (cursor_x t) (t, f)) as ([t' f'] & E & G' & S & K & Ex & Ey).
  - lia.
  - done.
  - intros x [t1 f1] Hx (G1 & S1 & K1 & Ex & Ey). pose proof K1 as (_ & _ & _ & Ew & Eh).
    assert (I : grid t1 x (cursor_y t1)) by (unfold grid; rewrite Ew, Eh, Ey; split; lia).
    destruct (blank_at t1 f1 x (cursor_y t1) G1 I) as (f2 & b & Ed & Eb & S2 & G2). unfold body. rewrite Eb. cbn [mbind option_bind].
    rewrite Ed. cbn [mbind option_bind]. eexists. split; [done|]. split; [done|]. split; [by etrans|done].
  - exists t', f'. split; [exact E|]. split; [done|]. split; [done|]. split; [done|]. pose proof K as (_ & _ & _ & Ew & Eh).
    unfold cursor_ok, grid. by rewrite Ew, Eh, Ex, Ey.
Qed.

Lemma sgr_param_same t f p : good t f -> good (sgr_param t p) f /\ keeps t (sgr_param t p) /\
  cursor_x (sgr_param t p) = cursor_x t /\ cursor_y (sgr_param t p) = cursor_y t.
Proof. intros Gd. unfold sgr_param. repeat match goal with |- context [if ?b then _ else _] => destruct b end; by (split; [auto with nexus|]). Qed.

Lemma cursor_keeps t t' : cursor_ok t -> keeps t t' -> cursor_x t' = cursor_x t -> cursor_y t' = cursor_y t -> cursor_ok t'.
Proof. intros C (_ & _ & _ & Ew & Eh) Ex Ey. unfold cursor_ok, grid. by rewrite Ew, Eh, Ex, Ey. Qed.

Lemma sgr_good t f : good t f -> cursor_ok t -> param_count t <= VT_MAX_PARAMS ->
  exists t', terminal_handle_sgr t = Some t' /\ good t' f /\ keeps t t' /\ cursor_ok t'.
Proof.
  intros Gd Cu Hn. unfold terminal_handle_sgr. destruct (Z.eqb_spec (param_count t) 0) as [|Hnz].
  { eexists. split; [done|]. split; [by apply good_graphics|done]. }
  destruct (Z.lt_ge_cases (param_count t) 0) as [Hneg|Hpos].
  { rewrite seqZ_nil by lia. by exists t. }
  destruct (each_inv (fun i t => p ← params t !! Z.to_nat i; Some (sgr_param t p))
    (fun _ t' => good t' f /\ keeps t t' /\ cursor_x t' = cursor_x t /\ cursor_y t' = cursor_y t) (param_count t) 0 t)
    as (t' & E & G' & K & Ex & Ey); [lia|done| |].
  - intros i t1 Hi (G1 & K1 & Ex & Ey). destruct (lookup_lt_is_Some_2 (params t1) (Z.to_nat i)) as [p Ep].
    { pose proof (g_params _ _ G1) as [Hp _]. unfold alen, VT_MAX_PARAMS in *. lia. }
    rewrite Ep. cbn [mbind option_bind]. destruct (sgr_param_same t1 f p G1) as (G2 & K2 & Ex2 & Ey2). eexists. split; [done|].
    split; [done|]. split; [by etrans|]. split; congruence.
  - exists t'. split; [exact E|]. split; [done|]. split; [done|]. by eapply cursor_keeps.
Qed.

Lemma clamp (n x : Z) : 0 < n -> n < 2 ^ 32 -> 0 <= x -> 0 <= (if n <=? x then u32 (n - 1) else x) < n.
Proof. intros. case_bool; [rewrite wrap_small by (unfold fits; lia)|]; lia. Qed.

Lemma dec_nonneg p : 0 <= p -> 0 <= dec_if_pos p.
Proof. unfold dec_if_pos. intros. case_bool; lia. Qed.

Lemma param_at t f i : good t f -> 0 <= i < VT_MAX_PARAMS -> exists p, params t !! Z.to_nat i = Some p /\ 0 <= p.
Proof.
  intros Gd Hi. destruct (g_params _ _ Gd) as [Hn HF]. destruct (lookup_lt_is_Some_2 (params t) (Z.to_nat i)) as [p E].
  { unfold alen in Hn. lia. }
  exists p. split; [done|]. by apply (Forall_lookup_1 _ _ _ _ HF E).
Qed.

(** The final character of a sequence. *)
Lemma csi_final_good t f c : good t f -> cursor_ok t -> 0 < cursor_suspended t -> vt_state t = VT_STATE_CSI ->
  (c = 109 -> param_count t <= VT_MAX_PARAMS) ->
  exists t' f', csi_final t f c = Some (t', f') /\ good t' f' /\ same_screen f f' /\ keeps t t' /\ cursor_ok t'.
Proof.
  intros Gd Cu Hs Hst Hn. pose proof (g_geo _ _ Gd) as G. destruct (geometry_size _ _ f G) as (_ & Hw & Hh & _).
  pose proof (geo_w _ _ _ G). pose proof (geo_h _ _ _ G). pose proof Cu as [Cx Cy].
  destruct (param_at t f 0 Gd) as (p0 & E0 & Hp0); [done|]. destruct (param_at t f 1 Gd) as (p1 & E1 & Hp1); [done|].
  assert (Stay : forall t', good t' f -> keeps t t' -> cursor_ok t' -> exists t'' f', Some (t', f) = Some (t'', f') /\ good t'' f' /\ same_screen f f' /\ keeps t t'' /\ cursor_ok t'').
  { intros t' ? ? ?. by exists t', f. }
  unfold csi_final. change (Z.to_nat 0) with 0%nat in E0. change (Z.to_nat 1) with 1%nat in E1. rewrite E0. cbn [mbind option_bind].
  destruct (Z.eqb_spec c 109) as [->|_].
  { destruct (sgr_good t f Gd Cu (Hn eq_refl)) as (t' & -> & ? & ? & ?). cbn [mbind option_bind]. by apply Stay. }
  destruct ((c =? 72) || (c =? 102)).
  { unfold cursor_position. rewrite E0. cbn [mbind option_bind]. rewrite E1. cbn [mbind option_bind]. apply Stay; [by apply good_cursor|done|].
    split; cbn [set_cursor cursor_x cursor_y t_width t_height].
    - apply clamp; [lia|lia|by apply dec_nonneg].
    - apply clamp; [lia|lia|by apply dec_nonneg]. }
  destruct (c =? 74).
  { destruct (clear_good t f) as (t' & f' & -> & ? & ? & ? & Hg & _); [by apply good_framed|done|lia|]. exists t', f'. auto. }
  destruct (c =? 75).
  { destruct (erase_line_good t f Gd Cu) as (t' & f' & -> & ? & ? & ? & ?). by exists t', f'. }
  destruct (c =? 67).
  { apply Stay; [by apply good_cursor|done|]. split; [|done]. cbn [set_cursor cursor_x t_width]. apply clamp; [lia|lia|].
    apply (wrap_fits 32). lia. }
  destruct (c =? 68).
  { apply Stay; [by apply good_cursor|done|]. split; [|done]. cbn [set_cursor cursor_x t_width]. unfold one_if_zero. repeat case_bool; lia. }
  rewrite (bool_decide_eq_false_2 (vt_state t = VT_STATE_DEC_SPACE)) by congruence. rewrite andb_false_r.
  destruct ((c =? 104) && _ && _); [by apply Stay; [apply good_look| |]|]. destruct ((c =? 108) && _ && _); [by apply Stay; [apply good_look| |]|].
  by apply Stay.
Qed.

(** ** The parser as an automaton

    States and parameter counts depend on the characters only.  A digit needs a
    parameter below the sixteenth to go to, and ESC [ m at most sixteen of them. *)

Definition csi_next (n c : Z) : terminal_vt_state * Z :=
  if c =? 63 then (VT_STATE_CSI, n) else if is_digit c then (VT_STATE_PARAM, n) else if c =? 59 then (VT_STATE_CSI, s32 (n + 1))
  else if c =? 32 then (VT_STATE_DEC_SPACE, n) else (VT_STATE_NORMAL, n).

Definition vt_next (s : terminal_vt_state * Z) (c : Z) : terminal_vt_state * Z :=
  let '(st, n) := s in
  match st with
  | VT_STATE_NORMAL => (if c =? 27 then VT_STATE_ESC else VT_STATE_NORMAL, n)
  | VT_STATE_ESC => if c =? 91 then (VT_STATE_CSI, 0) else (VT_STATE_NORMAL, n)
  | VT_STATE_CSI => csi_next n c
  | VT_STATE_DEC_SPACE => (if c =? 32 then VT_STATE_DEC_SPACE else VT_STATE_NORMAL, n)
  | VT_STATE_PARAM =>
      if is_digit c then (VT_STATE_PARAM, n) else if c =? 59 then (VT_STATE_CSI, s32 (n + 1)) else csi_next (s32 (n + 1)) c
  end.

Definition csi_fits (n c : Z) : bool :=
  if is_digit c then (0 <=? n) && (n <? VT_MAX_PARAMS) else if c =? 109 then n <=? VT_MAX_PARAMS else true.

Definition vt_fits (s : terminal_vt_state * Z) (c : Z) : bool :=
  let '(st, n) := s in
  match st with
  | VT_STATE_CSI => csi_fits n c
  | VT_STATE_PARAM => if is_digit c then (0 <=? n) && (n <? VT_MAX_PARAMS) else csi_fits (s32 (n + 1)) c
  | _ => true
  end.

Fixpoint sequences_fit (s : terminal_vt_state * Z) (data : list Z) : bool :=
  match data with [] => true | c :: data => vt_fits s c && sequences_fit (vt_next s c) data end.

(** Where the parser of a terminal is. *)
Definition parser t : terminal_vt_state * Z := (vt_state t, param_count t).

(** A terminal in a batch. *)
Record batch t f : Prop := Batch { b_good : good t f; b_cursor : cursor_ok t; b_susp : 0 < cursor_suspended t }.

Lemma batch_parser t f st ps n pm : batch t f -> params_ok ps -> batch (set_parser t st ps n pm) f.
Proof. intros [] ?. split; [by apply good_parser|done|done]. Qed.

Lemma set_param_batch t f st v : batch t f -> 0 <= v -> (0 <=? param_count t) && (param_count t <? VT_MAX_PARAMS) = true ->
  exists t', set_param t st v = Some t' /\ batch t' f /\ cursor_suspended t' = cursor_suspended t /\ parser t' = (st, param_count t).
Proof.
  intros B Hv Hn. pose proof (g_params _ _ (b_good _ _ B)) as [Hp HF]. unfold set_param. rewrite Hp, Hn. eexists. split; [done|].
  split; [|split; done]. apply batch_parser; [done|]. split; [by rewrite alen_aset|by apply Forall_aset].
Qed.

Lemma vt_csi_good t f c : batch t f -> vt_state t = VT_STATE_CSI -> csi_fits (param_count t) c = true ->
  exists t' f', vt_csi t f c = Some (t', f') /\ batch t' f' /\ same_screen f f' /\ cursor_suspended t' = cursor_suspended t /\
    parser t' = csi_next (param_count t) c.
Proof.
  intros B Hst Hfit. pose proof (g_params _ _ (b_good _ _ B)) as HP. unfold vt_csi, csi_next, csi_fits in *. rewrite Hst.
  destruct (c =? 63); [eexists _, f; split; [done|]; split; [by apply batch_parser|done]|].
  destruct (is_digit c) eqn:Ed.
  { destruct (set_param_batch t f VT_STATE_PARAM (c - 48) B) as (t' & -> & B' & ? & ?); [unfold is_digit in Ed; lia|done|].
    cbn [mbind option_bind]. by exists t', f. }
  destruct (c =? 59); [eexists _, f; split; [done|]; split; [by apply batch_parser|done]|].
  destruct (c =? 32); [eexists _, f; split; [done|]; split; [by apply batch_parser|done]|].
  destruct (csi_final_good t f c (b_good _ _ B) (b_cursor _ _ B) (b_susp _ _ B) Hst) as (t1 & f1 & -> & G1 & S1 & K1 & C1).
  { intros ->. rewrite Z.eqb_refl in Hfit. by apply Z.leb_le in Hfit. }
  cbn [mbind option_bind]. pose proof K1 as ([Es _] & En & Esus & _). rewrite bool_decide_eq_false_2 by congruence. eexists _, f1. split; [done|].
  split; [|split; [done|]; split; [done|]; unfold parser; cbn; by rewrite En].
  apply batch_parser; [split; [done|done|rewrite Esus; apply B]|apply G1].
Qed.

Lemma vt_char_good t f c : batch t f -> vt_fits (parser t) c = true ->
  exists t' f', vt_char t f c = Some (t', f') /\ batch t' f' /\ same_screen f f' /\ cursor_suspended t' = cursor_suspended t /\
    parser t' = vt_next (parser t) c.
Proof.
  intros B Hfit. pose proof (g_params _ _ (b_good _ _ B)) as HP. unfold vt_char, parser in *. cbn [vt_fits vt_next] in *.
  destruct (vt_state t) eqn:Est.
  - destruct (c =? 27); [eexists _, f; split; [done|]; split; [by apply batch_parser|done]|].
    destruct (putchar_good t f c 0 (Paper (fun r x => if decide (grid t x r) then chr t x r else 32) (cursor_x t) (cursor_y t))
      (b_good _ _ B) (b_cursor _ _ B) (b_susp _ _ B)) as (t' & f' & -> & G' & S' & K' & C' & _).
    { split; [done|cbn; lia|intros x y I; cbn; by rewrite decide_True|]. intros r x Hr. cbn. rewrite decide_False; [done|]. intros [_ ?]. lia. }
    pose proof K' as ([Es _] & En & Esus & _). exists t', f'. split; [done|]. split; [split; [done|done|rewrite Esus; apply B]|]. split; [done|]. split; [done|]. by rewrite Es, En, Est.
  - eexists _, f. split; [done|]. split; [|by destruct (c =? 91)]. destruct (c =? 91); apply batch_parser; try done.
    split; [done|]. apply Forall_replicate. lia.
  - by apply vt_csi_good.
  - destruct (is_digit c) eqn:Ed.
    { destruct (param_at t f (param_count t) (b_good _ _ B)) as (p & -> & Hp); [lia|]. cbn [mbind option_bind].
      destruct (set_param_batch t f VT_STATE_PARAM (u32 (p * 10 + (c - 48))) B) as (t' & -> & B' & ? & ?); [by apply (wrap_fits 32)|done|].
      cbn [mbind option_bind]. by exists t', f. }
    destruct (c =? 59); [eexists _, f; split; [done|]; split; [by apply batch_parser|done]|].
    apply vt_csi_good; [by apply batch_parser|done|done].
  - destruct (Z.eqb_spec c 113) as [->|_].
    { destruct (param_at t f 0 (b_good _ _ B)) as (p & E & _); [done|]. change (Z.to_nat 0) with 0%nat in E. rewrite E. cbn [mbind option_bind].
      eexists _, f. split; [done|]. split; [|done]. apply batch_parser; [|done]. destruct B. split; [by apply good_look|done|done]. }
    destruct (c =? 32); cbn [negb]; [by exists t, f; split; [|split; [|split; [|split; [|unfold parser; rewrite Est]]]]|].
    eexists _, f. split; [done|]. split; [by apply batch_parser|done].
Qed.

(** A text whose sequences fit. *)
Lemma vt_chars_good data : forall t f, batch t f -> sequences_fit (parser t) data = true ->
  exists t' f', vt_chars data (t, f) = Some (t', f') /\ batch t' f' /\ same_screen f f' /\ cursor_suspended t' = cursor_suspended t /\
    parser t' = foldl vt_next (parser t) data.
Proof.
  induction data as [|c data IH]; intros t f B Hfit; [by exists t, f|]. cbn [sequences_fit] in Hfit. apply andb_true_iff in Hfit as [Hc Hfit].
  unfold vt_chars. cbn [each foldl]. destruct (vt_char_good t f c B Hc) as (t1 & f1 & -> & B1 & S1 & E1 & P1). cbn [mbind option_bind].
  rewrite <- P1 in Hfit |- *. destruct (IH t1 f1 B1 Hfit) as (t' & f' & E & B' & S' & E' & P'). exists t', f'.
  split; [exact E|]. split; [done|]. split; [by etrans|]. split; [congruence|done].
Qed.

(** ** Whole operations *)

(** A terminal between two operations. *)
Record settled t f : Prop := Settled { s_shown : shown t f; s_cursor : cursor_ok t; s_susp : cursor_suspended t = 0 }.

Lemma shown_look t f en vis style : shown t f -> en = cursor_enabled t -> shown (set_cursor_look t en vis style) f.
Proof.
  intros [Gd|(En & Ex & Ey & f0 & Gd & O)] ->; [left; by apply good_look|right].
  split; [done|]. split; [done|]. split; [done|]. exists f0. split; [by apply good_look|done].
Qed.

Lemma shown_blink t f now : shown t f -> shown (set_blink_ms t now) f.
Proof.
  intros [Gd|(En & Ex & Ey & f0 & Gd & O)]; [left; by apply good_blink|right].
  split; [done|]. split; [done|]. split; [done|]. exists f0. split; [by apply good_blink|done].
Qed.

(** A batch that keeps the screen good, between hiding and showing the cursor. *)
Lemma write_frame t f now data (Q : terminal -> Prop) :
  (forall t1 f1, batch t1 f1 -> cursor_suspended t1 = 1 -> buffer t1 = buffer t -> cursor_x t1 = cursor_x t -> cursor_y t1 = cursor_y t ->
     keeps (set_suspended t 1) t1 -> exists t' f', vt_chars data (t1, f1) = Some (t', f') /\ batch t' f' /\ same_screen f1 f' /\ cursor_suspended t' = 1 /\ Q t') ->
  (forall t1 t2, keeps (set_suspended t1 0) t2 -> buffer t2 = buffer t1 -> cursor_x t2 = cursor_x t1 -> cursor_y t2 = cursor_y t1 -> Q t1 -> Q t2) ->
  settled t f ->
  exists t' f', terminal_write t f now data = Some (t', f') /\ settled t' f' /\ same_screen f f' /\ Q t'.
Proof.
  intros Hrun HQ [Sh Cu Hs]. unfold terminal_write. set (t1 := set_blink_ms _ now).
  destruct (erase_good t1 f) as (f2 & -> & G2 & S2); [by apply shown_blink, shown_look|done|]. cbn [mbind option_bind]. change (cursor_suspended t1) with (cursor_suspended t).
  rewrite Hs. change (s32 (0 + 1)) with 1. set (t2 := set_suspended t1 1).
  destruct (Hrun t2 f2) as (t3 & f3 & -> & [G3 C3 _] & S3 & Es3 & Q3); try done; [split; [by apply good_suspended|done|done]|].
  cbn [mbind option_bind]. rewrite Es3. change (s32 (1 - 1)) with 0. set (t4 := set_suspended t3 0).
  destruct (render_shown t4 f3 (cursor_blink_visible t4)) as (t5 & f5 & E & Sh5 & S5 & K5 & Ex & Ey & Eb); [by left; apply good_suspended|done|done|].
  exists t5, f5. split; [exact E|]. split; [split; [done|by apply (cursor_keeps t4)|by destruct K5 as (_ & _ & -> & _)]|].
  split; [by do 2 etrans|]. by apply (HQ t3).
Qed.

Lemma write_shown t f now data : settled t f -> sequences_fit (parser t) data = true ->
  exists t' f', terminal_write t f now data = Some (t', f') /\ settled t' f' /\ same_screen f f' /\ parser t' = foldl vt_next (parser t) data.
Proof.
  intros St Hfit. apply (write_frame t f now data (fun t' => parser t' = foldl vt_next (parser t) data)); [| |done].
  - intros t1 f1 B Es _ _ _ ([Ev _] & En & _). assert (Hp : parser t1 = parser t) by (unfold parser; by rewrite Ev, En).
    rewrite <- Hp in Hfit |- *. destruct (vt_chars_good data t1 f1 B Hfit) as (t' & f' & E & B' & S' & Es' & P'). exists t', f'.
    split_and!; try done; [apply B'..|congruence].
  - intros t1 t2 ([Ev _] & En & _) _ _ _ <-. unfold parser. by rewrite Ev, En.
Qed.

Lemma tick_shown t f now : settled t f ->
  exists t' f', terminal_blink_tick t f now = Some (t', f') /\ settled t' f' /\ same_screen f f' /\ parser t' = parser t.
Proof.
  intros [Sh Cu Hs]. unfold terminal_blink_tick. rewrite Hs. cbn [Z.ltb Z.compare]. case_bool; [|by exists t, f].
  set (t1 := set_cursor_look _ _ _ _).
  destruct (render_shown t1 f (cursor_blink_visible t1)) as (t2 & f2 & -> & Sh2 & S2 & K2 & Ex & Ey & _); [by apply shown_look|done|done|].
  cbn [mbind option_bind]. assert (C2 : cursor_ok t2) by (by apply (cursor_keeps t1)). destruct K2 as ([E1 _] & E2 & Es & _).
  exists (set_blink_ms t2 now), f2. split; [done|]. split; [|split; [done|unfold parser; cbn; by rewrite E1, E2]].
  split; [by apply shown_blink|done|cbn; by rewrite Es].
Qed.

(** What happens to the terminal: output, the timer, a clear. *)
Inductive terminal_event := TermWrite (now : Z) (data : list Z) | TermTick (now : Z) | TermClear.

Definition terminal_event_step (e : terminal_event) (s : terminal * framebuffer) : option (terminal * framebuffer) :=
  match e with
  | TermWrite now data => terminal_write s.1 s.2 now data
  | TermTick now => terminal_blink_tick s.1 s.2 now
  | TermClear => terminal_clear s.1 s.2
  end.

Fixpoint terminal_events (es : list terminal_event) (s : terminal * framebuffer) : option (terminal * framebuffer) :=
  match es with [] => Some s | e :: es => s' ← terminal_event_step e s; terminal_events es s' end.

(** The sequences of all writes fit, also those that are cut between two writes. *)
Definition written (e : terminal_event) : list Z := match e with TermWrite _ data => data | _ => [] end.

Lemma sequences_fit_app l1 : forall s l2, sequences_fit s (l1 ++ l2) = sequences_fit s l1 && sequences_fit (foldl vt_next s l1) l2.
Proof. induction l1 as [|c l1 IH]; intros s l2; [done|]. cbn [app sequences_fit foldl]. rewrite IH. by rewrite andb_assoc. Qed.

(** Whatever is written to the terminal, ticks of the timer and clears in
    between: as long as no control sequence has more than sixteen parameters, every
    operation succeeds, the cursor stays on the screen, and in the end the screen
    shows the back buffer: each cell of the grid has the pixels of the glyph of its
    character in its colour on some background, except the cell under the cursor
    when that is drawn. *)
Theorem terminal_screen_consistent t f es : settled t f -> sequences_fit (parser t) (concat (written <$> es)) = true ->
  exists t' f', terminal_events es (t, f) = Some (t', f') /\ cursor_ok t' /\
    forall x y, grid t' x y -> (cursor_enabled t' = true /\ (x, y) = (cursor_x t', cursor_y t')) \/
      cell_shows f' x y (chr t' x y) (att t' x y).
Proof.
  intros St Hfit. assert (Run : exists t' f', terminal_events es (t, f) = Some (t', f') /\ settled t' f').
  { revert t f St Hfit. induction es as [|e es IH]; intros t f St Hfit; [by exists t, f|].
    cbn [fmap list_fmap concat] in Hfit. rewrite sequences_fit_app in Hfit. apply andb_true_iff in Hfit as [Hd Hfit].
    cbn [terminal_events]. destruct e as [now data|now|]; cbn [terminal_event_step written fst snd] in *.
    - destruct (write_shown t f now data St Hd) as (t1 & f1 & -> & St1 & _ & P1). cbn [mbind option_bind]. apply IH; [done|by rewrite P1].
    - destruct (tick_shown t f now St) as (t1 & f1 & -> & St1 & _ & P1). cbn [mbind option_bind]. apply IH; [done|by rewrite P1].
    - destruct St as [Sh Cu Hs]. destruct (clear_good t f (shown_framed t f Sh) Cu) as (t1 & f1 & -> & _ & K1 & C1 & _ & Sh1); [lia|].
      cbn [mbind option_bind]. destruct K1 as ([E1 _] & E2 & E3 & _). apply IH; [split; [by apply Sh1|done|by rewrite E3]|]. unfold parser. by rewrite E1, E2. }
  destruct Run as (t' & f' & E & [Sh Cu _]). exists t', f'. split; [done|]. split; [done|]. intros x y I.
  destruct Sh as [Gd|(En & _ & _ & f0 & Gd & _ & Ho)]; [right; by apply (g_clean _ _ Gd)|].
  destruct (decide ((x, y) = (cursor_x t', cursor_y t'))) as [|Hne]; [by left|right]. apply Ho; [done|done|]. by apply (g_clean _ _ Gd).
Qed.

(** ** Plain text *)

(** The screen as the top of a roll of paper. *)
Definition paper_of t : paper := Paper (fun r x => if decide (grid t x r) then chr t x r else 32) (cursor_x t) (cursor_y t).

Lemma window_paper_of t t' : buffer t' = buffer t -> keeps (set_suspended t 1) t' -> cursor_x t' = cursor_x t -> cursor_y t' = cursor_y t ->
  window 0 (paper_of t) t'.
Proof.
  intros Eb (_ & _ & _ & Ew & Eh) Ex Ey. cbn in Ew, Eh. split; [done|cbn; lia| |].
  - intros x y I. unfold grid in I. rewrite Ew, Eh in I. cbn. rewrite decide_True by done. unfold chr. by rewrite Eb, Ew.
  - intros r x Hr. cbn. rewrite decide_False; [done|]. intros [_ ?]. lia.
Qed.

Lemma row_mono w p c : p_row p <= p_row (type_char w p c).
Proof. unfold type_char, margin, strike. repeat (case_bool; cbn; try lia). Qed.

Lemma rows_mono w data : forall p, p_row p <= p_row (foldl (type_char w) p data).
Proof. induction data as [|c data IH]; intros p; [done|]. cbn [foldl]. pose proof (row_mono w p c). pose proof (IH (type_char w p c)). lia. Qed.

Lemma print_chars data : forall t f top p, batch t f -> vt_state t = VT_STATE_NORMAL -> Forall (fun c => c <> 27) data -> window top p t ->
  exists t' f', vt_chars data (t, f) = Some (t', f') /\ batch t' f' /\ same_screen f f' /\ keeps t t' /\
    let p' := foldl (type_char (t_width t)) p data in window (match data with [] => top | _ => follow (t_height t) top p' end) p' t'.
Proof.
  induction data as [|c data IH]; intros t f top p B Hst HF Wn; [by exists t, f|]. apply Forall_cons in HF as [Hc HF].
  unfold vt_chars. cbn [each foldl]. unfold vt_char. rewrite Hst, (proj2 (Z.eqb_neq c 27) Hc).
  destruct (putchar_good t f c top p (b_good _ _ B) (b_cursor _ _ B) (b_susp _ _ B) Wn) as (t1 & f1 & -> & G1 & S1 & K1 & C1 & W1).
  cbn [mbind option_bind]. pose proof K1 as ([Es _] & _ & Esus & Ew & Eh).
  assert (B1 : batch t1 f1) by (split; [done|done|rewrite Esus; apply B]).
  destruct (IH t1 f1 _ _ B1 (eq_trans Es Hst) HF W1) as (t' & f' & E & B' & S' & K' & W').
  exists t', f'. split; [exact E|]. split; [done|]. split; [by etrans|]. split; [by etrans|]. cbv zeta in *. rewrite Ew, Eh in W'.
  destruct data as [|c' data]; [exact W'|]. replace (follow (t_height t) top _) with
    (follow (t_height t) (follow (t_height t) top (type_char (t_width t) p c)) (foldl (type_char (t_width t)) (type_char (t_width t) p c) (c' :: data))); [exact W'|].
  pose proof (rows_mono (t_width t) (c' :: data) (type_char (t_width t) p c)). unfold follow. lia.
Qed.

(** C38.  Printing plain text (no escape characters; line feeds, carriage returns,
    backspaces and tabulators included) is typing it on an endless roll of paper
    whose lines have the width of the terminal, and showing the window of the
    terminal's height that ends at the lowest line reached: wrapping at the right
    margin and scrolling lose nothing of that and add nothing. *)
Theorem terminal_write_prints t f now data : settled t f -> vt_state t = VT_STATE_NORMAL -> Forall (fun c => c <> 27) data ->
  exists t' f', terminal_write t f now data = Some (t', f') /\ settled t' f' /\
    let p := foldl (type_char (t_width t)) (paper_of t) data in
    let top := Z.max 0 (p_row p - (t_height t - 1)) in
    cursor_x t' = p_col p /\ cursor_y t' = p_row p - top /\
    forall x y, grid t x y -> chr t' x y = line p (top + y) x.
Proof.
  intros St Hst HF. set (p := foldl _ _ data). pose proof (geo_h _ _ _ (fr_geo _ _ (shown_framed _ _ (s_shown _ _ St)))) as Hh.
  destruct (write_frame t f now data (fun t' => window (follow (t_height t) 0 p) p t' /\ t_width t' = t_width t /\ t_height t' = t_height t))
    as (t' & f' & E & St' & _ & [Wx Wy Wc _] & Ew & Eh); [| |done|].
  - intros t1 f1 B Es Eb Ex Ey K1. pose proof K1 as ([Ev _] & _ & _ & Ew & Eh).
    destruct (print_chars data t1 f1 0 (paper_of t) B) as (t' & f' & Er & B' & S' & K' & W'); [by rewrite Ev|done|by apply window_paper_of|].
    pose proof K' as (_ & _ & Es' & Ew' & Eh'). cbn in Ew, Eh. exists t', f'. split; [done|]. split; [done|]. split; [done|]. split; [congruence|].
    cbv zeta in W'. rewrite Ew, Eh in W'. fold p in W'. split; [|split; congruence]. destruct data; [|exact W'].
    replace (follow (t_height t) 0 p) with 0; [exact W'|]. pose proof (proj2 (s_cursor _ _ St)). unfold follow, p. cbn. lia.
  - intros t1 t2 (_ & _ & _ & Ew & Eh) Eb Ex Ey ([Wx Wy Wc Wb] & Hw & Hh'). cbn in Ew, Eh. split; [|split; congruence]. split; [congruence|congruence| |].
    + intros x y I. unfold grid in I. rewrite Ew, Eh in I. rewrite <- Wc by done. unfold chr. by rewrite Eb, Ew.
    + intros r x Hr. apply Wb. by rewrite <- Eh.
  - exists t', f'. split; [done|]. split; [done|]. split; [done|]. split; [done|]. intros x y I. apply Wc. unfold grid. by rewrite Ew, Eh.
Qed.

(** ** A screen of four by two characters *)

Definition demo_screen : framebuffer :=
  Framebuffer (list_to_map ((fun i => (i, 0)) <$> seqZ 0 1024)) 32 32 128 true.

Definition demo_term : terminal :=
  Terminal 0 0 4 2 TERM_DEFAULT_FG TERM_DEFAULT_BG false VT_STATE_NORMAL (replicate 16 0) 0 0
    (Some (replicate 8 32)) (Some (replicate 8 0)) true true 5 0 0 0 0.

Lemma demo_memory i : 0 <= i < 1024 -> fb_mem demo_screen !! i = Some 0.
Proof.
  intros Hi. assert (E : forallb (fun i => bool_decide (fb_mem demo_screen !! i = Some 0)) (seqZ 0 1024) = true) by (vm_compute; reflexivity).
  rewrite forallb_forall in E. eapply bool_decide_eq_true, E. rewrite <- list_elem_of_In. apply elem_of_seqZ. lia.
Qed.

Lemma demo_settled : settled demo_term demo_screen.
Proof.
  assert (F : fb_ok demo_screen).
  { split; [done|split; vm_compute; congruence|vm_compute; congruence|vm_compute; congruence|].
    intros i Hi. exists 0. apply demo_memory. change (0 <= i < 1024) in Hi. done. }
  split; [left|split; cbn; lia|done]. split; [split; [done|cbn; lia|cbn; lia|cbn; lia|done]|by eexists|by eexists|split; cbn; lia| |].
  - split; [done|]. apply Forall_replicate. lia.
  - intros x y [Hx Hy]. cbn in Hx, Hy. unfold chr.
    change (default [] (buffer demo_term)) with (replicate 8 32). change (t_width demo_term) with 4. rewrite aget_replicate by lia.
    exists 0. intros col row Hc Hr. rewrite glyph_blank by done. unfold pixel. change (fb_pitch demo_screen / 4) with 32.
    by rewrite demo_memory by lia.
Qed.

(** ESC [ 31 m A LF B, a tick that hides the cursor, and ESC [ K. *)
Definition demo_events : list terminal_event :=
  [TermWrite 0 [27; 91; 51; 49; 109; 65; 10; 66]; TermTick 700; TermWrite 800 [27; 91; 75]].

Lemma terminal_screen_consistent_witness :
  exists t f, terminal_events demo_events (demo_term, demo_screen) = Some (t, f) /\ buffer t = Some [65; 32; 32; 32; 66; 32; 32; 32] /\
    cell_shows f 0 0 65 0x00AA0000.
Proof.
  destruct (terminal_screen_consistent demo_term demo_screen demo_events demo_settled) as (t & f & E & _ & Hc); [vm_compute; reflexivity|].
  assert (F : (fun '(t, f) => (t_width t, t_height t, cursor_x t, buffer t, attr_buffer t)) <$> terminal_events demo_events (demo_term, demo_screen) =
    Some (4, 2, 1, Some [65; 32; 32; 32; 66; 32; 32; 32], Some [0x00AA0000; 0; 0; 0; 0x00AA0000; 0; 0; 0])) by (vm_compute; reflexivity).
  rewrite E in F. cbn in F. injection F as Ew Eh Ex Eb Ea. exists t, f. split; [exact E|]. split; [exact Eb|].
  destruct (Hc 0 0) as [[_ He]|He]; [split; lia|congruence|]. unfold chr, att in He. rewrite Eb, Ea, Ew in He. exact He.
Defined.

(** abcde, LF, xy: the first line has scrolled away. *)
Lemma terminal_write_prints_witness :
  exists t' f', terminal_write demo_term demo_screen 0 [97; 98; 99; 100; 101; 10; 120; 121] = Some (t', f') /\
    cursor_x t' = 2 /\ cursor_y t' = 1 /\ chr t' 0 0 = 101 /\ chr t' 1 1 = 121.
Proof.
  destruct (terminal_write_prints demo_term demo_screen 0 [97; 98; 99; 100; 101; 10; 120; 121] demo_settled eq_refl)
    as (t' & f' & E & _ & Ex & Ey & Hc); [repeat (constructor; [lia|]); constructor|].
  exists t', f'. split; [exact E|]. split; [exact Ex|]. split; [exact Ey|].
  split; [rewrite Hc by (split; cbn; lia)|rewrite Hc by (split; cbn; lia)]; vm_compute; reflexivity.
Defined.

(** ** What goes wrong *)

(** The seventeenth parameter of a control sequence is stored behind the array. *)
Lemma seventeen_parameters_overrun t f : vt_state t = VT_STATE_CSI -> param_count t = 16 -> alen (params t) = VT_MAX_PARAMS ->
  vt_char t f 49 = None.
Proof. intros Es En Ep. unfold vt_char. rewrite Es. unfold vt_csi. cbn. unfold set_param. by rewrite En, Ep. Qed.

(** ESC [ m resets the colours and leaves bold on; ESC [ 0 m turns it off. *)
Lemma sgr_reset_keeps_bold t : param_count t = 0 -> terminal_handle_sgr t = Some (set_graphics t TERM_DEFAULT_FG TERM_DEFAULT_BG (bold t)).
Proof. intros En. unfold terminal_handle_sgr. by rewrite En. Qed.

(** The line that scrolls in has the default background, whatever is selected. *)
Lemma scroll_ignores_background t f t' f' x y : good t f -> terminal_scroll t f = Some (t', f') -> on_screen f x y ->
  fb_height f - 16 <= y -> pixel f' x y = FB_DEFAULT_BG.
Proof.
  intros Gd E O Hy. pose proof (g_geo _ _ Gd) as G. pose proof (geo_h _ _ _ G) as Hh.
  destruct (scroll_painted f 16 (geo_fb _ _ _ G)) as (f1 & Es & _ & HP); [rewrite (geo_height _ _ _ G); lia|].
  unfold terminal_scroll, FONT_HEIGHT in E. rewrite Es in E. cbn [mbind option_bind] in E.
  destruct (scroll_cells _ _ 32 _); [|done]. destruct (scroll_cells _ _ _ (attr_buffer t)); [|done]. injection E as <- <-.
  rewrite HP by done. by rewrite (proj2 (Z.ltb_ge _ _)) by lia.
Qed.

(** ESC in the middle of a sequence ends it and does not begin a new one: what
    follows is printed. *)
Lemma escape_aborts_sequence : foldl vt_next (VT_STATE_NORMAL, 0) [27; 91; 51; 27; 91] = (VT_STATE_NORMAL, 1).
Proof. reflexivity. Qed.

(** Cursor forward by 2^32 - 1 moves it back by one. *)
Lemma cursor_forward_wraps t f : 0 < cursor_x t < t_width t -> t_width t < 2 ^ 31 -> params t !! 0%nat = Some (2 ^ 32 - 1) ->
  csi_final t f 67 = Some (set_cursor t (cursor_x t - 1) (cursor_y t), f).
Proof.
  intros Hx Hw Ep. unfold csi_final. rewrite Ep. cbn [mbind option_bind Z.eqb Pos.eqb orb]. change (one_if_zero (2 ^ 32 - 1)) with (2 ^ 32 - 1).
  assert (E : u32 (cursor_x t + (2 ^ 32 - 1)) = cursor_x t - 1).
  { unfold wrap. replace (cursor_x t + (2 ^ 32 - 1)) with (cursor_x t - 1 + 1 * 2 ^ 32) by lia. rewrite Z.mod_add by lia. by apply Z.mod_small; lia. }
  rewrite E. by rewrite (proj2 (Z.leb_gt _ _)) by lia.
Qed.
