(* ===== verification/Pci.v ===== *)
(** The PCI bus (kernel/src/drivers/pci/pci.c, pci_ids.h) and the driver
    registry (kernel/src/drivers/driver_manager.c).

    The machine is a parameter: a state [W] with port accesses, the CPU's
    RFLAGS and the console.  [config_space] states what the PCI specification
    documents of configuration mechanism 1: the data port reaches the dword
    selected by the address port, a write changes the writable bits of the byte
    lanes it covers.  A driver is a parameter too: two functions on [W]. *)
From stdpp Require Import prelude gmap list strings.
From Stdlib Require Import ZArith Lia.
From S2P Require Import Prelude Spinlock Printf PrintfThm Framebuffer.

Open Scope Z_scope.

Class Machine (W : Type) := {
  outl : W -> Z -> Z -> W;
  outw : W -> Z -> Z -> W;
  outb : W -> Z -> Z -> W;
  inl : W -> Z -> W * Z;
  cpu_flags : W -> Z;
  set_cpu_flags : W -> Z -> W;
  kprintf_set_color : W -> Z -> Z -> W;
  kprint : W -> list Z -> W }.

(** ** The driver registry *)

Definition MAX_DRIVERS : Z := 64.

Record driver (W Dev : Type) := Driver {
  drv_name : list Z;
  probe : option (W -> Dev -> option (W * Z));
  init : option (W -> Dev -> option (W * Z)) }.

Arguments drv_name {W Dev}.
Arguments probe {W Dev}.
Arguments init {W Dev}.

(** [registered_drivers] holds pointers; [num_drivers] of them are in use. *)
Record registry := Registry {
  registered_drivers : list Z;
  num_drivers : Z;
  driver_lock : spinlock_t }.

Section drivers.
Context {W Dev : Type} `{Machine W} (drivers : Z -> driver W Dev).

(** A critical section of [driver_lock]. *)
Definition locked {A} (w : W) (r : registry) (body : W -> registry -> option (W * registry * A)) : option (W * registry * A) :=
  '(rflags1, l1) ← spinlock_acquire 1 (cpu_flags w) (driver_lock r);
  '(w2, r2, a) ← body (set_cpu_flags w rflags1) (Registry (registered_drivers r) (num_drivers r) l1);
  let '(rflags3, l3) := spinlock_release (cpu_flags w2) (driver_lock r2) in
  Some (set_cpu_flags w2 rflags3, Registry (registered_drivers r2) (num_drivers r2) l3, a).

Definition FAIL_COLOR : Z := 0x00FF4444.

Definition driver_register (w : W) (r : registry) (drv : Z) : option (W * registry) :=
  if drv =? 0 then Some (w, r)
  else
    '(w', r', full) ← locked w r (fun w r =>
      if MAX_DRIVERS <=? num_drivers r then Some (w, r, true)
      else if num_drivers r <? alen (registered_drivers r) then
        Some (w, Registry (aset (registered_drivers r) (num_drivers r) drv) (num_drivers r + 1) (driver_lock r), false)
      else None);
    Some (if full : bool then
            kprint (kprintf_set_color w' FAIL_COLOR FB_DEFAULT_BG)
              (txt "[FAIL] Driver manager: Maximum drivers reached, cannot register '" ++ drv_name (drivers drv) ++ txt "'" ++ [10])
          else w', r').

(** [for (j = i; j < num - 1; j++) a[j] = a[j + 1];]. *)
Fixpoint shift_down (a : list Z) (j : Z) (n : nat) : list Z :=
  match n with O => a | S n => shift_down (aset a j (aget 0 a (j + 1))) (j + 1) n end.

(** The search from index [i], [n] entries left. *)
Fixpoint unregister_from (r : registry) (drv i : Z) (n : nat) : registry :=
  match n with
  | O => r
  | S n =>
      if aget 0 (registered_drivers r) i =? drv then
        Registry (shift_down (registered_drivers r) i (Z.to_nat (num_drivers r - 1 - i))) (num_drivers r - 1) (driver_lock r)
      else unregister_from r drv (i + 1) n
  end.

Definition driver_unregister (w : W) (r : registry) (drv : Z) : option (W * registry) :=
  if drv =? 0 then Some (w, r)
  else
    '(w', r', _) ← locked w r (fun w r => Some (w, unregister_from r drv 0 (Z.to_nat (num_drivers r)), tt));
    Some (w', r').

(** [drv->probe && drv->probe(dev)], then [drv->init && drv->init(dev) == 0]. *)
Definition call_driver (f : option (W -> Dev -> option (W * Z))) (w : W) (dev : Dev) (ok : Z -> bool) : option (W * bool) :=
  match f with
  | Some f => '(w', v) ← f w dev; Some (w', ok v)
  | None => Some (w, false)
  end.

Definition try_driver (w : W) (dev : Dev) (drv : driver W Dev) : option (W * bool) :=
  '(w1, probed) ← call_driver (probe drv) w dev nonzero;
  if probed : bool then call_driver (init drv) w1 dev (fun v => v =? 0) else Some (w1, false).

Fixpoint probe_all (w : W) (dev : Dev) (ptrs : list Z) : option (W * Z) :=
  match ptrs with
  | [] => Some (w, 0)
  | p :: ptrs => '(w', claimed) ← try_driver w dev (drivers p); if claimed : bool then Some (w', p) else probe_all w' dev ptrs
  end.

Definition driver_probe_device (w : W) (r : registry) (dev : Dev) : option (W * registry * Z) :=
  locked w r (fun w r =>
    '(w', claimed) ← probe_all w dev (take (Z.to_nat (num_drivers r)) (registered_drivers r)); Some (w', r, claimed)).

End drivers.

(** ** Configuration space *)

Definition PCI_CONFIG_ADDRESS : Z := 0xCF8.
Definition PCI_CONFIG_DATA : Z := 0xCFC.

Definition PCI_BAR_TYPE_NONE : Z := 0.
Definition PCI_BAR_TYPE_MMIO : Z := 1.
Definition PCI_BAR_TYPE_IO : Z := 2.

Record pci_bar := PciBar { bar_type : Z; bar_address : Z; bar_size : Z; prefetchable : Z }.

Record pci_device := PciDevice {
  pd_bus : Z;
  pd_device : Z;
  pd_function : Z;
  vendor_id : Z;
  device_id : Z;
  class_code : Z;
  subclass_code : Z;
  prog_if : Z;
  revision_id : Z;
  header_type : Z;
  multi_function : Z;
  bars : list pci_bar;
  irq_line : Z;
  irq_pin : Z }.

Definition set_bar (dev : pci_device) (i : Z) (b : pci_bar) : pci_device :=
  PciDevice (pd_bus dev) (pd_device dev) (pd_function dev) (vendor_id dev) (device_id dev) (class_code dev) (subclass_code dev)
    (prog_if dev) (revision_id dev) (header_type dev) (multi_function dev) (aset (bars dev) i b) (irq_line dev) (irq_pin dev).

Definition no_bar : pci_bar := PciBar 0 0 0 0.

Definition get_bar (dev : pci_device) (i : Z) : pci_bar := aget no_bar (bars dev) i.

(** [bars[i].type = NONE], the other fields as they are. *)
Definition clear_type (dev : pci_device) (i : Z) : pci_device :=
  let b := get_bar dev i in set_bar dev i (PciBar PCI_BAR_TYPE_NONE (bar_address b) (bar_size b) (prefetchable b)).

Section pci.
Context {W : Type} `{Machine W}.

Definition pci_address (bus slot func offset : Z) : Z :=
  u32 (Z.lor (Z.lor (Z.lor (Z.lor (Z.shiftl bus 16) (Z.shiftl slot 11)) (Z.shiftl func 8)) (Z.land offset 0xFC)) 0x80000000).

Definition pci_read_dword (w : W) (bus slot func offset : Z) : W * Z :=
  inl (outl w PCI_CONFIG_ADDRESS (pci_address bus slot func offset)) PCI_CONFIG_DATA.

Definition pci_read_word (w : W) (bus slot func offset : Z) : W * Z :=
  let '(w', val) := pci_read_dword w bus slot func offset in
  (w', Z.land (Z.shiftr val (Z.land offset 2 * 8)) 0xFFFF).

Definition pci_read_byte (w : W) (bus slot func offset : Z) : W * Z :=
  let '(w', val) := pci_read_dword w bus slot func offset in
  (w', Z.land (Z.shiftr val (Z.land offset 3 * 8)) 0xFF).

Definition pci_write_dword (w : W) (bus slot func offset value : Z) : W :=
  outl (outl w PCI_CONFIG_ADDRESS (pci_address bus slot func offset)) PCI_CONFIG_DATA value.

Definition pci_write_word (w : W) (bus slot func offset value : Z) : W :=
  outw (outl w PCI_CONFIG_ADDRESS (pci_address bus slot func offset)) (PCI_CONFIG_DATA + Z.land offset 2) value.

Definition pci_write_byte (w : W) (bus slot func offset value : Z) : W :=
  outb (outl w PCI_CONFIG_ADDRESS (pci_address bus slot func offset)) (PCI_CONFIG_DATA + Z.land offset 3) value.

(** ** Sizing a base address register *)

(** The dword at [offset] with all ones written, the command register's decode
    bits cleared and interrupts off meanwhile. *)
Definition bar_probe (w : W) (b d f offset bar_val : Z) : W * Z :=
  let w := set_cpu_flags w (cli (cpu_flags w)) in
  let '(w, cmd) := pci_read_word w b d f 0x04 in
  let w := pci_write_word w b d f 0x04 (Z.land cmd 0xFFFC) in
  let w := pci_write_dword w b d f offset 0xFFFFFFFF in
  let '(w, size_val) := pci_read_dword w b d f offset in
  let w := pci_write_dword w b d f offset bar_val in
  let w := pci_write_word w b d f 0x04 cmd in
  (set_cpu_flags w (sti (cpu_flags w)), size_val).

(** The upper half of a 64-bit register. *)
Definition bar_probe_high (w : W) (b d f offset : Z) : W * Z * Z :=
  let '(w, bar_hi) := pci_read_dword w b d f offset in
  let w := pci_write_dword w b d f offset 0xFFFFFFFF in
  let '(w, size_hi) := pci_read_dword w b d f offset in
  (pci_write_dword w b d f offset bar_hi, bar_hi, size_hi).

Definition pci_check_bar (w : W) (dev : pci_device) (i offset : Z) : W * pci_device :=
  let b := pd_bus dev in
  let d := pd_device dev in
  let f := pd_function dev in
  let old := get_bar dev i in
  let '(w, bar_val) := pci_read_dword w b d f offset in
  if bar_val =? 0 then (w, clear_type dev i)
  else if (class_code dev =? 0x03) || (class_code dev =? 0x06) then
    (w, set_bar dev i
      (if has_flag bar_val 1 then PciBar PCI_BAR_TYPE_IO (Z.ldiff bar_val 0x3) 0 (prefetchable old)
       else PciBar PCI_BAR_TYPE_MMIO (Z.ldiff bar_val 0xF) 0 (prefetchable old)))
  else
    let '(w, size_val) := bar_probe w b d f offset bar_val in
    if has_flag bar_val 1 then
      (w, set_bar dev i (PciBar PCI_BAR_TYPE_IO (Z.ldiff bar_val 0x3) (u32 (- Z.ldiff size_val 0x3)) 0))
    else
      let type := Z.land (Z.shiftr bar_val 1) 0x3 in
      let pre := if has_flag bar_val 0x8 then 1 else 0 in
      if type =? 0 then
        (w, set_bar dev i (PciBar PCI_BAR_TYPE_MMIO (Z.ldiff bar_val 0xF) (u32 (- Z.ldiff size_val 0xF)) pre))
      else if type =? 2 then
        let '(w, bar_hi, size_hi) := bar_probe_high w b d f (offset + 4) in
        (w, set_bar dev i (PciBar PCI_BAR_TYPE_MMIO (Z.lor (Z.ldiff bar_val 0xF) (Z.shiftl bar_hi 32))
          (u64 (- Z.lor (Z.shiftl size_hi 32) (Z.ldiff size_val 0xF))) pre))
      else (w, set_bar dev i (PciBar PCI_BAR_TYPE_NONE (bar_address old) (bar_size old) pre)).

(** The loop over the six registers, from [i]. *)
Fixpoint check_bars (w : W) (dev : pci_device) (i : Z) (fuel : nat) : W * pci_device :=
  match fuel with
  | O => (w, dev)
  | S fuel =>
      if i <? 6 then
        let '(w1, dev1) := pci_check_bar w dev i (0x10 + i * 4) in
        if bar_type (get_bar dev1 i) =? PCI_BAR_TYPE_MMIO then
          let '(w2, v) := pci_read_dword w1 (pd_bus dev1) (pd_device dev1) (pd_function dev1) (0x10 + i * 4) in
          if Z.land (Z.shiftr v 1) 0x3 =? 2 then
            check_bars w2 (if i + 1 <? 6 then clear_type dev1 (i + 1) else dev1) (i + 2) fuel
          else check_bars w2 dev1 (i + 1) fuel
        else check_bars w1 dev1 (i + 1) fuel
      else (w, dev)
  end.

(** ** Enumeration *)

Definition pci_get_class_name (class_code subclass_code : Z) : list Z :=
  let sub n := subclass_code =? n in
  if class_code =? 0x01 then
    if sub 0x01 then txt "IDE Controller" else if sub 0x05 then txt "ATA Controller"
    else if sub 0x06 then txt "SATA Controller" else if sub 0x08 then txt "NVMe Controller" else txt "Mass Storage"
  else if class_code =? 0x02 then txt "Network Controller"
  else if class_code =? 0x03 then if sub 0x00 then txt "VGA Display" else txt "Display Controller"
  else if class_code =? 0x06 then
    if sub 0x00 then txt "Host Bridge" else if sub 0x01 then txt "ISA Bridge"
    else if sub 0x04 then txt "PCI-PCI Bridge" else txt "Bridge"
  else if class_code =? 0x0C then
    if sub 0x03 then txt "USB Controller" else if sub 0x05 then txt "SMBus" else txt "Serial Bus"
  else if class_code =? 0x05 then txt "Memory Controller"
  else if class_code =? 0x08 then txt "Base System Peripheral"
  else if class_code =? 0x04 then txt "Multimedia Controller"
  else txt "Unknown Device".

Definition MAX_PCI_DEVICES : Z := 256.

(** The machine, the driver registry, and the devices found so far: the first
    [pci_device_count] entries of [pci_device_list]. *)
Record pci_state := PciState { ps_machine : W; ps_drivers : registry; pci_devices : list pci_device }.

Context (drivers : Z -> driver W pci_device).

Definition OK_COLOR : Z := 0x0088FF88.
Definition TEXT_COLOR : Z := 0x00CCCCCC.

Definition hex (width v : Z) : list Z := padded 48 width (numeral false 16 v).

(** The registers of the function, in the order they are read. *)
Definition read_function (w : W) (bus device function vendor : Z) : W * pci_device :=
  let '(w, did) := pci_read_word w bus device function 0x02 in
  let '(w, command) := pci_read_word w bus device function 0x04 in
  let w := pci_write_word w bus device function 0x04 (Z.lor command 4) in
  let '(w, rev) := pci_read_byte w bus device function 0x08 in
  let '(w, pif) := pci_read_byte w bus device function 0x09 in
  let '(w, sub) := pci_read_byte w bus device function 0x0A in
  let '(w, cls) := pci_read_byte w bus device function 0x0B in
  let '(w, ht) := pci_read_byte w bus device function 0x0E in
  let '(w, line) := pci_read_byte w bus device function 0x3C in
  let '(w, pin) := pci_read_byte w bus device function 0x3D in
  let dev := PciDevice bus device function vendor did cls sub pif rev (Z.land ht 0x7F) (if has_flag ht 0x80 then 1 else 0)
    (replicate 6 no_bar) line pin in
  if header_type dev =? 0 then check_bars w dev 0 7 else (w, dev).

(** The line printed for a function. *)
Definition function_line (dev : pci_device) : list Z :=
  hex 2 (pd_bus dev) ++ txt ":" ++ hex 2 (pd_device dev) ++ txt "." ++ hex 0 (pd_function dev) ++ txt " " ++
  hex 4 (vendor_id dev) ++ txt ":" ++ hex 4 (device_id dev) ++
  txt " (" ++ pci_get_class_name (class_code dev) (subclass_code dev) ++ txt ")" ++ [10].

Definition tagged (w : W) (tag line : list Z) : W :=
  kprint (kprintf_set_color (kprint (kprintf_set_color w OK_COLOR FB_DEFAULT_BG) tag) TEXT_COLOR FB_DEFAULT_BG) line.

Definition set_machine (s : pci_state) (w : W) : pci_state := PciState w (ps_drivers s) (pci_devices s).

Section scan.
Context (pci_scan_bus : pci_state -> Z -> option pci_state).

Definition pci_check_function (s : pci_state) (bus device function : Z) : option pci_state :=
  let '(w, vendor) := pci_read_word (ps_machine s) bus device function 0x00 in
  if vendor =? 0xFFFF then Some (set_machine s w)
  else if MAX_PCI_DEVICES <=? alen (pci_devices s) then Some (set_machine s w)
  else
    let '(w1, dev) := read_function w bus device function vendor in
    let w2 := tagged w1 (txt "[PCI] ") (function_line dev) in
    '(w3, r, _) ← driver_probe_device drivers w2 (ps_drivers s) dev;
    let s3 := PciState w3 r (pci_devices s ++ [dev]) in
    if (class_code dev =? 0x06) && (subclass_code dev =? 0x04) then
      let '(w4, secondary_bus) := pci_read_byte w3 bus device function 0x19 in
      pci_scan_bus (set_machine s3 w4) secondary_bus
    else Some s3.

(** Functions 1 to 7. *)
Definition check_other (bus device func : Z) (s : pci_state) : option pci_state :=
  let '(w, v) := pci_read_word (ps_machine s) bus device func 0x00 in
  if v =? 0xFFFF then Some (set_machine s w) else pci_check_function (set_machine s w) bus device func.

Definition pci_check_device (bus device : Z) (s : pci_state) : option pci_state :=
  let '(w, vendor) := pci_read_word (ps_machine s) bus device 0 0x00 in
  if vendor =? 0xFFFF then Some (set_machine s w)
  else
    s1 ← pci_check_function (set_machine s w) bus device 0;
    let '(w2, ht) := pci_read_byte (ps_machine s1) bus device 0 0x0E in
    if has_flag ht 0x80 then each (check_other bus device) (seqZ 1 7) (set_machine s1 w2) else Some (set_machine s1 w2).

End scan.

(** The fuel bounds the depth of nested bridges. *)
Fixpoint pci_scan_bus (fuel : nat) (s : pci_state) (bus : Z) : option pci_state :=
  match fuel with
  | O => None
  | S fuel => each (pci_check_device (pci_scan_bus fuel) bus) (seqZ 0 32) s
  end.

(** A bridge is scanned only after it was entered in the list of 256. *)
Definition scan_fuel : nat := 257.

Definition pci_init (s : pci_state) : option pci_state :=
  s1 ← pci_scan_bus scan_fuel (PciState (ps_machine s) (ps_drivers s) []) 0;
  Some (set_machine s1 (tagged (ps_machine s1) (txt "[OK] ")
    (txt "Discovered " ++ numeral false 10 (alen (pci_devices s1)) ++ txt " PCI devices" ++ [10]))).

Definition pci_get_devices (s : pci_state) : list pci_device * Z := (pci_devices s, alen (pci_devices s)).

End pci.
