(* ===== verification/PciThm.v ===== *)
(** Sizing a base address register returns the size of the region and leaves
    configuration space as it was; the enumeration terminates on every topology
    and finds every function that can be reached. *)
From stdpp Require Import prelude gmap list strings.
From Stdlib Require Import ZArith Lia.
From S2P Require Import Prelude Spinlock Printf PrintfThm Framebuffer Pci.

Open Scope Z_scope.

(** What a write of [v] to the bits [m] of a register leaves in it. *)
Definition merge (m old v : Z) : Z := Z.lor (Z.ldiff old m) (Z.land v m).

(** Configuration mechanism 1 as the PCI specification documents it: the
    address port selects a dword; reading the data port returns it and changes no
    register; writing it changes the writable bits in the lanes written, of that
    dword only.  The console and RFLAGS are elsewhere. *)
Class ConfigSpace (W : Type) `{Machine W} := {
  reg : W -> Z -> Z;
  selected : W -> Z;
  writable : Z -> Z;
  cs_range w a : 0 <= reg w a < 2 ^ 32;
  cs_select w a : selected (outl w PCI_CONFIG_ADDRESS a) = a /\ forall x, reg (outl w PCI_CONFIG_ADDRESS a) x = reg w x;
  cs_read w : (inl w PCI_CONFIG_DATA).2 = reg w (selected w) /\ forall x, reg (inl w PCI_CONFIG_DATA).1 x = reg w x;
  cs_write w v x : 0 <= v < 2 ^ 32 ->
    reg (outl w PCI_CONFIG_DATA v) x = if decide (x = selected w) then merge (writable x) (reg w x) v else reg w x;
  cs_write_low w v x : 0 <= v < 2 ^ 16 ->
    reg (outw w PCI_CONFIG_DATA v) x = if decide (x = selected w) then merge (Z.land (writable x) 0xFFFF) (reg w x) v else reg w x;
  cs_flags w fl x : reg (set_cpu_flags w fl) x = reg w x;
  cs_flags_kept w : (forall p v, cpu_flags (outl w p v) = cpu_flags w) /\ (forall p v, cpu_flags (outw w p v) = cpu_flags w) /\
    (forall p, cpu_flags (inl w p).1 = cpu_flags w) /\ (forall fl, cpu_flags (set_cpu_flags w fl) = fl);
  cs_print w l x : reg (kprint w l) x = reg w x;
  cs_color w c1 c2 x : reg (kprintf_set_color w c1 c2) x = reg w x }.

Ltac bits := apply Z.bits_inj'; intros ?k ?Hk; repeat (rewrite ?Z.lor_spec, ?Z.land_spec, ?Z.ldiff_spec); 
  repeat match goal with |- context [Z.testbit ?a ?k] => destruct (Z.testbit a k) end; done.

Lemma merge_back m old v : merge m (merge m old v) old = old.
Proof. unfold merge. bits. Qed.

Lemma merge_back_low m old x : merge (Z.land m 0xFFFF) (merge (Z.land m 0xFFFF) old x) (Z.land old 0xFFFF) = old.
Proof. unfold merge. bits. Qed.

Section laws.
Context {W : Type} `{CS : ConfigSpace W}.
Implicit Types (w : W) (a : Z).

(** [w'] has the registers of [w], and its RFLAGS. *)
Definition same w w' : Prop := (forall x, reg w' x = reg w x) /\ cpu_flags w' = cpu_flags w.

Lemma same_refl w : same w w.
Proof. done. Qed.

Lemma same_trans w1 w2 w3 : same w1 w2 -> same w2 w3 -> same w1 w3.
Proof. intros [A1 B1] [A2 B2]. split; [|congruence]. intros x. by rewrite A2. Qed.

Lemma read_dword_spec w b d f o :
  exists w', pci_read_dword w b d f o = (w', reg w (pci_address b d f o)) /\ same w w'.
Proof.
  unfold pci_read_dword. set (a := pci_address b d f o). set (w1 := outl w PCI_CONFIG_ADDRESS a).
  destruct (cs_select w a) as [Hs Hr]. destruct (cs_read w1) as [Ev Er]. destruct (cs_flags_kept w) as (F1 & _ & _).
  destruct (cs_flags_kept w1) as (_ & _ & F3 & _).
  destruct (inl w1 PCI_CONFIG_DATA) as [w' v] eqn:E. cbn [fst snd] in *. subst v. exists w'. fold w1 in Hs, Hr. rewrite Hs, Hr.
  split; [done|]. split; [intros x; by rewrite Er, Hr|]. specialize (F3 PCI_CONFIG_DATA). rewrite E in F3. cbn [fst] in F3. rewrite F3. apply F1.
Qed.

(** Writing [v] to the bits [m] of the register [a]. *)
Definition wrote w w' a m v : Prop :=
  (forall x, reg w' x = if decide (x = a) then merge m (reg w x) v else reg w x) /\ cpu_flags w' = cpu_flags w.

Lemma write_dword_spec w b d f o v : 0 <= v < 2 ^ 32 ->
  wrote w (pci_write_dword w b d f o v) (pci_address b d f o) (writable (pci_address b d f o)) v.
Proof.
  intros Hv. unfold pci_write_dword. set (a := pci_address b d f o). destruct (cs_select w a) as [Hs Hr].
  split.
  - intros x. rewrite cs_write, Hs, !Hr by done. case_decide as E; [by rewrite E|done].
  - rewrite (proj1 (cs_flags_kept (outl w PCI_CONFIG_ADDRESS a))). apply (cs_flags_kept w).
Qed.

Definition command_mask (a : Z) : Z := Z.land (writable a) 0xFFFF.

Lemma write_command_spec w b d f v : 0 <= v < 2 ^ 16 ->
  wrote w (pci_write_word w b d f 4 v) (pci_address b d f 4) (command_mask (pci_address b d f 4)) v.
Proof.
  intros Hv. unfold pci_write_word, command_mask. set (a := pci_address b d f 4). change (PCI_CONFIG_DATA + Z.land 4 2) with PCI_CONFIG_DATA.
  destruct (cs_select w a) as [Hs Hr]. split.
  - intros x. rewrite cs_write_low, Hs, !Hr by done. case_decide as E; [by rewrite E|done].
  - destruct (cs_flags_kept (outl w PCI_CONFIG_ADDRESS a)) as (_ & F & _). rewrite F. apply (cs_flags_kept w).
Qed.

(** [pci_read_word] and [pci_read_byte]: a piece of the dword. *)
Lemma read_word_spec w b d f o :
  exists w', pci_read_word w b d f o = (w', Z.land (Z.shiftr (reg w (pci_address b d f o)) (Z.land o 2 * 8)) 0xFFFF) /\ same w w'.
Proof. unfold pci_read_word. destruct (read_dword_spec w b d f o) as (w' & -> & S). by exists w'. Qed.

Lemma read_byte_spec w b d f o :
  exists w', pci_read_byte w b d f o = (w', Z.land (Z.shiftr (reg w (pci_address b d f o)) (Z.land o 3 * 8)) 0xFF) /\ same w w'.
Proof. unfold pci_read_byte. destruct (read_dword_spec w b d f o) as (w' & -> & S). by exists w'. Qed.

Lemma land_ones_range v k : 0 <= k -> 0 <= Z.land v (Z.ones k) < 2 ^ k.
Proof. intros Hk. rewrite Z.land_ones by done. apply Z.mod_pos_bound. by apply Z.pow_pos_nonneg. Qed.

Lemma pci_address_low b d f o : Z.land (pci_address b d f o) 0xFF = Z.land o 0xFC.
Proof.
  unfold pci_address, wrap. change 0xFF with (Z.ones 8). rewrite <- Z.land_ones by done. rewrite <- Z.land_assoc.
  change (Z.land (Z.ones 32) (Z.ones 8)) with (Z.ones 8). apply Z.bits_inj'. intros k Hk.
  rewrite !Z.land_spec, !Z.lor_spec, Z.land_spec, !Z.shiftl_spec by done. rewrite Z.testbit_ones_nonneg by lia.
  destruct (Z.ltb_spec k 8).
  - rewrite !(Z.testbit_neg_r _ (k - _)) by lia.
    replace (Z.testbit 2147483648 k) with false; [by rewrite !orb_false_r, andb_true_r|].
    assert (k = 0 \/ k = 1 \/ k = 2 \/ k = 3 \/ k = 4 \/ k = 5 \/ k = 6 \/ k = 7) as C by lia.
    repeat destruct C as [->|C]; subst; vm_compute; done.
  - rewrite andb_false_r. symmetry. apply andb_false_iff. right. apply Z.bits_above_log2; [done|]. change (Z.log2 252) with 7. lia.
Qed.

(** ** Sizing *)

(** The dword read back while every writable bit is set; afterwards all
    registers are as before, and interrupts are on. *)
Lemma bar_probe_spec w b d f o : Z.land o 0xFC <> 4 ->
  let a := pci_address b d f o in
  exists w', bar_probe w b d f o (reg w a) = (w', merge (writable a) (reg w a) 0xFFFFFFFF) /\
    (forall x, reg w' x = reg w x) /\ cpu_flags w' = sti (cli (cpu_flags w)).
Proof.
  intros Ho a. set (c := pci_address b d f 4).
  assert (Hac : a <> c) by (intros E; apply (f_equal (fun x => Z.land x 0xFF)) in E; subst a c; rewrite !pci_address_low in E; done).
  unfold bar_probe. set (w0 := set_cpu_flags w (cli (cpu_flags w))).
  assert (S0 : (forall x, reg w0 x = reg w x) /\ cpu_flags w0 = cli (cpu_flags w)).
  { split; [intros x; apply cs_flags|]. apply (cs_flags_kept w). }
  destruct S0 as [S0 F0]. destruct (read_word_spec w0 b d f 4) as (w1 & E1 & S1 & F1). rewrite E1.
  fold c in S1 |- *. change (Z.land 4 2 * 8) with 0. rewrite Z.shiftr_0_r. rewrite S0. set (cmd := Z.land (reg w c) 0xFFFF).
  assert (Hcmd : 0 <= cmd < 2 ^ 16) by (apply (land_ones_range (reg w c) 16); lia).
  assert (Hoff : 0 <= Z.land cmd 0xFFFC < 2 ^ 16).
  { replace (Z.land cmd 0xFFFC) with (Z.land (Z.land cmd 0xFFFC) (Z.ones 16)) by (by rewrite <- Z.land_assoc).
    apply land_ones_range. lia. }
  destruct (write_command_spec w1 b d f (Z.land cmd 0xFFFC) Hoff) as [S2 F2]. set (w2 := pci_write_word w1 b d f 4 _) in *.
  destruct (write_dword_spec w2 b d f o 0xFFFFFFFF) as [S3 F3]; [lia|]. set (w3 := pci_write_dword w2 b d f o _) in *.
  destruct (read_dword_spec w3 b d f o) as (w4 & E4 & S4 & F4). rewrite E4. fold a in S3, S4 |- *. fold c in S2.
  destruct (write_dword_spec w4 b d f o (reg w a) (cs_range w a)) as [S5 F5]. set (w5 := pci_write_dword w4 b d f o _) in *. fold a in S5.
  destruct (write_command_spec w5 b d f cmd Hcmd) as [S6 F6]. set (w6 := pci_write_word w5 b d f 4 _) in *. fold c in S6.
  eexists. split; [|split].
  - f_equal. rewrite S3, decide_True by done. by rewrite S2, decide_False, S1, S0.
  - intros x. rewrite cs_flags, S6. case_decide as Ec; [subst x|].
    + rewrite S5, decide_False, S4, S3, decide_False, S2, decide_True, S1, S0 by done. apply merge_back_low.
    + rewrite S5. case_decide as Ea; [subst x|].
      * by rewrite S4, S3, decide_True, S2, decide_False, S1, S0, merge_back by done.
      * by rewrite S4, S3, decide_False, S2, decide_False, S1, S0 by done.
  - destruct (cs_flags_kept w6) as (_ & _ & _ & ->). by rewrite F6, F5, F4, F3, F2, F1, F0.
Qed.

Lemma bar_probe_high_spec w b d f o :
  let a := pci_address b d f o in
  exists w', bar_probe_high w b d f o = (w', reg w a, merge (writable a) (reg w a) 0xFFFFFFFF) /\ same w w'.
Proof.
  intros a. unfold bar_probe_high. destruct (read_dword_spec w b d f o) as (w1 & E1 & S1 & F1). rewrite E1. fold a.
  destruct (write_dword_spec w1 b d f o 0xFFFFFFFF) as [S2 F2]; [lia|]. set (w2 := pci_write_dword w1 b d f o _) in *. fold a in S2.
  destruct (read_dword_spec w2 b d f o) as (w3 & E3 & S3 & F3). rewrite E3. fold a.
  destruct (write_dword_spec w3 b d f o (reg w a) (cs_range w a)) as [S4 F4]. set (w4 := pci_write_dword w3 b d f o _) in *. fold a in S4.
  exists w4. split; [by rewrite S2, decide_True, S1 by done|]. split; [|congruence].
  intros x. rewrite S4. case_decide as E; [subst x|]; rewrite S3, S2.
  - by rewrite decide_True, S1, merge_back by done.
  - by rewrite decide_False, S1.
Qed.

(** ** The three kinds of region *)

Inductive bar_kind := BarIo | BarMem32 | BarMem64.

(** A region of [2 ^ k] bytes behind the register [lo] (and [hi], its upper half): the
    address bits from [k] on are writable, those below are zero, and the low bits
    say what the region is. *)
Definition bar_shape (kind : bar_kind) (k lo hi mlo mhi : Z) : Prop :=
  match kind with
  | BarIo => 2 <= k <= 31 /\ mlo = 2 ^ 32 - 2 ^ k /\ lo mod 2 ^ k = 1
  | BarMem32 => 4 <= k <= 31 /\ mlo = 2 ^ 32 - 2 ^ k /\ (lo mod 2 ^ k = 0 \/ lo mod 2 ^ k = 8) /\ lo <> 0
  | BarMem64 => 4 <= k <= 63 /\ mlo = (2 ^ 64 - 2 ^ k) mod 2 ^ 32 /\ mhi = (2 ^ 64 - 2 ^ k) / 2 ^ 32 /\
      ((hi * 2 ^ 32 + lo) mod 2 ^ k = 4 \/ (hi * 2 ^ 32 + lo) mod 2 ^ k = 12)
  end.

(** What is recorded for it. *)
Definition bar_of (kind : bar_kind) (k lo hi : Z) : pci_bar :=
  match kind with
  | BarIo => PciBar PCI_BAR_TYPE_IO (lo - 1) (2 ^ k) 0
  | BarMem32 => PciBar PCI_BAR_TYPE_MMIO (lo - lo mod 16) (2 ^ k) (if lo mod 16 =? 8 then 1 else 0)
  | BarMem64 => PciBar PCI_BAR_TYPE_MMIO (hi * 2 ^ 32 + (lo - lo mod 16)) (2 ^ k) (if lo mod 16 =? 12 then 1 else 0)
  end.

Lemma ldiff_low lo n : 0 <= n -> Z.ldiff lo (Z.ones n) = lo - lo mod 2 ^ n.
Proof.
  intros Hn. rewrite Z.ldiff_ones_r, Z.shiftr_div_pow2, Z.shiftl_mul_pow2 by done.
  pose proof (Z.div_mod lo (2 ^ n) (Z.pow_nonzero 2 n ltac:(done) Hn)). lia.
Qed.

Lemma high_mask k : 0 <= k <= 32 -> 2 ^ 32 - 2 ^ k = Z.shiftl (Z.ones (32 - k)) k.
Proof.
  intros Hk. rewrite Z.shiftl_mul_pow2, Z.ones_equiv by lia. replace (2 ^ 32) with (2 ^ (32 - k) * 2 ^ k); [lia|].
  rewrite <- Z.pow_add_r by lia. f_equal. lia.
Qed.

(** Reading back all ones: the fixed low bits and the address mask. *)
Lemma ones_read_back lo k : 0 <= lo < 2 ^ 32 -> 0 <= k <= 32 ->
  merge (2 ^ 32 - 2 ^ k) lo 0xFFFFFFFF = (2 ^ 32 - 2 ^ k) + lo mod 2 ^ k.
Proof.
  intros Hl Hk. rewrite high_mask by done. unfold merge.
  assert (E1 : Z.ldiff lo (Z.shiftl (Z.ones (32 - k)) k) = lo mod 2 ^ k).
  { rewrite <- Z.land_ones by lia. apply Z.bits_inj'. intros i Hi. rewrite Z.ldiff_spec, Z.land_spec, Z.shiftl_spec by done.
    destruct (Z.ltb_spec i k).
    - rewrite (Z.testbit_neg_r _ (i - k)), Z.ones_spec_low by lia. done.
    - rewrite (Z.ones_spec_high k i), andb_false_r by lia. destruct (Z.ltb_spec i 32).
      + rewrite Z.ones_spec_low by lia. apply andb_false_r.
      + replace (Z.testbit lo i) with false; [done|]. symmetry. destruct (Z.eq_dec lo 0) as [->|]; [apply Z.testbit_0_l|].
        apply Z.bits_above_log2; [lia|]. apply Z.log2_lt_pow2; [lia|]. apply Z.lt_le_trans with (2 ^ 32); [lia|]. apply Z.pow_le_mono_r; lia. }
  assert (E2 : Z.land 0xFFFFFFFF (Z.shiftl (Z.ones (32 - k)) k) = Z.shiftl (Z.ones (32 - k)) k).
  { change 0xFFFFFFFF with (Z.ones 32). rewrite Z.land_comm, Z.land_ones, <- high_mask by lia. apply Z.mod_small.
    pose proof (Z.pow_pos_nonneg 2 k). assert (2 ^ k <= 2 ^ 32) by (apply Z.pow_le_mono_r; lia). lia. }
  rewrite E1, E2, lor_high; [lia|lia|]. apply Z.mod_pos_bound; apply Z.pow_pos_nonneg; lia.
Qed.

Lemma pow_multiple k n : 0 <= n <= k -> 2 ^ k mod 2 ^ n = 0.
Proof. intros Hn. replace k with ((k - n) + n) by lia. rewrite Z.pow_add_r by lia. apply Z_mod_mult. Qed.

Lemma mod_mod_pow x k n : 0 <= n <= k -> (x mod 2 ^ k) mod 2 ^ n = x mod 2 ^ n.
Proof.
  intros Hn. symmetry. apply Znumtheory.Zmod_div_mod; [apply Z.pow_pos_nonneg; lia..|].
  exists (2 ^ (k - n)). rewrite <- Z.pow_add_r by lia. f_equal. lia.
Qed.

(** The size from the mask, [n] low bits being flags. *)
Lemma size_from_mask lo k n : 0 <= lo < 2 ^ 32 -> 0 < n <= k -> k <= 31 -> lo mod 2 ^ k < 2 ^ n ->
  u32 (- Z.ldiff (merge (2 ^ 32 - 2 ^ k) lo 0xFFFFFFFF) (Z.ones n)) = 2 ^ k.
Proof.
  intros Hl Hn Hk Hf. rewrite ones_read_back by lia. rewrite ldiff_low by lia.
  assert (Hp : 0 <= lo mod 2 ^ k) by (apply Z.mod_pos_bound; apply Z.pow_pos_nonneg; lia).
  assert (E : (2 ^ 32 - 2 ^ k + lo mod 2 ^ k) mod 2 ^ n = lo mod 2 ^ k).
  { rewrite Z.add_mod, Zminus_mod, !pow_multiple by (lia || apply Z.pow_nonzero; lia). rewrite Z.sub_0_r, Z.mod_0_l by (apply Z.pow_nonzero; lia).
    rewrite Z.add_0_l, Z.mod_mod by (apply Z.pow_nonzero; lia). by apply Z.mod_small. }
  rewrite E. replace (- (2 ^ 32 - 2 ^ k + lo mod 2 ^ k - lo mod 2 ^ k)) with (2 ^ k + (-1) * 2 ^ 32) by lia.
  unfold wrap. rewrite Z_mod_plus_full. apply Z.mod_small. split; [apply Z.pow_nonneg; lia|]. apply Z.pow_lt_mono_r; lia.
Qed.

(** The flags are in the low four bits. *)
Lemma land_mod16 x m : 0 <= m < 16 -> Z.land x m = Z.land (x mod 16) m.
Proof.
  intros Hm. change 16 with (2 ^ 4). rewrite <- Z.land_ones, <- Z.land_assoc by done. f_equal.
  rewrite Z.land_comm, Z.land_ones by done. symmetry. by apply Z.mod_small.
Qed.

Lemma type_mod16 x : Z.land (Z.shiftr x 1) 3 = Z.land (Z.shiftr (x mod 16) 1) 3.
Proof.
  change 16 with (2 ^ 4). rewrite <- Z.land_ones by done. rewrite Z.shiftr_land, <- Z.land_assoc. done.
Qed.

(** The halves of a 64-bit mask. *)
Lemma mask_halves k : 4 <= k <= 63 ->
  (2 ^ 64 - 2 ^ k) mod 2 ^ 32 = 2 ^ 32 - 2 ^ Z.min k 32 /\ (2 ^ 64 - 2 ^ k) / 2 ^ 32 = 2 ^ 32 - 2 ^ Z.max (k - 32) 0.
Proof.
  intros Hk. destruct (Z.le_gt_cases k 32) as [Hle|Hgt].
  - rewrite Z.min_l, Z.max_r by lia. pose proof (Z.pow_pos_nonneg 2 k ltac:(lia) ltac:(lia)).
    assert (2 ^ k <= 2 ^ 32) by (apply Z.pow_le_mono_r; lia). change (2 ^ 0) with 1.
    replace (2 ^ 64 - 2 ^ k) with (2 ^ 32 - 2 ^ k + (2 ^ 32 - 1) * 2 ^ 32) by lia.
    rewrite Z_mod_plus_full, Z_div_plus_full by done. rewrite Z.mod_small, Z.div_small by lia. lia.
  - rewrite Z.min_r, Z.max_l by lia. replace (2 ^ 64 - 2 ^ k) with ((2 ^ 32 - 2 ^ (k - 32)) * 2 ^ 32).
    + rewrite Z_mod_mult, Z_div_mult by done. lia.
    + rewrite Z.mul_sub_distr_r, <- !Z.pow_add_r by lia. by replace (k - 32 + 32) with k by lia.
Qed.

Lemma total_halves lo hi k f : 0 <= lo < 2 ^ 32 -> 4 <= k <= 63 -> 0 <= f < 16 -> (hi * 2 ^ 32 + lo) mod 2 ^ k = f ->
  lo mod 2 ^ Z.min k 32 = f /\ hi mod 2 ^ Z.max (k - 32) 0 = 0.
Proof.
  intros Hl Hk Hf Ht. destruct (Z.le_gt_cases k 32) as [Hle|Hgt].
  - rewrite Z.min_l, Z.max_r by lia. split; [|apply Z.mod_1_r]. rewrite <- Ht.
    replace (hi * 2 ^ 32) with (hi * 2 ^ (32 - k) * 2 ^ k); [by rewrite Z.add_comm, Z_mod_plus_full|].
    rewrite <- Z.mul_assoc, <- Z.pow_add_r by lia. do 2 f_equal. lia.
  - rewrite Z.min_r, Z.max_l by lia. rewrite Z.mod_small by done.
    pose proof (mod_mod_pow (hi * 2 ^ 32 + lo) k 32) as M. rewrite Ht, Z.add_comm, Z_mod_plus_full, !Z.mod_small in M by lia.
    pose proof (Z.div_mod (hi * 2 ^ 32 + lo) (2 ^ k) (Z.pow_nonzero 2 k ltac:(lia) ltac:(lia))) as D. rewrite Ht in D.
    split; [lia|]. assert (E : 2 ^ k = 2 ^ (k - 32) * 2 ^ 32) by (rewrite <- Z.pow_add_r by lia; f_equal; lia).
    set (q := (hi * 2 ^ 32 + lo) / 2 ^ k) in *. rewrite E in D. replace hi with (q * 2 ^ (k - 32)) by nia. apply Z_mod_mult.
Qed.

Lemma size_from_halves lo hi k f : 0 <= lo < 2 ^ 32 -> 0 <= hi < 2 ^ 32 -> 4 <= k <= 63 -> 0 <= f < 16 ->
  (hi * 2 ^ 32 + lo) mod 2 ^ k = f ->
  u64 (- Z.lor (Z.shiftl (merge ((2 ^ 64 - 2 ^ k) / 2 ^ 32) hi 0xFFFFFFFF) 32)
         (Z.ldiff (merge ((2 ^ 64 - 2 ^ k) mod 2 ^ 32) lo 0xFFFFFFFF) (Z.ones 4))) = 2 ^ k.
Proof.
  intros Hl Hh Hk Hf Ht. destruct (mask_halves k Hk) as [-> ->]. destruct (total_halves lo hi k f Hl Hk Hf Ht) as [El Eh].
  rewrite !ones_read_back, El, Eh by lia. rewrite ldiff_low by lia.
  set (a := Z.min k 32). set (b := Z.max (k - 32) 0).
  pose proof (Z.pow_pos_nonneg 2 a ltac:(lia) ltac:(lia)) as Ha. pose proof (Z.pow_pos_nonneg 2 b ltac:(lia) ltac:(lia)) as Hb.
  assert (2 ^ a <= 2 ^ 32) by (apply Z.pow_le_mono_r; lia).
  assert (E : (2 ^ 32 - 2 ^ a + f) mod 2 ^ 4 = f).
  { rewrite Z.add_mod, Zminus_mod, !pow_multiple by lia. change ((0 - 0) mod 2 ^ 4) with 0. rewrite Z.add_0_l, Z.mod_mod by done. by apply Z.mod_small. }
  rewrite E, Z.lor_comm. replace (2 ^ 32 - 2 ^ a + f - f) with (2 ^ 32 - 2 ^ a) by lia. rewrite lor_high by lia.
  rewrite Z.shiftl_mul_pow2 by lia. rewrite Z.add_0_r.
  assert (P : 2 ^ 32 - 2 ^ a + (2 ^ 32 - 2 ^ b) * 2 ^ 32 = 2 ^ 64 - 2 ^ k).
  { subst a b. destruct (Z.le_gt_cases k 32) as [Hle|Hgt].
    - rewrite Z.min_l, Z.max_r by lia. change (2 ^ 0) with 1. lia.
    - rewrite Z.min_r, Z.max_l by lia. rewrite Z.mul_sub_distr_r, <- !Z.pow_add_r by lia. replace (k - 32 + 32) with k by lia. lia. }
  rewrite P. replace (- (2 ^ 64 - 2 ^ k)) with (2 ^ k + (-1) * 2 ^ 64) by lia. unfold wrap. rewrite Z_mod_plus_full.
  apply Z.mod_small. split; [apply Z.pow_nonneg; lia|]. apply Z.pow_lt_mono_r; lia.
Qed.

(** Sizing base address register [i]: for an I/O, a 32-bit or a 64-bit memory
    region of [2 ^ k] bytes, whatever address it has been given, the record gets
    its kind, its address and its size, and afterwards every register of
    configuration space (the command register and both halves included) holds
    what it held; interrupts are on, whether or not they were. *)
Theorem pci_check_bar_correct (w : W) (dev : pci_device) (i k : Z) (kind : bar_kind) :
  let o := 0x10 + i * 4 in
  let at_ x := pci_address (pd_bus dev) (pd_device dev) (pd_function dev) x in
  0 <= i < 6 -> class_code dev <> 0x03 -> class_code dev <> 0x06 ->
  bar_shape kind k (reg w (at_ o)) (reg w (at_ (o + 4))) (writable (at_ o)) (writable (at_ (o + 4))) ->
  exists w', pci_check_bar w dev i o = (w', set_bar dev i (bar_of kind k (reg w (at_ o)) (reg w (at_ (o + 4))))) /\
    (forall x, reg w' x = reg w x) /\ cpu_flags w' = sti (cli (cpu_flags w)).
Proof.
  intros o at_ Hi Hc1 Hc2 Hs. unfold pci_check_bar. cbv zeta. fold (at_ o). destruct (read_dword_spec w (pd_bus dev) (pd_device dev) (pd_function dev) o) as (w1 & E1 & S1 & F1).
  rewrite E1. fold (at_ o). set (lo := reg w (at_ o)) in *. set (hi := reg w (at_ (o + 4))) in *.
  pose proof (cs_range w (at_ o)) as Rl. pose proof (cs_range w (at_ (o + 4))) as Rh. fold lo in Rl. fold hi in Rh.
  rewrite (proj2 (Z.eqb_neq (class_code dev) 3) Hc1), (proj2 (Z.eqb_neq (class_code dev) 6) Hc2). cbn [orb].
  assert (Ho : Z.land o 0xFC <> 4).
  { subst o. assert (i = 0 \/ i = 1 \/ i = 2 \/ i = 3 \/ i = 4 \/ i = 5) as C by lia. repeat destruct C as [->|C]; subst; vm_compute; done. }
  destruct (bar_probe_spec w1 (pd_bus dev) (pd_device dev) (pd_function dev) o Ho) as (w2 & E2 & S2 & F2). fold (at_ o) in E2.
  rewrite S1 in E2. fold lo in E2. rewrite F1 in F2.
  assert (Hnz : lo mod 2 ^ k <> 0 \/ lo <> 0 -> lo <> 0) by (intros [Hm|]; [intros E; apply Hm; rewrite E; apply Zmod_0_l|done]).
  assert (S12 : forall x, reg w2 x = reg w x) by (intros x; by rewrite S2).
  destruct kind; cbn [bar_shape bar_of] in *.
  - destruct Hs as (Hk & Hm & Hf). rewrite (proj2 (Z.eqb_neq lo 0)) by (apply Hnz; left; by rewrite Hf). rewrite E2, Hm.
    pose proof (mod_mod_pow lo k 2 ltac:(lia)) as M4. rewrite Hf in M4. change (1 mod 2 ^ 2) with 1 in M4.
    assert (Hio : has_flag lo 1 = true).
    { unfold has_flag. apply nonzero_true. change 1 with (Z.ones 1). rewrite Z.land_ones by done.
      rewrite <- (mod_mod_pow lo 2 1) by lia. rewrite <- M4. done. }
    rewrite Hio. change 3 with (Z.ones 2). rewrite size_from_mask by (done || lia). rewrite ldiff_low, <- M4 by lia. by eexists.
  - destruct Hs as (Hk & Hm & Hf & Hne). rewrite (proj2 (Z.eqb_neq lo 0)) by (by apply Hnz; right). rewrite E2, Hm.
    pose proof (mod_mod_pow lo k 4 ltac:(lia)) as M. change (2 ^ 4) with 16 in M.
    assert (Hf' : lo mod 16 = 0 \/ lo mod 16 = 8) by (destruct Hf as [Hf|Hf]; rewrite Hf in M; [left|right]; by rewrite <- M).
    unfold has_flag. rewrite (land_mod16 lo 1), (land_mod16 lo 8), type_mod16 by lia. change 0xF with (Z.ones 4).
    rewrite size_from_mask by lia. rewrite ldiff_low by lia. change (2 ^ 4) with 16.
    destruct Hf' as [-> | ->]; by eexists.
  - destruct Hs as (Hk & Hm & Hm2 & Hf).
    assert (Hf' : exists f, (f = 4 \/ f = 12) /\ (hi * 2 ^ 32 + lo) mod 2 ^ k = f) by (destruct Hf; eauto).
    clear Hf. destruct Hf' as (f & Hf & Ht).
    destruct (total_halves lo hi k f Rl Hk ltac:(lia) Ht) as [El _]. pose proof (mod_mod_pow lo (Z.min k 32) 4 ltac:(lia)) as M.
    change (2 ^ 4) with 16 in M. rewrite El in M. rewrite (Z.mod_small f) in M by lia.
    rewrite (proj2 (Z.eqb_neq lo 0)) by (intros E; rewrite E in M; change (0 mod 16) with 0 in M; lia). rewrite E2, Hm.
    unfold has_flag. rewrite (land_mod16 lo 1), (land_mod16 lo 8), type_mod16, <- M by lia.
    destruct (bar_probe_high_spec w2 (pd_bus dev) (pd_device dev) (pd_function dev) (o + 4)) as (w3 & E3 & S3 & F3). fold (at_ (o + 4)) in E3.
    rewrite S12 in E3. fold hi in E3. rewrite E3, Hm2. change 0xF with (Z.ones 4).
    rewrite (size_from_halves lo hi k f) by (done || lia). rewrite ldiff_low by lia. change (2 ^ 4) with 16. rewrite <- M.
    replace (Z.lor (lo - f) (Z.shiftl hi 32)) with (hi * 2 ^ 32 + (lo - f)).
    + assert (R : (forall x, reg w3 x = reg w x) /\ cpu_flags w3 = sti (cli (cpu_flags w))) by (split; [intros x; by rewrite S3|congruence]).
      destruct Hf as [-> | ->]; exists w3; (split; [reflexivity|exact R]).
    + rewrite lor_high; [rewrite Z.shiftl_mul_pow2 by lia; lia|lia|]. 
      assert (f <= lo) by (pose proof (Z.mod_le lo 16 ltac:(lia) ltac:(lia)); lia). lia.
Qed.

End laws.

(** ** Enumeration *)

Section scan.
Context {W : Type} `{CS : ConfigSpace W} (drivers : Z -> driver W pci_device).
Implicit Types (w : W) (s : pci_state (W := W)).

(** The dwords with the identity of a function and the bus numbers of a bridge. *)
Definition id_offset (o : Z) : Prop := Z.land o 0xFC ∈ [0; 8; 12; 24].

Definition kept w w' : Prop := forall b d f o, id_offset o -> reg w' (pci_address b d f o) = reg w (pci_address b d f o).

(** Drivers return, and do not renumber the bus. *)
Definition driver_safe (f : option (W -> pci_device -> option (W * Z))) : Prop :=
  forall g, f = Some g -> forall w dev, exists w' v, g w dev = Some (w', v) /\ kept w w'.

Context (drivers_safe : forall p, driver_safe (probe (drivers p)) /\ driver_safe (init (drivers p))).

Definition vendor w b d f : Z := Z.land (Z.shiftr (reg w (pci_address b d f 0)) (Z.land 0 2 * 8)) 0xFFFF.

Definition header w b d f : Z := Z.land (Z.shiftr (reg w (pci_address b d f 0x0E)) (Z.land 0x0E 3 * 8)) 0xFF.

Definition secondary w b d f : Z := Z.land (Z.shiftr (reg w (pci_address b d f 0x19)) (Z.land 0x19 3 * 8)) 0xFF.

(** A function that answers on bus [b]. *)
Definition present w b d f : Prop :=
  vendor w b d 0 <> 0xFFFF /\ vendor w b d f <> 0xFFFF /\ (f = 0 \/ has_flag (header w b d 0) 0x80 = true).

Definition listed (l : list pci_device) b d f : Prop :=
  exists dev, dev ∈ l /\ pd_bus dev = b /\ pd_device dev = d /\ pd_function dev = f.

Definition covered w (b : Z) (l : list pci_device) : Prop :=
  forall d f, 0 <= d < 32 -> 0 <= f < 8 -> present w b d f -> listed l b d f.

Definition bridge (dev : pci_device) : bool := (class_code dev =? 0x06) && (subclass_code dev =? 0x04).

Definition behind w (dev : pci_device) : Z := secondary w (pd_bus dev) (pd_device dev) (pd_function dev).

Lemma kept_refl w : kept w w.
Proof. done. Qed.

Lemma kept_trans w1 w2 w3 : kept w1 w2 -> kept w2 w3 -> kept w1 w3.
Proof. intros K1 K2 b d f o Ho. rewrite K2 by done. by apply K1. Qed.

Lemma kept_regs w w' : (forall x, reg w' x = reg w x) -> kept w w'.
Proof. intros E b d f o _. apply E. Qed.

Lemma same_kept w w' : same w w' -> kept w w'.
Proof. intros [E _]. by apply kept_regs. Qed.

Lemma kept_command w w' b d f m v : wrote w w' (pci_address b d f 4) m v -> kept w w'.
Proof.
  intros [E _] b' d' f' o Ho. rewrite E. apply decide_False. intros Ea. apply (f_equal (fun x => Z.land x 0xFF)) in Ea.
  rewrite !pci_address_low in Ea. unfold id_offset in Ho. rewrite Ea in Ho. change (Z.land 4 252) with 4 in Ho. set_solver.
Qed.

Lemma kept_vendor w w' b d f : kept w w' -> vendor w' b d f = vendor w b d f.
Proof. intros K. unfold vendor. rewrite K; [done|]. unfold id_offset. change (Z.land 0 252) with 0. set_solver. Qed.

Lemma kept_header w w' b d f : kept w w' -> header w' b d f = header w b d f.
Proof. intros K. unfold header. rewrite K; [done|]. unfold id_offset. change (Z.land 14 252) with 12. set_solver. Qed.

Lemma kept_secondary w w' b d f : kept w w' -> secondary w' b d f = secondary w b d f.
Proof. intros K. unfold secondary. rewrite K; [done|]. unfold id_offset. change (Z.land 25 252) with 24. set_solver. Qed.

(** Reading the registers of a function leaves the identities alone. *)
Lemma check_bar_kept w dev i : 0 <= i < 6 ->
  exists w' dev', pci_check_bar w dev i (0x10 + i * 4) = (w', dev') /\ kept w w' /\ exists b, dev' = set_bar dev i b.
Proof.
  intros Hi. unfold pci_check_bar. cbv zeta. set (o := 0x10 + i * 4).
  destruct (read_dword_spec w (pd_bus dev) (pd_device dev) (pd_function dev) o) as (w1 & E1 & S1). rewrite E1.
  pose proof S1 as [R1 _]. set (lo := reg w _) in *.
  assert (Ho : Z.land o 0xFC <> 4).
  { subst o. assert (i = 0 \/ i = 1 \/ i = 2 \/ i = 3 \/ i = 4 \/ i = 5) as C by lia. repeat destruct C as [->|C]; subst; vm_compute; done. }
  destruct (Z.eqb_spec lo 0) as [_|_]; [unfold clear_type; do 2 eexists; split; [reflexivity|]; split; [by apply same_kept|by eexists]|].
  destruct (_ || _); [do 2 eexists; split; [reflexivity|]; split; [by apply same_kept|by eexists]|].
  destruct (bar_probe_spec w1 (pd_bus dev) (pd_device dev) (pd_function dev) o Ho) as (w2 & E2 & S2 & _). rewrite R1 in E2. fold lo in E2. rewrite E2.
  assert (K2 : kept w w2) by (apply kept_regs; intros x; by rewrite S2).
  destruct (has_flag lo 1); [do 2 eexists; split; [reflexivity|]; split; [done|by eexists]|].
  case_bool; [do 2 eexists; split; [reflexivity|]; split; [done|by eexists]|].
  case_bool; [|do 2 eexists; split; [reflexivity|]; split; [done|by eexists]].
  destruct (bar_probe_high_spec w2 (pd_bus dev) (pd_device dev) (pd_function dev) (o + 4)) as (w3 & E3 & S3). rewrite E3.
  do 2 eexists. split; [reflexivity|]. split; [|by eexists]. eapply kept_trans; [exact K2|by apply same_kept].
Qed.

(** What identifies a device in the list. *)
Definition same_device (dev dev' : pci_device) : Prop :=
  pd_bus dev' = pd_bus dev /\ pd_device dev' = pd_device dev /\ pd_function dev' = pd_function dev /\
  vendor_id dev' = vendor_id dev /\ class_code dev' = class_code dev /\ subclass_code dev' = subclass_code dev.

Lemma check_bars_kept fuel : forall w dev i, 0 <= i ->
  exists w' dev', check_bars w dev i fuel = (w', dev') /\ kept w w' /\ same_device dev dev'.
Proof.
  induction fuel as [|fuel IH]; intros w dev i Hi; cbn [check_bars]; [by exists w, dev|].
  case_bool; [|by exists w, dev]. destruct (check_bar_kept w dev i) as (w1 & dev1 & E1 & K1 & b & Eb); [lia|]. rewrite E1.
  assert (D1 : same_device dev dev1) by (by subst).
  assert (Go : forall w2 dev2 j, kept w w2 -> same_device dev dev2 -> 0 <= j -> exists w' dev', check_bars w2 dev2 j fuel = (w', dev') /\ kept w w' /\ same_device dev dev').
  { intros w2 dev2 j K2 D2 Hj. destruct (IH w2 dev2 j Hj) as (w' & dev' & E & K & D). exists w', dev'. split; [done|]. split; [by eapply kept_trans|].
    unfold same_device in *. intuition congruence. }
  case_bool; [|apply Go; [done..|lia]].
  destruct (read_dword_spec w1 (pd_bus dev1) (pd_device dev1) (pd_function dev1) (16 + i * 4)) as (w2 & E2 & S2). rewrite E2.
  assert (K2 : kept w w2) by (eapply kept_trans; [exact K1|by apply same_kept]).
  case_bool; [|apply Go; [done..|lia]]. apply Go; [done| |lia]. case_bool; [|done]. unfold clear_type. by subst.
Qed.

Lemma read_function_kept w b d f v :
  exists w' dev, read_function w b d f v = (w', dev) /\ kept w w' /\
    pd_bus dev = b /\ pd_device dev = d /\ pd_function dev = f /\ vendor_id dev = v.
Proof.
  unfold read_function.
  destruct (read_word_spec w b d f 2) as (w1 & -> & S1). destruct (read_word_spec w1 b d f 4) as (w2 & -> & S2).
  change (Z.land 4 2 * 8) with 0. rewrite Z.shiftr_0_r. set (cmd := Z.land (reg w1 (pci_address b d f 4)) 0xFFFF).
  assert (Hc : 0 <= Z.lor cmd 4 < 2 ^ 16).
  { replace (Z.lor cmd 4) with (Z.land (Z.lor cmd 4) (Z.ones 16)); [apply land_ones_range; lia|].
    subst cmd. rewrite Z.land_lor_distr_l, <- Z.land_assoc. done. }
  pose proof (write_command_spec w2 b d f (Z.lor cmd 4) Hc) as W3. set (w3 := pci_write_word w2 b d f 4 _) in *.
  destruct (read_byte_spec w3 b d f 8) as (w4 & -> & S4). destruct (read_byte_spec w4 b d f 9) as (w5 & -> & S5).
  destruct (read_byte_spec w5 b d f 10) as (w6 & -> & S6). destruct (read_byte_spec w6 b d f 11) as (w7 & -> & S7).
  destruct (read_byte_spec w7 b d f 14) as (w8 & -> & S8). destruct (read_byte_spec w8 b d f 60) as (w9 & -> & S9).
  destruct (read_byte_spec w9 b d f 61) as (w10 & -> & S10).
  assert (K : kept w w10).
  { repeat (eapply kept_trans; [|eapply same_kept; eassumption]). eapply kept_trans; [|eapply kept_command; exact W3].
    repeat (eapply kept_trans; [|eapply same_kept; eassumption]). apply kept_refl. }
  cbv zeta. cbn [header_type]. case_bool; [|by do 2 eexists].
  match goal with |- context [check_bars w10 ?D 0 7] => destruct (check_bars_kept 7 w10 D 0) as (w' & dev' & E & K' & D1); [lia|] end.
  rewrite E. exists w', dev'. split; [done|]. split; [by eapply kept_trans|]. unfold same_device in D1. cbn in D1. intuition congruence.
Qed.

Lemma tagged_kept w a b : kept w (tagged w a b).
Proof. apply kept_regs. intros x. unfold tagged. by rewrite cs_print, cs_color, cs_print, cs_color. Qed.

Lemma call_driver_kept f w dev ok : driver_safe f -> exists w' r, call_driver f w dev ok = Some (w', r) /\ kept w w'.
Proof.
  intros Hf. unfold call_driver. destruct f as [g|]; [|by exists w, false]. destruct (Hf g eq_refl w dev) as (w' & v & -> & K). by exists w', (ok v).
Qed.

Lemma probe_all_kept dev ptrs : forall w, exists w' p, probe_all drivers w dev ptrs = Some (w', p) /\ kept w w'.
Proof.
  induction ptrs as [|p ptrs IH]; intros w; [by exists w, 0|]. cbn [probe_all]. unfold try_driver. destruct (drivers_safe p) as [H1 H2].
  destruct (call_driver_kept _ w dev nonzero H1) as (w1 & r1 & -> & K1). cbn [mbind option_bind].
  assert (T : exists w2 r2, (if r1 then call_driver (init (drivers p)) w1 dev (fun v => v =? 0) else Some (w1, false)) = Some (w2, r2) /\ kept w w2).
  { destruct r1; [|by exists w1, false]. destruct (call_driver_kept _ w1 dev (fun v => v =? 0) H2) as (w2 & r2 & -> & K2).
    exists w2, r2. split; [done|]. by eapply kept_trans. }
  destruct T as (w2 & r2 & -> & K2). cbn [mbind option_bind]. destruct r2; [by exists w2, p|].
  destruct (IH w2) as (w3 & q & -> & K3). exists w3, q. split; [done|]. by eapply kept_trans.
Qed.

Lemma driver_probe_kept w r dev : lock (driver_lock r) = 0 ->
  exists w' r' p, driver_probe_device drivers w r dev = Some (w', r', p) /\ kept w w' /\ lock (driver_lock r') = 0.
Proof.
  intros Hl. unfold driver_probe_device, locked, spinlock_acquire. cbn [spin]. rewrite Hl. cbn [Z.eqb nonzero negb mbind option_bind lock driver_lock registered_drivers num_drivers].
  destruct (probe_all_kept dev (take (Z.to_nat (num_drivers r)) (registered_drivers r)) (set_cpu_flags w (cli (cpu_flags w)))) as (w1 & p & E & K).
  rewrite E. cbn [mbind option_bind]. unfold spinlock_release. cbn [driver_lock]. do 3 eexists. split; [reflexivity|]. split; [|done].
  eapply kept_trans; [|eapply kept_trans; [exact K|]]; apply kept_regs; intros x; by rewrite cs_flags.
Qed.

(** ** The scan *)

Context (w0 : W).

(** The invariant: the lock is free, the identities are those of [w0], the list
    fits its array, and only functions that answer are in it. *)
Record scan_ok s : Prop := ScanOk {
  so_lock : lock (driver_lock (ps_drivers s)) = 0;
  so_kept : kept w0 (ps_machine s);
  so_room : alen (pci_devices s) <= 256;
  so_vendor : Forall (fun dev => vendor_id dev <> 0xFFFF) (pci_devices s) }.

(** [s'] is a later state; unless the list is full, [Q] holds of it and so do the
    buses behind the bridges found on the way. *)
Definition post s s' (Q : list pci_device -> Prop) : Prop :=
  scan_ok s' /\ exists new, pci_devices s' = pci_devices s ++ new /\
    (alen (pci_devices s') = 256 \/
     (Q (pci_devices s') /\ forall dev, dev ∈ new -> bridge dev = true -> covered w0 (behind w0 dev) (pci_devices s'))).

Definition grows (Q : list pci_device -> Prop) : Prop := forall l l', Q l -> Q (l ++ l').

Lemma listed_grows b d f : grows (fun l => listed l b d f).
Proof. intros l l' (dev & Hin & ?). exists dev. split; [set_solver|done]. Qed.

Lemma covered_grows b : grows (covered w0 b).
Proof. intros l l' C d f Hd Hf P. apply listed_grows. by apply C. Qed.

Lemma post_refl s (Q : list pci_device -> Prop) : scan_ok s -> Q (pci_devices s) -> post s s Q.
Proof. intros Ok HQ. split; [done|]. exists []. split; [by rewrite app_nil_r|]. right. split; [done|]. intros dev Hin. by apply elem_of_nil in Hin. Qed.

Lemma post_weaken s s' (Q Q' : list pci_device -> Prop) : (forall l, Q l -> Q' l) -> post s s' Q -> post s s' Q'.
Proof. intros HQ (Ok & new & E & C). split; [done|]. exists new. split; [done|]. destruct C as [|[? ?]]; auto. Qed.

Lemma post_seq s1 s2 s3 (Q1 Q2 : list pci_device -> Prop) : grows Q1 -> post s1 s2 Q1 -> post s2 s3 Q2 ->
  post s1 s3 (fun l => Q1 l /\ Q2 l).
Proof.
  intros G (Ok2 & n1 & E1 & C1) (Ok3 & n2 & E2 & C2). split; [done|]. exists (n1 ++ n2). split; [by rewrite E2, E1, app_assoc|].
  destruct C2 as [|[HQ2 B2]]; [by left|]. destruct C1 as [F|[HQ1 B1]].
  - left. pose proof (so_room _ Ok3) as R. rewrite E2 in *. unfold alen in *. rewrite length_app in *. lia.
  - right. split; [split; [rewrite E2; by apply G|done]|]. intros dev [Hin|Hin]%elem_of_app Hb; [|by apply B2].
    rewrite E2. apply covered_grows. by apply B1.
Qed.

Lemma ok_machine s w : scan_ok s -> kept (ps_machine s) w -> scan_ok (set_machine s w).
Proof. intros [] K. split; try done. cbn. by eapply kept_trans. Qed.

(** A read changes nothing. *)
Lemma post_machine s w s' Q : post (set_machine s w) s' Q -> post s s' Q.
Proof. done. Qed.

Definition scans (n : Z) (scan : pci_state -> Z -> option pci_state) : Prop :=
  forall s b, scan_ok s -> 256 - alen (pci_devices s) < n -> exists s', scan s b = Some s' /\ post s s' (covered w0 b).

Section steps.
Context (n : Z) (scan : pci_state -> Z -> option pci_state) (Hscan : scans n scan).

Lemma check_function_spec s b d f : scan_ok s -> 256 - alen (pci_devices s) < n + 1 ->
  exists s', pci_check_function drivers scan s b d f = Some s' /\ post s s' (fun l => vendor w0 b d f <> 0xFFFF -> listed l b d f).
Proof.
  intros Ok Hn. unfold pci_check_function. destruct (read_word_spec (ps_machine s) b d f 0) as (w1 & E1 & S1). rewrite E1.
  change (Z.land (Z.shiftr (reg (ps_machine s) (pci_address b d f 0)) (Z.land 0 2 * 8)) 65535) with (vendor (ps_machine s) b d f).
  rewrite (kept_vendor w0) by apply (so_kept _ Ok). pose proof (ok_machine s w1 Ok (same_kept _ _ S1)) as Ok1.
  destruct (Z.eqb_spec (vendor w0 b d f) 0xFFFF) as [Ev|Ev]; [eexists; split; [reflexivity|]; apply (post_machine s w1); by apply post_refl|].
  unfold MAX_PCI_DEVICES. destruct (Z.leb_spec 256 (alen (pci_devices s))) as [Hfull|Hroom].
  { eexists. split; [reflexivity|]. split; [done|]. exists []. split; [by rewrite app_nil_r|]. left. pose proof (so_room _ Ok). cbn. lia. }
  destruct (read_function_kept w1 b d f (vendor w0 b d f)) as (w2 & dev & E2 & K2 & Db & Dd & Df & Dv). rewrite E2.
  set (w3 := tagged w2 _ _). pose proof (tagged_kept w2 (txt "[PCI] ") (function_line dev)) as K3. fold w3 in K3.
  destruct (driver_probe_kept w3 (ps_drivers s) dev (so_lock _ Ok)) as (w4 & r4 & p & E4 & K4 & L4). rewrite E4. cbn [mbind option_bind].
  assert (Kall : kept w0 w4).
  { eapply kept_trans; [apply (so_kept _ Ok1)|]. cbn. eapply kept_trans; [exact K2|]. eapply kept_trans; [exact K3|exact K4]. }
  set (s4 := PciState w4 r4 (pci_devices s ++ [dev])).
  assert (Hl : alen (pci_devices s4) = alen (pci_devices s) + 1) by (unfold s4, alen; cbn; rewrite length_app; simpl; lia).
  assert (Ok4 : scan_ok s4).
  { split; [done|done|lia|]. cbn. apply Forall_app. split; [apply (so_vendor _ Ok)|]. constructor; [by rewrite Dv|done]. }
  assert (Lst : listed (pci_devices s4) b d f) by (exists dev; split; [cbn; set_solver|done]).
  destruct (bridge dev) eqn:Eb; unfold bridge in Eb; rewrite Eb.
  - destruct (read_byte_spec w4 b d f 0x19) as (w5 & E5 & S5). rewrite E5. fold (secondary w4 b d f).
    rewrite (kept_secondary w0 w4) by done. pose proof (ok_machine s4 w5 Ok4 (same_kept _ _ S5)) as Ok5.
    destruct (Hscan (set_machine s4 w5) (secondary w0 b d f) Ok5) as (s' & E' & P'); [cbn in *; lia|]. exists s'. split; [done|].
    destruct P' as (Ok' & new & En & C). split; [done|]. exists (dev :: new). split; [rewrite En; cbn; by rewrite <- app_assoc|].
    destruct C as [|[Cov Br]]; [by left|right]. split; [intros _; rewrite En; by apply listed_grows|].
    intros dev' [->|Hin]%elem_of_cons Hb; [|by apply Br]. unfold behind. by rewrite Db, Dd, Df.
  - eexists. split; [reflexivity|]. split; [done|]. exists [dev]. split; [done|]. right. split; [done|].
    intros dev' ->%list_elem_of_singleton Hb. unfold bridge in Hb. congruence.
Qed.

Lemma post_room s s' Q m : post s s' Q -> 256 - alen (pci_devices s) < m -> 256 - alen (pci_devices s') < m.
Proof. intros (_ & new & E & _) Hm. rewrite E. unfold alen in *. rewrite length_app. lia. Qed.

Lemma check_other_spec s b d f : scan_ok s -> 256 - alen (pci_devices s) < n + 1 ->
  exists s', check_other drivers scan b d f s = Some s' /\ post s s' (fun l => vendor w0 b d f <> 0xFFFF -> listed l b d f).
Proof.
  intros Ok Hn. unfold check_other. destruct (read_word_spec (ps_machine s) b d f 0) as (w1 & E1 & S1). rewrite E1.
  change (Z.land (Z.shiftr (reg (ps_machine s) (pci_address b d f 0)) (Z.land 0 2 * 8)) 65535) with (vendor (ps_machine s) b d f).
  rewrite (kept_vendor w0) by apply (so_kept _ Ok). pose proof (ok_machine s w1 Ok (same_kept _ _ S1)) as Ok1.
  case_bool; [eexists; split; [reflexivity|]; apply (post_machine s w1); by apply post_refl|].
  destruct (check_function_spec (set_machine s w1) b d f Ok1 Hn) as (s' & -> & P). by exists s'.
Qed.

Lemma check_device_spec s b d : scan_ok s -> 256 - alen (pci_devices s) < n + 1 ->
  exists s', pci_check_device drivers scan b d s = Some s' /\
    post s s' (fun l => forall f, 0 <= f < 8 -> present w0 b d f -> listed l b d f).
Proof.
  intros Ok Hn. unfold pci_check_device. destruct (read_word_spec (ps_machine s) b d 0 0) as (w1 & E1 & S1). rewrite E1.
  change (Z.land (Z.shiftr (reg (ps_machine s) (pci_address b d 0 0)) (Z.land 0 2 * 8)) 65535) with (vendor (ps_machine s) b d 0).
  rewrite (kept_vendor w0) by apply (so_kept _ Ok). pose proof (ok_machine s w1 Ok (same_kept _ _ S1)) as Ok1.
  destruct (Z.eqb_spec (vendor w0 b d 0) 0xFFFF) as [Ev|Ev].
  { eexists. split; [reflexivity|]. apply (post_machine s w1). apply post_refl; [done|]. by intros f _ (P & _). }
  destruct (check_function_spec (set_machine s w1) b d 0 Ok1 Hn) as (s2 & -> & P2). cbn [mbind option_bind].
  pose proof (proj1 P2) as Ok2. destruct (read_byte_spec (ps_machine s2) b d 0 0x0E) as (w3 & E3 & S3). rewrite E3.
  fold (header (ps_machine s2) b d 0). rewrite (kept_header w0) by apply (so_kept _ Ok2).
  pose proof (ok_machine s2 w3 Ok2 (same_kept _ _ S3)) as Ok3. apply (post_machine s w1) in P2.
  destruct (has_flag (header w0 b d 0) 0x80) eqn:Eh.
  - pose proof (post_room _ _ _ _ P2 Hn) as Hn2.
    destruct (each_inv (check_other drivers scan b d) (fun k s' => post s s' (fun l => listed l b d 0 /\
      forall f, 1 <= f < k -> vendor w0 b d f <> 0xFFFF -> listed l b d f)) 7 1 (set_machine s2 w3)) as (s' & E' & P').
    + lia.
    + destruct P2 as (_ & new & En & C). split; [done|]. exists new. split; [done|]. destruct C as [|[HQ B]]; [by left|right].
      split; [|done]. split; [by apply HQ|lia].
    + intros k a Hk Pa. pose proof (post_room _ _ _ _ Pa Hn) as Hna. destruct (check_other_spec a b d k (proj1 Pa) Hna) as (a' & Ea & Pa').
      exists a'. split; [done|]. eapply post_weaken; [|eapply post_seq; [|exact Pa|exact Pa']].
      * intros l [[H0 Hlt] Hk']. split; [done|]. intros f Hf. destruct (decide (f = k)) as [->|]; [done|]. apply Hlt. lia.
      * intros l l' [H0 Hlt]. split; [by apply listed_grows|]. intros f Hf Hv. apply listed_grows. by apply Hlt.
    + exists s'. split; [done|]. eapply post_weaken; [|exact P']. intros l [H0 Hlt] f Hf (_ & Hv & _).
      destruct (decide (f = 0)) as [->|]; [done|]. apply Hlt; [lia|done].
  - eexists. split; [reflexivity|]. destruct P2 as (_ & new & En & C). split; [done|]. exists new. split; [done|].
    destruct C as [|[HQ B]]; [by left|right]. split; [|done]. intros f Hf (_ & Hv & [->|Hm]); [by apply HQ|congruence].
Qed.

End steps.

Lemma scan_bus_spec fuel : scans (Z.of_nat fuel) (pci_scan_bus drivers fuel).
Proof.
  induction fuel as [|fuel IH]; intros s b Ok Hn; [pose proof (so_room _ Ok); lia|]. cbn [pci_scan_bus].
  assert (Hn' : 256 - alen (pci_devices s) < Z.of_nat fuel + 1) by lia.
  destruct (each_inv (pci_check_device drivers (pci_scan_bus drivers fuel) b) (fun k s' => post s s' (fun l =>
    forall d f, 0 <= d < k -> 0 <= f < 8 -> present w0 b d f -> listed l b d f)) 32 0 s) as (s' & E' & P').
  - lia.
  - apply post_refl; [done|]. lia.
  - intros k a Hk Pa. pose proof (post_room _ _ _ _ Pa Hn') as Hna.
    destruct (check_device_spec (Z.of_nat fuel) _ IH a b k (proj1 Pa) Hna) as (a' & Ea & Pa'). exists a'. split; [done|].
    eapply post_weaken; [|eapply post_seq; [|exact Pa|exact Pa']].
    + intros l [Hlt Hk'] d f Hd. destruct (decide (d = k)) as [->|]; [by apply Hk'|]. apply Hlt. lia.
    + intros l l' Hlt d f Hd Hf Hp. apply listed_grows. by apply Hlt.
  - exists s'. split; [done|]. exact P'.
Qed.

(** C36.  [pci_init] ends whatever the bridges claim (a bridge whose secondary bus
    leads back included: the list of 256 entries bounds the recursion).  The list
    holds only functions that answered; unless it is full, it holds every
    function that answers on bus 0 and every one on the buses behind the bridges
    in the list. *)
Theorem pci_init_complete s : ps_machine s = w0 -> lock (driver_lock (ps_drivers s)) = 0 ->
  exists s', pci_init drivers s = Some s' /\ alen (pci_devices s') <= 256 /\
    Forall (fun dev => vendor_id dev <> 0xFFFF) (pci_devices s') /\
    (alen (pci_devices s') = 256 \/
     (covered w0 0 (pci_devices s') /\
      forall dev, dev ∈ pci_devices s' -> bridge dev = true -> covered w0 (behind w0 dev) (pci_devices s'))).
Proof.
  intros Ew Hl. unfold pci_init. set (s0 := PciState (ps_machine s) (ps_drivers s) []).
  assert (Ok : scan_ok s0) by (split; [done|by cbn; rewrite Ew|done|by cbn]).
  destruct (scan_bus_spec scan_fuel s0 0 Ok) as (s1 & -> & (Ok1 & new & En & C)); [done|]. cbn [mbind option_bind].
  eexists. split; [reflexivity|]. cbn in *. rewrite En in *. split; [rewrite <- En; apply (so_room _ Ok1)|].
  split; [rewrite <- En; apply (so_vendor _ Ok1)|]. destruct C as [|[Cov Br]]; [by left|right]. by split.
Qed.

End scan.

(** ** A machine *)

Record bus_machine := BusMachine { bm_regs : gmap Z Z; bm_sel : Z; bm_flags : Z; bm_out : list (list Z) }.

Definition bm_reg (w : bus_machine) (a : Z) : Z := u32 (default 0xFFFFFFFF (bm_regs w !! a)).

(** The address bits of a 4 KiB region; the decode and bus-master bits. *)
Definition bm_writable (a : Z) : Z :=
  if Z.land a 0xFF =? 0x10 then 2 ^ 32 - 2 ^ 12 else if Z.land a 0xFF =? 4 then 7 else 0.

Definition bm_store (w : bus_machine) (m v : Z) : bus_machine :=
  BusMachine (<[bm_sel w := merge m (bm_reg w (bm_sel w)) v]> (bm_regs w)) (bm_sel w) (bm_flags w) (bm_out w).

#[export] Instance bus_hw : Machine bus_machine := {|
  outl w p v := if p =? PCI_CONFIG_ADDRESS then BusMachine (bm_regs w) v (bm_flags w) (bm_out w) else bm_store w (bm_writable (bm_sel w)) v;
  outw w p v := bm_store w (Z.land (bm_writable (bm_sel w)) 0xFFFF) v;
  outb w p v := bm_store w (Z.land (bm_writable (bm_sel w)) 0xFF) v;
  inl w p := (w, bm_reg w (bm_sel w));
  cpu_flags := bm_flags;
  set_cpu_flags w f := BusMachine (bm_regs w) (bm_sel w) f (bm_out w);
  kprintf_set_color w _ _ := w;
  kprint w l := BusMachine (bm_regs w) (bm_sel w) (bm_flags w) (bm_out w ++ [l]) |}.

Lemma merge_range m old v : 0 <= old < 2 ^ 32 -> 0 <= v < 2 ^ 32 -> u32 (merge m old v) = merge m old v.
Proof.
  intros Ho Hv. unfold wrap, merge. rewrite <- (Z.mod_small old (2 ^ 32) Ho), <- (Z.mod_small v (2 ^ 32) Hv).
  rewrite <- !Z.land_ones by done. generalize (Z.ones 32). intros o. bits.
Qed.

Lemma bm_store_reg w m v x : 0 <= v < 2 ^ 32 ->
  bm_reg (bm_store w m v) x = if decide (x = bm_sel w) then merge m (bm_reg w x) v else bm_reg w x.
Proof.
  intros Hv. unfold bm_store. unfold bm_reg at 1. cbn [bm_regs]. case_decide as E.
  - subst x. rewrite lookup_insert_eq. cbn [from_option id]. rewrite merge_range; [done| |done]. apply (wrap_fits 32). lia.
  - by rewrite lookup_insert_ne.
Qed.

#[export] Instance bus_config : ConfigSpace bus_machine.
Proof.
  refine {| reg := bm_reg; selected := bm_sel; writable := bm_writable |}.
  - intros w a. apply (wrap_fits 32). lia.
  - done.
  - done.
  - intros w v x Hv. cbn. rewrite bm_store_reg by done. by case_decide; subst.
  - intros w v x Hv. cbn. rewrite bm_store_reg by lia. by case_decide; subst.
  - done.
  - intros w. split_and!; try done. intros p v. cbn. by case_bool.
  - done.
  - done.
Defined.

(** A network card at 0:3.0 with a 4 KiB region, and a bridge at 0:5.0 to bus 1,
    where a disk controller sits. *)
Definition demo_regs : gmap Z Z := list_to_map [
  (pci_address 0 3 0 0, 0x100E8086); (pci_address 0 3 0 4, 3); (pci_address 0 3 0 8, 0x02000003); (pci_address 0 3 0 12, 0);
  (pci_address 0 3 0 0x10, 0xFEB80008); (pci_address 0 3 0 0x14, 0); (pci_address 0 3 0 0x18, 0); (pci_address 0 3 0 0x1C, 0);
  (pci_address 0 3 0 0x20, 0); (pci_address 0 3 0 0x24, 0); (pci_address 0 3 0 0x3C, 0x10B);
  (pci_address 0 5 0 0, 0x11111B36); (pci_address 0 5 0 8, 0x06040000); (pci_address 0 5 0 12, 0x10000); (pci_address 0 5 0 0x18, 0x10100);
  (pci_address 1 2 0 0, 0x29228086); (pci_address 1 2 0 8, 0x01060100); (pci_address 1 2 0 12, 0x10000)].

Definition demo_bus : bus_machine := BusMachine demo_regs 0 512 [].

Definition demo_drivers : Z -> driver bus_machine pci_device := fun _ => Driver _ _ [] None None.

Definition demo_state : pci_state := PciState demo_bus (Registry (replicate 64 0) 0 SPINLOCK_INIT) [].

Definition card : pci_device := PciDevice 0 3 0 0x8086 0x100E 2 0 0 3 0 0 (replicate 6 no_bar) 11 1.

Lemma pci_check_bar_correct_witness :
  snd (pci_check_bar demo_bus card 0 0x10) = set_bar card 0 (PciBar PCI_BAR_TYPE_MMIO 0xFEB80000 4096 1).
Proof.
  destruct (pci_check_bar_correct demo_bus card 0 12 BarMem32) as (w' & E & _).
  - lia.
  - done.
  - done.
  - split; [lia|]. split; [vm_compute; reflexivity|]. split; [right; vm_compute; reflexivity|vm_compute; discriminate].
  - change (0x10 + 0 * 4) with 0x10 in E. rewrite E. vm_compute. reflexivity.
Defined.

Lemma pci_init_complete_witness :
  exists s', pci_init demo_drivers demo_state = Some s' /\
    map (fun dev => (pd_bus dev, pd_device dev, pd_function dev)) (pci_devices s') = [(0, 3, 0); (0, 5, 0); (1, 2, 0)].
Proof.
  assert (S : forall p, driver_safe (probe (demo_drivers p)) /\ driver_safe (init (demo_drivers p))) by (intros p; split; intros g E; discriminate E).
  destruct (pci_init_complete demo_drivers S demo_bus demo_state)
    as (s' & E & _); [done|done|]. exists s'. split; [exact E|].
  assert (M : (fun s => map (fun dev => (pd_bus dev, pd_device dev, pd_function dev)) (pci_devices s)) <$> pci_init demo_drivers demo_state =
    Some [(0, 3, 0); (0, 5, 0); (1, 2, 0)]) by (vm_compute; reflexivity).
  rewrite E in M. cbn [fmap option_fmap option_map] in M. congruence.
Defined.

(** A bridge whose secondary bus is its own is entered 256 times: nothing but the
    size of the list stops the recursion. *)
Example bridge_loop :
  let regs := list_to_map [(pci_address 0 5 0 0, 0x11111B36); (pci_address 0 5 0 8, 0x06040000); (pci_address 0 5 0 12, 0x10000);
    (pci_address 0 5 0 0x18, 0)] in
  (fun s => alen (pci_devices s)) <$> pci_init demo_drivers (PciState (BusMachine regs 0 0 []) (ps_drivers demo_state) []) = Some 256.
Proof. vm_compute. reflexivity. Qed.

(** Interrupts are on after sizing even when the caller had them off. *)
Example sizing_enables_interrupts :
  interrupts_on (bm_flags (BusMachine demo_regs 0 0 [])) = false /\
  interrupts_on (bm_flags (pci_check_bar (BusMachine demo_regs 0 0 []) card 0 0x10).1) = true.
Proof. vm_compute. done. Qed.

(** An I/O register with its upper half wired to zero gets a size of almost 4 GiB. *)
Example io_bar_16_bits :
  u32 (- Z.ldiff 0xFFE1 0x3) = 0xFFFF0020.
Proof. vm_compute. reflexivity. Qed.

(** ** The registry is a list of at most 64 drivers *)

Section registry.
Context {W Dev : Type} `{Machine W} (drivers : Z -> driver W Dev).

Definition registered (r : registry) : list Z := take (Z.to_nat (num_drivers r)) (registered_drivers r).

Record registry_ok (r : registry) : Prop := RegistryOk {
  ro_array : alen (registered_drivers r) = MAX_DRIVERS;
  ro_num : 0 <= num_drivers r <= MAX_DRIVERS;
  ro_lock : lock (driver_lock r) = 0 }.

Fixpoint remove_first (x : Z) (l : list Z) : list Z :=
  match l with [] => [] | y :: l => if y =? x then l else y :: remove_first x l end.

Lemma shift_down_spec n : forall a j, 0 <= j -> j + Z.of_nat n < alen a ->
  shift_down a j n = take (Z.to_nat j) a ++ take n (drop (Z.to_nat j + 1) a) ++ drop (Z.to_nat j + n) a.
Proof.
  induction n as [|n IH]; intros a j Hj Hn; cbn [shift_down].
  - rewrite take_0. cbn [app]. by rewrite Nat.add_0_r, take_drop.
  - unfold alen in *. destruct (lookup_lt_is_Some_2 a (Z.to_nat j)) as [x Ex]; [lia|].
    destruct (lookup_lt_is_Some_2 a (Z.to_nat j + 1)) as [y Ey]; [lia|].
    rewrite IH by (unfold aset; rewrite ?length_insert; lia). unfold aset, aget.
    replace (Z.to_nat (j + 1)) with (Z.to_nat j + 1)%nat by lia. rewrite Ey. cbn [from_option id].
    set (i := Z.to_nat j) in *. rewrite (insert_take_drop a i y) by lia.
    assert (Hp : length (take i a) = i) by (rewrite length_take; lia).
    rewrite (take_app_add' (take i a)) by done. cbn [take].
    replace (i + 1 + 1)%nat with (i + 2)%nat by lia. replace (i + 1 + n)%nat with (i + (1 + n))%nat by lia.
    rewrite !(drop_app_add' (take i a)) by done. rewrite (drop_S a y (i + 1) Ey). cbn [take drop Nat.add]. rewrite !drop_drop.
    rewrite <- !app_assoc. cbn [app]. rewrite take_0. replace (S i + 1)%nat with (S (i + 1)) by lia. by replace (S i + n)%nat with (i + S n)%nat by lia.
Qed.

Lemma unregister_from_spec n : forall r drv i, 0 <= i -> num_drivers r = i + Z.of_nat n -> num_drivers r <= alen (registered_drivers r) ->
  let r' := unregister_from r drv i n in
  registered r' = take (Z.to_nat i) (registered_drivers r) ++ remove_first drv (take n (drop (Z.to_nat i) (registered_drivers r))) /\
  alen (registered_drivers r') = alen (registered_drivers r) /\ 0 <= num_drivers r' <= num_drivers r /\ driver_lock r' = driver_lock r.
Proof.
  induction n as [|n IH]; intros r drv i Hi Hn Ha; cbn [unregister_from].
  - rewrite take_0. cbn [remove_first]. unfold registered. rewrite app_nil_r, Hn, Z.add_0_r. split_and!; (done || lia).
  - unfold alen in Ha. destruct (lookup_lt_is_Some_2 (registered_drivers r) (Z.to_nat i)) as [x Ex]; [lia|].
    unfold aget. rewrite Ex. cbn [from_option id]. rewrite (drop_S _ x (Z.to_nat i) Ex). cbn [take remove_first].
    destruct (Z.eqb_spec x drv) as [->|Hne].
    + rewrite shift_down_spec by (unfold alen; lia). cbn [registered_drivers num_drivers driver_lock]. split_and!; [|unfold alen; rewrite !length_app, !length_take, !length_drop; lia|lia..|done].
      unfold registered. cbn [registered_drivers num_drivers]. rewrite app_assoc.
      rewrite take_app_le by (rewrite length_app, !length_take, length_drop; lia).
      rewrite take_ge by (rewrite length_app, !length_take, length_drop; lia). f_equal.
      replace (Z.to_nat (num_drivers r - 1 - i)) with n by lia. f_equal. f_equal. lia.
    + destruct (IH r drv (i + 1)) as (E1 & E2); [lia..|unfold alen; lia|]. split; [|done]. rewrite E1.
      replace (Z.to_nat (i + 1)) with (Datatypes.S (Z.to_nat i)) by lia. rewrite (take_S_r _ _ x) by done. by rewrite <- app_assoc.
Qed.

Lemma locked_free {A} w r (body : W -> registry -> option (W * registry * A)) : lock (driver_lock r) = 0 ->
  exists w1 r1, registered_drivers r1 = registered_drivers r /\ num_drivers r1 = num_drivers r /\
    locked w r body = '(w2, r2, a) ← body w1 r1;
      let '(fl, l) := spinlock_release (cpu_flags w2) (driver_lock r2) in
      Some (set_cpu_flags w2 fl, Registry (registered_drivers r2) (num_drivers r2) l, a).
Proof.
  intros Hl. unfold locked, spinlock_acquire. cbn [spin]. rewrite Hl. cbn [nonzero negb Z.eqb mbind option_bind].
  do 2 eexists. split; [|split; [|reflexivity]]; done.
Qed.

(** Registering appends below 64 drivers and is refused with a message there;
    unregistering takes the first occurrence out and keeps the order. *)
Theorem registry_refines_list (w : W) (r : registry) (drv : Z) : registry_ok r -> drv <> 0 ->
  (exists w' r', driver_register drivers w r drv = Some (w', r') /\ registry_ok r' /\
    registered r' = if num_drivers r <? MAX_DRIVERS then registered r ++ [drv] else registered r) /\
  (exists w' r', driver_unregister w r drv = Some (w', r') /\ registry_ok r' /\ registered r' = remove_first drv (registered r)).
Proof.
  intros [Ha Hn Hl] Hd. unfold driver_register, driver_unregister. rewrite (proj2 (Z.eqb_neq drv 0) Hd). split.
  - match goal with |- context [locked w r ?b] => destruct (locked_free w r b Hl) as (w1 & r1 & E1 & E2 & ->) end. rewrite E2, E1, Ha.
    destruct (Z.leb_spec MAX_DRIVERS (num_drivers r)), (Z.ltb_spec (num_drivers r) MAX_DRIVERS); try lia; cbn [mbind option_bind];
      unfold spinlock_release; cbn [driver_lock registered_drivers num_drivers]; do 2 eexists; (split; [reflexivity|]).
    + split; [split; cbn; rewrite ?E1, ?E2; done|]. unfold registered. cbn. by rewrite E1, E2.
    + split; [split; cbn; [by rewrite alen_aset|lia|done]|]. unfold registered. cbn. unfold aset, alen in *.
      replace (Z.to_nat (num_drivers r + 1)) with (Datatypes.S (Z.to_nat (num_drivers r))) by lia.
      rewrite (take_S_r _ _ drv) by (rewrite list_lookup_insert_eq; [done|lia]). by rewrite take_insert_ge by lia.
  - match goal with |- context [locked w r ?b] => destruct (locked_free w r b Hl) as (w1 & r1 & E1 & E2 & ->) end. cbn [mbind option_bind].
    destruct (unregister_from_spec (Z.to_nat (num_drivers r1)) r1 drv 0) as (U1 & U2 & U3 & U4); [lia|lia|rewrite E1, E2, Ha; lia|].
    unfold spinlock_release. do 2 eexists. split; [reflexivity|]. split; [split; cbn; [by rewrite U2, E1|lia|done]|].
    unfold registered in *. cbn [registered_drivers num_drivers] in *. rewrite U1. cbn [take app]. rewrite drop_0. by rewrite E1, E2.
Qed.

End registry.

Lemma registry_refines_list_witness :
  exists w r, driver_register demo_drivers demo_bus (Registry (replicate 64 0) 0 SPINLOCK_INIT) 4096 = Some (w, r) /\ registered r = [4096].
Proof.
  destruct (registry_refines_list demo_drivers demo_bus (Registry (replicate 64 0) 0 SPINLOCK_INIT) 4096) as ((w & r & E & _ & R) & _).
  - split; done.
  - done.
  - exists w, r. split; [exact E|]. exact R.
Defined.
