(* ===== verification/ShellPath.v ===== *)
(** Path normalisation of the kernel shell, [shell_normalize_path] of
    kernel/src/shell/shell_core.c.

    [None] is a string that does not fit into the 256-byte buffer it is copied
    to.  The theorem: the output names the components of the two paths with "."
    and ".." worked out, and is canonical. *)
From stdpp Require Import prelude gmap list strings.
From Stdlib Require Import ZArith Lia.
From S2P Require Import Prelude Vfs.

Open Scope Z_scope.

Definition SHELL_MAX_LINE_LEN : Z := 256.

Definition DOT : Z := 46.

(** [strcat(buf, s)] for a buffer of 256 bytes that holds the string [buf]. *)
Definition str_append (buf s : list Z) : option (list Z) :=
  if alen buf + alen s <? SHELL_MAX_LINE_LEN then Some (buf ++ s) else None.

(** The absolute path in [temp]. *)
Definition shell_temp (cwd input : list Z) : option (list Z) :=
  match input with
  | c :: _ =>
      if c =? SLASH then Some (take 255 input)
      else
        t1 ← str_append [] cwd;
        t2 ← (if decide (cwd = [SLASH]) then Some t1 else str_append t1 [SLASH]);
        str_append t2 input
  | [] =>
      t1 ← str_append [] cwd;
      t2 ← (if decide (cwd = [SLASH]) then Some t1 else str_append t1 [SLASH]);
      str_append t2 input
  end.

(** [strchr(token, '/')]: the token cut there, and what follows the slash. *)
Fixpoint cut_slash (token : list Z) : list Z * option (list Z) :=
  match token with
  | [] => ([], None)
  | c :: p => if c =? SLASH then ([], Some p) else let '(t, next) := cut_slash p in (c :: t, next)
  end.

(** What a token does to the stack of parts. *)
Definition push_part (parts : list (list Z)) (token : list Z) : list (list Z) :=
  if decide (token = [DOT; DOT]) then removelast parts
  else if decide (token = [DOT]) then parts
  else if 0 <? alen token then parts ++ [token]
  else parts.

(** The loop over the tokens: each round but the last consumes a slash. *)
Fixpoint path_parts (token : list Z) (parts : list (list Z)) (fuel : nat) : option (list (list Z)) :=
  match fuel with
  | O => None
  | S fuel =>
      if (0 <? alen token) && (alen parts <? 32) then
        let '(t, next_token) := cut_slash token in
        match next_token with
        | None => Some (push_part parts t)
        | Some rest => path_parts rest (push_part parts t) fuel
        end
      else Some parts
  end.

Fixpoint join_parts (output : list Z) (parts : list (list Z)) : option (list Z) :=
  match parts with
  | [] => Some output
  | p :: ps =>
      o ← str_append output p;
      match ps with
      | [] => Some o
      | _ => o' ← str_append o [SLASH]; join_parts o' ps
      end
  end.

(** From [temp] to [output]. *)
Definition normalize_temp (temp : list Z) : option (list Z) :=
  let token := match temp with c :: p => if c =? SLASH then p else temp | [] => temp end in
  parts ← path_parts token [] (S (length token));
  join_parts [SLASH] parts.

Definition shell_normalize_path (cwd input : list Z) : option (list Z) :=
  temp ← shell_temp cwd input;
  normalize_temp temp.

(** ** Reference: components with the dots worked out *)

Definition resolve_dots (cs : list (list Z)) : list (list Z) := foldl push_part [] cs.

Fixpoint join (cs : list (list Z)) : list Z :=
  match cs with
  | [] => []
  | [c] => c
  | c :: cs => c ++ SLASH :: join cs
  end.

Definition render_path (cs : list (list Z)) : list Z := SLASH :: join cs.

(** What [input] names from the directory [cwd]. *)
Definition named_from (cwd input : list Z) : list (list Z) :=
  match input with
  | c :: _ => if c =? SLASH then components [] input else components [] cwd ++ components [] input
  | [] => components [] cwd
  end.

(** A component: not empty, without a slash. *)
Definition is_name (c : list Z) : Prop := c <> [] /\ Forall (fun x => x <> SLASH) c.

(** Not a dot entry either. *)
Definition is_plain (c : list Z) : Prop := is_name c /\ c <> [DOT] /\ c <> [DOT; DOT].

(** ** Proofs *)

Lemma components_plain c : Forall (fun x => x <> SLASH) c -> forall cur, components cur c = flush (cur ++ c) [].
Proof.
  induction 1 as [|x c Hx _ IH]; intros cur; cbn [components]; [by rewrite app_nil_r|].
  rewrite (proj2 (Z.eqb_neq x SLASH) Hx), IH, <- app_assoc. done.
Qed.

Lemma components_names p : forall cur, Forall (fun x => x <> SLASH) cur -> Forall is_name (components cur p).
Proof.
  assert (Hf : forall cur r, Forall (fun x => x <> SLASH) cur -> Forall is_name r -> Forall is_name (flush cur r)).
  { intros [|x cur] r Hc Hr; [exact Hr|]. constructor; [by split|exact Hr]. }
  induction p as [|c p IH]; intros cur Hc; cbn [components]; [by apply Hf|].
  case_bool; [apply Hf, IH; done|]. apply IH, Forall_app. split; [done|]. by constructor.
Qed.

Lemma cut_slash_spec p t next : cut_slash p = (t, next) ->
  Forall (fun x => x <> SLASH) t /\ p = t ++ match next with None => [] | Some r => SLASH :: r end.
Proof.
  revert t next. induction p as [|c p IH]; intros t next; cbn [cut_slash]; [intros [= <- <-]; by split|].
  case_bool; [intros [= <- <-]; subst; by split|]. destruct (cut_slash p) as [t' next'] eqn:E. intros [= <- <-].
  destruct (IH _ _ eq_refl) as [F ->]. split; [by constructor|done].
Qed.

(** The empty token changes nothing. *)
Lemma push_flush t r parts : foldl push_part parts (flush t r) = foldl push_part (push_part parts t) r.
Proof. destruct t; [|done]. done. Qed.

Lemma push_length parts t : alen (push_part parts t) <= alen parts + (if decide (t = []) then 0 else 1).
Proof.
  destruct t as [|x t]; [rewrite decide_True by done; unfold push_part; simpl; lia|].
  rewrite (decide_False (P := x :: t = [])) by done. unfold push_part, alen. case_decide as E1.
  - destruct parts as [|y ps _] using rev_ind; [done|]. rewrite removelast_last, length_app. lia.
  - case_decide; [lia|]. case_bool; rewrite ?length_app; simpl; lia.
Qed.

Lemma push_all_length cs : forall ps, alen (foldl push_part ps cs) <= alen ps + alen cs.
Proof.
  induction cs as [|c l IH]; intros ps; cbn [foldl]; [unfold alen; lia|]. specialize (IH (push_part ps c)).
  pose proof (push_length ps c) as G. unfold alen in *. cbn [length]. case_decide; lia.
Qed.

Lemma path_parts_spec fuel : forall token parts, (length token < fuel)%nat ->
  alen parts + alen (components [] token) <= 32 ->
  path_parts token parts fuel = Some (foldl push_part parts (components [] token)).
Proof.
  induction fuel as [|fuel IH]; intros token parts Hf H32; [lia|]. cbn [path_parts].
  destruct token as [|c token0] eqn:Et; [done|]. rewrite <- Et in *.
  rewrite (proj2 (Z.ltb_lt 0 (alen token))) by (subst; unfold alen; simpl; lia). cbn [andb].
  destruct (Z.ltb_spec (alen parts) 32) as [Hlt|Hge].
  - destruct (cut_slash token) as [t next] eqn:Ec. destruct (cut_slash_spec _ _ _ Ec) as [F E].
    destruct next as [r|].
    + rewrite E, components_app, components_plain by done. cbn [app]. 
      assert (Hc : components [] token = flush t (components [] r)).
      { rewrite E, components_app, components_plain by done. by destruct t. }
      rewrite IH.
      * f_equal. rewrite foldl_app, push_flush. done.
      * rewrite E, length_app in Hf. simpl in Hf. lia.
      * rewrite Hc in H32. pose proof (push_length parts t). destruct t; cbn [flush] in H32; [case_decide; [lia|done]|].
        unfold alen in *. cbn [length] in H32. case_decide; [done|]. lia.
    + rewrite app_nil_r in E. subst t. rewrite components_plain by done. cbn [app]. by rewrite push_flush.
  - destruct (components [] token) as [|x l]; [done|]. unfold alen in *. cbn [length] in H32. lia.
Qed.

(** The characters of the components, with a slash each. *)
Definition weight (cs : list (list Z)) : Z := foldr (fun c n => alen c + 1 + n) 0 cs.

Lemma weight_cons c cs : weight (c :: cs) = alen c + 1 + weight cs.
Proof. done. Qed.

Lemma weight_app cs ds : weight (cs ++ ds) = weight cs + weight ds.
Proof. induction cs as [|c cs IH]; cbn [app]; [done|]. rewrite !weight_cons. lia. Qed.

Lemma weight_nonneg cs : 0 <= weight cs.
Proof. induction cs as [|c cs IH]; [done|]. rewrite weight_cons. pose proof (alen_nonneg c). lia. Qed.

Lemma weight_components p : forall cur, weight (components cur p) <= alen cur + alen p + 1.
Proof.
  assert (Hf : forall cur r, weight (flush cur r) <= alen cur + 1 + weight r).
  { intros [|x cur] r; cbn [flush]; rewrite ?weight_cons; [|lia]. change (alen (@nil Z)) with 0. lia. }
  induction p as [|c p IH]; intros cur; cbn [components].
  - pose proof (Hf cur []). change (weight []) with 0 in *. unfold alen in *. simpl length. lia.
  - case_bool.
    + pose proof (Hf cur (components [] p)). specialize (IH []). unfold alen in *. cbn [length] in *. lia.
    + specialize (IH (cur ++ [c])). unfold alen in *. rewrite length_app in IH. cbn [length] in *. lia.
Qed.

Lemma weight_push cs : forall parts, weight (foldl push_part parts cs) <= weight parts + weight cs.
Proof.
  induction cs as [|c cs IH]; intros parts; cbn [foldl]; [change (weight []) with 0; lia|].
  etransitivity; [apply IH|]. rewrite weight_cons.
  assert (weight (push_part parts c) <= weight parts + (alen c + 1)); [|lia]. pose proof (alen_nonneg c). unfold push_part.
  case_decide; [|case_decide; [lia|case_bool; [|lia]]].
  - destruct parts as [|x ps _] using rev_ind; [cbn [removelast]; lia|]. rewrite removelast_last, weight_app.
    pose proof (weight_nonneg [x]). lia.
  - rewrite weight_app, weight_cons. change (weight []) with 0. lia.
Qed.

Lemma alen_join cs : alen (join cs) <= Z.max 0 (weight cs - 1).
Proof.
  induction cs as [|c [|d cs] IH]; [done|cbn; lia|]. pose proof (weight_nonneg cs). pose proof (alen_nonneg d).
  change (join (c :: d :: cs)) with (c ++ SLASH :: join (d :: cs)). rewrite !weight_cons in *. unfold alen in *. rewrite length_app. cbn [length] in *. lia.
Qed.

Lemma join_parts_cons output p q ps :
  join_parts output (p :: q :: ps) = o ← str_append output p; o' ← str_append o [SLASH]; join_parts o' (q :: ps).
Proof. done. Qed.

Lemma str_append_fits buf s : alen buf + alen s < 256 -> str_append buf s = Some (buf ++ s).
Proof. intros Hl. unfold str_append. change SHELL_MAX_LINE_LEN with 256. by rewrite (proj2 (Z.ltb_lt _ _) Hl). Qed.

Lemma join_parts_spec parts : forall output, alen output + alen (join parts) < 256 ->
  join_parts output parts = Some (output ++ join parts).
Proof.
  unfold alen. induction parts as [|p [|q ps] IH]; intros output Hl.
  - cbn [join_parts join]. by rewrite app_nil_r.
  - cbn [join_parts join] in *. by rewrite str_append_fits.
  - change (join (p :: q :: ps)) with (p ++ SLASH :: join (q :: ps)) in *. rewrite length_app in Hl. cbn [length] in Hl.
    rewrite join_parts_cons, str_append_fits by (unfold alen; lia). cbn [mbind option_bind].
    rewrite str_append_fits by (unfold alen; rewrite length_app; cbn [length]; lia). cbn [mbind option_bind].
    rewrite IH; [by rewrite <- !app_assoc|]. rewrite !length_app. cbn [length]. lia.
Qed.

Lemma components_join cs : Forall is_name cs -> components [] (join cs) = cs.
Proof.
  induction 1 as [|c cs [Hn Hs] F IH]; [done|]. destruct cs as [|d cs].
  - cbn [join]. rewrite components_plain by done. by destruct c.
  - change (join (c :: d :: cs)) with (c ++ SLASH :: join (d :: cs)). rewrite components_app, IH, components_plain by done. by destruct c.
Qed.

Lemma components_render cs : Forall is_name cs -> components [] (render_path cs) = cs.
Proof. intros F. unfold render_path. cbn [components]. rewrite Z.eqb_refl. cbn [flush]. by apply components_join. Qed.

Lemma push_plain parts c : Forall is_plain parts -> is_name c -> Forall is_plain (push_part parts c).
Proof.
  intros F [Hn Hs]. unfold push_part. case_decide as E1; [|case_decide as E2; [done|]].
  - destruct parts as [|x ps _] using rev_ind; [done|]. rewrite removelast_last. by apply Forall_app in F as [F _].
  - destruct (Z.ltb_spec 0 (alen c)); [|done]. apply Forall_app. split; [done|]. constructor; [done|by constructor].
Qed.

Lemma resolve_dots_plain cs : Forall is_name cs -> Forall is_plain (resolve_dots cs).
Proof.
  unfold resolve_dots. assert (G : forall parts, Forall is_plain parts -> Forall is_name cs -> Forall is_plain (foldl push_part parts cs)).
  { induction cs as [|c cs IH]; intros parts Hp F; [done|]. apply Forall_cons in F as [Hc F]. cbn [foldl]. apply IH; [by apply push_plain|done]. }
  by apply G.
Qed.

Lemma resolve_plain cs : Forall is_plain cs -> forall parts, foldl push_part parts cs = parts ++ cs.
Proof.
  induction 1 as [|c cs [[Hn Hs] [H1 H2]] _ IH]; intros parts; cbn [foldl]; [by rewrite app_nil_r|].
  rewrite IH. unfold push_part. case_decide; [done|]. case_decide; [done|].
  destruct (Z.ltb_spec 0 (alen c)) as [|Hl]; [by rewrite <- app_assoc|]. destruct c; [done|]. unfold alen in Hl. simpl in Hl. lia.
Qed.

Lemma plain_name cs : Forall is_plain cs -> Forall is_name cs.
Proof. intros F. eapply Forall_impl; [exact F|]. by intros c [? _]. Qed.

(** ** The output is the canonical path *)

Definition is_absolute (input : list Z) : bool := match input with c :: _ => c =? SLASH | [] => false end.

(** The length of the string put together in [temp]. *)
Definition temp_length (cwd input : list Z) : Z :=
  if is_absolute input then alen input
  else alen cwd + (if decide (cwd = [SLASH]) then 0 else 1) + alen input.

Lemma shell_temp_relative cwd input : is_absolute input = false ->
  shell_temp cwd input = if temp_length cwd input <? 256
    then Some (cwd ++ (if decide (cwd = [SLASH]) then [] else [SLASH]) ++ input) else None.
Proof.
  intros Ha. pose proof (alen_nonneg input). pose proof (alen_nonneg cwd).
  assert (E : shell_temp cwd input = t1 ← str_append [] cwd;
    t2 ← (if decide (cwd = [SLASH]) then Some t1 else str_append t1 [SLASH]); str_append t2 input).
  { unfold shell_temp. destruct input as [|c i]; [done|]. cbn [is_absolute] in Ha. by rewrite Ha. }
  rewrite E. unfold temp_length. rewrite Ha. unfold str_append. change SHELL_MAX_LINE_LEN with 256.
  change (alen (@nil Z)) with 0. change (alen [SLASH]) with 1. cbn [app]. rewrite Z.add_0_l.
  destruct (Z.ltb_spec (alen cwd) 256) as [H1|H1]; cbn [mbind option_bind].
  - destruct (decide (cwd = [SLASH])) as [->|Hn]; cbn [mbind option_bind].
    + rewrite Z.add_0_r. by case_bool.
    + destruct (Z.ltb_spec (alen cwd + 1) 256); cbn [mbind option_bind].
      * unfold alen at 1. rewrite length_app. cbn [length].
        replace (Z.of_nat (length cwd + 1)) with (alen cwd + 1) by (unfold alen; lia). case_bool; [|done]. by rewrite <- app_assoc.
      * by case_bool; [lia|].
  - case_decide; by case_bool; [lia|].
Qed.

Lemma components_slash p : components [] (SLASH :: p) = components [] p.
Proof. cbn [components]. by rewrite Z.eqb_refl. Qed.

(** The string in [temp] starts with a slash and has the components of the
    two paths. *)
Lemma shell_temp_spec cwd w input : cwd = SLASH :: w -> temp_length cwd input < 256 ->
  exists t, shell_temp cwd input = Some (SLASH :: t) /\ components [] t = named_from cwd input /\ alen t < 255.
Proof.
  intros -> Hl. destruct (is_absolute input) eqn:Ha.
  - unfold temp_length in Hl. rewrite Ha in Hl. destruct input as [|c i]; [done|]. cbn [is_absolute] in Ha.
    unfold shell_temp, named_from. rewrite Ha. apply Z.eqb_eq in Ha as ->. unfold alen in Hl. cbn [length] in Hl.
    exists i. rewrite take_ge by (simpl; lia). rewrite components_slash. split_and!; [done..|unfold alen; lia].
  - rewrite (shell_temp_relative _ _ Ha), (proj2 (Z.ltb_lt _ _) Hl). unfold temp_length in Hl. rewrite Ha in Hl.
    assert (N : named_from (SLASH :: w) input = components [] w ++ components [] input).
    { unfold named_from. destruct input as [|c i]; [by rewrite components_slash, app_nil_r|]. cbn [is_absolute] in Ha. by rewrite Ha, components_slash. }
    rewrite N. eexists. cbn [app]. split; [reflexivity|]. unfold alen in *. rewrite !length_app. cbn [length] in Hl.
    case_decide as E; [injection E as ->|].
    + cbn [app components flush length]. split; [done|lia].
    + cbn [app length]. rewrite components_app. split; [done|lia].
Qed.

Lemma normalize_temp_spec q : alen (components [] q) <= 32 -> alen (join (resolve_dots (components [] q))) < 255 ->
  normalize_temp (SLASH :: q) = Some (render_path (resolve_dots (components [] q))).
Proof.
  intros H1 H2. unfold normalize_temp. rewrite Z.eqb_refl. rewrite path_parts_spec; [|lia|done].
  cbn [mbind option_bind]. rewrite join_parts_spec; [done|]. change (alen [SLASH]) with 1. unfold resolve_dots in H2. lia.
Qed.

(** [shell_normalize_path] of a path in a directory: the output is the canonical
    spelling of the components of both with "." dropped and ".." taking the last
    one away (or nothing at the root), so that resolving the output looks up
    exactly these components; it fits the 256-byte buffer, and normalising it
    again from anywhere gives it back.  A relative path that does not fit behind
    the current directory overruns the buffer. *)
Theorem shell_normalize_correct (cwd w input : list Z) : cwd = SLASH :: w -> alen (named_from cwd input) <= 32 ->
  if temp_length cwd input <? 256 then
    let cs := resolve_dots (named_from cwd input) in
    shell_normalize_path cwd input = Some (render_path cs) /\ components [] (render_path cs) = cs /\
    Forall is_plain cs /\ alen (render_path cs) < 256 /\
    forall cwd', shell_normalize_path cwd' (render_path cs) = Some (render_path cs)
  else is_absolute input = false -> shell_normalize_path cwd input = None.
Proof.
  intros Ew H32. destruct (Z.ltb_spec (temp_length cwd input) 256) as [Hl|Hl].
  2:{ intros Ha. unfold shell_normalize_path. rewrite (shell_temp_relative _ _ Ha). by destruct (Z.ltb_spec (temp_length cwd input) 256); [lia|]. }
  destruct (shell_temp_spec cwd w input Ew Hl) as (t & Et & Ec & Ht). set (cs := resolve_dots (named_from cwd input)).
  assert (Hn : Forall is_name (named_from cwd input)) by (rewrite <- Ec; by apply components_names).
  assert (Hp : Forall is_plain cs) by (by apply resolve_dots_plain).
  assert (Hw : weight cs <= alen t + 1).
  { subst cs. rewrite <- Ec. etransitivity; [apply weight_push|]. change (weight []) with 0. 
    pose proof (weight_components t []). change (alen (@nil Z)) with 0 in *. lia. }
  pose proof (alen_join cs) as Hj.
  assert (Hlen : alen cs <= 32).
  { subst cs. pose proof (push_all_length (named_from cwd input) []) as G. change (alen (@nil (list Z))) with 0 in G. unfold resolve_dots. lia. }
  split_and!.
  - unfold shell_normalize_path. rewrite Et. cbn [mbind option_bind]. rewrite (normalize_temp_spec t); rewrite ?Ec; [done|done|fold cs; lia].
  - by apply components_render, plain_name.
  - done.
  - unfold render_path, alen in *. cbn [length]. lia.
  - intros cwd'. unfold shell_normalize_path, render_path. cbn [shell_temp]. rewrite Z.eqb_refl.
    rewrite take_ge by (unfold alen in *; cbn [length]; lia). cbn [mbind option_bind].
    assert (Er : components [] (join cs) = cs) by (by apply components_join, plain_name).
    assert (Ed : resolve_dots cs = cs) by (unfold resolve_dots; by rewrite resolve_plain).
    rewrite (normalize_temp_spec (join cs)); rewrite ?Er, ?Ed; [done|done|lia].
Qed.

Lemma shell_normalize_correct_witness :
  shell_normalize_path (txt "/home/user") (txt "../bin/./sh") = Some (txt "/home/bin/sh").
Proof.
  pose proof (shell_normalize_correct (txt "/home/user") (txt "home/user") (txt "../bin/./sh")) as C.
  destruct C as (C & _); [reflexivity|vm_compute; discriminate|]. rewrite C. vm_compute. reflexivity.
Defined.

(** Above 32 components the rest of the path is dropped without an error. *)
Example normalize_drops_deep_components :
  let deep := concat (replicate 40 (txt "/a")) in
  shell_normalize_path (txt "/") deep = Some (concat (replicate 32 (txt "/a"))).
Proof. vm_compute. reflexivity. Qed.

(** An absolute path is cut to 255 characters. *)
Example normalize_cuts_absolute :
  alen <$> shell_normalize_path (txt "/") (SLASH :: replicate 300 97) = Some 255.
Proof. vm_compute. reflexivity. Qed.
