(* ===== verification/ShellLine.v ===== *)
(** The line editor of the kernel shell: the key loop of [shell_run] in
    kernel/src/shell/shell_core.c.

    Buffers are lists of 256 bytes; an access outside one, or a string without
    its NUL, is [None].  The theorem: the buffers implement an editor on a
    text with a cursor and a history of lines. *)
From stdpp Require Import prelude gmap list strings.
From Stdlib Require Import ZArith Lia.
From S2P Require Import Prelude Printf PrintfThm Input Vfs ShellPath.

Open Scope Z_scope.

Definition SHELL_MAX_HISTORY : Z := 32.

(** ** Buffers *)

(** [memmove(&l[dst], &l[src], n)]. *)
Definition buf_move (l : list Z) (dst src n : Z) : option (list Z) :=
  if (0 <=? n) && (0 <=? dst) && (0 <=? src) && (dst + n <=? alen l) && (src + n <=? alen l) then
    Some (take (Z.to_nat dst) l ++ take (Z.to_nat n) (drop (Z.to_nat src) l) ++ drop (Z.to_nat (dst + n)) l)
  else None.

(** [l[i] = v]. *)
Definition buf_set (l : list Z) (i v : Z) : option (list Z) :=
  if (0 <=? i) && (i <? alen l) then Some (aset l i v) else None.

(** The string at [&l[i]]. *)
Definition buf_str (l : list Z) (i : Z) : option (list Z) :=
  let s := c_str (drop (Z.to_nat i) l) in
  if (0 <=? i) && (i + alen s <? alen l) then Some s else None.

(** [strcpy(dst, src)]. *)
Definition buf_strcpy (dst src : list Z) : option (list Z) :=
  s ← buf_str src 0;
  if alen s <? alen dst then Some (s ++ [0] ++ drop (length s + 1) dst) else None.

(** [strncpy(dst, src, n)]. *)
Definition buf_strncpy (dst src : list Z) (n : Z) : option (list Z) :=
  let s := c_str (take (Z.to_nat n) src) in
  if n <=? alen dst then Some (s ++ replicate (Z.to_nat n - length s) 0 ++ drop (Z.to_nat n) dst) else None.

(** ** The state *)

(** The static history, and the local variables of the prompt loop. *)
Record line_state := LineState {
  line : list Z;
  pos : Z;
  cursor_pos : Z;
  history_index : Z;
  current_draft : list Z;
  shell_history : list (list Z);
  history_count : Z }.

Definition set_text (s : line_state) (l : list Z) (p c : Z) : line_state :=
  LineState l p c (history_index s) (current_draft s) (shell_history s) (history_count s).

(** The locals as every prompt starts. *)
Definition new_line (s : line_state) : line_state :=
  LineState (replicate 256 0) 0 0 (history_count s) (replicate 256 0) (shell_history s) (history_count s).

Definition shell_static : line_state :=
  LineState (replicate 256 0) 0 0 0 (replicate 256 0) (replicate 32 (replicate 256 0)) 0.

(** ** Output: the strings handed to [kprintf], already formatted *)

Definition ESC : Z := 27.

(** ["\033[%dD"]. *)
Definition cursor_back (n : Z) : list Z := ESC :: txt "[" ++ numeral false 10 n ++ txt "D".

Definition erase_rest : list Z := ESC :: txt "[K".

Definition prompt (cwd : list Z) : list Z :=
  ESC :: txt "[1;36mnexus" ++ ESC :: txt "[0m:" ++ ESC :: txt "[1;34m" ++ cwd ++ ESC :: txt "[0m$ ".

Definition cursor_shape : list Z := ESC :: txt "[5 q".

(** [if (pos > cursor_pos) kprintf("\033[%dD", pos - cursor_pos);]. *)
Definition shift_back (p c : Z) : list (list Z) := if c <? p then [cursor_back (p - c)] else [].

(** [if (cursor_pos > 0) kprintf("\033[%dD", cursor_pos); kprintf("\033[K");]. *)
Definition clear_visuals (c : Z) : list (list Z) := (if 0 <? c then [cursor_back c] else []) ++ [erase_rest].

(** ** The keys *)

Definition key_enter (s : line_state) : option (line_state * list (list Z)) :=
  text ← buf_str (line s) 0;
  s' ← (if 0 <? alen text then
          slot ← shell_history s !! Z.to_nat (history_count s mod SHELL_MAX_HISTORY);
          b1 ← buf_strncpy slot (line s) (SHELL_MAX_LINE_LEN - 1);
          b2 ← buf_set b1 (SHELL_MAX_LINE_LEN - 1) 0;
          if history_count s =? INT_MAX then None
          else Some (LineState (line s) (pos s) (cursor_pos s) (history_index s) (current_draft s)
                 (aset (shell_history s) (history_count s mod SHELL_MAX_HISTORY) b2) (history_count s + 1))
        else Some s);
  Some (s', [[10]]).

Definition key_backspace (s : line_state) : option (line_state * list (list Z)) :=
  if 0 <? cursor_pos s then
    l1 ← buf_move (line s) (cursor_pos s - 1) (cursor_pos s) (pos s - cursor_pos s);
    let p := pos s - 1 in
    let c := cursor_pos s - 1 in
    l2 ← buf_set l1 p 0;
    tail ← buf_str l2 c;
    Some (set_text s l2 p c, [8 :: erase_rest ++ tail] ++ shift_back p c)
  else Some (s, []).

Definition key_delete (s : line_state) : option (line_state * list (list Z)) :=
  if cursor_pos s <? pos s then
    l1 ← buf_move (line s) (cursor_pos s) (cursor_pos s + 1) (pos s - cursor_pos s - 1);
    let p := pos s - 1 in
    l2 ← buf_set l1 p 0;
    tail ← buf_str l2 (cursor_pos s);
    Some (set_text s l2 p (cursor_pos s), [erase_rest ++ tail] ++ shift_back p (cursor_pos s))
  else Some (s, []).

Definition key_left (s : line_state) : option (line_state * list (list Z)) :=
  if 0 <? cursor_pos s then Some (set_text s (line s) (pos s) (cursor_pos s - 1), [ESC :: txt "[D"])
  else Some (s, []).

Definition key_right (s : line_state) : option (line_state * list (list Z)) :=
  if cursor_pos s <? pos s then Some (set_text s (line s) (pos s) (cursor_pos s + 1), [ESC :: txt "[C"])
  else Some (s, []).

(** [strcpy(line, from); pos = strlen(line); cursor_pos = pos;] and the redraw,
    with [history_index] already moved to [i] and the draft to [d]. *)
Definition show_entry (s : line_state) (from : list Z) (i : Z) (d : list Z) : option (line_state * list (list Z)) :=
  l ← buf_strcpy (line s) from;
  text ← buf_str l 0;
  Some (LineState l (alen text) (alen text) i d (shell_history s) (history_count s), clear_visuals (cursor_pos s) ++ [text]).

Definition key_up (s : line_state) : option (line_state * list (list Z)) :=
  if (0 <? history_count s) && (0 <? history_index s) && (history_count s - SHELL_MAX_HISTORY <? history_index s) then
    d ← (if history_index s =? history_count s then buf_strcpy (current_draft s) (line s) else Some (current_draft s));
    let i := history_index s - 1 in
    entry ← shell_history s !! Z.to_nat (i mod SHELL_MAX_HISTORY);
    show_entry s entry i d
  else Some (s, []).

Definition key_down (s : line_state) : option (line_state * list (list Z)) :=
  if history_index s <? history_count s then
    let i := history_index s + 1 in
    entry ← (if i =? history_count s then Some (current_draft s) else shell_history s !! Z.to_nat (i mod SHELL_MAX_HISTORY));
    show_entry s entry i (current_draft s)
  else Some (s, []).

Definition key_char (s : line_state) (c : Z) : option (line_state * list (list Z)) :=
  if pos s <? SHELL_MAX_LINE_LEN - 1 then
    l1 ← (if cursor_pos s <? pos s then buf_move (line s) (cursor_pos s + 1) (cursor_pos s) (pos s - cursor_pos s) else Some (line s));
    l2 ← buf_set l1 (cursor_pos s) c;
    let p := pos s + 1 in
    l3 ← buf_set l2 p 0;
    tail ← buf_str l3 (cursor_pos s);
    Some (set_text s l3 p (cursor_pos s + 1), [tail] ++ shift_back p (cursor_pos s + 1))
  else Some (s, []).

(** A key press; the flag says that the line is complete. *)
Definition shell_key (s : line_state) (ascii : Z) : option (line_state * list (list Z) * bool) :=
  if ascii =? 10 then '(s', o) ← key_enter s; Some (s', o, true)
  else
    r ← (if ascii =? 8 then key_backspace s
         else if ascii =? KEY_DELETE then key_delete s
         else if ascii =? KEY_LEFT then key_left s
         else if ascii =? KEY_RIGHT then key_right s
         else if ascii =? KEY_UP then key_up s
         else if ascii =? KEY_DOWN then key_down s
         else if (32 <=? ascii) && (ascii <=? 126) then key_char s ascii
         else Some (s, []));
    Some (r.1, r.2, false).

(** ** Reference: a text with a cursor, and the lines entered so far *)

Record editor := Editor {
  before : list Z;
  after : list Z;
  past : list (list Z);
  index : Z;
  draft : list Z }.

Definition text (e : editor) : list Z := before e ++ after e.

Definition set_cursor (e : editor) (b a : list Z) : editor := Editor b a (past e) (index e) (draft e).

(** The entry at [i]: a past line, or the draft below the last one. *)
Definition entry (e : editor) (i : Z) : list Z := if i =? alen (past e) then draft e else aget [] (past e) i.

Definition edit_up (e : editor) : editor :=
  if (0 <? index e) && (alen (past e) - SHELL_MAX_HISTORY <? index e) then
    Editor (aget [] (past e) (index e - 1)) [] (past e) (index e - 1) (if index e =? alen (past e) then text e else draft e)
  else e.

Definition edit_down (e : editor) : editor :=
  if index e <? alen (past e) then Editor (entry e (index e + 1)) [] (past e) (index e + 1) (draft e) else e.

Definition edit_key (e : editor) (a : Z) : editor :=
  if a =? 10 then Editor (before e) (after e) (if decide (text e = []) then past e else past e ++ [text e]) (index e) (draft e)
  else if a =? 8 then set_cursor e (removelast (before e)) (after e)
  else if a =? KEY_DELETE then set_cursor e (before e) (tail (after e))
  else if a =? KEY_LEFT then
    match last (before e) with Some c => set_cursor e (removelast (before e)) (c :: after e) | None => e end
  else if a =? KEY_RIGHT then
    match after e with c :: r => set_cursor e (before e ++ [c]) r | [] => e end
  else if a =? KEY_UP then edit_up e
  else if a =? KEY_DOWN then edit_down e
  else if (32 <=? a) && (a <=? 126) then
    if alen (text e) <? 255 then set_cursor e (before e ++ [a]) (after e) else e
  else e.

Definition edit_new (e : editor) : editor := Editor [] [] (past e) (alen (past e)) [].

(** ** The abstraction *)

Definition printable (c : Z) : Prop := 32 <= c <= 126.

(** The 256-byte buffer [b] holds the string [t]. *)
Definition holds_text (b t : list Z) : Prop :=
  alen b = 256 /\ Forall printable t /\ exists rest, b = t ++ 0 :: rest.

(** The slots of the ring: line [i] of the past, for the last 32. *)
Definition holds_history (h : list (list Z)) (lines : list (list Z)) : Prop :=
  alen h = 32 /\ Forall (fun b => alen b = 256) h /\
  forall i, 0 <= i < alen lines -> alen lines - 32 <= i ->
    exists b, h !! Z.to_nat (i mod 32) = Some b /\ holds_text b (aget [] lines i).

Record edits (s : line_state) (e : editor) : Prop := Edits {
  ed_line : holds_text (line s) (text e);
  ed_pos : pos s = alen (text e);
  ed_cursor : cursor_pos s = alen (before e);
  ed_draft : holds_text (current_draft s) (draft e);
  ed_past : holds_history (shell_history s) (past e);
  ed_count : history_count s = alen (past e);
  ed_index : history_index s = index e /\ 0 <= index e <= alen (past e) /\ alen (past e) - 32 <= index e }.

Lemma alen_cat {A} (x y : list A) : alen (x ++ y) = alen x + alen y.
Proof. unfold alen. rewrite length_app. lia. Qed.

Lemma alen_one {A} (c : A) (x : list A) : alen (c :: x) = 1 + alen x.
Proof. unfold alen. cbn [length]. lia. Qed.

Lemma to_nat_alen {A} (x : list A) : Z.to_nat (alen x) = length x.
Proof. unfold alen. lia. Qed.

Lemma printable_nonzero t : Forall printable t -> Forall (fun c => c <> 0) t.
Proof. intros F. eapply Forall_impl; [exact F|]. unfold printable. intros c Hc. lia. Qed.

Lemma buf_str_holds b x y : holds_text b (x ++ y) -> buf_str b (alen x) = Some y.
Proof.
  intros (Hl & F & rest & ->). unfold buf_str. rewrite to_nat_alen, <- app_assoc, drop_app_length.
  apply Forall_app in F as [_ F]. rewrite c_str_app by (by apply printable_nonzero).
  rewrite <- app_assoc, !alen_cat, alen_one in *. pose proof (alen_nonneg x). pose proof (alen_nonneg rest).
  by rewrite (proj2 (Z.leb_le _ _)), (proj2 (Z.ltb_lt _ _)) by lia.
Qed.

Lemma buf_str_whole b t : holds_text b t -> buf_str b 0 = Some t.
Proof. apply (buf_str_holds b []). Qed.

Lemma buf_strcpy_holds dst src t : alen dst = 256 -> holds_text src t ->
  exists b, buf_strcpy dst src = Some b /\ holds_text b t.
Proof.
  intros Hd Hs. unfold buf_strcpy. rewrite (buf_str_whole _ _ Hs). cbn [mbind option_bind].
  destruct Hs as (Hl & F & rest & E). rewrite E, alen_cat, alen_one in Hl. pose proof (alen_nonneg rest).
  rewrite (proj2 (Z.ltb_lt _ _)) by lia. eexists. split; [reflexivity|]. split; [|split; [done|by eexists]].
  unfold alen in *. rewrite !length_app, length_drop. cbn [length]. lia.
Qed.

Lemma buf_set_app x w v : w <> [] -> buf_set (x ++ w) (alen x) v = Some (x ++ v :: tail w).
Proof.
  intros Hw. destruct w as [|c w]; [done|]. unfold buf_set. rewrite alen_cat, alen_one.
  pose proof (alen_nonneg x). pose proof (alen_nonneg w). rewrite (proj2 (Z.leb_le _ _)), (proj2 (Z.ltb_lt _ _)) by lia.
  cbn [andb tail]. unfold aset. rewrite to_nat_alen, insert_app_r_alt by lia. by rewrite Nat.sub_diag.
Qed.

(** Moving the block [y] over the gap [m], and in the other direction. *)
Lemma buf_move_left x m y z : exists w, buf_move (x ++ m ++ y ++ z) (alen x) (alen x + alen m) (alen y) = Some (x ++ y ++ w) /\
  alen w = alen m + alen z.
Proof.
  exists (drop (length x + length y) (x ++ m ++ y ++ z)). split.
  - unfold buf_move. rewrite !alen_cat. pose proof (alen_nonneg x). pose proof (alen_nonneg m). pose proof (alen_nonneg y). pose proof (alen_nonneg z).
    repeat rewrite (proj2 (Z.leb_le _ _)) by lia. cbn [andb]. f_equal.
    replace (Z.to_nat (alen x + alen m)) with (length x + length m)%nat by (unfold alen; lia).
    replace (Z.to_nat (alen x + alen y)) with (length x + length y)%nat by (unfold alen; lia). rewrite !to_nat_alen.
    rewrite take_app_length. do 2 f_equal. by rewrite app_assoc, <- length_app, drop_app_length, take_app_length.
  - unfold alen. rewrite length_drop, !length_app. lia.
Qed.

Lemma buf_move_right x y z : z <> [] -> exists c, 
  buf_move (x ++ y ++ z) (alen x + 1) (alen x) (alen y) = Some (x ++ c :: y ++ tail z).
Proof.
  intros Hz. destruct z as [|d z]; [done|]. 
  assert (exists c r, y ++ d :: z = c :: r) as (c & r & E) by (destruct y; cbn [app]; by do 2 eexists). exists c.
  unfold buf_move. rewrite !alen_cat, alen_one. pose proof (alen_nonneg x). pose proof (alen_nonneg y). pose proof (alen_nonneg z).
  repeat rewrite (proj2 (Z.leb_le _ _)) by lia. cbn [andb tail]. f_equal.
  replace (Z.to_nat (alen x + 1)) with (length x + 1)%nat by (unfold alen; lia).
  replace (Z.to_nat (alen x + 1 + alen y)) with (length x + (length y + 1))%nat by (unfold alen; lia). rewrite !to_nat_alen.
  rewrite drop_app_length, take_app_length, take_app_add', drop_app_add' by done. rewrite E at 1. cbn [take]. rewrite <- app_assoc. cbn [app].
  change (take 0 r) with (@nil Z). cbn [app]. by rewrite drop_app_add' by done.
Qed.

(** What is printed for a key, in terms of the text. *)
Definition edit_output (e : editor) (a : Z) : list (list Z) :=
  let e' := edit_key e a in
  let back := shift_back (alen (text e')) (alen (before e')) in
  if a =? 8 then if decide (before e = []) then [] else (8 :: erase_rest ++ after e) :: back
  else if a =? KEY_DELETE then if decide (after e = []) then [] else (erase_rest ++ tail (after e)) :: back
  else if a =? KEY_LEFT then if decide (before e = []) then [] else [ESC :: txt "[D"]
  else if a =? KEY_RIGHT then if decide (after e = []) then [] else [ESC :: txt "[C"]
  else if a =? KEY_UP then
    if (0 <? index e) && (alen (past e) - SHELL_MAX_HISTORY <? index e) then clear_visuals (alen (before e)) ++ [text e'] else []
  else if a =? KEY_DOWN then if index e <? alen (past e) then clear_visuals (alen (before e)) ++ [text e'] else []
  else if (32 <=? a) && (a <=? 126) then if alen (text e) <? 255 then (a :: after e) :: back else []
  else [].

(** ** The keys refine the reference *)

Lemma edits_text s e l b a : edits s e -> holds_text l (b ++ a) ->
  edits (set_text s l (alen (b ++ a)) (alen b)) (set_cursor e b a).
Proof. intros [] Hl. by split. Qed.

Lemma alen_nil_iff {A} (x : list A) : alen x <= 0 -> x = [].
Proof. destruct x; [done|]. unfold alen. cbn [length]. lia. Qed.

Lemma rest_room t rest : alen (t ++ 0 :: rest) = 256 -> alen t + 1 + alen rest = 256.
Proof. rewrite alen_cat, alen_one. lia. Qed.

(** After removing the characters [m] between [x] and [y]. *)
Lemma remove_spec l x m y : holds_text l (x ++ m ++ y) -> m <> [] ->
  exists l1 l2, buf_move l (alen x) (alen x + alen m) (alen y) = Some l1 /\
    buf_set l1 (alen x + alen y) 0 = Some l2 /\ holds_text l2 (x ++ y).
Proof.
  intros (Hl & F & rest & ->) Hm. rewrite <- !app_assoc in *. destruct (buf_move_left x m y (0 :: rest)) as (w & E & Hw).
  rewrite E. rewrite alen_one in Hw. pose proof (alen_nonneg m). pose proof (alen_nonneg rest).
  assert (Hne : w <> []) by (intros ->; change (alen (@nil Z)) with 0 in Hw; lia).
  do 2 eexists. split; [reflexivity|]. rewrite <- alen_cat, app_assoc. rewrite buf_set_app by done. split; [reflexivity|].
  split; [|split].
  - rewrite !alen_cat, !alen_one in *. destruct w; [done|]. rewrite alen_one in Hw. cbn [tail]. lia.
  - apply Forall_app in F as [F1 F]. apply Forall_app in F as [_ F2]. by apply Forall_app.
  - by eexists.
Qed.

Lemma insert_spec l x c y : holds_text l (x ++ y) -> printable c -> alen (x ++ y) < 255 ->
  exists l1 l2 l3, (if alen x <? alen (x ++ y) then buf_move l (alen x + 1) (alen x) (alen (x ++ y) - alen x) else Some l) = Some l1 /\
    buf_set l1 (alen x) c = Some l2 /\ buf_set l2 (alen (x ++ y) + 1) 0 = Some l3 /\ holds_text l3 (x ++ c :: y).
Proof.
  intros (Hl & F & rest & ->) Hc Hlen. pose proof (rest_room _ _ Hl) as Hr.
  destruct rest as [|r rest]; [change (alen (@nil Z)) with 0 in Hr; lia|].
  assert (M : exists w, (if alen x <? alen (x ++ y) then buf_move ((x ++ y) ++ 0 :: r :: rest) (alen x + 1) (alen x) (alen (x ++ y) - alen x)
    else Some ((x ++ y) ++ 0 :: r :: rest)) = Some (x ++ w :: y ++ r :: rest)).
  { destruct (Z.ltb_spec (alen x) (alen (x ++ y))) as [Hy|Hy].
    - rewrite alen_cat. replace (alen x + alen y - alen x) with (alen y) by lia. rewrite <- app_assoc.
      destruct (buf_move_right x y (0 :: r :: rest)) as (d & E); [done|]. rewrite E. by exists d.
    - rewrite alen_cat in Hy. rewrite (alen_nil_iff y), app_nil_r by lia. by exists 0. }
  destruct M as (w & ->). do 3 eexists. split; [reflexivity|]. rewrite buf_set_app by done. split; [reflexivity|]. cbn [tail].
  replace (alen (x ++ y) + 1) with (alen (x ++ c :: y)) by (rewrite !alen_cat, alen_one; lia).
  replace (x ++ c :: y ++ r :: rest) with ((x ++ c :: y) ++ r :: rest) by (by rewrite <- app_assoc).
  rewrite buf_set_app by done. split; [reflexivity|]. cbn [tail]. split; [|split].
  - rewrite !alen_cat, !alen_one in *. lia.
  - apply Forall_app in F as [F1 F2]. apply Forall_app. split; [done|by constructor].
  - by eexists.
Qed.

Lemma backspace_refines s e : edits s e ->
  exists s', key_backspace s = Some (s', edit_output e 8) /\ edits s' (edit_key e 8).
Proof.
  intros Ed. pose proof Ed as [Hl Hp Hc _ _ _ _]. unfold key_backspace, edit_output, edit_key. cbn [Z.eqb Pos.eqb]. rewrite Hc.
  destruct (before e) as [|c b _] eqn:Eb using rev_ind.
  - cbn [removelast]. change (alen (@nil Z)) with 0. cbn [Z.ltb Z.compare]. eexists. split; [done|].
    rewrite <- Eb. unfold set_cursor. destruct e; done.
  - rewrite removelast_last. unfold text in *. rewrite Eb, <- app_assoc in Hl, Hp.
    rewrite alen_cat. change (alen [c]) with 1. pose proof (alen_nonneg b). rewrite (proj2 (Z.ltb_lt _ _)) by lia.
    destruct (remove_spec (line s) b [c] (after e) Hl) as (l1 & l2 & E1 & E2 & H2); [done|]. change (alen [c]) with 1 in E1.
    replace (alen b + 1 - 1) with (alen b) by lia. rewrite Hp, !alen_cat. change (alen [c]) with 1.
    replace (alen b + (1 + alen (after e)) - (alen b + 1)) with (alen (after e)) by lia. rewrite E1. cbn [mbind option_bind].
    replace (alen b + (1 + alen (after e)) - 1) with (alen b + alen (after e)) by lia. rewrite E2. cbn [mbind option_bind].
    rewrite (buf_str_holds l2 b (after e) H2). cbn [mbind option_bind]. rewrite decide_False by (by destruct b). cbn [set_cursor before after].
    eexists. rewrite <- alen_cat. split; [reflexivity|]. apply edits_text; done.
Qed.

Lemma delete_refines s e : edits s e ->
  exists s', key_delete s = Some (s', edit_output e KEY_DELETE) /\ edits s' (edit_key e KEY_DELETE).
Proof.
  intros Ed. pose proof Ed as [Hl Hp Hc _ _ _ _]. unfold key_delete, edit_output, edit_key. change (KEY_DELETE =? 10) with false.
  change (KEY_DELETE =? 8) with false. change (KEY_DELETE =? KEY_DELETE) with true. cbv iota. rewrite Hc, Hp. unfold text in *. rewrite alen_cat.
  destruct (after e) as [|c a] eqn:Ea.
  - change (alen (@nil Z)) with 0. rewrite Z.add_0_r, Z.ltb_irrefl. cbn [tail]. eexists. split; [done|].
    rewrite <- Ea. unfold set_cursor. destruct e; done.
  - cbn [tail]. rewrite alen_one. pose proof (alen_nonneg a). rewrite (proj2 (Z.ltb_lt _ _)) by lia.
    destruct (remove_spec (line s) (before e) [c] a Hl) as (l1 & l2 & E1 & E2 & H2); [done|]. change (alen [c]) with 1 in E1.
    replace (alen (before e) + (1 + alen a) - alen (before e) - 1) with (alen a) by lia. rewrite E1. cbn [mbind option_bind].
    replace (alen (before e) + (1 + alen a) - 1) with (alen (before e) + alen a) by lia. rewrite E2. cbn [mbind option_bind].
    rewrite (buf_str_holds l2 (before e) a H2). cbn [mbind option_bind]. rewrite decide_False by done. cbn [set_cursor before after].
    eexists. rewrite <- alen_cat. split; [reflexivity|]. apply edits_text; done.
Qed.

Lemma left_refines s e : edits s e ->
  exists s', key_left s = Some (s', edit_output e KEY_LEFT) /\ edits s' (edit_key e KEY_LEFT).
Proof.
  intros Ed. pose proof Ed as [Hl Hp Hc _ _ _ _]. unfold key_left, edit_output, edit_key.
  change (KEY_LEFT =? 10) with false. change (KEY_LEFT =? 8) with false. change (KEY_LEFT =? KEY_DELETE) with false.
  change (KEY_LEFT =? KEY_LEFT) with true. cbv iota. rewrite Hc. destruct (before e) as [|c b _] eqn:Eb using rev_ind.
  - by eexists.
  - rewrite last_snoc, removelast_last, alen_cat. change (alen [c]) with 1. pose proof (alen_nonneg b). rewrite (proj2 (Z.ltb_lt _ _)) by lia.
    rewrite decide_False by (by destruct b). eexists. split; [reflexivity|]. replace (alen b + 1 - 1) with (alen b) by lia.
    unfold text in *. rewrite Eb, <- app_assoc in Hl, Hp. rewrite Hp. by apply edits_text.
Qed.

Lemma right_refines s e : edits s e ->
  exists s', key_right s = Some (s', edit_output e KEY_RIGHT) /\ edits s' (edit_key e KEY_RIGHT).
Proof.
  intros Ed. pose proof Ed as [Hl Hp Hc _ _ _ _]. unfold key_right, edit_output, edit_key.
  change (KEY_RIGHT =? 10) with false. change (KEY_RIGHT =? 8) with false. change (KEY_RIGHT =? KEY_DELETE) with false.
  change (KEY_RIGHT =? KEY_LEFT) with false. change (KEY_RIGHT =? KEY_RIGHT) with true. cbv iota. rewrite Hc, Hp. unfold text in *. rewrite alen_cat.
  destruct (after e) as [|c a] eqn:Ea.
  - change (alen (@nil Z)) with 0. rewrite Z.add_0_r, Z.ltb_irrefl. by eexists.
  - rewrite alen_one. pose proof (alen_nonneg a). rewrite (proj2 (Z.ltb_lt _ _)) by lia. rewrite decide_False by done. eexists. split; [reflexivity|].
    replace (alen (before e) + 1) with (alen (before e ++ [c])) by (rewrite alen_cat; done).
    replace (alen (before e) + (1 + alen a)) with (alen ((before e ++ [c]) ++ a)) by (rewrite !alen_cat; change (alen [c]) with 1; lia).
    apply edits_text; [done|]. by rewrite <- app_assoc.
Qed.

Lemma char_refines s e c : edits s e -> printable c ->
  exists s', key_char s c = Some (s', edit_output e c) /\ edits s' (edit_key e c).
Proof.
  intros Ed Hc. pose proof Ed as [Hl Hp Hcu _ _ _ _]. unfold key_char, edit_output, edit_key, printable in *.
  change KEY_DELETE with 127. change KEY_LEFT with (-126). change KEY_RIGHT with (-125). change KEY_UP with (-128). change KEY_DOWN with (-127).
  repeat match goal with |- context [c =? ?n] => rewrite (proj2 (Z.eqb_neq c n)) by lia end.
  rewrite (proj2 (Z.leb_le 32 c)), (proj2 (Z.leb_le c 126)) by lia. cbn [andb]. change (SHELL_MAX_LINE_LEN - 1) with 255.
  rewrite Hp, Hcu. destruct (Z.ltb_spec (alen (text e)) 255) as [Hlt|]; [|by eexists].
  unfold text in *. destruct (insert_spec (line s) (before e) c (after e) Hl Hc Hlt) as (l1 & l2 & l3 & E1 & E2 & E3 & H3).
  rewrite E1. cbn [mbind option_bind]. rewrite E2. cbn [mbind option_bind]. rewrite E3. cbn [mbind option_bind].
  rewrite (buf_str_holds l3 (before e) (c :: after e) H3). cbn [mbind option_bind set_cursor before after].
  assert (El : alen (before e ++ after e) + 1 = alen ((before e ++ [c]) ++ after e)) by (rewrite !alen_cat; change (alen [c]) with 1; lia).
  assert (Ec : alen (before e) + 1 = alen (before e ++ [c])) by (rewrite alen_cat; done).
  rewrite El, Ec. eexists. split; [reflexivity|]. apply edits_text; [done|]. by rewrite <- app_assoc.
Qed.

(** ** The history *)

Lemma show_entry_refines s from t i d :
  alen (line s) = 256 -> holds_text from t ->
  exists l, show_entry s from i d =
    Some (LineState l (alen t) (alen t) i d (shell_history s) (history_count s), clear_visuals (cursor_pos s) ++ [t]) /\ holds_text l t.
Proof.
  intros Hl Hf. unfold show_entry. destruct (buf_strcpy_holds (line s) from t Hl Hf) as (l & -> & H). cbn [mbind option_bind].
  rewrite (buf_str_whole _ _ H). cbn [mbind option_bind]. by exists l.
Qed.

Lemma edits_entry s e l t i d dt : edits s e -> holds_text l t -> holds_text d dt ->
  0 <= i <= alen (past e) -> alen (past e) - 32 <= i ->
  edits (LineState l (alen t) (alen t) i d (shell_history s) (history_count s)) (Editor t [] (past e) i dt).
Proof.
  intros [] Hl Hd Hi Hi'. split; unfold text; cbn [before after past index draft line pos cursor_pos current_draft shell_history history_count history_index];
    rewrite ?app_nil_r; done.
Qed.

Lemma up_refines s e : edits s e ->
  exists s', key_up s = Some (s', edit_output e KEY_UP) /\ edits s' (edit_key e KEY_UP).
Proof.
  intros Ed. pose proof Ed as [Hl Hp Hc Hd (Hh & Hf & Hs) Hn (Hi & Hi1 & Hi2)]. unfold key_up, edit_output, edit_key.
  change (KEY_UP =? 10) with false. change (KEY_UP =? 8) with false. change (KEY_UP =? KEY_DELETE) with false.
  change (KEY_UP =? KEY_LEFT) with false. change (KEY_UP =? KEY_RIGHT) with false. change (KEY_UP =? KEY_UP) with true. cbv iota.
  unfold edit_up. rewrite Hn, Hi. unfold SHELL_MAX_HISTORY in *.
  destruct (Z.ltb_spec 0 (alen (past e))), (Z.ltb_spec 0 (index e)); try lia; [|by eexists..]. cbn [andb].
  destruct (Z.ltb_spec (alen (past e) - 32) (index e)); [|by eexists].
  assert (D : exists d, (if index e =? alen (past e) then buf_strcpy (current_draft s) (line s) else Some (current_draft s)) = Some d /\
    holds_text d (if index e =? alen (past e) then text e else draft e)).
  { destruct (Z.eqb_spec (index e) (alen (past e))); [|by eexists]. apply buf_strcpy_holds; [apply Hd|done]. }
  destruct D as (d & -> & Hd'). cbn [mbind option_bind]. destruct (Hs (index e - 1)) as (b & Eb & Hb); [lia..|].
  rewrite Eb. cbn [mbind option_bind]. destruct (show_entry_refines s b _ (index e - 1) d (proj1 Hl) Hb) as (l & -> & Hl').
  rewrite Hc. eexists. split; [unfold text; cbn [before after]; by rewrite app_nil_r|]. apply edits_entry; done || lia.
Qed.

Lemma down_refines s e : edits s e ->
  exists s', key_down s = Some (s', edit_output e KEY_DOWN) /\ edits s' (edit_key e KEY_DOWN).
Proof.
  intros Ed. pose proof Ed as [Hl Hp Hc Hd (Hh & Hf & Hs) Hn (Hi & Hi1 & Hi2)]. unfold key_down, edit_output, edit_key.
  change (KEY_DOWN =? 10) with false. change (KEY_DOWN =? 8) with false. change (KEY_DOWN =? KEY_DELETE) with false.
  change (KEY_DOWN =? KEY_LEFT) with false. change (KEY_DOWN =? KEY_RIGHT) with false. change (KEY_DOWN =? KEY_UP) with false.
  change (KEY_DOWN =? KEY_DOWN) with true. cbv iota. unfold edit_down. rewrite Hn, Hi. unfold SHELL_MAX_HISTORY in *.
  destruct (Z.ltb_spec (index e) (alen (past e))); [|by eexists].
  assert (D : exists b, (if index e + 1 =? alen (past e) then Some (current_draft s) else shell_history s !! Z.to_nat ((index e + 1) mod 32)) = Some b /\
    holds_text b (entry e (index e + 1))).
  { unfold entry. destruct (Z.eqb_spec (index e + 1) (alen (past e))); [by eexists|]. apply Hs; lia. }
  destruct D as (b & -> & Hb). cbn [mbind option_bind].
  destruct (show_entry_refines s b _ (index e + 1) (current_draft s) (proj1 Hl) Hb) as (l & -> & Hl').
  rewrite Hc. eexists. split; [unfold text; cbn [before after]; by rewrite app_nil_r|]. apply edits_entry; done || lia.
Qed.

(** Recording a line in the ring. *)
Lemma history_record h lines l t : holds_history h lines -> holds_text l t ->
  exists slot b1 b2, h !! Z.to_nat (alen lines mod 32) = Some slot /\ buf_strncpy slot l 255 = Some b1 /\
    buf_set b1 255 0 = Some b2 /\ holds_history (aset h (alen lines mod 32) b2) (lines ++ [t]).
Proof.
  intros (Hh & Hf & Hs) (Hl & F & rest & ->). pose proof (alen_nonneg lines) as Hn. pose proof (rest_room _ _ Hl) as Hr. pose proof (alen_nonneg rest).
  assert (Hm : 0 <= alen lines mod 32 < 32) by (apply Z.mod_pos_bound; lia).
  destruct (lookup_lt_is_Some_2 h (Z.to_nat (alen lines mod 32))) as [slot Eslot]; [unfold alen in *; lia|].
  pose proof (Forall_lookup_1 _ _ _ _ Hf Eslot) as Hslot.
  assert (Es : c_str (take (Z.to_nat 255) (t ++ 0 :: rest)) = t).
  { rewrite take_app_ge by (unfold alen in *; lia). destruct (Z.to_nat 255 - length t)%nat as [|k] eqn:Ek.
    - cbn [take]. rewrite app_nil_r. by apply c_str_all, printable_nonzero.
    - cbn [take]. by apply c_str_app, printable_nonzero. }
  exists slot. unfold buf_strncpy. rewrite Es, Hslot. cbn [Z.leb Z.compare Pos.compare Pos.compare_cont].
  set (z := replicate (Z.to_nat 255 - length t) 0). set (w := drop (Z.to_nat 255) slot).
  assert (Hz : alen (t ++ z) = 255) by (subst z; unfold alen in *; rewrite length_app, length_replicate; lia).
  assert (Hw : alen w = 1) by (subst w; unfold alen in *; rewrite length_drop; lia).
  destruct w as [|wc w]; [done|]. destruct w; [|unfold alen in Hw; cbn [length] in Hw; lia].
  exists (t ++ z ++ [wc]), (t ++ z ++ [0]). split; [done|]. split; [done|]. rewrite !app_assoc.
  assert (HT : holds_text ((t ++ z) ++ [0]) t).
  { split; [rewrite alen_cat; rewrite Hz; done|]. split; [done|]. subst z. rewrite <- app_assoc.
    destruct (Z.to_nat 255 - length t)%nat; cbn [replicate app]; by eexists. }
  split; [rewrite <- Hz; by rewrite buf_set_app|]. split; [by rewrite alen_aset|]. split; [by apply Forall_aset; [|apply HT]|].
  intros i Hi Hi'. rewrite alen_cat in Hi, Hi'. change (alen [t]) with 1 in *. unfold aset, aget.
  destruct (decide (i = alen lines)) as [->|Hne].
  - rewrite list_lookup_insert_eq by (unfold alen in *; lia). eexists. split; [done|].
    rewrite to_nat_alen, list_lookup_middle by done. exact HT.
  - rewrite list_lookup_insert_ne.
    + destruct (Hs i) as (b & Eb & Hb); [lia..|]. exists b. split; [done|]. unfold aget in Hb. by rewrite lookup_app_l by (unfold alen in *; lia).
    + intros E. apply Z2Nat.inj in E; [|apply Z.mod_pos_bound; lia..]. zmod.
Qed.

Lemma enter_refines s e : edits s e -> alen (past e) < INT_MAX ->
  exists s', shell_key s 10 = Some (s', [[10]], true) /\ buf_str (line s) 0 = Some (text e) /\
    line s' = line s /\ edits (new_line s') (edit_new (edit_key e 10)).
Proof.
  intros Ed Hm. pose proof Ed as [Hl Hp Hc Hd Hh Hn Hi]. unfold shell_key, key_enter, edit_key. cbn [Z.eqb Pos.eqb].
  rewrite (buf_str_whole _ _ Hl). cbn [mbind option_bind].
  assert (Z0 : holds_text (replicate 256 0) []) by (split; [done|]; split; [constructor|by exists (replicate 255 0)]).
  assert (New : forall s', holds_history (shell_history s') (past (edit_key e 10)) -> history_count s' = alen (past (edit_key e 10)) ->
    edits (new_line s') (edit_new (edit_key e 10))).
  { intros s' H1 H2. split; cbn; try done. pose proof (alen_nonneg (past (edit_key e 10))). split; [done|]. cbn in *. lia. }
  unfold edit_key in New. cbn [Z.eqb Pos.eqb past] in New. destruct (Z.ltb_spec 0 (alen (text e))) as [Hlt|Hge].
  - rewrite (decide_False (P := text e = [])) in New |- * by (intros E; rewrite E in Hlt; done).
    destruct (history_record _ _ _ _ Hh Hl) as (slot & b1 & b2 & E1 & E2 & E3 & HH). rewrite Hn. unfold SHELL_MAX_HISTORY, SHELL_MAX_LINE_LEN.
    rewrite E1. cbn [mbind option_bind]. change (256 - 1) with 255. rewrite E2. cbn [mbind option_bind]. rewrite E3. cbn [mbind option_bind].
    rewrite (proj2 (Z.eqb_neq _ _)) by lia. eexists. split; [reflexivity|]. split; [done|]. split; [done|].
    apply New; [exact HH|]. cbn. rewrite alen_cat. done.
  - rewrite (decide_True (P := text e = [])) in New |- * by (by apply alen_nil_iff). cbn [mbind option_bind]. eexists. split; [reflexivity|].
    split; [done|]. split; [done|]. by apply New.
Qed.

Lemma shell_key_refines s e a : edits s e -> a <> 10 ->
  exists s', shell_key s a = Some (s', edit_output e a, false) /\ edits s' (edit_key e a).
Proof.
  intros Ed Ha. unfold shell_key. rewrite (proj2 (Z.eqb_neq a 10) Ha).
  assert (G : forall k, (exists s', k = Some (s', edit_output e a) /\ edits s' (edit_key e a)) ->
    exists s', (r ← k; Some (r.1, r.2, false)) = Some (s', edit_output e a, false) /\ edits s' (edit_key e a)).
  { intros k (s' & -> & H). by exists s'. }
  apply G. destruct (Z.eqb_spec a 8) as [->|H8]; [by apply backspace_refines|].
  destruct (Z.eqb_spec a KEY_DELETE) as [->|Hde]; [by apply delete_refines|].
  destruct (Z.eqb_spec a KEY_LEFT) as [->|Hle]; [by apply left_refines|].
  destruct (Z.eqb_spec a KEY_RIGHT) as [->|Hri]; [by apply right_refines|].
  destruct (Z.eqb_spec a KEY_UP) as [->|Hup]; [by apply up_refines|].
  destruct (Z.eqb_spec a KEY_DOWN) as [->|Hdo]; [by apply down_refines|].
  destruct ((32 <=? a) && (a <=? 126)) eqn:Ep.
  - apply andb_true_iff in Ep as [?%Z.leb_le ?%Z.leb_le]. by apply char_refines.
  - exists s. unfold edit_output, edit_key.
    repeat match goal with |- context [a =? ?n] => rewrite (proj2 (Z.eqb_neq a n)) by done end. by rewrite Ep.
Qed.

(** ** The loop *)

Section run.
Context {W : Type} (kprint : W -> list Z -> option W) (shell_execute : W -> list Z -> option (W * Z)) (shell_get_cwd : W -> list Z).

Fixpoint print_all (out : list (list Z)) (w : W) : option W :=
  match out with [] => Some w | o :: out => w' ← kprint w o; print_all out w' end.

(** The top of the outer loop. *)
Definition shell_prompt (w : W) (s : line_state) : option (W * line_state) :=
  w' ← print_all [prompt (shell_get_cwd w); cursor_shape] w;
  Some (w', new_line s).

(** A round of the inner loop that polled an event. *)
Definition shell_event (event : input_event) (ws : W * line_state) : option (W * line_state) :=
  let '(w, s) := ws in
  if ev_type event =? INPUT_EVENT_KEY_PRESS then
    '(s', out, complete) ← shell_key s (ascii event);
    w' ← print_all out w;
    if complete : bool then
      command ← buf_str (line s') 0;
      '(w'', _) ← shell_execute w' command;
      shell_prompt w'' s'
    else Some (w', s')
  else Some (w, s).

Fixpoint shell_events (events : list input_event) (ws : W * line_state) : option (W * line_state) :=
  match events with [] => Some ws | ev :: events => ws' ← shell_event ev ws; shell_events events ws' end.

(** ** The session the events ask for *)

Inductive action := Print (out : list (list Z)) | Command (text : list Z).

(** The effect of an event on the editor, and what the shell does for it. *)
Definition edit_event (event : input_event) (e : editor) : editor * list action :=
  if ev_type event =? INPUT_EVENT_KEY_PRESS then
    if ascii event =? 10 then (edit_new (edit_key e 10), [Print [[10]]; Command (text e)])
    else (edit_key e (ascii event), [Print (edit_output e (ascii event))])
  else (e, []).

Fixpoint edit_events (events : list input_event) (e : editor) : editor * list action :=
  match events with
  | [] => (e, [])
  | ev :: events => let '(e1, a1) := edit_event ev e in let '(e2, a2) := edit_events events e1 in (e2, a1 ++ a2)
  end.

(** A command is executed and followed by a prompt. *)
Definition perform1 (a : action) (w : W) : option W :=
  match a with
  | Print out => print_all out w
  | Command t => '(w', _) ← shell_execute w t; print_all [prompt (shell_get_cwd w'); cursor_shape] w'
  end.

Fixpoint perform (acts : list action) (w : W) : option W :=
  match acts with [] => Some w | a :: acts => w' ← perform1 a w; perform acts w' end.

Lemma past_step ev e : alen (past (edit_event ev e).1) <= alen (past e) + 1.
Proof.
  unfold edit_event. case_bool; [|cbn; lia]. case_bool; cbn [fst edit_new past].
  - unfold edit_key. cbn [Z.eqb Pos.eqb past]. case_decide; [lia|]. rewrite alen_cat. change (alen [text e]) with 1. lia.
  - unfold edit_key, edit_up, edit_down. rewrite (proj2 (Z.eqb_neq _ 10)) by done.
    repeat (case_match; cbn [set_cursor past]); lia.
Qed.

Lemma shell_event_refines ev w s e : edits s e -> alen (past e) < INT_MAX ->
  exists s', shell_event ev (w, s) = (w' ← perform (edit_event ev e).2 w; Some (w', s')) /\ edits s' (edit_event ev e).1.
Proof.
  intros Ed Hm. unfold shell_event, edit_event. case_bool; [|by exists s]. destruct (Z.eqb_spec (ascii ev) 10) as [Ea|Ea].
  - rewrite Ea. destruct (enter_refines s e Ed Hm) as (s' & -> & Et & El & Hs'). cbn [mbind option_bind].
    exists (new_line s'). split; [|done]. rewrite El, Et. cbn [snd perform perform1].
    destruct (print_all _ w) as [w1|]; [|done]. cbn [mbind option_bind].
    destruct (shell_execute w1 (text e)) as [[w2 r]|]; [|done]. cbn [mbind option_bind].
    unfold shell_prompt. by destruct (print_all _ w2).
  - destruct (shell_key_refines s e (ascii ev) Ed Ea) as (s' & -> & Hs'). cbn [mbind option_bind].
    exists s'. split; [|done]. cbn [snd perform perform1]. by destruct (print_all _ w).
Qed.

Lemma perform_app a1 a2 : forall w, perform (a1 ++ a2) w = (w' ← perform a1 w; perform a2 w').
Proof. induction a1 as [|a a1 IH]; intros w; [done|]. cbn [app perform]. destruct (perform1 a w); [|done]. cbn [mbind option_bind]. apply IH. Qed.

(** C35.  The prompt loop on any sequence of events does exactly what an editor on a
    text with a cursor asks for: the buffers, the cursor and the 32-slot history
    ring refine the text, the position and the last 32 lines (the line being
    typed included when the arrows leave it and come back); what is printed and
    which commands are executed, in which order, is a function of the events; no
    key writes outside a buffer. *)
Theorem shell_session_refines w s e (events : list input_event) :
  edits s e -> alen (past e) + alen events <= INT_MAX ->
  exists s', shell_events events (w, s) = (w' ← perform (edit_events events e).2 w; Some (w', s')) /\
    edits s' (edit_events events e).1.
Proof.
  revert w s e. induction events as [|ev events IH]; intros w s e Ed Hm; [by exists s|].
  rewrite alen_one in Hm. cbn [shell_events edit_events]. pose proof (alen_nonneg events) as Hn.
  destruct (shell_event_refines ev w s e Ed) as (s1 & -> & Ed1); [lia|]. pose proof (past_step ev e) as Hp.
  destruct (edit_event ev e) as [e1 a1]. cbn [fst snd] in *.
  destruct (edit_events events e1) as [e2 a2] eqn:E2. cbn [fst snd]. rewrite perform_app.
  destruct (perform a1 w) as [w1|]; cbn [mbind option_bind].
  - destruct (IH w1 s1 e1 Ed1) as (s' & -> & Ed'); [lia|]. rewrite E2 in *. by exists s'.
  - destruct (IH w s1 e1 Ed1) as (s' & _ & Ed'); [lia|]. rewrite E2 in *. by exists s'.
Qed.

End run.

Lemma edits_static : edits (new_line shell_static) (Editor [] [] [] 0 []).
Proof.
  assert (Z0 : holds_text (replicate 256 0) []) by (split; [done|]; split; [constructor|by exists (replicate 255 0)]).
  split; try done. split; [done|]. split; [by apply Forall_replicate|]. intros i [H1 H2]. change (i < 0) in H2. lia.
Qed.

(** Typing "ls", Enter, then Up, Left, Backspace, "c", Enter runs "ls" and "cs". *)
Definition demo_keys : list input_event :=
  map (fun a => Event INPUT_EVENT_KEY_PRESS 0 a 0 0 0 0 0) [108; 115; 10; KEY_UP; KEY_LEFT; 8; 99; 10].

(** A world that records the commands. *)
Definition demo_run : option (list (list Z) * line_state) :=
  shell_events (fun w _ => Some w) (fun w t => Some (w ++ [t], 0)) (fun _ => [SLASH]) demo_keys ([], new_line shell_static).

Lemma shell_session_refines_witness : fst <$> demo_run = Some [txt "ls"; txt "cs"].
Proof.
  destruct (shell_session_refines (fun w _ => Some w) (fun w t => Some (w ++ [t], 0)) (fun _ => [SLASH]) ([] : list (list Z))
    (new_line shell_static) (Editor [] [] [] 0 []) demo_keys edits_static) as (s' & E & _).
  - vm_compute. discriminate.
  - unfold demo_run. rewrite E. vm_compute. reflexivity.
Defined.
