(* ===== verification/ShellLex.v ===== *)
(** The command-line tokenizer of the kernel shell: the loop of [shell_execute]
    in kernel/src/shell/shell_core.c.

    The output buffer has [2 * strlen(line) + 1] bytes and [argv] 16 entries; a
    write outside either is [None].  The theorem: nothing is written outside, and
    the strings of [argv] are the words that a lexer of the shell's little
    grammar finds (quotes, backslashes, redirections). *)
From stdpp Require Import prelude gmap list strings.
From Stdlib Require Import ZArith Lia.
From S2P Require Import Prelude ShellPath ShellLine.

Open Scope Z_scope.

Definition SHELL_MAX_ARGS : Z := 16.

Definition BACKSLASH : Z := 92.
Definition SINGLE_QUOTE : Z := 39.
Definition DOUBLE_QUOTE : Z := 34.
Definition SPACE : Z := 32.
Definition GREATER : Z := 62.

(** ** The loop *)

(** The local variables: the characters at [p], the offset of [w] in [out], the
    offsets stored in [argv] (its length is [argc]). *)
Record lexer := Lexer {
  lx_p : list Z;
  lx_out : list Z;
  lx_w : Z;
  lx_argv : list Z;
  lx_quote : Z;
  lx_escaped : bool;
  lx_in_token : bool }.

(** [*w++ = c]. *)
Definition put (x : lexer) (c : Z) : option lexer :=
  o ← buf_set (lx_out x) (lx_w x) c;
  Some (Lexer (lx_p x) o (lx_w x + 1) (lx_argv x) (lx_quote x) (lx_escaped x) (lx_in_token x)).

(** [argv[argc++] = w]. *)
Definition push_arg (x : lexer) : option lexer :=
  if alen (lx_argv x) <? SHELL_MAX_ARGS then
    Some (Lexer (lx_p x) (lx_out x) (lx_w x) (lx_argv x ++ [lx_w x]) (lx_quote x) (lx_escaped x) (lx_in_token x))
  else None.

(** [if (!in_token) { argv[argc++] = w; in_token = true; }]. *)
Definition open_token (x : lexer) : option lexer :=
  if lx_in_token x then Some x
  else x' ← push_arg x; Some (Lexer (lx_p x') (lx_out x') (lx_w x') (lx_argv x') (lx_quote x') (lx_escaped x') true).

(** [if (in_token) { *w++ = 0; in_token = false; }]. *)
Definition close_token (x : lexer) : option lexer :=
  if lx_in_token x then
    x' ← put x 0; Some (Lexer (lx_p x') (lx_out x') (lx_w x') (lx_argv x') (lx_quote x') (lx_escaped x') false)
  else Some x.

Definition set_p (x : lexer) (p : list Z) : lexer := Lexer p (lx_out x) (lx_w x) (lx_argv x) (lx_quote x) (lx_escaped x) (lx_in_token x).
Definition set_quote (x : lexer) (q : Z) : lexer := Lexer (lx_p x) (lx_out x) (lx_w x) (lx_argv x) q (lx_escaped x) (lx_in_token x).
Definition set_escaped (x : lexer) (b : bool) : lexer := Lexer (lx_p x) (lx_out x) (lx_w x) (lx_argv x) (lx_quote x) b (lx_in_token x).

(** The redirection operator: one or two characters, a word of its own. *)
Definition redirect (x : lexer) (p : list Z) : option lexer :=
  x1 ← close_token x;
  x2 ← push_arg x1;
  x3 ← put x2 GREATER;
  '(x4, p4) ← match p with
              | c :: p' => if c =? GREATER then x' ← put x3 GREATER; Some (x', p') else Some (x3, p)
              | [] => Some (x3, p)
              end;
  x5 ← put x4 0;
  Some (set_p x5 p4).

(** A round of the loop at the character [c], with [p] after it. *)
Definition lex_step (x : lexer) (c : Z) (p : list Z) : option lexer :=
  if lx_escaped x then
    x1 ← open_token x; x2 ← put x1 c; Some (set_escaped (set_p x2 p) false)
  else if (c =? BACKSLASH) && negb (lx_quote x =? SINGLE_QUOTE) then Some (set_p (set_escaped x true) p)
  else if nonzero (lx_quote x) then
    if c =? lx_quote x then Some (set_p (set_quote x 0) p)
    else x1 ← open_token x; x2 ← put x1 c; Some (set_p x2 p)
  else if (c =? DOUBLE_QUOTE) || (c =? SINGLE_QUOTE) then
    x1 ← open_token (set_quote x c); Some (set_p x1 p)
  else if c =? SPACE then x1 ← close_token x; Some (set_p x1 p)
  else if c =? GREATER then redirect x p
  else x1 ← open_token x; x2 ← put x1 c; Some (set_p x2 p).

(** Every round consumes a character, which bounds the loop. *)
Fixpoint lex_loop (x : lexer) (fuel : nat) : option lexer :=
  match lx_p x with
  | [] => Some x
  | c :: p =>
      if alen (lx_argv x) <? SHELL_MAX_ARGS then
        match fuel with
        | O => None
        | S fuel => x' ← lex_step x c p; lex_loop x' fuel
        end
      else Some x
  end.

(** The output buffer and the offsets in [argv], for a line. *)
Definition lex_line (line : list Z) : option (list Z * list Z) :=
  x ← lex_loop (Lexer line (replicate (2 * length line + 1) 0) 0 [] 0 false false) (length line);
  o ← (if lx_in_token x then buf_set (lx_out x) (lx_w x) 0 else Some (lx_out x));
  Some (o, lx_argv x).

(** The strings that the entries of [argv] point to. *)
Definition argv_strings (o : list Z) (argv : list Z) : option (list (list Z)) := mapM (buf_str o) argv.

(** ** Reference: the words of a line *)

Definition add_char (cur : option (list Z)) (c : Z) : option (list Z) := Some (default [] cur ++ [c]).

Definition end_word (cur : option (list Z)) (r : list (list Z)) : list (list Z) := match cur with Some w => w :: r | None => r end.

Fixpoint words_of (line : list Z) (quote : Z) (escaped : bool) (cur : option (list Z)) : list (list Z) :=
  match line with
  | [] => end_word cur []
  | c :: p =>
      if escaped then words_of p quote false (add_char cur c)
      else if (c =? BACKSLASH) && negb (quote =? SINGLE_QUOTE) then words_of p quote true cur
      else if nonzero quote then
        if c =? quote then words_of p 0 false cur else words_of p quote false (add_char cur c)
      else if (c =? DOUBLE_QUOTE) || (c =? SINGLE_QUOTE) then words_of p c false (Some (default [] cur))
      else if c =? SPACE then end_word cur (words_of p 0 false None)
      else if c =? GREATER then
        end_word cur (match p with
                      | d :: p' => if d =? GREATER then [GREATER; GREATER] :: words_of p' 0 false None else [GREATER] :: words_of p 0 false None
                      | [] => [[GREATER]]
                      end)
      else words_of p 0 false (add_char cur c)
  end.

(** ** The buffer against the words found so far *)

(** The finished words with their NULs, then the open one. *)
Definition closed (ts : list (list Z)) : list Z := concat (map (fun t => t ++ [0]) ts).

Definition body (ts : list (list Z)) (cur : option (list Z)) : list Z := closed ts ++ default [] cur.

Fixpoint offsets (o : Z) (ts : list (list Z)) : list Z := match ts with [] => [] | t :: ts => o :: offsets (o + alen t + 1) ts end.

Definition nonzeros (t : list Z) : Prop := Forall (fun c => c <> 0) t.

Record holds (n : Z) (x : lexer) (ts : list (list Z)) (cur : option (list Z)) : Prop := Holds {
  ho_out : exists k, lx_out x = body ts cur ++ replicate k 0;
  ho_len : alen (lx_out x) = 2 * n + 1;
  ho_w : lx_w x = alen (body ts cur);
  ho_argv : lx_argv x = offsets 0 ts ++ match cur with Some _ => [alen (closed ts)] | None => [] end;
  ho_nz : Forall nonzeros ts /\ nonzeros (default [] cur) }.

(** The variables that the writes leave alone. *)
Definition rest (x : lexer) := (lx_p x, lx_quote x, lx_escaped x, lx_in_token x).

Lemma closed_snoc ts t : closed (ts ++ [t]) = closed ts ++ t ++ [0].
Proof. unfold closed. rewrite map_app, concat_app. cbn [map concat]. by rewrite app_nil_r. Qed.

Lemma alen_closed_cons t ts : alen (closed (t :: ts)) = alen t + 1 + alen (closed ts).
Proof. unfold closed. cbn [map concat]. rewrite !alen_cat. change (alen [0]) with 1. lia. Qed.

Lemma offsets_snoc ts t : forall o, offsets o (ts ++ [t]) = offsets o ts ++ [o + alen (closed ts)].
Proof.
  induction ts as [|s ts IH]; intros o; cbn [app offsets].
  - change (closed []) with (@nil Z). change (alen (@nil Z)) with 0. by rewrite Z.add_0_r.
  - rewrite IH, alen_closed_cons. cbn [app]. do 3 f_equal. lia.
Qed.

Lemma alen_offsets ts : forall o, alen (offsets o ts) = alen ts.
Proof. induction ts as [|t ts IH]; intros o; [done|]. cbn [offsets]. by rewrite !alen_one, IH. Qed.

(** The words counted by [argc]. *)
Definition counted (ts : list (list Z)) (cur : option (list Z)) : Z := alen ts + match cur with Some _ => 1 | None => 0 end.

Lemma holds_argc n x ts cur : holds n x ts cur -> alen (lx_argv x) = counted ts cur.
Proof. intros Ho. rewrite (ho_argv _ _ _ _ Ho), alen_cat, alen_offsets. by destruct cur. Qed.

Lemma put_raw n x ts cur c : holds n x ts cur -> alen (body ts cur) <= 2 * n ->
  exists o, put x c = Some (Lexer (lx_p x) o (lx_w x + 1) (lx_argv x) (lx_quote x) (lx_escaped x) (lx_in_token x)) /\
    alen o = 2 * n + 1 /\ exists k, o = (body ts cur ++ [c]) ++ replicate k 0.
Proof.
  intros [[k Eo] Hl Hw Ha _] Hb. unfold put. rewrite Eo, Hw. rewrite Eo, alen_cat in Hl.
  destruct k as [|k]; [cbn [replicate] in Hl; change (alen (@nil Z)) with 0 in Hl; lia|].
  rewrite buf_set_app by done. cbn [mbind option_bind]. rewrite <- Hw. eexists. split; [reflexivity|]. cbn [replicate tail].
  cbn [replicate] in Hl. rewrite alen_one in Hl. split; [rewrite alen_cat, alen_one; lia|]. exists k. by rewrite <- app_assoc.
Qed.

Lemma put_char n x ts t c : holds n x ts (Some t) -> c <> 0 -> alen (body ts (Some t)) <= 2 * n ->
  exists x', put x c = Some x' /\ rest x' = rest x /\ holds n x' ts (Some (t ++ [c])).
Proof.
  intros Ho Hc Hb. destruct (put_raw n x ts (Some t) c Ho Hb) as (o & E & Hl & k & Eo). rewrite E. eexists. split; [reflexivity|]. split; [done|].
  destruct Ho as [_ _ Hw Ha [Hz1 Hz2]]. split; cbn [lx_out lx_w lx_argv].
  - exists k. rewrite Eo. unfold body. cbn [from_option id]. by rewrite <- !app_assoc.
  - done.
  - rewrite Hw. unfold body. cbn [from_option id]. rewrite !alen_cat. change (alen [c]) with 1. lia.
  - done.
  - split; [done|]. cbn [from_option id]. apply Forall_app. split; [done|by constructor].
Qed.

Lemma put_end n x ts t : holds n x ts (Some t) -> alen (body ts (Some t)) <= 2 * n ->
  exists x', put x 0 = Some x' /\ rest x' = rest x /\ holds n x' (ts ++ [t]) None.
Proof.
  intros Ho Hb. destruct (put_raw n x ts (Some t) 0 Ho Hb) as (o & E & Hl & k & Eo). rewrite E. eexists. split; [reflexivity|]. split; [done|].
  destruct Ho as [_ _ Hw Ha [Hz1 Hz2]]. assert (Eb : body (ts ++ [t]) None = body ts (Some t) ++ [0]).
  { unfold body. cbn [from_option id]. by rewrite closed_snoc, app_nil_r, <- app_assoc. }
  split; cbn [lx_out lx_w lx_argv].
  - exists k. by rewrite Eb.
  - done.
  - rewrite Eb, Hw, alen_cat. done.
  - rewrite Ha, offsets_snoc, Z.add_0_l. by rewrite app_nil_r.
  - split; [apply Forall_app; split; [done|by constructor]|constructor].
Qed.

Lemma push_spec n x ts : holds n x ts None -> counted ts None < 16 ->
  exists x', push_arg x = Some x' /\ rest x' = rest x /\ holds n x' ts (Some []).
Proof.
  intros Ho Hc. unfold push_arg. rewrite (holds_argc _ _ _ _ Ho), (proj2 (Z.ltb_lt _ _)) by done. eexists. split; [reflexivity|]. split; [done|].
  destruct Ho as [Hout Hl Hw Ha [Hz _]]. split; cbn [lx_out lx_w lx_argv].
  - exact Hout.
  - done.
  - exact Hw.
  - rewrite Ha, app_nil_r, Hw. unfold body. cbn [from_option id]. by rewrite app_nil_r.
  - split; [done|constructor].
Qed.

Definition is_open (cur : option (list Z)) : bool := match cur with Some _ => true | None => false end.

Lemma open_spec n x ts cur : holds n x ts cur -> lx_in_token x = is_open cur -> counted ts cur < 16 \/ cur <> None ->
  exists x', open_token x = Some x' /\ lx_p x' = lx_p x /\ lx_quote x' = lx_quote x /\ lx_escaped x' = lx_escaped x /\
    lx_in_token x' = true /\ holds n x' ts (Some (default [] cur)).
Proof.
  intros Ho Ht Hc. unfold open_token. rewrite Ht. destruct cur as [t|]; cbn [is_open]; [by exists x|].
  destruct (push_spec n x ts Ho) as (x' & -> & R & Ho'); [by destruct Hc|]. cbn [mbind option_bind]. injection R as E1 E2 E3 E4.
  eexists. split; [reflexivity|]. cbn. split_and!; try done. destruct Ho'. by split.
Qed.

Lemma close_spec n x ts cur : holds n x ts cur -> lx_in_token x = is_open cur -> alen (body ts cur) <= 2 * n ->
  exists x', close_token x = Some x' /\ lx_p x' = lx_p x /\ lx_quote x' = lx_quote x /\ lx_escaped x' = lx_escaped x /\
    lx_in_token x' = false /\ holds n x' (ts ++ end_word cur []) None.
Proof.
  intros Ho Ht Hb. unfold close_token. rewrite Ht. destruct cur as [t|]; cbn [is_open end_word].
  - destruct (put_end n x ts t Ho Hb) as (x' & -> & R & Ho'). cbn [mbind option_bind]. injection R as E1 E2 E3 E4.
    eexists. split; [reflexivity|]. cbn. split_and!; try done. destruct Ho'. by split.
  - rewrite app_nil_r. by exists x.
Qed.

(** ** The loop invariant *)

(** [n] characters in all: two bytes of room per character to come, and one for
    the NUL of an open word. *)
Record lexing (n : Z) (x : lexer) (ts : list (list Z)) (cur : option (list Z)) : Prop := Lexing {
  le_holds : holds n x ts cur;
  le_token : lx_in_token x = is_open cur;
  le_room : alen (body ts cur) + 2 * alen (lx_p x) + (if is_open cur then 1 else 0) <= 2 * n;
  le_input : Forall (fun c => c <> 0) (lx_p x);
  le_count : counted ts cur <= 16 }.

(** The words of the line, as seen in the state [x]. *)
Definition all_words (x : lexer) (ts : list (list Z)) (cur : option (list Z)) : list (list Z) :=
  ts ++ words_of (lx_p x) (lx_quote x) (lx_escaped x) cur.

(** What a round does: the words of the line stay what they are. *)
Definition stepped (n : Z) (x : lexer) (ts : list (list Z)) (cur : option (list Z)) (r : option lexer) : Prop :=
  exists x' ts' cur', r = Some x' /\ lexing n x' ts' cur' /\ all_words x' ts' cur' = all_words x ts cur /\
    (length (lx_p x') < length (lx_p x))%nat.

Lemma alen_body ts cur : alen (body ts cur) = alen (closed ts) + alen (default [] cur).
Proof. unfold body. apply alen_cat. Qed.

Lemma holds_p n x ts cur p : holds n x ts cur -> holds n (set_p x p) ts cur.
Proof. intros []. by split. Qed.

Lemma holds_mode n x ts cur q e b : holds n x ts cur -> holds n (Lexer (lx_p x) (lx_out x) (lx_w x) (lx_argv x) q e b) ts cur.
Proof. intros []. by split. Qed.

Section round.
Context (n : Z) (x : lexer) (ts : list (list Z)) (cur : option (list Z)) (c : Z) (p : list Z).
Context (L : lexing n x ts cur) (Ep : lx_p x = c :: p) (Hc : counted ts cur < 16).

Lemma round_input : c <> 0 /\ Forall (fun d => d <> 0) p /\ alen (body ts cur) + 2 * alen p + (if is_open cur then 1 else 0) + 2 <= 2 * n.
Proof.
  destruct L as [_ _ Hr Hi _]. rewrite Ep in Hi, Hr. rewrite alen_one in Hr. apply Forall_cons in Hi as [? ?]. split; [done|]. split; [done|lia].
Qed.

(** Adding the character to the open word, or opening one. *)
Lemma round_add x0 q e : holds n x0 ts cur -> lx_in_token x0 = is_open cur ->
  exists x1 x2, open_token x0 = Some x1 /\ put x1 c = Some x2 /\ rest x2 = (lx_p x0, lx_quote x0, lx_escaped x0, true) /\
    holds n x2 ts (add_char cur c) /\
    lexing n (Lexer p (lx_out x2) (lx_w x2) (lx_argv x2) q e true) ts (add_char cur c).
Proof.
  intros Ho Ht. destruct round_input as (Hc0 & Hp & Hr). destruct (open_spec n x0 ts cur Ho Ht) as (x1 & E1 & A1 & A2 & A3 & A4 & Ho1); [by left|].
  pose proof (alen_nonneg p). pose proof (alen_body ts cur) as Hb.
  destruct (put_char n x1 ts _ c Ho1 Hc0) as (x2 & E2 & R2 & Ho2).
  { rewrite alen_body. cbn [from_option id]. destruct (is_open cur); lia. }
  exists x1, x2. split; [done|]. split; [done|]. split; [rewrite R2; unfold rest; congruence|]. split; [done|].
  split; cbn [lx_p lx_in_token]; try done.
  - destruct Ho2. by split.
  - unfold add_char. cbn [is_open]. rewrite alen_body. cbn [from_option id]. rewrite alen_cat. change (alen [c]) with 1.
    destruct cur; cbn [is_open from_option id] in *; [lia|]. change (alen (@nil Z)) with 0 in *. lia.
  - unfold counted, add_char in *. destruct cur; lia.
Qed.

(** Ending the open word. *)
Lemma round_end q : exists x1, close_token x = Some x1 /\ lx_quote x1 = lx_quote x /\ lx_escaped x1 = lx_escaped x /\
  holds n x1 (ts ++ end_word cur []) None /\ lx_in_token x1 = false /\
  lexing n (Lexer p (lx_out x1) (lx_w x1) (lx_argv x1) q false false) (ts ++ end_word cur []) None.
Proof.
  destruct round_input as (Hc0 & Hp & Hr). destruct L as [Ho Ht _ _ Hn]. pose proof (alen_nonneg p).
  destruct (close_spec n x ts cur Ho Ht) as (x1 & E1 & A1 & A2 & A3 & A4 & Ho1); [destruct (is_open cur); lia|].
  exists x1. do 5 (split; [done|]). split; cbn [lx_p lx_in_token]; try done.
  - destruct Ho1. by split.
  - cbn [is_open]. destruct cur as [t|]; cbn [end_word is_open] in *.
    + rewrite !alen_body, closed_snoc, !alen_cat in *. cbn [from_option id] in *. change (alen [0]) with 1. change (alen (@nil Z)) with 0. lia.
    + rewrite app_nil_r. lia.
  - unfold counted in *. destruct cur as [t|]; cbn [end_word]; rewrite alen_cat; [change (alen [t]) with 1|change (alen (@nil (list Z))) with 0]; lia.
Qed.

(** The operator after the words [ts1], with room for [r] more characters. *)
Lemma operator_spec x1 ts1 (m : Z) : holds n x1 ts1 None -> counted ts1 None < 16 -> alen (body ts1 None) + m + 1 <= 2 * n -> 0 <= m ->
  exists x2 x3, push_arg x1 = Some x2 /\ put x2 GREATER = Some x3 /\ rest x3 = rest x1 /\ holds n x3 ts1 (Some [GREATER]) /\
    alen (body ts1 (Some [GREATER])) + m <= 2 * n.
Proof.
  intros Ho Hn Hr Hm. destruct (push_spec n x1 ts1 Ho Hn) as (x2 & E2 & R2 & Ho2).
  rewrite alen_body in Hr. cbn [from_option id] in Hr. change (alen (@nil Z)) with 0 in Hr.
  destruct (put_char n x2 ts1 [] GREATER Ho2) as (x3 & E3 & R3 & Ho3); [done|rewrite alen_body; cbn [from_option id]; change (alen (@nil Z)) with 0; lia|].
  exists x2, x3. split; [done|]. split; [done|]. split; [congruence|]. split; [done|]. rewrite alen_body. cbn [from_option id]. change (alen [GREATER]) with 1. lia.
Qed.

Lemma finish_operator x3 ts1 t p4 : holds n x3 ts1 (Some t) -> lx_in_token x3 = false -> lx_quote x3 = 0 -> lx_escaped x3 = false ->
  alen (body ts1 (Some t)) + 1 + 2 * alen p4 <= 2 * n -> Forall (fun d => d <> 0) p4 -> counted ts1 None < 16 ->
  exists x5, put x3 0 = Some x5 /\ lexing n (set_p x5 p4) (ts1 ++ [t]) None /\
    all_words (set_p x5 p4) (ts1 ++ [t]) None = ts1 ++ t :: words_of p4 0 false None.
Proof.
  intros Ho Ht Hq He Hr Hi Hn. pose proof (alen_nonneg p4). destruct (put_end n x3 ts1 t Ho) as (x5 & E5 & R5 & Ho5); [lia|].
  injection R5 as A1 A2 A3 A4. exists x5. split; [done|]. split.
  - split; cbn [set_p lx_p lx_in_token is_open]; [by apply holds_p|congruence| |done|].
    + rewrite !alen_body, closed_snoc, !alen_cat in *. cbn [from_option id] in *. change (alen [0]) with 1. change (alen (@nil Z)) with 0. lia.
    + unfold counted in *. rewrite alen_cat. change (alen [t]) with 1. lia.
  - unfold all_words. cbn [set_p lx_p lx_quote lx_escaped]. rewrite A2, A3, Hq, He, <- app_assoc. done.
Qed.

Lemma round_redirect : lx_quote x = 0 -> lx_escaped x = false -> c = GREATER -> stepped n x ts cur (redirect x p).
Proof.
  intros Hq He Hcg. destruct round_input as (_ & Hp & Hr). destruct (round_end 0) as (x1 & E1 & A1 & A2 & Ho1 & A3 & L1).
  unfold redirect. rewrite E1. cbn [mbind option_bind]. set (ts1 := ts ++ end_word cur []) in *. pose proof (alen_nonneg p) as Hp0.
  assert (Hn1 : counted ts1 None < 16).
  { subst ts1. unfold counted in *. destruct cur as [t|]; cbn [end_word]; rewrite alen_cat; [change (alen [t]) with 1|change (alen (@nil (list Z))) with 0]; lia. }
  assert (Hb1 : alen (body ts1 None) + 2 * alen p + 2 <= 2 * n).
  { subst ts1. destruct cur as [t|]; cbn [end_word is_open] in *; [|rewrite app_nil_r; lia].
    rewrite !alen_body, closed_snoc, !alen_cat in *. cbn [from_option id] in *. change (alen [0]) with 1. change (alen (@nil Z)) with 0. lia. }
  destruct (operator_spec x1 ts1 (2 * alen p + 1) Ho1 Hn1) as (x2 & x3 & E2 & E3 & R3 & Ho3 & Hb3); [lia|lia|].
  rewrite E2. cbn [mbind option_bind]. rewrite E3. cbn [mbind option_bind]. injection R3 as B1 B2 B3 B4.
  assert (W : all_words x ts cur = ts1 ++ match p with
    | d :: p' => if d =? GREATER then [GREATER; GREATER] :: words_of p' 0 false None else [GREATER] :: words_of p 0 false None
    | [] => [[GREATER]] end).
  { unfold all_words. rewrite Ep, Hq, He, Hcg. cbn [words_of]. change ((GREATER =? BACKSLASH) && negb (0 =? SINGLE_QUOTE)) with false.
    change (nonzero 0) with false. change ((GREATER =? DOUBLE_QUOTE) || (GREATER =? SINGLE_QUOTE)) with false.
    change (GREATER =? SPACE) with false. change (GREATER =? GREATER) with true. cbv iota. subst ts1. rewrite <- app_assoc. by destruct cur. }
  unfold stepped. rewrite W, Ep. clear W. destruct p as [|d p'].
  - destruct (finish_operator x3 ts1 [GREATER] [] Ho3) as (x5 & E5 & L5 & W5); [congruence..|change (alen (@nil Z)) with 0 in *; lia|done|done|].
    cbn [mbind option_bind]. rewrite E5. cbn [mbind option_bind]. exists (set_p x5 []), (ts1 ++ [[GREATER]]), None. split; [done|]. split; [done|].
    split; [exact W5|]. cbn. lia.
  - rewrite alen_one in Hb3. pose proof (alen_nonneg p'). apply Forall_cons in Hp as [Hd Hp'].
    destruct (d =? GREATER).
    + destruct (put_char n x3 ts1 [GREATER] GREATER Ho3) as (x4 & E4 & R4 & Ho4); [done|lia|]. rewrite E4. cbn [mbind option_bind]. injection R4 as C1 C2 C3 C4.
      destruct (finish_operator x4 ts1 [GREATER; GREATER] p' Ho4) as (x5 & E5 & L5 & W5); [congruence..| |done|done|].
      { rewrite !alen_body in *. cbn [from_option id] in *. change (alen [GREATER]) with 1 in *. change (alen [GREATER; GREATER]) with 2. lia. }
      rewrite E5. cbn [mbind option_bind]. exists (set_p x5 p'), (ts1 ++ [[GREATER; GREATER]]), None. split; [done|]. split; [done|]. split; [exact W5|]. cbn. lia.
    + destruct (finish_operator x3 ts1 [GREATER] (d :: p') Ho3) as (x5 & E5 & L5 & W5); [congruence..|rewrite alen_one; lia|by constructor|done|].
      cbn [mbind option_bind]. rewrite E5. cbn [mbind option_bind]. exists (set_p x5 (d :: p')), (ts1 ++ [[GREATER]]), None.
      split; [done|]. split; [done|]. split; [exact W5|]. cbn. lia.
Qed.

Lemma step_spec : stepped n x ts cur (lex_step x c p).
Proof.
  pose proof L as [Ho Ht _ _ Hn]. destruct round_input as (Hc0 & Hp & Hr). unfold lex_step.
  assert (Hw : all_words x ts cur = ts ++ words_of (c :: p) (lx_quote x) (lx_escaped x) cur) by (unfold all_words; by rewrite Ep).
  assert (Add : forall x0 q e, holds n x0 ts cur -> lx_in_token x0 = is_open cur -> words_of (c :: p) (lx_quote x) (lx_escaped x) cur = words_of p q e (add_char cur c) ->
    exists x1 x2, open_token x0 = Some x1 /\ put x1 c = Some x2 /\ rest x2 = (lx_p x0, lx_quote x0, lx_escaped x0, true) /\
      (forall x3, x3 = Lexer p (lx_out x2) (lx_w x2) (lx_argv x2) q e true -> stepped n x ts cur (Some x3))).
  { intros x0 q e H0 H1 Ew. destruct (round_add x0 q e H0 H1) as (x1 & x2 & E1 & E2 & R & H2 & L2). exists x1, x2. do 3 (split; [done|]).
    intros x3 ->. do 3 eexists. split; [reflexivity|]. split; [exact L2|]. split; [|rewrite Ep; cbn; lia]. rewrite Hw, Ew. done. }
  assert (Mode : forall q e, words_of (c :: p) (lx_quote x) (lx_escaped x) cur = words_of p q e cur ->
    forall x3, x3 = Lexer p (lx_out x) (lx_w x) (lx_argv x) q e (lx_in_token x) -> stepped n x ts cur (Some x3)).
  { intros q e Ew x3 ->. do 3 eexists. split; [reflexivity|]. split; [|split; [rewrite Hw, Ew; reflexivity|rewrite Ep; cbn; lia]].
    split; cbn [lx_p lx_in_token]; [destruct Ho; by split|done|lia|done|done]. }
  cbn [words_of] in Add, Mode. destruct (lx_escaped x) eqn:Ee.
  { destruct (Add x (lx_quote x) false Ho Ht eq_refl) as (x1 & x2 & -> & E2 & R & G). cbn [mbind option_bind]. rewrite E2. cbn [mbind option_bind].
    apply G. injection R as R1 R2 R3 R4. unfold set_escaped, set_p. cbn. by rewrite R2, R4. }
  destruct ((c =? BACKSLASH) && negb (lx_quote x =? SINGLE_QUOTE)) eqn:Eb; [by apply (Mode (lx_quote x) true eq_refl)|].
  destruct (nonzero (lx_quote x)) eqn:Eq.
  { destruct (c =? lx_quote x) eqn:Ec.
    - apply (Mode 0 false eq_refl). unfold set_p, set_quote. cbn. by rewrite Ee.
    - destruct (Add x (lx_quote x) false Ho Ht eq_refl) as (x1 & x2 & -> & E2 & R & G). cbn [mbind option_bind]. rewrite E2. cbn [mbind option_bind].
      apply G. injection R as R1 R2 R3 R4. unfold set_p. by rewrite R2, R3, R4, Ee. }
  apply nonzero_false in Eq. destruct ((c =? DOUBLE_QUOTE) || (c =? SINGLE_QUOTE)) eqn:Eqq.
  { destruct (open_spec n (set_quote x c) ts cur) as (x1 & E1 & A1 & A2 & A3 & A4 & Ho1); [destruct Ho; by split|done|by left|].
    rewrite E1. cbn [mbind option_bind]. exists (set_p x1 p), ts, (Some (default [] cur)). split; [done|]. split; [|split].
    - split; cbn [set_p lx_p lx_in_token is_open]; [by apply holds_p|done| |done|].
      + rewrite !alen_body in *. cbn [from_option id]. destruct cur; cbn [is_open from_option id] in *; lia.
      + unfold counted in *. destruct cur; lia.
    - rewrite Hw. cbn [words_of]. unfold all_words. cbn [set_p lx_p lx_quote lx_escaped]. rewrite A2, A3. cbn [set_quote lx_quote lx_escaped].
      rewrite Ee, Eb, Eq. change (nonzero 0) with false. by rewrite Eqq.
    - rewrite Ep. cbn. lia. }
  destruct (c =? SPACE) eqn:Es.
  { destruct (round_end 0) as (x1 & E1 & A1 & A2 & Ho1 & A3 & L1). rewrite E1. cbn [mbind option_bind].
    exists (set_p x1 p), (ts ++ end_word cur []), None. split; [done|]. split; [|split; [|rewrite Ep; cbn; lia]].
    - destruct L1 as [_ _ R1 I1 N1]. split; [by apply holds_p|done|done|done|done].
    - rewrite Hw. cbn [words_of]. unfold all_words. cbn [set_p lx_p lx_quote lx_escaped]. rewrite A1, A2, Ee, Eb, Eq.
      change (nonzero 0) with false. rewrite Eqq, Es, <- app_assoc. by destruct cur. }
  destruct (c =? GREATER) eqn:Eg; [apply round_redirect; [done|done|by apply Z.eqb_eq]|].
  destruct (Add x 0 false Ho Ht eq_refl) as (x1 & x2 & -> & E2 & R & G). cbn [mbind option_bind]. rewrite E2. cbn [mbind option_bind].
  apply G. injection R as R1 R2 R3 R4. unfold set_p. by rewrite R2, R3, R4, Ee, Eq.
Qed.

End round.

Lemma loop_spec n fuel : forall x ts cur, lexing n x ts cur -> (length (lx_p x) <= fuel)%nat ->
  exists x' ts' cur', lex_loop x fuel = Some x' /\ lexing n x' ts' cur' /\ all_words x' ts' cur' = all_words x ts cur /\
    (lx_p x' = [] \/ counted ts' cur' = 16).
Proof.
  induction fuel as [|fuel IH]; intros x ts cur L Hf; cbn [lex_loop].
  - destruct (lx_p x) eqn:Ep; [|cbn in Hf; lia]. exists x, ts, cur. by split_and!; [|..|left].
  - destruct (lx_p x) as [|c p] eqn:Ep; [exists x, ts, cur; by split_and!; [|..|left]|].
    rewrite (holds_argc _ _ _ _ (le_holds _ _ _ _ L)). unfold SHELL_MAX_ARGS. destruct (Z.ltb_spec (counted ts cur) 16) as [Hc|Hc].
    + destruct (step_spec n x ts cur c p L Ep Hc) as (x1 & ts1 & cur1 & -> & L1 & W1 & Hl). cbn [mbind option_bind]. rewrite Ep in Hl. cbn [length] in *.
      destruct (IH x1 ts1 cur1 L1) as (x' & ts' & cur' & E & L' & W' & C); [lia|]. exists x', ts', cur'. split_and!; [done|done|congruence|done].
    + exists x, ts, cur. split; [done|]. split; [done|]. split; [done|]. right. pose proof (le_count _ _ _ _ L). lia.
Qed.

Lemma buf_str_at pre t r : nonzeros t -> buf_str (pre ++ t ++ 0 :: r) (alen pre) = Some t.
Proof.
  intros Ht. unfold buf_str. rewrite to_nat_alen, drop_app_length, c_str_app by done. rewrite !alen_cat, alen_one.
  pose proof (alen_nonneg pre). pose proof (alen_nonneg r). by rewrite (proj2 (Z.leb_le _ _)), (proj2 (Z.ltb_lt _ _)) by lia.
Qed.

Lemma strings_spec us z : forall pre, Forall nonzeros us -> mapM (buf_str (pre ++ closed us ++ z)) (offsets (alen pre) us) = Some us.
Proof.
  induction us as [|t us IH]; intros pre F; [done|]. apply Forall_cons in F as [Ht F]. cbn [offsets mapM].
  replace (closed (t :: us)) with (t ++ 0 :: closed us) by (unfold closed; cbn [map concat]; by rewrite <- app_assoc).
  rewrite <- app_assoc. cbn [app]. rewrite buf_str_at by done. cbn [mbind option_bind].
  specialize (IH (pre ++ t ++ [0]) F). rewrite <- !app_assoc in IH. cbn [app] in IH. 
  replace (alen (pre ++ t ++ [0])) with (alen pre + alen t + 1) in IH by (rewrite !alen_cat; change (alen [0]) with 1; lia).
  by rewrite IH.
Qed.

(** Words read on are at least the open one. *)
Lemma words_of_open line : forall q e t, (1 <= length (words_of line q e (Some t)))%nat.
Proof.
  induction line as [|c p IH]; intros q e t; cbn [words_of]; [done|]. unfold add_char, end_word.
  repeat case_match; cbn [length]; (lia || apply IH).
Qed.

Lemma lex_line_spec (line : list Z) : Forall (fun c => c <> 0) line ->
  let ws := words_of line 0 false None in
  exists o argv ss, lex_line line = Some (o, argv) /\ argv_strings o argv = Some ss /\
    alen ss = Z.min 16 (alen ws) /\ take 15 ss = take 15 ws /\ (alen ws < 16 -> ss = ws).
Proof.
  intros Hz ws. set (n := alen line). set (x0 := Lexer line (replicate (2 * length line + 1) 0) 0 [] 0 false false).
  assert (L0 : lexing n x0 [] None).
  { split; [|done|cbn; subst n; change (alen (@nil Z)) with 0; lia|done|done].
    split; [by exists (2 * length line + 1)%nat| |done|done|split; constructor]. cbn. subst n. unfold alen. rewrite length_replicate. lia. }
  destruct (loop_spec n (length line) x0 [] None L0) as (x & ts & cur & E & L & W & C); [done|]. unfold lex_line. fold x0. rewrite E. cbn [mbind option_bind].
  pose proof L as [Ho Ht Hr _ Hn]. pose proof Ho as [[k Eo] Hl Hw Ha [Hz1 Hz2]]. pose proof (alen_nonneg (lx_p x)).
  set (us := ts ++ end_word cur []).
  assert (Eus : lx_argv x = offsets 0 us).
  { rewrite Ha. subst us. destruct cur as [t|]; cbn [end_word]; [by rewrite offsets_snoc, Z.add_0_l|by rewrite !app_nil_r]. }
  assert (O : exists z, (if lx_in_token x then buf_set (lx_out x) (lx_w x) 0 else Some (lx_out x)) = Some (closed us ++ z)).
  { rewrite Ht. subst us. destruct cur as [t|]; cbn [is_open end_word] in *.
    - rewrite Eo, alen_cat in Hl. rewrite Eo, Hw. destruct k as [|k]; [cbn [replicate] in Hl; change (alen (@nil Z)) with 0 in Hl; lia|].
      rewrite buf_set_app by done. cbn [replicate tail]. exists (replicate k 0). rewrite closed_snoc. unfold body. cbn [from_option id]. by rewrite <- !app_assoc.
    - rewrite app_nil_r. exists (replicate k 0). rewrite Eo. unfold body. cbn [from_option id]. by rewrite app_nil_r. }
  destruct O as (z & ->). cbn [mbind option_bind]. exists (closed us ++ z), (lx_argv x), us. split; [done|].
  assert (Fus : Forall nonzeros us) by (subst us; apply Forall_app; split; [done|]; destruct cur; [by constructor|constructor]).
  split; [unfold argv_strings; rewrite Eus; apply (strings_spec us z [] Fus)|].
  assert (Ews : ws = ts ++ words_of (lx_p x) (lx_quote x) (lx_escaped x) cur) by (symmetry; exact W).
  assert (Eu : alen us = counted ts cur) by (subst us; unfold counted; rewrite alen_cat; by destruct cur).
  destruct (lx_p x) as [|c p] eqn:Ep.
  - assert (us = ws) as <- by (rewrite Ews; done). split; [lia|done].
  - destruct C as [|C]; [done|]. assert (Hlen : (1 <= length (words_of (c :: p) (lx_quote x) (lx_escaped x) cur))%nat \/ cur = None).
    { destruct cur; [left; apply words_of_open|by right]. }
    assert (Hws : 16 <= alen ws).
    { rewrite Ews, alen_cat. unfold counted in C. destruct Hlen as [Hlen|Hlen]; [destruct cur; unfold alen in *; lia|subst cur; unfold alen in *; lia]. }
    split; [lia|]. split; [|lia]. subst us. rewrite Ews.
    rewrite !take_app_le by (unfold counted, alen in C; destruct cur; lia). done.
Qed.

Lemma lex_line_words (line : list Z) : Forall (fun c => c <> 0) line -> alen (words_of line 0 false None) < 16 ->
  exists o argv, lex_line line = Some (o, argv) /\ argv_strings o argv = Some (words_of line 0 false None).
Proof.
  intros Hz Hl. destruct (lex_line_spec line Hz) as (o & argv & ss & E1 & E2 & _ & _ & E3). exists o, argv. split; [done|]. by rewrite E2, (E3 Hl).
Qed.

(** Tokenizing any line stays inside the output buffer of [2 n + 1] bytes and the
    16 entries of [argv].  The strings that [argv] points to are the words of the
    line as long as there are fewer than 16; otherwise there are 16 of them, the
    first 15 are right, and the last may be cut. *)
Theorem lex_line_correct (line : list Z) : Forall (fun c => c <> 0) line ->
  let ws := words_of line 0 false None in
  exists o argv ss, lex_line line = Some (o, argv) /\ argv_strings o argv = Some ss /\
    alen ss = Z.min 16 (alen ws) /\ take 15 ss = take 15 ws /\ (alen ws < 16 -> ss = ws).
Proof. apply lex_line_spec. Qed.

Lemma lex_line_correct_witness :
  exists o argv, lex_line (txt "echo 'a b'\>c >>/tmp/x") = Some (o, argv) /\
    argv_strings o argv = Some [txt "echo"; txt "a b>c"; txt ">>"; txt "/tmp/x"].
Proof.
  destruct (lex_line_correct (txt "echo 'a b'\>c >>/tmp/x")) as (o & argv & ss & E1 & E2 & _ & _ & E3).
  - repeat (apply Forall_cons; split; [vm_compute; discriminate|]). apply Forall_nil. done.
  - exists o, argv. split; [exact E1|]. rewrite E2, E3; vm_compute; reflexivity.
Defined.

(** The sixteenth word is cut to its first character, and what follows it is not
    read. *)
Example sixteenth_word_cut :
  ('(o, argv) ← lex_line (txt "a b c d e f g h i j k l m n o last more"); argv_strings o argv) =
    Some (map (fun c => [c]) (seqZ 97 15) ++ [txt "l"]).
Proof. vm_compute. reflexivity. Qed.
