(* ===== verification/Shell.v ===== *)
(** The commands of the kernel shell (kernel/src/shell/cmds/) and their dispatch,
    [shell_execute] and [shell_run] of kernel/src/shell/shell_core.c.

    The shell runs over any file system of the class, whose state also holds the
    kernel heap, and over the console of Klog.v.  The linker collects the
    registered commands into a table: its order is a parameter.  [None] is
    undefined behaviour (an overrun buffer, a stray pointer) or a listing that
    does not end within the fuel. *)
From stdpp Require Import prelude gmap list strings.
From Stdlib Require Import ZArith Lia.
From S2P Require Import Prelude KHeap Klog Printf PrintfThm Input Vfs Pci ShellPath ShellLine ShellLex.

Open Scope Z_scope.

(** ** The command table *)

Inductive shell_cmd_handler :=
| cmd_echo | cmd_cat | cmd_ls | cmd_touch | cmd_cd | cmd_mkdir | cmd_pwd
| cmd_clear | cmd_dmesg | cmd_help | cmd_reboot | cmd_shutdown | cmd_uname
| cmd_uptime | cmd_free | cmd_lspci | cmd_colortest
| cmd_stub (lines : list (list Z)).

Record shell_command := ShellCommand {
  sc_name : list Z;
  sc_args : list Z;
  sc_options : list Z;
  sc_description : list Z;
  sc_usage_help : list Z;
  sc_category : list Z;
  sc_handler : shell_cmd_handler;
  sc_no_h_help : bool }.

(** [REGISTER_SHELL_COMMAND]. *)
Definition command (name args desc usage cat : string) (h : shell_cmd_handler) : shell_command :=
  ShellCommand (txt name) (txt args) [] (txt desc) (txt usage) (txt cat) h false.

Definition stub (lines : list string) : shell_cmd_handler := cmd_stub (map (fun l => txt l ++ [10]) lines).

(** The registrations of the command files. *)
Definition registered_commands : list shell_command := [
  command "echo" "[text...]" "Print text to terminal" "Print text to terminal" "fs" cmd_echo;
  command "cat" "<file>" "Concatenate and print files" "Concatenate and print files" "fs" cmd_cat;
  ShellCommand (txt "ls") (txt "[path]")
    (txt "-l   Use a long listing format" ++ 10 :: txt "  -a   Do not ignore entries starting with .")
    (txt "List directory contents") (txt "Lists items in current directory or specified path.") (txt "fs") cmd_ls true;
  command "touch" "<file>" "Create empty file" "Create empty file" "fs" cmd_touch;
  command "cd" "<path>" "Change directory" "Change directory" "fs" cmd_cd;
  command "mkdir" "<dir>" "Create directory" "Create directory" "fs" cmd_mkdir;
  command "pwd" "" "Print working directory" "Print working directory" "fs" cmd_pwd;
  command "rm" "<file>" "Remove file (stub)" "Remove file (stub)" "fs" (stub ["rm: not yet implemented (requires Phase 4 VFS unlink)."]);
  command "rmdir" "<dir>" "Remove directory (stub)" "Remove directory (stub)" "fs" (stub ["rmdir: not yet implemented (requires Phase 4 VFS unlink)."]);
  command "cp" "<src> <dst>" "Copy file (stub)" "Copy file (stub)" "fs" (stub ["cp: not yet implemented (requires Phase 4 VFS read/write)."]);
  command "mv" "<src> <dst>" "Move/rename file (stub)" "Move/rename file (stub)" "fs" (stub ["mv: not yet implemented (requires Phase 4 VFS rename)."]);
  command "df" "" "Disk free space (stub)" "Disk free space (stub)" "fs" (stub ["df: not yet implemented (requires VFS/FS stat support)."]);
  command "mount" "<dev> <path>" "Mount filesystem (stub)" "Mount filesystem (stub)" "fs"
    (stub ["mount: manual mounting not yet implemented."; "       Phase 3 auto-mounts detected storage partitions at boot."]);
  command "umount" "<path>" "Unmount filesystem (stub)" "Unmount filesystem (stub)" "fs" (stub ["umount: not yet implemented."]);
  command "kill" "<pid>" "Terminate process (stub)" "Terminate process (stub)" "process" (stub ["kill: not yet implemented (requires Phase 4 scheduler)."]);
  command "ps" "" "Process list (stub)" "Process list (stub)" "process" (stub ["ps: not yet implemented (requires Phase 4 scheduler)."]);
  command "clear" "" "Clear terminal screen" "Clear terminal screen" "system" cmd_clear;
  command "dmesg" "" "Display kernel message buffer" "Display kernel message buffer" "system" cmd_dmesg;
  command "help" "[command]" "Display available commands" "Display available commands" "system" cmd_help;
  command "reboot" "" "Reboot system (STUB)" "Reboot system (Pending Phase 5 ACPI driver)" "system" cmd_reboot;
  command "shutdown" "" "Power off system" "Power off system" "system" cmd_shutdown;
  command "uname" "" "Print system information" "Print system information" "system" cmd_uname;
  command "uptime" "" "System uptime" "System uptime" "diag" cmd_uptime;
  command "free" "" "Display memory usage" "Display memory usage" "diag" cmd_free;
  command "lspci" "" "List PCI devices" "List PCI devices" "diag" cmd_lspci;
  command "colortest" "" "Terminal color test" "Terminal color test" "diag" cmd_colortest].

(** ["\033[" s]. *)
Definition esc (s : string) : list Z := ESC :: txt "[" ++ txt s.

Definition dec (v : Z) : list Z := numeral false 10 v.

Section shell.
Context {St Ops : Type} `{FS : FileSystem St Ops} `{KH : KernelHeap St}.
Context {D : Type} (display_manager_write : D -> list Z -> D).

(** The file systems with the heap, the console, and the static variables. *)
Record shell := Shell { sh_fs : St; sh_console : klog * D; cwd : list Z; cwd_node : Z }.

Definition set_fs (s : shell) (st : St) : shell := Shell st (sh_console s) (cwd s) (cwd_node s).
Definition set_console (s : shell) (k : klog * D) : shell := Shell (sh_fs s) k (cwd s) (cwd_node s).

(** [kprintf] of a formatted text: its buffer holds 1023 characters. *)
Definition kprintf_text (s : shell) (t : list Z) : shell := set_console s (kputs display_manager_write (sh_console s) (take 1023 t)).

Definition print_texts (s : shell) (ts : list (list Z)) : shell := foldl kprintf_text s ts.

Definition shell_get_cwd (s : shell) : list Z := cwd s.

Definition shell_set_cwd (s : shell) (path : list Z) (node : Z) : shell :=
  Shell (sh_fs s) (sh_console s) (take (Z.to_nat (SHELL_MAX_LINE_LEN - 1)) path) node.

(** Operations on the state of the file systems. *)
Definition on_fs {A} (s : shell) (r : option (St * A)) : option (shell * A) := '(st, a) ← r; Some (set_fs s st, a).

Definition kmalloc (s : shell) (n : Z) : option (shell * Z) := on_fs s (kh_alloc (sh_fs s) n).

Definition kfree (s : shell) (p : Z) : option shell := st ← kh_free (sh_fs s) p; Some (set_fs s st).

(** What other parts of the kernel answer, the table, and the fuel of a listing. *)
Context (vfs_root : Z) (pit_get_ticks pmm_get_total_page_count pmm_get_free_page_count : shell -> Z).
Context (pci_get_devices : shell -> list pci_device) (commands : list shell_command) (ls_fuel : nat).

Definition resolve (s : shell) (path : list Z) : option (shell * Z) := on_fs s (vfs_resolve_path vfs_root (sh_fs s) (Some path)).

Definition node_of (s : shell) (p : Z) : option (vfs_node Ops) := fs_nodes (sh_fs s) !! p.

(** ** cmds/fs *)

(** The first redirection with a word after it: the mode, [text_end] and the path. *)
Fixpoint find_redirect (args : list (list Z)) (i : Z) : option (Z * Z * list Z) :=
  match args with
  | a :: ((path :: _) as rest) =>
      if decide (a = [GREATER]) then Some (1, i, path)
      else if decide (a = [GREATER; GREATER]) then Some (2, i, path)
      else find_redirect rest (i + 1)
  | _ => None
  end.

(** [strcat] of the words, with spaces, into the 256-byte buffer. *)
Fixpoint echo_text (buf : list Z) (words : list (list Z)) : option (list Z) :=
  match words with
  | [] => Some buf
  | w :: ws =>
      b ← str_append buf w;
      match ws with [] => Some b | _ => b' ← str_append b [SPACE]; echo_text b' ws end
  end.

Definition cannot_open (path : list Z) : list Z := txt "echo: " ++ path ++ txt ": cannot open for writing" ++ [10].

Definition run_echo (s : shell) (argv : list (list Z)) : option (shell * Z) :=
  let args := tail argv in
  match find_redirect args 1 with
  | None => buf ← echo_text [] args; Some (kprintf_text s (buf ++ [10]), 0)
  | Some (mode, text_end, out_path) =>
      buf ← echo_text [] (take (Z.to_nat (text_end - 1)) args);
      path ← shell_normalize_path (cwd s) out_path;
      '(s1, found) ← resolve s path;
      '(s2, node) ← (if found =? 0 then on_fs s1 (vfs_create vfs_root (sh_fs s1) (Some path)) else Some (s1, found));
      if node =? 0 then Some (kprintf_text s2 (cannot_open path), 1)
      else
        offset ← (if mode =? 2 then n ← node_of s2 node; Some (n_length n) else Some 0);
        '(s3, wbuf) ← kmalloc s2 (alen buf + 2);
        if wbuf =? 0 then Some (s3, 1)
        else
          '(s4, _) ← on_fs s3 (vfs_write (sh_fs s3) node offset (alen buf + 1) (buf ++ [10]));
          s5 ← kfree s4 wbuf;
          Some (s5, 0)
  end.

Definition run_cat (s : shell) (argv : list (list Z)) : option (shell * Z) :=
  match argv with
  | _ :: arg :: _ =>
      path ← shell_normalize_path (cwd s) arg;
      '(s1, node) ← resolve s path;
      if node =? 0 then Some (kprintf_text s1 (txt "cat: " ++ path ++ txt ": No such file" ++ [10]), 1)
      else
        n ← node_of s1 node;
        if negb (has_flag (n_flags n) FS_FILE) then Some (kprintf_text s1 (txt "cat: " ++ arg ++ txt ": Is a directory" ++ [10]), 1)
        else
          '(s2, buf) ← kmalloc s1 (n_length n + 1);
          if buf =? 0 then Some (kprintf_text s2 (txt "cat: out of memory" ++ [10]), 1)
          else
            '(st3, nread, bytes) ← vfs_read (sh_fs s2) node 0 (n_length n);
            let s3 := set_fs s2 st3 in
            if (0 <=? nread) && (nread <=? n_length n) then
              s4 ← kfree (kprintf_text s3 (c_str (take (Z.to_nat nread) bytes) ++ [10])) buf;
              Some (s4, 0)
            else None
  | _ => Some (kprintf_text s (txt "Usage: cat <file>" ++ [10]), 1)
  end.

(** One entry of a listing; a name with a space is quoted. *)
Definition ls_entry (de : dirent) : list Z :=
  let quote := if bool_decide (SPACE ∈ d_name de) then [DOUBLE_QUOTE] else [] in
  esc (if has_flag (d_type de) FS_DIRECTORY then "1;34m" else "1;32m") ++ quote ++ d_name de ++ quote ++ esc "0m".

Fixpoint ls_loop (s : shell) (node i : Z) (first : bool) (fuel : nat) : option shell :=
  match fuel with
  | O => None
  | S fuel =>
      '(s1, de) ← on_fs s (vfs_readdir (sh_fs s) node i);
      match de with
      | None => Some s1
      | Some de =>
          let s2 := if first then s1 else kprintf_text s1 [SPACE; SPACE] in
          ls_loop (kprintf_text s2 (ls_entry de)) node (i + 1) false fuel
      end
  end.

Definition run_ls (s : shell) (argv : list (list Z)) : option (shell * Z) :=
  path ← match argv with _ :: arg :: _ => shell_normalize_path (cwd s) arg | _ => Some (cwd s) end;
  '(s1, node) ← resolve s path;
  if node =? 0 then
    Some (kprintf_text s1 (esc "1;31m" ++ txt "ls: " ++ path ++ txt ": No such file or directory" ++ esc "0m" ++ [10]), 1)
  else
    n ← node_of s1 node;
    if negb (has_flag (n_flags n) FS_DIRECTORY) then Some (kprintf_text s1 (n_name n ++ [10]), 0)
    else s2 ← ls_loop s1 node 0 true ls_fuel; Some (kprintf_text s2 [10], 0).

Definition run_touch (s : shell) (argv : list (list Z)) : option (shell * Z) :=
  match argv with
  | _ :: arg :: _ =>
      path ← shell_normalize_path (cwd s) arg;
      '(s1, existing) ← resolve s path;
      if negb (existing =? 0) then Some (s1, 0)
      else
        '(s2, node) ← on_fs s1 (vfs_create vfs_root (sh_fs s1) (Some path));
        if node =? 0 then Some (kprintf_text s2 (txt "touch: " ++ path ++ txt ": cannot create file" ++ [10]), 1)
        else Some (s2, 0)
  | _ => Some (kprintf_text s (txt "Usage: touch <file>" ++ [10]), 1)
  end.

Definition run_cd (s : shell) (argv : list (list Z)) : option (shell * Z) :=
  match argv with
  | _ :: arg :: _ =>
      path ← shell_normalize_path (cwd s) arg;
      '(s1, node) ← resolve s path;
      if node =? 0 then Some (kprintf_text s1 (txt "cd: " ++ path ++ txt ": No such directory" ++ [10]), 1)
      else
        n ← node_of s1 node;
        if negb (has_flag (n_flags n) FS_DIRECTORY) then Some (kprintf_text s1 (txt "cd: " ++ path ++ txt ": Not a directory" ++ [10]), 1)
        else Some (shell_set_cwd s1 path node, 0)
  | _ => Some (s, 0)
  end.

Definition run_mkdir (s : shell) (argv : list (list Z)) : option (shell * Z) :=
  match argv with
  | _ :: arg :: _ =>
      path ← shell_normalize_path (cwd s) arg;
      '(s1, ret) ← on_fs s (vfs_mkdir vfs_root (sh_fs s) (Some path));
      if negb (ret =? 0) then Some (kprintf_text s1 (txt "mkdir: " ++ path ++ txt ": cannot create directory" ++ [10]), 1)
      else Some (s1, 0)
  | _ => Some (kprintf_text s (txt "Usage: mkdir <path>" ++ [10]), 1)
  end.

Definition run_pwd (s : shell) : option (shell * Z) := Some (kprintf_text s (shell_get_cwd s ++ [10]), 0).

(** ** cmds/system *)

Definition run_clear (s : shell) : option (shell * Z) := Some (kprintf_text s (esc "2J" ++ esc "H"), 0).

Definition run_dmesg (s : shell) : option (shell * Z) := Some (set_console s (klog_dump display_manager_write (sh_console s)), 0).

Definition find_command (name : list Z) : option shell_command := find (fun c => bool_decide (sc_name c = name)) commands.

Definition usage_head (c : shell_command) : list Z := esc "1;36m" ++ txt "Usage:" ++ esc "0m" ++ txt " " ++ sc_name c.

(** [help] for one command. *)
Definition help_command (c : shell_command) : list (list Z) :=
  let has_options := 0 <? alen (sc_options c) in
  [usage_head c] ++
  (if has_options then [txt " [OPTIONS]"] else []) ++
  (if 0 <? alen (sc_args c) then [txt " " ++ sc_args c] else []) ++
  [[10; 10] ++ txt "  " ++ sc_usage_help c ++ [10; 10]] ++
  (if has_options then [esc "1;36m" ++ txt "Options:" ++ esc "0m" ++ [10] ++ txt "  " ++ sc_options c ++ [10; 10]] else []).

Definition help_entry (c : shell_command) : list (list Z) :=
  [txt "    " ++ esc "1;32m" ++ sc_name c ++ esc "0m"] ++ replicate (Z.to_nat (12 - alen (sc_name c))) [SPACE] ++
  [txt " - " ++ sc_description c ++ [10]].

Definition help_category (cat label : string) : list (list Z) :=
  match filter (fun c => sc_category c = txt cat) commands with
  | [] => []
  | cs => [10 :: txt "  " ++ esc "1;33m" ++ txt "[" ++ txt label ++ txt "]" ++ esc "0m" ++ [10]] ++ concat (map help_entry cs)
  end.

Definition run_help (s : shell) (argv : list (list Z)) : option (shell * Z) :=
  match argv with
  | [_; name] =>
      match find_command name with
      | Some c => Some (print_texts s (help_command c), 0)
      | None => Some (kprintf_text s (txt "help: no such documentation for '" ++ name ++ txt "'" ++ [10]), 1)
      end
  | _ =>
      Some (print_texts s ([esc "1;36m" ++ txt "NexusOS Shell Help" ++ esc "0m" ++ [10]] ++
        help_category "system" "System" ++ help_category "fs" "Filesystem" ++ help_category "diag" "Diagnostics" ++
        help_category "process" "Process" ++ [[10]]), 0)
  end.

Definition run_reboot (s : shell) : option (shell * Z) :=
  Some (print_texts s [esc "1;33m" ++ txt "[WARN] Reboot requires Phase 5 generic ACPI FADT parser." ++ esc "0m" ++ [10];
    txt "To safely restart, please close the QEMU window directly." ++ [10]], 0).

Definition run_uname (s : shell) : option (shell * Z) :=
  Some (kprintf_text s (esc "1;36m" ++ txt "NexusOS" ++ esc "0m" ++ txt " " ++ esc "1;37m" ++ txt "0.1.0-Genesis" ++ esc "0m" ++
    txt " " ++ esc "33m" ++ txt "x86_64" ++ esc "0m" ++ [10]), 0).

(** ** cmds/diag *)

Definition two (v : Z) : list Z := padded 48 2 (dec v).

Definition run_uptime (s : shell) : option (shell * Z) :=
  let ticks := pit_get_ticks s in
  let seconds := ticks / 1000 in
  let minutes := seconds / 60 in
  let hours := minutes / 60 in
  Some (kprintf_text s (txt "Uptime: " ++ dec hours ++ txt ":" ++ two (minutes mod 60) ++ txt ":" ++ two (seconds mod 60) ++
    txt " (" ++ dec ticks ++ txt " ticks)" ++ [10]), 0).

(** ["%lu.%02lu MB"]. *)
Definition megabytes (v : Z) : list Z := dec (v / 1000000) ++ txt "." ++ two (u64 (v mod 1000000 * 100) / 1000000) ++ txt " MB".

Definition run_free (s : shell) : option (shell * Z) :=
  let total := u64 (pmm_get_total_page_count s * 4096) in
  let free := u64 (pmm_get_free_page_count s * 4096) in
  let used := u64 (total - free) in
  Some (print_texts s [esc "1;37m" ++ txt "Memory Statistics:" ++ esc "0m" ++ [10];
    txt "  " ++ esc "1;32m" ++ txt "Total:" ++ esc "0m" ++ txt " " ++ megabytes total ++ [10];
    txt "  " ++ esc "1;31m" ++ txt "Used: " ++ esc "0m" ++ txt " " ++ megabytes used ++ txt " (" ++ dec (used / 1000) ++ txt " KB)" ++ [10];
    txt "  " ++ esc "1;34m" ++ txt "Free: " ++ esc "0m" ++ txt " " ++ megabytes free ++ txt " (" ++ dec (free / 1000) ++ txt " KB)" ++ [10]], 0).

Definition lspci_line (d : pci_device) : list Z :=
  txt "  " ++ esc "33m" ++ hex 2 (pd_bus d) ++ txt ":" ++ hex 2 (pd_device d) ++ txt "." ++ dec (pd_function d) ++ esc "0m" ++ txt " - " ++
  esc "1;32m" ++ txt "[" ++ hex 4 (vendor_id d) ++ txt ":" ++ hex 4 (device_id d) ++ txt "]" ++ esc "0m" ++ txt " " ++
  esc "36m" ++ txt "(class " ++ hex 2 (class_code d) ++ hex 2 (subclass_code d) ++ txt ")" ++ esc "0m" ++ txt " " ++
  (if nonzero (multi_function d) then esc "1;30m" ++ txt "(multi)" ++ esc "0m" else []) ++ [10].

Definition run_lspci (s : shell) : option (shell * Z) :=
  let devices := pci_get_devices s in
  Some (print_texts s ((esc "1;37m" ++ txt "PCI Bus Enumeration (" ++ dec (alen devices) ++ txt " devices):" ++ esc "0m" ++ [10]) ::
    map lspci_line devices), 0).

Definition color_row (base off : Z) : list (list Z) :=
  map (fun i => ESC :: txt "[" ++ dec (base + i) ++ txt "m  HEX" ++ dec (i + off) ++ txt "  " ++ esc "0m") (seqZ 0 8) ++ [[10]].

Definition run_colortest (s : shell) : option (shell * Z) :=
  Some (print_texts s ([txt "Terminal Color Test:" ++ [10]] ++ color_row 30 0 ++ color_row 90 8), 0).

(** ** Dispatch *)

(** The power-off port and the halt of [cmd_shutdown]. *)
Context (power_off : shell -> option (shell * Z)).

Definition run_shutdown (s : shell) : option (shell * Z) :=
  power_off (kprintf_text s (esc "1;31m" ++ txt "Shutdown (ACPI Virtual / hlt)." ++ esc "0m" ++ [10])).

Definition run_handler (h : shell_cmd_handler) (s : shell) (argv : list (list Z)) : option (shell * Z) :=
  match h with
  | cmd_echo => run_echo s argv
  | cmd_cat => run_cat s argv
  | cmd_ls => run_ls s argv
  | cmd_touch => run_touch s argv
  | cmd_cd => run_cd s argv
  | cmd_mkdir => run_mkdir s argv
  | cmd_pwd => run_pwd s
  | cmd_clear => run_clear s
  | cmd_dmesg => run_dmesg s
  | cmd_help => run_help s argv
  | cmd_reboot => run_reboot s
  | cmd_shutdown => run_shutdown s
  | cmd_uname => run_uname s
  | cmd_uptime => run_uptime s
  | cmd_free => run_free s
  | cmd_lspci => run_lspci s
  | cmd_colortest => run_colortest s
  | cmd_stub lines => Some (print_texts s lines, 0)
  end.

(** The documentation interceptor: one argument, "--help" or (unless the command
    keeps it) "-h". *)
Definition asks_help (c : shell_command) (argv : list (list Z)) : bool :=
  match argv with
  | [_; a] => bool_decide (a = txt "--help") || (negb (sc_no_h_help c) && bool_decide (a = txt "-h"))
  | _ => false
  end.

Definition run_command (s : shell) (argv : list (list Z)) : option (shell * Z) :=
  match find_command (default [] (head argv)) with
  | Some c =>
      if asks_help c argv then
        Some (print_texts s [usage_head c ++ txt " [OPTIONS] [ARGS]" ++ [10; 10]; txt "  " ++ sc_usage_help c ++ [10; 10]], 0)
      else run_handler (sc_handler c) s argv
  | None => Some (s, -1)
  end.

Definition not_found (name : list Z) : list Z := txt "nexus: " ++ name ++ txt ": command not found" ++ [10].

Definition shell_execute (s : shell) (line : list Z) : option (shell * Z) :=
  if alen line =? 0 then Some (s, 0)
  else
    '(s1, buf) ← kmalloc s (alen line + 1);
    '(s2, out) ← kmalloc s1 (alen line * 2 + 1);
    if (buf =? 0) || (out =? 0) then Some (s2, -1)
    else
      '(bytes, offs) ← lex_line line;
      argv ← argv_strings bytes offs;
      if alen argv =? 0 then s3 ← kfree s2 buf; s4 ← kfree s3 out; Some (s4, 0)
      else
        '(s3, ret) ← run_command s2 argv;
        let s4 := if ret =? -1 then kprintf_text s3 (not_found (default [] (head argv))) else s3 in
        s5 ← kfree s4 buf;
        s6 ← kfree s5 out;
        Some (s6, ret).

(** [shell_run] on the events that arrive: the banner, and the loop of ShellLine. *)
Definition shell_run (s : shell) (ls : line_state) (events : list input_event) : option (shell * line_state) :=
  let s1 := kprintf_text (Shell (sh_fs s) (sh_console s) (cwd s) vfs_root)
    (esc "J" ++ [10] ++ txt "Welcome to NexusOS Shell!" ++ [10] ++ txt "Type 'help' for a list of commands." ++ [10; 10]) in
  ws ← shell_prompt (fun s t => Some (kprintf_text s t)) shell_get_cwd s1 ls;
  shell_events (fun s t => Some (kprintf_text s t)) shell_execute shell_get_cwd events ws.

End shell.

Arguments shell : clear implicits.
