(* ===== verification/ShellThm.v ===== *)
(** The shell on the RAM file system: a command line that writes to a file and
    one that prints it, from the characters of the line to the bytes in the file
    and back.

    The areas that the shell holds on the heap while the file system allocates
    are framed: [reserve R] is the heap interface for everybody but the owner of
    the areas [R]. *)
From stdpp Require Import prelude gmap list strings sets.
From Stdlib Require Import ZArith Lia.
From S2P Require Import Prelude KHeap Klog Printf PrintfThm Input Vfs Ramfs Pci ShellPath ShellLine ShellLex Shell.

Open Scope Z_scope.

(** ** Framed areas *)

Section reserve.
Context {H : Type} `{KL : KernelHeapLaws H} (R : gmap Z Z).

Definition reserve_live (h : H) (L : gmap Z Z) : Prop := kh_live h (L ∪ R) /\ dom L ## dom R.

Lemma reserve_alloc h L n k :
  reserve_live h L -> 0 < n <= 2 ^ 63 -> 0 <= k -> kh_room h (kh_cost n + k) ->
  exists h' p, kh_alloc h n = Some (h', p) /\ kh_room h' k /\
    ((p = 0 /\ reserve_live h' L) \/
     (0 < p /\ L !! p = None /\ exists m, n <= m /\ reserve_live h' (<[p := m]> L))).
Proof.
  intros [Hl Hd] Hn Hk Hr. destruct (kh_alloc_law h (L ∪ R) n k Hl Hn Hk Hr) as (h' & p & E & Hr' & C). exists h', p. split; [done|]. split; [done|].
  destruct C as [[-> Hl']|(Hp & Hnone & m & Hm & Hl')]; [by left|right]. apply lookup_union_None in Hnone as [N1 N2].
  split; [done|]. split; [done|]. exists m. split; [done|]. split; [by rewrite <- insert_union_l|].
  rewrite dom_insert_L. apply not_elem_of_dom in N2. set_solver.
Qed.

Lemma reserve_free h L p m k :
  reserve_live h L -> L !! p = Some m -> kh_room h k ->
  exists h', kh_free h p = Some h' /\ reserve_live h' (delete p L) /\ kh_room h' k.
Proof.
  intros [Hl Hd] Hp Hr. destruct (kh_free_law h (L ∪ R) p m k Hl) as (h' & E & Hl' & Hr'); [by apply lookup_union_Some_l|done|].
  exists h'. split; [done|]. split; [|done]. split; [|set_solver].
  rewrite delete_union in Hl'. rewrite (delete_id R) in Hl'; [done|]. apply not_elem_of_dom. apply elem_of_dom_2 in Hp. set_solver.
Qed.

Definition reserve : KernelHeapLaws H := {|
  kh_live := reserve_live;
  kh_room := kh_room;
  kh_cost := kh_cost;
  kh_room_mono := kh_room_mono;
  kh_cost_pos := kh_cost_pos;
  kh_alloc_law := reserve_alloc;
  kh_free_law := reserve_free;
  kh_free_null := kh_free_null |}.

End reserve.

(** The heap of the file system serves the shell too. *)
#[export] Instance ramfs_heap {H : Type} `{KernelHeap H} : KernelHeap (ramfs H) := {|
  kh_alloc s n := '(h, p) ← kh_alloc (rf_heap s) n; Some (set_rf_heap s h, p);
  kh_free s p := h ← kh_free (rf_heap s) p; Some (set_rf_heap s h) |}.

Section heap.
Context {H : Type} `{KL : KernelHeapLaws H}.
Implicit Types (s : ramfs H) (R : gmap Z Z).

(** The file system is well formed, and the areas [R] are the shell's. *)
Definition ok_with R s : Prop := @ramfs_ok H _ (reserve R) s.

Lemma ok_with_empty s : ramfs_ok s <-> ok_with ∅ s.
Proof.
  split; intros [(L & HL & L1 & L2 & L3) A N Nd B I D]; (split; [|done..]); exists L; cbn in *; unfold reserve_live in *; rewrite ?map_union_empty in *.
  - split; [split; [done|set_solver]|done].
  - destruct HL as [HL _]. done.
Qed.

(** Replacing the heap by one with the same areas for the file system. *)
Lemma ok_with_heap R R' s h : ok_with R s -> (forall L, kh_live (rf_heap s) (L ∪ R) -> dom L ## dom R -> dom (rf_nodes s) ∪ dom (rf_priv s) ∪ dom (rf_data s) ⊆ dom L ->
    kh_live h (L ∪ R') /\ dom L ## dom R') -> ok_with R' (set_rf_heap s h).
Proof.
  intros [(L & [HL HD] & L1 & L2 & L3) A N Nd B I D] Hh. split; [|done..]. exists L. split; [|done]. apply Hh; [done..|set_solver].
Qed.

Lemma ramfs_kmalloc R s n k : ok_with R s -> 0 < n <= 2 ^ 63 -> 0 <= k -> kh_room (rf_heap s) (kh_cost n + k) ->
  exists h p, kh_alloc s n = Some (set_rf_heap s h, p) /\ kh_room h k /\
    ((p = 0 /\ ok_with R (set_rf_heap s h)) \/
     (0 < p /\ R !! p = None /\ exists m, ok_with (<[p := m]> R) (set_rf_heap s h))).
Proof.
  intros Ok Hn Hk Hr. pose proof Ok as [(L & [HL HD] & L1 & L2 & L3) A N Nd B I D].
  destruct (kh_alloc_law (rf_heap s) (L ∪ R) n k HL Hn Hk Hr) as (h & p & E & Hr' & C). exists h, p. cbn [kh_alloc ramfs_heap]. rewrite E. cbn [mbind option_bind].
  split; [done|]. split; [done|]. destruct C as [[-> Hl']|(Hp & Hnone & m & Hm & Hl')]; [left|right].
  - split; [done|]. split; [|done..]. exists L. done.
  - apply lookup_union_None in Hnone as [N1 N2]. split; [done|]. split; [done|]. exists m. split; [|done..]. exists L. split; [|done].
    cbn [kh_live reserve reserve_live]. split; [|rewrite dom_insert_L; apply not_elem_of_dom in N1; set_solver].
    by rewrite <- insert_union_r.
Qed.

Lemma ramfs_kfree R s p m k : ok_with (<[p := m]> R) s -> R !! p = None -> kh_room (rf_heap s) k ->
  exists h, kh_free s p = Some (set_rf_heap s h) /\ kh_room h k /\ ok_with R (set_rf_heap s h).
Proof.
  intros Ok Hp Hr. pose proof Ok as [(L & [HL HD] & L1 & L2 & L3) A N Nd B I D]. rewrite dom_insert_L in HD.
  assert (NL : L !! p = None) by (apply not_elem_of_dom; set_solver).
  destruct (kh_free_law (rf_heap s) (L ∪ <[p := m]> R) p m k HL) as (h & E & HL' & Hr'); [by rewrite lookup_union_r, lookup_insert_eq|done|].
  exists h. cbn [kh_free ramfs_heap]. rewrite E. split; [done|]. split; [done|]. split; [|done..]. exists L. split; [|done].
  split; [|set_solver]. by rewrite delete_union, delete_id, delete_insert_id in HL'.
Qed.

(** ** What a write leaves of the tree *)

Definition shape (n : ramfs_node) : ramfs_node := set_length n 0.

Definition kids (pr : ramfs_internal) : list Z * Z := (children pr, child_count pr).

(** The two states have the same nodes and entries, up to lengths and buffers. *)
Definition same_tree s s' : Prop :=
  (forall p, shape <$> rf_nodes s' !! p = shape <$> rf_nodes s !! p) /\ (forall i, kids <$> rf_priv s' !! i = kids <$> rf_priv s !! i).

Lemma same_tree_refl s : same_tree s s.
Proof. done. Qed.

Lemma same_tree_trans s1 s2 s3 : same_tree s1 s2 -> same_tree s2 s3 -> same_tree s1 s3.
Proof. intros [A1 B1] [A2 B2]. split; intros x; [by rewrite A2|by rewrite B2]. Qed.

Lemma same_tree_heap s h : same_tree s (set_rf_heap s h).
Proof. done. Qed.

Lemma store_bytes_tree s d o bs s' : store_bytes s d o bs = Some s' -> rf_nodes s' = rf_nodes s /\ rf_priv s' = rf_priv s.
Proof. unfold store_bytes. destruct bs; [by intros [= ->]|]. destruct (rf_data s !! d); [|done]. cbn [mbind option_bind]. case_bool; [|done]. by intros [= <-]. Qed.

Lemma ramfs_write_tree s p o size buf s' r : ramfs_write s p o size buf = Some (s', r) -> same_tree s s'.
Proof.
  unfold ramfs_write. destruct (_ <? _); [done|]. destruct (rf_nodes s !! p) as [n|] eqn:En; [|done]. cbn [mbind option_bind].
  destruct (negb _); [by intros [= <- _]|]. destruct (_ =? 0); [by intros [= <- _]|].
  destruct (rf_priv s !! n_impl n) as [pr|] eqn:Ep; [|done]. cbn [mbind option_bind]. set (req := u64 (o + size)).
  destruct (if capacity pr <? req then _ else _) as [[s1 ok]|] eqn:E1; [|done]. cbn [mbind option_bind].
  assert (T1 : rf_nodes s1 = rf_nodes s /\ same_tree s s1).
  { revert E1. case_bool; [|by intros [= <- _]]. unfold ramfs_realloc. destruct (kh_alloc _ _) as [[h nd]|]; [|done]. cbn [mbind option_bind].
    case_bool; [by intros [= <- _]|]. destruct (if data pr =? 0 then _ else _) as [s3|] eqn:E3; [|done]. cbn [mbind option_bind]. intros [= <- _].
    assert (T3 : rf_nodes s3 = rf_nodes s /\ rf_priv s3 = rf_priv s).
    { revert E3. case_bool; [by intros [= <-]|]. destruct (load_bytes _ _ _ _) as [old|]; [|done]. cbn [mbind option_bind].
      destruct (store_bytes _ _ _ _) as [s4|] eqn:E4; [|done]. cbn [mbind option_bind]. destruct (store_bytes_tree _ _ _ _ _ E4) as [A B].
      destruct (kh_free _ _) as [h'|]; [|done]. cbn [mbind option_bind]. by intros [= <-]. }
    destruct T3 as [A B]. cbn [rf_nodes set_rf_priv]. split; [done|]. split; [intros q; cbn; by rewrite A|].
    intros i. cbn. rewrite B. destruct (decide (i = n_impl n)) as [->|Hne]; [rewrite lookup_insert_eq, Ep; done|by rewrite lookup_insert_ne]. }
  destruct T1 as [Tn T1]. destruct ok; cbn [negb]; [|by intros [= <- _]].
  destruct (rf_priv s1 !! n_impl n) as [pr1|]; [|done]. cbn [mbind option_bind].
  destruct (store_bytes s1 _ _ _) as [s2|] eqn:E2; [|done]. cbn [mbind option_bind]. destruct (store_bytes_tree _ _ _ _ _ E2) as [A B].
  intros [= <- _]. eapply same_tree_trans; [exact T1|]. case_bool; [|by split; intros x; rewrite ?A, ?B].
  split; intros x; cbn; rewrite ?A, ?B; [|done]. rewrite Tn. destruct (decide (x = p)) as [->|Hne]; [rewrite lookup_insert_eq, En; done|by rewrite lookup_insert_ne].
Qed.

Lemma tree_node s s' p n : same_tree s s' -> rf_nodes s !! p = Some n -> exists l, rf_nodes s' !! p = Some (set_length n l).
Proof.
  intros [A _] E. specialize (A p). rewrite E in A. destruct (rf_nodes s' !! p) as [m|]; [|done].
  cbn in A. injection A as A1 A2 A3 A4 A5 A6 A7 A8 A9 A10. exists (n_length m). f_equal. destruct n, m. cbn in *. by subst.
Qed.

Lemma tree_priv s s' i pr : same_tree s s' -> rf_priv s !! i = Some pr -> exists pr', rf_priv s' !! i = Some pr' /\ children pr' = children pr /\ child_count pr' = child_count pr.
Proof.
  intros [_ B] E. specialize (B i). rewrite E in B. destruct (rf_priv s' !! i) as [pr'|]; [|done]. injection B as B1 B2. by exists pr'.
Qed.

Lemma tree_find_child s s' cs name r : same_tree s s' -> find_child s cs name = Some r -> find_child s' cs name = Some r.
Proof.
  intros T. induction cs as [|c cs IH]; cbn [find_child]; [done|]. destruct (rf_nodes s !! c) as [n|] eqn:En; [|done].
  destruct (tree_node s s' c n T En) as (l & ->). cbn [mbind option_bind set_length n_name]. case_decide; [done|by apply IH].
Qed.

Lemma tree_finddir s s' p name s1 r : same_tree s s' -> vfs_finddir s p name = Some (s1, r) -> s1 = s /\ vfs_finddir s' p name = Some (s', r).
Proof.
  intros T. unfold vfs_finddir. cbn [fs_nodes ramfs_fs]. destruct (p =? 0); [by intros [= <- <-]|].
  destruct (rf_nodes s !! p) as [n0|] eqn:E0; [|done]. destruct (tree_node s s' p n0 T E0) as (l0 & ->). cbn [mbind option_bind].
  change (mounted (set_length n0 l0)) with (mounted n0). change (n_ptr (set_length n0 l0)) with (n_ptr n0).
  set (p1 := if mounted n0 then n_ptr n0 else p). destruct (rf_nodes s !! p1) as [n|] eqn:En; [|done].
  destruct (tree_node s s' p1 n T En) as (l & E'). rewrite E'. cbn [mbind option_bind]. cbn [set_length n_flags].
  destruct (has_flag _ _); [|by intros [= <- <-]]. unfold node_op. cbn [set_length n_ops]. destruct (n_ops n); [|by intros [= <- <-]].
  cbn [op_finddir ramfs_fs]. unfold ramfs_finddir. rewrite En, E'. cbn [mbind option_bind set_length n_flags n_impl].
  assert (G : forall r0 r1 s2, (if r0 =? 0 then Some (s, 0) else c ← rf_nodes s !! r0; Some (s, if mounted c then n_ptr c else r0)) = Some (s2, r1) ->
    s2 = s /\ (if r0 =? 0 then Some (s', 0) else c ← rf_nodes s' !! r0; Some (s', if mounted c then n_ptr c else r0)) = Some (s', r1)).
  { intros q0 r1 s2. destruct (q0 =? 0); [by intros [= <- <-]|]. destruct (rf_nodes s !! q0) as [c|] eqn:Ec; [|done].
    destruct (tree_node s s' q0 c T Ec) as (lc & ->). cbn [mbind option_bind]. by intros [= <- <-]. }
  destruct (_ =? 0); [cbn [mbind option_bind]; intros E; by apply (G 0)|]. destruct (_ =? 0); [cbn [mbind option_bind]; intros E; by apply (G 0)|].
  destruct (rf_priv s !! n_impl n) as [pr|] eqn:Ep; [|done]. destruct (tree_priv s s' _ pr T Ep) as (pr' & -> & Ek1 & Ek2). cbn [mbind option_bind]. rewrite Ek1, Ek2.
  destruct (find_child s _ name) as [q1|] eqn:Ef; [|done]. rewrite (tree_find_child s s' _ name q1 T Ef). cbn [mbind option_bind]. apply G.
Qed.

Lemma tree_walk s s' cs : same_tree s s' -> forall p s1 r, walk s p cs = Some (s1, r) -> s1 = s /\ walk s' p cs = Some (s', r).
Proof.
  intros T. induction cs as [|c cs IH]; intros p s1 r; cbn [walk]; [by intros [= <- <-]|].
  destruct (vfs_finddir s p (take 127 c)) as [[s2 q]|] eqn:E; [|done]. destruct (tree_finddir s s' p _ s2 q T E) as [-> ->].
  cbn [mbind option_bind]. case_bool; [by intros [= <- <-]|]. apply IH.
Qed.

Lemma tree_top s s' f : same_tree s s' -> forall p r, top_mount s p f = Some r -> top_mount s' p f = Some r.
Proof.
  intros T. induction f as [|f IH]; intros p r; cbn [top_mount]; [done|]. case_bool; [done|]. cbn [fs_nodes ramfs_fs].
  destruct (rf_nodes s !! p) as [nd|] eqn:En; [|done]. destruct (tree_node s s' p nd T En) as (l & ->). cbn [mbind option_bind].
  change (mounted (set_length nd l)) with (mounted nd). destruct (mounted nd); [apply IH|done].
Qed.

Lemma tree_fuel s s' : same_tree s s' -> root_fuel s' = root_fuel s.
Proof.
  intros [A _]. unfold root_fuel. cbn [fs_nodes ramfs_fs]. f_equal.
  replace (map_size (rf_nodes s')) with (size (dom (rf_nodes s'))) by apply size_dom. replace (map_size (rf_nodes s)) with (size (dom (rf_nodes s))) by apply size_dom.
  f_equal. apply set_eq. intros p. rewrite !elem_of_dom. specialize (A p). destruct (rf_nodes s !! p), (rf_nodes s' !! p); cbn in A; (done || by split; intros []).
Qed.

(** Paths resolve as before. *)
Lemma tree_resolve s s' root path s1 r : same_tree s s' -> vfs_resolve_path root s (Some path) = Some (s1, r) ->
  s1 = s /\ vfs_resolve_path root s' (Some path) = Some (s', r).
Proof.
  intros T. destruct path as [|c p]; [by intros [= <- <-]|]. destruct (Z.eq_dec c SLASH) as [->|Hc].
  - assert (E : forall x, vfs_resolve_path root x (Some (SLASH :: p)) = (node ← top_mount x root (root_fuel x); walk x node (components [] p))).
    { intros x. cbn [vfs_resolve_path]. rewrite Z.eqb_refl. destruct (top_mount _ _ _) as [node|]; [|done]. cbn [mbind option_bind]. apply resolve_walk. lia. }
    rewrite !E. destruct (top_mount s root (root_fuel s)) as [t|] eqn:Et; [|done]. rewrite (tree_fuel s s' T), (tree_top s s' _ T root t Et).
    cbn [mbind option_bind]. by apply tree_walk.
  - cbn [vfs_resolve_path]. rewrite (proj2 (Z.eqb_neq c SLASH) Hc). by intros [= <- <-].
Qed.

End heap.

(** ** The two commands *)

Section commands.
Context {H : Type} `{KL : KernelHeapLaws H} {D : Type} (dmw : D -> list Z -> D).
Context (vfs_root : Z) (ticks total free : shell (ramfs H) D -> Z) (devices : shell (ramfs H) D -> list pci_device).
Context (commands : list shell_command) (ls_fuel : nat) (power_off : shell (ramfs H) D -> option (shell (ramfs H) D * Z)).
Implicit Types (s : shell (ramfs H) D) (R : gmap Z Z).

(** [s'] differs from [s] in the file system only. *)
Definition same_shell s s' : Prop := cwd s' = cwd s /\ cwd_node s' = cwd_node s.

Lemma kmalloc_spec R s n k : ok_with R (sh_fs s) -> 0 < n <= 2 ^ 63 -> 0 <= k -> kh_room (rf_heap (sh_fs s)) (kh_cost n + k) ->
  exists h p, kmalloc s n = Some (set_fs s (set_rf_heap (sh_fs s) h), p) /\ kh_room h k /\
    ((p = 0 /\ ok_with R (set_rf_heap (sh_fs s) h)) \/
     (0 < p /\ R !! p = None /\ exists m, ok_with (<[p := m]> R) (set_rf_heap (sh_fs s) h))).
Proof.
  intros Ok Hn Hk Hr. destruct (ramfs_kmalloc R (sh_fs s) n k Ok Hn Hk Hr) as (h & p & E & C). exists h, p.
  unfold kmalloc, on_fs. rewrite E. by split.
Qed.

Lemma kfree_spec R s p m k : ok_with (<[p := m]> R) (sh_fs s) -> R !! p = None -> kh_room (rf_heap (sh_fs s)) k ->
  exists h, kfree s p = Some (set_fs s (set_rf_heap (sh_fs s) h)) /\ kh_room h k /\ ok_with R (set_rf_heap (sh_fs s) h).
Proof.
  intros Ok Hp Hr. destruct (ramfs_kfree R (sh_fs s) p m k Ok Hp Hr) as (h & E & C). exists h. unfold kfree. rewrite E. by split.
Qed.

Lemma echo_text_length ws : forall b t, alen b < 256 -> echo_text b ws = Some t -> alen t < 256.
Proof.
  assert (A : forall b x t, str_append b x = Some t -> alen t < 256).
  { intros b x t. unfold str_append. destruct (Z.ltb_spec (alen b + alen x) SHELL_MAX_LINE_LEN) as [Hl|]; [|done]. intros [= <-]. by rewrite alen_cat. }
  induction ws as [|w ws IH]; intros b t Hb; cbn [echo_text]; [by intros [= <-]|].
  destruct (str_append b w) as [b1|] eqn:E1; [|done]. cbn [mbind option_bind]. apply A in E1. destruct ws as [|w2 ws]; [by intros [= <-]|].
  destruct (str_append b1 [SPACE]) as [b2|] eqn:E2; [|done]. cbn [mbind option_bind]. apply A in E2. by apply IH.
Qed.

(** The state after a write of [bytes] to the file [p] that held [c]. *)
Definition after_write (s s' : shell (ramfs H) D) (p : Z) (c bytes : list Z) (off : Z) (failed : Prop) : Prop :=
  same_tree (sh_fs s) (sh_fs s') /\ sh_console s' = sh_console s /\ same_shell s s' /\
  (forall q c', q <> p -> file (sh_fs s) q c' -> file (sh_fs s') q c') /\
  (file (sh_fs s') p (write_content c off bytes) \/ (file (sh_fs s') p c /\ (failed \/ alen c < off + alen bytes))).

Lemma file_heap (f : ramfs H) h p c : file f p c -> file (set_rf_heap f h) p c.
Proof. done. Qed.

Lemma ramfs_write_framed R (f : ramfs H) p c off buf k : ok_with R f -> file f p c -> 0 <= off -> off + alen buf + 4096 <= 2 ^ 63 -> 0 <= k ->
  kh_room (rf_heap f) (kh_cost (page_round (off + alen buf)) + k) -> kh_room (rf_heap f) k ->
  exists f' r, ramfs_write f p off (alen buf) buf = Some (f', r) /\ ok_with R f' /\ kh_room (rf_heap f') k /\ same_tree f f' /\
    (forall q c', q <> p -> file f q c' -> file f' q c') /\
    (file f' p (write_content c off buf) \/ (file f' p c /\ alen c < off + alen buf)).
Proof.
  intros Ok Hf Ho Hs Hk Hr Hrk. destruct (@ramfs_write_spec H _ (reserve R) f p c off buf k Ok Hf Ho Hs Hk Hr Hrk) as (f' & r & E & Ok' & Hr' & Hoth & C).
  exists f', r. split; [done|]. split; [done|]. split; [done|]. split; [by eapply ramfs_write_tree|]. split; [done|]. destruct C as [[_ ?]|[_ ?]]; auto.
Qed.

Lemma file_node (f : ramfs H) p c : file f p c -> exists n, rf_nodes f !! p = Some n /\ n_length n = alen c /\ has_flag (n_flags n) FS_FILE = true.
Proof.
  intros (n & pr & En & Hfl & _ & Hl & _). exists n. split; [done|]. split; [done|]. unfold has_flag. rewrite Hfl. done.
Qed.

(** [p] is a file of the RAM file system: its operations are those of ramfs.c. *)
Definition ramfs_file (f : ramfs H) (p : Z) : Prop := (fun n => n_ops n) <$> rf_nodes f !! p = Some (Some ramfs_ops).

Lemma vfs_write_ramfs (f : ramfs H) p off size buf : p <> 0 -> ramfs_file f p -> vfs_write f p off size buf = ramfs_write f p off size buf.
Proof.
  intros Hp Hf. unfold vfs_write. rewrite (proj2 (Z.eqb_neq p 0) Hp). cbn [fs_nodes ramfs_fs]. unfold ramfs_file in Hf.
  destruct (rf_nodes f !! p) as [n|] eqn:En; [|done]. cbn [mbind option_bind]. unfold node_op. injection Hf as ->. done.
Qed.

Lemma vfs_read_ramfs (f : ramfs H) p off size : p <> 0 -> ramfs_file f p -> vfs_read f p off size = ramfs_read f p off size.
Proof.
  intros Hp Hf. unfold vfs_read. rewrite (proj2 (Z.eqb_neq p 0) Hp). cbn [fs_nodes ramfs_fs]. unfold ramfs_file in Hf.
  destruct (rf_nodes f !! p) as [n|] eqn:En; [|done]. cbn [mbind option_bind]. unfold node_op. injection Hf as ->. done.
Qed.

(** [echo text > path], or [>>]. *)
Lemma echo_spec R s argv mode te out_path text path p c k :
  find_redirect (tail argv) 1 = Some (mode, te, out_path) -> echo_text [] (take (Z.to_nat (te - 1)) (tail argv)) = Some text ->
  shell_normalize_path (cwd s) out_path = Some path -> vfs_resolve_path vfs_root (sh_fs s) (Some path) = Some (sh_fs s, p) -> p <> 0 ->
  ok_with R (sh_fs s) -> file (sh_fs s) p c -> ramfs_file (sh_fs s) p ->
  let off := if mode =? 2 then alen c else 0 in
  off + 8192 <= 2 ^ 63 -> 0 <= k ->
  kh_room (rf_heap (sh_fs s)) (kh_cost (alen text + 2) + (kh_cost (page_round (off + (alen text + 1))) + k)) ->
  exists s' r, run_echo dmw vfs_root s argv = Some (s', r) /\ r <> -1 /\ ok_with R (sh_fs s') /\ kh_room (rf_heap (sh_fs s')) k /\
    after_write s s' p c (text ++ [10]) off (r = 1).
Proof.
  intros Er Et Ep Eres Hp Ok Hf Hops off Hoff Hk Hroom. pose proof (alen_nonneg text) as Ht0. pose proof (alen_nonneg c) as Hc0.
  assert (Ht : alen text < 256) by (by eapply (echo_text_length _ [] text)).
  assert (Hoff0 : 0 <= off) by (subst off; case_bool; lia).
  destruct (page_round_spec (off + (alen text + 1))) as [P1 P2]; [lia|lia|].
  pose proof (kh_cost_pos (page_round (off + (alen text + 1)))) as Hcost.
  unfold run_echo. rewrite Er, Et. cbn [mbind option_bind]. rewrite Ep. cbn [mbind option_bind]. unfold resolve, on_fs. rewrite Eres. cbn [mbind option_bind].
  assert (Es : set_fs s (sh_fs s) = s) by (by destruct s). rewrite Es. rewrite (proj2 (Z.eqb_neq p 0) Hp). cbn [mbind option_bind]. rewrite (proj2 (Z.eqb_neq p 0) Hp).
  assert (Eoff : (if mode =? 2 then n ← node_of s p; Some (n_length n) else Some 0) = Some off).
  { subst off. case_bool; [|done]. destruct (file_node _ _ _ Hf) as (n & En & El & _). unfold node_of. cbn [fs_nodes ramfs_fs]. rewrite En. cbn [mbind option_bind]. by rewrite El. }
  rewrite Eoff. cbn [mbind option_bind].
  destruct (kmalloc_spec R s (alen text + 2) (kh_cost (page_round (off + (alen text + 1))) + k) Ok) as (h & b & -> & Hr1 & C); [lia|lia|done|].
  cbn [mbind option_bind]. set (s1 := set_fs s (set_rf_heap (sh_fs s) h)). destruct C as [[-> Ok1]|(Hb & Rb & m & Ok1)].
  { rewrite Z.eqb_refl. exists s1, 1. split; [done|]. split; [done|]. split; [done|]. split; [eapply kh_room_mono; [exact Hr1|lia]|].
    split; [apply same_tree_heap|]. split; [done|]. split; [done|]. split; [done|]. right. split; [by apply file_heap|by left]. }
  rewrite (proj2 (Z.eqb_neq b 0)) by lia.
  destruct (ramfs_write_framed (<[b := m]> R) (sh_fs s1) p c off (text ++ [10]) k Ok1 (file_heap _ h p c Hf)) as (f2 & r2 & Ew & Ok2 & Hr2 & T2 & Oth & C2).
  - done.
  - rewrite alen_cat. change (alen [10]) with 1. lia.
  - done.
  - rewrite alen_cat. exact Hr1.
  - eapply kh_room_mono; [exact Hr1|lia].
  - rewrite vfs_write_ramfs by done. rewrite alen_cat in Ew. change (alen [10]) with 1 in Ew. rewrite Ew. cbn [mbind option_bind].
    destruct (kfree_spec R (set_fs s1 f2) b m k Ok2 Rb Hr2) as (h3 & -> & Hr3 & Ok3). cbn [mbind option_bind]. eexists _, 0. split; [reflexivity|]. split; [done|]. split; [done|].
    split; [done|]. split; [exact T2|]. split; [done|]. split; [done|]. split; [exact Oth|]. destruct C2 as [C2|[C2 C3]]; [by left|right]. split; [done|by right].
Qed.

(** [cat path]. *)
Lemma cat_spec R s name arg args path p c k :
  shell_normalize_path (cwd s) arg = Some path -> vfs_resolve_path vfs_root (sh_fs s) (Some path) = Some (sh_fs s, p) -> p <> 0 ->
  ok_with R (sh_fs s) -> file (sh_fs s) p c -> ramfs_file (sh_fs s) p -> alen c < 2 ^ 63 -> 0 <= k ->
  kh_room (rf_heap (sh_fs s)) (kh_cost (alen c + 1) + k) ->
  exists s' r, run_cat dmw vfs_root s (name :: arg :: args) = Some (s', r) /\ r <> -1 /\ ok_with R (sh_fs s') /\ kh_room (rf_heap (sh_fs s')) k /\
    (exists h, sh_fs s' = set_rf_heap (sh_fs s) h) /\ same_shell s s' /\
    (r = 0 -> sh_console s' = kputs dmw (sh_console s) (take 1023 (c_str c ++ [10]))) /\ (r = 0 \/ r = 1).
Proof.
  intros Ep Eres Hp Ok Hf Hops Hc Hk Hroom. pose proof (alen_nonneg c) as Hc0. unfold run_cat. rewrite Ep. cbn [mbind option_bind]. unfold resolve, on_fs. rewrite Eres. cbn [mbind option_bind].
  assert (Es : set_fs s (sh_fs s) = s) by (by destruct s). rewrite Es. rewrite (proj2 (Z.eqb_neq p 0) Hp).
  destruct (file_node _ _ _ Hf) as (n & En & El & Efl). unfold node_of. cbn [fs_nodes ramfs_fs]. rewrite En. cbn [mbind option_bind]. rewrite Efl, El. cbn [negb].
  destruct (kmalloc_spec R s (alen c + 1) k Ok) as (h & b & -> & Hr1 & C); [lia|done|done|]. cbn [mbind option_bind].
  set (s1 := set_fs s (set_rf_heap (sh_fs s) h)). destruct C as [[-> Ok1]|(Hb & Rb & m & Ok1)].
  { rewrite Z.eqb_refl. eexists _, 1. split; [reflexivity|]. split; [done|]. split; [done|]. split; [done|]. split; [by exists h|]. split; [done|]. split; [done|by right]. }
  rewrite (proj2 (Z.eqb_neq b 0)) by lia. rewrite vfs_read_ramfs by done.
  rewrite (@ramfs_read_spec H _ (reserve (<[b := m]> R)) (sh_fs s1) p c 0 (alen c) Ok1 (file_heap _ h p c Hf)) by lia. cbn [mbind option_bind].
  change (Z.to_nat 0) with 0%nat. rewrite drop_0, to_nat_alen, firstn_all. rewrite (proj2 (Z.leb_le 0 (alen c))), (proj2 (Z.leb_le (alen c) (alen c))) by lia. cbn [andb].
  rewrite to_nat_alen, firstn_all.
  destruct (kfree_spec R (kprintf_text dmw (set_fs s1 (sh_fs s1)) (c_str c ++ [10])) b m k Ok1 Rb Hr1) as (h3 & -> & Hr3 & Ok3). cbn [mbind option_bind].
  eexists _, 0. split; [reflexivity|]. split; [done|]. split; [done|]. split; [done|]. split; [by exists h3|]. split; [done|]. split; [done|by left].
Qed.

(** ** From the line to the command *)

Definition execute := shell_execute dmw vfs_root ticks total free devices commands ls_fuel power_off.

Definition run := run_command dmw vfs_root ticks total free devices commands ls_fuel power_off.

(** A line whose words are [ws]: with both buffers allocated, the command runs on
    the words, and the buffers are freed. *)
Lemma execute_spec R s line ws k : Forall (fun c => c <> 0) line -> words_of line 0 false None = ws -> 1 <= alen ws < 16 ->
  alen line <= 2 ^ 62 - 1 -> ok_with R (sh_fs s) -> 0 <= k -> kh_room (rf_heap (sh_fs s)) (kh_cost (alen line + 1) + (kh_cost (alen line * 2 + 1) + k)) ->
  exists h R', kh_room h k /\
    ((execute s line = Some (set_fs s (set_rf_heap (sh_fs s) h), -1) /\ exists R0, ok_with R0 (set_rf_heap (sh_fs s) h)) \/
     let s2 := set_fs s (set_rf_heap (sh_fs s) h) in
     ok_with R' (sh_fs s2) /\
     forall s3 r k', run s2 ws = Some (s3, r) -> r <> -1 -> ok_with R' (sh_fs s3) -> kh_room (rf_heap (sh_fs s3)) k' ->
       exists h', execute s line = Some (set_fs s3 (set_rf_heap (sh_fs s3) h'), r) /\ ok_with R (set_rf_heap (sh_fs s3) h') /\ kh_room h' k').
Proof.
  intros Hnz Ew Hws Hlen Ok Hk Hroom. pose proof (alen_nonneg line) as Hl0. unfold execute, shell_execute.
  destruct (Z.eqb_spec (alen line) 0) as [E0|_].
  { exfalso. destruct line; [cbn in Ew; subst ws; change (alen (@nil (list Z))) with 0 in Hws; lia|rewrite alen_one in E0; pose proof (alen_nonneg line); lia]. }
  pose proof (kh_cost_pos (alen line * 2 + 1) ltac:(lia)) as Hcp.
  destruct (kmalloc_spec R s (alen line + 1) (kh_cost (alen line * 2 + 1) + k) Ok) as (h1 & b1 & -> & Hr1 & C1); [lia|lia|done|]. cbn [mbind option_bind].
  set (s1 := set_fs s (set_rf_heap (sh_fs s) h1)).
  assert (A : exists R1, ok_with R1 (sh_fs s1) /\ (b1 <> 0 -> R !! b1 = None /\ exists m, R1 = <[b1 := m]> R)).
  { destruct C1 as [[-> O]|(Hb & Rb & m & O)]; [by exists R|]. exists (<[b1 := m]> R). split; [done|]. intros _. split; [done|by exists m]. }
  destruct A as (R1 & Ok1 & HR1). clear C1.
  destruct (kmalloc_spec R1 s1 (alen line * 2 + 1) k Ok1) as (h2 & b2 & -> & Hr2 & C2); [lia|done|done|]. cbn [mbind option_bind].
  destruct (Z.eqb_spec b1 0) as [->|Hb1]; cbn [orb].
  { exists h2, ∅. split; [done|]. left. split; [done|]. destruct C2 as [[_ O]|(_ & _ & m & O)]; eauto. }
  destruct C2 as [[-> Ok2]|(Hb2 & Rb2 & m2 & Ok2)]; [rewrite Z.eqb_refl; exists h2, ∅; split; [done|]; left; split; [done|by exists R1]|].
  rewrite (proj2 (Z.eqb_neq b2 0)) by lia. destruct (HR1 Hb1) as (Rb1 & m1 & ->). clear HR1.
  destruct (lex_line_words line Hnz) as (o & argv & E1 & E2); [rewrite Ew; lia|]. rewrite Ew in E2. rewrite E1. cbn [mbind option_bind]. rewrite E2. cbn [mbind option_bind].
  rewrite (proj2 (Z.eqb_neq (alen ws) 0)) by lia. exists h2, (<[b2 := m2]> (<[b1 := m1]> R)). split; [done|]. right. split; [done|].
  intros s3 r k' Erun Hr Ok3 Hr3. unfold run in Erun. change (set_fs s1 (set_rf_heap (sh_fs s1) h2)) with (set_fs s (set_rf_heap (sh_fs s) h2)).
  rewrite Erun. cbn [mbind option_bind]. rewrite (proj2 (Z.eqb_neq r (-1)) Hr).
  assert (Hne : b1 <> b2) by (intros ->; by rewrite lookup_insert_eq in Rb2). rewrite insert_insert_ne in Ok3 by done.
  destruct (kfree_spec (<[b2 := m2]> R) s3 b1 m1 k' Ok3) as (h4 & -> & Hr4 & Ok4); [by rewrite lookup_insert_ne|done|]. cbn [mbind option_bind].
  rewrite lookup_insert_ne in Rb2 by done.
  destruct (kfree_spec R (set_fs s3 (set_rf_heap (sh_fs s3) h4)) b2 m2 k' Ok4 Rb2 Hr4) as (h5 & -> & Hr5 & Ok5). cbn [mbind option_bind].
  exists h5. done.
Qed.

(** ** The table *)

Lemma find_unique {A} (f : A -> list Z) (l : list A) (x : A) : NoDup (map f l) -> x ∈ l -> find (fun y => bool_decide (f y = f x)) l = Some x.
Proof.
  induction l as [|y l IH]; intros Nd Hin; [by apply elem_of_nil in Hin|]. cbn [find map] in *. apply NoDup_cons in Nd as [Hy Nd].
  case_bool_decide as E.
  - apply elem_of_cons in Hin as [->|Hin]; [done|]. exfalso. apply Hy. rewrite E. apply list_elem_of_In, in_map, list_elem_of_In. done.
  - apply elem_of_cons in Hin as [->|Hin]; [done|]. by apply IH.
Qed.

Lemma registered_names : NoDup (map sc_name registered_commands).
Proof. apply (bool_decide_unpack _). vm_compute. exact I. Qed.

Context (table : commands ≡ₚ registered_commands).

(** Whatever the order in which the linker places the commands. *)
Lemma find_registered c : c ∈ registered_commands -> find_command commands (sc_name c) = Some c.
Proof.
  intros Hin. apply find_unique; [|by rewrite table].
  rewrite (Permutation_map sc_name table). exact registered_names.
Qed.

Lemma run_echo_found s ws : head ws = Some (txt "echo") -> asks_help (command "echo" "[text...]" "Print text to terminal" "Print text to terminal" "fs" cmd_echo) ws = false ->
  run s ws = run_echo dmw vfs_root s ws.
Proof.
  intros Hh Ha. unfold run, run_command. rewrite Hh. cbn [from_option id].
  pose proof (find_registered (command "echo" "[text...]" "Print text to terminal" "Print text to terminal" "fs" cmd_echo) ltac:(apply elem_of_cons; by left)) as F.
  change (sc_name _) with (txt "echo") in F. rewrite F, Ha. done.
Qed.

Lemma run_cat_found s ws : head ws = Some (txt "cat") -> asks_help (command "cat" "<file>" "Concatenate and print files" "Concatenate and print files" "fs" cmd_cat) ws = false ->
  run s ws = run_cat dmw vfs_root s ws.
Proof.
  intros Hh Ha. unfold run, run_command. rewrite Hh. cbn [from_option id].
  pose proof (find_registered (command "cat" "<file>" "Concatenate and print files" "Concatenate and print files" "fs" cmd_cat) ltac:(apply elem_of_cons; right; apply elem_of_cons; by left)) as F.
  change (sc_name _) with (txt "cat") in F. rewrite F, Ha. done.
Qed.

(** ** Writing and printing *)

(** [line] redirects [text] to [out_path], replacing from the start (mode 1) or
    appending (mode 2). *)
Definition echo_line (line : list Z) (mode : Z) (text out_path : list Z) : Prop :=
  Forall (fun c => c <> 0) line /\ alen (words_of line 0 false None) < 16 /\ head (words_of line 0 false None) = Some (txt "echo") /\
  exists te, find_redirect (tail (words_of line 0 false None)) 1 = Some (mode, te, out_path) /\
    echo_text [] (take (Z.to_nat (te - 1)) (tail (words_of line 0 false None))) = Some text.

Definition cat_line (line arg : list Z) : Prop :=
  Forall (fun c => c <> 0) line /\ words_of line 0 false None = [txt "cat"; arg] /\ arg <> txt "--help" /\ arg <> txt "-h".

Lemma redirect_long args i r : find_redirect args i = Some r -> (2 <= length args)%nat.
Proof. destruct args as [|a [|b args]]; cbn; [done|done|lia]. Qed.

Lemma echo_line_no_help line mode text out_path c : echo_line line mode text out_path -> asks_help c (words_of line 0 false None) = false /\ 1 <= alen (words_of line 0 false None).
Proof.
  intros (_ & _ & Hh & te & Er & _). apply redirect_long in Er. destruct (words_of line 0 false None) as [|w [|a [|b ws]]]; cbn [tail length] in Er; try lia.
  split; [done|]. unfold alen. cbn [length]. lia.
Qed.

(** The room that the two command lines take at most. *)
Definition echo_cost (line text : list Z) (off : Z) : Z :=
  kh_cost (alen line + 1) + (kh_cost (alen line * 2 + 1) + (kh_cost (alen text + 2) + kh_cost (page_round (off + (alen text + 1))))).

Definition cat_cost (line c : list Z) : Z := kh_cost (alen line + 1) + (kh_cost (alen line * 2 + 1) + kh_cost (alen c + 1)).

Lemma cat_line_spec s line arg path p c k : cat_line line arg -> alen line <= 2 ^ 62 - 1 ->
  shell_normalize_path (cwd s) arg = Some path -> vfs_resolve_path vfs_root (sh_fs s) (Some path) = Some (sh_fs s, p) -> p <> 0 ->
  ok_with ∅ (sh_fs s) -> file (sh_fs s) p c -> ramfs_file (sh_fs s) p -> alen c < 2 ^ 63 -> 0 <= k ->
  kh_room (rf_heap (sh_fs s)) (cat_cost line c + k) ->
  exists s' r, execute s line = Some (s', r) /\
    (exists h, sh_fs s' = set_rf_heap (sh_fs s) h) /\ (r = 0 -> sh_console s' = kputs dmw (sh_console s) (take 1023 (c_str c ++ [10]))).
Proof.
  intros (Hnz & Ew & Hh1 & Hh2) Hl Ep Eres Hp Ok Hf Hops Hc Hk Hroom. pose proof (alen_nonneg line). pose proof (alen_nonneg c).
  pose proof (kh_cost_pos (alen c + 1) ltac:(lia)) as Hcc.
  destruct (execute_spec ∅ s line [txt "cat"; arg] (kh_cost (alen c + 1) + k)) as (h & R' & Hr & C);
    [done|done|by vm_compute|done|done|lia|eapply kh_room_mono; [exact Hroom|unfold cat_cost; lia]|].
  destruct C as [[E _]|(Ok2 & Run)].
  - rewrite E. eexists _, (-1). split; [reflexivity|]. split; [by exists h|done].
  - set (s2 := set_fs s (set_rf_heap (sh_fs s) h)) in *.
    destruct (tree_resolve (sh_fs s) (sh_fs s2) vfs_root path _ _ (same_tree_heap _ h) Eres) as [_ Eres2].
    destruct (cat_spec R' s2 (txt "cat") arg [] path p c k Ep Eres2 Hp Ok2) as (s3 & r & E3 & Hr1 & Ok3 & Hr3 & (h3 & Eh3) & _ & Hcon & _); [done..|].
    destruct (Run s3 r k) as (h' & E' & _); [|done|done|done|].
    { rewrite run_cat_found; [exact E3|done|]. cbn [asks_help]. rewrite !bool_decide_eq_false_2 by done. by rewrite andb_false_r. }
    rewrite E'. eexists _, r. split; [reflexivity|]. split; [exists h'; cbn; by rewrite Eh3|]. intros H0'. cbn. by apply Hcon.
Qed.

(** Two command lines: [echo text > path] (or [>>]) and [cat path], the paths
    spelled in any way that normalises to the same file [p], which holds [c].  The
    first stores the text and a newline over the start of the file, or behind its
    end, by way of the tokenizer, the path resolution, the heap and the RAM file
    system, and leaves every other file; the second prints exactly what the file
    now holds (up to a NUL and to the 1023 characters of a [kprintf]).  Either may
    instead fail for lack of memory: then its result is not 0, or, when the file
    could not grow, the contents are the old ones. *)
Theorem shell_write_then_print s line1 line2 mode text out_path arg path p c k :
  echo_line line1 mode text out_path -> cat_line line2 arg -> alen line1 <= 2 ^ 62 - 1 -> alen line2 <= 2 ^ 62 - 1 ->
  shell_normalize_path (cwd s) out_path = Some path -> shell_normalize_path (cwd s) arg = Some path ->
  vfs_resolve_path vfs_root (sh_fs s) (Some path) = Some (sh_fs s, p) -> p <> 0 ->
  ramfs_ok (sh_fs s) -> file (sh_fs s) p c -> ramfs_file (sh_fs s) p -> alen c + 8192 <= 2 ^ 63 -> 0 <= k ->
  let off := if mode =? 2 then alen c else 0 in
  let c1 := write_content c off (text ++ [10]) in
  kh_room (rf_heap (sh_fs s)) (echo_cost line1 text off + Z.max (cat_cost line2 c) (cat_cost line2 c1) + k) ->
  exists s1 r1, execute s line1 = Some (s1, r1) /\
    (r1 = 0 -> exists s2 r2 c', execute s1 line2 = Some (s2, r2) /\
      (c' = c1 \/ (c' = c /\ alen c < off + alen (text ++ [10]))) /\ file (sh_fs s2) p c' /\
      (forall q d, q <> p -> file (sh_fs s) q d -> file (sh_fs s2) q d) /\
      (r2 = 0 -> sh_console s2 = kputs dmw (sh_console s) (take 1023 (c_str c' ++ [10])))).
Proof.
  intros He Hcat Hl1 Hl2 Ep1 Ep2 Eres Hp Ok Hf Hops Hc Hk off c1 Hroom.
  pose proof (echo_line_no_help line1 mode text out_path (command "echo" "[text...]" "Print text to terminal" "Print text to terminal" "fs" cmd_echo) He) as [Hnh Hws].
  destruct He as (Hnz & Hw16 & Hhd & te & Er & Et). pose proof (alen_nonneg line1). pose proof (alen_nonneg line2). pose proof (alen_nonneg c). pose proof (alen_nonneg text).
  assert (Ht : alen text < 256) by (by eapply (echo_text_length _ [] text)).
  assert (Hoff : 0 <= off <= alen c) by (subst off; case_bool; lia).
  set (K := Z.max (cat_cost line2 c) (cat_cost line2 c1) + k).
  assert (Hlc1 : alen c1 < 2 ^ 63) by (subst c1; rewrite alen_write_content, alen_cat by lia; change (alen [10]) with 1; lia).
  pose proof (alen_nonneg c1).
  assert (HK : 0 <= K).
  { subst K. unfold cat_cost. pose proof (kh_cost_pos (alen line2 + 1) ltac:(lia)). pose proof (kh_cost_pos (alen line2 * 2 + 1) ltac:(lia)). pose proof (kh_cost_pos (alen c + 1) ltac:(lia)). lia. }
  destruct (page_round_spec (off + (alen text + 1))) as [P1 P2]; [lia|lia|].
  pose proof (kh_cost_pos (page_round (off + (alen text + 1))) ltac:(lia)) as Hc1. pose proof (kh_cost_pos (alen text + 2) ltac:(lia)) as Hc2.
  apply ok_with_empty in Ok.
  destruct (execute_spec ∅ s line1 (words_of line1 0 false None) (kh_cost (alen text + 2) + (kh_cost (page_round (off + (alen text + 1))) + K))) as (h & R' & Hr & C);
    [done|done|lia|done|done|lia|eapply kh_room_mono; [exact Hroom|unfold echo_cost; lia]|].
  destruct C as [[E _]|(Ok2 & Run)]; [rewrite E; by eexists _, (-1)|].
  set (s2 := set_fs s (set_rf_heap (sh_fs s) h)) in *.
  destruct (tree_resolve (sh_fs s) (sh_fs s2) vfs_root path _ _ (same_tree_heap _ h) Eres) as [_ Eres2].
  destruct (echo_spec R' s2 (words_of line1 0 false None) mode te out_path text path p c K Er Et Ep1 Eres2 Hp Ok2 (file_heap _ h p c Hf) Hops) as (s3 & r & E3 & Hr1 & Ok3 & Hr3 & W);
    [fold off; lia|done|exact Hr|].
  destruct (Run s3 r K) as (h' & E' & Ok' & Hr'); [by rewrite run_echo_found|done|done|done|].
  rewrite E'. exists (set_fs s3 (set_rf_heap (sh_fs s3) h')), r. split; [done|]. intros ->.
  destruct W as (T & Econ & (Ecwd & _) & Hoth & Hfile). fold off in Hfile.
  assert (F : exists c', (c' = c1 \/ (c' = c /\ alen c < off + alen (text ++ [10]))) /\ file (sh_fs s3) p c').
  { destruct Hfile as [Hfile|[Hfile [?|Hs]]]; [exists c1; auto|done|exists c; auto]. }
  destruct F as (c' & Hc' & Hf'). clear Hfile.
  set (s4 := set_fs s3 (set_rf_heap (sh_fs s3) h')) in *.
  assert (T4 : same_tree (sh_fs s) (sh_fs s4)) by (eapply same_tree_trans; [exact T|apply same_tree_heap]).
  destruct (tree_resolve (sh_fs s) (sh_fs s4) vfs_root path _ _ T4 Eres) as [_ Eres4].
  assert (Hops4 : ramfs_file (sh_fs s4) p).
  { unfold ramfs_file in *. destruct (rf_nodes (sh_fs s) !! p) as [n|] eqn:En; [|done]. destruct (tree_node _ _ p n T4 En) as (l & ->). done. }
  destruct (cat_line_spec s4 line2 arg path p c' k Hcat Hl2) as (s5 & r5 & E5 & (h5 & Eh5) & Hcon); try done.
  - cbn. by rewrite Ecwd.
  - destruct Hc' as [->|[-> _]]; lia.
  - eapply kh_room_mono; [exact Hr'|]. subst K. destruct Hc' as [->|[-> _]]; lia.
  - exists s5, r5, c'. split; [done|]. split; [done|]. split; [rewrite Eh5; exact Hf'|]. split.
    + intros q d Hq Hd. rewrite Eh5. apply Hoth; [done|]. exact Hd.
    + intros H0'. rewrite (Hcon H0'). cbn. by rewrite Econ.
Qed.

End commands.

(** ** A session on the file system of Ramfs, with the file /tmp/a *)

Definition demo_shell : shell (ramfs Z) (list (list Z)) := Shell demo1 (klog_static, []) (txt "/tmp") 5552.

Definition demo_execute (s : shell (ramfs Z) (list (list Z))) (line : string) : option (shell (ramfs Z) (list (list Z)) * Z) :=
  execute (fun d t => d ++ [t]) 4096 (fun _ => 0) (fun _ => 0) (fun _ => 0) (fun _ => []) registered_commands 65 (fun _ => None) s (txt line).

(** What a session prints. *)
Fixpoint session (s : shell (ramfs Z) (list (list Z))) (lines : list string) : option (list (list Z)) :=
  match lines with
  | [] => Some (sh_console s).2
  | l :: lines => '(s', _) ← demo_execute s l; session s' lines
  end.

Lemma txt_nonzero (l : list Z) : forallb (fun c => negb (c =? 0)) l = true -> Forall (fun c => c <> 0) l.
Proof. rewrite forallb_forall. intros E. apply Forall_forall. intros c Hc. apply list_elem_of_In, E in Hc. by destruct (Z.eqb_spec c 0). Qed.

Lemma shell_write_then_print_witness :
  exists s1 s2, demo_execute demo_shell "echo hello 'big  world' > ../tmp/./a" = Some (s1, 0) /\ demo_execute s1 "cat a" = Some (s2, 0) /\
    (sh_console s2).2 = [txt "hello big  world" ++ [10; 10]].
Proof.
  destruct (shell_write_then_print (fun d t => d ++ [t]) 4096 (fun _ => 0) (fun _ => 0) (fun _ => 0) (fun _ => []) registered_commands 65 (fun _ => None)
    (Permutation_refl _) demo_shell (txt "echo hello 'big  world' > ../tmp/./a") (txt "cat a") 1 (txt "hello big  world") (txt "../tmp/./a") (txt "a") (txt "/tmp/a") 7008 [] 0)
    as (s1 & r1 & E1 & C).
  - split; [apply txt_nonzero; vm_compute; reflexivity|]. split; [vm_compute; reflexivity|]. split; [vm_compute; reflexivity|].
    exists 3. split; vm_compute; reflexivity.
  - split; [apply txt_nonzero; vm_compute; reflexivity|]. split; [vm_compute; reflexivity|]. split; vm_compute; discriminate.
  - vm_compute. discriminate.
  - vm_compute. discriminate.
  - vm_compute. reflexivity.
  - vm_compute. reflexivity.
  - vm_compute. reflexivity.
  - done.
  - apply demo1_ok.
  - apply demo1_ok.
  - vm_compute. reflexivity.
  - vm_compute. discriminate.
  - lia.
  - exact I.
  - assert (R1 : snd <$> demo_execute demo_shell "echo hello 'big  world' > ../tmp/./a" = Some 0) by (vm_compute; reflexivity).
    unfold demo_execute in R1. rewrite E1 in R1. injection R1 as ->. destruct (C eq_refl) as (s2 & r2 & c' & E2 & Hc' & _ & _ & Hcon).
    assert (R2 : ('(s1, _) ← demo_execute demo_shell "echo hello 'big  world' > ../tmp/./a"; '(s2, r) ← demo_execute s1 "cat a"; Some (r, (sh_console s2).2)) =
      Some (0, [txt "hello big  world" ++ [10; 10]])) by (vm_compute; reflexivity).
    unfold demo_execute in R2. rewrite E1 in R2. cbn [mbind option_bind] in R2. rewrite E2 in R2. cbn [mbind option_bind] in R2. injection R2 as -> R2.
    exists s1, s2. split; [exact E1|]. split; [exact E2|exact R2].
Defined.

(** ">" does not truncate: a shorter text leaves the end of the old contents. *)
Example redirect_does_not_truncate :
  session demo_shell ["echo abcdef > a"; "echo xy > a"; "cat a"] = Some [txt "xy" ++ [10] ++ txt "def" ++ [10; 10]].
Proof. vm_compute. reflexivity. Qed.

(** Directories, relative paths and listings. *)
Example session_directories :
  session demo_shell ["mkdir d"; "cd d/../d"; "touch 'x y'"; "pwd"; "ls"; "cat ../d"; "nosuch -h"] =
    Some [txt "/tmp/d" ++ [10]; esc "1;32m" ++ [34] ++ txt "x y" ++ [34] ++ esc "0m"; [10]; txt "cat: ../d: Is a directory" ++ [10];
      txt "nexus: nosuch: command not found" ++ [10]].
Proof. vm_compute. reflexivity. Qed.

(** [echo] reports success although the sixteenth word, here the path, was cut to
    one character: the text lands in another file. *)
Example redirect_to_cut_path :
  session demo_shell ["echo 1 2 3 4 5 6 7 8 9 a b c d > other"; "cat o"] = Some [txt "1 2 3 4 5 6 7 8 9 a b c d" ++ [10; 10]].
Proof. vm_compute. reflexivity. Qed.

(** A first word that is ">" alone, and a command that only looks like one. *)
Example session_not_found :
  session demo_shell [">"; "  "; "''"] = Some [txt "nexus: >: command not found" ++ [10]; txt "nexus: : command not found" ++ [10]].
Proof. vm_compute. reflexivity. Qed.
