(* ===== verification/LibcHeap.v ===== *)
(** The user allocator, userspace/libc/src/stdlib.c: [libc_sbrk], [malloc], [free],
    [calloc], [realloc].

    The kernel's side is an interface, the system call brk.  Headers are objects in
    a map by address; the bytes between them are memory that reads as zero until
    written, accessible below the break the library has asked for. *)
From stdpp Require Import prelude gmap list.
From Stdlib Require Import ZArith Lia.
From S2P Require Import Prelude.

Open Scope Z_scope.

(** [__syscall1(SYS_BRK, a)]. *)
Class Brk (W : Type) := { os_brk : W -> Z -> option (W * Z) }.

(** The address space ends below here. *)
Definition USER_LIMIT : Z := 2 ^ 47 - 4096.

(** A break that moves up to the request or is refused. *)
Class BrkLaws (W : Type) `{Brk W} := {
  brk_ok : W -> Prop;
  brk_base : W -> Z;
  brk_end : W -> Z;
  brk_bounds w : brk_ok w -> 0 < brk_base w <= brk_end w /\ brk_end w <= 2 ^ 47;
  brk_query w : brk_ok w -> exists w', os_brk w 0 = Some (w', brk_end w) /\ brk_ok w' /\ brk_base w' = brk_base w /\ brk_end w' = brk_end w;
  brk_move w a : brk_ok w -> brk_base w <= a <= USER_LIMIT ->
    exists w' r, os_brk w a = Some (w', r) /\ brk_ok w' /\ brk_base w' = brk_base w /\
      ((a <= r /\ brk_end w' = r) \/ (0 <= r < a /\ brk_end w' = brk_end w)) }.

Record malloc_header := Header { h_size : Z; h_free : Z; h_next : Z }.

Definition sizeof_header : Z := 24.

(** The static variables, the headers and the bytes. *)
Record libc_heap := LibcHeap {
  heap_base : Z;
  heap_cur : Z;
  heap_head : Z;
  headers : gmap Z malloc_header;
  bytes : gmap Z Z }.

Definition heap_start : libc_heap := LibcHeap 0 0 0 ∅ ∅.

Definition set_headers (l : libc_heap) (hs : gmap Z malloc_header) : libc_heap :=
  LibcHeap (heap_base l) (heap_cur l) (heap_head l) hs (bytes l).

(** Bytes of the heap. *)
Definition accessible (l : libc_heap) (a : Z) : bool := (heap_base l <=? a) && (a <? heap_cur l).

Definition byte_at (l : libc_heap) (a : Z) : Z := default 0 (bytes l !! a).

Definition load (l : libc_heap) (a : Z) : option Z := if accessible l a then Some (byte_at l a) else None.

Definition store (l : libc_heap) (a v : Z) : option libc_heap :=
  if accessible l a then Some (LibcHeap (heap_base l) (heap_cur l) (heap_head l) (headers l) (<[a := v]> (bytes l))) else None.

(** [while (n--) *p++ = c;]. *)
Fixpoint fill (l : libc_heap) (p c : Z) (n : nat) : option libc_heap :=
  match n with O => Some l | S n => l' ← store l p c; fill l' (p + 1) c n end.

(** [while (n--) *d++ = *s++;]. *)
Fixpoint copy (l : libc_heap) (d s : Z) (n : nat) : option libc_heap :=
  match n with O => Some l | S n => c ← load l s; l' ← store l d c; copy l' (d + 1) (s + 1) n end.

(** [(size + 15) & ~15ULL]. *)
Definition align16 (size : Z) : Z := Z.ldiff (u64 (size + 15)) 15.

(** The first free block that is large enough, 0 when there is none. *)
Fixpoint find_free (hs : gmap Z malloc_header) (h size : Z) (fuel : nat) : option Z :=
  if h =? 0 then Some 0
  else
    match fuel with
    | O => None
    | S fuel =>
        b ← hs !! h;
        if nonzero (h_free b) && (size <=? h_size b) then Some h else find_free hs (h_next b) size fuel
    end.

Section libc.
Context {W : Type} `{Brk W}.

Definition lib : Type := libc_heap * W.

(** [(void * )-1]. *)
Definition MINUS_ONE : Z := 2 ^ 64 - 1.

(** [if (heap_base == 0) { ... }]: the heap begins at the break of the process. *)
Definition first_break (st : lib) : option lib :=
  if heap_base st.1 =? 0 then
    '(w', r) ← os_brk st.2 0;
    Some (LibcHeap (u64 r) (u64 r) (heap_head st.1) (headers st.1) (bytes st.1), w')
  else Some st.

Definition libc_sbrk (st : lib) (increment : Z) : option (lib * Z) :=
  '(l, w) ← first_break st;
  let new_end := u64 (heap_cur l + increment) in
  '(w', r) ← os_brk w new_end;
  if u64 r <? new_end then Some ((l, w'), MINUS_ONE)
  else Some ((LibcHeap (heap_base l) new_end (heap_head l) (headers l) (bytes l), w'), heap_cur l).

Definition malloc (st : lib) (size : Z) : option (lib * Z) :=
  if size =? 0 then Some (st, 0)
  else
    let size := align16 size in
    let '(l, w) := st in
    h ← find_free (headers l) (heap_head l) size (map_size (headers l));
    if negb (h =? 0) then
      b ← headers l !! h;
      Some ((set_headers l (<[h := Header (h_size b) 0 (h_next b)]> (headers l)), w), u64 (h + sizeof_header))
    else
      '(st', new) ← libc_sbrk st (u64 (sizeof_header + size));
      if new =? MINUS_ONE then Some (st', 0)
      else
        let '(l', w') := st' in
        Some ((LibcHeap (heap_base l') (heap_cur l') new (<[new := Header size 0 (heap_head l')]> (headers l')) (bytes l'), w'),
          u64 (new + sizeof_header)).

Definition free (st : lib) (ptr : Z) : option lib :=
  if ptr =? 0 then Some st
  else
    let h := ptr - sizeof_header in
    b ← headers st.1 !! h;
    Some (set_headers st.1 (<[h := Header (h_size b) 1 (h_next b)]> (headers st.1)), st.2).

Definition calloc (st : lib) (nmemb size : Z) : option (lib * Z) :=
  let n := u64 (nmemb * size) in
  '(st', p) ← malloc st n;
  if p =? 0 then Some (st', 0) else l ← fill st'.1 p 0 (Z.to_nat n); Some ((l, st'.2), p).

Definition realloc (st : lib) (ptr size : Z) : option (lib * Z) :=
  if ptr =? 0 then malloc st size
  else
    h ← headers st.1 !! (ptr - sizeof_header);
    if size <=? h_size h then Some (st, ptr)
    else
      '(st1, new) ← malloc st size;
      if new =? 0 then Some (st1, 0)
      else
        h1 ← headers st1.1 !! (ptr - sizeof_header);
        l ← copy st1.1 new ptr (Z.to_nat (h_size h1));
        st2 ← free (l, st1.2) ptr;
        Some (st2, new).

(** ** What a program asks of the library *)

Inductive request :=
| Malloc (n : Z)
| Free (p : Z)
| Calloc (nmemb size : Z)
| Realloc (p n : Z)
| Store (p i v : Z)
| Load (p i : Z).

(** A request and its result; a store and a free have none. *)
Definition libc_call (rq : request) (st : lib) : option (lib * Z) :=
  match rq with
  | Malloc n => malloc st n
  | Free p => st' ← free st p; Some (st', 0)
  | Calloc a b => calloc st a b
  | Realloc p n => realloc st p n
  | Store p i v => l ← store st.1 (p + i) v; Some ((l, st.2), 0)
  | Load p i => v ← load st.1 (p + i); Some (st, v)
  end.

End libc.

Arguments lib : clear implicits.
