(* ===== verification/LibcHeapThm.v ===== *)
(** The user allocator refines a map of disjoint areas with their contents, over
    any kernel that keeps the contract of brk; the kernel of Syscall.v does. *)
From stdpp Require Import prelude gmap list.
From Stdlib Require Import ZArith Lia.
From S2P Require Import Prelude Bitmap Pmm Frames Vmm Heap Task Sched KHeap Vfs Ramfs Process ProcessDemo Elf Syscall SyscallThm LibcHeap.

Open Scope Z_scope.

(** ** The specification *)

(** The areas in use: address and contents. *)
Notation areas := (gmap Z (list Z)).

Definition separated (A : areas) : Prop :=
  forall p q c d, A !! p = Some c -> A !! q = Some d -> p <> q -> p + alen c <= q \/ q + alen d <= p.

(** What a program may ask. *)
Definition allowed (A : areas) (rq : request) : Prop :=
  match rq with
  | Malloc n => 0 <= n
  | Free p => p = 0 \/ is_Some (A !! p)
  | Calloc a b => 0 <= a /\ 0 <= b
  | Realloc p n => 0 <= n /\ (p = 0 \/ is_Some (A !! p))
  | Store p i _ | Load p i => exists c, A !! p = Some c /\ 0 <= i < alen c
  end.

(** The bytes it asks for. *)
Definition wanted (rq : request) : Z :=
  match rq with Malloc n | Realloc _ n => n | Calloc a b => a * b | _ => 0 end.

(** A new area. *)
Definition added (A : areas) (n p : Z) (c : list Z) : Prop := p <> 0 /\ A !! p = None /\ n <= alen c.

(** Result and areas after a request; [refused] says that the kernel can refuse
    memory at all. *)
Inductive answers (refused : Prop) (A : areas) : request -> Z -> areas -> Prop :=
| ans_none rq : wanted rq = 0 \/ refused -> (forall p, rq <> Free p) -> (forall p i v, rq <> Store p i v) -> (forall p i, rq <> Load p i) ->
    answers refused A rq 0 A
| ans_malloc n p c : added A n p c -> answers refused A (Malloc n) p (<[p := c]> A)
| ans_calloc a b p c : added A (a * b) p c -> take (Z.to_nat (a * b)) c = replicate (Z.to_nat (a * b)) 0 ->
    answers refused A (Calloc a b) p (<[p := c]> A)
| ans_free p : answers refused A (Free p) 0 (delete p A)
| ans_first n p c : added A n p c -> answers refused A (Realloc 0 n) p (<[p := c]> A)
| ans_stays p n c : A !! p = Some c -> n <= alen c -> answers refused A (Realloc p n) p A
| ans_moves p n c q d : A !! p = Some c -> added A n q d -> take (length c) d = c ->
    answers refused A (Realloc p n) q (<[q := d]> (delete p A))
| ans_store p i v c : A !! p = Some c -> answers refused A (Store p i v) 0 (<[p := aset c i v]> A)
| ans_load p i c : A !! p = Some c -> answers refused A (Load p i) (aget 0 c i) A.

(** ** The representation *)

(** Blocks from the newest, at [hi], down to [lo]: they tile the heap. *)
Fixpoint tiled (hs : gmap Z malloc_header) (l : list Z) (hi lo : Z) : Prop :=
  match l with
  | [] => hi = lo
  | x :: l => exists b, hs !! x = Some b /\ 0 <= h_size b /\ hi = x + sizeof_header + h_size b /\ tiled hs l x lo
  end.

(** The bytes of the block at [x], when it is in use. *)
Definition contents (l : libc_heap) (p n : Z) : list Z := (fun i => byte_at l (p + i)) <$> seqZ 0 n.

Definition area_at (l : libc_heap) (p : Z) : option (list Z) :=
  b ← headers l !! (p - sizeof_header); if h_free b =? 0 then Some (contents l p (h_size b)) else None.

Lemma tiled_in hs l : forall hi lo x, tiled hs l hi lo -> x ∈ l ->
  exists b, hs !! x = Some b /\ 0 <= h_size b /\ lo <= x /\ x + sizeof_header + h_size b <= hi.
Proof.
  induction l as [|y l IH]; intros hi lo x T Hx; [by apply elem_of_nil in Hx|]. destruct T as (b & E & Hs & -> & T).
  assert (Hlo : lo <= y).
  { clear -T. revert y T. induction l as [|z l IHl]; intros y T; cbn in T; [lia|]. destruct T as (b & _ & ? & -> & T).
    apply IHl in T. unfold sizeof_header. lia. }
  apply elem_of_cons in Hx as [->|Hx]; [by exists b|]. destruct (IH _ _ _ T Hx) as (b' & E' & ? & ? & ?).
  exists b'. unfold sizeof_header in *. split_and!; [done|lia..].
Qed.

Lemma tiled_apart hs l : forall hi lo x y bx by_, tiled hs l hi lo -> x ∈ l -> y ∈ l -> x <> y -> hs !! x = Some bx -> hs !! y = Some by_ ->
  x + sizeof_header + h_size bx <= y \/ y + sizeof_header + h_size by_ <= x.
Proof.
  induction l as [|z l IH]; intros hi lo x y bx by_ T Hx Hy Hne Ex Ey; [by apply elem_of_nil in Hx|]. pose proof T as (b & E & Hs & -> & T').
  apply elem_of_cons in Hx as [->|Hx]; apply elem_of_cons in Hy as [->|Hy]; [done|..|by eapply IH].
  - right. destruct (tiled_in _ _ _ _ _ T' Hy) as (b' & E' & ? & ? & ?). simplify_eq. lia.
  - left. destruct (tiled_in _ _ _ _ _ T' Hx) as (b' & E' & ? & ? & ?). simplify_eq. lia.
Qed.

Lemma tiled_agree hs hs' l : forall hi lo, (forall x, x ∈ l -> h_size <$> hs' !! x = h_size <$> hs !! x) ->
  tiled hs l hi lo -> tiled hs' l hi lo.
Proof.
  induction l as [|y l IH]; intros hi lo Ha; [done|]. intros (b & E & Hs & -> & T). pose proof (Ha y ltac:(by left)) as Hy. rewrite E in Hy.
  destruct (hs' !! y) as [b'|] eqn:E'; [|done]. injection Hy as Hy. exists b'. rewrite Hy. split_and!; [done..|].
  apply IH; [|done]. intros x Hx. apply Ha. by right.
Qed.

Lemma area_contents_length l p n : 0 <= n -> alen (contents l p n) = n.
Proof. intros Hn. unfold alen, contents. rewrite length_fmap, length_seqZ. lia. Qed.

Lemma contents_get l p n i : 0 <= i < n -> contents l p n !! Z.to_nat i = Some (byte_at l (p + i)).
Proof. intros Hi. unfold contents. rewrite list_lookup_fmap, lookup_seqZ_lt by lia. cbn. do 3 f_equal. lia. Qed.

(** Bytes that agree give the same contents. *)
Lemma contents_agree l l' p n : (forall a, p <= a < p + n -> byte_at l' a = byte_at l a) -> contents l' p n = contents l p n.
Proof.
  intros Ha. unfold contents. apply list_fmap_ext. intros k i Hi%lookup_seqZ. apply Ha. lia.
Qed.

Section rep.
Context {W : Type} `{BrkLaws W}.

Definition in_range (l : libc_heap) (w : W) : Prop :=
  (heap_base l = 0 /\ heap_cur l = 0) \/ (brk_base w <= heap_base l <= heap_cur l /\ heap_cur l <= brk_end w).

Record rep (st : lib W) (A : areas) : Prop := Rep {
  rep_os : brk_ok st.2;
  rep_range : in_range st.1 st.2;
  rep_chain : exists blocks, linked h_next (headers st.1) (heap_head st.1) blocks /\
    tiled (headers st.1) blocks (heap_cur st.1) (heap_base st.1) /\
    forall x, is_Some (headers st.1 !! x) -> x ∈ blocks;
  rep_areas : forall p, A !! p = area_at st.1 p }.

Lemma rep_separated st A : rep st A -> separated A.
Proof.
  intros [_ _ (bl & Hl & Ht & Hall) Ha] p q c d Hp Hq Hne. rewrite Ha in Hp, Hq. unfold area_at in *.
  destruct (headers st.1 !! (p - _)) as [b1|] eqn:E1; [|done]. destruct (headers st.1 !! (q - _)) as [b2|] eqn:E2; [|done].
  cbn [mbind option_bind] in *. destruct (h_free b1 =? 0), (h_free b2 =? 0); simplify_eq.
  destruct (tiled_in _ _ _ _ (p - sizeof_header) Ht) as (? & ? & ? & _); [by apply Hall|].
  destruct (tiled_in _ _ _ _ (q - sizeof_header) Ht) as (? & ? & ? & _); [by apply Hall|]. simplify_eq.
  rewrite !area_contents_length by done.
  destruct (tiled_apart _ _ _ _ (p - sizeof_header) (q - sizeof_header) _ _ Ht (Hall (p - sizeof_header) ltac:(done)) (Hall (q - sizeof_header) ltac:(done)) ltac:(lia) E1 E2);
    unfold sizeof_header in *; lia.
Qed.

(** Where an area lies. *)
Lemma rep_area st A p c : rep st A -> A !! p = Some c ->
  exists b, headers st.1 !! (p - sizeof_header) = Some b /\ h_free b = 0 /\ h_size b = alen c /\ c = contents st.1 p (alen c) /\
    0 < p /\ heap_base st.1 + sizeof_header <= p /\ p + alen c <= heap_cur st.1 /\ heap_cur st.1 <= 2 ^ 47.
Proof.
  intros [Ho Hr (bl & Hl & Ht & Hall) Ha] Hp. rewrite Ha in Hp. unfold area_at in *.
  destruct (headers st.1 !! (p - _)) as [b|] eqn:E; [|done]. cbn [mbind option_bind] in *. destruct (Z.eqb_spec (h_free b) 0); [|done]. simplify_eq.
  destruct (tiled_in _ _ _ _ (p - sizeof_header) Ht) as (? & ? & ? & ? & ?); [by apply Hall|]. simplify_eq.
  rewrite area_contents_length by done. pose proof (brk_bounds _ Ho) as Hb. unfold sizeof_header in *.
  exists b. destruct Hr as [[E1 E2]|Hr]; split_and!; try done; try lia.
Qed.

(** ** Bytes *)

Lemma rep_load st A p c i : rep st A -> A !! p = Some c -> 0 <= i < alen c -> load st.1 (p + i) = Some (aget 0 c i).
Proof.
  intros R Hp Hi. destruct (rep_area _ _ _ _ R Hp) as (b & _ & _ & _ & Hc & ? & ? & ? & ?). unfold load, accessible, sizeof_header in *.
  rewrite (proj2 (Z.leb_le _ _)), (proj2 (Z.ltb_lt _ _)) by lia. cbn [andb]. f_equal. rewrite Hc. unfold aget. by rewrite contents_get.
Qed.

Lemma rep_store st A p c i v : rep st A -> A !! p = Some c -> 0 <= i < alen c ->
  exists l', store st.1 (p + i) v = Some l' /\ rep (l', st.2) (<[p := aset c i v]> A).
Proof.
  intros R Hp Hi. pose proof (rep_area _ _ _ _ R Hp) as (b & E & Ef & Es & Hc & ? & ? & ? & ?). unfold store, accessible, sizeof_header in *.
  rewrite (proj2 (Z.leb_le _ _)), (proj2 (Z.ltb_lt _ _)) by lia. cbn [andb]. eexists. split; [done|].
  pose proof (rep_separated _ _ R) as Sep. destruct R as [Ho Hr Hch Ha]. split; [done|done|done|]. intros q. cbn [fst].
  destruct (decide (q = p)) as [->|Hne].
  - rewrite lookup_insert_eq. unfold area_at, sizeof_header in *. cbn [headers]. rewrite E. cbn [mbind option_bind]. rewrite Ef. cbn [Z.eqb]. f_equal.
    apply list_eq. intros k. destruct (decide (Z.of_nat k < alen c)) as [Hk|Hk].
    + replace k with (Z.to_nat (Z.of_nat k)) by lia. rewrite contents_get by lia. unfold byte_at, aset. cbn [bytes].
      destruct (decide (Z.of_nat k = i)) as [<-|Hki].
      * rewrite list_lookup_insert_eq, lookup_insert_eq by (unfold alen in *; lia). done.
      * rewrite list_lookup_insert_ne by lia. rewrite lookup_insert_ne by lia. rewrite Hc, contents_get by lia. done.
    + rewrite !lookup_ge_None_2; [done|..]; [pose proof (area_contents_length (LibcHeap (heap_base st.1) (heap_cur st.1) (heap_head st.1) (headers st.1) (<[p+i:=v]> (bytes st.1))) p (h_size b) ltac:(rewrite Es; apply alen_nonneg))|
        pose proof (alen_aset c i v)]; unfold alen in *; lia.
  - rewrite lookup_insert_ne by done. rewrite Ha. unfold area_at. cbn [headers].
    destruct (headers st.1 !! (q - sizeof_header)) as [b'|] eqn:E'; [|done]. cbn [mbind option_bind]. destruct (h_free b' =? 0) eqn:F; [|done]. f_equal.
    symmetry. apply contents_agree. intros a Hra. unfold byte_at. cbn [bytes]. rewrite lookup_insert_ne; [done|]. intros <-.
    assert (Hq : A !! q = Some (contents st.1 q (h_size b'))) by (rewrite Ha; unfold area_at; rewrite E'; cbn [mbind option_bind]; by rewrite F).
    destruct (Sep p q _ _ Hp Hq ltac:(done)) as [S|S]; [lia|]. rewrite area_contents_length in S; [lia|].
    destruct Hch as (bl & _ & Ht & Hall). destruct (tiled_in _ _ _ _ (q - sizeof_header) Ht) as (? & ? & ? & _); [by apply Hall|].
    simplify_eq. done.
Qed.

(** ** Allocation *)

(** The kernel has a state in which it refuses. *)
Definition refuses : Prop := exists w a w' r, brk_ok w /\ brk_base w <= a <= USER_LIMIT /\ os_brk w a = Some (w', r) /\ r < a.

Lemma malloc_align16_spec n : 0 < n < 2 ^ 47 -> n <= align16 n <= n + 15.
Proof.
  intros Hn. assert (E : align16 n = (n + 15) / 16 * 16).
  { unfold align16. rewrite wrap_small by (unfold fits; lia). change (Z.ldiff (n + 15) 15) with (Z.ldiff (n + 15) (Z.ones 4)).
    rewrite Z.ldiff_ones_r by lia. by rewrite Z.shiftr_div_pow2, Z.shiftl_mul_pow2 by lia. }
  rewrite E. zmod.
Qed.

Lemma find_free_spec hs size l : forall h fuel, linked h_next hs h l -> (length l <= fuel)%nat ->
  exists x, find_free hs h size fuel = Some x /\
    (x = 0 \/ (x ∈ l /\ x <> 0 /\ exists b, hs !! x = Some b /\ h_free b <> 0 /\ size <= h_size b)).
Proof.
  induction l as [|y l IH]; intros h [|fuel] L Hf; cbn [length] in Hf; try lia; cbn [linked] in L.
  - subst h. exists 0. split; [done|by left].
  - subst h. exists 0. split; [done|by left].
  - destruct L as (-> & Hy & b & E & L). cbn [find_free]. rewrite (proj2 (Z.eqb_neq y 0) Hy), E. cbn [mbind option_bind].
    destruct (nonzero (h_free b) && (size <=? h_size b)) eqn:Ef.
    + apply andb_true_iff in Ef as [?%nonzero_true ?%Z.leb_le]. exists y. split; [done|]. right. split; [by left|]. split; [done|]. by exists b.
    + destruct (IH (h_next b) fuel L ltac:(lia)) as (x & -> & [->|(Hx & H')]); exists x || exists 0; split; try done; [by left|].
      right. split; [by right|done].
Qed.

(** Changing the flag of the block at [x]. *)
Lemma rep_flag st A x b f : rep st A -> headers st.1 !! x = Some b ->
  let p := x + sizeof_header in
  0 < p <= 2 ^ 47 /\
  rep (set_headers st.1 (<[x := Header (h_size b) f (h_next b)]> (headers st.1)), st.2)
    (if f =? 0 then <[p := contents st.1 p (h_size b)]> A else delete p A).
Proof.
  intros [Ho Hr (bl & Hl & Ht & Hall) Ha] E p. pose proof (tiled_in _ _ _ _ x Ht (Hall x ltac:(done))) as (? & ? & ? & ? & ?). simplify_eq.
  pose proof (brk_bounds _ Ho) as Hb. split.
  { subst p. unfold sizeof_header in *. destruct Hr as [[E1 E2]|Hr]; lia. }
  split; [done|exact Hr| |].
  - exists bl. split_and!.
    + eapply linked_agree; [|exact Hl]. intros y Hy. cbn [fst set_headers headers]. destruct (decide (y = x)) as [->|].
      * by rewrite lookup_insert_eq, E.
      * by rewrite lookup_insert_ne.
    + eapply tiled_agree; [|exact Ht]. intros y Hy. cbn [fst set_headers headers]. destruct (decide (y = x)) as [->|].
      * by rewrite lookup_insert_eq, E.
      * by rewrite lookup_insert_ne.
    + intros y. cbn [fst set_headers headers]. destruct (decide (y = x)) as [->|]; [intros _; by apply Hall|].
      rewrite lookup_insert_ne by done. apply Hall.
  - intros q. unfold area_at. cbn [fst set_headers headers]. destruct (decide (q = p)) as [->|Hne].
    + replace (p - sizeof_header) with x by (subst p; lia). rewrite lookup_insert_eq. cbn [mbind option_bind h_free h_size].
      destruct (f =? 0); [by rewrite lookup_insert_eq|by rewrite lookup_delete_eq].
    + rewrite lookup_insert_ne by (subst p; lia). by destruct (f =? 0); [rewrite lookup_insert_ne by done|rewrite lookup_delete_ne by done]; rewrite Ha.
Qed.

(** Growing the heap: the library's view just before and just after. *)
Lemma sbrk_spec st A k : rep st A -> 0 < k -> brk_end st.2 + k <= USER_LIMIT ->
  exists l w w', rep (l, w) A /\ 0 < heap_cur l /\ heap_cur l + k <= USER_LIMIT /\
    ((refuses /\ rep (l, w') A /\ libc_sbrk st k = Some ((l, w'), MINUS_ONE)) \/
     (brk_ok w' /\ brk_base w' <= heap_base l /\ heap_cur l + k <= brk_end w' /\
      libc_sbrk st k = Some ((LibcHeap (heap_base l) (heap_cur l + k) (heap_head l) (headers l) (bytes l), w'), heap_cur l))).
Proof.
  intros R Hk Hlim. unfold USER_LIMIT in *.
  assert (I : exists l w, rep (l, w) A /\ brk_base w <= heap_base l <= heap_cur l /\ heap_cur l + k <= 2 ^ 47 - 4096 /\ first_break st = Some (l, w)).
  { unfold first_break. pose proof R as [Ho Hr (bl & Hl & Ht & Hall) Ha]. pose proof (brk_bounds _ Ho) as Hb. destruct (Z.eqb_spec (heap_base st.1) 0) as [E|E].
    - destruct (brk_query _ Ho) as (w1 & -> & Ho1 & E1 & E2). cbn [mbind option_bind]. rewrite !wrap_small by (unfold fits; lia).
      do 2 eexists. split; [|split; [|split; [|reflexivity]]]; cbn; [|lia..].
      assert (bl = []) as ->.
      { destruct bl as [|x bl]; [done|]. destruct (tiled_in _ _ _ _ x Ht ltac:(by left)) as (b & _ & ? & ? & ?).
        unfold sizeof_header in *. destruct Hr as [[E3 E4]|Hr]; lia. }
      assert (Hn : forall x, headers st.1 !! x = None).
      { intros x. destruct (headers st.1 !! x) eqn:Ex; [|done]. by pose proof (Hall x ltac:(done)) as ?%elem_of_nil. }
      split; [done|right; cbn; lia| |].
      + exists []. split_and!; [done|done|]. exact Hall.
      + intros p. rewrite Ha. unfold area_at. cbn [fst headers]. by rewrite Hn.
    - exists st.1, st.2. rewrite <- surjective_pairing. destruct Hr as [[? _]|Hr]; [done|]. split_and!; try done; lia. }
  destruct I as (l & w & R1 & Hr1 & Hc1 & Est). unfold libc_sbrk. rewrite Est. cbn [mbind option_bind].
  pose proof (rep_os _ _ R1) as Ho. cbn in Ho. pose proof (brk_bounds _ Ho) as Hb. rewrite (wrap_small 64 (heap_cur l + k)) by (unfold fits; lia).
  destruct (brk_move w (heap_cur l + k) Ho) as (w' & r & E & Ho' & Eb & C); [unfold USER_LIMIT; lia|]. rewrite E. cbn [mbind option_bind].
  pose proof (brk_bounds _ Ho') as Hb'. exists l, w, w'. split; [done|]. split; [lia|]. split; [lia|].
  destruct C as [[C1 C2]|[C1 C2]].
  - right. rewrite wrap_small by (unfold fits; lia). rewrite (proj2 (Z.ltb_ge _ _)) by lia. split_and!; try done; lia.
  - left. rewrite wrap_small by (unfold fits; lia). rewrite (proj2 (Z.ltb_lt _ _)) by lia. split; [|split; [|done]].
    + exists w, (heap_cur l + k), w', r. unfold USER_LIMIT. split_and!; try done; lia.
    + destruct R1 as [_ R2 R3 R4]. split; [done| |done|done]. cbn in *. right. cbn in *. destruct R2 as [[? ?]|R2]; cbn in *; lia.
Qed.

(** [malloc] for a positive size. *)
Lemma malloc_spec st A n : rep st A -> 0 < n -> brk_end st.2 + sizeof_header + n + 15 <= USER_LIMIT ->
  exists st' r, malloc st n = Some (st', r) /\
    ((r = 0 /\ refuses /\ rep st' A) \/ exists c, added A n r c /\ rep st' (<[r := c]> A)).
Proof.
  intros R Hn Hlim. pose proof R as [Ho Hr (bl & Hl & Ht & Hall) Ha]. pose proof (brk_bounds _ Ho) as Hb. unfold malloc.
  rewrite (proj2 (Z.eqb_neq n 0)) by lia. pose proof (malloc_align16_spec n) as Hal. unfold USER_LIMIT, sizeof_header in Hlim. specialize (Hal ltac:(lia)).
  destruct st as [l w]. cbn [fst snd] in *.
  destruct (find_free_spec (headers l) (align16 n) bl (heap_head l) (map_size (headers l)) Hl) as (x & -> & C); [by eapply linked_length|].
  cbn [mbind option_bind]. destruct C as [->|(Hx & Hx0 & b & E & Ef & Es)].
  - cbn [Z.eqb negb]. rewrite (wrap_small 64 (sizeof_header + align16 n)) by (unfold fits, sizeof_header; lia).
    destruct (sbrk_spec (l, w) A (sizeof_header + align16 n) R) as (l1 & w1 & w' & R1 & Hc0 & Hc & [(Rf & R2 & ->)|(Ho' & Hb' & He' & ->)]);
      [unfold sizeof_header; lia|unfold USER_LIMIT, sizeof_header; cbn [snd]; lia|..]; cbn [mbind option_bind].
    + do 2 eexists. split; [reflexivity|]. by left.
    + unfold MINUS_ONE, USER_LIMIT in *. rewrite (proj2 (Z.eqb_neq _ _)) by (unfold sizeof_header in *; lia). cbn [heap_head headers bytes heap_base heap_cur].
      rewrite wrap_small by (unfold fits, sizeof_header in *; lia). do 2 eexists. split; [reflexivity|]. right.
      set (x := heap_cur l1) in *. set (p := x + sizeof_header). set (l2 := LibcHeap _ _ _ _ _).
      destruct R1 as [Ho1 Hr1 (bl1 & Hl1 & Ht1 & Hall1) Ha1]. cbn [fst snd] in *.
      assert (Hnew : forall y b, headers l1 !! y = Some b -> y + sizeof_header <= x /\ y <> x /\ y + sizeof_header + h_size b <= x).
      { intros y b Ey. destruct (tiled_in _ _ _ _ y Ht1) as (b' & ? & ? & ? & ?); [by apply Hall1|]. simplify_eq. unfold x, sizeof_header in *. split_and!; lia. }
      assert (Hxn : headers l1 !! x = None).
      { destruct (headers l1 !! x) as [b|] eqn:Ex; [|done]. apply Hnew in Ex. lia. }
      exists (contents l2 p (align16 n)). split.
      * split; [unfold p, sizeof_header; lia|]. split; [|rewrite area_contents_length; lia]. rewrite Ha1. unfold area_at, p.
        replace (x + sizeof_header - sizeof_header) with x by lia. by rewrite Hxn.
      * split; [done| | |].
        -- right. cbn. destruct Hr1 as [[? ?]|Hr1]; unfold x, sizeof_header in *; lia.
        -- exists (x :: bl1). cbn [fst l2 headers heap_head heap_cur heap_base]. split_and!.
           ++ split; [done|]. split; [lia|]. eexists. rewrite lookup_insert_eq. split; [done|]. apply linked_insert; [|done].
              intros Hin. destruct (linked_dom _ _ _ _ Hl1 x Hin) as [_ [? ?]]. congruence.
           ++ eexists. rewrite lookup_insert_eq. split; [done|]. cbn [h_size]. split; [lia|]. split; [lia|].
              eapply tiled_agree; [|exact Ht1]. intros y Hy. destruct (linked_dom _ _ _ _ Hl1 y Hy) as [_ [? ?]]. rewrite lookup_insert_ne by congruence. done.
           ++ intros y. destruct (decide (y = x)) as [->|Hne]; [intros _; by left|]. rewrite lookup_insert_ne by done. intros Hy. right. by apply Hall1.
        -- intros q. unfold area_at. cbn [fst l2 headers]. destruct (decide (q = p)) as [->|Hne].
           ++ unfold p. replace (x + sizeof_header - sizeof_header) with x by lia. rewrite !lookup_insert_eq. done.
           ++ rewrite !lookup_insert_ne by (unfold p in *; lia). rewrite Ha1. unfold area_at. cbn [fst]. done.
  - rewrite (proj2 (Z.eqb_neq x 0) Hx0). cbn [negb]. rewrite E. cbn [mbind option_bind].
    destruct (rep_flag (l, w) A x b 0 R E) as (Hp & R'). cbn [fst snd Z.eqb] in *. unfold sizeof_header in *.
    rewrite wrap_small by (unfold fits; lia). do 2 eexists. split; [reflexivity|]. right. eexists. split; [|exact R'].
    destruct (tiled_in _ _ _ _ x Ht Hx) as (? & ? & ? & _). simplify_eq.
    split; [lia|]. split; [|rewrite area_contents_length; lia]. rewrite Ha. unfold area_at, sizeof_header. cbn [fst].
    replace (x + 24 - 24) with x by lia. rewrite E. cbn [mbind option_bind]. by rewrite (proj2 (Z.eqb_neq _ _) Ef).
Qed.

Lemma rep_fill A p v n : forall l w c i, rep (l, w) A -> A !! p = Some c -> 0 <= i -> i + Z.of_nat n <= alen c ->
  exists l', fill l (p + i) v n = Some l' /\
    rep (l', w) (<[p := take (Z.to_nat i) c ++ replicate n v ++ drop (Z.to_nat i + n) c]> A).
Proof.
  revert A. induction n as [|n IH]; intros A l w c i R Hp Hi Hn; cbn [fill].
  - exists l. split; [done|]. cbn [replicate app]. rewrite Nat.add_0_r, take_drop. by rewrite insert_id.
  - destruct (rep_store (l, w) A p c i v R Hp) as (l1 & E & R1); [lia|]. cbn [fst snd] in *. rewrite E. cbn [mbind option_bind].
    replace (p + i + 1) with (p + (i + 1)) by lia.
    destruct (IH _ l1 w (aset c i v) (i + 1) R1) as (l' & -> & R'); [by rewrite lookup_insert_eq|lia|rewrite alen_aset; lia|].
    exists l'. split; [done|]. rewrite insert_insert_eq in R'.
    replace (take (Z.to_nat i) c ++ replicate (S n) v ++ drop (Z.to_nat i + S n) c)
      with (take (Z.to_nat (i + 1)) (aset c i v) ++ replicate n v ++ drop (Z.to_nat (i + 1) + n) (aset c i v)); [done|].
    unfold aset, alen in *. replace (Z.to_nat (i + 1)) with (S (Z.to_nat i)) by lia.
    rewrite drop_insert_lt by lia. rewrite (take_S_r _ _ v) by (apply list_lookup_insert_eq; lia). rewrite take_insert_ge by lia.
    rewrite <- app_assoc. cbn [replicate app]. do 3 f_equal. f_equal. lia.
Qed.

Lemma rep_copy A p q c n : forall l w d i, rep (l, w) A -> A !! p = Some c -> A !! q = Some d -> p <> q ->
  0 <= i -> i + Z.of_nat n <= alen c -> i + Z.of_nat n <= alen d ->
  exists l', copy l (q + i) (p + i) n = Some l' /\
    rep (l', w) (<[q := take (Z.to_nat i) d ++ take n (drop (Z.to_nat i) c) ++ drop (Z.to_nat i + n) d]> A).
Proof.
  revert A. induction n as [|n IH]; intros A l w d i R Hp Hq Hne Hi Hn Hm; cbn [copy].
  - exists l. split; [done|]. rewrite take_0. cbn [app]. rewrite Nat.add_0_r, take_drop. by rewrite insert_id.
  - pose proof (rep_load (l, w) A p c i R Hp ltac:(lia)) as EL. cbn [fst] in EL. rewrite EL. cbn [mbind option_bind].
    destruct (rep_store (l, w) A q d i (aget 0 c i) R Hq) as (l1 & E & R1); [lia|]. cbn [fst snd] in *. rewrite E. cbn [mbind option_bind].
    replace (p + i + 1) with (p + (i + 1)) by lia. replace (q + i + 1) with (q + (i + 1)) by lia.
    destruct (IH _ l1 w (aset d i (aget 0 c i)) (i + 1) R1) as (l' & -> & R');
      [by rewrite lookup_insert_ne|by rewrite lookup_insert_eq|done|lia|lia|rewrite alen_aset; lia|].
    exists l'. split; [done|]. rewrite insert_insert_eq in R'.
    pose proof (aget_lookup 0 c i ltac:(lia)) as Ec.
    replace (take (Z.to_nat i) d ++ take (S n) (drop (Z.to_nat i) c) ++ drop (Z.to_nat i + S n) d)
      with (take (Z.to_nat (i + 1)) (aset d i (aget 0 c i)) ++ take n (drop (Z.to_nat (i + 1)) c) ++ drop (Z.to_nat (i + 1) + n) (aset d i (aget 0 c i))); [done|].
    unfold aset, alen in *. replace (Z.to_nat (i + 1)) with (S (Z.to_nat i)) by lia.
    rewrite drop_insert_lt by lia. rewrite (take_S_r _ _ (aget 0 c i)) by (apply list_lookup_insert_eq; lia). rewrite take_insert_ge by lia.
    rewrite (drop_S c _ _ Ec). cbn [take]. rewrite <- !app_assoc. cbn [app]. do 4 f_equal. lia.
Qed.

Lemma free_spec st A p : rep st A -> p = 0 \/ is_Some (A !! p) -> exists st', free st p = Some st' /\ rep st' (delete p A).
Proof.
  intros R Hp. unfold free. assert (H0n : A !! 0 = None).
  { destruct (A !! 0) eqn:E; [|done]. destruct (rep_area _ _ _ _ R E) as (? & _ & _ & _ & _ & ? & _). lia. }
  destruct (Z.eqb_spec p 0) as [->|Hn0]; [exists st; split; [done|]; by rewrite delete_id|]. destruct Hp as [?|[c Hp]]; [done|].
  destruct (rep_area _ _ _ _ R Hp) as (b & E & _). rewrite E. cbn [mbind option_bind]. eexists. split; [done|].
  destruct (rep_flag st A _ b 1 R E) as (_ & R'). cbn [Z.eqb] in R'. by replace (p - sizeof_header + sizeof_header) with p in R' by lia.
Qed.

(** *** The requests *)

Definition meets st A rq : Prop :=
  exists st' r A', libc_call rq st = Some (st', r) /\ answers refuses A rq r A' /\ rep st' A'.

Lemma malloc_cases st A n : rep st A -> 0 <= n -> brk_end st.2 + sizeof_header + n + 15 <= USER_LIMIT ->
  exists st' r A', malloc st n = Some (st', r) /\ rep st' A' /\
    ((r = 0 /\ A' = A /\ (n = 0 \/ refuses)) \/ exists c, added A n r c /\ A' = <[r := c]> A).
Proof.
  intros R Hn Hl. destruct (decide (n = 0)) as [->|Hn0]; [exists st, 0, A; split; [done|]; split; [done|]; left; auto|].
  destruct (malloc_spec st A n R) as (st' & r & E & [(-> & Rf & R')|(c & Hc & R')]); [lia|done|..]; do 3 eexists; split_and!; try done.
  - left. auto.
  - right. by exists c.
Qed.

Lemma calloc_meets st A a b : rep st A -> 0 <= a -> 0 <= b -> brk_end st.2 + sizeof_header + a * b + 15 <= USER_LIMIT ->
  meets st A (Calloc a b).
Proof.
  intros R Ha Hb Hl. pose proof (brk_bounds _ (rep_os _ _ R)) as Hk. unfold meets. cbn [libc_call]. unfold calloc, USER_LIMIT, sizeof_header in *.
  rewrite wrap_small by (unfold fits; nia). assert (0 <= a * b) by nia.
  destruct (malloc_cases st A (a * b) R) as (st' & r & A' & -> & R' & [(-> & -> & C)|(c & (Hr & HN & Hc) & ->)]);
    [done|unfold USER_LIMIT, sizeof_header; lia|..]; cbn [mbind option_bind].
  - exists st', 0, A. split_and!; try done. by apply ans_none.
  - rewrite (proj2 (Z.eqb_neq r 0) Hr). destruct st' as [l w]. cbn [fst snd].
    destruct (rep_fill _ r 0 (Z.to_nat (a * b)) l w c 0 R') as (l' & E & R2); [by rewrite lookup_insert_eq|lia|lia|].
    rewrite Z.add_0_r in E. rewrite E. cbn [mbind option_bind]. rewrite insert_insert_eq in R2. cbn [Z.to_nat Nat.add] in R2. rewrite take_0 in R2. cbn [app] in R2.
    do 3 eexists. split; [done|]. split; [|exact R2]. apply ans_calloc.
    + split; [done|]. split; [done|]. unfold alen in *. rewrite length_app, length_replicate, length_drop. lia.
    + rewrite take_app_le by (rewrite length_replicate; lia). by rewrite take_replicate, Nat.min_id.
Qed.

Lemma realloc_meets st A p n : rep st A -> 0 <= n -> p = 0 \/ is_Some (A !! p) -> brk_end st.2 + sizeof_header + n + 15 <= USER_LIMIT ->
  meets st A (Realloc p n).
Proof.
  intros R Hn Hp Hl. unfold meets. cbn [libc_call]. unfold realloc.
  destruct (malloc_cases st A n R Hn Hl) as (st1 & r & A1 & Em & R1 & C).
  destruct (Z.eqb_spec p 0) as [->|Hp0].
  { exists st1, r, A1. split; [done|]. split; [|done]. destruct C as [(-> & -> & C)|(c & Hc & ->)]; [by apply ans_none|by apply ans_first]. }
  destruct Hp as [?|[c Hp]]; [done|]. destruct (rep_area _ _ _ _ R Hp) as (b & E & _ & Es & _). rewrite E. cbn [mbind option_bind].
  destruct (Z.leb_spec n (h_size b)) as [Hle|Hgt].
  { exists st, p, A. split_and!; try done. apply ans_stays with c; [done|lia]. }
  rewrite Em. cbn [mbind option_bind]. destruct C as [(-> & -> & C)|(d & Hd & ->)].
  { exists st1, 0, A. split_and!; try done. by apply ans_none. }
  pose proof Hd as (Hr & HN & Hdn). rewrite (proj2 (Z.eqb_neq r 0) Hr). assert (Hrp : p <> r) by congruence.
  assert (Hp1 : <[r:=d]> A !! p = Some c) by (by rewrite lookup_insert_ne).
  destruct (rep_area _ _ _ _ R1 Hp1) as (b1 & E1 & _ & Es1 & _). rewrite E1. cbn [mbind option_bind].
  rewrite Es1. replace (Z.to_nat (alen c)) with (length c) by (unfold alen; lia). destruct st1 as [l w]. cbn [fst snd] in *.
  destruct (rep_copy _ p r c (length c) l w d 0 R1 Hp1) as (l' & Ec & R2); [by rewrite lookup_insert_eq|done|lia|unfold alen in *; lia|unfold alen in *; lia|].
  rewrite !Z.add_0_r in Ec. rewrite Ec. cbn [mbind option_bind]. rewrite insert_insert_eq in R2. cbn [Z.to_nat Nat.add] in R2. rewrite take_0, drop_0 in R2.
  cbn [app] in R2. rewrite (take_ge c) in R2 by lia.
  destruct (free_spec (l', w) _ p R2) as (st2 & -> & R3); [right; rewrite lookup_insert_ne by done; by eexists|]. cbn [mbind option_bind].
  exists st2, r. eexists. split; [done|]. rewrite delete_insert_ne in R3 by done. split; [|exact R3].
  apply ans_moves with c; [done| |by rewrite take_app_length].
  split; [done|]. split; [done|]. unfold alen in *. rewrite length_app, length_drop. lia.
Qed.

Lemma rep_start w : brk_ok w -> rep (heap_start, w) ∅.
Proof.
  intros Ho. split; [done|by left| |].
  - exists []. split_and!; [done|done|]. intros x [? E]. cbn [fst heap_start headers] in E. by rewrite lookup_empty in E.
  - intros p. unfold area_at. cbn [fst heap_start headers]. by rewrite !lookup_empty.
Qed.

(** C33.  The user allocator, over any kernel that keeps the contract of brk, refines a
    map of disjoint areas: whatever a program has stored is what it reads, an area
    from [malloc], [calloc] (zeroed) or [realloc] (with the old contents) is
    disjoint from all others and at least as large as asked for, [free] makes one
    area disappear, and NULL is the answer only for an empty request or when the
    kernel refuses memory. *)
Theorem libc_heap_refines st A (rq : request) : rep st A -> allowed A rq -> brk_end st.2 + sizeof_header + wanted rq + 15 <= USER_LIMIT ->
  exists st' r A', libc_call rq st = Some (st', r) /\ answers refuses A rq r A' /\ rep st' A' /\ separated A'.
Proof.
  intros R Hal Hlim. enough (meets st A rq) as (st' & r & A' & ? & ? & R').
  { exists st', r, A'. split_and!; try done. by eapply rep_separated. }
  destruct rq as [n|p|a b|p n|p i v|p i]; cbn [allowed wanted] in *.
  - destruct (malloc_cases st A n R Hal Hlim) as (st' & r & A' & E & R' & C). exists st', r, A'. split; [done|]. split; [|done].
    destruct C as [(-> & -> & C)|(c & Hc & ->)]; [by apply ans_none|by apply ans_malloc].
  - destruct (free_spec st A p R Hal) as (st' & E & R'). exists st', 0, (delete p A). cbn [libc_call]. rewrite E. split_and!; try done. constructor.
  - destruct Hal. by apply calloc_meets.
  - destruct Hal. by apply realloc_meets.
  - destruct Hal as (c & Hp & Hi). destruct (rep_store st A p c i v R Hp Hi) as (l' & E & R'). unfold meets. cbn [libc_call]. rewrite E.
    do 3 eexists. split; [done|]. split; [by apply ans_store|exact R'].
  - destruct Hal as (c & Hp & Hi). unfold meets. cbn [libc_call]. rewrite (rep_load st A p c i R Hp Hi). do 3 eexists. split; [done|].
    split; [by apply ans_load|done].
Qed.

End rep.

(** ** The kernel behind it *)

Section kernel.
Context {S : Type} `{FrameStore S} {V Ops : Type} `{FileSystem V Ops} (img : kernel_image) (vfs_root : Z).

#[export] Instance kernel_brk : Brk (kst (S := S) (V := V)) := {|
  os_brk s a := '(s', r) ← syscall_dispatch img vfs_root s 12 a 0 0 0 0 0; v ← r; Some (s', v) |}.

Definition heap_of (s : kst (S := S) (V := V)) : option (Z * Z) := pr ← cur_proc s; Some (Task.heap_base pr, Task.heap_end pr).

Definition kernel_brk_ok (s : kst (S := S) (V := V)) : Prop := exists b e, heap_of s = Some (b, e) /\ 0 < b <= e /\ e <= 2 ^ 47.

Lemma kernel_query s b e : heap_of s = Some (b, e) -> 0 <= e <= 2 ^ 47 -> os_brk s 0 = Some (s, e).
Proof.
  intros E He. unfold heap_of in E. cbn [os_brk kernel_brk]. change (syscall_dispatch img vfs_root s 12 0 0 0 0 0 0) with (sys_brk s 0 0 0 0 0 0).
  unfold sys_brk. destruct (cur_proc s) as [pr|]; [|done]. cbn [mbind option_bind Z.eqb ret] in *. injection E as <- <-. do 2 f_equal.
  unfold swrap. rewrite Z.mod_small; lia.
Qed.

Lemma kernel_move s b e a : heap_of s = Some (b, e) -> 0 < b <= a -> a <= USER_LIMIT ->
  exists s' r, os_brk s a = Some (s', r) /\ a <= r <= 2 ^ 47 /\ heap_of s' = Some (b, r).
Proof.
  intros E Ha Hl. unfold USER_LIMIT, heap_of in *. cbn [os_brk kernel_brk].
  change (syscall_dispatch img vfs_root s 12 a 0 0 0 0 0) with (sys_brk s a 0 0 0 0 0). unfold sys_brk, cur_proc in *.
  destruct (procs (sk (k_sys s)) !! cur s) as [pr|] eqn:Ep; [|done]. cbn [mbind option_bind] in *. injection E as Eb Ee.
  rewrite (proj2 (Z.eqb_neq a 0)), (proj2 (Z.ltb_ge a (Task.heap_base pr))) by lia. unfold upd_proc. rewrite Ep. cbn [mbind option_bind ret].
  rewrite (wrap_small 64 (a + 0xFFF)) by (unfold fits; lia).
  assert (Ed : Elf.page_down (a + 0xFFF) = (a + 0xFFF) / 4096 * 4096).
  { unfold Elf.page_down. change 0xFFF with (Z.ones 12). rewrite Z.ldiff_ones_r by lia. by rewrite Z.shiftr_div_pow2, Z.shiftl_mul_pow2 by lia. }
  rewrite Ed. do 2 eexists. split; [reflexivity|]. 
  assert (Hr : s64 ((a + 0xFFF) / 4096 * 4096) = (a + 0xFFF) / 4096 * 4096) by (unfold swrap; rewrite Z.mod_small; zmod).
  rewrite Hr. split; [zmod|]. change (cur (with_sys s _)) with (cur s). cbn. rewrite lookup_insert_eq. cbn [mbind option_bind]. by rewrite <- Eb.
Qed.

#[export] Program Instance kernel_brk_laws : BrkLaws (kst (S := S) (V := V)) := {|
  brk_ok := kernel_brk_ok;
  brk_base s := default 0 (fst <$> heap_of s);
  brk_end s := default 0 (snd <$> heap_of s) |}.
Next Obligation. intros s (b & e & -> & ? & ?). cbn. lia. Qed.
Next Obligation.
  intros s (b & e & E & Hb & He). exists s. rewrite E. cbn. split; [|split_and!; try done; by exists b, e].
  apply (kernel_query s b e E). lia.
Qed.
Next Obligation.
  intros s a (b & e & E & Hb & He) Ha. rewrite E in *. cbn in Ha |- *. destruct (kernel_move s b e a E) as (s' & r & Eo & Hr & E'); [lia..|].
  exists s', r. rewrite E'. cbn. split; [exact Eo|]. split; [exists b, r; split_and!; try done; lia|]. split; [done|]. left. split; [lia|done].
Qed.

(** This kernel grants every break below the limit. *)
Lemma kernel_never_refuses : ~ refuses (W := kst (S := S) (V := V)).
Proof.
  intros (s & a & s' & r & (b & e & E & Hb & He) & Ha & Eo & Hlt). cbn in Ha. rewrite E in Ha. cbn in Ha.
  destruct (kernel_move s b e a E) as (s2 & r2 & Eo2 & Hr & _); [lia..|]. rewrite Eo in Eo2. injection Eo2 as -> ->. lia.
Qed.

End kernel.

(** ** A process of this kernel, whose heap is [0x400000, 0x402000) *)

#[local] Instance demo_brk : Brk (kst (S := pmm) (V := ramfs Z)) := kernel_brk demo_image 4096.

Definition demo_lib : lib (kst (S := pmm) (V := ramfs Z)) := (heap_start, demo_call).

(** Requests one after the other: the results. *)
Fixpoint libc_calls (rqs : list request) (st : lib (kst (S := pmm) (V := ramfs Z))) : option (list Z) :=
  match rqs with [] => Some [] | rq :: rqs => '(st', r) ← libc_call rq st; rs ← libc_calls rqs st'; Some (r :: rs) end.

Lemma libc_heap_refines_witness :
  exists st' r A', libc_call (Malloc 100) demo_lib = Some (st', r) /\ r <> 0 /\ separated A' /\ exists c, A' !! r = Some c /\ 100 <= alen c.
Proof.
  destruct (libc_heap_refines (H0 := kernel_brk_laws demo_image 4096) demo_lib ∅ (Malloc 100)) as (st' & r & A' & E & An & _ & Sep).
  - apply rep_start. exists 0x400000, 0x402000. split_and!; vm_compute; congruence.
  - cbn. lia.
  - vm_compute. congruence.
  - exists st', r, A'. split; [exact E|]. inversion An as [? [Hw|Hr]| ? ? c (? & ? & ?)| | | | | | | ]; subst.
    + discriminate Hw.
    + by apply kernel_never_refuses in Hr.
    + split; [done|]. split; [done|]. exists c. by rewrite lookup_insert_eq.
Defined.

(** Reuse after [free], the contents kept by [realloc]. *)
Example libc_session :
  libc_calls [Malloc 20; Store 0x402018 3 7; Malloc 64; Realloc 0x402018 50; Load 0x4020A8 3; Malloc 30] demo_lib =
  Some [0x402018; 0; 0x402050; 0x4020A8; 7; 0x402018].
Proof. vm_compute. reflexivity. Qed.

(** The header of 24 bytes puts every other area 8 bytes off the 16-byte alignment
    that [malloc] rounds sizes for. *)
Example malloc_misaligned : (map (fun p => p mod 16) <$> libc_calls [Malloc 20; Malloc 64; Malloc 64] demo_lib) = Some [8; 0; 8].
Proof. vm_compute. reflexivity. Qed.

(** The rounding wraps: a request of [SIZE_MAX] gives an area without a byte. *)
Example malloc_max_is_empty :
  libc_calls [Malloc (2 ^ 64 - 1)] demo_lib = Some [0x402018] /\ libc_calls [Malloc (2 ^ 64 - 1); Store 0x402018 0 1] demo_lib = None.
Proof. vm_compute. split; reflexivity. Qed.

(** A request that wraps the break lowers it, and the next area lies in one in use. *)
Example malloc_wrap_overlaps :
  libc_calls [Malloc 4096; Malloc (2 ^ 64 - 4096); Malloc 16] demo_lib = Some [0x402018; 0x403030; 0x402048].
Proof. vm_compute. reflexivity. Qed.

(** The product of [calloc] wraps. *)
Example calloc_wraps : libc_calls [Calloc (2 ^ 60 + 1) 16; Store 0x402018 16 1] demo_lib = None.
Proof. vm_compute. reflexivity. Qed.
