(* ===== verification/LibcString.v ===== *)
(** The user string library, userspace/libc/src/string.c, over the byte memory of
    KString.  The kernel has its own string library, KString: where both have a
    function, they compute the same.  [strtok] walks the words of a text.

    The user string library agrees with the kernel's, and [strtok] cuts a text into
    its words. *)
From stdpp Require Import prelude gmap list.
From Stdlib Require Import ZArith Lia.
From S2P Require Import Prelude KString Printf PrintfThm.

Open Scope Z_scope.

(** ** Memory *)

(** [while (n--) *d++ = *s++;]. *)
Fixpoint copy_forward (m : bmem) (d s : Z) (n : nat) : option bmem :=
  match n with O => Some m | S n => b ← m !! s; m' ← mset m d b; copy_forward m' (d + 1) (s + 1) n end.

(** [while (n--) *--d = *--s;]. *)
Fixpoint copy_backward (m : bmem) (d s : Z) (n : nat) : option bmem :=
  match n with O => Some m | S n => b ← m !! (s - 1); m' ← mset m (d - 1) b; copy_backward m' (d - 1) (s - 1) n end.

Definition memcpy (m : bmem) (dest src n : Z) : option bmem := copy_forward m dest src (Z.to_nat n).

Definition memmove (m : bmem) (dest src n : Z) : option bmem :=
  if dest <? src then copy_forward m dest src (Z.to_nat n) else copy_backward m (dest + n) (src + n) (Z.to_nat n).

Fixpoint fill_forward (m : bmem) (p c : Z) (n : nat) : option bmem :=
  match n with O => Some m | S n => m' ← mset m p c; fill_forward m' (p + 1) c n end.

Definition memset (m : bmem) (s c n : Z) : option bmem := fill_forward m s c (Z.to_nat n).

Fixpoint memcmp_loop (m : bmem) (p1 p2 : Z) (n : nat) : option Z :=
  match n with
  | O => Some 0
  | S n => a ← m !! p1; b ← m !! p2; if negb (a =? b) then Some (a - b) else memcmp_loop m (p1 + 1) (p2 + 1) n
  end.

Definition memcmp (m : bmem) (s1 s2 n : Z) : option Z := memcmp_loop m s1 s2 (Z.to_nat n).

Fixpoint memchr_loop (m : bmem) (p c : Z) (n : nat) : option Z :=
  match n with O => Some 0 | S n => b ← m !! p; if b =? c then Some p else memchr_loop m (p + 1) c n end.

Definition memchr (m : bmem) (s c n : Z) : option Z := memchr_loop m s (u8 c) (Z.to_nat n).

(** ** Strings *)

Fixpoint strlen_loop (m : bmem) (s len : Z) (fuel : nat) : option Z :=
  match fuel with
  | O => None
  | S fuel => c ← m !! (s + len); if nonzero c then strlen_loop m s (len + 1) fuel else Some len
  end.

Definition strlen (m : bmem) (s : Z) : option Z := strlen_loop m s 0 (str_fuel m).

Fixpoint strcpy_loop (m : bmem) (d src : Z) (fuel : nat) : option bmem :=
  match fuel with
  | O => None
  | S fuel => c ← m !! src; m' ← mset m d c; if nonzero c then strcpy_loop m' (d + 1) (src + 1) fuel else Some m'
  end.

Definition strcpy (m : bmem) (dest src : Z) : option bmem := strcpy_loop m dest src (str_fuel m).

(** The two loops of [strncpy], with [i] and the rounds left. *)
Fixpoint strncpy_loop (m : bmem) (dest src i : Z) (n : nat) : option bmem :=
  match n with
  | O => Some m
  | S n' =>
      c ← m !! (src + i);
      if nonzero c then m' ← mset m (dest + i) c; strncpy_loop m' dest src (i + 1) n'
      else fill_forward m (dest + i) 0 n
  end.

Definition strncpy (m : bmem) (dest src n : Z) : option bmem := strncpy_loop m dest src 0 (Z.to_nat n).

Definition strcat (m : bmem) (dest src : Z) : option bmem := len ← strlen m dest; strcpy m (dest + len) src.

Fixpoint strcmp_loop (m : bmem) (s1 s2 : Z) (fuel : nat) : option Z :=
  match fuel with
  | O => None
  | S fuel =>
      a ← m !! s1; b ← m !! s2;
      if nonzero a && (a =? b) then strcmp_loop m (s1 + 1) (s2 + 1) fuel else Some (a - b)
  end.

Definition strcmp (m : bmem) (s1 s2 : Z) : option Z := strcmp_loop m s1 s2 (str_fuel m).

(** The condition of the loop decrements [n]: it is [-1] when [n] ends the loop. *)
Fixpoint strncmp_loop (m : bmem) (s1 s2 : Z) (n : nat) : option Z :=
  match n with
  | O => Some 0
  | S n =>
      a ← m !! s1; b ← m !! s2;
      if nonzero a && (a =? b) then strncmp_loop m (s1 + 1) (s2 + 1) n else Some (a - b)
  end.

Definition strncmp (m : bmem) (s1 s2 n : Z) : option Z := if n =? 0 then Some 0 else strncmp_loop m s1 s2 (Z.to_nat n).

Fixpoint strchr_loop (m : bmem) (s c : Z) (fuel : nat) : option Z :=
  match fuel with
  | O => None
  | S fuel =>
      x ← m !! s;
      if nonzero x then (if x =? c then Some s else strchr_loop m (s + 1) c fuel) else Some (if c =? 0 then s else 0)
  end.

(** The last test compares the [int] argument itself with NUL; the callers pass
    characters. *)
Definition strchr (m : bmem) (s c : Z) : option Z := strchr_loop m s (u8 c) (str_fuel m).

Fixpoint strrchr_loop (m : bmem) (s c ret : Z) (fuel : nat) : option Z :=
  match fuel with
  | O => None
  | S fuel =>
      x ← m !! s;
      let ret := if x =? c then s else ret in
      if nonzero x then strrchr_loop m (s + 1) c ret fuel else Some ret
  end.

Definition strrchr (m : bmem) (s c : Z) : option Z := strrchr_loop m s (u8 c) 0 (str_fuel m).

(** The number of characters before the first that occurs in the set
    ([stop = true]), or before the first that does not. *)
Fixpoint span_loop (m : bmem) (s set count : Z) (stop : bool) (fuel : nat) : option Z :=
  match fuel with
  | O => None
  | S fuel =>
      c ← m !! s;
      if nonzero c then
        r ← strchr m set c;
        if eqb (nonzero r) stop then Some count else span_loop m (s + 1) set (count + 1) stop fuel
      else Some count
  end.

Definition strcspn (m : bmem) (s reject : Z) : option Z := span_loop m s reject 0 true (str_fuel m).

Definition strspn (m : bmem) (s accept : Z) : option Z := span_loop m s accept 0 false (str_fuel m).

(** Memory, the static variable [olds], and the token. *)
Definition strtok (m : bmem) (olds str delim : Z) : option (bmem * Z * Z) :=
  let str := if str =? 0 then olds else str in
  if str =? 0 then Some (m, olds, 0)
  else
    skip ← strspn m str delim;
    let token := str + skip in
    c ← m !! token;
    if c =? 0 then Some (m, 0, 0)
    else
      len ← strcspn m token delim;
      let str := token + len in
      e ← m !! str;
      if nonzero e then m' ← mset m str 0; Some (m', str + 1, token) else Some (m, 0, token).

(** [while (tok && room) { store tok; tok = strtok(NULL, delim); }], the loop around
    [strtok] of the programs: the tokens stored. *)
Fixpoint token_loop (m : bmem) (olds tok delim : Z) (room : nat) : option (bmem * Z * list Z) :=
  if tok =? 0 then Some (m, olds, [])
  else
    match room with
    | O => Some (m, olds, [])
    | S room =>
        '(m1, o1, t1) ← strtok m olds 0 delim;
        '(m2, o2, ts) ← token_loop m1 o1 t1 delim room;
        Some (m2, o2, tok :: ts)
    end.

(** ** Theorems *)

(** ** Agreement *)

Lemma memcpy_agrees m d s n : memcpy m d s n = KString.memcpy m d s n.
Proof.
  unfold memcpy, KString.memcpy. enough (E : forall k m i, copy_forward m (d + i) (s + i) k = copy_up m d s i k).
  { specialize (E (Z.to_nat n) m 0). by rewrite !Z.add_0_r in E. }
  induction k as [|k IH]; intros m' i; [done|]. cbn [copy_forward copy_up]. destruct (m' !! (s + i)); [|done]. cbn [mbind option_bind].
  destruct (mset m' (d + i) _); [|done]. cbn [mbind option_bind]. rewrite <- IH. f_equal; lia.
Qed.

Lemma copy_backward_agrees k : forall m d s, copy_backward m (d + Z.of_nat k) (s + Z.of_nat k) k = copy_down m d s k.
Proof.
  induction k as [|k IH]; intros m d s; [done|]. cbn [copy_backward copy_down].
  replace (s + Z.of_nat (S k) - 1) with (s + Z.of_nat k) by lia. replace (d + Z.of_nat (S k) - 1) with (d + Z.of_nat k) by lia.
  destruct (m !! _); [|done]. cbn [mbind option_bind]. destruct (mset _ _ _); [|done]. apply IH.
Qed.

Lemma copy_down_same k : forall m d, bytes_ok m -> (forall j, 0 <= j < Z.of_nat k -> is_Some (m !! (d + j))) -> copy_down m d d k = Some m.
Proof.
  induction k as [|k IH]; intros m d Hb Hr; [done|]. cbn [copy_down]. destruct (Hr (Z.of_nat k)) as [b E]; [lia|]. rewrite E. cbn [mbind option_bind].
  rewrite mset_spec by (first [by eexists|by apply (Hb (d + Z.of_nat k))]). cbn [mbind option_bind]. rewrite insert_id by done.
  apply IH; [done|]. intros j Hj. apply Hr. lia.
Qed.

Lemma memmove_agrees m d s n : 0 <= n -> d <> s \/ (bytes_ok m /\ readable m d n) -> memmove m d s n = KString.memmove m d s n.
Proof.
  intros Hn Hd. unfold memmove, KString.memmove. destruct (Z.ltb_spec d s).
  - apply (memcpy_agrees m d s n).
  - replace n with (Z.of_nat (Z.to_nat n)) at 1 2 by lia. rewrite copy_backward_agrees. destruct (Z.ltb_spec s d); [done|].
    assert (d = s) as -> by lia. destruct Hd as [?|[Hb Hr]]; [done|]. apply copy_down_same; [done|]. intros j Hj. apply Hr. lia.
Qed.

Lemma fill_agrees k c : forall m d i, fill_forward m (d + i) c k = set_up m d (u8 c) i k.
Proof.
  induction k as [|k IH]; intros m d i; [done|]. cbn [fill_forward set_up]. unfold mset. destruct (m !! _); [|done]. cbn [mbind option_bind].
  rewrite wrap_wrap, <- IH. f_equal. lia.
Qed.

Lemma memset_agrees m s c n : memset m s c n = KString.memset m s c n.
Proof. unfold memset, KString.memset. rewrite <- fill_agrees. f_equal. lia. Qed.

Lemma memcmp_agrees m s1 s2 n : memcmp m s1 s2 n = KString.memcmp m s1 s2 n.
Proof.
  unfold memcmp, KString.memcmp. enough (E : forall k i, memcmp_loop m (s1 + i) (s2 + i) k = KString.memcmp_loop m s1 s2 i k).
  { specialize (E (Z.to_nat n) 0). by rewrite !Z.add_0_r in E. }
  induction k as [|k IH]; intros i; [done|]. cbn [memcmp_loop KString.memcmp_loop]. destruct (m !! (s1 + i)); [|done]. cbn [mbind option_bind].
  destruct (m !! (s2 + i)); [|done]. cbn [mbind option_bind]. case_match; [done|]. rewrite <- IH. f_equal; lia.
Qed.

Lemma strlen_agrees m s : strlen m s = KString.strlen m s.
Proof.
  unfold strlen, KString.strlen. generalize 0, (str_fuel m). intros len fuel. revert len. induction fuel as [|f IH]; intros len; [done|].
  cbn [strlen_loop KString.strlen_loop]. destruct (m !! _); [|done]. cbn [mbind option_bind]. destruct (nonzero _); [apply IH|done].
Qed.

Lemma strcpy_loop_agrees fuel : forall m d s, strcpy_loop m d s fuel = KString.strcpy_loop m d s fuel.
Proof.
  induction fuel as [|f IH]; intros m d s; [done|]. cbn [strcpy_loop KString.strcpy_loop]. destruct (m !! _); [|done]. cbn [mbind option_bind].
  destruct (mset _ _ _); [|done]. cbn [mbind option_bind]. destruct (nonzero _); [apply IH|done].
Qed.

Lemma strcpy_agrees m d s : strcpy m d s = KString.strcpy m d s.
Proof. apply strcpy_loop_agrees. Qed.

Lemma strcat_agrees m d s : strcat m d s = KString.strcat m d s.
Proof. unfold strcat, KString.strcat. rewrite strlen_agrees. destruct (KString.strlen m d); [|done]. apply strcpy_loop_agrees. Qed.

Lemma strncpy_agrees m d s n : strncpy m d s n = KString.strncpy m d s n.
Proof.
  unfold strncpy, KString.strncpy.
  enough (E : forall k m i, strncpy_loop m d s i k = '(m1, i, rest) ← KString.strncpy_loop m d s i k; set_up m1 d 0 i rest) by apply E.
  clear m. induction k as [|k IH]; intros m i; [done|].
  cbn [strncpy_loop KString.strncpy_loop]. destruct (m !! _); [|done]. cbn [mbind option_bind]. destruct (nonzero _).
  - destruct (mset _ _ _); [|done]. cbn [mbind option_bind]. apply IH.
  - cbn [mbind option_bind]. apply fill_agrees.
Qed.

Lemma strcmp_agrees m s1 s2 : strcmp m s1 s2 = KString.strcmp m s1 s2.
Proof.
  unfold strcmp, KString.strcmp. generalize (str_fuel m). intros fuel. revert s1 s2. induction fuel as [|f IH]; intros s1 s2; [done|].
  cbn [strcmp_loop KString.strcmp_loop]. destruct (m !! s1) as [a|]; [|done]. cbn [mbind option_bind]. destruct (nonzero a).
  - destruct (m !! s2) as [b|]; [|done]. cbn [mbind option_bind andb]. destruct (a =? b); [apply IH|done].
  - done.
Qed.

Lemma strncmp_agrees m s1 s2 n : 0 <= n -> strncmp m s1 s2 n = KString.strncmp m s1 s2 n.
Proof.
  intros Hn. unfold strncmp, KString.strncmp.
  enough (E : forall k i, strncmp_loop m (s1 + i) (s2 + i) k = KString.strncmp_loop m s1 s2 i k).
  { specialize (E (Z.to_nat n) 0). rewrite !Z.add_0_r in E. destruct (Z.eqb_spec n 0) as [->|]; [done|exact E]. }
  induction k as [|k IH]; intros i; [done|]. cbn [strncmp_loop KString.strncmp_loop]. destruct (m !! (s1 + i)) as [a|]; [|done]. cbn [mbind option_bind].
  destruct (m !! (s2 + i)) as [b|]; [|done]. cbn [mbind option_bind]. unfold nonzero.
  destruct (Z.eqb_spec a b) as [->|]; [|by rewrite andb_false_r]. destruct (Z.eqb_spec b 0) as [->|]; [done|]. cbn [andb negb]. rewrite <- IH. f_equal; lia.
Qed.

Lemma strchr_agrees m s c : strchr m s c = KString.strchr m s c.
Proof.
  unfold strchr, KString.strchr. generalize (str_fuel m). intros fuel. revert s. induction fuel as [|f IH]; intros s; [done|].
  cbn [strchr_loop KString.strchr_loop]. destruct (m !! s); [|done]. cbn [mbind option_bind]. destruct (nonzero _); [|done]. destruct (_ =? _); [done|apply IH].
Qed.

Lemma strrchr_agrees m s c : strrchr m s c = KString.strrchr m s c.
Proof.
  unfold strrchr, KString.strrchr. generalize 0, (str_fuel m). intros ret fuel. revert s ret. induction fuel as [|f IH]; intros s ret; [done|].
  cbn [strrchr_loop KString.strrchr_loop]. destruct (m !! s) as [x|]; [|done]. cbn [mbind option_bind]. unfold nonzero.
  destruct (Z.eqb_spec x 0) as [->|]; [|apply IH]. cbn [negb]. by rewrite Z.eqb_sym.
Qed.

(** On every memory the user library and the kernel compute the same: bytes
    copied, filled and compared, strings measured, copied, joined, compared and
    searched, inaccessible bytes included. *)
Theorem string_libraries_agree (m : bmem) (a b c n : Z) : 0 <= n ->
  memcpy m a b n = KString.memcpy m a b n /\
  (a <> b \/ (bytes_ok m /\ readable m a n) -> memmove m a b n = KString.memmove m a b n) /\
  memset m a c n = KString.memset m a c n /\ memcmp m a b n = KString.memcmp m a b n /\
  strlen m a = KString.strlen m a /\ strcpy m a b = KString.strcpy m a b /\ strncpy m a b n = KString.strncpy m a b n /\
  strcat m a b = KString.strcat m a b /\ strcmp m a b = KString.strcmp m a b /\ strncmp m a b n = KString.strncmp m a b n /\
  strchr m a c = KString.strchr m a c /\ strrchr m a c = KString.strrchr m a c.
Proof.
  intros Hn. pose proof memmove_agrees m a b n Hn. pose proof strncmp_agrees m a b n Hn.
  auto 20 using memcpy_agrees, memset_agrees, memcmp_agrees, strlen_agrees, strcpy_agrees, strncpy_agrees, strcat_agrees, strcmp_agrees,
    strchr_agrees, strrchr_agrees.
Qed.

Lemma string_libraries_agree_witness :
  strcat demo_text 13 30 = KString.strcat demo_text 13 30 /\ memmove demo_text 10 10 2 = KString.memmove demo_text 10 10 2.
Proof.
  destruct (string_libraries_agree demo_text 13 30 0 0) as (_ & _ & _ & _ & _ & _ & _ & Ec & _); [lia|].
  destruct (string_libraries_agree demo_text 10 10 0 2) as (_ & Em & _); [lia|].
  split; [exact Ec|]. apply Em. right. split; [by apply bytes_check|by apply readable_check].
Defined.

(** ** Words *)

(** Reference: the maximal runs of characters that do not separate. *)
Fixpoint words_by (sep : Z -> bool) (t cur : list Z) : list (list Z) :=
  match t with
  | [] => if decide (cur = []) then [] else [cur]
  | c :: t => if sep c then (if decide (cur = []) then [] else [cur]) ++ words_by sep t [] else words_by sep t (cur ++ [c])
  end.

(** The characters before the first with [p]. *)
Fixpoint before (p : Z -> bool) (t : list Z) : list Z := match t with [] => [] | c :: t => if p c then [] else c :: before p t end.

Fixpoint from (p : Z -> bool) (t : list Z) : list Z := match t with [] => [] | c :: t' => if p c then t else from p t' end.

Lemma before_from p t : t = before p t ++ from p t.
Proof. induction t as [|c t IH]; [done|]. cbn [before from]. destruct (p c); [done|]. cbn [app]. by rewrite <- IH. Qed.

Lemma from_head p t c r : from p t = c :: r -> p c = true.
Proof. induction t as [|d t IH]; [done|]. cbn [from]. destruct (p d) eqn:E; [by intros [= -> _]|done]. Qed.

Lemma words_skip sep t : words_by sep t [] = words_by sep (from (fun c => negb (sep c)) t) [].
Proof. induction t as [|c t IH]; [done|]. cbn [words_by from]. destruct (sep c) eqn:E; cbn [negb]; [by rewrite decide_True|]. cbn [words_by]. by rewrite E. Qed.

Lemma words_run sep t cur : words_by sep t cur = words_by sep (from sep t) (cur ++ before sep t).
Proof.
  revert cur. induction t as [|c t IH]; intros cur; cbn [from before]; [by rewrite app_nil_r|]. destruct (sep c) eqn:E; [by rewrite app_nil_r|].
  cbn [words_by]. rewrite E, IH. by rewrite <- app_assoc.
Qed.

(** The first word of a text that begins with one. *)
Lemma words_first sep c t : sep c = false ->
  words_by sep (c :: t) [] = before sep (c :: t) :: match from sep (c :: t) with [] => [] | _ :: r => words_by sep r [] end.
Proof.
  intros E. rewrite words_run. cbn [app]. assert (Hb : before sep (c :: t) <> []) by (cbn [before]; by rewrite E).
  destruct (from sep (c :: t)) as [|d r] eqn:Ef; cbn [words_by]; [by rewrite decide_False|].
  rewrite (from_head _ _ _ _ Ef). by rewrite decide_False.
Qed.

(** The first word of a text, and what follows the character that ends it. *)
Definition next_word (sep : Z -> bool) (t : list Z) : option (list Z * option (list Z)) :=
  let t' := from (fun c => negb (sep c)) t in
  match t' with [] => None | _ => Some (before sep t', match from sep t' with [] => None | _ :: r => Some r end) end.

Lemma words_next sep t : words_by sep t [] = match next_word sep t with None => [] | Some (w, r) => w :: words_by sep (default [] r) [] end.
Proof.
  rewrite words_skip. unfold next_word. destruct (from _ t) as [|c t'] eqn:E; [done|].
  assert (Hs : sep c = false) by (by apply from_head, negb_true_iff in E). rewrite words_first by done. by destruct (from sep (c :: t')).
Qed.

(** A string is a prefix of characters cut by a NUL. *)
Lemma cstr_cut m x y : forall a, cstr m a (x ++ y) -> cstr (<[a + alen x := 0]> m) a x.
Proof.
  induction x as [|c x IH]; intros a L; cbn [cstr app] in *; [by rewrite Z.add_0_r, lookup_insert_eq|]. destruct L as (E & Hc & L).
  unfold alen in *. cbn [length]. rewrite lookup_insert_ne by lia. split; [done|]. split; [done|].
  replace (a + Z.of_nat (S (length x))) with (a + 1 + Z.of_nat (length x)) by lia. by apply IH.
Qed.

Lemma cstr_frame m m' x : forall a, (forall b, a <= b <= a + alen x -> m' !! b = m !! b) -> cstr m a x -> cstr m' a x.
Proof.
  induction x as [|c x IH]; intros a Ha; cbn [cstr]; unfold alen in *; cbn [length] in *; [intros E; by rewrite Ha by lia|].
  intros (E & Hc & L). rewrite Ha by lia. split; [done|]. split; [done|]. apply IH; [|done]. intros b Hb. apply Ha. lia.
Qed.

Lemma strchr_in m set ds c : cstr m set ds -> 0 < set -> 0 < c < 256 ->
  exists r, strchr m set c = Some r /\ nonzero r = bool_decide (c ∈ ds).
Proof.
  intros L Hs Hc. unfold strchr. rewrite wrap_small by (unfold fits; lia). pose proof (cstr_fuel _ _ _ L) as Hf. revert Hf. generalize (str_fuel m). intros fuel.
  revert set fuel L Hs. induction ds as [|d ds IH]; intros set [|fuel] L Hs Hf; cbn [length] in Hf; try lia; cbn [cstr] in L; cbn [strchr_loop].
  - rewrite L. cbn [mbind option_bind nonzero negb Z.eqb]. rewrite (proj2 (Z.eqb_neq c 0)) by lia. exists 0. split; [done|]. symmetry. apply bool_decide_false, not_elem_of_nil.
  - destruct L as (-> & Hd & L). cbn [mbind option_bind]. rewrite (proj2 (nonzero_true d) Hd). destruct (Z.eqb_spec d c) as [->|Hne].
    + exists set. split; [done|]. rewrite (proj2 (nonzero_true set)) by lia. symmetry. apply bool_decide_true. by left.
    + destruct (IH (set + 1) fuel L) as (r & -> & Er); [lia|lia|]. exists r. split; [done|]. rewrite Er. apply bool_decide_ext. rewrite elem_of_cons. naive_solver.
Qed.

Definition member (ds : list Z) (c : Z) : bool := bool_decide (c ∈ ds).

Lemma span_spec m set ds stop t : bytes_ok m -> cstr m set ds -> 0 < set -> forall s count fuel, cstr m s t -> (length t < fuel)%nat ->
  span_loop m s set count stop fuel = Some (count + alen (before (fun c => eqb (member ds c) stop) t)).
Proof.
  intros Hb Ls Hs. induction t as [|c t IH]; intros s count [|fuel] L Hf; cbn [length] in Hf; try lia; cbn [cstr] in L; cbn [span_loop before].
  - rewrite L. cbn. f_equal. unfold alen. cbn. lia.
  - destruct L as (E & Hc & L). rewrite E. cbn [mbind option_bind]. rewrite (proj2 (nonzero_true c) Hc).
    destruct (strchr_in m set ds c Ls Hs) as (r & -> & Hr); [pose proof (Hb _ _ E); lia|]. cbn [mbind option_bind]. rewrite Hr. fold (member ds c).
    destruct (eqb (member ds c) stop); [f_equal; unfold alen; cbn; lia|]. rewrite (IH _ _ fuel L) by lia. f_equal. unfold alen. cbn [length]. lia.
Qed.

(** ** strtok *)

Section tokens.
Context (delim : Z) (ds : list Z).

Notation sep := (member ds).

(** A text at [a] that the library may cut, the delimiters elsewhere. *)
Record cuttable (m : bmem) (a : Z) (t : list Z) : Prop := Cuttable {
  ct_bytes : bytes_ok m;
  ct_text : cstr m a t;
  ct_delim : cstr m delim ds;
  ct_pos : 0 < a /\ 0 < delim;
  ct_apart : a + alen t < delim \/ delim + alen ds < a }.

Lemma strtok_spec m olds a t : cuttable m a t ->
  exists m' o tok, strtok m olds a delim = Some (m', o, tok) /\
    match next_word sep t with
    | None => m' = m /\ o = 0 /\ tok = 0
    | Some (w, ro) =>
        0 < tok /\ a <= tok /\ tok + alen w <= a + alen t /\ cstr m' tok w /\
        match ro with
        | None => o = 0 /\ m' = m
        | Some r => o = tok + alen w + 1 /\ m' = <[tok + alen w := 0]> m /\ o + alen r = a + alen t /\ cuttable m' o r
        end
    end.
Proof.
  intros [Hb Lt Ld [Ha Hd] Hap]. unfold strtok. rewrite (proj2 (Z.eqb_neq a 0)) by lia. rewrite (proj2 (Z.eqb_neq a 0)) by lia.
  pose proof (span_spec m delim ds false t Hb Ld Hd a 0 (str_fuel m) Lt (cstr_fuel _ _ _ Lt)) as Es. unfold strspn. rewrite Es. cbn [mbind option_bind]. clear Es.
  set (p := fun c => eqb (sep c) false). assert (Hp : forall c, p c = negb (sep c)) by (intros c; subst p; cbn; by destruct (sep c)).
  unfold next_word. replace (from (fun c => negb (sep c)) t) with (from p t) by (clear -Hp; induction t as [|c t IH]; [done|]; cbn; by rewrite Hp, IH).
  pose proof (before_from p t) as Et. set (x := before p t) in *. set (y := from p t) in *. assert (Ly : cstr m (a + alen x) y) by (apply cstr_app; by rewrite <- Et).
  pose proof (f_equal alen Et) as El. unfold alen in El. rewrite length_app in El.
  remember y as z eqn:Ey. symmetry in Ey. subst y. pose proof Ly as Ly0. destruct z as [|c y]; cbn [cstr] in Ly.
  { rewrite Z.add_0_l, Ly. cbn. by exists m, 0, 0. }
  pose proof Ly as (Ec & Hc & _). rewrite Z.add_0_l, Ec. cbn [mbind option_bind]. rewrite (proj2 (Z.eqb_neq c 0) Hc).
  assert (Hsep : sep c = false) by (pose proof (from_head p t c y Ey) as Hh; rewrite Hp in Hh; by apply negb_true_iff in Hh).
  set (tok := a + alen x) in *.
  pose proof (span_spec m delim ds true (c :: y) Hb Ld Hd tok 0 (str_fuel m) Ly0 (cstr_fuel _ _ _ Ly0)) as Es. unfold strcspn. rewrite Es. cbn [mbind option_bind]. clear Es.
  replace (before (fun c => eqb (member ds c) true) (c :: y)) with (before sep (c :: y))
    by (generalize (c :: y); intros z; induction z as [|e z IH]; [done|]; cbn; rewrite IH; by destruct (sep e)).
  rewrite Z.add_0_l. pose proof (before_from sep (c :: y)) as Ew. set (w := before sep (c :: y)) in *. set (r := from sep (c :: y)) in *.
  pose proof (f_equal alen Ew) as Ewl. unfold alen in Ewl. rewrite length_app in Ewl.
  assert (Lr : cstr m (tok + alen w) r) by (apply cstr_app; rewrite <- Ew; exact Ly0).
  assert (Hw : w <> []) by (subst w; cbn [before]; by rewrite Hsep).
  assert (Htok : tok = a + alen x) by done. clearbody w tok.
  assert (Hin : 0 < tok /\ a <= tok /\ tok + alen w <= a + alen t) by (unfold alen in *; split_and!; lia).
  remember r as z eqn:Er. symmetry in Er. subst r. destruct z as [|e r]; cbn [cstr] in Lr.
  - rewrite Lr. cbn. exists m, 0, tok. split; [done|]. rewrite app_nil_r in Ew. split_and!; try lia; [rewrite <- Ew; exact Ly0|done..].
  - destruct Lr as (Ee & He & Lr). rewrite Ee. cbn [mbind option_bind]. rewrite (proj2 (nonzero_true e) He).
    rewrite mset_spec by (lia || by eexists). cbn [mbind option_bind]. do 3 eexists. split; [reflexivity|]. split_and!; try lia.
    { apply cstr_cut with (e :: r). rewrite <- Ew. exact Ly0. }
    { done. }
    { unfold alen in *. cbn [length] in Ewl, El. lia. }
    unfold alen in *. cbn [length] in Ewl, El. split.
    + apply bytes_insert; [done|lia].
    + eapply cstr_frame; [|exact Lr]. intros b Hbb. rewrite lookup_insert_ne; [done|]. unfold alen in Hbb. lia.
    + eapply cstr_frame; [|exact Ld]. intros b Hbb. rewrite lookup_insert_ne; [done|]. unfold alen in Hbb. lia.
    + lia.
    + unfold alen. lia.
Qed.

Lemma strtok_next m o : 0 < o -> forall olds, strtok m o 0 delim = strtok m olds o delim.
Proof. intros Ho olds. unfold strtok. cbv zeta. cbn [Z.eqb]. assert (E : (o =? 0) = false) by (apply Z.eqb_neq; lia). rewrite E. cbv iota. by rewrite E. Qed.

(** The first [room] words, each a string in memory; nothing outside the text changes. *)
Lemma token_loop_spec room : forall m olds a t, cuttable m a t ->
  exists m1 o1 tok m2 o2 ts, strtok m olds a delim = Some (m1, o1, tok) /\ token_loop m1 o1 tok delim room = Some (m2, o2, ts) /\
    Forall2 (cstr m2) ts (take room (words_by sep t [])) /\ Forall (fun p => a <= p <= a + alen t) ts /\
    (forall b, b < a \/ a + alen t < b -> m2 !! b = m !! b) /\ bytes_ok m2.
Proof.
  induction room as [|room IH]; intros m olds a t C; destruct (strtok_spec m olds a t C) as (m1 & o1 & tok & E & Hw); exists m1, o1, tok.
  - exists m1, o1, []. split; [done|]. split; [cbn [token_loop]; by destruct (tok =? 0)|]. rewrite take_0. split; [done|]. split; [done|].
    pose proof (ct_bytes _ _ _ C) as Hb. destruct (next_word sep t) as [[w [r|]]|]; [|by destruct Hw as (_ & _ & _ & _ & _ & ->)|by destruct Hw as (-> & _)].
    destruct Hw as (_ & ? & ? & _ & _ & -> & _). pose proof (alen_nonneg w). split; [|apply bytes_insert; [done|lia]].
    intros b Hb'. apply lookup_insert_ne. lia.
  - rewrite words_next. pose proof (ct_bytes _ _ _ C) as Hb. destruct (next_word sep t) as [[w ro]|].
    2: { destruct Hw as (-> & -> & ->). exists m, 0, []. by split_and!. }
    destruct Hw as (Htok & Hle & Hend & Lw & C'). cbn [token_loop]. rewrite (proj2 (Z.eqb_neq tok 0)) by lia. pose proof (alen_nonneg w) as Hwn.
    destruct ro as [r|].
    + destruct C' as (-> & -> & Hr & C1).
      destruct (IH _ 0 _ r C1) as (m2 & o2 & t2 & m3 & o3 & ts & E2 & E3 & F & Hts & Hm & Hb3).
      rewrite (strtok_next _ (tok + alen w + 1)) with (olds := 0) by lia. rewrite E2. cbn [mbind option_bind]. rewrite E3. cbn [mbind option_bind].
      exists m3, o3, (tok :: ts). split; [done|]. split; [done|]. cbn [take default]. split_and!.
      * constructor; [|done]. eapply cstr_frame; [|exact Lw]. intros b Hbb. apply Hm. lia.
      * constructor; [lia|]. eapply Forall_impl; [exact Hts|]. intros b ?. cbn in *. pose proof (alen_nonneg r). lia.
      * intros b Hbb. pose proof (alen_nonneg r). rewrite Hm by lia. apply lookup_insert_ne. lia.
      * done.
    + destruct C' as (-> & ->). exists m, 0, [tok]. split; [done|]. split; [cbn; by destruct room|]. cbn [take default words_by]. rewrite firstn_nil.
      split_and!; try done; [by constructor|constructor; [lia|done]].
Qed.

End tokens.
