(* ===== verification/LibcStdio.v ===== *)
(** The user library's input and output: userspace/libc/src/unistd.c, stdio.c and the
    allocation of FILE objects, over the system calls of the kernel.

    The system calls are an interface that takes and gives the bytes behind the
    pointers.  A program has a byte memory (stack, data, literals), the heap of
    LibcHeap, and FILE objects.  A local array that only one call uses is the
    list of its bytes; a write behind it, or through a pointer into the void, is
    [None].  Literals are at addresses that the linker chooses.

    The user library's output is the rendering of its format, its input is cut into
    lines; and what the kernel's [sys_read] makes of a file read in pieces. *)
From stdpp Require Import prelude gmap list strings.
From Stdlib Require Import ZArith Lia.
From S2P Require Import Prelude KString Printf PrintfThm LibcHeap LibcString.

Open Scope Z_scope.

(** Result registers, and the bytes the kernel writes to the buffer. *)
Class Posix (W : Type) := {
  posix_brk :: Brk W;
  sys_read : W -> Z -> Z -> option (W * Z * list Z);
  sys_write : W -> Z -> list Z -> option (W * Z);
  sys_open : W -> list Z -> Z -> Z -> option (W * Z);
  sys_close : W -> Z -> option (W * Z) }.

Definition O_RDONLY : Z := 0.
Definition O_WRONLY : Z := 1.
Definition O_RDWR : Z := 2.
Definition O_CREAT : Z := 64.
Definition O_TRUNC : Z := 512.
Definition O_APPEND : Z := 1024.

Definition STDIN_FILENO : Z := 0.
Definition STDOUT_FILENO : Z := 1.
Definition STDERR_FILENO : Z := 2.

Definition INT_MIN : Z := - 2 ^ 31.

Record FILE := File { fd : Z; error : Z; eof : Z }.

Definition sizeof_FILE : Z := 12.

(** The static objects [_stdin], [_stdout], [_stderr], below any heap. *)
Definition stdin : Z := 4096.
Definition stdout : Z := 4112.
Definition stderr : Z := 4128.

Definition std_files : gmap Z FILE :=
  {[ stdin := File STDIN_FILENO 0 0; stdout := File STDOUT_FILENO 0 0; stderr := File STDERR_FILENO 0 0 ]}.

(** ** Bytes behind pointers *)

(** The [n] bytes at [a]. *)
Fixpoint get_bytes (m : bmem) (a : Z) (n : nat) : option (list Z) :=
  match n with O => Some [] | S n => b ← m !! a; bs ← get_bytes m (a + 1) n; Some (b :: bs) end.

Fixpoint put_bytes (m : bmem) (a : Z) (bs : list Z) : option bmem :=
  match bs with [] => Some m | b :: bs => m' ← mset m a b; put_bytes m' (a + 1) bs end.

(** The string at [a]. *)
Definition get_str (m : bmem) (a : Z) : option (list Z) := n ← strlen m a; get_bytes m a (Z.to_nat n).

(** ** vsnprintf *)

Section vsnprintf.
Context (m : bmem) (n : Z).

(** [buf[count++] = c]: [out] is the list of the bytes before [count]. *)
Definition put_char (out : list Z) (c : Z) : option (list Z) := if alen out <? n then Some (out ++ [u8 c]) else None.

(** [while ( *s && count < n - 1) buf[count++] = *s++;]. *)
Fixpoint put_string (out : list Z) (s : Z) (fuel : nat) : option (list Z) :=
  match fuel with
  | O => None
  | S fuel =>
      c ← m !! s;
      if nonzero c && (alen out <? n - 1) then out' ← put_char out c; put_string out' (s + 1) fuel else Some out
  end.

(** The loop on the characters of a literal. *)
Fixpoint put_list (out s : list Z) : option (list Z) :=
  match s with
  | [] => Some out
  | c :: s => if alen out <? n - 1 then out' ← put_char out c; put_list out' s else Some out
  end.

(** [do { num[i++] = uval % 10 + '0'; uval /= 10; } while (uval && i < 32);]. *)
Fixpoint digits (uval : Z) (rounds : nat) : list Z :=
  match rounds with
  | O => []
  | S rounds => (uval mod 10 + 48) :: (if nonzero (uval / 10) then digits (uval / 10) rounds else [])
  end.

Definition put_int (out : list Z) (val : Z) : option (list Z) :=
  if val =? INT_MIN then None
  else
    out1 ← (if val <? 0 then if alen out <? n - 1 then put_char out 45 else Some out else Some out);
    put_list out1 (rev (digits (Z.abs val) 32)).

Definition va_arg (args : list Z) : option (Z * list Z) := match args with [] => None | a :: args => Some (a, args) end.

(** The character after a percent sign. *)
Definition put_directive (out : list Z) (c : Z) (args : list Z) : option (list Z * list Z) :=
  if c =? 115 then
    '(s, args) ← va_arg args;
    out' ← (if s =? 0 then put_list out (txt "(null)") else put_string out s (str_fuel m));
    Some (out', args)
  else if (c =? 100) || (c =? 105) then '(v, args) ← va_arg args; out' ← put_int out (s32 v); Some (out', args)
  else if c =? 99 then '(v, args) ← va_arg args; out' ← put_char out v; Some (out', args)
  else if c =? 37 then out' ← put_char out 37; Some (out', args)
  else Some (out, args).

Fixpoint vsnprintf_loop (out : list Z) (fmt : Z) (args : list Z) (fuel : nat) : option (list Z) :=
  match fuel with
  | O => None
  | S fuel =>
      c ← m !! fmt;
      if nonzero c && (alen out <? n - 1) then
        if c =? 37 then
          d ← m !! (fmt + 1);
          '(out', args') ← put_directive out d args;
          vsnprintf_loop out' (fmt + 2) args' fuel
        else out' ← put_char out c; vsnprintf_loop out' (fmt + 1) args fuel
      else Some out
  end.

(** What the buffer holds before its NUL, and the value returned is its length;
    with an empty buffer nothing is written. *)
Definition vsnprintf (fmt : Z) (args : list Z) : option (list Z) :=
  if n =? 0 then Some []
  else out ← vsnprintf_loop [] fmt args (str_fuel m); if alen out <? n then Some out else None.

End vsnprintf.

(** ** Programs *)

Section stdio.
Context {W : Type} `{Posix W}.

#[local] Existing Instance posix_brk.

Record prog := Prog { p_mem : bmem; p_lib : lib W; p_files : gmap Z FILE; p_olds : Z }.

Definition with_mem (p : prog) (m : bmem) : prog := Prog m (p_lib p) (p_files p) (p_olds p).
Definition with_lib (p : prog) (l : lib W) : prog := Prog (p_mem p) l (p_files p) (p_olds p).
Definition with_files (p : prog) (f : gmap Z FILE) : prog := Prog (p_mem p) (p_lib p) f (p_olds p).

Definition os (p : prog) : W := (p_lib p).2.
Definition with_os (p : prog) (w : W) : prog := with_lib p ((p_lib p).1, w).

Definition LINE_FEED : Z := 10.

(** *** unistd.c *)

Definition read (p : prog) (fd buf count : Z) : option (prog * Z) :=
  '(w, r, bytes) ← sys_read (os p) fd count;
  m ← put_bytes (p_mem p) buf bytes;
  Some (with_mem (with_os p w) m, r).

Definition write_bytes (p : prog) (fd : Z) (bs : list Z) : option (prog * Z) :=
  '(w, r) ← sys_write (os p) fd bs; Some (with_os p w, r).

Definition write (p : prog) (fd buf count : Z) : option (prog * Z) :=
  bs ← get_bytes (p_mem p) buf (Z.to_nat count); write_bytes p fd bs.

(** The mode argument is dropped. *)
Definition open (p : prog) (path flags : Z) : option (prog * Z) :=
  s ← get_str (p_mem p) path; '(w, r) ← sys_open (os p) s flags 0; Some (with_os p w, s32 r).

Definition close (p : prog) (fd : Z) : option (prog * Z) := '(w, r) ← sys_close (os p) fd; Some (with_os p w, s32 r).

(** *** Output *)

Definition printf (p : prog) (fmt : Z) (args : list Z) : option (prog * Z) :=
  out ← vsnprintf (p_mem p) 1024 fmt args; '(p', _) ← write_bytes p STDOUT_FILENO out; Some (p', alen out).

Definition fprintf (p : prog) (stream fmt : Z) (args : list Z) : option (prog * Z) :=
  if stream =? 0 then Some (p, -1)
  else
    f ← p_files p !! stream;
    out ← vsnprintf (p_mem p) 1024 fmt args;
    '(p', _) ← write_bytes p (fd f) out; Some (p', alen out).

Definition snprintf (p : prog) (buf n fmt : Z) (args : list Z) : option (prog * Z) :=
  if n =? 0 then Some (p, 0)
  else out ← vsnprintf (p_mem p) n fmt args; m ← put_bytes (p_mem p) buf (out ++ [0]); Some (with_mem p m, alen out).

Definition sprintf (p : prog) (buf fmt : Z) (args : list Z) : option (prog * Z) := snprintf p buf (1024 * 1024) fmt args.

Definition puts (p : prog) (s : Z) : option (prog * Z) :=
  n ← strlen (p_mem p) s;
  '(p1, r) ← write p STDOUT_FILENO s n;
  '(p2, _) ← write_bytes p1 STDOUT_FILENO [LINE_FEED]; Some (p2, s32 (s32 r + 1)).

Definition putchar (p : prog) (c : Z) : option (prog * Z) := '(p1, r) ← write_bytes p STDOUT_FILENO [u8 c]; Some (p1, s32 r).

Definition fputs (p : prog) (s stream : Z) : option (prog * Z) :=
  f ← p_files p !! stream; n ← strlen (p_mem p) s; '(p1, r) ← write p (fd f) s n; Some (p1, s32 r).

Definition fputc (p : prog) (c stream : Z) : option (prog * Z) :=
  f ← p_files p !! stream; '(p1, r) ← write_bytes p (fd f) [u8 c]; Some (p1, s32 r).

(** [perror] with the text of its argument; [errno] is never set. *)
Definition perror (p : prog) (s fmt_s fmt : Z) : option (prog * Z) :=
  c ← (if s =? 0 then Some 0 else p_mem p !! s);
  if nonzero c then fprintf p stderr fmt_s [s; 0] else fprintf p stderr fmt [0].

(** *** Files *)

(** The flags of a mode string. *)
Definition mode_flags (m : bmem) (mode : Z) : option Z :=
  r ← strchr m mode 114; w ← strchr m mode 119; a ← strchr m mode 97; plus ← strchr m mode 43;
  let p := nonzero plus in
  Some (if nonzero r && p then O_RDWR
        else if nonzero r then O_RDONLY
        else if nonzero w && p then Z.lor O_RDWR (Z.lor O_CREAT O_TRUNC)
        else if nonzero w then Z.lor O_WRONLY (Z.lor O_CREAT O_TRUNC)
        else if nonzero a && p then Z.lor O_RDWR (Z.lor O_CREAT O_APPEND)
        else if nonzero a then Z.lor O_WRONLY (Z.lor O_CREAT O_APPEND)
        else 0).

Definition fopen (p : prog) (path mode : Z) : option (prog * Z) :=
  flags ← mode_flags (p_mem p) mode;
  '(p1, d) ← open p path flags;
  if d <? 0 then Some (p1, 0)
  else
    '(l, f) ← malloc (p_lib p1) sizeof_FILE;
    let p2 := with_lib p1 l in
    if f =? 0 then '(p3, _) ← close p2 d; Some (p3, 0)
    else Some (with_files p2 (<[f := File d 0 0]> (p_files p2)), f).

Definition is_std (f : Z) : bool := (f =? stdin) || (f =? stdout) || (f =? stderr).

Definition fclose (p : prog) (fp : Z) : option (prog * Z) :=
  if fp =? 0 then Some (p, -1)
  else
    f ← p_files p !! fp;
    '(p1, r) ← close p (fd f);
    if is_std fp then Some (p1, r)
    else l ← free (p_lib p1) fp; Some (with_files (with_lib p1 l) (delete fp (p_files p1)), r).

Definition set_error (p : prog) (s : Z) (f : FILE) : prog := with_files p (<[s := File (fd f) 1 (eof f)]> (p_files p)).
Definition set_eof (p : prog) (s : Z) (f : FILE) : prog := with_files p (<[s := File (fd f) (error f) 1]> (p_files p)).

(** [r / size]: a division by zero is undefined. *)
Definition items (r size : Z) : option Z := if size =? 0 then None else Some (r / size).

Definition fread (p : prog) (ptr size nmemb stream : Z) : option (prog * Z) :=
  if stream =? 0 then Some (p, 0)
  else
    f ← p_files p !! stream;
    '(p1, r) ← read p (fd f) ptr (u64 (size * nmemb));
    if r <? 0 then Some (set_error p1 stream f, 0)
    else n ← items r size; Some (if r =? 0 then set_eof p1 stream f else p1, n).

Definition fwrite (p : prog) (ptr size nmemb stream : Z) : option (prog * Z) :=
  if stream =? 0 then Some (p, 0)
  else
    f ← p_files p !! stream;
    '(p1, r) ← write p (fd f) ptr (u64 (size * nmemb));
    if r <? 0 then Some (set_error p1 stream f, 0)
    else n ← items r size; Some (p1, n).

Definition fflush (p : prog) (stream : Z) : prog * Z := (p, 0).

(** [read(fd, &c, 1)] into a local variable. *)
Definition read_char (p : prog) (fd : Z) : option (prog * Z * Z) :=
  '(w, r, bytes) ← sys_read (os p) fd 1; Some (with_os p w, r, default 0 (head bytes)).

(** The loop of [fgets] from index [i], [n] rounds left: where it stops. *)
Fixpoint fgets_loop (p : prog) (s fd i : Z) (n : nat) : option (prog * Z) :=
  match n with
  | O => Some (p, i)
  | S n =>
      '(p1, r, c) ← read_char p fd;
      if r <=? 0 then Some (p1, i)
      else
        m ← mset (p_mem p1) (s + i) c;
        let p2 := with_mem p1 m in
        if c =? LINE_FEED then Some (p2, i + 1) else fgets_loop p2 s fd (i + 1) n
  end.

(** Stopped at index 0 in the first round, nothing was read. *)
Definition fgets (p : prog) (s size stream : Z) : option (prog * Z) :=
  if (size <=? 0) || (stream =? 0) then Some (p, 0)
  else
    f ← p_files p !! stream;
    '(p1, i) ← fgets_loop p s (fd f) 0 (Z.to_nat (size - 1));
    if (i =? 0) && (1 <? size) then Some (p1, 0) else m ← mset (p_mem p1) (s + i) 0; Some (with_mem p1 m, s).

Definition fgetc (p : prog) (stream : Z) : option (prog * Z) :=
  f ← p_files p !! stream; '(p1, r, c) ← read_char p (fd f); Some (p1, if r <=? 0 then -1 else s8 c).

Definition getchar (p : prog) : option (prog * Z) := fgetc p stdin.

Definition feof (p : prog) (stream : Z) : option Z := if stream =? 0 then Some 1 else f ← p_files p !! stream; Some (eof f).
Definition ferror (p : prog) (stream : Z) : option Z := if stream =? 0 then Some 1 else f ← p_files p !! stream; Some (error f).

End stdio.

Arguments prog : clear implicits.

(** ** Theorems *)

(** ** The rendering of a format *)

(** [renders m t args out]: the format text [t] with the argument slots [args] stands
    for [out].  A conversion that the library does not know stands for nothing and
    takes no argument; a format that ends in a percent sign has no rendering. *)
Inductive renders (m : bmem) : list Z -> list Z -> list Z -> Prop :=
| ren_end args : renders m [] args []
| ren_char c t args out : c <> 37 -> renders m t args out -> renders m (c :: t) args (c :: out)
| ren_string a s t args out : cstr m a s -> a <> 0 -> renders m t args out -> renders m (37 :: 115 :: t) (a :: args) (s ++ out)
| ren_null t args out : renders m t args out -> renders m (37 :: 115 :: t) (0 :: args) (txt "(null)" ++ out)
| ren_int c v t args out : c = 100 \/ c = 105 -> s32 v <> - 2 ^ 31 -> renders m t args out ->
    renders m (37 :: c :: t) (v :: args) ((if s32 v <? 0 then [45] else []) ++ numeral false 10 (Z.abs (s32 v)) ++ out)
| ren_c v t args out : renders m t args out -> renders m (37 :: 99 :: t) (v :: args) (u8 v :: out)
| ren_percent t args out : renders m t args out -> renders m (37 :: 37 :: t) args (37 :: out)
| ren_other c t args out : c ∉ [115; 100; 105; 99; 37] -> renders m t args out -> renders m (37 :: c :: t) args out.

Section vsnprintf.
Context (m : bmem) (n : Z) (Hn : 0 < n) (Hb : bytes_ok m).

(** The output so far is the beginning of [full], at most [n - 1] bytes of it. *)
Definition cut (out : list Z) : list Z := take (Z.to_nat (n - 1)) out.

Lemma cut_short out : alen out <= n - 1 -> cut out = out.
Proof. intros H. apply take_ge. unfold alen in H. lia. Qed.

Lemma cut_full out rest : n - 1 <= alen out -> cut (out ++ rest) = cut out.
Proof. intros H. apply take_app_le. unfold alen in H. lia. Qed.

Lemma alen_cut out : alen (cut out) = Z.min (n - 1) (alen out).
Proof. unfold alen, cut. rewrite length_take. lia. Qed.

(** One character. *)
Lemma put_char_cut out c : 0 <= c < 256 -> alen (cut out) < n - 1 -> put_char n (cut out) c = Some (cut (out ++ [c])).
Proof.
  intros Hc H. rewrite alen_cut in H. unfold put_char. rewrite alen_cut, (proj2 (Z.ltb_lt _ _)) by lia. rewrite wrap_small by (unfold fits; lia).
  rewrite !cut_short by (unfold alen in *; rewrite ?length_app; cbn [length]; lia). done.
Qed.

Lemma put_list_cut s : forall out, Forall (fun c => 0 <= c < 256) s -> put_list n (cut out) s = Some (cut (out ++ s)).
Proof.
  induction s as [|c s IH]; intros out F; cbn [put_list]; [by rewrite app_nil_r|]. apply Forall_cons in F as [Hc F].
  destruct (Z.ltb_spec (alen (cut out)) (n - 1)).
  - rewrite put_char_cut by done. cbn [mbind option_bind]. rewrite IH by done. by rewrite <- app_assoc.
  - rewrite alen_cut in *. by rewrite cut_full by lia.
Qed.

Lemma put_string_cut s : forall a out fuel, cstr m a s -> (length s < fuel)%nat -> put_string m n (cut out) a fuel = Some (cut (out ++ s)).
Proof.
  induction s as [|c s IH]; intros a out [|fuel] L Hf; cbn [length] in Hf; try lia; cbn [cstr] in L; cbn [put_string].
  - rewrite L. cbn. by rewrite app_nil_r.
  - destruct L as (E & Hc & L). rewrite E. cbn [mbind option_bind]. rewrite (proj2 (nonzero_true c) Hc). cbn [andb].
    destruct (Z.ltb_spec (alen (cut out)) (n - 1)).
    + rewrite put_char_cut by (done || by apply (Hb a)). cbn [mbind option_bind]. rewrite (IH (a + 1)) by (done || lia). by rewrite <- app_assoc.
    + rewrite alen_cut in *. by rewrite cut_full by lia.
Qed.

Lemma digit_char_10 d : 0 <= d < 10 -> digit_char false d = d + 48.
Proof.
  intros H. assert (d = 0 \/ d = 1 \/ d = 2 \/ d = 3 \/ d = 4 \/ d = 5 \/ d = 6 \/ d = 7 \/ d = 8 \/ d = 9) as C by lia.
  repeat (destruct C as [->|C]; [done|]). by subst.
Qed.

Lemma digits_lsd k : forall v rounds, 0 < v < 10 ^ Z.of_nat k -> (k <= rounds)%nat -> digits v rounds = map (digit_char false) (lsd 10 k v).
Proof.
  induction k as [|k IH]; intros v [|r] Hv Hr; try (cbn in *; lia). cbn [digits lsd]. rewrite (proj2 (Z.eqb_neq v 0)) by lia. cbn [map].
  rewrite digit_char_10 by (apply Z.mod_pos_bound; lia). f_equal. rewrite Nat2Z.inj_succ, Z.pow_succ_r in Hv by lia.
  unfold nonzero. destruct (Z.eqb_spec (v / 10) 0) as [E|E]; cbn [negb].
  - rewrite E. by destruct k.
  - apply IH; [|lia]. split; [|apply Z.div_lt_upper_bound; lia]. pose proof (Z.div_pos v 10 ltac:(lia) ltac:(lia)). lia.
Qed.

Lemma digits_numeral v : 0 <= v < 2 ^ 32 -> rev (digits v 32) = numeral false 10 v.
Proof. intros Hv. unfold numeral. case_bool; [by subst|]. f_equal. apply digits_lsd; [|lia]. change (10 ^ Z.of_nat 20) with 100000000000000000000. lia. Qed.

Lemma put_int_cut out v : v <> - 2 ^ 31 -> - 2 ^ 31 <= v < 2 ^ 31 ->
  put_int n (cut out) v = Some (cut (out ++ (if v <? 0 then [45] else []) ++ numeral false 10 (Z.abs v))).
Proof.
  intros Hv Hr. unfold put_int, INT_MIN. rewrite (proj2 (Z.eqb_neq v _)) by done. rewrite digits_numeral by lia. rewrite app_assoc.
  assert (E : (if v <? 0 then if alen (cut out) <? n - 1 then put_char n (cut out) 45 else Some (cut out) else Some (cut out)) =
    Some (cut (out ++ (if v <? 0 then [45] else [])))).
  { destruct (v <? 0); [|by rewrite app_nil_r]. destruct (Z.ltb_spec (alen (cut out)) (n - 1)); [by rewrite put_char_cut|].
    rewrite alen_cut in *. by rewrite cut_full by lia. }
  rewrite E. cbn [mbind option_bind]. apply put_list_cut, numeral_bytes. by left.
Qed.

(** A full buffer ends the loop. *)
Lemma loop_full fmt acc args fuel c rest : m !! fmt = Some c -> n - 1 <= alen (cut acc) ->
  vsnprintf_loop m n (cut acc) fmt args (S fuel) = Some (cut (acc ++ rest)).
Proof.
  intros E H. cbn [vsnprintf_loop]. rewrite E. cbn [mbind option_bind]. rewrite (proj2 (Z.ltb_ge _ _)) by done.
  rewrite andb_false_r. rewrite alen_cut in H. by rewrite cut_full by lia.
Qed.

(** A conversion that stands for [s], and the rest for [out]. *)
Lemma loop_directive fmt acc args args' fuel d t s out : cstr m fmt (37 :: d :: t) -> (length (37%Z :: d :: t) < fuel)%nat ->
  (alen (cut acc) < n - 1 -> put_directive m n (cut acc) d args = Some (cut (acc ++ s), args')) ->
  (forall fuel, cstr m (fmt + 2) t -> (length t < fuel)%nat ->
    vsnprintf_loop m n (cut (acc ++ s)) (fmt + 2) args' fuel = Some (cut ((acc ++ s) ++ out))) ->
  vsnprintf_loop m n (cut acc) fmt args fuel = Some (cut (acc ++ s ++ out)).
Proof.
  intros L Hf Ed IH. destruct fuel as [|fuel]; cbn [length] in Hf; [lia|]. destruct L as (E & _ & Ed1 & _ & L).
  destruct (Z.lt_ge_cases (alen (cut acc)) (n - 1)) as [Hlt|Hge]; [|by eapply loop_full].
  cbn [vsnprintf_loop]. rewrite E. cbn [mbind option_bind]. rewrite (proj2 (Z.ltb_lt _ _) Hlt). cbn [nonzero Z.eqb negb andb Pos.eqb].
  rewrite Ed1. cbn [mbind option_bind]. rewrite Ed by done. cbn [mbind option_bind].
  rewrite IH; [by rewrite <- app_assoc| |lia]. by replace (fmt + 2) with (fmt + 1 + 1) by lia.
Qed.

Lemma vsnprintf_loop_cut t args out : renders m t args out -> forall fmt acc fuel, cstr m fmt t -> (length t < fuel)%nat ->
  vsnprintf_loop m n (cut acc) fmt args fuel = Some (cut (acc ++ out)).
Proof.
  induction 1 as [args|c t args out Hc Hr IH|a s t args out Ls Ha Hr IH|t args out Hr IH|c v t args out Hc Hv Hr IH|v t args out Hr IH|t args out Hr IH|c t args out Hc Hr IH];
    intros fmt acc fuel L Hf.
  - destruct fuel; cbn [length] in Hf; [lia|]. cbn [cstr] in L. cbn [vsnprintf_loop]. rewrite L. cbn. by rewrite app_nil_r.
  - destruct fuel as [|fuel]; cbn [length] in Hf; [lia|]. destruct L as (E & Hc0 & L).
    destruct (Z.lt_ge_cases (alen (cut acc)) (n - 1)) as [Hlt|Hge]; [|by eapply loop_full].
    cbn [vsnprintf_loop]. rewrite E. cbn [mbind option_bind]. rewrite (proj2 (Z.ltb_lt _ _) Hlt), (proj2 (nonzero_true c) Hc0). cbn [andb].
    rewrite (proj2 (Z.eqb_neq c 37) Hc). rewrite put_char_cut by (done || by apply (Hb fmt)). cbn [mbind option_bind].
    rewrite IH by (done || lia). by rewrite <- app_assoc.
  - eapply (loop_directive fmt acc (a :: args) args fuel 115); [exact L|exact Hf| |intros; by apply IH]. intros _.
    unfold put_directive. cbn [Z.eqb Pos.eqb va_arg mbind option_bind]. rewrite (proj2 (Z.eqb_neq a 0) Ha).
    by rewrite (put_string_cut s) by (done || by eapply cstr_fuel).
  - eapply (loop_directive fmt acc (0 :: args) args fuel 115); [exact L|exact Hf| |intros; by apply IH]. intros _.
    unfold put_directive. cbn [Z.eqb Pos.eqb va_arg mbind option_bind]. rewrite put_list_cut; [done|]. by repeat constructor.
  - rewrite (app_assoc _ (numeral _ _ _) out).
    eapply (loop_directive fmt acc (v :: args) args fuel c); [exact L|exact Hf| |intros; by apply IH]. intros _.
    assert (Hs : - 2 ^ 31 <= s32 v < 2 ^ 31) by (unfold swrap; zmod).
    unfold put_directive. destruct Hc as [-> | ->]; cbn [Z.eqb Pos.eqb orb va_arg mbind option_bind]; by rewrite put_int_cut.
  - change (u8 v :: out) with ([u8 v] ++ out).
    eapply (loop_directive fmt acc (v :: args) args fuel 99); [exact L|exact Hf| |intros; by apply IH]. intros Hlt.
    unfold put_directive. cbn [Z.eqb Pos.eqb orb va_arg mbind option_bind].
    replace (put_char n (cut acc) v) with (put_char n (cut acc) (u8 v)) by (unfold put_char; by rewrite wrap_wrap).
    rewrite put_char_cut by (done || apply (wrap_fits 8 v); lia). done.
  - change (37 :: out) with ([37] ++ out).
    eapply (loop_directive fmt acc args args fuel 37); [exact L|exact Hf| |intros; by apply IH]. intros Hlt.
    unfold put_directive. cbn [Z.eqb Pos.eqb orb]. by rewrite put_char_cut.
  - change out with ([] ++ out). eapply (loop_directive fmt acc args args fuel c); [exact L|exact Hf| |intros; by apply IH]. intros _.
    unfold put_directive. rewrite app_nil_r. rewrite !not_elem_of_cons in Hc. destruct Hc as (H1 & H2 & H3 & H4 & H5 & _).
    rewrite (proj2 (Z.eqb_neq c 115)), (proj2 (Z.eqb_neq c 100)), (proj2 (Z.eqb_neq c 105)), (proj2 (Z.eqb_neq c 99)), (proj2 (Z.eqb_neq c 37)) by done. done.
Qed.

End vsnprintf.

Lemma vsnprintf_spec (m : bmem) (n fmt : Z) (t args out : list Z) :
  0 < n -> bytes_ok m -> cstr m fmt t -> renders m t args out ->
  vsnprintf m n fmt args = Some (take (Z.to_nat (n - 1)) out).
Proof.
  intros Hn Hb L R. unfold vsnprintf. rewrite (proj2 (Z.eqb_neq n 0)) by lia.
  pose proof (vsnprintf_loop_cut m n Hn Hb t args out R fmt [] (str_fuel m) L (cstr_fuel _ _ _ L)) as E.
  unfold cut in E. rewrite take_nil in E. cbn [app] in E. rewrite E. cbn [mbind option_bind].
  rewrite (proj2 (Z.ltb_lt _ _)); [done|]. unfold alen. rewrite length_take. lia.
Qed.

(** [vsnprintf] of the user library writes exactly the rendering of the format, cut
    to [n - 1] bytes: strings (or the word for NULL), signed decimal numbers,
    characters, percent signs; it stays inside the buffer and returns the number of
    bytes written. *)
Theorem user_vsnprintf_renders (m : bmem) (n fmt : Z) (t args out : list Z) :
  0 < n -> bytes_ok m -> cstr m fmt t -> renders m t args out ->
  vsnprintf m n fmt args = Some (take (Z.to_nat (n - 1)) out).
Proof. apply vsnprintf_spec. Qed.

(** "%s: %d%c" and a string, in memory. *)
Definition demo_format : bmem := list_to_map (zip (seqZ 100 9 ++ seqZ 200 3) [37; 115; 58; 32; 37; 100; 37; 99; 0; 104; 105; 0]).

Lemma user_vsnprintf_renders_witness : vsnprintf demo_format 9 100 [200; 2 ^ 32 - 42; 10] = Some (txt "hi: -42" ++ [10]).
Proof.
  rewrite (user_vsnprintf_renders demo_format 9 100 [37; 115; 58; 32; 37; 100; 37; 99] [200; 2 ^ 32 - 42; 10] (txt "hi: -42" ++ [10])).
  - vm_compute. reflexivity.
  - lia.
  - by apply bytes_check.
  - repeat split; done.
  - apply (ren_string demo_format 200 [104; 105]); [repeat split; done|done|]. do 2 (apply ren_char; [done|]).
    apply (ren_int demo_format 100 (2 ^ 32 - 42) [37; 99] [10] [10]); [by left|vm_compute; discriminate|].
    apply (ren_c demo_format 10). constructor.
Defined.

(** A format that ends in a percent sign is read behind its NUL. *)
Example format_percent_overruns : vsnprintf {[ 100 := 37; 101 := 0 ]} 9 100 [] = None.
Proof. vm_compute. reflexivity. Qed.

(** ** Input by lines *)

(** Reference: a line with its line feed, at most [n] bytes. *)
Fixpoint line_of (n : nat) (data : list Z) : list Z :=
  match n, data with
  | S n, c :: data => if c =? LINE_FEED then [c] else c :: line_of n data
  | _, _ => []
  end.

(** [m'] is [m] with [bs] stored at [a]. *)
Definition written (m : bmem) (a : Z) (bs : list Z) (m' : bmem) : Prop :=
  forall b, m' !! b = if decide (a <= b < a + alen bs) then bs !! Z.to_nat (b - a) else m !! b.

Lemma written_nil m a : written m a [] m.
Proof. intros b. by rewrite decide_False by (unfold alen; cbn; lia). Qed.

Lemma written_cons m a c bs m' : written (<[a := c]> m) (a + 1) bs m' -> written m a (c :: bs) m'.
Proof.
  intros Hw b. rewrite Hw. unfold alen. cbn [length]. destruct (decide (b = a)) as [->|Hne].
  - rewrite decide_False, decide_True, lookup_insert_eq by lia. by rewrite Z.sub_diag.
  - rewrite lookup_insert_ne by done. case_decide; case_decide; try lia; [|done].
    replace (Z.to_nat (b - a)) with (S (Z.to_nat (b - (a + 1)))) by lia. done.
Qed.

Lemma written_snoc m a bs c m' : written m a bs m' -> written m a (bs ++ [c]) (<[a + alen bs := c]> m').
Proof.
  intros Hw b. unfold alen in *. rewrite length_app. cbn [length]. destruct (decide (b = a + alen bs)) as [->|Hne]; unfold alen in *.
  - rewrite lookup_insert_eq, decide_True by lia. rewrite lookup_app_r by lia. by replace (Z.to_nat (a + Z.of_nat (length bs) - a) - length bs)%nat with 0%nat by lia.
  - rewrite lookup_insert_ne by done. rewrite Hw. case_decide; case_decide; unfold alen in *; try lia; [|done]. by rewrite lookup_app_l by lia.
Qed.

Lemma written_cstr m a bs m' : Forall (fun c => c <> 0) bs -> written m a (bs ++ [0]) m' -> cstr m' a bs.
Proof.
  intros F. revert m a. induction F as [|c bs Hc _ IH]; intros m a Hw; cbn [cstr app] in *.
  - rewrite Hw, decide_True by (unfold alen; cbn; lia). by rewrite Z.sub_diag.
  - split; [|split; [done|]].
    + rewrite Hw, decide_True by (unfold alen; cbn; lia). by rewrite Z.sub_diag.
    + apply (IH m'). intros b. case_decide as D; [|done]. rewrite Hw. unfold alen in *. cbn [length] in *. rewrite decide_True by lia.
      by replace (Z.to_nat (b - a)) with (S (Z.to_nat (b - (a + 1)))) by lia.
Qed.

Lemma written_bytes m a bs m' : bytes_ok m -> Forall (fun c => 0 <= c < 256) bs -> written m a bs m' -> bytes_ok m'.
Proof.
  intros Hb F Hw b v E. rewrite Hw in E. case_decide; [|by apply (Hb b)]. by apply (Forall_lookup_1 _ _ _ _ F E).
Qed.

Section fgets.
Context {W : Type} `{Posix W} (d : Z) (stream : W -> list Z -> Prop).

(** The descriptor [d] delivers bytes one after the other; after the last one a read
    gives none. *)
Class ByteStream : Prop := {
  stream_next w c data : stream w (c :: data) -> exists w', sys_read w d 1 = Some (w', 1, [c]) /\ stream w' data;
  stream_end w : stream w [] -> exists w' r, sys_read w d 1 = Some (w', r, []) /\ r <= 0 /\ stream w' [] }.

Context `{ByteStream}.
Implicit Types (p : prog W).

(** What input leaves alone. *)
Definition same_but_input p p' : Prop := (p_lib p').1 = (p_lib p).1 /\ p_files p' = p_files p /\ p_olds p' = p_olds p.

Lemma fgets_loop_spec n : forall p s i data, stream (os p) data -> Forall (fun c => 0 <= c < 256) data -> readable (p_mem p) (s + i) (Z.of_nat n) ->
  exists p', fgets_loop p s d i n = Some (p', i + alen (line_of n data)) /\ stream (os p') (drop (length (line_of n data)) data) /\
    written (p_mem p) (s + i) (line_of n data) (p_mem p') /\ same_but_input p p'.
Proof.
  induction n as [|n IH]; intros p s i data Hs F Hr; cbn [fgets_loop line_of].
  - exists p. rewrite drop_0. split; [f_equal; f_equal; unfold alen; cbn; lia|]. split; [done|]. split; [apply written_nil|done].
  - unfold read_char. destruct data as [|c data].
    + destruct (stream_end _ Hs) as (w' & r & -> & Hr0 & Hs'). cbn [mbind option_bind]. rewrite (proj2 (Z.leb_le r 0)) by done.
      exists (with_os p w'). rewrite drop_0. split; [f_equal; f_equal; unfold alen; cbn; lia|]. split; [done|]. split; [apply written_nil|done].
    + destruct (stream_next _ _ _ Hs) as (w' & -> & Hs'). apply Forall_cons in F as [Hc F]. cbn [mbind option_bind Z.leb Z.compare head default].
      destruct (Hr 0) as [x Ex]; [lia|]. rewrite Z.add_0_r in Ex. cbn [from_option id].
      rewrite mset_spec by (first [by eexists|done]). cbn [mbind option_bind]. change (p_mem (with_os p w')) with (p_mem p).
      destruct (c =? LINE_FEED).
      * exists (with_mem (with_os p w') (<[s + i := c]> (p_mem p))). cbn [length drop]. split; [f_equal; f_equal; unfold alen; cbn; lia|]. split; [by rewrite drop_0|].
        split; [apply written_cons, written_nil|done].
      * destruct (IH (with_mem (with_os p w') (<[s + i := c]> (p_mem p))) s (i + 1) data) as (p' & -> & Hs2 & Hw & Hk); [done|done| |].
        { intros j Hj. apply is_Some_insert. replace (s + (i + 1) + j) with (s + i + (j + 1)) by lia. apply Hr. lia. }
        exists p'. split; [f_equal; f_equal; unfold alen; cbn [length]; lia|]. split; [done|]. split; [|exact Hk].
        apply written_cons. by replace (s + i + 1) with (s + (i + 1)) by lia.
Qed.

(** A call of [fgets] on a stream takes one line, at most [size - 1] bytes of it, or
    returns NULL at the end. *)
Lemma fgets_spec p s size f stm data : p_files p !! stm = Some f -> fd f = d -> stm <> 0 -> 1 < size ->
  stream (os p) data -> Forall (fun c => 0 <= c < 256) data -> readable (p_mem p) s size ->
  let l := line_of (Z.to_nat (size - 1)) data in
  exists p', fgets p s size stm = Some (p', if decide (data = []) then 0 else s) /\ stream (os p') (drop (length l) data) /\
    same_but_input p p' /\ (if decide (data = []) then p_mem p' = p_mem p else written (p_mem p) s (l ++ [0]) (p_mem p')).
Proof.
  intros Ef Hf Hs0 Hsz Hs F Hr l. unfold fgets. rewrite (proj2 (Z.leb_gt size 0)), (proj2 (Z.eqb_neq stm 0)) by lia. cbn [orb].
  rewrite Ef. cbn [mbind option_bind]. rewrite Hf.
  destruct (fgets_loop_spec (Z.to_nat (size - 1)) p s 0 data Hs F) as (p1 & -> & Hs1 & Hw & Hk).
  { rewrite Z.add_0_r. intros j Hj. apply Hr. lia. }
  fold l in Hs1, Hw |- *. cbn [mbind option_bind]. rewrite Z.add_0_l. rewrite Z.add_0_r in Hw. rewrite (proj2 (Z.ltb_lt 1 size)) by lia. rewrite andb_true_r.
  destruct data as [|c data].
  - assert (l = []) as El by (subst l; by destruct (Z.to_nat (size - 1))). rewrite El in *. change (alen []) with 0. cbn [Z.eqb]. exists p1.
    rewrite !decide_True by done. split; [done|]. split; [done|]. split; [done|]. apply map_eq. intros b. rewrite (Hw b). by rewrite decide_False by (unfold alen; cbn; lia).
  - assert (Hl : 0 < alen l <= size - 1).
    { subst l. destruct (Z.to_nat (size - 1)) as [|k] eqn:Ek; [lia|]. clear -Hsz Ek. assert (G : forall n data, (length (line_of n data) <= n)%nat).
      { induction n as [|n IH]; intros [|e da]; cbn [line_of length]; try lia. destruct (e =? LINE_FEED); cbn [length]; [lia|]. specialize (IH da). lia. }
      pose proof (G (S k) (c :: data)). unfold alen in *. split; [|lia]. cbn [line_of]. destruct (c =? LINE_FEED); cbn [length]; lia. }
    rewrite (proj2 (Z.eqb_neq _ 0)) by lia. rewrite !decide_False by done.
    assert (Hin : is_Some (p_mem p1 !! (s + alen l))).
    { rewrite (Hw (s + alen l)). rewrite decide_False by lia. apply Hr. lia. }
    rewrite mset_spec by (done || lia). cbn [mbind option_bind]. eexists. split; [done|]. split; [done|]. split; [exact Hk|]. by apply written_snoc.
Qed.

End fgets.
