(* ===== verification/LibcKernel.v ===== *)
(** The user library on this kernel: the system calls of Syscall.v behind the
    interface of LibcStdio.v, and what programs see that read a file in pieces. *)
From stdpp Require Import prelude gmap list strings.
From Stdlib Require Import ZArith Lia.
From S2P Require Import Prelude Bitmap Pmm Frames Vmm Heap Task Sched KString KHeap Vfs Ramfs Process ProcessDemo Elf Syscall SyscallThm.
From S2P Require Import LibcHeap LibcHeapThm LibcString LibcStdio.

Open Scope Z_scope.

(** The program's buffer is at [ubuf] in the memory that the kernel reaches. *)
Section kernel.
Context {S : Type} `{FrameStore S} {V Ops : Type} `{FileSystem V Ops} (img : kernel_image) (vfs_root ubuf : Z).

Definition kcall (s : kst (S := S) (V := V)) (num a1 a2 a3 : Z) : option (kst (S := S) (V := V) * Z) :=
  '(s', r) ← syscall_dispatch img vfs_root s num a1 a2 a3 0 0 0; v ← r; Some (s', v).

#[export] Instance kernel_posix : Posix (kst (S := S) (V := V)) := {|
  posix_brk := kernel_brk img vfs_root;
  sys_read s fd count :=
    '(s', r) ← kcall s 0 fd ubuf count;
    bs ← (if 0 <? r then get_bytes (k_mem s') ubuf (Z.to_nat r) else Some []);
    Some (s', r, bs);
  sys_write s fd bs := m ← put_bytes (k_mem s) ubuf bs; kcall (Syscall.with_mem s m) 1 fd ubuf (alen bs);
  sys_open s path flags mode := m ← put_bytes (k_mem s) ubuf (path ++ [0]); kcall (Syscall.with_mem s m) 2 ubuf flags mode;
  sys_close s fd := kcall s 3 fd 0 0 |}.

End kernel.

(** ** A program that reads the file "/tmp/a" with the lines "ab" and "cd" *)

#[local] Instance demo_posix : Posix (kst (S := pmm) (V := ramfs Z)) := kernel_posix demo_image 4096 8192.

Definition demo_file : ramfs Z := default demo1 (fst <$> ramfs_write demo1 7008 0 6 [97; 98; 10; 99; 100; 10]).

Definition demo_world : kst (S := pmm) (V := ramfs Z) :=
  Kst demo_caller demo_file (list_to_map (zip (seqZ 8192 64) (replicate 64 0))) 0.

(** The path at 500, the mode "r" at 600, a buffer at 700. *)
Definition demo_program : prog (kst (S := pmm) (V := ramfs Z)) :=
  Prog (list_to_map (zip (seqZ 500 7 ++ seqZ 600 2 ++ seqZ 700 16) (txt "/tmp/a" ++ [0; 114; 0] ++ replicate 16 0)))
    (heap_start, demo_world) std_files 0.

(** The string that [fgets] reads into an 8-byte buffer, [k] times. *)
Definition demo_lines (k : nat) : option (list (option (list Z))) :=
  '(p1, f) ← fopen demo_program 500 600;
  snd <$> Nat.iter k (fun r => '(p, ls) ← r; '(p', s) ← fgets p 700 8 f;
    Some (p', ls ++ [if s =? 0 then None else get_str (p_mem p') 700])) (Some (p1, [])).

(** The kernel keeps no file position: every read of one byte gives the first byte
    of the file, so a line never ends and the file neither. *)
Example fgets_repeats_first_byte : demo_lines 3 = Some [Some (txt "aaaaaaa"); Some (txt "aaaaaaa"); Some (txt "aaaaaaa")].
Proof. vm_compute. reflexivity. Qed.
