(* ===== verification/UserInit.v ===== *)
(** The first user program, userspace/init/init.c: it reads its configuration, starts
    the services and restarts them when they end.

    The program runs over the user library; the process calls extend the interface of
    the system calls.  A process either goes on, ends, or becomes another program;
    after a fork the code runs in both processes, told apart by the result.  The
    table of services, the line buffer and the literals have addresses.

    The first user program: its services stay running, and its configuration is read
    line by line. *)
From stdpp Require Import prelude gmap list strings.
From Stdlib Require Import ZArith Lia.
From S2P Require Import Prelude KString PrintfThm LibcHeap LibcString LibcStdio.

Open Scope Z_scope.

(** [sys_execve] gives nothing when the process has become another program,
    [sys_wait4] the process identifier and the status. *)
Class Processes (W : Type) := {
  processes_posix :: Posix W;
  sys_fork : W -> option (W * Z);
  sys_execve : W -> list Z -> list (list Z) -> option (W * option Z);
  sys_wait4 : W -> Z -> Z -> option (W * Z * Z);
  sys_mkdir : W -> list Z -> Z -> option (W * Z);
  sys_getpid : W -> option (W * Z) }.

(** How a piece of a program ends. *)
Inductive outcome (P A : Type) := Goes (p : P) (a : A) | Exits (p : P) (code : Z) | Execs (p : P).

Arguments Goes {P A}.
Arguments Exits {P A}.
Arguments Execs {P A}.

(** Sequencing: what follows runs only when the process goes on. *)
Definition andthen {P A B} (r : option (outcome P A)) (k : P -> A -> option (outcome P B)) : option (outcome P B) :=
  o ← r; match o with Goes p a => k p a | Exits p c => Some (Exits p c) | Execs p => Some (Execs p) end.

Definition goes {P A} (r : option (P * A)) : option (outcome P A) := '(p, a) ← r; Some (Goes p a).

Section init.
Context {W : Type} `{Processes W}.
Context (services line_buf : Z) (lit : list Z -> Z).

(** [services[i].path] and [services[i].args]; the table has 776-byte entries. *)
Definition service_path (i : Z) : Z := services + 776 * i.
Definition service_args (i : Z) : Z := services + 776 * i + 256.

Definition MAX_SERVICES : Z := 32.
Definition INIT_CONF_PATH : list Z := txt "/etc/nexus/init.conf".
Definition DEFAULT_SHELL : list Z := txt "/bin/nsh".

(** The integers of an entry: [respawn] and [pid]. *)
Record service := Service { respawn : Z; pid : Z }.

(** The program, the entries, and [service_count]. *)
Record init := Init { i_prog : prog W; i_services : list service; service_count : Z }.

Definition with_prog (s : init) (p : prog W) : init := Init p (i_services s) (service_count s).
Definition set_pid (s : init) (i v : Z) : init :=
  Init (i_prog s) (aset (i_services s) i (Service (respawn (aget (Service 0 0) (i_services s) i)) v)) (service_count s).

Definition no_service : service := Service 0 0.

(** A literal format, printed. *)
Definition say (s : init) (fmt : list Z) (args : list Z) : option init := '(p, _) ← printf (i_prog s) (lit fmt) args; Some (with_prog s p).

Definition complain (s : init) (fmt : list Z) (args : list Z) : option init :=
  '(p, _) ← fprintf (i_prog s) stderr (lit fmt) args; Some (with_prog s p).

(** [strncpy(mode, tok1, 15)] into the local array: its first 15 bytes. *)
Fixpoint strncpy_bytes (m : bmem) (src : Z) (n : nat) : option (list Z) :=
  match n with
  | O => Some []
  | S n' => c ← m !! src; if nonzero c then r ← strncpy_bytes m (src + 1) n'; Some (c :: r) else Some (replicate n 0)
  end.

(** The tokens of a line: mode, path and the rest. *)
Definition line_tokens (p : prog W) : option (prog W * Z * Z * Z) :=
  let ws := lit [32; 9; 10] in
  '(m1, o1, tok1) ← strtok (p_mem p) (p_olds p) line_buf ws;
  '(m2, o2, tok2) ← strtok m1 o1 0 ws;
  '(m3, o3, tok3) ← strtok m2 o2 0 (lit [10]);
  Some (Prog m3 (p_lib p) (p_files p) o3, tok1, tok2, tok3).

(** The line in the buffer becomes entry [service_count]. *)
Definition add_service (s : init) (tok1 tok2 tok3 : Z) : option init :=
  let i := service_count s in
  let m := p_mem (i_prog s) in
  mode ← strncpy_bytes m tok1 15;
  m1 ← strncpy m (service_path i) tok2 255;
  m2 ← (if nonzero tok3 then strncpy m1 (service_args i) tok3 511 else mset m1 (service_args i) 0);
  let r := if decide (c_str mode = txt "respawn") then 1 else 0 in
  if (0 <=? i) && (i <? alen (i_services s)) then
    Some (Init (with_mem (i_prog s) m2) (aset (i_services s) i (Service r (pid (aget no_service (i_services s) i)))) (i + 1))
  else None.

(** [while (fgets(line, sizeof(line), f))]. *)
Fixpoint conf_loop (s : init) (f : Z) (fuel : nat) : option init :=
  match fuel with
  | O => None
  | S fuel =>
      '(p1, r) ← fgets (i_prog s) line_buf 768 f;
      let s1 := with_prog s p1 in
      if r =? 0 then Some s1
      else
        c ← p_mem p1 !! line_buf;
        if (c =? 35) || (c =? 10) then conf_loop s1 f fuel
        else
          '(p2, tok1, tok2, tok3) ← line_tokens p1;
          let s2 := with_prog s p2 in
          if nonzero tok1 && nonzero tok2 then
            s3 ← add_service s2 tok1 tok2 tok3;
            if MAX_SERVICES <=? service_count s3 then Some s3 else conf_loop s3 f fuel
          else conf_loop s2 f fuel
  end.

Definition default_service (s : init) : option init :=
  m1 ← strcpy (p_mem (i_prog s)) (service_path 0) (lit DEFAULT_SHELL);
  m2 ← mset m1 (service_args 0) 0;
  Some (Init (with_mem (i_prog s) m2) (aset (i_services s) 0 (Service 1 (pid (aget no_service (i_services s) 0)))) 1).

Definition parse_init_conf (s : init) (fuel : nat) : option init :=
  '(p1, f) ← fopen (i_prog s) (lit INIT_CONF_PATH) (lit [114]);
  let s1 := with_prog s p1 in
  if f =? 0 then
    s2 ← complain s1 (txt "init: no %s, starting default shell" ++ [10]) [lit INIT_CONF_PATH];
    default_service s2
  else
    s2 ← conf_loop s1 f fuel;
    '(p3, _) ← fclose (i_prog s2) f;
    Some (with_prog s2 p3).

(** [strdup]: a fresh area of the heap becomes accessible memory. *)
Definition area_bytes (m : bmem) (a n : Z) : bmem := m ∪ list_to_map (map (fun i => (a + i, 0)) (seqZ 0 n)).

Definition strdup (p : prog W) (s : Z) : option (prog W * Z) :=
  n ← strlen (p_mem p) s;
  '(l, d) ← malloc (p_lib p) (n + 1);
  if d =? 0 then Some (with_lib p l, 0)
  else m ← memcpy (area_bytes (p_mem p) d (n + 1)) d s (n + 1); Some (with_mem (with_lib p l) m, d).

(** [execv(path, argv)] for the argument pointers [argv]. *)
Definition execv (p : prog W) (path : Z) (argv : list Z) : option (outcome (prog W) Z) :=
  s ← get_str (p_mem p) path;
  args ← mapM (get_str (p_mem p)) argv;
  '(w, r) ← sys_execve (os p) s args;
  Some (match r with Some r => Goes (with_os p w) (s32 r) | None => Execs (with_os p w) end).

(** The child of [start_service]. *)
Definition service_child (p : prog W) (i : Z) : option (outcome (prog W) unit) :=
  '(p1, copy) ← strdup p (service_args i);
  let sp := lit [32] in
  '(m1, o1, tok) ← strtok (p_mem p1) (p_olds p1) copy sp;
  '(m2, o2, toks) ← token_loop m1 o1 tok sp 62;
  let p2 := Prog m2 (p_lib p1) (p_files p1) o2 in
  andthen (execv p2 (service_path i) (service_path i :: toks)) (fun p3 _ =>
    '(p4, _) ← fprintf p3 stderr (lit (txt "init: exec %s failed" ++ [10])) [service_path i];
    Some (Exits p4 1)).

(** The result for the parent is the identifier of the child. *)
Definition start_service (s : init) (i : Z) : option (outcome (prog W) (init * Z)) :=
  '(w, r) ← sys_fork (os (i_prog s));
  let p := with_os (i_prog s) w in
  if s32 r =? 0 then andthen (service_child p i) (fun _ _ => None) else Some (Goes p (with_prog s p, s32 r)).

(** [services[i].pid = start_service(&services[i])]. *)
Definition launch (s : init) (i : Z) : option (outcome (prog W) init) :=
  andthen (start_service s i) (fun p '(s1, v) => Some (Goes p (set_pid s1 i v))).

Definition started : list Z := txt "init: started %s (PID %d)" ++ [10].
Definition exited : list Z := txt "init: service %s (PID %d) exited with %d" ++ [10].
Definition respawning : list Z := txt "init: respawning %s" ++ [10].

Definition pid_of (s : init) (i : Z) : Z := pid (aget no_service (i_services s) i).
Definition respawns (s : init) (i : Z) : bool := nonzero (respawn (aget no_service (i_services s) i)).

Fixpoint start_all (s : init) (i : Z) (n : nat) : option (outcome (prog W) init) :=
  match n with
  | O => Some (Goes (i_prog s) s)
  | S n =>
      andthen (launch s i) (fun _ s1 =>
        s2 ← say s1 started [service_path i; pid_of s1 i];
        start_all s2 (i + 1) n)
  end.

(** Entry [i], whose process [dead] has ended. *)
Definition service_died (s : init) (i dead status : Z) : option (outcome (prog W) init) :=
  s1 ← say s exited [service_path i; dead; Z.land (Z.shiftr status 8) 0xFF];
  let s2 := set_pid s1 i 0 in
  if respawns s2 i then s3 ← say s2 respawning [service_path i]; launch s3 i else Some (Goes (i_prog s2) s2).

(** The search for the entry, from index [i]. *)
Fixpoint find_dead (s : init) (dead i : Z) (n : nat) : option Z :=
  match n with O => None | S n => if pid_of s i =? dead then Some i else find_dead s dead (i + 1) n end.

(** A round of the main loop. *)
Definition reap (s : init) : option (outcome (prog W) init) :=
  '(w, r, status) ← sys_wait4 (os (i_prog s)) (-1) 0;
  let s1 := with_prog s (with_os (i_prog s) w) in
  let dead := s32 r in
  if dead <? 0 then Some (Goes (i_prog s1) s1)
  else
    match find_dead s1 dead 0 (Z.to_nat (service_count s1)) with
    | Some i => service_died s1 i dead status
    | None => Some (Goes (i_prog s1) s1)
    end.

Fixpoint rounds (s : init) (n : nat) : option (outcome (prog W) init) :=
  match n with O => Some (Goes (i_prog s) s) | S n => andthen (reap s) (fun _ s1 => rounds s1 n) end.

Fixpoint make_dirs (s : init) (dirs : list (list Z)) : option init :=
  match dirs with
  | [] => Some s
  | d :: dirs =>
      path ← get_str (p_mem (i_prog s)) (lit d);
      '(w, _) ← sys_mkdir (os (i_prog s)) path 0x1ED;
      make_dirs (with_prog s (with_os (i_prog s) w)) dirs
  end.

(** [main], with [n] rounds of its endless loop. *)
Definition main (s : init) (fuel n : nat) : option (outcome (prog W) init) :=
  '(w, me) ← sys_getpid (os (i_prog s));
  s1 ← say (with_prog s (with_os (i_prog s) w)) (txt "NexusOS init (PID %d) starting..." ++ [10]) [me];
  s2 ← make_dirs s1 [txt "/etc"; txt "/etc/nexus"; txt "/bin"; txt "/usr"; txt "/usr/bin"];
  s3 ← parse_init_conf s2 fuel;
  andthen (start_all s3 0 (Z.to_nat (service_count s3))) (fun _ s4 => rounds s4 n).

End init.

Arguments init : clear implicits.

(** ** Theorems *)

Section supervise.
Context {W : Type} `{Processes W} (services line_buf : Z) (lit : list Z -> Z).
Implicit Types (s : init W).

#[local] Existing Instance processes_posix.

(** The children of the process that have not been waited for, running or ended, and
    the number of forks that have failed. *)
Context (children : W -> gset Z) (failures : W -> Z).

(** What init relies on, as the process that forks: a fork gives a new child or fails
    with an error number, a wait returns one child or an error, a write changes neither. *)
Class Kernel : Prop := {
  fork_result w : exists w' r, sys_fork w = Some (w', r) /\ s32 r = r /\
    ((0 < r /\ r ∉ children w /\ children w' = {[r]} ∪ children w /\ failures w' = failures w) \/
     (-4096 < r < 0 /\ children w' = children w /\ failures w' = failures w + 1));
  wait_one w : exists w' r status, sys_wait4 w (-1) 0 = Some (w', r, status) /\ s32 r = r /\ failures w' = failures w /\
    ((0 < r /\ r ∈ children w /\ children w' = children w ∖ {[r]}) \/ (r < 0 /\ children w' = children w));
  write_quiet w fd bs : exists w' r, sys_write w fd bs = Some (w', r) /\ children w' = children w /\ failures w' = failures w }.

Context `{Kernel}.

(** The literals and the names of the services are strings. *)
Record texts_ok s : Prop := Texts {
  tx_bytes : bytes_ok (p_mem (i_prog s));
  tx_lits : Forall (fun t => cstr (p_mem (i_prog s)) (lit t) t) [started; exited; respawning];
  tx_paths : forall i, 0 <= i < service_count s -> exists t, cstr (p_mem (i_prog s)) (service_path services i) t /\ 0 < service_path services i }.

(** The services whose last fork failed: their entries hold the error number. *)
Definition lost s : list Z := filter (fun i => pid_of s i < 0) (seqZ 0 (service_count s)).

(** Every service (of those in [P]) that is to be restarted has a child that has not been
    waited for, unless its last fork failed; the children of two services differ; no
    entry names a process that is gone; and each fork that has failed since there were
    [k] failures costs one service. *)
Record supervised (P : Z -> Prop) (k : Z) s : Prop := Supervised {
  sv_texts : texts_ok s;
  sv_count : 0 <= service_count s <= alen (i_services s);
  sv_alive : forall i, 0 <= i < service_count s -> -4096 < pid_of s i <= 0 \/ pid_of s i ∈ children (os (i_prog s));
  sv_runs : forall i, 0 <= i < service_count s -> P i -> respawns s i = true -> pid_of s i ∈ children (os (i_prog s)) \/ i ∈ lost s;
  sv_apart : forall i j, 0 <= i < service_count s -> 0 <= j < service_count s -> i <> j -> pid_of s i = pid_of s j -> pid_of s i <= 0;
  sv_positive : forall c, c ∈ children (os (i_prog s)) -> 0 < c;
  sv_lost : alen (lost s) = failures (os (i_prog s)) - k }.

(** The same entries and memory, the same children. *)
Definition quiet s s' : Prop :=
  p_mem (i_prog s') = p_mem (i_prog s) /\ i_services s' = i_services s /\ service_count s' = service_count s /\
  children (os (i_prog s')) = children (os (i_prog s)) /\ failures (os (i_prog s')) = failures (os (i_prog s)).

Lemma say_quiet s fmt args out : bytes_ok (p_mem (i_prog s)) -> cstr (p_mem (i_prog s)) (lit fmt) fmt -> renders (p_mem (i_prog s)) fmt args out ->
  exists s', say lit s fmt args = Some s' /\ quiet s s'.
Proof.
  intros Hb L R. unfold say, printf, write_bytes. rewrite (vsnprintf_spec _ 1024 _ fmt args out) by (done || lia). cbn [mbind option_bind].
  destruct (write_quiet (os (i_prog s)) STDOUT_FILENO (take (Z.to_nat (1024 - 1)) out)) as (w' & r & -> & Ec & Ef).
  cbn [mbind option_bind]. eexists. split; [done|]. by split_and!.
Qed.

(** The messages have renderings. *)
Ltac render := repeat first
  [apply ren_char; [done|] | eapply ren_string; [eassumption|lia|] | apply ren_int; [by left|first [assumption|discriminate]|] | apply ren_end].

Lemma started_renders m a t v : cstr m a t -> 0 < a -> s32 v <> - 2 ^ 31 -> exists out, renders m started [a; v] out.
Proof. intros L Ha Hv. eexists. unfold started, txt. cbn. render. Qed.

Lemma respawning_renders m a t : cstr m a t -> 0 < a -> exists out, renders m respawning [a] out.
Proof. intros L Ha. eexists. unfold respawning, txt. cbn. render. Qed.

Lemma exited_renders m a t v u : cstr m a t -> 0 < a -> s32 v <> - 2 ^ 31 -> s32 u <> - 2 ^ 31 -> exists out, renders m exited [a; v; u] out.
Proof. intros L Ha Hv Hu. eexists. unfold exited, txt. cbn. render. Qed.

Lemma lost_ext s s' : i_services s' = i_services s -> service_count s' = service_count s -> lost s' = lost s.
Proof. intros Es Ec. unfold lost, pid_of. by rewrite Es, Ec. Qed.

Lemma quiet_supervised P k s s' : quiet s s' -> supervised P k s -> supervised P k s'.
Proof.
  intros (Em & Es & Ec & Eo & Ef) [[T1 T2 T3] S1 S2 S3 S4 S5 S6]. pose proof (lost_ext s s' Es Ec) as El. unfold pid_of, respawns in *.
  split; unfold pid_of, respawns; rewrite ?El, ?Es, ?Ec, ?Eo, ?Ef; try done. split; rewrite ?Em, ?Ec; done.
Qed.

Lemma pid_set s i j v : 0 <= i < alen (i_services s) -> 0 <= j -> pid_of (set_pid s i v) j = if decide (j = i) then v else pid_of s j.
Proof.
  intros Hi Hj. unfold pid_of, set_pid. cbn [i_services]. case_decide as E; [subst; by rewrite aget_aset_eq|]. by rewrite aget_aset_ne by lia.
Qed.

Lemma respawns_set s i j v : 0 <= i < alen (i_services s) -> 0 <= j -> respawns (set_pid s i v) j = respawns s j.
Proof.
  intros Hi Hj. unfold respawns, set_pid. cbn [i_services]. destruct (decide (j = i)) as [->|]; [by rewrite aget_aset_eq|]. by rewrite aget_aset_ne by lia.
Qed.

(** The services that are lost, after the entry [i] of a service that is not has changed. *)
Lemma elem_of_lost s i : i ∈ lost s <-> 0 <= i < service_count s /\ pid_of s i < 0.
Proof. unfold lost. rewrite list_elem_of_filter, elem_of_seqZ. intuition lia. Qed.

Lemma lost_set s i v : 0 <= i < service_count s -> service_count s <= alen (i_services s) -> 0 <= pid_of s i ->
  alen (lost (set_pid s i v)) = alen (lost s) + (if v <? 0 then 1 else 0).
Proof.
  intros Hi Hc Hp. assert (N : forall s, NoDup (lost s)) by (intros s0; apply NoDup_filter, NoDup_seqZ).
  assert (Hin : forall j, j ∈ lost (set_pid s i v) <-> (j = i /\ v < 0) \/ j ∈ lost s).
  { intros j. rewrite !elem_of_lost. cbn [set_pid service_count]. split.
    - intros [Hj Hv]. rewrite pid_set in Hv by lia. case_decide; [left; lia|by right].
    - intros [[-> Hv]|[Hj Hv]]; (split; [lia|]); rewrite pid_set by lia; [by rewrite decide_True|]. rewrite decide_False by (intros ->; lia). done. }
  assert (Hni : i ∉ lost s) by (rewrite elem_of_lost; lia). unfold alen. destruct (Z.ltb_spec v 0) as [Hv|Hv].
  - assert (P : lost (set_pid s i v) ≡ₚ i :: lost s); [|by rewrite P; simpl; lia].
    apply NoDup_Permutation; [done|by apply NoDup_cons|]. intros j. rewrite Hin, elem_of_cons. intuition.
  - assert (P : lost (set_pid s i v) ≡ₚ lost s); [|by rewrite P; lia]. apply NoDup_Permutation; [done|done|]. intros j. rewrite Hin. intuition lia.
Qed.

(** Starting service [i], which has no child, completes the supervision. *)
Lemma launch_supervised (P : Z -> Prop) k s i : supervised P k s -> 0 <= i < service_count s -> pid_of s i = 0 ->
  exists s', launch services lit s i = Some (Goes (i_prog s') s') /\ supervised (fun j => P j \/ j = i) k s' /\
    service_count s' = service_count s /\ s32 (pid_of s' i) <> - 2 ^ 31 /\ forall j, 0 <= j -> j <> i -> pid_of s' j = pid_of s j.
Proof.
  intros [[T1 T2 T3] S1 S2 S3 S4 S5 S6] Hi Hp. destruct (fork_result (os (i_prog s))) as (w' & r & E & Er & HF).
  assert (Hr0 : r <> 0) by (destruct HF as [HF|HF]; lia). assert (Hr1 : -4096 < r) by (destruct HF as [HF|HF]; lia).
  unfold launch, start_service. rewrite E. cbn [mbind option_bind]. rewrite Er, (proj2 (Z.eqb_neq r 0)) by done.
  set (s0 := with_prog s (with_os (i_prog s) w')). exists (set_pid s0 i r). split; [done|].
  assert (HP : forall j, 0 <= j -> pid_of (set_pid s0 i r) j = if decide (j = i) then r else pid_of s j) by (intros j Hj; exact (pid_set s0 i j r ltac:(cbn; lia) Hj)).
  assert (HR : forall j, 0 <= j -> respawns (set_pid s0 i r) j = respawns s j) by (intros j Hj; exact (respawns_set s0 i j r ltac:(cbn; lia) Hj)).
  split; [|split; [done|split; [rewrite HP, decide_True by done || lia; lia|intros j Hj Hne; rewrite HP by done; by rewrite decide_False]]].
  assert (HL : alen (lost (set_pid s0 i r)) = alen (lost s) + (if r <? 0 then 1 else 0)) by (apply (lost_set s0 i r); cbn; [lia|lia|change (0 <= pid_of s i); lia]).
  assert (Hlost : forall j, j ∈ lost s -> j <> i -> j ∈ lost (set_pid s0 i r)).
  { intros j [Hj Hv]%elem_of_lost Hne. apply elem_of_lost. split; [done|]. rewrite HP by lia. by rewrite decide_False. }
  assert (Hsub : children (os (i_prog s)) ⊆ children w') by (destruct HF as [(_ & _ & -> & _)|(_ & -> & _)]; set_solver).
  split; cbn [i_prog i_services service_count set_pid]; change (children (os (i_prog s0))) with (children w'); change (failures (os (i_prog s0))) with (failures w').
  - by split.
  - by rewrite alen_aset.
  - intros j Hj. rewrite HP by lia. case_decide; [destruct HF as [(_ & _ & -> & _)|(? & _)]; [right; set_solver|left; lia]|]. destruct (S2 j Hj) as [?|Hin]; [by left|right; by apply Hsub].
  - intros j Hj HPj. rewrite HP, HR by lia. intros Hre. case_decide as Hd.
    + subst j. destruct HF as [(_ & _ & -> & _)|(? & _)]; [left; set_solver|right]. apply elem_of_lost. split; [done|]. rewrite HP by lia. rewrite decide_True by done. lia.
    + destruct HPj as [HPj|?]; [|done]. destruct (S3 j Hj HPj Hre) as [Hin|Hin]; [left; by apply Hsub|right; by apply Hlost].
  - assert (Hfresh : forall j, 0 <= j < service_count s -> pid_of s j = r -> r <= 0).
    { intros j Hj Ej. destruct HF as [(? & Hn & _)|(? & _)]; [|lia]. destruct (S2 j Hj) as [?|Hin]; [lia|]. by rewrite Ej in Hin. }
    intros j j2 Hj Hk Hne. rewrite !HP by lia. case_decide; case_decide; subst; try done; intros E'.
    + by apply (Hfresh j2).
    + rewrite E'. by apply (Hfresh j).
    + by apply (S4 j j2).
  - intros c Hc. destruct HF as [(? & _ & Ec & _)|(_ & Ec & _)]; rewrite Ec in Hc; [|by apply S5].
    apply elem_of_union in Hc as [->%elem_of_singleton|Hc]; [done|by apply S5].
  - rewrite HL, S6. destruct HF as [(? & _ & _ & ->)|(? & _ & ->)]; [rewrite (proj2 (Z.ltb_ge r 0)) by lia|rewrite (proj2 (Z.ltb_lt r 0)) by lia]; lia.
Qed.

Lemma supervised_weaken (P Q : Z -> Prop) k s : (forall j, 0 <= j < service_count s -> Q j -> P j) -> supervised P k s -> supervised Q k s.
Proof. intros HPQ [T S1 S2 S3 S4 S5 S6]. split; try done. intros j Hj HQ. apply S3; [done|by apply HPQ]. Qed.

Lemma small_s32 v : 0 <= v < 2 ^ 31 -> s32 v = v.
Proof. intros Hv. unfold swrap. rewrite Z.mod_small; lia. Qed.

Lemma find_dead_spec s dead n : forall i, match find_dead s dead i n with
  | Some k => i <= k < i + Z.of_nat n /\ pid_of s k = dead
  | None => forall k, i <= k < i + Z.of_nat n -> pid_of s k <> dead end.
Proof.
  induction n as [|n IH]; intros i; cbn [find_dead]; [intros; lia|]. destruct (Z.eqb_spec (pid_of s i) dead) as [E|E]; [split; [lia|done]|].
  specialize (IH (i + 1)). destruct (find_dead s dead (i + 1) n); [split; [lia|apply IH]|]. intros k Hk. destruct (decide (k = i)) as [->|]; [done|apply IH; lia].
Qed.

(** After the child [r] of service [i] has ended and its entry is cleared. *)
Lemma cleared_supervised k s s2 r i : supervised (fun _ => True) k s -> r ∈ children (os (i_prog s)) -> 0 <= i < service_count s -> pid_of s i = r ->
  p_mem (i_prog s2) = p_mem (i_prog s) -> i_services s2 = i_services s -> service_count s2 = service_count s ->
  children (os (i_prog s2)) = children (os (i_prog s)) ∖ {[r]} -> failures (os (i_prog s2)) = failures (os (i_prog s)) ->
  supervised (fun j => j <> i) k (set_pid s2 i 0) /\ pid_of (set_pid s2 i 0) i = 0 /\ service_count (set_pid s2 i 0) = service_count s.
Proof.
  intros [[T1 T2 T3] S1 S2 S3 S4 S5 S6] Hin Hi Ei Em Es Ecn Ec Ef. pose proof (S5 r Hin) as Hr.
  assert (Hother : forall j, 0 <= j < service_count s -> j <> i -> pid_of s j <> r).
  { intros j Hj Hne Ej. assert (pid_of s i <= 0); [|lia]. apply (S4 i j); [lia|done|by apply not_eq_sym|by rewrite Ei, Ej]. }
  assert (HP : forall j, 0 <= j -> pid_of (set_pid s2 i 0) j = if decide (j = i) then 0 else pid_of s j).
  { intros j Hj. rewrite pid_set by (rewrite ?Es; lia). unfold pid_of. by rewrite Es. }
  assert (HR : forall j, 0 <= j -> respawns (set_pid s2 i 0) j = respawns s j).
  { intros j Hj. rewrite respawns_set by (rewrite ?Es; lia). unfold respawns. by rewrite Es. }
  assert (HL : alen (lost (set_pid s2 i 0)) = alen (lost s)).
  { rewrite (lost_set s2 i 0), (lost_ext s s2 Es Ecn); [simpl; lia|lia|rewrite Es; lia|]. unfold pid_of. rewrite Es. fold (pid_of s i). lia. }
  split; [|split; [rewrite HP by lia; by rewrite decide_True|done]].
  split; cbn [i_prog i_services service_count set_pid]; rewrite ?Ecn, ?Es, ?Ec, ?Ef, ?HL; try done.
  - split; cbn [i_prog set_pid service_count]; rewrite ?Em, ?Ecn; done.
  - by rewrite alen_aset.
  - intros j Hj. rewrite HP by lia. case_decide as Hd; [left; lia|]. destruct (S2 j Hj) as [?|Hj2]; [by left|]. right.
    pose proof (Hother j Hj Hd). by apply elem_of_difference; rewrite elem_of_singleton.
  - intros j Hj HPj. rewrite HP, HR by lia. rewrite decide_False by done. intros Hre. pose proof (Hother j Hj HPj). destruct (S3 j Hj I Hre) as [Hj2|[_ Hj2]%elem_of_lost].
    + left. by apply elem_of_difference; rewrite elem_of_singleton.
    + right. apply elem_of_lost. cbn [set_pid service_count]. rewrite Ecn. split; [done|]. rewrite HP by lia. by rewrite decide_False.
  - intros j k2 Hj Hk Hne. rewrite !HP by lia. case_decide; case_decide; first [by apply S4 | intros; lia].
  - intros c [Hc _]%elem_of_difference. by apply S5.
Qed.

Lemma reap_supervised k s : supervised (fun _ => True) k s -> exists s', reap services lit s = Some (Goes (i_prog s') s') /\ supervised (fun _ => True) k s'.
Proof.
  intros Sv. pose proof Sv as [[T1 T2 T3] S1 S2 S3 S4 S5 S6]. destruct (wait_one (os (i_prog s))) as (w' & r & status & E & Er & Ef & C).
  unfold reap. rewrite E. cbn [mbind option_bind]. rewrite Er. set (s1 := with_prog s (with_os (i_prog s) w')).
  destruct C as [(Hr & Hin & Ec)|(Hr & Ec)].
  2: { rewrite (proj2 (Z.ltb_lt r 0)) by done. exists s1. split; [done|]. apply (quiet_supervised _ _ s); [by split_and!|done]. }
  rewrite (proj2 (Z.ltb_ge r 0)) by lia. pose proof (find_dead_spec s1 r (Z.to_nat (service_count s1)) 0) as F.
  change (service_count s1) with (service_count s) in F |- *. change (pid_of s1) with (pid_of s) in F.
  destruct (find_dead s1 r 0 _) as [i|].
  2: { exists s1. split; [done|]. assert (Hne : forall j, 0 <= j < service_count s -> pid_of s j <> r) by (intros j Hj; apply F; lia).
    split; try done; change (children (os (i_prog s1))) with (children w'); change (failures (os (i_prog s1))) with (failures w'); change (lost s1) with (lost s);
      rewrite ?Ec, ?Ef; try change (service_count s1) with (service_count s); try done.
    - intros j Hj. change (pid_of s1 j) with (pid_of s j). destruct (S2 j Hj) as [?|Hj2]; [by left|]. right. pose proof (Hne j Hj). set_solver.
    - intros j Hj HP Hre. change (pid_of s1 j) with (pid_of s j). destruct (S3 j Hj HP Hre) as [Hj2|?]; [left|by right]. pose proof (Hne j Hj). set_solver.
    - intros c Hc. apply S5. set_solver. }
  destruct F as [Hi Ei].
  unfold service_died. destruct (T3 i) as (t & Lt & Hpos); [lia|].
  assert (Hst : s32 (Z.land (Z.shiftr status 8) 0xFF) <> - 2 ^ 31).
  { change 0xFF with (Z.ones 8). rewrite Z.land_ones by lia. pose proof (Z.mod_pos_bound (Z.shiftr status 8) (2 ^ 8) ltac:(lia)). rewrite small_s32 by lia. lia. }
  destruct (exited_renders (p_mem (i_prog s1)) _ t r (Z.land (Z.shiftr status 8) 0xFF) Lt Hpos) as [out R]; [lia|done|].
  pose proof T2 as (_ & (L2 & _)%Forall_cons)%Forall_cons.
  destruct (say_quiet s1 exited _ out T1 L2 R) as (s2 & -> & Q2). cbn [mbind option_bind].
  destruct Q2 as (Em & Es & Ecn & Eo & Ef2).
  destruct (cleared_supervised k s s2 r i Sv Hin ltac:(lia) Ei Em Es Ecn (eq_trans Eo Ec) (eq_trans Ef2 Ef)) as (Sv3 & Hp0 & Hcnt).
  destruct (respawns (set_pid s2 i 0) i) eqn:Hre.
  - pose proof Sv3 as [[T1' T2' T3'] _ _ _ _ _ _]. destruct (T3' i) as (t' & Lt' & _); [lia|].
    destruct (respawning_renders (p_mem (i_prog (set_pid s2 i 0))) _ t' Lt' Hpos) as [out' R'].
    pose proof T2' as (_ & (_ & (L' & _)%Forall_cons)%Forall_cons)%Forall_cons.
    destruct (say_quiet (set_pid s2 i 0) respawning _ out' T1' L' R') as (s4 & -> & Q4).
    cbn [mbind option_bind]. destruct (launch_supervised _ k s4 i (quiet_supervised _ _ _ _ Q4 Sv3)) as (s' & -> & Sv' & _).
    + destruct Q4 as (_ & _ & -> & _). lia.
    + destruct Q4 as (_ & E4 & _ & _). unfold pid_of in *. by rewrite E4.
    + exists s'. split; [done|]. eapply supervised_weaken; [|exact Sv']. intros j _ _. destruct (decide (j = i)); auto.
  - exists (set_pid s2 i 0). split; [done|]. destruct Sv3 as [T S1' S2' S3' S4' S5' S6']. split; try done.
    intros j Hj _ Hrj. apply S3'; [done| |done]. intros ->. congruence.
Qed.

Lemma start_supervised k n : forall s i, supervised (fun j => j < i) k s -> (forall j, i <= j < service_count s -> pid_of s j = 0) -> 0 <= i ->
  i + Z.of_nat n = service_count s ->
  exists s', start_all services lit s i n = Some (Goes (i_prog s') s') /\ supervised (fun _ => True) k s'.
Proof.
  induction n as [|n IH]; intros s i Sv Hz Hi Hn; cbn [start_all].
  - exists s. split; [done|]. eapply supervised_weaken; [|exact Sv]. intros j ? _. cbn. lia.
  - destruct (launch_supervised _ k s i Sv) as (s1 & -> & Sv1 & Ec & Hp & Ho); [lia|apply Hz; lia|]. cbn [andthen mbind option_bind].
    pose proof Sv1 as [[T1 T2 T3] _ _ _ _ _ _]. destruct (T3 i) as (t & Lt & Hpos); [lia|].
    destruct (started_renders (p_mem (i_prog s1)) _ t (pid_of s1 i) Lt Hpos Hp) as [out R]. pose proof T2 as (L1 & _)%Forall_cons.
    destruct (say_quiet s1 started _ out T1 L1 R) as (s2 & -> & Q). cbn [mbind option_bind]. pose proof Q as (_ & Es & Ec2 & _).
    apply IH; [|intros j Hj|lia|lia].
    + apply (quiet_supervised _ _ s1); [done|]. eapply supervised_weaken; [|exact Sv1]. intros j Hj Hlt. clear - Hlt. cbn in *. lia.
    + unfold pid_of. rewrite Es. fold (pid_of s1 j). rewrite Ho by lia. apply Hz. lia.
Qed.

(** C31.  However its children end, and for as long as it runs: init, which starts with
    no service running, goes on; every service marked for restarting has a child of its
    own that has not been waited for, unless the fork for it has failed; each failed
    fork costs one service, which init does not try to start again, so that without
    failed forks none is lost; and no entry of the table names a process that has been
    waited for. *)
Theorem init_supervises s (n : nat) : texts_ok s -> 0 <= service_count s <= alen (i_services s) ->
  (forall i, 0 <= i < service_count s -> pid_of s i = 0) -> (forall c, c ∈ children (os (i_prog s)) -> 0 < c) ->
  exists s', andthen (start_all services lit s 0 (Z.to_nat (service_count s))) (fun _ s1 => rounds services lit s1 n) = Some (Goes (i_prog s') s') /\
    supervised (fun _ => True) (failures (os (i_prog s))) s'.
Proof.
  intros T Hc Hz Hpos. set (k := failures (os (i_prog s))). destruct (start_supervised k (Z.to_nat (service_count s)) s 0) as (s1 & -> & Sv); [|done|lia|lia|].
  - assert (El : lost s = []).
    { destruct (lost s) as [|i l] eqn:El; [done|]. assert (Hi : i ∈ lost s) by (rewrite El; by left). apply elem_of_lost in Hi as [Hi Hv]. rewrite Hz in Hv by done. lia. }
    split; try done; [intros i Hi; rewrite Hz by done; left; lia|intros; lia|intros i j Hi _ _ _; rewrite Hz by done; lia|]. rewrite El. unfold k, alen. simpl. lia.
  - cbn [andthen mbind option_bind]. clearbody k. clear T Hc Hz Hpos s. revert s1 Sv. induction n as [|n IH]; intros s1 Sv; cbn [rounds]; [by exists s1|].
    destruct (reap_supervised k s1 Sv) as (s2 & -> & Sv2). cbn [andthen mbind option_bind]. by apply IH.
Qed.

End supervise.

(** ** A kernel with room for one child, which ends at each wait

    Whether there is a child, and the failed forks. *)

Definition one : Type := bool * Z.

Definition one_children (w : one) : gset Z := if w.1 then {[7]} else ∅.

Definition one_failures (w : one) : Z := w.2.

#[local] Instance one_processes : Processes one := {|
  processes_posix := {|
    posix_brk := {| os_brk := fun w a => Some (w, a) |};
    sys_read := fun w _ _ => Some (w, 0, []);
    sys_write := fun w _ bs => Some (w, alen bs);
    sys_open := fun w _ _ _ => Some (w, -2);
    sys_close := fun w _ => Some (w, 0) |};
  sys_fork := fun w : one => if w.1 then Some ((true, w.2 + 1), -12) else Some ((true, w.2), 7);
  sys_execve := fun w _ _ => Some (w, None);
  sys_wait4 := fun (w : one) _ _ => Some (if w.1 then ((false, w.2), 7, 256) else (w, -10, 0));
  sys_mkdir := fun w _ _ => Some (w, 0);
  sys_getpid := fun w => Some (w, 1) |}.

#[local] Instance one_kernel : Kernel one_children one_failures.
Proof.
  split.
  - intros [[|] f]; (eexists _, _; split; [reflexivity|]); cbn; (split; [done|]); [right|left]; (split; [lia|]); unfold one_children; cbn; split_and!; set_solver.
  - intros [[|] f]; (eexists _, _, _; split; [reflexivity|]); cbn; (split; [done|]); (split; [done|]); [left|right]; (split; [lia|]); unfold one_children; cbn; try split; set_solver.
  - intros w fd bs. by eexists _, _.
Qed.

Definition one_lit (t : list Z) : Z := if decide (t = started) then 1000 else if decide (t = exited) then 2000 else 3000.

Definition one_memory : bmem :=
  list_to_map (zip (seqZ 1000 100 ++ seqZ 2000 100 ++ seqZ 3000 100 ++ seqZ 10000 10 ++ seqZ 10776 10)
    (take 100 (started ++ replicate 100 0) ++ take 100 (exited ++ replicate 100 0) ++ take 100 (respawning ++ replicate 100 0) ++
     take 10 (txt "/bin/a" ++ replicate 10 0) ++ take 10 (txt "/bin/b" ++ replicate 10 0))).

(** "/bin/a" and "/bin/b" are to be restarted; there is no room for the second. *)
Definition one_init : init one := Init (Prog one_memory (heap_start, (false, 0)) std_files 0) (Service 1 0 :: Service 1 0 :: replicate 30 no_service) 2.

Lemma init_supervises_witness : exists s',
  andthen (start_all 10000 one_lit one_init 0 2) (fun _ s1 => rounds 10000 one_lit s1 3) = Some (Goes (i_prog s') s') /\
  supervised 10000 one_lit one_children one_failures (fun _ => True) 0 s' /\ lost s' = [1].
Proof.
  destruct (init_supervises 10000 one_lit one_children one_failures one_init 3) as (s' & E & Sv).
  - split; [by apply bytes_check| |].
    + repeat constructor; repeat split; done.
    + intros i Hi. cbn in Hi. destruct (decide (i = 0)) as [->|]; [exists (txt "/bin/a")|exists (txt "/bin/b"); replace i with 1 by lia];
        (split; [repeat split; done|done]).
  - by vm_compute.
  - intros i Hi. cbn in Hi. destruct (decide (i = 0)) as [->|]; [done|by replace i with 1 by lia].
  - intros c Hc. by apply not_elem_of_empty in Hc.
  - exists s'. split; [exact E|]. split; [exact Sv|].
    assert (G : option_map (fun o => match o with Goes _ s1 => lost s1 | _ => [] end) (andthen (start_all 10000 one_lit one_init 0 2) (fun _ s1 => rounds 10000 one_lit s1 3)) = Some [1])
      by (vm_compute; reflexivity).
    change (Z.to_nat (service_count one_init)) with 2%nat in E. rewrite E in G. by injection G.
Defined.
