(* ===== verification/Dirent.v ===== *)
(** Directory streams of the user library, userspace/libc/src/dirent.c, over the system
    call that fills a buffer with directory entries.

    A DIR object lives on the user heap: its fields are an entry of a map from addresses,
    as a FILE object is, and its buffer is memory.  The static entry that [readdir]
    returns is a record; its name is an array at a given address.

    Directory streams give the entries of the directory: a program that calls [readdir]
    until NULL has seen each entry once, in the kernel's order, however the kernel
    distributes them over the buffers. *)
From stdpp Require Import prelude gmap list strings.
From Stdlib Require Import ZArith Lia.
From S2P Require Import Prelude KString LibcHeap LibcString LibcStdio UserInit.

Open Scope Z_scope.

(** The call gives a result register and the bytes that it stores. *)
Class Directories (W : Type) := {
  directories_posix :: Posix W;
  sys_getdents64 : W -> Z -> Z -> option (W * Z * list Z) }.

Definition O_DIRECTORY : Z := 0x10000.

(** The integers of a DIR. *)
Record DIR := Dir { dir_fd : Z; buf_pos : Z; buf_end : Z }.

(** [buffer] follows [fd]. *)
Definition dir_buffer (dirp : Z) : Z := dirp + 4.
Definition sizeof_buffer : Z := 4096.
Definition sizeof_DIR : Z := 4108.

(** The numbers of an entry. *)
Record dirent := Dirent { d_ino : Z; d_off : Z; d_reclen : Z; d_type : Z }.

Definition sizeof_d_name : Z := 256.

(** Where the fields of [linux_dirent64] start. *)
Definition off_off : Z := 8.
Definition off_reclen : Z := 16.
Definition off_type : Z := 18.
Definition off_name : Z := 19.

(** A little-endian field of [n] bytes. *)
Fixpoint le_at (m : bmem) (a : Z) (n : nat) : option Z :=
  match n with O => Some 0 | S n => b ← m !! a; r ← le_at m (a + 1) n; Some (b + 256 * r) end.

Section dirent.
Context {W : Type} `{Directories W}.

(** [d.d_name] of the static entry. *)
Context (ent_name : Z).

Notation prog := (prog W).
Notation dirs := (gmap Z DIR).

Definition opendir (p : prog) (ds : dirs) (name : Z) : option (prog * dirs * Z) :=
  '(p1, fd) ← open p name (Z.lor O_RDONLY O_DIRECTORY);
  if fd <? 0 then Some (p1, ds, 0)
  else
    '(l, d) ← malloc (p_lib p1) sizeof_DIR;
    let p2 := with_lib p1 l in
    if d =? 0 then '(p3, _) ← close p2 fd; Some (p3, ds, 0)
    else Some (with_mem p2 (area_bytes (p_mem p2) d sizeof_DIR), <[d := Dir fd 0 0]> ds, d).

(** The buffer is filled when all of it has been read; the boolean says whether there is
    an entry. *)
Definition fill_buffer (p : prog) (d : DIR) (dirp : Z) : option (prog * DIR * bool) :=
  if buf_end d <=? buf_pos d then
    '(w, res, bs) ← sys_getdents64 (os p) (dir_fd d) sizeof_buffer;
    m ← put_bytes (p_mem p) (dir_buffer dirp) bs;
    let p1 := with_mem (with_os p w) m in
    if s64 res <=? 0 then Some (p1, d, false) else Some (p1, Dir (dir_fd d) 0 (s32 res), true)
  else Some (p, d, true).

(** The entry at [a] becomes the static entry. *)
Definition take_entry (m : bmem) (a : Z) : option (bmem * dirent) :=
  ino ← le_at m a 8; off ← le_at m (a + off_off) 8; reclen ← le_at m (a + off_reclen) 2; type ← m !! (a + off_type);
  m1 ← strncpy m ent_name (a + off_name) (sizeof_d_name - 1);
  m2 ← mset m1 (ent_name + (sizeof_d_name - 1)) 0;
  Some (m2, Dirent ino (s64 off) reclen type).

Definition readdir (p : prog) (ds : dirs) (dirp : Z) : option (prog * dirs * option dirent) :=
  if dirp =? 0 then Some (p, ds, None)
  else
    d ← ds !! dirp;
    '(p1, d1, more) ← fill_buffer p d dirp;
    if (more : bool) then
      '(m, de) ← take_entry (p_mem p1) (dir_buffer dirp + buf_pos d1);
      Some (with_mem p1 m, <[dirp := Dir (dir_fd d1) (buf_pos d1 + d_reclen de) (buf_end d1)]> ds, Some de)
    else Some (p1, <[dirp := d1]> ds, None).

Definition closedir (p : prog) (ds : dirs) (dirp : Z) : option (prog * dirs * Z) :=
  if dirp =? 0 then Some (p, ds, -1)
  else
    d ← ds !! dirp;
    '(p1, r) ← close p (dir_fd d);
    l ← free (p_lib p1) dirp; Some (with_lib p1 l, delete dirp ds, r).

End dirent.

(** ** Theorems *)

(** ** The encoding of entries *)

Fixpoint le_enc (v : Z) (n : nat) : list Z := match n with O => [] | S n => v mod 256 :: le_enc (v / 256) n end.

(** An entry as the kernel stores it: the padding follows the NUL of the name. *)
Record entry := Entry { numbers : dirent; name : list Z; padding : list Z }.

Definition encode (e : entry) : list Z :=
  le_enc (d_ino (numbers e)) 8 ++ le_enc (u64 (d_off (numbers e))) 8 ++ le_enc (d_reclen (numbers e)) 2 ++
  [d_type (numbers e)] ++ name e ++ 0 :: padding e.

Record entry_ok (e : entry) : Prop := EntryOk {
  en_ino : 0 <= d_ino (numbers e) < 2 ^ 64;
  en_off : - 2 ^ 63 <= d_off (numbers e) < 2 ^ 63;
  en_type : 0 <= d_type (numbers e) < 256;
  en_name : Forall (fun c => 0 < c < 256) (name e);
  en_padding : Forall (fun c => 0 <= c < 256) (padding e);
  en_length : d_reclen (numbers e) = alen (encode e);
  en_small : alen (encode e) < 2 ^ 16 }.

(** ** Bytes in memory *)

(** The bytes [bs] are at [a]. *)
Definition stored (m : bmem) (a : Z) (bs : list Z) : Prop := forall i, 0 <= i < alen bs -> m !! (a + i) = bs !! Z.to_nat i.

Lemma stored_written m a bs m' : written m a bs m' -> stored m' a bs.
Proof. intros H i Hi. rewrite H, decide_True by lia. f_equal. lia. Qed.

Lemma stored_app m a x y : stored m a (x ++ y) -> stored m a x /\ stored m (a + alen x) y.
Proof.
  intros H. unfold stored, alen in *. rewrite length_app in H. split; intros i Hi.
  - rewrite H by lia. apply lookup_app_l. lia.
  - replace (a + Z.of_nat (length x) + i) with (a + (Z.of_nat (length x) + i)) by lia. rewrite H by lia. rewrite lookup_app_r by lia. f_equal. lia.
Qed.

Lemma stored_cons m a c x : stored m a (c :: x) -> m !! a = Some c /\ stored m (a + 1) x.
Proof.
  intros H. apply (stored_app m a [c] x) in H as [H1 H2]. split; [|done]. specialize (H1 0). rewrite Z.add_0_r in H1. apply H1. unfold alen. cbn. lia.
Qed.

Lemma stored_frame m m' a bs : (forall b, a <= b < a + alen bs -> m' !! b = m !! b) -> stored m a bs -> stored m' a bs.
Proof. intros Hf H i Hi. rewrite Hf by lia. by apply H. Qed.

Lemma stored_cstr m x y : forall a, Forall (fun c => 0 < c < 256) x -> stored m a (x ++ 0 :: y) -> cstr m a x.
Proof.
  induction x as [|c x IH]; intros a F H; cbn [app cstr] in *; apply stored_cons in H as [E H]; [done|].
  apply Forall_cons in F as [Hc F]. split; [done|]. split; [lia|by apply IH].
Qed.

Lemma put_bytes_spec bs : forall m a, Forall (fun c => 0 <= c < 256) bs -> readable m a (alen bs) ->
  exists m', put_bytes m a bs = Some m' /\ written m a bs m'.
Proof.
  induction bs as [|c bs IH]; intros m a F Hr; cbn [put_bytes]; [exists m; split; [done|apply written_nil]|].
  apply Forall_cons in F as [Hc F]. unfold alen in *. cbn [length] in Hr.
  rewrite mset_spec by (done || (rewrite <- (Z.add_0_r a); apply Hr; lia)). cbn [mbind option_bind].
  destruct (IH (<[a := c]> m) (a + 1) F) as (m' & -> & Hw).
  - intros i Hi. apply is_Some_insert. replace (a + 1 + i) with (a + (1 + i)) by lia. apply Hr. lia.
  - exists m'. split; [done|by apply written_cons].
Qed.

Lemma fill_written k : forall m a, readable m a (Z.of_nat k) -> exists m', fill_forward m a 0 k = Some m' /\ written m a (replicate k 0) m'.
Proof.
  induction k as [|k IH]; intros m a Hr; cbn [fill_forward replicate]; [exists m; split; [done|apply written_nil]|].
  rewrite mset_spec by (done || (rewrite <- (Z.add_0_r a); apply Hr; lia)). cbn [mbind option_bind].
  destruct (IH (<[a := 0]> m) (a + 1)) as (m' & E & Hw).
  - intros i Hi. apply is_Some_insert. replace (a + 1 + i) with (a + (1 + i)) by lia. apply Hr. lia.
  - exists m'. split; [done|by apply written_cons].
Qed.

(** The bytes that [strncpy] stores. *)
Definition padded (n : nat) (x : list Z) : list Z := take n (x ++ replicate n 0).

Lemma alen_padded n x : alen (padded n x) = Z.of_nat n.
Proof. unfold padded, alen. rewrite length_take, length_app, length_replicate. lia. Qed.

Lemma padded_cons n c x : padded (S n) (c :: x) = c :: padded n x.
Proof.
  unfold padded. cbn [app take]. f_equal. rewrite !take_app. f_equal. rewrite !take_replicate. f_equal. lia.
Qed.

Lemma strncpy_written n : forall m d s i x, cstr m (s + i) x -> Forall (fun c => 0 < c < 256) x -> readable m (d + i) (Z.of_nat n) ->
  (d + i + Z.of_nat n <= s + i \/ s + i + alen x < d + i) ->
  exists m', strncpy_loop m d s i n = Some m' /\ written m (d + i) (padded n x) m'.
Proof.
  induction n as [|n IH]; intros m d s i x L F Hr Ha; cbn [strncpy_loop]; [exists m; split; [done|apply written_nil]|].
  destruct x as [|c x]; cbn [cstr] in L.
  - rewrite L. cbn [mbind option_bind]. destruct (fill_written (S n) m (d + i) Hr) as (m' & E & Hw). exists m'. split; [exact E|].
    unfold padded. cbn [app]. by rewrite take_ge by (rewrite length_replicate; lia).
  - destruct L as (E & Hc & L). apply Forall_cons in F as [Hcb F]. rewrite E. cbn [mbind option_bind]. rewrite (proj2 (nonzero_true c) Hc).
    rewrite mset_spec by (lia || (rewrite <- (Z.add_0_r (d + i)); apply Hr; lia)). cbn [mbind option_bind]. unfold alen in Ha. cbn [length] in Ha.
    destruct (IH (<[d + i := c]> m) d s (i + 1) x) as (m' & -> & Hw).
    + rewrite Z.add_assoc. apply (cstr_frame m); [|done]. intros b Hb. apply lookup_insert_ne. unfold alen in Hb. lia.
    + done.
    + intros j Hj. apply is_Some_insert. replace (d + (i + 1) + j) with (d + i + (1 + j)) by lia. apply Hr. lia.
    + unfold alen. lia.
    + exists m'. split; [done|]. rewrite padded_cons. apply written_cons. by rewrite <- Z.add_assoc.
Qed.

Lemma alen_le_enc n : forall v, alen (le_enc v n) = Z.of_nat n.
Proof. induction n as [|n IH]; intros v; [done|]. specialize (IH (v / 256)). unfold alen in *. cbn [le_enc length]. lia. Qed.

Lemma le_at_stored n : forall m a v, 0 <= v < 256 ^ Z.of_nat n -> stored m a (le_enc v n) -> le_at m a n = Some v.
Proof.
  induction n as [|n IH]; intros m a v Hv H; cbn [le_at le_enc] in *; [f_equal; cbn in Hv; lia|].
  apply stored_cons in H as [E H]. rewrite E. cbn [mbind option_bind]. rewrite Nat2Z.inj_succ, Z.pow_succ_r in Hv by lia.
  rewrite (IH m (a + 1) (v / 256)) by (done || (split; [apply Z.div_pos; lia|apply Z.div_lt_upper_bound; lia])).
  cbn [mbind option_bind]. f_equal. pose proof (Z.div_mod v 256). lia.
Qed.

Lemma le_enc_bytes n : forall v, Forall (fun c => 0 <= c < 256) (le_enc v n).
Proof. induction n as [|n IH]; intros v; cbn [le_enc]; constructor; [by apply Z.mod_pos_bound|apply IH]. Qed.

Lemma encode_bytes e : entry_ok e -> Forall (fun c => 0 <= c < 256) (encode e).
Proof.
  intros [E1 E2 E3 E4 E5 E6 E7]. unfold encode. rewrite !Forall_app. repeat split; try apply le_enc_bytes.
  - by repeat constructor; lia.
  - eapply Forall_impl; [exact E4|]. intros c Hc. cbv beta in *. lia.
  - constructor; [lia|done].
Qed.

Lemma s64_u64 x : - 2 ^ 63 <= x < 2 ^ 63 -> s64 (u64 x) = x.
Proof.
  intros H. unfold swrap, wrap. change (64 - 1) with 63. rewrite Zplus_mod_idemp_l. rewrite Z.mod_small; lia.
Qed.

Lemma alen_encode e : alen (encode e) = 20 + alen (name e) + alen (padding e).
Proof. unfold encode, alen. rewrite !length_app. cbn [length le_enc]. lia. Qed.

(** ** One entry *)

(** The entry stored at [a] becomes the static entry: its numbers, and its name cut to
    255 bytes. *)
Lemma take_entry_spec ent m a e : stored m a (encode e) -> entry_ok e -> readable m ent sizeof_d_name ->
  (ent + sizeof_d_name <= a \/ a + alen (encode e) <= ent) ->
  exists m', take_entry ent m a = Some (m', numbers e) /\ cstr m' ent (take 255 (name e)) /\
    (forall b, b < ent \/ ent + sizeof_d_name <= b -> m' !! b = m !! b) /\ readable m' ent sizeof_d_name.
Proof.
  intros Hs Ho Hr Ha. pose proof (alen_encode e) as Hl. destruct Ho as [E1 E2 E3 E4 E5 E6 E7]. unfold encode in Hs. unfold sizeof_d_name in *.
  apply stored_app in Hs as [S1 Hs]. apply stored_app in Hs as [S2 Hs]. apply stored_app in Hs as [S3 Hs]. apply stored_app in Hs as [S4 Hs].
  rewrite !alen_le_enc in *. apply stored_cons in S4 as [S4 _]. pose proof (stored_cstr m (name e) (padding e) _ E4 Hs) as S5.
  unfold take_entry, off_off, off_reclen, off_type, off_name. rewrite (le_at_stored 8 m a (d_ino (numbers e))) by done. cbn [mbind option_bind].
  rewrite (le_at_stored 8 m (a + 8) (u64 (d_off (numbers e)))) by (done || apply wrap_range64). cbn [mbind option_bind].
  replace (a + 16) with (a + Z.of_nat 8 + Z.of_nat 8) by lia. rewrite (le_at_stored 2 m _ (d_reclen (numbers e))) by (done || (pose proof (alen_nonneg (encode e)); lia)).
  cbn [mbind option_bind]. replace (a + 18) with (a + Z.of_nat 8 + Z.of_nat 8 + Z.of_nat 2) by lia. rewrite S4. cbn [mbind option_bind].
  unfold strncpy. change (sizeof_d_name - 1) with 255. replace (a + 19) with (a + Z.of_nat 8 + Z.of_nat 8 + Z.of_nat 2 + alen [d_type (numbers e)]) by (unfold alen; cbn; lia).
  set (src := a + Z.of_nat 8 + _ + _ + _) in *.
  pose proof (alen_nonneg (name e)). pose proof (alen_nonneg (padding e)).
  assert (src = a + 19) as Hsrc by (subst src; unfold alen; cbn [length]; lia). clearbody src.
  destruct (strncpy_written (Z.to_nat 255) m ent src 0 (name e)) as (m1 & -> & Hw).
  - by rewrite Z.add_0_r.
  - done.
  - intros i Hi. rewrite Z.add_0_r. apply Hr. lia.
  - lia.
  - rewrite Z.add_0_r in Hw. cbn [mbind option_bind]. assert (Hout : forall b, b < ent \/ ent + 255 <= b -> m1 !! b = m !! b).
    { intros b Hb. rewrite (Hw b), decide_False; [done|]. rewrite alen_padded. lia. }
    assert (Hin : is_Some (m1 !! (ent + 255))) by (rewrite Hout by lia; apply Hr; lia).
    rewrite mset_spec by done. cbn [mbind option_bind]. eexists. split; [by rewrite s64_u64; destruct (numbers e)|]. split; [|split].
    + assert (Hw2 : written m ent (padded (Z.to_nat 255) (name e) ++ [0]) (<[ent + 255 := 0]> m1)).
      { pose proof (written_snoc m ent _ 0 m1 Hw) as G. by rewrite alen_padded in G. }
      apply stored_written in Hw2. revert Hw2. unfold padded. rewrite take_app.
      set (k := (Z.to_nat 255 - length (name e))%nat). intros Hw2. rewrite take_replicate in Hw2. 
      apply (stored_cstr _ _ (replicate (Nat.min k (Z.to_nat 255)) 0)); [by apply Forall_take|].
      rewrite <- app_assoc in Hw2. replace (0 :: replicate _ 0) with (replicate (k `min` Z.to_nat 255) 0 ++ [0]); [done|].
      clear. induction (k `min` Z.to_nat 255)%nat as [|j IH]; [done|]. cbn [replicate app]. by rewrite IH.
    + intros b Hb. rewrite lookup_insert_ne by lia. apply Hout. lia.
    + intros i Hi. destruct (decide (i = 255)) as [->|]; [rewrite lookup_insert_eq; by eexists|]. rewrite lookup_insert_ne by lia.
      rewrite (Hw (ent + i)). rewrite decide_True by (rewrite alen_padded; lia). apply lookup_lt_is_Some. pose proof (alen_padded (Z.to_nat 255) (name e)) as G. unfold alen in G. lia.
Qed.

(** ** Streams *)

Section streams.
Context {W : Type} `{Directories W} (ent : Z) (d : Z) (entries : W -> list entry -> Prop).

Notation prog := (prog W).
Notation dirs := (gmap Z DIR).

#[local] Existing Instance directories_posix.

(** The bytes of a list of entries. *)
Definition encoded (es : list entry) : list Z := concat (map encode es).

(** The descriptor [d] gives the entries in order: each call some of them, whole and at
    most a buffer; after the last one nothing, or an error. *)
Class DirStream : Prop := {
  entries_some w es : entries w es -> es <> [] -> exists w' now later, es = now ++ later /\ now <> [] /\ Forall entry_ok now /\
    alen (encoded now) <= sizeof_buffer /\ sys_getdents64 w d sizeof_buffer = Some (w', alen (encoded now), encoded now) /\ entries w' later;
  entries_end w : entries w [] -> exists w' r, sys_getdents64 w d sizeof_buffer = Some (w', r, []) /\ s64 r <= 0 /\ entries w' [] }.

Context `{DirStream}.

(** The stream [dirp] has the entries [es] left: [now] in the buffer, the others in the
    kernel. *)
Record reads (p : prog) (ds : dirs) (dirp : Z) (es : list entry) : Prop := Reads {
  rd_ptr : dirp <> 0;
  rd_buffer : readable (p_mem p) (dir_buffer dirp) sizeof_buffer;
  rd_entry : readable (p_mem p) ent sizeof_d_name;
  rd_apart : ent + sizeof_d_name <= dir_buffer dirp \/ dir_buffer dirp + sizeof_buffer <= ent;
  rd_state : exists pos fin now later, ds !! dirp = Some (Dir d pos fin) /\ es = now ++ later /\ entries (os p) later /\ Forall entry_ok now /\
    0 <= pos /\ (fin = pos + alen (encoded now) /\ fin <= sizeof_buffer) /\ stored (p_mem p) (dir_buffer dirp + pos) (encoded now) }.

Lemma encoded_cons e es : encoded (e :: es) = encode e ++ encoded es.
Proof. done. Qed.

Lemma encoded_pos e es : 0 < alen (encoded (e :: es)).
Proof. rewrite encoded_cons. unfold alen. rewrite length_app. pose proof (alen_encode e). pose proof (alen_nonneg (name e)). pose proof (alen_nonneg (padding e)). unfold alen in *. lia. Qed.

Lemma encoded_bytes es : Forall entry_ok es -> Forall (fun c => 0 <= c < 256) (encoded es).
Proof. induction 1 as [|e es He _ IH]; [constructor|]. rewrite encoded_cons. apply Forall_app. split; [by apply encode_bytes|done]. Qed.

Lemma written_readable m a bs m' b n : written m a bs m' -> readable m b n -> readable m' b n.
Proof.
  intros Hw Hr i Hi. rewrite (Hw (b + i)). case_decide as Hd; [|by apply Hr]. apply lookup_lt_is_Some. unfold alen in Hd. lia.
Qed.

Lemma count_s64 v : 0 <= v < 2 ^ 63 -> s64 v = v.
Proof. intros Hv. unfold swrap. rewrite Z.mod_small; lia. Qed.

Lemma count_s32 v : 0 <= v < 2 ^ 31 -> s32 v = v.
Proof. intros Hv. unfold swrap. rewrite Z.mod_small; lia. Qed.

(** Before an entry is taken, the buffer holds it. *)
Lemma fill_some p ds dirp e es : reads p ds dirp (e :: es) ->
  exists p1 pos fin now later, (d0 ← ds !! dirp; fill_buffer p d0 dirp) = Some (p1, Dir d pos fin, true) /\ es = now ++ later /\ entries (os p1) later /\
    Forall entry_ok (e :: now) /\ 0 <= pos /\ (fin = pos + alen (encoded (e :: now)) /\ fin <= sizeof_buffer) /\
    stored (p_mem p1) (dir_buffer dirp + pos) (encoded (e :: now)) /\
    readable (p_mem p1) (dir_buffer dirp) sizeof_buffer /\ readable (p_mem p1) ent sizeof_d_name.
Proof.
  intros [Hp Hb He Ha (pos & fin & now & later & Ed & Ees & Hk & Ho & Hpos & [Hfin Hmax] & Hs)]. rewrite Ed. cbn [mbind option_bind]. unfold fill_buffer. cbn [buf_end buf_pos dir_fd].
  destruct now as [|e' now].
  - cbn [app] in Ees. subst later. rewrite (proj2 (Z.leb_le fin pos)) by (subst fin; change (alen (encoded [])) with 0; lia).
    destruct (entries_some _ _ Hk) as (w' & now & later & E & Hn & Hf & Hl & -> & Hk'); [done|]. cbn [mbind option_bind].
    destruct now as [|e' now]; [done|]. injection E as <- ->.
    destruct (put_bytes_spec (encoded (e :: now)) (p_mem p) (dir_buffer dirp)) as (m' & -> & Hw); [by apply encoded_bytes|intros i Hi; apply Hb; lia|].
    cbn [mbind option_bind]. pose proof (encoded_pos e now) as Hpos1. unfold sizeof_buffer in Hl.
    rewrite count_s64, count_s32 by lia. rewrite (proj2 (Z.leb_gt _ 0)) by lia. do 5 eexists. split; [done|]. split; [done|]. cbn [os p_mem with_mem with_os with_lib p_lib snd].
    split; [done|]. split; [done|]. split; [done|]. split; [unfold sizeof_buffer; lia|]. rewrite Z.add_0_r.
    split; [by apply (stored_written (p_mem p))|]. split; by eapply written_readable.
  - injection Ees as <- ->. pose proof (encoded_pos e now). rewrite (proj2 (Z.leb_gt fin pos)) by lia.
    exists p, pos, fin, now, later. repeat (split; [done|]). done.
Qed.

(** A call gives the next entry and its name. *)
Lemma readdir_next p ds dirp e es : reads p ds dirp (e :: es) ->
  exists p' ds', readdir ent p ds dirp = Some (p', ds', Some (numbers e)) /\ cstr (p_mem p') ent (take 255 (name e)) /\ reads p' ds' dirp es.
Proof.
  intros Hr. pose proof Hr as [Hp _ _ Ha _]. destruct (fill_some _ _ _ _ _ Hr) as (p1 & pos & fin & now & later & E & -> & Hk & Ho & Hpos & [Hfin Hmax] & Hs & Hb & He).
  unfold readdir. rewrite (proj2 (Z.eqb_neq dirp 0)) by done. destruct (ds !! dirp) as [d0|]; [|done]. cbn [mbind option_bind] in *. rewrite E. cbn [mbind option_bind buf_pos].
  apply Forall_cons in Ho as [Hoe Ho]. rewrite encoded_cons in *. apply stored_app in Hs as [Hs Hs2]. pose proof (alen_nonneg (encoded now)) as Hn. pose proof (alen_nonneg (encode e)) as Hn2.
  assert (Hsum : alen (encode e ++ encoded now) = alen (encode e) + alen (encoded now)) by (unfold alen; rewrite length_app; lia).
  destruct (take_entry_spec ent (p_mem p1) (dir_buffer dirp + pos) e Hs Hoe He) as (m' & -> & Hc & Hf & Hr'); [lia|]. cbn [mbind option_bind dir_fd buf_pos buf_end].
  eexists _, _. split; [done|]. split; [done|]. assert (Hlen : d_reclen (numbers e) = alen (encode e)) by (by destruct Hoe). rewrite Hlen. split; try done; cbn [p_mem with_mem].
  - intros i Hi. rewrite Hf by lia. by apply Hb.
  - exists (pos + alen (encode e)), fin, now, later. split; [by rewrite lookup_insert_eq|]. split; [done|]. split; [done|]. split; [done|]. split; [lia|]. split; [lia|].
    rewrite Z.add_assoc. eapply stored_frame; [|exact Hs2]. intros b Hb2. apply Hf. lia.
Qed.

Lemma readdir_end p ds dirp : reads p ds dirp [] -> exists p' ds', readdir ent p ds dirp = Some (p', ds', None) /\ reads p' ds' dirp [].
Proof.
  intros [Hp Hb He Ha (pos & fin & now & later & Ed & Ees & Hk & Ho & Hpos & [Hfin Hmax] & Hs)]. symmetry in Ees. apply app_nil in Ees as [-> ->].
  unfold readdir. rewrite (proj2 (Z.eqb_neq dirp 0)) by done. rewrite Ed. cbn [mbind option_bind]. unfold fill_buffer. cbn [buf_end buf_pos dir_fd].
  rewrite (proj2 (Z.leb_le fin pos)) by (subst fin; change (alen (encoded [])) with 0; lia). destruct (entries_end _ Hk) as (w' & r & -> & Hr & Hk'). cbn [mbind option_bind put_bytes].
  rewrite (proj2 (Z.leb_le (s64 r) 0)) by done. cbn [mbind option_bind]. eexists _, _. split; [done|]. split; try done.
  exists pos, fin, [], []. split; [by rewrite lookup_insert_eq|]. by repeat (split; [done|]).
Qed.

(** The loop [while ((e = readdir(dirp)))] that keeps each entry and its name. *)
Fixpoint list_entries (p : prog) (ds : dirs) (dirp : Z) (fuel : nat) : option (prog * dirs * list (dirent * list Z)) :=
  match fuel with
  | O => None
  | S fuel =>
      '(p1, ds1, r) ← readdir ent p ds dirp;
      match r with
      | None => Some (p1, ds1, [])
      | Some de => n ← get_str (p_mem p1) ent; '(p2, ds2, rest) ← list_entries p1 ds1 dirp fuel; Some (p2, ds2, (de, n) :: rest)
      end
  end.

Lemma get_bytes_cstr m x : forall a, cstr m a x -> get_bytes m a (length x) = Some x.
Proof. induction x as [|c x IH]; intros a L; [done|]. cbn [cstr get_bytes length] in *. destruct L as (-> & _ & L). cbn [mbind option_bind]. by rewrite IH. Qed.

Lemma get_str_cstr m a x : cstr m a x -> get_str m a = Some x.
Proof. intros L. unfold get_str. rewrite (strlen_agrees m a), (strlen_spec m a x L). cbn [mbind option_bind]. unfold alen. rewrite Nat2Z.id. by apply get_bytes_cstr. Qed.

(** The loop over an open directory ends and has seen every entry once, in the order
    of the kernel, with its numbers and its name cut to 255 bytes, however the entries
    are distributed over the kernel's answers. *)
Theorem readdir_lists p ds dirp es : reads p ds dirp es ->
  exists p' ds', list_entries p ds dirp (S (length es)) = Some (p', ds', map (fun e => (numbers e, take 255 (name e))) es) /\ reads p' ds' dirp [].
Proof.
  revert p ds. induction es as [|e es IH]; intros p ds Hr; cbn [length map].
  - cbn [list_entries]. destruct (readdir_end _ _ _ Hr) as (p' & ds' & -> & Hr'). by exists p', ds'.
  - destruct (readdir_next _ _ _ _ _ Hr) as (p1 & ds1 & E & Hc & Hr1). destruct (IH _ _ Hr1) as (p2 & ds2 & E2 & Hr2).
    cbn [list_entries] in E2 |- *. rewrite E. cbn [mbind option_bind]. rewrite (get_str_cstr _ _ _ Hc). cbn [mbind option_bind]. rewrite E2. by exists p2, ds2.
Qed.

End streams.

(** ** A directory of three entries, in two answers *)

Definition answers : Type := list (list entry).

#[local] Instance answers_directories : Directories answers := {|
  directories_posix := {|
    posix_brk := {| os_brk := fun w a => Some (w, if a =? 0 then 2 ^ 20 else a) |};
    sys_read := fun w _ _ => Some (w, 0, []); sys_write := fun w _ bs => Some (w, alen bs);
    sys_open := fun w _ _ _ => Some (w, 3); sys_close := fun w _ => Some (w, 0) |};
  sys_getdents64 := fun w _ _ => match w with [] => Some ([], 0, []) | now :: w => Some (w, alen (encoded now), encoded now) end |}.

Definition answers_entries (w : answers) (es : list entry) : Prop :=
  es = concat w /\ Forall (fun now => now <> [] /\ Forall entry_ok now /\ alen (encoded now) <= sizeof_buffer) w.

Definition sub : entry := Entry (Dirent 12 (-1) 24 4) (txt "usr") [0].
Definition file : entry := Entry (Dirent (2 ^ 40) 5 26 8) (txt "notes") [7].
Definition long : entry := Entry (Dirent 7 6 320 8) (replicate 300 97) [].

#[local] Instance answers_stream : DirStream 3 answers_entries.
Proof.
  split.
  - intros [|now w] es [-> F] Hes; [done|]. apply Forall_cons in F as [(Hn & Ho & Hl) F].
    exists w, now, (concat w). split; [done|]. split; [done|]. split; [done|]. split; [done|]. by split.
  - intros [|now w] [E F]; [|apply Forall_cons in F as [(Hn & _) F]; by destruct now]. exists [], 0. split; [done|]. split; [by vm_compute|]. by split.
Qed.

(** The conditions of a concrete entry, decided. *)
Lemma entry_check e : bool_decide (0 <= d_ino (numbers e) < 2 ^ 64 /\ - 2 ^ 63 <= d_off (numbers e) < 2 ^ 63 /\ 0 <= d_type (numbers e) < 256 /\
  Forall (fun c => 0 < c < 256) (name e) /\ Forall (fun c => 0 <= c < 256) (padding e) /\
  d_reclen (numbers e) = alen (encode e) /\ alen (encode e) < 2 ^ 16) = true -> entry_ok e.
Proof. intros H%bool_decide_eq_true. destruct H as (E1 & E2 & E3 & E4 & E5 & E6 & E7). by split. Qed.

Definition demo_dir : prog answers :=
  Prog (list_to_map (map (fun a => (a, 0)) (seqZ 1000 256 ++ seqZ 5000 4108))) (heap_start, [[sub; file]; [long]]) std_files 0.

Lemma readdir_lists_witness : exists p' ds',
  list_entries 1000 demo_dir {[ 5000 := Dir 3 0 0 ]} 5000 4 = Some (p', ds', [(Dirent 12 (-1) 24 4, txt "usr"); (Dirent (2 ^ 40) 5 26 8, txt "notes"); (Dirent 7 6 320 8, replicate 255 97)]) /\
  reads 1000 3 answers_entries p' ds' 5000 [].
Proof.
  apply (readdir_lists 1000 3 answers_entries demo_dir {[ 5000 := Dir 3 0 0 ]} 5000 [sub; file; long]). split.
  - done.
  - by apply readable_check; vm_compute.
  - by apply readable_check; vm_compute.
  - left. done.
  - exists 0, 0, [], [sub; file; long]. split; [done|]. split; [done|]. split.
    + split; [done|]. apply Forall_cons. split; [|apply Forall_cons; split; [|done]]; (split; [done|]); (split; [|by vm_compute]);
        repeat (apply Forall_cons; split; [by apply entry_check; vm_compute|]); done.
    + split; [done|]. split; [done|]. split; [done|]. intros i Hi. change (alen (encoded [])) with 0 in Hi. lia.
Defined.

(** The same through [opendir] and [closedir], on the user heap. *)
Definition list_directory (p : prog answers) (name : Z) (fuel : nat) : option (list (dirent * list Z) * gmap Z DIR * Z) :=
  '(p1, ds, dirp) ← opendir p ∅ name; '(p2, ds2, es) ← list_entries 1000 p1 ds dirp fuel; '(_, ds3, r) ← closedir p2 ds2 dirp; Some (es, ds3, r).

Example list_demo : option_map (fun r => (map (fun e => alen e.2) r.1.1, r.1.2, r.2)) (list_directory demo_dir 1000 10) = Some ([3; 5; 255], ∅, 0).
Proof. vm_compute. reflexivity. Qed.
