(* ===== verification/UserShell.v ===== *)
(** The user's shell, userspace/shell/shell.c and builtins.c, over the user library and
    the process calls.

    The line, the directory name, the path of a command and a configuration line are
    arrays at given addresses; [argv] is a list of pointers.  After a fork the code
    runs in both processes, told apart by the result. *)
From stdpp Require Import prelude gmap list strings.
From Stdlib Require Import ZArith Lia.
From S2P Require Import Prelude KString LibcHeap LibcString LibcStdio UserInit.

Open Scope Z_scope.

(** The calls of unistd.c that only the shell makes: [sys_pipe] gives the two descriptors
    when it stores them, [sys_getcwd] the bytes that it stores. *)
Class ShellCalls (W : Type) := {
  shell_processes :: Processes W;
  sys_pipe : W -> option (W * Z * option (Z * Z));
  sys_dup2 : W -> Z -> Z -> option (W * Z);
  sys_chdir : W -> list Z -> option (W * Z);
  sys_getcwd : W -> Z -> option (W * Z * list Z) }.

#[export] Existing Instance processes_posix.

Definition MAX_ARGS : Z := 64.
Definition MAX_INPUT : Z := 1024.
Definition PROMPT_MAX : Z := 64.

Section shell.
Context {W : Type} `{ShellCalls W} (lit : list Z -> Z).

Notation prog := (prog W).

(** *** unistd.c *)

Definition fork (p : prog) : option (prog * Z) := '(w, r) ← sys_fork (os p); Some (with_os p w, s32 r).

Definition waitpid (p : prog) (pid : Z) : option (prog * Z) := '(w, r, _) ← sys_wait4 (os p) pid 0; Some (with_os p w, s32 r).

Definition dup2 (p : prog) (oldfd newfd : Z) : option (prog * Z) := '(w, r) ← sys_dup2 (os p) oldfd newfd; Some (with_os p w, s32 r).

Definition chdir (p : prog) (path : Z) : option (prog * Z) := s ← get_str (p_mem p) path; '(w, r) ← sys_chdir (os p) s; Some (with_os p w, s32 r).

Definition getcwd (p : prog) (buf size : Z) : option (prog * Z) :=
  '(w, r, bs) ← sys_getcwd (os p) size; m ← put_bytes (p_mem p) buf bs; Some (with_mem (with_os p w) m, if r <? 0 then 0 else buf).

(** The array [pipefd] holds [garbage] before the call. *)
Definition pipe (p : prog) (garbage : Z * Z) : option (prog * Z * (Z * Z)) := '(w, r, fds) ← sys_pipe (os p); Some (with_os p w, s32 r, default garbage fds).

(** *** stdlib.c *)

(** [atoi]: a signed overflow is undefined. *)
Fixpoint atoi_digits (m : bmem) (s res : Z) (fuel : nat) : option Z :=
  match fuel with
  | O => None
  | S fuel =>
      c ← m !! s;
      if (48 <=? c) && (c <=? 57) then let r := res * 10 + (c - 48) in if r <? 2 ^ 31 then atoi_digits m (s + 1) r fuel else None else Some res
  end.

Fixpoint atoi_blanks (m : bmem) (s : Z) (fuel : nat) : option Z :=
  match fuel with O => None | S fuel => c ← m !! s; if (c =? 32) || (c =? 9) then atoi_blanks m (s + 1) fuel else Some s end.

Definition atoi (m : bmem) (s : Z) : option Z :=
  s1 ← atoi_blanks m s (str_fuel m); c ← m !! s1;
  r ← atoi_digits m (if (c =? 45) || (c =? 43) then s1 + 1 else s1) 0 (str_fuel m);
  Some (if c =? 45 then - r else r).

(** *** builtins.c *)

Section builtins.
(** [buf] of [cmd_pwd], and the literals of [perror]. *)
Context (buf : Z).

Definition say (p : prog) (fmt : list Z) (args : list Z) : option (outcome prog unit) := '(p1, _) ← printf p (lit fmt) args; Some (Goes p1 tt).

Definition fail (p : prog) (name : list Z) : option (outcome prog Z) :=
  '(p1, _) ← perror p (lit name) (lit (txt "%s: Error %d" ++ [10])) (lit (txt "Error %d" ++ [10])); Some (Goes p1 1).

Definition cmd_cd (p : prog) (argv : list Z) : option (outcome prog Z) :=
  match argv with
  | _ :: a :: _ => '(p1, r) ← chdir p a; if negb (r =? 0) then fail p1 (txt "cd") else Some (Goes p1 0)
  | _ => andthen (say p (txt "cd: missing argument" ++ [10]) []) (fun p1 _ => Some (Goes p1 1))
  end.

Definition cmd_pwd (p : prog) : option (outcome prog Z) :=
  '(p1, r) ← getcwd p buf 256;
  if nonzero r then andthen (say p1 (txt "%s" ++ [10]) [buf]) (fun p2 _ => Some (Goes p2 0)) else fail p1 (txt "pwd").

Fixpoint echo_args (p : prog) (args : list Z) : option (outcome prog unit) :=
  match args with
  | [] => Some (Goes p tt)
  | a :: args =>
      andthen (say p (txt "%s") [a]) (fun p1 _ =>
      andthen (match args with [] => Some (Goes p1 tt) | _ => say p1 (txt " ") [] end) (fun p2 _ => echo_args p2 args))
  end.

Definition cmd_echo (p : prog) (argv : list Z) : option (outcome prog Z) :=
  andthen (echo_args p (tail argv)) (fun p1 _ => andthen (say p1 [10] []) (fun p2 _ => Some (Goes p2 0))).

(** [exit(code)] *)
Definition cmd_exit (p : prog) (argv : list Z) : option (outcome prog Z) :=
  match argv with _ :: a :: _ => code ← atoi (p_mem p) a; Some (Exits p code) | _ => Some (Exits p 0) end.

(** [argv[0]]: the list ends with NULL. *)
Definition arg0 (argv : list Z) : Z := hd 0 argv.

Definition is_cmd (p : prog) (argv : list Z) (name : list Z) : option bool := r ← strcmp (p_mem p) (arg0 argv) (lit name); Some (r =? 0).

Definition builtin_run (p : prog) (argv : list Z) : option (outcome prog Z) :=
  cd ← is_cmd p argv (txt "cd");
  if (cd : bool) then andthen (cmd_cd p argv) (fun p1 _ => Some (Goes p1 0))
  else
    pwd ← is_cmd p argv (txt "pwd");
    if (pwd : bool) then andthen (cmd_pwd p) (fun p1 _ => Some (Goes p1 0))
    else
      echo ← is_cmd p argv (txt "echo");
      if (echo : bool) then andthen (cmd_echo p argv) (fun p1 _ => Some (Goes p1 0))
      else
        ex ← is_cmd p argv (txt "exit");
        if (ex : bool) then andthen (cmd_exit p argv) (fun p1 _ => Some (Goes p1 0)) else Some (Goes p (-1)).

End builtins.

(** *** shell.c *)

(** The arrays [line], [cwd], [path], and [buf] of [cmd_pwd]. *)
Context (line cwd path pwd_buf : Z).

Definition DELIMITERS : list Z := [32; 9; 10].

Definition parse_args (p : prog) (l : Z) : option (prog * list Z) :=
  '(m1, o1, tok) ← strtok (p_mem p) (p_olds p) l (lit DELIMITERS);
  '(m2, o2, toks) ← token_loop m1 o1 tok (lit DELIMITERS) (Z.to_nat (MAX_ARGS - 1));
  Some (Prog m2 (p_lib p) (p_files p) o2, toks).

(** [if (fd != std) { dup2(fd, std); close(fd); }] *)
Definition redirect (p : prog) (fd std : Z) : option prog :=
  if negb (fd =? std) then '(p1, _) ← dup2 p fd std; '(p2, _) ← close p1 fd; Some p2 else Some p.

Definition try_path (p : prog) (fmt : list Z) (argv : list Z) : option (outcome prog Z) :=
  '(p1, _) ← snprintf p path 256 (lit fmt) [arg0 argv]; execv p1 path argv.

(** The child of [exec_command]. *)
Definition command_child (p : prog) (argv : list Z) (in_fd out_fd : Z) : option (outcome prog unit) :=
  p1 ← redirect p in_fd STDIN_FILENO; p2 ← redirect p1 out_fd STDOUT_FILENO;
  c ← p_mem p2 !! arg0 argv;
  andthen (if negb (c =? 47) then
             andthen (try_path p2 (txt "/bin/%s") argv) (fun p3 _ => andthen (try_path p3 (txt "/usr/bin/%s") argv) (fun p4 _ => Some (Goes p4 tt)))
           else Some (Goes p2 tt)) (fun p5 _ =>
  andthen (execv p5 (arg0 argv) argv) (fun p6 _ =>
    '(p7, _) ← fprintf p6 stderr (lit (txt "nsh: %s: command not found" ++ [10])) [arg0 argv]; Some (Exits p7 127))).

Definition exec_command (p : prog) (argv : list Z) (in_fd out_fd : Z) : option (outcome prog unit) :=
  andthen (builtin_run pwd_buf p argv) (fun p0 b =>
    if b =? 0 then Some (Goes p0 tt)
    else
      '(p1, pid) ← fork p0;
      if pid =? 0 then command_child p1 argv in_fd out_fd
      else if 0 <? pid then '(p2, _) ← waitpid p1 pid; Some (Goes p2 tt)
      else Some (Goes p1 tt)).

(** The name after ">": blanks skipped, cut at the next blank or line end. *)
Fixpoint skip_spaces (m : bmem) (s : Z) (fuel : nat) : option Z :=
  match fuel with O => None | S fuel => c ← m !! s; if c =? 32 then skip_spaces m (s + 1) fuel else Some s end.

Definition open_output (p : prog) (redir : Z) : option (prog * Z) :=
  m1 ← mset (p_mem p) redir 0;
  fname ← skip_spaces m1 (redir + 1) (str_fuel m1);
  n ← strcspn m1 fname (lit [32; 10]); m2 ← mset m1 (fname + n) 0;
  open (with_mem p m2) fname (Z.lor (Z.lor O_WRONLY O_CREAT) O_TRUNC).

Definition simple_command (p : prog) : option (outcome prog unit) :=
  redir ← strchr (p_mem p) line 62;
  '(p1, out_fd) ← (if nonzero redir then open_output p redir else Some (p, STDOUT_FILENO));
  '(p2, argv) ← parse_args p1 line;
  andthen (match argv with [] => Some (Goes p2 tt) | _ => exec_command p2 argv STDIN_FILENO out_fd end) (fun p3 _ =>
    if negb (out_fd =? STDOUT_FILENO) then '(p4, _) ← close p3 out_fd; Some (Goes p4 tt) else Some (Goes p3 tt)).

(** The first command of a pipeline, in the child. *)
Definition pipeline_child (p : prog) (argv1 : list Z) (fds : Z * Z) : option (outcome prog unit) :=
  '(p1, _) ← close p fds.1;
  andthen (exec_command p1 argv1 STDIN_FILENO fds.2) (fun p2 _ => '(p3, _) ← close p2 fds.2; Some (Exits p3 0)).

Definition pipeline (p : prog) (pipe_pos : Z) (garbage : Z * Z) : option (outcome prog unit) :=
  m1 ← mset (p_mem p) pipe_pos 0;
  '(p1, _, fds) ← pipe (with_mem p m1) garbage;
  '(p2, argv1) ← parse_args p1 line; '(p3, argv2) ← parse_args p2 (pipe_pos + 1);
  '(p4, p1_pid) ← fork p3;
  if p1_pid =? 0 then pipeline_child p4 argv1 fds
  else
    '(p5, _) ← close p4 fds.2;
    andthen (exec_command p5 argv2 fds.1 STDOUT_FILENO) (fun p6 _ =>
      '(p7, _) ← close p6 fds.1; '(p8, _) ← waitpid p7 p1_pid; Some (Goes p8 tt)).

Definition handle_pipeline (p : prog) (garbage : Z * Z) : option (outcome prog unit) :=
  pipe_pos ← strchr (p_mem p) line 124;
  if nonzero pipe_pos then pipeline p pipe_pos garbage else simple_command p.

(** The array is set to a slash before. *)
Definition print_prompt (p : prog) : option (outcome prog unit) :=
  m ← put_bytes (p_mem p) cwd (47 :: replicate 255 0);
  '(p1, _) ← getcwd (with_mem p m) cwd 256;
  andthen (say p1 (txt "[nsh:%s]$ ") [cwd]) (fun p2 _ => Some (Goes p2 tt)).

(** The loop of [main], for [n] lines. *)
Fixpoint shell_loop (p : prog) (garbage : Z * Z) (n : nat) : option (outcome prog bool) :=
  match n with
  | O => Some (Goes p false)
  | S n =>
      andthen (print_prompt p) (fun p1 _ =>
        '(p2, r) ← fgets p1 line MAX_INPUT stdin;
        if r =? 0 then andthen (say p2 [10] []) (fun p3 _ => Some (Goes p3 true))
        else andthen (handle_pipeline p2 garbage) (fun p3 _ => shell_loop p3 garbage n))
  end.

(** *** The configuration *)

(** [shell_cfg]: the prompt is an array, the numbers are fields. *)
Context (cfg_prompt conf_line : Z).

Fixpoint cut_trailing (m : bmem) (k ke : Z) (fuel : nat) : option bmem :=
  match fuel with
  | O => None
  | S fuel => if k <? ke then c ← m !! ke; if c =? 32 then m1 ← mset m ke 0; cut_trailing m1 k (ke - 1) fuel else Some m else Some m
  end.

(** A line with "=": the memory and [history_size]. *)
Definition conf_entry (m : bmem) (eq history : Z) : option (bmem * Z) :=
  m1 ← mset m eq 0;
  k ← skip_spaces m1 conf_line (str_fuel m1);
  n ← strlen m1 k; m2 ← cut_trailing m1 k (k + n - 1) (str_fuel m1);
  v ← skip_spaces m2 (eq + 1) (str_fuel m2);
  nv ← strlen m2 v; c ← m2 !! (v + nv - 1);
  m3 ← (if c =? 10 then mset m2 (v + nv - 1) 0 else Some m2);
  r1 ← strcmp m3 k (lit (txt "prompt")); m4 ← (if r1 =? 0 then strncpy m3 cfg_prompt v (PROMPT_MAX - 1) else Some m3);
  r2 ← strcmp m4 k (lit (txt "history_size")); h ← (if r2 =? 0 then atoi m4 v else Some history);
  Some (m4, h).

Fixpoint shell_conf_loop (p : prog) (f history : Z) (fuel : nat) : option (prog * Z) :=
  match fuel with
  | O => None
  | S fuel =>
      '(p1, r) ← fgets p conf_line 256 f;
      if r =? 0 then Some (p1, history)
      else
        c ← p_mem p1 !! conf_line;
        if c =? 35 then shell_conf_loop p1 f history fuel
        else
          eq ← strchr (p_mem p1) conf_line 61;
          if nonzero eq then '(m, h) ← conf_entry (p_mem p1) eq history; shell_conf_loop (with_mem p1 m) f h fuel else shell_conf_loop p1 f history fuel
  end.

Definition load_shell_conf (p : prog) (history : Z) (fuel : nat) : option (prog * Z) :=
  '(p1, f) ← fopen p (lit (txt "/etc/nexus/shell.conf")) (lit [114]);
  if f =? 0 then Some (p1, history) else '(p2, h) ← shell_conf_loop p1 f history fuel; '(p3, _) ← fclose p2 f; Some (p3, h).

Definition main (p : prog) (garbage : Z * Z) (fuel n : nat) : option (outcome prog bool) :=
  '(p1, _) ← load_shell_conf p 100 fuel;
  andthen (say p1 (txt "Nexus Shell initialized." ++ [10]) []) (fun p2 _ => shell_loop p2 garbage n).

End shell.
