(* ===== verification/UserShellThm.v ===== *)
(** What the user's shell does with a command line: the words of the line become the
    arguments, the child searches the command in its directories, the parent waits. *)
From stdpp Require Import prelude gmap list strings.
From Stdlib Require Import ZArith Lia.
From S2P Require Import Prelude KString LibcHeap LibcString LibcStdio UserInit UserShell Dirent.

Open Scope Z_scope.

(** ** Strings behind pointers *)

Lemma cstr_within m x e : m !! e = Some 0 -> forall a, cstr m a x -> a <= e -> a + alen x <= e.
Proof.
  intros E. induction x as [|c x IH]; intros a L Ha; cbn [cstr] in L; unfold alen in *; cbn [length]; [lia|]. destruct L as (Ec & Hc & L).
  destruct (decide (a = e)) as [->|]; [congruence|]. specialize (IH (a + 1) L). lia.
Qed.

(** [strtok] stores nothing but zeros. *)
Lemma mset_zero m a m' b : mset m a 0 = Some m' -> m !! b = Some 0 -> m' !! b = Some 0.
Proof.
  unfold mset. destruct (m !! a); [|done]. intros [= <-] E. destruct (decide (a = b)) as [->|]; [by rewrite lookup_insert_eq|]. by rewrite lookup_insert_ne.
Qed.

Lemma strtok_zero m olds s delim m' o tok b : strtok m olds s delim = Some (m', o, tok) -> m !! b = Some 0 -> m' !! b = Some 0.
Proof.
  intros E Hb. unfold strtok in E. cbv zeta in E. set (s' := if s =? 0 then olds else s) in E. clearbody s'. destruct (s' =? 0); [by simplify_eq|].
  destruct (strspn m s' delim) as [k|]; [|done]. cbn [mbind option_bind] in E. destruct (m !! (s' + k)) as [c|]; [|done]. cbn [mbind option_bind] in E.
  destruct (c =? 0); [by simplify_eq|]. destruct (strcspn m (s' + k) delim) as [n|]; [|done]. cbn [mbind option_bind] in E.
  destruct (m !! (s' + k + n)) as [e|]; [|done]. cbn [mbind option_bind] in E. destruct (nonzero e); [|by simplify_eq].
  destruct (mset m (s' + k + n) 0) as [m1|] eqn:Em; [|done]. cbn [mbind option_bind] in E. simplify_eq. by eapply mset_zero.
Qed.

Lemma token_loop_zero n : forall m olds tok delim m' o ts b, token_loop m olds tok delim n = Some (m', o, ts) -> m !! b = Some 0 -> m' !! b = Some 0.
Proof.
  induction n as [|n IH]; intros m olds tok delim m' o ts b E Hb; cbn [token_loop] in E; [by destruct (tok =? 0); simplify_eq|].
  destruct (tok =? 0); [by simplify_eq|]. apply bind_Some in E as ([[m1 o1] tok1] & E1 & E). apply bind_Some in E as ([[m2 o2] ts2] & E2 & E). simplify_eq.
  eapply IH; [exact E2|]. by eapply strtok_zero.
Qed.

Section shell.
Context {W : Type} `{ShellCalls W} (lit : list Z -> Z) (line cwd path pwd_buf : Z).
Implicit Types (p : prog W).

#[local] Existing Instance shell_processes.
#[local] Existing Instance processes_posix.

Notation sep := (member DELIMITERS).
Notation words t := (words_by sep t []).

Definition NOT_FOUND : list Z := txt "nsh: %s: command not found" ++ [10].

(** The literals of a command. *)
Definition literals : list (list Z) := [DELIMITERS; txt "cd"; txt "pwd"; txt "echo"; txt "exit"; txt "/bin/%s"; txt "/usr/bin/%s"; NOT_FOUND].

(** The bytes behind pointers are as a command needs them, except for the line: the
    literals and the array [path], which do not overlap each other or the line. *)
Record ready (m : bmem) : Prop := Ready {
  ry_bytes : bytes_ok m;
  ry_lit s : s ∈ literals -> cstr m (lit s) s;
  ry_lit_pos s : s ∈ literals -> 0 < lit s;
  ry_lit_line s : s ∈ literals -> lit s + alen s < line \/ line + MAX_INPUT <= lit s;
  ry_lit_path s : s ∈ literals -> lit s + alen s < path \/ path + 256 <= lit s;
  ry_path : readable m path 256;
  ry_path_line : path + 256 <= line \/ line + MAX_INPUT <= path;
  ry_line : 0 < line }.

(** The arguments are strings of the line. *)
Definition arguments (m : bmem) (argv : list Z) (ws : list (list Z)) : Prop :=
  Forall2 (fun a w => cstr m a w /\ line <= a /\ a + alen w < line + MAX_INPUT) argv ws.

(** What the line may change. *)
Lemma ready_frame m m' : ready m -> bytes_ok m' -> (forall b, b < line \/ line + MAX_INPUT <= b -> m' !! b = m !! b) -> ready m'.
Proof.
  intros R Hb Hf. destruct R as [R1 R2 R3 R4 R5 R6 R7 R8]. split; try done.
  - intros s Hs. eapply cstr_frame; [|by apply R2]. intros b Hbb. apply Hf. destruct (R4 s Hs); lia.
  - intros i Hi. rewrite Hf by lia. by apply R6.
Qed.

(** The words of the line, at most 63 of them, become the arguments. *)
Lemma parse_args_spec p t : ready (p_mem p) -> cstr (p_mem p) line t -> alen t < MAX_INPUT ->
  exists p' argv, parse_args lit p line = Some (p', argv) /\ arguments (p_mem p') argv (take 63 (words t)) /\ ready (p_mem p') /\
    p_lib p' = p_lib p /\ p_files p' = p_files p.
Proof.
  intros R L Ht. pose proof (alen_nonneg t) as Hn. pose proof R as [R1 R2 R3 R4 R5 R6 R7 R8]. unfold parse_args.
  assert (Hd : DELIMITERS ∈ literals) by (by left).
  destruct (token_loop_spec (lit DELIMITERS) DELIMITERS (Z.to_nat (MAX_ARGS - 1)) (p_mem p) (p_olds p) line t) as (m1 & o1 & tok & m2 & o2 & ts & E1 & E2 & F & Fp & Hf & Hb).
  { split; [done|done|by apply (R2 _ Hd)|split; [done|by apply (R3 _ Hd)]|]. destruct (R4 _ Hd); [right; lia|left; lia]. }
  rewrite E1. cbn [mbind option_bind]. rewrite E2. cbn [mbind option_bind]. eexists _, _. split; [done|]. cbn [p_mem p_lib p_files].
  assert (Hz : m2 !! (line + alen t) = Some 0).
  { eapply token_loop_zero; [exact E2|]. eapply strtok_zero; [exact E1|]. clear -L. revert L. generalize line. induction t as [|c t IH]; intros a L; cbn [cstr] in L.
    - unfold alen. cbn. by rewrite Z.add_0_r.
    - destruct L as (_ & _ & L). apply IH in L. unfold alen in *. cbn [length]. replace (a + Z.of_nat (S (length t))) with (a + 1 + Z.of_nat (length t)) by lia. done. }
  split; [|split; [|done]].
  - change (Z.to_nat (MAX_ARGS - 1)) with 63%nat in F. unfold arguments. clear E1 E2. revert Fp. induction F as [|a w ts ws Ha _ IH]; intros Fp; [constructor|].
    apply Forall_cons in Fp as [Hp Fp]. constructor; [|by apply IH]. split; [done|]. pose proof (cstr_within m2 w _ Hz a Ha). lia.
  - eapply ready_frame; [exact R|done|]. intros b Hbb. apply Hf. unfold MAX_INPUT in *. lia.
Qed.

(** *** Built-in commands *)

Definition builtins : list (list Z) := [txt "cd"; txt "pwd"; txt "echo"; txt "exit"].

Lemma is_cmd_spec p argv w s : ready (p_mem p) -> cstr (p_mem p) (arg0 argv) w -> s ∈ literals -> w <> s -> is_cmd lit p argv s = Some false.
Proof.
  intros R L Hs Hw. unfold is_cmd. rewrite strcmp_agrees. pose proof (ry_lit _ R s Hs) as Ls. unfold KString.strcmp.
  rewrite (strcmp_loop_spec (p_mem p) w (arg0 argv) (lit s) s) by (done || by eapply cstr_fuel). cbn [mbind option_bind].
  destruct (Z.eqb_spec (byte_compare w s) 0) as [E|]; [|done]. destruct Hw. apply byte_compare_eq; [by eapply cstr_nonzero|by eapply cstr_nonzero|done].
Qed.

Lemma builtin_run_other p argv w : ready (p_mem p) -> cstr (p_mem p) (arg0 argv) w -> w ∉ builtins -> builtin_run lit pwd_buf p argv = Some (Goes p (-1)).
Proof.
  intros R L Hw. unfold builtin_run.
  assert (G : forall s, s ∈ builtins -> is_cmd lit p argv s = Some false).
  { intros s Hs. apply (is_cmd_spec p argv w s); [done|done| |congruence]. clear -Hs. unfold literals, builtins in *. set_unfold. naive_solver. }
  rewrite !G by (unfold builtins; set_unfold; naive_solver). done.
Qed.

(** *** The child: the search of the command *)

(** How a process stands after a command. *)
Inductive ending := Continues | Ends (code : Z) | Becomes.

(** The kernel and the process. *)
Definition view {A} (r : option (outcome (prog W) A)) : option (W * ending) :=
  o ← r; Some match o with Goes p _ => (os p, Continues) | Exits p c => (os p, Ends c) | Execs p => (os p, Becomes) end.

Lemma view_andthen {A} (r : option (outcome (prog W) unit)) (f : prog W -> option (outcome (prog W) A)) :
  view (andthen r (fun p _ => f p)) = match r with Some (Goes p _) => view (f p) | Some (Exits p c) => Some (os p, Ends c) | Some (Execs p) => Some (os p, Becomes) | None => None end.
Proof. by destruct r as [[]|]. Qed.

(** Where a command is looked for: a name that starts with a slash is a path. *)
Definition candidates (w : list Z) : list (list Z) :=
  if decide (head w = Some 47) then [w] else [take 255 (txt "/bin/" ++ w); take 255 (txt "/usr/bin/" ++ w); w].

(** Each candidate is tried; [true] when the process has become one. *)
Fixpoint search (k : W) (paths : list (list Z)) (args : list (list Z)) : option (W * bool) :=
  match paths with
  | [] => Some (k, false)
  | c :: paths => '(k1, r) ← sys_execve k c args; match r with None => Some (k1, true) | Some _ => search k1 paths args end
  end.

(** The state of the child while it searches. *)
Record searching p argv (ws : list (list Z)) : Prop := Searching {
  sg_ready : ready (p_mem p);
  sg_args : arguments (p_mem p) argv ws;
  sg_stderr : p_files p !! stderr = Some (File STDERR_FILENO 0 0) }.

Lemma args_get m argv ws : arguments m argv ws -> mapM (get_str m) argv = Some ws.
Proof. intros F. apply mapM_Some. eapply Forall2_impl; [exact F|]. intros a w (L & _). by apply get_str_cstr. Qed.

Lemma execv_spec p argv ws a x : arguments (p_mem p) argv ws -> cstr (p_mem p) a x ->
  execv p a argv = '(k, r) ← sys_execve (os p) x ws; Some (match r with Some r => Goes (with_os p k) (s32 r) | None => Execs (with_os p k) end).
Proof. intros F L. unfold execv. rewrite (get_str_cstr _ _ _ L). cbn [mbind option_bind]. by rewrite (args_get _ _ _ F). Qed.

(** [path] is filled. *)
Lemma searching_path p argv ws bs m : searching p argv ws -> Forall (fun c => 0 <= c < 256) bs -> alen bs <= 256 -> written (p_mem p) path bs m ->
  searching (with_mem p m) argv ws.
Proof.
  intros [R F E] Fb Hl Hw. pose proof R as [R1 R2 R3 R4 R5 R6 R7 R8].
  assert (Hf : forall b, b < path \/ path + 256 <= b -> m !! b = p_mem p !! b) by (intros b Hb; rewrite (Hw b), decide_False; [done|lia]).
  split; [split|..]; cbn [p_mem with_mem p_files]; try done.
  - by eapply written_bytes.
  - intros s Hs. eapply cstr_frame; [|by apply R2]. intros b Hb. apply Hf. destruct (R5 s Hs); lia.
  - by eapply written_readable.
  - eapply Forall2_impl; [exact F|]. intros a w (L & Ha & Hb). split; [|done]. eapply cstr_frame; [|exact L]. intros b Hbb. apply Hf. lia.
Qed.

Lemma searching_os p k argv ws : searching p argv ws -> searching (with_os p k) argv ws.
Proof. by intros [R F E]. Qed.

(** A candidate of the form prefix and name. *)
Lemma try_path_spec p fmt pre argv w ws : searching p argv (w :: ws) -> fmt ∈ literals ->
  (forall m a, cstr m a w -> 0 < a -> renders m fmt [a] (pre ++ w)) -> Forall (fun c => 0 < c < 256) pre ->
  exists p', os p' = os p /\ searching p' argv (w :: ws) /\
    try_path lit path p fmt argv = '(k, r) ← sys_execve (os p) (take 255 (pre ++ w)) (w :: ws);
      Some (match r with Some r => Goes (with_os p' k) (s32 r) | None => Execs (with_os p' k) end).
Proof.
  intros S Hf Hr Hpre. pose proof S as [R F E]. pose proof R as [R1 R2 R3 R4 R5 R6 R7 R8].
  destruct (Forall2_cons_inv_r _ _ _ _ F) as (a & argv' & (La & Ha & Hal) & F' & ->).
  unfold try_path, snprintf. cbn [arg0 hd Z.eqb]. rewrite (vsnprintf_spec (p_mem p) 256 (lit fmt) fmt [a] (pre ++ w)) by (first [done|by apply R2|apply Hr; [done|lia]]).
  change (Z.to_nat (256 - 1)) with 255%nat. cbn [mbind option_bind]. set (out := take 255 (pre ++ w)).
  assert (Fo : Forall (fun c => 0 < c < 256) out).
  { apply Forall_take, Forall_app. split; [done|]. clear -La R1. revert a La. induction w as [|c w IH]; intros a L; [constructor|]. destruct L as (Ec & Hc & L).
    constructor; [pose proof (R1 _ _ Ec); lia|by eapply IH]. }
  assert (Hlo : alen (out ++ [0]) <= 256) by (unfold alen, out; rewrite length_app, length_take; cbn [length]; lia).
  assert (Fo' : Forall (fun c => 0 <= c < 256) (out ++ [0])).
  { apply Forall_app. split; [|by repeat constructor]. eapply Forall_impl; [exact Fo|]. intros c Hc. cbv beta in *. lia. }
  destruct (put_bytes_spec (out ++ [0]) (p_mem p) path Fo') as (m & -> & Hw); [intros i Hi; apply R6; lia|]. cbn [mbind option_bind].
  exists (with_mem p m). pose proof (searching_path _ _ _ _ _ S Fo' Hlo Hw) as S2. split; [done|]. split; [done|].
  rewrite (execv_spec (with_mem p m) (a :: argv') (w :: ws) path out (sg_args _ _ _ S2)); [done|].
  eapply written_cstr; [|exact Hw]. eapply Forall_impl; [exact Fo|]. intros c Hc. cbv beta in *. lia.
Qed.

Definition not_found (w : list Z) : list Z := txt "nsh: " ++ w ++ txt ": command not found" ++ [10].

(** Reference: the child. *)
Definition child_spec (k : W) (w : list Z) (args : list (list Z)) : option (W * ending) :=
  '(k1, found) ← search k (candidates w) args;
  if (found : bool) then Some (k1, Becomes) else '(k2, _) ← sys_write k1 STDERR_FILENO (take 1023 (not_found w)); Some (k2, Ends 127).

Lemma bin_renders m a w : cstr m a w -> 0 < a -> renders m (txt "/bin/%s") [a] (txt "/bin/" ++ w).
Proof.
  intros L Ha. cbn. repeat (apply ren_char; [done|]). rewrite <- (app_nil_r w). eapply ren_string; [done|lia|constructor].
Qed.

Lemma usr_bin_renders m a w : cstr m a w -> 0 < a -> renders m (txt "/usr/bin/%s") [a] (txt "/usr/bin/" ++ w).
Proof.
  intros L Ha. cbn. repeat (apply ren_char; [done|]). rewrite <- (app_nil_r w). eapply ren_string; [done|lia|constructor].
Qed.

Lemma not_found_renders m a w : cstr m a w -> 0 < a -> renders m NOT_FOUND [a] (not_found w).
Proof.
  intros L Ha. unfold NOT_FOUND, not_found. cbn. repeat (apply ren_char; [done|]). eapply ren_string; [done|lia|]. repeat (apply ren_char; [done|]). constructor.
Qed.

(** The last candidate, and the complaint. *)
Lemma search_last p argv w ws : searching p argv (w :: ws) ->
  view (andthen (execv p (arg0 argv) argv) (fun p6 _ =>
    '(p7, _) ← fprintf p6 stderr (lit NOT_FOUND) [arg0 argv]; Some (@Exits _ unit p7 127))) =
  ('(k1, found) ← search (os p) [w] (w :: ws);
   if (found : bool) then Some (k1, Becomes) else '(k2, _) ← sys_write k1 STDERR_FILENO (take 1023 (not_found w)); Some (k2, Ends 127)).
Proof.
  intros S. pose proof S as [R F E]. destruct (Forall2_cons_inv_r _ _ _ _ F) as (a & argv' & (La & Ha & Hal) & F' & ->). cbn [arg0 hd].
  rewrite (execv_spec p (a :: argv') (w :: ws) a w F La). cbn [search]. destruct (sys_execve (os p) w (w :: ws)) as [[k [r|]]|]; [|done..]. cbn [mbind option_bind andthen].
  unfold fprintf. change (stderr =? 0) with false. cbv iota. cbn [p_files with_os with_lib]. rewrite E. cbn [mbind option_bind fd].
  rewrite (vsnprintf_spec _ 1024 (lit NOT_FOUND) NOT_FOUND [a] (not_found w)).
  - change (Z.to_nat (1024 - 1)) with 1023%nat. cbn [mbind option_bind]. unfold write_bytes. change (os (with_os p k)) with k.
    destruct (sys_write k STDERR_FILENO (take 1023 (not_found w))) as [[k2 r2]|]; done.
  - lia.
  - apply (ry_bytes _ R).
  - apply (ry_lit _ R). unfold literals. repeat (try (by left); right).
  - apply not_found_renders; [done|]. pose proof (ry_line _ R). lia.
Qed.

(** The child tries each candidate once, in order, with the words of the line as
    arguments; when no one starts it complains and ends with 127. *)
Lemma command_child_spec p argv w ws : searching p argv (w :: ws) -> w <> [] ->
  view (command_child lit path p argv STDIN_FILENO STDOUT_FILENO) = child_spec (os p) w (w :: ws).
Proof.
  intros S Hw. pose proof S as [R F E]. destruct (Forall2_cons_inv_r _ _ _ _ F) as (a & argv' & (La & Ha & Hal) & F' & Ea).
  unfold command_child, redirect. change (STDIN_FILENO =? STDIN_FILENO) with true. change (STDOUT_FILENO =? STDOUT_FILENO) with true. cbn [negb mbind option_bind].
  destruct w as [|c w]; [done|]. pose proof La as (Ec & Hc & _). rewrite Ea. cbn [arg0 hd]. rewrite Ec. cbn [mbind option_bind]. rewrite <- Ea.
  unfold child_spec, candidates. cbn [head]. destruct (Z.eqb_spec c 47) as [->|Hne]; cbn [negb].
  - rewrite decide_True by done. cbn [andthen mbind option_bind]. replace a with (arg0 argv) by (by subst argv). by apply search_last.
  - rewrite decide_False by congruence.
    destruct (try_path_spec p (txt "/bin/%s") (txt "/bin/") argv (c :: w) ws S) as (p1 & Eo1 & S1 & ->).
    { unfold literals. repeat (try (by left); right). }
    { intros m b. apply bin_renders. }
    { cbn. repeat constructor; lia. }
    set (name := c :: w) in *. cbn [search]. destruct (sys_execve (os p) (take 255 (txt "/bin/" ++ name)) (name :: ws)) as [[k [r|]]|]; [|done..].
    cbn [mbind option_bind andthen].
    destruct (try_path_spec (with_os p1 k) (txt "/usr/bin/%s") (txt "/usr/bin/") argv name ws (searching_os _ k _ _ S1)) as (p2 & Eo2 & S2 & ->).
    { unfold literals. repeat (try (by left); right). }
    { intros m b. apply usr_bin_renders. }
    { cbn. repeat constructor; lia. }
    change (os (with_os p1 k)) with k. destruct (sys_execve k (take 255 (txt "/usr/bin/" ++ name)) (name :: ws)) as [[k2 [r2|]]|]; [|done..].
    cbn [mbind option_bind andthen]. pose proof (search_last (with_os p2 k2) argv name ws (searching_os _ k2 _ _ S2)) as G.
    change (os (with_os p2 k2)) with k2 in G. rewrite Ea in G |- *. exact G.
Qed.

(** *** The parent *)

(** Reference: one command line without redirection or pipe. *)
Definition command_spec (k : W) (words : list (list Z)) : option (W * ending) :=
  match words with
  | [] => Some (k, Continues)
  | w :: ws =>
      '(k1, r) ← sys_fork k;
      if s32 r =? 0 then child_spec k1 w (w :: ws)
      else if 0 <? s32 r then '(k2, _, _) ← sys_wait4 k1 (s32 r) 0; Some (k2, Continues)
      else Some (k1, Continues)
  end.

Lemma exec_command_spec p argv w ws : searching p argv (w :: ws) -> w <> [] -> w ∉ builtins ->
  view (exec_command lit path pwd_buf p argv STDIN_FILENO STDOUT_FILENO) = command_spec (os p) (w :: ws).
Proof.
  intros S Hw Hb. pose proof S as [R F E]. destruct (Forall2_cons_inv_r _ _ _ _ F) as (a & argv' & (La & Ha & Hal) & F' & Ea).
  unfold exec_command. rewrite (builtin_run_other p argv w) by (first [done|by subst argv]). cbn [andthen mbind option_bind]. change (-1 =? 0) with false. cbv iota.
  unfold fork, command_spec. destruct (sys_fork (os p)) as [[k r]|]; [|done]. cbn [mbind option_bind]. destruct (s32 r =? 0).
  - by rewrite (command_child_spec (with_os p k) argv w ws (searching_os _ k _ _ S)).
  - destruct (0 <? s32 r); [|done]. unfold waitpid. change (os (with_os p k)) with k. by destruct (sys_wait4 k (s32 r) 0) as [[[k2 r2] st]|].
Qed.

Lemma words_not_empty s t cur w : w ∈ words_by s t cur -> w <> [].
Proof.
  revert cur. induction t as [|c t IH]; intros cur; cbn [words_by].
  - case_decide; [by intros Hx%elem_of_nil|]. by intros ->%list_elem_of_singleton.
  - destruct (s c); [|apply IH]. intros [Hx|Hx]%elem_of_app; [|by eapply IH]. case_decide; [by apply elem_of_nil in Hx|]. by apply list_elem_of_singleton in Hx as ->.
Qed.

Lemma strchr_absent m a t c : cstr m a t -> 0 < a -> 0 < c < 256 -> c ∉ t -> exists r, strchr m a c = Some r /\ nonzero r = false.
Proof. intros L Ha Hc Ht. destruct (strchr_in m a t c L Ha Hc) as (r & E & Er). exists r. split; [done|]. by rewrite Er, bool_decide_false. Qed.

(** C34.  A line without pipe and redirection whose first word is no built-in command: the
    shell forks once; the child becomes the first candidate that the kernel can start,
    with the first 63 words of the line as its arguments, or writes that there is no
    such command and ends with 127, and never comes back; the parent waits for exactly
    this child and goes on.  A line without words does nothing. *)
Theorem nsh_runs_commands p t garbage : ready (p_mem p) -> p_files p !! stderr = Some (File STDERR_FILENO 0 0) ->
  cstr (p_mem p) line t -> alen t < MAX_INPUT -> 62 ∉ t -> 124 ∉ t -> (forall w, head (words t) = Some w -> w ∉ builtins) ->
  view (handle_pipeline lit line path pwd_buf p garbage) = command_spec (os p) (take 63 (words t)).
Proof.
  intros R E L Ht Hr Hp Hb. pose proof (ry_line _ R) as Hl. unfold handle_pipeline.
  destruct (strchr_absent _ _ t 124 L Hl) as (r1 & -> & E1); [lia|done|]. cbn [mbind option_bind]. rewrite E1.
  unfold simple_command. destruct (strchr_absent _ _ t 62 L Hl) as (r2 & -> & E2); [lia|done|]. cbn [mbind option_bind]. rewrite E2. cbn [mbind option_bind].
  destruct (parse_args_spec p t R L Ht) as (p1 & argv & -> & F & R1 & El & Ef). cbn [mbind option_bind]. change (negb (STDOUT_FILENO =? STDOUT_FILENO)) with false. cbv iota.
  assert (Eo : os p1 = os p) by (unfold os; by rewrite El). rewrite <- Eo.
  assert (Hne : forall w, w ∈ words t -> w <> []) by (intros w; apply words_not_empty).
  destruct (words t) as [|w ws]; cbn [take] in *.
  - apply Forall2_nil_inv_r in F as ->. by cbn [andthen mbind option_bind].
  - destruct (Forall2_cons_inv_r _ _ _ _ F) as (a & argv' & _ & _ & ->).
    rewrite view_andthen. rewrite <- (exec_command_spec p1 (a :: argv') w (take 62 ws)); [|split; [done|done|by rewrite Ef]|by apply Hne; left|by apply Hb].
    by destruct (exec_command lit path pwd_buf p1 (a :: argv') STDIN_FILENO STDOUT_FILENO) as [[? []| |]|].
Qed.

End shell.

(** ** A kernel that records the calls *)

Inductive call := Fork | Execve (path : list Z) (args : list (list Z)) | Wait (pid : Z) | Write (fd : Z) (bs : list Z) | Open (path : list Z).

#[local] Instance call_eq : EqDecision call.
Proof. solve_decision. Defined.

(** The result of a fork, and the calls so far; only "/usr/bin/ls" can be started. *)
Definition recorder : Type := Z * list call.

Definition log (w : recorder) (c : call) : recorder := (w.1, w.2 ++ [c]).

#[local] Instance recorder_calls : ShellCalls recorder := {|
  shell_processes := {|
    processes_posix := {|
      posix_brk := {| os_brk := fun w a => Some (w, a) |};
      sys_read := fun w _ _ => Some (w, 0, []); sys_write := fun w fd bs => Some (log w (Write fd bs), alen bs);
      sys_open := fun w path _ _ => Some (log w (Open path), 3); sys_close := fun w _ => Some (w, 0) |};
    sys_fork := fun w => Some (log w Fork, w.1);
    sys_execve := fun w path args => Some (log w (Execve path args), if decide (path = txt "/usr/bin/ls") then None else Some (-2));
    sys_wait4 := fun w pid _ => Some (log w (Wait pid), pid, 0);
    sys_mkdir := fun w _ _ => Some (w, 0); sys_getpid := fun w => Some (w, 1) |};
  sys_pipe := fun w => Some (w, -38, None); sys_dup2 := fun w _ _ => Some (w, -38);
  sys_chdir := fun w _ => Some (w, -38); sys_getcwd := fun w _ => Some (w, -38, []) |}.

(** Every literal has a hundred bytes. *)
Definition all_literals : list (list Z) := literals ++ [txt "%s"; txt " "; [10]; [32; 10]].

Definition nsh_lit (s : list Z) : Z := match list_find (eq s) all_literals with Some (i, _) => 1000 + 100 * Z.of_nat i | None => 0 end.

Definition nsh_memory (t : list Z) : bmem :=
  list_to_map (zip (seqZ 1000 1200 ++ seqZ 10000 100 ++ seqZ 20000 256)
    (concat (map (fun s => take 100 (s ++ replicate 100 0)) all_literals) ++ take 100 (t ++ replicate 100 0) ++ replicate 256 0)).

Definition nsh (t : list Z) (pid : Z) : prog recorder := Prog (nsh_memory t) (heap_start, (pid, [])) std_files 0.

Definition run_line (t : list Z) (pid : Z) : option (recorder * ending) := view (handle_pipeline nsh_lit 10000 20000 30000 (nsh t pid) (0, 0)).

Lemma cstr_check m bs : forall a, get_bytes m a (S (length bs)) = Some (bs ++ [0]) -> Forall (fun c => c <> 0) bs -> cstr m a bs.
Proof.
  induction bs as [|c bs IH]; intros a E F.
  - cbn in *. destruct (m !! a); [|done]. cbn in E. congruence.
  - apply Forall_cons in F as [Hc F]. cbn [length app] in E. cbn [get_bytes] in E. destruct (m !! a) as [x|] eqn:Ex; [|done]. cbn [mbind option_bind] in E.
    destruct (get_bytes m (a + 1) (S (length bs))) as [r|] eqn:Er; [|cbn [get_bytes] in Er; by rewrite Er in E].
    cbn [get_bytes] in Er. rewrite Er in E. cbn [mbind option_bind] in E. injection E as -> ->. split; [done|]. split; [done|]. by apply IH.
Qed.

Lemma readable_bytes m n : forall a, is_Some (get_bytes m a n) -> readable m a (Z.of_nat n).
Proof.
  induction n as [|n IH]; intros a [bs E] i Hi; [lia|]. cbn [get_bytes] in E. destruct (m !! a) as [b|] eqn:Eb; [|done]. cbn [mbind option_bind] in E.
  destruct (get_bytes m (a + 1) n) as [r|] eqn:Er; [|done]. destruct (decide (i = 0)) as [->|]; [by rewrite Z.add_0_r, Eb|].
  replace (a + i) with (a + 1 + (i - 1)) by lia. apply IH; [by rewrite Er|lia].
Qed.

(** The text with a listing, for the child. *)
Definition ls_line : list Z := txt "ls  -l /usr" ++ [10].

Lemma nsh_ready pid : ready nsh_lit 10000 20000 (p_mem (nsh ls_line pid)).
Proof.
  assert (G : Forall (fun s => get_bytes (nsh_memory ls_line) (nsh_lit s) (S (length s)) = Some (s ++ [0]) /\ Forall (fun c => c <> 0) s /\
    0 < nsh_lit s /\ nsh_lit s + alen s < 10000) literals) by (apply (bool_decide_eq_true_1 _); vm_compute; reflexivity).
  rewrite Forall_forall in G. split; cbn [p_mem nsh].
  - apply bytes_check. vm_compute. reflexivity.
  - intros s Hs. destruct (G s Hs) as (G1 & G2 & _). by apply cstr_check.
  - intros s Hs. by destruct (G s Hs) as (_ & _ & G3 & _).
  - intros s Hs. destruct (G s Hs) as (_ & _ & _ & G4). by left.
  - intros s Hs. destruct (G s Hs) as (_ & _ & _ & G4). left. lia.
  - apply (readable_bytes _ 256). apply (bool_decide_eq_true_1 _). vm_compute. reflexivity.
  - right. unfold MAX_INPUT. lia.
  - lia.
Qed.

Definition ls_args : list (list Z) := [txt "ls"; txt "-l"; txt "/usr"].

Lemma nsh_runs_commands_witness :
  run_line ls_line 0 = Some ((0, [Fork; Execve (txt "/bin/ls") ls_args; Execve (txt "/usr/bin/ls") ls_args]), Becomes) /\
  run_line ls_line 7 = Some ((7, [Fork; Wait 7]), Continues).
Proof.
  assert (L : cstr (p_mem (nsh ls_line 0)) 10000 ls_line).
  { apply cstr_check; [vm_compute; reflexivity|]. apply (bool_decide_eq_true_1 _). vm_compute. reflexivity. }
  split; unfold run_line.
  - rewrite (nsh_runs_commands nsh_lit 10000 20000 30000 (nsh ls_line 0) ls_line (0, 0)).
    + vm_compute. reflexivity.
    + apply nsh_ready.
    + done.
    + exact L.
    + by vm_compute.
    + by apply (bool_decide_unpack _).
    + by apply (bool_decide_unpack _).
    + intros w [= <-]. by apply (bool_decide_unpack _).
  - rewrite (nsh_runs_commands nsh_lit 10000 20000 30000 (nsh ls_line 7) ls_line (0, 0)).
    + vm_compute. reflexivity.
    + apply nsh_ready.
    + done.
    + exact L.
    + by vm_compute.
    + by apply (bool_decide_unpack _).
    + by apply (bool_decide_unpack _).
    + intros w [= <-]. by apply (bool_decide_unpack _).
Defined.

(** A built-in command ignores the redirection: the file is created, the output goes to
    the terminal. *)
Example echo_ignores_redirection : run_line (txt "echo hi > f" ++ [10]) 7 = Some ((7, [Open (txt "f"); Write 1 (txt "hi"); Write 1 [10]]), Continues).
Proof. vm_compute. reflexivity. Qed.

(** A pipe without a second command: the shell reads behind NULL. *)
Example empty_second_command : run_line (txt "ls |" ++ [10]) 7 = None.
Proof. vm_compute. reflexivity. Qed.
