(* ===== verification/Hal.v ===== *)
(** The hardware layer: kernel/src/hal/gdt.c, idt.c, pic.c, io.h, their headers, and the
    set-up of drivers/timer/pit.c.

    The descriptor tables are records of the fields as they lie in memory; what the
    processor has been told of them is the record [cpu_tables].  The ports of the
    interrupt controller and the timer are those of the machine.  The messages of
    the debug builds are left out. *)
From stdpp Require Import prelude gmap list strings.
From Stdlib Require Import ZArith Lia.
From S2P Require Import Prelude Spinlock Printf PrintfThm Framebuffer Pci.

Open Scope Z_scope.

(** [inb], [inw] and [pit_get_ticks]; time passes with each of them. *)
Class PortMachine (W : Type) := {
  pm_machine :: Machine W;
  inb : W -> Z -> W * Z;
  inw : W -> Z -> W * Z;
  pit_get_ticks : W -> W * Z }.

Definition io_wait {W : Type} `{PortMachine W} (w : W) : W := outb w 0x80 0.

(** [kprintf] of a tagged line in the boot colours. *)
Definition boot_line {W : Type} `{PortMachine W} (w : W) (text : list Z) : W :=
  kprint (kprintf_set_color (kprint (kprintf_set_color w 0x0088FF88 FB_DEFAULT_BG) (txt "[OK] ")) 0x00CCCCCC FB_DEFAULT_BG) (text ++ [10]).

Definition dec (v : Z) : list Z := numeral false 10 v.
Definition hex (width v : Z) : list Z := padded 48 width (numeral false 16 v).

(** ** gdt.c *)

Record gdt_entry := GdtEntry { limit_low : Z; base_low : Z; base_mid : Z; access : Z; granularity : Z; base_high : Z }.

Record gdt_tss_entry := GdtTss {
  t_length : Z; t_base_low : Z; t_base_mid : Z; t_flags1 : Z; t_flags2 : Z; t_base_high : Z; t_base_upper : Z; t_reserved : Z }.

Record gdt_table := GdtTable { entries : list gdt_entry; tss_entry : gdt_tss_entry }.

Definition sizeof_gdt_table : Z := 56.

(** GDTR and IDTR. *)
Record table_pointer := TablePointer { p_limit : Z; p_base : Z }.

(** [ist] are the fields [ist1] to [ist7]. *)
Record tss_t := Tss { rsp0 : Z; rsp1 : Z; rsp2 : Z; ist : list Z; iopb_offset : Z }.

Definition sizeof_tss : Z := 104.

Definition GDT_KERNEL_CODE : Z := 0x08.
Definition GDT_KERNEL_DATA : Z := 0x10.
Definition GDT_USER_DATA : Z := 0x18.
Definition GDT_USER_CODE : Z := 0x20.
Definition GDT_TSS : Z := 0x28.

Definition zero_entry : gdt_entry := GdtEntry 0 0 0 0 0 0.
Definition zero_table : gdt_table := GdtTable (replicate 5 zero_entry) (GdtTss 0 0 0 0 0 0 0 0).
Definition zero_tss : tss_t := Tss 0 0 0 (replicate 7 0) 0.

(** What [gdt_flush] and [lidt] load into the processor. *)
Record cpu_tables := CpuTables { gdtr : table_pointer; code_selector : Z; data_selector : Z; task_selector : Z; idtr : table_pointer }.

Definition gdt_set_entry (t : gdt_table) (index base limit acc gran : Z) : gdt_table :=
  GdtTable (aset (entries t) index
    (GdtEntry (u16 (Z.land limit 0xFFFF)) (u16 (Z.land base 0xFFFF)) (u8 (Z.land (Z.shiftr base 16) 0xFF)) acc
      (u8 (Z.lor (Z.land (Z.shiftr limit 16) 0x0F) (Z.land gran 0xF0))) (u8 (Z.land (Z.shiftr base 24) 0xFF)))) (tss_entry t).

Definition gdt_set_tss (t : gdt_table) (base limit : Z) : gdt_table :=
  GdtTable (entries t)
    (GdtTss (u16 (Z.land limit 0xFFFF)) (u16 (Z.land base 0xFFFF)) (u8 (Z.land (Z.shiftr base 16) 0xFF)) 0x89
      (u8 (Z.land (Z.shiftr limit 16) 0x0F)) (u8 (Z.land (Z.shiftr base 24) 0xFF)) (u32 (Z.land (Z.shiftr base 32) 0xFFFFFFFF)) 0).

(** [gdt_flush]: the table, its code and data segments, the task register. *)
Definition gdt_flush (c : cpu_tables) (p : table_pointer) : cpu_tables := CpuTables p 0x08 0x10 0x28 (idtr c).

(** ** idt.c *)

Record idt_entry := IdtEntry {
  offset_low : Z; selector : Z; ist_index : Z; type_attr : Z; offset_mid : Z; offset_high : Z; i_reserved : Z }.

Definition sizeof_idt : Z := 4096.

Definition zero_gate : idt_entry := IdtEntry 0 0 0 0 0 0 0.

Definition IDT_GATE_INTERRUPT : Z := 0x8E.

Definition idt_set_gate (idt : list idt_entry) (num handler sel ist type_attr : Z) : list idt_entry :=
  aset idt num (IdtEntry (u16 (Z.land handler 0xFFFF)) sel (Z.land ist 0x07) type_attr
    (u16 (Z.land (Z.shiftr handler 16) 0xFFFF)) (u32 (Z.land (Z.shiftr handler 32) 0xFFFFFFFF)) 0).

(** [registers_t]. *)
Record registers := Registers {
  r_r15 : Z; r_r14 : Z; r_r13 : Z; r_r12 : Z; r_r11 : Z; r_r10 : Z; r_r9 : Z; r_r8 : Z;
  r_rbp : Z; r_rdi : Z; r_rsi : Z; r_rdx : Z; r_rcx : Z; r_rbx : Z; r_rax : Z;
  int_no : Z; err_code : Z; r_rip : Z; r_cs : Z; r_rflags : Z; r_rsp : Z; r_ss : Z }.

Section hal.
Context {W : Type} `{PortMachine W}.

(** The addresses of [gdt_table], [tss], [idt], the end of [ist1_stack], the interrupt
    stubs, and the register CR2. *)
Context (gdt_addr tss_addr idt_addr ist1_top : Z) (stub : Z -> Z) (read_cr2 : W -> Z).

(** A handler works on the rest of the machine. *)
Definition isr_handler_t : Type := W -> registers -> option W.

Record hal := Hal {
  gdt : gdt_table;
  tss : tss_t;
  idt : list idt_entry;
  isr_handlers : list (option isr_handler_t);
  cpu : cpu_tables }.

Definition gdt_entries : gdt_table :=
  let t0 := gdt_set_entry zero_table 0 0 0 0 0 in
  let t1 := gdt_set_entry t0 1 0 0xFFFFF 0x9A 0x20 in
  let t2 := gdt_set_entry t1 2 0 0xFFFFF 0x92 0x00 in
  let t3 := gdt_set_entry t2 3 0 0xFFFFF 0xF2 0x00 in
  gdt_set_entry t3 4 0 0xFFFFF 0xFA 0x20.

Definition gdt_init (w : W) (h : hal) : W * hal :=
  let t := Tss 0 0 0 (aset (replicate 7 0) 0 ist1_top) sizeof_tss in
  let g := gdt_set_tss gdt_entries tss_addr (sizeof_tss - 1) in
  let c := gdt_flush (cpu h) (TablePointer (sizeof_gdt_table - 1) gdt_addr) in
  (boot_line w (txt "GDT loaded: " ++ dec sizeof_gdt_table ++ txt " bytes, TSS at 0x" ++ hex 16 tss_addr),
   Hal g t (idt h) (isr_handlers h) c).

Definition tss_set_rsp0 (h : hal) (v : Z) : hal :=
  let t := tss h in Hal (gdt h) (Tss v (rsp1 t) (rsp2 t) (ist t) (iopb_offset t)) (idt h) (isr_handlers h) (cpu h).

Definition isr_register_handler (h : hal) (n : Z) (f : option isr_handler_t) : hal :=
  Hal (gdt h) (tss h) (idt h) (aset (isr_handlers h) n f) (cpu h).

(** The gates of the vectors [i], [i + 1], ..., [n] of them. *)
Fixpoint set_gates (t : list idt_entry) (i : Z) (n : nat) : list idt_entry :=
  match n with
  | O => t
  | S n => set_gates (idt_set_gate t i (stub i) GDT_KERNEL_CODE (if (i <? 32) && (i =? 8) then 1 else 0) IDT_GATE_INTERRUPT) (i + 1) n
  end.

Definition idt_init (w : W) (h : hal) : W * hal :=
  let t := set_gates (set_gates (replicate 256 zero_gate) 0 32) 32 16 in
  let c := cpu h in
  (boot_line w (txt "IDT loaded: 256 entries (" ++ dec sizeof_idt ++ txt " bytes)"),
   Hal (gdt h) (tss h) t (replicate 256 None)
     (CpuTables (gdtr c) (code_selector c) (data_selector c) (task_selector c) (TablePointer (sizeof_idt - 1) idt_addr))).

(** ** pic.c *)

Definition PIC1_COMMAND : Z := 0x20.
Definition PIC1_DATA : Z := 0x21.
Definition PIC2_COMMAND : Z := 0xA0.
Definition PIC2_DATA : Z := 0xA1.

Definition ICW1_ICW4 : Z := 0x01.
Definition ICW1_INIT : Z := 0x10.
Definition ICW4_8086 : Z := 0x01.
Definition PIC_READ_IRR : Z := 0x0A.
Definition PIC_READ_ISR : Z := 0x0B.

Definition pic_send_eoi (w : W) (irq : Z) : W :=
  outb (if 8 <=? irq then outb w PIC2_COMMAND 0x20 else w) PIC1_COMMAND 0x20.

(** The data port and the bit of a line. *)
Definition pic_port (irq : Z) : Z * Z := if irq <? 8 then (PIC1_DATA, irq) else (PIC2_DATA, u8 (irq - 8)).

Definition pic_set_mask (w : W) (irq : Z) : W :=
  let '(port, bit) := pic_port irq in
  let '(w1, v) := inb w port in outb w1 port (u8 (Z.lor v (Z.shiftl 1 bit))).

Definition pic_clear_mask (w : W) (irq : Z) : W :=
  let '(port, bit) := pic_port irq in
  let '(w1, v) := inb w port in outb w1 port (u8 (Z.land v (Z.lnot (Z.shiftl 1 bit)))).

(** A write followed by the delay. *)
Definition out_wait (w : W) (port v : Z) : W := io_wait (outb w port v).

Definition pic_init (w : W) : W :=
  let '(w, mask1) := inb w PIC1_DATA in
  let '(w, mask2) := inb w PIC2_DATA in
  let w := out_wait w PIC1_COMMAND (Z.lor ICW1_INIT ICW1_ICW4) in
  let w := out_wait w PIC2_COMMAND (Z.lor ICW1_INIT ICW1_ICW4) in
  let w := out_wait w PIC1_DATA 0x20 in
  let w := out_wait w PIC2_DATA 0x28 in
  let w := out_wait w PIC1_DATA 0x04 in
  let w := out_wait w PIC2_DATA 0x02 in
  let w := out_wait w PIC1_DATA ICW4_8086 in
  let w := out_wait w PIC2_DATA ICW4_8086 in
  let w := outb w PIC1_DATA mask1 in
  let w := outb w PIC2_DATA mask2 in
  let w := outb w PIC1_DATA 0xFF in
  let w := outb w PIC2_DATA 0xFF in
  boot_line (pic_clear_mask w 2) (txt "PIC remapped: IRQ0-7 -> INT 32-39, IRQ8-15 -> INT 40-47").

Definition pic_disable (w : W) : W := outb (outb w PIC1_DATA 0xFF) PIC2_DATA 0xFF.

(** Two bytes read from the two ports, the second controller's above. *)
Definition in_pair (w : W) (p1 p2 : Z) : W * Z :=
  let '(w1, hi) := inb w p2 in let '(w2, lo) := inb w1 p1 in (w2, u16 (Z.lor (Z.shiftl hi 8) lo)).

Definition pic_get_isr (w : W) : W * Z := in_pair (outb (outb w PIC1_COMMAND PIC_READ_ISR) PIC2_COMMAND PIC_READ_ISR) PIC1_COMMAND PIC2_COMMAND.
Definition pic_get_irr (w : W) : W * Z := in_pair (outb (outb w PIC1_COMMAND PIC_READ_IRR) PIC2_COMMAND PIC_READ_IRR) PIC1_COMMAND PIC2_COMMAND.
Definition pic_read_imr (w : W) : W * Z := in_pair w PIC1_DATA PIC2_DATA.

(** ** The dispatcher *)

(** A handler returns, or the processor is halted for ever. *)
Inductive isr_outcome := Handled (w : W) | Halted (w : W).

Definition exception_names : list (list Z) := map txt [
  "Division Error"; "Debug"; "NMI"; "Breakpoint"; "Overflow"; "Bound Range"; "Invalid Opcode"; "Device Not Available";
  "Double Fault"; "Coprocessor Segment"; "Invalid TSS"; "Segment Not Present"; "Stack-Segment Fault"; "General Protection";
  "Page Fault"; "Reserved"; "x87 FP Exception"; "Alignment Check"; "Machine Check"; "SIMD FP Exception";
  "Virtualization Exception"; "Control Protection"; "Reserved"; "Reserved"; "Reserved"; "Reserved"; "Reserved"; "Reserved";
  "Hypervisor Injection"; "VMM Communication"; "Security Exception"; "Reserved"]%string.

Definition two_fields (n1 : string) (v1 : Z) (n2 : string) (v2 : Z) : list Z :=
  txt "    " ++ txt n1 ++ txt ": 0x" ++ hex 16 v1 ++ txt "  " ++ txt n2 ++ txt ": 0x" ++ hex 16 v2 ++ [10].

(** The report of an exception without a handler. *)
Definition exception_report (regs : registers) (cr2 : Z) : list Z :=
  [10] ++ txt "!!! EXCEPTION: " ++ aget [] exception_names (int_no regs) ++ txt " (#" ++ dec (int_no regs) ++ txt ")" ++ [10] ++
  txt "    Error code: 0x" ++ hex 16 (err_code regs) ++ [10] ++
  two_fields "RIP" (r_rip regs) "RSP" (r_rsp regs) ++ two_fields "RAX" (r_rax regs) "RBX" (r_rbx regs) ++
  two_fields "RCX" (r_rcx regs) "RDX" (r_rdx regs) ++
  txt "    CS:  0x" ++ hex 4 (r_cs regs) ++ txt "  SS: 0x" ++ hex 4 (r_ss regs) ++ txt "  RFLAGS: 0x" ++ hex 16 (r_rflags regs) ++ [10] ++
  (if int_no regs =? 14 then txt "    CR2 (fault addr): 0x" ++ hex 16 cr2 ++ [10] else []).

Definition is_irq (n : Z) : bool := (32 <=? n) && (n <=? 47).

Definition isr_handler (h : hal) (w : W) (regs : registers) : option isr_outcome :=
  let n := int_no regs in
  let f := aget None (isr_handlers h) n in
  if is_irq n && bool_decide (f = None) then Some (Handled (pic_send_eoi w (u8 (n - 32))))
  else
    match (if n <? 256 then f else None) with
    | Some f => w' ← f w regs; Some (Handled w')
    | None =>
        if n <? 32 then Some (Halted (kprint (kprintf_set_color w 0x00FF4444 0) (exception_report regs (read_cr2 w))))
        else if is_irq n then Some (Handled (pic_send_eoi w (u8 (n - 32))))
        else Some (Handled w)
    end.

(** ** pit.c *)

Definition PIT_CHANNEL0 : Z := 0x40.
Definition PIT_COMMAND : Z := 0x43.
Definition PIT_BASE_FREQ : Z := 1193182.
Definition PIT_TARGET_FREQ : Z := 1000.
Definition IRQ0 : Z := 32.

(** The divisor is programmed; [tick] is the handler of the timer interrupt before its
    acknowledgement. *)
Definition pit_irq_handler (tick : W -> option W) : isr_handler_t := fun w _ => w' ← tick w; Some (pic_send_eoi w' 0).

Definition pit_init (tick : W -> option W) (w : W) (h : hal) : W * hal :=
  let divisor := u16 (PIT_BASE_FREQ / PIT_TARGET_FREQ) in
  let w1 := outb w PIT_COMMAND 0x34 in
  let w2 := out_wait w1 PIT_CHANNEL0 (u8 (Z.land divisor 0xFF)) in
  let w3 := outb w2 PIT_CHANNEL0 (u8 (Z.land (Z.shiftr divisor 8) 0xFF)) in
  (boot_line (pic_clear_mask w3 0) (txt "PIT initialized: " ++ dec PIT_TARGET_FREQ ++ txt " Hz (divisor=" ++ dec divisor ++ txt ")"),
   isr_register_handler h IRQ0 (Some (pit_irq_handler tick))).

(** [while (tick_count < target) hlt], where [n] halts are enough. *)
Fixpoint sleep_loop (w : W) (target : Z) (n : nat) : option W :=
  let '(w1, now) := pit_get_ticks w in
  if now <? target then match n with O => None | S n => sleep_loop w1 target n end else Some w1.

Definition pit_sleep_ms (w : W) (ms : Z) (fuel : nat) : option W :=
  let '(w1, now) := pit_get_ticks w in sleep_loop w1 (u64 (now + ms)) fuel.

End hal.

Arguments hal : clear implicits.
