(* ===== verification/HalThm.v ===== *)
(** The descriptor tables as the processor reads them, and the interrupt controllers. *)
From stdpp Require Import prelude gmap list strings.
From Stdlib Require Import ZArith Lia.
From S2P Require Import Prelude Spinlock Printf PrintfThm Framebuffer Pci Hal.

Open Scope Z_scope.

(** ** Segments, gates and the task state, in the processor's format *)

Record segment := Segment {
  seg_present : bool; seg_dpl : Z; seg_code : bool; seg_user : bool; seg_long : bool; seg_db : bool; seg_base : Z; seg_limit : Z }.

(** [seg_user] is the S bit: a code or data segment. *)
Definition decode_segment (e : gdt_entry) : segment :=
  Segment (Z.testbit (access e) 7) (access e / 32 mod 4) (Z.testbit (access e) 3) (Z.testbit (access e) 4)
    (Z.testbit (granularity e) 5) (Z.testbit (granularity e) 6)
    (base_low e + 2 ^ 16 * base_mid e + 2 ^ 24 * base_high e) (limit_low e + 2 ^ 16 * (granularity e mod 16)).

Definition tss_base (t : gdt_tss_entry) : Z := t_base_low t + 2 ^ 16 * t_base_mid t + 2 ^ 24 * t_base_high t + 2 ^ 32 * t_base_upper t.
Definition tss_limit (t : gdt_tss_entry) : Z := t_length t + 2 ^ 16 * (t_flags2 t mod 16).

(** A present 64-bit task state segment. *)
Definition tss_valid (t : gdt_tss_entry) : bool := (t_flags1 t =? 0x89) && (t_reserved t =? 0).

Record gate := Gate { g_target : Z; g_selector : Z; g_ist : Z; g_type : Z; g_present : bool }.

Definition decode_gate (e : idt_entry) : gate :=
  Gate (offset_low e + 2 ^ 16 * offset_mid e + 2 ^ 32 * offset_high e) (selector e) (ist_index e mod 8) (type_attr e mod 16) (Z.testbit (type_attr e) 7).

(** What the processor does with an interrupt: the code it goes to, its privilege, the
    stack it pushes on, and whether interrupts stay on. *)
Record entry := Entry { e_rip : Z; e_cs : Z; e_cpl : Z; e_stack : Z; e_interrupts : bool }.

Section cpu.
Context {W : Type} `{PortMachine W}.
Context (gdt_addr tss_addr idt_addr ist1_top : Z) (stub : Z -> Z) (read_cr2 : W -> Z).

(** The task state is found through the task register. *)
Definition task_state (h : hal W) : option tss_t :=
  if (task_selector (cpu h) =? 0x28) && tss_valid (tss_entry (gdt h)) && (tss_base (tss_entry (gdt h)) =? tss_addr) &&
     (103 <=? tss_limit (tss_entry (gdt h))) && (47 <=? p_limit (gdtr (cpu h))) && (p_base (gdtr (cpu h)) =? gdt_addr)
  then Some (tss h) else None.

Definition cpu_interrupt (h : hal W) (vector cpl rsp : Z) : option entry :=
  if (16 * vector + 15 <=? p_limit (idtr (cpu h))) && (p_base (idtr (cpu h)) =? idt_addr) then
    let g := decode_gate (aget zero_gate (idt h) vector) in
    let s := decode_segment (aget zero_entry (entries (gdt h)) (g_selector g / 8)) in
    t ← task_state h;
    if g_present g && ((g_type g =? 0xE) || (g_type g =? 0xF)) && (g_selector g mod 8 =? 0) &&
       seg_present s && seg_code s && seg_user s && seg_long s && negb (seg_db s) && (seg_dpl s <=? cpl)
    then
      let top := if negb (g_ist g =? 0) then aget 0 (ist t) (g_ist g - 1) else if seg_dpl s <? cpl then rsp0 t else rsp in
      Some (Entry (g_target g) (g_selector g + seg_dpl s) (seg_dpl s) (Z.land top (Z.lnot 15)) (g_type g =? 0xF))
    else None
  else None.

(** *** Splitting and joining fields *)

Lemma low_bits x k : 0 <= k -> Z.land x (2 ^ k - 1) = x mod 2 ^ k.
Proof. intros. rewrite <- Z.land_ones by lia. f_equal. rewrite Z.ones_equiv. lia. Qed.

Lemma field x k n : 0 <= k -> 0 <= n -> wrap n (Z.land (Z.shiftr x k) (2 ^ n - 1)) = x / 2 ^ k mod 2 ^ n.
Proof. intros. rewrite low_bits, Z.shiftr_div_pow2 by lia. unfold wrap. apply Zmod_mod. Qed.

Lemma gate_target t num handler sel i a : 0 <= handler < 2 ^ 64 -> 0 <= num < alen t ->
  g_target (decode_gate (aget zero_gate (idt_set_gate t num handler sel i a) num)) = handler.
Proof.
  intros Hh Hn. unfold idt_set_gate. rewrite aget_aset_eq by lia. unfold decode_gate. cbn [g_target offset_low offset_mid offset_high].
  pose proof (field handler 0 16 ltac:(lia) ltac:(lia)) as F0. rewrite Z.shiftr_0_r in F0. change (2 ^ 16 - 1) with 0xFFFF in F0. rewrite F0.
  pose proof (field handler 16 16 ltac:(lia) ltac:(lia)) as F1. change (2 ^ 16 - 1) with 0xFFFF in F1. rewrite F1.
  pose proof (field handler 32 32 ltac:(lia) ltac:(lia)) as F2. change (2 ^ 32 - 1) with 0xFFFFFFFF in F2. rewrite F2. zmod.
Qed.

Lemma set_tss_fields t base limit : 0 <= base < 2 ^ 64 -> 0 <= limit < 2 ^ 20 ->
  let e := tss_entry (gdt_set_tss t base limit) in tss_base e = base /\ tss_limit e = limit /\ tss_valid e = true.
Proof.
  intros Hb Hl. cbn [gdt_set_tss tss_entry]. unfold tss_base, tss_limit. cbn [t_base_low t_base_mid t_base_high t_base_upper t_length t_flags2].
  pose proof (field base 0 16 ltac:(lia) ltac:(lia)) as F0. rewrite Z.shiftr_0_r in F0. change (2 ^ 16 - 1) with 0xFFFF in F0. rewrite F0.
  pose proof (field base 16 8 ltac:(lia) ltac:(lia)) as F1. change (2 ^ 8 - 1) with 0xFF in F1. rewrite F1.
  pose proof (field base 24 8 ltac:(lia) ltac:(lia)) as F2. change (2 ^ 8 - 1) with 0xFF in F2. rewrite F2.
  pose proof (field base 32 32 ltac:(lia) ltac:(lia)) as F3. change (2 ^ 32 - 1) with 0xFFFFFFFF in F3. rewrite F3.
  pose proof (field limit 0 16 ltac:(lia) ltac:(lia)) as F4. rewrite Z.shiftr_0_r in F4. change (2 ^ 16 - 1) with 0xFFFF in F4. rewrite F4.
  assert (E : u8 (Z.land (Z.shiftr limit 16) 0x0F) = limit / 2 ^ 16).
  { change 0x0F with (2 ^ 4 - 1). rewrite low_bits, Z.shiftr_div_pow2 by lia. unfold wrap. rewrite !Z.mod_small; zmod. }
  rewrite E. split; [zmod|]. split; [zmod|done].
Qed.

(** *** The tables after initialisation *)

Lemma set_gates_length n : forall t i, length (set_gates stub t i n) = length t.
Proof. induction n as [|n IH]; intros t i; cbn [set_gates]; [done|]. rewrite IH. unfold idt_set_gate, aset. apply length_insert. Qed.

Definition stub_gate (v : Z) : idt_entry :=
  aget zero_gate (idt_set_gate (replicate 256 zero_gate) v (stub v) GDT_KERNEL_CODE (if (v <? 32) && (v =? 8) then 1 else 0) IDT_GATE_INTERRUPT) v.

Lemma set_gates_spec n : forall t i v, 0 <= i -> i + Z.of_nat n <= 256 -> alen t = 256 -> 0 <= v < 256 ->
  aget zero_gate (set_gates stub t i n) v = if (i <=? v) && (v <? i + Z.of_nat n) then stub_gate v else aget zero_gate t v.
Proof.
  induction n as [|n IH]; intros t i v Hi Hn Ht Hv; cbn [set_gates].
  - by destruct (Z.leb_spec i v), (Z.ltb_spec v (i + Z.of_nat 0)); try lia.
  - rewrite IH by (unfold idt_set_gate; rewrite ?alen_aset; lia). unfold idt_set_gate. destruct (decide (v = i)) as [->|Hne].
    + rewrite (proj2 (Z.leb_gt (i + 1) i)), (proj2 (Z.leb_le i i)), (proj2 (Z.ltb_lt i (i + Z.of_nat (S n)))) by lia. cbn [andb].
      unfold stub_gate, idt_set_gate. rewrite !aget_aset_eq; [done|change (alen (replicate 256 zero_gate)) with 256; lia|lia].
    + rewrite aget_aset_ne by lia. replace ((i <=? v) && (v <? i + Z.of_nat (S n))) with ((i + 1 <=? v) && (v <? i + 1 + Z.of_nat n)); [done|].
      destruct (Z.leb_spec (i + 1) v), (Z.leb_spec i v), (Z.ltb_spec v (i + 1 + Z.of_nat n)), (Z.ltb_spec v (i + Z.of_nat (S n))); cbn; lia.
Qed.

(** The hardware state after both initialisations, and a kernel stack for ring 0. *)
Definition booted (w : W) (h : hal W) (r0 : Z) : hal W :=
  tss_set_rsp0 (idt_init idt_addr stub (gdt_init gdt_addr tss_addr ist1_top w h).1 (gdt_init gdt_addr tss_addr ist1_top w h).2).2 r0.

Lemma booted_task w h r0 : 0 <= tss_addr < 2 ^ 64 -> task_state (booted w h r0) = Some (Tss r0 0 0 (aset (replicate 7 0) 0 ist1_top) sizeof_tss).
Proof.
  intros Ha. unfold task_state. cbn -[gdt_set_tss Z.leb]. destruct (set_tss_fields gdt_entries tss_addr (sizeof_tss - 1) Ha) as (E1 & E2 & E3); [by vm_compute|].
  rewrite E1, E2, E3, !Z.eqb_refl. done.
Qed.

(** C5.  After initialisation every exception and every interrupt line enters its own
    stub: in the 64-bit kernel code segment at privilege 0, with interrupts off, on
    an aligned stack, which is the reserved one for a double fault, the thread's
    kernel stack when user code was interrupted, and the current one otherwise.
    The vectors above 47 are not accepted. *)
Theorem interrupt_entry_correct w h r0 v cpl rsp : (forall n, 0 <= stub n < 2 ^ 64) -> 0 <= tss_addr < 2 ^ 64 -> 0 <= v < 256 -> cpl = 0 \/ cpl = 3 ->
  cpu_interrupt (booted w h r0) v cpl rsp =
    if v <? 48 then
      Some (Entry (stub v) GDT_KERNEL_CODE 0 (Z.land (if v =? 8 then ist1_top else if cpl =? 3 then r0 else rsp) (Z.lnot 15)) false)
    else None.
Proof.
  intros Hs Ha Hv Hc. unfold cpu_interrupt. rewrite booted_task by done.
  change (p_limit (idtr (cpu (booted w h r0)))) with 4095. change (p_base (idtr (cpu (booted w h r0)))) with idt_addr.
  rewrite (proj2 (Z.leb_le _ 4095)), Z.eqb_refl by lia. cbn [andb].
  assert (Eg : aget zero_gate (idt (booted w h r0)) v = if v <? 48 then stub_gate v else zero_gate).
  { change (idt (booted w h r0)) with (set_gates stub (set_gates stub (replicate 256 zero_gate) 0 32) 32 16).
    assert (Hl : alen (set_gates stub (replicate 256 zero_gate) 0 32) = 256) by (unfold alen; by rewrite set_gates_length).
    rewrite !set_gates_spec by (done || lia). rewrite (aget_replicate zero_gate 256 zero_gate v) by lia.
    destruct (Z.leb_spec 32 v), (Z.ltb_spec v (32 + Z.of_nat 16)), (Z.leb_spec 0 v), (Z.ltb_spec v (0 + Z.of_nat 32)), (Z.ltb_spec v 48); cbn; done || lia. }
  rewrite Eg. destruct (v <? 48) eqn:E48; [|done]. cbn [mbind option_bind].
  assert (Ht : g_target (decode_gate (stub_gate v)) = stub v) by (apply gate_target; [apply Hs|change (alen (replicate 256 zero_gate)) with 256; lia]).
  assert (Er : g_selector (decode_gate (stub_gate v)) = 8 /\ g_type (decode_gate (stub_gate v)) = 14 /\ g_present (decode_gate (stub_gate v)) = true /\
    g_ist (decode_gate (stub_gate v)) = if v =? 8 then 1 else 0).
  { unfold stub_gate, idt_set_gate. rewrite aget_aset_eq by (change (alen (replicate 256 zero_gate)) with 256; lia). cbn.
    repeat split. destruct (Z.eqb_spec v 8) as [->|]; [done|]. by rewrite andb_false_r. }
  destruct Er as (E1 & E2 & E3 & E4). rewrite Ht, E1, E2, E3, E4. cbn -[Z.land Z.lnot].
  destruct (v =? 8); destruct Hc as [-> | ->]; done.
Qed.

End cpu.

(** ** The interrupt controllers *)

(** One 8259: the mask, the interrupts in service, the base vector, the initialisation
    word it expects next (0 when it is ready), and what a command read gives. *)
Record chip := Chip { c_mask : Z; c_service : Z; c_base : Z; c_step : Z; c_read_isr : bool }.

(** The interrupt in service with the highest priority. *)
Fixpoint top_from (x i : Z) (n : nat) : option Z :=
  match n with O => None | S n => if Z.testbit x i then Some i else top_from x (i + 1) n end.

Definition top_service (x : Z) : option Z := top_from x 0 8.

Definition chip_command (c : chip) (v : Z) : chip :=
  if Z.testbit v 4 then Chip 0 0 (c_base c) 2 false
  else if Z.testbit v 3 then
    Chip (c_mask c) (c_service c) (c_base c) (c_step c) (if v mod 4 =? 3 then true else if v mod 4 =? 2 then false else c_read_isr c)
  else if v =? 0x20 then
    match top_service (c_service c) with
    | Some i => Chip (c_mask c) (Z.clearbit (c_service c) i) (c_base c) (c_step c) (c_read_isr c)
    | None => c
    end
  else c.

Definition chip_data (c : chip) (v : Z) : chip :=
  if c_step c =? 2 then Chip (c_mask c) (c_service c) (v - v mod 8) 3 (c_read_isr c)
  else if c_step c =? 3 then Chip (c_mask c) (c_service c) (c_base c) 4 (c_read_isr c)
  else if c_step c =? 4 then Chip (c_mask c) (c_service c) (c_base c) 0 (c_read_isr c)
  else Chip v (c_service c) (c_base c) (c_step c) (c_read_isr c).

(** A machine with the two controllers at their ports; other operations do not change
    them.  The requests of the devices are not part of the state. *)
Class PicPorts (W : Type) `{PortMachine W} := {
  chips : W -> chip * chip;
  pp_out w p v : chips (outb w p v) =
    let '(c1, c2) := chips w in
    if p =? 0x20 then (chip_command c1 v, c2) else if p =? 0xA0 then (c1, chip_command c2 v)
    else if p =? 0x21 then (chip_data c1 v, c2) else if p =? 0xA1 then (c1, chip_data c2 v) else (c1, c2);
  pp_in w p : chips (inb w p).1 = chips w;
  pp_mask w : (inb w 0x21).2 = c_mask (chips w).1 /\ (inb w 0xA1).2 = c_mask (chips w).2;
  pp_color w c b : chips (kprintf_set_color w c b) = chips w;
  pp_print w s : chips (kprint w s) = chips w }.

(** Line [n] of the pair, when neither a mask nor an interrupt in service of the same or
    a higher priority stops it. *)
Definition clear_to (c : chip) (n : Z) : Prop :=
  c_step c = 0 /\ Z.testbit (c_mask c) n = false /\ forall i, 0 <= i <= n -> Z.testbit (c_service c) i = false.

Definition can_interrupt (cs : chip * chip) (n : Z) : Prop := if n <? 8 then clear_to cs.1 n else clear_to cs.1 2 /\ clear_to cs.2 (n - 8).

Definition serve (c : chip) (n : Z) : chip := Chip (c_mask c) (Z.setbit (c_service c) n) (c_base c) (c_step c) (c_read_isr c).

(** The acknowledgement: the controllers afterwards and the vector. *)
Definition acknowledge (cs : chip * chip) (n : Z) : chip * chip * Z :=
  if n <? 8 then (serve cs.1 n, cs.2, c_base cs.1 + n) else (serve cs.1 2, serve cs.2 (n - 8), c_base cs.2 + (n - 8)).

Lemma top_from_set x n k : forall i, 0 <= i <= n -> n < i + Z.of_nat k -> (forall j, i <= j <= n -> Z.testbit x j = false) ->
  top_from (Z.setbit x n) i k = Some n.
Proof.
  induction k as [|k IH]; intros i Hi Hn Hx; [lia|]. cbn [top_from]. rewrite Z.setbit_eqb by lia. rewrite Hx by lia.
  destruct (Z.eqb_spec n i) as [->|]; [done|]. apply IH; [lia|lia|]. intros j Hj. apply Hx. lia.
Qed.

Lemma top_service_set x n : 0 <= n < 8 -> (forall i, 0 <= i <= n -> Z.testbit x i = false) -> top_service (Z.setbit x n) = Some n.
Proof. intros Hn Hx. apply top_from_set; [lia|lia|done]. Qed.

Lemma service_done c n : 0 <= n < 8 -> clear_to c n -> chip_command (serve c n) 0x20 = c.
Proof.
  intros Hn (Hst & Hm & Hs). unfold chip_command. cbn [Z.testbit Pos.testbit]. unfold serve. cbn [c_service c_mask c_base c_step c_read_isr].
  change (0x20 =? 0x20) with true. rewrite top_service_set by done. destruct c as [m s b st r]. cbn in *. f_equal.
  apply Z.bits_inj'. intros i Hi. rewrite Z.clearbit_eqb, Z.setbit_eqb by lia. destruct (Z.eqb_spec n i) as [<-|]; cbn; [by rewrite Hs by lia|].
  by rewrite andb_true_r.
Qed.

Section pic.
Context {W : Type} `{PicPorts W}.

Lemma boot_line_chips w s : chips (boot_line w s) = chips w.
Proof. unfold boot_line. by rewrite pp_print, pp_color, pp_print, pp_color. Qed.

(** An end-of-interrupt for the line just acknowledged restores the controllers. *)
Lemma eoi_restores w cs n : 0 <= n < 16 -> n <> 2 -> can_interrupt cs n -> chips w = (acknowledge cs n).1 -> chips (pic_send_eoi w n) = cs.
Proof.
  intros Hn Hn2 Hc E. unfold can_interrupt, acknowledge, pic_send_eoi in *. change PIC1_COMMAND with 0x20. change PIC2_COMMAND with 0xA0.
  destruct cs as [c1 c2]. cbn [fst snd] in *. destruct (Z.ltb_spec n 8).
  - rewrite (proj2 (Z.leb_gt 8 n)) by lia. rewrite pp_out, E. cbn [fst Z.eqb Pos.eqb]. by rewrite service_done by (done || lia).
  - rewrite (proj2 (Z.leb_le 8 n)) by lia. rewrite !pp_out, E. cbn [fst Z.eqb Pos.eqb]. destruct Hc. by rewrite !service_done by (done || lia).
Qed.

(** Both controllers ready, with the vectors 32 to 47. *)
Definition remapped (cs : chip * chip) : Prop := c_base cs.1 = 32 /\ c_base cs.2 = 40 /\ c_step cs.1 = 0 /\ c_step cs.2 = 0.

(** After initialisation only the cascade line is unmasked and nothing is in service. *)
Lemma pic_init_chips w : chips (pic_init w) = (Chip 0xFB 0 32 0 false, Chip 0xFF 0 40 0 false).
Proof.
  unfold pic_init. rewrite (surjective_pairing (inb w _)). rewrite (surjective_pairing (inb (inb w _).1 _)).
  rewrite boot_line_chips. set (w1 := (inb (inb w PIC1_DATA).1 PIC2_DATA).1). generalize (inb w PIC1_DATA).2 (inb (inb w PIC1_DATA).1 PIC2_DATA).2. intros m1 m2.
  destruct (chips w1) as [c1 c2] eqn:E1.
  unfold pic_clear_mask. cbn [pic_port Z.ltb Z.compare Pos.compare Pos.compare_cont].
  match goal with |- context [inb ?x PIC1_DATA] => set (w2 := x) end.
  assert (E2 : chips w2 = (Chip 0xFF 0 32 0 false, Chip 0xFF 0 40 0 false)).
  { subst w2. unfold out_wait, io_wait. rewrite !pp_out, E1. reflexivity. }
  pose proof (pp_mask w2) as [M _]. pose proof (pp_in w2 0x21) as I. change PIC1_DATA with 0x21. destruct (inb w2 0x21) as [w3 v]. cbn [fst snd] in M, I.
  rewrite pp_out, I, E2, M, E2. reflexivity.
Qed.

(** Masking and unmasking change one line. *)
Definition masked (cs : chip * chip) (n : Z) : bool := if n <? 8 then Z.testbit (c_mask cs.1) n else Z.testbit (c_mask cs.2) (n - 8).

Lemma u8_testbit x i : 0 <= i < 8 -> Z.testbit (u8 x) i = Z.testbit x i.
Proof. intros Hi. unfold wrap. by rewrite Z.mod_pow2_bits_low by lia. Qed.

Lemma mask_bit v b i : 0 <= b < 8 -> 0 <= i < 8 -> Z.testbit (u8 (Z.lor v (Z.shiftl 1 b))) i = Z.testbit v i || (i =? b).
Proof. intros Hb Hi. rewrite u8_testbit, Z.lor_spec by lia. f_equal. rewrite Z.shiftl_1_l, Z.pow2_bits_eqb by lia. apply Z.eqb_sym. Qed.

Lemma unmask_bit v b i : 0 <= b < 8 -> 0 <= i < 8 -> Z.testbit (u8 (Z.land v (Z.lnot (Z.shiftl 1 b)))) i = Z.testbit v i && negb (i =? b).
Proof. intros Hb Hi. rewrite u8_testbit, Z.land_spec, Z.lnot_spec by lia. do 2 f_equal. rewrite Z.shiftl_1_l, Z.pow2_bits_eqb by lia. apply Z.eqb_sym. Qed.

Lemma masks_spec w n : 0 <= n < 16 -> c_step (chips w).1 = 0 -> c_step (chips w).2 = 0 -> forall k, 0 <= k < 16 ->
  masked (chips (pic_set_mask w n)) k = masked (chips w) k || (k =? n) /\
  masked (chips (pic_clear_mask w n)) k = masked (chips w) k && negb (k =? n).
Proof.
  intros Hn S1 S2 k Hk. unfold pic_set_mask, pic_clear_mask, pic_port. change PIC1_DATA with 0x21. change PIC2_DATA with 0xA1.
  destruct (pp_mask w) as [M1 M2]. pose proof (pp_in w 0x21) as I1. pose proof (pp_in w 0xA1) as I2.
  destruct (Z.ltb_spec n 8); cbn [fst snd].
  - destruct (inb w 0x21) as [w1 v]. cbn [fst snd] in M1, I1. rewrite !pp_out, I1. destruct (chips w) as [c1 c2]. cbn [fst snd Z.eqb Pos.eqb] in *.
    unfold masked, chip_data. cbn [fst snd]. rewrite S1. cbn [Z.eqb c_mask]. subst v. destruct (Z.ltb_spec k 8).
    + by rewrite mask_bit, unmask_bit by lia.
    + rewrite (proj2 (Z.eqb_neq k n)) by lia. by rewrite orb_false_r, andb_true_r.
  - assert (Hu : u8 (n - 8) = n - 8) by (unfold wrap; rewrite Z.mod_small; lia). rewrite Hu.
    destruct (inb w 0xA1) as [w1 v]. cbn [fst snd] in M2, I2. rewrite !pp_out, I2. destruct (chips w) as [c1 c2]. cbn [fst snd Z.eqb Pos.eqb] in *.
    unfold masked, chip_data. cbn [fst snd]. rewrite S2. cbn [Z.eqb c_mask]. subst v. destruct (Z.ltb_spec k 8).
    + rewrite (proj2 (Z.eqb_neq k n)) by lia. by rewrite orb_false_r, andb_true_r.
    + rewrite mask_bit, unmask_bit by lia. by replace (k - 8 =? n - 8) with (k =? n) by (destruct (Z.eqb_spec k n), (Z.eqb_spec (k - 8) (n - 8)); lia).
Qed.

(** C6.  An interrupt of a device on line [n] arrives as vector 32 + n.  The dispatcher
    returns, and the controllers are as they were before: the line can interrupt
    again and no other line is blocked.  A registered handler is called once and is
    to acknowledge the interrupt itself; a line without one is acknowledged here. *)
Theorem irq_serviced read_cr2 (h : hal W) w cs n regs : 0 <= n < 16 -> n <> 2 -> remapped cs -> can_interrupt cs n ->
  chips w = (acknowledge cs n).1 -> int_no regs = (acknowledge cs n).2 ->
  (forall f, aget None (isr_handlers h) (32 + n) = Some f -> exists w', f w regs = Some w' /\ chips w' = chips (pic_send_eoi w n)) ->
  int_no regs = 32 + n /\ exists w', isr_handler read_cr2 h w regs = Some (Handled w') /\ chips w' = cs /\
    match aget None (isr_handlers h) (32 + n) with Some f => f w regs = Some w' | None => w' = pic_send_eoi w n end.
Proof.
  intros Hn Hn2 (B1 & B2 & _) Hc E Er Hf. assert (Ev : int_no regs = 32 + n).
  { rewrite Er. unfold acknowledge. destruct (n <? 8); cbn [snd]; lia. }
  split; [done|]. unfold isr_handler. rewrite Ev. unfold is_irq. rewrite (proj2 (Z.leb_le 32 (32 + n))), (proj2 (Z.leb_le (32 + n) 47)) by lia.
  destruct (aget None (isr_handlers h) (32 + n)) as [f|] eqn:Ef.
  - rewrite bool_decide_eq_false_2 by done. cbn [andb]. rewrite (proj2 (Z.ltb_lt (32 + n) 256)) by lia.
    destruct (Hf f eq_refl) as (w' & Ew & Ecs). rewrite Ew. exists w'. split; [done|]. split; [|done]. rewrite Ecs. by apply eoi_restores.
  - rewrite bool_decide_eq_true_2 by done. cbn [andb]. replace (u8 (32 + n - 32)) with n by (unfold wrap; rewrite Z.mod_small; lia).
    eexists. split; [done|]. split; [by apply eoi_restores|done].
Qed.

End pic.

(** ** A machine with nothing but the two controllers *)

Record board := Board { b_chips : chip * chip; b_ticks : Z }.

#[local] Instance board_machine : PortMachine board := {|
  pm_machine := {|
    outl w _ _ := w; outw w _ _ := w;
    outb w p v := Board (let '(c1, c2) := b_chips w in
      if p =? 0x20 then (chip_command c1 v, c2) else if p =? 0xA0 then (c1, chip_command c2 v)
      else if p =? 0x21 then (chip_data c1 v, c2) else if p =? 0xA1 then (c1, chip_data c2 v) else (c1, c2)) (b_ticks w);
    inl w _ := (w, 0); cpu_flags _ := 0; set_cpu_flags w _ := w; kprintf_set_color w _ _ := w; kprint w _ := w |};
  inb w p := (w, if p =? 0x21 then c_mask (b_chips w).1 else if p =? 0xA1 then c_mask (b_chips w).2 else 0);
  inw w _ := (w, 0);
  pit_get_ticks w := (w, b_ticks w) |}.

#[local] Instance board_pics : PicPorts board.
Proof. by refine {| chips := b_chips |}. Defined.

Definition cold : board := Board (Chip 0xB8 0 8 0 false, Chip 0x8E 0 0x70 0 false) 0.

Definition cold_hal : hal board := Hal zero_table zero_tss (replicate 256 zero_gate) (replicate 256 None)
  (CpuTables (TablePointer 0 0) 0 0 0 (TablePointer 0 0)).

(** The timer, its interrupt requested and acknowledged, its handler counting. *)
Definition count_tick (w : board) : option board := Some (Board (b_chips w) (b_ticks w + 1)).
Definition timed : board * hal board := pit_init count_tick (pic_init cold) cold_hal.
Definition timer_request : board := Board (acknowledge (b_chips timed.1) 0).1 (b_ticks timed.1).
Definition vector_frame (v : Z) : registers := Registers 0 0 0 0 0 0 0 0 0 0 0 0 0 0 0 v 0 0 8 0 0 16.

Lemma irq_serviced_witness : int_no (vector_frame 32) = 32 + 0 /\
  exists w', isr_handler (fun _ => 0) timed.2 timer_request (vector_frame 32) = Some (Handled w') /\ b_chips w' = b_chips timed.1 /\
    pit_irq_handler count_tick timer_request (vector_frame 32) = Some w'.
Proof.
  destruct (irq_serviced (fun _ => 0) timed.2 timer_request (b_chips timed.1) 0 (vector_frame 32)) as (Hv & w' & E1 & E2 & E3).
  - lia.
  - done.
  - by vm_compute.
  - split; [done|]. split; [done|]. intros i Hi. by replace i with 0 by lia.
  - done.
  - done.
  - intros f E. injection E as <-. by eexists.
  - split; [exact Hv|]. exists w'. split; [exact E1|]. split; [exact E2|exact E3].
Defined.

Definition demo_stub (v : Z) : Z := (0xFFFFFFFF80000000 + 16 * v) mod 2 ^ 64.

Lemma interrupt_entry_correct_witness : exists e,
  cpu_interrupt 0x1000 0x2000 0x3000 (booted 0x1000 0x2000 0x3000 0x9000 demo_stub cold cold_hal 0x7000) 14 3 0x400008 = Some e /\
  e = Entry 0xFFFFFFFF800000E0 GDT_KERNEL_CODE 0 0x7000 false.
Proof.
  exists (Entry 0xFFFFFFFF800000E0 GDT_KERNEL_CODE 0 0x7000 false). split; [|reflexivity].
  rewrite (interrupt_entry_correct 0x1000 0x2000 0x3000 0x9000 demo_stub cold cold_hal 0x7000 14 3 0x400008).
  - vm_compute. reflexivity.
  - intros n. apply Z.mod_pos_bound. lia.
  - lia.
  - lia.
  - by right.
Defined.

(** A spurious interrupt on line 7 is acknowledged like a real one: it ends the service
    of another line, here of line 3. *)
Example spurious_eoi : chips (pic_send_eoi (Board (Chip 0 8 32 0 false, Chip 0 0 40 0 false) 0) 7) = (Chip 0 0 32 0 false, Chip 0 0 40 0 false).
Proof. vm_compute. reflexivity. Qed.
