(* ===== verification/Asm.v ===== *)
(** The assembly files: kernel/src/arch/x86_64/isr_stubs.asm, context.asm,
    syscall_entry.asm, debugger/src/arch/x86_64/dbg_trap.asm,
    userspace/libc/src/syscall.asm and crt0.asm, and the registers
    that kernel/src/syscall/syscall.c programs.

    Routines are lists of instructions over a processor with the general registers,
    the flags, the two selectors, the model-specific registers and a memory of
    eight-byte cells.  A routine runs straight through; a called function is a
    parameter that takes the state at its first instruction to the state after its
    return.  Loads and stores do not fault, and the arithmetic flags are left out. *)
From stdpp Require Import prelude gmap list strings.
From Stdlib Require Import ZArith Lia.
From S2P Require Import Prelude Spinlock Printf PrintfThm Framebuffer Pci Hal.

Open Scope Z_scope.

Inductive reg := RAX | RBX | RCX | RDX | RSI | RDI | RBP | RSP | R8 | R9 | R10 | R11 | R12 | R13 | R14 | R15.

#[export] Instance reg_eq_dec : EqDecision reg.
Proof. solve_decision. Defined.

Record cpu := Cpu {
  regs : reg -> Z;
  rip : Z;
  rflags : Z;
  cs : Z;
  ss : Z;
  msrs : gmap Z Z;
  mem : gmap Z Z }.

(** What can be called. *)
Inductive fn := ISR_HANDLER | SYSCALL_DISPATCH | LIBC_START_MAIN | EXIT | PROCESS_EXIT_CURRENT | DBG_CONSOLE_ENTER | Pointer (a : Z).

Inductive instr :=
| Push (r : reg)
| PushI (v : Z)
| PushM (a : Z)
| Pop (r : reg)
| PopM (a : Z)
| Mov (d s : reg)
| MovI (d : reg) (v : Z)
| Load (d : reg) (a : Z)
| LoadB (d b : reg) (off : Z)
| Store (a : Z) (s : reg)
| StoreD (a v : Z)
| StoreB (b s : reg)
| StoreO (b : reg) (off : Z) (s : reg)
| AddI (d : reg) (v : Z)
| AndI (d : reg) (v : Z)
| Lea (d b i : reg) (scale off : Z)
| Xor (d : reg)
| Sti
| Cli
| Call (f : fn)
| CallR (r : reg)
| Ret
| Iretq
| Syscall
| Sysret.

Definition cell (m : gmap Z Z) (a : Z) : Z := default 0 (m !! a).

Definition set_reg (s : cpu) (r : reg) (v : Z) : cpu :=
  Cpu (fun x => if decide (x = r) then v else regs s x) (rip s) (rflags s) (cs s) (ss s) (msrs s) (mem s).

Definition set_mem (s : cpu) (a v : Z) : cpu := Cpu (regs s) (rip s) (rflags s) (cs s) (ss s) (msrs s) (<[a := v]> (mem s)).

Definition set_rflags (s : cpu) (f : Z) : cpu := Cpu (regs s) (rip s) f (cs s) (ss s) (msrs s) (mem s).

Definition set_msr (s : cpu) (n v : Z) : cpu := Cpu (regs s) (rip s) (rflags s) (cs s) (ss s) (<[n := v]> (msrs s)) (mem s).

Definition jump (s : cpu) (a : Z) : cpu := Cpu (regs s) a (rflags s) (cs s) (ss s) (msrs s) (mem s).

(** Another privilege level: instruction pointer, flags and selectors. *)
Definition enter (s : cpu) (a f c d : Z) : cpu := Cpu (regs s) a f c d (msrs s) (mem s).

Definition push (s : cpu) (v : Z) : cpu := let a := u64 (regs s RSP - 8) in set_mem (set_reg s RSP a) a v.

Definition pop (s : cpu) : cpu * Z := (set_reg s RSP (u64 (regs s RSP + 8)), cell (mem s) (regs s RSP)).

(** ** syscall.c *)

Definition MSR_EFER : Z := 0xC0000080.
Definition MSR_STAR : Z := 0xC0000081.
Definition MSR_LSTAR : Z := 0xC0000082.
Definition MSR_FMASK : Z := 0xC0000084.

Definition rdmsr (s : cpu) (n : Z) : Z := default 0 (msrs s !! n).

(** The registers that [syscall_init] writes; [syscall_entry] is its address. *)
Definition syscall_init (s : cpu) (syscall_entry : Z) : cpu :=
  let s1 := set_msr s MSR_EFER (Z.lor (rdmsr s MSR_EFER) (Z.shiftl 1 0)) in
  let star := Z.lor (Z.lor 0 (Z.shiftl 0x0008 32)) (Z.shiftl 0x0013 48) in
  let s2 := set_msr s1 MSR_STAR star in
  let s3 := set_msr s2 MSR_LSTAR syscall_entry in
  set_msr s3 MSR_FMASK (Z.shiftl 1 9).

(** ** Instructions *)

Definition RFLAGS_INTERRUPT : Z := 0x200.

(** SYSCALL: [None] is an invalid opcode.  [next] is the address behind it. *)
Definition cpu_syscall (s : cpu) (next : Z) : option cpu :=
  if Z.testbit (rdmsr s MSR_EFER) 0 then
    let s1 := set_reg (set_reg s RCX next) R11 (rflags s) in
    let sel := Z.shiftr (rdmsr s MSR_STAR) 32 mod 2 ^ 16 in
    Some (enter s1 (rdmsr s MSR_LSTAR) (Z.land (rflags s) (Z.lnot (rdmsr s MSR_FMASK))) (sel - sel mod 4) (sel + 8))
  else None.

(** SYSRET to 64-bit code. *)
Definition cpu_sysret (s : cpu) : option cpu :=
  if Z.testbit (rdmsr s MSR_EFER) 0 then
    let sel := Z.shiftr (rdmsr s MSR_STAR) 48 mod 2 ^ 16 in
    Some (enter s (regs s RCX) (Z.lor (Z.land (regs s R11) 0x3C7FD7) 2) (Z.lor (sel + 16) 3) (Z.lor (sel + 8) 3))
  else None.

Section exec.
(** The called functions, what SYSCALL leads to, and the address pushed by a call. *)
Context (env : fn -> cpu -> option cpu) (gate : cpu -> option cpu) (return_address : Z).

Definition step (i : instr) (s : cpu) : option cpu :=
  match i with
  | Push r => Some (push s (regs s r))
  | PushI v => Some (push s v)
  | PushM a => Some (push s (cell (mem s) a))
  | Pop r => let '(s1, v) := pop s in Some (set_reg s1 r v)
  | PopM a => let '(s1, v) := pop s in Some (set_mem s1 a v)
  | Mov d r => Some (set_reg s d (regs s r))
  | MovI d v => Some (set_reg s d v)
  | Load d a => Some (set_reg s d (cell (mem s) a))
  | LoadB d b off => Some (set_reg s d (cell (mem s) (u64 (regs s b + off))))
  | Store a r => Some (set_mem s a (regs s r))
  | StoreD a v => Some (set_mem s a (Z.lor (Z.land (cell (mem s) a) (Z.lnot 0xFFFFFFFF)) (u32 v)))
  | StoreB b r => Some (set_mem s (regs s b) (regs s r))
  | StoreO b off r => Some (set_mem s (u64 (regs s b + off)) (regs s r))
  | AddI d v => Some (set_reg s d (u64 (regs s d + v)))
  | AndI d v => Some (set_reg s d (Z.land (regs s d) v))
  | Lea d b x scale off => Some (set_reg s d (u64 (regs s b + regs s x * scale + off)))
  | Xor d => Some (set_reg s d 0)
  | Sti => Some (set_rflags s (Z.lor (rflags s) RFLAGS_INTERRUPT))
  | Cli => Some (set_rflags s (Z.land (rflags s) (Z.lnot RFLAGS_INTERRUPT)))
  | Call f => env f (push s return_address)
  | CallR r => env (Pointer (regs s r)) (push s return_address)
  | Ret => let '(s1, a) := pop s in Some (jump s1 a)
  | Iretq =>
      let '(s1, a) := pop s in let '(s2, c) := pop s1 in let '(s3, f) := pop s2 in
      let '(s4, sp) := pop s3 in let '(s5, d) := pop s4 in
      Some (enter (set_reg s5 RSP sp) a f c d)
  | Syscall => gate s
  | Sysret => cpu_sysret s
  end.

Fixpoint exec (p : list instr) (s : cpu) : option cpu :=
  match p with [] => Some s | i :: p => s1 ← step i s; exec p s1 end.

End exec.

(** ** isr_stubs.asm *)

(** The vectors with ISR_ERRCODE. *)
Definition errcode_vectors : list Z := [8; 10; 11; 12; 13; 14; 17; 21; 29; 30].

Definition isr_stub (v : Z) : list instr := (if bool_decide (v ∈ errcode_vectors) then [] else [PushI 0]) ++ [PushI v].

Definition isr_pushes : list reg := [RAX; RBX; RCX; RDX; RSI; RDI; RBP; R8; R9; R10; R11; R12; R13; R14; R15].
Definition isr_pops : list reg := [R15; R14; R13; R12; R11; R10; R9; R8; RBP; RDI; RSI; RDX; RCX; RBX; RAX].

Definition isr_common_stub : list instr :=
  map Push isr_pushes ++ [Mov RDI RSP; Call ISR_HANDLER] ++ map Pop isr_pops ++
  [AddI RSP 16; Iretq].

(** The [registers_t] at an address. *)
Definition frame_at (m : gmap Z Z) (a : Z) : registers :=
  let f i := cell m (a + 8 * i) in
  Registers (f 0) (f 1) (f 2) (f 3) (f 4) (f 5) (f 6) (f 7) (f 8) (f 9) (f 10) (f 11) (f 12) (f 13) (f 14) (f 15) (f 16) (f 17) (f 18) (f 19) (f 20) (f 21).

(** ** dbg_trap.asm *)

Definition dbg_trap_int1 : list instr :=
  [PushI 0; PushI 1] ++ map Push isr_pushes ++ [LoadB RAX RSP 152; AndI RAX (Z.lnot (Z.shiftl 1 8)); StoreO RSP 152 RAX; Call DBG_CONSOLE_ENTER] ++
  map Pop isr_pops ++ [AddI RSP 16; Iretq].

Definition dbg_trap_int3 : list instr :=
  [PushI 0; PushI 3] ++ map Push isr_pushes ++ [Call DBG_CONSOLE_ENTER] ++ map Pop isr_pops ++ [AddI RSP 16; Iretq].

(** ** context.asm *)

Definition switch_context : list instr :=
  map Push [RBX; RBP; R12; R13; R14; R15] ++ [StoreB RDI RSP; Mov RSP RSI] ++ map Pop [R15; R14; R13; R12; RBP; RBX] ++ [Ret].

(** [lock] is the address of [sched_lock]; behind the last call is [ud2]. *)
Definition thread_entry_stub (lock : Z) : list instr :=
  [StoreD lock 0; Sti; Pop RDI; Pop RSI; Pop RDX; Mov RAX RDI; Mov RDI RSI; Mov RSI RDX; CallR RAX; Xor RDI; Call PROCESS_EXIT_CURRENT].

(** ** syscall_entry.asm *)

(** [user] and [kernel] are the addresses of [user_rsp_scratch] and
    [kernel_rsp_scratch]. *)
Definition syscall_entry (user kernel : Z) : list instr :=
  [Store user RSP; Load RSP kernel] ++
  map Push [RCX; R11; RBP; RBX; R12; R13; R14; R15] ++
  [PushM user; Sti; Push R9; Mov R9 R8; Mov R8 R10; Mov RCX RDX; Mov RDX RSI; Mov RSI RDI; Mov RDI RAX; Call SYSCALL_DISPATCH; AddI RSP 8; Cli; PopM user] ++
  map Pop [R15; R14; R13; R12; RBX; RBP; R11; RCX] ++ [Load RSP user; Sysret].

(** ** syscall.asm *)

Definition syscall0 : list instr := [Mov RAX RDI; Syscall; Ret].
Definition syscall1 : list instr := [Mov RAX RDI; Mov RDI RSI; Syscall; Ret].
Definition syscall2 : list instr := [Mov RAX RDI; Mov RDI RSI; Mov RSI RDX; Syscall; Ret].
Definition syscall3 : list instr := [Mov RAX RDI; Mov RDI RSI; Mov RSI RDX; Mov RDX RCX; Syscall; Ret].
Definition syscall4 : list instr := [Mov RAX RDI; Mov RDI RSI; Mov RSI RDX; Mov RDX RCX; Mov R10 R8; Syscall; Ret].
Definition syscall5 : list instr := [Mov RAX RDI; Mov RDI RSI; Mov RSI RDX; Mov RDX RCX; Mov R10 R8; Mov R8 R9; Syscall; Ret].
Definition syscall6 : list instr :=
  [Mov RAX RDI; Mov RDI RSI; Mov RSI RDX; Mov RDX RCX; Mov R10 R8; Mov R8 R9; LoadB R9 RSP 8; Syscall; Ret].

(** ** crt0.asm *)

Definition start : list instr := [Xor RBP; Pop RDI; Mov RSI RSP; Lea RDX RSP RDI 8 8; Call LIBC_START_MAIN; MovI RDI 0; Call EXIT].
