(* ===== verification/AsmThm.v ===== *)
(** Interrupts, context switches, new threads and system calls at the level of the
    processor. *)
From stdpp Require Import prelude gmap list strings.
From Stdlib Require Import ZArith Lia.
From S2P Require Import Prelude Process Spinlock Printf PrintfThm Framebuffer Pci Hal HalThm Asm.

Open Scope Z_scope.

(** ** Stacks *)

(** The cells from [a] upwards hold [l]. *)
Fixpoint words (m : gmap Z Z) (a : Z) (l : list Z) : Prop :=
  match l with [] => True | x :: l => cell m a = x /\ words m (a + 8) l end.

(** The same cells outside [lo, hi). *)
Definition same_outside (m m' : gmap Z Z) (lo hi : Z) : Prop := forall a, a < lo \/ hi <= a -> cell m' a = cell m a.

Lemma cell_insert m a b v : cell (<[a := v]> m) b = if decide (b = a) then v else cell m b.
Proof. unfold cell. case_decide as E; [subst; by rewrite lookup_insert_eq|]. by rewrite lookup_insert_ne. Qed.

Lemma words_insert m a v l : forall b, a + 8 <= b -> words m b l -> words (<[a := v]> m) b l.
Proof.
  induction l as [|x l IH]; intros b Hb; cbn [words]; [done|]. intros [E L]. rewrite cell_insert, decide_False by lia. split; [done|]. apply IH; [lia|done].
Qed.

Lemma words_push m a v l : words m a l -> words (<[a - 8 := v]> m) (a - 8) (v :: l).
Proof. intros L. cbn [words]. rewrite cell_insert, decide_True by done. split; [done|]. apply words_insert; [lia|]. by replace (a - 8 + 8) with a by lia. Qed.

Lemma words_app m l1 : forall a l2, words m a (l1 ++ l2) <-> words m a l1 /\ words m (a + 8 * alen l1) l2.
Proof.
  induction l1 as [|x l1 IH]; intros a l2; cbn [app words]; [rewrite Z.add_0_r; tauto|]. rewrite IH.
  replace (a + 8 + 8 * alen l1) with (a + 8 * alen (x :: l1)) by (unfold alen; cbn [length]; lia). tauto.
Qed.

Lemma words_same m m' lo hi l : forall a, words m a l -> same_outside m m' lo hi -> (forall i, 0 <= i < alen l -> a + 8 * i < lo \/ hi <= a + 8 * i) -> words m' a l.
Proof.
  induction l as [|x l IH]; intros a; cbn [words]; [done|]. intros [E L] S Ho. split.
  - rewrite S; [done|]. specialize (Ho 0). rewrite Z.add_0_r in Ho. apply Ho. unfold alen. cbn [length]. lia.
  - apply IH; [done|done|]. intros i Hi. specialize (Ho (i + 1)). replace (a + 8 + 8 * i) with (a + 8 * (i + 1)) by lia. apply Ho. unfold alen in *. cbn [length]. lia.
Qed.

Lemma same_outside_refl m lo hi : same_outside m m lo hi.
Proof. done. Qed.

Lemma same_outside_trans m1 m2 m3 lo hi lo' : same_outside m1 m2 lo hi -> same_outside m2 m3 lo' hi -> same_outside m1 m3 (Z.min lo lo') hi.
Proof. intros S1 S2 a Ha. rewrite S2, S1 by lia. done. Qed.

Section exec.
Context (env : fn -> cpu -> option cpu) (gate : cpu -> option cpu) (ra : Z).
Notation exec := (exec env gate ra).
Notation step := (step env gate ra).

Lemma exec_app p q : forall s, exec (p ++ q) s = (s1 ← exec p s; exec q s1).
Proof. induction p as [|i p IH]; intros s; cbn [app Asm.exec]; [done|]. destruct (step i s); cbn [mbind option_bind]; [apply IH|done]. Qed.

(** Everything but the stack pointer and the memory. *)
Definition same_context (s s' : cpu) : Prop :=
  (forall r, r <> RSP -> regs s' r = regs s r) /\ rip s' = rip s /\ rflags s' = rflags s /\ cs s' = cs s /\ ss s' = ss s /\ msrs s' = msrs s.

Lemma same_context_refl s : same_context s s.
Proof. by split_and!. Qed.

Lemma same_context_trans s1 s2 s3 : same_context s1 s2 -> same_context s2 s3 -> same_context s1 s3.
Proof. intros (R1 & ? & ? & ? & ? & ?) (R2 & ? & ? & ? & ? & ?). split_and!; try congruence. intros r Hr. rewrite R2, R1 by done. done. Qed.

(** [s'] is [s] with the words [l] on its stack, at the address [a]. *)
Definition stacked (s s' : cpu) (l : list Z) : Prop :=
  same_context s s' /\ regs s' RSP = regs s RSP - 8 * alen l /\ words (mem s') (regs s' RSP) l /\
  same_outside (mem s) (mem s') (regs s RSP - 8 * alen l) (regs s RSP).

Lemma stacked_nil s : stacked s s [].
Proof. split_and!; [apply same_context_refl|unfold alen; cbn; lia|done|done]. Qed.

Lemma stacked_push s s' l v : stacked s s' l -> 8 * (alen l + 1) <= regs s RSP < 2 ^ 64 -> stacked s (push s' v) (v :: l).
Proof.
  intros (C & Er & L & S) Hr. assert (Ha : u64 (regs s' RSP - 8) = regs s' RSP - 8) by (unfold wrap; rewrite Z.mod_small; unfold alen in *; lia).
  assert (Hl : alen (v :: l) = alen l + 1) by (unfold alen; cbn [length]; lia). unfold push. rewrite Ha. split_and!.
  - eapply same_context_trans; [exact C|]. split_and!; try done. intros r Hne. cbn. by rewrite decide_False.
  - rewrite Hl. cbn [regs set_mem set_reg]. rewrite decide_True by done. lia.
  - cbn [regs set_mem set_reg mem]. rewrite decide_True by done. by apply words_push.
  - intros a Ha2. rewrite Hl in Ha2. pose proof (alen_nonneg l). cbn [mem set_mem set_reg]. rewrite cell_insert, decide_False by lia. apply S. lia.
Qed.

(** Pushing registers. *)
Lemma exec_pushes rs : forall s s' l, stacked s s' l -> RSP ∉ rs -> 8 * (alen l + Z.of_nat (length rs)) <= regs s RSP < 2 ^ 64 ->
  exists s'', exec (map Push rs) s' = Some s'' /\ stacked s s'' (rev (map (regs s) rs) ++ l).
Proof.
  induction rs as [|r rs IH]; intros s s' l St Hn Hr; [by exists s'|]. apply not_elem_of_cons in Hn as [Hne Hn].
  cbn [map Asm.exec Asm.step mbind option_bind]. pose proof St as ((R & _) & _). rewrite R by done. cbn [length] in Hr.
  destruct (IH s (push s' (regs s r)) (regs s r :: l)) as (s'' & E & St2); [apply stacked_push; [done|lia]|done|unfold alen in *; cbn [length]; lia|].
  exists s''. split; [done|]. cbn [map rev]. by rewrite <- app_assoc.
Qed.

(** Popping registers: their values, in order, from the words on the stack. *)
Fixpoint assign (f : reg -> Z) (rs : list reg) (vs : list Z) : reg -> Z :=
  match rs, vs with r :: rs, v :: vs => assign (fun x => if decide (x = r) then v else f x) rs vs | _, _ => f end.

Lemma assign_ext rs : forall vs f g, (forall r, r <> RSP -> f r = g r) -> forall r, r <> RSP -> assign f rs vs r = assign g rs vs r.
Proof. induction rs as [|x rs IH]; intros [|v vs] f g E r Hr; cbn [assign]; try by apply E. apply IH; [|done]. intros y Hy. by rewrite E. Qed.

Lemma exec_pops rs : forall s vs, RSP ∉ rs -> length vs = length rs -> words (mem s) (regs s RSP) vs -> 0 <= regs s RSP -> regs s RSP + 8 * alen vs < 2 ^ 64 ->
  exists s', exec (map Pop rs) s = Some s' /\ (forall r, r <> RSP -> regs s' r = assign (regs s) rs vs r) /\ regs s' RSP = regs s RSP + 8 * alen vs /\
    mem s' = mem s /\ rip s' = rip s /\ rflags s' = rflags s /\ cs s' = cs s /\ ss s' = ss s /\ msrs s' = msrs s.
Proof.
  induction rs as [|r rs IH]; intros s [|v vs] Hn Hl L Hlo Hhi; cbn [length] in Hl; try lia.
  - exists s. split_and!; try done. unfold alen. cbn. lia.
  - apply not_elem_of_cons in Hn as [Hne Hn]. destruct L as [Ev L]. cbn [map Asm.exec Asm.step]. unfold pop. cbn [mbind option_bind].
    assert (Hal : alen (v :: vs) = alen vs + 1) by (unfold alen; cbn [length]; lia).
    rewrite Hal in Hhi. pose proof (alen_nonneg vs) as Hnn.
    assert (Hw : u64 (regs s RSP + 8) = regs s RSP + 8) by (unfold wrap; rewrite Z.mod_small; lia). rewrite Hw, Ev.
    set (s1 := set_reg (set_reg s RSP (regs s RSP + 8)) r v).
    assert (E1 : regs s1 RSP = regs s RSP + 8) by (cbn; rewrite decide_False by done; by rewrite decide_True).
    destruct (IH s1 vs) as (s' & E & R & Es & F); [done|lia|by rewrite E1|lia|lia|].
    exists s'. split; [done|]. split.
    + intros x Hx. rewrite R by done. cbn [assign]. apply assign_ext; [|done]. intros y Hy. cbn. case_decide; [done|]. by rewrite decide_False.
    + split; [rewrite Es, E1, Hal; lia|done].
Qed.

(** ** Switching threads *)

Definition callee_saved : list reg := [RBX; RBP; R12; R13; R14; R15].

Lemma callee_cases r : r ∈ callee_saved -> r = RBX \/ r = RBP \/ r = R12 \/ r = R13 \/ r = R14 \/ r = R15.
Proof. unfold callee_saved. rewrite !elem_of_cons, elem_of_nil. tauto. Qed.

Fixpoint read_words (m : gmap Z Z) (a : Z) (n : nat) : list Z := match n with O => [] | S n => cell m a :: read_words m (a + 8) n end.

Lemma words_read m n : forall a, words m a (read_words m a n) /\ length (read_words m a n) = n.
Proof. induction n as [|n IH]; intros a; cbn [read_words words length]; [done|]. destruct (IH (a + 8)). split; [done|lia]. Qed.

Lemma words_det m l1 : forall a l2, words m a l1 -> words m a l2 -> length l1 = length l2 -> l1 = l2.
Proof. induction l1 as [|x l1 IH]; intros a [|y l2] L1 L2 Hl; cbn [length] in Hl; try lia; [done|]. destruct L1 as [<- L1], L2 as [<- L2]. f_equal. by apply (IH (a + 8)); [..|lia]. Qed.

(** The outgoing thread's registers end up under its stack pointer, which is stored; the
    incoming thread gets what its own frame holds. *)
Lemma switch_run s : 48 <= regs s RSP < 2 ^ 64 -> 0 <= regs s RSI -> regs s RSI + 56 < 2 ^ 64 ->
  regs s RDI + 8 <= regs s RSP - 48 \/ regs s RSP <= regs s RDI ->
  exists s1, exec switch_context s = Some s1 /\ cell (mem s1) (regs s RDI) = regs s RSP - 48 /\
    words (mem s1) (regs s RSP - 48) (rev (map (regs s) callee_saved)) /\
    (forall a, a < regs s RSP - 48 \/ regs s RSP <= a -> a <> regs s RDI -> cell (mem s1) a = cell (mem s) a) /\
    (forall vs b, words (mem s1) (regs s RSI) (vs ++ [b]) -> length vs = 6%nat ->
      rip s1 = b /\ regs s1 RSP = regs s RSI + 56 /\ forall r, r <> RSP -> regs s1 r = assign (regs s) (rev callee_saved) vs r).
Proof.
  intros Hr Hlo Hhi Hd. unfold switch_context. change (map Push [RBX; RBP; R12; R13; R14; R15]) with (map Push callee_saved). rewrite exec_app.
  destruct (exec_pushes callee_saved s s [] (stacked_nil s)) as (s1 & -> & (R & F) & Es & L & S); [by apply (bool_decide_unpack _)|change (alen [] + Z.of_nat (length callee_saved)) with 6; lia|].
  cbn [mbind option_bind]. rewrite app_nil_r in Es, L, S. change (alen (rev (map (regs s) callee_saved))) with 6 in Es, S.
  cbn [Asm.exec Asm.step app mbind option_bind].
  set (s2 := set_reg (set_mem s1 (regs s1 RDI) (regs s1 RSP)) RSP (regs (set_mem s1 (regs s1 RDI) (regs s1 RSP)) RSI)).
  assert (E2 : regs s2 RSP = regs s RSI) by (cbn; by rewrite R).
  assert (Em : mem s2 = <[regs s RDI := regs s RSP - 48]> (mem s1)) by (cbn; rewrite R, Es by done; f_equal; lia).
  destruct (words_read (mem s2) 7 (regs s RSI)) as [Lw Hlw].
  rewrite exec_app. assert (Hsplit : read_words (mem s2) (regs s RSI) 7 = take 6 (read_words (mem s2) (regs s RSI) 7) ++ drop 6 (read_words (mem s2) (regs s RSI) 7)) by (by rewrite take_drop).
  rewrite Hsplit in Lw. apply words_app in Lw as [Lv Lb]. set (vs := take 6 _) in *. assert (Hvs : length vs = 6%nat) by done.
  destruct (exec_pops (rev callee_saved) s2 vs) as (s3 & E3 & R3 & Es3 & Em3 & _); [by apply (bool_decide_unpack _)|done|by rewrite E2|lia|unfold alen; rewrite Hvs; lia|].
  change (map Pop [R15; R14; R13; R12; RBP; RBX]) with (map Pop (rev callee_saved)). rewrite E3. cbn [mbind option_bind Asm.exec Asm.step]. unfold pop.
  cbn [mbind option_bind]. eexists. split; [reflexivity|]. cbn [mem jump set_reg rip regs]. rewrite Em3, Em.
  assert (Hw6 : regs s3 RSP = regs s RSI + 48) by (rewrite Es3, E2; unfold alen; rewrite Hvs; lia).
  split; [by rewrite cell_insert, decide_True|]. split.
  { apply (words_same (mem s1) _ (regs s RDI) (regs s RDI + 1)).
    - by replace (regs s RSP - 48) with (regs s1 RSP) by lia.
    - intros a Ha. rewrite cell_insert, decide_False by lia. done.
    - intros i Hi. change (alen (rev (map (regs s) callee_saved))) with 6 in Hi. lia. }
  split.
  { intros a Ha Hne. rewrite cell_insert, decide_False by done. apply S. lia. }
  intros ws b Lws Hws. rewrite <- Em in Lws. apply words_app in Lws as [Lws Lb2]. assert (vs = ws) as <- by (by apply (words_det (mem s2) vs (regs s RSI))).
  unfold alen in Lb2. rewrite Hvs in Lb2. destruct Lb2 as [Lb2 _]. rewrite Hw6. split; [rewrite <- Em, <- Lb2; f_equal; lia|]. split.
  - rewrite decide_True by done. unfold wrap. rewrite Z.mod_small; lia.
  - intros r Hne. rewrite decide_False by done. rewrite R3 by done. apply assign_ext; [|done]. intros y Hy. cbn. rewrite decide_False by done. by apply R.
Qed.

(** C10.  A context switch is a coroutine call.  It returns in the incoming thread; and
    whenever a later switch is given the stack pointer that this one stored, with the
    outgoing thread's frame still in place, it returns to the outgoing thread's caller
    with that thread's stack and callee-saved registers.  Between the two the machine
    may have done anything else. *)
Theorem switch_context_resumes s ra' : 48 <= regs s RSP -> regs s RSP + 8 < 2 ^ 64 -> 0 <= regs s RSI -> regs s RSI + 56 < 2 ^ 64 ->
  regs s RDI + 8 <= regs s RSP - 48 \/ regs s RSP + 8 <= regs s RDI -> cell (mem s) (regs s RSP) = ra' ->
  exists s1, exec switch_context s = Some s1 /\
    forall s2, (forall a, regs s RSP - 48 <= a < regs s RSP + 8 -> cell (mem s2) a = cell (mem s1) a) ->
      regs s2 RSI = cell (mem s1) (regs s RDI) -> 48 <= regs s2 RSP < 2 ^ 64 ->
      regs s2 RDI + 8 <= regs s2 RSP - 48 \/ regs s2 RSP <= regs s2 RDI ->
      regs s2 RSP <= regs s RSP - 48 \/ regs s RSP + 8 <= regs s2 RSP - 48 ->
      regs s2 RDI + 8 <= regs s RSP - 48 \/ regs s RSP + 8 <= regs s2 RDI ->
      exists s3, exec switch_context s2 = Some s3 /\ rip s3 = ra' /\ regs s3 RSP = regs s RSP + 8 /\
        (forall r, r ∈ callee_saved -> regs s3 r = regs s r).
Proof.
  intros Hlo Hhi Hi1 Hi2 Hd Hra. destruct (switch_run s) as (s1 & E1 & Ec & L & S & _); [lia..|].
  exists s1. split; [done|]. intros s2 Hf Hsi Hr2 Hd2 Hdis Hdis2. rewrite Ec in Hsi.
  destruct (switch_run s2) as (s3 & E3 & _ & _ & S3 & Run); [lia..|]. exists s3. split; [done|].
  assert (Same : forall a, regs s RSP - 48 <= a < regs s RSP + 8 -> cell (mem s3) a = cell (mem s1) a).
  { intros a Ha. rewrite S3 by lia. by apply Hf. }
  destruct (Run (rev (map (regs s) callee_saved)) ra') as (Er & Es & R); [|done|].
  - rewrite Hsi. apply words_app. change (alen (rev (map (regs s) callee_saved))) with 6. split.
    + cbn [words rev map app callee_saved] in L |- *. destruct L as (L1 & L2 & L3 & L4 & L5 & L6 & _). rewrite !Same by lia. done.
    + split; [|done]. rewrite Same by lia. rewrite S by lia. rewrite <- Hra. f_equal. lia.
  - split; [done|]. split; [rewrite Es; lia|]. intros r Hr.
    apply callee_cases in Hr as [-> | [-> | [-> | [-> | [-> | ->]]]]]; rewrite R by done; reflexivity.
Qed.

(** ** Interrupts *)

(** The vectors for which the processor pushes an error code. *)
Definition pushes_error (v : Z) : bool := (v =? 8) || (10 <=? v) && (v <=? 14) || (v =? 17) || (v =? 21) || (v =? 29) || (v =? 30).

(** What the processor does on the way in: it pushes the interrupted state and clears the
    interrupt, trap, nested-task, resume and virtual-8086 flags. *)
Definition interrupted (s : cpu) (v code : Z) : list Z := (if pushes_error v then [code] else []) ++ [rip s; cs s; rflags s; regs s RSP; ss s].

Definition deliver (s : cpu) (e : entry) (v code : Z) : cpu :=
  let f := Z.land (rflags s) (Z.lnot (0x34100 + if e_interrupts e then 0 else 0x200)) in
  foldr (fun v s' => push s' v) (enter (set_reg s RSP (e_stack e)) (e_rip e) f (e_cs e) (if e_cpl e =? cs s mod 4 then ss s else 0)) (interrupted s v code).

Lemma pushes_error_spec v : bool_decide (v ∈ errcode_vectors) = pushes_error v.
Proof.
  apply Bool.eq_iff_eq_true. unfold pushes_error, errcode_vectors.
  rewrite bool_decide_eq_true, !orb_true_iff, andb_true_iff, !Z.eqb_eq, !Z.leb_le, !elem_of_cons, elem_of_nil. lia.
Qed.

Lemma stacked_pushes s l : 8 * alen l <= regs s RSP < 2 ^ 64 -> stacked s (foldr (fun v s' => push s' v) s l) l.
Proof.
  induction l as [|v l IH]; intros Hr; [apply stacked_nil|]. assert (Hl : alen (v :: l) = alen l + 1) by (unfold alen; cbn [length]; lia).
  cbn [foldr]. apply stacked_push; [apply IH|]; lia.
Qed.

(** The stub brings every vector to the same layout. *)
Lemma isr_stub_run base s l v code : stacked base s ((if pushes_error v then [code] else []) ++ l) -> 8 * (alen l + 2) <= regs base RSP < 2 ^ 64 ->
  exists s', exec (isr_stub v) s = Some s' /\ stacked base s' (v :: (if pushes_error v then code else 0) :: l).
Proof.
  intros St Hr. unfold isr_stub. rewrite pushes_error_spec. pose proof (alen_nonneg l). destruct (pushes_error v); cbn [app] in *; eexists; (split; [reflexivity|]).
  - apply stacked_push; [done|unfold alen in *; cbn [length]; lia].
  - apply stacked_push; [apply stacked_push; [done|lia]|unfold alen in *; cbn [length]; lia].
Qed.

Lemma words_at m l : forall a i x, words m a l -> 0 <= i -> l !! Z.to_nat i = Some x -> cell m (a + 8 * i) = x.
Proof.
  induction l as [|y l IH]; intros a i x; cbn [words]; [done|]. intros [E L] Hi Hl. destruct (decide (i = 0)) as [->|Hne].
  - injection Hl as <-. rewrite Z.add_0_r. done.
  - replace (a + 8 * i) with (a + 8 + 8 * (i - 1)) by lia. apply IH; [done|lia|]. replace (Z.to_nat i) with (S (Z.to_nat (i - 1))) in Hl by lia. done.
Qed.

Lemma frame_words m a g v c p k f sp d : words m a (rev (map g isr_pushes) ++ [v; c; p; k; f; sp; d]) ->
  frame_at m a = Registers (g R15) (g R14) (g R13) (g R12) (g R11) (g R10) (g R9) (g R8) (g RBP) (g RDI) (g RSI) (g RDX) (g RCX) (g RBX) (g RAX) v c p k f sp d.
Proof. intros L. unfold frame_at. f_equal; (eapply words_at; [exact L|lia|reflexivity]). Qed.

Lemma u64_add x n : 0 <= x + n < 2 ^ 64 -> u64 (x + n) = x + n.
Proof. intros. unfold wrap. by rewrite Z.mod_small. Qed.

(** The way out. *)
Lemma isr_return s vs v c p k f sp d : words (mem s) (regs s RSP) (vs ++ [v; c; p; k; f; sp; d]) -> length vs = 15%nat -> 0 <= regs s RSP -> regs s RSP + 176 <= 2 ^ 64 ->
  exists s', exec (map Pop isr_pops ++ [AddI RSP 16; Iretq]) s = Some s' /\ rip s' = p /\ cs s' = k /\ rflags s' = f /\ ss s' = d /\ regs s' RSP = sp /\
    mem s' = mem s /\ forall r, r <> RSP -> regs s' r = assign (regs s) isr_pops vs r.
Proof.
  intros L Hl Hlo Hhi. apply words_app in L as [L1 L2]. unfold alen in L2. rewrite Hl in L2. destruct L2 as (_ & _ & Lp & Lk & Lf & Lsp & Ld & _).
  destruct (exec_pops isr_pops s vs) as (s1 & E1 & R1 & Es1 & Em1 & _); [by apply (bool_decide_unpack _)|done|done|lia|unfold alen; rewrite Hl; lia|].
  unfold alen in Es1. rewrite Hl in Es1.
  rewrite exec_app, E1. cbn [mbind option_bind Asm.exec Asm.step]. unfold pop. cbn [mbind option_bind].
  eexists. split; [reflexivity|]. cbn [regs rip rflags cs ss mem enter set_reg decide]. rewrite !decide_True by done. set (b := regs s1 RSP) in *.
  rewrite (u64_add b 16), (u64_add (b + 16) 8), (u64_add (b + 16 + 8) 8), (u64_add (b + 16 + 8 + 8) 8), (u64_add (b + 16 + 8 + 8 + 8) 8), Em1 by lia.
  split_and!; [rewrite <- Lp|rewrite <- Lk|rewrite <- Lf|rewrite <- Ld|rewrite <- Lsp|done|]; try (f_equal; lia).
  intros r Hr. rewrite !decide_False by done. by apply R1.
Qed.

Definition frame_of (s : cpu) (v code : Z) : registers :=
  let g := regs s in
  Registers (g R15) (g R14) (g R13) (g R12) (g R11) (g R10) (g R9) (g R8) (g RBP) (g RDI) (g RSI) (g RDX) (g RCX) (g RBX) (g RAX) v code
    (rip s) (cs s) (rflags s) (g RSP) (ss s).

Lemma words_frame m a fr : frame_at m a = fr ->
  words m a ([r_r15 fr; r_r14 fr; r_r13 fr; r_r12 fr; r_r11 fr; r_r10 fr; r_r9 fr; r_r8 fr; r_rbp fr; r_rdi fr; r_rsi fr; r_rdx fr; r_rcx fr; r_rbx fr; r_rax fr] ++
    [int_no fr; err_code fr; r_rip fr; r_cs fr; r_rflags fr; r_rsp fr; r_ss fr]).
Proof. intros <-. cbn [frame_at app words r_r15 r_r14 r_r13 r_r12 r_r11 r_r10 r_r9 r_r8 r_rbp r_rdi r_rsi r_rdx r_rcx r_rbx r_rax int_no err_code r_rip r_cs r_rflags r_rsp r_ss]. split_and!; try done; f_equal; lia. Qed.

Lemma saved_frame_restored s f fr :
  (forall r, r <> RSP -> regs s r = assign f isr_pops [r_r15 fr; r_r14 fr; r_r13 fr; r_r12 fr; r_r11 fr; r_r10 fr; r_r9 fr; r_r8 fr; r_rbp fr; r_rdi fr; r_rsi fr; r_rdx fr; r_rcx fr; r_rbx fr; r_rax fr] r) ->
  rip s = r_rip fr -> cs s = r_cs fr -> rflags s = r_rflags fr -> regs s RSP = r_rsp fr -> ss s = r_ss fr -> frame_of s (int_no fr) (err_code fr) = fr.
Proof.
  destruct fr. cbn -[assign].
  intros Hr ? ? ? ? ?. unfold frame_of. f_equal; try assumption; (rewrite Hr by discriminate; reflexivity).
Qed.

Lemma entry_aligned {W} `{PortMachine W} ga ta ia (h : hal W) v cpl sp e : cpu_interrupt ga ta ia h v cpl sp = Some e -> e_stack e mod 16 = 0.
Proof.
  unfold cpu_interrupt. destruct (_ && _); [|done]. destruct (task_state _ _ h) as [t|]; cbn [mbind option_bind]; [|done]. destruct (_ && _ && _); [|done].
  intros E. injection E as <-. cbn [e_stack]. rewrite <- (Z.land_ones _ 4) by lia. change (Z.lnot 15) with (Z.lnot (Z.ones 4)). rewrite <- Z.land_assoc.
  apply Z.bits_inj'. intros i Hi. rewrite !Z.land_spec, Z.lnot_spec, Z.bits_0 by lia. destruct (Z.testbit (Z.ones 4) i); by rewrite ?andb_false_r.
Qed.

(** The way in. *)
Lemma isr_enter s e v code : e_stack e mod 16 = 0 -> 184 <= e_stack e < 2 ^ 64 ->
  exists s2, exec (isr_stub v ++ map Push isr_pushes) (deliver s e v code) = Some s2 /\ rip s2 = e_rip e /\ regs s2 RSP = e_stack e - 176 /\
    (e_interrupts e = false -> Z.testbit (rflags s2) 9 = false) /\
    words (mem s2) (regs s2 RSP) (rev (map (regs s) isr_pushes) ++ [v; if pushes_error v then code else 0; rip s; cs s; rflags s; regs s RSP; ss s]).
Proof.
  intros He Hs.
  set (base := enter (set_reg s RSP (e_stack e)) (e_rip e) (Z.land (rflags s) (Z.lnot (0x34100 + if e_interrupts e then 0 else 0x200))) (e_cs e) (if e_cpl e =? cs s mod 4 then ss s else 0)).
  assert (Eb : regs base RSP = e_stack e) by (cbn; by rewrite decide_True).
  assert (St0 : stacked base (deliver s e v code) (interrupted s v code)) by (apply (stacked_pushes base); rewrite Eb; unfold interrupted, alen; destruct (pushes_error v); cbn [app length]; lia).
  destruct (isr_stub_run base _ _ v code St0) as (s1 & E1 & St1); [unfold alen; cbn [length]; lia|].
  destruct (exec_pushes isr_pushes base s1 _ St1) as (s2 & E2 & (R & Ei & Ef & _) & Es & L & _); [by apply (bool_decide_unpack _)|unfold alen; cbn [length isr_pushes]; lia|].
  exists s2. split; [by rewrite exec_app, E1|]. split; [exact Ei|]. rewrite Eb in Es. unfold alen in Es. rewrite length_app, length_rev, length_map in Es. cbn [length isr_pushes] in Es.
  split; [lia|]. split.
  { intros Hi. rewrite Ef. cbn [rflags enter base]. rewrite Hi, Z.land_spec, Z.lnot_spec by lia. by rewrite andb_false_r. }
  exact L.
Qed.

Lemma exec_handler p s sr : env ISR_HANDLER (push (set_reg s RDI (regs s RSP)) ra) = Some sr -> exec ([Mov RDI RSP; Call ISR_HANDLER] ++ p) s = exec p sr.
Proof. intros E. cbn [app Asm.exec Asm.step mbind option_bind]. by rewrite E. Qed.

(** C8.  An interrupt goes unnoticed.  Whatever vector the tables accept, the C handler
    is called on an aligned stack with a pointer to a structure that holds the vector, the
    error code or 0, and every register of the interrupted code; and however it changes the machine, as long as it
    returns, the interrupted code continues with exactly the registers, the flags, the selectors and the stack pointer
    that the structure holds by then. *)
Theorem interrupt_transparent {W} `{PortMachine W} ga ta ia (h : hal W) s v code e :
  cpu_interrupt ga ta ia h v (cs s mod 4) (regs s RSP) = Some e -> 184 <= e_stack e < 2 ^ 64 ->
  exists sc,
    frame_at (mem sc) (regs sc RDI) = frame_of s v (if pushes_error v then code else 0) /\
    rip sc = e_rip e /\ regs sc RDI mod 16 = 0 /\ regs sc RSP = regs sc RDI - 8 /\ (e_interrupts e = false -> Z.testbit (rflags sc) 9 = false) /\
    forall sr, env ISR_HANDLER sc = Some sr -> regs sr RSP = regs sc RDI ->
      let fr := frame_at (mem sr) (regs sc RDI) in
      exists s', exec (isr_stub v ++ isr_common_stub) (deliver s e v code) = Some s' /\ mem s' = mem sr /\ frame_of s' (int_no fr) (err_code fr) = fr.
Proof.
  intros He Hs. apply entry_aligned in He. destruct (isr_enter s e v code He Hs) as (s2 & E2 & Ei & Es & Ef & L).
  assert (Ed : regs (set_reg s2 RDI (regs s2 RSP)) RSP = regs s2 RSP) by (cbn; by rewrite decide_False).
  assert (Ea : u64 (regs s2 RSP - 8) = regs s2 RSP - 8) by (apply u64_add; lia).
  set (sc := push (set_reg s2 RDI (regs s2 RSP)) ra).
  assert (Erdi : regs sc RDI = regs s2 RSP) by (cbn; by rewrite decide_False, decide_True by done).
  assert (Emem : mem sc = <[regs s2 RSP - 8 := ra]> (mem s2)) by (unfold sc, push; by rewrite Ed, Ea).
  exists sc. rewrite Erdi. split.
  { unfold frame_of. rewrite (frame_words (mem sc) (regs s2 RSP) (regs s) v (if pushes_error v then code else 0) (rip s) (cs s) (rflags s) (regs s RSP) (ss s)).
    - cbn. done.
    - rewrite Emem. apply words_insert; [lia|exact L]. }
  split; [exact Ei|]. split; [rewrite Es; by rewrite <- (Z_mod_plus_full _ 11), <- He; f_equal; lia|].
  split; [cbn; rewrite decide_True by done; by rewrite decide_False by done|]. split; [exact Ef|].
  intros sr Er Esp fr. assert (Lf := words_frame (mem sr) (regs s2 RSP) fr eq_refl). clearbody fr. rewrite <- Esp in Lf.
  destruct (isr_return sr _ _ _ _ _ _ _ _ Lf) as (s' & E' & Hrip & Hcs & Hf & Hss & Hsp & Hm & Hr); [done|lia|lia|].
  exists s'. split.
  { unfold isr_common_stub. rewrite app_assoc, exec_app, E2. cbn [mbind option_bind]. by rewrite (exec_handler _ s2 sr Er). }
  split; [exact Hm|]. by apply (saved_frame_restored s' (regs sr)).
Qed.

(** ** System calls *)

Definition frame_pushes : list reg := [RCX; R11; RBP; RBX; R12; R13; R14; R15].
Definition entry_in (user kernel : Z) : list instr :=
  [Store user RSP; Load RSP kernel] ++ map Push frame_pushes ++
  [PushM user; Sti; Push R9; Mov R9 R8; Mov R8 R10; Mov RCX RDX; Mov RDX RSI; Mov RSI RDI; Mov RDI RAX].
Definition entry_out (user : Z) : list instr := [AddI RSP 8; Cli; PopM user] ++ map Pop (rev frame_pushes) ++ [Load RSP user; Sysret].

Lemma entry_split user kernel : syscall_entry user kernel = entry_in user kernel ++ Call SYSCALL_DISPATCH :: entry_out user.
Proof. reflexivity. Qed.

Lemma exec_call f p s sr : env f (push s ra) = Some sr -> exec (Call f :: p) s = exec p sr.
Proof. intros E. cbn [Asm.exec Asm.step]. by rewrite E. Qed.

Lemma exec_pushm a p s : exec (PushM a :: p) s = exec p (push s (cell (mem s) a)).
Proof. reflexivity. Qed.

(** The C function's arguments. *)
Lemma exec_moves s : exists s', exec [Sti; Push R9; Mov R9 R8; Mov R8 R10; Mov RCX RDX; Mov RDX RSI; Mov RSI RDI; Mov RDI RAX] s = Some s' /\
  regs s' RDI = regs s RAX /\ regs s' RSI = regs s RDI /\ regs s' RDX = regs s RSI /\ regs s' RCX = regs s RDX /\ regs s' R8 = regs s R10 /\ regs s' R9 = regs s R8 /\
  regs s' RSP = u64 (regs s RSP - 8) /\ mem s' = <[u64 (regs s RSP - 8) := regs s R9]> (mem s) /\ rflags s' = Z.lor (rflags s) RFLAGS_INTERRUPT /\ msrs s' = msrs s /\ rip s' = rip s /\ cs s' = cs s /\ ss s' = ss s.
Proof. eexists. split; [reflexivity|]. split_and!; reflexivity. Qed.

Lemma entry_in_run s user kernel k : cell (mem s) kernel = k -> kernel <> user -> 88 <= k < 2 ^ 64 -> user < k - 88 \/ k <= user ->
  exists s', exec (entry_in user kernel) s = Some s' /\
    regs s' RDI = regs s RAX /\ regs s' RSI = regs s RDI /\ regs s' RDX = regs s RSI /\ regs s' RCX = regs s RDX /\ regs s' R8 = regs s R10 /\ regs s' R9 = regs s R8 /\
    regs s' RSP = k - 80 /\ Z.testbit (rflags s') 9 = true /\ msrs s' = msrs s /\ rip s' = rip s /\ cs s' = cs s /\ ss s' = ss s /\
    words (mem s') (k - 80) (regs s R9 :: regs s RSP :: rev (map (regs s) frame_pushes)) /\
    (forall a, a < k - 80 \/ k <= a -> a <> user -> cell (mem s') a = cell (mem s) a).
Proof.
  intros Hk Hne Hr Hu. unfold entry_in. rewrite exec_app. cbn [Asm.exec Asm.step mbind option_bind].
  set (s1 := set_reg (set_mem s user (regs s RSP)) RSP _).
  assert (E1 : regs s1 RSP = k) by (cbn; rewrite decide_True by done; rewrite cell_insert, decide_False by done; exact Hk).
  destruct (exec_pushes frame_pushes s1 s1 [] (stacked_nil s1)) as (s2 & E2 & St2); [by apply (bool_decide_unpack _)|rewrite E1; change (alen [] + Z.of_nat (length frame_pushes)) with 8; lia|].
  rewrite app_nil_r in St2. rewrite exec_app, E2. cbn [mbind option_bind].
  assert (St3 : stacked s1 (push s2 (cell (mem s2) user)) (cell (mem s2) user :: rev (map (regs s1) frame_pushes))).
  { apply stacked_push; [done|]. change (alen (rev (map (regs s1) frame_pushes)) + 1) with 9. lia. }
  assert (Eu : cell (mem s2) user = regs s RSP).
  { destruct St2 as (_ & _ & _ & S). rewrite S by (rewrite E1; change (alen (rev (map (regs s1) frame_pushes))) with 8; lia). cbn. by rewrite cell_insert, decide_True. }
  rewrite Eu in St3. destruct St3 as ((R & Ei & _ & Ecs & Ess & Em) & Es & L & S). set (s3 := push s2 (regs s RSP)) in *.
  change (alen (regs s RSP :: rev (map (regs s1) frame_pushes))) with 9 in Es, S. rewrite E1 in Es, S.
  assert (Ea : u64 (regs s3 RSP - 8) = k - 80) by (rewrite Es; unfold wrap; rewrite Z.mod_small; lia).
  destruct (exec_moves s3) as (s' & E' & M1 & M2 & M3 & M4 & M5 & M6 & Msp & Mm & Mf & Mr & Mi & Mcs & Mss). rewrite Ea in Msp, Mm.
  exists s'. split; [rewrite exec_pushm, Eu; exact E'|]. rewrite M1, M2, M3, M4, M5, M6, Mr, Em, Mi, Ei, Mcs, Ecs, Mss, Ess, !R by done.
  do 6 (split; [reflexivity|]). split; [done|]. split; [rewrite Mf, Z.lor_spec; apply orb_true_r|]. do 4 (split; [reflexivity|]). rewrite Mm, R by done. split.
  - replace (k - 80) with (k - 72 - 8) by lia. apply words_push. rewrite Es in L. replace (k - 72) with (k - 8 * 9) by lia. exact L.
  - intros a Ha Hau. rewrite cell_insert, decide_False by lia. rewrite S by lia. cbn. by rewrite cell_insert, decide_False.
Qed.

(** The return: the registers come back from the frame, the stack pointer from the cell
    above the seventh argument. *)
Lemma entry_out_run s user k sp vs : regs s RSP = k - 80 -> 88 <= k < 2 ^ 64 -> user < k - 88 \/ k <= user -> words (mem s) (k - 72) (sp :: vs) -> length vs = 8%nat ->
  Z.testbit (rdmsr s MSR_EFER) 0 = true ->
  let g := assign (regs s) (rev frame_pushes) vs in let sel := Z.shiftr (rdmsr s MSR_STAR) 48 mod 2 ^ 16 in
  exists s', exec (entry_out user) s = Some s' /\ rip s' = g RCX /\ rflags s' = Z.lor (Z.land (g R11) 0x3C7FD7) 2 /\
    cs s' = Z.lor (sel + 16) 3 /\ ss s' = Z.lor (sel + 8) 3 /\ regs s' RSP = sp /\ (forall r, r <> RSP -> regs s' r = g r) /\
    (forall a, a <> user -> cell (mem s') a = cell (mem s) a).
Proof.
  intros Esp Hr Hu L Hl Hefer g sel. destruct L as [Lsp L]. unfold entry_out. rewrite exec_app. cbn [Asm.exec Asm.step]. unfold pop. cbn [mbind option_bind regs set_reg set_rflags mem].
  rewrite !decide_True by done. rewrite Esp, (u64_add (k - 80) 8) by lia.
  replace (k - 80 + 8) with (k - 72) by lia. rewrite Lsp.
  match goal with |- context [exec _ ?x] => set (s1 := x) end.
  assert (Es1 : regs s1 RSP = k - 64) by (cbn; rewrite decide_True by done; rewrite u64_add by lia; lia).
  replace (k - 72 + 8) with (k - 64) in L by lia.
  destruct (exec_pops (rev frame_pushes) s1 vs) as (s2 & E2 & R2 & Es2 & Em2 & _ & _ & _ & _ & Er2); [by apply (bool_decide_unpack _)|done| |lia|unfold alen; rewrite Hl; lia|].
  { rewrite Es1. apply (words_same (mem s) _ user (user + 1)); [done| |unfold alen; rewrite Hl; lia]. intros a Ha. cbn. rewrite cell_insert, decide_False by lia. done. }
  assert (Rg : forall r, r <> RSP -> regs s2 r = g r).
  { intros r Hne. rewrite R2 by done. apply assign_ext; [|done]. intros y Hy. cbn. by rewrite !decide_False. }
  rewrite exec_app, E2. cbn [Asm.exec Asm.step mbind option_bind]. unfold cpu_sysret, rdmsr. cbn [msrs set_reg]. rewrite Er2. change (msrs s1) with (msrs s). fold (rdmsr s MSR_EFER). rewrite Hefer.
  cbn [mbind option_bind]. eexists. split; [reflexivity|]. cbn [rip rflags cs ss regs mem enter set_reg]. rewrite !decide_False, !Rg, Em2 by done.
  split; [reflexivity|]. split; [reflexivity|]. split; [reflexivity|]. split; [reflexivity|]. split; [|split].
  - cbn. by rewrite decide_True, cell_insert, decide_True.
  - intros r Hne. rewrite decide_False by done. by apply Rg.
  - intros a Hne. cbn. by rewrite cell_insert, decide_False.
Qed.

End exec.

Lemma words_cells m m' l : forall a, words m a l -> (forall i, 0 <= i < alen l -> cell m' (a + 8 * i) = cell m (a + 8 * i)) -> words m' a l.
Proof.
  induction l as [|x l IH]; intros a; cbn [words]; [done|]. intros [E L] Hc. assert (Hl : alen (x :: l) = alen l + 1) by (unfold alen; cbn [length]; lia).
  pose proof (alen_nonneg l). split; [rewrite <- E; specialize (Hc 0); rewrite Z.add_0_r in Hc; apply Hc; lia|]. apply IH; [done|]. intros i Hi.
  replace (a + 8 + 8 * i) with (a + 8 * (i + 1)) by lia. apply Hc. lia.
Qed.

(** *** The whole call, from the library's wrapper to the kernel's C function and back *)

(** The wrappers of [syscall.asm] by the number of their arguments. *)
Definition wrapper (n : nat) : list instr := nth n [syscall0; syscall1; syscall2; syscall3; syscall4; syscall5; syscall6] syscall6.

(** The arguments after the first, as the C calling convention passes them. *)
Definition c_args (s : cpu) : list Z := map (regs s) [RSI; RDX; RCX; R8; R9] ++ [cell (mem s) (u64 (regs s RSP + 8))].

(** The arguments as the SYSCALL convention passes them. *)
Definition syscall_args (s : cpu) : list Z := map (regs s) [RDI; RSI; RDX; R10; R8; R9].

Definition kept : list reg := RSP :: callee_saved.

Lemma wrapper_run env gate ra n s : (n <= 6)%nat -> exists s1, exec env gate ra (wrapper n) s = (s2 ← gate s1; exec env gate ra [Ret] s2) /\
  regs s1 RAX = regs s RDI /\ take n (syscall_args s1) = take n (c_args s) /\ (forall r, r ∈ kept -> regs s1 r = regs s r) /\
  mem s1 = mem s /\ rflags s1 = rflags s /\ msrs s1 = msrs s.
Proof.
  intros Hn. do 7 (destruct n as [|n]; [eexists; split; [reflexivity|]; split_and!; try reflexivity; intros r Hr; unfold kept, callee_saved in Hr; rewrite !elem_of_cons, elem_of_nil in Hr; cbn; rewrite !decide_False by naive_solver; reflexivity|]).
  lia.
Qed.

Lemma init_msrs s0 a : let m := msrs (syscall_init s0 a) in
  Z.testbit (default 0 (m !! MSR_EFER)) 0 = true /\ default 0 (m !! MSR_STAR) = 0x0013000800000000 /\ default 0 (m !! MSR_LSTAR) = a /\ default 0 (m !! MSR_FMASK) = 0x200.
Proof.
  cbn [syscall_init set_msr msrs]. rewrite !lookup_insert_eq. unfold MSR_EFER, MSR_STAR, MSR_LSTAR, MSR_FMASK.
  repeat (rewrite (lookup_insert_ne (M := gmap Z)) by done; rewrite ?lookup_insert_eq). cbn [from_option id]. split; [|done]. rewrite Z.lor_spec. apply orb_true_r.
Qed.

(** What SYSCALL leads to; [next] is the address behind it. *)
Definition kernel_gate (env : fn -> cpu -> option cpu) (ra user kernel next : Z) (s : cpu) : option cpu :=
  s1 ← cpu_syscall s next; exec env (fun _ => None) ra (syscall_entry user kernel) s1.

Lemma syscall_enter s s0 entry next : msrs s = msrs (syscall_init s0 entry) ->
  exists s1, cpu_syscall s next = Some s1 /\ (forall r, r <> RCX -> r <> R11 -> regs s1 r = regs s r) /\ regs s1 RCX = next /\ regs s1 R11 = rflags s /\
    rip s1 = entry /\ cs s1 = GDT_KERNEL_CODE /\ ss s1 = GDT_KERNEL_DATA /\ mem s1 = mem s /\ msrs s1 = msrs s.
Proof.
  intros Hm. destruct (init_msrs s0 entry) as (E1 & E2 & E3 & E4). rewrite <- Hm in E1, E2, E3, E4. unfold cpu_syscall, rdmsr. rewrite E1, E2, E3, E4.
  eexists. split; [reflexivity|]. cbn [regs rip cs ss mem msrs enter set_reg]. split_and!; try reflexivity. intros r H1 H2. by rewrite !decide_False.
Qed.

(** The kernel's part. *)
Lemma syscall_entry_run env gate ra s user kernel k : cell (mem s) kernel = k -> kernel <> user -> 88 <= k < 2 ^ 64 -> user < k - 88 \/ k <= user ->
  Z.testbit (rdmsr s MSR_EFER) 0 = true ->
  exists sc, regs sc RDI = regs s RAX /\ c_args sc = syscall_args s /\ regs sc RSP = k - 88 /\ cs sc = cs s /\ ss sc = ss s /\ rip sc = rip s /\ Z.testbit (rflags sc) 9 = true /\
    (forall a, a < k - 88 \/ k <= a -> a <> user -> cell (mem sc) a = cell (mem s) a) /\
    forall sr, env SYSCALL_DISPATCH sc = Some sr -> regs sr RSP = regs sc RSP + 8 -> msrs sr = msrs sc -> (forall a, k - 72 <= a < k -> cell (mem sr) a = cell (mem sc) a) ->
      let sel := Z.shiftr (rdmsr s MSR_STAR) 48 mod 2 ^ 16 in
      exists s', exec env gate ra (syscall_entry user kernel) s = Some s' /\ rip s' = regs s RCX /\ rflags s' = Z.lor (Z.land (regs s R11) 0x3C7FD7) 2 /\
        cs s' = Z.lor (sel + 16) 3 /\ ss s' = Z.lor (sel + 8) 3 /\ regs s' RSP = regs s RSP /\ regs s' RAX = regs sr RAX /\ (forall r, r ∈ callee_saved -> regs s' r = regs s r) /\
        (forall a, a <> user -> cell (mem s') a = cell (mem sr) a).
Proof.
  intros Hk Hne Hr Hu Hefer.
  destruct (entry_in_run env gate ra s user kernel k Hk Hne Hr Hu) as (s3 & E3 & M1 & M2 & M3 & M4 & M5 & M6 & Msp & Mf & Mmsr & Mip & Mcs & Mss & L & S).
  assert (Ea : u64 (regs s3 RSP - 8) = k - 88) by (rewrite Msp; unfold wrap; rewrite Z.mod_small; lia).
  set (sc := push s3 ra). assert (Esp : regs sc RSP = k - 88) by (cbn; by rewrite decide_True).
  assert (Em : mem sc = <[k - 88 := ra]> (mem s3)) by (unfold sc, push; by rewrite Ea).
  assert (Erg : forall r, r <> RSP -> regs sc r = regs s3 r) by (intros r Hn; cbn; by rewrite decide_False).
  assert (Lc : words (mem sc) (k - 80) (regs s R9 :: regs s RSP :: rev (map (regs s) frame_pushes))) by (rewrite Em; apply words_insert; [lia|exact L]).
  exists sc. split; [by rewrite Erg|]. split.
  { unfold c_args, syscall_args. cbn [map app]. rewrite Esp, u64_add by lia. rewrite !Erg, M2, M3, M4, M5, M6 by done. destruct Lc as [<- _]. do 7 f_equal. lia. }
  split; [done|]. split; [exact Mcs|]. split; [exact Mss|]. split; [exact Mip|]. split; [exact Mf|]. split.
  { intros a Ha Hau. rewrite Em, cell_insert, decide_False by lia. apply S; [lia|done]. }
  intros sr Er Esr Hmsr Hfr sel. destruct Lc as [_ Lc]. replace (k - 80 + 8) with (k - 72) in Lc by lia.
  assert (Eefer : rdmsr sr = rdmsr s) by (unfold rdmsr; rewrite Hmsr; unfold sc; cbn [msrs push set_mem set_reg]; by rewrite Mmsr).
  destruct (entry_out_run env gate ra sr user k (regs s RSP) (rev (map (regs s) frame_pushes))) as (s' & E' & R1 & R2 & R3 & R4 & R5 & R6 & R7);
    [rewrite Esr, Esp; lia|done|done| |done|by rewrite Eefer|].
  { apply (words_cells (mem sc)); [done|]. intros i Hi. unfold alen in Hi. cbn [length rev map app frame_pushes] in Hi. apply Hfr. lia. }
  exists s'. split; [by rewrite entry_split, exec_app, E3; cbn [mbind option_bind]; rewrite (exec_call env gate ra _ _ s3 sr Er)|].
  rewrite R1, R2, R3, R4, R5, R6, Eefer by done. do 6 (split; [reflexivity|]). split; [|done].
  intros r Hin. apply callee_cases in Hin as [-> | [-> | [-> | [-> | [-> | ->]]]]]; rewrite R6 by done; reflexivity.
Qed.

(** C7.  A system call is a function call across the two privilege levels.  The kernel's
    C function gets the number and the arguments of the library's wrapper in its own
    argument registers and on its stack, in the kernel's segments, on the kernel stack,
    which is aligned, with interrupts on; when it returns, however it used the machine
    otherwise, the wrapper's caller continues in the user segments with the
    function's result, its own flags, stack and callee-saved registers. *)
Theorem syscall_roundtrip env ra user kernel next entry s0 n s k :
  (n <= 6)%nat -> msrs s = msrs (syscall_init s0 entry) -> cell (mem s) kernel = k -> kernel <> user -> 88 <= k < 2 ^ 64 -> k mod 16 = 0 ->
  user < k - 88 \/ k <= user -> 0 <= regs s RSP -> regs s RSP + 8 < 2 ^ 64 -> regs s RSP < k - 88 \/ k <= regs s RSP -> regs s RSP <> user ->
  exists sc,
    regs sc RDI = regs s RDI /\ take n (c_args sc) = take n (c_args s) /\ (regs sc RSP + 8) mod 16 = 0 /\ k - 88 <= regs sc RSP < k /\
    cs sc = GDT_KERNEL_CODE /\ ss sc = GDT_KERNEL_DATA /\ rip sc = entry /\ Z.testbit (rflags sc) 9 = true /\
    forall sr, env SYSCALL_DISPATCH sc = Some sr -> regs sr RSP = regs sc RSP + 8 -> msrs sr = msrs sc ->
      (forall a, k - 72 <= a < k \/ a = regs s RSP -> cell (mem sr) a = cell (mem sc) a) ->
      exists s', exec env (kernel_gate env ra user kernel next) ra (wrapper n) s = Some s' /\
        rip s' = cell (mem s) (regs s RSP) /\ regs s' RSP = regs s RSP + 8 /\ regs s' RAX = regs sr RAX /\ (forall r, r ∈ callee_saved -> regs s' r = regs s r) /\
        cs s' = Z.lor GDT_USER_CODE 3 /\ ss s' = Z.lor GDT_USER_DATA 3 /\ rflags s' = Z.lor (Z.land (rflags s) 0x3C7FD7) 2.
Proof.
  intros Hn Hm Hk Hne Hr Hal Hu Hlo Hhi Hsp Hspu.
  destruct (wrapper_run env (kernel_gate env ra user kernel next) ra n s Hn) as (s1 & E1 & Wa & Wargs & Wk & Wm & Wf & Wmsr).
  pose proof Hm as Hm0. rewrite <- Wmsr in Hm. destruct (syscall_enter s1 s0 entry next Hm) as (s2 & E2 & G & Grcx & Gr11 & Gip & Gcs & Gss & Gm & Gmsr).
  rewrite <- Wm, <- Gm in Hk. destruct (init_msrs s0 entry) as (I1 & I2 & _). rewrite <- Hm, <- Gmsr in I1, I2.
  assert (Ek : forall r, r ∈ kept -> regs s2 r = regs s r) by (intros r Hin; rewrite <- Wk by done; unfold kept in Hin; rewrite elem_of_cons in Hin; destruct Hin as [-> | Hin]; [by apply G|apply callee_cases in Hin as [-> | [-> | [-> | [-> | [-> | ->]]]]]; by apply G]).
  assert (Esp2 : regs s2 RSP = regs s RSP) by (apply Ek; by left).
  destruct (syscall_entry_run env (fun _ => None) ra s2 user kernel k Hk Hne Hr Hu I1) as (sc & Crdi & Cargs & Csp & Ccs & Css & Cip & Cf & Cm & Ret).
  exists sc. rewrite Crdi, G, Cargs, Csp, Ccs, Css, Cip by done. split; [done|]. split.
  { rewrite <- Wargs. unfold syscall_args. cbn [map]. by rewrite !G. }
  split; [rewrite <- Hal, <- (Z_mod_plus_full k (-5)); f_equal; lia|]. split; [lia|]. do 4 (split; [done|]).
  intros sr Er Esr Hmsr Hfr. rewrite <- Csp in Esr. destruct (Ret sr Er Esr Hmsr) as (s' & E' & R1 & R2 & R3 & R4 & R5 & R6 & R7 & R8); [intros a Ha; apply Hfr; lia|].
  assert (Era : cell (mem s') (regs s' RSP) = cell (mem s) (regs s RSP)) by (rewrite R5, Esp2, R8, Hfr, Cm, Gm, Wm by (done || lia); done).
  exists (jump (set_reg s' RSP (u64 (regs s' RSP + 8))) (cell (mem s') (regs s' RSP))). split.
  { rewrite E1. unfold kernel_gate. rewrite E2. cbn [mbind option_bind]. rewrite E'. reflexivity. }
  cbn [rip regs jump set_reg cs ss rflags]. split; [exact Era|]. rewrite decide_True, R5, Esp2, u64_add by (done || lia). split; [done|]. split; [rewrite decide_False by done; exact R6|].
  split; [intros r Hin; rewrite decide_False by (by intros ->; apply callee_cases in Hin as [? | [? | [? | [? | [? | ?]]]]]); rewrite R7 by done; apply Ek; by right|].
  unfold rdmsr in R3, R4. rewrite R2, R3, R4, I2, Gr11, Wf. done.
Qed.

(** ** New threads *)

Section threads.
Context (env : fn -> cpu -> option cpu) (gate : cpu -> option cpu) (ra : Z).
Notation exec := (exec env gate ra).

Lemma stub_split lock : thread_entry_stub lock = [StoreD lock 0; Sti] ++ map Pop [RDI; RSI; RDX] ++ [Mov RAX RDI; Mov RDI RSI; Mov RSI RDX; CallR RAX; Xor RDI; Call PROCESS_EXIT_CURRENT].
Proof. reflexivity. Qed.

Lemma low_half x : u32 (Z.lor (Z.land x (Z.lnot 0xFFFFFFFF)) (u32 0)) = 0.
Proof.
  unfold wrap. rewrite <- Z.land_ones by lia. apply Z.bits_inj'. intros i Hi. rewrite Z.land_spec, Z.lor_spec, Z.land_spec, Z.lnot_spec, Z.bits_0 by lia.
  change 0xFFFFFFFF with (Z.ones 32). destruct (Z.testbit (Z.ones 32) i) eqn:E; [|by rewrite andb_false_r, Z.bits_0]. cbn [negb]. by rewrite andb_false_r, Z.bits_0.
Qed.

(** The call that [thread_entry_stub] makes, from the words on its stack. *)
Lemma entry_stub_run s lock f a1 a2 : words (mem s) (regs s RSP) [f; a1; a2] -> 0 <= regs s RSP -> regs s RSP + 24 < 2 ^ 64 -> lock < regs s RSP \/ regs s RSP + 24 <= lock ->
  exists sc, regs sc RDI = a1 /\ regs sc RSI = a2 /\ regs sc RSP = regs s RSP + 16 /\ Z.testbit (rflags sc) 9 = true /\
    u32 (cell (mem sc) lock) = 0 /\
    exec (thread_entry_stub lock) s = (sr ← env (Pointer f) sc; env PROCESS_EXIT_CURRENT (push (set_reg sr RDI 0) ra)).
Proof.
  intros L Hlo Hhi Hd. rewrite stub_split, exec_app. cbn [Asm.exec Asm.step mbind option_bind].
  set (s1 := set_rflags _ _). assert (Lm : words (mem s1) (regs s1 RSP) [f; a1; a2]).
  { apply (words_same (mem s) _ lock (lock + 1)); [done| |unfold alen; cbn [length]; change (regs s1 RSP) with (regs s RSP); lia]. intros a Ha. cbn. by rewrite cell_insert, decide_False by lia. }
  destruct (exec_pops env gate ra [RDI; RSI; RDX] s1 [f; a1; a2]) as (s2 & E2 & R2 & Es2 & Em2 & _ & Ef2 & _); [by apply (bool_decide_unpack _)|done|done|done|change (regs s RSP + 24 < 2 ^ 64); lia|].
  rewrite exec_app, E2. cbn [Asm.exec Asm.step mbind option_bind].
  assert (E0 : regs s2 RDI = f /\ regs s2 RSI = a1 /\ regs s2 RDX = a2) by (rewrite !R2 by done; done). destruct E0 as (E1 & E3 & E4).
  assert (Eu : u64 (regs s2 RSP - 8) = regs s RSP + 16) by (rewrite Es2; change (regs s1 RSP + 8 * alen [f; a1; a2]) with (regs s RSP + 24); unfold wrap; rewrite Z.mod_small; lia).
  match goal with |- context [env (Pointer ?v) ?x] => replace v with f by (cbn; by rewrite E1); set (sc := x) end.
  exists sc. split; [cbn; by rewrite E3|]. split; [cbn; by rewrite E4|]. split; [exact Eu|]. split.
  { change (rflags sc) with (rflags s2). rewrite Ef2. change (rflags s1) with (Z.lor (rflags s) 0x200). rewrite Z.lor_spec. apply orb_true_r. }
  split; [|destruct (env (Pointer f) sc) as [sr|]; [|done]; cbn [mbind option_bind]; by destruct (env PROCESS_EXIT_CURRENT _)].
  change (mem sc) with (<[u64 (regs s2 RSP - 8) := ra]> (mem s2)). rewrite Eu, Em2, cell_insert, decide_False by lia. cbn [s1 mem set_rflags set_mem]. rewrite cell_insert, decide_True by done. apply low_half.
Qed.

(** C11.  A new thread starts.  The first switch to the frame that [thread_create] builds
    goes to [thread_entry_stub], which releases the scheduler's lock, enables interrupts
    and calls the thread's function with its two arguments, on the aligned top of the
    thread's stack; if that function ever returns, the process exits with status 0. *)
Theorem new_thread_starts s img lock entry a1 a2 sp : words (mem s) sp (rev (initial_frame img entry a1 a2)) -> regs s RSI = sp ->
  0 <= sp -> sp + 80 < 2 ^ 64 -> (sp + 80) mod 16 = 0 -> 48 <= regs s RSP < 2 ^ 64 -> regs s RSP <= sp \/ sp + 80 <= regs s RSP - 48 ->
  regs s RDI + 8 <= regs s RSP - 48 \/ regs s RSP <= regs s RDI -> regs s RDI < sp \/ sp + 80 <= regs s RDI -> lock < sp \/ sp + 80 <= lock ->
  exists s1 sc, exec switch_context s = Some s1 /\ rip s1 = Process.thread_entry_stub img /\
    regs sc RDI = a1 /\ regs sc RSI = a2 /\ (regs sc RSP + 8) mod 16 = 0 /\ Z.testbit (rflags sc) 9 = true /\ u32 (cell (mem sc) lock) = 0 /\
    exec (thread_entry_stub lock) s1 = (sr ← env (Pointer entry) sc; env PROCESS_EXIT_CURRENT (push (set_reg sr RDI 0) ra)).
Proof.
  intros L Esi Hlo Hhi Hal Hr Hd Hd1 Hd2 Hd3. cbn [rev initial_frame app] in L.
  destruct (switch_run env gate ra s) as (s1 & E1 & _ & _ & S & Run); [lia..|].
  assert (L1 : words (mem s1) sp ([0; 0; 0; 0; 0; 0; Process.thread_entry_stub img] ++ [entry; a1; a2])).
  { apply (words_cells (mem s)); [exact L|]. intros i Hi. unfold alen in Hi. cbn [length app] in Hi. apply S; lia. }
  apply words_app in L1 as [Lf La]. change (sp + 8 * alen _) with (sp + 56) in La. rewrite Esi in Run.
  destruct (Run [0; 0; 0; 0; 0; 0] (Process.thread_entry_stub img)) as (Er & Es & _); [exact Lf|done|].
  rewrite <- Es in La. destruct (entry_stub_run s1 lock entry a1 a2 La) as (sc & R1 & R2 & R3 & R4 & R5 & R6); [lia..|].
  exists s1, sc. split; [done|]. split; [done|]. split; [done|]. split; [done|]. split; [rewrite R3, Es, <- Hal; f_equal; lia|]. split; [done|].
  done.
Qed.

End threads.

(** ** Witnesses *)

#[local] Existing Instance board_machine.

(** A machine whose called functions return at once, with 7. *)
Definition return7 (f : fn) (s : cpu) : option cpu := Some (set_reg (set_reg s RSP (regs s RSP + 8)) RAX 7).

(** Register numbers as contents, except for the given ones. *)
Definition demo_regs (sp di si : Z) (r : reg) : Z :=
  match r with RSP => sp | RDI => di | RSI => si | RAX => 100 | RBX => 101 | RCX => 102 | RDX => 103 | RBP => 104 | R8 => 108 | R9 => 109 | R10 => 110
  | R11 => 111 | R12 => 112 | R13 => 113 | R14 => 114 | R15 => 115 end.

Definition demo_cpu (sp di si : Z) (m : gmap Z Z) : cpu := Cpu (demo_regs sp di si) 0x400000 0x202 0x23 0x1B ∅ m.

Lemma switch_context_resumes_witness : exists s1 s2 s3,
  exec return7 (fun _ => None) 0 switch_context (demo_cpu 0x5000 0x9000 0x7000 {[ 0x5000 := 0xABC ]}) = Some s1 /\
  exec return7 (fun _ => None) 0 switch_context s2 = Some s3 /\ rip s3 = 0xABC /\ regs s3 RSP = 0x5008 /\ regs s3 R12 = 112.
Proof.
  destruct (switch_context_resumes return7 (fun _ => None) 0 (demo_cpu 0x5000 0x9000 0x7000 {[ 0x5000 := 0xABC ]}) 0xABC) as (s1 & E1 & H); [cbn; lia..|reflexivity|].
  destruct (H (demo_cpu 0x6000 0x9010 (cell (mem s1) 0x9000) (mem s1))) as (s3 & E3 & R1 & R2 & R3); [done|reflexivity|cbn; lia..|].
  exists s1, (demo_cpu 0x6000 0x9010 (cell (mem s1) 0x9000) (mem s1)), s3. split; [exact E1|]. split; [exact E3|]. split; [exact R1|]. split; [exact R2|].
  apply (R3 R12). by apply (bool_decide_unpack _).
Defined.

Lemma interrupt_transparent_witness : exists e s',
  cpu_interrupt 0x1000 0x2000 0x3000 (booted 0x1000 0x2000 0x3000 0x9000 demo_stub cold cold_hal 0x7000) 33 3 0x5000 = Some e /\
  exec return7 (fun _ => None) 0 (isr_stub 33 ++ isr_common_stub) (deliver (demo_cpu 0x5000 1 2 ∅) e 33 0) = Some s' /\
  regs s' RAX = 100 /\ regs s' RSP = 0x5000 /\ rip s' = 0x400000.
Proof.
  set (e := Entry (demo_stub 33) 8 0 0x7000 false).
  destruct (interrupt_transparent return7 (fun _ => None) 0 0x1000 0x2000 0x3000 (booted 0x1000 0x2000 0x3000 0x9000 demo_stub cold cold_hal 0x7000) (demo_cpu 0x5000 1 2 ∅) 33 0 e)
    as (sc & F & _ & _ & Es & _ & H); [vm_compute; reflexivity|cbn; lia|].
  destruct (H (set_reg (set_reg sc RSP (regs sc RSP + 8)) RAX 7)) as (s' & E' & _ & Fr); [reflexivity|change (regs sc RSP + 8 = regs sc RDI); rewrite Es; lia|].
  exists e, s'. split; [vm_compute; reflexivity|]. split; [exact E'|].
  change (mem (set_reg (set_reg sc RSP (regs sc RSP + 8)) RAX 7)) with (mem sc) in Fr. rewrite F in Fr. split; [exact (f_equal r_rax Fr)|]. split; [exact (f_equal r_rsp Fr)|exact (f_equal r_rip Fr)].
Defined.

Definition demo_user (n : nat) : cpu :=
  Cpu (demo_regs 0x400ff8 1 11) 0x400100 0x202 0x23 0x1B (msrs (syscall_init (demo_cpu 0 0 0 ∅) 0x8000)) {[ 0x7008 := 0x6000; 0x400ff8 := 0x400200; 0x401000 := 66 ]}.

Lemma syscall_roundtrip_witness : exists s', exec return7 (kernel_gate return7 0 0x7000 0x7008 0x400110) 0 syscall6 (demo_user 6) = Some s' /\
  rip s' = 0x400200 /\ regs s' RAX = 7 /\ regs s' R15 = 115 /\ cs s' = 0x23.
Proof.
  destruct (syscall_roundtrip return7 0 0x7000 0x7008 0x400110 0x8000 (demo_cpu 0 0 0 ∅) 6 (demo_user 6) 0x6000) as (sc & _ & _ & _ & _ & _ & _ & _ & _ & H);
    [lia|reflexivity|reflexivity|done|lia|reflexivity|lia|cbn; lia|cbn; lia|cbn; lia|cbn; lia|].
  destruct (H (set_reg (set_reg sc RSP (regs sc RSP + 8)) RAX 7)) as (s' & E' & R1 & R2 & R3 & R4 & R5 & _); [reflexivity|reflexivity|reflexivity|done|].
  exists s'. split; [exact E'|]. split; [exact R1|]. split; [exact R3|]. split; [apply (R4 R15); by apply (bool_decide_unpack _)|exact R5].
Defined.

Definition demo_frame : gmap Z Z := {[ 0x7030 := 0x8000; 0x7038 := 0xF00; 0x7040 := 5; 0x7048 := 6; 0x100 := 2 ^ 32 + 1 ]}.

Lemma new_thread_starts_witness : exists s1 sc, exec return7 (fun _ => None) 0 switch_context (demo_cpu 0x5000 0x9000 0x7000 demo_frame) = Some s1 /\
  rip s1 = 0x8000 /\ regs sc RDI = 5 /\ regs sc RSI = 6 /\ u32 (cell (mem sc) 0x100) = 0.
Proof.
  destruct (new_thread_starts return7 (fun _ => None) 0 (demo_cpu 0x5000 0x9000 0x7000 demo_frame) (KernelImage 0x8000 0 0 0 0) 0x100 0xF00 5 6 0x7000)
    as (s1 & sc & E1 & R1 & R2 & R3 & _ & _ & R4 & _); [by vm_compute|reflexivity|lia|lia|reflexivity|cbn; lia|cbn; lia|cbn; lia|cbn; lia|lia|].
  exists s1, sc. split; [exact E1|]. split; [exact R1|]. split; [exact R2|]. split; [exact R3|exact R4].
Defined.

(** Registers that the frame does not hold come back with what the kernel left in them:
    before SYSCALL, RSI held 103 and R9 held 109. *)
Example syscall_clobbers : (regs <$> exec return7 (kernel_gate return7 0 0x7000 0x7008 0x400110) 0 syscall2 (demo_user 2)) ≫= (fun g => Some (g RSI, g R9)) = Some (11, 108).
Proof. vm_compute. reflexivity. Qed.

(** ** The first instructions of a user program *)

(** [_start] calls the library with the vectors of the stack's layout.  It has popped one
    word, so from an aligned stack the call is not aligned as C code expects. *)
Lemma start_run env gate ra s argc : cell (mem s) (regs s RSP) = argc -> 0 <= argc -> 0 <= regs s RSP -> regs s RSP + 16 + argc * 8 < 2 ^ 64 ->
  exists sc, regs sc RDI = argc /\ regs sc RSI = regs s RSP + 8 /\ regs sc RDX = regs s RSP + 8 + 8 * (argc + 1) /\ regs sc RBP = 0 /\ regs sc RSP = regs s RSP /\
    exec env gate ra start s = (sr ← env LIBC_START_MAIN sc; env EXIT (push (set_reg sr RDI 0) ra)).
Proof.
  intros Ea Hn Hlo Hhi. set (s2 := set_reg (set_reg (set_reg s RBP 0) RSP (u64 (regs s RSP + 8))) RDI argc).
  assert (E1 : exec env gate ra start s = exec env gate ra [Mov RSI RSP; Lea RDX RSP RDI 8 8; Call LIBC_START_MAIN; MovI RDI 0; Call EXIT] s2) by (unfold s2; rewrite <- Ea; reflexivity).
  assert (Esp : u64 (regs s RSP + 8) = regs s RSP + 8) by (apply u64_add; lia).
  set (s4 := set_reg (set_reg s2 RSI (u64 (regs s RSP + 8))) RDX (u64 (u64 (regs s RSP + 8) + argc * 8 + 8))).
  exists (push s4 ra). split; [reflexivity|]. split; [exact Esp|]. split.
  { change (u64 (u64 (regs s RSP + 8) + argc * 8 + 8) = regs s RSP + 8 + 8 * (argc + 1)). rewrite Esp, u64_add; lia. }
  split; [reflexivity|]. split.
  { change (u64 (u64 (regs s RSP + 8) - 8) = regs s RSP). rewrite Esp. unfold wrap. rewrite Z.mod_small; lia. }
  rewrite E1. transitivity (sr ← env LIBC_START_MAIN (push s4 ra); s5 ← env EXIT (push (set_reg sr RDI 0) ra); Some s5); [reflexivity|].
  destruct (env LIBC_START_MAIN (push s4 ra)); cbn [mbind option_bind]; [|reflexivity]. by destruct (env EXIT _).
Qed.

Lemma start_misaligned env gate ra s argc : cell (mem s) (regs s RSP) = argc -> 0 <= argc -> 0 <= regs s RSP -> regs s RSP + 16 + argc * 8 < 2 ^ 64 -> regs s RSP mod 16 = 0 ->
  exists sc, exec env gate ra start s = (sr ← env LIBC_START_MAIN sc; env EXIT (push (set_reg sr RDI 0) ra)) /\ (regs sc RSP + 8) mod 16 = 8.
Proof.
  intros Ea Hn Hlo Hhi Hm. destruct (start_run env gate ra s argc Ea Hn Hlo Hhi) as (sc & _ & _ & _ & _ & Er & E). exists sc. split; [done|].
  rewrite Er, Z.add_mod, Hm by lia. done.
Qed.
