(* ===== verification/Ata.v ===== *)
(** The ATA driver, kernel/src/drivers/storage/ata.c and ata.h.

    The machine of Hal.v.
    The polling loops end by the timer, so they carry fuel; AtaThm.v shows how much
    is enough.  Drives are entries of a static array, named by their index. *)
From stdpp Require Import prelude gmap list strings.
From Stdlib Require Import ZArith Lia.
From S2P Require Import Prelude Spinlock Printf PrintfThm Framebuffer Pci Hal.

Open Scope Z_scope.

Definition ATA_PRIMARY_IO : Z := 0x1F0.
Definition ATA_PRIMARY_CTRL : Z := 0x3F6.
Definition ATA_SECONDARY_IO : Z := 0x170.
Definition ATA_SECONDARY_CTRL : Z := 0x376.

Definition ATA_MASTER : Z := 0xA0.
Definition ATA_SLAVE : Z := 0xB0.

Definition ATA_REG_DATA : Z := 0.
Definition ATA_REG_ERROR : Z := 1.
Definition ATA_REG_SECCOUNT0 : Z := 2.
Definition ATA_REG_LBA0 : Z := 3.
Definition ATA_REG_LBA1 : Z := 4.
Definition ATA_REG_LBA2 : Z := 5.
Definition ATA_REG_HDDEVSEL : Z := 6.
Definition ATA_REG_COMMAND : Z := 7.
Definition ATA_REG_STATUS : Z := 7.
Definition ALT_STATUS : Z := 0x206.

Definition ATA_SR_ERR : Z := 0x01.
Definition ATA_SR_DRQ : Z := 0x08.
Definition ATA_SR_BSY : Z := 0x80.

Definition ATA_CMD_READ_PIO : Z := 0x20.
Definition ATA_CMD_READ_PIO_EXT : Z := 0x24.
Definition ATA_CMD_IDENTIFY : Z := 0xEC.

(** [type], [device_data] and [read_sectors] stay 0 in this driver. *)
Record ata_drive_t := AtaDriveT {
  present : Z;
  is_master : Z;
  is_lba48 : Z;
  io_base : Z;
  ctrl_base : Z;
  total_sectors : Z;
  model : list Z;
  drive_name : list Z }.

Section ata.
Context {W : Type} `{PortMachine W} (fuel : nat).
Implicit Types (w : W) (io : Z).

(** The port of a register. *)
Definition reg (io r : Z) : Z := u16 (u32 (io + r)).

Definition out_reg (w : W) (io r v : Z) : W := outb w (reg io r) (u8 v).

Definition ata_delay (w : W) (io : Z) : W :=
  let w1 := (inb w (reg io ALT_STATUS)).1 in
  let w2 := (inb w1 (reg io ALT_STATUS)).1 in
  let w3 := (inb w2 (reg io ALT_STATUS)).1 in
  (inb w3 (reg io ALT_STATUS)).1.

(** A message in the colour of errors. *)
Definition complaint (w : W) (text : list Z) : W := kprint (kprintf_set_color w FAIL_COLOR FB_DEFAULT_BG) (text ++ [10]).

(** The loop of [ata_wait_busy]. *)
Fixpoint busy_loop (w : W) (io start : Z) (n : nat) : option (W * Z) :=
  match n with
  | O => None
  | S n =>
      let '(w1, status) := inb w (reg io ATA_REG_STATUS) in
      if has_flag status ATA_SR_BSY then
        let '(w2, now) := pit_get_ticks w1 in
        if 5000 <? u64 (now - start) then Some (complaint w2 (txt "[ATA] Timeout waiting for BSY to clear"), 0)
        else busy_loop (io_wait w2) io start n
      else Some (w1, 1)
  end.

Definition ata_wait_busy (w : W) (io : Z) : option (W * Z) := let '(w1, start) := pit_get_ticks w in busy_loop w1 io start fuel.

Definition error_text (status err : Z) : list Z :=
  txt "[ATA] Error bit set in status (0x" ++ hex 2 status ++ txt "), Error Register: 0x" ++ hex 2 err.

(** The loop of [ata_wait_drq]. *)
Fixpoint drq_loop (w : W) (io start : Z) (n : nat) : option (W * Z) :=
  match n with
  | O => None
  | S n =>
      let '(w1, s) := inb w (reg io ATA_REG_STATUS) in
      if has_flag s ATA_SR_DRQ then Some (w1, 1)
      else
        let '(w2, status) := inb w1 (reg io ATA_REG_STATUS) in
        if has_flag status ATA_SR_ERR then
          let '(w3, err) := inb w2 (reg io ATA_REG_ERROR) in
          Some (complaint w3 (error_text status err), 0)
        else
          let '(w3, now) := pit_get_ticks w2 in
          if 5000 <? u64 (now - start) then Some (complaint w3 (txt "[ATA] Timeout waiting for DRQ"), 0)
          else drq_loop (io_wait w3) io start n
  end.

Definition ata_wait_drq (w : W) (io : Z) : option (W * Z) := let '(w1, start) := pit_get_ticks w in drq_loop w1 io start fuel.

(** ** Identification *)

(** [for (i = 0; i < max_len; i += 2)]: the bytes of each word change places. *)
Fixpoint swap_loop (str : list Z) (i : Z) (n : nat) : list Z :=
  match n with O => str | S n => swap_loop (aset (aset str i (aget 0 str (i + 1))) (i + 1) (aget 0 str i)) (i + 2) n end.

(** [for (i = max_len - 1; i >= 0; i--)]: [n] is [i + 1]. *)
Fixpoint trim_loop (str : list Z) (n : nat) : list Z :=
  match n with
  | O => str
  | S i =>
      let c := aget 0 str (Z.of_nat i) in
      if c =? 32 then trim_loop (aset str (Z.of_nat i) 0) i else if nonzero c then str else trim_loop str i
  end.

Definition ata_fix_string (str : list Z) (max_len : Z) : list Z :=
  trim_loop (aset (swap_loop str 0 (Z.to_nat (max_len / 2))) max_len 0) (Z.to_nat max_len).

(** [for (i = 0; i < n; i++) ident[i] = inw(io + ATA_REG_DATA)]. *)
Fixpoint read_ident (w : W) (io : Z) (n : nat) : W * list Z :=
  match n with
  | O => (w, [])
  | S n => let '(w1, v) := inw w (reg io ATA_REG_DATA) in let '(w2, vs) := read_ident w1 io n in (w2, v :: vs)
  end.

(** The bytes of an array of words. *)
Definition word_bytes (v : Z) : list Z := [v mod 256; v / 256 mod 256].

Definition identify_data (drive : ata_drive_t) (ident : list Z) : ata_drive_t :=
  let id i := aget 0 ident i in
  let lba48 := if nonzero (Z.land (id 83) (Z.shiftl 1 10)) then 1 else 0 in
  let total := if nonzero lba48
    then Z.lor (Z.lor (Z.lor (id 100) (Z.shiftl (id 101) 16)) (Z.shiftl (id 102) 32)) (Z.shiftl (id 103) 48)
    else Z.lor (id 60) (u32 (Z.shiftl (id 61) 16)) in
  let name := take 40 (drop 54 (concat (map word_bytes ident))) in
  AtaDriveT 1 (is_master drive) lba48 (io_base drive) (ctrl_base drive) total
    (ata_fix_string (name ++ drop 40 (model drive)) 40) (drive_name drive).

(** [inb(LBA1) != 0 || inb(LBA2) != 0]: not an ATA disk. *)
Definition foreign (w : W) (io : Z) : W * bool :=
  let '(w1, lba1) := inb w (reg io ATA_REG_LBA1) in
  if nonzero lba1 then (w1, true) else let '(w2, lba2) := inb w1 (reg io ATA_REG_LBA2) in (w2, nonzero lba2).

Definition ata_identify (w : W) (drive : ata_drive_t) : option (W * ata_drive_t * Z) :=
  let io := io_base drive in
  let sel := if nonzero (is_master drive) then ATA_MASTER else ATA_SLAVE in
  let w1 := out_reg w io ATA_REG_HDDEVSEL sel in
  let w2 := out_reg w1 io ATA_REG_SECCOUNT0 0 in
  let w3 := out_reg w2 io ATA_REG_LBA0 0 in
  let w4 := out_reg w3 io ATA_REG_LBA1 0 in
  let w5 := out_reg w4 io ATA_REG_LBA2 0 in
  let w6 := ata_delay (out_reg w5 io ATA_REG_COMMAND ATA_CMD_IDENTIFY) io in
  let '(w7, status) := inb w6 (reg io ATA_REG_STATUS) in
  if status =? 0 then Some (w7, drive, 0)
  else
    '(w8, ready) ← ata_wait_busy w7 io;
    if ready =? 0 then Some (w8, drive, 0)
    else
      let '(w10, other) := foreign w8 io in
      if other : bool then Some (w10, drive, 0)
      else
        '(w11, ready) ← ata_wait_drq w10 io;
        if ready =? 0 then Some (w11, drive, 0)
        else let '(w12, ident) := read_ident w11 io 256 in Some (w12, identify_data drive ident, 1).

(** ** Reading *)

(** The address and the count of a 48-bit, of a 28-bit command. *)
Definition select48 (w : W) (drive : ata_drive_t) (lba count : Z) : W :=
  let io := io_base drive in
  let w1 := out_reg w io ATA_REG_HDDEVSEL (Z.lor 0x40 (if nonzero (is_master drive) then 0 else 0x10)) in
  let w2 := out_reg w1 io ATA_REG_SECCOUNT0 0 in
  let w3 := out_reg w2 io ATA_REG_LBA0 (Z.shiftr lba 24) in
  let w4 := out_reg w3 io ATA_REG_LBA1 (Z.shiftr lba 32) in
  let w5 := out_reg w4 io ATA_REG_LBA2 (Z.shiftr lba 40) in
  let w6 := out_reg w5 io ATA_REG_SECCOUNT0 count in
  let w7 := out_reg w6 io ATA_REG_LBA0 lba in
  let w8 := out_reg w7 io ATA_REG_LBA1 (Z.shiftr lba 8) in
  let w9 := out_reg w8 io ATA_REG_LBA2 (Z.shiftr lba 16) in
  out_reg w9 io ATA_REG_COMMAND ATA_CMD_READ_PIO_EXT.

Definition select28 (w : W) (drive : ata_drive_t) (lba count : Z) : W :=
  let io := io_base drive in
  let w1 := out_reg w io ATA_REG_HDDEVSEL
    (Z.lor (Z.lor 0xE0 (if nonzero (is_master drive) then 0 else 0x10)) (Z.land (Z.shiftr lba 24) 0x0F)) in
  let w2 := out_reg w1 io ATA_REG_SECCOUNT0 count in
  let w3 := out_reg w2 io ATA_REG_LBA0 lba in
  let w4 := out_reg w3 io ATA_REG_LBA1 (Z.shiftr lba 8) in
  let w5 := out_reg w4 io ATA_REG_LBA2 (Z.shiftr lba 16) in
  out_reg w5 io ATA_REG_COMMAND ATA_CMD_READ_PIO.

(** A byte of the caller's buffer. *)
Definition buf_set (buffer : list Z) (i v : Z) : option (list Z) := if (0 <=? i) && (i <? alen buffer) then Some (aset buffer i v) else None.

(** [n] words of a sector to index [pos]. *)
Fixpoint read_words (w : W) (io : Z) (buffer : list Z) (pos : Z) (n : nat) : option (W * list Z) :=
  match n with
  | O => Some (w, buffer)
  | S n =>
      let '(w1, word) := inw w (reg io ATA_REG_DATA) in
      b1 ← buf_set buffer pos (Z.land word 0xFF);
      b2 ← buf_set b1 (pos + 1) (Z.land (Z.shiftr word 8) 0xFF);
      read_words w1 io b2 (pos + 2) n
  end.

(** The body of the loop for sector [i]. *)
Definition read_sector (w : W) (io : Z) (buffer : list Z) (i : Z) : option (W * list Z * Z) :=
  '(w1, ready) ← ata_wait_busy (ata_delay w io) io;
  if ready =? 0 then Some (w1, buffer, 0)
  else
    '(w2, ready) ← ata_wait_drq w1 io;
    if ready =? 0 then Some (w2, buffer, 0)
    else '(w3, b) ← read_words w2 io buffer (i * 512) 256; Some (w3, b, 1).

(** [for (i = ..; i < count; i++)], [n] sectors left. *)
Fixpoint read_loop (w : W) (io : Z) (buffer : list Z) (i : Z) (n : nat) : option (W * list Z * Z) :=
  match n with
  | O => Some (w, buffer, 1)
  | S n => '(w1, b, ok) ← read_sector w io buffer i; if ok =? 0 then Some (w1, b, 0) else read_loop w1 io b (i + 1) n
  end.

Definition ata_read_sectors (w : W) (drive : ata_drive_t) (lba count : Z) (buffer : list Z) : option (W * list Z * Z) :=
  if present drive =? 0 then Some (w, buffer, 0)
  else
    let io := io_base drive in
    '(w1, ready) ← ata_wait_busy w io;
    if ready =? 0 then Some (w1, buffer, 0)
    else
      let w2 := if nonzero (is_lba48 drive) then select48 w1 drive lba count else select28 w1 drive lba count in
      read_loop w2 io buffer 0 (Z.to_nat count).

(** ** The driver *)

Definition PCI_CLASS_STORAGE : Z := 1.
Definition PCI_SUBCLASS_STORAGE_IDE : Z := 1.

Definition ata_probe (pci : pci_device) : Z :=
  if (class_code pci =? PCI_CLASS_STORAGE) && (subclass_code pci =? PCI_SUBCLASS_STORAGE_IDE) then 1 else 0.

(** What the driver calls for each drive it finds: the registration of a block device
    (a name, the index of the drive, the first sector and the number of sectors) and
    the search for partitions. *)
Class BlockLayer (Wd : Type) := {
  bl_register : Wd -> list Z -> Z -> Z -> Z -> option Wd;
  bl_parse : Wd -> list ata_drive_t -> Z -> option Wd }.

Context `{BlockLayer W}.

Definition names : list (list Z) := [txt "hda"; txt "hdb"; txt "hdc"; txt "hdd"].
Definition io_ports : list Z := [ATA_PRIMARY_IO; ATA_PRIMARY_IO; ATA_SECONDARY_IO; ATA_SECONDARY_IO].
Definition ctrl_ports : list Z := [ATA_PRIMARY_CTRL; ATA_PRIMARY_CTRL; ATA_SECONDARY_CTRL; ATA_SECONDARY_CTRL].
Definition is_slave : list Z := [0; 1; 0; 1].

(** The drive before its identification. *)
Definition fresh_drive (i : Z) : ata_drive_t :=
  AtaDriveT 0 (if nonzero (aget 0 is_slave i) then 0 else 1) 0 (aget 0 io_ports i) (aget 0 ctrl_ports i) 0 (replicate 41 0) (aget [] names i).

Definition found_text (d : ata_drive_t) : list Z :=
  drive_name d ++ txt " (" ++ (if nonzero (is_master d) then txt "Master" else txt "Slave") ++ txt "): '" ++ c_str (model d) ++ txt "' | " ++
  numeral false 10 (total_sectors d) ++ txt " sectors" ++ [10].

Definition announce (w : W) (d : ata_drive_t) : W :=
  kprint (kprintf_set_color (kprint (kprintf_set_color w 0x0088FF88 FB_DEFAULT_BG) (txt "[ATA] ")) 0x00CCCCCC FB_DEFAULT_BG) (found_text d).

Fixpoint init_loop (w : W) (drives : list ata_drive_t) (i : Z) (n : nat) : option (W * list ata_drive_t) :=
  match n with
  | O => Some (w, drives)
  | S n =>
      '(w1, d, found) ← ata_identify w (fresh_drive i);
      let drives := aset drives i d in
      if found =? 0 then init_loop w1 drives (i + 1) n
      else
        w2 ← bl_register (announce w1 d) (drive_name d) i 0 (total_sectors d);
        w3 ← bl_parse w2 drives i;
        init_loop w3 drives (i + 1) n
  end.

Definition ata_init (w : W) (drives : list ata_drive_t) : option (W * list ata_drive_t * Z) :=
  '(w1, ds) ← init_loop w drives 0 4; Some (w1, ds, 0).

End ata.
