(* ===== verification/AtaThm.v ===== *)
(** The ATA driver against the protocol of the device: reading gives the bytes of the
    sectors, every wait ends. *)
From stdpp Require Import prelude gmap list strings.
From Stdlib Require Import ZArith Lia.
From S2P Require Import Prelude KHeap Partition Spinlock Printf PrintfThm Framebuffer Pci Hal Ata.

Open Scope Z_scope.

(** ** The protocol of an ATA channel, for the commands that the driver gives *)

(** The address and count registers hold the last two values written. *)
Record taskfile := Task { t_sel : Z; t_count : Z * Z; t_lba0 : Z * Z; t_lba1 : Z * Z; t_lba2 : Z * Z }.

(** Preparing the first of the blocks; transferring the bytes of one; aborted. *)
Inductive phase := Idle | Busy (blocks : list (list Z)) | Data (bytes : list Z) (blocks : list (list Z)) | Failed.

Record device := Device { d_task : taskfile; d_phase : phase }.

(** A disk: identification, number of sectors, contents. *)
Record disk := Disk { u_ident : list Z; u_size : Z; u_sector : Z -> list Z }.

Definition push (r : Z * Z) (v : Z) : Z * Z := (v, r.1).

Definition write_task (t : taskfile) (r v : Z) : taskfile :=
  if r =? 2 then Task (t_sel t) (push (t_count t) v) (t_lba0 t) (t_lba1 t) (t_lba2 t)
  else if r =? 3 then Task (t_sel t) (t_count t) (push (t_lba0 t) v) (t_lba1 t) (t_lba2 t)
  else if r =? 4 then Task (t_sel t) (t_count t) (t_lba0 t) (push (t_lba1 t) v) (t_lba2 t)
  else if r =? 5 then Task (t_sel t) (t_count t) (t_lba0 t) (t_lba1 t) (push (t_lba2 t) v)
  else Task v (t_count t) (t_lba0 t) (t_lba1 t) (t_lba2 t).

Definition task_lba28 (t : taskfile) : Z := (t_lba0 t).1 + 2 ^ 8 * (t_lba1 t).1 + 2 ^ 16 * (t_lba2 t).1 + 2 ^ 24 * (t_sel t mod 16).
Definition task_lba48 (t : taskfile) : Z :=
  (t_lba0 t).1 + 2 ^ 8 * (t_lba1 t).1 + 2 ^ 16 * (t_lba2 t).1 + 2 ^ 24 * (t_lba0 t).2 + 2 ^ 32 * (t_lba1 t).2 + 2 ^ 40 * (t_lba2 t).2.

(** 0 stands for the largest count. *)
Definition task_count28 (t : taskfile) : Z := if (t_count t).1 =? 0 then 256 else (t_count t).1.
Definition task_count48 (t : taskfile) : Z :=
  let n := (t_count t).1 + 256 * (t_count t).2 in if n =? 0 then 65536 else n.

Definition sectors (d : disk) (lba n : Z) : list (list Z) := map (fun i => u_sector d (lba + i)) (seqZ 0 n).

Definition transfer (d : disk) (lba n : Z) : phase := if lba + n <=? u_size d then Busy (sectors d lba n) else Failed.

(** The unit that the selector names; without one a command has no effect. *)
Definition command (units : bool -> option disk) (t : taskfile) (c : Z) : phase :=
  match units (Z.testbit (t_sel t) 4) with
  | None => Idle
  | Some d =>
      if c =? 0xEC then Busy [u_ident d]
      else if c =? 0x20 then transfer d (task_lba28 t) (task_count28 t)
      else if c =? 0x24 then transfer d (task_lba48 t) (task_count48 t)
      else Failed
  end.

(** After the last byte of a block. *)
Definition next_phase (blocks : list (list Z)) : phase := match blocks with [] => Idle | _ => Busy blocks end.

(** What a status read can give, and the phase after it; [there] when the selected
    unit exists. *)
Inductive status_read (there : bool) : phase -> Z -> phase -> Prop :=
| sr_idle s : has_flag s 0x80 = false -> has_flag s 0x08 = false -> (there = false -> s = 0) -> status_read there Idle s Idle
| sr_busy bs s : has_flag s 0x80 = true -> status_read there (Busy bs) s (Busy bs)
| sr_ready b bs s : has_flag s 0x80 = false -> has_flag s 0x08 = true -> status_read there (Busy (b :: bs)) s (Data b bs)
| sr_error bs s : has_flag s 0x80 = false -> has_flag s 0x08 = false -> has_flag s 0x01 = true -> status_read there (Busy bs) s Failed
| sr_data b bs s : has_flag s 0x80 = false -> has_flag s 0x08 = true -> status_read there (Data b bs) s (Data b bs)
| sr_failed s : has_flag s 0x80 = false -> has_flag s 0x08 = false -> has_flag s 0x01 = true -> status_read there Failed s Failed.

(** Operations that the device does not notice. *)
Inductive quiet {W : Type} `{PortMachine W} (io : Z) (w : W) : W -> Prop :=
| q_ticks : quiet io w (pit_get_ticks w).1
| q_wait : quiet io w (outb w 0x80 0)
| q_inb r : 1 <= r <= 5 -> quiet io w (inb w (reg io r)).1
| q_color c b : quiet io w (kprintf_set_color w c b)
| q_print s : quiet io w (kprint w s).

(** A machine with two disks at the ports [io].  Time is measured in cycles: the timer
    counts one tick in [period], an operation takes up to [op_cycles], and a busy
    device is ready or has failed at the time [due], [latency] after the command. *)
Class AtaDevice (W : Type) `{PortMachine W} (io : Z) (units : bool -> option disk) := {
  dev : W -> device;
  cycles : W -> Z;
  due : W -> Z;
  period : Z;
  op_cycles : Z;
  latency : Z;
  ad_period : 0 < period < 2 ^ 40 /\ 0 < op_cycles < 2 ^ 60;
  ad_ticks w : (pit_get_ticks w).2 = u64 (cycles w / period);
  ad_quiet w w' : quiet io w w' -> dev w' = dev w /\ due w' = due w /\ cycles w < cycles w' <= cycles w + op_cycles;
  ad_status w p : p = reg io 7 \/ p = reg io 0x206 ->
    let '(w', s) := inb w p in
    d_task (dev w') = d_task (dev w) /\ due w' = due w /\ cycles w < cycles w' <= cycles w + op_cycles /\
    status_read (bool_decide (is_Some (units (Z.testbit (t_sel (d_task (dev w))) 4)))) (d_phase (dev w)) s (d_phase (dev w')) /\
    (has_flag s 0x80 = true -> cycles w < due w);
  ad_task w r v : 2 <= r <= 6 -> d_phase (dev w) = Idle -> dev (outb w (reg io r) v) = Device (write_task (d_task (dev w)) r v) Idle;
  ad_command w c : d_phase (dev w) = Idle ->
    let w' := outb w (reg io 7) c in dev w' = Device (d_task (dev w)) (command units (d_task (dev w)) c) /\ due w' <= cycles w' + latency;
  ad_lba w r : 4 <= r <= 5 -> (exists b bs, d_phase (dev w) = Data b bs) ->
    (inb w (reg io r)).2 = (if r =? 4 then t_lba1 (d_task (dev w)) else t_lba2 (d_task (dev w))).1;
  ad_data w b0 b1 b bs : d_phase (dev w) = Data (b0 :: b1 :: b) bs ->
    let '(w', v) := inw w (reg io 0) in
    v = b0 + 256 * b1 /\ dev w' = Device (d_task (dev w)) (match b with [] => next_phase bs | _ => Data b bs end) /\
    due w' <= cycles w' + latency }.

(** [bytes] over a buffer at an index. *)
Definition overwrite (buf : list Z) (pos : Z) (bytes : list Z) : list Z :=
  take (Z.to_nat pos) buf ++ bytes ++ drop (Z.to_nat pos + length bytes) buf.

Lemma overwrite_nil buf pos : overwrite buf pos [] = buf.
Proof. unfold overwrite. cbn [length app]. rewrite Nat.add_0_r. apply take_drop. Qed.

Lemma alen_overwrite buf pos bytes : 0 <= pos -> pos + alen bytes <= alen buf -> alen (overwrite buf pos bytes) = alen buf.
Proof. unfold overwrite, alen. intros. rewrite !length_app, length_take, length_drop. lia. Qed.

Lemma overwrite_app buf pos x y : 0 <= pos -> pos + alen x + alen y <= alen buf ->
  overwrite (overwrite buf pos x) (pos + alen x) y = overwrite buf pos (x ++ y).
Proof.
  unfold overwrite, alen. intros Hp Hl. rewrite !length_app.
  replace (Z.to_nat (pos + Z.of_nat (length x))) with (Z.to_nat pos + length x)%nat by lia.
  rewrite (app_assoc (take _ buf) x). rewrite take_app_length' by (rewrite length_app, length_take; lia).
  rewrite (drop_app_ge (take _ buf ++ x)) by (rewrite length_app, length_take; lia). rewrite drop_drop, <- !app_assoc. do 4 f_equal.
  rewrite length_app, length_take. lia.
Qed.

Lemma aset_overwrite buf pos b : 0 <= pos < alen buf -> buf_set buf pos b = Some (overwrite buf pos [b]).
Proof.
  intros Hp. unfold buf_set. rewrite (proj2 (Z.leb_le 0 pos)), (proj2 (Z.ltb_lt pos _)) by lia. cbn [andb]. f_equal.
  unfold aset, overwrite, alen in *. rewrite insert_take_drop by lia. cbn [length app]. by rewrite Nat.add_1_r.
Qed.

(** Blocks of bytes. *)
Definition block_ok (n : Z) (b : list Z) : Prop := alen b = n /\ Forall (fun c => 0 <= c < 256) b.

Section proofs.
Context {W : Type} `{AtaDevice W}.
Implicit Types (w : W).

(** The clock's resolution is too coarse for the time-outs. *)
Definition slow : Prop := 5000 * period < latency + op_cycles.

(** Rounds after which every wait has ended. *)
Definition enough (fuel : nat) : Prop := 5003 * period <= Z.of_nat fuel.

(** Phases that status reads lead to. *)
Definition later (p p' : phase) : Prop :=
  p' = p \/ match p with Busy (b :: bs) => p' = Data b bs \/ p' = Failed | Busy [] => p' = Failed | _ => False end.

Lemma status_later t p s p' : status_read t p s p' -> later p p'.
Proof. intros []; try (by left); right; [by left|]. destruct bs; [done|by right]. Qed.

Lemma read_data t b bs s p' : status_read t (Data b bs) s p' -> has_flag s 0x08 = true /\ p' = Data b bs.
Proof. by inversion 1. Qed.

Lemma read_failed t s p' : status_read t Failed s p' -> has_flag s 0x08 = false /\ has_flag s 0x01 = true /\ p' = Failed.
Proof. by inversion 1. Qed.

Lemma later_trans p1 p2 p3 : later p1 p2 -> later p2 p3 -> later p1 p3.
Proof.
  intros [->|L1] L2; [done|]. destruct p1 as [|[|b bs]| |]; try done.
  - subst. destruct L2 as [->|[]]. by right.
  - destruct L1 as [->| ->]; (destruct L2 as [->|[]]; right); [by left|by right].
Qed.

(** [w'] is [w] some time later, the device still in the same command. *)
Definition waits (w w' : W) : Prop :=
  d_task (dev w') = d_task (dev w) /\ due w' = due w /\ cycles w <= cycles w' /\ later (d_phase (dev w)) (d_phase (dev w')).

Lemma waits_refl w : waits w w.
Proof. repeat split; [lia|by left]. Qed.

Lemma waits_trans w1 w2 w3 : waits w1 w2 -> waits w2 w3 -> waits w1 w3.
Proof. intros (T1 & D1 & C1 & L1) (T2 & D2 & C2 & L2). split_and!; [congruence|congruence|lia|by eapply later_trans]. Qed.

Lemma quiet_waits w w' : quiet io w w' -> waits w w' /\ cycles w < cycles w' <= cycles w + op_cycles.
Proof. intros (E & D & C)%ad_quiet. split; [|done]. unfold waits. rewrite E. split_and!; [done|done|lia|by left]. Qed.

Lemma status_waits w p : p = reg io 7 \/ p = reg io 0x206 -> waits w (inb w p).1.
Proof. intros Hp. pose proof (ad_status w p Hp) as A. destruct (inb w p) as [w' s]. destruct A as (T & D & C & S & _). cbn [fst]. split_and!; [done|done|lia|by eapply status_later]. Qed.

Lemma delay_waits w : waits w (ata_delay w io).
Proof. unfold ata_delay. do 3 (eapply waits_trans; [apply status_waits; by right|]). apply status_waits. by right. Qed.

Lemma complaint_waits w s : waits w (complaint w s).
Proof. unfold complaint. eapply waits_trans; [apply quiet_waits, q_color|apply quiet_waits, q_print]. Qed.

(** *** Waiting *)

Lemma elapsed_ticks c0 c : c0 <= c < c0 + 2 ^ 63 -> u64 (u64 (c / period) - u64 (c0 / period)) = c / period - c0 / period.
Proof.
  intros Hc. destruct ad_period as [Hp _]. unfold wrap. rewrite <- Zminus_mod. apply Z.mod_small.
  split; [apply Zle_minus_le_0, Z.div_le_mono; lia|]. assert (c / period <= c0 / period + 2 ^ 63); [|lia].
  rewrite <- Z.div_add by lia. apply Z.div_le_mono; [lia|]. nia.
Qed.

(** At the check of the time-out, [c0] being the time of the start. *)
Lemma timeout_check w c0 : c0 <= cycles w < c0 + 2 ^ 63 ->
  (5000 <? u64 ((pit_get_ticks w).2 - u64 (c0 / period))) = (5000 <? cycles w / period - c0 / period).
Proof. intros Hc. rewrite ad_ticks. by rewrite elapsed_ticks. Qed.

Lemma ticks_bounds c : period * (c / period) <= c < period * (c / period) + period.
Proof. destruct ad_period as [Hp _]. revert Hp. generalize period. intros p Hp. pose proof (Z.div_mod c p). pose proof (Z.mod_pos_bound c p). lia. Qed.

Lemma not_timed_out c0 c : (5000 <? c / period - c0 / period) = false -> c < c0 + 5002 * period.
Proof.
  intros E%Z.ltb_ge. destruct ad_period as [Hp _]. pose proof (ticks_bounds c). pose proof (ticks_bounds c0).
  assert (period * (c / period - c0 / period) <= period * 5000) by (apply Z.mul_le_mono_nonneg_l; lia). lia.
Qed.

Lemma timed_out c0 c : 5000 < c / period - c0 / period -> 5000 * period < c - c0.
Proof.
  intros E. destruct ad_period as [Hp _]. pose proof (ticks_bounds c). pose proof (ticks_bounds c0).
  assert (period * 5001 <= period * (c / period - c0 / period)) by (apply Z.mul_le_mono_nonneg_l; lia). lia.
Qed.

(** A device that is busy has been given its latency. *)
Definition timely (w : W) : Prop := forall bs, d_phase (dev w) = Busy bs -> due w <= cycles w + latency.

Lemma later_busy p bs : later p (Busy bs) -> p = Busy bs.
Proof. intros [E|L]; [done|]. destruct p as [|[|b l]| |]; try done. by destruct L. Qed.

Lemma waits_timely w w' : waits w w' -> timely w -> timely w'.
Proof. intros (_ & D & C & L) T bs E. rewrite E in L. apply later_busy in L. specialize (T bs L). lia. Qed.

Definition settled (w : W) : Prop := forall bs, d_phase (dev w) <> Busy bs.

Lemma busy_loop_spec n : forall w c0, timely w -> c0 <= cycles w < c0 + 5002 * period + 2 ^ 61 -> (forall bs, d_phase (dev w) = Busy bs -> due w <= c0 + latency) ->
  c0 + 5002 * period <= cycles w + Z.of_nat n -> (1 <= n)%nat ->
  exists w' r, busy_loop w io (u64 (c0 / period)) n = Some (w', r) /\ waits w w' /\ ((r = 1 /\ settled w') \/ (r = 0 /\ slow)).
Proof.
  induction n as [|n IH]; intros w c0 T Hc Hd Hn H1; [lia|]. cbn [busy_loop].
  pose proof (ad_status w (reg io 7) (or_introl eq_refl)) as A. pose proof (status_waits w (reg io 7) (or_introl eq_refl)) as Q.
  change (ATA_REG_STATUS) with 7. destruct (inb w (reg io 7)) as [w1 s]. cbn [fst] in Q. destruct A as (_ & _ & C & S & B).
  change ATA_SR_BSY with 0x80. destruct (has_flag s 0x80) eqn:Ef.
  - specialize (B eq_refl). pose proof (quiet_waits w1 _ (q_ticks io w1)) as [Q2 C2].
    pose proof (timeout_check w1 c0) as Et. destruct (pit_get_ticks w1) as [w2 now]. cbn [fst snd] in Q2, C2, Et.
    destruct ad_period as [Hp Ho].
    rewrite Et by lia. destruct (5000 <? cycles w1 / period - c0 / period) eqn:E.
    + exists (complaint w2 (txt "[ATA] Timeout waiting for BSY to clear")), 0. split; [done|]. split; [eapply waits_trans; [exact Q|eapply waits_trans; [exact Q2|apply complaint_waits]]|].
      right. split; [done|]. unfold slow. apply Z.ltb_lt in E. pose proof (timed_out c0 (cycles w1) E).
      assert (exists bs, d_phase (dev w) = Busy bs) as [bs Eb]; [|specialize (Hd bs Eb); lia].
      inversion S; try congruence. by eexists.
    + apply not_timed_out in E. pose proof (quiet_waits w2 _ (q_wait io w2)) as [Q3 C3]. unfold io_wait.
      assert (Q03 : waits w (outb w2 0x80 0)) by (eapply waits_trans; [exact Q|by eapply waits_trans]).
      destruct (IH (outb w2 0x80 0) c0) as (w' & r & -> & Q' & R); [by eapply waits_timely|lia| |lia|lia|].
      { intros bs Eb. destruct Q03 as (_ & Ed & _ & L). rewrite Eb in L. apply later_busy in L. specialize (Hd bs L). lia. }
      exists w', r. split; [done|]. split; [by eapply waits_trans|done].
  - exists w1, 1. split; [done|]. split; [done|]. left. split; [done|]. intros bs Eb. rewrite Eb in S. inversion S; congruence.
Qed.

Context (fuel : nat) (Hfuel : enough fuel).

Lemma wait_busy_spec w : timely w -> exists w' r, ata_wait_busy fuel w io = Some (w', r) /\ waits w w' /\ ((r = 1 /\ settled w') \/ (r = 0 /\ slow)).
Proof.
  intros T. unfold ata_wait_busy. pose proof (quiet_waits w _ (q_ticks io w)) as [Q C]. pose proof (ad_ticks w) as Et.
  destruct (pit_get_ticks w) as [w1 start]. cbn [fst snd] in Q, C, Et. rewrite Et. destruct ad_period as [Hp Ho]. unfold enough in Hfuel.
  destruct (busy_loop_spec fuel w1 (cycles w)) as (w' & r & -> & Q' & R); [by eapply waits_timely|lia| |lia|lia|].
  - intros bs E. destruct Q as (_ & Ed & _ & L). rewrite E in L. apply later_busy in L. rewrite Ed. by apply (T bs).
  - exists w', r. split; [done|]. split; [by eapply waits_trans|done].
Qed.

(** A device that is not busy answers the second wait at once. *)
Lemma wait_drq_spec w : (exists b bs, d_phase (dev w) = Data b bs) \/ d_phase (dev w) = Failed ->
  exists w' r, ata_wait_drq fuel w io = Some (w', r) /\ waits w w' /\ d_phase (dev w') = d_phase (dev w) /\
    r = match d_phase (dev w) with Data _ _ => 1 | _ => 0 end.
Proof.
  intros Hph. unfold ata_wait_drq. pose proof (ad_quiet w _ (q_ticks io w)) as (Ed & _ & _). pose proof (quiet_waits w _ (q_ticks io w)) as [Q _].
  destruct (pit_get_ticks w) as [w1 start]. cbn [fst snd] in Q, Ed. rewrite <- Ed in Hph |- *. unfold enough in Hfuel. destruct ad_period as [Hp Ho].
  destruct fuel as [|n]; [lia|]. cbn [drq_loop].
  pose proof (ad_status w1 (reg io 7) (or_introl eq_refl)) as A. pose proof (status_waits w1 (reg io 7) (or_introl eq_refl)) as Q1.
  change (ATA_REG_STATUS) with 7. destruct (inb w1 (reg io 7)) as [w2 s]. cbn [fst] in Q1. destruct A as (_ & _ & _ & S & _).
  change ATA_SR_DRQ with 0x08. destruct Hph as [(b & bs & E)|E]; rewrite E in S |- *.
  - apply read_data in S as [-> E2]. exists w2, 1. split; [done|]. split; [by eapply waits_trans|done].
  - apply read_failed in S as (-> & _ & E2).
    pose proof (ad_status w2 (reg io 7) (or_introl eq_refl)) as A2. pose proof (status_waits w2 (reg io 7) (or_introl eq_refl)) as Q2.
    destruct (inb w2 (reg io 7)) as [w3 s2]. cbn [fst] in Q2. destruct A2 as (_ & _ & _ & S2 & _). rewrite E2 in S2.
    apply read_failed in S2 as (_ & Ef & E3). change ATA_SR_ERR with 0x01. rewrite Ef. change ATA_REG_ERROR with 1.
    pose proof (quiet_waits w3 _ (q_inb io w3 1 ltac:(lia))) as [Q3 _]. destruct (inb w3 (reg io 1)) as [w4 err]. cbn [fst] in Q3.
    eexists _, 0. split; [reflexivity|]. assert (Hw : waits w3 (complaint w4 (error_text s2 err))) by (eapply waits_trans; [exact Q3|apply complaint_waits]).
    split; [eapply waits_trans; [exact Q|]; eapply waits_trans; [exact Q1|]; by eapply waits_trans|].
    split; [|done]. destruct Hw as (_ & _ & _ & L). rewrite E3 in L. by destruct L as [|[]].
Qed.

(** *** Transferring a block *)

Lemma word_split b0 b1 : 0 <= b0 < 256 -> 0 <= b1 < 256 -> Z.land (b0 + 256 * b1) 0xFF = b0 /\ Z.land (Z.shiftr (b0 + 256 * b1) 8) 0xFF = b1.
Proof.
  intros R0 R1. change 0xFF with (Z.ones 8). rewrite !Z.land_ones, Z.shiftr_div_pow2 by lia. change (2 ^ 8) with 256. split; [|rewrite Z.mod_small]; zmod.
Qed.

Lemma two_bytes {A} buf pos b0 b1 (k : list Z -> option A) : 0 <= pos -> pos + 2 <= alen buf ->
  (x ← buf_set buf pos b0; y ← buf_set x (pos + 1) b1; k y) = k (overwrite buf pos [b0; b1]).
Proof.
  intros Hp Hr. rewrite aset_overwrite by lia. cbn [mbind option_bind].
  rewrite aset_overwrite by (rewrite alen_overwrite; [lia|lia|change (alen [b0]) with 1; lia]). cbn [mbind option_bind].
  change (pos + 1) with (pos + alen [b0]). rewrite overwrite_app; [done|lia|change (alen [b0]) with 1; change (alen [b1]) with 1; lia].
Qed.

Lemma data_timely w b0 b1 b bs : d_phase (dev w) = Data (b0 :: b1 :: b) bs -> timely (inw w (reg io 0)).1.
Proof. intros E. pose proof (ad_data w b0 b1 b bs E) as A. destruct (inw w (reg io 0)) as [w1 v]. destruct A as (_ & _ & T). by intros bs2 _. Qed.

Lemma read_words_S w buf pos n : read_words w io buf pos (S n) =
  (let '(w1, word) := inw w (reg io 0) in
   b1 ← buf_set buf pos (Z.land word 0xFF); b2 ← buf_set b1 (pos + 1) (Z.land (Z.shiftr word 8) 0xFF); read_words w1 io b2 (pos + 2) n).
Proof. done. Qed.

Lemma read_words_spec n : forall w b bs buf pos, d_phase (dev w) = Data b bs -> block_ok (2 * Z.of_nat (S n)) b -> 0 <= pos -> pos + alen b <= alen buf ->
  exists w', read_words w io buf pos (S n) = Some (w', overwrite buf pos b) /\ d_phase (dev w') = next_phase bs /\ d_task (dev w') = d_task (dev w) /\ timely w'.
Proof.
  induction n as [|n IH]; intros w b bs buf pos E [Hl Hb] Hp Hfit; destruct b as [|b0 [|b1 b]]; unfold alen in Hl; cbn [length] in Hl; try lia.
  all: apply Forall_cons in Hb as [R0 Hb]; apply Forall_cons in Hb as [R1 Hb]; destruct (word_split b0 b1 R0 R1) as [W0 W1].
  all: assert (Hroom : pos + 2 <= alen buf) by (revert Hfit; unfold alen; cbn [length]; lia).
  all: rewrite read_words_S; pose proof (ad_data w b0 b1 b bs E) as A; pose proof (data_timely w b0 b1 b bs E) as T.
  all: destruct (inw w (reg io 0)) as [w1 v]; destruct A as (-> & Ed & _); cbn [fst] in T; rewrite W0, W1.
  all: rewrite (two_bytes buf pos b0 b1) by lia.
  - destruct b; [|cbn in Hl; lia]. exists w1. by rewrite Ed.
  - destruct b as [|b2 b]; [cbn in Hl; lia|]. destruct (IH w1 (b2 :: b) bs (overwrite buf pos [b0; b1]) (pos + 2)) as (w' & -> & E' & T' & Ti).
    + by rewrite Ed.
    + split; [unfold alen; cbn [length] in *; lia|done].
    + lia.
    + rewrite alen_overwrite; unfold alen in *; cbn [length] in *; lia.
    + exists w'. change (pos + 2) with (pos + alen [b0; b1]). rewrite overwrite_app by (unfold alen in *; cbn [length] in *; lia).
      split; [done|]. split; [done|]. split; [|done]. by rewrite T', Ed.
Qed.

(** A sector: read whole, or the device has failed or is too slow. *)
Lemma read_sector_spec w b bs buf i : d_phase (dev w) = Busy (b :: bs) -> timely w -> block_ok 512 b -> 0 <= i -> i * 512 + 512 <= alen buf ->
  exists w' buf' ok, read_sector fuel w io buf i = Some (w', buf', ok) /\
    ((ok = 1 /\ buf' = overwrite buf (i * 512) b /\ d_phase (dev w') = next_phase bs /\ timely w') \/
     (ok = 0 /\ buf' = buf /\ (d_phase (dev w') = Failed \/ slow))).
Proof.
  intros E T Hb Hi Hfit. unfold read_sector. pose proof (delay_waits w) as Qd. pose proof (waits_timely _ _ Qd T) as Td.
  destruct (wait_busy_spec (ata_delay w io) Td) as (w1 & r & -> & Q1 & R). cbn [mbind option_bind].
  destruct R as [[-> Hs]|[-> Hslow]]; [|exists w1, buf, 0; split; [done|right; auto]]. cbn [Z.eqb].
  assert (Hph : d_phase (dev w1) = Data b bs \/ d_phase (dev w1) = Failed).
  { pose proof (waits_trans _ _ _ Qd Q1) as (_ & _ & _ & L). rewrite E in L. destruct L as [L|L]; [by apply Hs in L|done]. }
  destruct (wait_drq_spec w1) as (w2 & r & -> & Q2 & E2 & ->); [destruct Hph; eauto|]. cbn [mbind option_bind].
  destruct Hph as [Ed|Ed]; rewrite Ed in E2 |- *; cbn [Z.eqb]; [|exists w2, buf, 0; split; [done|right; auto]].
  destruct (read_words_spec 255 w2 b bs buf (i * 512)) as (w3 & -> & E3 & _ & T3); [done|done|lia|destruct Hb; lia|]. cbn [mbind option_bind].
  exists w3, (overwrite buf (i * 512) b), 1. split; [done|]. by left.
Qed.

Lemma read_failed_sector w buf i : d_phase (dev w) = Failed -> exists w', read_sector fuel w io buf i = Some (w', buf, 0) /\ (d_phase (dev w') = Failed \/ slow).
Proof.
  intros E. unfold read_sector. pose proof (delay_waits w) as Qd. assert (T : timely w) by (intros bs; by rewrite E).
  destruct (wait_busy_spec (ata_delay w io) (waits_timely _ _ Qd T)) as (w1 & r & -> & Q1 & R). cbn [mbind option_bind].
  destruct R as [[-> Hs]|[-> Hslow]]; [|exists w1; auto]. cbn [Z.eqb].
  assert (E1 : d_phase (dev w1) = Failed) by (pose proof (waits_trans _ _ _ Qd Q1) as (_ & _ & _ & L); rewrite E in L; by destruct L as [|[]]).
  destruct (wait_drq_spec w1) as (w2 & r & -> & Q2 & E2 & ->); [auto|]. cbn [mbind option_bind]. rewrite E1 in E2 |- *. exists w2. auto.
Qed.

Lemma ata_read_loop_spec blocks : forall w buf i, d_phase (dev w) = next_phase blocks -> timely w -> Forall (block_ok 512) blocks -> 0 <= i ->
  i * 512 + 512 * alen blocks <= alen buf ->
  exists w' buf' ok, read_loop fuel w io buf i (length blocks) = Some (w', buf', ok) /\ alen buf' = alen buf /\
    ((ok = 1 /\ buf' = overwrite buf (i * 512) (concat blocks) /\ d_phase (dev w') = Idle) \/ (ok = 0 /\ (d_phase (dev w') = Failed \/ slow))).
Proof.
  induction blocks as [|b bs IH]; intros w buf i E T Hb Hi Hfit; cbn [length read_loop].
  - exists w, buf, 1. split; [done|]. split; [done|]. left. cbn [concat]. by rewrite overwrite_nil.
  - apply Forall_cons in Hb as [Hb Hbs]. unfold alen in Hfit. cbn [length] in Hfit.
    destruct (read_sector_spec w b bs buf i E T Hb Hi) as (w1 & buf1 & ok & -> & R); [unfold alen; lia|]. cbn [mbind option_bind].
    destruct R as [(-> & -> & E1 & T1)|(-> & -> & R)]; cbn [Z.eqb]; [|exists w1, buf, 0; auto].
    assert (Hov : alen (overwrite buf (i * 512) b) = alen buf) by (apply alen_overwrite; [lia|destruct Hb; unfold alen in *; lia]).
    destruct (IH w1 (overwrite buf (i * 512) b) (i + 1)) as (w' & buf' & ok & -> & Hl & R); [done|done|done|lia|rewrite Hov; unfold alen; lia|].
    exists w', buf', ok. split; [done|]. split; [congruence|]. destruct R as [(-> & -> & E2)|R]; [left|by right]. split; [done|]. split; [|done].
    cbn [concat]. replace ((i + 1) * 512) with (i * 512 + alen b) by (destruct Hb; lia).
    apply overwrite_app; [lia|]. rewrite (concat_size 512 bs) by (by eapply Forall_impl; [exact Hbs|intros ? []]). destruct Hb. unfold alen in *. lia.
Qed.

(** *** Giving the command *)

Lemma out_task w t r v : (2 <=? r) && (r <=? 6) = true -> dev w = Device t Idle -> dev (out_reg w io r v) = Device (write_task t r (u8 v)) Idle.
Proof. intros Hr E. unfold out_reg. rewrite ad_task; [by rewrite E|lia|by rewrite E]. Qed.

Lemma idle_device w : d_phase (dev w) = Idle -> dev w = Device (d_task (dev w)) Idle.
Proof. destruct (dev w). by cbn; intros ->. Qed.

Lemma lba_bytes lba k : 0 <= k -> u8 (Z.shiftr lba k) = lba / 2 ^ k mod 256.
Proof. intros. unfold wrap. by rewrite Z.shiftr_div_pow2. Qed.

(** The registers after a sequence of writes. *)
Ltac registers E := etransitivity; [repeat (eapply out_task; [reflexivity|]); exact (idle_device _ E)|reflexivity].

Lemma bytes28 lba : 0 <= lba < 2 ^ 28 ->
  lba mod 256 + 2 ^ 8 * (lba / 2 ^ 8 mod 256) + 2 ^ 16 * (lba / 2 ^ 16 mod 256) + 2 ^ 24 * (lba / 2 ^ 24 mod 16) = lba.
Proof. intros. zmod. Qed.

Lemma bytes48 lba : 0 <= lba < 2 ^ 48 ->
  lba mod 256 + 2 ^ 8 * (lba / 2 ^ 8 mod 256) + 2 ^ 16 * (lba / 2 ^ 16 mod 256) +
  2 ^ 24 * (lba / 2 ^ 24 mod 256) + 2 ^ 32 * (lba / 2 ^ 32 mod 256) + 2 ^ 40 * (lba / 2 ^ 40 mod 256) = lba.
Proof. intros. zmod. Qed.

Lemma selector (b : bool) x : 0 <= x < 16 ->
  u8 (Z.lor (Z.lor 0xE0 (if b then 0 else 0x10)) x) mod 16 = x /\ Z.testbit (u8 (Z.lor (Z.lor 0xE0 (if b then 0 else 0x10)) x)) 4 = negb b.
Proof.
  intros Hx. assert (x = 0 \/ x = 1 \/ x = 2 \/ x = 3 \/ x = 4 \/ x = 5 \/ x = 6 \/ x = 7 \/ x = 8 \/ x = 9 \/ x = 10 \/ x = 11 \/ x = 12 \/ x = 13 \/ x = 14 \/ x = 15)
    as Hc by lia. by destruct_or! Hc; subst; destruct b.
Qed.

(** The unit of a drive, and the addresses its commands can express. *)
Definition unit_of (d : ata_drive_t) : option disk := units (negb (nonzero (is_master d))).
Definition reach (d : ata_drive_t) : Z := if nonzero (is_lba48 d) then 2 ^ 48 else 2 ^ 28.

(** Both commands transfer [count] sectors from [lba]. *)
Lemma select_spec w d u lba count : d_phase (dev w) = Idle -> io_base d = io -> unit_of d = Some u -> 0 <= lba < reach d -> 1 <= count < 256 ->
  let w' := if nonzero (is_lba48 d) then select48 w d lba count else select28 w d lba count in
  d_phase (dev w') = transfer u lba count /\ due w' <= cycles w' + latency.
Proof.
  intros E Eio Eu Hlba Hc. unfold reach, unit_of in *. destruct (nonzero (is_lba48 d)); cbv zeta; [unfold select48|unfold select28]; rewrite Eio.
  - match goal with |- context [out_reg ?w0 io ATA_REG_COMMAND _] => set (w9 := w0) end.
    assert (E9 : dev w9 = Device (Task (u8 (Z.lor 0x40 (if nonzero (is_master d) then 0 else 0x10))) (u8 count, 0)
      (u8 lba, lba / 2 ^ 24 mod 256) (lba / 2 ^ 8 mod 256, lba / 2 ^ 32 mod 256) (lba / 2 ^ 16 mod 256, lba / 2 ^ 40 mod 256)) Idle).
    { subst w9. rewrite <- !lba_bytes by lia. registers E. }
    pose proof (ad_command w9 (u8 ATA_CMD_READ_PIO_EXT)) as [Ec Ed]; [by rewrite E9|]. unfold out_reg. change ATA_REG_COMMAND with 7. split; [|exact Ed].
    rewrite Ec, E9. unfold command. cbn [d_phase d_task t_sel]. replace (Z.testbit _ 4) with (negb (nonzero (is_master d))) by (by destruct (nonzero (is_master d))).
    rewrite Eu. change (u8 ATA_CMD_READ_PIO_EXT) with 0x24. cbn [Z.eqb Pos.eqb]. unfold task_lba48, task_count48. cbn [t_lba0 t_lba1 t_lba2 t_count fst snd].
    unfold wrap. change (2 ^ 8) with 256 at 1. rewrite bytes48 by lia. rewrite (Z.mod_small count) by lia. rewrite (proj2 (Z.eqb_neq _ 0)) by lia. f_equal. lia.
  - match goal with |- context [out_reg ?w0 io ATA_REG_COMMAND _] => set (w9 := w0) end.
    assert (E9 : exists c1 a1 a2 a3, dev w9 = Device (Task (u8 (Z.lor (Z.lor 0xE0 (if nonzero (is_master d) then 0 else 0x10)) (lba / 2 ^ 24 mod 16))) (u8 count, c1)
      (u8 lba, a1) (lba / 2 ^ 8 mod 256, a2) (lba / 2 ^ 16 mod 256, a3)) Idle).
    { subst w9. rewrite <- !lba_bytes by lia. eexists _, _, _, _.
      replace (lba / 2 ^ 24 mod 16) with (Z.land (Z.shiftr lba 24) 0x0F) by (change 0x0F with (Z.ones 4); by rewrite Z.land_ones, Z.shiftr_div_pow2 by lia).
      registers E. }
    destruct E9 as (c1 & a1 & a2 & a3 & E9).
    pose proof (ad_command w9 (u8 ATA_CMD_READ_PIO)) as [Ec Ed]; [by rewrite E9|]. unfold out_reg. change ATA_REG_COMMAND with 7. split; [|exact Ed].
    rewrite Ec, E9. unfold command. cbn [d_phase d_task t_sel].
    destruct (selector (nonzero (is_master d)) (lba / 2 ^ 24 mod 16)) as [S1 S2]; [apply Z.mod_pos_bound; lia|]. rewrite S2, Eu.
    change (u8 ATA_CMD_READ_PIO) with 0x20. cbn [Z.eqb Pos.eqb]. unfold task_lba28, task_count28. cbn [t_sel t_lba0 t_lba1 t_lba2 t_count fst snd].
    rewrite S1. unfold wrap. change (2 ^ 8) with 256 at 1. rewrite bytes28 by lia. rewrite (Z.mod_small count) by lia. by rewrite (proj2 (Z.eqb_neq _ 0)) by lia.
Qed.

(** The sector reader that Partition and the file systems are proved against. *)
Definition ata_disks (table : gmap Z ata_drive_t) : DiskDrivers := {|
  drives := (fun d => AtaDrive DISK_TYPE_ATA (nonzero (present d)) (drive_name d)) <$> table;
  Partition.ata_read_sectors i lba n :=
    d ← table !! i; u ← unit_of d; if lba + n <=? u_size u then Some (concat (sectors u lba n)) else None;
  ahci_read_sectors _ _ _ := None |}.

(** C23.  Reading ends, whatever the device does and however long it takes.  It
    succeeds only with exactly the bytes of the requested sectors, which are those of
    the reader that the file systems rely on, at the head of the buffer; it fails
    only when the device has aborted the command, as it does behind its end, or is
    slower than the time-out. *)
Theorem ata_read_sectors_correct table i w d u lba count buf : table !! i = Some d -> present d <> 0 -> io_base d = io -> unit_of d = Some u ->
  (forall k, block_ok 512 (u_sector u k)) -> d_phase (dev w) = Idle -> 0 <= lba < reach d -> 1 <= count < 256 -> 512 * count <= alen buf ->
  exists w' buf' r, ata_read_sectors fuel w d lba count buf = Some (w', buf', r) /\ alen buf' = alen buf /\
    ((r = 1 /\ d_phase (dev w') = Idle /\ exists bytes, Partition.ata_read_sectors (DiskDrivers := ata_disks table) i lba count = Some bytes /\
        alen bytes = 512 * count /\ buf' = bytes ++ drop (length bytes) buf) \/
     (r = 0 /\ (d_phase (dev w') = Failed \/ slow))).
Proof.
  intros Et Hpr Eio Eu Hs E Hlba Hc Hfit. unfold ata_read_sectors. rewrite (proj2 (Z.eqb_neq _ 0) Hpr), Eio.
  assert (T : timely w) by (intros bs; by rewrite E).
  destruct (wait_busy_spec w T) as (w1 & r & -> & Q & R). cbn [mbind option_bind].
  destruct R as [[-> _]|[-> Hslow]]; cbn [Z.eqb]; [|exists w1, buf, 0; auto 7].
  assert (E1 : d_phase (dev w1) = Idle) by (destruct Q as (_ & _ & _ & L); rewrite E in L; by destruct L as [|[]]).
  destruct (select_spec w1 d u lba count E1 Eio Eu Hlba Hc) as [E2 T2]. cbv zeta in E2, T2.
  set (w2 := if nonzero (is_lba48 d) then select48 w1 d lba count else select28 w1 d lba count) in *.
  unfold transfer in E2. cbn [ata_disks Partition.ata_read_sectors]. rewrite Et. cbn [mbind option_bind]. rewrite Eu. cbn [mbind option_bind].
  destruct (lba + count <=? u_size u).
  - assert (Hlen : length (sectors u lba count) = Z.to_nat count) by (unfold sectors; by rewrite length_map, length_seqZ).
    assert (Hok : Forall (block_ok 512) (sectors u lba count)) by (apply Forall_map, Forall_true; intros; apply Hs).
    rewrite <- Hlen. destruct (ata_read_loop_spec (sectors u lba count) w2 buf 0) as (w' & buf' & r & -> & Hl & R).
    + rewrite E2. unfold next_phase. destruct (sectors u lba count); [cbn in Hlen; lia|done].
    + by intros bs _.
    + done.
    + lia.
    + unfold alen at 1. rewrite Hlen. lia.
    + exists w', buf', r. split; [done|]. split; [done|]. destruct R as [(-> & -> & E3)|R]; [left|by right]. split; [done|]. split; [done|].
      eexists. split; [done|]. split; [|done]. rewrite (concat_size 512) by (by eapply Forall_impl; [exact Hok|intros ? []]). unfold alen. rewrite Hlen. lia.
  - destruct (Z.to_nat count) as [|n] eqn:En; [lia|]. cbn [read_loop]. destruct (read_failed_sector w2 buf 0 E2) as (w' & -> & R).
    cbn [mbind option_bind Z.eqb]. exists w', buf, 0. auto.
Qed.

(** *** Identification *)

Fixpoint pair_words (b : list Z) : list Z := match b with b0 :: b1 :: r => (b0 + 256 * b1) :: pair_words r | _ => [] end.

Lemma pair_words_bytes b n : block_ok (2 * Z.of_nat n) b -> concat (map word_bytes (pair_words b)) = b.
Proof.
  revert b. induction n as [|n IH]; intros [|b0 [|b1 b]] [Hl Hb]; unfold alen in Hl; cbn [length] in Hl; try lia; [done|].
  apply Forall_cons in Hb as [R0 Hb]. apply Forall_cons in Hb as [R1 Hb]. cbn [pair_words map concat word_bytes app].
  replace ((b0 + 256 * b1) mod 256) with b0 by zmod. replace ((b0 + 256 * b1) / 256 mod 256) with b1 by (rewrite Z.mod_small; zmod).
  f_equal. f_equal. apply IH. split; [unfold alen; lia|done].
Qed.

Lemma read_ident_S w n : read_ident w io (S n) = (let '(w1, v) := inw w (reg io 0) in let '(w2, vs) := read_ident w1 io n in (w2, v :: vs)).
Proof. done. Qed.

Lemma read_ident_spec n : forall w b, d_phase (dev w) = Data b [] -> alen b = 2 * Z.of_nat (S n) ->
  exists w', read_ident w io (S n) = (w', pair_words b) /\ d_phase (dev w') = Idle.
Proof.
  induction n as [|n IH]; intros w b E Hl; destruct b as [|b0 [|b1 b]]; unfold alen in Hl; cbn [length] in Hl; try lia.
  all: rewrite read_ident_S; pose proof (ad_data w b0 b1 b [] E) as A; destruct (inw w (reg io 0)) as [w1 v]; destruct A as (-> & Ed & _).
  - destruct b; [|cbn in Hl; lia]. exists w1. by rewrite Ed.
  - destruct b as [|b2 b]; [cbn in Hl; lia|]. destruct (IH w1 (b2 :: b)) as (w' & -> & E'); [by rewrite Ed|unfold alen; cbn [length] in *; lia|].
    by exists w'.
Qed.

(** The little-endian number in [n] bytes of the identification. *)
Fixpoint le (b : list Z) (off : nat) (n : nat) : Z := match n with O => 0 | S n => default 0 (b !! off) + 256 * le b (S off) n end.

Lemma pair_words_word b : forall i n, block_ok (2 * Z.of_nat n) b -> (i < n)%nat ->
  aget 0 (pair_words b) (Z.of_nat i) = le b (2 * i) 2 /\ 0 <= aget 0 (pair_words b) (Z.of_nat i) < 2 ^ 16.
Proof.
  intros i n. revert b i. induction n as [|n IH]; intros [|b0 [|b1 b]] i [Hl Hb] Hi; unfold alen in Hl; cbn [length] in Hl; try lia.
  apply Forall_cons in Hb as [R0 Hb]. apply Forall_cons in Hb as [R1 Hb]. destruct i as [|i].
  - unfold aget. simpl. lia.
  - destruct (IH b i) as [E R]; [split; [unfold alen; lia|done]|lia|]. unfold aget in E, R |- *. rewrite Nat2Z.id in E, R |- *.
    cbn [pair_words]. replace (2 * S i)%nat with (S (S (2 * i))) by lia. exact (conj E R).
Qed.

(** The model name: bytes swapped, spaces and NULs stripped from the end. *)
Fixpoint swap_pairs (b : list Z) : list Z := match b with b0 :: b1 :: r => b1 :: b0 :: swap_pairs r | _ => [] end.

Definition blank (c : Z) : bool := (c =? 32) || (c =? 0).

Fixpoint strip (b : list Z) : list Z :=
  match b with [] => [] | c :: r => match strip r with [] => if blank c then [] else [c] | r' => c :: r' end end.

Lemma strip_snoc b c : strip (b ++ [c]) = if blank c then strip b else b ++ [c].
Proof.
  induction b as [|x b IH]; cbn [app strip]; [by destruct (blank c)|]. rewrite IH. destruct (blank c); [done|]. by destruct b.
Qed.

Lemma strip_length b : (length (strip b) <= length b)%nat.
Proof. induction b as [|c b IH]; cbn [strip]; [done|]. destruct (strip b) eqn:E; [destruct (blank c); cbn; lia|cbn [length] in *; lia]. Qed.

Lemma swap_loop_spec n : forall x pre post, length x = (2 * n)%nat -> swap_loop (pre ++ x ++ post) (alen pre) n = pre ++ swap_pairs x ++ post.
Proof.
  induction n as [|n IH]; intros [|b0 [|b1 x]] pre post Hl; cbn [length] in Hl; try lia; cbn [swap_loop swap_pairs]; [done|].
  assert (E0 : aget 0 (pre ++ (b0 :: b1 :: x) ++ post) (alen pre) = b0).
  { unfold aget, alen. rewrite Nat2Z.id, lookup_app_r, Nat.sub_diag by lia. done. }
  assert (E1 : aget 0 (pre ++ (b0 :: b1 :: x) ++ post) (alen pre + 1) = b1).
  { unfold aget, alen. rewrite lookup_app_r by lia. replace (Z.to_nat (Z.of_nat (length pre) + 1) - length pre)%nat with 1%nat by lia. done. }
  rewrite E0, E1. unfold aset, alen.
  replace (Z.to_nat (Z.of_nat (length pre) + 1)) with (length pre + 1)%nat by lia. rewrite Nat2Z.id.
  replace (length pre) with (length pre + 0)%nat at 2 by lia. rewrite !insert_app_r. cbn [app insert list_insert].
  specialize (IH x (pre ++ [b1; b0]) post). unfold alen in IH. rewrite length_app in IH. cbn [length] in IH.
  replace (Z.of_nat (length pre) + 2) with (Z.of_nat (length pre + 2)) by lia. rewrite <- !app_assoc in IH. cbn [app] in IH. apply IH. lia.
Qed.

Lemma trim_loop_spec l : forall post, trim_loop (l ++ post) (length l) = strip l ++ replicate (length l - length (strip l)) 0 ++ post.
Proof.
  induction l as [|c l IH] using rev_ind; intros post; [done|]. rewrite length_app, strip_snoc, Nat.add_1_r. cbn [trim_loop].
  assert (E : aget 0 ((l ++ [c]) ++ post) (Z.of_nat (length l)) = c).
  { unfold aget. by rewrite Nat2Z.id, <- app_assoc, lookup_app_r, Nat.sub_diag by lia. }
  rewrite E. rewrite <- app_assoc. cbn [app]. destruct (blank c) eqn:Eb.
  - pose proof (strip_length l). replace (S (length l) - length (strip l))%nat with (length l - length (strip l) + 1)%nat by lia.
    rewrite replicate_add, <- app_assoc. cbn [replicate app]. rewrite <- IH. unfold blank in Eb.
    destruct (Z.eqb_spec c 32) as [->|H32]; [|by apply Z.eqb_eq in Eb as ->].
    unfold aset. rewrite Nat2Z.id. replace (length l) with (length l + 0)%nat at 1 by lia. by rewrite insert_app_r.
  - apply orb_false_iff in Eb as [-> Eb]. unfold nonzero. rewrite Eb. cbn [negb]. rewrite length_app. cbn [length].
    replace (S (length l) - (length l + 1))%nat with O by lia. by rewrite <- app_assoc.
Qed.

Lemma swap_pairs_length n : forall x, length x = (2 * n)%nat -> length (swap_pairs x) = (2 * n)%nat.
Proof. induction n as [|n IH]; intros [|b0 [|b1 x]] Hl; cbn [length] in Hl; try lia; [done|]. cbn [swap_pairs length]. rewrite IH; lia. Qed.

Lemma c_str_cut a b : c_str (a ++ 0 :: b) = c_str a.
Proof. induction a as [|c a IH]; [done|]. cbn [app c_str]. by rewrite IH. Qed.

Lemma fix_string_spec x z : length x = 40%nat -> c_str (ata_fix_string (x ++ [z]) 40) = c_str (strip (swap_pairs x)).
Proof.
  intros Hl. unfold ata_fix_string. pose proof (swap_loop_spec 20 x [] [z] ltac:(lia)) as E. cbn [app alen length] in E.
  change (Z.to_nat (40 / 2)) with 20%nat. change (alen []) with 0 in E. rewrite E.
  pose proof (swap_pairs_length 20 x Hl) as Hs.
  unfold aset. replace (Z.to_nat 40) with (length (swap_pairs x) + 0)%nat at 1 by (rewrite Hs; done).
  rewrite insert_app_r. cbn [insert list_insert]. replace (Z.to_nat 40) with (length (swap_pairs x)) by (rewrite Hs; done).
  rewrite trim_loop_spec. destruct (length (swap_pairs x) - length (strip (swap_pairs x)))%nat; cbn [replicate app]; apply c_str_cut.
Qed.

(** The number of sectors that an identification reports. *)
Definition lba48_field (b : list Z) : bool := Z.testbit (le b 166 2) 10.
Definition size_field (b : list Z) : Z := if lba48_field b then le b 200 8 else le b 120 4.

Lemma bit10 x : nonzero (Z.land x (Z.shiftl 1 10)) = Z.testbit x 10.
Proof.
  unfold nonzero. change (Z.shiftl 1 10) with (2 ^ 10). destruct (Z.testbit x 10) eqn:E.
  - apply negb_true_iff, Z.eqb_neq. intros Hz. apply (f_equal (fun z => Z.testbit z 10)) in Hz. by rewrite Z.land_spec, E in Hz.
  - apply negb_false_iff, Z.eqb_eq. apply Z.bits_inj'. intros n Hn. rewrite Z.land_spec, Z.bits_0, Z.pow2_bits_eqb by lia.
    destruct (Z.eqb_spec 10 n) as [<-|]; [by rewrite E|apply andb_false_r].
Qed.

Lemma le_split b off n k : le b off (n + k) = le b off n + 256 ^ Z.of_nat n * le b (off + n) k.
Proof.
  revert off. induction n as [|n IH]; intros off; cbn [Nat.add le]; [rewrite Nat.add_0_r; lia|]. rewrite IH.
  replace (off + S n)%nat with (S off + n)%nat by lia. rewrite Nat2Z.inj_succ, Z.pow_succ_r by lia. lia.
Qed.

Lemma identify_size d b : block_ok 512 b ->
  is_lba48 (identify_data d (pair_words b)) = (if lba48_field b then 1 else 0) /\ total_sectors (identify_data d (pair_words b)) = size_field b.
Proof.
  intros Hb. pose proof (fun i Hi => pair_words_word b i 256 Hb Hi) as Wd. unfold identify_data. cbn [is_lba48 total_sectors]. rewrite bit10.
  change 83 with (Z.of_nat 83). destruct (Wd 83%nat) as [-> _]; [lia|]. change (2 * 83)%nat with 166%nat. fold (lba48_field b). unfold size_field.
  destruct (lba48_field b); (split; [done|]); cbn [nonzero negb Z.eqb].
  - destruct (Wd 100%nat) as [E0 R0]; [lia|]. destruct (Wd 101%nat) as [E1 R1]; [lia|]. destruct (Wd 102%nat) as [E2 R2]; [lia|]. destruct (Wd 103%nat) as [E3 R3]; [lia|].
    change 100 with (Z.of_nat 100). change 101 with (Z.of_nat 101). change 102 with (Z.of_nat 102). change 103 with (Z.of_nat 103).
    set (a := aget 0 (pair_words b) (Z.of_nat 100)) in *. set (e := aget 0 (pair_words b) (Z.of_nat 101)) in *.
    set (f := aget 0 (pair_words b) (Z.of_nat 102)) in *. set (g := aget 0 (pair_words b) (Z.of_nat 103)) in *.
    rewrite (lor_high a e 16), Z.shiftl_mul_pow2 by lia. rewrite (lor_high (a + e * 2 ^ 16) f 32), Z.shiftl_mul_pow2 by lia.
    rewrite lor_high, Z.shiftl_mul_pow2 by lia. rewrite E0, E1, E2, E3.
    rewrite (le_split b 200 2 6 : le b 200 8 = _), (le_split b (200 + 2) 2 4 : le b (200 + 2) 6 = _), (le_split b (200 + 2 + 2) 2 2 : le b (200 + 2 + 2) 4 = _).
    change (2 * 100)%nat with 200%nat. change (2 * 101)%nat with (200 + 2)%nat. change (2 * 102)%nat with (200 + 2 + 2)%nat.
    change (2 * 103)%nat with (200 + 2 + 2 + 2)%nat. lia.
  - destruct (Wd 60%nat) as [E0 R0]; [lia|]. destruct (Wd 61%nat) as [E1 R1]; [lia|].
    change 60 with (Z.of_nat 60). change 61 with (Z.of_nat 61). unfold wrap. rewrite Z.mod_small by (rewrite Z.shiftl_mul_pow2 by lia; lia).
    rewrite lor_high by lia. rewrite Z.shiftl_mul_pow2 by lia. rewrite E0, E1, (le_split b 120 2 2 : le b 120 4 = _).
    change (2 * 60)%nat with 120%nat. change (2 * 61)%nat with (120 + 2)%nat. lia.
Qed.

Lemma identify_model d b : block_ok 512 b -> alen (model d) = 41 ->
  c_str (model (identify_data d (pair_words b))) = c_str (strip (swap_pairs (take 40 (drop 54 b)))).
Proof.
  intros Hb Hm. unfold identify_data. cbn [model]. rewrite (pair_words_bytes b 256 Hb).
  assert (Hd : length (drop 40 (model d)) = 1%nat) by (rewrite length_drop; unfold alen in Hm; lia).
  destruct (drop 40 (model d)) as [|z [|]]; try done. apply fix_string_spec. destruct Hb as [Hl _]. unfold alen in Hl. rewrite length_take, length_drop. lia.
Qed.

(** The command reaches the device with the LBA registers cleared. *)
Lemma identify_command w d : d_phase (dev w) = Idle -> io_base d = io ->
  let sel := if nonzero (is_master d) then ATA_MASTER else ATA_SLAVE in
  let w5 := out_reg (out_reg (out_reg (out_reg (out_reg w io ATA_REG_HDDEVSEL sel) io ATA_REG_SECCOUNT0 0) io ATA_REG_LBA0 0) io ATA_REG_LBA1 0) io ATA_REG_LBA2 0 in
  let w6 := out_reg w5 io ATA_REG_COMMAND ATA_CMD_IDENTIFY in
  (t_lba1 (d_task (dev w6))).1 = 0 /\ (t_lba2 (d_task (dev w6))).1 = 0 /\ timely w6 /\ Z.testbit (t_sel (d_task (dev w6))) 4 = negb (nonzero (is_master d)) /\
  d_phase (dev w6) = match unit_of d with Some u => Busy [u_ident u] | None => Idle end.
Proof.
  intros E Eio. cbv zeta. match goal with |- context [out_reg ?w0 io ATA_REG_COMMAND _] => set (w5 := w0) end.
  assert (E5 : exists c a, dev w5 = Device (Task (u8 (if nonzero (is_master d) then ATA_MASTER else ATA_SLAVE)) c a (0, (t_lba1 (d_task (dev w))).1) (0, (t_lba2 (d_task (dev w))).1)) Idle).
  { subst w5. eexists _, _. registers E. }
  destruct E5 as (c & a & E5). pose proof (ad_command w5 (u8 ATA_CMD_IDENTIFY)) as [Ec Ed]; [by rewrite E5|]. unfold out_reg. change ATA_REG_COMMAND with 7.
  fold w5. unfold timely. rewrite Ec, E5. cbn [d_task d_phase t_lba1 t_lba2 t_sel fst]. unfold unit_of, command. cbn [t_sel].
  assert (Es : Z.testbit (u8 (if nonzero (is_master d) then ATA_MASTER else ATA_SLAVE)) 4 = negb (nonzero (is_master d))) by (by destruct (nonzero (is_master d))).
  rewrite Es. by split_and!.
Qed.

Lemma foreign_data w w' b : foreign w io = (w', b) -> (exists x bs, d_phase (dev w) = Data x bs) ->
  (t_lba1 (d_task (dev w))).1 = 0 -> (t_lba2 (d_task (dev w))).1 = 0 -> b = false /\ dev w' = dev w.
Proof.
  unfold foreign. change ATA_REG_LBA1 with 4. change ATA_REG_LBA2 with 5. intros Ef Hd L1 L2.
  pose proof (ad_lba w 4 ltac:(lia) Hd) as V1. pose proof (ad_quiet w _ (q_inb io w 4 ltac:(lia))) as (D1 & _ & _).
  destruct (inb w (reg io 4)) as [w1 v1]. cbn [fst snd Z.eqb Pos.eqb] in V1, D1. rewrite L1 in V1. subst v1. cbn [nonzero negb Z.eqb] in Ef.
  rewrite <- D1 in Hd, L2. pose proof (ad_lba w1 5 ltac:(lia) Hd) as V2. pose proof (ad_quiet w1 _ (q_inb io w1 5 ltac:(lia))) as (D2 & _ & _).
  destruct (inb w1 (reg io 5)) as [w2 v2]. cbn [fst snd Z.eqb Pos.eqb] in V2, D2. rewrite L2 in V2. subst v2. injection Ef as <- <-. split; [done|congruence].
Qed.

Lemma foreign_failed w : d_phase (dev w) = Failed -> d_phase (dev (foreign w io).1) = Failed.
Proof.
  intros E. unfold foreign. change ATA_REG_LBA1 with 4. change ATA_REG_LBA2 with 5.
  pose proof (ad_quiet w _ (q_inb io w 4 ltac:(lia))) as (D1 & _ & _). destruct (inb w (reg io 4)) as [w1 v1]. cbn [fst] in D1.
  destruct (nonzero v1); cbn [fst]; [congruence|]. pose proof (ad_quiet w1 _ (q_inb io w1 5 ltac:(lia))) as (D2 & _ & _).
  destruct (inb w1 (reg io 5)) as [w2 v2]. cbn [fst] in D2 |- *. congruence.
Qed.

(** Identification ends and, when it succeeds, reports the size and the name that
    the disk gives; a position without a disk is reported as absent, and a disk is
    missed only when it aborts the command or is slower than the time-out. *)
Theorem ata_identify_correct w d : io_base d = io -> d_phase (dev w) = Idle -> alen (model d) = 41 ->
  (forall u, unit_of d = Some u -> block_ok 512 (u_ident u)) ->
  exists w' d' r, ata_identify fuel w d = Some (w', d', r) /\
    match unit_of d with
    | None => r = 0 /\ d' = d /\ d_phase (dev w') = Idle
    | Some u =>
        (r = 1 /\ d_phase (dev w') = Idle /\ present d' = 1 /\ is_lba48 d' = (if lba48_field (u_ident u) then 1 else 0) /\
         total_sectors d' = size_field (u_ident u) /\ c_str (model d') = c_str (strip (swap_pairs (take 40 (drop 54 (u_ident u))))) /\
         is_master d' = is_master d /\ io_base d' = io /\ drive_name d' = drive_name d) \/
        (r = 0 /\ d' = d /\ (d_phase (dev w') = Failed \/ slow))
    end.
Proof.
  intros Eio E Hm Hu. unfold ata_identify. rewrite Eio. pose proof (identify_command w d E Eio) as C. cbv zeta in C |- *.
  match type of C with context [out_reg ?w0 io ATA_REG_COMMAND ?c] => set (w6 := out_reg w0 io ATA_REG_COMMAND c) in * end.
  destruct C as (L1 & L2 & T6 & Es & Ep). pose proof (delay_waits w6) as Qd. set (wd := ata_delay w6 io) in *. clearbody wd w6.
  pose proof (ad_status wd (reg io 7) (or_introl eq_refl)) as A. pose proof (status_waits wd (reg io 7) (or_introl eq_refl)) as Qs.
  change ATA_REG_STATUS with 7. destruct (inb wd (reg io 7)) as [w7 s]. cbn [fst] in Qs. destruct A as (_ & _ & _ & S & _).
  rewrite (proj1 Qd), Es in S. unfold unit_of in *. pose proof (waits_trans _ _ _ Qd Qs) as Q7.
  destruct (units (negb (nonzero (is_master d)))) as [u|].
  2: { assert (Ed : d_phase (dev wd) = Idle) by (destruct Qd as (_ & _ & _ & L); rewrite Ep in L; by destruct L as [|[]]).
    rewrite Ed in S. assert (s = 0) as -> by (inversion S; auto). exists w7, d, 0. split; [done|]. split; [done|]. split; [done|]. by inversion S. }
  assert (s =? 0 = false) as ->.
  { apply Z.eqb_neq. intros ->. destruct Qd as (_ & _ & _ & L). rewrite Ep in L.
    destruct L as [L|[L|L]]; rewrite L in S; inversion S; subst; discriminate. }
  destruct (wait_busy_spec w7 (waits_timely _ _ Q7 T6)) as (w8 & r & -> & Q8 & R). cbn [mbind option_bind].
  destruct R as [[-> Hs]|[-> Hslow]]; cbn [Z.eqb]; [|exists w8, d, 0; auto 8].
  pose proof (waits_trans _ _ _ Q7 Q8) as Q. assert (Hph : d_phase (dev w8) = Data (u_ident u) [] \/ d_phase (dev w8) = Failed).
  { destruct Q as (_ & _ & _ & L). rewrite Ep in L. destruct L as [L|L]; [by apply Hs in L|done]. }
  destruct (foreign w8 io) as [w10 other] eqn:Ef. destruct Hph as [Ed|Ed].
  - apply foreign_data in Ef as [-> E10]; [|by eauto|by rewrite (proj1 Q)|by rewrite (proj1 Q)].
    destruct (wait_drq_spec w10) as (w11 & r & -> & _ & E11 & ->); [rewrite E10, Ed; eauto|]. rewrite E10, Ed in E11 |- *. cbn [mbind option_bind Z.eqb].
    destruct (read_ident_spec 255 w11 (u_ident u) E11 (proj1 (Hu u eq_refl))) as (w12 & -> & E12).
    exists w12, (identify_data d (pair_words (u_ident u))), 1. split; [done|]. left.
    destruct (identify_size d _ (Hu u eq_refl)) as [-> ->]. rewrite (identify_model d _ (Hu u eq_refl) Hm). by split_and!.
  - pose proof (foreign_failed w8 Ed) as E10. rewrite Ef in E10. cbn [fst] in E10. destruct other; [exists w10, d, 0; auto 8|].
    destruct (wait_drq_spec w10) as (w11 & r & -> & _ & E11 & ->); [auto|]. rewrite E10 in E11 |- *. cbn [mbind option_bind Z.eqb]. exists w11, d, 0. auto 8.
Qed.

End proofs.

(** ** A channel with one disk of eight sectors, as master *)

(** 0x400 in word 83 announces 48-bit addresses, 8 in word 100 is the size, the name
    is "AB" with the bytes of each word exchanged and padded. *)
Definition demo_ident : list Z :=
  replicate 54 0 ++ [66; 65] ++ replicate 38 32 ++ replicate 72 0 ++ [0; 4] ++ replicate 32 0 ++ [8] ++ replicate 311 0.

Definition demo_disk : disk := Disk demo_ident 8 (fun i => replicate 512 (i mod 256)).

Definition demo_units (slave : bool) : option disk := if slave then None else Some demo_disk.

(** The device, the time, when it is ready, and the console. *)
Record sim := Sim { s_dev : device; s_cycles : Z; s_due : Z; s_out : list Z }.

Definition tick (w : sim) : sim := Sim (s_dev w) (s_cycles w + 1) (s_due w) (s_out w).
Definition in_phase (w : sim) (p : phase) : sim := Sim (Device (d_task (s_dev w)) p) (s_cycles w) (s_due w) (s_out w).

Definition sim_status (w : sim) : sim * Z :=
  match d_phase (s_dev w) with
  | Idle => (tick w, if demo_units (Z.testbit (t_sel (d_task (s_dev w))) 4) then 0x50 else 0)
  | Busy bs =>
      if s_cycles w <? s_due w then (tick w, 0x80)
      else match bs with b :: bs => (tick (in_phase w (Data b bs)), 0x58) | [] => (tick (in_phase w Failed), 0x41) end
  | Data _ _ => (tick w, 0x58)
  | Failed => (tick w, 0x41)
  end.

Definition sim_inb (w : sim) (p : Z) : sim * Z :=
  if (p =? 0x1F7) || (p =? 0x3F6) then sim_status w
  else (tick w, if p =? 0x1F4 then (t_lba1 (d_task (s_dev w))).1 else if p =? 0x1F5 then (t_lba2 (d_task (s_dev w))).1 else 0).

Definition sim_outb (w : sim) (p v : Z) : sim :=
  if (0x1F2 <=? p) && (p <=? 0x1F6) then Sim (Device (write_task (d_task (s_dev w)) (p - 0x1F0) v) (d_phase (s_dev w))) (s_cycles w + 1) (s_due w) (s_out w)
  else if p =? 0x1F7 then Sim (Device (d_task (s_dev w)) (command demo_units (d_task (s_dev w)) v)) (s_cycles w + 1) (s_cycles w + 100) (s_out w)
  else tick w.

Definition sim_inw (w : sim) (p : Z) : sim * Z :=
  match d_phase (s_dev w) with
  | Data (b0 :: b1 :: b) bs =>
      (Sim (Device (d_task (s_dev w)) (match b with [] => next_phase bs | _ => Data b bs end)) (s_cycles w + 1) (s_cycles w + 100) (s_out w), b0 + 256 * b1)
  | _ => (tick w, 0)
  end.

#[local] Instance sim_machine : PortMachine sim := {|
  pm_machine := {|
    outl w _ _ := tick w; outw w _ _ := tick w; outb := sim_outb; inl w _ := (tick w, 0);
    cpu_flags _ := 0; set_cpu_flags w _ := w;
    kprintf_set_color w _ _ := tick w;
    kprint w s := Sim (s_dev w) (s_cycles w + 1) (s_due w) (s_out w ++ s) |};
  inb := sim_inb;
  inw := sim_inw;
  pit_get_ticks w := (tick w, u64 (s_cycles w / 10)) |}.

#[local] Instance sim_device : AtaDevice sim 0x1F0 demo_units.
Proof.
  refine {| dev := s_dev; cycles := s_cycles; due := s_due; period := 10; op_cycles := 1; latency := 100 |}.
  - lia.
  - done.
  - intros w w' [| |r Hq|c b|t]; cbn; try (repeat split; lia).
    assert (E : (inb w (reg 0x1F0 r)).1 = tick w); [|change sim_inb with inb; rewrite E; cbn; repeat split; lia].
    assert (r = 1 \/ r = 2 \/ r = 3 \/ r = 4 \/ r = 5) as Hr by lia. by destruct_or! Hr; subst r.
  - intros w p Hp. assert (E : inb w p = sim_status w) by (by destruct Hp as [-> | ->]). rewrite E. unfold sim_status.
    destruct (d_phase (s_dev w)) as [|bs|b bs|] eqn:Ep; cbn.
    + rewrite Ep. split_and!; try done; try lia; [apply sr_idle|]; by destruct (demo_units _).
    + destruct (Z.ltb_spec (s_cycles w) (s_due w)); cbn; [rewrite Ep; split_and!; try done; try lia; by apply sr_busy|].
      destruct bs; cbn; split_and!; try done; try lia; [by apply sr_error|by apply sr_ready].
    + rewrite Ep. split_and!; try done; try lia. by apply sr_data.
    + rewrite Ep. split_and!; try done; try lia. by apply sr_failed.
  - intros w r v Hr E. assert (r = 2 \/ r = 3 \/ r = 4 \/ r = 5 \/ r = 6) as Hc by lia.
    rewrite <- E. by destruct_or! Hc; subst r.
  - intros w c E. cbv zeta. change (outb w (reg 0x1F0 7) c) with
      (Sim (Device (d_task (s_dev w)) (command demo_units (d_task (s_dev w)) c)) (s_cycles w + 1) (s_cycles w + 100) (s_out w)). cbn. split; [done|lia].
  - intros w r Hr (b & bs & E). assert (r = 4 \/ r = 5) as [-> | ->] by lia; done.
  - intros w b0 b1 b bs E. cbn. unfold sim_inw. rewrite E. cbn. split_and!; [done|done|lia].
Defined.

Definition demo_drive : ata_drive_t := AtaDriveT 1 1 1 0x1F0 0x3F6 8 (replicate 41 0) (txt "hda").

Definition demo_channel : sim := Sim (Device (Task 0 (0, 0) (0, 0) (0, 0) (0, 0)) Idle) 0 0 [].

Lemma block_check n b : (alen b =? n) && forallb (fun c => (0 <=? c) && (c <? 256)) b = true -> block_ok n b.
Proof.
  intros [Hl Hb]%andb_true_iff. split; [by apply Z.eqb_eq|]. rewrite forallb_forall in Hb. apply Forall_forall. intros c Hc.
  apply list_elem_of_In in Hc. specialize (Hb c Hc). lia.
Qed.

Lemma ata_read_sectors_correct_witness : exists w' buf' r,
  ata_read_sectors (Z.to_nat 60000) demo_channel demo_drive 2 3 (replicate 2048 7) = Some (w', buf', r) /\ alen buf' = 2048 /\
    ((r = 1 /\ d_phase (s_dev w') = Idle /\ exists bytes,
        Partition.ata_read_sectors (DiskDrivers := ata_disks (units := demo_units) {[ 5 := demo_drive ]}) 5 2 3 = Some bytes /\
        alen bytes = 1536 /\ buf' = bytes ++ drop (length bytes) (replicate 2048 7)) \/
     (r = 0 /\ (d_phase (s_dev w') = Failed \/ slow (H0 := sim_device)))).
Proof.
  apply (ata_read_sectors_correct (H0 := sim_device) (Z.to_nat 60000) ltac:(unfold enough; cbn; lia) {[ 5 := demo_drive ]} 5 demo_channel demo_drive demo_disk 2 3 (replicate 2048 7)).
  - by vm_compute.
  - done.
  - done.
  - done.
  - intros k. split; [done|]. apply Forall_replicate, Z.mod_pos_bound. lia.
  - done.
  - done.
  - done.
  - by vm_compute.
Defined.

Lemma ata_identify_correct_witness : exists w' d' r,
  ata_identify (Z.to_nat 60000) demo_channel (fresh_drive 0) = Some (w', d', r) /\
  ((r = 1 /\ d_phase (s_dev w') = Idle /\ present d' = 1 /\ is_lba48 d' = 1 /\ total_sectors d' = 8 /\ c_str (model d') = txt "AB" /\
    is_master d' = 1 /\ io_base d' = 0x1F0 /\ drive_name d' = txt "hda") \/
   (r = 0 /\ d' = fresh_drive 0 /\ (d_phase (s_dev w') = Failed \/ slow (H0 := sim_device)))).
Proof.
  apply (ata_identify_correct (H0 := sim_device) (Z.to_nat 60000) ltac:(unfold enough; cbn; lia) demo_channel (fresh_drive 0)).
  - done.
  - done.
  - by vm_compute.
  - intros u E. injection E as <-. by apply (block_check 512).
Defined.

(** The same calls, run. *)
Example demo_identify :
  (fun '(_, d, r) => (total_sectors d, c_str (model d), r)) <$> ata_identify 500 demo_channel (fresh_drive 0) = Some (8, txt "AB", 1) /\
  snd <$> ata_identify 500 demo_channel (fresh_drive 1) = Some 0.
Proof. split; vm_compute; reflexivity. Qed.

Definition demo_read (d : ata_drive_t) (lba count : Z) : option (list Z * Z) :=
  (fun '(_, b, r) => ([aget 0 b 0; aget 0 b 512; aget 0 b 1024], r)) <$> ata_read_sectors 500 demo_channel d lba count (replicate 2048 7).

Example demo_sectors : demo_read demo_drive 2 2 = Some ([2; 3; 7], 1) /\ demo_read demo_drive 7 2 = Some ([7; 7; 7], 0).
Proof. split; vm_compute; reflexivity. Qed.

(** With 28-bit commands the upper address bits are lost: another sector is read, and
    the call succeeds. *)
Definition demo_drive28 : ata_drive_t := AtaDriveT 1 1 0 0x1F0 0x3F6 8 (replicate 41 0) (txt "hda").

Example lba28_wraps : demo_read demo_drive28 (2 ^ 28 + 2) 1 = Some ([2; 7; 7], 1).
Proof. vm_compute. reflexivity. Qed.

(** A request for no sectors is a command for 65536: it succeeds, and leaves the
    device in the middle of a transfer, or in an error. *)
Example zero_count_not_idle : (fun '(w, _, r) => (d_phase (s_dev w), r)) <$> ata_read_sectors 500 demo_channel demo_drive 0 0 [] = Some (Failed, 1).
Proof. vm_compute. reflexivity. Qed.

(** The time-outs need the timer interrupt.  While interrupts are off, as they are
    when the driver manager initialises the driver under its lock, a device that
    stays busy keeps the kernel waiting for ever. *)
Lemma no_timer_no_timeout {W : Type} `{PortMachine W} (io t : Z) :
  (forall w, (pit_get_ticks w).2 = t) -> (forall w p, has_flag (inb w p).2 ATA_SR_BSY = true) ->
  forall n w, ata_wait_busy n w io = None.
Proof.
  intros Ht Hb n w. unfold ata_wait_busy. pose proof (Ht w) as E. destruct (pit_get_ticks w) as [w0 start]. cbn [snd] in E. subst start.
  clear w. revert w0. induction n as [|n IH]; intros w; [done|]. cbn [busy_loop]. pose proof (Hb w (reg io ATA_REG_STATUS)) as B.
  destruct (inb w (reg io ATA_REG_STATUS)) as [w1 s]. cbn [snd] in B. rewrite B. pose proof (Ht w1) as E. destruct (pit_get_ticks w1) as [w2 now].
  cbn [snd] in E. subst now. rewrite Z.sub_diag. cbn. apply IH.
Qed.
