(* ===== verification/Dbg.v ===== *)
(** The debugger, debugger/src: the serial port and its formatted output
    (dbg_serial.c), log lines (dbg_log.c), hardware breakpoints (dbg_breakpoint.c),
    registers (dbg_regs.c), memory (dbg_memory.c) and symbols (dbg_symbols.c).  The
    console is in DbgConsole, the trap handlers in DbgThm.

    Output is the list of the characters passed to [dbg_serial_putc].  Below, [None] is
    an undefined operation or a memory access that faults. *)
From stdpp Require Import prelude gmap list strings.
From Stdlib Require Import ZArith Lia.
From S2P Require Import Prelude Bitmap Pmm Frames Vmm VmmTree KString Klog Printf Spinlock Task Sched Process Elf Framebuffer Pci Hal.

Open Scope Z_scope.

(** ** nexus_debug.h *)

Definition DBG_COM_PORT : Z := 0x3F8.
Definition DBG_BAUD_RATE : Z := 115200.
Definition DBG_LOG_BUF_SIZE : Z := 512.
Definition DBG_CMD_BUF_SIZE : Z := 256.
Definition DBG_HISTORY_SIZE : Z := 16.
Definition DBG_PROMPT : list Z := txt "nxdbg> ".
Definition DBG_MIN_LOG_LEVEL : Z := 0.

(** A C string literal that ends a line. *)
Definition crlf (t : list Z) : list Z := t ++ [13; 10].

(** ** dbg_serial.c: the port *)

Section port.
Context {W : Type} `{PortMachine W}.

Definition dbg_serial_init (w : W) : W :=
  let port := DBG_COM_PORT in
  let divisor := u16 (115200 / DBG_BAUD_RATE) in
  foldl (fun w '(p, v) => outb w p v) w
    [(port + 1, 0x00); (port + 3, 0x80); (port + 0, u8 (Z.land divisor 0xFF)); (port + 1, u8 (Z.land (Z.shiftr divisor 8) 0xFF));
     (port + 3, 0x03); (port + 2, 0xC7); (port + 4, 0x0B)].

Definition dbg_tx_empty (w : W) : W * Z := let '(w1, v) := inb w (DBG_COM_PORT + 5) in (w1, Z.land v 0x20).
Definition dbg_rx_ready (w : W) : W * Z := let '(w1, v) := inb w (DBG_COM_PORT + 5) in (w1, Z.land v 0x01).

(** [while (dbg_tx_empty() == 0);] *)
Fixpoint tx_wait (fuel : nat) (w : W) : option W :=
  match fuel with O => None | S fuel => let '(w1, v) := dbg_tx_empty w in if v =? 0 then tx_wait fuel w1 else Some w1 end.

Fixpoint rx_wait (fuel : nat) (w : W) : option W :=
  match fuel with O => None | S fuel => let '(w1, v) := dbg_rx_ready w in if v =? 0 then rx_wait fuel w1 else Some w1 end.

Definition send (fuel : nat) (w : W) (c : Z) : option W := w1 ← tx_wait fuel w; Some (outb w1 DBG_COM_PORT c).

Definition dbg_serial_putc (fuel : nat) (w : W) (c : Z) : option W :=
  w1 ← (if c =? 10 then send fuel w 13 else Some w); send fuel w1 (u8 c).

Fixpoint dbg_serial_puts (fuel : nat) (w : W) (s : list Z) : option W :=
  match s with [] => Some w | c :: s => w1 ← dbg_serial_putc fuel w c; dbg_serial_puts fuel w1 s end.

Definition dbg_serial_poll (w : W) : W * bool := let '(w1, v) := dbg_rx_ready w in (w1, negb (v =? 0)).

(** The result is a [char]. *)
Definition dbg_serial_getc (fuel : nat) (w : W) : option (W * Z) := w1 ← rx_wait fuel w; let '(w2, v) := inb w1 DBG_COM_PORT in Some (w2, s8 v).

End port.

(** ** Formatted output *)

(** The argument list: integers, as the 64-bit slots, and strings. *)
Inductive darg := DInt (v : Z) | DStr (s : option (list Z)).

Definition fetch_int (args : list darg) : option (Z * list darg) := match args with DInt v :: args => Some (v, args) | _ => None end.
Definition fetch_str (args : list darg) : option (list Z * list darg) :=
  match args with DStr s :: args => Some (default (txt "(null)") s, args) | _ => None end.

(** The digits of [val], the last one first, into an array. *)
Definition rev_digits (upper : bool) (base v : Z) : option (list Z) := if v =? 0 then tb_put [] 48 else render_digits upper base v [] 21.

Definition signed_arg (is_ll : bool) (v : Z) : Z := if is_ll then s64 v else s32 v.
Definition unsigned_arg (is_ll : bool) (v : Z) : Z := if is_ll then u64 v else u32 v.

(** The text of a conversion: [tmp], of 64 characters. *)
Definition convert (is_ll : bool) (c : Z) (args : list darg) : option (list Z * list darg) :=
  if c =? 115 then '(s, args) ← fetch_str args; Some (take 63 s, args)
  else if c =? 99 then '(v, args) ← fetch_int args; Some ([s8 v], args)
  else if (c =? 100) || (c =? 105) then
    '(v, args) ← fetch_int args;
    let val := signed_arg is_ll v in
    if val =? INT64_MIN then None
    else ds ← rev_digits false 10 (Z.abs val); Some (take 63 ((if val <? 0 then [45] else []) ++ rev ds), args)
  else if c =? 117 then '(v, args) ← fetch_int args; ds ← rev_digits false 10 (unsigned_arg is_ll v); Some (take 63 (rev ds), args)
  else if (c =? 120) || (c =? 88) || (c =? 112) then
    '(v, args) ← fetch_int args; ds ← rev_digits (c =? 88) 16 (unsigned_arg (is_ll || (c =? 112)) v); Some (take 63 (rev ds), args)
  else if c =? 37 then Some ([37], args)
  else Some ([37; c], args).

Definition DIGIT_0 : Z := 48.

Fixpoint take_width (width : Z) (fmt : list Z) : Z * list Z :=
  match fmt with c :: rest => if (48 <=? c) && (c <=? 57) then take_width (width * 10 + (c - DIGIT_0)) rest else (width, fmt) | [] => (width, []) end.

Definition take_flag (c : Z) (fmt : list Z) : bool * list Z := match fmt with x :: rest => if x =? c then (true, rest) else (false, fmt) | [] => (false, []) end.

Definition take_ll (fmt : list Z) : bool * list Z := let '(l, f1) := take_flag 108 fmt in if l then take_flag 108 f1 else (false, f1).

Definition pad_to (left_align : bool) (width : Z) (tmp : list Z) : list Z :=
  let pad := replicate (Z.to_nat (width - alen tmp)) 32 in if left_align then tmp ++ pad else pad ++ tmp.

(** The loop over the format, with the characters in the buffer; a round takes at least
    one character of the format. *)
Fixpoint serial_format (fuel : nat) (fmt : list Z) (args : list darg) (buf : list Z) : option (list Z) :=
  match fuel, fmt with
  | _, [] => Some buf
  | O, _ => None
  | S fuel, c :: rest =>
      if negb (alen buf <? DBG_LOG_BUF_SIZE - 1) then Some buf
      else if negb (c =? 37) then serial_format fuel rest args (buf ++ [c])
      else
        let '(left_align, f1) := take_flag 45 rest in
        let '(width, f2) := take_width 0 f1 in
        let '(is_ll, f3) := take_ll f2 in
        match f3 with
        | [] => None
        | k :: f4 =>
            '(tmp, args') ← convert is_ll k args;
            serial_format fuel f4 args' (take (Z.to_nat (DBG_LOG_BUF_SIZE - 1)) (buf ++ pad_to left_align width tmp))
        end
  end.

(** The buffer is printed up to its first NUL. *)
Definition dbg_serial_printf (fmt : list Z) (args : list darg) : option (list Z) := buf ← serial_format (length fmt) fmt args []; Some (c_str buf).

(** ** dbg_log.c *)

Definition level_names : list (list Z) := [txt "TRACE"; txt "INFO"; txt "WARN"; txt "ERROR"; txt "PANIC"].

(** Appends as far as the buffer goes. *)
Definition log_put (buf t : list Z) : list Z := take (Z.to_nat (DBG_LOG_BUF_SIZE - 1)) (buf ++ t).

Definition log_convert (is_ll : bool) (c : Z) (args : list darg) : option (list Z * list darg) :=
  if c =? 115 then fetch_str args
  else if c =? 99 then '(v, args) ← fetch_int args; Some ([s8 v], args)
  else if (c =? 100) || (c =? 105) then
    '(v, args) ← fetch_int args;
    let val := signed_arg is_ll v in
    if val =? INT64_MIN then None else ds ← rev_digits false 10 (Z.abs val); Some ((if val <? 0 then [45] else []) ++ rev ds, args)
  else if c =? 117 then '(v, args) ← fetch_int args; ds ← rev_digits false 10 (unsigned_arg is_ll v); Some (rev ds, args)
  else if (c =? 120) || (c =? 88) || (c =? 112) then
    '(v, args) ← fetch_int args; ds ← rev_digits (c =? 88) 16 (unsigned_arg (is_ll || (c =? 112)) v); Some (rev ds, args)
  else if c =? 37 then Some ([37], args)
  else Some ([37; c], args).

Fixpoint log_format (fuel : nat) (fmt : list Z) (args : list darg) (buf : list Z) : option (list Z) :=
  match fuel, fmt with
  | _, [] => Some buf
  | O, _ => None
  | S fuel, c :: rest =>
      if negb (alen buf <? DBG_LOG_BUF_SIZE - 1) then Some buf
      else if negb (c =? 37) then log_format fuel rest args (buf ++ [c])
      else
        let '(is_ll, f1) := take_ll rest in
        match f1 with [] => None | k :: f2 => '(t, args') ← log_convert is_ll k args; log_format fuel f2 args' (log_put buf t) end
  end.

Definition dbg_log (level : Z) (component fmt : list Z) (args : list darg) : option (list Z) :=
  if level <? DBG_MIN_LOG_LEVEL then Some []
  else
    let level := if 4 <? level then 4 else if level <? 0 then 0 else level in
    head ← dbg_serial_printf (txt "[%s][%s] ") [DStr (Some (aget [] level_names level)); DStr (Some component)];
    body ← log_format (length fmt) fmt args [];
    Some (head ++ c_str body ++ crlf []).

(** The banner, in the mode with the console. *)
Definition dbg_init_text : list Z :=
  crlf [] ++ crlf (txt "==============================================") ++
  crlf (txt "  NexusOS Debugger " ++ [226; 128; 148] ++ txt " LODBUG mode active") ++
  crlf (txt "  Type 'help' at the nxdbg> prompt.") ++
  crlf (crlf (txt "==============================================")).

(** [dbg_panic_hook], up to the console. *)
Definition panic_text (msg : option (list Z)) : option (list Z) :=
  let bar := crlf (txt "!!!!!!!!!!!!!!!!!!!!!!!!!!!!!!!!!!!!!!!!!!!!!") in
  line ← dbg_serial_printf (crlf (txt "  %s")) [DStr msg];
  Some (crlf [] ++ bar ++ crlf (txt "  KERNEL PANIC") ++ line ++ bar ++ crlf (crlf (txt "  Entering interactive debugger. Type 'continue' to halt."))).

(** ** dbg_breakpoint.c *)

(** [bp_addr], [bp_active], and the registers DR0 to DR3 and DR7. *)
Record bps := Bps { bp_addr : list Z; bp_active : list bool; dr : list Z; dr7 : Z }.

Definition dr_write (b : bps) (slot v : Z) : bps :=
  Bps (bp_addr b) (bp_active b) (if (0 <=? slot) && (slot <=? 3) then aset (dr b) slot v else dr b) (dr7 b).

Definition dr_read (b : bps) (slot : Z) : Z := if (0 <=? slot) && (slot <=? 3) then aget 0 (dr b) slot else 0.

Definition dr7_write (b : bps) (v : Z) : bps := Bps (bp_addr b) (bp_active b) (dr b) v.

Definition set_slot (b : bps) (slot addr : Z) (active : bool) : bps := Bps (aset (bp_addr b) slot addr) (aset (bp_active b) slot active) (dr b) (dr7 b).

Fixpoint free_slot (active : list bool) (i : Z) : Z := match active with [] => -1 | a :: active => if a then free_slot active (i + 1) else i end.

Definition dbg_bp_set (b : bps) (addr : Z) : option (bps * Z * list Z) :=
  let slot := free_slot (bp_active b) 0 in
  if slot <? 0 then t ← dbg_serial_printf (crlf (txt "bp: all 4 slots occupied")) []; Some (b, -1, t)
  else
    let b1 := dr_write (set_slot b slot addr true) slot addr in
    let b2 := dr7_write b1 (Z.lor (dr7 b1) (Z.shiftl 1 (slot * 2))) in
    t ← dbg_serial_printf (crlf (txt "bp: slot %d set at 0x%llx")) [DInt slot; DInt addr]; Some (b2, slot, t).

Definition dbg_bp_clear (b : bps) (slot : Z) : option (bps * list Z) :=
  if (slot <? 0) || (3 <? slot) then t ← dbg_serial_printf (crlf (txt "bp: invalid slot %d")) [DInt slot]; Some (b, t)
  else
    let b1 := dr_write (set_slot b slot 0 false) slot 0 in
    let b2 := dr7_write b1 (Z.ldiff (dr7 b1) (Z.shiftl 1 (slot * 2))) in
    t ← dbg_serial_printf (crlf (txt "bp: slot %d cleared")) [DInt slot]; Some (b2, t).

Definition bp_line (b : bps) (i : Z) : option (list Z) :=
  if aget false (bp_active b) i then dbg_serial_printf (crlf (txt "  [%d] ACTIVE  addr=0x%llx")) [DInt i; DInt (aget 0 (bp_addr b) i)]
  else dbg_serial_printf (crlf (txt "  [%d] empty")) [DInt i].

Definition dbg_bp_list (b : bps) : option (list Z) :=
  head ← dbg_serial_printf (crlf (txt "Hardware breakpoints:")) []; ls ← mapM (bp_line b) [0; 1; 2; 3]; Some (head ++ concat ls).

Definition dbg_watch_set (b : bps) (addr len_code type : Z) : option (bps * list Z) :=
  let b1 := dr_write (set_slot b 0 addr true) 0 addr in
  let v1 := Z.lor (dr7 b1) (Z.shiftl 1 0) in
  let v2 := Z.lor (Z.ldiff v1 (Z.shiftl 3 16)) (Z.shiftl (Z.land type 3) 16) in
  let v3 := Z.lor (Z.ldiff v2 (Z.shiftl 3 18)) (Z.shiftl (Z.land len_code 3) 18) in
  t ← dbg_serial_printf (crlf (txt "watchpoint set: addr=0x%llx len=%d type=%d")) [DInt addr; DInt len_code; DInt type]; Some (dr7_write b1 v3, t).

(** Numbers in commands.  The string ends at its NUL. *)
Definition hex_value (c : Z) : option Z :=
  if (48 <=? c) && (c <=? 57) then Some (c - 48) else if (97 <=? c) && (c <=? 102) then Some (c - 97 + 10)
  else if (65 <=? c) && (c <=? 70) then Some (c - 65 + 10) else None.

Fixpoint hex_loop (s : list Z) (v : Z) : Z := match s with c :: s => match hex_value c with Some d => hex_loop s (u64 (v * 16 + d)) | None => v end | [] => v end.

Definition parse_hex (s : list Z) : Z :=
  match s with c0 :: c1 :: rest => if (c0 =? 48) && ((c1 =? 120) || (c1 =? 88)) then hex_loop rest 0 else hex_loop s 0 | _ => hex_loop s 0 end.

Fixpoint uint_loop (s : list Z) (v : Z) : Z := match s with c :: s => if (48 <=? c) && (c <=? 57) then uint_loop s (u64 (v * 10 + (c - 48))) else v | [] => v end.

Definition parse_uint (s : list Z) : Z := uint_loop s 0.

(** The other files have the same functions again. *)
Definition cmd_parse_hex (s : list Z) : Z := parse_hex s.
Definition cmd_parse_uint (s : list Z) : Z := parse_uint s.
Definition sym_parse_hex (s : list Z) : Z := parse_hex s.

(** ** dbg_symbols.c *)

(** [elf64_sym_t] *)
Record elf64_sym := Elf64Sym { st_name : Z; st_info : Z; st_value : Z; st_size : Z }.

Definition SHT_SYMTAB : Z := 2.
Definition SHT_STRTAB : Z := 3.
Definition STT_FUNC : Z := 2.
Definition ELF64_ST_TYPE (i : Z) : Z := Z.land i 0xF.

(** Little-endian loads of [n] bytes from the image. *)
Fixpoint img_load (img : list Z) (a : Z) (n : nat) : option Z :=
  match n with O => Some 0 | S n => b ← (if 0 <=? a then img !! Z.to_nat a else None); r ← img_load img (a + 1) n; Some (b + 256 * r) end.

(** The state: the image, the offsets of the two tables in it, and [sym_count]. *)
Record symbols := Symbols { sym_image : list Z; sym_table : option Z; sym_strtab : option Z; sym_count : Z; sym_ready : bool }.

Definition no_symbols : symbols := Symbols [] None None 0 false.

Definition shdr (img : list Z) (shoff i off : Z) (n : nat) : option Z := img_load img (shoff + 64 * i + off) n.

(** The search for the first symbol table section. *)
Fixpoint find_symtab (img : list Z) (shoff shnum : Z) (i : Z) (fuel : nat) : option symbols :=
  match fuel with
  | O => Some (Symbols img None None 0 false)
  | S fuel =>
      if i <? shnum then
        t ← shdr img shoff i 4 4;
        if t =? SHT_SYMTAB then
          o ← shdr img shoff i 24 8; sz ← shdr img shoff i 32 8; es ← shdr img shoff i 56 8; l ← shdr img shoff i 40 4;
          if es =? 0 then None
          else
            str ← (if l <? shnum then
                     t2 ← shdr img shoff l 4 4; if t2 =? SHT_STRTAB then o2 ← shdr img shoff l 24 8; Some (Some o2) else Some None
                   else Some None);
            Some (Symbols img (Some o) str (sz / es) false)
        else find_symtab img shoff shnum (i + 1) fuel
      else Some (Symbols img None None 0 false)
  end.

(** [file]: the kernel file of the boot loader, with its address. *)
Definition dbg_symbols_init (file : option (option (list Z))) : option (symbols * list Z) :=
  match file with
  | None => Some (no_symbols, crlf (txt "[WARN][SYM] No executable file from Limine"))
  | Some None => Some (no_symbols, crlf (txt "[WARN][SYM] ELF base is NULL"))
  | Some (Some img) =>
      magic ← img_load img 0 4;
      if negb (magic =? 0x464C457F) then Some (no_symbols, crlf (txt "[WARN][SYM] Invalid ELF magic"))
      else
        shoff ← img_load img 40 8; shnum ← img_load img 60 2;
        s ← find_symtab img shoff shnum 0 (Z.to_nat shnum);
        match sym_table s, sym_strtab s with
        | Some _, Some _ =>
            if 0 <? sym_count s then
              t ← dbg_serial_printf (crlf (txt "[INFO][SYM] Loaded %llu symbols")) [DInt (sym_count s)];
              Some (Symbols (sym_image s) (sym_table s) (sym_strtab s) (sym_count s) true, t)
            else Some (s, crlf (txt "[WARN][SYM] No .symtab found in kernel ELF"))
        | _, _ => Some (s, crlf (txt "[WARN][SYM] No .symtab found in kernel ELF"))
        end
  end.

Definition sym_at (s : symbols) (i : Z) : option elf64_sym :=
  o ← sym_table s; let a := o + 24 * i in
  n ← img_load (sym_image s) a 4; f ← img_load (sym_image s) (a + 4) 1; v ← img_load (sym_image s) (a + 8) 8; sz ← img_load (sym_image s) (a + 16) 8;
  Some (Elf64Sym n f v sz).

(** One round: the best match so far is the offset of its name, its address and its
    distance. *)
Definition consider (addr : Z) (best : option Z * Z * Z) (y : elf64_sym) : option Z * Z * Z :=
  let '(_, _, best_dist) := best in
  if negb (ELF64_ST_TYPE (st_info y) =? STT_FUNC) then best
  else if st_value y =? 0 then best
  else if addr <? st_value y then best
  else
    let dist := u64 (addr - st_value y) in
    if (0 <? st_size y) && (st_size y <=? dist) then best
    else if dist <? best_dist then (Some (st_name y), st_value y, dist) else best.

Fixpoint resolve_loop (s : symbols) (addr i : Z) (n : nat) (best : option Z * Z * Z) : option (option Z * Z * Z) :=
  match n with O => Some best | S n => y ← sym_at s i; resolve_loop s addr (i + 1) n (consider addr best y) end.

(** The name, as the offset in the string table, and the distance. *)
Definition dbg_resolve_symbol (s : symbols) (addr : Z) : option (option (Z * Z)) :=
  if negb (sym_ready s) then Some None
  else '(name, base, _) ← resolve_loop s addr 0 (Z.to_nat (sym_count s)) (None, 0, 2 ^ 64 - 1); Some (n ← name; Some (n, u64 (addr - base))).

(** The characters of a name, from the image. *)
Definition sym_name (s : symbols) (name : Z) : option (list Z) :=
  o ← sym_strtab s; let l := drop (Z.to_nat (o + name)) (sym_image s) in
  if bool_decide (0 ∈ l) then Some (c_str l) else None.

Definition dbg_cmd_sym (s : symbols) (argv : list (list Z)) : option (list Z) :=
  match argv with
  | _ :: a :: _ =>
      let addr := sym_parse_hex a in
      r ← dbg_resolve_symbol s addr;
      match r with
      | Some (name, offset) => n ← sym_name s name; dbg_serial_printf (crlf (txt "0x%llx = %s+0x%llx")) [DInt addr; DStr (Some n); DInt offset]
      | None => dbg_serial_printf (crlf (txt "0x%llx = <unknown>")) [DInt addr]
      end
  | _ => Some (crlf (txt "Usage: sym <addr>"))
  end.

(** ** dbg_memory.c *)

Section memory.
Context {S : Type} `{FrameStore S}.

Definition PT_PRESENT : Z := Z.shiftl 1 0.
Definition PT_PS : Z := Z.shiftl 1 7.

(** The tables are read through the direct map. *)
Definition dbg_is_addr_mapped (m : vmm S) (addr : Z) : bool :=
  let cr3 := Z.ldiff (cr3 m) 0xFFF in
  let pml4e := tread (store m) cr3 (Z.land (Z.shiftr addr 39) 0x1FF) in
  if negb (has_flag pml4e PT_PRESENT) then false else
  let pdpte := tread (store m) (Z.land pml4e 0x000FFFFFFFFFF000) (Z.land (Z.shiftr addr 30) 0x1FF) in
  if negb (has_flag pdpte PT_PRESENT) then false else if has_flag pdpte PT_PS then true else
  let pde := tread (store m) (Z.land pdpte 0x000FFFFFFFFFF000) (Z.land (Z.shiftr addr 21) 0x1FF) in
  if negb (has_flag pde PT_PRESENT) then false else if has_flag pde PT_PS then true else
  let pte := tread (store m) (Z.land pde 0x000FFFFFFFFFF000) (Z.land (Z.shiftr addr 12) 0x1FF) in
  has_flag pte PT_PRESENT.

(** The processor's accesses.  An address whose upper 17 bits differ is not canonical. *)
Definition canonical (v : Z) : bool := (v <? 2 ^ 47) || (2 ^ 64 - 2 ^ 47 <=? v).

Definition translate (m : vmm S) (v : Z) : option Z := if canonical v then mmu_translate (store m) (Vmm.cr3 m) v else None.

Definition vread (m : vmm S) (v : Z) : option Z := p ← translate m v; Some (read_byte (store m) p).

Fixpoint vread_n (m : vmm S) (v : Z) (n : nat) : option Z :=
  match n with O => Some 0 | Datatypes.S n => b ← vread m v; r ← vread_n m (u64 (v + 1)) n; Some (b + 256 * r) end.

Definition vwrite (m : vmm S) (v b : Z) : option (vmm S) := p ← translate m v; Some (set_store m (store_byte (store m) p b)).

(** A byte of a line: its text and the byte for the right column. *)
Definition dump_byte (m : vmm S) (line_addr count i : Z) : option (list Z * Z) :=
  let gap := if i =? 7 then [32; 32] else [32] in
  if (i <? count) && dbg_is_addr_mapped m (u64 (line_addr + i)) then
    b ← vread m (u64 (line_addr + i));
    h ← dbg_serial_printf (txt "%x") [DInt (Z.shiftr b 4)]; l ← dbg_serial_printf (txt "%x") [DInt (Z.land b 0xF)];
    Some (h ++ l ++ gap, b)
  else Some ([32; 32] ++ gap, 0).

Definition dump_char (b : Z) : Z := let c := s8 b in if (32 <=? c) && (c <=? 126) then c else 46.

Definition dump_line (m : vmm S) (addr len off : Z) : option (list Z) :=
  let line_addr := u64 (addr + off) in
  if negb (dbg_is_addr_mapped m line_addr) then dbg_serial_printf (crlf (txt "%llx: <unmapped>")) [DInt line_addr]
  else
    head ← dbg_serial_printf (txt "%llx: ") [DInt line_addr];
    let count := if u64 (off + 16) <=? len then 16 else u64 (len - off) in
    bs ← mapM (dump_byte m line_addr count) (seqZ 0 16);
    Some (crlf (head ++ concat bs.*1 ++ [32] ++ map dump_char (take (Z.to_nat count) bs.*2))).

Fixpoint dump_loop (m : vmm S) (addr len off : Z) (fuel : nat) : option (list Z) :=
  match fuel with
  | O => None
  | Datatypes.S fuel => if off <? len then l ← dump_line m addr len off; ls ← dump_loop m addr len (u64 (off + 16)) fuel; Some (l ++ ls) else Some []
  end.

Definition dbg_mem_dump (fuel : nat) (m : vmm S) (addr len : Z) : option (list Z) := dump_loop m addr (if len =? 0 then 64 else len) 0 fuel.

(** The first address of a range that is not mapped. *)
Fixpoint first_unmapped (m : vmm S) (addr i : Z) (n : nat) : option Z :=
  match n with
  | O => None
  | Datatypes.S n => if dbg_is_addr_mapped m (u64 (addr + i)) then first_unmapped m addr (i + 1) n else Some (u64 (addr + i))
  end.

Fixpoint write_loop (m : vmm S) (addr : Z) (data : list Z) : option (vmm S) :=
  match data with [] => Some m | b :: data => m1 ← vwrite m addr b; write_loop m1 (u64 (addr + 1)) data end.

Definition dbg_mem_write (m : vmm S) (addr : Z) (data : list Z) : option (vmm S * list Z * bool) :=
  match first_unmapped m addr 0 (length data) with
  | Some a => t ← dbg_serial_printf (crlf (txt "memw: address 0x%llx is unmapped")) [DInt a]; Some (m, t, false)
  | None => m1 ← write_loop m addr data; t ← dbg_serial_printf (crlf (txt "memw: wrote %llu bytes at 0x%llx")) [DInt (alen data); DInt addr]; Some (m1, t, true)
  end.

(** [frame] counts up to 32. *)
Fixpoint backtrace_loop (m : vmm S) (y : symbols) (rbp frame : Z) (n : nat) : option (list Z) :=
  match n with
  | O => Some []
  | Datatypes.S n =>
      if negb (dbg_is_addr_mapped m rbp) || negb (dbg_is_addr_mapped m (u64 (rbp + 8))) then Some []
      else
        ret_addr ← vread_n m (u64 (rbp + 8)) 8; next_rbp ← vread_n m rbp 8;
        r ← dbg_resolve_symbol y ret_addr;
        t ← (match r with
             | Some (name, sym_off) =>
                 nm ← sym_name y name; dbg_serial_printf (crlf (txt "  #%d  0x%llx  %s+0x%llx")) [DInt frame; DInt ret_addr; DStr (Some nm); DInt sym_off]
             | None => dbg_serial_printf (crlf (txt "  #%d  0x%llx")) [DInt frame; DInt ret_addr]
             end);
        if (next_rbp =? 0) || (next_rbp <=? rbp) then Some t else ts ← backtrace_loop m y next_rbp (frame + 1) n; Some (t ++ ts)
  end.

Definition dbg_backtrace (m : vmm S) (y : symbols) (rbp : Z) : option (list Z) :=
  ts ← backtrace_loop m y rbp 0 32; Some (crlf (txt "backtrace:") ++ ts).

Definition dbg_cmd_mem (fuel : nat) (m : vmm S) (argv : list (list Z)) : option (list Z) :=
  match argv with
  | _ :: a :: rest => dbg_mem_dump fuel m (cmd_parse_hex a) (match rest with l :: _ => cmd_parse_uint l | [] => 64 end)
  | _ => Some (crlf (txt "Usage: mem <addr> [len]"))
  end.

Definition dbg_cmd_memw (m : vmm S) (argv : list (list Z)) : option (vmm S * list Z) :=
  match argv with
  | _ :: a :: b :: rest =>
      '(m1, t, _) ← dbg_mem_write m (cmd_parse_hex a) (map (fun x => u8 (cmd_parse_hex x)) (take 64 (b :: rest))); Some (m1, t)
  | _ => Some (m, crlf (txt "Usage: memw <addr> <byte> [byte ...]"))
  end.

End memory.

(** ** dbg_regs.c *)

(** The lines of the dump; the registers in the order in which they are printed. *)
Definition regs_lines : list (list Z) :=
  map crlf [txt "--- Registers ---"; txt "RAX=%llx  RBX=%llx  RCX=%llx  RDX=%llx"; txt "RSI=%llx  RDI=%llx  RBP=%llx  RSP=%llx";
    txt "R8 =%llx  R9 =%llx  R10=%llx  R11=%llx"; txt "R12=%llx  R13=%llx  R14=%llx  R15=%llx"; txt "RFLAGS=%llx";
    txt "CR0=%llx  CR2=%llx  CR3=%llx  CR4=%llx"; txt "DR0=%llx  DR1=%llx  DR2=%llx  DR3=%llx  DR7=%llx"; txt "--- End Registers ---"].

Definition regs_counts : list nat := [0; 4; 4; 4; 4; 1; 4; 5; 0]%nat.

Fixpoint regs_text (fmts : list (list Z)) (counts : list nat) (vals : list Z) : option (list Z) :=
  match fmts, counts with
  | f :: fmts, n :: counts => t ← dbg_serial_printf f (map DInt (take n vals)); ts ← regs_text fmts counts (drop n vals); Some (t ++ ts)
  | _, _ => Some []
  end.

(** [live]: what the instructions of [dbg_regs_dump] read. *)
Definition dbg_regs_dump (live : list Z) : option (list Z) := regs_text regs_lines regs_counts live.
