(* ===== verification/DbgThm.v ===== *)
(** The debugger: formatted output, breakpoints, symbols, memory commands, traps and the
    serial port. *)
From stdpp Require Import prelude gmap list strings.
From Stdlib Require Import ZArith Lia.
From S2P Require Import Prelude Bitmap Pmm Frames Vmm VmmTree KString Klog Printf PrintfThm Spinlock Task Sched Process Elf Framebuffer Pci Hal HalThm Asm AsmThm Dbg.

Open Scope Z_scope.

(** ** Formatted output *)

Inductive fmt_item := Lit (c : Z) | Dir (left_align : bool) (width : Z) (is_ll : bool) (k : Z).

(** A format as a sequence of characters and conversions. *)
Fixpoint fmt_items (fuel : nat) (fmt : list Z) : option (list fmt_item) :=
  match fuel, fmt with
  | _, [] => Some []
  | O, _ => None
  | S fuel, c :: rest =>
      if negb (c =? 37) then its ← fmt_items fuel rest; Some (Lit c :: its)
      else
        let '(left_align, f1) := take_flag 45 rest in let '(width, f2) := take_width 0 f1 in let '(is_ll, f3) := take_ll f2 in
        match f3 with [] => None | k :: f4 => its ← fmt_items fuel f4; Some (Dir left_align width is_ll k :: its) end
  end.

(** The text without a bound. *)
Fixpoint render (its : list fmt_item) (args : list darg) : option (list Z) :=
  match its with
  | [] => Some []
  | Lit c :: its => t ← render its args; Some (c :: t)
  | Dir l w ll k :: its => '(tmp, args') ← convert ll k args; t ← render its args'; Some (pad_to l w tmp ++ t)
  end.

Lemma take_full (n : nat) (l r : list Z) : (n <= length l)%nat -> take n (l ++ r) = take n l.
Proof. intros. by rewrite take_app_le by lia. Qed.

Lemma format_renders fuel : forall fmt its args t b, fmt_items fuel fmt = Some its -> render its args = Some t ->
  serial_format fuel fmt args (take 511 b) = Some (take 511 (b ++ t)).
Proof.
  induction fuel as [|fuel IH]; intros [|c rest] its args t b; cbn [fmt_items serial_format]; try done.
  - intros E. injection E as <-. intros Et. injection Et as <-. by rewrite app_nil_r.
  - intros E. injection E as <-. intros Et. injection Et as <-. by rewrite app_nil_r.
  - intros E Et. change (DBG_LOG_BUF_SIZE - 1) with 511. change (Z.to_nat 511) with 511%nat. unfold alen. rewrite length_take.
    destruct (Z.ltb_spec (Z.of_nat (511 `min` length b)) 511) as [Hl|Hl]; cbn [negb]; [|by rewrite take_full by lia].
    rewrite take_ge by lia. destruct (negb (c =? 37)).
    + destruct (fmt_items fuel rest) as [its1|] eqn:E1; [|done]. injection E as <-. cbn [render] in Et. destruct (render its1 args) as [t1|] eqn:E2; [|done].
      injection Et as <-. rewrite <- (take_ge (b ++ [c]) 511) by (rewrite length_app; cbn; lia). rewrite (IH _ its1 _ t1 _ E1 E2). by rewrite <- app_assoc.
    + destruct (take_flag 45 rest) as [l f1]. destruct (take_width 0 f1) as [w f2]. destruct (take_ll f2) as [ll f3]. destruct f3 as [|k f4]; [done|].
      destruct (fmt_items fuel f4) as [its1|] eqn:E1; [|done]. injection E as <-. cbn [render] in Et. destruct (convert ll k args) as [[tmp args']|]; [|done].
      cbn [mbind option_bind] in Et |- *. destruct (render its1 args') as [t1|] eqn:E2; [|done]. injection Et as <-.
      rewrite (IH _ its1 _ t1 _ E1 E2). by rewrite app_assoc.
Qed.

Lemma printf_renders fmt its args t : fmt_items (length fmt) fmt = Some its -> render its args = Some t -> dbg_serial_printf fmt args = Some (c_str (take 511 t)).
Proof. intros E Et. unfold dbg_serial_printf. change [] with (take 511 ([] : list Z)) at 1. by rewrite (format_renders _ _ _ _ _ [] E Et). Qed.

Lemma rev_digits_spec upper base v : base = 10 \/ base = 16 -> 0 <= v < 2 ^ 64 -> rev_digits upper base v = Some (rev (numeral upper base v)).
Proof.
  intros Hb Hv. pose proof (render_buffer_spec upper base v 0 0 Hb Hv ltac:(lia)) as E. unfold render_buffer in E.
  change (if v =? 0 then tb_put [] 48 else render_digits upper base v [] 21) with (rev_digits upper base v) in E. destruct (rev_digits upper base v) as [tb|]; [|done].
  cbn [mbind option_bind] in E. rewrite (render_pad_spec 0 0 0 tb 21) in E by (unfold alen; lia). rewrite app_nil_r in E. injection E as ->.
  unfold padded. by replace (Z.to_nat (0 - alen (numeral upper base v))) with 0%nat by (unfold alen; lia).
Qed.

Lemma numeral_length upper base v : (length (numeral upper base v) <= 20)%nat.
Proof. unfold numeral. case_bool; [cbn; lia|]. rewrite length_rev, length_map. apply lsd_length. Qed.

Definition is_int_conv (k : Z) : bool := (k =? 100) || (k =? 105) || (k =? 117) || (k =? 120) || (k =? 88) || (k =? 112).
Definition is_signed_conv (k : Z) : bool := (k =? 100) || (k =? 105).

(** The text of an integer conversion. *)
Definition int_text (ll : bool) (k v : Z) : list Z :=
  if is_signed_conv k then let val := signed_arg ll v in (if val <? 0 then [45] else []) ++ numeral false 10 (Z.abs val)
  else if k =? 117 then numeral false 10 (unsigned_arg ll v)
  else numeral (k =? 88) 16 (unsigned_arg (ll || (k =? 112)) v).

Lemma unsigned_range ll v : 0 <= unsigned_arg ll v < 2 ^ 64.
Proof. unfold unsigned_arg, wrap. destruct ll; [apply Z.mod_pos_bound; lia|]. pose proof (Z.mod_pos_bound v (2 ^ 32)). lia. Qed.

Lemma signed_range ll v : - 2 ^ 63 <= signed_arg ll v < 2 ^ 63 /\ (ll = false -> - 2 ^ 31 <= signed_arg ll v).
Proof.
  unfold signed_arg, swrap. destruct ll.
  - pose proof (Z.mod_pos_bound (v + 2 ^ (64 - 1)) (2 ^ 64)). lia.
  - pose proof (Z.mod_pos_bound (v + 2 ^ (32 - 1)) (2 ^ 32)). lia.
Qed.

Lemma convert_int ll k v args : is_int_conv k = true -> (is_signed_conv k = true -> signed_arg ll v <> INT64_MIN) -> convert ll k (DInt v :: args) = Some (int_text ll k v, args).
Proof.
  intros Hk Hs. unfold is_int_conv in Hk. unfold convert, int_text, is_signed_conv in *. unfold fetch_int.
  assert (T : forall l : list Z, (length l <= 63)%nat -> take 63 l = l) by (intros; by apply take_ge).
  destruct (Z.eqb_spec k 115) as [->|]; [done|]. destruct (Z.eqb_spec k 99) as [->|]; [done|].
  destruct ((k =? 100) || (k =? 105)) eqn:E1; cbn [mbind option_bind].
  - specialize (Hs eq_refl). rewrite (proj2 (Z.eqb_neq _ _) Hs). pose proof (signed_range ll v) as [Hr _]. unfold INT64_MIN in Hs.
    rewrite rev_digits_spec by (by left || lia). cbn [mbind option_bind]. rewrite rev_involutive, T; [done|]. rewrite length_app. pose proof (numeral_length false 10 (Z.abs (signed_arg ll v))). destruct (_ <? 0); cbn [length]; lia.
  - destruct (k =? 117) eqn:E2; cbn [mbind option_bind].
    + rewrite rev_digits_spec by (by left || apply unsigned_range). cbn [mbind option_bind]. rewrite rev_involutive, T; [done|]. pose proof (numeral_length false 10 (unsigned_arg ll v)). lia.
    + rewrite ?E1, ?E2 in Hk. cbn [orb] in Hk. rewrite Hk. cbn [mbind option_bind].
      rewrite rev_digits_spec by (by right || apply unsigned_range). cbn [mbind option_bind]. rewrite rev_involutive, T; [done|]. pose proof (numeral_length (k =? 88) 16 (unsigned_arg (ll || (k =? 112)) v)). lia.
Qed.

(** Conversions and arguments that go together. *)
Fixpoint args_fit (its : list fmt_item) (args : list darg) : bool :=
  match its with
  | [] => true
  | Lit _ :: its => args_fit its args
  | Dir _ _ ll k :: its =>
      if k =? 115 then match args with DStr _ :: args => args_fit its args | _ => false end
      else if k =? 37 then args_fit its args
      else match args with DInt _ :: args => is_int_conv k && negb (ll && is_signed_conv k) && args_fit its args | _ => false end
  end.

Lemma render_total its : forall args, args_fit its args = true -> exists t, render its args = Some t.
Proof.
  induction its as [|[c|l w ll k] its IH]; intros args; cbn [args_fit render]; [by eexists| |].
  - intros (t & E)%IH. rewrite E. by eexists.
  - destruct (Z.eqb_spec k 115) as [->|].
    { destruct args as [|[?|s] args]; [done..|]. intros (t & E)%IH. cbn [convert fetch_str mbind option_bind]. cbn. rewrite E. by eexists. }
    destruct (Z.eqb_spec k 37) as [->|]; [intros (t & E)%IH; cbn; rewrite E; by eexists|].
    destruct args as [|[v|?] args]; [done| |done]. intros [[Hk Hn]%andb_true_iff (t & E)%IH]%andb_true_iff. rewrite convert_int.
    + cbn [mbind option_bind]. rewrite E. by eexists.
    + done.
    + intros Hsg. rewrite Hsg, andb_true_r in Hn. destruct ll; [done|]. pose proof (signed_range false v) as [_ Hr]. specialize (Hr eq_refl). unfold INT64_MIN. lia.
Qed.

(** Every line of the debugger can be printed. *)
Lemma printf_ok fmt args its : fmt_items (length fmt) fmt = Some its -> args_fit its args = true -> exists t, dbg_serial_printf fmt args = Some t.
Proof. intros E Ha. destruct (render_total its args Ha) as (t & Et). eexists. by apply (printf_renders _ its _ t). Qed.

(** ** Breakpoints *)

(** The processor stops before the instruction at [a]: a slot is enabled, locally or
    globally, its condition and length fields ask for instructions, and it holds [a]. *)
Definition condition (b : bps) (i : Z) : Z := Z.land (Z.shiftr (dr7 b) (16 + 4 * i)) 15.
Definition stops (b : bps) (a : Z) : Prop :=
  exists i, 0 <= i < 4 /\ (Z.testbit (dr7 b) (2 * i) = true \/ Z.testbit (dr7 b) (2 * i + 1) = true) /\ condition b i = 0 /\ aget 0 (dr b) i = a.

(** The commands, and what they mean for four slots. *)
Inductive bp_op := BpSet (a : Z) | BpClear (n : Z).

Fixpoint first_free (slots : list (option Z)) : option nat :=
  match slots with [] => None | None :: _ => Some O | Some _ :: slots => S <$> first_free slots end.

Definition slots_op (slots : list (option Z)) (o : bp_op) : list (option Z) * Z :=
  match o with
  | BpSet a => match first_free slots with Some i => (<[i := Some a]> slots, Z.of_nat i) | None => (slots, -1) end
  | BpClear n => (if (0 <=? n) && (n <=? 3) then <[Z.to_nat n := None]> slots else slots, 0)
  end.

Fixpoint slots_run (slots : list (option Z)) (ops : list bp_op) : list (option Z) * list Z :=
  match ops with [] => (slots, []) | o :: ops => let '(s1, r) := slots_op slots o in let '(s2, rs) := slots_run s1 ops in (s2, r :: rs) end.

Definition bp_op_run (b : bps) (o : bp_op) : option (bps * Z) :=
  match o with BpSet a => '(b1, r, _) ← dbg_bp_set b a; Some (b1, r) | BpClear n => '(b1, _) ← dbg_bp_clear b n; Some (b1, 0) end.

Fixpoint bp_run (b : bps) (ops : list bp_op) : option (bps * list Z) :=
  match ops with [] => Some (b, []) | o :: ops => '(b1, r) ← bp_op_run b o; '(b2, rs) ← bp_run b1 ops; Some (b2, r :: rs) end.

(** After reset. *)
Definition bps_reset : bps := Bps [0; 0; 0; 0] [false; false; false; false] [0; 0; 0; 0] 0x400.

Definition bps_rel (b : bps) (slots : list (option Z)) : Prop :=
  bp_addr b = map (default 0) slots /\ bp_active b = map (fun x => bool_decide (is_Some x)) slots /\ dr b = map (default 0) slots /\ length slots = 4%nat /\
  (forall i, 0 <= i < 4 -> Z.testbit (dr7 b) (2 * i) = bool_decide (is_Some (slots !!! Z.to_nat i)) /\ Z.testbit (dr7 b) (2 * i + 1) = false) /\
  (forall j, 16 <= j < 32 -> Z.testbit (dr7 b) j = false).

Lemma free_slot_spec slots : forall i, free_slot (map (fun x : option Z => bool_decide (is_Some x)) slots) i = match first_free slots with Some n => i + Z.of_nat n | None => -1 end.
Proof.
  induction slots as [|[a|] slots IH]; intros i; cbn [map free_slot first_free]; [done| |].
  - rewrite bool_decide_true by done. rewrite IH. destruct (first_free slots); cbn [fmap option_fmap option_map]; lia.
  - rewrite bool_decide_false by (by intros [? ?]). lia.
Qed.

Lemma first_free_lookup slots i : first_free slots = Some i -> slots !! i = Some None.
Proof.
  revert i. induction slots as [|[a|] slots IH]; intros i; cbn [first_free]; [done| |by intros [= <-]].
  destruct (first_free slots) as [j|]; [|done]. intros [= <-]. by apply IH.
Qed.

Lemma first_free_none slots : first_free slots = None -> Forall is_Some slots.
Proof. induction slots as [|[a|] slots IH]; cbn [first_free]; [done| |done]. intros E%fmap_None. constructor; [done|by apply IH]. Qed.

(** Writing one slot. *)
Lemma bps_rel_write b slots n x d : bps_rel b slots -> 0 <= n < 4 ->
  (forall j, 0 <= j -> j <> 2 * n -> Z.testbit d j = Z.testbit (dr7 b) j) -> Z.testbit d (2 * n) = bool_decide (is_Some x) ->
  bps_rel (dr7_write (dr_write (set_slot b n (default 0 x) (bool_decide (is_Some x))) n (default 0 x)) d) (<[Z.to_nat n := x]> slots).
Proof.
  intros (Ea & Eb & Ed & Hl & Hb & Hc) Hn Hd Hx. unfold dr_write, set_slot, dr7_write. cbn [bp_addr bp_active dr dr7].
  rewrite (proj2 (Z.leb_le 0 n)), (proj2 (Z.leb_le n 3)) by lia. cbn [andb]. unfold aset. rewrite Ea, Eb, Ed. split_and!; cbn [bp_addr bp_active dr dr7].
  - by rewrite list_fmap_insert.
  - by rewrite (list_fmap_insert (fun x : option Z => bool_decide (is_Some x))).
  - by rewrite list_fmap_insert.
  - by rewrite length_insert.
  - intros i Hi. destruct (decide (i = n)) as [->|Hne].
    + rewrite list_lookup_total_insert_eq by lia. split; [done|]. rewrite Hd by lia. by apply Hb.
    + rewrite list_lookup_total_insert_ne by lia. rewrite !Hd by lia. by apply Hb.
  - intros j Hj. rewrite Hd by lia. by apply Hc.
Qed.

Lemma bit_set x k j : 0 <= k -> 0 <= j -> Z.testbit (Z.lor x (Z.shiftl 1 k)) j = (j =? k) || Z.testbit x j.
Proof. intros Hk Hj. rewrite Z.lor_spec, Z.shiftl_1_l, Z.pow2_bits_eqb, orb_comm, Z.eqb_sym by lia. done. Qed.

Lemma bit_clear x k j : 0 <= k -> 0 <= j -> Z.testbit (Z.ldiff x (Z.shiftl 1 k)) j = negb (j =? k) && Z.testbit x j.
Proof. intros Hk Hj. rewrite Z.ldiff_spec, Z.shiftl_1_l, Z.pow2_bits_eqb, andb_comm, Z.eqb_sym by lia. done. Qed.

Lemma bp_op_correct b slots o : bps_rel b slots -> exists b', bp_op_run b o = Some (b', (slots_op slots o).2) /\ bps_rel b' (slots_op slots o).1.
Proof.
  intros R. pose proof R as (_ & Eb & _ & Hl & _). destruct o as [a|n]; cbn [bp_op_run slots_op].
  - unfold dbg_bp_set. rewrite Eb, free_slot_spec. destruct (first_free slots) as [i|] eqn:Ef; cbn [snd fst].
    + assert (Hi : (i < 4)%nat) by (apply first_free_lookup, lookup_lt_Some in Ef; lia). rewrite (proj2 (Z.ltb_ge _ _)) by lia.
      match goal with |- context [dbg_serial_printf ?f ?args] => destruct (printf_ok f args _ eq_refl) as (t & ->); [reflexivity|] end.
      cbn [mbind option_bind]. eexists. split; [reflexivity|]. pose proof (bps_rel_write b slots (Z.of_nat i) (Some a)) as Hw. rewrite Nat2Z.id in Hw. apply Hw; [done|lia| |].
      * intros j Hj Hne. change (dr7 (dr_write _ _ _)) with (dr7 b). rewrite bit_set by lia. by rewrite (proj2 (Z.eqb_neq _ _)) by lia.
      * change (dr7 (dr_write _ _ _)) with (dr7 b). rewrite bit_set by lia. by rewrite (proj2 (Z.eqb_eq _ _)) by lia.
    + change (-1 <? 0) with true. cbv iota. match goal with |- context [dbg_serial_printf ?f ?args] => destruct (printf_ok f args _ eq_refl) as (t & ->); [reflexivity|] end.
      eexists. split; [reflexivity|done].
  - unfold dbg_bp_clear. destruct ((n <? 0) || (3 <? n)) eqn:En.
    + match goal with |- context [dbg_serial_printf ?f ?args] => destruct (printf_ok f args _ eq_refl) as (t & ->); [reflexivity|] end. cbn [mbind option_bind snd fst].
      eexists. split; [reflexivity|]. replace ((0 <=? n) && (n <=? 3)) with false; [done|]. symmetry. apply andb_false_iff. apply orb_true_iff in En as [?%Z.ltb_lt|?%Z.ltb_lt]; [left|right]; apply Z.leb_gt; lia.
    + apply orb_false_iff in En as [H1%Z.ltb_ge H2%Z.ltb_ge]. rewrite (proj2 (Z.leb_le 0 n)), (proj2 (Z.leb_le n 3)) by lia.
      match goal with |- context [dbg_serial_printf ?f ?args] => destruct (printf_ok f args _ eq_refl) as (t & ->); [reflexivity|] end. cbn [mbind option_bind snd fst andb].
      eexists. split; [reflexivity|]. apply (bps_rel_write b slots n None); [done|lia| |].
      * intros j Hj Hne. change (dr7 (dr_write _ _ _)) with (dr7 b). rewrite bit_clear by lia. by rewrite (proj2 (Z.eqb_neq _ _)) by lia.
      * change (dr7 (dr_write _ _ _)) with (dr7 b). rewrite bit_clear by lia. by rewrite (proj2 (Z.eqb_eq _ _)) by lia.
Qed.

Lemma rel_stops b slots : bps_rel b slots -> forall a, stops b a <-> Some a ∈ slots.
Proof.
  intros (Ea & Eb & Ed & Hl & Hb & Hc) a.
  assert (Cond : forall i, 0 <= i < 4 -> condition b i = 0).
  { intros i Hi. apply Z.bits_inj'. intros j Hj. unfold condition. rewrite Z.bits_0, Z.land_spec, Z.shiftr_spec by lia. change 15 with (Z.ones 4).
    destruct (Z.lt_ge_cases j 4); [by rewrite Hc by lia|]. by rewrite (Z.ones_spec_high 4 j), andb_false_r by lia. }
  assert (Dr : forall i, 0 <= i < 4 -> forall x, slots !! Z.to_nat i = Some x -> aget 0 (dr b) i = default 0 x).
  { intros i Hi x E. rewrite Ed. unfold aget. by rewrite list_lookup_fmap, E. }
  split.
  - intros (i & Hi & [He|He] & _ & E); [|by rewrite (proj2 (Hb i Hi)) in He].
    rewrite (proj1 (Hb i Hi)), bool_decide_eq_true in He. destruct (lookup_lt_is_Some_2 slots (Z.to_nat i)) as [x Hx]; [lia|].
    rewrite (list_lookup_total_correct _ _ _ Hx) in He. destruct He as [y ->]. rewrite (Dr i Hi _ Hx) in E. cbn in E. subst y. by eapply list_elem_of_lookup_2.
  - intros [i Hi]%list_elem_of_lookup_1. pose proof (lookup_lt_Some _ _ _ Hi). exists (Z.of_nat i). rewrite (Dr (Z.of_nat i)) with (x := Some a) by (lia || by rewrite Nat2Z.id).
    split_and!; [lia|lia| |by apply Cond; lia|done]. left. rewrite (proj1 (Hb (Z.of_nat i) ltac:(lia))), Nat2Z.id, (list_lookup_total_correct _ _ _ Hi). by apply bool_decide_true.
Qed.

Lemma bp_run_rel ops : forall b slots, bps_rel b slots -> exists b', bp_run b ops = Some (b', (slots_run slots ops).2) /\ bps_rel b' (slots_run slots ops).1.
Proof.
  induction ops as [|o ops IH]; intros b slots R; cbn [bp_run slots_run]; [by exists b|]. destruct (bp_op_correct b slots o R) as (b1 & -> & R1).
  destruct (slots_op slots o) as [s1 r]. cbn [fst snd mbind option_bind] in *. destruct (IH b1 s1 R1) as (b2 & -> & R2). destruct (slots_run s1 ops) as [s2 rs]. by exists b2.
Qed.

(** C40.  From reset, whatever sequence of breakpoints is set and cleared, the commands
    answer as four numbered slots do, and the processor then stops exactly at the
    addresses in the slots. *)
Theorem breakpoints_refine_slots ops : let '(slots, rs) := slots_run (replicate 4 None) ops in
  exists b, bp_run bps_reset ops = Some (b, rs) /\ bps_rel b slots /\ forall a, stops b a <-> Some a ∈ slots.
Proof.
  assert (R0 : bps_rel bps_reset (replicate 4 None)).
  { split_and!; try reflexivity.
    - intros i Hi. assert (i = 0 \/ i = 1 \/ i = 2 \/ i = 3) as [-> | [-> | [-> | ->]]] by lia; done.
    - intros j Hj. cbn [dr7 bps_reset]. change 0x400 with (2 ^ 10). rewrite Z.pow2_bits_eqb by lia. apply Z.eqb_neq. lia. }
  destruct (bp_run_rel ops _ _ R0) as (b & E & R). destruct (slots_run _ ops) as [slots rs]. exists b. split; [done|]. split; [done|]. by apply rel_stops.
Qed.

(** A data watchpoint leaves its condition behind: a breakpoint that is set in the same slot
    after the watchpoint has been cleared does not stop. *)
Example breakpoint_after_watch :
  match dbg_watch_set bps_reset 0x5000 2 1 with
  | Some (b1, _) => match bp_run b1 [BpClear 0; BpSet 0x400000] with Some (b2, rs) => rs = [0; 0] /\ aget 0 (dr b2) 0 = 0x400000 /\ condition b2 0 = 9 | None => False end
  | None => False
  end.
Proof. vm_compute. done. Qed.

(** ** Symbols *)

(** The function symbol whose range contains the address; a symbol without a size
    reaches to the end of memory. *)
Definition covers (addr : Z) (y : elf64_sym) : Prop :=
  ELF64_ST_TYPE (st_info y) = STT_FUNC /\ st_value y <> 0 /\ st_value y <= addr /\ (st_size y = 0 \/ addr - st_value y < st_size y).

Definition covers_b (addr : Z) (y : elf64_sym) : bool :=
  (ELF64_ST_TYPE (st_info y) =? STT_FUNC) && negb (st_value y =? 0) && negb (addr <? st_value y) && negb ((0 <? st_size y) && (st_size y <=? addr - st_value y)).

Definition sym_wf (y : elf64_sym) : Prop := 0 <= st_value y < 2 ^ 64 /\ 0 <= st_size y.

Lemma covers_spec addr y : sym_wf y -> covers_b addr y = true <-> covers addr y.
Proof.
  intros [Hv Hs]. unfold covers_b, covers. rewrite !andb_true_iff, !negb_true_iff, andb_false_iff, Z.eqb_eq, Z.eqb_neq, Z.ltb_ge, Z.ltb_ge, Z.leb_gt. intuition lia.
Qed.

Lemma consider_spec addr best y : 0 <= addr < 2 ^ 64 -> sym_wf y ->
  consider addr best y = if covers_b addr y && (addr - st_value y <? best.2) then (Some (st_name y), st_value y, addr - st_value y) else best.
Proof.
  intros Ha [Hv Hs]. destruct best as [[n b] d]. unfold consider, covers_b. cbn [snd].
  destruct (ELF64_ST_TYPE (st_info y) =? STT_FUNC); cbn [negb andb]; [|done]. destruct (st_value y =? 0); cbn [negb andb]; [done|].
  destruct (Z.ltb_spec addr (st_value y)); cbn [negb andb]; [done|]. rewrite wrap_small by (unfold fits; lia). by destruct (_ && _).
Qed.

(** The best match among the symbols seen so far. *)
Definition best_of (addr : Z) (pre : list elf64_sym) (best : option Z * Z * Z) : Prop :=
  (best = (None, 0, 2 ^ 64 - 1) /\ Forall (fun y => ~ covers addr y) pre) \/
  exists i y, best = (Some (st_name y), st_value y, addr - st_value y) /\ pre !! i = Some y /\ covers addr y /\
    forall j z, pre !! j = Some z -> covers addr z -> st_value z <= st_value y /\ (st_value z = st_value y -> (i <= j)%nat).

Lemma best_step addr pre best y : 0 <= addr < 2 ^ 64 -> sym_wf y -> best_of addr pre best -> best_of addr (pre ++ [y]) (consider addr best y).
Proof.
  intros Ha Hw B. rewrite consider_spec by done. destruct (covers_b addr y) eqn:Ec; cbn [andb].
  - apply covers_spec in Ec; [|done]. destruct B as [[-> Hn]|(i & x & -> & Hx & Cx & Hm)]; cbn [snd].
    + rewrite (proj2 (Z.ltb_lt _ _)) by (destruct Ec as (_ & ? & ? & _), Hw; lia). right. exists (length pre), y. split_and!; [done|by rewrite list_lookup_middle|done|].
      intros j z [Hz|[Hz E]]%lookup_snoc_Some Cz; [|subst z; split; [lia|intros _; lia]]. destruct (proj1 (Forall_lookup _ _) Hn j z); tauto.
    + destruct (Z.ltb_spec (addr - st_value y) (addr - st_value x)) as [Hlt|Hge]; right.
      * exists (length pre), y. split_and!; [done|by rewrite list_lookup_middle|done|]. intros j z [Hz|[Hz E]]%lookup_snoc_Some Cz; [|subst z; split; [lia|intros _; lia]].
        destruct (Hm j z) as [H1 _]; [tauto|done|]. split; lia.
      * exists i, x. split_and!; [done|by apply lookup_app_l_Some|done|]. intros j z [Hz|[Hz E]]%lookup_snoc_Some Cz; [by apply Hm; tauto|].
        subst z. apply lookup_lt_Some in Hx. split; lia.
  - assert (Nc : ~ covers addr y) by (intros C; apply covers_spec in C; [congruence|done]). destruct B as [[-> Hn]|(i & x & -> & Hx & Cx & Hm)].
    + left. split; [done|]. apply Forall_app. split; [done|]. by constructor.
    + right. exists i, x. split_and!; [done|by apply lookup_app_l_Some|done|]. intros j z [Hz|[Hz E]]%lookup_snoc_Some Cz; [by apply Hm; tauto|]. by subst z.
Qed.

(** The entries of the table, in order. *)
Fixpoint syms_from (s : symbols) (i : Z) (n : nat) : option (list elf64_sym) :=
  match n with O => Some [] | S n => y ← sym_at s i; ys ← syms_from s (i + 1) n; Some (y :: ys) end.

Lemma resolve_loop_spec s addr n : forall i pre best ys, 0 <= addr < 2 ^ 64 -> syms_from s i n = Some ys -> Forall sym_wf ys -> best_of addr pre best ->
  exists best', resolve_loop s addr i n best = Some best' /\ best_of addr (pre ++ ys) best'.
Proof.
  induction n as [|n IH]; intros i pre best ys Ha; cbn [syms_from resolve_loop].
  - intros [= <-] _ B. exists best. by rewrite app_nil_r.
  - destruct (sym_at s i) as [y|]; cbn [mbind option_bind]; [|done]. destruct (syms_from s (i + 1) n) as [zs|] eqn:E; cbn [mbind option_bind]; [|done].
    intros [= <-] [Hw Hws]%Forall_cons B. destruct (IH (i + 1) (pre ++ [y]) _ zs Ha E Hws (best_step _ _ _ _ Ha Hw B)) as (best' & E' & B'). exists best'. by rewrite <- app_assoc in B'.
Qed.

Lemma img_load_range img n : Forall (fun b => 0 <= b < 256) img -> forall a v, img_load img a n = Some v -> 0 <= v < 256 ^ Z.of_nat n.
Proof.
  intros Hi. induction n as [|n IH]; intros a v; cbn [img_load]; [intros [= <-]; lia|].
  destruct (if 0 <=? a then img !! Z.to_nat a else None) as [b|] eqn:Eb; cbn [mbind option_bind]; [|done]. destruct (img_load img (a + 1) n) as [r|] eqn:Er; cbn [mbind option_bind]; [|done].
  intros [= <-]. apply IH in Er. destruct (0 <=? a); [|done]. assert (0 <= b < 256) by (by eapply (proj1 (Forall_lookup _ _) Hi)).
  rewrite Nat2Z.inj_succ, Z.pow_succ_r by lia. nia.
Qed.

Lemma sym_at_wf s i y : Forall (fun b => 0 <= b < 256) (sym_image s) -> sym_at s i = Some y -> sym_wf y.
Proof.
  intros Hi. unfold sym_at. destruct (sym_table s) as [o|]; [|done]. cbn [mbind option_bind].
  destruct (img_load _ _ 4); [|done]. cbn [mbind option_bind]. destruct (img_load _ _ 1); [|done]. cbn [mbind option_bind].
  destruct (img_load _ (o + 24 * i + 8) 8) as [val|] eqn:Ev; [|done]. cbn [mbind option_bind]. destruct (img_load _ (o + 24 * i + 16) 8) as [size|] eqn:Ez; [|done]. cbn [mbind option_bind].
  intros [= <-]. apply img_load_range in Ev, Ez; [|done..]. split; cbn [st_value st_size]; [exact Ev|lia].
Qed.

Lemma syms_from_wf s n : Forall (fun b => 0 <= b < 256) (sym_image s) -> forall i ys, syms_from s i n = Some ys -> Forall sym_wf ys.
Proof.
  intros Hi. induction n as [|n IH]; intros i ys; cbn [syms_from]; [by intros [= <-]|]. destruct (sym_at s i) as [y|] eqn:Ey; cbn [mbind option_bind]; [|done].
  destruct (syms_from s (i + 1) n) as [zs|] eqn:E; cbn [mbind option_bind]; [|done]. intros [= <-]. constructor; [by eapply sym_at_wf|by eapply IH].
Qed.

(** An address is resolved to the function symbol that contains it; among several to
    the one that starts closest below it, and among those to the first of the table.
    [None] means that no function symbol contains it. *)
Theorem dbg_resolve_symbol_correct s addr ys : sym_ready s = true -> Forall (fun b => 0 <= b < 256) (sym_image s) ->
  syms_from s 0 (Z.to_nat (sym_count s)) = Some ys -> 0 <= addr < 2 ^ 64 ->
  match dbg_resolve_symbol s addr with
  | None => False
  | Some None => Forall (fun y => ~ covers addr y) ys
  | Some (Some (name, off)) => exists i y, ys !! i = Some y /\ covers addr y /\ name = st_name y /\ off = addr - st_value y /\
      forall j z, ys !! j = Some z -> covers addr z -> st_value z <= st_value y /\ (st_value z = st_value y -> (i <= j)%nat)
  end.
Proof.
  intros Hr Hi Hy Ha. pose proof (syms_from_wf s _ Hi _ _ Hy) as Hw. unfold dbg_resolve_symbol. rewrite Hr. cbn [negb].
  destruct (resolve_loop_spec s addr _ 0 [] (None, 0, 2 ^ 64 - 1) ys Ha Hy Hw) as (best & -> & [[-> Hn]|(i & y & -> & Hx & Cx & Hm)]); [left; by split|..]; cbn [mbind option_bind].
  - exact Hn.
  - exists i, y. split; [done|]. split; [done|]. split; [done|]. split; [|done]. pose proof Cx as (_ & _ & Hle & _). apply wrap_small. unfold fits.
    pose proof (proj1 (Forall_lookup _ _) Hw _ _ Hx) as [Hv _]. lia.
Qed.

(** *** A file with two functions *)

Fixpoint le (n : nat) (v : Z) : list Z := match n with O => [] | S n => v mod 256 :: le n (v / 256) end.

Definition demo_shdr (t off sz link es : Z) : list Z := le 4 0 ++ le 4 t ++ le 8 0 ++ le 8 0 ++ le 8 off ++ le 8 sz ++ le 4 link ++ le 4 0 ++ le 8 0 ++ le 8 es.

Definition demo_sym (name info v sz : Z) : list Z := le 4 name ++ le 1 info ++ le 1 0 ++ le 2 1 ++ le 8 v ++ le 8 sz.

Definition demo_elf : list Z :=
  [0x7F; 0x45; 0x4C; 0x46] ++ replicate 36 0 ++ le 8 64 ++ replicate 12 0 ++ le 2 3 ++ le 2 0 ++
  demo_shdr 0 0 0 0 0 ++ demo_shdr SHT_SYMTAB 256 48 2 24 ++ demo_shdr SHT_STRTAB 304 10 0 0 ++
  demo_sym 1 0x12 0x1000 0x20 ++ demo_sym 6 2 0x1100 0 ++ [0] ++ txt "main" ++ [0] ++ txt "isr" ++ [0].

Definition demo_symbols : symbols := match dbg_symbols_init (Some (Some demo_elf)) with Some (s, _) => s | None => no_symbols end.

Lemma dbg_resolve_symbol_correct_witness :
  dbg_resolve_symbol demo_symbols 0x1010 = Some (Some (1, 0x10)) /\ sym_name demo_symbols 1 = Some (txt "main") /\
  exists ys, syms_from demo_symbols 0 2 = Some ys /\
  match dbg_resolve_symbol demo_symbols 0x1030 with None => False | Some None => Forall (fun y => ~ covers 0x1030 y) ys | Some (Some _) => False end.
Proof.
  split; [vm_compute; reflexivity|]. split; [vm_compute; reflexivity|].
  exists [Elf64Sym 1 0x12 0x1000 0x20; Elf64Sym 6 2 0x1100 0]. split; [vm_compute; reflexivity|].
  assert (E : dbg_resolve_symbol demo_symbols 0x1030 = Some None) by (vm_compute; reflexivity).
  pose proof (dbg_resolve_symbol_correct demo_symbols 0x1030 [Elf64Sym 1 0x12 0x1000 0x20; Elf64Sym 6 2 0x1100 0]) as T. rewrite E in T |- *. apply T.
  - vm_compute. reflexivity.
  - apply (bool_decide_unpack _). vm_compute. exact I.
  - vm_compute. reflexivity.
  - lia.
Defined.

(** ** Memory *)

Section memory.
Context {St : Type} `{FrameStore St}.

(** No entry of the top table has the reserved bit 7, and the table is below 2^52. *)
Definition tables_sane (m : vmm St) : Prop :=
  0 <= cr3 m < 2 ^ 52 /\ forall i, 0 <= i < 512 -> has_flag (tread (store m) (Z.land (cr3 m) ADDR_MASK) i) PAGE_HUGE = false.

Lemma root_mask c : 0 <= c < 2 ^ 52 -> Z.ldiff c 0xFFF = Z.land c ADDR_MASK.
Proof.
  intros Hc. apply Z.bits_inj'. intros i Hi. rewrite Z.ldiff_spec, Z.land_spec. unfold ADDR_MASK.
  change 0x000FFFFFFFFFF000 with (Z.ldiff (Z.ones 52) (Z.ones 12)). change 0xFFF with (Z.ones 12). rewrite Z.ldiff_spec.
  destruct (Z.lt_ge_cases i 52); [by rewrite (Z.ones_spec_low 52 i) by lia|].
  assert (E : Z.testbit c i = false); [|by rewrite E]. rewrite <- (Z.mod_small c (2 ^ 52)) by lia. by apply Z.mod_pow2_bits_high.
Qed.

Lemma table_index_range x : 0 <= Z.land x 0x1FF < 512.
Proof. change 0x1FF with (Z.ones 9). rewrite Z.land_ones by lia. apply Z.mod_pos_bound. lia. Qed.

(** The walk of the debugger is that of the processor. *)
Lemma mapped_translates m v : tables_sane m -> dbg_is_addr_mapped m v = bool_decide (is_Some (mmu_translate (store m) (cr3 m) v)).
Proof.
  intros [Hc Hp]. unfold dbg_is_addr_mapped, mmu_translate. rewrite root_mask by done. specialize (Hp (PML4_INDEX v) (table_index_range _)).
  fold (PML4_INDEX v). fold (PDPT_INDEX v). fold (PD_INDEX v). fold (PT_INDEX v). rewrite Hp. change PT_PRESENT with PAGE_PRESENT. change PT_PS with PAGE_HUGE. change 0x000FFFFFFFFFF000 with ADDR_MASK.
  repeat match goal with |- context [has_flag ?e ?f] => destruct (has_flag e f); cbn [negb orb]; [try by rewrite bool_decide_true by done|try by rewrite bool_decide_false by (by intros [? ?])] end.
Qed.

Lemma mapped_reads m v : tables_sane m -> canonical v = true -> dbg_is_addr_mapped m v = true -> exists b, vread m v = Some b /\ 0 <= b < 256.
Proof.
  intros Hs Hc Hm. rewrite mapped_translates in Hm by done. apply bool_decide_eq_true in Hm as [p Hp]. unfold vread, translate. rewrite Hc, Hp. cbn [mbind option_bind].
  eexists. split; [reflexivity|]. unfold read_byte. change 255 with (Z.ones 8). rewrite Z.land_ones by lia. apply Z.mod_pos_bound. lia.
Qed.

(** The text of a dump. *)
Definition byte_of (m : vmm St) (v : Z) : Z := default 0 (vread m v).

Definition shown (m : vmm St) (a count i : Z) : bool := (i <? count) && bool_decide (is_Some (mmu_translate (store m) (cr3 m) (u64 (a + i)))).

Definition dump_cell (m : vmm St) (a count i : Z) : list Z :=
  (if shown m a count i then [digit_char false (byte_of m (u64 (a + i)) / 16); digit_char false (byte_of m (u64 (a + i)) mod 16)] else [32; 32]) ++
  (if i =? 7 then [32; 32] else [32]).

Definition dump_text (m : vmm St) (a count : Z) : list Z :=
  numeral false 16 a ++ [58; 32] ++
  (if bool_decide (is_Some (mmu_translate (store m) (cr3 m) a)) then
     concat (map (dump_cell m a count) (seqZ 0 16)) ++ [32] ++
     map (fun i => if shown m a count i then dump_char (byte_of m (u64 (a + i))) else 46) (seqZ 0 count)
   else txt "<unmapped>") ++ [13; 10].

Lemma printf_nibble d : 0 <= d < 16 -> dbg_serial_printf (txt "%x") [DInt d] = Some [digit_char false d].
Proof.
  intros Hd. assert (d = 0 \/ d = 1 \/ d = 2 \/ d = 3 \/ d = 4 \/ d = 5 \/ d = 6 \/ d = 7 \/ d = 8 \/ d = 9 \/ d = 10 \/ d = 11 \/ d = 12 \/ d = 13 \/ d = 14 \/ d = 15) as C by lia.
  repeat (destruct C as [-> | C]; [reflexivity|]). by subst.
Qed.

Lemma numeral_nonzero upper v : 0 <= v -> Forall (fun c => c <> 0) (numeral upper 16 v).
Proof.
  intros Hv. unfold numeral. case_bool; [by repeat constructor|]. apply Forall_rev, Forall_map. assert (L : forall k x, 0 <= x -> Forall (fun d => 0 <= d < 16) (lsd 16 k x)).
  { intros k. induction k as [|k IH]; intros x Hx; cbn [lsd]; [constructor|]. case_bool; [constructor|]. constructor; [apply Z.mod_pos_bound; lia|]. apply IH, Z.div_pos; lia. }
  eapply Forall_impl; [by apply L|]. intros d Hd. pose proof (digit_char_value upper d Hd) as [_ ?]. cbn. lia.
Qed.

Lemma printf_addr fmt v rest : fmt_items (length fmt) fmt = Some (Dir false 0 true 120 :: map Lit rest) -> 0 <= v < 2 ^ 64 -> (length rest <= 100)%nat -> Forall (fun c => c <> 0) rest ->
  dbg_serial_printf fmt [DInt v] = Some (numeral false 16 v ++ rest).
Proof.
  intros Hf Hv Hl Hz. assert (Hr : forall l, render (map Lit l) [] = Some l) by (intros l; induction l as [|c l IH]; [done|]; cbn [map render]; by rewrite IH).
  rewrite (printf_renders fmt _ [DInt v] (numeral false 16 v ++ rest) Hf).
  - rewrite take_ge by (rewrite length_app; pose proof (numeral_length false 16 v); lia). rewrite c_str_all; [done|]. apply Forall_app. split; [apply numeral_nonzero; lia|done].
  - cbn [render]. rewrite convert_int by done. cbn [mbind option_bind]. rewrite Hr. cbn [mbind option_bind]. unfold int_text. cbn [is_signed_conv Z.eqb Pos.eqb orb]. unfold pad_to, unsigned_arg.
    rewrite wrap_small by done. replace (Z.to_nat (0 - alen _)) with 0%nat by (unfold alen; lia). done.
Qed.

Lemma mapM_total {A B} (f : A -> option B) (g : A -> B) l : (forall x, x ∈ l -> f x = Some (g x)) -> mapM f l = Some (map g l).
Proof.
  induction l as [|x l IH]; intros Hf; [done|]. cbn [mapM mret option_ret map]. rewrite Hf by left. cbn [mbind option_bind]. rewrite IH by (intros; apply Hf; by right). done.
Qed.

Lemma dump_byte_spec m a count i : tables_sane m -> (i < count -> canonical (u64 (a + i)) = true) ->
  dump_byte m a count i = Some (dump_cell m a count i, if shown m a count i then byte_of m (u64 (a + i)) else 0).
Proof.
  intros Hs Hc. unfold dump_byte, dump_cell, shown. rewrite mapped_translates by done.
  destruct (Z.ltb_spec i count) as [Hi|Hi]; cbn [andb]; [|done]. destruct (bool_decide _) eqn:Em; [|done].
  destruct (mapped_reads m (u64 (a + i)) Hs (Hc Hi)) as (b & Eb & Hb); [by rewrite mapped_translates|]. unfold byte_of. rewrite Eb. cbn [mbind option_bind default from_option id].
  assert (E4 : Z.shiftr b 4 = b / 16) by (by rewrite Z.shiftr_div_pow2).
  assert (E15 : Z.land b 0xF = b mod 16) by (change 0xF with (Z.ones 4); by rewrite Z.land_ones).
  rewrite E4, E15, (printf_nibble (b / 16)) by (split; [apply Z.div_pos|apply Z.div_lt_upper_bound]; lia). cbn [mbind option_bind].
  by rewrite (printf_nibble (b mod 16)) by (apply Z.mod_pos_bound; lia).
Qed.

Lemma fst_map {A B C} (f : A -> B) (g : A -> C) l : (map (fun x => (f x, g x)) l).*1 = map f l.
Proof. induction l; cbn; congruence. Qed.

Lemma snd_map {A B C} (f : A -> B) (g : A -> C) l : (map (fun x => (f x, g x)) l).*2 = map g l.
Proof. induction l; cbn; congruence. Qed.

Lemma take_seqZ n k : 0 <= n <= k -> take (Z.to_nat n) (seqZ 0 k) = seqZ 0 n.
Proof.
  intros Hn. replace k with (n + (k - n)) by lia. rewrite seqZ_app by lia. rewrite take_app_le by (rewrite length_seqZ; lia). apply take_ge. rewrite length_seqZ. lia.
Qed.

Lemma dump_line_spec m addr len off : tables_sane m -> 0 <= addr + off < 2 ^ 64 -> 0 <= off < len -> len + 16 < 2 ^ 64 ->
  (forall i, off <= i < len -> canonical (u64 (addr + i)) = true) ->
  dump_line m addr len off = Some (dump_text m (addr + off) (Z.min 16 (len - off))).
Proof.
  intros Hs Ha Ho Hl Hc. unfold dump_line, dump_text. rewrite (wrap_small 64 (addr + off)) by done. rewrite mapped_translates by done.
  destruct (bool_decide _) eqn:Em; cbn [negb].
  - rewrite (printf_addr _ _ [58; 32]) by (done || (by repeat constructor) || (cbn; lia)). cbn [mbind option_bind].
    assert (Hcount : (if u64 (off + 16) <=? len then 16 else u64 (len - off)) = Z.min 16 (len - off)).
    { rewrite (wrap_small 64 (off + 16)), (wrap_small 64 (len - off)) by (unfold fits; lia). destruct (Z.leb_spec (off + 16) len); lia. }
    rewrite Hcount. set (count := Z.min 16 (len - off)).
    rewrite (mapM_total _ (fun i => (dump_cell m (addr + off) count i, if shown m (addr + off) count i then byte_of m (u64 (addr + off + i)) else 0))).
    + cbn [mbind option_bind]. rewrite fst_map, snd_map. unfold crlf. rewrite <- !app_assoc. do 5 f_equal. f_equal.
      rewrite <- !fmap_take, take_seqZ by lia. rewrite map_map. apply map_ext. intros i. by destruct (shown _ _ _ i).
    + intros i Hi%elem_of_seqZ. apply dump_byte_spec; [done|]. intros Hic. rewrite <- Z.add_assoc. apply Hc. lia.
  - rewrite (printf_addr _ _ (txt ": <unmapped>" ++ [13; 10])) by (done || (by repeat constructor) || (cbn; lia)). done.
Qed.

Lemma dump_loop_spec m addr len n : forall k fuel, tables_sane m -> 0 <= addr -> addr + len <= 2 ^ 64 -> 0 <= k -> len + 16 < 2 ^ 64 ->
  (forall i, 0 <= i < len -> canonical (u64 (addr + i)) = true) -> (n < fuel)%nat -> len <= 16 * (k + Z.of_nat n) -> 16 * (k + Z.of_nat n) < len + 16 ->
  dump_loop m addr len (16 * k) fuel = Some (concat (map (fun j => dump_text m (addr + 16 * j) (Z.min 16 (len - 16 * j))) (seqZ k (Z.of_nat n)))).
Proof.
  induction n as [|n IH]; intros k [|fuel] Hs Ha Hal Hk Hl Hc Hf H1 H2; try lia; cbn [dump_loop].
  - rewrite (proj2 (Z.ltb_ge _ _)) by lia. done.
  - rewrite (proj2 (Z.ltb_lt _ _)) by lia. rewrite dump_line_spec by (done || lia || (intros; apply Hc; lia)). cbn [mbind option_bind].
    rewrite wrap_small by (unfold fits; lia). replace (16 * k + 16) with (16 * (k + 1)) by lia. rewrite (IH (k + 1) fuel) by (done || lia). cbn [mbind option_bind].
    rewrite (seqZ_cons k) by lia. replace (Z.pred (Z.of_nat (S n))) with (Z.of_nat n) by lia. by rewrite <- Z.add_1_r.
Qed.

(** A dump of memory does not fault and ends, also when parts of the range are not
    mapped, and prints what the memory holds: a line for every sixteen bytes with the
    address, the bytes in hexadecimal, and the printable ones. *)
Theorem dbg_mem_dump_correct m addr len fuel : let n := if len =? 0 then 64 else len in
  tables_sane m -> 0 <= len -> 0 <= addr -> addr + n <= 2 ^ 64 -> n + 16 < 2 ^ 64 -> (forall i, 0 <= i < n -> canonical (u64 (addr + i)) = true) ->
  (n + 15) / 16 < Z.of_nat fuel ->
  dbg_mem_dump fuel m addr len = Some (concat (map (fun j => dump_text m (addr + 16 * j) (Z.min 16 (n - 16 * j))) (seqZ 0 ((n + 15) / 16)))).
Proof.
  intros n Hs Hlen Ha Hal Hl Hc Hf. unfold dbg_mem_dump. fold n. change 0 with (16 * 0) at 1. assert (Hn : 0 < n) by (unfold n; case_bool; lia).
  pose proof (Z.div_mod (n + 15) 16 ltac:(lia)). pose proof (Z.mod_pos_bound (n + 15) 16 ltac:(lia)). assert (0 <= (n + 15) / 16) by (apply Z.div_pos; lia).
  rewrite (dump_loop_spec m addr n (Z.to_nat ((n + 15) / 16)) 0 fuel) by (done || lia). by rewrite Z2Nat.id by lia.
Qed.

(** A write to a range with an address that is not mapped changes nothing. *)
Lemma first_unmapped_spec m addr n : forall i,
  match first_unmapped m addr i n with
  | Some a => exists j, i <= j < i + Z.of_nat n /\ a = u64 (addr + j) /\ dbg_is_addr_mapped m a = false /\ forall k, i <= k < j -> dbg_is_addr_mapped m (u64 (addr + k)) = true
  | None => forall j, i <= j < i + Z.of_nat n -> dbg_is_addr_mapped m (u64 (addr + j)) = true
  end.
Proof.
  induction n as [|n IH]; intros i; cbn [first_unmapped]; [intros; lia|]. destruct (dbg_is_addr_mapped m (u64 (addr + i))) eqn:E.
  - specialize (IH (i + 1)). destruct (first_unmapped m addr (i + 1) n) as [a|].
    + destruct IH as (j & Hj & -> & Hf & Hk). exists j. split_and!; [lia|lia|done|done|]. intros k Hk'. destruct (decide (k = i)) as [->|]; [done|apply Hk; lia].
    + intros j Hj. destruct (decide (j = i)) as [->|]; [done|apply IH; lia].
  - exists i. split_and!; [lia|lia|done|done|]. intros; lia.
Qed.

Lemma dbg_mem_write_refused m addr data : (exists j, 0 <= j < alen data /\ dbg_is_addr_mapped m (u64 (addr + j)) = false) ->
  exists t, dbg_mem_write m addr data = Some (m, t, false).
Proof.
  intros (j & Hj & Hm). unfold dbg_mem_write. pose proof (first_unmapped_spec m addr (length data) 0) as F. destruct (first_unmapped m addr 0 (length data)) as [a|].
  - destruct (printf_ok (crlf (txt "memw: address 0x%llx is unmapped")) [DInt a] _ eq_refl) as (t & ->); [done|]. by exists t.
  - rewrite F in Hm; [done|]. unfold alen in Hj. lia.
Qed.

End memory.

(** ** Traps *)

(** The part of the handlers behind the stub: the console is called, and whatever it
    does, the interrupted code goes on with what the frame holds then. *)
Lemma console_call env gate ra s sr : env DBG_CONSOLE_ENTER (push s ra) = Some sr -> regs sr RSP = regs s RSP -> 0 <= regs s RSP -> regs s RSP + 176 <= 2 ^ 64 ->
  exists s', exec env gate ra ([Call DBG_CONSOLE_ENTER] ++ map Pop isr_pops ++ [AddI RSP 16; Iretq]) s = Some s' /\
    let fr := frame_at (mem sr) (regs s RSP) in frame_of s' (int_no fr) (err_code fr) = fr.
Proof.
  intros Er Esp Hlo Hhi. set (fr := frame_at (mem sr) (regs s RSP)). assert (Lf := words_frame (mem sr) (regs s RSP) fr eq_refl). clearbody fr. rewrite <- Esp in Lf.
  destruct (isr_return env gate ra sr _ _ _ _ _ _ _ _ Lf) as (s' & E' & Hrip & Hcs & Hf & Hss & Hsp & _ & Hr); [done|lia|lia|].
  exists s'. split; [cbn [app]; by rewrite (exec_call env gate ra _ _ s sr Er)|]. by apply (saved_frame_restored s' (regs sr)).
Qed.

(** The frame with the trap flag cleared. *)
Definition clear_tf (fr : registers) : registers :=
  Registers (r_r15 fr) (r_r14 fr) (r_r13 fr) (r_r12 fr) (r_r11 fr) (r_r10 fr) (r_r9 fr) (r_r8 fr) (r_rbp fr) (r_rdi fr) (r_rsi fr) (r_rdx fr) (r_rcx fr) (r_rbx fr) (r_rax fr)
    (int_no fr) (err_code fr) (r_rip fr) (r_cs fr) (Z.land (r_rflags fr) (Z.lnot 0x100)) (r_rsp fr) (r_ss fr).

(** A debug exception shows the console the interrupted registers, and on [continue]
    the program goes on with them, without single-stepping. *)
Lemma dbg_trap_int1_resumes env gate ra s e : e_stack e mod 16 = 0 -> 184 <= e_stack e < 2 ^ 64 ->
  exists s3, frame_at (mem s3) (regs s3 RSP) = clear_tf (frame_of s 1 0) /\ regs s3 RSP = e_stack e - 176 /\
    forall sr, env DBG_CONSOLE_ENTER (push s3 ra) = Some sr -> regs sr RSP = regs s3 RSP -> frame_at (mem sr) (regs s3 RSP) = frame_at (mem s3) (regs s3 RSP) ->
      exists s', exec env gate ra dbg_trap_int1 (deliver s e 1 0) = Some s' /\ frame_of s' 1 0 = clear_tf (frame_of s 1 0).
Proof.
  intros He Hs. destruct (isr_enter env gate ra s e 1 0 He Hs) as (s2 & E2 & _ & Es & _ & L). change (pushes_error 1) with false in L.
  set (rf := Z.land (cell (mem s2) (u64 (regs s2 RSP + 152))) (Z.lnot (Z.shiftl 1 8))).
  set (s3 := set_mem (set_reg (set_reg s2 RAX (cell (mem s2) (u64 (regs s2 RSP + 152)))) RAX rf) (u64 (regs s2 RSP + 152)) rf).
  assert (E3 : regs s3 RSP = regs s2 RSP) by (cbn; by rewrite !decide_False).
  assert (Ea : u64 (regs s2 RSP + 152) = regs s2 RSP + 152) by (apply u64_add; lia).
  assert (Em : mem s3 = <[regs s2 RSP + 152 := rf]> (mem s2)) by (cbn; by rewrite Ea).
  pose proof (frame_words _ _ _ _ _ _ _ _ _ _ L) as Fr.
  assert (Frame : frame_at (mem s3) (regs s3 RSP) = clear_tf (frame_of s 1 0)).
  { rewrite E3, Em. unfold frame_at in Fr |- *. injection Fr as F0 F1 F2 F3 F4 F5 F6 F7 F8 F9 F10 F11 F12 F13 F14 F15 F16 F17 F18 F19 F20 F21.
    unfold clear_tf, frame_of. f_equal; rewrite cell_insert; try (rewrite decide_False by lia; assumption).
    rewrite decide_True by lia. unfold rf. rewrite Ea. replace (regs s2 RSP + 152) with (regs s2 RSP + 8 * 19) by lia. by rewrite F19. }
  exists s3. split; [done|]. split; [by rewrite E3|]. intros sr Er Esp Hfr.
  destruct (console_call env gate ra s3 sr Er Esp) as (s' & E' & Fs); [lia|lia|]. exists s'. cbv zeta in Fs. rewrite Hfr, Frame in Fs. split; [|exact Fs].
  change dbg_trap_int1 with ((isr_stub 1 ++ map Push isr_pushes) ++ [LoadB RAX RSP 152; AndI RAX (Z.lnot (Z.shiftl 1 8)); StoreO RSP 152 RAX] ++ ([Call DBG_CONSOLE_ENTER] ++ map Pop isr_pops ++ [AddI RSP 16; Iretq])).
  rewrite exec_app, E2. cbn [mbind option_bind]. rewrite exec_app.
  replace (exec env gate ra [LoadB RAX RSP 152; AndI RAX (Z.lnot (Z.shiftl 1 8)); StoreO RSP 152 RAX] s2) with (Some s3); [exact E'|].
  cbn [exec step mbind option_bind]. reflexivity.
Qed.

(** ** The serial port *)

Section port.
Context {W : Type} `{PortMachine W}.

(** A port that becomes ready after at most [patience] reads of its status, and keeps
    what it was given to send. *)
Context (sent : W -> list Z) (ready : nat -> W -> Prop) (patience : nat).
Hypothesis status_read : forall n w, ready n w -> let '(w1, v) := inb w (DBG_COM_PORT + 5) in
  sent w1 = sent w /\ if Z.testbit v 5 then ready 0 w1 else exists m, (m < n)%nat /\ ready m w1.
Hypothesis data_write : forall w c, ready 0 w -> sent (outb w DBG_COM_PORT c) = sent w ++ [c] /\ ready patience (outb w DBG_COM_PORT c).
Hypothesis ready_mono : forall n m w, (n <= m)%nat -> ready n w -> ready m w.

Lemma tx_bit v : (Z.land v 0x20 =? 0) = negb (Z.testbit v 5).
Proof.
  assert (E : Z.land v 0x20 = if Z.testbit v 5 then 32 else 0).
  { apply Z.bits_inj'. intros i Hi. change 0x20 with (2 ^ 5). rewrite Z.land_spec, Z.pow2_bits_eqb by lia. destruct (Z.eqb_spec 5 i) as [<-|Hne].
    - rewrite andb_true_r. destruct (Z.testbit v 5); [by vm_compute|by rewrite Z.bits_0].
    - rewrite andb_false_r. destruct (Z.testbit v 5); [|by rewrite Z.bits_0]. change 32 with (2 ^ 5). symmetry. rewrite Z.pow2_bits_eqb by lia. by apply Z.eqb_neq. }
  rewrite E. by destruct (Z.testbit v 5).
Qed.

Lemma tx_wait_ends n : forall w fuel, ready n w -> (n < fuel)%nat -> exists w1, tx_wait fuel w = Some w1 /\ sent w1 = sent w /\ ready 0 w1.
Proof.
  induction (lt_wf n) as [n _ IH]. intros w [|fuel] Hr Hf; [lia|]. cbn [tx_wait]. unfold dbg_tx_empty. pose proof (status_read n w Hr) as Hs. destruct (inb w (DBG_COM_PORT + 5)) as [w1 v].
  destruct Hs as [Es Hb]. rewrite tx_bit. destruct (Z.testbit v 5); cbn [negb]; [by exists w1|]. destruct Hb as (m & Hm & Hr1).
  destruct (IH m Hm w1 fuel Hr1) as (w2 & E & Es2 & R2); [lia|]. exists w2. split; [done|]. split; [congruence|done].
Qed.

(** Every character arrives, with a carriage return before every line feed. *)
Lemma dbg_serial_puts_sends fuel s : forall w, ready patience w -> (patience < fuel)%nat ->
  exists w1, dbg_serial_puts fuel w s = Some w1 /\ sent w1 = sent w ++ concat (map (fun c => (if c =? 10 then [13] else []) ++ [u8 c]) s) /\ ready patience w1.
Proof.
  induction s as [|c s IH]; intros w Hr Hf; cbn [dbg_serial_puts map concat]; [exists w; by rewrite app_nil_r|].
  assert (Send : forall w c, ready patience w -> exists w1, send fuel w c = Some w1 /\ sent w1 = sent w ++ [c] /\ ready patience w1).
  { intros w0 x R0. unfold send. destruct (tx_wait_ends patience w0 fuel R0 Hf) as (w1 & -> & E1 & R1). cbn [mbind option_bind]. destruct (data_write w1 x R1) as [E2 R2]. exists (outb w1 DBG_COM_PORT x). by rewrite E2, E1. }
  assert (Putc : exists w1, dbg_serial_putc fuel w c = Some w1 /\ sent w1 = sent w ++ (if c =? 10 then [13] else []) ++ [u8 c] /\ ready patience w1).
  { unfold dbg_serial_putc. destruct (c =? 10); cbn [mbind option_bind]; [|apply Send; done]. destruct (Send w 13 Hr) as (w1 & -> & E1 & R1). cbn [mbind option_bind].
    destruct (Send w1 (u8 c) R1) as (w2 & -> & E2 & R2). exists w2. split; [done|]. split; [|done]. by rewrite E2, E1, <- app_assoc. }
  destruct Putc as (w1 & -> & E1 & R1). cbn [mbind option_bind]. destruct (IH w1 R1 Hf) as (w2 & E2 & S2 & R2). exists w2. split; [done|]. split; [|done]. by rewrite S2, E1, <- !app_assoc.
Qed.

End port.

(** ** Witnesses *)

Lemma demo_ro_sane : tables_sane demo_ro.
Proof.
  split; [vm_compute; split; [discriminate|reflexivity]|]. assert (F : forallb (fun i => negb (has_flag (tread (store demo_ro) (Z.land (cr3 demo_ro) ADDR_MASK) i) PAGE_HUGE)) (seqZ 0 512) = true) by (vm_compute; reflexivity).
  intros i Hi. rewrite forallb_forall in F. apply negb_true_iff, F, list_elem_of_In, elem_of_seqZ. lia.
Qed.

Lemma dbg_mem_dump_correct_witness : exists t, dbg_mem_dump 8 demo_ro 0x400ff8 20 = Some t /\ t = dump_text demo_ro 0x400ff8 16 ++ dump_text demo_ro 0x401008 4 /\ alen t = 96.
Proof.
  exists (dump_text demo_ro 0x400ff8 16 ++ dump_text demo_ro 0x401008 4). split; [|split; [reflexivity|vm_compute; reflexivity]].
  rewrite (dbg_mem_dump_correct demo_ro 0x400ff8 20 8).
  - vm_compute. reflexivity.
  - exact demo_ro_sane.
  - lia.
  - lia.
  - vm_compute. discriminate.
  - vm_compute. reflexivity.
  - intros i Hi. change (if 20 =? 0 then 64 else 20) with 20 in Hi. rewrite wrap_small by (unfold fits; lia). unfold canonical. by rewrite (proj2 (Z.ltb_lt _ _)) by lia.
  - vm_compute. reflexivity.
Defined.

(** The check accepts addresses that are not canonical; the access faults. *)
Example dump_not_canonical : dbg_is_addr_mapped demo_ro (2 ^ 48 + 0x400000) = true /\ dbg_mem_dump 8 demo_ro (2 ^ 48 + 0x400000) 16 = None.
Proof. vm_compute. done. Qed.

(** The backtrace checks the first byte of each word only. *)
Example backtrace_faults : dbg_backtrace demo_ro no_symbols 0x400ff5 = None.
Proof. vm_compute. reflexivity. Qed.

(** A symbol without a size takes every address above it that no other covers. *)
Example far_symbol : dbg_resolve_symbol demo_symbols 0xFFFF0000 = Some (Some (6, 0xFFFEEF00)).
Proof. vm_compute. reflexivity. Qed.
