(* ===== verification/DbgConsole.v ===== *)
(** The console of the debugger, debugger/src/dbg_console.c and dbg_shell_bridge.c:
    line editing, history, tokens and the commands.

    A line is an array of characters that holds a NUL; [argv] holds positions in it.

    The debugger's console: its lines, words and commands, against text without arrays. *)
From stdpp Require Import prelude gmap list strings.
From Stdlib Require Import ZArith Lia.
From S2P Require Import Prelude Bitmap Pmm Frames Vmm VmmTree Dbg.

Open Scope Z_scope.

Definition DBG_MAX_ARGS : Z := 16.

(** *** Arrays *)

Definition load (buf : list Z) (p : Z) : option Z := if 0 <=? p then buf !! Z.to_nat p else None.
Definition put (buf : list Z) (p c : Z) : option (list Z) := if (0 <=? p) && (p <? alen buf) then Some (aset buf p c) else None.

(** The string at a position, up to its NUL. *)
Definition str_at (buf : list Z) (p : Z) : list Z := c_str (drop (Z.to_nat p) buf).

Definition is_blank (c : Z) : bool := (c =? 32) || (c =? 9).

Fixpoint skip_blanks (buf : list Z) (p : Z) (fuel : nat) : option Z :=
  match fuel with O => None | S fuel => c ← load buf p; if is_blank c then skip_blanks buf (p + 1) fuel else Some p end.

Fixpoint skip_word (buf : list Z) (p : Z) (fuel : nat) : option Z :=
  match fuel with O => None | S fuel => c ← load buf p; if negb (c =? 0) && negb (is_blank c) then skip_word buf (p + 1) fuel else Some p end.

(** One round of the loop; [None] in the second place ends it. *)
Definition token (buf : list Z) (p : Z) : option (list Z * option (Z * Z)) :=
  p1 ← skip_blanks buf p (length buf); c1 ← load buf p1;
  if c1 =? 0 then Some (buf, None)
  else
    p2 ← skip_word buf p1 (length buf); c2 ← load buf p2;
    if c2 =? 0 then Some (buf, Some (p1, p2)) else buf1 ← put buf p2 0; Some (buf1, Some (p1, p2 + 1)).

Fixpoint dbg_tokenize (fuel : nat) (buf : list Z) (p : Z) (argv : list Z) : option (list Z * list Z) :=
  match fuel with
  | O => None
  | S fuel =>
      c ← load buf p;
      if (c =? 0) || (DBG_MAX_ARGS <=? alen argv) then Some (buf, argv)
      else
        '(buf1, t) ← token buf p;
        match t with None => Some (buf1, argv) | Some (p1, p2) => dbg_tokenize fuel buf1 p2 (argv ++ [p1]) end
  end.

(** The loop that cuts trailing blanks and line ends. *)
Definition is_trailing (c : Z) : bool := (c =? 32) || (c =? 13) || (c =? 10).

Fixpoint trim_line (line : list Z) (len : nat) : option (list Z * Z) :=
  match len with
  | O => Some (line, 0)
  | S n => c ← load line (Z.of_nat n); if is_trailing c then line1 ← put line (Z.of_nat n) 0; trim_line line1 n else Some (line, Z.of_nat len)
  end.

(** ** State *)

Section console.
Context {St : Type} `{FrameStore St} {R : Type}.

(** [shell_execute] of the kernel's shell, with what it prints; the registers that
    [dbg_regs_dump] and [dbg_backtrace] read; and the rounds allowed to a dump. *)
Context (shell_execute : R -> list Z -> option (R * list Z)) (live : R -> list Z) (read_rbp : R -> Z) (fuel : nat).

Record dbg := DbgState {
  d_rest : R;
  d_vmm : vmm St;
  d_bps : bps;
  d_sym : symbols;
  dbg_active : bool;
  dbg_cmd_log_level : Z;
  dbg_history : list (list Z);
  dbg_hist_head : Z;
  dbg_hist_count : Z;
  poll_buf : list Z;
  poll_pos : Z;
  d_out : list Z }.

Definition say (d : dbg) (t : list Z) : dbg :=
  DbgState (d_rest d) (d_vmm d) (d_bps d) (d_sym d) (dbg_active d) (dbg_cmd_log_level d) (dbg_history d) (dbg_hist_head d) (dbg_hist_count d) (poll_buf d) (poll_pos d) (d_out d ++ t).

Definition with_rest (d : dbg) (r : R) : dbg :=
  DbgState r (d_vmm d) (d_bps d) (d_sym d) (dbg_active d) (dbg_cmd_log_level d) (dbg_history d) (dbg_hist_head d) (dbg_hist_count d) (poll_buf d) (poll_pos d) (d_out d).

Definition with_vmm (d : dbg) (m : vmm St) : dbg :=
  DbgState (d_rest d) m (d_bps d) (d_sym d) (dbg_active d) (dbg_cmd_log_level d) (dbg_history d) (dbg_hist_head d) (dbg_hist_count d) (poll_buf d) (poll_pos d) (d_out d).

Definition with_bps (d : dbg) (b : bps) : dbg :=
  DbgState (d_rest d) (d_vmm d) b (d_sym d) (dbg_active d) (dbg_cmd_log_level d) (dbg_history d) (dbg_hist_head d) (dbg_hist_count d) (poll_buf d) (poll_pos d) (d_out d).

Definition set_active (d : dbg) (a : bool) : dbg :=
  DbgState (d_rest d) (d_vmm d) (d_bps d) (d_sym d) a (dbg_cmd_log_level d) (dbg_history d) (dbg_hist_head d) (dbg_hist_count d) (poll_buf d) (poll_pos d) (d_out d).

Definition set_level (d : dbg) (l : Z) : dbg :=
  DbgState (d_rest d) (d_vmm d) (d_bps d) (d_sym d) (dbg_active d) l (dbg_history d) (dbg_hist_head d) (dbg_hist_count d) (poll_buf d) (poll_pos d) (d_out d).

Definition with_history (d : dbg) (h : list (list Z)) (head count : Z) : dbg :=
  DbgState (d_rest d) (d_vmm d) (d_bps d) (d_sym d) (dbg_active d) (dbg_cmd_log_level d) h head count (poll_buf d) (poll_pos d) (d_out d).

Definition with_poll (d : dbg) (b : list Z) (p : Z) : dbg :=
  DbgState (d_rest d) (d_vmm d) (d_bps d) (d_sym d) (dbg_active d) (dbg_cmd_log_level d) (dbg_history d) (dbg_hist_head d) (dbg_hist_count d) b p (d_out d).

(** [strncpy] of a string into a row of the history, and the NUL at its end. *)
Definition hist_row (line : list Z) : list Z :=
  let t := take (Z.to_nat (DBG_CMD_BUF_SIZE - 1)) line in t ++ replicate (Z.to_nat (DBG_CMD_BUF_SIZE - alen t)) 0.

Definition hist_push (d : dbg) (line : list Z) : dbg :=
  if alen line =? 0 then d
  else with_history d (aset (dbg_history d) (dbg_hist_head d mod DBG_HISTORY_SIZE) (hist_row line)) (dbg_hist_head d + 1)
         (if dbg_hist_count d <? DBG_HISTORY_SIZE then dbg_hist_count d + 1 else dbg_hist_count d).

(** ** Commands *)

Inductive handler := CMD_HELP | CMD_CONTINUE | CMD_LOG | CMD_BP | CMD_REGS | CMD_MEM | CMD_MEMW | CMD_BT | CMD_SYM.

Record dbg_cmd := DbgCmd { c_name : list Z; c_usage : list Z; c_help : list Z; c_handler : handler }.

(** The entries of [DBG_REGISTER_COMMAND]. *)
Definition registered : list dbg_cmd := [
  DbgCmd (txt "bp") (txt "bp [set <addr>|clear <n>|list]") (txt "Hardware breakpoints") CMD_BP;
  DbgCmd (txt "help") (txt "help") (txt "Show debugger commands") CMD_HELP;
  DbgCmd (txt "continue") (txt "continue") (txt "Resume execution") CMD_CONTINUE;
  DbgCmd (txt "log") (txt "log [level]") (txt "Set/show log verbosity") CMD_LOG;
  DbgCmd (txt "mem") (txt "mem <addr> [len]") (txt "Hex+ASCII memory dump") CMD_MEM;
  DbgCmd (txt "memw") (txt "memw <addr> <b0> ...") (txt "Write bytes to memory") CMD_MEMW;
  DbgCmd (txt "bt") (txt "bt") (txt "Stack backtrace") CMD_BT;
  DbgCmd (txt "regs") (txt "regs") (txt "Dump all CPU registers") CMD_REGS;
  DbgCmd (txt "sym") (txt "sym <addr>") (txt "Resolve address to symbol") CMD_SYM ].

(** The section between [__dbg_commands_start] and [__dbg_commands_end], in the order
    that the linker gives it. *)
Context (commands : list dbg_cmd).

Definition help_line (c : dbg_cmd) : option (list Z) := dbg_serial_printf (crlf (txt "  %-16s %s")) [DStr (Some (c_usage c)); DStr (Some (c_help c))].

Definition dbg_cmd_help : option (list Z) :=
  ls ← mapM help_line commands;
  Some (crlf (txt "NexusOS Debugger Commands:") ++ crlf (txt "  !<cmd>          Execute shell command") ++ crlf (txt "  continue        Resume execution") ++
        crlf (crlf (txt "  log <level>     Set min log level (0-4)")) ++ concat ls).

Definition dbg_cmd_log (d : dbg) (argv : list (list Z)) : option dbg :=
  match argv with
  | _ :: a :: _ =>
      let l := s32 (parse_uint a) in
      let l1 := if l <? 0 then 0 else l in
      let l2 := if 4 <? l1 then 4 else l1 in
      t ← dbg_serial_printf (crlf (txt "log: level set to %d")) [DInt l2]; Some (say (set_level d l2) t)
  | _ => t ← dbg_serial_printf (crlf (txt "log: current level = %d")) [DInt (dbg_cmd_log_level d)]; Some (say d t)
  end.

Definition dbg_cmd_bp (b : bps) (argv : list (list Z)) : option (bps * list Z) :=
  match argv with
  | _ :: sub :: rest =>
      let c := aget 0 sub 0 in
      match rest with
      | a :: _ =>
          if c =? 115 then '(b1, _, t) ← dbg_bp_set b (parse_hex a); Some (b1, t)
          else if c =? 99 then dbg_bp_clear b (s32 (parse_uint a))
          else if c =? 108 then t ← dbg_bp_list b; Some (b, t)
          else t ← dbg_serial_printf (crlf (txt "Usage: bp [set <addr> | clear <n> | list]")) []; Some (b, t)
      | [] =>
          if c =? 108 then t ← dbg_bp_list b; Some (b, t)
          else t ← dbg_serial_printf (crlf (txt "Usage: bp [set <addr> | clear <n> | list]")) []; Some (b, t)
      end
  | _ => t ← dbg_bp_list b; Some (b, t)
  end.

Definition run_handler (h : handler) (d : dbg) (argv : list (list Z)) : option dbg :=
  match h with
  | CMD_HELP => t ← dbg_cmd_help; Some (say d t)
  | CMD_CONTINUE => Some (set_active d false)
  | CMD_LOG => dbg_cmd_log d argv
  | CMD_BP => '(b, t) ← dbg_cmd_bp (d_bps d) argv; Some (say (with_bps d b) t)
  | CMD_REGS => t ← dbg_regs_dump (live (d_rest d)); Some (say d t)
  | CMD_MEM => t ← dbg_cmd_mem fuel (d_vmm d) argv; Some (say d t)
  | CMD_MEMW => '(m, t) ← dbg_cmd_memw (d_vmm d) argv; Some (say (with_vmm d m) t)
  | CMD_BT => t ← dbg_backtrace (d_vmm d) (d_sym d) (read_rbp (d_rest d)); Some (say d t)
  | CMD_SYM => t ← dbg_cmd_sym (d_sym d) argv; Some (say d t)
  end.

(** dbg_shell_bridge.c *)
Definition dbg_shell_inject (d : dbg) (cmd : list Z) : option dbg :=
  t ← dbg_serial_printf (crlf (txt "$ %s")) [DStr (Some cmd)]; '(r, out) ← shell_execute (d_rest d) cmd; Some (with_rest (say (say d t) out) r).

Fixpoint find_command (l : list dbg_cmd) (name : list Z) : option dbg_cmd :=
  match l with [] => None | c :: l => if bool_decide (name = c_name c) then Some c else find_command l name end.

Definition run_words (d : dbg) (argv : list (list Z)) : option dbg :=
  match argv with
  | [] => Some d
  | name :: _ =>
      match find_command commands name with
      | Some c => run_handler (c_handler c) d argv
      | None => t ← dbg_serial_printf (crlf (txt "unknown command: %s (type 'help')")) [DStr (Some name)]; Some (say d t)
      end
  end.

(** The state, and the line as the dispatcher leaves it. *)
Definition dispatch_line (d : dbg) (line : list Z) : option (dbg * list Z) :=
  '(line1, len) ← trim_line line (length (c_str line));
  if len =? 0 then Some (d, line1)
  else
    let d1 := hist_push d (str_at line1 0) in
    c0 ← load line1 0;
    if c0 =? 33 then d2 ← dbg_shell_inject d1 (str_at line1 1); Some (d2, line1)
    else
      '(line2, argv) ← dbg_tokenize (S (length line1)) line1 0 [];
      d2 ← run_words d1 (map (str_at line2) argv); Some (d2, line2).

(** ** Lines *)

(** [dbg_read_line]: [None] while the line is not complete. *)
Fixpoint dbg_read_line (d : dbg) (buf : list Z) (pos max : Z) (input : list Z) : option (dbg * list Z * list Z) :=
  match input with
  | [] => None
  | x :: input =>
      let c := s8 x in
      if (c =? 13) || (c =? 10) then b ← put buf pos 0; Some (say d [13; 10], b, input)
      else if (c =? 8) || (c =? 127) then
        if 0 <? pos then dbg_read_line (say d [8; 32; 8]) buf (pos - 1) max input else dbg_read_line d buf pos max input
      else if (32 <=? c) && (c <=? 126) && (pos <? max - 1) then b ← put buf pos c; dbg_read_line (say d [c]) b (pos + 1) max input
      else dbg_read_line d buf pos max input
  end.

(** The loop of [dbg_console_enter].  The array of a round holds what its place on the
    stack held before: [garbage].  The result says whether [continue] was given; if not,
    the console waits for input. *)
Fixpoint console_loop (n : nat) (d : dbg) (garbage : list Z) (input : list Z) : option (dbg * list Z * bool) :=
  match n with
  | O => Some (d, input, false)
  | S n =>
      if dbg_active d then
        match dbg_read_line (say d DBG_PROMPT) garbage 0 DBG_CMD_BUF_SIZE input with
        | None => Some (say d DBG_PROMPT, input, false)
        | Some (d1, line, rest) => '(d2, line2) ← dispatch_line d1 line; console_loop n d2 line2 rest
        end
      else Some (d, input, true)
  end.

Definition dbg_console_enter (d : dbg) (garbage input : list Z) : option (dbg * list Z * bool) :=
  console_loop (S (length input)) (say (set_active d true) [13; 10]) garbage input.

(** One round of [dbg_console_poll]. *)
Definition poll_step (d : dbg) (x : Z) : option dbg :=
  let c := s8 x in
  if (c =? 13) || (c =? 10) then
    b ← put (poll_buf d) (poll_pos d) 0;
    if 0 <? poll_pos d then
      '(d1, line) ← dispatch_line (say (with_poll d b (poll_pos d)) [13; 10]) b;
      Some (with_poll (say d1 DBG_PROMPT) line 0)
    else Some (with_poll d b 0)
  else if (c =? 8) || (c =? 127) then
    if 0 <? poll_pos d then Some (say (with_poll d (poll_buf d) (poll_pos d - 1)) [8; 32; 8]) else Some d
  else if (32 <=? c) && (c <=? 126) && (poll_pos d <? DBG_CMD_BUF_SIZE - 1) then
    b ← put (poll_buf d) (poll_pos d) c; Some (say (with_poll d b (poll_pos d + 1)) [c])
  else Some d.

(** The bytes that arrive while it runs. *)
Fixpoint dbg_console_poll (d : dbg) (input : list Z) : option dbg :=
  match input with [] => Some d | x :: input => d1 ← poll_step d x; dbg_console_poll d1 input end.

End console.

(** ** Theorems *)

(** ** Words *)

(** The words of a text; [cur] is the one that has begun. *)
Fixpoint split_words (cur l : list Z) : list (list Z) :=
  match l with
  | [] => match cur with [] => [] | _ => [cur] end
  | c :: l => if is_blank c then match cur with [] => split_words [] l | _ => cur :: split_words [] l end else split_words (cur ++ [c]) l
  end.

Definition words (l : list Z) : list (list Z) := split_words [] l.

Definition blanks (l : list Z) : Prop := Forall (fun c => is_blank c = true) l.
Definition solid (l : list Z) : Prop := Forall (fun c => is_blank c = false) l.

Lemma split_blanks b l : blanks b -> split_words [] (b ++ l) = split_words [] l.
Proof. induction 1 as [|c b Hc _ IH]; cbn [app split_words]; [done|]. by rewrite Hc. Qed.

Lemma split_solid w : forall cur l, solid w -> split_words cur (w ++ l) = split_words (cur ++ w) l.
Proof.
  induction w as [|c w IH]; intros cur l; cbn [app split_words]; [by rewrite app_nil_r|]. intros [Hc Hw]%Forall_cons. rewrite Hc, IH by done. by rewrite <- app_assoc.
Qed.

(** A text is blank, or begins with blanks and a word that ends the text or is followed by
    a blank. *)
Lemma text_cases l : exists b r, l = b ++ r /\ blanks b /\ (r = [] \/ exists w t, r = w ++ t /\ w <> [] /\ solid w /\ (t = [] \/ exists c t', t = c :: t' /\ is_blank c = true)).
Proof.
  induction l as [|c l (b & r & -> & Hb & Hr)]; [exists [], []; split; [done|]; split; [constructor|by left]|].
  destruct (is_blank c) eqn:Ec; [exists (c :: b), r; split; [done|]; split; [by constructor|done]|].
  exists [], (c :: b ++ r). split; [done|]. split; [constructor|]. right. destruct b as [|x b].
  - cbn [app]. destruct Hr as [-> | (w & t & -> & Hw & Sw & Ht)].
    + exists [c], []. split; [done|]. split; [done|]. split; [by repeat constructor|by left].
    + exists (c :: w), t. split; [done|]. split; [done|]. split; [by constructor|done].
  - apply Forall_cons in Hb as [Hx Hb]. exists [c], (x :: b ++ r). split; [done|]. split; [done|]. split; [by repeat constructor|]. right. by exists x, (b ++ r).
Qed.

Lemma words_blank b : blanks b -> words b = [].
Proof. intros Hb. unfold words. rewrite <- (app_nil_r b), split_blanks by done. done. Qed.

Lemma words_last b w : blanks b -> w <> [] -> solid w -> words (b ++ w) = [w].
Proof. intros Hb Hn Hw. unfold words. rewrite split_blanks, <- (app_nil_r w), split_solid by done. cbn [app split_words]. rewrite app_nil_r. by destruct w. Qed.

Lemma words_more b w c t : blanks b -> w <> [] -> solid w -> is_blank c = true -> words (b ++ w ++ c :: t) = w :: words t.
Proof. intros Hb Hn Hw Hc. unfold words. rewrite split_blanks, split_solid by done. cbn [app split_words]. rewrite Hc. by destruct w. Qed.

(** ** Arrays *)

Lemma load_mid pre x r : load (pre ++ x :: r) (alen pre) = Some x.
Proof. unfold load, alen. rewrite (proj2 (Z.leb_le _ _)) by lia. rewrite Nat2Z.id. by apply list_lookup_middle. Qed.

Lemma put_mid pre x r c : put (pre ++ x :: r) (alen pre) c = Some (pre ++ c :: r).
Proof.
  unfold put, aset, alen. rewrite length_app, (proj2 (Z.leb_le _ _)), (proj2 (Z.ltb_lt _ _)) by (cbn [length]; lia). rewrite Nat2Z.id. cbn [andb]. f_equal.
  rewrite <- (Nat.add_0_r (length pre)), insert_app_r. done.
Qed.

Lemma c_str_stops a b : 0 ∈ a -> c_str (a ++ b) = c_str a.
Proof.
  induction a as [|c a IH]; intros Hin; [by apply elem_of_nil in Hin|]. cbn [app c_str]. destruct (Z.eqb_spec c 0); [done|]. f_equal. apply IH. apply elem_of_cons in Hin as [|]; [congruence|done].
Qed.

Lemma c_str_word w r : Forall (fun c => c <> 0) w -> c_str (w ++ 0 :: r) = w.
Proof. apply c_str_app. Qed.

Lemma clen_app (a b : list Z) : alen (a ++ b) = alen a + alen b.
Proof. unfold alen. rewrite length_app. lia. Qed.

Lemma str_at_mid pre r : str_at (pre ++ r) (alen pre) = c_str r.
Proof. unfold str_at, alen. rewrite Nat2Z.id. by rewrite drop_app_length. Qed.

Lemma skip_blanks_run b : forall pre x r fuel, blanks b -> is_blank x = false -> (length b < fuel)%nat -> skip_blanks (pre ++ b ++ x :: r) (alen pre) fuel = Some (alen (pre ++ b)).
Proof.
  induction b as [|c b IH]; intros pre x r [|fuel] Hb Hx Hf; cbn [length] in Hf; try lia; cbn [skip_blanks app].
  - rewrite load_mid. cbn [mbind option_bind]. by rewrite Hx, app_nil_r.
  - apply Forall_cons in Hb as [Hc Hb]. rewrite load_mid. cbn [mbind option_bind]. rewrite Hc. specialize (IH (pre ++ [c]) x r fuel Hb Hx ltac:(lia)). rewrite clen_app in IH.
    rewrite <- !app_assoc in IH. exact IH.
Qed.

Lemma skip_word_run w : forall pre x r fuel, solid w -> Forall (fun c => c <> 0) w -> (x = 0 \/ is_blank x = true) -> (length w < fuel)%nat ->
  skip_word (pre ++ w ++ x :: r) (alen pre) fuel = Some (alen (pre ++ w)).
Proof.
  induction w as [|c w IH]; intros pre x r [|fuel] Hw Hz Hx Hf; cbn [length] in Hf; try lia; cbn [skip_word app].
  - rewrite load_mid. cbn [mbind option_bind]. rewrite app_nil_r. destruct Hx as [-> | ->]; [done|]. by rewrite andb_false_r.
  - apply Forall_cons in Hw as [Hc Hw]. apply Forall_cons in Hz as [Hc0 Hz]. rewrite load_mid. cbn [mbind option_bind]. rewrite Hc, (proj2 (Z.eqb_neq _ _) Hc0). cbn [negb andb].
    specialize (IH (pre ++ [c]) x r fuel Hw Hz Hx ltac:(lia)). rewrite clen_app in IH. rewrite <- !app_assoc in IH. exact IH.
Qed.

(** ** Tokens *)

Lemma token_end pre b rest : blanks b -> token (pre ++ b ++ 0 :: rest) (alen pre) = Some (pre ++ b ++ 0 :: rest, None).
Proof.
  intros Hb. unfold token. rewrite skip_blanks_run by (done || rewrite !length_app; cbn; lia). cbn [mbind option_bind]. rewrite app_assoc, load_mid. done.
Qed.

Lemma token_word pre b w x r : blanks b -> w <> [] -> solid w -> Forall (fun c => c <> 0) w -> (x = 0 \/ is_blank x = true) ->
  token (pre ++ b ++ w ++ x :: r) (alen pre) =
    Some (pre ++ b ++ w ++ 0 :: r, Some (alen (pre ++ b), if x =? 0 then alen (pre ++ b ++ w) else alen (pre ++ b ++ w) + 1)).
Proof.
  intros Hb Hn Hw Hz Hx. unfold token. destruct w as [|c w]; [done|]. pose proof Hw as [Hc _]%Forall_cons. pose proof Hz as [Hc0 _]%Forall_cons.
  cbn [app]. rewrite skip_blanks_run by (done || rewrite !length_app; cbn; lia). cbn [mbind option_bind]. rewrite (app_assoc pre b), load_mid. cbn [mbind option_bind].
  rewrite (proj2 (Z.eqb_neq _ _) Hc0). change (c :: w ++ x :: r) with ((c :: w) ++ x :: r). rewrite skip_word_run by (done || rewrite !length_app; cbn; lia). cbn [mbind option_bind].
  rewrite (app_assoc (pre ++ b)), load_mid. cbn [mbind option_bind]. destruct (Z.eqb_spec x 0) as [->|Hx0]; rewrite <- !app_assoc; [done|].
  rewrite !app_assoc, put_mid. cbn [mbind option_bind]. by rewrite <- !app_assoc.
Qed.

Lemma tokenize_spec n : forall l pre rest argv fuel, (length l <= n)%nat -> (n < fuel)%nat -> Forall (fun c => c <> 0) l -> alen argv <= 16 ->
  exists suf offs, dbg_tokenize fuel (pre ++ l ++ 0 :: rest) (alen pre) argv = Some (pre ++ suf, argv ++ offs) /\ length suf = length (l ++ 0 :: rest) /\
    map (str_at (pre ++ suf)) offs = take (Z.to_nat (16 - alen argv)) (words l).
Proof.
  induction n as [|n IH]; intros l pre rest argv [|fuel] Hl Hf Hz Ha; try lia; cbn [dbg_tokenize].
  - destruct l; [|cbn in Hl; lia]. cbn [app]. rewrite load_mid. cbn [mbind option_bind]. exists (0 :: rest), []. rewrite app_nil_r; change (words []) with ([] : list (list Z)); by rewrite take_nil.
  - destruct (Z.leb_spec DBG_MAX_ARGS (alen argv)) as [Hm|Hm].
    { exists (l ++ 0 :: rest), []. unfold DBG_MAX_ARGS in Hm. replace (Z.to_nat (16 - alen argv)) with 0%nat by lia. rewrite app_nil_r. split; [|done].
      destruct l as [|c l]; cbn [app]; rewrite load_mid; cbn [mbind option_bind]; by rewrite orb_true_r. }
    unfold DBG_MAX_ARGS in Hm. destruct l as [|c0 l0]; [cbn [app]; rewrite load_mid; cbn [mbind option_bind]; exists (0 :: rest), []; rewrite app_nil_r; change (words []) with ([] : list (list Z)); by rewrite take_nil|].
    set (l := c0 :: l0) in *. assert (Hc0 : load (pre ++ l ++ 0 :: rest) (alen pre) = Some c0) by apply load_mid. rewrite Hc0. cbn [mbind option_bind].
    pose proof Hz as [Hne _]%Forall_cons. rewrite (proj2 (Z.eqb_neq _ _) Hne). cbn [orb]. clearbody l.
    destruct (text_cases l) as (b & r & -> & Hb & [-> | (w & t & -> & Hn & Hw & Ht)]).
    + rewrite app_nil_r in *. rewrite token_end by done. cbn [mbind option_bind]. exists (b ++ 0 :: rest), []. by rewrite app_nil_r, words_blank, take_nil.
    + apply Forall_app in Hz as [_ Hz]. apply Forall_app in Hz as [Hzw Hzt]. rewrite !length_app in Hl. assert (0 < length w)%nat by (destruct w; [done|cbn; lia]).
      assert (Sa : alen (argv ++ [alen (pre ++ b)]) = alen argv + 1) by (by rewrite clen_app).
      replace (Z.to_nat (16 - alen argv)) with (S (Z.to_nat (16 - (alen argv + 1)))) by lia.
      destruct Ht as [-> | (x & t' & -> & Hx)].
      * rewrite app_nil_r in *. rewrite <- !app_assoc, token_word by (done || by left). cbn [mbind option_bind Z.eqb].
        destruct fuel as [|fuel]; [lia|]. cbn [dbg_tokenize]. rewrite (app_assoc b), (app_assoc pre (b ++ w)), load_mid. cbn [mbind option_bind Z.eqb orb].
        exists ((b ++ w) ++ 0 :: rest), [alen (pre ++ b)]. split; [by rewrite <- !app_assoc|]. split; [rewrite !length_app; cbn; lia|]. rewrite words_last by done. cbn [map take].
        rewrite take_nil. f_equal. rewrite <- !app_assoc, (app_assoc pre), str_at_mid. by apply c_str_word.
      * rewrite <- !app_assoc. cbn [app]. rewrite token_word by (done || by right). cbn [mbind option_bind]. apply Forall_cons in Hzt as [Hx0 Hzt]. rewrite (proj2 (Z.eqb_neq _ _) Hx0).
        cbn [length] in Hl.
        destruct (IH t' (pre ++ b ++ w ++ [0]) rest (argv ++ [alen (pre ++ b)]) fuel) as (suf & offs & E & El & Em); [lia|lia|done|lia|].
        replace (alen (pre ++ b ++ w) + 1) with (alen (pre ++ b ++ w ++ [0])) by (rewrite !clen_app; change (alen [0]) with 1; lia).
        assert (Es : forall q : list Z, (pre ++ b ++ w ++ [0]) ++ q = pre ++ b ++ w ++ 0 :: q) by (intros q; by rewrite <- !app_assoc).
        rewrite Es in E. rewrite E. exists (b ++ w ++ 0 :: suf), (alen (pre ++ b) :: offs). rewrite Es in Em |- *. rewrite <- (app_assoc argv). cbn [app]. split; [by rewrite <- Es, <- !app_assoc|].
        split; [rewrite length_app in El; cbn [length] in El; repeat progress (rewrite ?length_app; cbn [length]); lia|].
        rewrite words_more by done. cbn [map take]. f_equal; [|rewrite <- Sa; exact Em]. rewrite (app_assoc pre), str_at_mid. by apply c_str_word.
Qed.

(** ** Commands *)

Fixpoint drop_trailing (l : list Z) : list Z := match l with c :: l1 => if is_trailing c then drop_trailing l1 else l | [] => [] end.
Definition trim_right (l : list Z) : list Z := rev (drop_trailing (rev l)).

Lemma trim_right_snoc l c : trim_right (l ++ [c]) = if is_trailing c then trim_right l else l ++ [c].
Proof. unfold trim_right. rewrite rev_app_distr. cbn [rev app drop_trailing]. destruct (is_trailing c); [done|]. cbn [rev]. by rewrite rev_involutive. Qed.

Lemma trim_line_spec l : forall rest, exists pad, trim_line (l ++ 0 :: rest) (length l) = Some (trim_right l ++ 0 :: pad, alen (trim_right l)) /\
  length (trim_right l ++ 0 :: pad) = length (l ++ 0 :: rest).
Proof.
  induction l as [|c l IH] using rev_ind; intros rest; [by exists rest|]. rewrite length_app. cbn [length]. rewrite Nat.add_1_r. cbn [trim_line].
  assert (E : load ((l ++ [c]) ++ 0 :: rest) (Z.of_nat (length l)) = Some c) by (rewrite <- app_assoc; apply (load_mid l c)). rewrite E. cbn [mbind option_bind]. rewrite trim_right_snoc. destruct (is_trailing c).
  - assert (P : put ((l ++ [c]) ++ 0 :: rest) (Z.of_nat (length l)) 0 = Some (l ++ 0 :: 0 :: rest)) by (rewrite <- app_assoc; apply (put_mid l c)). rewrite P. cbn [mbind option_bind].
    destruct (IH (0 :: rest)) as (pad & -> & Hl). exists pad. split; [done|]. rewrite Hl, !length_app. cbn [length]. lia.
  - exists rest. split; [|done]. unfold alen. rewrite length_app. cbn [length]. do 2 f_equal. lia.
Qed.

Lemma trim_right_nonzero l : Forall (fun c => c <> 0) l -> Forall (fun c => c <> 0) (trim_right l).
Proof.
  intros H. induction l as [|c l IH] using rev_ind; [constructor|]. rewrite trim_right_snoc. apply Forall_app in H as [H1 H2]. destruct (is_trailing c); [by apply IH|]. by apply Forall_app.
Qed.

Section console.
Context {St : Type} `{FrameStore St} {R : Type}.
Context (shell_execute : R -> list Z -> option (R * list Z)) (live : R -> list Z) (read_rbp : R -> Z) (fuel : nat) (commands : list dbg_cmd).
Notation dbg := (@dbg St R).
Notation dispatch_line := (dispatch_line shell_execute live read_rbp fuel commands).
Notation run_words := (run_words live read_rbp fuel commands).

(** What a line means: without trailing blanks it goes into the history; after "!" it is
    a command of the kernel's shell; otherwise its words, at most sixteen, are a command
    of the debugger. *)
Definition dispatch_text (d : dbg) (l : list Z) : option dbg :=
  match trim_right l with
  | [] => Some d
  | c :: t => if c =? 33 then dbg_shell_inject shell_execute (hist_push d (c :: t)) t else run_words (hist_push d (c :: t)) (take 16 (words (c :: t)))
  end.

Lemma dispatch_line_text d l rest : Forall (fun c => c <> 0) l ->
  exists line, length line = length (l ++ 0 :: rest) /\ dispatch_line d (l ++ 0 :: rest) = (d1 ← dispatch_text d l; Some (d1, line)).
Proof.
  intros Hz. unfold DbgConsole.dispatch_line, dispatch_text. rewrite c_str_app by done. destruct (trim_line_spec l rest) as (pad & -> & Hl). apply trim_right_nonzero in Hz.
  cbn [mbind option_bind]. destruct (trim_right l) as [|c t]; [exists ([] ++ 0 :: pad); by split|]. change (alen (c :: t) =? 0) with false. cbv iota.
  assert (E0 : str_at ((c :: t) ++ 0 :: pad) 0 = c :: t) by (unfold str_at; cbn [Z.to_nat drop]; by apply c_str_app).
  assert (E1 : str_at ((c :: t) ++ 0 :: pad) 1 = t) by (unfold str_at; change (Z.to_nat 1) with 1%nat; cbn [drop app]; apply c_str_app; by apply Forall_cons in Hz as [_ ?]).
  rewrite E0, E1. change (load ((c :: t) ++ 0 :: pad) 0) with (Some c). cbn [mbind option_bind]. destruct (c =? 33).
  - exists ((c :: t) ++ 0 :: pad). split; [done|]. by destruct (dbg_shell_inject _ _ _).
  - destruct (tokenize_spec (length (c :: t)) (c :: t) [] pad [] (S (length ((c :: t) ++ 0 :: pad)))) as (suf & offs & E & El & Em); [lia|rewrite length_app; lia|done|change (alen []) with 0; lia|].
    cbn [app] in E, Em. change (alen []) with 0 in E. change (c :: t ++ 0 :: pad) with ((c :: t) ++ 0 :: pad) in E. exists suf. split; [by rewrite <- Hl|]. rewrite E. cbn [mbind option_bind]. rewrite Em. by destruct (run_words _ _).
Qed.

(** ** The console beside the shell *)

Definition erase (d : dbg) : dbg := with_poll d [] 0.

Lemma bind_map {A B C} (o : option A) (f : B -> option C) (g : A -> B) : (x ← g <$> o; f x) = (x ← o; f (g x)).
Proof. by destruct o. Qed.

(** Commands do not look at the line that is being typed. *)
Lemma run_handler_poll h d b p argv : run_handler live read_rbp fuel commands h (with_poll d b p) argv = (fun d => with_poll d b p) <$> run_handler live read_rbp fuel commands h d argv.
Proof.
  destruct h; cbn [run_handler].
  - by destruct (dbg_cmd_help commands).
  - done.
  - unfold dbg_cmd_log. destruct argv as [|x [|a l]]; cbn [with_poll dbg_cmd_log_level]; by destruct (dbg_serial_printf _ _).
  - cbn [with_poll d_bps]. by destruct (dbg_cmd_bp (d_bps d) argv) as [[b1 t]|].
  - cbn [with_poll d_rest]. by destruct (dbg_regs_dump _).
  - cbn [with_poll d_vmm]. by destruct (dbg_cmd_mem _ _ _).
  - cbn [with_poll d_vmm]. by destruct (dbg_cmd_memw (d_vmm d) argv) as [[m t]|].
  - cbn [with_poll d_vmm d_sym d_rest]. by destruct (dbg_backtrace _ _ _).
  - cbn [with_poll d_sym]. by destruct (dbg_cmd_sym _ _).
Qed.

Lemma dispatch_poll d b p l : dispatch_text (with_poll d b p) l = (fun d => with_poll d b p) <$> dispatch_text d l.
Proof.
  unfold dispatch_text. destruct (trim_right l) as [|c t]; [done|]. assert (Hh : hist_push (with_poll d b p) (c :: t) = with_poll (hist_push d (c :: t)) b p) by done.
  rewrite Hh. generalize (hist_push d (c :: t)) as d1. intros d1. destruct (c =? 33).
  - unfold dbg_shell_inject. destruct (dbg_serial_printf _ _); [|done]. cbn [mbind option_bind with_poll d_rest]. by destruct (shell_execute (d_rest d1) t) as [[r out]|].
  - unfold DbgConsole.run_words. destruct (take 16 (words (c :: t))) as [|n argv]; [done|]. destruct (find_command commands n); [apply run_handler_poll|]. by destruct (dbg_serial_printf _ _).
Qed.

(** The console without arrays: the line so far, and the rest of the state. *)
Definition is_newline (c : Z) : bool := (c =? 13) || (c =? 10).
Definition is_erase (c : Z) : bool := (c =? 8) || (c =? 127).
Definition is_print (c : Z) : bool := (32 <=? c) && (c <=? 126).

Definition text_step (d : dbg) (cur : list Z) (x : Z) : option (dbg * list Z) :=
  let c := s8 x in
  if is_newline c then match cur with [] => Some (d, []) | _ => d1 ← dispatch_text (say d [13; 10]) cur; Some (say d1 DBG_PROMPT, []) end
  else if is_erase c then match cur with [] => Some (d, []) | _ => Some (say d [8; 32; 8], removelast cur) end
  else if is_print c && (alen cur <? DBG_CMD_BUF_SIZE - 1) then Some (say d [c], cur ++ [c]) else Some (d, cur).

Fixpoint console_text (d : dbg) (cur input : list Z) : option (dbg * list Z) :=
  match input with [] => Some (d, cur) | x :: input => '(d1, cur1) ← text_step d cur x; console_text d1 cur1 input end.

(** The buffer holds the line. *)
Definition poll_rel (d : dbg) (cur : list Z) : Prop :=
  length (poll_buf d) = 256%nat /\ poll_pos d = alen cur /\ alen cur <= 255 /\ Forall (fun c => c <> 0) cur /\ exists r, poll_buf d = cur ++ r.

Lemma erase_say d t : erase (say d t) = say (erase d) t.
Proof. done. Qed.

Lemma poll_rest d cur : poll_rel d cur -> exists x r, poll_buf d = cur ++ x :: r /\ forall c, put (poll_buf d) (poll_pos d) c = Some (cur ++ c :: r).
Proof.
  intros (Hl & Hp & Hc & _ & [|x r] & E); [rewrite E, app_nil_r in Hl; unfold alen in Hc; lia|]. exists x, r. split; [done|]. intros c. rewrite E, Hp. apply put_mid.
Qed.

Lemma poll_step_text d cur x : poll_rel d cur ->
  match text_step (erase d) cur x with None => poll_step shell_execute live read_rbp fuel commands d x = None
  | Some (e, cur') => exists d', poll_step shell_execute live read_rbp fuel commands d x = Some d' /\ erase d' = e /\ poll_rel d' cur' end.
Proof.
  intros Rl. destruct (poll_rest d cur Rl) as (y & r & Eb & Hput). pose proof Rl as (Hl & Hp & Hc & Hz & _). rewrite Eb, length_app in Hl. cbn [length] in Hl.
  unfold text_step, poll_step. fold (is_newline (s8 x)). fold (is_erase (s8 x)). fold (is_print (s8 x)). set (c := s8 x). rewrite Hput. cbn [mbind option_bind].
  destruct (is_newline c); [|destruct (is_erase c); [|destruct (is_print c) eqn:Ep; cbn [andb]]].
  - rewrite Hp. destruct cur as [|c0 cur].
    + change (0 <? alen []) with false. cbv iota. eexists. split; [reflexivity|]. split; [done|]. split_and!; cbn [poll_buf poll_pos with_poll]; [cbn [app length] in Hl |- *; lia|done|by vm_compute|constructor|by exists ([] ++ 0 :: r)].
    + rewrite (proj2 (Z.ltb_lt _ _)) by (unfold alen; cbn [length]; lia). set (l := c0 :: cur) in *. clearbody l.
      destruct (dispatch_line_text (say (with_poll d (l ++ 0 :: r) (alen l)) [13; 10]) l r Hz) as (line & El & ->).
      change (say (with_poll d (l ++ 0 :: r) (alen l)) [13; 10]) with (with_poll (say d [13; 10]) (l ++ 0 :: r) (alen l)). change (say (erase d) [13; 10]) with (with_poll (say d [13; 10]) [] 0).
      rewrite !dispatch_poll. destruct (dispatch_text (say d [13; 10]) l) as [d1|]; cbn [fmap option_fmap option_map mbind option_bind]; [|done].
      eexists. split; [reflexivity|]. split; [done|]. split_and!; cbn [poll_buf poll_pos with_poll]; [rewrite El, length_app; cbn [length]; lia|done|by vm_compute|constructor|by exists line].
  - rewrite Hp. destruct cur as [|c0 cur] using rev_ind; [exists d; by split|]. clear IHcur. rewrite (proj2 (Z.ltb_lt _ _)) by (unfold alen; rewrite length_app; cbn [length]; lia).
    assert (Em : match cur ++ [c0] with [] => Some (erase d, []) | _ :: _ => Some (say (erase d) [8; 32; 8], removelast (cur ++ [c0])) end = Some (say (erase d) [8; 32; 8], cur)) by (rewrite removelast_last; by destruct cur).
    rewrite Em. eexists. split; [reflexivity|]. split; [done|]. apply Forall_app in Hz as [Hz _]. rewrite clen_app in Hc. change (alen [c0]) with 1 in Hc.
    split_and!; cbn [poll_buf poll_pos with_poll say]; [rewrite Eb, length_app; cbn [length]; lia|rewrite clen_app; change (alen [c0]) with 1; lia|lia|done|]. exists (c0 :: y :: r). by rewrite Eb, <- app_assoc.
  - rewrite Hput, Hp. cbn [mbind option_bind]. destruct (Z.ltb_spec (alen cur) (DBG_CMD_BUF_SIZE - 1)) as [Hlt|Hge]; [|by exists d]. unfold DBG_CMD_BUF_SIZE in Hlt. eexists. split; [reflexivity|]. split; [done|].
    unfold is_print in Ep. apply andb_true_iff in Ep as [Ep%Z.leb_le _].
    split_and!; cbn [poll_buf poll_pos with_poll say]; [rewrite length_app; cbn [length]; lia|by rewrite clen_app|rewrite clen_app; change (alen [c]) with 1; lia| |exists r; by rewrite <- app_assoc].
    apply Forall_app. split; [done|]. constructor; [lia|constructor].
  - by exists d.
Qed.

(** The console that runs beside the shell, with its fixed buffer, its positions and
    the words cut out of it in place, does what the text says: characters join the
    line, erasing takes the last one away, and each line that ends is looked up and
    run as a command; at most 255 characters of a line are kept. *)
Theorem dbg_console_poll_correct input : forall d cur, poll_rel d cur ->
  match console_text (erase d) cur input with
  | None => dbg_console_poll shell_execute live read_rbp fuel commands d input = None
  | Some (e, cur') => exists d', dbg_console_poll shell_execute live read_rbp fuel commands d input = Some d' /\ erase d' = e /\ poll_rel d' cur'
  end.
Proof.
  induction input as [|x input IH]; intros d cur Rl; cbn [console_text dbg_console_poll]; [by exists d|]. pose proof (poll_step_text d cur x Rl) as St1.
  destruct (text_step (erase d) cur x) as [[e1 cur1]|]; cbn [mbind option_bind]; [|by rewrite St1]. destruct St1 as (d1 & -> & <- & R1). cbn [mbind option_bind]. by apply IH.
Qed.

End console.

(** ** Witness *)

Definition demo_dbg : @dbg pmm unit :=
  DbgState tt demo_ro (Bps [0; 0; 0; 0] [false; false; false; false] [0; 0; 0; 0] 0x400) no_symbols false 0 (replicate 16 (replicate 256 0)) 0 0 (replicate 256 0) 0 [].

Definition demo_shell (r : unit) (cmd : list Z) : option (unit * list Z) := Some (r, cmd).

Definition demo_keys : list Z := txt "bx" ++ [8] ++ txt "p  set 400000 " ++ [13] ++ txt "he".

Lemma dbg_console_poll_correct_witness : exists d', dbg_console_poll demo_shell (fun _ => []) (fun _ => 0) 8 registered demo_dbg demo_keys = Some d' /\
  poll_rel d' (txt "he") /\ dr (d_bps d') = [0x400000; 0; 0; 0] /\ dr7 (d_bps d') = 0x401.
Proof.
  pose proof (dbg_console_poll_correct demo_shell (fun _ => []) (fun _ => 0) 8 registered demo_keys demo_dbg []) as T.
  assert (Rl : poll_rel demo_dbg []) by (unfold poll_rel; refine (conj eq_refl (conj eq_refl (conj _ (conj (Forall_nil_2 _) (ex_intro _ (replicate 256 0) eq_refl))))); vm_compute; discriminate).
  specialize (T Rl). match type of T with match ?o with _ => _ end => destruct o as [[e cur']|] eqn:E end; [|exfalso; vm_compute in E; discriminate E].
  apply (f_equal (fmap (fun '(e, c) => (dr (d_bps e), dr7 (d_bps e), c)))) in E. vm_compute in E. injection E as Ed E7 Ec. destruct T as (d' & Eq & <- & Rd).
  exists d'. split; [exact Eq|]. rewrite <- Ec in Rd. split; [exact Rd|]. split; [exact (eq_sym Ed)|exact (eq_sym E7)].
Defined.
