(* ===== verification/UsbHid.v ===== *)
(** The reports of USB keyboards and mice, kernel/src/drivers/usb/usb_hid.c.

    A report is a list of bytes; the handlers return the state of the device and the
    events that they push, in order, as those of Input.v do.  The state exists once the
    device has been probed. *)
From stdpp Require Import prelude gmap list.
From Stdlib Require Import ZArith Lia.
From S2P Require Import Prelude Input.

Open Scope Z_scope.

Definition hid_ascii_noshft : list Z :=
  [0; 0; 0; 0;
   97; 98; 99; 100; 101; 102; 103; 104; 105; 106; 107; 108; 109;
   110; 111; 112; 113; 114; 115; 116; 117; 118; 119; 120; 121; 122;
   49; 50; 51; 52; 53; 54; 55; 56; 57; 48;
   10; 27; 8; 9; 32;
   45; 61; 91; 93; 92; 0; 59; 39; 96; 44; 46; 47] ++ replicate 71 0.

Definition hid_ascii_shift : list Z :=
  [0; 0; 0; 0;
   65; 66; 67; 68; 69; 70; 71; 72; 73; 74; 75; 76; 77;
   78; 79; 80; 81; 82; 83; 84; 85; 86; 87; 88; 89; 90;
   33; 64; 35; 36; 37; 94; 38; 42; 40; 41;
   10; 27; 8; 9; 32;
   95; 43; 123; 125; 124; 0; 58; 34; 126; 60; 62; 63] ++ replicate 71 0.

Definition hid_keycode_to_ascii (keycode modifiers : Z) : Z :=
  if 128 <=? keycode then 0 else if nonzero (Z.land modifiers 0x22) then aget 0 hid_ascii_shift keycode else aget 0 hid_ascii_noshft keycode.

Definition HID_TYPE_KEYBOARD : Z := 1.
Definition HID_TYPE_MOUSE : Z := 2.

Record usb_hid_private := HidPrivate { hid_type : Z; prev_report : list Z }.

(** The modifiers of the input system. *)
Definition hid_flags (modifiers : Z) : Z :=
  let flags := 0 in
  let flags := if has_flag modifiers 0x02 || has_flag modifiers 0x20 then Z.lor flags MOD_SHIFT else flags in
  let flags := if has_flag modifiers 0x01 || has_flag modifiers 0x10 then Z.lor flags MOD_CTRL else flags in
  if has_flag modifiers 0x04 || has_flag modifiers 0x40 then Z.lor flags MOD_ALT else flags.

(** The inner loops: is [code] in bytes 2 to 7 of a report? *)
Fixpoint reported (report : list Z) (code j : Z) (n : nat) : bool :=
  match n with O => false | S n => if aget 0 report j =? code then true else reported report code (j + 1) n end.

Definition in_report (report : list Z) (code : Z) : bool := reported report code 2 6.

(** The loops over bytes [i] to 7: new keys, released keys. *)
Fixpoint make_loop (prev report : list Z) (flags modifiers i : Z) (n : nat) : list input_event :=
  match n with
  | O => []
  | S n =>
      let code := aget 0 report i in
      (if (code =? 0) || (128 <=? code) then []
       else if in_report prev code then []
       else [Event INPUT_EVENT_KEY_PRESS code (hid_keycode_to_ascii code modifiers) flags 0 0 0 0]) ++
      make_loop prev report flags modifiers (i + 1) n
  end.

Fixpoint break_loop (prev report : list Z) (flags i : Z) (n : nat) : list input_event :=
  match n with
  | O => []
  | S n =>
      let code := aget 0 prev i in
      (if code =? 0 then []
       else if in_report report code then []
       else [Event INPUT_EVENT_KEY_RELEASE code 0 flags 0 0 0 0]) ++
      break_loop prev report flags (i + 1) n
  end.

Definition hid_process_keyboard (hid : usb_hid_private) (report : list Z) : usb_hid_private * list input_event :=
  let modifiers := aget 0 report 0 in
  let flags := hid_flags modifiers in
  (HidPrivate (hid_type hid) (take 8 report),
   make_loop (prev_report hid) report flags modifiers 2 6 ++ break_loop (prev_report hid) report flags 2 6).

(** The event of the buttons is the one of the movement, changed. *)
Definition hid_process_mouse (report : list Z) : list input_event :=
  let dx := s8 (aget 0 report 1) in
  let dy := s8 (aget 0 report 2) in
  let moved := nonzero dx || nonzero dy in
  let btns := Z.land (aget 0 report 0) 0x07 in
  (if moved then [Event INPUT_EVENT_MOUSE_MOVE 0 0 0 dx dy 0 0] else []) ++
  (if nonzero btns then [Event INPUT_EVENT_MOUSE_BUTTON 0 0 0 (if moved then dx else 0) (if moved then dy else 0) 0 btns] else []).

(** [None] is a NULL pointer. *)
Definition usb_hid_process_report (hid : option usb_hid_private) (report : option (list Z)) (len : Z) : option usb_hid_private * list input_event :=
  match hid, report with
  | Some h, Some r =>
      if (hid_type h =? HID_TYPE_KEYBOARD) && (8 <=? len) then let '(h1, evs) := hid_process_keyboard h r in (Some h1, evs)
      else if (hid_type h =? HID_TYPE_MOUSE) && (3 <=? len) then (Some h, hid_process_mouse r)
      else (hid, [])
  | _, _ => (hid, [])
  end.

Definition sizeof_usb_hid_private : Z := 12.

(** Every device is taken for a keyboard; [kmalloc] gives NULL or an address. *)
Definition usb_hid_probe {M : Type} (kmalloc : M -> Z -> M * Z) (m : M) (priv : option usb_hid_private) : M * option usb_hid_private * Z :=
  let '(m1, p) := kmalloc m sizeof_usb_hid_private in
  if p =? 0 then (m1, priv, -1) else (m1, Some (HidPrivate HID_TYPE_KEYBOARD (replicate 8 0)), 0).

(** ** The keys held *)

(** Following the events of keys: a key that is up may go down, one that is down may go
    up, and no other event is allowed. *)
Definition key_event (held : gset Z) (e : input_event) : option (gset Z) :=
  if ev_type e =? INPUT_EVENT_KEY_PRESS then if decide (scancode e ∈ held) then None else Some ({[scancode e]} ∪ held)
  else if ev_type e =? INPUT_EVENT_KEY_RELEASE then if decide (scancode e ∈ held) then Some (held ∖ {[scancode e]}) else None
  else None.

Fixpoint replay (held : gset Z) (evs : list input_event) : option (gset Z) :=
  match evs with [] => Some held | e :: evs => h ← key_event held e; replay h evs end.

(** The array of a report, bytes 2 to 7. *)
Definition codes (r : list Z) : list Z := take 6 (drop 2 r).

(** The keys that a report says are down: 0 stands for an empty place. *)
Definition report_keys (r : list Z) : gset Z := list_to_set (filter (fun c => c <> 0) (codes r)).

(** The reports of the boot protocol while there is no error: each key that is down has
    one place, and its usage is one of those the protocol has, from 4 (the codes 1 to 3
    report errors) to 101. *)
Definition boot_report (r : list Z) : Prop :=
  length r = 8%nat /\ Forall (fun c => c = 0 \/ 4 <= c <= 101) (codes r) /\ NoDup (filter (fun c => c <> 0) (codes r)).

(** The modifiers and the character of an event are those of the report it comes from. *)
Definition from_report (r : list Z) (e : input_event) : Prop :=
  modifiers_of e = hid_flags (aget 0 r 0) /\
  ascii e = if ev_type e =? INPUT_EVENT_KEY_PRESS then hid_keycode_to_ascii (scancode e) (aget 0 r 0) else 0.

(** A sequence of reports, with the events of each. *)
Fixpoint feed_reports (hid : usb_hid_private) (reports : list (list Z)) : usb_hid_private * list (list input_event) :=
  match reports with
  | [] => (hid, [])
  | r :: rs => let '(h1, e1) := hid_process_keyboard hid r in let '(h2, es) := feed_reports h1 rs in (h2, e1 :: es)
  end.

(** The events of each report lead from the keys held before to the keys it reports. *)
Fixpoint follows (held : gset Z) (reports : list (list Z)) (evss : list (list input_event)) : Prop :=
  match reports, evss with
  | [], [] => True
  | r :: rs, es :: ess => replay held es = Some (report_keys r) /\ Forall (from_report r) es /\ follows (report_keys r) rs ess
  | _, _ => False
  end.

Lemma replay_app h e1 e2 : replay h (e1 ++ e2) = h1 ← replay h e1; replay h1 e2.
Proof. revert h. induction e1 as [|e e1 IH]; intros h; cbn [app replay mbind option_bind]; [done|]. destruct (key_event h e); [apply IH|done]. Qed.

Lemma codes_aget r : length r = 8%nat -> codes r = [aget 0 r 2; aget 0 r 3; aget 0 r 4; aget 0 r 5; aget 0 r 6; aget 0 r 7].
Proof. intros Hl. do 9 (destruct r as [|? r]; try done). Qed.

Lemma in_report_spec r c : length r = 8%nat -> in_report r c = bool_decide (c ∈ codes r).
Proof.
  intros Hl. rewrite codes_aget by done. unfold in_report. cbn [reported]. replace (2 + 1) with 3 by done.
  change (3 + 1) with 4. change (4 + 1) with 5. change (5 + 1) with 6. change (6 + 1) with 7.
  generalize (aget 0 r 2) (aget 0 r 3) (aget 0 r 4) (aget 0 r 5) (aget 0 r 6) (aget 0 r 7). intros b c1 d e f g. symmetry.
  repeat match goal with |- context [?x =? c] => destruct (Z.eqb_spec x c) as [->|] end;
    first [apply bool_decide_eq_true_2; set_unfold; naive_solver | apply bool_decide_eq_false_2; set_unfold; naive_solver].
Qed.

(** The presses of the loop are the new codes, the releases the old ones that are gone. *)
Definition pressed (prev r : list Z) : list Z := filter (fun c => 0 < c < 128 /\ c ∉ codes prev) (codes r).
Definition gone (prev r : list Z) : list Z := filter (fun c => c <> 0 /\ c ∉ codes r) (codes prev).

Definition press_event (modifiers : Z) (c : Z) : input_event := Event INPUT_EVENT_KEY_PRESS c (hid_keycode_to_ascii c modifiers) (hid_flags modifiers) 0 0 0 0.
Definition release_event (modifiers : Z) (c : Z) : input_event := Event INPUT_EVENT_KEY_RELEASE c 0 (hid_flags modifiers) 0 0 0 0.

Lemma codes_split r i : (2 <= i)%nat -> length r = 8%nat -> (i < 8)%nat -> drop i r = aget 0 r (Z.of_nat i) :: drop (S i) r.
Proof.
  intros H2 Hl Hi. unfold aget. rewrite Nat2Z.id. destruct (r !! i) as [x|] eqn:E; [|apply lookup_ge_None in E; lia]. by rewrite (drop_S r x i).
Qed.

Lemma make_loop_spec prev r m n : length prev = 8%nat -> length r = 8%nat -> Forall (fun b => 0 <= b) (drop 2 r) -> (n <= 6)%nat ->
  make_loop prev r (hid_flags m) m (8 - Z.of_nat n) n = map (press_event m) (filter (fun c => 0 < c < 128 /\ c ∉ codes prev) (drop (8 - n) r)).
Proof.
  intros Hp Hl F. induction n as [|n IH]; intros Hn.
  - by rewrite drop_ge by lia.
  - rewrite codes_split by lia. cbn [make_loop]. replace (Z.of_nat (8 - S n)) with (8 - Z.of_nat (S n)) by lia.
    replace (8 - Z.of_nat (S n) + 1) with (8 - Z.of_nat n) by lia. rewrite IH by lia. replace (S (8 - S n)) with (8 - n)%nat by lia.
    rewrite in_report_spec by done. rewrite filter_cons. set (c := aget 0 r (8 - Z.of_nat (S n))).
    assert (Hc : 0 <= c).
    { rewrite Forall_lookup in F. apply (F (6 - S n)%nat). rewrite lookup_drop. replace (2 + (6 - S n))%nat with (Z.to_nat (8 - Z.of_nat (S n))) by lia. apply aget_lookup. unfold alen. lia. }
    destruct (Z.eqb_spec c 0) as [E0|E0]; cbn [orb]; [by rewrite decide_False by lia|].
    destruct (Z.leb_spec 128 c); [by rewrite decide_False by lia|]. case_bool_decide as Hin.
    + by rewrite decide_False by tauto.
    + rewrite decide_True by (split; [lia|done]). done.
Qed.

Lemma break_loop_spec prev r m n : length prev = 8%nat -> length r = 8%nat -> (n <= 6)%nat ->
  break_loop prev r (hid_flags m) (8 - Z.of_nat n) n = map (release_event m) (filter (fun c => c <> 0 /\ c ∉ codes r) (drop (8 - n) prev)).
Proof.
  intros Hp Hl. induction n as [|n IH]; intros Hn.
  - by rewrite drop_ge by lia.
  - rewrite codes_split by lia. cbn [break_loop]. replace (Z.of_nat (8 - S n)) with (8 - Z.of_nat (S n)) by lia.
    replace (8 - Z.of_nat (S n) + 1) with (8 - Z.of_nat n) by lia. rewrite IH by lia. replace (S (8 - S n)) with (8 - n)%nat by lia.
    rewrite in_report_spec by done. rewrite filter_cons. set (c := aget 0 prev (8 - Z.of_nat (S n))).
    destruct (Z.eqb_spec c 0) as [E0|E0]; [by rewrite decide_False by tauto|]. case_bool_decide as Hin.
    + by rewrite decide_False by tauto.
    + by rewrite decide_True by done.
Qed.

Lemma codes_drop r : length r = 8%nat -> codes r = drop 2 r.
Proof. intros Hl. unfold codes. apply take_ge. rewrite length_drop. lia. Qed.

(** The events of a report: a press for each code that is new, then a release for each
    code that is gone. *)
Lemma keyboard_events hid r : length (prev_report hid) = 8%nat -> boot_report r ->
  hid_process_keyboard hid r = (HidPrivate (hid_type hid) r,
    map (press_event (aget 0 r 0)) (pressed (prev_report hid) r) ++ map (release_event (aget 0 r 0)) (gone (prev_report hid) r)).
Proof.
  intros Hp (Hl & B & _). unfold hid_process_keyboard, pressed, gone. rewrite take_ge by lia. f_equal. rewrite (codes_drop r), (codes_drop (prev_report hid)) by done.
  assert (F : Forall (fun b => 0 <= b) (drop 2 r)) by (rewrite <- codes_drop by done; eapply Forall_impl; [exact B|]; cbn; lia).
  pose proof (make_loop_spec (prev_report hid) r (aget 0 r 0) 6 Hp Hl F ltac:(lia)) as E1.
  pose proof (break_loop_spec (prev_report hid) r (aget 0 r 0) 6 Hp Hl ltac:(lia)) as E2. rewrite (codes_drop (prev_report hid)) in E1 by done. rewrite (codes_drop r) in E2 by done.
  exact (f_equal2 app E1 E2).
Qed.

Lemma replay_presses m l : forall h, NoDup l -> (forall c, c ∈ l -> c ∉ h) -> replay h (map (press_event m) l) = Some (list_to_set l ∪ h).
Proof.
  induction l as [|c l IH]; intros h N D; cbn [map list_to_set replay]; [f_equal; set_solver|]. apply NoDup_cons in N as [Hc N].
  unfold key_event at 1. cbn [press_event ev_type scancode]. rewrite Z.eqb_refl, decide_False by (apply D; by left). cbn [mbind option_bind].
  rewrite IH; [f_equal; set_solver|done|]. intros d Hd [E%elem_of_singleton|Hh]%elem_of_union; [by subst|]. by apply (D d); [right|].
Qed.

Lemma replay_releases m l : forall h, NoDup l -> (forall c, c ∈ l -> c ∈ h) -> replay h (map (release_event m) l) = Some (h ∖ list_to_set l).
Proof.
  induction l as [|c l IH]; intros h N D; cbn [map list_to_set replay]; [f_equal; set_solver|]. apply NoDup_cons in N as [Hc N].
  unfold key_event at 1. cbn [release_event ev_type scancode]. change (INPUT_EVENT_KEY_RELEASE =? INPUT_EVENT_KEY_PRESS) with false. rewrite Z.eqb_refl, decide_True by (apply D; by left).
  cbn [mbind option_bind]. rewrite IH; [f_equal; set_solver|done|]. intros d Hd. apply elem_of_difference. split; [by apply D; right|]. rewrite elem_of_singleton. by intros ->.
Qed.

(** New codes and old ones, for boot reports. *)
Lemma pressed_boot prev r : boot_report r -> NoDup (pressed prev r) /\ forall c, c ∈ pressed prev r <-> c ∈ report_keys r /\ c ∉ codes prev.
Proof.
  intros (_ & F & N). rewrite Forall_forall in F. assert (E : forall c, c ∈ pressed prev r <-> c ∈ report_keys r /\ c ∉ codes prev).
  { intros c. unfold pressed, report_keys. rewrite elem_of_list_to_set, !list_elem_of_filter. split; [intros [[Hc Hp] Hi]; split; [split; [lia|done]|done]|].
    intros [[Hc Hi] Hp]. destruct (F c Hi); [lia|]. split; [split; [lia|done]|done]. }
  split; [|done]. assert (G : pressed prev r = filter (fun c => c ∉ codes prev) (filter (fun c => c <> 0) (codes r))).
  { unfold pressed. clear N E. induction (codes r) as [|c l IH]; [done|]. assert (Hc : c = 0 \/ 4 <= c <= 101) by (apply F; by left).
    rewrite (filter_cons (fun c => c <> 0)). rewrite filter_cons. rewrite IH by (intros d Hd; apply F; by right).
    destruct (decide (c <> 0)) as [H0|H0].
    - rewrite filter_cons. case_decide as H1; case_decide as H2; done || (exfalso; destruct Hc; naive_solver lia).
    - rewrite decide_False; [done|]. intros [? _]. lia. }
  rewrite G. by apply NoDup_filter.
Qed.

Lemma gone_boot prev r : NoDup (filter (fun c => c <> 0) (codes prev)) -> NoDup (gone prev r) /\ forall c, c ∈ gone prev r <-> c ∈ report_keys prev /\ c ∉ codes r.
Proof.
  intros N. split.
  - assert (G : gone prev r = filter (fun c => c ∉ codes r) (filter (fun c => c <> 0) (codes prev))).
    { unfold gone. clear N. induction (codes prev) as [|c l IH]; [done|]. rewrite (filter_cons (fun c => c <> 0)). rewrite filter_cons, IH.
      destruct (decide (c <> 0)) as [H0|H0]; [rewrite filter_cons; case_decide; case_decide; tauto || done|]. rewrite decide_False; [done|tauto]. }
    rewrite G. by apply NoDup_filter.
  - intros c. unfold gone, report_keys. rewrite elem_of_list_to_set, !list_elem_of_filter. tauto.
Qed.

Lemma report_step hid r : boot_report (prev_report hid) -> boot_report r ->
  replay (report_keys (prev_report hid)) (hid_process_keyboard hid r).2 = Some (report_keys r) /\ Forall (from_report r) (hid_process_keyboard hid r).2.
Proof.
  intros Hp Hr. set (p := prev_report hid) in *. rewrite keyboard_events by (done || apply Hp). cbn [snd]. fold p.
  destruct (pressed_boot p r Hr) as [N1 P1]. destruct (gone_boot p r ltac:(apply Hp)) as [N2 P2].
  assert (K : forall c r', c ∈ report_keys r' <-> c <> 0 /\ c ∈ codes r') by (intros c r'; unfold report_keys; by rewrite elem_of_list_to_set, list_elem_of_filter).
  split.
  - rewrite replay_app, replay_presses; [|done|intros c [_ Hc]%P1 Hk%K; tauto]. cbn [mbind option_bind].
    rewrite replay_releases; [|done|intros c [Hc _]%P2; set_solver]. f_equal. apply set_eq. intros c.
    rewrite elem_of_difference, elem_of_union, !elem_of_list_to_set, P1, P2, !K. destruct (decide (c ∈ codes r)), (decide (c ∈ codes p)); tauto.
  - apply Forall_app. split; apply Forall_forall; intros e (c & -> & _)%list_elem_of_fmap; (split; [done|]); cbn [ascii ev_type scancode press_event release_event]; done.
Qed.

(** C39.  For any sequence of error-free boot reports of a keyboard the events pushed
    report each change once: a key is pressed only when it is up and released only when
    it is down, and after the events of a report the keys that are down are exactly
    those of the report; each event has the modifiers and the character of its report. *)
Theorem hid_reports_held (reports : list (list Z)) (hid : usb_hid_private) : boot_report (prev_report hid) -> Forall boot_report reports ->
  let '(hid1, evss) := feed_reports hid reports in
  follows (report_keys (prev_report hid)) reports evss /\ prev_report hid1 = default (prev_report hid) (last reports).
Proof.
  intros Hp F. revert hid Hp. induction F as [|r rs Hr F IH]; intros hid Hp; cbn [feed_reports]; [done|].
  destruct (report_step hid r Hp Hr) as [E1 E2]. rewrite keyboard_events in E1, E2 |- * by (done || apply Hp). cbn [snd] in E1, E2. set (e1 := _ ++ _) in *. clearbody e1.
  specialize (IH (HidPrivate (hid_type hid) r)). cbn [prev_report] in IH. destruct (feed_reports (HidPrivate (hid_type hid) r) rs) as [h2 e2].
  destruct (IH Hr) as [IH1 IH2]. split; [by split|]. rewrite IH2, last_cons. by destruct (last rs).
Qed.

Lemma hid_reports_held_witness :
  let '(hid1, evss) := feed_reports (HidPrivate HID_TYPE_KEYBOARD (replicate 8 0)) [[2; 0; 4; 0; 0; 0; 0; 0]; [2; 0; 4; 5; 0; 0; 0; 0]; [0; 0; 5; 6; 0; 0; 0; 0]] in
  follows ∅ [[2; 0; 4; 0; 0; 0; 0; 0]; [2; 0; 4; 5; 0; 0; 0; 0]; [0; 0; 5; 6; 0; 0; 0; 0]] evss /\ map (map ascii) evss = [[65]; [66]; [99; 0]].
Proof.
  pose proof (hid_reports_held [[2; 0; 4; 0; 0; 0; 0; 0]; [2; 0; 4; 5; 0; 0; 0; 0]; [0; 0; 5; 6; 0; 0; 0; 0]] (HidPrivate HID_TYPE_KEYBOARD (replicate 8 0))) as G.
  destruct (feed_reports _ _) as [h1 evss] eqn:E. destruct G as [G _].
  - by apply (bool_decide_unpack _).
  - by apply (bool_decide_unpack _).
  - split; [exact G|]. vm_compute in E. injection E as <- <-. done.
Defined.

(** The codes 1 to 3 of a keyboard in error are taken for keys: with too many keys down
    all of them seem released. *)
Example rollover_releases_keys :
  map (fun e => (ev_type e, scancode e)) (hid_process_keyboard (HidPrivate HID_TYPE_KEYBOARD [0; 0; 4; 0; 0; 0; 0; 0]) [0; 0; 1; 1; 1; 1; 1; 1]).2 =
  replicate 6 (INPUT_EVENT_KEY_PRESS, 1) ++ [(INPUT_EVENT_KEY_RELEASE, 4)].
Proof. vm_compute. reflexivity. Qed.

(** The release of a button gives no event. *)
Example button_release_unreported : hid_process_mouse [0; 0; 0] = [].
Proof. vm_compute. reflexivity. Qed.
