(* ===== verification/Dma.v ===== *)
(** The machine as the drivers with memory-mapped registers see it.

    Registers and the memory shared with a device are read and written through the
    machine: what a load gives is the device's choice as far as the theorems about a
    driver do not say otherwise.  The services of the kernel that these drivers use are
    operations of the machine too. *)
From stdpp Require Import prelude.
From Stdlib Require Import ZArith.
From S2P Require Import Prelude Pci Hal.

Open Scope Z_scope.

(** Loads and stores of a number of bytes at an address, [memset] to zero, the frames of
    physical memory, the mapping of a page, the address of the direct map, [kmalloc]
    (NULL or an address). *)
Class DmaMachine (W : Type) := {
  dm_ports :: PortMachine W;
  load : W -> Z -> Z -> W * Z;
  store : W -> Z -> Z -> Z -> W;
  clear : W -> Z -> Z -> W;
  pmm_alloc_page : W -> W * Z;
  pmm_alloc_pages : W -> Z -> W * Z;
  pmm_free_pages : W -> Z -> Z -> W;
  vmm_map_page : W -> Z -> Z -> Z -> W;
  vmm_get_phys : W -> Z -> Z;
  vmm_get_hhdm_offset : W -> Z;
  kmalloc : W -> Z -> W * Z }.

Section dma.
Context {W : Type} `{DmaMachine W}.

(** [n] bytes, one by one. *)
Fixpoint load_bytes (w : W) (a : Z) (n : nat) : W * list Z :=
  match n with O => (w, []) | S n => let '(w1, b) := load w 1 a in let '(w2, bs) := load_bytes w1 (a + 1) n in (w2, b :: bs) end.

(** [register |= bits] *)
Definition set_bits (w : W) (a bits : Z) : W := let '(w1, v) := load w 4 a in store w1 4 a (Z.lor v bits).

(** [register &= ~bits] *)
Definition clear_bits (w : W) (a bits : Z) : W := let '(w1, v) := load w 4 a in store w1 4 a (Z.ldiff v bits).

End dma.
