(* ===== verification/Xhci.v ===== *)
(** The rings of the USB host controller, kernel/src/drivers/usb/xhci.c, with the
    definitions of xhci.h, xhci_trb.h and xhci_regs.h: register access, the command ring,
    the event ring, the interrupt handler, the take-over from the firmware.

    Registers and DMA memory are read and written through the machine, which may change
    between two accesses.  The structure of the controller is a record threaded through
    the operations; the pointers in it are addresses.  Polling loops carry fuel.  The
    messages of the debug builds are left out. *)
From stdpp Require Import prelude gmap list.
From Stdlib Require Import ZArith Lia.
From S2P Require Import Prelude Pci Hal Dma.

Open Scope Z_scope.

(** ** xhci_trb.h *)

Record trb := Trb { parameter : Z; status : Z; control : Z }.

Definition zero_trb : trb := Trb 0 0 0.
Definition sizeof_trb : Z := 16.

Definition TRB_TYPE_SETUP_STAGE : Z := 2.
Definition TRB_TYPE_DATA_STAGE : Z := 3.
Definition TRB_TYPE_STATUS_STAGE : Z := 4.
Definition TRB_TYPE_LINK : Z := 6.
Definition TRB_TYPE_ENABLE_SLOT : Z := 9.
Definition TRB_TYPE_ADDRESS_DEVICE : Z := 11.
Definition TRB_TYPE_TRANSFER_EVENT : Z := 32.
Definition TRB_TYPE_CMD_COMPLETION : Z := 33.
Definition TRB_TYPE_PORT_STATUS_CHG : Z := 34.

Definition TRB_TYPE_FIELD (t : Z) : Z := u32 (Z.shiftl t 10).
Definition TRB_GET_TYPE (ctrl : Z) : Z := Z.land (Z.shiftr ctrl 10) 0x3F.
Definition TRB_SLOT_ID (ctrl : Z) : Z := Z.land (Z.shiftr ctrl 24) 0xFF.
Definition TRB_SET_SLOT (s : Z) : Z := u32 (Z.shiftl s 24).
Definition TRB_CYCLE : Z := Z.shiftl 1 0.
Definition TRB_TOGGLE_CYCLE : Z := Z.shiftl 1 1.
Definition TRB_IOC : Z := Z.shiftl 1 5.
Definition TRB_IDT : Z := Z.shiftl 1 6.
Definition TRB_DIR_IN : Z := Z.shiftl 1 16.
Definition TRB_TRT_NO_DATA : Z := Z.shiftl 0 16.
Definition TRB_TRT_OUT_DATA : Z := Z.shiftl 2 16.
Definition TRB_TRT_IN_DATA : Z := Z.shiftl 3 16.
Definition TRB_GET_CC (st : Z) : Z := Z.land (Z.shiftr st 24) 0xFF.
Definition TRB_XFER_LEN (l : Z) : Z := Z.land (u32 l) 0x1FFFF.
Definition TRB_CC_SUCCESS : Z := 1.
Definition TRB_CC_SHORT_PACKET : Z := 13.

(** ** xhci_regs.h *)

Definition XHCI_CAP_CAPLENGTH : Z := 0x00.
Definition XHCI_CAP_HCSPARAMS1 : Z := 0x04.
Definition XHCI_CAP_HCCPARAMS1 : Z := 0x10.
Definition XHCI_CAP_DBOFF : Z := 0x14.
Definition XHCI_CAP_RTSOFF : Z := 0x18.
Definition XHCI_HCSP1_MAXSLOTS (x : Z) : Z := Z.land x 0xFF.
Definition XHCI_HCSP1_MAXPORTS (x : Z) : Z := Z.land (Z.shiftr x 24) 0xFF.
Definition XHCI_HCCP1_XECP (x : Z) : Z := Z.land (Z.shiftr x 16) 0xFFFF.
Definition XHCI_OP_USBCMD : Z := 0x00.
Definition XHCI_OP_USBSTS : Z := 0x04.
Definition XHCI_OP_CRCR_LO : Z := 0x18.
Definition XHCI_OP_CRCR_HI : Z := 0x1C.
Definition XHCI_OP_DCBAAP_LO : Z := 0x30.
Definition XHCI_OP_DCBAAP_HI : Z := 0x34.
Definition XHCI_OP_CONFIG : Z := 0x38.
Definition XHCI_PORTSC (n : Z) : Z := u32 (0x400 + n * 0x10 + 0x00).
Definition XHCI_USBCMD_RUN : Z := Z.shiftl 1 0.
Definition XHCI_USBCMD_HCRST : Z := Z.shiftl 1 1.
Definition XHCI_USBCMD_INTE : Z := Z.shiftl 1 2.
Definition XHCI_USBCMD_HSEE : Z := Z.shiftl 1 3.
Definition XHCI_USBSTS_HCH : Z := Z.shiftl 1 0.
Definition XHCI_USBSTS_EINT : Z := Z.shiftl 1 3.
Definition XHCI_USBSTS_CNR : Z := Z.shiftl 1 11.
Definition XHCI_PORTSC_CCS : Z := Z.shiftl 1 0.
Definition XHCI_PORTSC_PED : Z := Z.shiftl 1 1.
Definition XHCI_PORTSC_PR : Z := Z.shiftl 1 4.
Definition XHCI_PORTSC_PP : Z := Z.shiftl 1 9.
Definition XHCI_PORTSC_SPEED_MASK : Z := Z.shiftl 0xF 10.
Definition XHCI_PORTSC_CSC : Z := Z.shiftl 1 17.
Definition XHCI_PORTSC_PRC : Z := Z.shiftl 1 21.
Definition XHCI_IMAN : Z := 0x020.
Definition XHCI_IMOD : Z := 0x024.
Definition XHCI_ERSTSZ : Z := 0x028.
Definition XHCI_ERSTBA_LO : Z := 0x030.
Definition XHCI_ERSTBA_HI : Z := 0x034.
Definition XHCI_ERDP_LO : Z := 0x038.
Definition XHCI_ERDP_HI : Z := 0x03C.
Definition XHCI_IMAN_IP : Z := Z.shiftl 1 0.
Definition XHCI_IMAN_IE : Z := Z.shiftl 1 1.
Definition XHCI_ERDP_EHB : Z := Z.shiftl 1 3.
Definition XHCI_DB (n : Z) : Z := u32 (n * 4).
Definition XHCI_CRCR_RCS : Z := Z.shiftl 1 0.
Definition XHCI_XCAP_ID_LEGACY : Z := 0x01.
Definition XHCI_USBLEGSUP_OS_OWN : Z := Z.shiftl 1 24.
Definition XHCI_USBLEGSUP_BIOS_OWN : Z := Z.shiftl 1 16.

(** ** xhci.h *)

Definition XHCI_CMD_RING_SIZE : Z := 64.
Definition XHCI_EVENT_RING_SIZE : Z := 64.
Definition XHCI_XFER_RING_SIZE : Z := 16.
Definition USB_MAX_DEVICES : Z := 32.
Definition USB_RESET_TIMEOUT_MS : Z := 250.
Definition USB_ENUM_TIMEOUT_MS : Z := 5000.

Record xhci := Xhci {
  pci_bus : Z; pci_dev : Z; pci_func : Z; hc_irq_line : Z;
  mmio_virt : Z; cap_base : Z; op_base : Z; rt_base : Z; db_base : Z; mmio_size : Z;
  max_slots : Z; max_ports : Z;
  cmd_ring : Z; cmd_ring_phys : Z; cmd_enqueue : Z; cmd_cycle : Z;
  event_ring : Z; event_ring_phys : Z; evt_dequeue : Z; evt_cycle : Z;
  erst : Z; erst_phys : Z; dcbaa : Z; dcbaa_phys : Z; rings_page_phys : Z; dcbaa_page_phys : Z }.

Definition set_cmd (hc : xhci) (enqueue cycle : Z) : xhci :=
  Xhci (pci_bus hc) (pci_dev hc) (pci_func hc) (hc_irq_line hc) (mmio_virt hc) (cap_base hc) (op_base hc) (rt_base hc) (db_base hc) (mmio_size hc)
    (max_slots hc) (max_ports hc) (cmd_ring hc) (cmd_ring_phys hc) enqueue cycle (event_ring hc) (event_ring_phys hc) (evt_dequeue hc) (evt_cycle hc)
    (erst hc) (erst_phys hc) (dcbaa hc) (dcbaa_phys hc) (rings_page_phys hc) (dcbaa_page_phys hc).

Definition set_evt (hc : xhci) (dequeue cycle : Z) : xhci :=
  Xhci (pci_bus hc) (pci_dev hc) (pci_func hc) (hc_irq_line hc) (mmio_virt hc) (cap_base hc) (op_base hc) (rt_base hc) (db_base hc) (mmio_size hc)
    (max_slots hc) (max_ports hc) (cmd_ring hc) (cmd_ring_phys hc) (cmd_enqueue hc) (cmd_cycle hc) (event_ring hc) (event_ring_phys hc) dequeue cycle
    (erst hc) (erst_phys hc) (dcbaa hc) (dcbaa_phys hc) (rings_page_phys hc) (dcbaa_page_phys hc).

(** The rings of [hc] placed in the page at [virt], physically [phys]. *)
Definition set_rings (hc : xhci) (virt phys : Z) : xhci :=
  Xhci (pci_bus hc) (pci_dev hc) (pci_func hc) (hc_irq_line hc) (mmio_virt hc) (cap_base hc) (op_base hc) (rt_base hc) (db_base hc) (mmio_size hc)
    (max_slots hc) (max_ports hc) virt phys 0 1 (virt + 1024) (phys + 1024) 0 1
    (virt + 2048) (phys + 2048) (dcbaa hc) (dcbaa_phys hc) phys (dcbaa_page_phys hc).

(** The assignment of a TRB, in whatever order the compiler chooses, and the static
    pointer to the controller. *)
Class UsbMachine (W : Type) := {
  um_dma :: DmaMachine W;
  store_trb : W -> Z -> trb -> W;
  get_xhci : W -> option xhci;
  set_xhci : W -> xhci -> W }.

Section xhci.
Context {W : Type} `{UsbMachine W}.
Implicit Types (w : W) (hc : xhci).

Definition xhci_cap_read32 (w : W) (hc : xhci) (offset : Z) : W * Z := load w 4 (u64 (cap_base hc + offset)).
Definition xhci_op_read32 (w : W) (hc : xhci) (offset : Z) : W * Z := load w 4 (u64 (op_base hc + offset)).
Definition xhci_op_write32 (w : W) (hc : xhci) (offset val : Z) : W := store w 4 (u64 (op_base hc + offset)) val.
Definition xhci_rt_read32 (w : W) (hc : xhci) (offset : Z) : W * Z := load w 4 (u64 (rt_base hc + offset)).
Definition xhci_rt_write32 (w : W) (hc : xhci) (offset val : Z) : W := store w 4 (u64 (rt_base hc + offset)) val.
Definition xhci_db_write32 (w : W) (hc : xhci) (slot val : Z) : W := store w 4 (u64 (db_base hc + XHCI_DB slot)) val.

(** The virtual and the physical address, or NULL. *)
Definition dma_alloc (w : W) (size : Z) : W * option (Z * Z) :=
  let pages := u64 (size + 4095) / 4096 in
  let '(w1, phys) := pmm_alloc_pages w pages in
  if phys =? 0 then (w1, None)
  else if 0xFFFFFFFF <? u64 (phys + size) then (pmm_free_pages w1 phys pages, None)
  else let virt := u64 (phys + vmm_get_hhdm_offset w1) in (clear w1 virt (u64 (pages * 4096)), Some (virt, phys)).

Definition xhci_alloc_rings (w : W) (hc : xhci) : W * xhci * Z :=
  match dma_alloc w 4096 with
  | (w1, None) => (w1, hc, -1)
  | (w1, Some (virt, phys)) =>
      let hc1 := set_rings hc virt phys in
      (store (store w1 8 (erst hc1) (event_ring_phys hc1)) 2 (erst hc1 + 8) XHCI_EVENT_RING_SIZE, hc1, 0)
  end.

(** *** The command ring *)

Definition with_cycle (cycle : Z) (t : trb) : trb :=
  Trb (parameter t) (status t) (if nonzero cycle then Z.lor (control t) TRB_CYCLE else Z.ldiff (control t) TRB_CYCLE).

(** The TRB that leads back to the start of a ring. *)
Definition link_trb (phys cycle : Z) : trb :=
  Trb phys 0 (let c := Z.lor (TRB_TYPE_FIELD TRB_TYPE_LINK) TRB_TOGGLE_CYCLE in if nonzero cycle then Z.lor c TRB_CYCLE else c).

Definition xhci_command_ring_push (w : W) (hc : xhci) (t : trb) : W * xhci * Z :=
  if cmd_ring hc =? 0 then (w, hc, -1)
  else
    let w1 := store_trb w (cmd_ring hc + sizeof_trb * cmd_enqueue hc) (with_cycle (cmd_cycle hc) t) in
    let enqueue := u32 (cmd_enqueue hc + 1) in
    let '(w2, hc2) :=
      if XHCI_CMD_RING_SIZE - 1 <=? enqueue
      then (store_trb w1 (cmd_ring hc + sizeof_trb * (XHCI_CMD_RING_SIZE - 1)) (link_trb (cmd_ring_phys hc) (cmd_cycle hc)), set_cmd hc 0 (Z.lxor (cmd_cycle hc) 1))
      else (w1, set_cmd hc enqueue (cmd_cycle hc)) in
    (xhci_db_write32 w2 hc2 0 0, hc2, 0).

(** *** The event ring *)

(** [&hc->event_ring[hc->evt_dequeue]] *)
Definition event_addr (hc : xhci) : Z := event_ring hc + sizeof_trb * evt_dequeue hc.

Definition next_event (hc : xhci) : xhci :=
  let d := u32 (evt_dequeue hc + 1) in
  if XHCI_EVENT_RING_SIZE <=? d then set_evt hc 0 (Z.lxor (evt_cycle hc) 1) else set_evt hc d (evt_cycle hc).

Definition write_erdp (w : W) (hc : xhci) : W :=
  store w 8 (u64 (rt_base hc + XHCI_ERDP_LO)) (Z.lor (u64 (event_ring_phys hc + sizeof_trb * evt_dequeue hc)) XHCI_ERDP_EHB).

(** The loop until the deadline; with the result, the slot and the completion code. *)
Fixpoint wait_loop (w : W) (hc : xhci) (cmd deadline : Z) (fuel : nat) : option (W * xhci * Z * option (Z * Z)) :=
  match fuel with
  | O => None
  | S fuel =>
      let '(w1, now) := pit_get_ticks w in
      if now <? deadline then
        let evt := event_addr hc in
        let '(w2, ctrl) := load w1 4 (evt + 12) in
        if negb (Z.land ctrl TRB_CYCLE =? evt_cycle hc) then wait_loop w2 hc cmd deadline fuel
        else
          let '(w3, found) := if TRB_GET_TYPE ctrl =? TRB_TYPE_CMD_COMPLETION then let '(w3, p) := load w2 8 evt in (w3, p =? cmd) else (w2, false) in
          if (found : bool) then
            let '(w4, st) := load w3 4 (evt + 8) in
            let hc1 := next_event hc in
            Some (write_erdp w4 hc1, hc1, 0, Some (TRB_SLOT_ID ctrl, TRB_GET_CC st))
          else let hc1 := next_event hc in wait_loop (write_erdp w3 hc1) hc1 cmd deadline fuel
      else Some (w1, hc, -1, None)
  end.

Definition xhci_wait_command (w : W) (hc : xhci) (cmd : Z) (fuel : nat) : option (W * xhci * Z * option (Z * Z)) :=
  let '(w1, now) := pit_get_ticks w in wait_loop w1 hc cmd (u64 (now + USB_ENUM_TIMEOUT_MS)) fuel.

(** The effect of an event: a change of a port is acknowledged. *)
Definition handle_event (w : W) (hc : xhci) (ctrl : Z) : W :=
  if TRB_GET_TYPE ctrl =? TRB_TYPE_PORT_STATUS_CHG then
    let '(w1, p) := load w 8 (event_addr hc) in
    let port := XHCI_PORTSC (u32 (Z.land (Z.shiftr p 24) 0xFF - 1)) in
    let '(w2, portsc) := xhci_op_read32 w1 hc port in
    if has_flag portsc XHCI_PORTSC_CSC then xhci_op_write32 w2 hc port (Z.lor XHCI_PORTSC_CSC (Z.land portsc XHCI_PORTSC_PP)) else w2
  else w.

(** [processed] counts the events. *)
Fixpoint process_loop (w : W) (hc : xhci) (processed : Z) (fuel : nat) : option (W * xhci * Z) :=
  match fuel with
  | O => None
  | S fuel =>
      let '(w1, ctrl) := load w 4 (event_addr hc + 12) in
      if negb (Z.land ctrl TRB_CYCLE =? evt_cycle hc) then Some (w1, hc, processed)
      else
        let '(w2, _) := load w1 4 (event_addr hc + 8) in
        process_loop (handle_event w2 hc ctrl) (next_event hc) (processed + 1) fuel
  end.

Definition xhci_process_events (w : W) (hc : xhci) (fuel : nat) : option (W * xhci) :=
  '(w1, hc1, processed) ← process_loop w hc 0 fuel;
  Some (if 0 <? processed then write_erdp w1 hc1 else w1, hc1).

Definition xhci_irq_handler (w : W) (g_xhci : option xhci) (fuel : nat) : option (W * option xhci) :=
  match g_xhci with
  | None => Some (pic_send_eoi w 11, None)
  | Some hc =>
      let '(w1, usbsts) := xhci_op_read32 w hc XHCI_OP_USBSTS in
      '(w2, hc2) ← (if has_flag usbsts XHCI_USBSTS_EINT then xhci_process_events (xhci_op_write32 w1 hc XHCI_OP_USBSTS XHCI_USBSTS_EINT) hc fuel else Some (w1, hc));
      let '(w3, iman) := xhci_rt_read32 w2 hc2 XHCI_IMAN in
      let w4 := if has_flag iman XHCI_IMAN_IP then xhci_rt_write32 w3 hc2 XHCI_IMAN (Z.lor iman XHCI_IMAN_IP) else w3 in
      Some (pic_send_eoi w4 (hc_irq_line hc2), Some hc2)
  end.

(** *** The firmware *)

(** [while ((cond on register a) && pit_get_ticks() < deadline)] *)
Fixpoint wait_flag (w : W) (a flag deadline : Z) (fuel : nat) : option W :=
  match fuel with
  | O => None
  | S fuel =>
      let '(w1, v) := load w 4 a in
      if has_flag v flag then let '(w2, now) := pit_get_ticks w1 in if now <? deadline then wait_flag w2 a flag deadline fuel else Some w2 else Some w1
  end.

(** The capability that hands the controller over. *)
Definition legacy_handoff (w : W) (xecp : Z) (fuel : nat) : option W :=
  let '(w1, val) := load w 4 xecp in
  w2 ← (if has_flag val XHCI_USBLEGSUP_BIOS_OWN then
          let w2 := store w1 4 xecp (Z.lor val XHCI_USBLEGSUP_OS_OWN) in
          let '(w3, now) := pit_get_ticks w2 in
          w4 ← wait_flag w3 xecp XHCI_USBLEGSUP_BIOS_OWN (u64 (now + 2000)) fuel;
          Some (load w4 4 xecp).1
        else Some w1);
  let '(w3, ctrl) := load w2 4 (xecp + 4) in
  Some (store w3 4 (xecp + 4) (Z.land ctrl 0x1F1FEE)).

(** The list of capabilities, from the address [xecp]. *)
Fixpoint handoff_loop (w : W) (xecp : Z) (fuel : nat) (n : nat) : option W :=
  match n with
  | O => None
  | S n =>
      let '(w1, v1) := load w 4 xecp in
      if Z.land v1 0xFF =? 0 then Some w1
      else
        let '(w2, v2) := load w1 4 xecp in
        w3 ← (if Z.land v2 0xFF =? XHCI_XCAP_ID_LEGACY then legacy_handoff w2 xecp fuel else Some w2);
        let '(w4, v4) := load w3 4 xecp in
        let next := Z.land (Z.shiftr v4 8) 0xFF in
        if next =? 0 then Some w4 else handoff_loop w4 (u64 (xecp + 4 * next)) fuel n
  end.

Definition xhci_bios_handoff (w : W) (hc : xhci) (fuel n : nat) : option W :=
  let '(w1, p) := xhci_cap_read32 w hc XHCI_CAP_HCCPARAMS1 in
  let offset := u32 (Z.shiftl (XHCI_HCCP1_XECP p) 2) in
  if offset =? 0 then Some w1 else handoff_loop w1 (u64 (mmio_virt hc + offset)) fuel n.

End xhci.
