(* ===== verification/XhciThm.v ===== *)
(** The rings of the USB controller are queues.

    The controller reads a ring as its specification says: a TRB whose cycle bit is the
    reader's is taken, a link TRB leads back to the start and toggles the reader's bit.
    The command ring of the driver then is a queue, over any number of rounds. *)
From stdpp Require Import prelude gmap list.
From Stdlib Require Import ZArith Lia.
From S2P Require Import Prelude Pci Hal Dma Xhci.

Open Scope Z_scope.

(** ** The controller as the reader of a ring *)

Definition cycle_bit (t : trb) : Z := Z.land (control t) TRB_CYCLE.
Definition is_link (t : trb) : bool := TRB_GET_TYPE (control t) =? TRB_TYPE_LINK.

(** The index of the next TRB, and the reader's cycle bit. *)
Record reader := Reader { r_index : Z; r_cycle : Z }.

(** The TRB at the reader, which is not a link. *)
Definition take_trb (cells : Z -> trb) (r : reader) : option (trb * reader) :=
  let t := cells (r_index r) in
  if (cycle_bit t =? r_cycle r) && negb (is_link t) then Some (t, Reader (r_index r + 1) (r_cycle r)) else None.

(** The next TRB; a link is followed. *)
Definition fetch (cells : Z -> trb) (r : reader) : option (trb * reader) :=
  let t := cells (r_index r) in
  if (cycle_bit t =? r_cycle r) && is_link t
  then take_trb cells (Reader 0 (if has_flag (control t) TRB_TOGGLE_CYCLE then 1 - r_cycle r else r_cycle r))
  else take_trb cells r.

(** A TRB without its cycle bit. *)
Definition bare (t : trb) : trb := with_cycle 0 t.

(** What the driver may push. *)
Definition command_ok (t : trb) : Prop := is_link t = false.

(** ** Cycle bits *)

Lemma cycle_with c t : c = 0 \/ c = 1 -> cycle_bit (with_cycle c t) = c.
Proof.
  intros Hc. unfold cycle_bit, with_cycle, TRB_CYCLE. cbn [control]. change (Z.shiftl 1 0) with (Z.ones 1).
  destruct Hc as [-> | ->]; cbn [nonzero negb Z.eqb].
  - apply Z.bits_inj'. intros n Hn. rewrite Z.land_spec, Z.ldiff_spec, Z.bits_0. by destruct (Z.testbit (control t) n), (Z.testbit (Z.ones 1) n).
  - apply Z.bits_inj'. intros n Hn. rewrite Z.land_spec, Z.lor_spec. change (Z.ones 1) with 1. destruct (Z.testbit (control t) n), (Z.testbit 1 n); done.
Qed.

Lemma type_with c t : TRB_GET_TYPE (control (with_cycle c t)) = TRB_GET_TYPE (control t).
Proof.
  unfold TRB_GET_TYPE, with_cycle, TRB_CYCLE. cbn [control]. f_equal. change (Z.shiftl 1 0) with 1. destruct (nonzero c).
  - rewrite Z.shiftr_lor. change (Z.shiftr 1 10) with 0. by rewrite Z.lor_0_r.
  - rewrite Z.shiftr_ldiff. change (Z.shiftr 1 10) with 0. by rewrite Z.ldiff_0_r.
Qed.

Lemma bare_with c t : bare (with_cycle c t) = bare t.
Proof.
  unfold bare, with_cycle. cbn [parameter status control]. f_equal. change (nonzero 0) with false. cbv iota. destruct (nonzero c); [|by rewrite Z.ldiff_ldiff_l, Z.lor_diag].
  apply Z.bits_inj'. intros n Hn. rewrite !Z.ldiff_spec, Z.lor_spec. destruct (Z.testbit (control t) n), (Z.testbit TRB_CYCLE n); done.
Qed.

Lemma link_cycle phys c : c = 0 \/ c = 1 -> cycle_bit (link_trb phys c) = c /\ is_link (link_trb phys c) = true /\ has_flag (control (link_trb phys c)) TRB_TOGGLE_CYCLE = true.
Proof. by intros [-> | ->]. Qed.

(** ** The command ring *)

(** The driver's bit in round [l], starting with 1. *)
Definition bit_of (l : Z) : Z := if Z.even l then 1 else 0.

Lemma bit_of_01 l : bit_of l = 0 \/ bit_of l = 1.
Proof. unfold bit_of. destruct (Z.even l); auto. Qed.

Lemma bit_of_next l : bit_of (l + 1) = 1 - bit_of l.
Proof. unfold bit_of. rewrite Z.add_1_r, Z.even_succ, <- Z.negb_even. by destruct (Z.even l). Qed.

Lemma bit_of_toggle l : Z.lxor (bit_of l) 1 = bit_of (l + 1).
Proof. rewrite bit_of_next. by destruct (bit_of_01 l) as [-> | ->]. Qed.

Section ring.
Context {W : Type} `{UsbMachine W} (base phys : Z) (cells : W -> Z -> trb).

(** The TRBs in memory: an assignment changes its own, a doorbell none. *)
Class RingMemory : Prop := {
  cells_store w i t j : 0 <= i < XHCI_CMD_RING_SIZE -> 0 <= j < XHCI_CMD_RING_SIZE ->
    cells (store_trb w (base + sizeof_trb * i) t) j = if decide (j = i) then t else cells w j;
  cells_doorbell w hc v j : cells (xhci_db_write32 w hc 0 v) j = cells w j }.

Context `{RingMemory}.

(** [p] TRBs have been pushed and [c] taken; the others, [q], are in the ring. *)
Record holds (w : W) (hc : xhci) (r : reader) (p c : Z) (q : list trb) : Prop := Holds {
  hd_base : cmd_ring hc = base /\ cmd_ring_phys hc = phys /\ base <> 0;
  hd_count : 0 <= c /\ p = c + alen q /\ alen q <= 62;
  hd_driver : cmd_enqueue hc = p mod 63 /\ cmd_cycle hc = bit_of (p / 63);
  hd_reader : (r_index r = c mod 63 /\ r_cycle r = bit_of (c / 63)) \/ (r_index r = 63 /\ c mod 63 = 0 /\ 63 <= c /\ r_cycle r = bit_of (c / 63 - 1));
  hd_old s : 0 <= s < 63 -> cycle_bit (cells w s) = if s <? p mod 63 then bit_of (p / 63) else 1 - bit_of (p / 63);
  hd_new n t : c <= n < p -> q !! Z.to_nat (n - c) = Some t -> cells w (n mod 63) = with_cycle (bit_of (n / 63)) t;
  hd_link : 63 <= p -> cells w 63 = link_trb phys (bit_of (p / 63 - 1));
  hd_ok : Forall command_ok q }.

Lemma mod63_next p : 0 <= p -> p mod 63 < 62 -> (p + 1) mod 63 = p mod 63 + 1 /\ (p + 1) / 63 = p / 63.
Proof. intros Hp Hm. zmod. Qed.

Lemma mod63_wrap p : 0 <= p -> p mod 63 = 62 -> (p + 1) mod 63 = 0 /\ (p + 1) / 63 = p / 63 + 1.
Proof. intros Hp Hm. zmod. Qed.

Lemma slot_distinct p n : 0 <= n -> n < p <= n + 62 -> p mod 63 <> n mod 63.
Proof. intros Hn Hp. zmod. Qed.

Lemma div_pos p : 0 <= p -> 63 <= p -> 1 <= p / 63.
Proof. intros Hp H63. zmod. Qed.

(** A push is seen at the end of the queue. *)
Lemma push_holds w hc r p c q t : holds w hc r p c q -> alen q < 62 -> command_ok t ->
  exists w' hc', xhci_command_ring_push w hc t = (w', hc', 0) /\ holds w' hc' r (p + 1) c (q ++ [t]).
Proof.
  intros [(Hb & Hph & Hb0) (Hc & Hp & Hq) (Hen & Hcy) Hr Hold Hnew Hlink Hok] Hroom Ht. pose proof (alen_nonneg q) as Hn0.
  unfold xhci_command_ring_push. rewrite Hb, (proj2 (Z.eqb_neq base 0)) by done. rewrite Hen, Hcy, Hph.
  pose proof (Z.mod_pos_bound p 63 ltac:(lia)) as Hm. rewrite (wrap_small 32 (p mod 63 + 1)) by (unfold fits; lia). change (XHCI_CMD_RING_SIZE - 1) with 63.
  set (w1 := store_trb w (base + sizeof_trb * (p mod 63)) (with_cycle (bit_of (p / 63)) t)).
  assert (Hw1 : forall s, 0 <= s < 64 -> cells w1 s = if decide (s = p mod 63) then with_cycle (bit_of (p / 63)) t else cells w s).
  { intros s Hs. apply cells_store; unfold XHCI_CMD_RING_SIZE; lia. }
  assert (Hal : alen (q ++ [t]) = alen q + 1) by (unfold alen; rewrite length_app; cbn; lia).
  assert (Hok' : Forall command_ok (q ++ [t])) by (apply Forall_app; split; [done|by repeat constructor]).
  assert (Hnew1 : forall n t', c <= n < p + 1 -> (q ++ [t]) !! Z.to_nat (n - c) = Some t' -> cells w1 (n mod 63) = with_cycle (bit_of (n / 63)) t').
  { intros n t' Hn E. pose proof (Z.mod_pos_bound n 63 ltac:(lia)). rewrite Hw1 by lia. destruct (decide (n = p)) as [->|Hne].
    - rewrite decide_True by done. rewrite lookup_app_r in E by (unfold alen in *; lia). replace (Z.to_nat (p - c) - length q)%nat with 0%nat in E by (unfold alen in *; lia). by injection E as ->.
    - rewrite decide_False by (intros E2; apply (slot_distinct p n); [lia|lia|done]). apply Hnew; [lia|]. by rewrite lookup_app_l in E by (unfold alen in *; lia). }
  destruct (Z.leb_spec 63 (p mod 63 + 1)) as [Hw|Hw].
  - destruct (mod63_wrap p) as [M D]; [lia|lia|]. eexists _, _. split; [done|]. split; rewrite ?M, ?D.
    + done.
    + lia.
    + split; [done|]. cbn [cmd_cycle set_cmd]. apply bit_of_toggle.
    + done.
    + intros s Hs. rewrite cells_doorbell, (cells_store _ 63 _ s) by (unfold XHCI_CMD_RING_SIZE; lia). rewrite decide_False by lia. rewrite Hw1 by lia.
      rewrite (proj2 (Z.ltb_ge s 0)) by lia. rewrite bit_of_next. replace (1 - (1 - bit_of (p / 63))) with (bit_of (p / 63)) by lia. case_decide as Hd.
      * apply cycle_with, bit_of_01.
      * rewrite Hold by done. by rewrite (proj2 (Z.ltb_lt s (p mod 63))) by lia.
    + intros n t' Hn E. pose proof (Z.mod_pos_bound n 63 ltac:(lia)). rewrite cells_doorbell, (cells_store _ 63 _ (n mod 63)) by (unfold XHCI_CMD_RING_SIZE; lia).
      rewrite decide_False by lia. by apply Hnew1.
    + intros _. rewrite cells_doorbell, (cells_store _ 63 _ 63) by (unfold XHCI_CMD_RING_SIZE; lia). rewrite decide_True by done. f_equal. f_equal. lia.
    + done.
  - destruct (mod63_next p) as [M D]; [lia|lia|]. eexists _, _. split; [done|]. split; rewrite ?M, ?D.
    + done.
    + lia.
    + done.
    + done.
    + intros s Hs. rewrite cells_doorbell, Hw1 by lia. case_decide as Hd.
      * rewrite (proj2 (Z.ltb_lt s (p mod 63 + 1))) by lia. apply cycle_with, bit_of_01.
      * rewrite Hold by done. destruct (Z.ltb_spec s (p mod 63)), (Z.ltb_spec s (p mod 63 + 1)); try done; lia.
    + intros n t' Hn E. rewrite cells_doorbell. by apply Hnew1.
    + intros Hp63. rewrite cells_doorbell, Hw1 by lia. rewrite decide_False by lia. apply Hlink. zmod.
    + done.
Qed.

Lemma take_skip w r i cyc : r_index r = i -> r_cycle r = cyc -> cycle_bit (cells w i) = 1 - cyc -> take_trb (cells w) r = None.
Proof. intros Ei Ec E. unfold take_trb. rewrite Ei, Ec, E. by rewrite (proj2 (Z.eqb_neq _ _)) by lia. Qed.

(** The reader is at slot [c mod 63], perhaps behind a link: nothing to read. *)
Lemma fetch_empty w hc r p c : holds w hc r p c [] -> fetch (cells w) r = None.
Proof.
  intros [_ (Hc & Hp & _) _ Hr Hold _ Hlink _]. unfold alen in Hp. cbn in Hp. replace p with c in * by lia.
  pose proof (Z.mod_pos_bound c 63 ltac:(lia)) as Hm. pose proof (Hold (c mod 63) Hm) as Hcell. rewrite Z.ltb_irrefl in Hcell.
  unfold fetch. destruct Hr as [[Ei Ec]|(Ei & E0 & H63 & Ec)].
  - rewrite Ei, Ec, Hcell. rewrite (proj2 (Z.eqb_neq _ _)) by lia. cbn [andb]. eapply take_skip; [exact Ei|exact Ec|done].
  - rewrite Ei, Ec, Hlink by lia. destruct (link_cycle phys (bit_of (c / 63 - 1)) (bit_of_01 _)) as (E1 & E2 & E3). rewrite E1, E2, Z.eqb_refl, E3. cbn [andb].
    apply (take_skip w _ 0 (1 - bit_of (c / 63 - 1))); [done|done|]. rewrite E0 in Hcell. rewrite Hcell, <- (bit_of_next (c / 63 - 1)). f_equal. f_equal. lia.
Qed.

(** The invariant without the driver: what is left after the oldest TRB is taken. *)
Lemma taken_holds w hc r p c t q r' : holds w hc r p c (t :: q) -> r_index r' = c mod 63 + 1 -> r_cycle r' = bit_of (c / 63) -> holds w hc r' p (c + 1) q.
Proof.
  intros [Hb (Hc & Hp & Hq) Hd Hr Hold Hnew Hlink Hok] Ei Ec. pose proof (Z.mod_pos_bound c 63 ltac:(lia)) as Hm.
  assert (Hal : alen (t :: q) = alen q + 1) by (unfold alen; cbn [length]; lia). pose proof (alen_nonneg q). split; try done.
  - lia.
  - destruct (decide (c mod 63 = 62)) as [E|E].
    + destruct (mod63_wrap c) as [M D]; [lia|lia|]. right. rewrite M, D. split; [lia|]. split; [done|]. split; [zmod|]. rewrite Ec. f_equal. lia.
    + destruct (mod63_next c) as [M D]; [lia|lia|]. left. by rewrite M, D.
  - intros n t' Hn E. apply Hnew; [lia|]. replace (Z.to_nat (n - c)) with (S (Z.to_nat (n - (c + 1)))) by lia. done.
  - by apply Forall_cons in Hok as [_ Hok].
Qed.

(** The oldest TRB is read. *)
Lemma fetch_oldest w hc r p c t q : holds w hc r p c (t :: q) ->
  exists got r', fetch (cells w) r = Some (got, r') /\ bare got = bare t /\ holds w hc r' p (c + 1) q.
Proof.
  intros Hh. pose proof Hh as [Hb (Hc & Hp & Hq) Hd Hr Hold Hnew Hlink Hok]. pose proof (Z.mod_pos_bound c 63 ltac:(lia)) as Hm.
  assert (Hal : alen (t :: q) = alen q + 1) by (unfold alen; cbn [length]; lia). pose proof (alen_nonneg q).
  assert (Ecell : cells w (c mod 63) = with_cycle (bit_of (c / 63)) t) by (apply Hnew; [lia|]; by rewrite Z.sub_diag).
  assert (Hty : is_link (cells w (c mod 63)) = false).
  { rewrite Ecell. unfold is_link. rewrite type_with. by apply Forall_cons in Hok as [Hok _]. }
  assert (Htake : forall r0, r_index r0 = c mod 63 -> r_cycle r0 = bit_of (c / 63) ->
    take_trb (cells w) r0 = Some (with_cycle (bit_of (c / 63)) t, Reader (c mod 63 + 1) (bit_of (c / 63)))).
  { intros r0 Ei Ec. unfold take_trb. rewrite Ei, Ec, Hty, Ecell. rewrite cycle_with by apply bit_of_01. by rewrite Z.eqb_refl. }
  exists (with_cycle (bit_of (c / 63)) t), (Reader (c mod 63 + 1) (bit_of (c / 63))). split; [|split; [apply bare_with|by eapply taken_holds]].
  unfold fetch. destruct Hr as [[Ei Ec]|(Ei & E0 & H63 & Ec)].
  - rewrite Ei, Hty, andb_false_r. by apply Htake.
  - rewrite Ei, Ec, Hlink by lia. replace (p / 63) with (c / 63) by zmod.
    destruct (link_cycle phys (bit_of (c / 63 - 1)) (bit_of_01 _)) as (E1 & E2 & E3). rewrite E1, E2, Z.eqb_refl, E3. cbn [andb].
    apply Htake; cbn [r_index r_cycle]; [done|]. rewrite <- bit_of_next. f_equal. lia.
Qed.

(** *** Runs *)

(** The driver pushes a command, the controller looks for one. *)
Inductive ring_op := Push (t : trb) | Fetch.

Definition ring_step (s : W * xhci * reader) (o : ring_op) : (W * xhci * reader) * list trb :=
  let '(w, hc, r) := s in
  match o with
  | Push t => let '(w', hc', _) := xhci_command_ring_push w hc t in ((w', hc', r), [])
  | Fetch => match fetch (cells w) r with Some (t, r') => ((w, hc, r'), [bare t]) | None => (s, []) end
  end.

Fixpoint ring_run (s : W * xhci * reader) (ops : list ring_op) : (W * xhci * reader) * list trb :=
  match ops with
  | [] => (s, [])
  | o :: ops => let '(s1, out1) := ring_step s o in let '(s2, out2) := ring_run s1 ops in (s2, out1 ++ out2)
  end.

(** Reference: a queue. *)
Fixpoint queue_run (q : list trb) (ops : list ring_op) : list trb :=
  match ops with
  | [] => []
  | Push t :: ops => queue_run (q ++ [t]) ops
  | Fetch :: ops => match q with t :: q' => bare t :: queue_run q' ops | [] => queue_run [] ops end
  end.

(** At most 62 commands are ever waiting, and none is a link. *)
Fixpoint polite (q : Z) (ops : list ring_op) : bool :=
  match ops with
  | [] => true
  | Push t :: ops => (q <? 62) && negb (is_link t) && polite (q + 1) ops
  | Fetch :: ops => polite (Z.max 0 (q - 1)) ops
  end.

Lemma run_holds ops : forall w hc r p c q, holds w hc r p c q -> polite (alen q) ops = true -> (ring_run (w, hc, r) ops).2 = queue_run q ops.
Proof.
  induction ops as [|[t|] ops IH]; intros w hc r p c q Hh Hp; cbn [ring_run queue_run ring_step polite] in *; [done|..].
  - apply andb_true_iff in Hp as [Hp Hp2]. apply andb_true_iff in Hp as [Hq%Z.ltb_lt Ht%negb_true_iff]. destruct (push_holds w hc r p c q t Hh Hq Ht) as (w' & hc' & -> & Hh').
    assert (Hal : alen (q ++ [t]) = alen q + 1) by (unfold alen; rewrite length_app; cbn; lia).
    specialize (IH _ _ _ _ _ _ Hh'). rewrite Hal in IH. specialize (IH Hp2). destruct (ring_run (w', hc', r) ops). exact IH.
  - destruct q as [|t q].
    + rewrite (fetch_empty _ _ _ _ _ Hh). change (Z.max 0 (alen [] - 1)) with (alen (@nil trb)) in Hp. specialize (IH _ _ _ _ _ _ Hh Hp).
      destruct (ring_run (w, hc, r) ops). exact IH.
    + destruct (fetch_oldest _ _ _ _ _ _ _ Hh) as (got & r' & -> & Eb & Hh').
      replace (Z.max 0 (alen (t :: q) - 1)) with (alen q) in Hp by (unfold alen; cbn [length]; lia). specialize (IH _ _ _ _ _ _ Hh' Hp).
      destruct (ring_run (w, hc, r') ops) as [s out]. cbn [snd] in *. by rewrite Eb, IH.
Qed.

(** C32.  The command ring is a queue: from the empty ring, for any interleaving of pushes
    by the driver and reads by the controller with at most 62 commands waiting, the
    controller reads exactly the commands pushed, each once and in order, over any number
    of rounds of the ring. *)
Theorem command_ring_queue (w : W) (hc : xhci) (ops : list ring_op) :
  cmd_ring hc = base -> cmd_ring_phys hc = phys -> base <> 0 -> cmd_enqueue hc = 0 -> cmd_cycle hc = 1 ->
  (forall s, 0 <= s < XHCI_CMD_RING_SIZE -> cells w s = zero_trb) -> polite 0 ops = true ->
  (ring_run (w, hc, Reader 0 1) ops).2 = queue_run [] ops.
Proof.
  intros Hb Hph Hne He Hc Hz Hp. eapply (run_holds ops w hc (Reader 0 1) 0 0 []); [|done]. split; try done.
  - by left.
  - intros s Hs. rewrite Hz by (unfold XHCI_CMD_RING_SIZE; lia). change (0 mod 63) with 0. by rewrite (proj2 (Z.ltb_ge s 0)) by lia.
Qed.

End ring.

(** ** The event ring *)

Section events.
Context {W : Type} `{UsbMachine W} (base : Z) (cells : W -> Z -> trb).

(** While the driver reads, the controller adds no event: an access leaves the TRBs
    alone, and a load of a field gives it. *)
Class EventMemory : Prop := {
  quiet_load w n a j : cells (load w n a).1 j = cells w j;
  quiet_store w n a v j : cells (store w n a v) j = cells w j;
  load_control w i : 0 <= i < XHCI_EVENT_RING_SIZE -> (load w 4 (base + sizeof_trb * i + 12)).2 = control (cells w i);
  load_status w i : 0 <= i < XHCI_EVENT_RING_SIZE -> (load w 4 (base + sizeof_trb * i + 8)).2 = status (cells w i);
  load_parameter w i : 0 <= i < XHCI_EVENT_RING_SIZE -> (load w 8 (base + sizeof_trb * i)).2 = parameter (cells w i) }.

Context `{EventMemory}.

(** The driver after [k] events. *)
Definition after (hc : xhci) (k : nat) : xhci := Nat.iter k next_event hc.

(** Exactly [k] events wait at the driver's place in the ring. *)
Definition waiting (w : W) (hc : xhci) (k : nat) : Prop :=
  (forall j, (j < k)%nat -> cycle_bit (cells w (evt_dequeue (after hc j))) = evt_cycle (after hc j)) /\
  cycle_bit (cells w (evt_dequeue (after hc k))) <> evt_cycle (after hc k).

Definition event_ring_ok (hc : xhci) : Prop := event_ring hc = base /\ 0 <= evt_dequeue hc < XHCI_EVENT_RING_SIZE.

Lemma next_event_ok hc : event_ring_ok hc -> event_ring_ok (next_event hc).
Proof.
  intros [Hb Hd]. unfold event_ring_ok, next_event, XHCI_EVENT_RING_SIZE in *. rewrite wrap_small by (unfold fits; lia). destruct (Z.leb_spec 64 (evt_dequeue hc + 1)); cbn; lia.
Qed.

Lemma after_next hc k : after (next_event hc) k = after hc (S k).
Proof. unfold after. by rewrite Nat.iter_succ_r. Qed.

Lemma handle_event_quiet w hc ctrl j : cells (handle_event w hc ctrl) j = cells w j.
Proof.
  unfold handle_event, xhci_op_read32, xhci_op_write32. destruct (_ =? _); [|done].
  pose proof (quiet_load w 8 (event_addr hc) j) as E1. destruct (load w 8 _) as [w1 p]. cbn [fst] in E1.
  set (a := u64 _) at 1. pose proof (quiet_load w1 4 a j) as E2. destruct (load w1 4 a) as [w2 v]. cbn [fst] in E2. destruct (has_flag _ _); [by rewrite quiet_store, E2|by rewrite E2].
Qed.

Lemma process_loop_drains k : forall w hc n, event_ring_ok hc -> waiting w hc k ->
  exists w', process_loop w hc n (S k) = Some (w', after hc k, n + Z.of_nat k) /\ forall j, cells w' j = cells w j.
Proof.
  induction k as [|k IH]; intros w hc n Ho [Hw Hs]; pose proof Ho as [Hb Hd]; cbn [process_loop]; unfold event_addr at 1; rewrite Hb.
  all: pose proof (load_control w (evt_dequeue hc) Hd) as Ec; pose proof (quiet_load w 4 (base + sizeof_trb * evt_dequeue hc + 12)) as Eq;
    destruct (load w 4 (base + sizeof_trb * evt_dequeue hc + 12)) as [w1 ctrl]; cbn [fst snd] in Ec, Eq; subst ctrl.
  - unfold cycle_bit in Hs. cbn in Hs. rewrite (proj2 (Z.eqb_neq _ _)) by exact Hs. cbn [negb]. exists w1. split; [by rewrite Z.add_0_r|done].
  - pose proof (Hw 0%nat ltac:(lia)) as H0'. unfold cycle_bit in H0'. cbn [after Nat.iter] in H0'. change (evt_dequeue (after hc 0)) with (evt_dequeue hc) in H0'.
    change (evt_cycle (after hc 0)) with (evt_cycle hc) in H0'. rewrite H0', Z.eqb_refl. cbn [negb].
    pose proof (quiet_load w1 4 (event_addr hc + 8)) as Eq2. destruct (load w1 4 (event_addr hc + 8)) as [w2 st]. cbn [fst] in Eq2.
    set (w3 := handle_event w2 hc _). assert (E3 : forall j, cells w3 j = cells w j) by (intros j; subst w3; by rewrite handle_event_quiet, Eq2, Eq).
    destruct (IH w3 (next_event hc) (n + 1)) as (w' & E & Eq'); [by apply next_event_ok| |].
    + split.
      * intros j Hj. rewrite !after_next, E3. apply Hw. lia.
      * by rewrite !after_next, E3.
    + exists w'. cbn [process_loop] in E. rewrite E, after_next. split; [|intros j; by rewrite Eq', E3]. do 2 f_equal. lia.
Qed.

(** The event handler takes exactly the events that wait, in order, and then tells
    the controller once how far it has come; without events it tells nothing. *)
Theorem process_events_drain (w : W) (hc : xhci) (k : nat) : event_ring_ok hc -> waiting w hc k ->
  exists w1, xhci_process_events w hc (S k) = Some (if decide (k = 0%nat) then w1 else write_erdp w1 (after hc k), after hc k) /\
    forall j, cells w1 j = cells w j.
Proof.
  intros Ho Hw. destruct (process_loop_drains k w hc 0 Ho Hw) as (w1 & E & Eq). exists w1. unfold xhci_process_events. rewrite E. cbn [mbind option_bind]. split; [|done].
  case_decide as Hk; [subst k; done|]. by rewrite (proj2 (Z.ltb_lt 0 _)) by lia.
Qed.

End events.

(** ** A machine whose memory holds TRBs *)

Notation trb_memory := (gmap Z trb).

Definition trb_at (m : trb_memory) (a : Z) : trb := default zero_trb (m !! a).

#[local] Instance demo_usb : UsbMachine trb_memory := {|
  um_dma := {| dm_ports := {|
    pm_machine := {| outl := fun w _ _ => w; outw := fun w _ _ => w; outb := fun w _ _ => w; inl := fun w _ => (w, 0); cpu_flags := fun _ => 0;
                     set_cpu_flags := fun w _ => w; kprintf_set_color := fun w _ _ => w; kprint := fun w _ => w |};
    inb := fun w _ => (w, 0); inw := fun w _ => (w, 0); pit_get_ticks := fun w => (w, 0) |};
  load := fun w n a => let t := trb_at w (a - a mod 16) in (w, if a mod 16 =? 0 then parameter t else if a mod 16 =? 8 then status t else control t);
  store := fun w _ _ _ => w; clear := fun w _ _ => w;
  pmm_alloc_page := fun w => (w, 0); pmm_alloc_pages := fun w _ => (w, 0); pmm_free_pages := fun w _ _ => w; vmm_map_page := fun w _ _ _ => w; vmm_get_phys := fun _ _ => 0; vmm_get_hhdm_offset := fun _ => 0;
  kmalloc := fun w _ => (w, 0) |};
  store_trb := fun w a t => <[a := t]> w; get_xhci := fun _ => None; set_xhci := fun w _ => w |}.

Definition demo_cells (w : trb_memory) (j : Z) : trb := trb_at w (4096 + sizeof_trb * j).

#[local] Instance demo_ring : RingMemory 4096 demo_cells.
Proof.
  split; [|done]. intros w i t j Hi Hj. unfold demo_cells, trb_at. change (store_trb w ?a t) with (<[a := t]> w : trb_memory). case_decide as Hd.
  - subst j. by rewrite lookup_insert_eq.
  - rewrite lookup_insert_ne; [done|]. unfold sizeof_trb. lia.
Qed.

Definition demo_hc : xhci := Xhci 0 0 0 11 0 0 0 0 0 0 0 0 4096 4096 0 1 8192 8192 62 1 0 0 0 0 0 0.

Definition enable_slot (n : Z) : trb := Trb n 0 (TRB_TYPE_FIELD TRB_TYPE_ENABLE_SLOT).

(** A hundred commands, read one by one: the ring is passed twice. *)
Definition hundred : list ring_op := concat (map (fun n => [Push (enable_slot n); Fetch]) (seqZ 0 100)).

Lemma command_ring_queue_witness : (ring_run demo_cells (∅, demo_hc, Reader 0 1) hundred).2 = map enable_slot (seqZ 0 100).
Proof.
  rewrite (command_ring_queue 4096 4096 demo_cells ∅ demo_hc hundred); [by vm_compute|done..|by vm_compute].
Defined.

#[local] Instance demo_event_ring : EventMemory 8192 (fun w j => trb_at w (8192 + sizeof_trb * j)).
Proof.
  assert (G : forall i k, 0 <= k < 16 -> 8192 + sizeof_trb * i + k - (8192 + sizeof_trb * i + k) mod 16 = 8192 + sizeof_trb * i /\ (8192 + sizeof_trb * i + k) mod 16 = k)
    by (intros i k Hk; unfold sizeof_trb; zmod).
  split; try done; intros w i Hi; cbn [load um_dma demo_usb snd].
  - destruct (G i 12) as [-> ->]; [lia|done].
  - destruct (G i 8) as [-> ->]; [lia|done].
  - destruct (G i 0) as [E1 E2]; [lia|]. rewrite Z.add_0_r in E1, E2. by rewrite E1, E2.
Qed.

(** Three events, the second in the last place: the third is in the next round. *)
Definition three_events : trb_memory :=
  list_to_map [(8192 + 16 * 62, Trb 0 0 (Z.lor (TRB_TYPE_FIELD TRB_TYPE_CMD_COMPLETION) 1)); (8192 + 16 * 63, Trb (2 ^ 24) 0 (Z.lor (TRB_TYPE_FIELD TRB_TYPE_PORT_STATUS_CHG) 1));
               (8192, Trb 0 0 (TRB_TYPE_FIELD TRB_TYPE_TRANSFER_EVENT)); (8208, Trb 0 0 1)].

Lemma process_events_drain_witness : exists w1, xhci_process_events three_events demo_hc 4 = Some (write_erdp w1 (set_evt demo_hc 1 0), set_evt demo_hc 1 0).
Proof.
  destruct (process_events_drain 8192 (fun w j => trb_at w (8192 + sizeof_trb * j)) three_events demo_hc 3) as (w1 & E & _).
  - by vm_compute.
  - split; [|by vm_compute]. intros j Hj. do 3 (destruct j as [|j]; [by vm_compute|]). lia.
  - exists w1. exact E.
Defined.
