(* ===== verification/UsbDevice.v ===== *)
(** USB devices, kernel/src/drivers/usb/usb_device.c, and the start of the controller,
    the second half of xhci.c: control transfers, enumeration, the descriptors.

    A device is a record, entered in the table of devices when the code has stored its
    pointer there.  An address that the code leaves uninitialised, and a store behind the
    table, give no result. *)
From stdpp Require Import prelude gmap list strings.
From Stdlib Require Import ZArith Lia.
From S2P Require Import Prelude Vmm Printf PrintfThm Framebuffer Pci Hal Dma UsbHid Xhci.

Open Scope Z_scope.

(** ** usb_device.h *)

Definition USB_REQ_GET_DESCRIPTOR : Z := 0x06.
Definition USB_REQ_SET_CONFIGURATION : Z := 0x09.
Definition USB_REQTYPE_HOST_TO_DEV : Z := 0x00.
Definition USB_REQTYPE_DEV_TO_HOST : Z := 0x80.
Definition USB_REQTYPE_STANDARD : Z := 0x00.
Definition USB_REQTYPE_DEVICE : Z := 0x00.
Definition USB_DESC_TYPE_DEVICE : Z := 0x01.
Definition USB_DESC_TYPE_CONFIG : Z := 0x02.
Definition USB_DESC_TYPE_INTERFACE : Z := 0x04.
Definition USB_CLASS_HID : Z := 0x03.
Definition USB_EP_TYPE_CTRL : Z := 0.
Definition USB_DEV_STATE_DEFAULT : Z := 0.
Definition USB_DEV_STATE_ADDRESSED : Z := 1.
Definition USB_DEV_STATE_CONFIGURED : Z := 2.
Definition PAGE_NOCACHE : Z := Z.shiftl 1 4.
Definition XHCI_SPEED_LS : Z := 2.
Definition XHCI_SPEED_SS : Z := 4.
Definition EP_TYPE_CTRL : Z := 4.
Definition sizeof_usb_dev_desc : Z := 18.
Definition sizeof_usb_device : Z := 208.
Definition sizeof_xhci : Z := 160.

Record usb_setup := Setup { bmRequestType : Z; bRequest : Z; wValue : Z; wIndex : Z; wLength : Z }.

(** The eight bytes as a number. *)
Definition setup_raw (s : usb_setup) : Z :=
  bmRequestType s + Z.shiftl (bRequest s) 8 + Z.shiftl (wValue s) 16 + Z.shiftl (wIndex s) 32 + Z.shiftl (wLength s) 48.

Record usb_endpoint := Endpoint {
  ep_type : Z; max_packet : Z; xfer_ring_phys : Z; xfer_ring_virt : Z; xfer_enqueue : Z; xfer_cycle : Z; xhci_ep_id : Z }.

Definition no_endpoint : usb_endpoint := Endpoint 0 0 0 0 0 0 0.

(** Of the endpoints only the first is used. *)
Record usb_device := Device {
  slot_id : Z; port : Z; speed : Z; state : Z;
  dev_desc : list Z; d_class : Z; d_subclass : Z; d_protocol : Z;
  input_ctx_phys : Z; dev_ctx_phys : Z; ep0 : usb_endpoint; hid_priv : option usb_hid_private }.

Definition set_ep0 (d : usb_device) (e : usb_endpoint) : usb_device :=
  Device (slot_id d) (port d) (speed d) (state d) (dev_desc d) (d_class d) (d_subclass d) (d_protocol d) (input_ctx_phys d) (dev_ctx_phys d) e (hid_priv d).
Definition set_state (d : usb_device) (v : Z) : usb_device :=
  Device (slot_id d) (port d) (speed d) v (dev_desc d) (d_class d) (d_subclass d) (d_protocol d) (input_ctx_phys d) (dev_ctx_phys d) (ep0 d) (hid_priv d).
Definition set_hid (d : usb_device) (h : option usb_hid_private) : usb_device :=
  Device (slot_id d) (port d) (speed d) (state d) (dev_desc d) (d_class d) (d_subclass d) (d_protocol d) (input_ctx_phys d) (dev_ctx_phys d) (ep0 d) h.

(** The descriptor of the device, and its class. *)
Definition set_desc (d : usb_device) (desc : list Z) : usb_device :=
  Device (slot_id d) (port d) (speed d) (state d) desc (aget 0 desc 4) (aget 0 desc 5) (aget 0 desc 6) (input_ctx_phys d) (dev_ctx_phys d) (ep0 d) (hid_priv d).

Section usb.
Context {W : Type} `{UsbMachine W}.

(** *** Control transfers *)

(** [if (ep0->xfer_cycle) t.control |= TRB_CYCLE; ring[ep0->xfer_enqueue++] = t] *)
Definition enqueue (w : W) (e : usb_endpoint) (t : trb) : W * usb_endpoint :=
  let t := if nonzero (xfer_cycle e) then Trb (parameter t) (status t) (Z.lor (control t) TRB_CYCLE) else t in
  (store_trb w (xfer_ring_virt e + sizeof_trb * xfer_enqueue e) t,
   Endpoint (ep_type e) (max_packet e) (xfer_ring_phys e) (xfer_ring_virt e) (u32 (xfer_enqueue e + 1)) (xfer_cycle e) (xhci_ep_id e)).

(** The stages of a transfer. *)
Definition setup_trb (s : usb_setup) (data_len : Z) (dir_in : bool) : trb :=
  Trb (setup_raw s) (Z.shiftl 8 16)
    (Z.lor (Z.lor (TRB_TYPE_FIELD TRB_TYPE_SETUP_STAGE) TRB_IDT) (if 0 <? data_len then (if dir_in then TRB_TRT_IN_DATA else TRB_TRT_OUT_DATA) else TRB_TRT_NO_DATA)).

Definition data_trb (data_phys data_len : Z) (dir_in : bool) : trb :=
  Trb data_phys (TRB_XFER_LEN data_len) (let c := TRB_TYPE_FIELD TRB_TYPE_DATA_STAGE in if dir_in then Z.lor c TRB_DIR_IN else c).

Definition status_trb (data_len : Z) (dir_in : bool) : trb :=
  Trb 0 0 (let c := Z.lor (TRB_TYPE_FIELD TRB_TYPE_STATUS_STAGE) TRB_IOC in if (data_len =? 0) || dir_in then c else Z.lor c TRB_DIR_IN).

(** The stages in the ring, the physical address of the last one, and the way back to the
    start of the ring. *)
Definition queue_transfer (w : W) (e : usb_endpoint) (s : usb_setup) (data_phys data_len : Z) (dir_in : bool) : W * usb_endpoint * Z :=
  let '(w1, e1) := enqueue w e (setup_trb s data_len dir_in) in
  let '(w2, e2) := if 0 <? data_len then enqueue w1 e1 (data_trb data_phys data_len dir_in) else (w1, e1) in
  let '(w3, e3) := enqueue w2 e2 (status_trb data_len dir_in) in
  let phys := u64 (xfer_ring_phys e3 + u32 (xfer_enqueue e3 - 1) * sizeof_trb) in
  if XHCI_XFER_RING_SIZE - 1 <=? xfer_enqueue e3
  then (store_trb w3 (xfer_ring_virt e3 + sizeof_trb * (XHCI_XFER_RING_SIZE - 1)) (link_trb (xfer_ring_phys e3) (xfer_cycle e3)),
        Endpoint (ep_type e3) (max_packet e3) (xfer_ring_phys e3) (xfer_ring_virt e3) 0 (Z.lxor (xfer_cycle e3) 1) (xhci_ep_id e3), phys)
  else (w3, e3, phys).

(** The wait for the event of the TRB at [trb_phys]. *)
Fixpoint transfer_loop (w : W) (hc : xhci) (trb_phys deadline : Z) (fuel : nat) : option (W * xhci * Z) :=
  match fuel with
  | O => None
  | S fuel =>
      let '(w1, now) := pit_get_ticks w in
      if now <? deadline then
        let evt := event_addr hc in
        let '(w2, c1) := load w1 4 (evt + 12) in
        if negb (Z.land c1 TRB_CYCLE =? evt_cycle hc) then transfer_loop w2 hc trb_phys deadline fuel
        else
          let '(w3, ctrl) := load w2 4 (evt + 12) in
          let '(w4, found) := if TRB_GET_TYPE ctrl =? TRB_TYPE_TRANSFER_EVENT then let '(w4, p) := load w3 8 evt in (w4, p =? trb_phys) else (w3, false) in
          if (found : bool) then
            let '(w5, st) := load w4 4 (evt + 8) in
            let hc1 := next_event hc in
            let cc := TRB_GET_CC st in
            Some (write_erdp w5 hc1, hc1, if (cc =? TRB_CC_SUCCESS) || (cc =? TRB_CC_SHORT_PACKET) then 0 else - cc)
          else let hc1 := next_event hc in transfer_loop (write_erdp w4 hc1) hc1 trb_phys deadline fuel
      else Some (w1, hc, -1)
  end.

Definition usb_control_transfer (w : W) (hc : xhci) (d : usb_device) (s : usb_setup) (data_phys data_len : Z) (dir_in : bool) (fuel : nat)
  : option (W * xhci * usb_device * Z) :=
  let '(w1, e, phys) := queue_transfer w (ep0 d) s data_phys data_len dir_in in
  let '(w2, now) := pit_get_ticks (xhci_db_write32 w1 hc (slot_id d) 1) in
  '(w3, hc1, r) ← transfer_loop w2 hc phys (u64 (now + USB_ENUM_TIMEOUT_MS)) fuel;
  Some (w3, hc1, set_ep0 d e, r).

(** *** Enumeration *)

(** [while (pit_get_ticks() < dl)]: the last value of the port register. *)
Fixpoint reset_loop (w : W) (hc : xhci) (p portsc dl : Z) (fuel : nat) : option (W * Z) :=
  match fuel with
  | O => None
  | S fuel =>
      let '(w1, now) := pit_get_ticks w in
      if now <? dl then
        let '(w2, v) := xhci_op_read32 w1 hc (XHCI_PORTSC p) in
        if has_flag v XHCI_PORTSC_PRC then Some (w2, v) else reset_loop w2 hc p v dl fuel
      else Some (w1, portsc)
  end.

(** The speed of the port after its reset, unless it failed. *)
Definition reset_port (w : W) (hc : xhci) (p : Z) (fuel : nat) : option (W * option Z) :=
  let '(w1, portsc) := xhci_op_read32 w hc (XHCI_PORTSC p) in
  let w2 := xhci_op_write32 w1 hc (XHCI_PORTSC p) (Z.lor (Z.land portsc XHCI_PORTSC_PP) XHCI_PORTSC_PR) in
  let '(w3, now) := pit_get_ticks w2 in
  '(w4, portsc) ← reset_loop w3 hc p portsc (u64 (now + USB_RESET_TIMEOUT_MS)) fuel;
  if negb (has_flag portsc XHCI_PORTSC_PRC) then Some (w4, None)
  else
    let w5 := xhci_op_write32 w4 hc (XHCI_PORTSC p) (Z.lor (Z.lor (Z.land portsc XHCI_PORTSC_PP) XHCI_PORTSC_PRC) XHCI_PORTSC_CSC) in
    let '(w6, portsc) := xhci_op_read32 w5 hc (XHCI_PORTSC p) in
    Some (w6, if has_flag portsc XHCI_PORTSC_PED then Some (u8 (Z.shiftr (Z.land portsc XHCI_PORTSC_SPEED_MASK) 10)) else None).

(** A command: its slot, unless it failed. *)
Definition run_command (w : W) (hc : xhci) (t : trb) (fuel : nat) : option (W * xhci * option Z) :=
  let phys := u64 (cmd_ring_phys hc + cmd_enqueue hc * sizeof_trb) in
  let '(w1, hc1, pushed) := xhci_command_ring_push w hc t in
  if pushed <? 0 then Some (w1, hc1, None) else
  '(w2, hc2, _, res) ← xhci_wait_command w1 hc1 phys fuel;
  Some (w2, hc2, match res with Some (slot, cc) => if cc =? TRB_CC_SUCCESS then Some slot else None | None => None end).

Definition max_packet_of (sp : Z) : Z := if sp =? XHCI_SPEED_SS then 512 else if sp =? XHCI_SPEED_LS then 8 else 64.

(** The contexts and the transfer ring of a new device. *)
Definition alloc_device (w : W) (hc : xhci) (slot p sp : Z) : option (W * usb_device) :=
  let '(w1, out) := dma_alloc w 4096 in '(_, out_phys) ← out;
  let '(w2, inp) := dma_alloc w1 4096 in '(in_ctx, in_phys) ← inp;
  let w3 := store w2 8 (dcbaa hc + 8 * slot) out_phys in
  let w4 := store w3 4 (in_ctx + 4) (Z.lor (Z.shiftl 1 0) (Z.shiftl 1 1)) in
  let w5 := store w4 4 (in_ctx + 32) (Z.lor (u32 (Z.shiftl sp 20)) (u32 (Z.shiftl 1 27))) in
  let w6 := store w5 4 (in_ctx + 36) (u32 (Z.shiftl (u8 (p + 1)) 16)) in
  let mps := max_packet_of sp in
  let w7 := store w6 4 (in_ctx + 68) (Z.lor (Z.lor (Z.shiftl EP_TYPE_CTRL 3) (Z.shiftl 3 1)) (u32 (Z.shiftl mps 16))) in
  let '(w8, ring) := dma_alloc w7 (XHCI_XFER_RING_SIZE * 16) in '(ring_virt, ring_phys) ← ring;
  let w9 := store w8 8 (in_ctx + 72) (Z.lor ring_phys 1) in
  Some (w9, Device slot (u8 (p + 1)) sp USB_DEV_STATE_DEFAULT (replicate 18 0) 0 0 0 in_phys out_phys
              (Endpoint USB_EP_TYPE_CTRL mps ring_phys ring_virt 0 1 1) None).

(** The descriptors from [ptr] to [fin]: an interface of the class makes the device a
    keyboard. *)
Fixpoint descriptor_loop (w : W) (hid : option usb_hid_private) (ptr fin : Z) (fuel : nat) : option (W * option usb_hid_private) :=
  match fuel with
  | O => None
  | S fuel =>
      if ptr <? fin then
        let '(w1, len) := load w 1 ptr in
        let '(w2, type) := load w1 1 (ptr + 1) in
        let '(w4, hid1) :=
          if type =? USB_DESC_TYPE_INTERFACE then
            let '(w3, class) := load w2 1 (ptr + 5) in
            if class =? USB_CLASS_HID then let '(w4, h1, _) := usb_hid_probe kmalloc w3 hid in (w4, h1) else (w3, hid)
          else (w2, hid) in
        descriptor_loop w4 hid1 (ptr + len) fin fuel
      else Some (w, hid)
  end.

Definition get_descriptor (type len : Z) : usb_setup :=
  Setup (Z.lor (Z.lor USB_REQTYPE_DEV_TO_HOST USB_REQTYPE_STANDARD) USB_REQTYPE_DEVICE) USB_REQ_GET_DESCRIPTOR (u16 (Z.lor (Z.shiftl type 8) 0)) 0 len.

Definition set_configuration : usb_setup :=
  Setup (Z.lor (Z.lor USB_REQTYPE_HOST_TO_DEV USB_REQTYPE_STANDARD) USB_REQTYPE_DEVICE) USB_REQ_SET_CONFIGURATION 1 0 0.

(** Steps 7 to 9, with the buffer at [buf], physically [phys]. *)
Definition configure_device (w : W) (hc : xhci) (d : usb_device) (buf phys : Z) (fuel : nat) : option (W * xhci * usb_device) :=
  '(w1, hc1, d1, r1) ← usb_control_transfer w hc d (get_descriptor USB_DESC_TYPE_DEVICE sizeof_usb_dev_desc) phys sizeof_usb_dev_desc true fuel;
  let '(w2, d2) := if r1 =? 0 then let '(w2, desc) := load_bytes w1 buf (Z.to_nat sizeof_usb_dev_desc) in (w2, set_desc d1 desc) else (w1, d1) in
  '(w3, hc3, d3, r3) ← usb_control_transfer w2 hc1 d2 set_configuration 0 0 false fuel;
  let d3 := if r3 =? 0 then set_state d3 USB_DEV_STATE_CONFIGURED else d3 in
  '(w4, hc4, d4, r4) ← usb_control_transfer w3 hc3 d3 (get_descriptor USB_DESC_TYPE_CONFIG 256) phys 256 true fuel;
  if r4 =? 0 then
    let '(w5, len) := load w4 1 buf in
    let '(w6, total) := load w5 2 (buf + 2) in
    '(w7, hid) ← descriptor_loop w6 (hid_priv d4) (buf + len) (buf + total) fuel;
    Some (w7, hc4, set_hid d4 hid)
  else Some (w4, hc4, d4).

(** The table of devices; the result code. *)
Definition enumerate_slot (w : W) (hc : xhci) (devices : list (option usb_device)) (slot p sp : Z) (fuel : nat)
  : option (W * xhci * list (option usb_device) * Z) :=
  let '(w1, dev) := kmalloc w sizeof_usb_device in
  if dev =? 0 then Some (w1, hc, devices, -1)
  else if alen devices <=? slot then None
  else
    '(w2, d) ← alloc_device w1 hc slot p sp;
    '(w3, hc3, res) ← run_command w2 hc (Trb (input_ctx_phys d) 0 (Z.lor (TRB_TYPE_FIELD TRB_TYPE_ADDRESS_DEVICE) (TRB_SET_SLOT slot))) fuel;
    match res with
    | None => Some (w3, hc3, aset devices slot (Some d), -1)
    | Some _ =>
        let d := set_state d USB_DEV_STATE_ADDRESSED in
        let '(w4, desc) := dma_alloc w3 4096 in '(buf, phys) ← desc;
        '(w5, hc5, d5) ← configure_device w4 hc3 d buf phys fuel;
        Some (pmm_free_pages w5 phys 1, hc5, aset devices slot (Some d5), 0)
    end.

(** The speed that the caller has read is not used. *)
Definition usb_enumerate_device (w : W) (hc : xhci) (devices : list (option usb_device)) (p : Z) (fuel : nat)
  : option (W * xhci * list (option usb_device) * Z) :=
  '(w1, r) ← reset_port w hc p fuel;
  match r with
  | None => Some (w1, hc, devices, -1)
  | Some sp =>
      '(w2, hc2, res) ← run_command w1 hc (Trb 0 0 (TRB_TYPE_FIELD TRB_TYPE_ENABLE_SLOT)) fuel;
      match res with
      | None => Some (w2, hc2, devices, -1)
      | Some slot => enumerate_slot w2 hc2 devices slot p sp fuel
      end
  end.

(** *** xhci.c: the controller *)

(** [while (cond on register)] without a deadline. *)
Fixpoint spin (w : W) (hc : xhci) (offset flag : Z) (want : bool) (fuel : nat) : option W :=
  match fuel with
  | O => None
  | S fuel => let '(w1, v) := xhci_op_read32 w hc offset in if eqb (has_flag v flag) want then Some w1 else spin w1 hc offset flag want fuel
  end.

Fixpoint map_mmio (w : W) (phys i : Z) (n : nat) : W :=
  match n with
  | O => w
  | S n => map_mmio (vmm_map_page w (u64 (phys + i * 4096)) (u64 (phys + i * 4096)) (Z.lor (Z.lor PAGE_PRESENT PAGE_WRITABLE) PAGE_NOCACHE)) phys (i + 1) n
  end.

(** The structure of the controller: the registers and the sizes are read. *)
Definition find_registers (w : W) (d : pci_device) : W * xhci :=
  let b := aget (PciBar 0 0 0 0) (bars d) 0 in
  let size := if 0 <? bar_size b then bar_size b else 0x10000 in
  let w1 := map_mmio w (bar_address b) 0 (Z.to_nat (u64 (size + 4095) / 4096)) in
  let base := bar_address b in
  let '(w2, caplength) := load w1 1 (u64 (base + XHCI_CAP_CAPLENGTH)) in
  let '(w3, rtsoff) := load w2 4 (u64 (base + XHCI_CAP_RTSOFF)) in
  let '(w4, dboff) := load w3 4 (u64 (base + XHCI_CAP_DBOFF)) in
  (w4, Xhci (pd_bus d) (pd_device d) (pd_function d) (irq_line d) base base (u64 (base + caplength)) (u64 (base + Z.ldiff rtsoff 0x1F)) (u64 (base + Z.ldiff dboff 0x3)) size
         0 0 0 0 0 0 0 0 0 0 0 0 0 0 0 0).

Definition set_limits (hc : xhci) (slots ports : Z) : xhci :=
  Xhci (pci_bus hc) (pci_dev hc) (pci_func hc) (hc_irq_line hc) (mmio_virt hc) (cap_base hc) (op_base hc) (rt_base hc) (db_base hc) (mmio_size hc)
    slots ports (cmd_ring hc) (cmd_ring_phys hc) (cmd_enqueue hc) (cmd_cycle hc) (event_ring hc) (event_ring_phys hc) (evt_dequeue hc) (evt_cycle hc)
    (erst hc) (erst_phys hc) (dcbaa hc) (dcbaa_phys hc) (rings_page_phys hc) (dcbaa_page_phys hc).

Definition set_dcbaa (hc : xhci) (virt phys : Z) : xhci :=
  Xhci (pci_bus hc) (pci_dev hc) (pci_func hc) (hc_irq_line hc) (mmio_virt hc) (cap_base hc) (op_base hc) (rt_base hc) (db_base hc) (mmio_size hc)
    (max_slots hc) (max_ports hc) (cmd_ring hc) (cmd_ring_phys hc) (cmd_enqueue hc) (cmd_cycle hc) (event_ring hc) (event_ring_phys hc) (evt_dequeue hc) (evt_cycle hc)
    (erst hc) (erst_phys hc) virt phys (rings_page_phys hc) phys.

(** Steps 2 and 3; [false] when the reset does not end. *)
Definition reset_controller (w : W) (hc : xhci) (fuel : nat) : option (W * bool) :=
  let '(w1, cmd) := xhci_op_read32 w hc XHCI_OP_USBCMD in
  w2 ← (if has_flag cmd XHCI_USBCMD_RUN then spin (xhci_op_write32 w1 hc XHCI_OP_USBCMD (Z.ldiff cmd XHCI_USBCMD_RUN)) hc XHCI_OP_USBSTS XHCI_USBSTS_HCH true fuel else Some w1);
  let '(w3, now) := pit_get_ticks (xhci_op_write32 w2 hc XHCI_OP_USBCMD XHCI_USBCMD_HCRST) in
  let deadline := u64 (now + 1000) in
  w4 ← wait_flag w3 (u64 (op_base hc + XHCI_OP_USBCMD)) XHCI_USBCMD_HCRST deadline fuel;
  let '(w5, cmd) := xhci_op_read32 w4 hc XHCI_OP_USBCMD in
  if has_flag cmd XHCI_USBCMD_HCRST then Some (w5, false)
  else w6 ← wait_flag w5 (u64 (op_base hc + XHCI_OP_USBSTS)) XHCI_USBSTS_CNR (u64 (deadline + 500)) fuel; Some (w6, true).

(** The rings are made known to the controller. *)
Definition program_rings (w : W) (hc : xhci) : W :=
  let w1 := xhci_op_write32 w hc XHCI_OP_CRCR_LO (Z.lor (u32 (cmd_ring_phys hc)) XHCI_CRCR_RCS) in
  let w2 := xhci_op_write32 w1 hc XHCI_OP_CRCR_HI (u32 (Z.shiftr (cmd_ring_phys hc) 32)) in
  let w3 := xhci_rt_write32 w2 hc XHCI_ERSTSZ 1 in
  let w4 := xhci_rt_write32 w3 hc XHCI_ERDP_LO (Z.lor (u32 (event_ring_phys hc)) XHCI_ERDP_EHB) in
  let w5 := xhci_rt_write32 w4 hc XHCI_ERDP_HI (u32 (Z.shiftr (event_ring_phys hc) 32)) in
  let w6 := xhci_rt_write32 w5 hc XHCI_ERSTBA_LO (u32 (erst_phys hc)) in
  let w7 := xhci_rt_write32 w6 hc XHCI_ERSTBA_HI (u32 (Z.shiftr (erst_phys hc) 32)) in
  xhci_rt_write32 w7 hc XHCI_IMOD 4000.

(** Steps 4 to 6; [None] for the result is a failed allocation. *)
Definition set_up_memory (w : W) (hc : xhci) : W * xhci * bool :=
  let '(w1, params) := xhci_cap_read32 w hc XHCI_CAP_HCSPARAMS1 in
  let hc1 := set_limits hc (XHCI_HCSP1_MAXSLOTS params) (XHCI_HCSP1_MAXPORTS params) in
  match dma_alloc (xhci_op_write32 w1 hc1 XHCI_OP_CONFIG (max_slots hc1)) 4096 with
  | (w2, None) => (w2, hc1, false)
  | (w2, Some (virt, phys)) =>
      let hc2 := set_dcbaa hc1 virt phys in
      let w3 := xhci_op_write32 (xhci_op_write32 w2 hc2 XHCI_OP_DCBAAP_LO (u32 phys)) hc2 XHCI_OP_DCBAAP_HI (u32 (Z.shiftr phys 32)) in
      let '(w4, hc3, r) := xhci_alloc_rings w3 hc2 in
      if r <? 0 then (w4, hc3, false) else (program_rings w4 hc3, hc3, true)
  end.

(** Step 8: the ports [i], [i + 1], ..., [n] of them. *)
Fixpoint enumerate_ports (w : W) (hc : xhci) (devices : list (option usb_device)) (i : Z) (fuel : nat) (n : nat) : option (W * xhci * list (option usb_device)) :=
  match n with
  | O => Some (w, hc, devices)
  | S n =>
      let '(w1, portsc) := xhci_op_read32 w hc (XHCI_PORTSC (i - 1)) in
      '(w2, hc2, devices2) ← (if has_flag portsc XHCI_PORTSC_CCS then '(w2, hc2, ds, _) ← usb_enumerate_device w1 hc devices (u8 (i - 1)) fuel; Some (w2, hc2, ds)
                              else Some (w1, hc, devices));
      enumerate_ports w2 hc2 devices2 (i + 1) fuel n
  end.

(** The handler works on the structure that [g_xhci] points to. *)
Definition xhci_isr (fuel : nat) : isr_handler_t (W := W) :=
  fun w _ => '(w1, g) ← xhci_irq_handler w (get_xhci w) fuel; Some (match g with Some hc => set_xhci w1 hc | None => w1 end).

(** Step 7, after the interrupt has been registered. *)
Definition start_controller (w : W) (hc : xhci) (fuel : nat) : option W :=
  let w1 := pic_clear_mask w (hc_irq_line hc) in
  let '(w2, iman) := xhci_rt_read32 w1 hc XHCI_IMAN in
  let w3 := xhci_rt_write32 w2 hc XHCI_IMAN (Z.lor iman (Z.lor XHCI_IMAN_IE XHCI_IMAN_IP)) in
  let '(w4, cmd) := xhci_op_read32 w3 hc XHCI_OP_USBCMD in
  spin (xhci_op_write32 w4 hc XHCI_OP_USBCMD (Z.lor (Z.lor (Z.lor cmd XHCI_USBCMD_RUN) XHCI_USBCMD_INTE) XHCI_USBCMD_HSEE)) hc XHCI_OP_USBSTS XHCI_USBSTS_HCH false fuel.

Definition announce (w : W) (hc : xhci) : W :=
  kprint (kprintf_set_color (kprint (kprintf_set_color w 0x0088FF88 FB_DEFAULT_BG) (txt "[XHCI] ")) 0x00CCCCCC FB_DEFAULT_BG)
    (txt "Controller found: PCI " ++ hex 2 (pci_bus hc) ++ txt ":" ++ hex 2 (pci_dev hc) ++ txt "." ++ hex 0 (pci_func hc) ++ [10]).

Definition xhci_init_controller (w : W) (h : hal W) (devices : list (option usb_device)) (d : option pci_device) (fuel n : nat)
  : option (W * hal W * list (option usb_device) * Z) :=
  match d with
  | None => Some (w, h, devices, -1)
  | Some d =>
      if negb (bar_type (aget (PciBar 0 0 0 0) (bars d) 0) =? PCI_BAR_TYPE_MMIO) then Some (w, h, devices, -1)
      else
        let '(w1, p) := kmalloc w sizeof_xhci in
        if p =? 0 then Some (w1, h, devices, -1)
        else
          let '(w2, hc) := find_registers w1 d in
          w3 ← xhci_bios_handoff (announce (set_xhci w2 hc) hc) hc fuel n;
          '(w4, ok) ← reset_controller w3 hc fuel;
          if negb ok then Some (w4, h, devices, -1)
          else
            let '(w5, hc5, ok) := set_up_memory w4 hc in
            if negb ok then Some (set_xhci w5 hc5, h, devices, -1)
            else
              let h1 := isr_register_handler h (u8 (32 + hc_irq_line hc5)) (Some (xhci_isr fuel)) in
              w6 ← start_controller (set_xhci w5 hc5) hc5 fuel;
              '(w7, hc7, ds) ← enumerate_ports w6 hc5 devices 1 fuel (Z.to_nat (max_ports hc5));
              Some (set_xhci w7 hc7, h1, ds, 0)
  end.

Definition xhci_probe_device (d : pci_device) : Z :=
  if (class_code d =? 0x0C) && (subclass_code d =? 0x03) && (prog_if d =? 0x30) then 1 else 0.

End usb.
