(* ===== verification/UsbDeviceThm.v ===== *)
(** Enumeration finds the keyboards: the walk over the descriptors of a device ends and
    makes the device a keyboard exactly when an interface of the HID class is among them. *)
From stdpp Require Import prelude gmap list.
From Stdlib Require Import ZArith Lia.
From S2P Require Import Prelude Pci Hal Dma UsbHid Xhci XhciThm UsbDevice.

Open Scope Z_scope.

(** A descriptor: its length, its type, and the rest. *)
Definition descriptor_ok (d : list Z) : Prop := exists len type rest, d = len :: type :: rest /\ len = alen d /\ (type = USB_DESC_TYPE_INTERFACE -> 6 <= len).

Definition is_hid (d : list Z) : bool := (aget 0 d 1 =? USB_DESC_TYPE_INTERFACE) && (aget 0 d 5 =? USB_CLASS_HID).

(** The state that the probe makes. *)
Definition keyboard_state : usb_hid_private := HidPrivate HID_TYPE_KEYBOARD (replicate 8 0).

Section descriptors.
Context {W : Type} `{UsbMachine W} (bytes : W -> Z -> Z).

(** The buffer does not change while it is read, and memory does not run out. *)
Class BufferMemory : Prop := {
  byte_load w a : (load w 1 a).2 = bytes w a;
  byte_quiet w n a b : bytes (load w n a).1 b = bytes w b;
  byte_alloc w n : 0 < (kmalloc w n).2 /\ forall b, bytes (kmalloc w n).1 b = bytes w b }.

Context `{BufferMemory}.

(** The list [bs] is at [a]. *)
Definition buffer (w : W) (a : Z) (bs : list Z) : Prop := forall i, 0 <= i < alen bs -> bytes w (a + i) = aget 0 bs i.

Lemma buffer_app w a x y : buffer w a (x ++ y) -> buffer w a x /\ buffer w (a + alen x) y.
Proof.
  intros Hb. unfold buffer, alen, aget in *. rewrite length_app in Hb. split; intros i Hi.
  - rewrite Hb by lia. by rewrite lookup_app_l by lia.
  - rewrite <- Z.add_assoc, Hb by lia. rewrite lookup_app_r by lia. do 2 f_equal. lia.
Qed.

Lemma buffer_same w w' a bs : (forall b, bytes w' b = bytes w b) -> buffer w a bs -> buffer w' a bs.
Proof. intros E Hb i Hi. by rewrite E, Hb. Qed.

(** One descriptor. *)
Lemma descriptor_step w hid a d fin fuel : descriptor_ok d -> buffer w a d -> a < fin ->
  exists w', descriptor_loop w hid a fin (S fuel) = descriptor_loop w' (if is_hid d then Some keyboard_state else hid) (a + alen d) fin fuel /\
    forall b, bytes w' b = bytes w b.
Proof.
  intros (len & type & rest & -> & Hlen & Hty) Hb Hfin. cbn [descriptor_loop]. rewrite (proj2 (Z.ltb_lt a fin)) by done.
  assert (Hal : alen (len :: type :: rest) = 2 + alen rest) by (unfold alen; cbn [length]; lia). pose proof (alen_nonneg rest).
  pose proof (byte_load w a) as E1. pose proof (byte_quiet w 1 a) as Q1. destruct (load w 1 a) as [w1 v1]. cbn [fst snd] in E1, Q1.
  pose proof (byte_load w1 (a + 1)) as E2. pose proof (byte_quiet w1 1 (a + 1)) as Q2. destruct (load w1 1 (a + 1)) as [w2 v2]. cbn [fst snd] in E2, Q2.
  pose proof (Hb 0 ltac:(lia)) as B0. rewrite Z.add_0_r in B0. pose proof (Hb 1 ltac:(lia)) as B1. cbn in B0, B1.
  rewrite E1, B0, E2, Q1, B1. unfold is_hid. change (aget 0 (len :: type :: rest) 1) with type. rewrite <- Hlen. destruct (Z.eqb_spec type USB_DESC_TYPE_INTERFACE) as [Et|Et]; cbn [andb].
  - specialize (Hty Et). pose proof (byte_load w2 (a + 5)) as E3. pose proof (byte_quiet w2 1 (a + 5)) as Q3. destruct (load w2 1 (a + 5)) as [w3 v3]. cbn [fst snd] in E3, Q3.
    rewrite E3, Q2, Q1, Hb by lia. destruct (_ =? USB_CLASS_HID); [|eexists; split; [done|]; intros b; by rewrite Q3, Q2, Q1].
    unfold usb_hid_probe. destruct (byte_alloc w3 sizeof_usb_hid_private) as [Hk Qk]. destruct (kmalloc w3 sizeof_usb_hid_private) as [w4 q]. cbn [fst snd] in Hk, Qk.
    rewrite (proj2 (Z.eqb_neq q 0)) by lia. eexists. split; [done|]. intros b. by rewrite Qk, Q3, Q2, Q1.
  - eexists. split; [done|]. intros b. by rewrite Q2, Q1.
Qed.

(** The walk over well-formed descriptors ends after each of them has been read
    once, and makes the device a keyboard exactly when one is a HID interface. *)
Theorem descriptors_find_keyboard (ds : list (list Z)) (w : W) (hid : option usb_hid_private) (a : Z) :
  Forall descriptor_ok ds -> buffer w a (concat ds) ->
  exists w', descriptor_loop w hid a (a + alen (concat ds)) (S (length ds)) = Some (w', if existsb is_hid ds then Some keyboard_state else hid).
Proof.
  intros F. enough (G : forall fin, fin = a + alen (concat ds) -> buffer w a (concat ds) ->
    exists w', descriptor_loop w hid a fin (S (length ds)) = Some (w', if existsb is_hid ds then Some keyboard_state else hid)) by (intros Hb; by apply G).
  revert w hid a. induction F as [|d ds Hd F IH]; intros w hid a fin Hfin Hb; cbn [concat length existsb].
  - cbn in Hfin. rewrite Z.add_0_r in Hfin. subst fin. cbn [descriptor_loop]. rewrite Z.ltb_irrefl. by exists w.
  - cbn [concat] in *. assert (Hal : alen (d ++ concat ds) = alen d + alen (concat ds)) by (unfold alen; rewrite length_app; lia).
    pose proof (alen_nonneg (concat ds)). apply buffer_app in Hb as [Hb1 Hb2].
    assert (0 < alen d) by (destruct Hd as (? & ? & ? & -> & _); unfold alen; cbn [length]; lia).
    destruct (descriptor_step w hid a d fin (S (length ds)) Hd Hb1) as (w1 & -> & Q); [lia|].
    destruct (IH w1 (if is_hid d then Some keyboard_state else hid) (a + alen d) fin) as (w2 & E); [lia|by eapply buffer_same|]. exists w2. rewrite E.
    destruct (is_hid d); cbn [orb]; [|done]. by destruct (existsb is_hid ds).
Qed.

(** A descriptor of length 0 stops the walk for ever. *)
Lemma empty_descriptor_hangs fuel : forall w hid a fin, a < fin -> bytes w a = 0 -> descriptor_loop w hid a fin fuel = None.
Proof.
  induction fuel as [|fuel IH]; intros w hid a fin Ha Hz; [done|]. cbn [descriptor_loop]. rewrite (proj2 (Z.ltb_lt a fin)) by done.
  pose proof (byte_load w a) as E1. pose proof (byte_quiet w 1 a) as Q1. destruct (load w 1 a) as [w1 v1]. cbn [fst snd] in E1, Q1. rewrite E1, Hz, Z.add_0_r.
  pose proof (byte_quiet w1 1 (a + 1)) as Q2. destruct (load w1 1 (a + 1)) as [w2 v2]. cbn [fst] in Q2. destruct (v2 =? USB_DESC_TYPE_INTERFACE).
  - pose proof (byte_quiet w2 1 (a + 5)) as Q3. destruct (load w2 1 (a + 5)) as [w3 v3]. cbn [fst] in Q3. destruct (v3 =? USB_CLASS_HID).
    + unfold usb_hid_probe. destruct (byte_alloc w3 sizeof_usb_hid_private) as [_ Qk]. destruct (kmalloc w3 _) as [w4 q]. cbn [fst] in Qk.
      destruct (q =? 0); apply IH; [done|by rewrite Qk, Q3, Q2, Q1|done|by rewrite Qk, Q3, Q2, Q1].
    + apply IH; [done|]. by rewrite Q3, Q2, Q1.
  - apply IH; [done|]. by rewrite Q2, Q1.
Qed.

End descriptors.

(** ** A machine of bytes that records the TRBs *)

Notation recorder := (gmap Z Z * list (Z * trb))%type.

#[local] Instance recorder_usb : UsbMachine recorder := {|
  um_dma := {| dm_ports := {|
    pm_machine := {| outl := fun w _ _ => w; outw := fun w _ _ => w; outb := fun w _ _ => w; inl := fun w _ => (w, 0); cpu_flags := fun _ => 0;
                     set_cpu_flags := fun w _ => w; kprintf_set_color := fun w _ _ => w; kprint := fun w _ => w |};
    inb := fun w _ => (w, 0); inw := fun w _ => (w, 0); pit_get_ticks := fun w => (w, 0) |};
  load := fun w _ a => (w, default 0 (w.1 !! a)); store := fun w _ _ _ => w; clear := fun w _ _ => w;
  pmm_alloc_page := fun w => (w, 0); pmm_alloc_pages := fun w _ => (w, 0); pmm_free_pages := fun w _ _ => w; vmm_map_page := fun w _ _ _ => w; vmm_get_phys := fun _ _ => 0; vmm_get_hhdm_offset := fun _ => 0;
  kmalloc := fun w _ => (w, 65536) |};
  store_trb := fun w a t => (w.1, w.2 ++ [(a, t)]); get_xhci := fun _ => None; set_xhci := fun w _ => w |}.

#[local] Instance recorder_buffer : BufferMemory (fun w a => default 0 (w.1 !! a)).
Proof. by split. Qed.

(** An interface of the HID class, its HID descriptor, an endpoint. *)
Definition keyboard_descriptors : list (list Z) :=
  [[9; 4; 0; 0; 1; 3; 1; 1; 0]; [9; 33; 17; 1; 0; 1; 34; 63; 0]; [7; 5; 129; 3; 8; 0; 10]].

Definition descriptor_memory : recorder := (list_to_map (zip (seqZ 1000 25) (concat keyboard_descriptors)), []).

Lemma descriptors_find_keyboard_witness : exists w', descriptor_loop descriptor_memory None 1000 1025 4 = Some (w', Some keyboard_state).
Proof.
  apply (descriptors_find_keyboard (fun w a => default 0 (w.1 !! a)) keyboard_descriptors descriptor_memory None 1000).
  - repeat (apply Forall_cons; split; [do 3 eexists; split; [reflexivity|]; split; [reflexivity|]; intros _; first [done|lia]|]). constructor.
  - assert (G : Forall (fun i => default 0 (descriptor_memory.1 !! (1000 + i)) = aget 0 (concat keyboard_descriptors) i) (seqZ 0 25)) by (apply (bool_decide_unpack _); vm_compute; exact I).
    rewrite Forall_forall in G. intros i Hi. apply G, elem_of_seqZ. change (alen (concat keyboard_descriptors)) with 25 in Hi. lia.
Defined.

(** A transfer that starts near the end of its ring: the status stage lies behind the
    last place, and the link overwrites the data stage. *)
Example transfer_ring_overrun :
  map fst (queue_transfer (∅, []) (Endpoint 0 64 4096 4096 14 1 1) (get_descriptor USB_DESC_TYPE_DEVICE 18) 0 18 true).1.1.2 =
  [4096 + 16 * 14; 4096 + 16 * 15; 4096 + 16 * 16; 4096 + 16 * 15].
Proof. vm_compute. reflexivity. Qed.

(** A slot number that does not fit the table is stored behind it. *)
Example slot_behind_table : enumerate_slot (∅, []) XhciThm.demo_hc (replicate 32 None) 40 0 3 5 = None.
Proof. vm_compute. reflexivity. Qed.
