(* ===== verification/Ahci.v ===== *)
(** The SATA driver, kernel/src/drivers/storage/ahci.c and ahci.h.

    A port is the address of its registers.  The command list, the command table and the
    bounce buffer are memory shared with the device, filled field by field at the offsets
    of the structures.  The device data of drive [i] is entry [i] of the port table; the
    drives are those of Ata.v, without the channel fields. *)
From stdpp Require Import prelude gmap list strings.
From Stdlib Require Import ZArith Lia.
From S2P Require Import Prelude Vmm Printf PrintfThm Framebuffer Pci Hal Ata Dma.

Open Scope Z_scope.

(** ** ahci.h *)

Definition FIS_TYPE_REG_H2D : Z := 0x27.
Definition sizeof_fis : Z := 20.
Definition sizeof_cmd_tbl : Z := 144.
Definition sizeof_cmd_header : Z := 32.

(** Offsets in the command table. *)
Definition prdt_dba : Z := 128.
Definition prdt_dbc : Z := 140.

(** Offsets of the port registers. *)
Definition P_CLB : Z := 0x00.
Definition P_CLBU : Z := 0x04.
Definition P_FB : Z := 0x08.
Definition P_FBU : Z := 0x0C.
Definition P_IS : Z := 0x10.
Definition P_CMD : Z := 0x18.
Definition P_TFD : Z := 0x20.
Definition P_SIG : Z := 0x24.
Definition P_SSTS : Z := 0x28.
Definition P_SERR : Z := 0x30.
Definition P_SACT : Z := 0x34.
Definition P_CI : Z := 0x38.

(** Of the controller's registers; the ports follow. *)
Definition H_CAP : Z := 0x00.
Definition H_GHC : Z := 0x04.
Definition H_PI : Z := 0x0C.
Definition H_VS : Z := 0x10.
Definition H_PORTS : Z := 0x100.
Definition sizeof_port : Z := 0x80.

(** The timeouts count polls. *)
Definition POLLS : nat := Z.to_nat 1000000.

Record port_info := PortInfo {
  port_reg : Z; cmd_list : Z; fis_base : Z; cmd_tbl : Z; bounce_phys : Z; bounce_virt : Z; pi_bus : Z; pi_device : Z; pi_func : Z }.

Definition ALL_ONES : Z := 0xFFFFFFFF.

Section ahci.
Context {W : Type} `{DmaMachine W}.
Implicit Types (w : W).

(** The register is polled while a bit of [mask] is set and [timeout--] is not 0. *)
Fixpoint spin_while (w : W) (a mask : Z) (timeout : nat) : W :=
  let '(w1, v) := load w 4 a in
  if nonzero (Z.land v mask) then match timeout with O => w1 | S t => spin_while w1 a mask t end else w1.

(** The loop of [ahci_stop_port]. *)
Fixpoint stop_loop (w : W) (port : Z) (timeout : nat) : W * Z :=
  match timeout with
  | O => (w, 0)
  | S t =>
      let '(w1, v1) := load w 4 (port + P_CMD) in
      if has_flag v1 (Z.shiftl 1 15) then stop_loop w1 port t
      else let '(w2, v2) := load w1 4 (port + P_CMD) in if has_flag v2 (Z.shiftl 1 14) then stop_loop w2 port t else (w2, 1)
  end.

Definition ahci_stop_port (w : W) (port : Z) : W * Z :=
  stop_loop (clear_bits (clear_bits w (port + P_CMD) (Z.shiftl 1 0)) (port + P_CMD) (Z.shiftl 1 4)) port POLLS.

Definition ahci_start_port (w : W) (port : Z) : W :=
  set_bits (set_bits (spin_while w (port + P_CMD) (Z.shiftl 1 15) POLLS) (port + P_CMD) (Z.shiftl 1 4)) (port + P_CMD) (Z.shiftl 1 0).

Fixpoint find_slot (slots i : Z) (n : nat) : Z :=
  match n with O => -1 | S n => if Z.land slots (Z.shiftl 1 i) =? 0 then i else find_slot slots (i + 1) n end.

Definition ahci_find_cmdslot (w : W) (port : Z) : W * Z :=
  let '(w1, sact) := load w 4 (port + P_SACT) in
  let '(w2, ci) := load w1 4 (port + P_CI) in
  (w2, find_slot (Z.lor sact ci) 0 32).

(** The header of the command: five dwords, a read, one region. *)
Definition fill_header (w : W) (hdr : Z) : W :=
  let '(w1, b) := load w 1 hdr in
  store (store w1 1 hdr (Z.ldiff (Z.lor (Z.ldiff b 0x1F) (sizeof_fis / 4)) 0x40)) 2 (hdr + 2) 1.

(** The empty table with its region: [bytes - 1] is a field of 22 bits, the interrupt
    bit comes after. *)
Definition fill_region (w : W) (info : port_info) (bytes : Z) : W :=
  let tbl := cmd_tbl info in
  store (store (clear w tbl sizeof_cmd_tbl) 8 (tbl + prdt_dba) (bounce_phys info)) 4 (tbl + prdt_dbc) (Z.lor ((bytes - 1) mod 2 ^ 22) (Z.shiftl 1 31)).

(** The fields of a frame, from the start of the table. *)
Fixpoint store_fields (w : W) (tbl : Z) (fields : list (Z * Z)) : W :=
  match fields with [] => w | (off, v) :: fields => store_fields (store w 1 (tbl + off) v) tbl fields end.

Definition wait_not_busy (w : W) (port : Z) : W := spin_while w (port + P_TFD) (Z.lor ATA_SR_BSY ATA_SR_DRQ) POLLS.

(** The command goes to the device. *)
Definition issue (w : W) (port slot : Z) : W :=
  (load (store (store w 4 (port + P_IS) ALL_ONES) 4 (port + P_CI) (Z.shiftl 1 slot)) 4 (port + P_CI)).1.

(** The loop after the issue, with the final value of [timeout]; [watch] stops at an
    error too. *)
Fixpoint completion_loop (w : W) (port slot : Z) (watch : bool) (timeout : nat) : W * Z :=
  match timeout with
  | O => (w, -1)
  | S t =>
      let '(w1, ci) := load w 4 (port + P_CI) in
      if Z.land ci (Z.shiftl 1 slot) =? 0 then (w1, Z.of_nat t)
      else if watch then
        let '(w2, ist) := load w1 4 (port + P_IS) in
        if has_flag ist (Z.shiftl 1 30) then (w2, Z.of_nat t) else completion_loop w2 port slot watch t
      else completion_loop w1 port slot watch t
  end.

Definition signed_dec (v : Z) : list Z := if v <? 0 then 45 :: dec (- v) else dec v.

(** [drive->drive_name[2] - 'a'] *)
Definition port_number (d : ata_drive_t) : Z := s8 (aget 0 (drive_name d) 2) - 97.

Definition port_text (n : Z) (text : list Z) : list Z := txt "       Port " ++ signed_dec n ++ txt ": " ++ text ++ [10].

(** A failure, with three registers. *)
Definition complain (w : W) (d : ata_drive_t) (port : Z) (what : list Z) : W :=
  let '(w1, ci) := load w 4 (port + P_CI) in
  let '(w2, tfd) := load w1 4 (port + P_TFD) in
  let '(w3, ist) := load w2 4 (port + P_IS) in
  kprint w3 (port_text (port_number d) (what ++ txt " (CI=0x" ++ hex 0 ci ++ txt ", TFD=0x" ++ hex 0 tfd ++ txt ", IS=0x" ++ hex 0 ist ++ txt ")")).

(** *** Identification *)

(** Words [27 + i] and following of the answer, the bytes exchanged. *)
Fixpoint read_model (w : W) (buf i : Z) (n : nat) : W * list Z :=
  match n with
  | O => (w, [])
  | S n =>
      let '(w1, hi) := load w 2 (buf + 2 * (27 + i)) in
      let '(w2, lo) := load w1 2 (buf + 2 * (27 + i)) in
      let '(w3, bs) := read_model w2 buf (i + 1) n in
      (w3, u8 (Z.shiftr hi 8) :: Z.land lo 0xFF :: bs)
  end.

Definition set_identity (d : ata_drive_t) (name : list Z) (sectors : Z) : ata_drive_t :=
  AtaDriveT (present d) (is_master d) (is_lba48 d) (io_base d) (ctrl_base d) sectors name (drive_name d).

(** The command for slot [slot], up to its frame. *)
Definition prepare (w : W) (info : port_info) (slot bytes : Z) : W := fill_region (fill_header w (cmd_list info + sizeof_cmd_header * slot)) info bytes.

Definition identify_frame : list (Z * Z) := [(0, FIS_TYPE_REG_H2D); (1, 0x80); (2, ATA_CMD_IDENTIFY)].

Definition ahci_identify (w : W) (d : ata_drive_t) (info : port_info) : W * ata_drive_t * Z :=
  let port := port_reg info in
  let '(w1, slot) := ahci_find_cmdslot w port in
  if slot =? -1 then (w1, d, 0)
  else
    let w2 := prepare w1 info slot 512 in
    let w3 := wait_not_busy (store (store w2 4 (port + P_SERR) ALL_ONES) 4 (port + P_IS) ALL_ONES) port in
    let w4 := wait_not_busy (store_fields w3 (cmd_tbl info) identify_frame) port in
    let '(w5, timeout) := completion_loop (issue w4 port slot) port slot false POLLS in
    if timeout <=? 0 then (complain w5 d port (txt "IDENTIFY Timeout"), d, 0)
    else
      let phys := vmm_get_phys w5 (bounce_virt info) in
      let w6 := if phys =? bounce_phys info then w5 else
        kprint w5 (port_text (port_number d) (txt "ERROR - Mapping mismatch! Virt 0x" ++ hex 16 (bounce_virt info) ++ txt " -> Phys " ++ hex 0 phys ++
          txt " (Expected " ++ hex 0 (bounce_phys info) ++ txt ")")) in
      let '(w7, name) := read_model w6 (bounce_virt info) 0 20 in
      let '(w8, lba48) := load w7 8 (bounce_virt info + 200) in
      let '(w9, sectors) := if lba48 =? 0 then load w8 4 (bounce_virt info + 120) else (w8, lba48) in
      (w9, set_identity d (name ++ [0]) sectors, 1).

(** *** Reading *)

(** The registers of the port answer; otherwise the controller is woken up once. *)
Definition check_access (w : W) (d : ata_drive_t) (info : port_info) : W * bool :=
  let port := port_reg info in
  let '(w1, ist) := load w 4 (port + P_IS) in
  if ist =? ALL_ONES then
    let w2 := pci_write_word w1 (pi_bus info) (pi_device info) (pi_func info) 0x04 0x0007 in
    let abar := u64 (vmm_get_hhdm_offset w2 + port - port mod 0x1000) in
    let w3 := (load (set_bits w2 (abar + H_GHC) (Z.shiftl 1 31)) 4 (abar + H_GHC)).1 in
    let '(w4, ist) := load w3 4 (port + P_IS) in
    if ist =? ALL_ONES then (kprint w4 (port_text (port_number d) (txt "Fatal register access failure (ABORT)")), false) else (w4, true)
  else (w1, true).

Definition read_frame (lba count : Z) : list (Z * Z) :=
  [(0, FIS_TYPE_REG_H2D); (1, 0x80); (2, 0x25); (4, u8 lba); (5, u8 (Z.shiftr lba 8)); (6, u8 (Z.shiftr lba 16)); (7, 0x40);
   (8, u8 (Z.shiftr lba 24)); (9, u8 (Z.shiftr lba 32)); (10, u8 (Z.shiftr lba 40)); (12, count); (13, 0)].

(** From the choice of the slot to the end of the command: the slot, unless there is
    none, and the final timeout. *)
Definition run_read (w : W) (info : port_info) (lba count : Z) : W * option Z :=
  let port := port_reg info in
  let '(w2, slot) := ahci_find_cmdslot (store (store w 4 (port + P_SERR) ALL_ONES) 4 (port + P_IS) ALL_ONES) port in
  if slot =? -1 then (w2, None)
  else
    let w3 := store_fields (prepare w2 info slot (count * 512)) (cmd_tbl info) (read_frame lba count) in
    let '(w4, timeout) := completion_loop (issue (wait_not_busy w3 port) port slot) port slot true POLLS in
    (w4, Some timeout).

(** A buffer that is too short is overrun. *)
Definition ahci_read_sectors (w : W) (d : ata_drive_t) (info : port_info) (lba count : Z) (buffer : list Z) : option (W * list Z * Z) :=
  let '(w1, ok) := check_access w d info in
  if negb ok then Some (w1, buffer, 0)
  else
    match run_read w1 info lba count with
    | (w2, None) => Some (w2, buffer, 0)
    | (w2, Some timeout) =>
        let '(w3, failed) := if timeout <=? 0 then (w2, true) else let '(w3, ist) := load w2 4 (port_reg info + P_IS) in (w3, has_flag ist (Z.shiftl 1 30)) in
        if (failed : bool) then Some (complain w3 d (port_reg info) (txt "READ Timeout/Error"), buffer, 0)
        else
          let '(w4, data) := load_bytes w3 (bounce_virt info) (Z.to_nat (count * 512)) in
          if alen buffer <? count * 512 then None else Some (w4, data ++ drop (Z.to_nat (count * 512)) buffer, 1)
    end.

(** *** The controller *)

Definition PCI_SUBCLASS_STORAGE_SATA : Z := 0x06.
Definition PAGE_NOCACHE : Z := Z.shiftl 1 4.
Definition SATA_SIGNATURE : Z := 0x00000101.

Definition ahci_probe (pci : pci_device) : Z :=
  if (class_code pci =? PCI_CLASS_STORAGE) && (subclass_code pci =? PCI_SUBCLASS_STORAGE_SATA) then 1 else 0.

(** The last memory-mapped region. *)
Definition find_abar (bars : list pci_bar) : Z := foldl (fun a b => if bar_type b =? PCI_BAR_TYPE_MMIO then bar_address b else a) 0 bars.

Context `{BlockLayer W}.

(** The table of a command for each of the headers of a list. *)
Fixpoint set_tables (w : W) (clist table i : Z) (n : nat) : W :=
  match n with O => w | S n => set_tables (store w 8 (clist + sizeof_cmd_header * i + 8) table) clist table (i + 1) n end.

Definition dma_text (clb fb ct bounce : Z) : list Z :=
  txt "DMA CLB=0x" ++ hex 0 clb ++ txt ", FB=0x" ++ hex 0 fb ++ txt ", CT=0x" ++ hex 0 ct ++ txt ", BOUNCE=0x" ++ hex 0 bounce.

(** The memory of port [i]. *)
Definition port_memory (w : W) (pci : pci_device) (port i : Z) : W * port_info :=
  let hhdm := vmm_get_hhdm_offset w in
  let '(w1, clb) := pmm_alloc_page w in
  let '(w2, fb) := pmm_alloc_page w1 in
  let '(w3, ct) := pmm_alloc_page w2 in
  let '(w4, bounce) := pmm_alloc_pages w3 32 in
  let w5 := kprint w4 (port_text i (dma_text clb fb ct bounce)) in
  let w6 := store (store w5 4 (port + P_CLB) (u32 clb)) 4 (port + P_CLBU) (u32 (Z.shiftr clb 32)) in
  let w7 := store (store w6 4 (port + P_FB) (u32 fb)) 4 (port + P_FBU) (u32 (Z.shiftr fb 32)) in
  let clist := u64 (clb + hhdm) in
  (set_tables (clear w7 clist 4096) clist ct 0 32,
   PortInfo port clist (u64 (fb + hhdm)) (u64 (ct + hhdm)) bounce (u64 (bounce + hhdm)) (pd_bus pci) (pd_device pci) (pd_function pci)).

Definition sata_drive (i : Z) : ata_drive_t := AtaDriveT 1 0 0 0 0 0 (replicate 41 0) [115; 100; s8 (97 + i); 0].

(** A drive at port [i]: its memory, its identification, its registration. *)
Definition attach_drive (w : W) (pci : pci_device) (infos : list port_info) (drives : list ata_drive_t) (port i : Z)
  : option (W * list port_info * list ata_drive_t) :=
  let '(w1, info) := port_memory w pci port i in
  let w2 := ahci_start_port w1 port in
  let infos := aset infos i info in
  let '(w3, d, found) := ahci_identify w2 (sata_drive i) info in
  let drives := aset drives i d in
  let w4 := kprint w3 (port_text i (if nonzero found then txt "Model: " ++ c_str (model d) ++ txt ", Capacity: " ++ dec (total_sectors d) ++ txt " sectors"
                                    else txt "Warning - IDENTIFY failed")) in
  w5 ← bl_register w4 (c_str (drive_name d)) i 0 (total_sectors d);
  w6 ← bl_parse w5 drives i;
  Some (w6, infos, drives).

(** [while ((port->ssts & 0x0F) != 0x03 && timeout--)] *)
Fixpoint wait_link (w : W) (port : Z) (timeout : nat) : W :=
  let '(w1, v) := load w 4 (port + P_SSTS) in
  if Z.land v 0x0F =? 0x03 then w1 else match timeout with O => w1 | S t => wait_link w1 port t end.

Definition init_port (w : W) (pci : pci_device) (infos : list port_info) (drives : list ata_drive_t) (port i : Z)
  : option (W * list port_info * list ata_drive_t) :=
  let '(w1, ssts) := load (wait_link w port POLLS) 4 (port + P_SSTS) in
  if Z.land ssts 0x0F =? 0x03 then
    let '(w2, sig) := load w1 4 (port + P_SIG) in
    if negb (sig =? SATA_SIGNATURE) then
      let '(w3, sig) := load w2 4 (port + P_SIG) in
      Some (kprint w3 (port_text i (txt "Connected (Sig=0x" ++ hex 0 sig ++ txt ") - Skipping non-SATA")), infos, drives)
    else
      let '(w3, stopped) := ahci_stop_port (kprint w2 (port_text i (txt "SATA Drive Connected"))) port in
      if stopped =? 0 then Some (w3, infos, drives)
      else attach_drive (store (store w3 4 (port + P_SERR) ALL_ONES) 4 (port + P_IS) ALL_ONES) pci infos drives port i
  else Some (w1, infos, drives).

(** The ports [i], [i + 1], ... that are implemented. *)
Fixpoint init_ports (w : W) (pci : pci_device) (infos : list port_info) (drives : list ata_drive_t) (abar pi i : Z) (n : nat)
  : option (W * list port_info * list ata_drive_t) :=
  match n with
  | O => Some (w, infos, drives)
  | S n =>
      '(w1, infos1, drives1) ← (if negb (Z.land pi (Z.shiftl 1 i) =? 0) then init_port w pci infos drives (abar + H_PORTS + sizeof_port * i) i else Some (w, infos, drives));
      init_ports w1 pci infos1 drives1 abar pi (i + 1) n
  end.

(** The number of leading zeros of 0 is undefined. *)
Definition highest_port (pi : Z) : option Z := if pi =? 0 then None else Some (Z.log2 pi + 1).

Definition ahci_init (w : W) (pci : pci_device) (infos : list port_info) (drives : list ata_drive_t) : option (W * list port_info * list ata_drive_t * Z) :=
  let phys := find_abar (bars pci) in
  if phys =? 0 then Some (w, infos, drives, -1)
  else
    let '(w1, cmd) := pci_read_word w (pd_bus pci) (pd_device pci) (pd_function pci) 0x04 in
    let w2 := pci_write_word w1 (pd_bus pci) (pd_device pci) (pd_function pci) 0x04 (Z.lor cmd 0x06) in
    let abar := u64 (phys + vmm_get_hhdm_offset w2) in
    let flags := Z.lor (Z.lor PAGE_PRESENT PAGE_WRITABLE) PAGE_NOCACHE in
    let w3 := vmm_map_page (vmm_map_page w2 abar phys flags) (u64 (abar + 0x1000)) (u64 (phys + 0x1000)) flags in
    let w4 := (load (set_bits w3 (abar + H_GHC) (Z.shiftl 1 31)) 4 (abar + H_GHC)).1 in
    let '(w5, pi) := load w4 4 (abar + H_PI) in
    let '(w6, vs) := load w5 4 (abar + H_VS) in
    let '(w7, cap) := load w6 4 (abar + H_CAP) in
    ports ← highest_port pi;
    let w8 := kprint w7 (txt "[AHCI] SATA Controller: Version " ++ dec (Z.land (Z.shiftr vs 16) 0xFFFF) ++ txt "." ++ dec (Z.land vs 0xFFFF) ++
      txt ", Ports: " ++ dec ports ++ txt ", Cap: 0x" ++ hex 0 cap ++ [10]) in
    '(w9, infos1, drives1) ← init_ports w8 pci infos drives abar pi 0 32;
    Some (w9, infos1, drives1, 0).

End ahci.
