(* ===== verification/AhciThm.v ===== *)
(** A read through the SATA driver gives the sectors of the disk.

    The device is described by what its specification says: it takes a command from the
    memory of the port when the command is issued, works while the driver polls, and has
    stored the data at the physical address of the command when the bit of the command is
    clear. *)
From stdpp Require Import prelude gmap list strings.
From Stdlib Require Import ZArith Lia.
From S2P Require Import Prelude Pci Hal Ata Dma Ahci.

Open Scope Z_scope.

(** Byte [i] of a number. *)
Definition byte_of (v i : Z) : Z := v / 2 ^ (8 * i) mod 256.

Section sata.
Context {W : Type} `{DmaMachine W} (info : port_info) (disk : Z -> list Z).

Notation port := (port_reg info).
Notation tbl := (cmd_tbl info).
Notation hdr := (cmd_list info).

(** The memory, a port without a command, a port working on [count] sectors from [lba]
    for some more polls, a port that has stored data. *)
Context (ram : W -> Z -> Z) (quiet : W -> Prop) (running : W -> Z -> Z -> nat -> Prop) (finished : W -> list Z -> Prop).

(** The header of the first command, and the table. *)
Definition shared (a n : Z) : Prop := (hdr <= a /\ a + n <= hdr + sizeof_cmd_header) \/ (tbl <= a /\ a + n <= tbl + sizeof_cmd_tbl).

(** Number of [n] bytes in memory. *)
Fixpoint le_ram (w : W) (a : Z) (n : nat) : Z := match n with O => 0 | S n => ram w a + 256 * le_ram w (a + 1) n end.

(** What the device takes from the memory: a read into the bounce buffer. *)
Record request (w : W) (lba count : Z) : Prop := Request {
  rq_frame : ram w tbl = FIS_TYPE_REG_H2D /\ ram w (tbl + 1) = 0x80 /\ ram w (tbl + 2) = 0x25 /\ ram w (tbl + 7) = 0x40;
  rq_lba : lba = le_ram w (tbl + 4) 3 + 2 ^ 24 * le_ram w (tbl + 8) 3;
  rq_count : count = le_ram w (tbl + 12) 2;
  rq_region : le_ram w (tbl + prdt_dba) 8 = bounce_phys info /\ le_ram w (tbl + prdt_dbc) 4 mod 2 ^ 22 + 1 = 512 * count;
  rq_header : Z.land (ram w hdr) 0x5F = 5 /\ le_ram w (hdr + 2) 2 = 1 }.

(** The sectors [lba], [lba + 1], ... *)
Definition sectors (lba count : Z) : list Z := concat (map disk (seqZ lba count)).

Class SataPort : Prop := {
  sp_apart : tbl + sizeof_cmd_tbl <= hdr \/ hdr + sizeof_cmd_header <= tbl;
  sp_sector l : length (disk l) = 512%nat;
  quiet_reg w off : quiet w -> off ∈ [P_IS; P_SACT; P_CI; P_TFD] ->
    let '(w1, v) := load w 4 (port + off) in
    quiet w1 /\ (forall b, ram w1 b = ram w b) /\ 0 <= v < 2 ^ 30 /\ (off <> P_IS -> v = 0);
  quiet_ack w off : quiet w -> off ∈ [P_IS; P_SERR] -> quiet (store w 4 (port + off) ALL_ONES) /\ forall b, ram (store w 4 (port + off) ALL_ONES) b = ram w b;
  quiet_load w a : quiet w -> shared a 1 -> let '(w1, v) := load w 1 a in quiet w1 /\ (forall b, ram w1 b = ram w b) /\ 0 <= v < 256;
  quiet_store w n a v : quiet w -> 0 < n -> shared a n -> quiet (store w n a v) /\ forall b, ram (store w n a v) b = if decide (a <= b < a + n) then byte_of v (b - a) else ram w b;
  quiet_clear w a n : quiet w -> shared a n -> quiet (clear w a n) /\ forall b, ram (clear w a n) b = if decide (a <= b < a + n) then 0 else ram w b;
  issue_runs w lba count : quiet w -> request w lba count -> exists k, Z.of_nat k < 999999 /\ running (store w 4 (port + P_CI) (Z.shiftl 1 0)) lba count k;
  run_poll w lba count k : running w lba count (S k) -> let '(w1, v) := load w 4 (port + P_CI) in v = 1 /\ running w1 lba count k;
  run_status w lba count k : running w lba count k -> let '(w1, v) := load w 4 (port + P_IS) in 0 <= v < 2 ^ 30 /\ running w1 lba count k;
  run_done w lba count : running w lba count 0 -> let '(w1, v) := load w 4 (port + P_CI) in v = 0 /\ finished w1 (sectors lba count);
  done_poll w data : finished w data -> let '(w1, v) := load w 4 (port + P_CI) in v = 0 /\ finished w1 data;
  done_status w data : finished w data -> let '(w1, v) := load w 4 (port + P_IS) in 0 <= v < 2 ^ 30 /\ finished w1 data;
  done_data w data i : finished w data -> 0 <= i < alen data -> let '(w1, v) := load w 1 (bounce_virt info + i) in v = aget 0 data i /\ finished w1 data }.

Context `{SataPort}.

(** *** Bytes *)

Lemma byte_small v : 0 <= v < 256 -> byte_of v 0 = v.
Proof. intros Hv. unfold byte_of. change (2 ^ (8 * 0)) with 1. rewrite Z.div_1_r. by apply Z.mod_small. Qed.

(** A field just stored. *)
Lemma le_ram_store n : forall w a v, (forall i, 0 <= i < Z.of_nat n -> ram w (a + i) = byte_of v i) -> le_ram w a n = v mod 2 ^ (8 * Z.of_nat n).
Proof.
  induction n as [|n IH]; intros w a v Hb; cbn [le_ram]; [by rewrite Z.mod_1_r|].
  rewrite (IH w (a + 1) (v / 256)).
  - pose proof (Hb 0 ltac:(lia)) as B0. rewrite Z.add_0_r in B0. rewrite B0. unfold byte_of. change (2 ^ (8 * 0)) with 1. rewrite Z.div_1_r.
    replace (8 * Z.of_nat (S n)) with (8 + 8 * Z.of_nat n) by lia. rewrite Z.pow_add_r by lia. change (2 ^ 8) with 256. by rewrite Z.rem_mul_r by (first [done|apply Z.pow_pos_nonneg; lia]).
  - intros i Hi. rewrite <- Z.add_assoc, Hb by lia. unfold byte_of. rewrite Z.div_div by (try lia; apply Z.pow_pos_nonneg; lia). do 3 f_equal.
    replace (8 * (1 + i)) with (8 + 8 * i) by lia. by rewrite Z.pow_add_r by lia.
Qed.

Lemma le_ram_ext n : forall w w' a, (forall i, 0 <= i < Z.of_nat n -> ram w' (a + i) = ram w (a + i)) -> le_ram w' a n = le_ram w a n.
Proof.
  induction n as [|n IH]; intros w w' a Hb; cbn [le_ram]; [done|]. pose proof (Hb 0 ltac:(lia)) as B0. rewrite Z.add_0_r in B0. rewrite B0. do 2 f_equal.
  apply IH. intros i Hi. rewrite <- Z.add_assoc. apply Hb. lia.
Qed.

(** *** The memory along a sequence of stores *)

(** A quiet port and what the memory is. *)
Definition sees (w : W) (f : Z -> Z) : Prop := quiet w /\ forall b, ram w b = f b.

Definition upd (f : Z -> Z) (a n v : Z) : Z -> Z := fun b => if decide (a <= b < a + n) then byte_of v (b - a) else f b.

Lemma sees_store w f n a v : sees w f -> 0 < n -> shared a n -> sees (store w n a v) (upd f a n v).
Proof. intros [Hq Hf] Hn Hs. destruct (quiet_store w n a v Hq Hn Hs) as [Hq' Hr]. split; [done|]. intros b. rewrite Hr. unfold upd. case_decide; [done|apply Hf]. Qed.

Lemma sees_clear w f a n : sees w f -> shared a n -> sees (clear w a n) (upd f a n 0).
Proof.
  intros [Hq Hf] Hs. destruct (quiet_clear w a n Hq Hs) as [Hq' Hr]. split; [done|]. intros b. rewrite Hr. unfold upd. case_decide; [|apply Hf].
  unfold byte_of. by rewrite Z.div_0_l by (apply Z.pow_nonzero; lia).
Qed.

Lemma sees_ack w f off : sees w f -> off ∈ [P_IS; P_SERR] -> sees (store w 4 (port + off) ALL_ONES) f.
Proof. intros [Hq Hf] Ho. destruct (quiet_ack w off Hq Ho) as [Hq' Hr]. split; [done|]. intros b. by rewrite Hr. Qed.

Lemma sees_reg w f off : sees w f -> off ∈ [P_IS; P_SACT; P_CI; P_TFD] ->
  let '(w1, v) := load w 4 (port + off) in sees w1 f /\ 0 <= v < 2 ^ 30 /\ (off <> P_IS -> v = 0).
Proof.
  intros [Hq Hf] Ho. pose proof (quiet_reg w off Hq Ho) as E. destruct (load w 4 (port + off)) as [w1 v]. destruct E as (Hq' & Hr & Hv). split; [|done]. split; [done|]. intros b. by rewrite Hr.
Qed.

(** The first byte of the header. *)
Definition hdr_byte (b : Z) : Z := Z.ldiff (Z.lor (Z.ldiff b 0x1F) (sizeof_fis / 4)) 0x40.

Lemma header_byte b : 0 <= b < 256 -> Z.land (hdr_byte b) 0x5F = 5 /\ byte_of (hdr_byte b) 0 = hdr_byte b.
Proof.
  intros Hb. assert (G : Forall (fun b => Z.land (hdr_byte b) 0x5F = 5 /\ byte_of (hdr_byte b) 0 = hdr_byte b) (seqZ 0 256))
    by (apply (bool_decide_unpack _); vm_compute; exact I).
  rewrite Forall_forall in G. apply G, elem_of_seqZ. lia.
Qed.

Lemma sees_header w f : sees w f -> exists x, Z.land x 0x5F = 5 /\ byte_of x 0 = x /\ sees (fill_header w hdr) (upd (upd f hdr 1 x) (hdr + 2) 2 1).
Proof.
  intros [Hq Hf]. assert (Hs : shared hdr 1) by (left; unfold sizeof_cmd_header; lia). unfold fill_header.
  pose proof (quiet_load w hdr Hq Hs) as E. destruct (load w 1 hdr) as [w1 b]. destruct E as (Hq1 & Hr1 & Hb).
  destruct (header_byte b Hb) as [Hx1 Hx2]. exists (hdr_byte b). split; [exact Hx1|]. split; [exact Hx2|].
  apply sees_store; [apply sees_store; [|done|done]|done|left; unfold sizeof_cmd_header; lia]. split; [done|]. intros c. by rewrite Hr1.
Qed.

Lemma sees_region w f bytes : sees w f ->
  sees (fill_region w info bytes)
    (upd (upd (upd f tbl sizeof_cmd_tbl 0) (tbl + prdt_dba) 8 (bounce_phys info)) (tbl + prdt_dbc) 4 (Z.lor ((bytes - 1) mod 2 ^ 22) (Z.shiftl 1 31))).
Proof.
  intros Hs. assert (Hsh : forall o n, 0 <= o -> o + n <= 144 -> shared (tbl + o) n) by (intros o n Ho Hn; right; unfold sizeof_cmd_tbl; lia).
  unfold fill_region. cbv zeta. apply sees_store; [|done|apply Hsh; unfold prdt_dbc; lia]. apply sees_store; [|done|apply Hsh; unfold prdt_dba; lia].
  apply sees_clear; [done|]. right. unfold sizeof_cmd_tbl. lia.
Qed.

(** The last field at an offset. *)
Fixpoint field_at (fs : list (Z * Z)) (o : Z) : option Z :=
  match fs with [] => None | (o', v) :: fs => match field_at fs o with Some x => Some x | None => if decide (o = o') then Some v else None end end.

Definition field_ok (p : Z * Z) : Prop := 0 <= p.1 < sizeof_cmd_tbl /\ 0 <= p.2 < 256.

Lemma sees_fields fs : forall w f, sees w f -> Forall field_ok fs ->
  exists g, sees (store_fields w tbl fs) g /\ forall b, g b = match field_at fs (b - tbl) with Some v => v | None => f b end.
Proof.
  induction fs as [|[o v] fs IH]; intros w f Hs F; cbn [store_fields field_at]; [by exists f|]. apply Forall_cons in F as [[Ho Hv] F]. cbn [fst snd] in Ho, Hv.
  destruct (IH (store w 1 (tbl + o) v) (upd f (tbl + o) 1 v)) as (g & Hg & Eg); [|done|].
  - apply sees_store; [done|done|]. right. lia.
  - exists g. split; [done|]. intros b. rewrite Eg. destruct (field_at fs (b - tbl)); [done|]. unfold upd. case_decide as H1; case_decide as H2; try lia.
    replace (b - (tbl + o)) with 0 by lia. by apply byte_small.
Qed.

(** *** The request in memory *)

Lemma lba_split lba : 0 <= lba < 2 ^ 48 ->
  lba = (u8 lba + 256 * (u8 (Z.shiftr lba 8) + 256 * (u8 (Z.shiftr lba 16) + 256 * 0))) +
        2 ^ 24 * (u8 (Z.shiftr lba 24) + 256 * (u8 (Z.shiftr lba 32) + 256 * (u8 (Z.shiftr lba 40) + 256 * 0))).
Proof.
  intros Hl. rewrite !Z.shiftr_div_pow2 by lia. unfold wrap. change (2 ^ 8) with 256. change (2 ^ 16) with 65536. change (2 ^ 24) with 16777216.
  change (2 ^ 32) with 4294967296. change (2 ^ 40) with 1099511627776. change (2 ^ 48) with 281474976710656 in Hl. zmod.
Qed.

Lemma dbc_value count : 1 <= count < 256 -> Z.lor ((count * 512 - 1) mod 2 ^ 22) (Z.shiftl 1 31) mod 2 ^ (8 * 4) mod 2 ^ 22 + 1 = 512 * count.
Proof.
  intros Hc. rewrite (Z.mod_small (count * 512 - 1)) by lia. rewrite lor_high by lia. change (Z.shiftl 1 31) with 2147483648. rewrite (Z.mod_small _ (2 ^ (8 * 4))) by lia.
  change (2 ^ 22) with 4194304. zmod.
Qed.

Lemma frame_ok lba count : 1 <= count < 256 -> Forall field_ok (read_frame lba count).
Proof.
  intros Hc. assert (Hu : forall x, 0 <= u8 x < 256) by (intros x; apply (wrap_fits 8 x); lia).
  unfold read_frame, field_ok, sizeof_cmd_tbl, FIS_TYPE_REG_H2D. pose proof (Hu lba) as U0. pose proof (Hu (Z.shiftr lba 8)) as U1. pose proof (Hu (Z.shiftr lba 16)) as U2.
  pose proof (Hu (Z.shiftr lba 24)) as U3. pose proof (Hu (Z.shiftr lba 32)) as U4. pose proof (Hu (Z.shiftr lba 40)) as U5.
  repeat apply Forall_cons_2; try apply Forall_nil_2; cbn [fst snd]; lia.
Qed.

Lemma le_ram_3 w a : le_ram w a 3 = ram w a + 256 * (ram w (a + 1) + 256 * (ram w (a + 2) + 256 * 0)).
Proof. cbn [le_ram]. by rewrite <- (Z.add_assoc a 1 1). Qed.

(** After the preparation the memory holds the request. *)
Lemma request_stored w f lba count : sees w f -> 1 <= count < 256 -> 0 <= lba < 2 ^ 48 -> 0 <= bounce_phys info < 2 ^ 64 ->
  let w' := store_fields (prepare w info 0 (count * 512)) tbl (read_frame lba count) in quiet w' /\ request w' lba count.
Proof.
  intros Hs Hc Hl Hb w'. pose proof sp_apart as Hap. unfold sizeof_cmd_tbl, sizeof_cmd_header in Hap.
  destruct (sees_header w f Hs) as (x & Hx1 & Hx2 & Hs1).
  pose proof (sees_region _ _ (count * 512) Hs1) as Hs2.
  assert (Ep : prepare w info 0 (count * 512) = fill_region (fill_header w hdr) info (count * 512)) by (unfold prepare; by rewrite Z.mul_0_r, Z.add_0_r).
  destruct (sees_fields (read_frame lba count) _ _ Hs2 (frame_ok lba count Hc)) as (g & [Hq Hg] & Eg). rewrite <- Ep in Hq, Hg. fold w' in Hq, Hg. clear Ep. split; [done|]. clear Hs Hs1 Hs2.
  assert (Hin : forall o v, field_at (read_frame lba count) o = Some v -> ram w' (tbl + o) = v) by (intros o v E; rewrite Hg, Eg; replace (tbl + o - tbl) with o by lia; by rewrite E).
  assert (Hout : forall b, field_at (read_frame lba count) (b - tbl) = None -> ram w' b =
    upd (upd (upd (upd (upd f hdr 1 x) (hdr + 2) 2 1) tbl sizeof_cmd_tbl 0) (tbl + prdt_dba) 8 (bounce_phys info)) (tbl + prdt_dbc) 4 (Z.lor ((count * 512 - 1) mod 2 ^ 22) (Z.shiftl 1 31)) b)
    by (intros b E; by rewrite Hg, Eg, E). clear Hg Eg g.
  assert (Hfar : forall o, o < 0 \/ 14 <= o -> field_at (read_frame lba count) o = None) by (intros o Ho; unfold read_frame; cbn [field_at]; repeat (rewrite decide_False by lia); done).
  unfold upd, sizeof_cmd_tbl, prdt_dba, prdt_dbc in Hout. split.
  - split; [rewrite <- (Z.add_0_r tbl)|split; [|split]]; by apply Hin.
  - rewrite !le_ram_3, <- !(Z.add_assoc tbl). change (4 + 1) with 5. change (4 + 2) with 6. change (8 + 1) with 9. change (8 + 2) with 10. rewrite (Hin 4 _ eq_refl), (Hin 5 _ eq_refl), (Hin 6 _ eq_refl), (Hin 8 _ eq_refl), (Hin 9 _ eq_refl), (Hin 10 _ eq_refl). by apply lba_split.
  - cbn [le_ram]. rewrite <- !(Z.add_assoc tbl). change (12 + 1) with 13. rewrite (Hin 12 _ eq_refl), (Hin 13 _ eq_refl). lia.
  - unfold prdt_dba, prdt_dbc. split.
    + rewrite (le_ram_store 8 w' (tbl + 128) (bounce_phys info)); [by apply Z.mod_small|]. intros i Hi. rewrite Hout by (apply Hfar; lia).
      rewrite decide_False by lia. rewrite decide_True by lia. f_equal. lia.
    + rewrite (le_ram_store 4 w' (tbl + 140) (Z.lor ((count * 512 - 1) mod 2 ^ 22) (Z.shiftl 1 31))); [by apply dbc_value|]. intros i Hi.
      rewrite Hout by (apply Hfar; lia). rewrite decide_True by lia. f_equal. lia.
  - split.
    + rewrite Hout by (apply Hfar; lia). rewrite !decide_False by lia. rewrite decide_True by lia. by rewrite Z.sub_diag, Hx2.
    + rewrite (le_ram_store 2 w' (hdr + 2) 1); [done|]. intros i Hi. rewrite Hout by (apply Hfar; lia).
      rewrite (decide_False (P := tbl + 140 <= _ < _)) by lia. rewrite (decide_False (P := tbl + 128 <= _ < _)) by lia. rewrite (decide_False (P := tbl <= _ < _)) by lia. rewrite decide_True by lia. f_equal. lia.
Qed.

(** *** The polls *)

Lemma idle_spin w f off mask t : sees w f -> off ∈ [P_SACT; P_CI; P_TFD] -> sees (spin_while w (port + off) mask t) f.
Proof.
  intros Hs Ho. pose proof (sees_reg w f off Hs) as E. assert (Hin : off ∈ [P_IS; P_SACT; P_CI; P_TFD]) by (by right). specialize (E Hin).
  assert (Hne : off <> P_IS) by (clear -Ho; unfold P_SACT, P_CI, P_TFD, P_IS in *; set_unfold; lia).
  destruct t; cbn [spin_while]; destruct (load w 4 (port + off)) as [w1 v]; destruct E as (Hs1 & _ & Hv); rewrite (Hv Hne), Z.land_0_l; done.
Qed.

Lemma small_bit30 v : 0 <= v < 2 ^ 30 -> has_flag v (Z.shiftl 1 30) = false.
Proof.
  intros Hv. unfold has_flag. assert (E : Z.land v (Z.shiftl 1 30) = 0); [|by rewrite E]. apply Z.bits_inj'. intros n Hn. rewrite Z.land_spec, Z.shiftl_1_l, Z.bits_0.
  destruct (decide (n = 30)) as [->|Hne]; [|by rewrite Z.pow2_bits_false by lia; rewrite andb_false_r].
  rewrite Z.pow2_bits_true by lia. destruct (decide (v = 0)) as [->|]; [by rewrite Z.bits_0|]. rewrite Z.bits_above_log2; [done|lia|]. apply Z.log2_lt_pow2; lia.
Qed.

(** The loop ends when the data is there. *)
Lemma completion_spec lba count : forall k t w, running w lba count k -> (k < t)%nat ->
  exists w', completion_loop w port 0 true t = (w', Z.of_nat (t - S k)) /\ finished w' (sectors lba count).
Proof.
  induction k as [|k IH]; intros [|t] w Hr Ht; try lia; cbn [completion_loop].
  - pose proof (run_done w lba count Hr) as E. destruct (load w 4 (port + P_CI)) as [w1 v]. destruct E as [-> Hd]. rewrite Z.land_0_l. exists w1. split; [|done]. do 2 f_equal. lia.
  - pose proof (run_poll w lba count k Hr) as E. destruct (load w 4 (port + P_CI)) as [w1 v]. destruct E as [-> Hr1]. change (Z.land 1 (Z.shiftl 1 0) =? 0) with false. cbv iota.
    pose proof (run_status w1 lba count k Hr1) as E. destruct (load w1 4 (port + P_IS)) as [w2 s]. destruct E as [Hs Hr2]. rewrite small_bit30 by done.
    destruct (IH t w2 Hr2) as (w' & E & Hd); [lia|]. exists w'. split; [|done]. rewrite E. do 2 f_equal; lia.
Qed.

Lemma completion_done data t w : finished w data -> (0 < t)%nat -> exists w', completion_loop w port 0 true t = (w', Z.of_nat (t - 1)) /\ finished w' data.
Proof.
  intros Hd Ht. destruct t as [|t]; [lia|]. cbn [completion_loop]. pose proof (done_poll w data Hd) as E. destruct (load w 4 (port + P_CI)) as [w1 v]. destruct E as [-> Hd1].
  rewrite Z.land_0_l. exists w1. split; [|done]. do 2 f_equal. lia.
Qed.

Lemma done_bytes data n : forall w i, finished w data -> 0 <= i -> i + Z.of_nat n <= alen data ->
  exists w', load_bytes w (bounce_virt info + i) n = (w', take n (drop (Z.to_nat i) data)) /\ finished w' data.
Proof.
  induction n as [|n IH]; intros w i Hd Hi Hn; cbn [load_bytes]; [by exists w|]. pose proof (done_data w data i Hd ltac:(lia)) as E.
  destruct (load w 1 (bounce_virt info + i)) as [w1 v]. destruct E as [-> Hd1]. destruct (IH w1 (i + 1) Hd1) as (w' & E & Hd'); [lia|lia|]. rewrite Z.add_assoc in E. rewrite E.
  exists w'. split; [|done]. f_equal. rewrite (drop_S data (aget 0 data i) (Z.to_nat i)) by (apply aget_lookup; lia). cbn [take]. do 3 f_equal. lia.
Qed.

(** *** The read *)

Lemma in_range_not_ones v : 0 <= v < 2 ^ 30 -> (v =? ALL_ONES) = false.
Proof. intros Hv. apply Z.eqb_neq. unfold ALL_ONES. lia. Qed.

Lemma access_quiet w d f : sees w f -> exists w', check_access w d info = (w', true) /\ sees w' f.
Proof.
  intros Hs. unfold check_access. pose proof (sees_reg w f P_IS Hs ltac:(set_solver)) as E. destruct (load w 4 (port + P_IS)) as [w1 v].
  destruct E as (Hs1 & Hv & _). rewrite in_range_not_ones by done. by exists w1.
Qed.

(** All slots are free. *)
Lemma slot_quiet w f : sees w f -> exists w', ahci_find_cmdslot w port = (w', 0) /\ sees w' f.
Proof.
  intros Hs. unfold ahci_find_cmdslot. pose proof (sees_reg w f P_SACT Hs ltac:(set_solver)) as E. destruct (load w 4 (port + P_SACT)) as [w1 v]. destruct E as (Hs1 & _ & Hv).
  pose proof (sees_reg w1 f P_CI Hs1 ltac:(set_solver)) as E. destruct (load w1 4 (port + P_CI)) as [w2 v2]. destruct E as (Hs2 & _ & Hv2).
  rewrite Hv, Hv2 by done. by exists w2.
Qed.

(** The request depends on the memory only. *)
Lemma request_memory w w' lba count : (forall b, ram w' b = ram w b) -> request w lba count -> request w' lba count.
Proof.
  intros E []. assert (El : forall a n, le_ram w' a n = le_ram w a n) by (intros; apply le_ram_ext; intros; apply E).
  split; rewrite ?El, ?E; done.
Qed.

(** From the issue to the end of the loop. *)
Lemma issue_completes w lba count : quiet w -> request w lba count ->
  exists w' t, completion_loop (issue w port 0) port 0 true POLLS = (w', t) /\ 0 < t /\ finished w' (sectors lba count).
Proof.
  intros Hq Hr. unfold issue. destruct (quiet_ack w P_IS Hq ltac:(set_solver)) as [Hq1 E1].
  destruct (issue_runs _ lba count Hq1 (request_memory _ _ _ _ E1 Hr)) as (k & Hk & Hrun). change (Z.of_nat 0) with 0 in *.
  set (w2 := store (store w 4 (port + P_IS) ALL_ONES) 4 (port + P_CI) (Z.shiftl 1 0)) in *. assert (Hp : Z.of_nat POLLS = 1000000) by (unfold POLLS; by rewrite Z2Nat.id).
  remember POLLS as polls eqn:EP. clear EP.
  destruct k as [|k].
  - pose proof (run_done w2 lba count Hrun) as E. destruct (load w2 4 (port + P_CI)) as [w3 v]. destruct E as [_ Hd]. cbn [fst].
    destruct (completion_done _ polls w3 Hd) as (w' & E & Hd'); [lia|]. exists w', (Z.of_nat (polls - 1)). split; [done|]. split; [lia|done].
  - pose proof (run_poll w2 lba count k Hrun) as E. destruct (load w2 4 (port + P_CI)) as [w3 v]. destruct E as [_ Hr3]. cbn [fst].
    destruct (completion_spec lba count k polls w3 Hr3) as (w' & E & Hd'); [lia|]. exists w', (Z.of_nat (polls - S k)). split; [done|]. split; [lia|done].
Qed.

Lemma run_read_quiet w f lba count : sees w f -> 1 <= count < 256 -> 0 <= lba < 2 ^ 48 -> 0 <= bounce_phys info < 2 ^ 64 ->
  exists w' t, run_read w info lba count = (w', Some t) /\ 0 < t /\ finished w' (sectors lba count).
Proof.
  intros Hs Hc Hl Hb. unfold run_read. cbv zeta.
  destruct (slot_quiet _ f (sees_ack _ f P_IS (sees_ack w f P_SERR Hs ltac:(set_solver)) ltac:(set_solver))) as (w2 & -> & Hs2). change (0 =? -1) with false. cbv iota.
  destruct (request_stored w2 f lba count Hs2 Hc Hl Hb) as [Hq3 Hr3]. set (w3 := store_fields _ _ _) in *.
  pose proof (idle_spin w3 (ram w3) P_TFD (Z.lor ATA_SR_BSY ATA_SR_DRQ) POLLS (conj Hq3 (fun b => eq_refl)) ltac:(set_solver)) as [Hq4 E4]. fold (wait_not_busy w3 port) in Hq4, E4.
  destruct (issue_completes _ lba count Hq4 (request_memory _ _ _ _ E4 Hr3)) as (w' & t & -> & Ht & Hd). by exists w', t.
Qed.

Lemma sectors_length lba count : 0 <= count -> alen (sectors lba count) = count * 512.
Proof.
  intros Hc. unfold sectors. rewrite <- (Z2Nat.id count) at 2 by done. rewrite <- (length_seqZ lba count). induction (seqZ lba count) as [|l ls IH]; [done|].
  cbn [map concat length]. unfold alen in *. rewrite length_app, sp_sector. lia.
Qed.

(** C24.  The device works from the memory of the port, and gets from the driver what the
    caller asks for: a command that finds the port idle reads the sectors [lba] to [lba + count - 1]
    into the buffer, whose other bytes stay, within the polls the driver grants, for each
    address of 48 bits and each count the interface has but 0. *)
Theorem ahci_read_sectors_correct w d lba count buffer : quiet w -> 1 <= count < 256 -> 0 <= lba < 2 ^ 48 -> 0 <= bounce_phys info < 2 ^ 64 ->
  count * 512 <= alen buffer ->
  exists w', ahci_read_sectors w d info lba count buffer = Some (w', sectors lba count ++ drop (Z.to_nat (count * 512)) buffer, 1) /\ finished w' (sectors lba count).
Proof.
  intros Hq Hc Hl Hb Hn. unfold ahci_read_sectors. destruct (access_quiet w d (ram w)) as (w1 & -> & Hs1); [done|]. cbn [negb].
  destruct (run_read_quiet w1 (ram w) lba count Hs1 Hc Hl Hb) as (w2 & t & -> & Ht & Hd). destruct (Z.leb_spec t 0); [lia|].
  pose proof (done_status w2 _ Hd) as E. destruct (load w2 4 (port + P_IS)) as [w3 v]. destruct E as [Hv Hd3]. rewrite small_bit30 by done.
  pose proof (sectors_length lba count ltac:(lia)) as El. destruct (done_bytes _ (Z.to_nat (count * 512)) w3 0 Hd3) as (w4 & E & Hd4); [lia|rewrite El; lia|].
  rewrite Z.add_0_r, drop_0 in E. rewrite E. destruct (Z.ltb_spec (alen buffer) (count * 512)); [lia|]. exists w4. split; [|done].
  by rewrite take_ge by (unfold alen in El; lia).
Qed.

End sata.

(** ** A disk at a port

    The registers are at 4096, the header at 8192, the table at 12288, the buffer at
    65536; sector [l] is filled with the low byte of [l]. *)

Inductive phase := Idle | Busy (lba count : Z) (polls : nat) | Stored.

Record hba := Hba { hba_ram : Z -> Z; hba_phase : phase }.

Definition hba_port : Z := 4096.
Definition hba_info : port_info := PortInfo hba_port 8192 16384 12288 65536 65536 0 0 0.
Definition hba_disk (l : Z) : list Z := replicate 512 (u8 l).
Definition hba_register (a : Z) : bool := (hba_port <=? a) && (a <? hba_port + sizeof_port).

Definition hba_answer (m : hba) : list Z -> hba := fun data => Hba (fun b => if decide (65536 <= b < 65536 + alen data) then aget 0 data (b - 65536) else hba_ram m b) Stored.

(** What the port takes from the memory when a command is issued. *)
Definition hba_command (m : hba) : phase :=
  Busy (le_ram hba_ram m (12288 + 4) 3 + 2 ^ 24 * le_ram hba_ram m (12288 + 8) 3) (le_ram hba_ram m (12288 + 12) 2) 1.

Definition hba_load (m : hba) (n a : Z) : hba * Z :=
  if a =? hba_port + P_CI then
    match hba_phase m with
    | Busy lba count (S k) => (Hba (hba_ram m) (Busy lba count k), 1)
    | Busy lba count O => (hba_answer m (sectors hba_disk lba count), 0)
    | _ => (m, 0)
    end
  else (m, if hba_register a then 0 else le_ram hba_ram m a (Z.to_nat n)).

Definition hba_store (m : hba) (n a v : Z) : hba :=
  if a =? hba_port + P_CI then Hba (hba_ram m) (hba_command m)
  else if hba_register a then m else Hba (fun b => if decide (a <= b < a + n) then byte_of v (b - a) else hba_ram m b) (hba_phase m).

#[local] Instance hba_machine : DmaMachine hba := {|
  dm_ports := {|
    pm_machine := {| outl := fun w _ _ => w; outw := fun w _ _ => w; outb := fun w _ _ => w; inl := fun w _ => (w, 0); cpu_flags := fun _ => 0;
                     set_cpu_flags := fun w _ => w; kprintf_set_color := fun w _ _ => w; kprint := fun w _ => w |};
    inb := fun w _ => (w, 0); inw := fun w _ => (w, 0); pit_get_ticks := fun w => (w, 0) |};
  load := hba_load; store := hba_store; clear := fun m a n => Hba (fun b => if decide (a <= b < a + n) then 0 else hba_ram m b) (hba_phase m);
  pmm_alloc_page := fun w => (w, 0); pmm_alloc_pages := fun w _ => (w, 0); pmm_free_pages := fun w _ _ => w; vmm_map_page := fun w _ _ _ => w;
  vmm_get_phys := fun _ a => a; vmm_get_hhdm_offset := fun _ => 0; kmalloc := fun w _ => (w, 0) |}.

Definition hba_quiet (m : hba) : Prop := hba_phase m = Idle /\ forall b, 0 <= hba_ram m b < 256.
Definition hba_running (m : hba) (lba count : Z) (k : nat) : Prop := hba_phase m = Busy lba count k.
Definition hba_finished (m : hba) (data : list Z) : Prop := hba_phase m = Stored /\ forall i, 0 <= i < alen data -> hba_ram m (65536 + i) = aget 0 data i.

Lemma byte_of_range v i : 0 <= byte_of v i < 256.
Proof. apply Z.mod_pos_bound. lia. Qed.

Lemma hba_memory a n : shared hba_info a n -> 0 < n -> hba_register a = false /\ (a =? hba_port + P_CI) = false.
Proof.
  intros Hs Hn. unfold hba_register, hba_port, sizeof_port, P_CI. unfold shared, hba_info, sizeof_cmd_header, sizeof_cmd_tbl in Hs. cbn [cmd_list cmd_tbl] in Hs. split; [|apply Z.eqb_neq; lia].
  apply andb_false_intro2, Z.ltb_ge. lia.
Qed.

Lemma hba_registers m off : hba_phase m = Idle \/ hba_phase m = Stored \/ off <> P_CI -> off ∈ [P_IS; P_SACT; P_CI; P_TFD; P_SERR] -> hba_load m 4 (hba_port + off) = (m, 0).
Proof.
  intros Hp Ho. unfold hba_load. destruct (Z.eqb_spec (hba_port + off) (hba_port + P_CI)) as [E|E].
  - assert (off = P_CI) as -> by lia. destruct Hp as [-> | [-> | Hp]]; done.
  - repeat (apply elem_of_cons in Ho as [->|Ho]; [done|]). by apply elem_of_nil in Ho.
Qed.

#[local] Instance hba_sata : SataPort hba_info hba_disk hba_ram hba_quiet hba_running hba_finished.
Proof.
  split; cbn [port_reg cmd_tbl cmd_list bounce_virt hba_info load store clear hba_machine].
  - by right.
  - intros l. apply length_replicate.
  - intros w off [Hp Hr] Ho. rewrite hba_registers; [|by left|]; [|set_solver]. split; [done|]. split; [done|]. done.
  - intros w off Hq Ho. unfold hba_store. repeat (apply elem_of_cons in Ho as [->|Ho]; [done|]). by apply elem_of_nil in Ho.
  - intros w a Hq Hs. destruct (hba_memory a 1 Hs) as [E1 E2]; [done|]. unfold hba_load. rewrite E1, E2. split; [done|]. split; [done|]. change (Z.to_nat 1) with 1%nat. cbn [le_ram]. pose proof (proj2 Hq a). lia.
  - intros w n a v [Hp Hq] Hn Hs. unfold hba_store.
    destruct (hba_memory a n Hs Hn) as [-> ->]. split; [|done]. split; [done|]. intros b. cbn [hba_ram]. case_decide; [apply byte_of_range|done].

  - intros w a n [Hp Hq] Hs. split; [|done]. split; [done|]. intros b. cbn [hba_ram]. case_decide; [lia|done].
  - intros w lba count [Hp Hq] []. exists 1%nat. split; [lia|]. unfold hba_running, hba_store. cbn [hba_phase Z.eqb]. unfold hba_command. by rewrite rq_lba0, rq_count0.
  - intros w lba count k Hr. unfold hba_load. rewrite Z.eqb_refl. unfold hba_running in Hr. by rewrite Hr.
  - intros w lba count k Hr. rewrite hba_registers; [done|by right; right|set_solver].
  - intros w lba count Hr. unfold hba_load. rewrite Z.eqb_refl. unfold hba_running in Hr. rewrite Hr. split; [done|]. split; [done|]. intros i Hi. cbn [hba_answer hba_ram].
    rewrite decide_True by lia. f_equal. lia.
  - intros w data [Hp Hd]. rewrite hba_registers; [done|by right; left|set_solver].
  - intros w data [Hp Hd]. rewrite hba_registers; [done|by right; left|set_solver].
  - intros w data i [Hp Hd] Hi. unfold hba_load. rewrite (proj2 (Z.eqb_neq _ _)) by (unfold hba_port, P_CI; lia).
    replace (hba_register (65536 + i)) with false by (symmetry; apply andb_false_intro2, Z.ltb_ge; unfold hba_port, sizeof_port; lia).
    split; [|done]. change (Z.to_nat 1) with 1%nat. cbn [le_ram]. rewrite Hd by done. lia.
Qed.

Definition hba_empty : hba := Hba (fun _ => 0) Idle.

(** Two sectors of a disk of more than 2 TiB into a buffer with six more bytes. *)
Lemma ahci_read_sectors_correct_witness : exists w',
  ahci_read_sectors hba_empty (sata_drive 0) hba_info 0x12345678A 2 (replicate 1030 7) = Some (w', replicate 512 0x8A ++ replicate 512 0x8B ++ replicate 6 7, 1).
Proof.
  destruct (ahci_read_sectors_correct hba_info hba_disk hba_ram hba_quiet hba_running hba_finished hba_empty (sata_drive 0) 0x12345678A 2 (replicate 1030 7)) as (w' & E & _);
    [split; [done|intros b; cbn; lia]|lia|lia|by cbn|by vm_compute|].
  exists w'. exact E.
Defined.

(** A count of 0 asks the device for 65536 sectors, and gives it room for 4 MiB at the
    buffer of 128 KiB. *)
Example zero_count_region : let m := prepare hba_empty hba_info 0 (0 * 512) in le_ram hba_ram m (12288 + prdt_dbc) 4 mod 2 ^ 22 + 1 = 2 ^ 22.
Proof. vm_compute. reflexivity. Qed.
