(* ===== verification/Ps2.v ===== *)
(** The i8042 controller, kernel/src/drivers/input/ps2_controller.c, and the set-up of
    its devices, [ps2_keyboard_init] and [ps2_mouse_init].

    The handlers of the two interrupts read the byte at the data port and go on with the
    decoders of Input.v; the state of these, and the event queue, are kept in the
    machine.  The messages of the debug builds are left out.

    The controller is set up as its documentation asks.

    The controller is described by the bytes it takes and gives: commands change its
    configuration or are answered, bytes for the devices go to them.  A byte may be
    written when the one before is taken, and an answer may be read when the status says
    so; both take some polls, fewer than the driver grants. *)
From stdpp Require Import prelude gmap list strings.
From Stdlib Require Import ZArith Lia.
From S2P Require Import Prelude Printf PrintfThm Framebuffer Pci Hal Input.

Open Scope Z_scope.

Definition PS2_DATA_PORT : Z := 0x60.
Definition PS2_STATUS_PORT : Z := 0x64.
Definition PS2_COMMAND_PORT : Z := 0x64.

Definition PS2_STATUS_OUTPUT : Z := Z.shiftl 1 0.
Definition PS2_STATUS_INPUT : Z := Z.shiftl 1 1.

Definition IRQ1 : Z := 33.
Definition IRQ12 : Z := 44.

(** The timeouts count polls. *)
Definition PS2_POLLS : nat := Z.to_nat 100000.

Section ps2.
Context {W : Type} `{PortMachine W}.
Implicit Types (w : W).

(** The status is polled while [busy] holds of it and [--timeout] is positive. *)
Fixpoint ps2_wait (busy : Z -> bool) (w : W) (timeout : nat) : W :=
  match timeout with
  | O => w
  | S t =>
      let '(w1, v) := inb w PS2_STATUS_PORT in
      if busy v then match t with O => w1 | S _ => ps2_wait busy (io_wait w1) t end else w1
  end.

Definition ps2_wait_input (w : W) : W := ps2_wait (fun v => has_flag v PS2_STATUS_INPUT) w PS2_POLLS.
Definition ps2_wait_output (w : W) : W := ps2_wait (fun v => negb (has_flag v PS2_STATUS_OUTPUT)) w PS2_POLLS.

Definition ps2_send_command (w : W) (cmd : Z) : W := outb (ps2_wait_input w) PS2_COMMAND_PORT cmd.
Definition ps2_send_data (w : W) (data : Z) : W := outb (ps2_wait_input w) PS2_DATA_PORT data.

(** The next byte is for the second port. *)
Definition ps2_send_data_port2 (w : W) (data : Z) : W := ps2_send_data (ps2_send_command w 0xD4) data.

Definition ps2_read_data (w : W) : W * Z := inb (ps2_wait_output w) PS2_DATA_PORT.

(** *** [ps2_controller_init] *)

(** Bytes are dropped as long as there are any. *)
Fixpoint flush_loop (w : W) (fuel : nat) : option W :=
  let '(w1, v) := inb w PS2_STATUS_PORT in
  if has_flag v PS2_STATUS_OUTPUT then match fuel with O => None | S f => flush_loop (inb w1 PS2_DATA_PORT).1 f end else Some w1.

Definition read_config (w : W) : W * Z := ps2_read_data (ps2_send_command w 0x20).
Definition write_config (w : W) (config : Z) : W := ps2_send_data (ps2_send_command w 0x60) config.

(** A command with an answer. *)
Definition ps2_ask (w : W) (cmd : Z) : W * Z := ps2_read_data (ps2_send_command w cmd).

(** Without the interrupts and the translation. *)
Definition quiet_config (config : Z) : Z := Z.ldiff (Z.ldiff (Z.ldiff config (Z.shiftl 1 0)) (Z.shiftl 1 1)) (Z.shiftl 1 6).

(** Does the clock of the second port follow the command? *)
Definition confirm_port2 (w : W) : W * bool :=
  let '(w1, config) := read_config (ps2_send_command w 0xA8) in
  (ps2_send_command w1 0xA7, negb (has_flag config (Z.shiftl 1 5))).

(** The tests of the ports. *)
Definition test_ports (w : W) (dual_port : bool) : W * Z :=
  let '(w1, test) := ps2_ask w 0xAB in
  let ports := if test =? 0 then 1 else 0 in
  if dual_port then
    let '(w2, test) := ps2_ask w1 0xA9 in
    (w2, if test =? 0 then Z.lor ports 2 else ports)
  else (w1, ports).

(** The working ports and their interrupts are enabled. *)
Definition enable_ports (w : W) (ports : Z) : W :=
  let '(w1, config) := read_config w in
  let '(w2, config) := if has_flag ports 1 then (ps2_send_command w1 0xAE, Z.lor config (Z.shiftl 1 0)) else (w1, config) in
  let '(w3, config) := if has_flag ports 2 then (ps2_send_command w2 0xA8, Z.lor config (Z.shiftl 1 1)) else (w2, config) in
  write_config w3 config.

Definition ports_text (ports : Z) : list Z :=
  txt "PS/2 controller: port1=" ++ txt (if has_flag ports 1 then "keyboard" else "none") ++ txt ", port2=" ++ txt (if has_flag ports 2 then "mouse" else "none").

Definition ps2_controller_init (w : W) (fuel : nat) : option (W * Z) :=
  w1 ← flush_loop (ps2_send_command (ps2_send_command w 0xAD) 0xA7) fuel;
  let '(w2, config) := read_config w1 in
  let config := quiet_config config in
  let '(w3, test) := ps2_ask (write_config w2 config) 0xAA in
  if negb (test =? 0x55) then
    Some (kprint (kprintf_set_color w3 0x00FF4444 FB_DEFAULT_BG) (txt "[FAIL] PS/2 controller self-test failed (0x" ++ hex 2 test ++ txt ")" ++ [10]), 0)
  else
    let w4 := write_config w3 config in
    let '(w5, dual_port) := if has_flag config (Z.shiftl 1 5) then confirm_port2 w4 else (w4, false) in
    let '(w6, ports) := test_ports w5 dual_port in
    Some (boot_line (enable_ports w6 ports) (ports_text ports), ports).

(** *** Bytes for the devices *)

(** A byte for the device at a port, and the byte that comes back. *)
Definition tell_keyboard (w : W) (data : Z) : W := (ps2_read_data (ps2_send_data w data)).1.
Definition tell_mouse (w : W) (data : Z) : W := (ps2_read_data (ps2_send_data_port2 w data)).1.

(** The result of the self-test, if it is there. *)
Definition drain_one (w : W) : W :=
  let '(w1, v) := inb w PS2_STATUS_PORT in if has_flag v PS2_STATUS_OUTPUT then (inb w1 PS2_DATA_PORT).1 else w1.

(** Sample rate [rate]. *)
Definition set_rate (w : W) (rate : Z) : W := tell_mouse (tell_mouse w 0xF3) rate.

End ps2.

(** ** The devices *)

(** The state of the decoders and the queue. *)
Class InputMachine (W : Type) := {
  im_ports :: PortMachine W;
  get_keyboard : W -> keyboard;
  set_keyboard : W -> keyboard -> W;
  get_mouse : W -> mouse;
  set_mouse : W -> mouse -> W;
  push_event : W -> input_event -> W }.

Section devices.
Context {W : Type} `{InputMachine W}.

Definition keyboard_isr : isr_handler_t (W := W) := fun w _ =>
  let '(w1, sc) := inb w PS2_DATA_PORT in
  let '(k, events) := keyboard_irq_handler (get_keyboard w1) sc in
  Some (pic_send_eoi (foldl push_event (set_keyboard w1 k) events) 1).

Definition mouse_isr : isr_handler_t (W := W) := fun w _ =>
  let '(w1, data) := inb w PS2_DATA_PORT in
  let '(m, events) := mouse_irq_handler (get_mouse w1) data in
  Some (pic_send_eoi (foldl push_event (set_mouse w1 m) events) 12).

Definition ps2_keyboard_init (w : W) (h : hal W) : W * hal W :=
  let w1 := drain_one (tell_keyboard w 0xFF) in
  let w2 := tell_keyboard (tell_keyboard (tell_keyboard w1 0xF0) 0x02) 0xF4 in
  (boot_line (pic_clear_mask w2 1) (txt "PS/2 keyboard initialized (IRQ1, Scan Code Set 2)"), isr_register_handler h IRQ1 (Some keyboard_isr)).

Definition set_wheel (w : W) (wheel : bool) : W :=
  let m := get_mouse w in set_mouse w (Mouse (mouse_packet m) (packet_index m) wheel (prev_buttons m)).

Definition ps2_mouse_init (w : W) (h : hal W) : W * hal W :=
  let w1 := (ps2_read_data (ps2_read_data (tell_mouse w 0xFF)).1).1 in
  let w2 := foldl set_rate w1 [200; 100; 80] in
  let '(w3, id) := ps2_read_data (tell_mouse w2 0xF2) in
  let w4 := set_rate (set_wheel w3 (id =? 3)) 100 in
  let w5 := tell_mouse (tell_mouse (tell_mouse w4 0xE8) 0x02) 0xF4 in
  (boot_line (pic_clear_mask w5 12) (txt "PS/2 mouse initialized (IRQ12, scroll=" ++ txt (if id =? 3 then "yes" else "no") ++ txt ")"),
   isr_register_handler h IRQ12 (Some mouse_isr)).

End devices.

(** ** Theorems *)

(** The configuration, the owner of the next byte at the data port, the bytes to be read,
    those sent to the devices, the commands taken. *)
Inductive target := ToKeyboard | ToMouse | ToConfig.

Record i8042 := I8042 { cfg : Z; next_byte : target; out_buf : list Z; sent1 : list Z; sent2 : list Z; taken : list Z }.

(** What the controller is made of: the results of its tests, is there a second port, the
    configuration after the self-test, the answers of the devices to the bytes sent. *)
Record board := Board { self_test : Z; test1 : Z; test2 : Z; dual : bool; reset_cfg : Z; answer1 : list Z -> list Z; answer2 : list Z -> list Z }.

Definition set_cfg (k : i8042) (c : Z) : i8042 := I8042 c (next_byte k) (out_buf k) (sent1 k) (sent2 k) (taken k).
Definition set_next (k : i8042) (t : target) : i8042 := I8042 (cfg k) t (out_buf k) (sent1 k) (sent2 k) (taken k).
Definition set_out (k : i8042) (o : list Z) : i8042 := I8042 (cfg k) (next_byte k) o (sent1 k) (sent2 k) (taken k).
Definition answer (k : i8042) (b : Z) : i8042 := set_out k (out_buf k ++ [b]).

(** Bits 4 and 5 of the configuration stop the clock of a port. *)
Definition effect (hw : board) (k : i8042) (c : Z) : i8042 :=
  if c =? 0xAD then set_cfg k (Z.lor (cfg k) 0x10)
  else if c =? 0xAE then set_cfg k (Z.ldiff (cfg k) 0x10)
  else if c =? 0xA7 then if dual hw then set_cfg k (Z.lor (cfg k) 0x20) else k
  else if c =? 0xA8 then if dual hw then set_cfg k (Z.ldiff (cfg k) 0x20) else k
  else if c =? 0x20 then answer k (cfg k)
  else if c =? 0x60 then set_next k ToConfig
  else if c =? 0xAA then answer (set_cfg k (reset_cfg hw)) (self_test hw)
  else if c =? 0xAB then answer k (test1 hw)
  else if c =? 0xA9 then answer k (test2 hw)
  else if c =? 0xD4 then set_next k ToMouse
  else k.

Definition command (hw : board) (k : i8042) (c : Z) : i8042 :=
  let k' := effect hw k c in I8042 (cfg k') (next_byte k') (out_buf k') (sent1 k') (sent2 k') (taken k ++ [c]).

Definition data_byte (hw : board) (k : i8042) (v : Z) : i8042 :=
  match next_byte k with
  | ToConfig => set_next (set_cfg k v) ToKeyboard
  | ToMouse => I8042 (cfg k) ToKeyboard (out_buf k ++ answer2 hw (sent2 k ++ [v])) (sent1 k) (sent2 k ++ [v]) (taken k)
  | ToKeyboard => I8042 (cfg k) ToKeyboard (out_buf k ++ answer1 hw (sent1 k ++ [v])) (sent1 k ++ [v]) (sent2 k) (taken k)
  end.

(** Fewer polls than the driver grants. *)
Definition prompt (n : Z) : Prop := 0 <= n < 100000.

Section i8042.
Context {W : Type} `{PortMachine W} (hw : board).

(** The controller, the polls until it has taken the last byte, those until an answer is
    there to be read. *)
Class I8042Ports (ctl : W -> i8042) (full late : W -> Z) : Prop := {
  ip_poll w : prompt (full w) -> prompt (late w) ->
    let '(w1, v) := inb w PS2_STATUS_PORT in
    ctl w1 = ctl w /\ full w1 = Z.max 0 (full w - 1) /\ late w1 = Z.max 0 (late w - 1) /\
    has_flag v PS2_STATUS_INPUT = negb (full w =? 0) /\ has_flag v PS2_STATUS_OUTPUT = (late w =? 0) && negb (bool_decide (out_buf (ctl w) = []));
  ip_wait w : ctl (io_wait w) = ctl w /\ 0 <= full (io_wait w) <= full w /\ 0 <= late (io_wait w) <= late w;
  ip_command w c : full w = 0 -> prompt (late w) ->
    let w1 := outb w PS2_COMMAND_PORT c in
    ctl w1 = command hw (ctl w) c /\ prompt (full w1) /\ prompt (late w1) /\ (out_buf (ctl w1) = out_buf (ctl w) -> late w1 <= late w);
  ip_data w v : full w = 0 -> prompt (late w) ->
    let w1 := outb w PS2_DATA_PORT v in
    ctl w1 = data_byte hw (ctl w) v /\ prompt (full w1) /\ prompt (late w1) /\ (out_buf (ctl w1) = out_buf (ctl w) -> late w1 <= late w);
  ip_read w b r : late w = 0 -> out_buf (ctl w) = b :: r ->
    let '(w1, v) := inb w PS2_DATA_PORT in
    v = b /\ ctl w1 = set_out (ctl w) r /\ 0 <= full w1 <= full w /\ late w1 = 0;
  ip_other w p v : p <> PS2_DATA_PORT -> p <> PS2_COMMAND_PORT -> ctl (outb w p v) = ctl w /\ ctl (inb w p).1 = ctl w;
  ip_color w c b : ctl (kprintf_set_color w c b) = ctl w;
  ip_print w s : ctl (kprint w s) = ctl w }.

Context `{I8042Ports}.

(** The controller answers in time. *)
Definition at_work (w : W) (k : i8042) : Prop := ctl w = k /\ prompt (full w) /\ prompt (late w).

(** The bytes to be read are there. *)
Definition settled (w : W) (k : i8042) : Prop := ctl w = k /\ prompt (full w) /\ late w = 0.

Lemma settled_at_work w k : settled w k -> at_work w k.
Proof. intros (E & Hf & Hl). split; [done|]. split; [done|]. unfold prompt. lia. Qed.

(** The waits end before the timeout. *)
Lemma wait_input_spec n : forall w k, at_work w k -> full w < Z.of_nat n ->
  exists w', ps2_wait (fun v => has_flag v PS2_STATUS_INPUT) w n = w' /\ ctl w' = k /\ full w' = 0 /\ 0 <= late w' <= late w.
Proof.
  induction n as [|n IH]; intros w k (E & Hf & Hl) Hn; [unfold prompt in Hf; lia|]. cbn [ps2_wait]. unfold prompt in Hf, Hl.
  pose proof (ip_poll w Hf Hl) as P. destruct (inb w PS2_STATUS_PORT) as [w1 v]. destruct P as (E1 & F1 & L1 & Hv & _). rewrite Hv. destruct (Z.eqb_spec (full w) 0) as [Z0|Z0]; cbn [negb].
  - exists w1. split; [done|]. rewrite E1. split; [done|]. lia.
  - destruct n as [|n]; [lia|]. destruct (ip_wait w1) as (E2 & F2 & L2). destruct (IH (io_wait w1) k) as (w' & Ew & Ek & Ef & El); [|lia|].
    + split; [by rewrite E2, E1|]. unfold prompt. lia.
    + exists w'. split; [exact Ew|]. split; [done|]. lia.
Qed.

Lemma wait_output_spec n : forall w k, at_work w k -> out_buf k <> [] -> late w < Z.of_nat n ->
  exists w', ps2_wait (fun v => negb (has_flag v PS2_STATUS_OUTPUT)) w n = w' /\ settled w' k.
Proof.
  induction n as [|n IH]; intros w k (E & Hf & Hl) Ho Hn; [unfold prompt in Hl; lia|]. cbn [ps2_wait]. unfold prompt in Hf, Hl.
  pose proof (ip_poll w Hf Hl) as P. destruct (inb w PS2_STATUS_PORT) as [w1 v]. destruct P as (E1 & F1 & L1 & _ & Hv). rewrite Hv, E, bool_decide_eq_false_2 by done. rewrite andb_true_r.
  destruct (Z.eqb_spec (late w) 0) as [Z0|Z0]; cbn [negb].
  - exists w1. split; [done|]. split; [by rewrite E1|]. unfold prompt. lia.
  - destruct n as [|n]; [lia|]. destruct (ip_wait w1) as (E2 & F2 & L2). destruct (IH (io_wait w1) k) as (w' & Ew & Hs); [| done|lia|].
    + split; [by rewrite E2, E1|]. unfold prompt. lia.
    + exists w'. split; [exact Ew|done].
Qed.

Lemma polls_value : Z.of_nat PS2_POLLS = 100000.
Proof. unfold PS2_POLLS. by rewrite Z2Nat.id. Qed.

(** *** The operations *)

Lemma send_command_spec w k c : at_work w k -> exists w', ps2_send_command w c = w' /\ at_work w' (command hw k c).
Proof.
  intros Hw. destruct (wait_input_spec PS2_POLLS w k Hw) as (w1 & E1 & Ek & Hf & Hl); [rewrite polls_value; apply Hw|].
  unfold ps2_send_command, ps2_wait_input. rewrite E1. destruct Hw as (_ & _ & Hlw). assert (Hp : prompt (late w1)) by (unfold prompt in *; lia).
  pose proof (ip_command w1 c Hf Hp) as (Ec & Hfc & Hlc & _). eexists. split; [done|]. split; [by rewrite Ec, Ek|done].
Qed.

Lemma send_command_settled w k c : settled w k -> out_buf (command hw k c) = out_buf k -> exists w', ps2_send_command w c = w' /\ settled w' (command hw k c).
Proof.
  intros Hw Ho. destruct (wait_input_spec PS2_POLLS w k (settled_at_work w k Hw)) as (w1 & E1 & Ek & Hf & Hl); [rewrite polls_value; apply Hw|].
  unfold ps2_send_command, ps2_wait_input. rewrite E1. destruct Hw as (_ & _ & Hlw). assert (Hp : prompt (late w1)) by (unfold prompt; lia).
  pose proof (ip_command w1 c Hf Hp) as (Ec & Hfc & Hlc & Hk). eexists. split; [done|]. rewrite Ek in Ec. split; [done|]. split; [done|].
  unfold prompt in Hlc. rewrite Ec, Ek in Hk. specialize (Hk Ho). lia.
Qed.

Lemma send_data_spec w k v : at_work w k -> exists w', ps2_send_data w v = w' /\ at_work w' (data_byte hw k v).
Proof.
  intros Hw. destruct (wait_input_spec PS2_POLLS w k Hw) as (w1 & E1 & Ek & Hf & Hl); [rewrite polls_value; apply Hw|].
  unfold ps2_send_data, ps2_wait_input. rewrite E1. destruct Hw as (_ & _ & Hlw). assert (Hp : prompt (late w1)) by (unfold prompt in *; lia).
  pose proof (ip_data w1 v Hf Hp) as (Ec & Hfc & Hlc & _). eexists. split; [done|]. split; [by rewrite Ec, Ek|done].
Qed.

Lemma data_read_spec w k b r : at_work w k -> out_buf k = b :: r -> exists w', ps2_read_data w = (w', b) /\ settled w' (set_out k r).
Proof.
  intros Hw Ho. destruct (wait_output_spec PS2_POLLS w k Hw) as (w1 & E1 & Ek & Hf & Hl); [by rewrite Ho|rewrite polls_value; apply Hw|].
  unfold ps2_read_data, ps2_wait_output. rewrite E1. pose proof (ip_read w1 b r Hl) as P. rewrite Ek in P. specialize (P Ho). destruct (inb w1 PS2_DATA_PORT) as [w2 v].
  destruct P as (-> & E2 & Hf2 & Hl2). exists w2. split; [done|]. split; [done|]. unfold prompt in *. split; [lia|done].
Qed.

Lemma ask_spec w k c b : at_work w k -> out_buf (command hw k c) = [b] -> exists w', ps2_ask w c = (w', b) /\ settled w' (set_out (command hw k c) []).
Proof.
  intros Hw Ho. unfold ps2_ask. destruct (send_command_spec w k c Hw) as (w1 & -> & Hw1). by apply data_read_spec.
Qed.

(** A state without bytes to be read, with configuration [c] and the commands [t]. *)
Definition plain (s1 s2 : list Z) (c : Z) (t : list Z) : i8042 := I8042 c ToKeyboard [] s1 s2 t.

Lemma read_config_spec w s1 s2 c t : at_work w (plain s1 s2 c t) -> exists w', read_config w = (w', c) /\ settled w' (plain s1 s2 c (t ++ [0x20])).
Proof. intros Hw. by apply (ask_spec w (plain s1 s2 c t) 0x20 c Hw). Qed.

Lemma write_config_spec w s1 s2 c t v : at_work w (plain s1 s2 c t) -> exists w', write_config w v = w' /\ at_work w' (plain s1 s2 v (t ++ [0x60])).
Proof.
  intros Hw. unfold write_config. destruct (send_command_spec w _ 0x60 Hw) as (w1 & -> & Hw1). by apply (send_data_spec w1 _ v Hw1).
Qed.

Lemma flush_spec fuel : forall w k, settled w k -> (length (out_buf k) <= fuel)%nat -> exists w', flush_loop w fuel = Some w' /\ settled w' (set_out k []).
Proof.
  induction fuel as [|fuel IH]; intros w k (E & Hf & Hl) Hn.
  - cbn [flush_loop]. assert (Hp : prompt (late w)) by (unfold prompt; lia). pose proof (ip_poll w Hf Hp) as P. destruct (inb w PS2_STATUS_PORT) as [w1 v].
    destruct P as (E1 & F1 & L1 & _ & Hv). destruct (out_buf k) as [|b r] eqn:Eo; [|cbn in Hn; lia]. rewrite Hv, E, Eo, bool_decide_eq_true_2 by done. rewrite andb_false_r.
    exists w1. split; [done|]. split; [|unfold prompt in *; lia]. rewrite E1, E. destruct k. cbn in Eo. by subst.
  - cbn [flush_loop]. assert (Hp : prompt (late w)) by (unfold prompt; lia). pose proof (ip_poll w Hf Hp) as P. destruct (inb w PS2_STATUS_PORT) as [w1 v].
    destruct P as (E1 & F1 & L1 & _ & Hv). rewrite Hv, E, Hl. destruct (out_buf k) as [|b r] eqn:Eo.
    + rewrite bool_decide_eq_true_2 by done. cbn [negb andb Z.eqb]. exists w1. split; [done|]. split; [|unfold prompt in *; lia]. rewrite E1, E. destruct k. cbn in Eo. by subst.
    + rewrite bool_decide_eq_false_2 by done. cbn [negb andb Z.eqb]. assert (L0 : late w1 = 0) by lia. pose proof (ip_read w1 b r L0) as P. rewrite E1, E in P. specialize (P Eo).
      destruct (inb w1 PS2_DATA_PORT) as [w2 v2]. destruct P as (_ & E2 & F2 & L2). cbn [fst].
      destruct (IH w2 (set_out k r)) as (w' & Ew & Hs); [split; [done|]; split; [unfold prompt in *; lia|done]|cbn in Hn |- *; lia|]. exists w'. by split.
Qed.

(** *** Bytes of the configuration *)

Definition clocks : Z := if dual hw then 0x30 else 0x10.

Lemma config_bits c : 0 <= c < 256 -> (dual hw = false -> has_flag c 0x20 = false) ->
  has_flag (quiet_config (Z.lor c clocks)) (Z.shiftl 1 5) = dual hw /\
  quiet_config (Z.lor c clocks) = Z.ldiff (Z.lor c clocks) 0x43 /\
  (dual hw = true -> has_flag (Z.ldiff (quiet_config (Z.lor c clocks)) 0x20) (Z.shiftl 1 5) = false /\
     Z.lor (Z.ldiff (quiet_config (Z.lor c clocks)) 0x20) 0x20 = quiet_config (Z.lor c clocks)).
Proof.
  intros Hc Hd. unfold clocks.
  assert (G : Forall (fun c => (has_flag c 0x20 = false -> has_flag (quiet_config (Z.lor c 0x10)) (Z.shiftl 1 5) = false) /\ quiet_config (Z.lor c 0x10) = Z.ldiff (Z.lor c 0x10) 0x43 /\
    has_flag (quiet_config (Z.lor c 0x30)) (Z.shiftl 1 5) = true /\ quiet_config (Z.lor c 0x30) = Z.ldiff (Z.lor c 0x30) 0x43 /\
    has_flag (Z.ldiff (quiet_config (Z.lor c 0x30)) 0x20) (Z.shiftl 1 5) = false /\ Z.lor (Z.ldiff (quiet_config (Z.lor c 0x30)) 0x20) 0x20 = quiet_config (Z.lor c 0x30)) (seqZ 0 256))
    by (apply (bool_decide_unpack _); vm_compute; exact I).
  rewrite Forall_forall in G. destruct (G c) as (G1 & G2 & G3 & G4 & G5 & G6); [apply elem_of_seqZ; lia|]. destruct (dual hw); [by repeat split|]. split; [by apply G1, Hd|]. split; [exact G2|done].
Qed.

(** *** The set-up *)

(** The ports that work, and the commands of the set-up: the second port is tried only if
    there is one, and each port that works is enabled. *)
Definition working : Z := Z.lor (if test1 hw =? 0 then 1 else 0) (if dual hw && (test2 hw =? 0) then 2 else 0).

Definition confirm_commands : list Z := if dual hw then [0xA8; 0x20; 0xA7] else [].
Definition test_commands : list Z := 0xAB :: (if dual hw then [0xA9] else []).
Definition enable_commands : list Z :=
  0x20 :: (if test1 hw =? 0 then [0xAE] else []) ++ (if dual hw && (test2 hw =? 0) then [0xA8] else []) ++ [0x60].

Lemma confirm_spec w s1 s2 c t : dual hw = true -> has_flag (Z.ldiff c 0x20) (Z.shiftl 1 5) = false -> Z.lor (Z.ldiff c 0x20) 0x20 = c -> at_work w (plain s1 s2 c t) ->
  exists w', confirm_port2 w = (w', true) /\ at_work w' (plain s1 s2 c (t ++ [0xA8; 0x20; 0xA7])).
Proof.
  intros Hd Hb Hc Hw. unfold confirm_port2. destruct (send_command_spec w _ 0xA8 Hw) as (w1 & -> & Hw1).
  assert (E : command hw (plain s1 s2 c t) 0xA8 = plain s1 s2 (Z.ldiff c 0x20) (t ++ [0xA8])) by (unfold command, effect; cbn; by rewrite Hd). rewrite E in Hw1.
  destruct (read_config_spec w1 _ _ _ _ Hw1) as (w2 & -> & Hw2). rewrite Hb. destruct (send_command_spec w2 _ 0xA7 (settled_at_work _ _ Hw2)) as (w3 & -> & Hw3).
  exists w3. split; [done|]. assert (E' : command hw (plain s1 s2 (Z.ldiff c 0x20) ((t ++ [0xA8]) ++ [0x20])) 0xA7 = plain s1 s2 c (t ++ [0xA8; 0x20; 0xA7])).
  { unfold command, effect. cbn. rewrite Hd. unfold plain. cbn. by rewrite Hc, <- !app_assoc. }
  by rewrite E' in Hw3.
Qed.

Lemma test_spec w s1 s2 c t : at_work w (plain s1 s2 c t) -> exists w', test_ports w (dual hw) = (w', working) /\ at_work w' (plain s1 s2 c (t ++ test_commands)).
Proof.
  intros Hw. unfold test_ports, working, test_commands. destruct (ask_spec w _ 0xAB (test1 hw) Hw eq_refl) as (w1 & -> & Hw1). apply settled_at_work in Hw1.
  destruct (dual hw); [|exists w1; cbn [andb]; by rewrite Z.lor_0_r].
  destruct (ask_spec w1 _ 0xA9 (test2 hw) Hw1 eq_refl) as (w2 & -> & Hw2). apply settled_at_work in Hw2. exists w2. split.
  - cbn [andb]. by destruct (test2 hw =? 0); rewrite ?Z.lor_0_r.
  - unfold plain, command, set_out in Hw2. cbn in Hw2. by rewrite <- app_assoc in Hw2.
Qed.

(** Enabling a port changes the configuration only, which is overwritten. *)
Lemma enable_port_spec w s1 s2 c t k : k ∈ [0xAE; 0xA8] -> at_work w (plain s1 s2 c t) -> exists c', at_work (ps2_send_command w k) (plain s1 s2 c' (t ++ [k])).
Proof.
  intros Hk Hw. destruct (send_command_spec w _ k Hw) as (w2 & -> & Hw2). apply elem_of_cons in Hk as [->|Hk]; [by exists (Z.ldiff c 0x10)|].
  apply list_elem_of_singleton in Hk as ->. destruct (dual hw) eqn:Ed; [exists (Z.ldiff c 0x20)|exists c]; unfold command, effect in Hw2; cbn in Hw2; by rewrite Ed in Hw2.
Qed.

Lemma enable_spec w s1 s2 c t : at_work w (plain s1 s2 c t) -> exists w', enable_ports w working = w' /\ at_work w' (plain s1 s2 (Z.lor c working) (t ++ enable_commands)).
Proof.
  intros Hw. unfold enable_ports. destruct (read_config_spec w _ _ _ _ Hw) as (w1 & -> & Hw1). apply settled_at_work in Hw1.
  unfold working, enable_commands. change (Z.shiftl 1 0) with 1. change (Z.shiftl 1 1) with 2.
  assert (Hfin : forall w' c' t' v l, at_work w' (plain s1 s2 c' t') -> t' ++ [0x60] = t ++ l -> exists w'', write_config w' v = w'' /\ at_work w'' (plain s1 s2 v (t ++ l)))
    by (intros w' c' t' v l Ha <-; by eapply write_config_spec).
  destruct (test1 hw =? 0), (dual hw && (test2 hw =? 0)).
  - change (has_flag (Z.lor 1 2) 1) with true. change (has_flag (Z.lor 1 2) 2) with true. cbv iota beta.
    destruct (enable_port_spec w1 s1 s2 c _ 0xAE ltac:(by left) Hw1) as [c1 Hk1]. destruct (enable_port_spec _ s1 s2 c1 _ 0xA8 ltac:(by right; left) Hk1) as [c2 Hk2].
    rewrite Z.lor_assoc. eapply Hfin; [exact Hk2|]. by rewrite <- !app_assoc.
  - change (has_flag (Z.lor 1 0) 1) with true. change (has_flag (Z.lor 1 0) 2) with false. destruct (enable_port_spec w1 s1 s2 c _ 0xAE ltac:(by left) Hw1) as [c1 Hk1].
    eapply Hfin; [exact Hk1|]. by rewrite <- !app_assoc.
  - change (has_flag (Z.lor 0 2) 1) with false. change (has_flag (Z.lor 0 2) 2) with true. destruct (enable_port_spec w1 s1 s2 c _ 0xA8 ltac:(by right; left) Hw1) as [c1 Hk1].
    eapply Hfin; [exact Hk1|]. by rewrite <- !app_assoc.
  - change (has_flag (Z.lor 0 0) 1) with false. change (has_flag (Z.lor 0 0) 2) with false. rewrite !Z.lor_0_r. eapply Hfin; [exact Hw1|]. by rewrite <- !app_assoc.
Qed.

(** Up to the self-test. *)
Lemma self_test_spec w fuel c out s1 s2 t : settled w (I8042 c ToKeyboard out s1 s2 t) -> (length out <= fuel)%nat -> 0 <= c < 256 ->
  exists w1 w2 w3 q, flush_loop (ps2_send_command (ps2_send_command w 0xAD) 0xA7) fuel = Some w1 /\ read_config w1 = (w2, Z.lor c clocks) /\
    q = quiet_config (Z.lor c clocks) /\ ps2_ask (write_config w2 q) 0xAA = (w3, self_test hw) /\
    at_work w3 (plain s1 s2 (reset_cfg hw) (t ++ [0xAD; 0xA7; 0x20; 0x60; 0xAA])).
Proof.
  intros Hw Hn Hc. destruct (send_command_settled w _ 0xAD Hw eq_refl) as (w1 & -> & Hw1).
  assert (E7 : command hw (command hw (I8042 c ToKeyboard out s1 s2 t) 0xAD) 0xA7 = I8042 (Z.lor c clocks) ToKeyboard out s1 s2 (t ++ [0xAD; 0xA7])).
  { unfold command, effect, clocks. cbn. destruct (dual hw); unfold set_cfg; cbn; by rewrite <- ?Z.lor_assoc, <- app_assoc. }
  destruct (send_command_settled w1 _ 0xA7 Hw1) as (w2 & -> & Hw2); [by rewrite E7|]. rewrite E7 in Hw2.
  destruct (flush_spec fuel w2 _ Hw2) as (w3 & -> & Hw3); [done|]. change (settled w3 (plain s1 s2 (Z.lor c clocks) (t ++ [0xAD; 0xA7]))) in Hw3. apply settled_at_work in Hw3.
  destruct (read_config_spec w3 _ _ _ _ Hw3) as (w4 & E4 & Hw4). apply settled_at_work in Hw4. set (q := quiet_config (Z.lor c clocks)).
  destruct (write_config_spec w4 _ _ _ _ q Hw4) as (w5 & E5 & Hw5). destruct (ask_spec w5 _ 0xAA (self_test hw) Hw5 eq_refl) as (w6 & E6 & Hw6). apply settled_at_work in Hw6.
  exists w3, w4, w6, q. rewrite E4, E5, E6. split_and!; try done. unfold command, plain, set_out in Hw6. cbn in Hw6. by rewrite <- !app_assoc in Hw6.
Qed.

(** C37.  A controller that answers in time, with any bytes left over in its buffer.  If it
    fails its self-test the driver reports no port and stops there.  If not, it reports
    exactly the ports that pass their test, a second one only if there is one; the
    controller has got exactly the commands of the set-up, which enable each port that
    works; nothing is left to be read, the interrupts of exactly these ports are on, and
    the translation is off.  The clocks of the ports, however, are stopped again at the
    end: the configuration written last is the one read before the ports were enabled. *)
Theorem ps2_controller_init_correct w fuel c out s1 s2 t : settled w (I8042 c ToKeyboard out s1 s2 t) -> (length out <= fuel)%nat ->
  0 <= c < 256 -> (dual hw = false -> has_flag c 0x20 = false) ->
  exists w' ports, ps2_controller_init w fuel = Some (w', ports) /\
    if decide (self_test hw = 0x55) then
      ports = working /\ ctl w' = plain s1 s2 (Z.lor (Z.ldiff (Z.lor c clocks) 0x43) working)
        (t ++ [0xAD; 0xA7; 0x20; 0x60; 0xAA; 0x60] ++ confirm_commands ++ test_commands ++ enable_commands)
    else ports = 0 /\ ctl w' = plain s1 s2 (reset_cfg hw) (t ++ [0xAD; 0xA7; 0x20; 0x60; 0xAA]).
Proof.
  intros Hw Hn Hc Hd. unfold ps2_controller_init. destruct (config_bits c Hc Hd) as (B1 & B2 & B3).
  destruct (self_test_spec w fuel c out s1 s2 t Hw Hn Hc) as (w1 & w2 & w3 & q & -> & E2 & -> & E3 & Hw3). cbn [mbind option_bind]. rewrite E2. cbv zeta. rewrite E3.
  destruct (Z.eqb_spec (self_test hw) 0x55) as [Ht|Ht]; cbn [negb].
  2: { do 2 eexists. split; [done|]. rewrite decide_False by done. split; [done|]. rewrite ip_print, ip_color. apply Hw3. }
  destruct (write_config_spec w3 s1 s2 (reset_cfg hw) _ (quiet_config (Z.lor c clocks)) Hw3) as (w7 & -> & Hw7). rewrite B1.
  assert (Hcf : exists w8, (if dual hw then confirm_port2 w7 else (w7, false)) = (w8, dual hw) /\
    at_work w8 (plain s1 s2 (quiet_config (Z.lor c clocks)) (t ++ [0xAD; 0xA7; 0x20; 0x60; 0xAA; 0x60] ++ confirm_commands))).
  { rewrite <- app_assoc in Hw7. unfold confirm_commands. destruct (dual hw) eqn:Edual; [|exists w7; by rewrite app_nil_r].
    destruct (B3 eq_refl) as [B31 B32]. destruct (confirm_spec w7 _ _ _ _ Edual B31 B32 Hw7) as (w8 & E8 & Hw8). exists w8. by rewrite <- app_assoc in Hw8. }
  destruct Hcf as (w8 & -> & Hw8). destruct (test_spec w8 _ _ _ _ Hw8) as (w9 & -> & Hw9). destruct (enable_spec w9 _ _ _ _ Hw9) as (wa & -> & Hwa).
  do 2 eexists. split; [done|]. rewrite decide_True by done. split; [done|]. unfold boot_line. rewrite !ip_print, !ip_color, ip_print, ip_color.
  rewrite B2, <- !app_assoc in Hwa. apply Hwa.
Qed.

(** *** The keyboard *)

Lemma tell_spec w s1 s2 c t v b r : at_work w (plain s1 s2 c t) -> answer1 hw (s1 ++ [v]) = b :: r ->
  exists w', tell_keyboard w v = w' /\ settled w' (set_out (plain (s1 ++ [v]) s2 c t) r).
Proof.
  intros Hw Ha. unfold tell_keyboard. destruct (send_data_spec w _ v Hw) as (w1 & -> & Hw1). destruct (data_read_spec w1 _ b r Hw1) as (w2 & -> & Hw2); [done|]. by exists w2.
Qed.

Lemma drain_spec w s1 s2 c t b : settled w (set_out (plain s1 s2 c t) [b]) -> settled (drain_one w) (plain s1 s2 c t).
Proof.
  intros (E & Hf & Hl). unfold drain_one. assert (Hp : prompt (late w)) by (unfold prompt; lia). pose proof (ip_poll w Hf Hp) as P. destruct (inb w PS2_STATUS_PORT) as [w1 v].
  destruct P as (E1 & F1 & L1 & _ & Hv). rewrite Hv, E, Hl. cbn [plain set_out out_buf]. rewrite bool_decide_eq_false_2 by done. cbn [negb andb Z.eqb].
  assert (L0 : late w1 = 0) by lia. pose proof (ip_read w1 b [] L0) as P. rewrite E1, E in P. specialize (P eq_refl).
  destruct (inb w1 PS2_DATA_PORT) as [w2 v2]. destruct P as (_ & E2 & F2 & L2). cbn [fst]. split; [exact E2|]. split; [unfold prompt in *; lia|exact L2].
Qed.

(** Ports of other devices. *)
Lemma mask_ctl w n : ctl (pic_clear_mask w n) = ctl w.
Proof.
  unfold pic_clear_mask. assert (Ho : exists p b, pic_port n = (p, b) /\ p <> PS2_DATA_PORT /\ p <> PS2_COMMAND_PORT) by (unfold pic_port; case_match; do 2 eexists; done).
  destruct Ho as (p & b & -> & Hp & Hc). destruct (inb w p) as [w1 v] eqn:E. rewrite (proj1 (ip_other w1 p _ Hp Hc)). pose proof (proj2 (ip_other w p 0 Hp Hc)) as Hi. by rewrite E in Hi.
Qed.

Lemma boot_ctl w t : ctl (boot_line w t) = ctl w.
Proof. unfold boot_line. by rewrite !ip_print, !ip_color, ip_print, ip_color. Qed.

End i8042.

(** *** The keyboard *)

Section keyboard.
Context {W : Type} `{InputMachine W} (hw : board) {ctl : W -> i8042} {full late : W -> Z} `{!I8042Ports hw ctl full late}.

Notation at_work := (at_work (ctl := ctl) (full := full) (late := late)).

(** The keyboard answers each byte with an acknowledgement, a reset with the result of its
    test too. *)
Definition acknowledges : Prop := forall h v, answer1 hw (h ++ [v]) = if v =? 0xFF then [0xFA; 0xAA] else [0xFA].

(** The keyboard gets the reset, the choice of the scan code set and the order to scan, no
    answer is left, and the handler is there. *)
Lemma ps2_keyboard_init_ready w h c s1 s2 t : at_work w (plain s1 s2 c t) -> acknowledges -> Z.of_nat (length (isr_handlers h)) = 256 ->
  let '(w', h') := ps2_keyboard_init w h in
  ctl w' = plain (s1 ++ [0xFF; 0xF0; 0x02; 0xF4]) s2 c t /\ isr_handlers h' !! Z.to_nat IRQ1 = Some (Some keyboard_isr).
Proof.
  intros Hw Ha Hn. unfold ps2_keyboard_init. cbv zeta.
  destruct (tell_spec hw w s1 s2 c t 0xFF _ _ Hw (Ha s1 0xFF)) as (w1 & -> & Hw1). apply (drain_spec hw), settled_at_work in Hw1. set (w2 := drain_one w1) in *.
  destruct (tell_spec hw w2 _ s2 c t 0xF0 _ _ Hw1 (Ha _ 0xF0)) as (w3 & -> & Hw3). apply settled_at_work in Hw3.
  destruct (tell_spec hw w3 _ s2 c t 0x02 _ _ Hw3 (Ha _ 0x02)) as (w4 & -> & Hw4). apply settled_at_work in Hw4.
  destruct (tell_spec hw w4 _ s2 c t 0xF4 _ _ Hw4 (Ha _ 0xF4)) as (w5 & -> & Hw5). split.
  - cbn [fst]. rewrite (boot_ctl hw (full := full) (late := late)), (mask_ctl hw (full := full) (late := late)). destruct Hw5 as [-> _]. cbn [plain set_out sent1]. unfold plain, set_out. cbn. by rewrite <- !app_assoc.
  - unfold isr_register_handler. cbn [isr_handlers]. unfold aset. apply list_lookup_insert_eq. unfold IRQ1. lia.
Qed.

End keyboard.

(** ** A controller with delays

    A byte is taken after three polls, an answer is there after five. *)

Record pc := Pc { p_ctl : i8042; p_full : nat; p_late : nat }.

Definition pc_status (w : pc) : Z :=
  Z.lor (if decide (p_late w = 0%nat /\ out_buf (p_ctl w) <> []) then 1 else 0) (if decide (p_full w = 0%nat) then 0 else 2).

(** The controller after a byte that gives [k]. *)
Definition pc_take (w : pc) (k : i8042) : pc := Pc k 3 (if decide (out_buf k = out_buf (p_ctl w)) then p_late w else 5).

Definition pc_outb (hw : board) (w : pc) (p v : Z) : pc :=
  if p =? PS2_COMMAND_PORT then pc_take w (command hw (p_ctl w) v) else if p =? PS2_DATA_PORT then pc_take w (data_byte hw (p_ctl w) v) else w.

Definition pc_inb (w : pc) (p : Z) : pc * Z :=
  if p =? PS2_STATUS_PORT then (Pc (p_ctl w) (pred (p_full w)) (pred (p_late w)), pc_status w)
  else if p =? PS2_DATA_PORT then
    match p_late w, out_buf (p_ctl w) with O, b :: r => (Pc (set_out (p_ctl w) r) (p_full w) 0, b) | _, _ => (w, 0) end
  else (w, 0).

#[local] Instance pc_machine (hw : board) : InputMachine pc := {|
  im_ports := {|
    pm_machine := {| outl := fun w _ _ => w; outw := fun w _ _ => w; outb := pc_outb hw; inl := fun w _ => (w, 0); cpu_flags := fun _ => 0;
                     set_cpu_flags := fun w _ => w; kprintf_set_color := fun w _ _ => w; kprint := fun w _ => w |};
    inb := pc_inb; inw := fun w _ => (w, 0); pit_get_ticks := fun w => (w, 0) |};
  get_keyboard := fun _ => Keyboard 0 false false; set_keyboard := fun w _ => w; get_mouse := fun _ => Mouse [] 0 false 0; set_mouse := fun w _ => w; push_event := fun w _ => w |}.

Notation pc_full := (fun w => Z.of_nat (p_full w)).
Notation pc_late := (fun w => Z.of_nat (p_late w)).

Lemma pc_take_spec w k : prompt (Z.of_nat (p_late w)) ->
  p_ctl (pc_take w k) = k /\ prompt (pc_full (pc_take w k)) /\ prompt (pc_late (pc_take w k)) /\ (out_buf k = out_buf (p_ctl w) -> pc_late (pc_take w k) <= pc_late w).
Proof. intros Hl. unfold pc_take, prompt in *. cbn [p_ctl p_full p_late]. case_decide as Hd; (split; [done|]; split; [lia|]; split; [lia|]); intros E; [lia|by destruct Hd]. Qed.

#[local] Instance pc_controller (hw : board) : I8042Ports (H := @im_ports _ (pc_machine hw)) hw p_ctl pc_full pc_late.
Proof.
  split; try done.
  - intros w _ _. cbn [inb im_ports pc_machine]. unfold pc_inb. cbn [Z.eqb Pos.eqb PS2_STATUS_PORT p_ctl p_full p_late]. split; [done|]. split; [lia|]. split; [lia|].
    unfold pc_status. destruct (p_full w) as [|f], (p_late w) as [|l], (out_buf (p_ctl w)) as [|b r] eqn:Eo; rewrite ?Eo; split; done.
  - intros w. split; [done|]. cbn. lia.
  - intros w c _ Hl. cbv zeta. apply (pc_take_spec w (command hw (p_ctl w) c) Hl).
  - intros w v _ Hl. cbv zeta. apply (pc_take_spec w (data_byte hw (p_ctl w) v) Hl).
  - intros w b r Hl Ho. cbn [inb im_ports pc_machine]. unfold pc_inb. cbn [Z.eqb Pos.eqb PS2_STATUS_PORT PS2_DATA_PORT]. assert (El : p_late w = 0%nat) by lia. rewrite El, Ho.
    split; [done|]. split; [done|]. cbn [p_full p_late]. lia.
  - intros w p v Hp Hc. cbn [outb inb pm_machine im_ports pc_machine]. unfold pc_outb, pc_inb. change PS2_STATUS_PORT with PS2_COMMAND_PORT.
    by rewrite (proj2 (Z.eqb_neq _ _) Hp), (proj2 (Z.eqb_neq _ _) Hc).
Qed.

(** Two ports, the second without a device; the keyboard as it should be. *)
Definition pc_board : board := Board 0x55 0 1 true 0x30 (fun h => if bool_decide (last h = Some 0xFF) then [0xFA; 0xAA] else [0xFA]) (fun _ => [0xFA]).

(** A key pressed during the boot is in the buffer. *)
Definition pc_off : pc := Pc (I8042 0x47 ToKeyboard [0x1C] [] [] []) 0 0.

Lemma ps2_controller_init_correct_witness : exists w', ps2_controller_init (H := @im_ports _ (pc_machine pc_board)) pc_off 16 = Some (w', 1) /\
  p_ctl w' = plain [] [] 0x35 [0xAD; 0xA7; 0x20; 0x60; 0xAA; 0x60; 0xA8; 0x20; 0xA7; 0xAB; 0xA9; 0x20; 0xAE; 0x60].
Proof.
  destruct (ps2_controller_init_correct (H := @im_ports _ (pc_machine pc_board)) pc_board pc_off 16 0x47 [0x1C] [] [] []) as (w' & ports & E & Ek).
  - split; [done|]. split; [unfold prompt; cbn; lia|done].
  - cbn. lia.
  - lia.
  - done.
  - rewrite decide_True in Ek by done. destruct Ek as [-> Ek]. exists w'. split; [exact E|]. rewrite Ek. reflexivity.
Defined.

(** The clocks of both ports are stopped by the configuration written last. *)
Example ports_left_disabled : exists w', ps2_controller_init (H := @im_ports _ (pc_machine pc_board)) pc_off 16 = Some (w', 1) /\ Z.land (cfg (p_ctl w')) 0x30 = 0x30.
Proof. eexists. split; [vm_compute; reflexivity|]. reflexivity. Qed.

(** A keyboard whose test ends only when the next byte is sent: its result is taken for
    the answer to that byte, and one answer is left for the handler. *)
Definition slow_board : board := Board 0x55 0 1 true 0x30 (fun h => if bool_decide (h = [0xFF; 0xF0]) then [0xAA; 0xFA] else [0xFA]) (fun _ => [0xFA]).

Example late_self_test_leaves_answer : forall h,
  out_buf (p_ctl (ps2_keyboard_init (H := pc_machine slow_board) (Pc (plain [] [] 0x25 []) 0 0) h).1) = [0xFA].
Proof. intros h. vm_compute. reflexivity. Qed.
